(* ===== verification/_CoqProject ===== *)
-Q . S2P
Prelude.v
TdsTypes.v
Utf16.v
Packet.v
Socket.v
ColumnMetadata.v
RowReader.v
TokenParser.v
Protocol.v
LoginResponse.v
Connection.v
ConnectionSpec.v
Pool.v
PoolSpec.v
Values.v
Encoding.v
Codecs.v
CodecsSpec.v
BcpRow.v
BcpRowSpec.v
Scatter.v
ScatterCells.v
ScatterSpec.v
ChunkSpec.v
BcpWriter.v
BcpWriterSpec.v
Sql.v
SqlRead.v
Calendar.v
Literals.v
FloatSpec.v
LiteralsSpec.v
Dml.v
DmlSpec.v
DmlRun.v
TokenEvents.v
Query.v
QuerySpec.v
Filter.v
SqlExpr.v
FilterSem.v
FilterSpec.v
FilterSound.v
Text.v
ConnectionInfo.v
InstanceResolver.v
ConnectionInfoSpec.v
InstanceResolverSpec.v
CatalogFilter.v
CatalogFilterSpec.v
Attach.v
AttachSpec.v
