(* ===== verification/Prelude.v ===== *)
(** * A verification of the DuckDB extension for Microsoft SQL Server

    The extension (src/src) lets DuckDB query and write SQL Server tables. It
    speaks TDS, the server's wire protocol, over a TCP or TLS socket of its own:
    a pool hands connections out, a connection logs in and sends batches, a
    socket cuts the byte stream into frames and messages, a token parser turns a
    message into columns and rows, and above that sit result streams, scans, the
    insert, update and bulk-copy paths and the catalog. This library models the
    protocol stack from the bytes to the pool, and parts of what is above it.

    ** The files

    Each file is one component, and opens with what it holds. Names are the
    source's; a definition that has no function of its own in the source is a
    stretch of one.

    - [Prelude]: bytes, little- and big-endian reads that can leave the buffer,
      the result type [res], tactics, lemmas on lists and words.
    - [TdsTypes]: include/tds/tds_types.hpp.
    - [Utf16]: tds/encoding/utf16.cpp.
    - [Packet]: tds/tds_packet.cpp. [Socket]: tds/tds_socket.cpp.
    - [ColumnMetadata], [RowReader], [TokenParser]: tds/tds_column_metadata.cpp,
      tds_row_reader.cpp, tds_token_parser.cpp; what a server sends.
    - [Protocol], [LoginResponse]: tds/tds_protocol.cpp; what the client sends,
      and the scanners of whole responses.
    - [Connection], [ConnectionSpec]: tds/tds_connection.cpp and its contract.
    - [Pool], [PoolSpec]: tds/tds_connection_pool.cpp and its contract.
    - [Values]: machine words as bytes, DuckDB's vectors and types as far as
      the codecs look at them, copy/target_resolver.hpp's target column.
    - [Encoding]: tds/encoding/decimal_encoding.cpp, datetime_encoding.cpp,
      guid_encoding.cpp and the encoders of single values in
      bcp_row_encoder.cpp.
    - [Codecs], [CodecsSpec]: codec/ (one Module per family) and what each
      family promises: how a value of a vector is written, and read.
    - [BcpRow], [BcpRowSpec]: the rows of a bulk load, row by row, in
      tds/encoding/bcp_row_encoder.cpp.
    - [Scatter], [ScatterCells], [ScatterSpec], [ChunkSpec]: the columnar path of
      a chunk (EncodeChunk in bcp_row_encoder.cpp, codec/write_column_ops.cpp,
      codec/scatter_position.hpp and the batch kernels of codec/); that a
      kernel's cell is the codec's value; that a column fills its slots; and
      that the chunk is that of the row path.
    - [BcpWriter], [BcpWriterSpec]: copy/bcp_writer.cpp, the tokens, frames and
      answer of a bulk load.
    - [Sql], [Literals]: quoting and the SQL literals of codec/,
      dml/insert/mssql_value_serializer.cpp. [SqlRead], [Calendar], [FloatSpec],
      [LiteralsSpec]: a reader of the Transact-SQL the code writes, a Gregorian
      calendar with its own readers of dates and times, and what the literals
      mean to them.
    - [Dml], [DmlSpec], [DmlRun]: dml/, the statements of INSERT, UPDATE and
      DELETE, the batching, the executors and the DuckDB sinks over them, against
      a server that answers statements.
    - [TokenEvents], [Query], [QuerySpec]: the tokens a message holds; the
      response loop of the executors (a server over one connection) and
      query/mssql_simple_query.cpp.
    - [Filter]: table_scan/filter_encoder.cpp and function_mapping.cpp, DuckDB's
      filters as the text of a WHERE clause. [SqlExpr]: a reader of T-SQL
      conditions, on the lexer of [SqlRead]. [FilterSem], [FilterSpec],
      [FilterSound]: what a filter and a condition mean in three-valued logic,
      and that the encoder keeps the meaning.
    - [Text]: what the parsers below use of std::string and DuckDB's StringUtil.
    - [ConnectionInfo], [ConnectionInfoSpec]: mssql_storage.cpp, connection
      strings, URIs and secrets as the settings of a connection, against both
      forms written out as relations; the application's name.
    - [InstanceResolver], [InstanceResolverSpec]: connection/instance_resolver.cpp,
      the SQL Server Browser's answer, against a server that writes it.
    - [CatalogFilter], [CatalogFilterSpec]: catalog/mssql_catalog_filter.cpp,
      regular expressions as LIKE, against what both mean.
    - [Attach], [AttachSpec]: ATTACH in mssql_storage.cpp with mssql_secret.cpp,
      connection/mssql_settings.cpp and the endpoints of azure/azure_fedauth.cpp.

    ** How the parts meet

    [Connection] calls [Protocol] for the packets it sends, [Socket] to send and
    receive, [LoginResponse] for the answers. [TokenParser] feeds the bytes of a
    message to [ColumnMetadata] and [RowReader]. [Pool] uses connections through
    the class [Connections], with the laws [ConnectionsSpec].
    The value encoders and decoders are functions between words and bytes; they
    need nothing of the connection. [BcpRow] puts the encoders of [Codecs] into
    rows, which [RowReader] reads. [Scatter] writes the same rows by columns, at
    places computed beforehand. [BcpWriter] puts the chunks of [Scatter] between
    a COLMETADATA and a DONE and sends them over the connection of [Connection];
    what it sends is a stream [Socket], [ColumnMetadata] and [RowReader] take
    apart again. The executors of [Dml] see a class [Server]; [Query.statement]
    is that server on the connection of [Connection], reading with [Socket] and
    [TokenParser]. The literals and names in a WHERE clause are those of [Sql] and
    [Literals]; what is encoded and what is left to DuckDB are one result. What
    DuckDB does for the literals is the class [Values_], its calendar tied to
    [Calendar] by a law. [Attach] puts [ConnectionInfo] and [InstanceResolver]
    together; the platform, name resolution with UDP and std::regex are the
    classes [Platform], [Udp] and [Regex].

    ** Effects

    A [uint8_t] in memory is a [byte] and its value a [Z]; an integer of a width
    is a [Z], with the wrap-around written out where the code can reach it. A
    function that reads a buffer returns in [res]: a value, an exception, or
    [Oob] for a read or write outside the buffer; the safety theorems say that
    [Oob] does not happen. Objects are records passed along; [Connection] and
    [Pool] have monads of their own in which a call can throw with the object as
    it is then.

    ** What the theorems show

    - Round trips and layouts: packets, UTF-16, LOGIN7, batches, rows and
      columns are read back as what was written, and each message is what its
      own header says.
    - Safety: on any bytes a server sends, every parser stays inside its
      buffer, ends, and throws only what is listed.
    - Incremental reading: what a parser returns does not depend on how the
      stream is cut into packets or [recv] results.
    - Contracts: the operations of a connection follow the state machine of
      [ConnectionState]; a pool never gives a connection to two clients, and its
      statistics count what is there, under any interleaving and any failure.
    - Values: decimals, GUIDs, dates and times of day are read back as what was
      written, or as the nearest value the column can hold; integers, decimals,
      timestamps and text in a column of another width or scale are converted,
      rounded, cut or refused as [CodecsSpec] says.
    - Bulk load: the reader of rows takes back what the row encoder wrote; the
      columnar path writes the row path's bytes, in bounds, or throws where it
      throws. A batch is one message however much of it is drained early, and is
      read back as the target's columns, the rows and the count; the server's
      answer is taken as what it says, or the connection is closed.
    - SQL: every literal is read back as its value, a floating-point one as the
      nearest number, a date or time as its day or tick (a string with T-SQL's line
      continuation is lost and left out); INSERT, UPDATE and DELETE send every row once and in order,
      in statements that say exactly that; what they count and how they report the
      refusal of any of them. The answer to a statement or a simple query is that of the bytes
      of the response, however they are cut.
    - Pushdown: the WHERE clause and the filters left to DuckDB together pass
      exactly the rows the filters pass, under the conditions [entry_ok] names; the
      condition for a catalog filter hides no name.
    - Settings: a connection string in either form is read as what it says; a
      named instance is where its server says; an accepted ATTACH has one login.

    ** Fuel

    A loop whose end the data decides runs on fuel. Where the code ends on every
    input, a theorem gives the fuel that is enough (the length of the buffer for
    the parsers, the number of frames for the splitters, the bytes on their way
    for the socket); a loop that a peer can keep busy for ever (attention, a
    message without end) has [Running] as one of its results, and theorems about
    it hold for any fuel.

    ** Parameters

    [Simdutf] (the conversion library), [Transport] (the system calls of a
    socket and the TLS library), [Authenticator] (an integrated login's token
    source), [DuckDB] and [Values_] (DuckDB's conversions and texts of values),
    [Server] (who answers the statements of [Dml]), [Engines] (how the two systems
    compute), [Udp], [Regex] and [Platform], the clock, the process id and the
    host name, with what the code relies on as laws of the class. Each class has
    a concrete instance, on which the theorems are run.

    ** Not modelled

    TLS and the authentication libraries (calls into OpenSSL, Kerberos, SSPI and
    Azure); DuckDB's own types, operators and catalog interfaces, so of the code
    that fills or reads DuckDB vectors only what computes on values; debug
    output and timing. Result streams, the scan over
    them, and of the catalog all but its filters are not modelled. *)

From Stdlib Require Strings.Byte.
From Stdlib Require Export ZArith Lia.
From stdpp Require Export base list list_numbers numbers option strings gmap.

Open Scope Z_scope.

(** [lia] with [/] and [mod] by constants. *)
Ltac zlia := Z.to_euclidean_division_equations; lia.

(** ** Bytes

    A [uint8_t] in memory is a [byte]; its value is a [Z] in [0, 255].
    [z2b] is [static_cast<uint8_t>]: it keeps the low eight bits. *)

Abbreviation byte := Byte.byte.
Abbreviation bytes := (list Byte.byte).

#[export] Instance byte_eq_dec : EqDecision byte := Byte.byte_eq_dec.

Definition b2z (b : byte) : Z := Z.of_N (Byte.to_N b).

Definition z2b (z : Z) : byte :=
  match Byte.of_N (Z.to_N (z mod 256)) with Some b => b | None => Byte.x00 end.

(** Concrete buffers are written as lists of numbers. *)
Definition bs (l : list Z) : bytes := z2b <$> l.

Lemma b2z_range (b : byte) : 0 <= b2z b < 256.
Proof. unfold b2z. pose proof (Byte.to_N_bounded b). lia. Qed.

Lemma b2z_z2b (z : Z) : b2z (z2b z) = z mod 256.
Proof.
  unfold z2b, b2z.
  pose proof (Z.mod_pos_bound z 256 ltac:(lia)) as Hb.
  destruct (Byte.of_N (Z.to_N (z mod 256))) as [b|] eqn:E.
  - apply Byte.to_of_N in E. rewrite E. lia.
  - apply Byte.of_N_None_iff in E. lia.
Qed.

Lemma b2z_z2b_small (z : Z) : 0 <= z < 256 -> b2z (z2b z) = z.
Proof. intros H. rewrite b2z_z2b. apply Z.mod_small, H. Qed.

Lemma b2z_inj (a b : byte) : b2z a = b2z b -> a = b.
Proof.
  unfold b2z. intros H%N2Z.inj.
  pose proof (Byte.of_to_N a) as Ea. pose proof (Byte.of_to_N b) as Eb.
  rewrite H in Ea. congruence.
Qed.

Lemma z2b_b2z (b : byte) : z2b (b2z b) = b.
Proof.
  apply b2z_inj. rewrite b2z_z2b. apply Z.mod_small, b2z_range.
Qed.

#[export] Instance b2z_Inj : Inj (=) (=) b2z := b2z_inj.

(** Decide a statement about one byte by trying all 256 of them. *)
Definition all_bytes : list Z := seqZ 0 256.

Lemma byte_values_ind (P : Z -> Prop) `{forall z, Decision (P z)} :
  forallb (fun z => bool_decide (P z)) all_bytes = true -> forall b : byte, P (b2z b).
Proof.
  intros Hall b. rewrite forallb_forall in Hall.
  assert (Hin : List.In (b2z b) all_bytes).
  { apply list_elem_of_In, elem_of_seqZ. pose proof (b2z_range b). lia. }
  specialize (Hall _ Hin). by apply bool_decide_eq_true in Hall.
Qed.

(** ** Lengths in [Z] *)

Definition zlen {A} (l : list A) : Z := Z.of_nat (length l).

Lemma zlen_nonneg {A} (l : list A) : 0 <= zlen l.
Proof. unfold zlen. lia. Qed.

Lemma zlen_nil {A} : zlen (@nil A) = 0.
Proof. done. Qed.

Lemma zlen_cons {A} (x : A) l : zlen (x :: l) = 1 + zlen l.
Proof. unfold zlen. simpl. lia. Qed.

Lemma zlen_app {A} (l k : list A) : zlen (l ++ k) = zlen l + zlen k.
Proof. unfold zlen. rewrite length_app. lia. Qed.

Lemma zlen_0_nil {A} (l : list A) : zlen l = 0 -> l = [].
Proof. unfold zlen. destruct l; simpl; [done|lia]. Qed.

(** [zdrop n l] and [ztake n l] with [Z] offsets: the view of a buffer a
    pointer advanced by [n] has, and its first [n] bytes. *)
Definition zdrop {A} (n : Z) (l : list A) : list A := drop (Z.to_nat n) l.
Definition ztake {A} (n : Z) (l : list A) : list A := take (Z.to_nat n) l.

Lemma zlen_zdrop {A} n (l : list A) : 0 <= n <= zlen l -> zlen (zdrop n l) = zlen l - n.
Proof. unfold zlen, zdrop. rewrite length_drop. lia. Qed.

Lemma zlen_zdrop_le {A} n (l : list A) : zlen (zdrop n l) <= zlen l.
Proof. unfold zlen, zdrop. rewrite length_drop. lia. Qed.

Lemma zlen_ztake {A} n (l : list A) : 0 <= n <= zlen l -> zlen (ztake n l) = n.
Proof. unfold zlen, ztake. rewrite length_take. lia. Qed.

Lemma zdrop_0 {A} (l : list A) : zdrop 0 l = l.
Proof. done. Qed.

Lemma zdrop_zdrop {A} m n (l : list A) :
  0 <= m -> 0 <= n -> zdrop m (zdrop n l) = zdrop (n + m) l.
Proof. intros. unfold zdrop. rewrite drop_drop. f_equal. lia. Qed.

Lemma zdrop_app_le {A} n (l k : list A) :
  n <= zlen l -> zdrop n (l ++ k) = zdrop n l ++ k.
Proof. unfold zdrop, zlen. intros. rewrite drop_app_le; [done|lia]. Qed.

Lemma zdrop_app_length {A} (l k : list A) n : n = zlen l -> zdrop n (l ++ k) = k.
Proof. intros ->. unfold zdrop, zlen. rewrite Nat2Z.id. apply drop_app_length. Qed.

Lemma ztake_app_length {A} (l k : list A) n : n = zlen l -> ztake n (l ++ k) = l.
Proof. intros ->. unfold ztake, zlen. rewrite Nat2Z.id. apply take_app_length. Qed.

Lemma ztake_app_le {A} n (l k : list A) :
  n <= zlen l -> ztake n (l ++ k) = ztake n l.
Proof. unfold ztake, zlen. intros. rewrite take_app_le; [done|lia]. Qed.

Lemma ztake_zdrop {A} n (l : list A) : ztake n l ++ zdrop n l = l.
Proof. apply take_drop. Qed.

Create HintDb tds.
Create Rewrite HintDb zlen.
#[export] Hint Rewrite @zlen_nil @zlen_cons @zlen_app : zlen.

(** ** Results of a call

    A call returns ([Ok]), throws ([Exn], one constructor per [throw] site of
    the modelled code, with the values its message shows), or reads outside the
    memory it was given ([Oob]: undefined behaviour in C++). The theorems show
    [Oob] out of reach; nothing in the model recovers from it. *)
Inductive exn : Type :=
  | InvalidPacketLength
  | UnsupportedSqlType (type_id : Z)
  | ScaleOutOfRange (column_name : list Byte.byte) (scale : Z)
  | LobLengthOutOfRange (data_length : Z)
  | UnsupportedRowType (type_id : Z)
  | UnsupportedNbcType (type_id : Z)
  | UnknownFixedType (type_id : Z)
  | Login7FieldTooLong (field_name : string) (code_units : Z)
  | SspiOffsetTooLarge
  | InvalidInput (message : string)
  | BinderError (message : string)
  | InternalError (message : string)
  | NotImplemented (message : string)
  | IOError (message : string).

Inductive res (A : Type) : Type :=
  | Ok (a : A)
  | Exn (e : exn)
  | Oob.
Arguments Ok {A} a.
Arguments Exn {A} e.
Arguments Oob {A}.

#[export] Instance exn_eq_dec : EqDecision exn.
Proof. solve_decision. Defined.

#[export] Instance res_eq_dec {A} `{EqDecision A} : EqDecision (res A).
Proof. solve_decision. Defined.

#[export] Instance res_ret : MRet res := @Ok.
#[export] Instance res_bind : MBind res :=
  fun A B f m => match m with Ok a => f a | Exn e => Exn e | Oob => Oob end.

(** [holds m Q]: [m] reads only inside its memory, and if it returns normally
    its result satisfies [Q]. *)
Definition holds {A} (m : res A) (Q : A -> Prop) : Prop :=
  match m with Ok a => Q a | Exn _ => True | Oob => False end.

Lemma holds_ret {A} (a : A) (Q : A -> Prop) : Q a -> holds (Ok a) Q.
Proof. done. Qed.

Lemma holds_exn {A} e (Q : A -> Prop) : holds (Exn e) Q.
Proof. done. Qed.

Lemma holds_bind {A B} (m : res A) (f : A -> res B) Q :
  holds m (fun a => holds (f a) Q) -> holds (m ≫= f) Q.
Proof. by destruct m. Qed.

Lemma holds_mono {A} (m : res A) (P Q : A -> Prop) :
  holds m P -> (forall a, P a -> Q a) -> holds m Q.
Proof. destruct m; simpl; auto. Qed.

Lemma holds_and {A} (m : res A) (P Q : A -> Prop) :
  holds m P -> holds m Q -> holds m (fun a => P a /\ Q a).
Proof. destruct m; simpl; auto. Qed.

Lemma holds_if {A} (b : bool) (m k : res A) Q :
  (b = true -> holds m Q) -> (b = false -> holds k Q) -> holds (if b then m else k) Q.
Proof. destruct b; auto. Qed.

Lemma holds_safe {A} (m : res A) Q : holds m Q -> m <> Oob.
Proof. by destruct m. Qed.

Lemma holds_Ok {A} (m : res A) Q a : holds m Q -> m = Ok a -> Q a.
Proof. intros H ->. exact H. Qed.

Lemma bind_Ok {A B} (m : res A) (f : A -> res B) b :
  m ≫= f = Ok b -> exists a, m = Ok a /\ f a = Ok b.
Proof. destruct m; simpl; try done. eauto. Qed.

(** *** Partial input

    A parser that finds its input incomplete returns [false] or 0 and is called
    again with more bytes. [res (option A)] is such a call, [more] the
    incomplete case, and [x <~ m; k] goes on only with a complete result. *)
Definition more {A} : res (option A) := Ok None.

Definition obind {A B} (m : res (option A)) (f : A -> res (option B)) : res (option B) :=
  o ← m; match o with Some a => f a | None => Ok None end.

Declare Scope tds_scope.
Delimit Scope tds_scope with tds.
Notation "x <~ m ; k" := (obind m (fun x => k))
  (at level 20, m at level 100, k at level 200, right associativity) : tds_scope.
Notation "' p <~ m ; k" := (obind m (fun p => k))
  (at level 20, p pattern, m at level 100, k at level 200, right associativity) : tds_scope.
Open Scope tds_scope.

(** [holds] for a partial result: what is true of it if it is complete. *)
Definition holds_some {A} (m : res (option A)) (Q : A -> Prop) : Prop :=
  holds m (fun o => match o with Some a => Q a | None => True end).

Lemma holds_more {A} (Q : A -> Prop) : holds_some more Q.
Proof. done. Qed.

Lemma holds_some_ret {A} (a : A) (Q : A -> Prop) : Q a -> holds_some (Ok (Some a)) Q.
Proof. done. Qed.

Lemma holds_obind {A B} (m : res (option A)) (f : A -> res (option B)) Q :
  holds_some m (fun a => holds_some (f a) Q) -> holds_some (obind m f) Q.
Proof. by destruct m as [[a|]| |]. Qed.

Lemma holds_some_bind {A B} (m : res A) (f : A -> res (option B)) Q :
  holds m (fun a => holds_some (f a) Q) -> holds_some (m ≫= f) Q.
Proof. by destruct m. Qed.

Lemma holds_guard {A} (b : bool) (m : res (option A)) Q :
  (b = false -> holds_some m Q) -> holds_some (if b then more else m) Q.
Proof. destruct b; [done|auto]. Qed.

Lemma holds_some_mono {A} (m : res (option A)) (P Q : A -> Prop) :
  holds_some m P -> (forall a, P a -> Q a) -> holds_some m Q.
Proof. intros H HPQ. eapply holds_mono; [exact H|]. intros [a|]; simpl; auto. Qed.

Lemma obind_Some {A B} (m : res (option A)) (f : A -> res (option B)) b :
  obind m f = Ok (Some b) -> exists a, m = Ok (Some a) /\ f a = Ok (Some b).
Proof. destruct m as [[a|]| |]; simpl; try done. eauto. Qed.

(** [extends pend m m']: [m'], the call on a longer input, gives what [m] gave,
    unless [m] was waiting for input ([pend] of its result). *)
Definition extends {A} (pend : A -> Prop) (m m' : res A) : Prop :=
  match m with Ok a => pend a \/ m' = Ok a | Exn e => m' = Exn e | Oob => True end.

Abbreviation extends_some := (extends (fun o => o = None)).

Lemma extends_refl {A} pend (m : res A) : extends pend m m.
Proof. destruct m; simpl; auto. Qed.

Lemma extends_bind {A B} (pend : B -> Prop) (m m' : res A) (f f' : A -> res B) :
  extends (fun _ => False) m m' -> (forall a, m = Ok a -> extends pend (f a) (f' a)) ->
  extends pend (m ≫= f) (m' ≫= f').
Proof. destruct m; simpl; [intros [[]| ->] H; by apply H | by intros -> | done]. Qed.

Lemma extends_obind {A B} (m m' : res (option A)) (f f' : A -> res (option B)) :
  extends_some m m' -> (forall a, m = Ok (Some a) -> extends_some (f a) (f' a)) ->
  extends_some (obind m f) (obind m' f').
Proof.
  destruct m as [[a|]| |]; simpl.
  - intros [[=]| ->] H. by apply H.
  - auto.
  - by intros ->.
  - done.
Qed.

Lemma extends_guard {A} (b b' : bool) (m m' : res (option A)) :
  (b = false -> b' = false) -> (b = false -> extends_some m m') ->
  extends_some (if b then more else m) (if b' then more else m').
Proof. destruct b; [by left|]. intros Hb H. rewrite Hb by done. auto. Qed.

Lemma extends_if {A} pend (b : bool) (m m' k k' : res A) :
  (b = true -> extends pend m m') -> (b = false -> extends pend k k') ->
  extends pend (if b then m else k) (if b then m' else k').
Proof. destruct b; auto. Qed.

(** ** Reading a buffer *)

(** [data[i]]. *)
Definition get8 (data : bytes) (i : Z) : res Z :=
  if (0 <=? i) && (i <? zlen data)
  then match data !! Z.to_nat i with Some b => Ok (b2z b) | None => Oob end
  else Oob.

(** [data + i .. data + i + n] copied out ([memcpy], [assign], [insert]). *)
Definition slice (data : bytes) (i n : Z) : res bytes :=
  if (0 <=? i) && (0 <=? n) && (i + n <=? zlen data)
  then Ok (ztake n (zdrop i data)) else Oob.

Definition get16le (data : bytes) (i : Z) : res Z :=
  b0 ← get8 data i; b1 ← get8 data (i + 1);
  Ok (Z.lor b0 (Z.shiftl b1 8)).

Definition get16be (data : bytes) (i : Z) : res Z :=
  b0 ← get8 data i; b1 ← get8 data (i + 1);
  Ok (Z.lor (Z.shiftl b0 8) b1).

Definition get32le (data : bytes) (i : Z) : res Z :=
  b0 ← get8 data i; b1 ← get8 data (i + 1);
  b2 ← get8 data (i + 2); b3 ← get8 data (i + 3);
  Ok (Z.lor (Z.lor (Z.lor b0 (Z.shiftl b1 8)) (Z.shiftl b2 16)) (Z.shiftl b3 24)).

Definition get32be (data : bytes) (i : Z) : res Z :=
  b0 ← get8 data i; b1 ← get8 data (i + 1);
  b2 ← get8 data (i + 2); b3 ← get8 data (i + 3);
  Ok (Z.lor (Z.lor (Z.lor (Z.shiftl b0 24) (Z.shiftl b1 16)) (Z.shiftl b2 8)) b3).

Definition get64le (data : bytes) (i : Z) : res Z :=
  lo ← get32le data i; hi ← get32le data (i + 4);
  Ok (Z.lor lo (Z.shiftl hi 32)).

Lemma get8_inside data i : 0 <= i < zlen data -> exists v, get8 data i = Ok v /\ 0 <= v < 256.
Proof.
  unfold get8, zlen. intros H.
  replace (0 <=? i) with true by lia. replace (i <? Z.of_nat (length data)) with true by lia.
  simpl. destruct (data !! Z.to_nat i) as [b|] eqn:E.
  - exists (b2z b). split; [done | apply b2z_range].
  - apply lookup_ge_None in E. lia.
Qed.

Lemma get8_Ok_range data i v : get8 data i = Ok v -> 0 <= i < zlen data /\ 0 <= v < 256.
Proof.
  unfold get8. destruct ((0 <=? i) && (i <? zlen data)) eqn:E; [|done].
  destruct (data !! _); [|done]. intros [= <-]. split; [lia | apply b2z_range].
Qed.

Lemma holds_get8 data i Q :
  0 <= i < zlen data -> (forall v, 0 <= v < 256 -> Q v) -> holds (get8 data i) Q.
Proof. intros H HQ. destruct (get8_inside data i H) as (v & -> & Hv). by apply HQ. Qed.

(** ** Integers from their bytes *)

Lemma testbit_above a n i : 0 <= a < 2 ^ n -> n <= i -> Z.testbit a i = false.
Proof.
  intros Ha Hi. destruct (decide (0 <= n)); [|rewrite Z.pow_neg_r in Ha; lia].
  rewrite <- (Z.mod_small a (2 ^ n)) by lia. apply Z.mod_pow2_bits_high. lia.
Qed.

Lemma land_shiftl_0 a b n : 0 <= n -> 0 <= a < 2 ^ n -> Z.land a (Z.shiftl b n) = 0.
Proof.
  intros Hn Ha. apply Z.bits_inj'. intros i Hi.
  rewrite Z.land_spec, Z.bits_0, Z.shiftl_spec by done.
  destruct (decide (i < n)).
  - rewrite (Z.testbit_neg_r b) by lia. apply andb_false_r.
  - rewrite (testbit_above a n) by lia. done.
Qed.

Lemma lor_shiftl_add a b n :
  0 <= n -> 0 <= a < 2 ^ n -> Z.lor a (Z.shiftl b n) = a + b * 2 ^ n.
Proof.
  intros Hn Ha. pose proof (land_shiftl_0 a b n Hn Ha) as H0.
  rewrite <- Z.shiftl_mul_pow2 by done.
  rewrite <- Z.lxor_lor, <- Z.add_nocarry_lxor by done. done.
Qed.

Lemma lor16 b0 b1 : 0 <= b0 < 256 -> Z.lor b0 (Z.shiftl b1 8) = b0 + 256 * b1.
Proof. intros. rewrite lor_shiftl_add; lia. Qed.

Lemma lor32 b0 b1 b2 b3 :
  0 <= b0 < 256 -> 0 <= b1 < 256 -> 0 <= b2 < 256 ->
  Z.lor (Z.lor (Z.lor b0 (Z.shiftl b1 8)) (Z.shiftl b2 16)) (Z.shiftl b3 24)
  = b0 + 256 * b1 + 65536 * b2 + 16777216 * b3.
Proof.
  intros. rewrite lor16 by lia.
  rewrite (lor_shiftl_add _ b2 16), (lor_shiftl_add _ b3 24) by lia. lia.
Qed.

Lemma lor16be b0 b1 : 0 <= b1 < 256 -> Z.lor (Z.shiftl b0 8) b1 = 256 * b0 + b1.
Proof. intros. rewrite Z.lor_comm, lor16; lia. Qed.

Lemma lor32be b0 b1 b2 b3 :
  0 <= b1 < 256 -> 0 <= b2 < 256 -> 0 <= b3 < 256 ->
  Z.lor (Z.lor (Z.lor (Z.shiftl b0 24) (Z.shiftl b1 16)) (Z.shiftl b2 8)) b3
  = 16777216 * b0 + 65536 * b1 + 256 * b2 + b3.
Proof.
  intros. rewrite Z.lor_comm, (Z.lor_comm _ (Z.shiftl b2 8)), Z.lor_assoc, lor16 by done.
  rewrite (Z.lor_comm (Z.shiftl b0 24)), Z.lor_assoc.
  rewrite (lor_shiftl_add _ b1 16), (lor_shiftl_add _ b0 24) by lia. lia.
Qed.

(** What the multi-byte readers compute, without bit operations. *)
Lemma get16le_eq data i :
  get16le data i = (b0 ← get8 data i; b1 ← get8 data (i + 1); Ok (b0 + 256 * b1)).
Proof.
  unfold get16le. destruct (get8 data i) as [b0| |] eqn:E0; simpl; try done.
  destruct (get8 data (i + 1)) as [b1| |]; simpl; try done.
  apply get8_Ok_range in E0. rewrite lor16; [done|lia].
Qed.

Lemma get16be_eq data i :
  get16be data i = (b0 ← get8 data i; b1 ← get8 data (i + 1); Ok (256 * b0 + b1)).
Proof.
  unfold get16be. destruct (get8 data i) as [b0| |]; simpl; try done.
  destruct (get8 data (i + 1)) as [b1| |] eqn:E1; simpl; try done.
  apply get8_Ok_range in E1. rewrite lor16be; [done|lia].
Qed.

Lemma get32le_eq data i :
  get32le data i =
    (b0 ← get8 data i; b1 ← get8 data (i + 1); b2 ← get8 data (i + 2); b3 ← get8 data (i + 3);
     Ok (b0 + 256 * b1 + 65536 * b2 + 16777216 * b3)).
Proof.
  unfold get32le. destruct (get8 data i) as [b0| |] eqn:E0; simpl; try done.
  destruct (get8 data (i + 1)) as [b1| |] eqn:E1; simpl; try done.
  destruct (get8 data (i + 2)) as [b2| |] eqn:E2; simpl; try done.
  destruct (get8 data (i + 3)) as [b3| |]; simpl; try done.
  apply get8_Ok_range in E0, E1, E2. rewrite lor32; [done|lia..].
Qed.

Lemma get32be_eq data i :
  get32be data i =
    (b0 ← get8 data i; b1 ← get8 data (i + 1); b2 ← get8 data (i + 2); b3 ← get8 data (i + 3);
     Ok (16777216 * b0 + 65536 * b1 + 256 * b2 + b3)).
Proof.
  unfold get32be. destruct (get8 data i) as [b0| |]; simpl; try done.
  destruct (get8 data (i + 1)) as [b1| |] eqn:E1; simpl; try done.
  destruct (get8 data (i + 2)) as [b2| |] eqn:E2; simpl; try done.
  destruct (get8 data (i + 3)) as [b3| |] eqn:E3; simpl; try done.
  apply get8_Ok_range in E1, E2, E3. rewrite lor32be; [done|lia..].
Qed.

(** ** Reads inside the buffer succeed *)

Lemma holds_get16le data i Q :
  0 <= i -> i + 2 <= zlen data -> (forall v, 0 <= v < 65536 -> Q v) -> holds (get16le data i) Q.
Proof.
  intros H0 H1 HQ. rewrite get16le_eq.
  apply holds_bind, holds_get8; [lia|]. intros b0 ?.
  apply holds_bind, holds_get8; [lia|]. intros b1 ?. apply HQ. lia.
Qed.

Lemma holds_get16be data i Q :
  0 <= i -> i + 2 <= zlen data -> (forall v, 0 <= v < 65536 -> Q v) -> holds (get16be data i) Q.
Proof.
  intros H0 H1 HQ. rewrite get16be_eq.
  apply holds_bind, holds_get8; [lia|]. intros b0 ?.
  apply holds_bind, holds_get8; [lia|]. intros b1 ?. apply HQ. lia.
Qed.

Lemma holds_get32le data i Q :
  0 <= i -> i + 4 <= zlen data -> (forall v, 0 <= v < 4294967296 -> Q v) ->
  holds (get32le data i) Q.
Proof.
  intros H0 H1 HQ. rewrite get32le_eq.
  do 4 (apply holds_bind, holds_get8; [lia|]; intros ? ?). apply HQ. lia.
Qed.

Lemma holds_get32be data i Q :
  0 <= i -> i + 4 <= zlen data -> (forall v, 0 <= v < 4294967296 -> Q v) ->
  holds (get32be data i) Q.
Proof.
  intros H0 H1 HQ. rewrite get32be_eq.
  do 4 (apply holds_bind, holds_get8; [lia|]; intros ? ?). apply HQ. lia.
Qed.

Lemma holds_get64le data i Q :
  0 <= i -> i + 8 <= zlen data -> (forall v, 0 <= v < 2 ^ 64 -> Q v) -> holds (get64le data i) Q.
Proof.
  intros H0 H1 HQ. unfold get64le.
  apply holds_bind, holds_get32le; [lia..|]. intros lo ?.
  apply holds_bind, holds_get32le; [lia..|]. intros hi ?.
  apply HQ. rewrite lor_shiftl_add by lia. lia.
Qed.

Lemma slice_inside data i n :
  0 <= i -> 0 <= n -> i + n <= zlen data -> slice data i n = Ok (ztake n (zdrop i data)).
Proof.
  intros. unfold slice.
  replace (0 <=? i) with true by lia. replace (0 <=? n) with true by lia.
  by replace (i + n <=? zlen data) with true by lia.
Qed.

Lemma holds_slice data i n Q :
  0 <= i -> 0 <= n -> i + n <= zlen data ->
  (forall l, zlen l = n -> Q l) -> holds (slice data i n) Q.
Proof.
  intros H0 H1 H2 HQ. rewrite slice_inside by done. apply HQ.
  rewrite zlen_ztake; [done|]. rewrite zlen_zdrop; lia.
Qed.

(** ** A longer buffer gives the same answers *)

Lemma get8_app_l data e i v : get8 data i = Ok v -> get8 (data ++ e) i = Ok v.
Proof.
  unfold get8. destruct ((0 <=? i) && (i <? zlen data)) eqn:E; [|done].
  rewrite zlen_app. pose proof (zlen_nonneg e).
  replace ((0 <=? i) && (i <? zlen data + zlen e)) with true by lia.
  destruct (data !! Z.to_nat i) eqn:L; [|done]. by rewrite (lookup_app_l_Some _ _ _ _ L).
Qed.

Lemma bind_app_l {A} (m m' : res A) {B} (f f' : A -> res B) v :
  (forall a, m = Ok a -> m' = Ok a) ->
  (forall a, f a = Ok v -> f' a = Ok v) ->
  m ≫= f = Ok v -> m' ≫= f' = Ok v.
Proof. intros Hm Hf (a & ->%Hm & E)%bind_Ok. simpl. auto. Qed.

Lemma get16le_app_l data e i v : get16le data i = Ok v -> get16le (data ++ e) i = Ok v.
Proof.
  unfold get16le. apply bind_app_l; [intros; by apply get8_app_l|]. intros a.
  apply bind_app_l; [intros; by apply get8_app_l|done].
Qed.

Lemma get32le_app_l data e i v : get32le data i = Ok v -> get32le (data ++ e) i = Ok v.
Proof.
  unfold get32le. do 4 (apply bind_app_l; [intros; by apply get8_app_l|]; intros ?). done.
Qed.

Lemma get64le_app_l data e i v : get64le data i = Ok v -> get64le (data ++ e) i = Ok v.
Proof.
  unfold get64le. do 2 (apply bind_app_l; [intros; by apply get32le_app_l|]; intros ?). done.
Qed.

Lemma slice_app_l data e i n v : slice data i n = Ok v -> slice (data ++ e) i n = Ok v.
Proof.
  unfold slice. destruct ((0 <=? i) && (0 <=? n) && (i + n <=? zlen data)) eqn:E; [|done].
  rewrite zlen_app. pose proof (zlen_nonneg e).
  replace ((0 <=? i) && (0 <=? n) && (i + n <=? zlen data + zlen e)) with true by lia.
  intros [= <-]. f_equal. rewrite zdrop_app_le by lia.
  rewrite ztake_app_le; [done|]. rewrite zlen_zdrop; lia.
Qed.

(** ** Reads behind a known prefix *)

Lemma get8_0 b data : get8 (b :: data) 0 = Ok (b2z b).
Proof.
  unfold get8. rewrite zlen_cons. pose proof (zlen_nonneg data).
  by replace (0 <? 1 + zlen data) with true by lia.
Qed.

Lemma get8_cons b data i : 0 < i -> get8 (b :: data) i = get8 data (i - 1).
Proof.
  intros Hi. unfold get8. rewrite zlen_cons.
  replace (0 <=? i) with true by lia. replace (0 <=? i - 1) with true by lia.
  replace (i <? 1 + zlen data) with (i - 1 <? zlen data) by lia.
  replace (Z.to_nat i) with (S (Z.to_nat (i - 1))) by lia. done.
Qed.

Lemma get8_app_r p data i : 0 <= i -> get8 (p ++ data) (zlen p + i) = get8 data i.
Proof.
  intros Hi. induction p as [|b p IH]; [done|].
  rewrite zlen_cons, <- app_comm_cons. pose proof (zlen_nonneg p).
  rewrite get8_cons by lia. rewrite <- IH. f_equal. lia.
Qed.

Lemma get16le_app_r p data i : 0 <= i -> get16le (p ++ data) (zlen p + i) = get16le data i.
Proof.
  intros. unfold get16le. rewrite <- (Z.add_assoc _ i 1), !get8_app_r by lia. done.
Qed.

Lemma get32le_app_r p data i : 0 <= i -> get32le (p ++ data) (zlen p + i) = get32le data i.
Proof.
  intros. unfold get32le. rewrite <- !(Z.add_assoc (zlen p) i), !get8_app_r by lia. done.
Qed.

Lemma slice_app_r p data i n :
  0 <= i -> slice (p ++ data) (zlen p + i) n = slice data i n.
Proof.
  intros Hi. unfold slice. rewrite zlen_app. pose proof (zlen_nonneg p).
  replace (0 <=? zlen p + i) with true by lia. replace (0 <=? i) with true by lia.
  replace (zlen p + i + n <=? zlen p + zlen data) with (i + n <=? zlen data) by lia.
  f_equal. rewrite <- zdrop_zdrop by (pose proof (zlen_nonneg p); lia).
  by rewrite zdrop_app_length.
Qed.

Lemma slice_prefix l data n : n = zlen l -> slice (l ++ data) 0 n = Ok l.
Proof.
  intros ->. unfold slice. rewrite zlen_app. pose proof (zlen_nonneg l). pose proof (zlen_nonneg data).
  replace (0 <=? zlen l) with true by lia.
  replace (0 + zlen l <=? zlen l + zlen data) with true by lia. simpl.
  rewrite zdrop_0. by rewrite ztake_app_length.
Qed.

(** ** Writing integers *)

Definition put16le (v : Z) : bytes :=
  [z2b (Z.land v 0xFF); z2b (Z.land (Z.shiftr v 8) 0xFF)].
Definition put16be (v : Z) : bytes :=
  [z2b (Z.land (Z.shiftr v 8) 0xFF); z2b (Z.land v 0xFF)].
Definition put32le (v : Z) : bytes :=
  [z2b (Z.land v 0xFF); z2b (Z.land (Z.shiftr v 8) 0xFF);
   z2b (Z.land (Z.shiftr v 16) 0xFF); z2b (Z.land (Z.shiftr v 24) 0xFF)].
Definition put32be (v : Z) : bytes :=
  [z2b (Z.land (Z.shiftr v 24) 0xFF); z2b (Z.land (Z.shiftr v 16) 0xFF);
   z2b (Z.land (Z.shiftr v 8) 0xFF); z2b (Z.land v 0xFF)].
Definition put64le (v : Z) : bytes := put32le v ++ put32le (Z.shiftr v 32).

Lemma b2z_byte_at v k : 0 <= k -> b2z (z2b (Z.land (Z.shiftr v k) 0xFF)) = (v / 2 ^ k) mod 256.
Proof.
  intros. rewrite b2z_z2b. change 0xFF with (Z.ones 8).
  rewrite Z.land_ones, Z.shiftr_div_pow2, Z.mod_mod by lia. done.
Qed.

Lemma b2z_byte_0 v : b2z (z2b (Z.land v 0xFF)) = v mod 256.
Proof. rewrite b2z_z2b. change 0xFF with (Z.ones 8). rewrite Z.land_ones, Z.mod_mod; lia. Qed.

(** The base-256 digits of [v] put back together. *)
Lemma join16 v : v mod 256 + 256 * ((v / 2 ^ 8) mod 256) = v mod 65536.
Proof.
  change 65536 with (256 * 256). change (2 ^ 8) with 256. rewrite Z.rem_mul_r; lia.
Qed.

Lemma join32 v :
  v mod 256 + 256 * ((v / 2 ^ 8) mod 256) + 65536 * ((v / 2 ^ 16) mod 256)
  + 16777216 * ((v / 2 ^ 24) mod 256) = v mod 4294967296.
Proof.
  rewrite join16.
  change 4294967296 with (65536 * (256 * 256)). rewrite !Z.rem_mul_r by lia.
  change (2 ^ 16) with 65536. change (2 ^ 24) with (65536 * 256).
  rewrite <- (Z.div_div v) by lia. lia.
Qed.

Ltac read_bytes :=
  repeat first
    [ rewrite get8_0
    | rewrite get8_cons by lia; match goal with |- context [get8 _ ?k] =>
        progress (let k' := eval vm_compute in k in change k with k') end ].

Lemma get16le_put v r : get16le (put16le v ++ r) 0 = Ok (v mod 65536).
Proof.
  rewrite get16le_eq. unfold put16le. simpl app. read_bytes. simpl.
  rewrite !b2z_byte_at, b2z_byte_0 by lia. f_equal. rewrite <- join16. lia.
Qed.

Lemma get16be_put v r : get16be (put16be v ++ r) 0 = Ok (v mod 65536).
Proof.
  rewrite get16be_eq. unfold put16be. simpl app. read_bytes. simpl.
  rewrite !b2z_byte_at, b2z_byte_0 by lia. f_equal. rewrite <- join16. lia.
Qed.

Lemma get32le_put v r : get32le (put32le v ++ r) 0 = Ok (v mod 4294967296).
Proof.
  rewrite get32le_eq. unfold put32le. simpl app. read_bytes. simpl.
  rewrite !b2z_byte_at, b2z_byte_0 by lia. f_equal. rewrite <- join32. lia.
Qed.

Lemma get32be_put v r : get32be (put32be v ++ r) 0 = Ok (v mod 4294967296).
Proof.
  rewrite get32be_eq. unfold put32be. simpl app. read_bytes. simpl.
  rewrite !b2z_byte_at, b2z_byte_0 by lia. f_equal. rewrite <- join32. lia.
Qed.

Lemma extends_get8 data e i : extends (fun _ => False) (get8 data i) (get8 (data ++ e) i).
Proof.
  destruct (get8 data i) eqn:E; simpl; [right; by apply get8_app_l | | done].
  unfold get8 in E. repeat case_match; done.
Qed.

Lemma get16le_not_exn data i e : get16le data i <> Exn e.
Proof.
  unfold get16le, get8. repeat case_match; simpl; try done; repeat case_match; done.
Qed.

Lemma get32le_not_exn data i e : get32le data i <> Exn e.
Proof.
  unfold get32le, get8. repeat (case_match; simpl; try done).
Qed.

Lemma slice_not_exn data i n e : slice data i n <> Exn e.
Proof. unfold slice. by case_match. Qed.

Lemma extends_get16le data e i : extends (fun _ => False) (get16le data i) (get16le (data ++ e) i).
Proof.
  destruct (get16le data i) eqn:E; simpl; [right; by apply get16le_app_l | | done].
  by apply get16le_not_exn in E.
Qed.

Lemma extends_get32le data e i : extends (fun _ => False) (get32le data i) (get32le (data ++ e) i).
Proof.
  destruct (get32le data i) eqn:E; simpl; [right; by apply get32le_app_l | | done].
  by apply get32le_not_exn in E.
Qed.

Lemma extends_slice data e i n : extends (fun _ => False) (slice data i n) (slice (data ++ e) i n).
Proof.
  destruct (slice data i n) eqn:E; simpl; [right; by apply slice_app_l | | done].
  by apply slice_not_exn in E.
Qed.

#[export] Hint Resolve extends_get8 extends_get16le extends_get32le extends_slice extends_refl : tds.

(** ** Little-endian values of given bytes, and a cursor into a buffer *)

Definition le16 (b0 b1 : byte) : Z := b2z b0 + 256 * b2z b1.
Definition le32 (b0 b1 b2 b3 : byte) : Z :=
  b2z b0 + 256 * b2z b1 + 65536 * b2z b2 + 16777216 * b2z b3.

Lemma le16_range b0 b1 : 0 <= le16 b0 b1 < 65536.
Proof. unfold le16. pose proof (b2z_range b0). pose proof (b2z_range b1). lia. Qed.

Lemma le32_range b0 b1 b2 b3 : 0 <= le32 b0 b1 b2 b3 < 4294967296.
Proof.
  unfold le32. pose proof (b2z_range b0). pose proof (b2z_range b1).
  pose proof (b2z_range b2). pose proof (b2z_range b3). lia.
Qed.

(** [cursor data off r]: [off] is a position in [data], and [r] is what is left
    from there. *)
Definition cursor (data : bytes) (off : Z) (r : bytes) : Prop :=
  0 <= off <= zlen data /\ zdrop off data = r.

Lemma cursor_0 data : cursor data 0 data.
Proof. split; [pose proof (zlen_nonneg data); lia | done]. Qed.

(** The same with the buffer's contents as a variable of its own. *)
Lemma cursor_0_ex data : exists r, cursor data 0 r /\ data = r.
Proof. exists data. split; [apply cursor_0|done]. Qed.

Lemma cursor_at data off : 0 <= off <= zlen data -> cursor data off (zdrop off data).
Proof. by split. Qed.

Lemma cursor_len data off r : cursor data off r -> zlen data = off + zlen r.
Proof. intros [H <-]. rewrite zlen_zdrop; lia. Qed.

Lemma cursor_app data off a r : cursor data off (a ++ r) -> cursor data (off + zlen a) r.
Proof.
  intros Hc. pose proof (cursor_len _ _ _ Hc) as Hl. destruct Hc as [H E].
  rewrite zlen_app in Hl. pose proof (zlen_nonneg a). pose proof (zlen_nonneg r).
  split; [lia|]. rewrite <- zdrop_zdrop, E by lia. by apply zdrop_app_length.
Qed.

Lemma cursor_cons data off b r :
  cursor data off (b :: r) -> get8 data off = Ok (b2z b) /\ cursor data (off + 1) r.
Proof.
  intros Hc. split; [|by apply (cursor_app _ _ [b])]. destruct Hc as [H E].
  assert (Hd : data = ztake off data ++ b :: r) by (rewrite <- E; symmetry; apply ztake_zdrop).
  rewrite Hd. replace off with (zlen (ztake off data) + 0) at 2 by (rewrite zlen_ztake; lia).
  rewrite get8_app_r by lia. apply get8_0.
Qed.

Lemma cursor_get16le data off b0 b1 r :
  cursor data off (b0 :: b1 :: r) -> get16le data off = Ok (le16 b0 b1) /\ cursor data (off + 2) r.
Proof.
  intros [E0 H1]%cursor_cons. apply cursor_cons in H1 as [E1 H2].
  replace (off + 2) with (off + 1 + 1) by lia. split; [|done].
  rewrite get16le_eq, E0. simpl. by rewrite E1.
Qed.

Lemma cursor_get32le data off b0 b1 b2 b3 r :
  cursor data off (b0 :: b1 :: b2 :: b3 :: r) ->
  get32le data off = Ok (le32 b0 b1 b2 b3) /\ cursor data (off + 4) r.
Proof.
  intros [E0 H1]%cursor_cons. apply cursor_cons in H1 as [E1 H2].
  apply cursor_cons in H2 as [E2 H3]. apply cursor_cons in H3 as [E3 H4].
  replace (off + 4) with (off + 1 + 1 + 1 + 1) by lia. split; [|done].
  rewrite get32le_eq, E0. simpl. rewrite E1. simpl.
  replace (off + 2) with (off + 1 + 1) by lia. rewrite E2. simpl.
  replace (off + 3) with (off + 1 + 1 + 1) by lia. by rewrite E3.
Qed.

Lemma cursor_slice data off a r n :
  cursor data off (a ++ r) -> n = zlen a -> slice data off n = Ok a.
Proof.
  intros Hc ->. pose proof (cursor_len _ _ _ Hc) as Hl. destruct Hc as [H E].
  rewrite zlen_app in Hl. pose proof (zlen_nonneg a). pose proof (zlen_nonneg r).
  rewrite slice_inside, E by lia. by rewrite ztake_app_length.
Qed.

(** The other way round: a read that succeeded tells what is at the cursor. *)
Lemma cursor_get8_inv data off r v :
  cursor data off r -> get8 data off = Ok v ->
  exists b r', r = b :: r' /\ v = b2z b /\ cursor data (off + 1) r'.
Proof.
  intros Hc E. pose proof (cursor_len _ _ _ Hc). pose proof (get8_Ok_range _ _ _ E).
  destruct r as [|b r]; [rewrite zlen_nil in *; lia|]. apply cursor_cons in Hc as [E' Hc].
  exists b, r. rewrite E' in E. by injection E as <-.
Qed.

Lemma cursor_get16le_inv data off r v :
  cursor data off r -> get16le data off = Ok v ->
  exists b0 b1 r', r = b0 :: b1 :: r' /\ v = le16 b0 b1 /\ cursor data (off + 2) r'.
Proof.
  intros Hc E. rewrite get16le_eq in E. apply bind_Ok in E as (v0 & E0 & E).
  apply bind_Ok in E as (v1 & E1 & E). injection E as <-.
  apply (cursor_get8_inv _ _ _ _ Hc) in E0 as (b0 & r0 & -> & -> & H0).
  apply (cursor_get8_inv _ _ _ _ H0) in E1 as (b1 & r1 & -> & -> & H1).
  exists b0, b1, r1. replace (off + 2) with (off + 1 + 1) by lia. done.
Qed.

Lemma cursor_get32le_inv data off r v :
  cursor data off r -> get32le data off = Ok v ->
  exists b0 b1 b2 b3 r', r = b0 :: b1 :: b2 :: b3 :: r' /\ v = le32 b0 b1 b2 b3 /\
    cursor data (off + 4) r'.
Proof.
  intros Hc E. rewrite get32le_eq in E. apply bind_Ok in E as (v0 & E0 & E).
  apply bind_Ok in E as (v1 & E1 & E). apply bind_Ok in E as (v2 & E2 & E).
  apply bind_Ok in E as (v3 & E3 & E). injection E as <-.
  replace (off + 2) with (off + 1 + 1) in E2 by lia.
  replace (off + 3) with (off + 1 + 1 + 1) in E3 by lia.
  apply (cursor_get8_inv _ _ _ _ Hc) in E0 as (b0 & r0 & -> & -> & H0).
  apply (cursor_get8_inv _ _ _ _ H0) in E1 as (b1 & r1 & -> & -> & H1).
  apply (cursor_get8_inv _ _ _ _ H1) in E2 as (b2 & r2 & -> & -> & H2).
  apply (cursor_get8_inv _ _ _ _ H2) in E3 as (b3 & r3 & -> & -> & H3).
  exists b0, b1, b2, b3, r3. replace (off + 4) with (off + 1 + 1 + 1 + 1) by lia. done.
Qed.

Lemma cursor_skip data off r n :
  cursor data off r -> 0 <= n -> off + n <= zlen data ->
  exists a r', r = a ++ r' /\ zlen a = n /\ cursor data (off + n) r' /\ slice data off n = Ok a.
Proof.
  intros Hc Hn Hl. pose proof (cursor_len _ _ _ Hc).
  assert (Ea : zlen (ztake n r) = n) by (apply zlen_ztake; lia).
  exists (ztake n r), (zdrop n r). rewrite ztake_zdrop. split; [done|]. split; [done|].
  rewrite <- (ztake_zdrop n r) in Hc.
  split; [|by apply (cursor_slice _ _ _ _ _ Hc)].
  rewrite <- Ea at 1. by apply cursor_app.
Qed.

(** ** Tactics for parsers

    [safe_steps] walks a partial call down to its results, [extends_steps] two
    calls that read the same offsets, of a buffer and of a longer one. *)
Ltac safe_step :=
  match goal with
  | |- holds_some (if _ then more else _) _ => apply holds_guard; intro
  | |- holds_some (if ?b then _ else _) _ => destruct b eqn:?
  | |- holds_some (_ ≫= _) _ => apply holds_some_bind
  | |- holds_some (obind _ _) _ => apply holds_obind
  | |- holds_some (Ok (Some _)) _ => apply holds_some_ret
  | |- holds_some (Ok None) _ => exact I
  | |- holds_some (Exn _) _ => exact I
  | |- holds (get8 _ _) _ => apply holds_get8; [lia|intros ? ?]
  | |- holds (get16le _ _) _ => apply holds_get16le; [lia..|intros ? ?]
  | |- holds (get32le _ _) _ => apply holds_get32le; [lia..|intros ? ?]
  | |- holds (slice _ _ _) _ => apply holds_slice; [lia..|intros ? ?]
  end; cbv beta zeta.
Ltac safe_steps := cbv beta zeta; repeat safe_step.

Ltac extends_step :=
  match goal with
  | |- extends_some (if _ then more else _) _ => apply extends_guard; [rewrite ?zlen_app; lia|intro]
  | |- extends_some (obind _ _) _ => apply extends_obind; [|intros ? ?]
  | |- extends_some (_ ≫= _) _ => apply extends_bind; [auto with tds|intros ? ?]
  | |- extends_some (if _ then _ else _) _ => apply extends_if; intro
  | |- extends_some ?m ?m => apply extends_refl
  end; cbv beta zeta.
Ltac extends_steps := cbv beta zeta; repeat extends_step.

(** Use what lemma [L] says of the call at the head of the goal. *)
Ltac safe_use L := eapply holds_some_mono; [apply L; lia | cbv beta; intros ? ?; safe_steps].

(** Take a successful partial call apart: a hypothesis [m = Ok (Some a)] whose
    [m] is a chain of guards and binds. [cursor_steps] also moves the cursor
    past every read. *)
Ltac some_step H :=
  match type of H with
  | (if ?b then more else _) = Ok (Some _) => destruct b eqn:?; [discriminate H|]
  | obind _ _ = Ok (Some _) => apply obind_Some in H as (? & ? & H)
  | _ ≫= _ = Ok _ => apply bind_Ok in H as (? & ? & H)
  | Ok (Some _) = Ok (Some _) => injection H as H
  end; cbv beta zeta in *.

Lemma cursor_eq data off off' r : off = off' -> cursor data off r -> cursor data off' r.
Proof. by intros ->. Qed.

(** Move a cursor over the reads the context says succeeded. *)
Ltac cursor_read :=
  match goal with
  | Hc : cursor ?d ?o _, H : get8 ?d ?o = Ok _ |- _ =>
      destruct (cursor_get8_inv _ _ _ _ Hc H) as (? & ? & -> & -> & ?); clear H
  | Hc : cursor ?d ?o _, H : get16le ?d ?o = Ok _ |- _ =>
      destruct (cursor_get16le_inv _ _ _ _ Hc H) as (? & ? & ? & -> & -> & ?); clear H
  | Hc : cursor ?d ?o _, H : get32le ?d ?o = Ok _ |- _ =>
      destruct (cursor_get32le_inv _ _ _ _ Hc H) as (? & ? & ? & ? & ? & -> & -> & ?); clear H
  end.

Lemma cursor_skip1 data off r :
  cursor data off r -> off + 1 <= zlen data -> exists b r', r = b :: r' /\ cursor data (off + 1) r'.
Proof.
  intros Hc Hl. pose proof (cursor_len _ _ _ Hc).
  destruct r as [|b r]; [rewrite zlen_nil in *; lia|].
  exists b, r. split; [done|]. by apply cursor_cons in Hc as [_ ?].
Qed.

(** One byte that is stepped over without being read. *)
Ltac cursor_step :=
  match goal with
  | Hc : cursor ?d ?o ?r |- _ =>
      is_var r; destruct (cursor_skip1 d o r Hc) as (? & ? & -> & ?); [lia|]
  end.

Ltac some_steps := repeat match goal with H : _ = Ok _ |- _ => some_step H end.

(** [n] bytes that are stepped over, or copied by a [slice] of the context. *)
Ltac cursor_skip_n n :=
  match goal with
  | Hc : cursor ?d ?o ?r |- _ =>
      is_var r; destruct (cursor_skip d o r n Hc) as (? & ? & -> & ? & ? & ?); [lia..|]
  end.

(** Evaluate the reads at a cursor whose contents are known, and the guards
    that compare offsets with the length of the buffer. *)
Ltac cursor_eval1 :=
  match goal with
  | Hc : cursor ?d ?o _ |- context [get8 ?d ?o] =>
      let E := fresh in destruct (cursor_cons _ _ _ _ Hc) as [E ?]; rewrite E; clear E
  | Hc : cursor ?d ?o _ |- context [get16le ?d ?o] =>
      let E := fresh in destruct (cursor_get16le _ _ _ _ _ Hc) as [E ?]; rewrite E; clear E
  | Hc : cursor ?d ?o _ |- context [get32le ?d ?o] =>
      let E := fresh in destruct (cursor_get32le _ _ _ _ _ _ _ Hc) as [E ?]; rewrite E; clear E
  | |- context [if ?x <? ?y then more else _] => replace (x <? y) with false by lia
  | |- context [if ?x <=? ?y then more else _] => replace (x <=? y) with false by lia
  end.
Ltac cursor_eval := repeat (cursor_eval1; cbn [mbind res_bind obind]; cbv beta zeta iota).

Lemma obind_Ok_Some {A B} (a : A) (f : A -> res (option B)) : obind (Ok (Some a)) f = f a.
Proof. done. Qed.

(** ** Which exceptions a call throws *)

Definition throws_only {A} (P : exn -> Prop) (m : res A) : Prop :=
  match m with Exn e => P e | _ => True end.

Lemma throws_bind {A B} P (m : res A) (f : A -> res B) :
  throws_only P m -> (forall a, throws_only P (f a)) -> throws_only P (m ≫= f).
Proof. destruct m; simpl; auto. Qed.

Lemma throws_obind {A B} P (m : res (option A)) (f : A -> res (option B)) :
  throws_only P m -> (forall a, m = Ok (Some a) -> throws_only P (f a)) -> throws_only P (obind m f).
Proof. destruct m as [[a|]| |]; simpl; auto. Qed.

Lemma throws_if {A} P (b : bool) (m k : res A) :
  (b = true -> throws_only P m) -> (b = false -> throws_only P k) ->
  throws_only P (if b then m else k).
Proof. destruct b; auto. Qed.

Lemma throws_get8 P data i : throws_only P (get8 data i).
Proof. unfold get8. repeat case_match; done. Qed.

Lemma throws_get16le P data i : throws_only P (get16le data i).
Proof. repeat (apply throws_bind; [apply throws_get8|intro]). done. Qed.

Lemma throws_get32le P data i : throws_only P (get32le data i).
Proof. repeat (apply throws_bind; [apply throws_get8|intro]). done. Qed.

Lemma throws_slice P data i n : throws_only P (slice data i n).
Proof. unfold slice. by case_match. Qed.

Lemma throws_get64le P data i : throws_only P (get64le data i).
Proof. repeat (apply throws_bind; [apply throws_get32le|intro]). done. Qed.

#[export] Hint Resolve throws_get8 throws_get16le throws_get32le throws_get64le throws_slice : tds.

Ltac throws_steps :=
  cbv beta zeta;
  repeat (match goal with
  | |- throws_only _ (if _ then _ else _) => apply throws_if; intro
  | |- throws_only _ (_ ≫= _) => apply throws_bind; [try solve [auto with tds]|intro]
  | |- throws_only _ (obind _ _) => apply throws_obind; [try solve [auto with tds]|intros ? ?]
  | |- throws_only _ (Ok _) => exact I
  | |- throws_only _ more => exact I
  end; cbv beta zeta).

Lemma get64le_not_exn data i e : get64le data i <> Exn e.
Proof.
  unfold get64le. destruct (get32le data i) eqn:E; simpl; [|by apply get32le_not_exn in E|done].
  destruct (get32le data (i + 4)) eqn:E'; simpl; [done|by apply get32le_not_exn in E'|done].
Qed.

Lemma extends_get64le data e i : extends (fun _ => False) (get64le data i) (get64le (data ++ e) i).
Proof.
  destruct (get64le data i) eqn:E; simpl; [right; by apply get64le_app_l | | done].
  by apply get64le_not_exn in E.
Qed.
#[export] Hint Resolve extends_get64le : tds.

(** The bit test of a C++ bitmap. *)
Lemma land_shiftl1_testbit b k : 0 <= k -> negb (Z.land b (Z.shiftl 1 k) =? 0) = Z.testbit b k.
Proof.
  intros Hk. destruct (Z.testbit b k) eqn:E.
  - apply negb_true_iff, Z.eqb_neq. intros H0. apply (f_equal (fun z => Z.testbit z k)) in H0.
    rewrite Z.land_spec, Z.shiftl_spec, Z.sub_diag, E, Z.bits_0 in H0 by lia. done.
  - apply negb_false_iff, Z.eqb_eq, Z.bits_inj'. intros i Hi.
    rewrite Z.land_spec, Z.shiftl_spec, Z.bits_0 by done.
    destruct (decide (i = k)) as [->|]; [by rewrite E|].
    destruct (decide (i < k)); [rewrite (Z.testbit_neg_r 1) by lia; apply andb_false_r|].
    change 1 with (2 ^ 0). rewrite Z.pow2_bits_false by lia. apply andb_false_r.
Qed.

(** Name the buffer whose contents are [r], so that reads are evaluated through
    the cursor. *)
Lemma buffer_ex r : exists data, data = r /\ cursor data 0 r.
Proof. exists r. split; [done|apply cursor_0]. Qed.
Ltac name_buffer r data Hc :=
  let E := fresh in destruct (buffer_ex r) as (data & E & Hc); rewrite <- ?E; clear E.
