(* ===== verification/TdsTypes.v ===== *)
(** * TDS protocol constants (src/src/include/tds/tds_types.hpp, tds_types.cpp)

    The [enum class X : uint8_t] types are used with [static_cast] from bytes
    the server sent, so a value of such a type can be any byte: they are [Z]
    here, with one constant per enumerator in a module of the enumeration's
    name. [ConnectionState] never holds a value from the wire and is an
    inductive type. *)

From S2P Require Import Prelude.

Definition TDS_VERSION_7_4 : Z := 0x74000004.

Module PacketType.
Definition SQL_BATCH : Z := 1.
Definition RPC : Z := 3.
Definition TABULAR_RESULT : Z := 4.
Definition ATTENTION : Z := 6.
Definition BULK_LOAD : Z := 7.
Definition FEDAUTH_TOKEN : Z := 8.
Definition TRANSACTION : Z := 14.
Definition LOGIN7 : Z := 16.
Definition SSPI : Z := 17.
Definition PRELOGIN : Z := 18.
End PacketType.

Module PacketStatus.
Definition NORMAL : Z := 0x00.
Definition END_OF_MESSAGE : Z := 0x01.
Definition IGNORE_EVENT : Z := 0x02.
Definition RESET_CONNECTION : Z := 0x08.
Definition RESET_SKIP_TRAN : Z := 0x10.
End PacketStatus.

Inductive ConnectionState : Type :=
  | Disconnected
  | Authenticating
  | Idle
  | Executing
  | Cancelling.

#[export] Instance ConnectionState_eq_dec : EqDecision ConnectionState.
Proof. solve_decision. Defined.

Definition ConnectionStateToString (state : ConnectionState) : string :=
  match state with
  | Disconnected => "Disconnected"
  | Authenticating => "Authenticating"
  | Idle => "Idle"
  | Executing => "Executing"
  | Cancelling => "Cancelling"
  end.

Module PreloginOption.
Definition VERSION : Z := 0.
Definition ENCRYPTION : Z := 1.
Definition INSTOPT : Z := 2.
Definition THREADID : Z := 3.
Definition MARS : Z := 4.
Definition TRACEID : Z := 5.
Definition FEDAUTHREQUIRED : Z := 6.
Definition NONCEOPT : Z := 7.
Definition TERMINATOR : Z := 0xFF.
End PreloginOption.

Module EncryptionOption.
Definition ENCRYPT_OFF : Z := 0x00.
Definition ENCRYPT_ON : Z := 0x01.
Definition ENCRYPT_NOT_SUP : Z := 0x02.
Definition ENCRYPT_REQ : Z := 0x03.
End EncryptionOption.

Module FeatureExtId.
Definition SESSIONRECOVERY : Z := 0x01.
Definition FEDAUTH : Z := 0x02.
Definition COLUMNENCRYPTION : Z := 0x04.
Definition GLOBALTRANSACTIONS : Z := 0x05.
Definition AZURESQLSUPPORT : Z := 0x08.
Definition DATACLASSIFICATION : Z := 0x09.
Definition UTF8SUPPORT : Z := 0x0A.
Definition AZURESQLDNSCACHING : Z := 0x0B.
Definition TERMINATOR : Z := 0xFF.
End FeatureExtId.

Definition FEDAUTH_LIBRARY_LIVEID : Z := 0x00.
Definition FEDAUTH_LIBRARY_SECURITYTOKEN : Z := 0x01.
Definition FEDAUTH_LIBRARY_ADAL : Z := 0x02.
Definition FEDAUTH_ADAL_WORKFLOW_PASSWORD : Z := 0x01.
Definition FEDAUTH_ADAL_WORKFLOW_INTEGRATED : Z := 0x02.
Definition FEDAUTH_ADAL_WORKFLOW_MSI : Z := 0x03.
Definition FEDAUTH_ADAL_WORKFLOW_NONE : Z := 0x04.
Definition FEDAUTHINFO_OPT_STS_URL : Z := 0x01.
Definition FEDAUTHINFO_OPT_SPN : Z := 0x02.

Module TokenType.
Definition TABNAME : Z := 0x04.
Definition COLINFO : Z := 0xA5.
Definition DONE : Z := 0xFD.
Definition DONEPROC : Z := 0xFE.
Definition DONEINPROC : Z := 0xFF.
Definition ERROR_TOKEN : Z := 0xAA.
Definition INFO : Z := 0xAB.
Definition LOGINACK : Z := 0xAD.
Definition ENVCHANGE : Z := 0xE3.
Definition COLMETADATA : Z := 0x81.
Definition ROW : Z := 0xD1.
Definition NBCROW : Z := 0xD2.
Definition RETURNSTATUS : Z := 0x79.
Definition ORDER : Z := 0xA9.
Definition RETURNVALUE : Z := 0xAC.
Definition SSPI : Z := 0xED.
Definition FEATUREEXTACK : Z := 0xAE.
Definition FEDAUTHINFO : Z := 0xEE.
End TokenType.

Module DoneStatus.
Definition DONE_FINAL : Z := 0x0000.
Definition DONE_MORE : Z := 0x0001.
Definition DONE_ERROR : Z := 0x0002.
Definition DONE_INXACT : Z := 0x0004.
Definition DONE_COUNT : Z := 0x0010.
Definition DONE_ATTN : Z := 0x0020.
Definition DONE_SRVERROR : Z := 0x0100.
End DoneStatus.

Definition TDS_TYPE_NULL : Z := 0x1F.
Definition TDS_TYPE_TINYINT : Z := 0x30.
Definition TDS_TYPE_BIT : Z := 0x32.
Definition TDS_TYPE_SMALLINT : Z := 0x34.
Definition TDS_TYPE_INT : Z := 0x38.
Definition TDS_TYPE_SMALLDATETIME : Z := 0x3A.
Definition TDS_TYPE_REAL : Z := 0x3B.
Definition TDS_TYPE_MONEY : Z := 0x3C.
Definition TDS_TYPE_DATETIME : Z := 0x3D.
Definition TDS_TYPE_FLOAT : Z := 0x3E.
Definition TDS_TYPE_SMALLMONEY : Z := 0x7A.
Definition TDS_TYPE_BIGINT : Z := 0x7F.
Definition TDS_TYPE_INTN : Z := 0x26.
Definition TDS_TYPE_BITN : Z := 0x68.
Definition TDS_TYPE_FLOATN : Z := 0x6D.
Definition TDS_TYPE_MONEYN : Z := 0x6E.
Definition TDS_TYPE_DATETIMEN : Z := 0x6F.
Definition TDS_TYPE_DECIMAL : Z := 0x6A.
Definition TDS_TYPE_NUMERIC : Z := 0x6C.
Definition TDS_TYPE_UNIQUEIDENTIFIER : Z := 0x24.
Definition TDS_TYPE_BIGCHAR : Z := 0xAF.
Definition TDS_TYPE_BIGVARCHAR : Z := 0xA7.
Definition TDS_TYPE_NCHAR : Z := 0xEF.
Definition TDS_TYPE_NVARCHAR : Z := 0xE7.
Definition TDS_TYPE_BIGBINARY : Z := 0xAD.
Definition TDS_TYPE_BIGVARBINARY : Z := 0xA5.
Definition TDS_TYPE_DATE : Z := 0x28.
Definition TDS_TYPE_TIME : Z := 0x29.
Definition TDS_TYPE_DATETIME2 : Z := 0x2A.
Definition TDS_TYPE_DATETIMEOFFSET : Z := 0x2B.
Definition TDS_TYPE_XML : Z := 0xF1.
Definition TDS_TYPE_UDT : Z := 0xF0.
Definition TDS_TYPE_SQL_VARIANT : Z := 0x62.
Definition TDS_TYPE_IMAGE : Z := 0x22.
Definition TDS_TYPE_TEXT : Z := 0x23.
Definition TDS_TYPE_NTEXT : Z := 0x63.

Definition COL_FLAG_NULLABLE : Z := 0x0001.
Definition COL_FLAG_CASE_SENSITIVE : Z := 0x0002.
Definition COL_FLAG_IDENTITY : Z := 0x0010.
Definition COL_FLAG_COMPUTED : Z := 0x0020.

Definition TDS_HEADER_SIZE : Z := 8.
Definition TDS_MIN_PACKET_SIZE : Z := 512.
Definition TDS_DEFAULT_PACKET_SIZE : Z := 4096.
Definition TDS_MAX_PACKET_SIZE : Z := 32767.
Definition TDS_PREFERRED_PACKET_SIZE : Z := 16384.
Definition TDS_RECV_BUFFER_TARGET_BYTES : Z := 64 * 1024.
Definition TDS_RECV_MIN_FRAMES : Z := 2.

(** Timeouts in seconds, and the pool's defaults. *)
Definition DEFAULT_CONNECTION_TIMEOUT : Z := 30.
Definition DEFAULT_IDLE_TIMEOUT : Z := 300.
Definition DEFAULT_ACQUIRE_TIMEOUT : Z := 30.
Definition DEFAULT_QUERY_TIMEOUT : Z := 30.
Definition DEFAULT_METADATA_TIMEOUT : Z := 300.
Definition CANCELLATION_TIMEOUT : Z := 5.
Definition DEFAULT_CONNECTION_LIMIT : Z := 64.
Definition DEFAULT_MIN_CONNECTIONS : Z := 0.
Definition DEFAULT_CONNECTION_CACHE : bool := true.
Definition DEFAULT_RESET_CONNECTION : bool := true.
Definition LONG_IDLE_THRESHOLD : Z := 60.

(** [case A: case B: ...] of a [switch] over a byte. *)
Definition is_one_of (x : Z) (cases : list Z) : bool := existsb (Z.eqb x) cases.

Lemma is_one_of_elem x cases : is_one_of x cases = true <-> x ∈ cases.
Proof.
  unfold is_one_of. rewrite existsb_exists. split.
  - intros (y & Hin & ->%Z.eqb_eq). by apply list_elem_of_In.
  - intros H. exists x. split; [by apply list_elem_of_In | apply Z.eqb_refl].
Qed.
