(* ===== verification/Utf16.v ===== *)
(** * UTF-8 and UTF-16LE (src/src/tds/encoding/utf16.cpp)

    [Simdutf] is the interface of the simdutf library the file calls, and
    [SimdutfSpec] its documented behaviour: validation accepts exactly the
    encodings of sequences of Unicode scalar values, the [convert_valid_*]
    calls transcode such sequences, and [validate_utf16le_with_errors] reports
    the position of the first ill-formed code unit. [Legacy] is the hand-written
    converter, [Utf16] the public entry points. [RefSimdutf] is an executable
    implementation of the interface, used where a theorem is applied to a
    concrete input. The per-thread counter of fallback conversions and the
    scratch buffers are not modelled: they do not influence a result. *)

From S2P Require Import Prelude.

(** ** Unicode *)

Definition scalar (cp : Z) : Prop := 0 <= cp < 0x110000 /\ ~ (0xD800 <= cp < 0xE000).

#[export] Instance scalar_dec cp : Decision (scalar cp).
Proof. unfold scalar. apply _. Defined.

Definition utf8_enc (cp : Z) : bytes :=
  if cp <? 0x80 then bs [cp]
  else if cp <? 0x800 then bs [0xC0 + cp / 64; 0x80 + cp mod 64]
  else if cp <? 0x10000 then bs [0xE0 + cp / 4096; 0x80 + (cp / 64) mod 64; 0x80 + cp mod 64]
  else bs [0xF0 + cp / 262144; 0x80 + (cp / 4096) mod 64; 0x80 + (cp / 64) mod 64;
           0x80 + cp mod 64].

Definition utf16_enc (cp : Z) : list Z :=
  if cp <? 0x10000 then [cp]
  else [0xD800 + (cp - 0x10000) / 1024; 0xDC00 + (cp - 0x10000) mod 1024].

Definition utf8_encode (cps : list Z) : bytes := concat (utf8_enc <$> cps).
Definition utf16_encode (cps : list Z) : list Z := concat (utf16_enc <$> cps).

Definition is_high_surrogate (u : Z) : Prop := 0xD800 <= u < 0xDC00.
Definition is_low_surrogate (u : Z) : Prop := 0xDC00 <= u < 0xE000.

#[export] Instance is_high_surrogate_dec u : Decision (is_high_surrogate u).
Proof. unfold is_high_surrogate. apply _. Defined.
#[export] Instance is_low_surrogate_dec u : Decision (is_low_surrogate u).
Proof. unfold is_low_surrogate. apply _. Defined.

(** The first code unit of [us] is ill-formed: a low surrogate with nothing
    before it, or a high surrogate with no low surrogate after it. *)
Definition ill_formed_head (us : list Z) : Prop :=
  match us with
  | [] => False
  | u :: r => is_low_surrogate u \/
      (is_high_surrogate u /\ match r with [] => True | v :: _ => ~ is_low_surrogate v end)
  end.

(** A buffer of [char16_t] seen through its little-endian bytes. *)
Definition units_bytes (us : list Z) : bytes := concat (put16le <$> us).

Fixpoint bytes_units (data : bytes) : list Z :=
  match data with
  | lo :: hi :: r => (b2z lo + 256 * b2z hi) :: bytes_units r
  | _ => []
  end.

(** A value a [char16_t] can hold. *)
Definition unit_ok (u : Z) : Prop := 0 <= u < 65536.

(** ** The simdutf library *)

Class Simdutf : Type := {
  validate_utf8 : bytes -> bool;
  utf16_length_from_utf8 : bytes -> Z;
  convert_valid_utf8_to_utf16le : bytes -> list Z;
  validate_utf16le : list Z -> bool;
  validate_utf16le_with_errors : list Z -> option Z;
  utf8_length_from_utf16le : list Z -> Z;
  convert_valid_utf16le_to_utf8 : list Z -> bytes
}.

Class SimdutfSpec (S : Simdutf) : Prop := {
  validate_utf8_spec s :
    validate_utf8 s = true <-> exists cps, Forall scalar cps /\ s = utf8_encode cps;
  utf16_length_spec cps :
    Forall scalar cps -> utf16_length_from_utf8 (utf8_encode cps) = zlen (utf16_encode cps);
  convert_utf8_spec cps :
    Forall scalar cps -> convert_valid_utf8_to_utf16le (utf8_encode cps) = utf16_encode cps;
  validate_utf16le_spec us :
    validate_utf16le us = true <-> exists cps, Forall scalar cps /\ us = utf16_encode cps;
  with_errors_none us :
    validate_utf16le_with_errors us = None <-> validate_utf16le us = true;
  with_errors_some us n :
    Forall unit_ok us -> validate_utf16le_with_errors us = Some n ->
    exists cps bad, Forall scalar cps /\ us = utf16_encode cps ++ bad /\
                    n = zlen (utf16_encode cps) /\ ill_formed_head bad;
  utf8_length_spec cps :
    Forall scalar cps -> utf8_length_from_utf16le (utf16_encode cps) = zlen (utf8_encode cps);
  convert_utf16_spec cps :
    Forall scalar cps -> convert_valid_utf16le_to_utf8 (utf16_encode cps) = utf8_encode cps
}.

(** ** The hand-written converter *)

Module Legacy.

(** The eight bytes the code [memcpy]s into a [uint64_t]. *)
Definition load64 (c0 c1 c2 c3 c4 c5 c6 c7 : byte) : Z :=
  b2z c0 + 256 * (b2z c1 + 256 * (b2z c2 + 256 * (b2z c3 + 256 * (b2z c4 + 256 *
    (b2z c5 + 256 * (b2z c6 + 256 * b2z c7)))))).

Fixpoint IsAsciiString (data : bytes) : bool :=
  match data with
  | c0 :: c1 :: c2 :: c3 :: c4 :: c5 :: c6 :: c7 :: r =>
      if Z.land (load64 c0 c1 c2 c3 c4 c5 c6 c7) 0x8080808080808080 =? 0
      then IsAsciiString r else false
  | _ => forallb (fun c => Z.land (b2z c) 0x80 =? 0) data
  end.

Fixpoint AsciiToUtf16LE (input : bytes) : bytes :=
  match input with
  | c0 :: c1 :: c2 :: c3 :: r =>
      [c0; Byte.x00; c1; Byte.x00; c2; Byte.x00; c3; Byte.x00] ++ AsciiToUtf16LE r
  | c0 :: r => [c0; Byte.x00] ++ (c1 ← r; [c1; Byte.x00])
  | [] => []
  end.

(** What one decoded code point appends. *)
Definition push_codepoint (codepoint : Z) : bytes :=
  if codepoint <=? 0xFFFF then
    [z2b (Z.land codepoint 0xFF); z2b (Z.land (Z.shiftr codepoint 8) 0xFF)]
  else if codepoint <=? 0x10FFFF then
    let codepoint := codepoint - 0x10000 in
    let high_surrogate := 0xD800 + Z.land (Z.shiftr codepoint 10) 0x3FF in
    let low_surrogate := 0xDC00 + Z.land codepoint 0x3FF in
    [z2b (Z.land high_surrogate 0xFF); z2b (Z.land (Z.shiftr high_surrogate 8) 0xFF);
     z2b (Z.land low_surrogate 0xFF); z2b (Z.land (Z.shiftr low_surrogate 8) 0xFF)]
  else [].

(** How many bytes one code point takes, as the sizing loop counts them. *)
Definition count_codepoint (codepoint : Z) : Z :=
  if codepoint <=? 0xFFFF then 2 else if codepoint <=? 0x10FFFF then 4 else 0.

Definition codepoint2 (c0 c1 : byte) : Z :=
  Z.lor (Z.shiftl (Z.land (b2z c0) 0x1F) 6) (Z.land (b2z c1) 0x3F).
Definition codepoint3 (c0 c1 c2 : byte) : Z :=
  Z.lor (Z.lor (Z.shiftl (Z.land (b2z c0) 0x0F) 12) (Z.shiftl (Z.land (b2z c1) 0x3F) 6))
        (Z.land (b2z c2) 0x3F).
Definition codepoint4 (c0 c1 c2 c3 : byte) : Z :=
  Z.lor (Z.lor (Z.lor (Z.shiftl (Z.land (b2z c0) 0x07) 18) (Z.shiftl (Z.land (b2z c1) 0x3F) 12))
               (Z.shiftl (Z.land (b2z c2) 0x3F) 6))
        (Z.land (b2z c3) 0x3F).

(** The loop; an incomplete sequence at the end of the input is the [break]. *)
Fixpoint Utf8ToUtf16LEGeneral (input : bytes) : bytes :=
  match input with
  | [] => []
  | c0 :: r0 =>
      if Z.land (b2z c0) 0x80 =? 0 then push_codepoint (b2z c0) ++ Utf8ToUtf16LEGeneral r0
      else if Z.land (b2z c0) 0xE0 =? 0xC0 then
        match r0 with
        | c1 :: r => push_codepoint (codepoint2 c0 c1) ++ Utf8ToUtf16LEGeneral r
        | _ => []
        end
      else if Z.land (b2z c0) 0xF0 =? 0xE0 then
        match r0 with
        | c1 :: c2 :: r => push_codepoint (codepoint3 c0 c1 c2) ++ Utf8ToUtf16LEGeneral r
        | _ => []
        end
      else if Z.land (b2z c0) 0xF8 =? 0xF0 then
        match r0 with
        | c1 :: c2 :: c3 :: r =>
            push_codepoint (codepoint4 c0 c1 c2 c3) ++ Utf8ToUtf16LEGeneral r
        | _ => []
        end
      else Utf8ToUtf16LEGeneral r0
  end.

Definition LegacyUtf16LEEncode (input : bytes) : bytes :=
  match input with
  | [] => []
  | _ => if IsAsciiString input then AsciiToUtf16LE input else Utf8ToUtf16LEGeneral input
  end.

(** The sizing loop, [byte_count] being its accumulator. *)
Fixpoint LegacyUtf16LEByteLength_from (byte_count : Z) (input : bytes) : Z :=
  match input with
  | [] => byte_count
  | c0 :: r0 =>
      if Z.land (b2z c0) 0x80 =? 0 then
        LegacyUtf16LEByteLength_from (byte_count + count_codepoint (b2z c0)) r0
      else if Z.land (b2z c0) 0xE0 =? 0xC0 then
        match r0 with
        | c1 :: r => LegacyUtf16LEByteLength_from (byte_count + count_codepoint (codepoint2 c0 c1)) r
        | _ => byte_count
        end
      else if Z.land (b2z c0) 0xF0 =? 0xE0 then
        match r0 with
        | c1 :: c2 :: r =>
            LegacyUtf16LEByteLength_from (byte_count + count_codepoint (codepoint3 c0 c1 c2)) r
        | _ => byte_count
        end
      else if Z.land (b2z c0) 0xF8 =? 0xF0 then
        match r0 with
        | c1 :: c2 :: c3 :: r =>
            LegacyUtf16LEByteLength_from (byte_count + count_codepoint (codepoint4 c0 c1 c2 c3)) r
        | _ => byte_count
        end
      else LegacyUtf16LEByteLength_from byte_count r0
  end.

Definition LegacyUtf16LEByteLength (input : bytes) : Z := LegacyUtf16LEByteLength_from 0 input.

(** The bytes [LegacyUtf16LEEncodeDirect] writes at [output]; it returns their
    number. Its loops are the ones above with [output[out_pos++]] for
    [push_back]. *)
Definition LegacyUtf16LEEncodeDirect (input : bytes) : bytes :=
  match input with
  | [] => []
  | _ => if IsAsciiString input then AsciiToUtf16LE input else Utf8ToUtf16LEGeneral input
  end.

End Legacy.

(** ** The public functions *)

Section Public.
Context `{Simdutf}.

Definition Utf16LEEncode (input : bytes) : bytes :=
  match input with
  | [] => []
  | _ =>
      if negb (validate_utf8 input) then Legacy.LegacyUtf16LEEncode input
      else
        let code_units := utf16_length_from_utf8 input in
        if code_units =? 0 then []
        else units_bytes (convert_valid_utf8_to_utf16le input)
  end.

(** [output_aligned] is the test on the destination pointer. *)
Definition Utf16LEEncodeDirect (output_aligned : bool) (input : bytes) : bytes :=
  match input with
  | [] => []
  | _ =>
      if negb (validate_utf8 input) then Legacy.LegacyUtf16LEEncodeDirect input
      else if negb output_aligned then Legacy.LegacyUtf16LEEncodeDirect input
      else units_bytes (convert_valid_utf8_to_utf16le input)
  end.

Definition Utf16LEByteLength (input : bytes) : Z :=
  match input with
  | [] => 0
  | _ =>
      if negb (validate_utf8 input) then Legacy.LegacyUtf16LEByteLength input
      else utf16_length_from_utf8 input * 2
  end.

Definition Utf16LEByteLengthView (input : bytes) : Z * bool :=
  match input with
  | [] => (0, true)
  | _ =>
      let valid_utf8 := validate_utf8 input in
      if negb valid_utf8 then (Legacy.LegacyUtf16LEByteLength input, valid_utf8)
      else (utf16_length_from_utf8 input * 2, valid_utf8)
  end.

(** Both arms convert; an unaligned destination only adds a copy. *)
Definition Utf16LEEncodeValidDirect (input : bytes) : bytes :=
  match input with
  | [] => []
  | _ => units_bytes (convert_valid_utf8_to_utf16le input)
  end.

Definition kReplacement : bytes := bs [0xEF; 0xBF; 0xBD].

(** The loop of [DecodeUtf16LeReplacing] on the units from [pos] on. Every turn
    steps over at least one unit, so [length src] turns are enough. *)
Fixpoint DecodeUtf16LeReplacing_loop (fuel : nat) (src : list Z) (result : bytes) : bytes :=
  match fuel with
  | O => result
  | S fuel =>
      match src with
      | [] => result
      | _ =>
          let r := validate_utf16le_with_errors src in
          let valid_units := match r with None => zlen src | Some count => count end in
          let result :=
            if 0 <? valid_units
            then result ++ convert_valid_utf16le_to_utf8 (ztake valid_units src) else result in
          match r with
          | None => result
          | Some _ =>
              DecodeUtf16LeReplacing_loop fuel (zdrop (valid_units + 1) src) (result ++ kReplacement)
          end
      end
  end.

Definition DecodeUtf16LeReplacing (src : list Z) : bytes :=
  DecodeUtf16LeReplacing_loop (S (length src)) src [].

Definition Utf16LEDecode (data : bytes) : bytes :=
  match data with
  | [] => []
  | _ =>
      let src := bytes_units data in
      if negb (validate_utf16le src) then DecodeUtf16LeReplacing src
      else
        let out_bytes := utf8_length_from_utf16le src in
        if out_bytes =? 0 then [] else convert_valid_utf16le_to_utf8 src
  end.

(** [None] is the [SIZE_MAX] of the code. *)
Definition Utf8LengthFromUtf16LEView (data : bytes) : option Z :=
  match data with
  | [] => Some 0
  | _ =>
      let src := bytes_units data in
      if negb (validate_utf16le src) then None else Some (utf8_length_from_utf16le src)
  end.

Definition Utf16LEDecodeValidInto (data : bytes) : bytes :=
  match data with
  | [] => []
  | _ => convert_valid_utf16le_to_utf8 (bytes_units data)
  end.

End Public.

(** ** Reference functions the public ones are compared with *)

(** One replacement character per ill-formed unit, resuming at the next unit. *)
Fixpoint decode_replacing (us : list Z) : bytes :=
  match us with
  | [] => []
  | u :: r =>
      if decide (is_high_surrogate u) then
        match r with
        | v :: r' =>
            if decide (is_low_surrogate v)
            then utf8_enc (0x10000 + (u - 0xD800) * 1024 + (v - 0xDC00)) ++ decode_replacing r'
            else kReplacement ++ decode_replacing r
        | [] => kReplacement ++ decode_replacing r
        end
      else if decide (is_low_surrogate u) then kReplacement ++ decode_replacing r
      else utf8_enc u ++ decode_replacing r
  end.

(** ** An executable implementation of the library *)

Module RefSimdutf.

Definition check (cp : Z) (l : bytes) : bool := bool_decide (scalar cp) && bool_decide (utf8_enc cp = l).

Fixpoint utf8_decode (s : bytes) : option (list Z) :=
  match s with
  | [] => Some []
  | c0 :: r0 =>
      if Z.land (b2z c0) 0x80 =? 0 then
        if check (b2z c0) [c0] then cons (b2z c0) <$> utf8_decode r0 else None
      else if Z.land (b2z c0) 0xE0 =? 0xC0 then
        match r0 with
        | c1 :: r => let cp := Legacy.codepoint2 c0 c1 in
            if check cp [c0; c1] then cons cp <$> utf8_decode r else None
        | _ => None
        end
      else if Z.land (b2z c0) 0xF0 =? 0xE0 then
        match r0 with
        | c1 :: c2 :: r => let cp := Legacy.codepoint3 c0 c1 c2 in
            if check cp [c0; c1; c2] then cons cp <$> utf8_decode r else None
        | _ => None
        end
      else if Z.land (b2z c0) 0xF8 =? 0xF0 then
        match r0 with
        | c1 :: c2 :: c3 :: r => let cp := Legacy.codepoint4 c0 c1 c2 c3 in
            if check cp [c0; c1; c2; c3] then cons cp <$> utf8_decode r else None
        | _ => None
        end
      else None
  end.

(** The scalars of the longest well-formed prefix, and the units after it. *)
Fixpoint utf16_decode (us : list Z) : list Z * list Z :=
  match us with
  | [] => ([], [])
  | u :: r =>
      if decide (is_high_surrogate u) then
        match r with
        | v :: r' =>
            if decide (is_low_surrogate v) then
              let '(cps, bad) := utf16_decode r' in
              (0x10000 + (u - 0xD800) * 1024 + (v - 0xDC00) :: cps, bad)
            else ([], us)
        | [] => ([], us)
        end
      else if decide (scalar u /\ u < 0x10000) then
        let '(cps, bad) := utf16_decode r in (u :: cps, bad)
      else ([], us)
  end.

#[export] Instance simdutf : Simdutf := {
  validate_utf8 := fun s => bool_decide (is_Some (utf8_decode s));
  utf16_length_from_utf8 := fun s => zlen (utf16_encode (default [] (utf8_decode s)));
  convert_valid_utf8_to_utf16le := fun s => utf16_encode (default [] (utf8_decode s));
  validate_utf16le := fun us => bool_decide ((utf16_decode us).2 = []);
  validate_utf16le_with_errors := fun us =>
    match (utf16_decode us).2 with
    | [] => None
    | _ => Some (zlen (utf16_encode (utf16_decode us).1))
    end;
  utf8_length_from_utf16le := fun us => zlen (utf8_encode (utf16_decode us).1);
  convert_valid_utf16le_to_utf8 := fun us => utf8_encode (utf16_decode us).1
}.

End RefSimdutf.

(** ** Facts about single bytes, by trying all 256 values *)

Lemma z_range_ind (P : Z -> Prop) `{forall z, Decision (P z)} lo n :
  forallb (fun z => bool_decide (P z)) (seqZ lo n) = true -> forall z, lo <= z < lo + n -> P z.
Proof.
  intros Hall z Hz. rewrite forallb_forall in Hall.
  assert (Hin : List.In z (seqZ lo n)) by (apply list_elem_of_In, elem_of_seqZ; lia).
  specialize (Hall _ Hin). by apply bool_decide_eq_true in Hall.
Qed.

Ltac by_values lo n :=
  let z := fresh "z" in let Hz := fresh "Hz" in
  intros z Hz; revert z Hz;
  match goal with |- forall z, _ -> @?P z =>
    let H := fresh in
    assert (H : forall z, lo <= z < lo + n -> P z)
      by (apply (z_range_ind P); vm_compute; reflexivity);
    intros z Hz; apply H; lia
  end.

Lemma lead1 : forall z, 0 <= z < 0x80 -> Z.land z 0x80 = 0.
Proof. by_values 0 128. Qed.

Lemma lead1_inv : forall z, 0 <= z < 256 -> bool_decide (Z.land z 0x80 = 0) = bool_decide (z < 0x80).
Proof. by_values 0 256. Qed.

Lemma lead2 : forall z, 0xC0 <= z < 0xE0 ->
  Z.land z 0x80 = 0x80 /\ Z.land z 0xE0 = 0xC0 /\ Z.land z 0x1F = z - 0xC0.
Proof. by_values 0xC0 32. Qed.

Lemma lead3 : forall z, 0xE0 <= z < 0xF0 ->
  Z.land z 0x80 = 0x80 /\ Z.land z 0xE0 = 0xE0 /\ Z.land z 0xF0 = 0xE0 /\ Z.land z 0x0F = z - 0xE0.
Proof. by_values 0xE0 16. Qed.

Lemma lead4 : forall z, 0xF0 <= z < 0xF8 ->
  Z.land z 0x80 = 0x80 /\ Z.land z 0xE0 = 0xE0 /\ Z.land z 0xF0 = 0xF0 /\ Z.land z 0xF8 = 0xF0 /\
  Z.land z 0x07 = z - 0xF0.
Proof. by_values 0xF0 8. Qed.

Lemma cont : forall z, 0x80 <= z < 0xC0 -> Z.land z 0x3F = z - 0x80.
Proof. by_values 0x80 64. Qed.

(** ** The decoding formulas on the bytes of one scalar value *)

Lemma lor_low6 a b : 0 <= b < 64 -> Z.lor (Z.shiftl a 6) b = 64 * a + b.
Proof. intros. rewrite Z.lor_comm, lor_shiftl_add; lia. Qed.

Lemma shl_shl a n m : 0 <= n -> 0 <= m -> Z.shiftl a (n + m) = Z.shiftl (Z.shiftl a n) m.
Proof. intros. by rewrite Z.shiftl_shiftl. Qed.

Lemma lor_digits3 a b c :
  0 <= b < 64 -> 0 <= c < 64 ->
  Z.lor (Z.lor (Z.shiftl a 12) (Z.shiftl b 6)) c = 64 * (64 * a + b) + c.
Proof.
  intros. change 12 with (6 + 6). rewrite shl_shl, <- Z.shiftl_lor by lia.
  by rewrite !lor_low6.
Qed.

Lemma lor_digits4 a b c d :
  0 <= b < 64 -> 0 <= c < 64 -> 0 <= d < 64 ->
  Z.lor (Z.lor (Z.lor (Z.shiftl a 18) (Z.shiftl b 12)) (Z.shiftl c 6)) d
  = 64 * (64 * (64 * a + b) + c) + d.
Proof.
  intros. change 18 with (12 + 6). change (Z.shiftl b 12) with (Z.shiftl b (6 + 6)).
  rewrite !shl_shl, <- !Z.shiftl_lor by lia. rewrite lor_low6 by done.
  rewrite lor_digits3 by done. done.
Qed.

Lemma codepoint2_enc cp : 0x80 <= cp < 0x800 ->
  Legacy.codepoint2 (z2b (0xC0 + cp / 64)) (z2b (0x80 + cp mod 64)) = cp.
Proof.
  intros Hcp. unfold Legacy.codepoint2.
  assert (0 <= cp / 64 < 32) by zlia. assert (0 <= cp mod 64 < 64) by zlia.
  rewrite !b2z_z2b_small by lia.
  destruct (lead2 (0xC0 + cp / 64)) as (_ & _ & ->); [lia|].
  rewrite cont by lia. rewrite lor_low6 by lia. zlia.
Qed.

Lemma codepoint3_enc cp : 0x800 <= cp < 0x10000 ->
  Legacy.codepoint3 (z2b (0xE0 + cp / 4096)) (z2b (0x80 + (cp / 64) mod 64))
    (z2b (0x80 + cp mod 64)) = cp.
Proof.
  intros Hcp. unfold Legacy.codepoint3.
  assert (0 <= cp / 4096 < 16) by zlia. assert (0 <= (cp / 64) mod 64 < 64) by zlia.
  assert (0 <= cp mod 64 < 64) by zlia.
  rewrite !b2z_z2b_small by lia.
  destruct (lead3 (0xE0 + cp / 4096)) as (_ & _ & _ & ->); [lia|].
  rewrite !cont by lia. rewrite lor_digits3 by lia. zlia.
Qed.

Lemma codepoint4_enc cp : 0x10000 <= cp < 0x110000 ->
  Legacy.codepoint4 (z2b (0xF0 + cp / 262144)) (z2b (0x80 + (cp / 4096) mod 64))
    (z2b (0x80 + (cp / 64) mod 64)) (z2b (0x80 + cp mod 64)) = cp.
Proof.
  intros Hcp. unfold Legacy.codepoint4.
  assert (0 <= cp / 262144 < 8) by zlia. assert (0 <= (cp / 4096) mod 64 < 64) by zlia.
  assert (0 <= (cp / 64) mod 64 < 64) by zlia. assert (0 <= cp mod 64 < 64) by zlia.
  rewrite !b2z_z2b_small by lia.
  destruct (lead4 (0xF0 + cp / 262144)) as (_ & _ & _ & _ & ->); [lia|].
  rewrite !cont by lia. rewrite lor_digits4 by lia. zlia.
Qed.

(** What appending one code point means in code units. *)
Lemma put16le_bytes v : put16le v = [z2b (Z.land v 0xFF); z2b (Z.land (Z.shiftr v 8) 0xFF)].
Proof. done. Qed.

Lemma push_codepoint_enc cp :
  0 <= cp < 0x110000 -> Legacy.push_codepoint cp = units_bytes (utf16_enc cp).
Proof.
  intros H. unfold Legacy.push_codepoint, utf16_enc, units_bytes.
  destruct (decide (cp < 0x10000)).
  - replace (cp <=? 0xFFFF) with true by lia. by replace (cp <? 0x10000) with true by lia.
  - replace (cp <=? 0xFFFF) with false by lia. replace (cp <? 0x10000) with false by lia.
    replace (cp <=? 0x10FFFF) with true by lia.
    change 0x3FF with (Z.ones 10). rewrite !Z.land_ones, Z.shiftr_div_pow2 by lia.
    change (2 ^ 10) with 1024.
    rewrite (Z.mod_small ((cp - 0x10000) / 1024)) by zlia. done.
Qed.

Lemma count_codepoint_zlen cp : Legacy.count_codepoint cp = zlen (Legacy.push_codepoint cp).
Proof.
  unfold Legacy.count_codepoint, Legacy.push_codepoint.
  destruct (cp <=? 0xFFFF); [done|]. by destruct (cp <=? 0x10FFFF).
Qed.

(** One turn of the loop on the encoding of a scalar value. *)
Lemma general_utf8_enc cp r :
  scalar cp ->
  Legacy.Utf8ToUtf16LEGeneral (utf8_enc cp ++ r)
  = units_bytes (utf16_enc cp) ++ Legacy.Utf8ToUtf16LEGeneral r.
Proof.
  intros [Hcp _]. rewrite <- push_codepoint_enc by done. unfold utf8_enc.
  destruct (Z.ltb_spec cp 0x80); [|destruct (Z.ltb_spec cp 0x800); [|destruct (Z.ltb_spec cp 0x10000)]];
    simpl.
  - rewrite b2z_z2b_small, lead1 by lia. done.
  - assert (0 <= cp / 64 < 32) by zlia. rewrite (b2z_z2b_small (_ + _)) by lia.
    destruct (lead2 (0xC0 + cp / 64)) as (-> & -> & _); [lia|]. simpl.
    by rewrite codepoint2_enc by lia.
  - assert (0 <= cp / 4096 < 16) by zlia. rewrite (b2z_z2b_small (_ + _)) by lia.
    destruct (lead3 (0xE0 + cp / 4096)) as (-> & -> & -> & _); [lia|]. simpl.
    by rewrite codepoint3_enc by lia.
  - assert (0 <= cp / 262144 < 8) by zlia. rewrite (b2z_z2b_small (_ + _)) by lia.
    destruct (lead4 (0xF0 + cp / 262144)) as (-> & -> & -> & -> & _); [lia|]. simpl.
    by rewrite codepoint4_enc by lia.
Qed.

Lemma units_bytes_app us vs : units_bytes (us ++ vs) = units_bytes us ++ units_bytes vs.
Proof. unfold units_bytes. by rewrite fmap_app, concat_app. Qed.

Lemma zlen_units_bytes us : zlen (units_bytes us) = 2 * zlen us.
Proof.
  induction us as [|u us IH]; [done|].
  change (units_bytes (u :: us)) with (put16le u ++ units_bytes us).
  rewrite zlen_app, IH, zlen_cons. change (zlen (put16le u)) with 2. lia.
Qed.

Lemma general_utf8_encode cps :
  Forall scalar cps ->
  Legacy.Utf8ToUtf16LEGeneral (utf8_encode cps) = units_bytes (utf16_encode cps).
Proof.
  induction 1 as [|cp cps Hcp _ IH]; [done|].
  change (utf8_encode (cp :: cps)) with (utf8_enc cp ++ utf8_encode cps).
  rewrite general_utf8_enc, IH by done.
  change (utf16_encode (cp :: cps)) with (utf16_enc cp ++ utf16_encode cps).
  by rewrite units_bytes_app.
Qed.

(** ** The ASCII fast path *)

Lemma land_split b m x y :
  0 <= b < 256 -> 0 <= m < 256 ->
  Z.land (b + 256 * x) (m + 256 * y) = Z.land b m + 256 * Z.land x y.
Proof.
  intros Hb Hm. rewrite <- !lor16 by done.
  rewrite Z.land_lor_distr_l, !Z.land_lor_distr_r.
  rewrite (land_shiftl_0 b y), (Z.land_comm (Z.shiftl x 8) m), (land_shiftl_0 m x) by lia.
  rewrite Z.lor_0_r, Z.lor_0_l, <- Z.shiftl_land, lor16; [done|].
  split; [apply Z.land_nonneg; lia|].
  destruct (decide (Z.land b m = 0)) as [->|]; [lia|].
  apply (Z.log2_lt_pow2 _ 8); [pose proof (Z.land_nonneg b m); lia|].
  pose proof (Z.log2_land b m ltac:(lia) ltac:(lia)).
  assert (Z.log2 b < 8) by (destruct (decide (b = 0)) as [->|]; [done | apply Z.log2_lt_pow2; lia]).
  lia.
Qed.

Lemma land80 (c : byte) : Z.land (b2z c) 0x80 = 0 \/ Z.land (b2z c) 0x80 = 0x80.
Proof.
  pose proof (b2z_range c) as H. revert H. generalize (b2z c).
  by_values 0 256.
Qed.

Lemma digit_zero a x :
  a = 0 \/ a = 0x80 -> 0 <= x -> (a + 256 * x =? 0) = (a =? 0) && (x =? 0).
Proof. intros [->| ->]; lia. Qed.

Lemma digit_nonneg a x : a = 0 \/ a = 0x80 -> 0 <= x -> 0 <= a + 256 * x.
Proof. lia. Qed.

Lemma land80_nonneg (c : byte) : 0 <= Z.land (b2z c) 0x80.
Proof. destruct (land80 c) as [->| ->]; lia. Qed.

Lemma load64_ascii c0 c1 c2 c3 c4 c5 c6 c7 :
  (Z.land (Legacy.load64 c0 c1 c2 c3 c4 c5 c6 c7) 0x8080808080808080 =? 0)
  = forallb (fun c => Z.land (b2z c) 0x80 =? 0) [c0; c1; c2; c3; c4; c5; c6; c7].
Proof.
  unfold Legacy.load64.
  change 0x8080808080808080 with
    (0x80 + 256 * (0x80 + 256 * (0x80 + 256 * (0x80 + 256 * (0x80 + 256 * (0x80 + 256 *
      (0x80 + 256 * 0x80))))))).
  rewrite !land_split by (lia || apply b2z_range). simpl. rewrite andb_true_r.
  rewrite !digit_zero by auto 20 using land80, digit_nonneg, land80_nonneg.
  done.
Qed.

(** Induction in steps of eight, then one at a time. *)
Lemma IsAsciiString_forallb s :
  Legacy.IsAsciiString s = forallb (fun c => Z.land (b2z c) 0x80 =? 0) s.
Proof.
  remember (length s) as n eqn:Hn. revert s Hn.
  induction n as [n IH] using lt_wf_ind. intros s ->.
  do 8 (destruct s as [|? s]; [done|]).
  cbn [Legacy.IsAsciiString]. rewrite load64_ascii.
  rewrite (IH (length s)) by (simpl; lia || done).
  match goal with |- (if ?x then ?y else false) = _ => change (x && y = forallb (fun c => Z.land (b2z c) 0x80 =? 0)
    ([b; b0; b1; b2; b3; b4; b5; b6] ++ s)) end.
  by rewrite forallb_app.
Qed.

Lemma AsciiToUtf16LE_flat s : Legacy.AsciiToUtf16LE s = (c ← s; [c; Byte.x00]).
Proof.
  remember (length s) as n eqn:Hn. revert s Hn.
  induction n as [n IH] using lt_wf_ind. intros s ->.
  do 4 (destruct s as [|? s]; [done|]).
  cbn [Legacy.AsciiToUtf16LE]. rewrite (IH (length s)) by (simpl; lia || done). done.
Qed.

Lemma ascii_general s :
  Legacy.IsAsciiString s = true -> Legacy.AsciiToUtf16LE s = Legacy.Utf8ToUtf16LEGeneral s.
Proof.
  rewrite IsAsciiString_forallb, AsciiToUtf16LE_flat.
  induction s as [|c s IH]; [done|]. simpl. intros [Hc Hs]%andb_prop.
  rewrite Hc, <- IH by done. apply Z.eqb_eq in Hc.
  pose proof (b2z_range c).
  assert (b2z c < 0x80).
  { pose proof (lead1_inv (b2z c) ltac:(lia)) as E. rewrite Hc in E. simpl in E.
    symmetry in E. by apply bool_decide_eq_true in E. }
  unfold Legacy.push_codepoint. replace (b2z c <=? 0xFFFF) with true by lia. simpl. f_equal.
  - apply b2z_inj. rewrite b2z_byte_0. symmetry. apply Z.mod_small. lia.
  - f_equal. apply b2z_inj. rewrite b2z_byte_at by lia. rewrite Z.div_small by (simpl; lia). done.
Qed.

Lemma LegacyUtf16LEEncode_general s : Legacy.LegacyUtf16LEEncode s = Legacy.Utf8ToUtf16LEGeneral s.
Proof.
  destruct s as [|c s]; [done|]. unfold Legacy.LegacyUtf16LEEncode.
  destruct (Legacy.IsAsciiString (c :: s)) eqn:E; [by apply ascii_general|done].
Qed.

(** ** The sizing loop *)

Lemma ByteLength_general s acc :
  Legacy.LegacyUtf16LEByteLength_from acc s = acc + zlen (Legacy.Utf8ToUtf16LEGeneral s).
Proof.
  remember (length s) as n eqn:Hn. revert s Hn acc.
  induction n as [n IH] using lt_wf_ind. intros s -> acc.
  assert (Hrec : forall r acc', (length r < length s)%nat ->
    Legacy.LegacyUtf16LEByteLength_from acc' r = acc' + zlen (Legacy.Utf8ToUtf16LEGeneral r))
    by (intros; eapply IH; done).
  destruct s as [|c0 r0]; [simpl; rewrite zlen_nil; lia|]. simpl in Hrec |- *.
  repeat case_match; rewrite ?zlen_app, ?zlen_nil, ?Hrec, ?count_codepoint_zlen; simpl; lia.
Qed.

(** ** The UTF-16 decoder *)

Lemma zlen_utf8_enc cp : 1 <= zlen (utf8_enc cp).
Proof. unfold utf8_enc. repeat case_match; rewrite ?zlen_cons; vm_compute; done. Qed.

Lemma zlen_utf16_enc cp : 1 <= zlen (utf16_enc cp).
Proof. unfold utf16_enc. case_match; vm_compute; done. Qed.

Lemma utf16_encode_app a b : utf16_encode (a ++ b) = utf16_encode a ++ utf16_encode b.
Proof. unfold utf16_encode. by rewrite fmap_app, concat_app. Qed.

Lemma utf16_encode_nil cps : utf16_encode cps = [] -> cps = [].
Proof.
  destruct cps as [|cp cps]; [done|].
  change (utf16_encode (cp :: cps)) with (utf16_enc cp ++ utf16_encode cps).
  intros E%(f_equal zlen). rewrite zlen_app, zlen_nil in E.
  pose proof (zlen_utf16_enc cp). pose proof (zlen_nonneg (utf16_encode cps)). lia.
Qed.

Lemma utf8_encode_nil cps : utf8_encode cps = [] -> cps = [].
Proof.
  destruct cps as [|cp cps]; [done|].
  change (utf8_encode (cp :: cps)) with (utf8_enc cp ++ utf8_encode cps).
  intros E%(f_equal zlen). rewrite zlen_app, zlen_nil in E.
  pose proof (zlen_utf8_enc cp). pose proof (zlen_nonneg (utf8_encode cps)). lia.
Qed.

Lemma utf16_enc_units cp : scalar cp -> Forall unit_ok (utf16_enc cp).
Proof.
  intros [Hcp _]. unfold utf16_enc, unit_ok. case_match; repeat constructor; zlia.
Qed.

Lemma utf16_encode_units cps : Forall scalar cps -> Forall unit_ok (utf16_encode cps).
Proof.
  induction 1; [constructor|]. apply Forall_app. split; [by apply utf16_enc_units|done].
Qed.

Lemma bytes_units_ok data : Forall unit_ok (bytes_units data).
Proof.
  remember (length data) as n eqn:Hn. revert data Hn.
  induction n as [n IH] using lt_wf_ind. intros data ->.
  destruct data as [|a [|b r]]; [constructor..|]. simpl. constructor.
  - pose proof (b2z_range a). pose proof (b2z_range b). unfold unit_ok. lia.
  - eapply IH; [|done]. simpl. lia.
Qed.

Lemma bytes_units_bytes us : Forall unit_ok us -> bytes_units (units_bytes us) = us.
Proof.
  induction 1 as [|u us Hu _ IH]; [done|].
  change (units_bytes (u :: us)) with (put16le u ++ units_bytes us).
  unfold put16le. simpl. rewrite IH, b2z_byte_at, b2z_byte_0 by lia. f_equal.
  rewrite join16. apply Z.mod_small, Hu.
Qed.

Lemma decode_replacing_enc cp r :
  scalar cp -> decode_replacing (utf16_enc cp ++ r) = utf8_enc cp ++ decode_replacing r.
Proof.
  intros [Hcp Hs]. unfold utf16_enc. destruct (Z.ltb_spec cp 0x10000); simpl.
  - rewrite decide_False by (unfold is_high_surrogate; lia).
    by rewrite decide_False by (unfold is_low_surrogate; lia).
  - rewrite decide_True by (unfold is_high_surrogate; zlia).
    rewrite decide_True by (unfold is_low_surrogate; zlia). do 2 f_equal. zlia.
Qed.

Lemma decode_replacing_encode cps r :
  Forall scalar cps -> decode_replacing (utf16_encode cps ++ r) = utf8_encode cps ++ decode_replacing r.
Proof.
  induction 1 as [|cp cps Hcp _ IH]; [done|].
  change (utf16_encode (cp :: cps)) with (utf16_enc cp ++ utf16_encode cps).
  rewrite <- app_assoc, decode_replacing_enc, IH by done. by rewrite app_assoc.
Qed.

Lemma decode_replacing_bad us :
  ill_formed_head us -> decode_replacing us = kReplacement ++ decode_replacing (zdrop 1 us).
Proof.
  destruct us as [|u r]; [done|]. simpl.
  unfold is_high_surrogate, is_low_surrogate. intros [Hl|[Hh Hr]].
  - rewrite decide_False by lia. by rewrite decide_True by lia.
  - rewrite decide_True by lia. destruct r as [|v r]; [done|]. by rewrite decide_False.
Qed.

Section UnderSpec.
Context {S : Simdutf} {Spec : SimdutfSpec S}.

Lemma validate_utf8_cases s :
  (validate_utf8 s = true /\ exists cps, Forall scalar cps /\ s = utf8_encode cps) \/
  validate_utf8 s = false.
Proof.
  destruct (validate_utf8 s) eqn:E; [left|by right]. split; [done|]. by apply validate_utf8_spec.
Qed.

Lemma Utf16LEEncode_general s : Utf16LEEncode s = Legacy.Utf8ToUtf16LEGeneral s.
Proof.
  destruct s as [|c s]; [done|]. unfold Utf16LEEncode.
  destruct (validate_utf8_cases (c :: s)) as [(-> & cps & Hcps & ->)| ->]; simpl negb; cbn iota.
  - rewrite utf16_length_spec, convert_utf8_spec, general_utf8_encode by done.
    destruct (zlen (utf16_encode cps) =? 0) eqn:E0; [|done].
    apply Z.eqb_eq, zlen_0_nil in E0. by rewrite E0.
  - apply (LegacyUtf16LEEncode_general (c :: s)).
Qed.

Lemma Utf16LEEncode_encode cps :
  Forall scalar cps -> Utf16LEEncode (utf8_encode cps) = units_bytes (utf16_encode cps).
Proof. intros. by rewrite Utf16LEEncode_general, general_utf8_encode. Qed.

Lemma Utf16LEByteLength_zlen s : Utf16LEByteLength s = zlen (Utf16LEEncode s).
Proof.
  rewrite Utf16LEEncode_general. destruct s as [|c s]; [done|]. unfold Utf16LEByteLength.
  destruct (validate_utf8_cases (c :: s)) as [(-> & cps & Hcps & ->)| ->]; simpl negb; cbn iota.
  - rewrite utf16_length_spec, general_utf8_encode, zlen_units_bytes by done. lia.
  - unfold Legacy.LegacyUtf16LEByteLength. rewrite ByteLength_general. lia.
Qed.

Lemma valid_units_decode us :
  validate_utf16le us = true ->
  exists cps, Forall scalar cps /\ us = utf16_encode cps /\ decode_replacing us = utf8_encode cps.
Proof.
  intros (cps & Hcps & ->)%validate_utf16le_spec. exists cps. split; [done|]. split; [done|].
  rewrite <- (app_nil_r (utf16_encode cps)), decode_replacing_encode by done. apply app_nil_r.
Qed.

Lemma DecodeUtf16LeReplacing_loop_spec fuel us acc :
  Forall unit_ok us -> (length us < fuel)%nat ->
  DecodeUtf16LeReplacing_loop fuel us acc = acc ++ decode_replacing us.
Proof.
  revert us acc. induction fuel as [|fuel IH]; intros us acc Hok Hf; [lia|].
  destruct us as [|u us]; [simpl; by rewrite app_nil_r|]. cbn [DecodeUtf16LeReplacing_loop].
  destruct (validate_utf16le_with_errors (u :: us)) as [n|] eqn:E.
  - apply with_errors_some in E as (cps & bad & Hcps & Hus & -> & Hbad); [|done].
    rewrite Hus in Hok, Hf |- *. apply Forall_app in Hok as [_ Hok].
    pose proof (zlen_nonneg (utf16_encode cps)).
    rewrite <- zdrop_zdrop by lia. rewrite zdrop_app_length by done.
    assert (Hlen : (length (zdrop 1 bad) < fuel)%nat).
    { unfold zdrop. rewrite length_drop. rewrite length_app in Hf.
      destruct bad; simpl in *; [done|lia]. }
    rewrite IH by (done || by apply Forall_drop). rewrite decode_replacing_encode, (decode_replacing_bad bad) by done.
    destruct (0 <? zlen (utf16_encode cps)) eqn:E0.
    + rewrite ztake_app_length, convert_utf16_spec by done. by rewrite <- ?app_assoc.
    + assert (zlen (utf16_encode cps) = 0) as ->%zlen_0_nil%utf16_encode_nil by lia.
      simpl. by rewrite <- ?app_assoc.
  - apply with_errors_none, valid_units_decode in E as (cps & Hcps & -> & ->).
    destruct (0 <? zlen (utf16_encode cps)) eqn:E0.
    + unfold ztake, zlen. rewrite Nat2Z.id, firstn_all, convert_utf16_spec by done. done.
    + pose proof (zlen_nonneg (utf16_encode cps)).
      assert (zlen (utf16_encode cps) = 0) as ->%zlen_0_nil%utf16_encode_nil by lia.
      by rewrite app_nil_r.
Qed.

Lemma Utf16LEDecode_eq data : Utf16LEDecode data = decode_replacing (bytes_units data).
Proof.
  destruct data as [|b data]; [done|]. unfold Utf16LEDecode.
  destruct (validate_utf16le (bytes_units (b :: data))) eqn:E; simpl negb; cbn iota.
  - apply valid_units_decode in E as (cps & Hcps & -> & ->).
    rewrite utf8_length_spec, convert_utf16_spec by done.
    destruct (zlen (utf8_encode cps) =? 0) eqn:E0; [|done].
    apply Z.eqb_eq, zlen_0_nil in E0. by rewrite E0.
  - unfold DecodeUtf16LeReplacing. by rewrite DecodeUtf16LeReplacing_loop_spec by (lia || apply bytes_units_ok).
Qed.

Lemma Utf16LEDecode_units us :
  Forall unit_ok us -> Utf16LEDecode (units_bytes us) = decode_replacing us.
Proof. intros. by rewrite Utf16LEDecode_eq, bytes_units_bytes. Qed.

Lemma Utf16LEDecode_encode cps :
  Forall scalar cps -> Utf16LEDecode (units_bytes (utf16_encode cps)) = utf8_encode cps.
Proof.
  intros Hcps. rewrite Utf16LEDecode_units by by apply utf16_encode_units.
  rewrite <- (app_nil_r (utf16_encode cps)), decode_replacing_encode by done. apply app_nil_r.
Qed.

End UnderSpec.


(** ** The executable implementation meets the documented behaviour *)

Section RefSpec.
Import RefSimdutf.

Lemma check_true cp l : check cp l = true -> scalar cp /\ utf8_enc cp = l.
Proof. unfold check. intros [H1 H2]%andb_prop. by rewrite !bool_decide_eq_true in *. Qed.

Lemma check_enc cp : scalar cp -> check cp (utf8_enc cp) = true.
Proof. intros. unfold check. by rewrite !bool_decide_true. Qed.

Lemma utf8_decode_sound s cps :
  utf8_decode s = Some cps -> Forall scalar cps /\ s = utf8_encode cps.
Proof.
  remember (length s) as n eqn:Hn. revert s Hn cps.
  induction n as [n IH] using lt_wf_ind. intros s -> cps Hs.
  assert (Hrec : forall cp l r, s = l ++ r -> (length r < length s)%nat -> check cp l = true ->
    cons cp <$> utf8_decode r = Some cps -> Forall scalar cps /\ s = utf8_encode cps).
  { intros cp l r Hl Hr [Hcp <-]%check_true E. destruct (utf8_decode r) eqn:Er; [|done].
    simpl in E. injection E as <-. destruct (IH _ Hr r eq_refl _ Er) as [Hf ->].
    split; [by constructor|done]. }
  destruct s as [|c0 r0]; [injection Hs as <-; by split|]. simpl in Hs.
  repeat case_match; try done; eapply Hrec; try done; try (simpl; lia).
  all: instantiate (1 := _ :: _) || idtac; done.
Qed.

Lemma utf8_decode_enc cp r :
  scalar cp -> utf8_decode (utf8_enc cp ++ r) = cons cp <$> utf8_decode r.
Proof.
  intros Hsc. pose proof (check_enc cp Hsc) as Hck. revert Hck.
  destruct Hsc as [Hcp _]. unfold utf8_enc.
  destruct (Z.ltb_spec cp 0x80); [|destruct (Z.ltb_spec cp 0x800); [|destruct (Z.ltb_spec cp 0x10000)]];
    simpl; intros Hck.
  - rewrite b2z_z2b_small, lead1, Hck by lia. done.
  - assert (0 <= cp / 64 < 32) by zlia. rewrite (b2z_z2b_small (_ + _)) by lia.
    destruct (lead2 (0xC0 + cp / 64)) as (-> & -> & _); [lia|]. simpl.
    by rewrite codepoint2_enc, Hck by lia.
  - assert (0 <= cp / 4096 < 16) by zlia. rewrite (b2z_z2b_small (_ + _)) by lia.
    destruct (lead3 (0xE0 + cp / 4096)) as (-> & -> & -> & _); [lia|]. simpl.
    by rewrite codepoint3_enc, Hck by lia.
  - assert (0 <= cp / 262144 < 8) by zlia. rewrite (b2z_z2b_small (_ + _)) by lia.
    destruct (lead4 (0xF0 + cp / 262144)) as (-> & -> & -> & -> & _); [lia|]. simpl.
    by rewrite codepoint4_enc, Hck by lia.
Qed.

Lemma utf8_decode_encode cps : Forall scalar cps -> utf8_decode (utf8_encode cps) = Some cps.
Proof.
  induction 1 as [|cp cps Hcp _ IH]; [done|].
  change (utf8_encode (cp :: cps)) with (utf8_enc cp ++ utf8_encode cps).
  by rewrite utf8_decode_enc, IH.
Qed.

Lemma utf16_decode_enc cp r :
  scalar cp -> utf16_decode (utf16_enc cp ++ r) = (cp :: (utf16_decode r).1, (utf16_decode r).2).
Proof.
  intros [Hcp Hs]. unfold utf16_enc. destruct (Z.ltb_spec cp 0x10000); simpl.
  - rewrite decide_False by (unfold is_high_surrogate; lia).
    rewrite decide_True by (unfold scalar; lia). by destruct (utf16_decode r).
  - rewrite decide_True by (unfold is_high_surrogate; zlia).
    rewrite decide_True by (unfold is_low_surrogate; zlia).
    destruct (utf16_decode r). simpl. do 2 f_equal. zlia.
Qed.

Lemma utf16_decode_encode cps : Forall scalar cps -> utf16_decode (utf16_encode cps) = (cps, []).
Proof.
  induction 1 as [|cp cps Hcp _ IH]; [done|].
  change (utf16_encode (cp :: cps)) with (utf16_enc cp ++ utf16_encode cps).
  by rewrite utf16_decode_enc, IH.
Qed.

Lemma utf16_decode_sound us :
  Forall scalar (utf16_decode us).1 /\ us = utf16_encode (utf16_decode us).1 ++ (utf16_decode us).2.
Proof.
  remember (length us) as n eqn:Hn. revert us Hn.
  induction n as [n IH] using lt_wf_ind. intros us ->.
  assert (Hrec : forall r, (length r < length us)%nat -> Forall scalar (utf16_decode r).1 /\
    r = utf16_encode (utf16_decode r).1 ++ (utf16_decode r).2) by (intros; by eapply IH).
  destruct us as [|u r]; [by split|]. simpl in Hrec |- *.
  destruct (decide (is_high_surrogate u)) as [Hh|Hh].
  - destruct r as [|v r']; [by split|]. destruct (decide (is_low_surrogate v)) as [Hl|Hl]; [|by split].
    destruct (Hrec r') as [Hf Hr]; [simpl; lia|]. destruct (utf16_decode r') as [cps bad]. simpl in *.
    unfold is_high_surrogate, is_low_surrogate in *. split.
    + constructor; [unfold scalar; lia|done].
    + change (utf16_encode (?a :: ?l)) with (utf16_enc a ++ utf16_encode l). unfold utf16_enc.
      match goal with |- context [?a <? 0x10000] => replace (a <? 0x10000) with false by lia end.
      simpl. rewrite <- Hr. f_equal; [zlia|]. f_equal. zlia.
  - destruct (decide (scalar u /\ u < 0x10000)) as [[Hs Hb]|]; [|by split].
    destruct (Hrec r) as [Hf Hr]; [lia|]. destruct (utf16_decode r) as [cps bad]. simpl in *.
    split; [by constructor|].
    change (utf16_encode (u :: cps)) with (utf16_enc u ++ utf16_encode cps). unfold utf16_enc.
    replace (u <? 0x10000) with true by lia. simpl. by rewrite <- Hr.
Qed.

Lemma utf16_decode_bad us :
  Forall unit_ok us -> (utf16_decode us).2 = [] \/ ill_formed_head (utf16_decode us).2.
Proof.
  remember (length us) as n eqn:Hn. revert us Hn.
  induction n as [n IH] using lt_wf_ind. intros us -> Hok.
  destruct us as [|u r]; [by left|]. apply Forall_cons in Hok as [Hu Hok]. simpl.
  unfold is_high_surrogate, is_low_surrogate, unit_ok, scalar in *.
  destruct (decide (0xD800 <= u < 0xDC00)).
  - destruct r as [|v r']; [right; simpl; unfold is_low_surrogate, is_high_surrogate; lia|].
    apply Forall_cons in Hok as [Hv Hok].
    destruct (decide (0xDC00 <= v < 0xE000)).
    + specialize (IH (length r') ltac:(simpl; lia) r' eq_refl Hok). by destruct (utf16_decode r').
    + right. simpl. unfold is_low_surrogate, is_high_surrogate. lia.
  - destruct (decide _).
    + specialize (IH (length r) ltac:(simpl; lia) r eq_refl Hok). by destruct (utf16_decode r).
    + right. simpl. unfold is_low_surrogate, is_high_surrogate. lia.
Qed.

#[export] Instance ref_simdutf_spec : SimdutfSpec RefSimdutf.simdutf.
Proof.
  constructor; simpl.
  - intros s. rewrite bool_decide_eq_true. split.
    + intros [cps Hs]. exists cps. by apply utf8_decode_sound.
    + intros (cps & Hcps & ->). rewrite utf8_decode_encode by done. eauto.
  - intros. by rewrite utf8_decode_encode.
  - intros. by rewrite utf8_decode_encode.
  - intros us. rewrite bool_decide_eq_true. split.
    + intros E. pose proof (utf16_decode_sound us) as [Hf Hu]. rewrite E, app_nil_r in Hu. eauto.
    + intros (cps & Hcps & ->). by rewrite utf16_decode_encode.
  - intros us. rewrite bool_decide_eq_true. by destruct (utf16_decode us).2.
  - intros us n Hok E. pose proof (utf16_decode_sound us) as [Hf Hu].
    destruct (utf16_decode_bad us Hok) as [E2|Hb]; [by rewrite E2 in E|].
    exists (utf16_decode us).1, (utf16_decode us).2. split; [done|]. split; [done|].
    destruct (utf16_decode us).2 as [|x bad]; [done|]. by injection E as <-.
  - intros. by rewrite utf16_decode_encode.
  - intros. by rewrite utf16_decode_encode.
Qed.
End RefSpec.

Section DirectSpec.
Context {S : Simdutf} {Spec : SimdutfSpec S}.

Lemma Utf16LEEncodeDirect_general aligned s :
  Utf16LEEncodeDirect aligned s = Legacy.Utf8ToUtf16LEGeneral s.
Proof.
  destruct s as [|c s]; [done|]. unfold Utf16LEEncodeDirect.
  destruct (validate_utf8_cases (c :: s)) as [(-> & cps & Hcps & ->)| ->]; simpl negb; cbn iota.
  - destruct aligned; simpl negb; cbn iota.
    + by rewrite convert_utf8_spec, general_utf8_encode.
    + apply LegacyUtf16LEEncode_general.
  - apply (LegacyUtf16LEEncode_general (c :: s)).
Qed.

Lemma validate_utf8_encode cps : Forall scalar cps -> validate_utf8 (utf8_encode cps) = true.
Proof. intros. apply validate_utf8_spec. eauto. Qed.
End DirectSpec.

(** ** Properties *)

Section Properties.
Context {S : Simdutf} {Spec : SimdutfSpec S}.

(** C32. Whatever the input bytes, valid UTF-8 or not, the simdutf path of
    [Utf16LEEncode] and of [Utf16LEEncodeDirect] (aligned or not) emits exactly
    the bytes the hand-written converter emits: the fast path is bit-identical,
    malformed and truncated sequences included. *)
Theorem Utf16LEEncode_is_Legacy (output_aligned : bool) (input : bytes) :
  Utf16LEEncode input = Legacy.LegacyUtf16LEEncode input /\
  Utf16LEEncodeDirect output_aligned input = Legacy.LegacyUtf16LEEncodeDirect input.
Proof.
  split.
  - by rewrite Utf16LEEncode_general, LegacyUtf16LEEncode_general.
  - rewrite Utf16LEEncodeDirect_general. symmetry. apply LegacyUtf16LEEncode_general.
Qed.

(** The sizing functions are exact: the length a caller reserves is the
    number of bytes the encoder then writes, for every input, and the flag of
    [Utf16LEByteLengthView] is false exactly when no scalar values encode to
    the input, so the [Valid] encoder is then only called where it agrees. *)
Theorem Utf16LEByteLength_exact (input : bytes) :
  Utf16LEByteLength input = zlen (Utf16LEEncode input) /\
  (Utf16LEByteLengthView input).1 = zlen (Utf16LEEncode input) /\
  ((Utf16LEByteLengthView input).2 = true ->
     Utf16LEEncodeValidDirect input = Utf16LEEncode input /\
     exists cps, Forall scalar cps /\ input = utf8_encode cps) /\
  (forall cps, Forall scalar cps -> input = utf8_encode cps ->
     (Utf16LEByteLengthView input).2 = true).
Proof.
  assert (Hview : Utf16LEByteLengthView input = (Utf16LEByteLength input,
      match input with [] => true | _ => validate_utf8 input end)).
  { destruct input as [|c s]; [done|]. unfold Utf16LEByteLengthView, Utf16LEByteLength.
    by destruct (validate_utf8 (c :: s)). }
  rewrite Hview. simpl. rewrite <- Utf16LEByteLength_zlen.
  split; [done|]. split; [done|]. split.
  - intros Hv. destruct input as [|c s]; [split; [done|]; by exists []|].
    apply validate_utf8_spec in Hv as (cps & Hcps & E). rewrite E. split; [|eauto].
    rewrite Utf16LEEncode_encode, <- E by done. unfold Utf16LEEncodeValidDirect.
    by rewrite E, convert_utf8_spec.
  - intros cps Hcps ->. destruct (utf8_encode cps) eqn:E; [done|].
    rewrite <- E. by apply validate_utf8_encode.
Qed.

(** [Utf16LEDecode] on any buffer is the total reference decoder: every
    ill-formed unit becomes one U+FFFD and decoding resumes at the next unit,
    an odd last byte is dropped, and the replacement loop ends. Valid text
    survives a round trip through the wire encoding unchanged. *)
Theorem Utf16LEDecode_replacing (data : bytes) (cps : list Z) :
  Utf16LEDecode data = decode_replacing (bytes_units data) /\
  (Forall scalar cps -> Utf16LEDecode (Utf16LEEncode (utf8_encode cps)) = utf8_encode cps).
Proof.
  split; [apply Utf16LEDecode_eq|]. intros Hcps.
  by rewrite Utf16LEEncode_encode, Utf16LEDecode_encode.
Qed.

End Properties.

Lemma Utf16LEEncode_is_Legacy_witness :
  @Utf16LEEncode RefSimdutf.simdutf (bs [0x41; 0xC3; 0xA9; 0xE2; 0x82]) = bs [0x41; 0; 0xE9; 0] /\
  @Utf16LEEncode RefSimdutf.simdutf (bs [0x41; 0xC3; 0xA9; 0xE2; 0x82])
    = Legacy.LegacyUtf16LEEncode (bs [0x41; 0xC3; 0xA9; 0xE2; 0x82]).
Proof.
  split; [vm_compute; reflexivity|].
  apply (Utf16LEEncode_is_Legacy (S := RefSimdutf.simdutf) (Spec := ref_simdutf_spec) true).
Defined.

Lemma Utf16LEByteLength_exact_witness :
  @Utf16LEByteLength RefSimdutf.simdutf (bs [0xF0; 0x9F; 0x98; 0x80]) = 4 /\
  @Utf16LEByteLength RefSimdutf.simdutf (bs [0xF0; 0x9F; 0x98; 0x80])
    = zlen (@Utf16LEEncode RefSimdutf.simdutf (bs [0xF0; 0x9F; 0x98; 0x80])).
Proof.
  split; [vm_compute; reflexivity|].
  apply (Utf16LEByteLength_exact (S := RefSimdutf.simdutf) (Spec := ref_simdutf_spec)).
Defined.

Lemma Utf16LEDecode_replacing_witness :
  @Utf16LEDecode RefSimdutf.simdutf (bs [0x41; 0; 0; 0xD8; 0x42; 0; 7])
    = bs [0x41; 0xEF; 0xBF; 0xBD; 0x42] /\
  @Utf16LEDecode RefSimdutf.simdutf (@Utf16LEEncode RefSimdutf.simdutf (utf8_encode [0x1F600; 0x41]))
    = utf8_encode [0x1F600; 0x41].
Proof.
  split; [vm_compute; reflexivity|].
  apply (Utf16LEDecode_replacing (S := RefSimdutf.simdutf) (Spec := ref_simdutf_spec) []).
  repeat constructor; vm_compute; intuition discriminate.
Defined.
