(* ===== verification/Packet.v ===== *)
(** * TDS packets (src/src/tds/tds_packet.cpp, include/tds/tds_packet.hpp)

    [TdsPacket] is the class, one definition per member function; a member
    function that changes the object returns the new one. [Parse] returns the
    number of bytes consumed (0: more data needed) with the packet it filled,
    and throws on a length field outside [8, 32767]. Main results: [Parse] and
    [Serialize] are inverse to each other, [Parse] never reads past the bytes
    it was given, and an incomplete packet is left in the buffer. *)

From S2P Require Import Prelude TdsTypes Utf16.

Record TdsPacket : Type := mkTdsPacket {
  type_ : Z;
  status_ : Z;
  spid_ : Z;
  packet_id_ : Z;
  window_ : Z;
  payload_ : bytes
}.

#[export] Instance TdsPacket_eq_dec : EqDecision TdsPacket.
Proof. solve_decision. Defined.

Definition TdsPacket_default : TdsPacket :=
  mkTdsPacket PacketType.SQL_BATCH PacketStatus.END_OF_MESSAGE 0 1 0 [].

Definition TdsPacket_new (type status : Z) : TdsPacket := mkTdsPacket type status 0 1 0 [].

Definition SetType (type : Z) (p : TdsPacket) : TdsPacket :=
  mkTdsPacket type (status_ p) (spid_ p) (packet_id_ p) (window_ p) (payload_ p).
Definition SetStatus (status : Z) (p : TdsPacket) : TdsPacket :=
  mkTdsPacket (type_ p) status (spid_ p) (packet_id_ p) (window_ p) (payload_ p).
Definition SetSpid (spid : Z) (p : TdsPacket) : TdsPacket :=
  mkTdsPacket (type_ p) (status_ p) spid (packet_id_ p) (window_ p) (payload_ p).
Definition SetPacketId (id : Z) (p : TdsPacket) : TdsPacket :=
  mkTdsPacket (type_ p) (status_ p) (spid_ p) id (window_ p) (payload_ p).

(** [static_cast<uint16_t>(TDS_HEADER_SIZE + payload_.size())]. *)
Definition GetLength (p : TdsPacket) : Z := (TDS_HEADER_SIZE + zlen (payload_ p)) mod 65536.

Definition AppendPayload (data : bytes) (p : TdsPacket) : TdsPacket :=
  mkTdsPacket (type_ p) (status_ p) (spid_ p) (packet_id_ p) (window_ p) (payload_ p ++ data).

Definition AppendByte (byte : Z) (p : TdsPacket) : TdsPacket := AppendPayload [z2b byte] p.
Definition AppendUInt16BE (value : Z) (p : TdsPacket) : TdsPacket := AppendPayload (put16be value) p.
Definition AppendUInt32BE (value : Z) (p : TdsPacket) : TdsPacket := AppendPayload (put32be value) p.
Definition AppendUInt16LE (value : Z) (p : TdsPacket) : TdsPacket := AppendPayload (put16le value) p.
Definition AppendUInt32LE (value : Z) (p : TdsPacket) : TdsPacket := AppendPayload (put32le value) p.
Definition AppendString (str : bytes) (p : TdsPacket) : TdsPacket := AppendPayload str p.
Definition AppendUTF16LE `{Simdutf} (str : bytes) (p : TdsPacket) : TdsPacket :=
  AppendPayload (Utf16LEEncode str) p.

Definition ClearPayload (p : TdsPacket) : TdsPacket :=
  mkTdsPacket (type_ p) (status_ p) (spid_ p) (packet_id_ p) (window_ p) [].

Definition Serialize (p : TdsPacket) : bytes :=
  let length := GetLength p in
  [z2b (type_ p); z2b (status_ p)] ++ put16be length ++ put16be (spid_ p) ++
  [z2b (packet_id_ p); z2b (window_ p)] ++ payload_ p.

Definition HasCompleteHeader (data : bytes) : bool := TDS_HEADER_SIZE <=? zlen data.

Definition GetPacketLength (data : bytes) : res Z := get16be data 2.

Definition Parse (data : bytes) (packet : TdsPacket) : res (Z * TdsPacket) :=
  if negb (HasCompleteHeader data) then Ok (0, packet)
  else
    packet_length ← GetPacketLength data;
    if (packet_length <? TDS_HEADER_SIZE) || (TDS_MAX_PACKET_SIZE <? packet_length)
    then Exn InvalidPacketLength
    else if zlen data <? packet_length then Ok (0, packet)
    else
      type ← get8 data 0;
      status ← get8 data 1;
      spid ← get16be data 4;
      packet_id ← get8 data 6;
      window ← get8 data 7;
      payload ← (if TDS_HEADER_SIZE <? packet_length
                 then slice data TDS_HEADER_SIZE (packet_length - TDS_HEADER_SIZE) else Ok []);
      Ok (packet_length, mkTdsPacket type status spid packet_id window payload).

Definition IsEndOfMessage (p : TdsPacket) : bool :=
  negb (Z.land (status_ p) PacketStatus.END_OF_MESSAGE =? 0).

(** [~static_cast<uint8_t>(...)] is computed in [int] and cut to eight bits. *)
Definition SetEndOfMessage (eom : bool) (p : TdsPacket) : TdsPacket :=
  if eom then SetStatus (Z.lor (status_ p) PacketStatus.END_OF_MESSAGE) p
  else SetStatus ((Z.land (status_ p) (Z.lnot PacketStatus.END_OF_MESSAGE)) mod 256) p.

(** The values the fields' C++ types can hold. *)
Definition packet_ok (p : TdsPacket) : Prop :=
  0 <= type_ p < 256 /\ 0 <= status_ p < 256 /\ 0 <= spid_ p < 65536 /\
  0 <= packet_id_ p < 256 /\ 0 <= window_ p < 256.

#[export] Instance packet_ok_dec p : Decision (packet_ok p).
Proof. unfold packet_ok. apply _. Defined.

(** A packet the 16-bit length field and [Parse] admit. *)
Definition fits (p : TdsPacket) : Prop := TDS_HEADER_SIZE + zlen (payload_ p) <= TDS_MAX_PACKET_SIZE.

#[export] Instance fits_dec p : Decision (fits p).
Proof. unfold fits. apply _. Defined.

(** ** Lemmas *)

Lemma zlen_Serialize p : zlen (Serialize p) = TDS_HEADER_SIZE + zlen (payload_ p).
Proof.
  unfold Serialize. autorewrite with zlen.
  change (zlen (put16be _)) with 2. unfold TDS_HEADER_SIZE. lia.
Qed.

(** The fields [Parse] reads, on eight given header bytes. *)
Lemma Parse_cons b0 b1 b2 b3 b4 b5 b6 b7 r packet :
  Parse (b0 :: b1 :: b2 :: b3 :: b4 :: b5 :: b6 :: b7 :: r) packet =
  let n := 256 * b2z b2 + b2z b3 in
  if (n <? 8) || (32767 <? n) then Exn InvalidPacketLength
  else if 8 + zlen r <? n then Ok (0, packet)
  else Ok (n, mkTdsPacket (b2z b0) (b2z b1) (256 * b2z b4 + b2z b5) (b2z b6) (b2z b7)
                          (ztake (n - 8) r)).
Proof.
  unfold Parse, HasCompleteHeader, GetPacketLength, TDS_HEADER_SIZE, TDS_MAX_PACKET_SIZE.
  autorewrite with zlen. pose proof (zlen_nonneg r).
  match goal with |- context [8 <=? ?x] => replace (8 <=? x) with true by lia end.
  cbn [negb]. rewrite !get16be_eq. read_bytes. simpl.
  destruct (_ || _) eqn:Eg; [done|].
  match goal with |- (if ?x <? ?n then _ else _) = _ => replace x with (8 + zlen r) by lia end.
  destruct (Z.ltb_spec (8 + zlen r) (256 * b2z b2 + b2z b3)) as [|Hl]; [done|].
  destruct (Z.ltb_spec 8 (256 * b2z b2 + b2z b3)).
  - rewrite slice_inside by (autorewrite with zlen; lia). done.
  - simpl. unfold ztake. by replace (Z.to_nat _) with O by lia.
Qed.

Lemma put16be_b2z a b : put16be (256 * b2z a + b2z b) = [a; b].
Proof.
  pose proof (b2z_range a). pose proof (b2z_range b). unfold put16be.
  f_equal; [|f_equal]; apply b2z_inj.
  - rewrite b2z_byte_at by lia. change (2 ^ 8) with 256. zlia.
  - rewrite b2z_byte_0. zlia.
Qed.

Lemma put16be_digits v : 0 <= v < 65536 -> exists a b, put16be v = [a; b] /\ 256 * b2z a + b2z b = v.
Proof.
  intros Hv. unfold put16be. eexists _, _. split; [done|].
  rewrite b2z_byte_at, b2z_byte_0 by lia. change (2 ^ 8) with 256. zlia.
Qed.

Lemma Parse_Serialize_app p rest packet :
  packet_ok p -> fits p ->
  Parse (Serialize p ++ rest) packet = Ok (TDS_HEADER_SIZE + zlen (payload_ p), p).
Proof.
  intros (Ht & Hs & Hsp & Hi & Hw) Hf. unfold fits in Hf. unfold Serialize, GetLength.
  pose proof (zlen_nonneg (payload_ p)). unfold TDS_HEADER_SIZE, TDS_MAX_PACKET_SIZE in *.
  rewrite Z.mod_small by lia.
  destruct (put16be_digits (8 + zlen (payload_ p))) as (l0 & l1 & -> & El); [lia|].
  destruct (put16be_digits (spid_ p)) as (s0 & s1 & -> & Es); [lia|].
  simpl app. rewrite Parse_cons, El, Es. cbv zeta.
  pose proof (zlen_nonneg rest). rewrite zlen_app.
  destruct (_ || _) eqn:Eg; [lia|]. destruct (Z.ltb_spec (8 + (zlen (payload_ p) + zlen rest)) (8 + zlen (payload_ p))); [lia|].
  rewrite ztake_app_length by lia. rewrite !b2z_z2b_small by lia. by destruct p.
Qed.

Lemma Parse_short p n packet :
  packet_ok p -> fits p -> 0 <= n < zlen (Serialize p) ->
  Parse (ztake n (Serialize p)) packet = Ok (0, packet).
Proof.
  intros (Ht & Hs & Hsp & Hi & Hw) Hf Hn. rewrite zlen_Serialize in Hn.
  destruct (decide (n < 8)) as [Hs8|Hs8].
  - unfold Parse, HasCompleteHeader. rewrite zlen_ztake by (rewrite zlen_Serialize; lia).
    unfold TDS_HEADER_SIZE. by replace (8 <=? n) with false by lia.
  - unfold fits, TDS_HEADER_SIZE, TDS_MAX_PACKET_SIZE in *. unfold Serialize, GetLength, TDS_HEADER_SIZE.
    pose proof (zlen_nonneg (payload_ p)). rewrite Z.mod_small by lia.
    destruct (put16be_digits (8 + zlen (payload_ p))) as (l0 & l1 & -> & El); [lia|].
    destruct (put16be_digits (spid_ p)) as (s0 & s1 & -> & Es); [lia|].
    simpl app. unfold ztake. replace (Z.to_nat n) with (8 + Z.to_nat (n - 8))%nat by lia.
    simpl. rewrite Parse_cons, El. cbv zeta.
    destruct (_ || _) eqn:Eg; [lia|]. fold (ztake (n - 8) (payload_ p)).
    rewrite zlen_ztake by lia.
    by destruct (Z.ltb_spec (8 + (n - 8)) (8 + zlen (payload_ p))); [|lia].
Qed.

Lemma split8 (data : bytes) : 8 <= zlen data ->
  exists b0 b1 b2 b3 b4 b5 b6 b7 r, data = b0 :: b1 :: b2 :: b3 :: b4 :: b5 :: b6 :: b7 :: r.
Proof.
  unfold zlen. intros H.
  do 8 (destruct data as [|? data]; [simpl in H; lia|]). by repeat eexists.
Qed.

(** What a successful call consumed is the serialization of what it returned. *)
Lemma Parse_spec data packet :
  holds (Parse data packet) (fun '(n, q) =>
    0 <= n <= zlen data /\
    (n = 0 -> q = packet) /\
    (n <> 0 -> packet_ok q /\ fits q /\ n = TDS_HEADER_SIZE + zlen (payload_ q) /\
               Serialize q = ztake n data)).
Proof.
  pose proof (zlen_nonneg data).
  destruct (decide (8 <= zlen data)) as [Hl|Hl].
  - destruct (split8 data Hl) as (b0 & b1 & b2 & b3 & b4 & b5 & b6 & b7 & r & ->).
    rewrite Parse_cons. cbv zeta. autorewrite with zlen in *.
    pose proof (b2z_range b2). pose proof (b2z_range b3).
    destruct (_ || _) eqn:Eg; [done|]. destruct (Z.ltb_spec (8 + zlen r) (256 * b2z b2 + b2z b3)).
    + apply holds_ret. split; [lia|done].
    + apply holds_ret. split; [lia|]. split; [lia|]. intros _.
      assert (Hn : zlen (ztake (256 * b2z b2 + b2z b3 - 8) r) = 256 * b2z b2 + b2z b3 - 8)
        by (apply zlen_ztake; lia).
      split; [|split; [|split]]; simpl.
      * unfold packet_ok; simpl. pose proof (b2z_range b0). pose proof (b2z_range b1).
        pose proof (b2z_range b4). pose proof (b2z_range b5). pose proof (b2z_range b6).
        pose proof (b2z_range b7). lia.
      * unfold fits, TDS_HEADER_SIZE, TDS_MAX_PACKET_SIZE. simpl. rewrite Hn. lia.
      * unfold TDS_HEADER_SIZE. simpl. rewrite Hn. lia.
      * unfold Serialize, GetLength, TDS_HEADER_SIZE. cbn [payload_ type_ status_ spid_ packet_id_ window_].
        rewrite Hn, Z.mod_small by lia.
        replace (8 + (256 * b2z b2 + b2z b3 - 8)) with (256 * b2z b2 + b2z b3) by lia.
        rewrite !put16be_b2z, !z2b_b2z. unfold ztake.
        replace (Z.to_nat (256 * b2z b2 + b2z b3)) with (8 + Z.to_nat (256 * b2z b2 + b2z b3 - 8))%nat by lia.
        done.
  - unfold Parse, HasCompleteHeader, TDS_HEADER_SIZE. replace (8 <=? zlen data) with false by lia.
    simpl. split; [lia|done].
Qed.

Lemma land_1_eq0 s : (Z.land s 1 =? 0) = Z.even s.
Proof.
  change 1 with (Z.ones 1). rewrite Z.land_ones by lia. change (2 ^ 1) with 2.
  rewrite Zmod_even. by destruct (Z.even s).
Qed.

Lemma IsEndOfMessage_odd p : IsEndOfMessage p = Z.odd (status_ p).
Proof.
  unfold IsEndOfMessage, PacketStatus.END_OF_MESSAGE.
  by rewrite land_1_eq0, Z.negb_even.
Qed.

Lemma IsEndOfMessage_Set eom p : IsEndOfMessage (SetEndOfMessage eom p) = eom.
Proof.
  rewrite IsEndOfMessage_odd, <- Z.bit0_odd. unfold SetEndOfMessage, PacketStatus.END_OF_MESSAGE.
  destruct eom; simpl status_.
  - rewrite Z.lor_spec. apply orb_true_r.
  - change 256 with (2 ^ 8). rewrite Z.mod_pow2_bits_low, Z.land_spec by lia. apply andb_false_r.
Qed.

(** ** Properties *)

(** Reading a packet back: the serialization of any packet that fits the
    16-bit length and the protocol's maximum, followed by whatever comes next
    in the receive buffer, parses to exactly that packet, consuming exactly its
    bytes; any strict prefix of it (a partial [recv]) asks for more data and
    leaves the packet alone. *)
Theorem Parse_roundtrip (p : TdsPacket) (rest : bytes) (packet : TdsPacket)
    (Hok : packet_ok p) (Hfits : fits p) :
  Parse (Serialize p ++ rest) packet = Ok (zlen (Serialize p), p) /\
  (forall n, 0 <= n < zlen (Serialize p) -> Parse (ztake n (Serialize p)) packet = Ok (0, packet)).
Proof.
  split; [|intros; by apply Parse_short]. rewrite zlen_Serialize. by apply Parse_Serialize_app.
Qed.

(** On any bytes at all [Parse] reads inside the buffer, consumes no more
    than it was given, and either leaves the packet alone (0) or returns a
    well-formed packet that fits and serializes to exactly the bytes consumed. *)
Theorem Parse_sound (data : bytes) (packet : TdsPacket) :
  Parse data packet <> Oob /\
  (forall n q, Parse data packet = Ok (n, q) ->
     0 <= n <= zlen data /\
     (n = 0 -> q = packet) /\
     (n <> 0 -> packet_ok q /\ fits q /\ Serialize q = ztake n data)).
Proof.
  pose proof (Parse_spec data packet) as H. split; [by eapply holds_safe|].
  intros n q E. rewrite E in H. destruct H as (Hn & H0 & H1).
  split; [done|]. split; [done|]. intros Hn0. destruct (H1 Hn0) as (? & ? & _ & ?). done.
Qed.

Definition sample_packet : TdsPacket :=
  SetEndOfMessage true (AppendUInt16LE 0x1234 (TdsPacket_new PacketType.LOGIN7 PacketStatus.NORMAL)).

Lemma Parse_roundtrip_witness :
  Parse (Serialize sample_packet ++ bs [9; 9]) TdsPacket_default = Ok (10, sample_packet) /\
  Serialize sample_packet = bs [16; 1; 0; 10; 0; 0; 1; 0; 0x34; 0x12].
Proof.
  split; [|reflexivity].
  apply (Parse_roundtrip sample_packet (bs [9; 9]) TdsPacket_default).
  - apply (bool_decide_unpack _); vm_compute; exact I.
  - apply (bool_decide_unpack _); vm_compute; exact I.
Defined.

Lemma Parse_sound_witness :
  0 <= 10 <= 12 /\ packet_ok sample_packet.
Proof.
  split; [lia|].
  apply (Parse_sound (Serialize sample_packet ++ bs [9; 9]) TdsPacket_default) with (n := 10);
    [vm_compute; reflexivity|lia].
Defined.
