(* ===== verification/Socket.v ===== *)
(** * The socket's framing (src/src/tds/tds_socket.cpp)

    [TdsSocket] sends bytes and assembles TDS frames out of what [recv] hands
    over. The operating system and the TLS library are the parameter
    [Transport]: one operation per system call (or per call of the TLS context),
    on an abstract state [net]. [Connect] and [EnableTls] are modelled up to
    the calls that do the work: name resolution and the connection itself are
    [sys_connect], the handshake is [tls_handshake].

    [receive_buffer_] is a vector used as a buffer of fixed size:
    [staged_] is its valid part, so [receive_len_] is [zlen staged_], and
    [capacity_] is its size. Writing past the capacity is [Oob]. *)

From S2P Require Import Prelude TdsTypes Utf16 Packet.

(** ** The system calls *)

Inductive poll_result : Type := PollReady | PollTimeout | PollFailed | PollHardError | PollHup.
Inductive send_result : Type := SentBytes (n : Z) | SendAgain | SendFailed.
(** [ReceivedBytes []]: the peer closed. *)
Inductive recv_result : Type := ReceivedBytes (b : bytes) | RecvAgain | RecvFailed.
(** [TlsBytes []]: a timeout or a close; [TlsFailed]: with its PEER_CLOSED flag. *)
Inductive tls_result : Type := TlsBytes (b : bytes) | TlsFailed (peer_closed : bool).

Class Transport : Type := {
  net : Type;
  sys_connect : bytes -> Z -> Z -> net -> bool * net;
  sys_close : net -> net;
  sys_poll : bool -> Z -> net -> poll_result * net;
  sys_send : bytes -> net -> send_result * net;
  sys_recv : Z -> net -> recv_result * net;
  tls_handshake : bytes -> Z -> Z -> net -> bool * Z * net;
  tls_send : bytes -> net -> option Z * net;
  tls_recv : Z -> Z -> net -> tls_result * net;
  (** The bytes the calls have handed over and taken so far, and what POSIX
      and OpenSSL document of them. *)
  delivered : net -> bytes;
  accepted : net -> bytes;
  sys_poll_quiet w t n :
    delivered (sys_poll w t n).2 = delivered n /\ accepted (sys_poll w t n).2 = accepted n;
  sys_recv_spec max n :
    match sys_recv max n with
    | (ReceivedBytes b, n') => zlen b <= Z.max 0 max /\ delivered n' = delivered n ++ b
    | (_, n') => delivered n' = delivered n
    end;
  tls_recv_spec max t n :
    match tls_recv max t n with
    | (TlsBytes b, n') => zlen b <= Z.max 0 max /\ delivered n' = delivered n ++ b
    | (TlsFailed _, n') => delivered n' = delivered n
    end;
  sys_send_spec data n :
    match sys_send data n with
    | (SentBytes k, n') => k <= zlen data /\ accepted n' = accepted n ++ ztake k data
    | (_, n') => accepted n' = accepted n
    end;
  tls_handshake_id h t id n : 0 <= id < 256 -> 0 <= (tls_handshake h t id n).1.2 < 256;
  tls_send_spec data n :
    match tls_send data n with
    | (Some k, n') => 0 <= k <= zlen data /\ accepted n' = accepted n ++ ztake k data
    | (None, n') => exists k, accepted n' = accepted n ++ ztake k data
    end
}.

(** ** The socket object *)

(** One constructor per text the code puts into [last_error_]. *)
Inductive sock_error : Type :=
  | NoSockError
  | ConnectFailed
  | NotConnected
  | TlsNotConnected
  | TlsAlreadyEnabled
  | TlsHandshakeFailed
  | TlsSendFailed
  | TlsSendIncomplete
  | SendTimeout
  | SendFailedErr
  | PollFailedErr
  | PollTimeoutErr
  | PollHardErr
  | PollHupErr
  | TlsReceiveFailed
  | ReceiveFailedErr
  | ClosedByServer
  | FrameTooShort (expected_length : Z)
  | BadFrameLength.

Section Socket.
Context `{Transport}.

Record TdsSocket : Type := mkTdsSocket {
  fd_open : bool;
  connected_ : bool;
  host_ : bytes;
  port_ : Z;
  last_error_ : sock_error;
  tls_context_ : bool;
  staged_ : bytes;
  capacity_ : Z;
  receive_pos_ : Z;
  recv_read_size_ : Z;
  net_ : net
}.

Definition TdsSocket_new (n : net) : TdsSocket :=
  mkTdsSocket false false [] 0 NoSockError false [] 0 0 TDS_DEFAULT_PACKET_SIZE n.

Definition set_conn fd c (s : TdsSocket) : TdsSocket :=
  mkTdsSocket fd c (host_ s) (port_ s) (last_error_ s) (tls_context_ s) (staged_ s) (capacity_ s)
    (receive_pos_ s) (recv_read_size_ s) (net_ s).
Definition set_target h p (s : TdsSocket) : TdsSocket :=
  mkTdsSocket (fd_open s) (connected_ s) h p (last_error_ s) (tls_context_ s) (staged_ s) (capacity_ s)
    (receive_pos_ s) (recv_read_size_ s) (net_ s).
Definition set_error e (s : TdsSocket) : TdsSocket :=
  mkTdsSocket (fd_open s) (connected_ s) (host_ s) (port_ s) e (tls_context_ s) (staged_ s) (capacity_ s)
    (receive_pos_ s) (recv_read_size_ s) (net_ s).
Definition set_tls t (s : TdsSocket) : TdsSocket :=
  mkTdsSocket (fd_open s) (connected_ s) (host_ s) (port_ s) (last_error_ s) t (staged_ s) (capacity_ s)
    (receive_pos_ s) (recv_read_size_ s) (net_ s).
Definition set_staged b cap pos (s : TdsSocket) : TdsSocket :=
  mkTdsSocket (fd_open s) (connected_ s) (host_ s) (port_ s) (last_error_ s) (tls_context_ s) b cap
    pos (recv_read_size_ s) (net_ s).
Definition set_read_size r (s : TdsSocket) : TdsSocket :=
  mkTdsSocket (fd_open s) (connected_ s) (host_ s) (port_ s) (last_error_ s) (tls_context_ s) (staged_ s)
    (capacity_ s) (receive_pos_ s) r (net_ s).
Definition set_net n (s : TdsSocket) : TdsSocket :=
  mkTdsSocket (fd_open s) (connected_ s) (host_ s) (port_ s) (last_error_ s) (tls_context_ s) (staged_ s)
    (capacity_ s) (receive_pos_ s) (recv_read_size_ s) n.

Definition IsConnected (s : TdsSocket) : bool := connected_ s && fd_open s.
Definition IsTlsEnabled (s : TdsSocket) : bool := tls_context_ s.

(** [receive_len_ = 0; receive_pos_ = 0]. *)
Definition ClearReceiveBuffer (s : TdsSocket) : TdsSocket := set_staged [] (capacity_ s) 0 s.

Definition Close (s : TdsSocket) : TdsSocket :=
  let s := set_tls false s in
  let s := if fd_open s then set_conn false (connected_ s) (set_net (sys_close (net_ s)) s) else s in
  ClearReceiveBuffer (set_conn (fd_open s) false s).

Definition Connect (host : bytes) (port timeout_seconds : Z) (s : TdsSocket) : bool * TdsSocket :=
  let s := if connected_ s then Close s else s in
  let s := set_error NoSockError (set_target host port s) in
  let '(ok, n) := sys_connect host port timeout_seconds (net_ s) in
  let s := set_net n s in
  if ok then (true, set_conn true true s) else (false, set_error ConnectFailed (set_conn false (connected_ s) s)).

(** The handshake sends packets and so counts [packet_id] up. *)
Definition EnableTls (packet_id timeout_ms : Z) (sni_hostname : bytes) (s : TdsSocket) : bool * Z * TdsSocket :=
  let s := ClearReceiveBuffer s in
  if negb (IsConnected s) then (false, packet_id, set_error TlsNotConnected s) else
  if tls_context_ s then (false, packet_id, set_error TlsAlreadyEnabled s) else
  let effective_hostname := match sni_hostname with [] => host_ s | _ => sni_hostname end in
  let '(ok, packet_id, n) := tls_handshake effective_hostname timeout_ms packet_id (net_ s) in
  let s := set_net n s in
  if ok then (true, packet_id, set_tls true s) else (false, packet_id, set_error TlsHandshakeFailed s).

Definition WaitForReady (for_write : bool) (timeout_ms : Z) (s : TdsSocket) : bool * TdsSocket :=
  let '(r, n) := sys_poll for_write timeout_ms (net_ s) in
  let s := set_net n s in
  match r with
  | PollReady => (true, s)
  | PollTimeout => (false, set_error PollTimeoutErr s)
  | PollFailed => (false, set_error PollFailedErr s)
  | PollHardError => (false, set_error PollHardErr (set_conn (fd_open s) false s))
  | PollHup => (false, set_error PollHupErr (set_conn (fd_open s) false s))
  end.

(** ** Sending *)

(** The loop of the plain path. [None]: still running when the fuel is used
    up, since a send that would block is tried again. *)
Fixpoint send_loop (fuel : nat) (data : bytes) (total_sent : Z) (s : TdsSocket) : option (bool * TdsSocket) :=
  match fuel with
  | O => None
  | S fuel =>
      if negb (total_sent <? zlen data) then Some (true, s) else
      let '(r, n) := sys_send (zdrop total_sent data) (net_ s) in
      let s := set_net n s in
      match r with
      | SentBytes sent =>
          if sent <=? 0 then Some (false, set_error SendFailedErr (set_conn (fd_open s) false s))
          else send_loop fuel data (total_sent + sent) s
      | SendAgain =>
          let '(ready, s) := WaitForReady true 30000 s in
          if ready then send_loop fuel data total_sent s else Some (false, set_error SendTimeout s)
      | SendFailed => Some (false, set_error SendFailedErr (set_conn (fd_open s) false s))
      end
  end.

Definition Send (fuel : nat) (data : bytes) (s : TdsSocket) : option (bool * TdsSocket) :=
  if negb (IsConnected s) then Some (false, set_error NotConnected s) else
  if tls_context_ s then
    let '(r, n) := tls_send data (net_ s) in
    let s := set_net n s in
    match r with
    | None => Some (false, set_error TlsSendFailed s)
    | Some sent => if negb (sent =? zlen data) then Some (false, set_error TlsSendIncomplete s) else Some (true, s)
    end
  else send_loop fuel data 0 s.

Definition SendPacket (fuel : nat) (packet : TdsPacket) (s : TdsSocket) : option (bool * TdsSocket) :=
  Send fuel (Serialize packet) s.

(** ** Receiving *)

(** [None] is -1, [Some []] is 0. *)
Definition Receive (max_length timeout_ms : Z) (s : TdsSocket) : option bytes * TdsSocket :=
  if negb (IsConnected s) then (None, set_error NotConnected s) else
  if tls_context_ s then
    let '(r, n) := tls_recv max_length timeout_ms (net_ s) in
    let s := set_net n s in
    match r with
    | TlsFailed peer_closed =>
        (None, set_error TlsReceiveFailed (if peer_closed then set_conn (fd_open s) false s else s))
    | TlsBytes b => (Some b, s)
    end
  else
    let '(ready, s) := WaitForReady false timeout_ms s in
    if negb ready then ((if negb (connected_ s) then None else Some []), s) else
    let '(r, n) := sys_recv max_length (net_ s) in
    let s := set_net n s in
    match r with
    | RecvAgain => (Some [], s)
    | RecvFailed => (None, set_error ReceiveFailedErr (set_conn (fd_open s) false s))
    | ReceivedBytes [] => (None, set_error ClosedByServer (set_conn (fd_open s) false s))
    | ReceivedBytes b => (Some b, s)
    end.

Definition SetReceiveFraming (packet_size frames : Z) (s : TdsSocket) : TdsSocket :=
  let packet_size := if packet_size <? TDS_MIN_PACKET_SIZE then TDS_DEFAULT_PACKET_SIZE else packet_size in
  let frames := if frames =? 0 then 1 else frames in
  let scratch := packet_size * frames in
  set_staged [] (scratch + packet_size) 0 (set_read_size scratch s).

(** [recv] writes behind the valid bytes, up to the vector's size. *)
Definition FillReceiveBuffer (timeout_ms : Z) (s : TdsSocket) : res (bool * TdsSocket) :=
  let room := capacity_ s - zlen (staged_ s) in
  let s := if room <? recv_read_size_ s
           then set_staged (staged_ s) (zlen (staged_ s) + recv_read_size_ s) (receive_pos_ s) s else s in
  if capacity_ s <? zlen (staged_ s) + recv_read_size_ s then Oob else
  let '(received, s) := Receive (recv_read_size_ s) timeout_ms s in
  match received with
  | None | Some [] => Ok (false, s)
  | Some b => Ok (true, set_staged (staged_ s ++ b) (capacity_ s) (receive_pos_ s) s)
  end.

(** One turn of [NextPacket]'s loop: return, or go on reading. *)
Inductive next_turn : Type :=
  | NextReturn (frame : option bytes) (s : TdsSocket)
  | NextRead (s : TdsSocket).

Definition rewind (s : TdsSocket) : TdsSocket :=
  if (0 <? receive_pos_ s) && (receive_pos_ s =? zlen (staged_ s)) then ClearReceiveBuffer s else s.

Definition compact (s : TdsSocket) : TdsSocket :=
  if 0 <? receive_pos_ s then set_staged (zdrop (receive_pos_ s) (staged_ s)) (capacity_ s) 0 s else s.

Definition next_head (s : TdsSocket) : res next_turn :=
  let buffered := zlen (staged_ s) - receive_pos_ s in
  if TDS_HEADER_SIZE <=? buffered then
    expected_length ← get16be (staged_ s) (receive_pos_ s + 2);
    if expected_length <? TDS_HEADER_SIZE then Ok (NextReturn None (set_error (FrameTooShort expected_length) s))
    else if expected_length <=? buffered then
      frame ← slice (staged_ s) (receive_pos_ s) expected_length;
      Ok (NextReturn (Some frame) (set_staged (staged_ s) (capacity_ s) (receive_pos_ s + expected_length) s))
    else Ok (NextRead s)
  else Ok (NextRead s).

(** The frame is the view the code returns a pointer to. A turn that reads on
    has received a byte, and a frame has 65535 bytes at most: the fuel of
    [NextPacket] cannot be used up. *)
Fixpoint next_loop (fuel : nat) (timeout_ms : Z) (s : TdsSocket) : res (option bytes * TdsSocket) :=
  match fuel with
  | O => Oob
  | S fuel =>
      turn ← next_head (rewind s);
      match turn with
      | NextReturn frame s => Ok (frame, s)
      | NextRead s =>
          '(filled, s) ← FillReceiveBuffer timeout_ms (compact s);
          if filled : bool then next_loop fuel timeout_ms s else Ok (None, s)
      end
  end.

Definition next_fuel : nat := Z.to_nat 65537.

Definition NextPacket (timeout_ms : Z) (s : TdsSocket) : res (option bytes * TdsSocket) :=
  next_loop next_fuel timeout_ms s.

(** What [ReceivePacket] does: return false, fill the packet, or let the
    exception of [Parse] escape (the cursor is past the frame by then). *)
Inductive packet_read : Type :=
  | NoPacket
  | APacket (packet : TdsPacket)
  | PacketThrows (e : exn).

Definition ReceivePacket (packet : TdsPacket) (timeout_ms : Z) (s : TdsSocket) : res (packet_read * TdsSocket) :=
  '(head, s) ← NextPacket timeout_ms s;
  match head with
  | None => Ok (NoPacket, s)
  | Some frame =>
      match Parse frame packet with
      | Ok (n, packet) => Ok (if 0 <? n then APacket packet else NoPacket, s)
      | Exn e => Ok (PacketThrows e, s)
      | Oob => Oob
      end
  end.

Definition ReceivePayloadView (timeout_ms : Z) (s : TdsSocket) : res (option bytes * TdsSocket) :=
  '(head, s) ← NextPacket timeout_ms s;
  match head with
  | None => Ok (None, s)
  | Some frame =>
      if (zlen frame <? TDS_HEADER_SIZE) || (TDS_MAX_PACKET_SIZE <? zlen frame)
      then Ok (None, set_error BadFrameLength s)
      else Ok (Some (zdrop TDS_HEADER_SIZE frame), s)
  end.

Inductive message_read : Type :=
  | NoMessage
  | AMessage (message : bytes)
  | MessageThrows (e : exn).

(** [None]: the peer has sent more packets without an end of message than there
    is fuel. *)
Fixpoint message_loop (fuel : nat) (message : bytes) (timeout_ms : Z) (s : TdsSocket)
    : option (res (message_read * TdsSocket)) :=
  match fuel with
  | O => None
  | S fuel =>
      match ReceivePacket TdsPacket_default timeout_ms s with
      | Ok (NoPacket, s) => Some (Ok (NoMessage, s))
      | Ok (PacketThrows e, s) => Some (Ok (MessageThrows e, s))
      | Ok (APacket packet, s) =>
          let message := message ++ payload_ packet in
          if IsEndOfMessage packet then Some (Ok (AMessage message, s)) else message_loop fuel message timeout_ms s
      | Exn e => Some (Exn e)
      | Oob => Some Oob
      end
  end.

Definition ReceiveMessage (fuel : nat) (timeout_ms : Z) (s : TdsSocket) : option (res (message_read * TdsSocket)) :=
  message_loop fuel [] timeout_ms s.
End Socket.

(** ** The stream of frames *)

(** What a byte stream starts with. *)
Inductive scan : Type :=
  | Short
  | Bad (expected_length : Z)
  | Frame (w rest : bytes).

Definition scan_frame (b : bytes) : scan :=
  match b with
  | _ :: _ :: l0 :: l1 :: _ =>
      let n := b2z l0 * 256 + b2z l1 in
      if zlen b <? TDS_HEADER_SIZE then Short
      else if n <? TDS_HEADER_SIZE then Bad n
      else if zlen b <? n then Short else Frame (ztake n b) (zdrop n b)
  | _ => Short
  end.

Section Framing.
Context {T : Transport}.

Definition unread (s : TdsSocket) : bytes := zdrop (receive_pos_ s) (staged_ s).

Record socket_ok (s : TdsSocket) : Prop := {
  ok_pos : 0 <= receive_pos_ s <= zlen (staged_ s);
  ok_capacity : zlen (staged_ s) <= capacity_ s;
  ok_read : 0 < recv_read_size_ s
}.

(** The parts of the object that receiving leaves alone. *)
Definition same_but_net (s s' : TdsSocket) : Prop :=
  staged_ s' = staged_ s /\ capacity_ s' = capacity_ s /\ receive_pos_ s' = receive_pos_ s /\
  recv_read_size_ s' = recv_read_size_ s /\ tls_context_ s' = tls_context_ s.

Lemma TdsSocket_new_ok n : socket_ok (TdsSocket_new n).
Proof. repeat split; done. Qed.

Lemma SetReceiveFraming_ok ps frames s :
  socket_ok s -> 0 <= frames -> socket_ok (SetReceiveFraming ps frames s) /\ unread (SetReceiveFraming ps frames s) = [].
Proof.
  intros Hs Hf. unfold SetReceiveFraming. cbv zeta.
  set (size := if ps <? TDS_MIN_PACKET_SIZE then _ else ps). set (n := if frames =? 0 then 1 else frames).
  assert (0 < size) by (unfold size, TDS_MIN_PACKET_SIZE; destruct (Z.ltb_spec ps 512); [done|lia]).
  assert (0 < n) by (unfold n; destruct (Z.eqb_spec frames 0); lia).
  assert (0 < size * n) by nia. split; [|done]. constructor; cbn [receive_pos_ staged_ capacity_ recv_read_size_ set_staged set_read_size]; rewrite ?zlen_nil; first [lia|split; [lia|apply zlen_nonneg]].
Qed.

Lemma WaitForReady_spec w t s ready s' :
  WaitForReady w t s = (ready, s') -> same_but_net s s' /\ delivered (net_ s') = delivered (net_ s) /\
  (ready = true -> connected_ s' = connected_ s /\ fd_open s' = fd_open s).
Proof.
  unfold WaitForReady. pose proof (sys_poll_quiet w t (net_ s)) as Hq. destruct (sys_poll w t (net_ s)) as [r n].
  destruct Hq as [Hq _]. simpl in Hq.
  destruct r; intros [= <- <-]; repeat split; done.
Qed.

Lemma Receive_spec max t s r s' :
  0 < max -> Receive max t s = (r, s') -> same_but_net s s' /\
  match r with
  | Some b => zlen b <= max /\ delivered (net_ s') = delivered (net_ s) ++ b
  | None => delivered (net_ s') = delivered (net_ s)
  end.
Proof.
  intros Hm. unfold Receive. destruct (IsConnected s); simpl; [|intros [= <- <-]; repeat split; done].
  destruct (tls_context_ s) eqn:Et.
  - pose proof (tls_recv_spec max t (net_ s)) as Hr. destruct (tls_recv max t (net_ s)) as [[b|closed] n].
    + destruct Hr as [Hl Hd]. intros [= <- <-]. repeat split; try done. lia.
    + destruct closed; intros [= <- <-]; repeat split; done.
  - destruct (WaitForReady false t s) as [ready s1] eqn:Ew. apply WaitForReady_spec in Ew as (Hsame & Hd1 & Hready).
    destruct ready; simpl.
    + pose proof (sys_recv_spec max (net_ s1)) as Hr. destruct (sys_recv max (net_ s1)) as [[b| |] n].
      * destruct Hr as [Hl Hd]. rewrite Z.max_r in Hl by lia. destruct Hsame as (? & ? & ? & ? & ?).
        destruct b as [|b0 b]; intros [= <- <-]; (split; [repeat split; simpl; assumption|]); cbn [net_ set_net set_error set_conn].
        -- by rewrite Hd, Hd1, app_nil_r.
        -- split; [done|]. by rewrite Hd, Hd1.
      * intros [= <- <-]. destruct Hsame as (? & ? & ? & ? & ?). 
        split; [repeat split; simpl; assumption|]. cbn [net_ set_net]. split; [change (0 <= max); lia|].
        by rewrite app_nil_r, Hr.
      * intros [= <- <-]. destruct Hsame as (? & ? & ? & ? & ?). repeat split; try done; simpl. by rewrite Hr.
    + destruct (negb (connected_ s1)); intros [= <- <-]; (split; [done|]); [done|]. split; [change (0 <= max); lia|by rewrite app_nil_r].
Qed.

(** What one turn of reading adds. *)
Definition grows (s s' : TdsSocket) (c : bytes) : Prop :=
  unread s' = unread s ++ c /\ delivered (net_ s') = delivered (net_ s) ++ c /\
  recv_read_size_ s' = recv_read_size_ s /\ tls_context_ s' = tls_context_ s.

Lemma grows_trans s1 s2 s3 c d : grows s1 s2 c -> grows s2 s3 d -> grows s1 s3 (c ++ d).
Proof.
  intros (U1 & D1 & R1 & T1) (U2 & D2 & R2 & T2). unfold grows.
  rewrite U2, U1, D2, D1, R2, R1, T2, T1, !app_assoc. done.
Qed.

Lemma FillReceiveBuffer_spec t s :
  socket_ok s -> exists b s' c, FillReceiveBuffer t s = Ok (b, s') /\ socket_ok s' /\ grows s s' c /\
    (if b : bool then c <> [] else c = []).
Proof.
  intros [Hp Hc Hr]. unfold FillReceiveBuffer. cbv zeta.
  set (s1 := if capacity_ s - zlen (staged_ s) <? recv_read_size_ s then _ else s).
  assert (Hs1 : staged_ s1 = staged_ s /\ receive_pos_ s1 = receive_pos_ s /\ recv_read_size_ s1 = recv_read_size_ s /\
                net_ s1 = net_ s /\ tls_context_ s1 = tls_context_ s /\
                zlen (staged_ s) + recv_read_size_ s <= capacity_ s1).
  { unfold s1. destruct (Z.ltb_spec (capacity_ s - zlen (staged_ s)) (recv_read_size_ s)); repeat split; simpl; lia. }
  destruct Hs1 as (E1 & E2 & E3 & E4 & E5 & E6). clearbody s1. rewrite E1, E3.
  replace (capacity_ s1 <? _) with false by lia.
  destruct (Receive (recv_read_size_ s) t s1) as [r s2] eqn:Er.
  apply Receive_spec in Er as [(F1 & F2 & F3 & F4 & F5) Hd]; [|done].
  assert (Hq : forall b, zlen b <= recv_read_size_ s -> zdrop (receive_pos_ s) (staged_ s ++ b) = unread s ++ b).
  { intros b _. unfold unread. apply zdrop_app_le. lia. }
  destruct r as [[|b0 b]|].
  - exists false, s2, []. split; [done|]. rewrite app_nil_r in Hd. destruct Hd as [_ Hd]. split; [|split; [|done]].
    + constructor; rewrite ?F1, ?F2, ?F3, ?F4, ?E1, ?E2, ?E3; lia.
    + unfold grows, unread. rewrite F1, F3, F4, F5, Hd, E1, E2, E3, E4, E5, !app_nil_r. done.
  - destruct Hd as [Hl Hd]. eexists true, _, (b0 :: b). split; [done|]. split; [|split; [|done]].
    + constructor; simpl; rewrite ?F1, ?F2, ?F3, ?F4, ?E1, ?E2, ?E3; [rewrite zlen_app; pose proof (zlen_nonneg (b0 :: b)); lia|rewrite zlen_app; lia|lia].
    + unfold grows, unread. simpl. rewrite F1, F3, F4, F5, Hd, E1, E2, E3, E4, E5. rewrite zdrop_app_le by lia. done.
  - exists false, s2, []. split; [done|]. split; [|split; [|done]].
    + constructor; rewrite ?F1, ?F2, ?F3, ?F4, ?E1, ?E2, ?E3; lia.
    + unfold grows, unread. rewrite F1, F3, F4, F5, Hd, E1, E2, E3, E4, E5, !app_nil_r. done.
Qed.

Lemma rewind_spec s : socket_ok s -> socket_ok (rewind s) /\ grows s (rewind s) [] /\ net_ (rewind s) = net_ s /\
  connected_ (rewind s) = connected_ s /\ fd_open (rewind s) = fd_open s.
Proof.
  intros [Hp Hc Hr]. unfold rewind.
  destruct ((0 <? receive_pos_ s) && (receive_pos_ s =? zlen (staged_ s))) eqn:E.
  - apply andb_true_iff in E as [_ E]. apply Z.eqb_eq in E. unfold ClearReceiveBuffer.
    repeat split; simpl; rewrite ?zlen_nil; try lia; unfold unread; simpl; rewrite ?app_nil_r; try done.
    symmetry. apply zlen_0_nil. rewrite zlen_zdrop; lia.
  - repeat split; try done; try lia; rewrite app_nil_r; done.
Qed.

Lemma compact_spec s : socket_ok s -> socket_ok (compact s) /\ grows s (compact s) [] /\ net_ (compact s) = net_ s /\
  connected_ (compact s) = connected_ s /\ fd_open (compact s) = fd_open s.
Proof.
  intros [Hp Hc Hr]. unfold compact. destruct (0 <? receive_pos_ s) eqn:E.
  - repeat split; simpl; rewrite ?zlen_zdrop by lia; try lia; unfold unread; simpl; rewrite ?app_nil_r; done.
  - repeat split; try done; try lia; rewrite app_nil_r; done.
Qed.

Lemma byte16be_bound (a b : byte) : 0 <= b2z a * 256 + b2z b < 65536.
Proof. pose proof (b2z_range a). pose proof (b2z_range b). lia. Qed.

Lemma cursor_get16be data off b0 b1 r :
  cursor data off (b0 :: b1 :: r) -> get16be data off = Ok (b2z b0 * 256 + b2z b1).
Proof.
  intros [E0 H1]%cursor_cons. apply cursor_cons in H1 as [E1 _].
  rewrite get16be_eq, E0. simpl. rewrite E1. simpl. f_equal. lia.
Qed.

Lemma scan_short_bound b : scan_frame b = Short -> zlen b < 65535.
Proof.
  unfold scan_frame. destruct b as [|x0 [|x1 [|l0 [|l1 b]]]]; rewrite ?zlen_cons, ?zlen_nil; try lia.
  pose proof (byte16be_bound l0 l1). cbv zeta. unfold TDS_HEADER_SIZE. case_match; [lia|]. case_match; [done|]. case_match; [lia|done].
Qed.

(** A turn of the loop, against what the unread bytes start with. *)
Lemma next_head_spec s :
  socket_ok s ->
  match scan_frame (unread s) with
  | Short => next_head s = Ok (NextRead s)
  | Bad n => next_head s = Ok (NextReturn None (set_error (FrameTooShort n) s))
  | Frame w r =>
      exists s', next_head s = Ok (NextReturn (Some w) s') /\ socket_ok s' /\ unread s' = r /\ net_ s' = net_ s /\
        recv_read_size_ s' = recv_read_size_ s /\ tls_context_ s' = tls_context_ s /\
        connected_ s' = connected_ s /\ fd_open s' = fd_open s
  end.
Proof.
  intros [Hp Hc Hr]. pose proof (cursor_at (staged_ s) (receive_pos_ s) Hp) as Hcur. fold (unread s) in Hcur.
  pose proof (cursor_len _ _ _ Hcur) as Hlen. unfold next_head, scan_frame. cbv zeta.
  destruct (unread s) as [|x0 [|x1 [|l0 [|l1 u]]]] eqn:Eu;
    try (rewrite ?zlen_cons, ?zlen_nil in Hlen; unfold TDS_HEADER_SIZE; replace (8 <=? _) with false by lia; done).
  rewrite <- Eu in *. replace (zlen (staged_ s) - receive_pos_ s) with (zlen (unread s)) by lia.
  pose proof (byte16be_bound l0 l1). destruct (Z.ltb_spec (zlen (unread s)) TDS_HEADER_SIZE).
  - by replace (TDS_HEADER_SIZE <=? zlen (unread s)) with false by lia.
  - replace (TDS_HEADER_SIZE <=? zlen (unread s)) with true by lia.
    assert (Hc2 : cursor (staged_ s) (receive_pos_ s + 2) (l0 :: l1 :: u)).
    { rewrite Eu in Hcur. apply cursor_cons in Hcur as [_ Hcur]. apply cursor_cons in Hcur as [_ Hcur].
      eapply cursor_eq; [|exact Hcur]. lia. }
    rewrite (cursor_get16be _ _ _ _ _ Hc2). cbn [mbind res_bind].
    destruct (Z.ltb_spec (b2z l0 * 256 + b2z l1) TDS_HEADER_SIZE); [done|].
    destruct (Z.ltb_spec (zlen (unread s)) (b2z l0 * 256 + b2z l1)).
    + by replace (b2z l0 * 256 + b2z l1 <=? zlen (unread s)) with false by lia.
    + replace (b2z l0 * 256 + b2z l1 <=? zlen (unread s)) with true by lia.
      rewrite <- (ztake_zdrop (b2z l0 * 256 + b2z l1) (unread s)) in Hcur.
      rewrite (cursor_slice _ _ _ _ _ Hcur) by (rewrite zlen_ztake by lia; done). cbn [mbind res_bind].
      eexists. split; [done|]. unfold TDS_HEADER_SIZE in *. split; [constructor; simpl; lia|]. split; [|done].
      unfold unread. simpl. rewrite zdrop_zdrop by lia. done.
Qed.

(** [NextPacket] on any kernel: it ends, stays inside the buffer, loses no byte,
    and answers by what the stream starts with. *)
Definition next_post (s : TdsSocket) (o : option bytes) (s' : TdsSocket) : Prop :=
  socket_ok s' /\ recv_read_size_ s' = recv_read_size_ s /\ tls_context_ s' = tls_context_ s /\
  exists new, delivered (net_ s') = delivered (net_ s) ++ new /\
    match o with
    | Some w => scan_frame (unread s ++ new) = Frame w (unread s')
    | None => unread s' = unread s ++ new /\
        (scan_frame (unread s') = Short \/ exists n, scan_frame (unread s') = Bad n /\ last_error_ s' = FrameTooShort n)
    end.

Lemma next_post_grows s s1 o s' c : grows s s1 c -> next_post s1 o s' -> next_post s o s'.
Proof.
  intros (U & D & R & T1) (Hok & HR & HT & new & HD & Ho). unfold next_post. rewrite HR, HT, R, T1.
  split_and!; [done..|]. exists (c ++ new). rewrite HD, D, U in *. rewrite <- !app_assoc in *.
  split; [done|]. destruct o; done.
Qed.

Lemma next_loop_spec fuel t s :
  socket_ok s -> 65536 <= Z.of_nat fuel + zlen (unread s) -> (0 < fuel)%nat ->
  exists o s', next_loop fuel t s = Ok (o, s') /\ next_post s o s'.
Proof.
  revert s. induction fuel as [|fuel IH]; intros s Hs Hf Hpos; [lia|]. cbn [next_loop].
  destruct (rewind_spec s Hs) as (Hs1 & Hg1 & _ & _ & _). set (s1 := rewind s) in *. clearbody s1.
  pose proof (next_head_spec s1 Hs1) as Hh. destruct (scan_frame (unread s1)) as [|n|w r] eqn:Es.
  - rewrite Hh. cbn [mbind res_bind].
    destruct (compact_spec s1 Hs1) as (Hs2 & Hg2 & _ & _ & _). set (s2 := compact s1) in *. clearbody s2.
    destruct (FillReceiveBuffer_spec t s2 Hs2) as (b & s3 & c & Ef & Hs3 & Hg3 & Hb). rewrite Ef. cbn [mbind res_bind].
    pose proof (grows_trans _ _ _ _ _ (grows_trans _ _ _ _ _ Hg1 Hg2) Hg3) as Hg. simpl in Hg.
    assert (Hu : unread s1 = unread s) by (destruct Hg1 as (U & _); by rewrite app_nil_r in U).
    destruct b.
    + apply scan_short_bound in Es. assert (0 < zlen c) by (destruct c; [done|rewrite zlen_cons; pose proof (zlen_nonneg c); lia]).
      assert (zlen (unread s3) = zlen (unread s) + zlen c) by (destruct Hg as (-> & _); by rewrite zlen_app).
      destruct (IH s3 Hs3) as (o & s' & E & Hpost); [lia|rewrite Hu in Es; lia|].
      exists o, s'. split; [done|]. by eapply next_post_grows.
    + subst c. exists None, s3. split; [done|]. destruct Hg as (U & D & R & T1).
      unfold next_post. split_and!; [done..|]. exists []. rewrite D. split; [done|]. split; [by rewrite U|]. left.
      rewrite U, app_nil_r, <- Hu. done.
  - rewrite Hh. cbn [mbind res_bind]. eexists None, _. split; [done|]. eapply next_post_grows; [exact Hg1|].
    destruct Hs1. unfold next_post. split_and!; [constructor; done|done..|]. exists []. rewrite !app_nil_r.
    split; [done|]. split; [done|]. right. by exists n.
  - destruct Hh as (s' & -> & Hok & Hu & Hn & HR & HT & _). cbn [mbind res_bind]. exists (Some w), s'. split; [done|].
    eapply next_post_grows; [exact Hg1|]. unfold next_post. split_and!; [done..|]. exists []. rewrite Hn, !app_nil_r.
    split; [done|]. by rewrite Hu.
Qed.

Lemma next_fuel_eq : Z.of_nat next_fuel = 65537.
Proof. unfold next_fuel. rewrite Z2Nat.id; lia. Qed.

#[local] Opaque next_fuel.

Lemma NextPacket_spec t s : socket_ok s -> exists o s', NextPacket t s = Ok (o, s') /\ next_post s o s'.
Proof.
  intros Hs. apply next_loop_spec; [done|pose proof next_fuel_eq; pose proof (zlen_nonneg (unread s)); lia|pose proof next_fuel_eq; lia].
Qed.

(** A frame as [Parse] reads it. *)
Lemma scan_Frame_inv b w r :
  scan_frame b = Frame w r -> b = w ++ r /\ 8 <= zlen w < 65536 /\ get16be w 2 = Ok (zlen w).
Proof.
  unfold scan_frame. destruct b as [|x0 [|x1 [|l0 [|l1 b]]]]; try done. cbv zeta. set (u := x0 :: x1 :: l0 :: l1 :: b).
  pose proof (byte16be_bound l0 l1). unfold TDS_HEADER_SIZE. destruct (Z.ltb_spec (zlen u) 8); [done|].
  destruct (Z.ltb_spec (b2z l0 * 256 + b2z l1) 8); [done|].
  destruct (Z.ltb_spec (zlen u) (b2z l0 * 256 + b2z l1)); [done|]. intros [= <- <-].
  rewrite zlen_ztake by lia. split; [by rewrite ztake_zdrop|]. split; [lia|].
  assert (Hc : cursor (ztake (b2z l0 * 256 + b2z l1) u) 2 (l0 :: l1 :: ztake (b2z l0 * 256 + b2z l1 - 4) b)).
  { unfold cursor. rewrite zlen_ztake by lia. split; [lia|]. unfold zdrop, ztake, u.
    replace (Z.to_nat (b2z l0 * 256 + b2z l1)) with (S (S (S (S (Z.to_nat (b2z l0 * 256 + b2z l1 - 4)))))) by lia. done. }
  by rewrite (cursor_get16be _ _ _ _ _ Hc).
Qed.

Lemma Parse_frame b w r packet :
  scan_frame b = Frame w r ->
  if zlen w <=? TDS_MAX_PACKET_SIZE
  then exists p, Parse w packet = Ok (zlen w, p) /\ payload_ p = zdrop TDS_HEADER_SIZE w /\
                 status_ p = match w with _ :: st :: _ => b2z st | _ => 0 end
  else Parse w packet = Exn InvalidPacketLength.
Proof.
  intros (_ & Hl & Hg)%scan_Frame_inv. unfold Parse, HasCompleteHeader, GetPacketLength, TDS_HEADER_SIZE.
  replace (8 <=? zlen w) with true by lia. simpl negb. cbv iota. rewrite Hg. cbn [mbind res_bind].
  replace (zlen w <? 8) with false by lia. simpl orb.
  destruct (Z.leb_spec (zlen w) TDS_MAX_PACKET_SIZE); [|by replace (TDS_MAX_PACKET_SIZE <? zlen w) with true by lia].
  replace (TDS_MAX_PACKET_SIZE <? zlen w) with false by lia. rewrite Z.ltb_irrefl.
  do 8 (destruct w as [|? w]; [rewrite ?zlen_cons, zlen_nil in Hl; lia|]).
  match goal with |- context [get8 ?d 0] => set (data := d) in * end.
  pose proof (cursor_0 data) as Hc. unfold data in Hc at 2.
  apply cursor_cons in Hc as [-> Hc]. apply cursor_cons in Hc as [E1 Hc]. change (0 + 1) with 1 in *. rewrite E1.
  cbn [mbind res_bind]. apply cursor_cons in Hc as [_ Hc]. apply cursor_cons in Hc as [_ Hc].
  change (1 + 1 + 1 + 1) with 4 in Hc. rewrite (cursor_get16be _ _ _ _ _ Hc). cbn [mbind res_bind].
  apply cursor_cons in Hc as [_ Hc]. apply cursor_cons in Hc as [_ Hc]. change (4 + 1 + 1) with 6 in Hc.
  apply cursor_cons in Hc as [-> Hc]. cbn [mbind res_bind]. change (6 + 1) with 7 in Hc. apply cursor_cons in Hc as [-> Hc].
  cbn [mbind res_bind]. change (7 + 1) with 8 in Hc.
  assert (Hs : slice data 8 (zlen data - 8) = Ok w).
  { rewrite <- (app_nil_r w) in Hc. apply (cursor_slice _ _ _ _ _ Hc). unfold data. rewrite !zlen_cons. lia. }
  destruct (Z.ltb_spec 8 (zlen data)) as [Hlt|Hle].
  - rewrite Hs. cbn [mbind res_bind]. eexists. split; [done|]. done.
  - cbn [mbind res_bind]. eexists. split; [done|]. split; [|done]. simpl. unfold data, zdrop. simpl. rewrite drop_0. symmetry.
    apply zlen_0_nil. unfold data in Hle. rewrite !zlen_cons in Hle. pose proof (zlen_nonneg w). lia.
Qed.



(** ** Messages *)

(** The end-of-message bit of a frame's header. *)
Definition frame_eom (w : bytes) : bool :=
  match w with
  | _ :: status :: _ => negb (Z.land (b2z status) PacketStatus.END_OF_MESSAGE =? 0)
  | _ => false
  end.

(** The stream [b] starts with the frames of the message [m]; [r] is left. *)
Inductive stream_message : bytes -> bytes -> bytes -> Prop :=
  | sm_last b w r :
      scan_frame b = Frame w r -> zlen w <= TDS_MAX_PACKET_SIZE -> frame_eom w = true ->
      stream_message b (zdrop TDS_HEADER_SIZE w) r
  | sm_more b w b' m r :
      scan_frame b = Frame w b' -> zlen w <= TDS_MAX_PACKET_SIZE -> frame_eom w = false ->
      stream_message b' m r -> stream_message b (zdrop TDS_HEADER_SIZE w ++ m) r.

Lemma scan_frame_app b w r d : scan_frame b = Frame w r -> scan_frame (b ++ d) = Frame w (r ++ d).
Proof.
  unfold scan_frame. destruct b as [|x0 [|x1 [|l0 [|l1 b]]]]; try done. simpl app. cbv beta iota zeta.
  change (x0 :: x1 :: l0 :: l1 :: b ++ d) with ((x0 :: x1 :: l0 :: l1 :: b) ++ d).
  set (u := x0 :: x1 :: l0 :: l1 :: b). rewrite zlen_app. pose proof (zlen_nonneg d). pose proof (byte16be_bound l0 l1).
  unfold TDS_HEADER_SIZE.
  destruct (Z.ltb_spec (zlen u) 8); [done|]. destruct (Z.ltb_spec (b2z l0 * 256 + b2z l1) 8); [done|].
  destruct (Z.ltb_spec (zlen u) (b2z l0 * 256 + b2z l1)); [done|]. intros [= <- <-].
  replace (zlen u + zlen d <? 8) with false by lia.
  replace (zlen u + zlen d <? b2z l0 * 256 + b2z l1) with false by lia.
  rewrite ztake_app_le, zdrop_app_le by lia. done.
Qed.

Lemma scan_bad_app b n d : scan_frame b = Bad n -> scan_frame (b ++ d) = Bad n.
Proof.
  unfold scan_frame. destruct b as [|x0 [|x1 [|l0 [|l1 b]]]]; try done. simpl app. cbv beta iota zeta.
  change (x0 :: x1 :: l0 :: l1 :: b ++ d) with ((x0 :: x1 :: l0 :: l1 :: b) ++ d).
  rewrite zlen_app. pose proof (zlen_nonneg d). unfold TDS_HEADER_SIZE.
  destruct (Z.ltb_spec (zlen (x0 :: x1 :: l0 :: l1 :: b)) 8) as [|Hb]; [done|].
  replace (zlen (x0 :: x1 :: l0 :: l1 :: b) + zlen d <? 8) with false by lia.
  destruct (Z.ltb_spec (b2z l0 * 256 + b2z l1) 8); [done|]. by destruct (_ <? _).
Qed.

Lemma stream_message_app b m r d : stream_message b m r -> stream_message (b ++ d) m (r ++ d).
Proof.
  induction 1 as [b w r E Hw He|b w b' m r E Hw He H IH].
  - eapply sm_last; [by apply scan_frame_app|done..].
  - eapply sm_more; [by apply scan_frame_app|done..].
Qed.

Lemma stream_message_det b m r m' r' : stream_message b m r -> stream_message b m' r' -> m = m' /\ r = r'.
Proof.
  intros H. revert m' r'. induction H as [b w r E Hw He|b w b' m r E Hw He H IH]; intros m' r' H'.
  - inversion H' as [? w' ? E' ? He'|? w' ? ? ? E' ? He' ?]; subst; rewrite E in E'; simplify_eq; [done|congruence].
  - inversion H' as [? w' ? E' ? He'|? w' ? m1 ? E' ? He' H1]; subst; rewrite E in E'; simplify_eq; [congruence|].
    by destruct (IH _ _ H1) as [-> ->].
Qed.

Lemma frame_Parse b w r packet :
  scan_frame b = Frame w r -> zlen w <= TDS_MAX_PACKET_SIZE ->
  exists p, Parse w packet = Ok (zlen w, p) /\ payload_ p = zdrop TDS_HEADER_SIZE w /\ IsEndOfMessage p = frame_eom w /\
            0 < zlen w.
Proof.
  intros E Hw. pose proof (Parse_frame _ _ _ packet E) as HP. replace (zlen w <=? TDS_MAX_PACKET_SIZE) with true in HP by lia.
  destruct HP as (p & EP & Epay & Est). apply scan_Frame_inv in E as (_ & Hl & _). exists p. split_and!; [done..| |lia].
  unfold IsEndOfMessage, frame_eom. rewrite Est. by destruct w as [|? [|? ?]].
Qed.

(** What [ReceiveMessage] has done when it returns: a message is the one at the
    head of the stream of unread and newly received bytes, and exactly its
    frames are used up. *)
Definition message_post (acc : bytes) (s : TdsSocket) (o : message_read) (s' : TdsSocket) : Prop :=
  socket_ok s' /\ tls_context_ s' = tls_context_ s /\
  exists new, delivered (net_ s') = delivered (net_ s) ++ new /\
    match o with
    | AMessage m => exists m', m = acc ++ m' /\ stream_message (unread s ++ new) m' (unread s')
    | NoMessage => True
    | MessageThrows e => e = InvalidPacketLength
    end.

Lemma message_loop_spec fuel acc t s o :
  socket_ok s -> message_loop fuel acc t s = Some o -> exists x s', o = Ok (x, s') /\ message_post acc s x s'.
Proof.
  revert acc s. induction fuel as [|fuel IH]; intros acc s Hs; [done|]. cbn [message_loop]. unfold ReceivePacket.
  destruct (NextPacket_spec t s Hs) as (head & s1 & E & Hok & HR & HT & new & HD & Hh). rewrite E. cbn [mbind res_bind].
  destruct head as [w|].
  - destruct (Z.leb_spec (zlen w) TDS_MAX_PACKET_SIZE) as [Hw|Hw].
    + destruct (frame_Parse _ _ _ TdsPacket_default Hh Hw) as (p & EP & Epay & Eeom & Hpos). rewrite EP.
      replace (0 <? zlen w) with true by lia. cbv iota. rewrite Eeom. destruct (frame_eom w) eqn:He.
      * intros [= <-]. eexists _, _. split; [done|]. split; [done|]. split; [done|]. exists new. split; [done|].
        exists (payload_ p). split; [done|]. rewrite Epay. by eapply sm_last.
      * intros Ho. destruct (IH _ _ Hok Ho) as (x & s' & -> & Hok' & HT' & new' & HD' & Hx). exists x, s'. split; [done|].
        split; [done|]. split; [congruence|]. exists (new ++ new'). rewrite HD', HD, <- app_assoc. split; [done|].
        destruct x; try done. destruct Hx as (m' & -> & Hm). exists (payload_ p ++ m'). rewrite <- app_assoc. split; [done|].
        rewrite Epay. rewrite app_assoc. eapply sm_more; [by apply scan_frame_app|done..].
    + pose proof (Parse_frame _ _ _ TdsPacket_default Hh) as HP.
      replace (zlen w <=? TDS_MAX_PACKET_SIZE) with false in HP by lia. rewrite HP.
      intros [= <-]. eexists _, _. split; [done|]. split; [done|]. split; [done|]. by exists new.
  - intros [= <-]. eexists _, _. split; [done|]. split; [done|]. split; [done|]. by exists new.
Qed.

(** ** A kernel that keeps delivering *)

(** One read of [Receive], on the plain or on the encrypted path. *)
Definition one_read (tls : bool) (max t : Z) (n : net) : option (bytes * net) :=
  if tls then match tls_recv max t n with (TlsBytes b, n) => Some (b, n) | _ => None end
  else match sys_poll false t n with
       | (PollReady, n) => match sys_recv max n with (ReceivedBytes b, n) => Some (b, n) | _ => None end
       | _ => None
       end.

(** The bytes [d] are on their way: each read gives some of them, as many as
    it likes, until they are used up. *)
Fixpoint supplies (k : nat) (tls : bool) (n : net) (d : bytes) : Prop :=
  match k with
  | O => d = []
  | S k => d = [] \/ forall max t, 0 < max ->
      exists c d' n', one_read tls max t n = Some (c, n') /\ c <> [] /\ d = c ++ d' /\ supplies k tls n' d'
  end.

Lemma Receive_one_read max t s c n' :
  IsConnected s = true -> one_read (tls_context_ s) max t (net_ s) = Some (c, n') -> c <> [] ->
  Receive max t s = (Some c, set_net n' s).
Proof.
  intros Hc Hr Hne. unfold Receive. rewrite Hc. simpl negb. cbv iota. unfold one_read in Hr.
  destruct (tls_context_ s).
  - destruct (tls_recv max t (net_ s)) as [[b|] n]; by simplify_eq.
  - unfold WaitForReady. destruct (sys_poll false t (net_ s)) as [[] n]; try done.
    cbn [net_ set_net]. destruct (sys_recv max n) as [[b| |] n1]; simplify_eq. simpl. by destruct c.
Qed.

Lemma FillReceiveBuffer_supplied k t s d :
  socket_ok s -> IsConnected s = true -> supplies (S k) (tls_context_ s) (net_ s) d -> d <> [] ->
  exists s' c d', FillReceiveBuffer t s = Ok (true, s') /\ d = c ++ d' /\ c <> [] /\
    supplies k (tls_context_ s') (net_ s') d' /\ socket_ok s' /\ unread s' = unread s ++ c /\ IsConnected s' = true.
Proof.
  intros Hs Hc Hd Hne. destruct Hd as [->|Hd]; [done|].
  pose proof (FillReceiveBuffer_spec t s Hs) as (b & s' & c & E & Hok & Hg & Hb).
  unfold FillReceiveBuffer in *. cbv zeta in *.
  set (s1 := if capacity_ s - zlen (staged_ s) <? recv_read_size_ s then _ else s) in *.
  assert (H1 : net_ s1 = net_ s /\ tls_context_ s1 = tls_context_ s /\ IsConnected s1 = true /\
               recv_read_size_ s1 = recv_read_size_ s) by (unfold s1; destruct (_ <? _); done).
  destruct H1 as (E1 & E2 & E3 & E4). clearbody s1.
  destruct (_ <? _); [done|]. destruct (Hd (recv_read_size_ s1) t) as (c' & d' & n' & Er & Hc' & -> & Hsup).
  { rewrite E4. apply Hs. }
  assert (HR : Receive (recv_read_size_ s1) t s1 = (Some c', set_net n' s1))
    by (apply Receive_one_read; [done|by rewrite E1, E2|done]).
  rewrite HR in *.
  destruct c' as [|b0 c']; [done|]. injection E as <- <-.
  destruct Hg as (Hu & HD & _). cbn [tls_context_ net_ set_net set_staged] in *.
  assert (c = b0 :: c') as ->.
  { assert (Hcc : delivered n' = delivered (net_ s) ++ b0 :: c').
    { unfold one_read in Er. destruct (tls_context_ s).
      - pose proof (tls_recv_spec (recv_read_size_ s1) t (net_ s)) as Hspec.
        destruct (tls_recv _ _ _) as [[b|] n]; simplify_eq. apply Hspec.
      - pose proof (sys_poll_quiet false t (net_ s)) as Hq. destruct (sys_poll false t (net_ s)) as [[] n]; try done.
        pose proof (sys_recv_spec (recv_read_size_ s1) n) as Hspec.
        destruct (sys_recv _ n) as [[b| |] n1]; simplify_eq. destruct Hspec as [_ ->]. destruct Hq as [Hq _]. simpl in Hq. by rewrite Hq. }
    rewrite Hcc in HD. by apply app_inv_head in HD. }
  eexists _, _, _. split; [done|]. split; [done|]. split; [done|]. split; [change (supplies k (tls_context_ s1) n' d'); by rewrite E2|].
  split; [done|]. split; [done|]. exact E3.
Qed.

(** While the bytes of a frame are on their way, [NextPacket] waits for them. *)
Lemma next_loop_supplied fuel : forall k t s d w r,
  socket_ok s -> IsConnected s = true -> supplies k (tls_context_ s) (net_ s) d ->
  scan_frame (unread s ++ d) = Frame w r ->
  65536 <= Z.of_nat fuel + zlen (unread s) -> (0 < fuel)%nat ->
  exists s' k' d', next_loop fuel t s = Ok (Some w, s') /\ socket_ok s' /\ IsConnected s' = true /\
    supplies k' (tls_context_ s') (net_ s') d' /\ unread s' ++ d' = r.
Proof.
  induction fuel as [|fuel IH]; intros k t s d w r Hs Hc Hd Hw Hf Hpos; [lia|]. cbn [next_loop].
  destruct (rewind_spec s Hs) as (Hs1 & (U1 & _ & _ & T1) & N1 & C1 & F1). set (s1 := rewind s) in *. clearbody s1.
  rewrite app_nil_r in U1.
  assert (Hc1 : IsConnected s1 = true) by (unfold IsConnected in *; by rewrite C1, F1).
  pose proof (next_head_spec s1 Hs1) as Hh. rewrite U1 in Hh. destruct (scan_frame (unread s)) as [|n|w' r'] eqn:Es.
  - rewrite Hh. cbn [mbind res_bind].
    destruct (compact_spec s1 Hs1) as (Hs2 & (U2 & _ & _ & T2) & N2 & C2 & F2). set (s2 := compact s1) in *. clearbody s2.
    rewrite app_nil_r in U2.
    assert (Hc2 : IsConnected s2 = true) by (unfold IsConnected in *; by rewrite C2, F2).
    assert (Hne : d <> []) by (intros ->; rewrite app_nil_r in Hw; congruence).
    destruct k as [|k]; [done|]. rewrite <- T1, <- T2, <- N1, <- N2 in Hd.
    destruct (FillReceiveBuffer_supplied k t s2 d Hs2 Hc2 Hd Hne) as (s3 & c & d' & -> & -> & Hcne & Hd' & Hs3 & U3 & Hc3).
    cbn [mbind res_bind]. apply scan_short_bound in Es.
    assert (0 < zlen c) by (destruct c; [done|rewrite zlen_cons; pose proof (zlen_nonneg c); lia]).
    assert (zlen (unread s3) = zlen (unread s) + zlen c) by (by rewrite U3, U2, U1, zlen_app).
    apply (IH k t s3 d' w r Hs3 Hc3 Hd'); [by rewrite U3, U2, U1, <- app_assoc|lia|lia].
  - rewrite (scan_bad_app _ _ d Es) in Hw. done.
  - pose proof (scan_frame_app _ _ _ d Es) as Hw'. rewrite Hw in Hw'. injection Hw' as <- ->.
    destruct Hh as (s' & -> & Hok & Hu & Hn & _ & HT & HC & HF). cbn [mbind res_bind]. exists s', k, d.
    split; [done|]. split; [done|]. split; [unfold IsConnected in *; by rewrite HC, HF|].
    split; [by rewrite HT, Hn, T1, N1|]. by rewrite Hu.
Qed.

Lemma stream_message_len b m r : stream_message b m r -> zlen r < zlen b.
Proof.
  induction 1 as [b w r E Hw He|b w b' m r E Hw He H IH]; apply scan_Frame_inv in E as (-> & Hl & _); rewrite zlen_app; lia.
Qed.

Lemma message_loop_supplied b m r : stream_message b m r -> forall fuel k acc t s d,
  b = unread s ++ d -> socket_ok s -> IsConnected s = true -> supplies k (tls_context_ s) (net_ s) d ->
  zlen b < Z.of_nat fuel ->
  exists s' k' d', message_loop fuel acc t s = Some (Ok (AMessage (acc ++ m), s')) /\ socket_ok s' /\
    IsConnected s' = true /\ supplies k' (tls_context_ s') (net_ s') d' /\ unread s' ++ d' = r.
Proof.
  induction 1 as [b w r E Hw He|b w b' m r E Hw He H IH]; intros fuel k acc t s d -> Hs Hc Hd Hf;
    (destruct fuel as [|fuel]; [pose proof (zlen_nonneg (unread s ++ d)); lia|]); cbn [message_loop]; unfold ReceivePacket;
    destruct (next_loop_supplied next_fuel k t s d w _ Hs Hc Hd E) as (s1 & k1 & d1 & E1 & Hs1 & Hc1 & Hd1 & U1);
      try (pose proof next_fuel_eq; pose proof (zlen_nonneg (unread s)); lia);
    destruct (frame_Parse _ _ _ TdsPacket_default E Hw) as (p & EP & Epay & Eeom & Hpos);
    unfold NextPacket; rewrite E1; cbn [mbind res_bind]; rewrite EP; replace (0 <? zlen w) with true by lia;
    cbv iota; rewrite Eeom, He.
  - rewrite Epay. eauto 10.
  - apply scan_Frame_inv in E as (Eb & Hl & _). rewrite Eb, zlen_app in Hf. rewrite Epay, app_assoc.
    apply (IH fuel k1 (acc ++ zdrop TDS_HEADER_SIZE w) t s1 d1); [done..|lia].
Qed.

(** ** Sending *)

Lemma WaitForReady_accepted w t s ready s' : WaitForReady w t s = (ready, s') -> accepted (net_ s') = accepted (net_ s).
Proof.
  unfold WaitForReady. pose proof (sys_poll_quiet w t (net_ s)) as Hq. destruct (sys_poll w t (net_ s)) as [r n].
  destruct Hq as [_ Hq]. destruct r; by intros [= <- <-].
Qed.

Lemma send_loop_accepted fuel data : forall total s ok s',
  0 <= total <= zlen data -> send_loop fuel data total s = Some (ok, s') ->
  exists k, total <= k <= zlen data /\
    accepted (net_ s') = accepted (net_ s) ++ ztake (k - total) (zdrop total data) /\ (ok = true -> k = zlen data).
Proof.
  induction fuel as [|fuel IH]; intros total s ok s' Ht; [done|]. cbn [send_loop].
  assert (Hnil : forall x, ztake (x - x) (zdrop total data) = []) by (intros x; by rewrite Z.sub_diag).
  destruct (Z.ltb_spec total (zlen data)); simpl negb; cbv iota.
  2:{ intros [= <- <-]. exists total. rewrite Hnil, app_nil_r. split; [lia|]. split; [done|lia]. }
  pose proof (sys_send_spec (zdrop total data) (net_ s)) as Hs.
  destruct (sys_send (zdrop total data) (net_ s)) as [[k| |] n].
  - destruct Hs as [Hk Hacc]. rewrite zlen_zdrop in Hk by lia. destruct (Z.leb_spec k 0).
    + intros [= <- <-]. exists total. rewrite Hnil, app_nil_r. simpl. rewrite Hacc.
      replace (ztake k _) with (@nil byte) by (unfold ztake; by rewrite Z2Nat.nonpos by lia).
      rewrite app_nil_r. split; [lia|]. done.
    + intros E. apply IH in E as (j & Hj & Eacc & Hok); [|lia]. exists j. split; [lia|]. split; [|done].
      rewrite Eacc. simpl. rewrite Hacc, <- app_assoc. f_equal. rewrite <- (zdrop_zdrop k total) by lia.
      unfold ztake. replace (Z.to_nat (j - total)) with (Z.to_nat k + Z.to_nat (j - (total + k)))%nat by lia.
      unfold zdrop. by rewrite take_take_drop.
  - destruct (WaitForReady true 30000 (set_net n s)) as [ready s1] eqn:Ew. apply WaitForReady_accepted in Ew. simpl in Ew.
    destruct ready; intros E.
    + apply IH in E as (j & Hj & Eacc & Hok); [|lia]. exists j. split; [lia|]. rewrite Eacc, Ew, Hs. done.
    + simplify_eq. exists total. rewrite Hnil, app_nil_r. simpl. rewrite Ew, Hs. split; [lia|]. done.
  - intros [= <- <-]. exists total. rewrite Hnil, app_nil_r. simpl. rewrite Hs. split; [lia|]. done.
Qed.
End Framing.

(** ** What a client may rely on *)

Section Client.
Context {T : Transport}.

Lemma same_but_net_ok s s' : same_but_net s s' -> socket_ok s -> socket_ok s'.
Proof. intros (E1 & E2 & E3 & E4 & _) []. constructor; rewrite ?E1, ?E2, ?E3, ?E4; done. Qed.

Lemma same_but_net_trans s1 s2 s3 : same_but_net s1 s2 -> same_but_net s2 s3 -> same_but_net s1 s3.
Proof. intros (?&?&?&?&?) (?&?&?&?&?). repeat split; congruence. Qed.

Lemma send_loop_same fuel data : forall total s ok s',
  send_loop fuel data total s = Some (ok, s') -> same_but_net s s' /\ (ok = true -> IsConnected s' = IsConnected s).
Proof.
  induction fuel as [|fuel IH]; intros total s ok s'; [done|]. cbn [send_loop].
  destruct (negb _); [by intros [= <- <-]|]. destruct (sys_send _ _) as [[k| |] n].
  - destruct (k <=? 0); [by intros [= <- <-]|]. intros E. apply IH in E as [H1 H2]. by split.
  - destruct (WaitForReady true 30000 (set_net n s)) as [ready s1] eqn:Ew.
    apply WaitForReady_spec in Ew as (Hs & _ & Hr). destruct ready.
    + intros E. apply IH in E as [H1 H2]. destruct (Hr eq_refl) as [Ec Ef]. split; [by eapply same_but_net_trans|].
      intros Hok. rewrite (H2 Hok). unfold IsConnected. by rewrite Ec, Ef.
    + intros [= <- <-]. by split.
  - by intros [= <- <-].
Qed.

Lemma Send_client fuel data s ok s' :
  Send fuel data s = Some (ok, s') -> socket_ok s -> socket_ok s' /\ (ok = true -> IsConnected s' = true).
Proof.
  unfold Send. destruct (IsConnected s) eqn:Ec; simpl negb; cbv iota.
  2:{ intros [= <- <-] []. split; [by constructor|done]. }
  destruct (tls_context_ s).
  - destruct (tls_send data (net_ s)) as [[k|] n]; [destruct (negb _)|]; intros [= <- <-] []; (split; [by constructor|done]).
  - intros E Hs. apply send_loop_same in E as [Hsame Hok]. split; [by eapply same_but_net_ok|]. intros H. by rewrite (Hok H).
Qed.

Lemma Receive_connected max t s r s' :
  Receive max t s = (r, s') -> match r with Some (_ :: _) => IsConnected s' = IsConnected s | _ => True end.
Proof.
  unfold Receive. destruct (IsConnected s) eqn:Ec; simpl negb; cbv iota; [|by intros [= <- <-]].
  destruct (tls_context_ s).
  - destruct (tls_recv max t (net_ s)) as [[[|b0 b]|closed] n]; [by intros [= <- <-]| |].
    + intros [= <- <-]. exact Ec.
    + destruct closed; by intros [= <- <-].
  - destruct (WaitForReady false t s) as [ready s1] eqn:Ew. apply WaitForReady_spec in Ew as (_ & _ & Hr).
    destruct ready; simpl negb; cbv iota.
    + destruct (Hr eq_refl) as [E1 E2]. destruct (sys_recv max (net_ s1)) as [[[|b0 b]| |] n]; intros [= <- <-]; try done.
      rewrite <- Ec. unfold IsConnected. simpl. by rewrite E1, E2.
    + destruct (negb (connected_ s1)); by intros [= <- <-].
Qed.

Lemma FillReceiveBuffer_connected t s s' : FillReceiveBuffer t s = Ok (true, s') -> IsConnected s' = IsConnected s.
Proof.
  unfold FillReceiveBuffer. cbv zeta. set (s1 := if _ <? _ then _ else s).
  assert (E1 : IsConnected s1 = IsConnected s) by (unfold s1; by destruct (_ <? _)). clearbody s1.
  destruct (_ <? _); [done|]. destruct (Receive _ t s1) as [r s2] eqn:Er. apply Receive_connected in Er.
  destruct r as [[|b0 b]|]; try done. intros [= <-]. rewrite <- E1. exact Er.
Qed.

Lemma rewind_connected s : IsConnected (rewind s) = IsConnected s.
Proof. unfold rewind. by destruct (_ && _). Qed.

Lemma compact_connected s : IsConnected (compact s) = IsConnected s.
Proof. unfold compact. by destruct (_ <? _). Qed.

Lemma next_loop_connected fuel t : forall s w s',
  next_loop fuel t s = Ok (Some w, s') -> IsConnected s' = IsConnected s.
Proof.
  induction fuel as [|fuel IH]; intros s w s'; [done|]. cbn [next_loop]. intros ([o s1|s1] & Eh & E)%bind_Ok.
  - injection E as -> ->. revert Eh. unfold next_head. destruct (_ <=? _); [|done].
    intros (n & _ & Eh)%bind_Ok. destruct (n <? _); [done|]. destruct (n <=? _); [|done].
    apply bind_Ok in Eh as (f & _ & Eh). injection Eh as _ <-. apply rewind_connected.
  - apply bind_Ok in E as ([filled s2] & Ef & E). destruct filled; [|done]. apply IH in E. rewrite E.
    apply FillReceiveBuffer_connected in Ef. rewrite Ef, compact_connected.
    revert Eh. unfold next_head. destruct (_ <=? _); [|intros [= <-]; apply rewind_connected].
    intros (n & _ & Eh)%bind_Ok. destruct (n <? _); [done|]. destruct (n <=? _);
      [by apply bind_Ok in Eh as (f & _ & Eh)|]. injection Eh as <-. apply rewind_connected.
Qed.

Lemma message_loop_connected fuel t : forall acc s m s',
  message_loop fuel acc t s = Some (Ok (AMessage m, s')) -> IsConnected s' = IsConnected s.
Proof.
  induction fuel as [|fuel IH]; intros acc s m s'; [done|]. cbn [message_loop]. unfold ReceivePacket, NextPacket.
  destruct (next_loop next_fuel t s) as [[[w|] s1]| |] eqn:En; try done. cbn [mbind res_bind].
  destruct (Parse w TdsPacket_default) as [[n p]| |]; try done. destruct (0 <? n); [|done].
  apply next_loop_connected in En. rewrite <- En. destruct (IsEndOfMessage p); [by intros [= _ <-]|apply IH].
Qed.

Lemma Close_client s : socket_ok s -> socket_ok (Close s) /\ IsConnected (Close s) = false.
Proof.
  intros []. unfold Close, ClearReceiveBuffer. simpl. pose proof (zlen_nonneg (staged_ s)).
  destruct (fd_open s); (split; [constructor; simpl; [split; [lia|apply zlen_nonneg]|change (0 <= capacity_ s); lia|done]|]);
    unfold IsConnected; done.
Qed.

Lemma Connect_client h p t s ok s' :
  Connect h p t s = (ok, s') -> socket_ok s ->
  socket_ok s' /\ IsConnected s' = ok /\ (ok = false -> last_error_ s' = ConnectFailed).
Proof.
  unfold Connect. intros E Hs. set (s1 := if connected_ s then Close s else s) in *.
  assert (H1 : socket_ok s1) by (unfold s1; destruct (connected_ s); [by apply Close_client|done]). clearbody s1.
  cbv zeta in E. destruct (sys_connect h p t _) as [c n]. destruct H1. destruct c; injection E as <- <-.
  - split; [by constructor|done].
  - split; [by constructor|]. unfold IsConnected. simpl. by rewrite andb_false_r.
Qed.

Lemma EnableTls_client id t sni s ok id' s' :
  EnableTls id t sni s = (ok, id', s') -> socket_ok s ->
  socket_ok s' /\ (ok = true -> IsConnected s' = true).
Proof.
  unfold EnableTls. cbv zeta. intros E Hs.
  assert (H1 : socket_ok (ClearReceiveBuffer s)).
  { destruct Hs. pose proof (zlen_nonneg (staged_ s)). constructor; simpl; [split; [lia|apply zlen_nonneg]|change (0 <= capacity_ s); lia|done]. }
  set (s1 := ClearReceiveBuffer s) in *. clearbody s1. destruct (IsConnected s1) eqn:Ec; simpl in E.
  2:{ injection E as <- _ <-. destruct H1. by split. }
  destruct (tls_context_ s1); [injection E as <- _ <-; destruct H1; by split|].
  destruct (tls_handshake _ t id (net_ s1)) as [[c i] n]. destruct H1. destruct c; injection E as <- _ <-; by split.
Qed.

(** What [Send] puts on the wire: a prefix of the data, all of it if it returns
    true. *)
Lemma Send_accepted fuel data s ok s' :
  Send fuel data s = Some (ok, s') ->
  exists k, accepted (net_ s') = accepted (net_ s) ++ ztake k data /\ (ok = true -> ztake k data = data).
Proof.
  intros Hr. assert (Hall : forall k, k = zlen data -> ztake k data = data).
  { intros k ->. rewrite <- (app_nil_r data) at 2. by apply ztake_app_length. }
  unfold Send in Hr. destruct (IsConnected s); simpl negb in Hr; cbv iota in Hr.
  2:{ injection Hr as <- <-. exists 0. by rewrite app_nil_r. }
  destruct (tls_context_ s).
  - pose proof (tls_send_spec data (net_ s)) as Hs. destruct (tls_send data (net_ s)) as [[k|] n].
    + destruct Hs as [Hk Hs]. destruct (Z.eqb_spec k (zlen data)); injection Hr as <- <-; exists k;
        (split; [done|first [by intros _; apply Hall|done]]).
    + destruct Hs as [k Hs]. injection Hr as <- <-. by exists k.
  - apply send_loop_accepted in Hr as (k & Hk & Ha & Hok); [|pose proof (zlen_nonneg data); lia].
    rewrite Z.sub_0_r, zdrop_0 in Ha. exists k. auto.
Qed.

(** A packet on the wire is a frame. *)
Lemma scan_Serialize p r : fits p -> scan_frame (Serialize p ++ r) = Frame (Serialize p) r.
Proof.
  unfold fits, TDS_HEADER_SIZE, TDS_MAX_PACKET_SIZE. intros Hf. pose proof (zlen_nonneg (payload_ p)).
  pose proof (zlen_Serialize p) as Hl. unfold TDS_HEADER_SIZE in Hl.
  assert (Hg : GetLength p = zlen (Serialize p)) by (unfold GetLength, TDS_HEADER_SIZE; rewrite Z.mod_small; lia).
  destruct (put16be_digits (GetLength p)) as (a & b & E & Hab).
  { unfold GetLength. apply Z.mod_pos_bound. lia. }
  change (Frame (Serialize p) r) with (Frame (Serialize p) ([] ++ r)). apply scan_frame_app.
  assert (Hn : b2z a * 256 + b2z b = zlen (Serialize p)) by lia.
  assert (Hs : exists t0 t1 w, Serialize p = t0 :: t1 :: a :: b :: w).
  { unfold Serialize. cbv zeta. rewrite E. cbn [app]. eauto. }
  destruct Hs as (t0 & t1 & w & Hs). unfold scan_frame. rewrite Hs. cbv zeta. rewrite <- Hs, Hn. unfold TDS_HEADER_SIZE.
  rewrite Z.ltb_irrefl. replace (_ <? 8) with false by lia. f_equal.
  - rewrite <- (app_nil_r (Serialize p)) at 2. by apply ztake_app_length.
  - apply zlen_0_nil. rewrite zlen_zdrop; lia.
Qed.

Lemma frame_eom_Serialize p : 0 <= status_ p < 256 -> frame_eom (Serialize p) = IsEndOfMessage p.
Proof. intros H. unfold Serialize, IsEndOfMessage. cbn [app frame_eom]. by rewrite b2z_z2b, Z.mod_small by lia. Qed.

Lemma zdrop_Serialize p : zdrop TDS_HEADER_SIZE (Serialize p) = payload_ p.
Proof. reflexivity. Qed.

End Client.

(** ** The properties *)

(** C37. [NextPacket] ends on whatever the kernel and the peer do (a frame is at
    most 65535 bytes, and a turn that goes on has received one), writes only
    inside the buffer, throws nothing, and loses no byte: what was unread and
    what was received is the frame it returns followed by what is unread now.
    A length below the header's makes the socket answer with the same error
    for ever, and without reading. *)
Theorem NextPacket_total `{Transport} (timeout_ms : Z) (s : TdsSocket) (Hs : socket_ok s) :
  (exists o s', NextPacket timeout_ms s = Ok (o, s') /\ next_post s o s') /\
  (forall n, scan_frame (unread s) = Bad n ->
    exists s', NextPacket timeout_ms s = Ok (None, s') /\ unread s' = unread s /\ net_ s' = net_ s /\
      last_error_ s' = FrameTooShort n).
Proof.
  split; [by apply NextPacket_spec|]. intros n Hn. unfold NextPacket.
  pose proof next_fuel_eq as Hf. destruct next_fuel as [|fuel]; [done|]. cbn [next_loop].
  destruct (rewind_spec s Hs) as (Hs1 & (U1 & _) & N1 & _). rewrite app_nil_r in U1.
  pose proof (next_head_spec _ Hs1) as Hh. rewrite U1, Hn in Hh. rewrite Hh. cbn [mbind res_bind].
  eexists. split; [done|]. done.
Qed.

(** C16. The messages a connection reads depend on the byte stream only, not on
    how [recv] or the TLS layer cuts it. (1) Whatever [ReceiveMessage] returns,
    it read only inside its buffer; a message it returns is the one whose frames
    are at the head of the unread and newly received bytes, and exactly those
    frames are consumed; the only exception is a frame over 32767 bytes.
    (2) When the frames of a message are buffered or on their way, in pieces of
    any size, it returns that message, and what follows is still to be read. *)
Theorem ReceiveMessage_stream `{Transport} (fuel : nat) (timeout_ms : Z) (s : TdsSocket) (Hs : socket_ok s) :
  (forall o, ReceiveMessage fuel timeout_ms s = Some o ->
     exists x s', o = Ok (x, s') /\ message_post [] s x s') /\
  (forall k d m r, IsConnected s = true -> supplies k (tls_context_ s) (net_ s) d ->
     stream_message (unread s ++ d) m r -> zlen (unread s ++ d) < Z.of_nat fuel ->
     exists s' k' d', ReceiveMessage fuel timeout_ms s = Some (Ok (AMessage m, s')) /\ socket_ok s' /\
       IsConnected s' = true /\ supplies k' (tls_context_ s') (net_ s') d' /\ unread s' ++ d' = r).
Proof.
  split.
  - intros o Ho. by apply message_loop_spec in Ho.
  - intros k d m r Hc Hd Hm Hf. by apply (message_loop_supplied _ _ _ Hm fuel k [] timeout_ms s d).
Qed.

(** Sending: whatever the kernel accepts at a time, the bytes that leave are
    a prefix of the data, in order and none twice, and all of them if [Send]
    returns true. *)
Theorem Send_in_order `{Transport} (fuel : nat) (data : bytes) (s s' : TdsSocket) (ok : bool)
    (Hr : Send fuel data s = Some (ok, s')) :
  exists k, accepted (net_ s') = accepted (net_ s) ++ ztake k data /\ (ok = true -> ztake k data = data).
Proof. by apply (Send_accepted fuel data s ok s'). Qed.

(** ** A scripted kernel *)

(** [inbox]: what the peer sends, in the pieces it arrives in. Three bytes are
    taken at a time. *)
Record script : Type := mkScript { inbox : list bytes; got : bytes; sent : bytes }.

Definition script_recv (max : Z) (n : script) : recv_result * script :=
  match inbox n with
  | [] => (RecvAgain, n)
  | c :: rest =>
      let max := Z.max 0 max in
      if zlen c <=? max then (ReceivedBytes c, mkScript rest (got n ++ c) (sent n))
      else (ReceivedBytes (ztake max c), mkScript (zdrop max c :: rest) (got n ++ ztake max c) (sent n))
  end.

#[refine] Definition script_transport : Transport := {|
  net := script;
  sys_connect _ _ _ n := (true, n);
  sys_close n := n;
  sys_poll for_write _ n := ((if for_write then PollReady else match inbox n with [] => PollTimeout | _ => PollReady end), n);
  sys_send data n := (SentBytes (Z.min 3 (zlen data)), mkScript (inbox n) (got n) (sent n ++ ztake (Z.min 3 (zlen data)) data));
  sys_recv := script_recv;
  tls_handshake _ _ id n := (true, id, n);
  tls_send data n := (Some (zlen data), mkScript (inbox n) (got n) (sent n ++ data));
  tls_recv max _ n := match script_recv max n with (ReceivedBytes b, n) => (TlsBytes b, n) | (_, n) => (TlsBytes [], n) end;
  delivered := got;
  accepted := sent
|}.
Proof.
  - done.
  - intros max n. unfold script_recv. destruct (inbox n) as [|c rest]; [done|]. cbv zeta.
    destruct (Z.leb_spec (zlen c) (Z.max 0 max)); simpl; [done|]. split; [|done]. rewrite zlen_ztake; lia.
  - intros max t n. unfold script_recv. destruct (inbox n) as [|c rest]; [split; [change (0 <= Z.max 0 max); lia|by rewrite app_nil_r]|].
    cbv zeta. destruct (Z.leb_spec (zlen c) (Z.max 0 max)); simpl; [done|]. split; [|done]. rewrite zlen_ztake; lia.
  - intros data n. simpl. split; [lia|done].
  - done.
  - intros data n. simpl. pose proof (zlen_nonneg data). split; [lia|]. f_equal. rewrite <- (app_nil_r data) at 1.
    rewrite <- (app_nil_r data) at 3. symmetry. by rewrite (ztake_app_length data [] (zlen data)), app_nil_r.
Defined.

Lemma script_supplies tls k : forall n : script,
  Forall (fun c => c <> []) (inbox n) -> (length (concat (inbox n)) <= k)%nat ->
  @supplies script_transport k tls n (concat (inbox n)).
Proof.
  induction k as [|k IH]; intros [ib g st]; cbn [inbox]; intros Hne Hk.
  { by apply nil_length_inv; lia. }
  destruct ib as [|c rest]; [by left|]. right. intros max t Hmax.
  inversion Hne as [|? ? Hc Hrest]; subst. simpl in Hk. rewrite length_app in Hk.
  assert (0 < length c)%nat by (destruct c; [done|simpl; lia]).
  assert (Hr : @one_read script_transport tls max t (mkScript (c :: rest) g st)
     = Some (if zlen c <=? max then (c, mkScript rest (g ++ c) st)
             else (ztake max c, mkScript (zdrop max c :: rest) (g ++ ztake max c) st))).
  { unfold one_read. destruct tls; cbn; unfold script_recv; cbn [inbox got sent]; rewrite Z.max_r by lia;
      by destruct (zlen c <=? max). }
  rewrite Hr. destruct (Z.leb_spec (zlen c) max) as [Hle|Hlt].
  - exists c, (concat rest), (mkScript rest (g ++ c) st). split_and!; [done..|].
    apply (IH (mkScript rest (g ++ c) st)); [done|cbn [inbox]; lia].
  - exists (ztake max c), (zdrop max c ++ concat rest), (mkScript (zdrop max c :: rest) (g ++ ztake max c) st).
    unfold zlen in Hlt. split_and!; [done| |cbn [concat]; by rewrite app_assoc, ztake_zdrop|].
    + intros E. apply (f_equal length) in E. unfold ztake in E. rewrite length_take in E. simpl in E. lia.
    + apply (IH (mkScript (zdrop max c :: rest) (g ++ ztake max c) st)); cbn [inbox].
      * constructor; [|done]. intros E. apply (f_equal length) in E. unfold zdrop in E. rewrite length_drop in E. simpl in E. lia.
      * simpl. rewrite length_app. unfold zdrop. rewrite length_drop. lia.
Qed.

(** Two packets of one message, arriving in three pieces. *)
Definition sample_inbox : list bytes :=
  [bs [4; 0; 0; 10; 0; 0; 1; 0; 65]; bs [66; 4; 1; 0]; bs [9; 0; 0; 2; 0; 67]].
Definition sample_socket : @TdsSocket script_transport :=
  @set_conn script_transport true true (@TdsSocket_new script_transport (mkScript sample_inbox [] [])).

Lemma sample_socket_ok : @socket_ok script_transport sample_socket.
Proof. constructor; vm_compute; repeat split; discriminate. Qed.

Lemma NextPacket_total_witness :
  exists o s', @NextPacket script_transport 1000 sample_socket = Ok (o, s') /\ o = Some (bs [4; 0; 0; 10; 0; 0; 1; 0; 65; 66]).
Proof.
  destruct (@NextPacket_total script_transport 1000 sample_socket sample_socket_ok) as [(o & s' & E & _) _].
  exists o, s'. split; [exact E|].
  assert (Hc : match @NextPacket script_transport 1000 sample_socket with
               | Ok (o, _) => bool_decide (o = Some (bs [4; 0; 0; 10; 0; 0; 1; 0; 65; 66])) | _ => false end = true)
    by (vm_compute; reflexivity).
  rewrite E in Hc. by apply bool_decide_eq_true in Hc.
Defined.

Lemma ReceiveMessage_stream_witness :
  exists s', @ReceiveMessage script_transport 30 1000 sample_socket = Some (Ok (AMessage (bs [65; 66; 67]), s')).
Proof.
  destruct (@ReceiveMessage_stream script_transport 30 1000 sample_socket sample_socket_ok) as [_ H].
  destruct (H 19%nat (concat sample_inbox) (bs [65; 66; 67]) []) as (s' & _ & _ & E & _).
  - reflexivity.
  - apply script_supplies; [repeat constructor; discriminate|vm_compute; lia].
  - refine (sm_more _ (bs [4; 0; 0; 10; 0; 0; 1; 0; 65; 66]) (bs [4; 1; 0; 9; 0; 0; 2; 0; 67]) (bs [67]) [] _ _ _ _);
      try (vm_compute; first [reflexivity|discriminate]).
    refine (sm_last _ (bs [4; 1; 0; 9; 0; 0; 2; 0; 67]) [] _ _ _); vm_compute; first [reflexivity|discriminate].
  - vm_compute. reflexivity.
  - by exists s'.
Defined.

Lemma Send_in_order_witness :
  exists s', @Send script_transport 5 (bs [1; 2; 3; 4]) sample_socket = Some (true, s') /\ sent (@net_ script_transport s') = bs [1; 2; 3; 4].
Proof.
  assert (H : match @Send script_transport 5 (bs [1; 2; 3; 4]) sample_socket with Some (true, _) => true | _ => false end = true)
    by (vm_compute; reflexivity).
  destruct (@Send script_transport 5 (bs [1; 2; 3; 4]) sample_socket) as [[[] s']|] eqn:E; try discriminate H.
  exists s'. split; [reflexivity|].
  destruct (@Send_in_order script_transport 5 (bs [1; 2; 3; 4]) sample_socket s' true E) as (k & Ha & Hk).
  rewrite (Hk eq_refl) in Ha. exact Ha.
Defined.
