(* ===== verification/ColumnMetadata.v ===== *)
(** * Column metadata (src/src/tds/tds_column_metadata.cpp)

    [ColumnMetadata] is the struct; the functions of [ColumnMetadataParser] take
    the buffer ([data], its length is [zlen data]) and an offset, and return
    [more] where the code returns [false] (incomplete input). [Parse] returns the
    [columns] vector it leaves behind with its outcome, because the caller's
    vector is cleared and refilled even when the input is incomplete or the call
    throws. [type_info], [column_wire] and [columns_wire] are the grammar of the
    token ([MS-TDS] COLMETADATA); the main results are that [Parse] accepts
    exactly this grammar, reads only inside its buffer, and gives the same answer
    on a longer buffer, so a token split over several packets parses as a whole. *)

From S2P Require Import Prelude TdsTypes Utf16.

Record ColumnMetadata : Type := mkColumnMetadata {
  name : bytes;
  type_id : Z;
  max_length : Z;
  precision : Z;
  scale : Z;
  collation : Z;
  flags : Z
}.

#[export] Instance ColumnMetadata_eq_dec : EqDecision ColumnMetadata.
Proof. solve_decision. Defined.

(** [ColumnMetadata column;]: an empty name and fields not yet assigned. *)
Definition new_column : ColumnMetadata := mkColumnMetadata [] 0 0 0 0 0 0.

Definition set_name n c := mkColumnMetadata n (type_id c) (max_length c) (precision c) (scale c) (collation c) (flags c).
Definition set_flags f c := mkColumnMetadata (name c) (type_id c) (max_length c) (precision c) (scale c) (collation c) f.
Definition set_type t ml p s coll c := mkColumnMetadata (name c) t ml p s coll (flags c).

Definition IsNullable (c : ColumnMetadata) : bool := negb (Z.land (flags c) COL_FLAG_NULLABLE =? 0).
Definition IsIdentity (c : ColumnMetadata) : bool := negb (Z.land (flags c) COL_FLAG_IDENTITY =? 0).
Definition IsComputed (c : ColumnMetadata) : bool := negb (Z.land (flags c) COL_FLAG_COMPUTED =? 0).

(** The [switch] of [GetTypeName] as a table. *)
Definition type_names : list (Z * string) :=
  [(TDS_TYPE_NULL, "NULL"); (TDS_TYPE_TINYINT, "TINYINT"); (TDS_TYPE_BIT, "BIT");
   (TDS_TYPE_SMALLINT, "SMALLINT"); (TDS_TYPE_INT, "INT"); (TDS_TYPE_BIGINT, "BIGINT");
   (TDS_TYPE_REAL, "REAL"); (TDS_TYPE_FLOAT, "FLOAT"); (TDS_TYPE_MONEY, "MONEY");
   (TDS_TYPE_SMALLMONEY, "SMALLMONEY"); (TDS_TYPE_DATETIME, "DATETIME");
   (TDS_TYPE_SMALLDATETIME, "SMALLDATETIME"); (TDS_TYPE_INTN, "INTN"); (TDS_TYPE_BITN, "BITN");
   (TDS_TYPE_FLOATN, "FLOATN"); (TDS_TYPE_MONEYN, "MONEYN"); (TDS_TYPE_DATETIMEN, "DATETIMEN");
   (TDS_TYPE_DECIMAL, "DECIMAL"); (TDS_TYPE_NUMERIC, "NUMERIC");
   (TDS_TYPE_UNIQUEIDENTIFIER, "UNIQUEIDENTIFIER"); (TDS_TYPE_BIGCHAR, "CHAR");
   (TDS_TYPE_BIGVARCHAR, "VARCHAR"); (TDS_TYPE_NCHAR, "NCHAR"); (TDS_TYPE_NVARCHAR, "NVARCHAR");
   (TDS_TYPE_BIGBINARY, "BINARY"); (TDS_TYPE_BIGVARBINARY, "VARBINARY"); (TDS_TYPE_DATE, "DATE");
   (TDS_TYPE_TIME, "TIME"); (TDS_TYPE_DATETIME2, "DATETIME2");
   (TDS_TYPE_DATETIMEOFFSET, "DATETIMEOFFSET"); (TDS_TYPE_XML, "XML"); (TDS_TYPE_UDT, "UDT");
   (TDS_TYPE_SQL_VARIANT, "SQL_VARIANT"); (TDS_TYPE_IMAGE, "IMAGE"); (TDS_TYPE_TEXT, "TEXT");
   (TDS_TYPE_NTEXT, "NTEXT")].

(** [std::to_string] of an unsigned value: decimal digits. *)
Definition to_string (n : Z) : string := pretty.pretty (Z.to_N n).

Definition GetTypeName (c : ColumnMetadata) : string :=
  match list_find (fun p => p.1 = type_id c) type_names with
  | Some (_, (_, s)) => s
  | None => "UNKNOWN(0x" +:+ to_string (type_id c) +:+ ")"
  end.

Definition string_binary_types : list Z :=
  [TDS_TYPE_BIGCHAR; TDS_TYPE_BIGVARCHAR; TDS_TYPE_NCHAR; TDS_TYPE_NVARCHAR;
   TDS_TYPE_BIGBINARY; TDS_TYPE_BIGVARBINARY].

Definition IsVariableLength (c : ColumnMetadata) : bool := is_one_of (type_id c) string_binary_types.

Definition nullable_types : list Z :=
  [TDS_TYPE_INTN; TDS_TYPE_BITN; TDS_TYPE_FLOATN; TDS_TYPE_MONEYN; TDS_TYPE_DATETIMEN].

Definition IsNullableVariant (c : ColumnMetadata) : bool := is_one_of (type_id c) nullable_types.

Definition IsPLPType (c : ColumnMetadata) : bool :=
  if type_id c =? TDS_TYPE_XML then true
  else if negb (max_length c =? 0xFFFF) then false
  else is_one_of (type_id c) string_binary_types.

Definition GetFixedSize (c : ColumnMetadata) : Z :=
  if is_one_of (type_id c) [TDS_TYPE_TINYINT; TDS_TYPE_BIT] then 1
  else if type_id c =? TDS_TYPE_SMALLINT then 2
  else if is_one_of (type_id c) [TDS_TYPE_INT; TDS_TYPE_REAL; TDS_TYPE_SMALLMONEY;
                                 TDS_TYPE_SMALLDATETIME] then 4
  else if is_one_of (type_id c) [TDS_TYPE_BIGINT; TDS_TYPE_FLOAT; TDS_TYPE_MONEY;
                                 TDS_TYPE_DATETIME] then 8
  else if type_id c =? TDS_TYPE_DATE then 3
  else 0.

(** ** The parser *)

Definition fixed_types : list Z :=
  [TDS_TYPE_NULL; TDS_TYPE_TINYINT; TDS_TYPE_BIT; TDS_TYPE_SMALLINT; TDS_TYPE_INT;
   TDS_TYPE_BIGINT; TDS_TYPE_REAL; TDS_TYPE_FLOAT; TDS_TYPE_MONEY; TDS_TYPE_SMALLMONEY;
   TDS_TYPE_DATETIME; TDS_TYPE_SMALLDATETIME].
Definition decimal_types : list Z := [TDS_TYPE_DECIMAL; TDS_TYPE_NUMERIC].
Definition string_types : list Z :=
  [TDS_TYPE_BIGCHAR; TDS_TYPE_BIGVARCHAR; TDS_TYPE_NCHAR; TDS_TYPE_NVARCHAR].
Definition binary_types : list Z := [TDS_TYPE_BIGBINARY; TDS_TYPE_BIGVARBINARY].
Definition time_types : list Z := [TDS_TYPE_TIME; TDS_TYPE_DATETIME2; TDS_TYPE_DATETIMEOFFSET].
Definition lob_types : list Z := [TDS_TYPE_TEXT; TDS_TYPE_NTEXT; TDS_TYPE_IMAGE].

(** [for (int i = 0; i < n; i++)] over B_VARCHARs that are stepped over. *)
Fixpoint skip_b_varchars (n : nat) (data : bytes) (offset : Z) : res (option Z) :=
  match n with
  | O => Ok (Some offset)
  | S n =>
      if zlen data <=? offset then more else
      char_count ← get8 data offset;
      let offset := offset + 1 in
      let byte_len := char_count * 2 in
      if zlen data <? offset + byte_len then more else
      skip_b_varchars n data (offset + byte_len)
  end.

(** The same over US_VARCHARs. *)
Fixpoint skip_us_varchars (n : nat) (data : bytes) (offset : Z) : res (option Z) :=
  match n with
  | O => Ok (Some offset)
  | S n =>
      if zlen data <? offset + 2 then more else
      char_count ← get16le data offset;
      let offset := offset + 2 in
      let byte_len := char_count * 2 in
      if zlen data <? offset + byte_len then more else
      skip_us_varchars n data (offset + byte_len)
  end.

Definition ParseTypeInfo (data : bytes) (offset : Z) (column : ColumnMetadata)
    : res (option (Z * ColumnMetadata)) :=
  if zlen data <=? offset then more else
  t ← get8 data offset;
  let offset := offset + 1 in
  if is_one_of t fixed_types then
    Ok (Some (offset, set_type t 0 0 0 0 column))
  else if is_one_of t nullable_types then
    if zlen data <=? offset then more else
    ml ← get8 data offset;
    Ok (Some (offset + 1, set_type t ml 0 0 0 column))
  else if is_one_of t decimal_types then
    if zlen data <? offset + 3 then more else
    ml ← get8 data offset;
    p ← get8 data (offset + 1);
    s ← get8 data (offset + 2);
    Ok (Some (offset + 3, set_type t ml p s 0 column))
  else if t =? TDS_TYPE_UNIQUEIDENTIFIER then
    if zlen data <=? offset then more else
    ml ← get8 data offset;
    Ok (Some (offset + 1, set_type t ml 0 0 0 column))
  else if is_one_of t string_types then
    if zlen data <? offset + 7 then more else
    ml ← get16le data offset;
    let offset := offset + 2 in
    coll ← get32le data offset;
    Ok (Some (offset + 5, set_type t ml 0 0 coll column))
  else if is_one_of t binary_types then
    if zlen data <? offset + 2 then more else
    ml ← get16le data offset;
    Ok (Some (offset + 2, set_type t ml 0 0 0 column))
  else if t =? TDS_TYPE_DATE then
    Ok (Some (offset, set_type t 0 0 0 0 column))
  else if is_one_of t time_types then
    if zlen data <=? offset then more else
    s ← get8 data offset;
    if 7 <? s then Exn (ScaleOutOfRange (name column) s) else
    Ok (Some (offset + 1, set_type t 0 0 s 0 column))
  else if t =? TDS_TYPE_XML then
    if zlen data <=? offset then more else
    schema_present ← get8 data offset;
    let offset := offset + 1 in
    offset <~ (if schema_present =? 0 then Ok (Some offset)
               else offset <~ skip_b_varchars 2 data offset; skip_us_varchars 1 data offset);
    Ok (Some (offset, set_type t 0xFFFF 0 0 0 column))
  else if is_one_of t lob_types then
    if zlen data <? offset + 4 then more else
    let offset := offset + 4 in
    '(offset, coll) <~
      (if t =? TDS_TYPE_IMAGE then Ok (Some (offset, 0))
       else if zlen data <? offset + 5 then more else
       coll ← get32le data offset; Ok (Some (offset + 5, coll)));
    if zlen data <=? offset then more else
    num_parts ← get8 data offset;
    offset <~ skip_us_varchars (Z.to_nat num_parts) data (offset + 1);
    Ok (Some (offset, set_type t 0xFFFF 0 0 coll column))
  else Exn (UnsupportedSqlType t).

Section Parser.
Context `{Simdutf}.

Definition ParseColumnName (data : bytes) (offset : Z) : res (option (Z * bytes)) :=
  if zlen data <=? offset then more else
  char_count ← get8 data offset;
  let offset := offset + 1 in
  let byte_length := char_count * 2 in
  if zlen data <? offset + byte_length then more else
  chars ← slice data offset byte_length;
  Ok (Some (offset + byte_length, Utf16LEDecode chars)).

(** [data] is the rest of the token from the column on; [offset] the caller's
    position, advanced by what the column took. *)
Definition ParseColumn (data : bytes) (offset : Z) (column : ColumnMetadata)
    : res (option (Z * ColumnMetadata)) :=
  if zlen data <? 4 then more else
  let local_offset := 4 in
  if zlen data <? local_offset + 2 then more else
  fl ← get16le data local_offset;
  let column := set_flags fl column in
  let local_offset := local_offset + 2 in
  '(type_offset, column) <~ ParseTypeInfo data local_offset column;
  '(local_offset, nm) <~ ParseColumnName data type_offset;
  Ok (Some (offset + local_offset, set_name nm column)).

(** The [for] over [count] columns: the vector built so far and the outcome. *)
Fixpoint Parse_loop (count : nat) (data : bytes) (offset : Z) (columns : list ColumnMetadata)
    : list ColumnMetadata * res (option Z) :=
  match count with
  | O => (columns, Ok (Some offset))
  | S count =>
      match ParseColumn (zdrop offset data) offset new_column with
      | Ok (Some (offset, column)) => Parse_loop count data offset (columns ++ [column])
      | Ok None => (columns, more)
      | Exn e => (columns, Exn e)
      | Oob => (columns, Oob)
      end
  end.

(** The [columns] vector after the call, and its outcome: [Ok (Some n)] is
    [true] with [bytes_consumed = n]. *)
Definition Parse (data : bytes) : list ColumnMetadata * res (option Z) :=
  if zlen data <? 2 then ([], more) else
  match get16le data 0 with
  | Ok count =>
      if count =? 0xFFFF then ([], Ok (Some 2))
      else Parse_loop (Z.to_nat count) data 2 []
  | Exn e => ([], Exn e)
  | Oob => ([], Oob)
  end.

End Parser.

(** ** The grammar of the token *)

Inductive b_varchar : bytes -> bytes -> Prop :=
  | b_varchar_intro n chars : zlen chars = 2 * b2z n -> b_varchar chars (n :: chars).

Inductive us_varchar : bytes -> bytes -> Prop :=
  | us_varchar_intro lo hi chars :
      zlen chars = 2 * (b2z lo + 256 * b2z hi) -> us_varchar chars (lo :: hi :: chars).

Inductive us_varchars : nat -> bytes -> Prop :=
  | us_varchars_nil : us_varchars 0 []
  | us_varchars_cons n chars b r :
      us_varchar chars b -> us_varchars n r -> us_varchars (S n) (b ++ r).

Inductive b_varchars : nat -> bytes -> Prop :=
  | b_varchars_nil : b_varchars 0 []
  | b_varchars_cons n chars b r :
      b_varchar chars b -> b_varchars n r -> b_varchars (S n) (b ++ r).

(** [type_info t ml p s coll w]: [w] is what follows the type byte [t] in a
    TYPE_INFO that declares length [ml], precision [p], scale [s], collation
    [coll]. *)
Inductive type_info : Z -> Z -> Z -> Z -> Z -> bytes -> Prop :=
  | ti_fixed t : is_one_of t fixed_types = true -> type_info t 0 0 0 0 []
  | ti_nullable t n : is_one_of t nullable_types = true -> type_info t (b2z n) 0 0 0 [n]
  | ti_decimal t n p s :
      is_one_of t decimal_types = true -> type_info t (b2z n) (b2z p) (b2z s) 0 [n; p; s]
  | ti_guid t n : is_one_of t [TDS_TYPE_UNIQUEIDENTIFIER] = true -> type_info t (b2z n) 0 0 0 [n]
  | ti_string t l0 l1 c0 c1 c2 c3 sort :
      is_one_of t string_types = true ->
      type_info t (le16 l0 l1) 0 0 (le32 c0 c1 c2 c3) [l0; l1; c0; c1; c2; c3; sort]
  | ti_binary t l0 l1 : is_one_of t binary_types = true -> type_info t (le16 l0 l1) 0 0 0 [l0; l1]
  | ti_date t : is_one_of t [TDS_TYPE_DATE] = true -> type_info t 0 0 0 0 []
  | ti_time t s : is_one_of t time_types = true -> b2z s <= 7 -> type_info t 0 0 (b2z s) 0 [s]
  | ti_xml t : is_one_of t [TDS_TYPE_XML] = true -> type_info t 0xFFFF 0 0 0 [Byte.x00]
  | ti_xml_schema t p db_and_owner coll :
      is_one_of t [TDS_TYPE_XML] = true ->
      b2z p <> 0 -> b_varchars 2 db_and_owner -> us_varchars 1 coll ->
      type_info t 0xFFFF 0 0 0 (p :: db_and_owner ++ coll)
  | ti_image t len num_parts parts :
      is_one_of t [TDS_TYPE_IMAGE] = true ->
      zlen len = 4 -> us_varchars (Z.to_nat (b2z num_parts)) parts ->
      type_info t 0xFFFF 0 0 0 (len ++ num_parts :: parts)
  | ti_text t len c0 c1 c2 c3 sort num_parts parts :
      is_one_of t [TDS_TYPE_TEXT; TDS_TYPE_NTEXT] = true ->
      zlen len = 4 -> us_varchars (Z.to_nat (b2z num_parts)) parts ->
      type_info t 0xFFFF 0 0 (le32 c0 c1 c2 c3)
                (len ++ [c0; c1; c2; c3; sort] ++ num_parts :: parts).

Inductive column_wire `{Simdutf} : ColumnMetadata -> bytes -> Prop :=
  | column_wire_intro user_type f0 f1 t ml p s coll info chars nm :
      zlen user_type = 4 -> type_info (b2z t) ml p s coll info -> b_varchar chars nm ->
      column_wire (mkColumnMetadata (Utf16LEDecode chars) (b2z t) ml p s coll (le16 f0 f1))
                  (user_type ++ [f0; f1] ++ [t] ++ info ++ nm).

Inductive columns_wire `{Simdutf} : list ColumnMetadata -> bytes -> Prop :=
  | columns_wire_nil : columns_wire [] []
  | columns_wire_cons c w cs ws :
      column_wire c w -> columns_wire cs ws -> columns_wire (c :: cs) (w ++ ws).

(** COLMETADATA without its token byte. *)
Inductive colmetadata_wire `{Simdutf} : list ColumnMetadata -> bytes -> Prop :=
  | colmetadata_none : colmetadata_wire [] [Byte.xff; Byte.xff]
  | colmetadata_columns n0 n1 cs w :
      zlen cs = le16 n0 n1 -> le16 n0 n1 <> 0xFFFF -> columns_wire cs w ->
      colmetadata_wire cs (n0 :: n1 :: w).

(** ** Reads stay inside the buffer *)

Lemma skip_b_varchars_safe n data offset :
  0 <= offset <= zlen data ->
  holds_some (skip_b_varchars n data offset) (fun o => offset <= o <= zlen data).
Proof.
  revert offset. induction n as [|n IH]; intros offset Ho; simpl.
  - safe_steps. lia.
  - safe_steps. safe_use IH. lia.
Qed.

Lemma skip_us_varchars_safe n data offset :
  0 <= offset <= zlen data ->
  holds_some (skip_us_varchars n data offset) (fun o => offset <= o <= zlen data).
Proof.
  revert offset. induction n as [|n IH]; intros offset Ho; simpl.
  - safe_steps. lia.
  - safe_steps. safe_use IH. lia.
Qed.

Lemma ParseTypeInfo_safe data offset c :
  0 <= offset <= zlen data ->
  holds_some (ParseTypeInfo data offset c) (fun '(o, _) => offset < o <= zlen data).
Proof.
  intros Ho. unfold ParseTypeInfo. safe_steps; try lia.
  - safe_use skip_b_varchars_safe. safe_use skip_us_varchars_safe. lia.
  - safe_use skip_us_varchars_safe. lia.
  - safe_use skip_us_varchars_safe. lia.
Qed.

(** ** A longer buffer gives the same answer *)

Lemma skip_b_varchars_extends n data e offset :
  extends_some (skip_b_varchars n data offset) (skip_b_varchars n (data ++ e) offset).
Proof.
  pose proof (zlen_nonneg e).
  revert offset. induction n as [|n IH]; intros offset; cbn [skip_b_varchars skip_us_varchars]; extends_steps. apply IH.
Qed.

Lemma skip_us_varchars_extends n data e offset :
  extends_some (skip_us_varchars n data offset) (skip_us_varchars n (data ++ e) offset).
Proof.
  pose proof (zlen_nonneg e).
  revert offset. induction n as [|n IH]; intros offset; cbn [skip_b_varchars skip_us_varchars]; extends_steps. apply IH.
Qed.
#[local] Hint Resolve skip_b_varchars_extends skip_us_varchars_extends : tds.

Lemma ParseTypeInfo_extends data e offset c :
  extends_some (ParseTypeInfo data offset c) (ParseTypeInfo (data ++ e) offset c).
Proof.
  pose proof (zlen_nonneg e). unfold ParseTypeInfo. extends_steps; auto with tds.
  destruct a0. extends_steps. auto with tds.
Qed.

(** ** Soundness of the parser for the grammar *)

Lemma skip_b_varchars_sound n data off off' r :
  cursor data off r -> skip_b_varchars n data off = Ok (Some off') ->
  exists w r', r = w ++ r' /\ cursor data off' r' /\ b_varchars n w.
Proof.
  revert off r. induction n as [|n IH]; intros off r Hc H; cbn [skip_b_varchars] in H.
  - injection H as <-. exists [], r. repeat split; [apply Hc..|constructor].
  - repeat some_step H.
    destruct (cursor_get8_inv _ _ _ _ Hc H0) as (b & r1 & -> & -> & Hc1).
    pose proof (b2z_range b).
    destruct (cursor_skip data _ _ (b2z b * 2) Hc1) as (chars & r2 & -> & El & Hc2 & _); [lia..|].
    destruct (IH _ _ Hc2 H) as (w & r' & -> & Hc' & Hw).
    exists ((b :: chars) ++ w), r'. split; [by rewrite <- app_assoc|]. split; [done|].
    econstructor; [constructor; lia|done].
Qed.

Lemma skip_us_varchars_sound n data off off' r :
  cursor data off r -> skip_us_varchars n data off = Ok (Some off') ->
  exists w r', r = w ++ r' /\ cursor data off' r' /\ us_varchars n w.
Proof.
  revert off r. induction n as [|n IH]; intros off r Hc H; cbn [skip_us_varchars] in H.
  - injection H as <-. exists [], r. repeat split; [apply Hc..|constructor].
  - repeat some_step H.
    destruct (cursor_get16le_inv _ _ _ _ Hc H0) as (b0 & b1 & r1 & -> & -> & Hc1).
    pose proof (le16_range b0 b1).
    destruct (cursor_skip data _ _ (le16 b0 b1 * 2) Hc1) as (chars & r2 & -> & El & Hc2 & _); [lia..|].
    destruct (IH _ _ Hc2 H) as (w & r' & -> & Hc' & Hw).
    exists ((b0 :: b1 :: chars) ++ w), r'. split; [by rewrite <- app_assoc|]. split; [done|].
    econstructor; [constructor; unfold le16 in *; lia|done].
Qed.

(** What [ParseTypeInfo] accepted, as a statement about the bytes it read. *)
Inductive type_info_at (data : bytes) (off' : Z) (c : ColumnMetadata) : bytes -> ColumnMetadata -> Prop :=
  | type_info_at_intro t ml p s coll info r' r c' :
      type_info (b2z t) ml p s coll info -> r = (t :: info) ++ r' -> cursor data off' r' ->
      c' = set_type (b2z t) ml p s coll c -> type_info_at data off' c r c'.

Lemma type_info_at_inv data off' c r c' :
  type_info_at data off' c r c' ->
  exists t ml p s coll info r',
    r = (t :: info) ++ r' /\ cursor data off' r' /\ type_info (b2z t) ml p s coll info /\
    c' = set_type (b2z t) ml p s coll c.
Proof. intros []. eauto 12. Qed.

Ltac accept K :=
  simplify_eq;
  repeat first [rewrite app_comm_cons | rewrite app_assoc];
  eapply type_info_at_intro;
    [ eapply K; shelve
    | simpl; reflexivity
    | eapply cursor_eq; [|eassumption]; lia
    | reflexivity ].

Ltac skip_read :=
  match goal with
  | Hc : cursor ?d ?o _, H : skip_us_varchars _ ?d ?o = Ok _ |- _ =>
      destruct (skip_us_varchars_sound _ _ _ _ _ Hc H) as (? & ? & -> & ? & ?); clear H
  | Hc : cursor ?d ?o _, H : skip_b_varchars _ ?d ?o = Ok _ |- _ =>
      destruct (skip_b_varchars_sound _ _ _ _ _ Hc H) as (? & ? & -> & ? & ?); clear H
  end.

Lemma eqb_is_one_of x t : (x =? t) = true -> is_one_of x [t] = true.
Proof. unfold is_one_of. simpl. by intros ->. Qed.

Lemma is_one_of_single x t : is_one_of x [t] = true -> x = t.
Proof. unfold is_one_of. simpl. intros H. lia. Qed.

Lemma text_of_lob t :
  is_one_of t lob_types = true -> (t =? TDS_TYPE_IMAGE) = false ->
  is_one_of t [TDS_TYPE_TEXT; TDS_TYPE_NTEXT] = true.
Proof.
  unfold is_one_of, lob_types. cbn [existsb]. intros H E. rewrite E in H.
  by rewrite !orb_false_r in H |- *.
Qed.

Lemma ParseTypeInfo_sound data off off' r c c' :
  cursor data off r -> ParseTypeInfo data off c = Ok (Some (off', c')) ->
  type_info_at data off' c r c'.
Proof.
  intros Hc H. unfold ParseTypeInfo in H. repeat some_step H. cursor_read.
  destruct (is_one_of _ fixed_types) eqn:E1 in H; [unshelve accept ti_fixed; done|].
  destruct (is_one_of _ nullable_types) eqn:E2 in H.
  { repeat some_step H. repeat cursor_read. unshelve accept ti_nullable; done. }
  destruct (is_one_of _ decimal_types) eqn:E3 in H.
  { repeat some_step H. replace (off + 1 + 2) with (off + 1 + 1 + 1) in * by lia.
    repeat cursor_read. unshelve accept ti_decimal; done. }
  destruct (_ =? TDS_TYPE_UNIQUEIDENTIFIER) eqn:E4 in H.
  { repeat some_step H. repeat cursor_read. apply eqb_is_one_of in E4. unshelve accept ti_guid; done. }
  destruct (is_one_of _ string_types) eqn:E5 in H.
  { repeat some_step H. repeat cursor_read. cursor_step. unshelve accept ti_string; done. }
  destruct (is_one_of _ binary_types) eqn:E6 in H.
  { repeat some_step H. repeat cursor_read. unshelve accept ti_binary; done. }
  destruct (_ =? TDS_TYPE_DATE) eqn:E7 in H.
  { apply eqb_is_one_of in E7. unshelve accept ti_date; done. }
  destruct (is_one_of _ time_types) eqn:E8 in H.
  { repeat some_step H. repeat cursor_read. destruct (_ <? _) eqn:E9 in H; [done|].
    unshelve accept ti_time; [done|lia]. }
  destruct (_ =? TDS_TYPE_XML) eqn:E9 in H.
  { repeat some_step H. repeat cursor_read. apply eqb_is_one_of in E9. simplify_eq.
    destruct (_ =? 0) eqn:E10.
    - apply Z.eqb_eq, (b2z_inj _ Byte.x00) in E10 as ->. unshelve accept ti_xml; done.
    - some_steps. repeat skip_read. unshelve accept ti_xml_schema; [done|lia|done..]. }
  destruct (is_one_of _ lob_types) eqn:E10 in H; [|done].
  some_steps. match goal with p : (Z * Z)%type |- _ => destruct p end. some_steps.
  cursor_skip_n 4.
  destruct (_ =? TDS_TYPE_IMAGE) eqn:E11 in *.
  - simplify_eq. repeat cursor_read. repeat skip_read. apply eqb_is_one_of in E11.
    unshelve accept ti_image; done.
  - some_steps. simplify_eq. cursor_read. cursor_step.
    replace (off + 1 + 4 + 4 + 1) with (off + 1 + 4 + 5) in * by lia.
    repeat cursor_read. repeat skip_read. unshelve accept ti_text; [by apply text_of_lob|done..].
Qed.

(** ** Completeness of the parser for the grammar *)

Lemma skip_b_varchars_complete n data off w r :
  b_varchars n w -> cursor data off (w ++ r) ->
  skip_b_varchars n data off = Ok (Some (off + zlen w)).
Proof.
  intros Hw. revert off. induction Hw as [|n chars b w Hb _ IH]; intros off Hc.
  - cbn. do 2 f_equal. rewrite zlen_nil. lia.
  - destruct Hb as [c chars El]. rewrite <- app_assoc in Hc.
    pose proof (cursor_len _ _ _ Hc) as Hl. pose proof (cursor_app _ _ _ _ Hc) as Hc'.
    apply IH in Hc'. apply cursor_cons in Hc as [E _]. autorewrite with zlen in *.
    pose proof (zlen_nonneg w). pose proof (zlen_nonneg r). pose proof (b2z_range c).
    cbn [skip_b_varchars]. replace (zlen data <=? off) with false by lia. rewrite E. simpl.
    replace (_ <? _) with false by lia.
    replace (off + 1 + b2z c * 2) with (off + (1 + zlen chars)) by lia. rewrite Hc'. do 2 f_equal. lia.
Qed.

Lemma skip_us_varchars_complete n data off w r :
  us_varchars n w -> cursor data off (w ++ r) ->
  skip_us_varchars n data off = Ok (Some (off + zlen w)).
Proof.
  intros Hw. revert off. induction Hw as [|n chars b w Hb _ IH]; intros off Hc.
  - cbn. do 2 f_equal. rewrite zlen_nil. lia.
  - destruct Hb as [lo hi chars El]. rewrite <- app_assoc in Hc.
    pose proof (cursor_len _ _ _ Hc) as Hl. pose proof (cursor_app _ _ _ _ Hc) as Hc'.
    apply IH in Hc'. apply cursor_get16le in Hc as [E _]. autorewrite with zlen in *.
    pose proof (zlen_nonneg w). pose proof (zlen_nonneg r). pose proof (le16_range lo hi).
    unfold le16 in *. pose proof (zlen_nonneg chars).
    cbn [skip_us_varchars]. replace (zlen data <? off + 2) with false by lia. rewrite E. cbv zeta. simpl.
    replace (_ <? _) with false by lia.
    replace (off + 2 + _ * 2) with (off + (1 + (1 + zlen chars))) by lia. rewrite Hc'. do 2 f_equal. lia.
Qed.

Ltac decide_types :=
  repeat match goal with
  | |- context [is_one_of ?x ?l] =>
      let b := eval vm_compute in (is_one_of x l) in change (is_one_of x l) with b
  | |- context [?x =? ?y] =>
      let b := eval vm_compute in (x =? y) in
      match b with true => idtac | false => idtac end; change (x =? y) with b
  end; cbv iota.

(** Replace a type known to be in a list by each of the list's elements. *)
Ltac by_type H :=
  apply is_one_of_elem in H;
  repeat (apply elem_of_cons in H as [H|H]); [..|by apply elem_of_nil in H];
  subst; decide_types.

Lemma ParseTypeInfo_complete data off t ml p s coll info r c :
  type_info (b2z t) ml p s coll info -> cursor data off (t :: info ++ r) ->
  ParseTypeInfo data off c = Ok (Some (off + 1 + zlen info, set_type (b2z t) ml p s coll c)).
Proof.
  intros Hi Hc. unfold ParseTypeInfo. cbv zeta.
  pose proof (cursor_len _ _ _ Hc) as Hl. pose proof (zlen_nonneg info). pose proof (zlen_nonneg r).
  autorewrite with zlen in Hl. replace (zlen data <=? off) with false by lia.
  destruct (cursor_cons _ _ _ _ Hc) as [E Hc1]. rewrite E. cbn [mbind res_bind].
  clear E Hc. revert Hc1 Hl. generalize dependent (b2z t). clear t.
  intros t Hi Hc Hl.
  destruct Hi; autorewrite with zlen in *;
    match goal with H : is_one_of _ _ = true |- _ => by_type H end; cursor_eval;
    try (do 2 f_equal; f_equal; lia).
  1-2: replace (off + 1 + 2) with (off + 1 + 1 + 1) by lia; cursor_eval; do 2 f_equal; f_equal; lia.
  1-3: replace (7 <? b2z s) with false by lia; do 2 f_equal; f_equal; lia.
  { pose proof (zlen_nonneg db_and_owner). pose proof (zlen_nonneg coll). cursor_eval.
    replace (b2z p =? 0) with false by lia. simpl app in Hc. apply cursor_cons in Hc as [_ Hc].
    rewrite <- app_assoc in Hc. apply cursor_app in Hc as Hc'.
    erewrite skip_b_varchars_complete, obind_Ok_Some by done.
    erewrite skip_us_varchars_complete, obind_Ok_Some by done. do 2 f_equal. f_equal. lia. }
  all: pose proof (zlen_nonneg parts); rewrite <- ?app_assoc in Hc; apply cursor_app in Hc as Hc';
    replace (zlen len) with 4 in * by lia; simpl app in Hc'; cursor_eval;
    rewrite ?obind_Ok_Some; cbv beta zeta iota.
  { cursor_eval. erewrite skip_us_varchars_complete, obind_Ok_Some by done. do 2 f_equal. f_equal. lia. }
  all: match goal with H : cursor _ (?o + 4 + 4) _ |- _ => apply cursor_cons in H as [_ H];
         replace (o + 4 + 4 + 1) with (o + 4 + 5) in H by lia end;
    cursor_eval;
    erewrite skip_us_varchars_complete, obind_Ok_Some by done; do 2 f_equal; f_equal; lia.
Qed.

(** ** Columns *)

Section Columns.
Context {S : Simdutf}.

Lemma ParseColumnName_safe data offset :
  0 <= offset <= zlen data ->
  holds_some (ParseColumnName data offset) (fun '(o, _) => offset < o <= zlen data).
Proof. intros. unfold ParseColumnName. safe_steps. lia. Qed.

Lemma ParseColumn_safe data offset c :
  holds_some (ParseColumn data offset c) (fun '(o, _) => offset < o <= offset + zlen data).
Proof.
  unfold ParseColumn. safe_steps.
  safe_use ParseTypeInfo_safe. destruct a. safe_steps. safe_use ParseColumnName_safe.
  destruct a. safe_steps. lia.
Qed.

Lemma ParseColumnName_extends data e offset :
  extends_some (ParseColumnName data offset) (ParseColumnName (data ++ e) offset).
Proof. pose proof (zlen_nonneg e). unfold ParseColumnName. extends_steps. Qed.

Lemma ParseColumn_extends data e offset c :
  extends_some (ParseColumn data offset c) (ParseColumn (data ++ e) offset c).
Proof.
  pose proof (zlen_nonneg e). unfold ParseColumn. extends_steps.
  - apply ParseTypeInfo_extends.
  - destruct a0. extends_steps. apply ParseColumnName_extends.
Qed.

Lemma ParseColumnName_sound data off off' nm r :
  cursor data off r -> ParseColumnName data off = Ok (Some (off', nm)) ->
  exists w chars r', r = w ++ r' /\ cursor data off' r' /\ b_varchar chars w /\
    nm = Utf16LEDecode chars.
Proof.
  intros Hc H. unfold ParseColumnName in H. some_steps. cursor_read.
  match goal with b : byte |- _ => pose proof (b2z_range b);
    edestruct (cursor_skip data (off + 1)) with (n := b2z b * 2)
      as (chars & r' & Er & El & Hc' & Es); [eassumption|lia..|] end.
  subst. simplify_eq. eexists (_ :: _), _, _. split; [reflexivity|]. split; [done|].
  split; [constructor; lia|congruence].
Qed.

Lemma ParseColumnName_complete data off chars w r :
  b_varchar chars w -> cursor data off (w ++ r) ->
  ParseColumnName data off = Ok (Some (off + zlen w, Utf16LEDecode chars)).
Proof.
  intros [n chars' El] Hc. pose proof (cursor_len _ _ _ Hc) as Hl. autorewrite with zlen in *.
  pose proof (zlen_nonneg r). pose proof (b2z_range n). simpl app in Hc.
  unfold ParseColumnName. cursor_eval. erewrite cursor_slice; [|done|lia]. simpl. do 3 f_equal. lia.
Qed.

Lemma ParseColumn_sound data off off' c :
  ParseColumn data off new_column = Ok (Some (off', c)) ->
  exists w r, data = w ++ r /\ column_wire c w /\ off' = off + zlen w.
Proof.
  intros H. unfold ParseColumn in H. destruct (cursor_0_ex data) as (rest & Hc & Ed).
  some_steps. match goal with p : (Z * ColumnMetadata)%type |- _ => destruct p end. some_steps.
  match goal with p : (Z * bytes)%type |- _ => destruct p end. some_steps. subst off' c.
  cursor_skip_n 4. change (0 + 4) with 4 in *. cursor_read. change (4 + 2) with 6 in *.
  match goal with Hc : cursor data 6 _, H : ParseTypeInfo _ _ _ = _ |- _ =>
    destruct (type_info_at_inv _ _ _ _ _ (ParseTypeInfo_sound _ _ _ _ _ _ Hc H))
      as (t & ml & p & s & coll & info & r1 & -> & ? & ? & ->) end.
  match goal with Hc : cursor data ?z _, H : ParseColumnName _ ?z = _ |- _ =>
    destruct (ParseColumnName_sound _ _ _ _ _ Hc H) as (w & chars & r & -> & Hr & ? & ->) end.
  eexists _, r. split; [|split]; [|econstructor; eassumption|].
  - rewrite Ed. rewrite <- ?app_assoc. simpl. rewrite <- ?app_assoc. done.
  - apply cursor_len in Hr, Hc. autorewrite with zlen in *. lia.
Qed.

Lemma ParseColumn_complete off c w r :
  column_wire c w -> ParseColumn (w ++ r) off new_column = Ok (Some (off + zlen w, c)).
Proof.
  intros [u f0 f1 t ml p s coll info chars nm Hu Hi Hn].
  pose proof (cursor_0 ((u ++ [f0; f1] ++ [t] ++ info ++ nm) ++ r)) as Hc.
  rewrite <- !app_assoc in Hc at 2. remember ((u ++ _) ++ r) as data eqn:Ed. clear Ed.
  pose proof (cursor_len _ _ _ Hc) as Hl. autorewrite with zlen in *.
  pose proof (zlen_nonneg info). pose proof (zlen_nonneg nm). pose proof (zlen_nonneg r).
  apply cursor_app in Hc. rewrite Hu in *. change (0 + 4) with 4 in *. simpl app in Hc. rewrite <- app_assoc in Hc.
  unfold ParseColumn. cursor_eval. change (4 + 2) with 6 in *.
  erewrite ParseTypeInfo_complete, obind_Ok_Some by eassumption.
  match goal with Hc : cursor data 6 (t :: info ++ ?x) |- _ =>
    apply (cursor_app _ _ (t :: info) x) in Hc; rewrite zlen_cons in Hc end.
  rewrite Z.add_assoc in *.
  erewrite ParseColumnName_complete, obind_Ok_Some by eassumption.
  do 3 f_equal. lia.
Qed.

End Columns.

Section Tokens.
Context {S : Simdutf}.

Lemma Parse_loop_safe n data offset cols :
  0 <= offset <= zlen data ->
  holds_some (Parse_loop n data offset cols).2 (fun o => offset <= o <= zlen data).
Proof.
  revert offset cols. induction n as [|n IH]; intros offset cols Ho; cbn [Parse_loop].
  - simpl. lia.
  - pose proof (ParseColumn_safe (zdrop offset data) offset new_column) as H.
    rewrite zlen_zdrop in H by lia.
    destruct (ParseColumn _ _ _) as [[[o c]|]| |]; simpl in *; try done.
    eapply holds_some_mono; [apply IH; lia|]. simpl. lia.
Qed.

Lemma Parse_safe data : holds_some (Parse data).2 (fun o => 2 <= o <= zlen data).
Proof.
  unfold Parse. destruct (Z.ltb_spec (zlen data) 2); [done|].
  pose proof (holds_get16le data 0 (fun _ => True) ltac:(lia) ltac:(lia) ltac:(done)) as H1.
  destruct (get16le data 0) as [count| |]; [|done..].
  destruct (count =? 0xFFFF); [simpl; lia|]. apply Parse_loop_safe. lia.
Qed.

(** Complete results are final: more input does not change them. *)
Definition final {A} (m m' : A * res (option Z)) : Prop := m.2 <> more -> m.2 <> Oob -> m' = m.

Lemma Parse_loop_final n data e offset cols :
  0 <= offset <= zlen data ->
  final (Parse_loop n data offset cols) (Parse_loop n (data ++ e) offset cols).
Proof.
  unfold final. revert offset cols. induction n as [|n IH]; intros offset cols Ho; cbn [Parse_loop]; [done|].
  rewrite zdrop_app_le by lia.
  pose proof (ParseColumn_extends (zdrop offset data) e offset new_column) as He.
  pose proof (ParseColumn_safe (zdrop offset data) offset new_column) as Hs.
  rewrite zlen_zdrop in Hs by lia.
  destruct (ParseColumn (zdrop offset data) offset new_column) as [[[o c]|]| |]; simpl in *; try done.
  - destruct He as [He| ->]; [done|]. apply IH. lia.
  - by rewrite He.
Qed.

Lemma Parse_final data e : final (Parse data) (Parse (data ++ e)).
Proof.
  unfold final, Parse. pose proof (zlen_nonneg e). destruct (Z.ltb_spec (zlen data) 2); [done|].
  replace (zlen (data ++ e) <? 2) with false by (rewrite zlen_app; lia).
  pose proof (extends_get16le data e 0) as He.
  destruct (get16le data 0) as [count| |]; simpl in He; [|by rewrite He|done].
  destruct He as [[]| ->]. destruct (count =? 0xFFFF); [done|]. apply Parse_loop_final. lia.
Qed.

Lemma Parse_loop_sound n data off cols cols' off' :
  0 <= off <= zlen data -> Parse_loop n data off cols = (cols', Ok (Some off')) ->
  exists cs w r, cols' = cols ++ cs /\ length cs = n /\ columns_wire cs w /\
    zdrop off data = w ++ r /\ off' = off + zlen w.
Proof.
  revert off cols. induction n as [|n IH]; intros off cols Ho H; cbn [Parse_loop] in H.
  - simplify_eq. exists [], [], (zdrop off' data). rewrite app_nil_r, zlen_nil.
    repeat split; [constructor|lia].
  - destruct (ParseColumn _ _ _) as [[[o c]|]| |] eqn:E; try done.
    apply ParseColumn_sound in E as (w & r & Ew & Hw & ->).
    pose proof (zlen_zdrop off data Ho) as El. rewrite Ew, zlen_app in El.
    pose proof (zlen_nonneg w). pose proof (zlen_nonneg r).
    destruct (IH (off + zlen w) (cols ++ [c])) as (cs & ws & r' & -> & <- & Hws & Er & ->); [lia|done|].
    exists (c :: cs), (w ++ ws), r'. rewrite <- !app_assoc.
    rewrite <- zdrop_zdrop, Ew, zdrop_app_length in Er by lia. rewrite Ew, Er.
    repeat split; [by constructor|]. rewrite zlen_app. lia.
Qed.

Lemma Parse_loop_complete cs w : columns_wire cs w -> forall data off r cols,
  cursor data off (w ++ r) ->
  Parse_loop (length cs) data off cols = (cols ++ cs, Ok (Some (off + zlen w))).
Proof.
  induction 1 as [|c w cs ws Hw _ IH]; intros data off r cols Hc; cbn [Parse_loop length].
  - rewrite app_nil_r, zlen_nil. do 3 f_equal. lia.
  - rewrite <- app_assoc in Hc. pose proof (cursor_app _ _ _ _ Hc) as Hc'. destruct Hc as [_ ->].
    erewrite ParseColumn_complete by done. erewrite IH by done.
    rewrite <- app_assoc, zlen_app. do 3 f_equal. lia.
Qed.

Lemma Parse_colmetadata_sound data cs n :
  Parse data = (cs, Ok (Some n)) -> exists w r, data = w ++ r /\ zlen w = n /\ colmetadata_wire cs w.
Proof.
  unfold Parse. destruct (Z.ltb_spec (zlen data) 2); [done|].
  destruct (get16le data 0) as [count| |] eqn:E; try done. intros Hp.
  destruct (cursor_get16le_inv _ _ _ _ (cursor_0 data) E) as (b0 & b1 & r & Ed & -> & Hc).
  destruct (Z.eqb_spec (le16 b0 b1) 0xFFFF) as [Hn|Hn].
  - injection Hp as <- <-. exists [Byte.xff; Byte.xff], r.
    pose proof (b2z_range b0). pose proof (b2z_range b1). unfold le16 in Hn.
    assert (b0 = Byte.xff) as -> by (apply b2z_inj; change (b2z Byte.xff) with 255; lia).
    assert (b1 = Byte.xff) as -> by (apply b2z_inj; change (b2z Byte.xff) with 255; lia).
    split; [done|]. split; [done|constructor].
  - apply Parse_loop_sound in Hp as (cs' & w & r' & -> & Hl & Hw & Er & ->); [|lia].
    destruct Hc as [_ Hc]. change (0 + 2) with 2 in Hc. rewrite Hc in Er. subst r.
    exists (b0 :: b1 :: w), r'. split; [done|]. split; [autorewrite with zlen; lia|].
    constructor; [|done..]. unfold zlen. simpl. rewrite Hl. pose proof (le16_range b0 b1). lia.
Qed.

Lemma Parse_complete cs w r :
  colmetadata_wire cs w -> Parse (w ++ r) = (cs, Ok (Some (zlen w))).
Proof.
  intros Hw. pose proof (cursor_0 (w ++ r)) as Hc. unfold Parse. pose proof (zlen_nonneg r).
  destruct Hw as [|n0 n1 cs w Hn Hff Hw].
  - replace (_ <? 2) with false by (autorewrite with zlen; lia).
    apply cursor_get16le in Hc as [-> _]. done.
  - pose proof (zlen_nonneg w).
    replace (_ <? 2) with false by (autorewrite with zlen; lia).
    apply cursor_get16le in Hc as [-> Hc]. apply Z.eqb_neq in Hff. rewrite Hff, <- Hn.
    unfold zlen at 1. rewrite Nat2Z.id. erewrite Parse_loop_complete by done.
    do 3 f_equal. autorewrite with zlen. lia.
Qed.

(** What every consumer of a column relies on. *)
Definition known_types : list Z := type_names.*1.

Definition column_ok (c : ColumnMetadata) : Prop :=
  0 <= type_id c < 256 /\ 0 <= max_length c < 65536 /\ 0 <= precision c < 256 /\
  0 <= scale c < 256 /\ 0 <= collation c < 4294967296 /\ 0 <= flags c < 65536 /\
  (type_id c ∈ time_types -> scale c <= 7) /\
  type_id c ∈ known_types.

(** A fact about every type of a list, checked on the list. *)
Lemma is_one_of_all (P : Z -> Prop) `{forall x, Decision (P x)} t l :
  is_one_of t l = true -> forallb (fun x => bool_decide (P x)) l = true -> P t.
Proof.
  intros Ht Hl. apply is_one_of_elem, list_elem_of_In in Ht. rewrite forallb_forall in Hl.
  apply Hl in Ht. by apply bool_decide_eq_true in Ht.
Qed.

Ltac by_list Q := match goal with H : is_one_of _ _ = true |- _ =>
  eapply (is_one_of_all Q _ _ H); vm_compute; reflexivity end.

Lemma type_info_ok t ml p s coll w :
  type_info t ml p s coll w ->
  0 <= ml < 65536 /\ 0 <= p < 256 /\ 0 <= s < 256 /\ 0 <= coll < 4294967296 /\
  (t ∈ time_types -> s <= 7) /\ t ∈ known_types.
Proof.
  intros H.
  assert (t ∈ known_types) as Hk by (destruct H; by_list (fun x => x ∈ known_types)).
  assert (t ∈ time_types -> s <= 7) as Ht.
  { destruct H; try done; intros Hin; exfalso; revert Hin; by_list (fun x => x ∉ time_types). }
  split_and!; try done; destruct H; try lia; try apply b2z_range; try apply le32_range;
    try (pose proof (b2z_range n); lia); apply le16_range.
Qed.

Lemma column_wire_ok c w : column_wire c w -> column_ok c.
Proof.
  intros [u f0 f1 t ml p s coll info chars nm _ Hi _]. apply type_info_ok in Hi.
  pose proof (b2z_range t). pose proof (le16_range f0 f1). unfold column_ok. simpl. tauto.
Qed.

Lemma columns_wire_ok cs w : columns_wire cs w -> Forall column_ok cs.
Proof. induction 1; constructor; eauto using column_wire_ok. Qed.

(** ** What the parser throws *)

Definition parse_exn (e : exn) : Prop :=
  match e with
  | ScaleOutOfRange column_name s => column_name = [] /\ 7 < s
  | UnsupportedSqlType t =>
      t ∉ fixed_types ++ nullable_types ++ decimal_types ++ string_types ++ binary_types ++
          time_types ++ lob_types ++ [TDS_TYPE_UNIQUEIDENTIFIER; TDS_TYPE_DATE; TDS_TYPE_XML]
  | _ => False
  end.

Lemma skip_b_varchars_throws P n data offset : throws_only P (skip_b_varchars n data offset).
Proof.
  revert offset. induction n; intros offset; cbn [skip_b_varchars]; throws_steps. auto.
Qed.

Lemma skip_us_varchars_throws P n data offset : throws_only P (skip_us_varchars n data offset).
Proof.
  revert offset. induction n; intros offset; cbn [skip_us_varchars]; throws_steps. auto.
Qed.
#[local] Hint Resolve skip_b_varchars_throws skip_us_varchars_throws : tds.

Lemma is_one_of_false x l : is_one_of x l = false <-> x ∉ l.
Proof. rewrite <- is_one_of_elem. by destruct (is_one_of x l). Qed.

Lemma ParseTypeInfo_throws data offset c :
  name c = [] -> throws_only parse_exn (ParseTypeInfo data offset c).
Proof.
  intros Hc. unfold ParseTypeInfo. throws_steps; try (split; [done|lia]).
  - apply skip_us_varchars_throws.
  - destruct a0. throws_steps.
  - rewrite is_one_of_false in *. repeat match goal with H : (_ =? _) = false |- _ => apply Z.eqb_neq in H end.
    unfold throws_only, parse_exn. rewrite !not_elem_of_app, !not_elem_of_cons.
    pose proof (not_elem_of_nil a). tauto.
Qed.

Lemma ParseColumn_throws data offset : throws_only parse_exn (ParseColumn data offset new_column).
Proof.
  unfold ParseColumn. throws_steps.
  - by apply ParseTypeInfo_throws.
  - destruct a0. throws_steps; [unfold ParseColumnName; throws_steps|]. by destruct a0.
Qed.

Lemma Parse_loop_throws n data offset cols : throws_only parse_exn (Parse_loop n data offset cols).2.
Proof.
  revert offset cols. induction n as [|n IH]; intros offset cols; cbn [Parse_loop]; [done|].
  pose proof (ParseColumn_throws (zdrop offset data) offset) as H.
  destruct (ParseColumn _ _ _) as [[[??]|]| |]; try done.
Qed.

End Tokens.

(** ** Properties *)

Section Properties.
Context {S : Simdutf}.

(** C26. [ColumnMetadataParser::Parse] recognises exactly the COLMETADATA grammar:
    it returns [true] with columns [cs] and [n] bytes consumed if and only if
    the buffer starts with [n] bytes that are a COLMETADATA of [cs] (column
    count or the 0xFFFF marker, and per column user type, flags, TYPE_INFO of
    every supported type with its variable parts, and UTF-16 name), whatever
    follows. *)
Theorem Parse_grammar (data : bytes) (cs : list ColumnMetadata) (n : Z) :
  Parse data = (cs, Ok (Some n)) <->
  exists w r, data = w ++ r /\ zlen w = n /\ colmetadata_wire cs w.
Proof.
  split; [apply Parse_colmetadata_sound|]. intros (w & r & -> & <- & Hw). by apply Parse_complete.
Qed.

(** Parsing is safe and incremental on hostile input: no read leaves the
    buffer; once the parser has an outcome other than "need more data", more
    bytes do not change it; and every strict prefix of a well-formed token is
    answered with "need more data", never with an error or a wrong result. *)
Theorem Parse_incremental (data extra : bytes) :
  (Parse data).2 <> Oob /\
  ((Parse data).2 <> more -> Parse (data ++ extra) = Parse data) /\
  (forall cs, colmetadata_wire cs data -> forall n, 0 <= n < zlen data -> (Parse (ztake n data)).2 = more).
Proof.
  assert (forall d, (Parse d).2 <> Oob) as Hs by (intros; eapply holds_safe, Parse_safe).
  split; [apply Hs|]. split; [intros; by apply Parse_final|]. intros cs Hw n Hn.
  destruct (decide ((Parse (ztake n data)).2 = more)) as [|Hm]; [done|]. exfalso.
  pose proof (Parse_final (ztake n data) (zdrop n data) Hm (Hs _)) as E.
  rewrite ztake_zdrop in E. rewrite <- (app_nil_r data), (Parse_complete cs) in E at 1 by done.
  pose proof (Parse_safe (ztake n data)) as Hb. rewrite <- E in Hb. simpl in Hb.
  rewrite zlen_ztake in Hb; lia.
Qed.

(** C33. Every column the parser produces is well formed: its fields fit their C++
    types, its type is one the reader knows, and a TIME, DATETIME2 or
    DATETIMEOFFSET column has scale at most 7, so [10^scale] cannot overflow
    downstream. A throw is caused by such a scale above 7 (and its message
    names no column: the name is parsed later) or by a type outside the
    supported list, and by nothing else. *)
Theorem Parse_columns_ok (data : bytes) (cs : list ColumnMetadata) (outcome : res (option Z))
    (H : Parse data = (cs, outcome)) :
  (forall n, outcome = Ok (Some n) -> Forall column_ok cs) /\
  (forall e, outcome = Exn e -> parse_exn e).
Proof.
  split.
  - intros n ->. apply Parse_colmetadata_sound in H as (w & r & _ & _ & Hw).
    destruct Hw; [constructor|]. by eapply columns_wire_ok.
  - intros e ->. revert H. unfold Parse.
    destruct (_ <? 2); [done|]. pose proof (get16le_not_exn data 0) as Hx.
    destruct (get16le data 0) as [count|e'|]; [|by destruct (Hx e')|done].
    destruct (count =? 0xFFFF); [done|]. intros Hp.
    pose proof (Parse_loop_throws (Z.to_nat count) data 2 []) as Ht. by rewrite Hp in Ht.
Qed.

End Properties.

(** Two columns: [id INT NOT NULL] and [t TIME(3)]. *)
Definition sample_colmetadata : bytes :=
  bs [2; 0; 0; 0; 0; 0; 0; 0; 0x38; 2; 0x69; 0; 0x64; 0;
      0; 0; 0; 0; 1; 0; 0x29; 3; 1; 0x74; 0].

Lemma Parse_incremental_witness :
  (@Parse RefSimdutf.simdutf sample_colmetadata).2 = Ok (Some 25) /\
  @Parse RefSimdutf.simdutf (sample_colmetadata ++ bs [0xD1])
    = @Parse RefSimdutf.simdutf sample_colmetadata.
Proof.
  split; [vm_compute; reflexivity|].
  apply (Parse_incremental (S := RefSimdutf.simdutf) sample_colmetadata (bs [0xD1])).
  vm_compute. discriminate.
Defined.

Lemma Parse_columns_ok_witness :
  parse_exn (ScaleOutOfRange [] 8).
Proof.
  eapply (Parse_columns_ok (S := RefSimdutf.simdutf)
    (bs [1; 0; 0; 0; 0; 0; 0; 0; 0x29; 8; 1; 0x74; 0]) [] (Exn (ScaleOutOfRange [] 8)));
    [vm_compute; reflexivity|reflexivity].
Defined.
