(* ===== verification/RowReader.v ===== *)
(** * Rows (src/src/tds/tds_row_reader.cpp)

    [RowReader] reads or skips the values of a ROW or NBCROW token. A function
    that returns the number of bytes consumed, 0 meaning "need more data",
    returns [more] for 0 here; the [Read*] functions return the value and the
    NULL flag with it. [skip_descs] is the optional array of precomputed skip
    forms. The [RowData] a failed read leaves half filled is not modelled: the
    caller clears it before the next attempt. Main results: the walk by skip
    forms equals the walk by types; no read leaves the buffer and every loop
    ends; reading and skipping agree, except for a GUID whose length byte is not
    0 or 16; and every well-formed row is read back exactly. *)

From S2P Require Import Prelude TdsTypes ColumnMetadata.

Definition MAX_LOB_VALUE_BYTES : Z := 2147483647.
Definition PLP_NULL_MARKER : Z := 0xFFFFFFFFFFFFFFFF.
Definition PLP_UNKNOWN_MARKER : Z := 0xFFFFFFFFFFFFFFFE.

(** ** Data (tds_column_metadata.hpp, tds_token_parser.hpp) *)

Inductive SkipForm : Type := FIXED | PREFIX1 | PREFIX2 | SLOW.

#[export] Instance SkipForm_eq_dec : EqDecision SkipForm.
Proof. solve_decision. Defined.

Record SkipDesc : Type := mkSkipDesc { form : SkipForm; width : Z }.

#[export] Instance SkipDesc_eq_dec : EqDecision SkipDesc.
Proof. solve_decision. Defined.

Record RowData : Type := mkRowData { values : list bytes; null_mask : list bool }.

#[export] Instance RowData_eq_dec : EqDecision RowData.
Proof. solve_decision. Defined.

Definition RowData_Clear (row : RowData) : RowData :=
  mkRowData ((fun _ => []) <$> values row) ((fun _ => false) <$> null_mask row).

(** [std::vector::resize] keeps the elements that fit. *)
Definition RowData_Prepare (num_columns : nat) (row : RowData) : RowData :=
  if bool_decide (length (values row) <> num_columns)
  then mkRowData (resize num_columns [] (values row)) (resize num_columns false (null_mask row))
  else RowData_Clear row.

(** ** Types by the shape of their values *)

Definition fixed1_types : list Z := [TDS_TYPE_TINYINT; TDS_TYPE_BIT].
Definition fixed4_types : list Z :=
  [TDS_TYPE_INT; TDS_TYPE_REAL; TDS_TYPE_SMALLMONEY; TDS_TYPE_SMALLDATETIME].
Definition fixed8_types : list Z :=
  [TDS_TYPE_BIGINT; TDS_TYPE_FLOAT; TDS_TYPE_MONEY; TDS_TYPE_DATETIME].
Definition prefix1_types : list Z :=
  [TDS_TYPE_INTN; TDS_TYPE_BITN; TDS_TYPE_FLOATN; TDS_TYPE_MONEYN; TDS_TYPE_DATETIMEN;
   TDS_TYPE_DECIMAL; TDS_TYPE_NUMERIC; TDS_TYPE_DATE; TDS_TYPE_TIME; TDS_TYPE_DATETIME2;
   TDS_TYPE_DATETIMEOFFSET; TDS_TYPE_UNIQUEIDENTIFIER].

Definition ResolveSkipForm (col : ColumnMetadata) : SkipDesc :=
  let t := type_id col in
  if is_one_of t fixed1_types then mkSkipDesc FIXED 1
  else if t =? TDS_TYPE_SMALLINT then mkSkipDesc FIXED 2
  else if is_one_of t fixed4_types then mkSkipDesc FIXED 4
  else if is_one_of t fixed8_types then mkSkipDesc FIXED 8
  else if is_one_of t prefix1_types then mkSkipDesc PREFIX1 0
  else if is_one_of t string_binary_types then
    if IsPLPType col then mkSkipDesc SLOW 0 else mkSkipDesc PREFIX2 0
  else mkSkipDesc SLOW 0.

(** ** Skipping one value *)

(** [return length >= n ? n : 0]. *)
Definition skip_fixed (n : Z) (data : bytes) : res (option Z) :=
  if zlen data <? n then more else if n =? 0 then more else Ok (Some n).

(** A one-byte length and as many bytes. *)
Definition skip_prefix1 (data : bytes) : res (option Z) :=
  if zlen data <? 1 then more else
  data_length ← get8 data 0;
  if zlen data <? 1 + data_length then more else Ok (Some (1 + data_length)).

(** A two-byte length, 0xFFFF for NULL, and as many bytes. *)
Definition skip_prefix2 (data : bytes) : res (option Z) :=
  if zlen data <? 2 then more else
  data_length ← get16le data 0;
  if data_length =? 0xFFFF then Ok (Some 2) else
  if zlen data <? 2 + data_length then more else Ok (Some (2 + data_length)).

Definition SkipByForm (data : bytes) (desc : SkipDesc) : res (option Z) :=
  match form desc with
  | FIXED => skip_fixed (width desc) data
  | PREFIX1 => skip_prefix1 data
  | PREFIX2 => skip_prefix2 data
  | SLOW => more
  end.

(** The text-pointer form of TEXT, NTEXT and IMAGE. *)
Definition skip_lob (data : bytes) : res (option Z) :=
  if zlen data <? 1 then more else
  pointer_len ← get8 data 0;
  if pointer_len =? 0 then Ok (Some 1) else
  let header := 1 + pointer_len + 8 + 4 in
  if zlen data <? header then more else
  data_length ← get32le data (1 + pointer_len + 8);
  if MAX_LOB_VALUE_BYTES <? data_length then Exn (LobLengthOutOfRange data_length) else
  let total := header + data_length in
  if zlen data <? total then more else Ok (Some total).

(** The chunk loop. A turn that goes on steps over at least five bytes, so
    [length data] turns are enough. *)
Fixpoint SkipPLP_loop (fuel : nat) (data : bytes) (offset : Z) : res (option Z) :=
  match fuel with
  | O => Oob
  | S fuel =>
      if zlen data <? offset + 4 then more else
      chunk_length ← get32le data offset;
      let offset := offset + 4 in
      if chunk_length =? 0 then Ok (Some offset) else
      if zlen data <? offset + chunk_length then more else
      SkipPLP_loop fuel data (offset + chunk_length)
  end.

Definition SkipPLPType (data : bytes) : res (option Z) :=
  if zlen data <? 8 then more else
  total_length ← get64le data 0;
  let offset := 8 in
  if total_length =? PLP_NULL_MARKER then Ok (Some offset) else
  SkipPLP_loop (S (length data)) data offset.

Definition SkipValue (data : bytes) (col : ColumnMetadata) : res (option Z) :=
  let t := type_id col in
  if is_one_of t fixed1_types then skip_fixed 1 data
  else if t =? TDS_TYPE_SMALLINT then skip_fixed 2 data
  else if is_one_of t fixed4_types then skip_fixed 4 data
  else if is_one_of t fixed8_types then skip_fixed 8 data
  else if is_one_of t prefix1_types then skip_prefix1 data
  else if is_one_of t lob_types then skip_lob data
  else if t =? TDS_TYPE_XML then SkipPLPType data
  else if is_one_of t string_binary_types then
    if IsPLPType col then SkipPLPType data else skip_prefix2 data
  else more.

Definition SkipValueNBC (data : bytes) (col : ColumnMetadata) : res (option Z) :=
  let t := type_id col in
  if is_one_of t fixed1_types then skip_fixed 1 data
  else if t =? TDS_TYPE_SMALLINT then skip_fixed 2 data
  else if is_one_of t fixed4_types then skip_fixed 4 data
  else if is_one_of t fixed8_types then skip_fixed 8 data
  else if is_one_of t nullable_types then skip_prefix1 data
  else if is_one_of t lob_types then skip_lob data
  else if t =? TDS_TYPE_XML then SkipPLPType data
  else if is_one_of t string_binary_types then
    if IsPLPType col then SkipPLPType data else skip_prefix2 data
  else if is_one_of t decimal_types then skip_prefix1 data
  else if t =? TDS_TYPE_DATE then skip_prefix1 data
  else if t =? TDS_TYPE_TIME then skip_prefix1 data
  else if t =? TDS_TYPE_DATETIME2 then skip_prefix1 data
  else if t =? TDS_TYPE_DATETIMEOFFSET then skip_prefix1 data
  else if t =? TDS_TYPE_UNIQUEIDENTIFIER then skip_prefix1 data
  else more.

(** ** Reading one value *)

(** Bytes consumed, the value, and whether it is NULL. *)
Record ReadResult : Type := mkRead { consumed : Z; value : bytes; is_null : bool }.

Definition ReadFixedType (data : bytes) (t : Z) : res (option ReadResult) :=
  size ← (if is_one_of t fixed1_types then Ok 1
          else if t =? TDS_TYPE_SMALLINT then Ok 2
          else if is_one_of t fixed4_types then Ok 4
          else if is_one_of t fixed8_types then Ok 8
          else Exn (UnknownFixedType t));
  if zlen data <? size then more else
  v ← slice data 0 size;
  Ok (Some (mkRead size v false)).

(** A one-byte length, 0 for NULL, and as many bytes: the body shared by the
    six readers below. *)
Definition read_prefix1 (data : bytes) : res (option ReadResult) :=
  if zlen data <? 1 then more else
  data_length ← get8 data 0;
  if data_length =? 0 then Ok (Some (mkRead 1 [] true)) else
  if zlen data <? 1 + data_length then more else
  v ← slice data 1 data_length;
  Ok (Some (mkRead (1 + data_length) v false)).

Definition ReadNullableFixedType (data : bytes) : res (option ReadResult) := read_prefix1 data.
Definition ReadDecimalType (data : bytes) : res (option ReadResult) := read_prefix1 data.
Definition ReadDateType (data : bytes) : res (option ReadResult) := read_prefix1 data.
Definition ReadTimeType (data : bytes) : res (option ReadResult) := read_prefix1 data.
Definition ReadDateTime2Type (data : bytes) : res (option ReadResult) := read_prefix1 data.
Definition ReadDateTimeOffsetType (data : bytes) : res (option ReadResult) := read_prefix1 data.

Definition ReadVariableLengthType (data : bytes) : res (option ReadResult) :=
  if zlen data <? 2 then more else
  data_length ← get16le data 0;
  if data_length =? 0xFFFF then Ok (Some (mkRead 2 [] true)) else
  if zlen data <? 2 + data_length then more else
  v ← slice data 2 data_length;
  Ok (Some (mkRead (2 + data_length) v false)).

(** The length byte is only compared with 0. *)
Definition ReadGuidType (data : bytes) : res (option ReadResult) :=
  if zlen data <? 1 then more else
  data_length ← get8 data 0;
  if data_length =? 0 then Ok (Some (mkRead 1 [] true)) else
  if zlen data <? 1 + 16 then more else
  v ← slice data 1 16;
  Ok (Some (mkRead (1 + 16) v false)).

Fixpoint ReadPLP_loop (fuel : nat) (data : bytes) (offset : Z) (v : bytes) : res (option (Z * bytes)) :=
  match fuel with
  | O => Oob
  | S fuel =>
      if zlen data <? offset + 4 then more else
      chunk_length ← get32le data offset;
      let offset := offset + 4 in
      if chunk_length =? 0 then Ok (Some (offset, v)) else
      if zlen data <? offset + chunk_length then more else
      chunk ← slice data offset chunk_length;
      ReadPLP_loop fuel data (offset + chunk_length) (v ++ chunk)
  end.

Definition ReadPLPType (data : bytes) : res (option ReadResult) :=
  if zlen data <? 8 then more else
  total_length ← get64le data 0;
  let offset := 8 in
  if total_length =? PLP_NULL_MARKER then Ok (Some (mkRead offset [] true)) else
  r <~ ReadPLP_loop (S (length data)) data offset [];
  Ok (Some (mkRead (r.1) (r.2) false)).

Definition ReadValue (data : bytes) (col : ColumnMetadata) : res (option ReadResult) :=
  let t := type_id col in
  if is_one_of t (fixed1_types ++ [TDS_TYPE_SMALLINT] ++ fixed4_types ++ fixed8_types)
  then ReadFixedType data t
  else if is_one_of t nullable_types then ReadNullableFixedType data
  else if t =? TDS_TYPE_XML then ReadPLPType data
  else if is_one_of t string_binary_types then
    if IsPLPType col then ReadPLPType data else ReadVariableLengthType data
  else if is_one_of t decimal_types then ReadDecimalType data
  else if t =? TDS_TYPE_DATE then ReadDateType data
  else if t =? TDS_TYPE_TIME then ReadTimeType data
  else if t =? TDS_TYPE_DATETIME2 then ReadDateTime2Type data
  else if t =? TDS_TYPE_DATETIMEOFFSET then ReadDateTimeOffsetType data
  else if t =? TDS_TYPE_UNIQUEIDENTIFIER then ReadGuidType data
  else Exn (UnsupportedRowType t).

(** The one-byte-length arms of [ReadValueNBC]: a length of 0 is an empty value. *)
Definition read_prefix1_nbc (data : bytes) : res (option ReadResult) :=
  if zlen data <? 1 then more else
  data_length ← get8 data 0;
  if zlen data <? 1 + data_length then more else
  v ← slice data 1 data_length;
  Ok (Some (mkRead (1 + data_length) v false)).

Definition ReadValueNBC (data : bytes) (col : ColumnMetadata) : res (option ReadResult) :=
  let t := type_id col in
  if is_one_of t (fixed1_types ++ [TDS_TYPE_SMALLINT] ++ fixed4_types ++ fixed8_types)
  then ReadFixedType data t
  else if is_one_of t nullable_types then read_prefix1_nbc data
  else if t =? TDS_TYPE_XML then ReadPLPType data
  else if is_one_of t string_binary_types then
    if IsPLPType col then ReadPLPType data else ReadVariableLengthType data
  else if is_one_of t decimal_types then read_prefix1_nbc data
  else if t =? TDS_TYPE_DATE then read_prefix1_nbc data
  else if t =? TDS_TYPE_TIME then read_prefix1_nbc data
  else if t =? TDS_TYPE_DATETIME2 then read_prefix1_nbc data
  else if t =? TDS_TYPE_DATETIMEOFFSET then read_prefix1_nbc data
  else if t =? TDS_TYPE_UNIQUEIDENTIFIER then read_prefix1_nbc data
  else Exn (UnsupportedNbcType t).

(** ** Rows *)

(** [skip_descs_[col_idx]]: an array of descriptors, read by index. *)
Definition skip_one (skip_descs : option (list SkipDesc)) (skip_slow : bytes -> ColumnMetadata -> res (option Z))
    (data : bytes) (col_idx : nat) (col : ColumnMetadata) : res (option Z) :=
  match skip_descs with
  | Some descs =>
      match descs !! col_idx with
      | Some desc =>
          if bool_decide (form desc = SLOW) then skip_slow data col else SkipByForm data desc
      | None => Oob
      end
  | None => skip_slow data col
  end.

Fixpoint SkipRow_loop (skip_descs : option (list SkipDesc)) (data : bytes) (cols : list ColumnMetadata)
    (col_idx : nat) (offset : Z) : res (option Z) :=
  match cols with
  | [] => Ok (Some offset)
  | col :: cols =>
      n <~ skip_one skip_descs SkipValue (zdrop offset data) col_idx col;
      SkipRow_loop skip_descs data cols (S col_idx) (offset + n)
  end.

Definition SkipRow (columns : list ColumnMetadata) (skip_descs : option (list SkipDesc)) (data : bytes)
    : res (option Z) :=
  SkipRow_loop skip_descs data columns 0 0.

(** [(data[col_idx / 8] & (1 << (col_idx % 8))) != 0]. *)
Definition bitmap_bit (data : bytes) (col_idx : nat) : res bool :=
  b ← get8 data (Z.of_nat col_idx / 8);
  Ok (negb (Z.land b (Z.shiftl 1 (Z.of_nat col_idx mod 8)) =? 0)).

Definition bitmap_bytes (columns : list ColumnMetadata) : Z := (zlen columns + 7) / 8.

Fixpoint SkipNBCRow_loop (skip_descs : option (list SkipDesc)) (data : bytes) (cols : list ColumnMetadata)
    (col_idx : nat) (offset : Z) : res (option Z) :=
  match cols with
  | [] => Ok (Some offset)
  | col :: cols =>
      is_null ← bitmap_bit data col_idx;
      if (is_null : bool) then SkipNBCRow_loop skip_descs data cols (S col_idx) offset
      else
        n <~ skip_one skip_descs SkipValueNBC (zdrop offset data) col_idx col;
        SkipNBCRow_loop skip_descs data cols (S col_idx) (offset + n)
  end.

Definition SkipNBCRow (columns : list ColumnMetadata) (skip_descs : option (list SkipDesc)) (data : bytes)
    : res (option Z) :=
  if zlen data <? bitmap_bytes columns then more else
  SkipNBCRow_loop skip_descs data columns 0 (bitmap_bytes columns).

Definition set_value (i : nat) (v : bytes) (row : RowData) : RowData :=
  mkRowData (<[i := v]> (values row)) (null_mask row).
Definition set_null (i : nat) (b : bool) (row : RowData) : RowData :=
  mkRowData (values row) (<[i := b]> (null_mask row)).

Fixpoint ReadRow_loop (data : bytes) (cols : list ColumnMetadata) (col_idx : nat) (offset : Z)
    (row : RowData) : res (option (Z * RowData)) :=
  match cols with
  | [] => Ok (Some (offset, row))
  | col :: cols =>
      r <~ ReadValue (zdrop offset data) col;
      ReadRow_loop data cols (S col_idx) (offset + consumed r)
        (set_null col_idx (is_null r) (set_value col_idx (value r) row))
  end.

Definition ReadRow (columns : list ColumnMetadata) (data : bytes) (row : RowData)
    : res (option (Z * RowData)) :=
  ReadRow_loop data columns 0 0 (RowData_Prepare (length columns) row).

Fixpoint ReadBitmap_loop (data : bytes) (cols : list ColumnMetadata) (col_idx : nat) (row : RowData)
    : res RowData :=
  match cols with
  | [] => Ok row
  | _ :: cols =>
      b ← bitmap_bit data col_idx;
      ReadBitmap_loop data cols (S col_idx) (set_null col_idx b row)
  end.

Fixpoint ReadNBCRow_loop (data : bytes) (cols : list ColumnMetadata) (col_idx : nat) (offset : Z)
    (row : RowData) : res (option (Z * RowData)) :=
  match cols with
  | [] => Ok (Some (offset, row))
  | col :: cols =>
      match null_mask row !! col_idx with
      | None => Oob
      | Some true => ReadNBCRow_loop data cols (S col_idx) offset row
      | Some false =>
          r <~ ReadValueNBC (zdrop offset data) col;
          ReadNBCRow_loop data cols (S col_idx) (offset + consumed r) (set_value col_idx (value r) row)
      end
  end.

Definition ReadNBCRow (columns : list ColumnMetadata) (data : bytes) (row : RowData)
    : res (option (Z * RowData)) :=
  let row := RowData_Prepare (length columns) row in
  if zlen data <? bitmap_bytes columns then more else
  row ← ReadBitmap_loop data columns 0 row;
  ReadNBCRow_loop data columns 0 (bitmap_bytes columns) row.

(** ** The walk by forms and the walk by types *)

Lemma is_one_of_sub t l l' :
  is_one_of t l = false -> forallb (fun x => is_one_of x l) l' = true -> is_one_of t l' = false.
Proof.
  rewrite !is_one_of_false. intros Ht Hl Hin. apply Ht.
  rewrite forallb_forall in Hl. apply is_one_of_elem, Hl. by apply list_elem_of_In.
Qed.

(** Split on the type: one goal per known type, and one for all others. *)
Ltac split_types t :=
  let E := fresh in
  destruct (is_one_of t known_types) eqn:E;
  [ apply is_one_of_elem in E; unfold known_types in E; cbn in E;
    repeat (apply elem_of_cons in E as [E|E]); [..|by apply elem_of_nil in E];
    try rewrite E; try subst; decide_types
  | repeat match goal with
    | |- context [is_one_of t ?l] =>
        replace (is_one_of t l) with false by
          (symmetry; apply (is_one_of_sub _ _ _ E); vm_compute; reflexivity)
    | |- context [t =? ?c] =>
        replace (t =? c) with false by
          (symmetry; apply Z.eqb_neq; intros ->; vm_compute in E; discriminate E)
    end ]; cbv iota.

Inductive kind : Type :=
  | KFixed (n : Z) | KPrefix1 | KLob | KXml | KVar | KNone.

(** The shape of a type's values, as [SkipValue]'s [switch] has it. *)
Definition kind_of (t : Z) : kind :=
  if is_one_of t fixed1_types then KFixed 1
  else if t =? TDS_TYPE_SMALLINT then KFixed 2
  else if is_one_of t fixed4_types then KFixed 4
  else if is_one_of t fixed8_types then KFixed 8
  else if is_one_of t prefix1_types then KPrefix1
  else if is_one_of t lob_types then KLob
  else if t =? TDS_TYPE_XML then KXml
  else if is_one_of t string_binary_types then KVar
  else KNone.

Definition skip_kind (k : kind) (plp : bool) (data : bytes) : res (option Z) :=
  match k with
  | KFixed n => skip_fixed n data
  | KPrefix1 => skip_prefix1 data
  | KLob => skip_lob data
  | KXml => SkipPLPType data
  | KVar => if plp then SkipPLPType data else skip_prefix2 data
  | KNone => more
  end.

Lemma SkipValue_kind data c : SkipValue data c = skip_kind (kind_of (type_id c)) (IsPLPType c) data.
Proof. unfold SkipValue, kind_of. cbv zeta. repeat (case_match; try done). Qed.

Lemma SkipValueNBC_kind data c : SkipValueNBC data c = skip_kind (kind_of (type_id c)) (IsPLPType c) data.
Proof.
  unfold SkipValueNBC, kind_of. cbv zeta. generalize (IsPLPType c), (type_id c). intros plp t.
  split_types t; reflexivity.
Qed.

Lemma ResolveSkipForm_kind c :
  ResolveSkipForm c =
  match kind_of (type_id c) with
  | KFixed n => mkSkipDesc FIXED n
  | KPrefix1 => mkSkipDesc PREFIX1 0
  | KVar => if IsPLPType c then mkSkipDesc SLOW 0 else mkSkipDesc PREFIX2 0
  | _ => mkSkipDesc SLOW 0
  end.
Proof.
  unfold ResolveSkipForm, kind_of. cbv zeta. generalize (IsPLPType c), (type_id c). intros plp t.
  split_types t; reflexivity.
Qed.

Lemma skip_one_resolved columns skip_slow data i c :
  (forall d c, skip_slow d c = SkipValue d c) ->
  columns !! i = Some c ->
  skip_one (Some (ResolveSkipForm <$> columns)) skip_slow data i c = SkipValue data c.
Proof.
  intros Hslow Hi. unfold skip_one. rewrite list_lookup_fmap, Hi. simpl. rewrite Hslow.
  rewrite SkipValue_kind, ResolveSkipForm_kind.
  destruct (kind_of (type_id c)); try done. by destruct (IsPLPType c).
Qed.

Lemma SkipValueNBC_eq d c : SkipValueNBC d c = SkipValue d c.
Proof. by rewrite SkipValueNBC_kind, SkipValue_kind. Qed.

(** Both row walks with the same value walk: [skip_row descs] against the plain one. *)
Lemma SkipRow_loop_descs columns data cols i off :
  (forall k c, cols !! k = Some c -> columns !! (i + k)%nat = Some c) ->
  SkipRow_loop (Some (ResolveSkipForm <$> columns)) data cols i off = SkipRow_loop None data cols i off.
Proof.
  revert i off. induction cols as [|c cols IH]; intros i off Hc; [done|]. cbn [SkipRow_loop].
  rewrite skip_one_resolved; [|done|specialize (Hc 0%nat c); rewrite Nat.add_0_r in Hc; by apply Hc].
  simpl skip_one. destruct (SkipValue _ c) as [[n|]| |]; simpl; try done. apply IH.
  intros k c' Hk. specialize (Hc (S k) c' Hk). by replace (S i + k)%nat with (i + S k)%nat by lia.
Qed.

Lemma SkipNBCRow_loop_descs columns data cols i off :
  (forall k c, cols !! k = Some c -> columns !! (i + k)%nat = Some c) ->
  SkipNBCRow_loop (Some (ResolveSkipForm <$> columns)) data cols i off
  = SkipNBCRow_loop None data cols i off.
Proof.
  revert i off. induction cols as [|c cols IH]; intros i off Hc; [done|]. cbn [SkipNBCRow_loop].
  assert (IH' : forall off, SkipNBCRow_loop (Some (ResolveSkipForm <$> columns)) data cols (S i) off
                = SkipNBCRow_loop None data cols (S i) off).
  { intros off'. apply IH. intros k c' Hk. specialize (Hc (S k) c' Hk).
    by replace (S i + k)%nat with (i + S k)%nat by lia. }
  rewrite skip_one_resolved; [|apply SkipValueNBC_eq|specialize (Hc 0%nat c); rewrite Nat.add_0_r in Hc; by apply Hc].
  simpl skip_one. rewrite SkipValueNBC_eq.
  destruct (bitmap_bit data i) as [[]| |]; simpl; try done.
  destruct (SkipValue _ c) as [[n|]| |]; simpl; done.
Qed.

(** ** Reads stay inside the buffer, loops end *)

Lemma skip_fixed_safe n data : 0 <= n -> holds_some (skip_fixed n data) (fun k => 0 < k <= zlen data).
Proof. intros. unfold skip_fixed. safe_steps. lia. Qed.

Lemma skip_prefix1_safe data : holds_some (skip_prefix1 data) (fun k => 0 < k <= zlen data).
Proof. unfold skip_prefix1. safe_steps. lia. Qed.

Lemma skip_prefix2_safe data : holds_some (skip_prefix2 data) (fun k => 0 < k <= zlen data).
Proof. unfold skip_prefix2. safe_steps; lia. Qed.

Lemma skip_lob_safe data : holds_some (skip_lob data) (fun k => 0 < k <= zlen data).
Proof. unfold skip_lob. safe_steps; lia. Qed.

Lemma SkipPLP_loop_safe fuel data off :
  0 <= off <= zlen data -> zlen data - off < Z.of_nat fuel ->
  holds_some (SkipPLP_loop fuel data off) (fun k => off < k <= zlen data).
Proof.
  revert off. induction fuel as [|fuel IH]; intros off Ho Hf; [lia|]. cbn [SkipPLP_loop].
  safe_steps; [lia|]. safe_use IH. lia.
Qed.

Lemma SkipPLPType_safe data : holds_some (SkipPLPType data) (fun k => 0 < k <= zlen data).
Proof.
  unfold SkipPLPType. cbv zeta. apply holds_guard; intros. apply holds_some_bind.
  apply holds_get64le; [lia..|]. intros v _. destruct (v =? _); [simpl; lia|].
  eapply holds_some_mono; [apply SkipPLP_loop_safe; unfold zlen in *; lia|]. cbv beta. lia.
Qed.

Lemma SkipValue_safe data c : holds_some (SkipValue data c) (fun k => 0 < k <= zlen data).
Proof.
  rewrite SkipValue_kind. destruct (kind_of (type_id c)) eqn:Hk; simpl.
  - apply skip_fixed_safe. revert Hk. unfold kind_of. repeat case_match; naive_solver lia.
  - apply skip_prefix1_safe.
  - apply skip_lob_safe.
  - apply SkipPLPType_safe.
  - destruct (IsPLPType c); [apply SkipPLPType_safe|apply skip_prefix2_safe].
  - done.
Qed.

Lemma SkipRow_loop_safe data cols i off :
  0 <= off <= zlen data -> holds_some (SkipRow_loop None data cols i off) (fun k => off <= k <= zlen data).
Proof.
  revert i off. induction cols as [|c cols IH]; intros i off Ho; cbn [SkipRow_loop]; [simpl; lia|].
  apply holds_obind. simpl skip_one. pose proof (zlen_zdrop off data Ho).
  safe_use SkipValue_safe. safe_use IH. lia.
Qed.

Lemma bitmap_bit_safe data i Q :
  Z.of_nat i / 8 < zlen data -> (forall b, Q b) -> holds (bitmap_bit data i) Q.
Proof.
  intros Hi HQ. unfold bitmap_bit. apply holds_bind, holds_get8; [|intros; apply HQ].
  split; [apply Z.div_pos; lia|done].
Qed.

Lemma bitmap_index columns i :
  (i < length columns)%nat -> Z.of_nat i / 8 < bitmap_bytes columns.
Proof. unfold bitmap_bytes, zlen. intros. zlia. Qed.

Lemma SkipNBCRow_loop_safe data cols i off :
  0 <= off <= zlen data -> (Z.of_nat i + zlen cols + 7) / 8 <= zlen data ->
  holds_some (SkipNBCRow_loop None data cols i off) (fun k => off <= k <= zlen data).
Proof.
  revert i off. induction cols as [|c cols IH]; intros i off Ho Hb; cbn [SkipNBCRow_loop]; [simpl; lia|].
  rewrite zlen_cons in Hb. pose proof (zlen_nonneg cols).
  apply holds_some_bind, bitmap_bit_safe; [zlia|].
  assert (Hb' : (Z.of_nat (S i) + zlen cols + 7) / 8 <= zlen data)
    by (replace (Z.of_nat (S i) + zlen cols) with (Z.of_nat i + (1 + zlen cols)) by lia; done).
  intros []; [by apply IH|].
  apply holds_obind. simpl skip_one. rewrite SkipValueNBC_eq. pose proof (zlen_zdrop off data Ho).
  safe_use SkipValue_safe. safe_use IH. lia.
Qed.

(** ** Reading by shape, and reading against skipping *)

Definition read_fixed (n : Z) (data : bytes) : res (option ReadResult) :=
  if zlen data <? n then more else v ← slice data 0 n; Ok (Some (mkRead n v false)).

Definition readable_types : list Z :=
  fixed1_types ++ [TDS_TYPE_SMALLINT] ++ fixed4_types ++ fixed8_types ++ prefix1_types ++
  [TDS_TYPE_XML] ++ string_binary_types.

Definition read_kind (guid : bool) (k : kind) (plp : bool) (data : bytes) : res (option ReadResult) :=
  match k with
  | KFixed n => read_fixed n data
  | KPrefix1 => if guid then ReadGuidType data else read_prefix1 data
  | KXml => ReadPLPType data
  | _ => if plp then ReadPLPType data else ReadVariableLengthType data
  end.

Definition read_kind_nbc (k : kind) (plp : bool) (data : bytes) : res (option ReadResult) :=
  match k with
  | KFixed n => read_fixed n data
  | KPrefix1 => read_prefix1_nbc data
  | KXml => ReadPLPType data
  | _ => if plp then ReadPLPType data else ReadVariableLengthType data
  end.

Lemma ReadValue_kind data c :
  ReadValue data c =
  if is_one_of (type_id c) readable_types
  then read_kind (type_id c =? TDS_TYPE_UNIQUEIDENTIFIER) (kind_of (type_id c)) (IsPLPType c) data
  else Exn (UnsupportedRowType (type_id c)).
Proof.
  unfold ReadValue, ReadFixedType, kind_of. cbv zeta. generalize (IsPLPType c), (type_id c). intros plp t.
  split_types t; reflexivity.
Qed.

Lemma ReadValueNBC_kind data c :
  ReadValueNBC data c =
  if is_one_of (type_id c) readable_types
  then read_kind_nbc (kind_of (type_id c)) (IsPLPType c) data
  else Exn (UnsupportedNbcType (type_id c)).
Proof.
  unfold ReadValueNBC, ReadFixedType, kind_of. cbv zeta. generalize (IsPLPType c), (type_id c). intros plp t.
  split_types t; reflexivity.
Qed.

Lemma kind_of_readable t : is_one_of t readable_types = true ->
  match kind_of t with KLob | KNone => False | KFixed n => 0 < n | _ => True end.
Proof. unfold kind_of. split_types t; try done; vm_compute; lia || done. Qed.

(** The sizes of a read. *)
Definition sizes (m : res (option ReadResult)) : res (option Z) :=
  r <~ m; Ok (Some (consumed r)).

Lemma skip_read_fixed n data : 0 < n -> skip_fixed n data = sizes (read_fixed n data).
Proof.
  intros Hn. unfold skip_fixed, read_fixed. destruct (Z.ltb_spec (zlen data) n); [done|].
  replace (n =? 0) with false by lia. by rewrite slice_inside by lia.
Qed.

Lemma get8_0_cases data : zlen data < 1 \/ exists n r, data = n :: r /\ get8 data 0 = Ok (b2z n).
Proof.
  destruct data as [|n r]; [left; rewrite zlen_nil; lia|right]. exists n, r. split; [done|apply get8_0].
Qed.

Lemma skip_read_prefix1 data : skip_prefix1 data = sizes (read_prefix1 data).
Proof.
  unfold skip_prefix1, read_prefix1. destruct (Z.ltb_spec (zlen data) 1) as [|Hl]; [done|].
  destruct (get8_0_cases data) as [|(n & r & -> & ->)]; [lia|]. simpl.
  pose proof (b2z_range n). destruct (Z.eqb_spec (b2z n) 0) as [->|].
  - by replace (zlen (n :: r) <? 1 + 0) with false by lia.
  - destruct (Z.ltb_spec (zlen (n :: r)) (1 + b2z n)); [done|]. by rewrite slice_inside by lia.
Qed.

Lemma skip_read_prefix1_nbc data : skip_prefix1 data = sizes (read_prefix1_nbc data).
Proof.
  unfold skip_prefix1, read_prefix1_nbc. destruct (Z.ltb_spec (zlen data) 1) as [|Hl]; [done|].
  destruct (get8_0_cases data) as [|(n & r & -> & ->)]; [lia|]. simpl. pose proof (b2z_range n).
  destruct (Z.ltb_spec (zlen (n :: r)) (1 + b2z n)); [done|]. by rewrite slice_inside by lia.
Qed.

Lemma skip_read_guid data :
  (forall n r, data = n :: r -> b2z n = 0 \/ b2z n = 16) ->
  skip_prefix1 data = sizes (ReadGuidType data).
Proof.
  intros Hg. unfold skip_prefix1, ReadGuidType. destruct (Z.ltb_spec (zlen data) 1) as [|Hl]; [done|].
  destruct (get8_0_cases data) as [|(n & r & -> & ->)]; [lia|]. cbn [mbind res_bind].
  destruct (Hg n r eq_refl) as [->| ->]; cbn [Z.eqb].
  - by replace (zlen (n :: r) <? 1 + 0) with false by lia.
  - change (1 + 16) with 17. destruct (Z.ltb_spec (zlen (n :: r)) 17); [done|]. by rewrite slice_inside by lia.
Qed.

Lemma skip_read_prefix2 data : skip_prefix2 data = sizes (ReadVariableLengthType data).
Proof.
  unfold skip_prefix2, ReadVariableLengthType. destruct (Z.ltb_spec (zlen data) 2) as [|Hl]; [done|].
  pose proof (holds_get16le data 0 (fun v => 0 <= v < 65536) ltac:(lia) ltac:(lia) ltac:(done)) as H.
  destruct (get16le data 0) as [n| |]; simpl in H |- *; [|done..].
  destruct (n =? 0xFFFF); [done|].
  destruct (Z.ltb_spec (zlen data) (2 + n)); [done|]. by rewrite slice_inside by lia.
Qed.

Lemma skip_read_PLP_loop fuel data off v :
  0 <= off -> SkipPLP_loop fuel data off = (r <~ ReadPLP_loop fuel data off v; Ok (Some r.1)).
Proof.
  revert off v. induction fuel as [|fuel IH]; intros off v Ho; [done|]. cbn [SkipPLP_loop ReadPLP_loop].
  destruct (Z.ltb_spec (zlen data) (off + 4)); [done|].
  pose proof (holds_get32le data off (fun v => 0 <= v < 4294967296) ltac:(lia) ltac:(lia) ltac:(done)) as H'.
  destruct (get32le data off) as [n| |]; simpl in H' |- *; [|done..].
  destruct (n =? 0); [done|]. destruct (Z.ltb_spec (zlen data) (off + 4 + n)); [done|].
  rewrite slice_inside by lia. simpl. apply IH. lia.
Qed.

Lemma skip_read_PLP data : SkipPLPType data = sizes (ReadPLPType data).
Proof.
  unfold SkipPLPType, ReadPLPType. destruct (zlen data <? 8); [done|].
  destruct (get64le data 0) as [n| |]; cbn [mbind res_bind]; [|done..].
  destruct (n =? PLP_NULL_MARKER); [done|]. rewrite (skip_read_PLP_loop _ _ _ []) by lia.
  by destruct (ReadPLP_loop _ _ _ _) as [[[]|]| |].
Qed.

(** A GUID, if the column is one, whose length byte is the 0 or 16 of the format. *)
Definition guid_length_ok (data : bytes) (c : ColumnMetadata) : Prop :=
  type_id c = TDS_TYPE_UNIQUEIDENTIFIER -> forall n r, data = n :: r -> b2z n = 0 \/ b2z n = 16.

Lemma SkipValue_ReadValue data c :
  is_one_of (type_id c) readable_types = true -> guid_length_ok data c ->
  SkipValue data c = sizes (ReadValue data c).
Proof.
  intros Hr Hg. rewrite SkipValue_kind, ReadValue_kind, Hr.
  pose proof (kind_of_readable _ Hr) as Hk. destruct (kind_of (type_id c)); try done; simpl.
  - by apply skip_read_fixed.
  - destruct (Z.eqb_spec (type_id c) TDS_TYPE_UNIQUEIDENTIFIER); [by apply skip_read_guid, Hg|apply skip_read_prefix1].
  - apply skip_read_PLP.
  - destruct (IsPLPType c); [apply skip_read_PLP|apply skip_read_prefix2].
Qed.

Lemma SkipValue_ReadValueNBC data c :
  is_one_of (type_id c) readable_types = true -> SkipValue data c = sizes (ReadValueNBC data c).
Proof.
  intros Hr. rewrite SkipValue_kind, ReadValueNBC_kind, Hr.
  pose proof (kind_of_readable _ Hr) as Hk. destruct (kind_of (type_id c)); try done; simpl.
  - by apply skip_read_fixed.
  - apply skip_read_prefix1_nbc.
  - apply skip_read_PLP.
  - destruct (IsPLPType c); [apply skip_read_PLP|apply skip_read_prefix2].
Qed.

(** Safety of a read follows from that of the skip with the same sizes. *)
Lemma sizes_safe m (Q : Z -> Prop) :
  holds_some (sizes m) Q -> holds_some m (fun r => Q (consumed r)).
Proof. by destruct m as [[r|]| |]. Qed.

Lemma ReadGuidType_safe data : holds_some (ReadGuidType data) (fun r => 0 < consumed r <= zlen data).
Proof. unfold ReadGuidType. safe_steps; simpl; lia. Qed.

Lemma ReadValue_safe data c : holds_some (ReadValue data c) (fun r => 0 < consumed r <= zlen data).
Proof.
  destruct (is_one_of (type_id c) readable_types) eqn:Hr; [|by rewrite ReadValue_kind, Hr].
  destruct (decide (type_id c = TDS_TYPE_UNIQUEIDENTIFIER)) as [Hg|Hg].
  - rewrite ReadValue_kind, Hg. apply ReadGuidType_safe.
  - apply (sizes_safe _ (fun n => 0 < n <= zlen data)).
    rewrite <- SkipValue_ReadValue; [apply SkipValue_safe|done|by intros ?].
Qed.

Lemma ReadValueNBC_safe data c : holds_some (ReadValueNBC data c) (fun r => 0 < consumed r <= zlen data).
Proof.
  destruct (is_one_of (type_id c) readable_types) eqn:Hr; [|by rewrite ReadValueNBC_kind, Hr].
  apply (sizes_safe _ (fun n => 0 < n <= zlen data)).
  rewrite <- SkipValue_ReadValueNBC by done. apply SkipValue_safe.
Qed.

Lemma ReadRow_loop_safe data cols i off row :
  0 <= off <= zlen data ->
  holds_some (ReadRow_loop data cols i off row) (fun '(k, _) => off <= k <= zlen data).
Proof.
  revert i off row. induction cols as [|c cols IH]; intros i off row Ho; cbn [ReadRow_loop]; [simpl; lia|].
  apply holds_obind. pose proof (zlen_zdrop off data Ho).
  safe_use ReadValue_safe. eapply holds_some_mono; [apply IH; lia|]. intros []. lia.
Qed.

Lemma ReadBitmap_loop_safe data cols i row Q :
  (Z.of_nat i + zlen cols + 7) / 8 <= zlen data ->
  (forall row', length (null_mask row') = length (null_mask row) -> Q row') ->
  holds (ReadBitmap_loop data cols i row) Q.
Proof.
  revert i row. induction cols as [|c cols IH]; intros i row Hb HQ; cbn [ReadBitmap_loop].
  - by apply HQ.
  - rewrite zlen_cons in Hb. pose proof (zlen_nonneg cols).
    apply holds_bind, bitmap_bit_safe; [zlia|]. intros b. apply IH.
    + by replace (Z.of_nat (S i) + zlen cols) with (Z.of_nat i + (1 + zlen cols)) by lia.
    + intros row' Hl. apply HQ. rewrite Hl. simpl. by rewrite length_insert.
Qed.

Lemma ReadNBCRow_loop_safe data cols i off row :
  0 <= off <= zlen data -> (i + length cols <= length (null_mask row))%nat ->
  holds_some (ReadNBCRow_loop data cols i off row) (fun '(k, _) => off <= k <= zlen data).
Proof.
  revert i off row. induction cols as [|c cols IH]; intros i off row Ho Hl; cbn [ReadNBCRow_loop]; [simpl; lia|].
  simpl in Hl. destruct (lookup_lt_is_Some_2 (null_mask row) i) as [b ->]; [lia|].
  destruct b; [apply IH; [done|lia]|].
  apply holds_obind. pose proof (zlen_zdrop off data Ho).
  safe_use ReadValueNBC_safe. eapply holds_some_mono; [apply IH; simpl; lia|]. intros []. lia.
Qed.

Lemma length_null_mask_Prepare n row :
  length (null_mask row) = length (values row) -> length (null_mask (RowData_Prepare n row)) = n.
Proof.
  intros H. unfold RowData_Prepare. case_bool_decide; simpl.
  - apply length_resize.
  - rewrite length_fmap, H. lia.
Qed.

(** ** A longer buffer gives the same answer *)

Lemma SkipPLP_loop_extends f f' data e off :
  (f <= f')%nat -> extends_some (SkipPLP_loop f data off) (SkipPLP_loop f' (data ++ e) off).
Proof.
  pose proof (zlen_nonneg e). revert f' off. induction f as [|f IH]; intros f' off Hf; [done|].
  destruct f' as [|f']; [lia|]. cbn [SkipPLP_loop]. extends_steps. apply IH. lia.
Qed.

Lemma SkipPLPType_extends data e : extends_some (SkipPLPType data) (SkipPLPType (data ++ e)).
Proof.
  pose proof (zlen_nonneg e). unfold SkipPLPType. extends_steps.
  apply SkipPLP_loop_extends. rewrite length_app. lia.
Qed.

Lemma SkipValue_extends data e c : extends_some (SkipValue data c) (SkipValue (data ++ e) c).
Proof.
  pose proof (zlen_nonneg e). rewrite !SkipValue_kind.
  destruct (kind_of (type_id c)); simpl; try apply SkipPLPType_extends.
  - unfold skip_fixed. extends_steps.
  - unfold skip_prefix1. extends_steps.
  - unfold skip_lob. extends_steps.
  - destruct (IsPLPType c); [apply SkipPLPType_extends|]. unfold skip_prefix2. extends_steps.
  - by left.
Qed.

Lemma SkipRow_loop_extends data e cols i off :
  0 <= off <= zlen data ->
  extends_some (SkipRow_loop None data cols i off) (SkipRow_loop None (data ++ e) cols i off).
Proof.
  revert i off. induction cols as [|c cols IH]; intros i off Ho; cbn [SkipRow_loop]; [apply extends_refl|].
  simpl skip_one. rewrite zdrop_app_le by lia. apply extends_obind; [apply SkipValue_extends|].
  intros n E. pose proof (SkipValue_safe (zdrop off data) c) as Hs. rewrite E in Hs. simpl in Hs.
  rewrite zlen_zdrop in Hs by lia. apply IH. lia.
Qed.

Lemma extends_bitmap_bit data e i : extends (fun _ => False) (bitmap_bit data i) (bitmap_bit (data ++ e) i).
Proof. unfold bitmap_bit. apply extends_bind; [auto with tds|]. intros. apply extends_refl. Qed.
#[local] Hint Resolve extends_bitmap_bit : tds.

Lemma SkipNBCRow_loop_extends data e cols i off :
  0 <= off <= zlen data ->
  extends_some (SkipNBCRow_loop None data cols i off) (SkipNBCRow_loop None (data ++ e) cols i off).
Proof.
  revert i off. induction cols as [|c cols IH]; intros i off Ho; cbn [SkipNBCRow_loop]; [apply extends_refl|].
  apply extends_bind; [auto with tds|]. intros [] _; [by apply IH|].
  simpl skip_one. rewrite !SkipValueNBC_eq, zdrop_app_le by lia.
  apply extends_obind; [apply SkipValue_extends|].
  intros n E. pose proof (SkipValue_safe (zdrop off data) c) as Hs. rewrite E in Hs. simpl in Hs.
  rewrite zlen_zdrop in Hs by lia. apply IH. lia.
Qed.

Lemma ReadPLP_loop_extends f f' data e off v :
  (f <= f')%nat -> extends_some (ReadPLP_loop f data off v) (ReadPLP_loop f' (data ++ e) off v).
Proof.
  pose proof (zlen_nonneg e). revert f' off v. induction f as [|f IH]; intros f' off v Hf; [done|].
  destruct f' as [|f']; [lia|]. cbn [ReadPLP_loop]. extends_steps. apply IH. lia.
Qed.

Lemma ReadPLPType_extends data e : extends_some (ReadPLPType data) (ReadPLPType (data ++ e)).
Proof.
  pose proof (zlen_nonneg e). unfold ReadPLPType. extends_steps.
  apply ReadPLP_loop_extends. rewrite length_app. lia.
Qed.

Lemma ReadVariableLengthType_extends data e :
  extends_some (ReadVariableLengthType data) (ReadVariableLengthType (data ++ e)).
Proof. pose proof (zlen_nonneg e). unfold ReadVariableLengthType. extends_steps. Qed.

Lemma read_fixed_extends n data e : extends_some (read_fixed n data) (read_fixed n (data ++ e)).
Proof. pose proof (zlen_nonneg e). unfold read_fixed. extends_steps. Qed.
#[local] Hint Resolve ReadPLPType_extends ReadVariableLengthType_extends read_fixed_extends : tds.

Lemma ReadValue_extends data e c : extends_some (ReadValue data c) (ReadValue (data ++ e) c).
Proof.
  pose proof (zlen_nonneg e). rewrite !ReadValue_kind. apply extends_if; [intros _|done].
  destruct (kind_of (type_id c)); simpl; auto with tds; apply extends_if; auto with tds; intros _.
  - unfold ReadGuidType. extends_steps.
  - unfold read_prefix1. extends_steps.
Qed.

Lemma ReadValueNBC_extends data e c : extends_some (ReadValueNBC data c) (ReadValueNBC (data ++ e) c).
Proof.
  pose proof (zlen_nonneg e). rewrite !ReadValueNBC_kind. apply extends_if; [intros _|done].
  destruct (kind_of (type_id c)); simpl; auto with tds; try (apply extends_if; auto with tds; intros _).
  unfold read_prefix1_nbc. extends_steps.
Qed.

Lemma ReadRow_loop_extends data e cols i off row :
  0 <= off <= zlen data ->
  extends_some (ReadRow_loop data cols i off row) (ReadRow_loop (data ++ e) cols i off row).
Proof.
  revert i off row. induction cols as [|c cols IH]; intros i off row Ho; cbn [ReadRow_loop]; [apply extends_refl|].
  rewrite zdrop_app_le by lia. apply extends_obind; [apply ReadValue_extends|].
  intros n E. pose proof (ReadValue_safe (zdrop off data) c) as Hs. rewrite E in Hs. simpl in Hs.
  rewrite zlen_zdrop in Hs by lia. apply IH. lia.
Qed.

Lemma ReadBitmap_loop_extends data e cols i row :
  extends (fun _ => False) (ReadBitmap_loop data cols i row) (ReadBitmap_loop (data ++ e) cols i row).
Proof.
  revert i row. induction cols as [|c cols IH]; intros i row; cbn [ReadBitmap_loop]; [apply extends_refl|].
  apply extends_bind; [auto with tds|]. intros b _. apply IH.
Qed.

Lemma ReadNBCRow_loop_extends data e cols i off row :
  0 <= off <= zlen data ->
  extends_some (ReadNBCRow_loop data cols i off row) (ReadNBCRow_loop (data ++ e) cols i off row).
Proof.
  revert i off row. induction cols as [|c cols IH]; intros i off row Ho; cbn [ReadNBCRow_loop]; [apply extends_refl|].
  destruct (null_mask row !! i) as [[]|]; [by apply IH| |apply extends_refl].
  rewrite zdrop_app_le by lia. apply extends_obind; [apply ReadValueNBC_extends|].
  intros n E. pose proof (ReadValueNBC_safe (zdrop off data) c) as Hs. rewrite E in Hs. simpl in Hs.
  rewrite zlen_zdrop in Hs by lia. apply IH. lia.
Qed.

(** The four row walks, safe and incremental. *)
Lemma bitmap_bytes_nonneg cols : 0 <= bitmap_bytes cols.
Proof. unfold bitmap_bytes. pose proof (zlen_nonneg cols). apply Z.div_pos; lia. Qed.

Lemma SkipRow_safe cols data : holds_some (SkipRow cols None data) (fun n => 0 <= n <= zlen data).
Proof. apply SkipRow_loop_safe. pose proof (zlen_nonneg data). lia. Qed.

Lemma SkipRow_extends cols data e : extends_some (SkipRow cols None data) (SkipRow cols None (data ++ e)).
Proof. apply SkipRow_loop_extends. pose proof (zlen_nonneg data). lia. Qed.

Lemma SkipNBCRow_safe cols data : holds_some (SkipNBCRow cols None data) (fun n => 0 <= n <= zlen data).
Proof.
  unfold SkipNBCRow. pose proof (bitmap_bytes_nonneg cols). safe_steps.
  eapply holds_some_mono; [apply SkipNBCRow_loop_safe; [lia|]|simpl; lia].
  unfold bitmap_bytes in *. rewrite Z.add_0_l. lia.
Qed.

Lemma SkipNBCRow_extends cols data e :
  extends_some (SkipNBCRow cols None data) (SkipNBCRow cols None (data ++ e)).
Proof.
  unfold SkipNBCRow. pose proof (bitmap_bytes_nonneg cols). pose proof (zlen_nonneg e).
  extends_steps. apply SkipNBCRow_loop_extends. lia.
Qed.

Lemma ReadRow_safe cols data row : holds_some (ReadRow cols data row) (fun '(n, _) => 0 <= n <= zlen data).
Proof. apply ReadRow_loop_safe. pose proof (zlen_nonneg data). lia. Qed.

Lemma ReadRow_extends cols data e row : extends_some (ReadRow cols data row) (ReadRow cols (data ++ e) row).
Proof. apply ReadRow_loop_extends. pose proof (zlen_nonneg data). lia. Qed.

(** What holds of a row object that was only changed by its member functions
    and by the readers. *)
Definition row_ok (row : RowData) : Prop := length (null_mask row) = length (values row).

Lemma ReadNBCRow_safe cols data row :
  row_ok row -> holds_some (ReadNBCRow cols data row) (fun '(n, _) => 0 <= n <= zlen data).
Proof.
  intros Hrow. unfold ReadNBCRow. cbv zeta. pose proof (bitmap_bytes_nonneg cols).
  pose proof (length_null_mask_Prepare (length cols) row Hrow) as Hlen.
  apply holds_guard; intros. apply holds_some_bind.
  apply ReadBitmap_loop_safe; [unfold bitmap_bytes in *; rewrite Z.add_0_l; lia|]. intros row' Hl. simpl.
  eapply holds_some_mono; [apply ReadNBCRow_loop_safe; lia|]. intros []. lia.
Qed.

Lemma ReadNBCRow_extends cols data e row :
  extends_some (ReadNBCRow cols data row) (ReadNBCRow cols (data ++ e) row).
Proof.
  unfold ReadNBCRow. pose proof (bitmap_bytes_nonneg cols). pose proof (zlen_nonneg e).
  cbv zeta. apply extends_guard; [rewrite zlen_app; lia|]. intros.
  apply extends_bind; [apply ReadBitmap_loop_extends|]. intros.
  apply ReadNBCRow_loop_extends. lia.
Qed.

(** ** The values on the wire ([MS-TDS] TYPE_VARBYTE) *)

(** A value and its chunks: nonempty chunks, then an empty one. *)
Inductive plp_chunks : bytes -> bytes -> Prop :=
  | plp_end : plp_chunks [] [Byte.x00; Byte.x00; Byte.x00; Byte.x00]
  | plp_chunk n0 n1 n2 n3 chunk v w :
      zlen chunk = le32 n0 n1 n2 n3 -> 0 < zlen chunk -> plp_chunks v w ->
      plp_chunks (chunk ++ v) (n0 :: n1 :: n2 :: n3 :: chunk ++ w).

Definition plp_column (c : ColumnMetadata) : Prop :=
  kind_of (type_id c) = KXml \/ kind_of (type_id c) = KVar /\ IsPLPType c = true.

(** [value_wire c ov w]: [w] is the value [ov] ([None]: NULL) of a column [c]. *)
Inductive value_wire (c : ColumnMetadata) : option bytes -> bytes -> Prop :=
  | vw_fixed n v :
      kind_of (type_id c) = KFixed n -> zlen v = n -> value_wire c (Some v) v
  | vw_prefix1_null :
      kind_of (type_id c) = KPrefix1 -> value_wire c None [Byte.x00]
  | vw_prefix1 n v :
      kind_of (type_id c) = KPrefix1 -> zlen v = b2z n -> 0 < b2z n ->
      (type_id c = TDS_TYPE_UNIQUEIDENTIFIER -> b2z n = 16) ->
      value_wire c (Some v) (n :: v)
  | vw_prefix2_null :
      kind_of (type_id c) = KVar -> IsPLPType c = false -> value_wire c None [Byte.xff; Byte.xff]
  | vw_prefix2 lo hi v :
      kind_of (type_id c) = KVar -> IsPLPType c = false ->
      zlen v = le16 lo hi -> zlen v <> 0xFFFF -> value_wire c (Some v) (lo :: hi :: v)
  | vw_plp_null :
      plp_column c -> value_wire c None (replicate 8 Byte.xff)
  | vw_plp total v w :
      plp_column c -> zlen total = 8 -> get64le total 0 <> Ok PLP_NULL_MARKER ->
      plp_chunks v w -> value_wire c (Some v) (total ++ w).

Inductive row_wire : list ColumnMetadata -> list (option bytes) -> bytes -> Prop :=
  | row_wire_nil : row_wire [] [] []
  | row_wire_cons c cols ov ovs w ws :
      is_one_of (type_id c) readable_types = true -> value_wire c ov w ->
      row_wire cols ovs ws -> row_wire (c :: cols) (ov :: ovs) (w ++ ws).

(** The NULL bitmap: one bit per column, lowest bit first. *)
Definition nbc_bitmap (bm : bytes) (ovs : list (option bytes)) : Prop :=
  zlen bm = (zlen ovs + 7) / 8 /\
  forall i ov, ovs !! i = Some ov ->
    exists b, bm !! (i / 8)%nat = Some b /\ Z.testbit (b2z b) (Z.of_nat (i mod 8)) = bool_decide (ov = None).

(** After it, the values that are not NULL. *)
Inductive nbc_values : list ColumnMetadata -> list (option bytes) -> bytes -> Prop :=
  | nbc_values_nil : nbc_values [] [] []
  | nbc_values_null c cols ovs ws : nbc_values cols ovs ws -> nbc_values (c :: cols) (None :: ovs) ws
  | nbc_values_cons c cols v ovs w ws :
      is_one_of (type_id c) readable_types = true -> value_wire c (Some v) w ->
      nbc_values cols ovs ws -> nbc_values (c :: cols) (Some v :: ovs) (w ++ ws).

(** The [RowData] of a list of values. *)
Definition row_of (ovs : list (option bytes)) : RowData :=
  mkRowData (default [] <$> ovs) ((fun ov => bool_decide (ov = None)) <$> ovs).

(** ** The readers on well-formed values *)

Lemma ReadPLP_loop_complete v w fuel data off acc r :
  plp_chunks v w -> cursor data off (w ++ r) -> (length (w ++ r) < fuel)%nat ->
  ReadPLP_loop fuel data off acc = Ok (Some (off + zlen w, acc ++ v)).
Proof.
  intros Hw. revert fuel off acc. induction Hw as [|n0 n1 n2 n3 chunk v w Hl Hp _ IH]; intros fuel off acc Hc Hf.
  - destruct fuel; [lia|]. pose proof (cursor_len _ _ _ Hc) as Hd. pose proof (zlen_nonneg r).
    autorewrite with zlen in Hd. simpl app in Hc. cbn [ReadPLP_loop]. cursor_eval.
    change (le32 _ _ _ _ =? 0) with true. cbv iota. by rewrite app_nil_r.
  - destruct fuel; [lia|]. pose proof (cursor_len _ _ _ Hc) as Hd.
    pose proof (zlen_nonneg r). pose proof (zlen_nonneg w).
    simpl app in Hc, Hd. rewrite <- app_assoc in Hc, Hd. autorewrite with zlen in Hd.
    cbn [ReadPLP_loop]. cursor_eval. replace (le32 n0 n1 n2 n3 =? 0) with false by lia. cursor_eval.
    match goal with Hc : cursor data (off + 4) _ |- _ =>
      erewrite (cursor_slice _ _ _ _ _ Hc) by done; apply cursor_app in Hc; rewrite Hl in Hc;
      cbn [mbind res_bind]; rewrite (IH _ _ _ Hc) end.
    + rewrite app_assoc, !zlen_cons, zlen_app. do 3 f_equal. lia.
    + simpl in Hf. rewrite !length_app in *. lia.
Qed.

Lemma ReadPLPType_chunks total v w r :
  zlen total = 8 -> get64le total 0 <> Ok PLP_NULL_MARKER -> plp_chunks v w ->
  ReadPLPType ((total ++ w) ++ r) = Ok (Some (mkRead (zlen (total ++ w)) v false)).
Proof.
  intros Ht Hn Hw. pose proof (zlen_nonneg r). pose proof (zlen_nonneg w). unfold ReadPLPType.
  rewrite <- app_assoc. replace (_ <? 8) with false by (autorewrite with zlen; lia).
  pose proof (holds_get64le total 0 (fun _ => True) ltac:(lia) ltac:(lia) ltac:(done)) as Hg.
  destruct (get64le total 0) as [t|e|] eqn:Et; [|by apply get64le_not_exn in Et|done].
  rewrite (get64le_app_l _ _ _ _ Et). cbn [mbind res_bind].
  replace (t =? PLP_NULL_MARKER) with false by (symmetry; apply Z.eqb_neq; congruence). cbv iota zeta.
  pose proof (cursor_app _ _ _ _ (cursor_0 (total ++ w ++ r))) as Hc.
  rewrite Ht in Hc. change (0 + 8) with 8 in Hc.
  rewrite (ReadPLP_loop_complete _ _ _ _ _ [] r Hw Hc), obind_Ok_Some by (rewrite (length_app total); lia).
  cbn [fst snd]. by rewrite zlen_app, Ht.
Qed.

Lemma ReadPLPType_complete ov w r c :
  value_wire c ov w -> plp_column c ->
  ReadPLPType (w ++ r) = Ok (Some (mkRead (zlen w) (default [] ov) (bool_decide (ov = None)))).
Proof.
  intros Hw Hp.
  destruct Hw as [n v Hk|Hk|n v Hk|Hk|lo hi v Hk|Hk|total v w Hk Ht Hn Hw];
    try (destruct Hp as [Hp|[Hp Hplp]]; congruence).
  - unfold ReadPLPType. pose proof (zlen_nonneg r).
    replace (_ <? 8) with false by (rewrite zlen_app; change (zlen (replicate _ _)) with 8; lia).
    by rewrite (get64le_app_l (replicate 8 Byte.xff) _ _ PLP_NULL_MARKER) by reflexivity.
  - by apply ReadPLPType_chunks.
Qed.

Lemma ReadVariableLengthType_complete ov w r c :
  value_wire c ov w -> kind_of (type_id c) = KVar -> IsPLPType c = false ->
  ReadVariableLengthType (w ++ r) = Ok (Some (mkRead (zlen w) (default [] ov) (bool_decide (ov = None)))).
Proof.
  intros Hw Hk Hp. pose proof (zlen_nonneg r). unfold ReadVariableLengthType.
  name_buffer (w ++ r) data Hc. pose proof (cursor_len _ _ _ Hc) as Hl.
  destruct Hw as [n v Hk'|Hk'|n v Hk'|Hk'|lo hi v Hk' Hp' Hz Hn|[Hk'|[]]|total v w [Hk'|[]] Ht Hn Hw]; try congruence;
    simpl app in Hc; autorewrite with zlen in Hl; cursor_eval.
  - done.
  - pose proof (zlen_nonneg v). cursor_eval. replace (le16 lo hi =? 0xFFFF) with false by lia. cursor_eval.
    erewrite cursor_slice by done. simpl. do 3 f_equal. autorewrite with zlen. lia.
Qed.

Lemma read_prefix1_complete ov w r c :
  value_wire c ov w -> kind_of (type_id c) = KPrefix1 ->
  read_prefix1 (w ++ r) = Ok (Some (mkRead (zlen w) (default [] ov) (bool_decide (ov = None)))) /\
  (type_id c = TDS_TYPE_UNIQUEIDENTIFIER ->
   ReadGuidType (w ++ r) = Ok (Some (mkRead (zlen w) (default [] ov) (bool_decide (ov = None))))) /\
  (ov <> None -> read_prefix1_nbc (w ++ r) = Ok (Some (mkRead (zlen w) (default [] ov) false))).
Proof.
  intros Hw Hk. pose proof (zlen_nonneg r). unfold read_prefix1, ReadGuidType, read_prefix1_nbc.
  name_buffer (w ++ r) data Hc. pose proof (cursor_len _ _ _ Hc) as Hl.
  destruct Hw as [n v Hk'|Hk'|n v Hk' Hz Hn Hg|Hk'|lo hi v Hk' Hp' Hz Hn|[Hk'|[]]|total v w [Hk'|[]] Ht Hn Hw];
    try congruence; simpl app in Hc; autorewrite with zlen in Hl.
  - split; [|split; [intros _|done]]; cursor_eval; done.
  - pose proof (zlen_nonneg v). cursor_eval. replace (b2z n =? 0) with false by lia.
    split; [|split; [intros Hgt; specialize (Hg Hgt)|intros _]]; cursor_eval;
      (erewrite cursor_slice by (done || lia)); simpl; do 3 f_equal; autorewrite with zlen; lia.
Qed.

Lemma ReadValue_complete ov w r c :
  is_one_of (type_id c) readable_types = true -> value_wire c ov w ->
  ReadValue (w ++ r) c = Ok (Some (mkRead (zlen w) (default [] ov) (bool_decide (ov = None)))).
Proof.
  intros Hr Hw. rewrite ReadValue_kind, Hr. pose proof (kind_of_readable _ Hr) as Hkr.
  destruct (kind_of (type_id c)) as [n| | | | |] eqn:Hk; try done; simpl.
  - destruct Hw as [m v Hk' Hz|Hk'|? v Hk' Hz Hn Hg|Hk'|lo hi v Hk' Hp' Hz Hn|[Hk'|[]]|total v w [Hk'|[]] Ht Hn Hw];
      try congruence. rewrite Hk' in Hk. injection Hk as ->.
    unfold read_fixed. pose proof (zlen_nonneg r).
    replace (_ <? n) with false by (rewrite zlen_app; lia). rewrite slice_prefix by done. simpl. by rewrite Hz.
  - destruct (read_prefix1_complete _ _ r _ Hw Hk) as (H1 & H2 & _).
    destruct (Z.eqb_spec (type_id c) TDS_TYPE_UNIQUEIDENTIFIER); auto.
  - eapply ReadPLPType_complete; [done|]. by left.
  - destruct (IsPLPType c) eqn:Hp; [eapply ReadPLPType_complete; [done|by right]|].
    by eapply ReadVariableLengthType_complete.
Qed.

Lemma ReadValueNBC_complete v w r c :
  is_one_of (type_id c) readable_types = true -> value_wire c (Some v) w ->
  ReadValueNBC (w ++ r) c = Ok (Some (mkRead (zlen w) v false)).
Proof.
  intros Hr Hw. rewrite ReadValueNBC_kind, Hr. pose proof (ReadValue_complete _ _ r _ Hr Hw) as H.
  rewrite ReadValue_kind, Hr in H. pose proof (kind_of_readable _ Hr) as Hkr.
  destruct (kind_of (type_id c)) as [n| | | | |] eqn:Hk; try done; simpl in *.
  by apply (read_prefix1_complete _ _ r _ Hw Hk).
Qed.

(** ** Whole rows *)

Lemma insert_take_app {A} (l : list A) i (x : A) (vs : list A) :
  (i < length l)%nat -> take (S i) (<[i := x]> l) ++ vs = take i l ++ x :: vs.
Proof.
  intros Hi. rewrite (take_S_r _ _ x) by by apply list_lookup_insert_eq.
  rewrite take_insert_ge by lia. by rewrite <- app_assoc.
Qed.

Lemma row_wire_length cols ovs w : row_wire cols ovs w -> length ovs = length cols.
Proof. induction 1; simpl; congruence. Qed.

Lemma ReadRow_loop_complete cols ovs w : row_wire cols ovs w -> forall data i off r row,
  cursor data off (w ++ r) ->
  length (values row) = (i + length cols)%nat -> length (null_mask row) = (i + length cols)%nat ->
  ReadRow_loop data cols i off row =
  Ok (Some (off + zlen w, mkRowData (take i (values row) ++ values (row_of ovs))
                                    (take i (null_mask row) ++ null_mask (row_of ovs)))).
Proof.
  induction 1 as [|c cols ov ovs w ws Hr Hw Hrow IH]; intros data i off r row Hc Hv Hm; cbn [ReadRow_loop].
  - simpl. rewrite !app_nil_r, zlen_nil. simpl in Hv, Hm. rewrite Nat.add_0_r in *.
    rewrite !take_ge by lia. destruct row. do 3 f_equal. lia.
  - rewrite <- app_assoc in Hc. pose proof (cursor_app _ _ _ _ Hc) as Hc'. destruct Hc as [_ ->].
    rewrite (ReadValue_complete _ _ (ws ++ r) _ Hr Hw), obind_Ok_Some. simpl consumed. simpl value. simpl is_null.
    simpl in Hv, Hm.
    rewrite (IH _ (S i) _ _ _ Hc') by (simpl; rewrite length_insert; lia). simpl.
    rewrite !insert_take_app by lia. rewrite zlen_app. do 3 f_equal. lia.
Qed.

Lemma length_Prepare n row :
  row_ok row ->
  length (values (RowData_Prepare n row)) = n /\ length (null_mask (RowData_Prepare n row)) = n.
Proof.
  intros H. split; [|by apply length_null_mask_Prepare]. unfold RowData_Prepare.
  case_bool_decide; simpl; [apply length_resize|]. rewrite length_fmap. lia.
Qed.

Lemma ReadRow_complete cols ovs w r row :
  row_ok row -> row_wire cols ovs w ->
  ReadRow cols (w ++ r) row = Ok (Some (zlen w, row_of ovs)).
Proof.
  intros Hrow Hw. unfold ReadRow. destruct (length_Prepare (length cols) row Hrow) as [Hv Hm].
  rewrite (ReadRow_loop_complete _ _ _ Hw _ 0%nat 0 r _ (cursor_0 _)) by done. done.
Qed.

Lemma SkipRow_loop_complete cols ovs w : row_wire cols ovs w -> forall data i off r,
  cursor data off (w ++ r) -> SkipRow_loop None data cols i off = Ok (Some (off + zlen w)).
Proof.
  induction 1 as [|c cols ov ovs w ws Hr Hw Hrow IH]; intros data i off r Hc; cbn [SkipRow_loop].
  - rewrite zlen_nil. do 2 f_equal. lia.
  - rewrite <- app_assoc in Hc. pose proof (cursor_app _ _ _ _ Hc) as Hc'. destruct Hc as [_ ->].
    simpl skip_one. rewrite SkipValue_ReadValue; [|done|].
    + rewrite (ReadValue_complete _ _ (ws ++ r) _ Hr Hw). unfold sizes. rewrite !obind_Ok_Some. simpl consumed.
      rewrite (IH _ (S i) _ _ Hc'). rewrite zlen_app. do 2 f_equal. lia.
    + intros Hg n r' Er. destruct Hw as [m v Hk|Hk|n' v Hk Hz Hn Hgl|Hk|lo hi v Hk|[Hk|[Hk]]|total v w [Hk|[Hk]]];
        try (rewrite Hg in Hk; vm_compute in Hk; discriminate Hk); simplify_eq/=; auto.
Qed.

Lemma bitmap_bit_spec bm ovs r i ov :
  nbc_bitmap bm ovs -> ovs !! i = Some ov -> bitmap_bit (bm ++ r) i = Ok (bool_decide (ov = None)).
Proof.
  intros [_ Hb] Hi. destruct (Hb _ _ Hi) as (b & Hl & Hbit). unfold bitmap_bit.
  assert (get8 (bm ++ r) (Z.of_nat i / 8) = Ok (b2z b)) as ->.
  { apply get8_app_l. unfold get8. change 8 with (Z.of_nat 8). rewrite <- Nat2Z.inj_div, Nat2Z.id, Hl.
    apply lookup_lt_Some in Hl. unfold zlen.
    replace (_ <=? _) with true by lia. by replace (_ <? _) with true by lia. }
  simpl. rewrite land_shiftl1_testbit by (apply Z.mod_pos_bound; lia).
  change 8 with (Z.of_nat 8). by rewrite <- Nat2Z.inj_mod, Hbit.
Qed.

Lemma ReadBitmap_loop_complete bm r all_ovs cols i row :
  nbc_bitmap bm all_ovs -> length all_ovs = (i + length cols)%nat ->
  length (null_mask row) = length all_ovs ->
  ReadBitmap_loop (bm ++ r) cols i row =
  Ok (mkRowData (values row) (take i (null_mask row) ++ ((fun ov => bool_decide (ov = None)) <$> drop i all_ovs))).
Proof.
  intros Hb. revert i row. induction cols as [|c cols IH]; intros i row Hl Hm; cbn [ReadBitmap_loop]; simpl in Hl.
  - rewrite Nat.add_0_r in Hl. rewrite take_ge, drop_ge, app_nil_r by lia. by destruct row.
  - destruct (lookup_lt_is_Some_2 all_ovs i) as [ov Hov]; [lia|].
    rewrite (bitmap_bit_spec _ _ _ _ _ Hb Hov). simpl.
    rewrite IH by (simpl; rewrite ?length_insert; lia). simpl. do 2 f_equal.
    rewrite (drop_S _ _ _ Hov). simpl. apply insert_take_app. lia.
Qed.

Lemma nbc_values_length cols ovs w : nbc_values cols ovs w -> length ovs = length cols.
Proof. induction 1; simpl; congruence. Qed.

Lemma ReadNBCRow_loop_complete cols ovs w : nbc_values cols ovs w -> forall data i off r row,
  cursor data off (w ++ r) ->
  length (values row) = (i + length cols)%nat ->
  drop i (null_mask row) = (fun ov => bool_decide (ov = None)) <$> ovs ->
  drop i (values row) = replicate (length cols) [] ->
  ReadNBCRow_loop data cols i off row =
  Ok (Some (off + zlen w, mkRowData (take i (values row) ++ values (row_of ovs)) (null_mask row))).
Proof.
  induction 1 as [|c cols ovs ws Hrow IH|c cols v ovs w ws Hr Hw Hrow IH];
    intros data i off r row Hc Hv Hm Hd; cbn [ReadNBCRow_loop].
  - simpl. rewrite app_nil_r, zlen_nil. simpl in Hv. rewrite Nat.add_0_r in *.
    rewrite take_ge by lia. destruct row. do 3 f_equal. lia.
  - simpl in Hm, Hd. assert (null_mask row !! i = Some true) as Hi.
    { rewrite <- (Nat.add_0_r i), <- lookup_drop, Hm. done. }
    assert (values row !! i = Some []) as Hvi.
    { rewrite <- (Nat.add_0_r i), <- lookup_drop, Hd. done. }
    simpl in Hv. rewrite Hi, (IH _ (S i) _ r _ Hc); [|lia|..].
    + simpl. by rewrite (take_S_r _ _ _ Hvi), <- app_assoc.
    + by rewrite <- Nat.add_1_r, <- drop_drop, Hm.
    + by rewrite <- Nat.add_1_r, <- drop_drop, Hd.
  - simpl in Hm, Hd. assert (null_mask row !! i = Some false) as Hi.
    { rewrite <- (Nat.add_0_r i), <- lookup_drop, Hm. done. }
    simpl in Hv. rewrite <- app_assoc in Hc. pose proof (cursor_app _ _ _ _ Hc) as Hc'. destruct Hc as [_ Hz].
    rewrite Hi, Hz, (ReadValueNBC_complete _ _ (ws ++ r) _ Hr Hw), obind_Ok_Some. simpl consumed. simpl value.
    rewrite (IH _ (S i) _ r _ Hc'); simpl.
    + rewrite insert_take_app by lia. rewrite zlen_app. do 3 f_equal. lia.
    + rewrite length_insert. lia.
    + by rewrite <- Nat.add_1_r, <- drop_drop, Hm.
    + rewrite drop_insert_lt by lia. by rewrite <- Nat.add_1_r, <- drop_drop, Hd.
Qed.

(** A row object after [Clear], or a fresh one: no value is left in it. *)
Definition row_clear (row : RowData) : Prop := row_ok row /\ Forall (fun v => v = []) (values row).

Lemma Prepare_values n row : row_clear row -> values (RowData_Prepare n row) = replicate n [].
Proof.
  intros [Hok Hc]. unfold RowData_Prepare. case_bool_decide as Hn; simpl.
  - symmetry. apply replicate_as_Forall_2; [apply length_resize|]. apply Forall_resize; [done|].
    eapply Forall_impl; [done|]. by intros ? ->.
  - assert (length (values row) = n) as <- by (destruct (decide (length (values row) = n)); tauto).
    symmetry. apply replicate_as_Forall_2; [by rewrite length_fmap|]. by apply Forall_fmap, Forall_true.
Qed.

Lemma ReadNBCRow_complete cols ovs bm w r row :
  row_clear row -> nbc_bitmap bm ovs -> nbc_values cols ovs w ->
  ReadNBCRow cols ((bm ++ w) ++ r) row = Ok (Some (zlen bm + zlen w, row_of ovs)).
Proof.
  intros Hrow Hb Hw. pose proof (nbc_values_length _ _ _ Hw) as Hl. pose proof Hb as [Hbl _].
  assert (Hbb : bitmap_bytes cols = zlen bm) by (rewrite Hbl; unfold bitmap_bytes, zlen; by rewrite Hl).
  destruct (length_Prepare (length cols) row) as [Hv Hm]; [apply Hrow|].
  unfold ReadNBCRow. cbv zeta. rewrite <- app_assoc, Hbb.
  pose proof (zlen_nonneg w). pose proof (zlen_nonneg r).
  replace (_ <? _) with false by (rewrite !zlen_app; lia).
  rewrite (ReadBitmap_loop_complete bm (w ++ r) ovs cols 0) by (done || lia). simpl.
  rewrite (ReadNBCRow_loop_complete _ _ _ Hw _ 0%nat _ r); simpl.
  - done.
  - apply (cursor_app _ 0 bm), cursor_0.
  - lia.
  - by rewrite drop_0.
  - rewrite drop_0. apply Prepare_values, Hrow.
Qed.

Lemma SkipNBCRow_loop_complete bm all_ovs r' : nbc_bitmap bm all_ovs ->
  forall cols ovs w, nbc_values cols ovs w -> forall i off r,
  (forall k ov, ovs !! k = Some ov -> all_ovs !! (i + k)%nat = Some ov) ->
  cursor (bm ++ r') off (w ++ r) ->
  SkipNBCRow_loop None (bm ++ r') cols i off = Ok (Some (off + zlen w)).
Proof.
  intros Hb cols ovs w Hw.
  induction Hw as [|c cols ovs ws Hrow IH|c cols v ovs w ws Hr Hw Hrow IH]; intros i off r Ho Hc;
    cbn [SkipNBCRow_loop].
  1: rewrite zlen_nil; do 2 f_equal; lia.
  all: assert (Ho' : forall k ov, ovs !! k = Some ov -> all_ovs !! (S i + k)%nat = Some ov)
    by (intros k ov Hk; replace (S i + k)%nat with (i + S k)%nat by lia; by apply Ho).
  all: pose proof (Ho 0%nat _ eq_refl) as Hi; rewrite Nat.add_0_r in Hi;
    rewrite (bitmap_bit_spec _ _ _ _ _ Hb Hi); simpl bool_decide; cbn [mbind res_bind].
  - by apply (IH _ _ r).
  - rewrite <- app_assoc in Hc. pose proof (cursor_app _ _ _ _ Hc) as Hc'. destruct Hc as [_ Hz].
    simpl skip_one. rewrite SkipValueNBC_eq, SkipValue_ReadValueNBC, Hz by done.
    rewrite (ReadValueNBC_complete _ _ (ws ++ r) _ Hr Hw). unfold sizes. rewrite !obind_Ok_Some. simpl consumed.
    rewrite (IH _ _ r Ho' Hc'), zlen_app. do 2 f_equal. lia.
Qed.

(** A strict prefix of an accepted input is never accepted, nor refused. *)
Lemma prefix_more {A} (f : bytes -> res (option A)) (size : A -> Z) w n a :
  (forall data, holds_some (f data) (fun a => size a <= zlen data)) ->
  (forall data e, extends_some (f data) (f (data ++ e))) ->
  f w = Ok (Some a) -> size a = zlen w -> 0 <= n < zlen w -> f (ztake n w) = more.
Proof.
  intros Hs He Hw Ha Hn. pose proof (Hs (ztake n w)) as Hp. pose proof (He (ztake n w) (zdrop n w)) as Hx.
  rewrite ztake_zdrop, Hw in Hx.
  destruct (f (ztake n w)) as [[b|]| |]; simpl in *; [|done|done|done].
  destruct Hx as [|Hx]; [done|]. injection Hx as <-. rewrite zlen_ztake in Hp; lia.
Qed.

Lemma SkipRow_descs cols data : SkipRow cols (Some (ResolveSkipForm <$> cols)) data = SkipRow cols None data.
Proof. by apply SkipRow_loop_descs. Qed.

Lemma SkipNBCRow_descs cols data :
  SkipNBCRow cols (Some (ResolveSkipForm <$> cols)) data = SkipNBCRow cols None data.
Proof. unfold SkipNBCRow. by rewrite SkipNBCRow_loop_descs. Qed.

(** The only exception of the skip walk is the text-pointer length check. *)
Definition is_lob_error (e : exn) : Prop := exists n, e = LobLengthOutOfRange n.

Lemma SkipPLP_loop_throws P fuel data off : throws_only P (SkipPLP_loop fuel data off).
Proof.
  revert off. induction fuel as [|fuel IH]; intros off; [done|].
  cbn [SkipPLP_loop]. throws_steps; auto.
Qed.

Lemma SkipValue_throws data c : throws_only is_lob_error (SkipValue data c).
Proof.
  rewrite SkipValue_kind. unfold skip_kind, skip_fixed, skip_prefix1, skip_prefix2, skip_lob, SkipPLPType.
  destruct (kind_of _); throws_steps; first [apply SkipPLP_loop_throws | by eexists].
Qed.

Lemma SkipRow_throws cols data : throws_only is_lob_error (SkipRow cols None data).
Proof.
  unfold SkipRow. generalize 0%nat 0. induction cols as [|c cols IH]; intros i off; [done|].
  cbn [SkipRow_loop skip_one]. throws_steps; [apply SkipValue_throws|apply IH].
Qed.

Lemma SkipNBCRow_throws cols data : throws_only is_lob_error (SkipNBCRow cols None data).
Proof.
  unfold SkipNBCRow. apply throws_if; intros _; [done|]. generalize (bitmap_bytes cols) as off. generalize 0%nat.
  induction cols as [|c cols IH]; intros i off; [done|].
  cbn [SkipNBCRow_loop skip_one]. apply throws_bind; [unfold bitmap_bit; throws_steps|]. intros [].
  - apply IH.
  - throws_steps; [rewrite SkipValueNBC_eq; apply SkipValue_throws|apply IH].
Qed.

(** ** Properties *)

(** The optimised skip walk is the plain one: with the descriptors
    [ResolveSkipForm] computed at COLMETADATA, [SkipRow] and [SkipNBCRow] return
    exactly what the per-value [switch] returns, for every column list and every
    buffer, incomplete and malformed ones included. *)
Theorem SkipRow_descriptors (columns : list ColumnMetadata) (data : bytes) :
  SkipRow columns (Some (ResolveSkipForm <$> columns)) data = SkipRow columns None data /\
  SkipNBCRow columns (Some (ResolveSkipForm <$> columns)) data = SkipNBCRow columns None data.
Proof.
  split; [apply SkipRow_descs|apply SkipNBCRow_descs].
Qed.

(** On hostile rows nothing is read outside the buffer, every chunk loop
    ends, and no more bytes are consumed than there are, whether the row is
    skipped or read, plain or with a NULL bitmap. *)
Theorem rows_safe (columns : list ColumnMetadata) (data : bytes) (row : RowData) (Hrow : row_ok row) :
  holds_some (SkipRow columns (Some (ResolveSkipForm <$> columns)) data) (fun n => 0 <= n <= zlen data) /\
  holds_some (SkipNBCRow columns (Some (ResolveSkipForm <$> columns)) data) (fun n => 0 <= n <= zlen data) /\
  holds_some (ReadRow columns data row) (fun '(n, _) => 0 <= n <= zlen data) /\
  holds_some (ReadNBCRow columns data row) (fun '(n, _) => 0 <= n <= zlen data).
Proof.
  split; [|split; [|split]].
  - rewrite SkipRow_descs. apply SkipRow_safe.
  - rewrite SkipNBCRow_descs. apply SkipNBCRow_safe.
  - apply ReadRow_safe.
  - by apply ReadNBCRow_safe.
Qed.

(** A row may arrive in any number of pieces: once a row walk has an answer
    (a size, a row, or an exception) more bytes do not change it. *)
Theorem rows_incremental (columns : list ColumnMetadata) (data extra : bytes) (row : RowData) :
  extends_some (SkipRow columns None data) (SkipRow columns None (data ++ extra)) /\
  extends_some (SkipNBCRow columns None data) (SkipNBCRow columns None (data ++ extra)) /\
  extends_some (ReadRow columns data row) (ReadRow columns (data ++ extra) row) /\
  extends_some (ReadNBCRow columns data row) (ReadNBCRow columns (data ++ extra) row).
Proof.
  split; [apply SkipRow_extends|]. split; [apply SkipNBCRow_extends|].
  split; [apply ReadRow_extends|apply ReadNBCRow_extends].
Qed.

(** C23. Every well-formed ROW (fixed-width values, length-prefixed values with
    their NULL forms, and PLP values in any division into chunks) is read back
    exactly, whatever the row object held before; skipping it consumes the same
    bytes; and every strict prefix of it is answered with "need more data". *)
Theorem ReadRow_correct (columns : list ColumnMetadata) (ovs : list (option bytes)) (w r : bytes)
    (row : RowData) (Hrow : row_ok row) (Hw : row_wire columns ovs w) :
  ReadRow columns (w ++ r) row = Ok (Some (zlen w, row_of ovs)) /\
  SkipRow columns None (w ++ r) = Ok (Some (zlen w)) /\
  (forall n, 0 <= n < zlen w -> ReadRow columns (ztake n w) row = more).
Proof.
  split; [by apply ReadRow_complete|]. split; [by apply (SkipRow_loop_complete _ _ _ Hw _ 0%nat 0 r), cursor_0|].
  intros n Hn. apply (prefix_more (fun d => ReadRow columns d row) fst w n (zlen w, row_of ovs)); try done.
  - intros d. eapply holds_some_mono; [apply ReadRow_safe|]. intros []. simpl. lia.
  - intros d e. apply ReadRow_extends.
  - rewrite <- (app_nil_r w) at 1. by apply ReadRow_complete.
Qed.

(** The same for NBCROW: bitmap, then the values that are not NULL. A NULL
    column yields an empty value because the row object was cleared before. *)
Theorem ReadNBCRow_correct (columns : list ColumnMetadata) (ovs : list (option bytes)) (bm w r : bytes)
    (row : RowData) (Hrow : row_clear row) (Hb : nbc_bitmap bm ovs) (Hw : nbc_values columns ovs w) :
  ReadNBCRow columns ((bm ++ w) ++ r) row = Ok (Some (zlen (bm ++ w), row_of ovs)) /\
  SkipNBCRow columns None ((bm ++ w) ++ r) = Ok (Some (zlen (bm ++ w))) /\
  (forall n, 0 <= n < zlen (bm ++ w) -> ReadNBCRow columns (ztake n (bm ++ w)) row = more).
Proof.
  split; [rewrite zlen_app; by apply ReadNBCRow_complete|]. split.
  - pose proof (nbc_values_length _ _ _ Hw) as Hl. pose proof Hb as [Hbl _].
    assert (Hbb : bitmap_bytes columns = zlen bm) by (rewrite Hbl; unfold bitmap_bytes, zlen; by rewrite Hl).
    unfold SkipNBCRow. rewrite <- app_assoc, Hbb. pose proof (zlen_nonneg w). pose proof (zlen_nonneg r).
    replace (_ <? _) with false by (rewrite !zlen_app; lia).
    rewrite (SkipNBCRow_loop_complete _ _ _ Hb _ _ _ Hw 0%nat _ r) by (done || apply (cursor_app _ 0 bm), cursor_0).
    by rewrite zlen_app.
  - intros n Hn.
    apply (prefix_more (fun d => ReadNBCRow columns d row) fst (bm ++ w) n (zlen bm + zlen w, row_of ovs)).
    + intros d. eapply holds_some_mono; [apply ReadNBCRow_safe, Hrow|]. intros []. simpl. lia.
    + intros d e. apply ReadNBCRow_extends.
    + rewrite <- (app_nil_r (bm ++ w)). by apply ReadNBCRow_complete.
    + simpl. by rewrite zlen_app.
    + done.
Qed.

(** Where skipping and reading one value agree, and where they do not. For
    every readable type the NBC pair consume the same bytes on every input; the
    ROW pair do too, unless the column is a GUID whose length byte is neither 0
    nor 16: the skip then steps over the declared length and the read over 16
    bytes. For the other types the read throws; the skip knows TEXT, NTEXT and
    IMAGE, and asks for more data for ever on the rest (the NULL type, which
    COLMETADATA accepts, is one). *)
Theorem read_skip_agreement (data : bytes) (c : ColumnMetadata) :
  (type_id c ∈ readable_types ->
     SkipValueNBC data c = sizes (ReadValueNBC data c) /\
     (guid_length_ok data c -> SkipValue data c = sizes (ReadValue data c)) /\
     (type_id c = TDS_TYPE_UNIQUEIDENTIFIER -> forall n r, data = n :: r ->
        0 < b2z n -> b2z n <> 16 -> 17 <= zlen data -> 1 + b2z n <= zlen data ->
        SkipValue data c = Ok (Some (1 + b2z n)) /\ sizes (ReadValue data c) = Ok (Some 17))) /\
  (type_id c ∉ readable_types ->
     ReadValue data c = Exn (UnsupportedRowType (type_id c)) /\
     ReadValueNBC data c = Exn (UnsupportedNbcType (type_id c)) /\
     (type_id c ∉ lob_types -> SkipValue data c = more /\ SkipValueNBC data c = more)).
Proof.
  split.
  - intros Hr%is_one_of_elem. rewrite SkipValueNBC_eq. split; [by apply SkipValue_ReadValueNBC|].
    split; [by apply SkipValue_ReadValue|]. intros Hg n r -> Hn H16 Hl Hl'.
    rewrite SkipValue_kind, ReadValue_kind, Hg. unfold skip_kind, read_kind.
    change (kind_of TDS_TYPE_UNIQUEIDENTIFIER) with KPrefix1. simpl is_one_of. cbv iota.
    change (_ =? _) with true. unfold skip_prefix1, ReadGuidType.
    replace (_ <? 1) with false by lia. rewrite get8_0. cbn [mbind res_bind].
    replace (_ <? 1 + b2z n) with false by lia. split; [done|].
    replace (b2z n =? 0) with false by lia. replace (_ <? 1 + 16) with false by lia.
    by rewrite slice_inside by lia.
  - intros Hr%is_one_of_false. rewrite SkipValueNBC_eq, ReadValue_kind, ReadValueNBC_kind, Hr.
    split; [done|]. split; [done|]. intros Hlob%is_one_of_false.
    assert (kind_of (type_id c) = KNone) as Hk.
    { unfold kind_of. revert Hr Hlob. generalize (type_id c). intros t Hr Hlob.
      repeat match goal with
      | |- context [is_one_of t ?l] =>
          replace (is_one_of t l) with false by
            (symmetry; first [exact Hlob | apply (is_one_of_sub _ _ _ Hr); vm_compute; reflexivity])
      | |- context [t =? ?x] =>
          replace (t =? x) with false by
            (symmetry; apply Z.eqb_neq; intros ->; vm_compute in Hr; discriminate Hr)
      end. done. }
    by rewrite SkipValue_kind, Hk.
Qed.

(** An INT, an NVARCHAR(10) and an NVARCHAR(MAX): 7, NULL, "hi" in two chunks. *)
Definition sample_columns : list ColumnMetadata :=
  [set_type TDS_TYPE_INT 0 0 0 0 new_column; set_type TDS_TYPE_NVARCHAR 20 0 0 0 new_column;
   set_type TDS_TYPE_NVARCHAR 0xFFFF 0 0 0 new_column].
Definition sample_values : list (option bytes) :=
  [Some (bs [7; 0; 0; 0]); None; Some (bs [0x68; 0; 0x69; 0])].
Definition sample_row : bytes :=
  bs [7; 0; 0; 0] ++ bs [255; 255] ++
  (bs [4; 0; 0; 0; 0; 0; 0; 0] ++ bs [2; 0; 0; 0; 0x68; 0; 2; 0; 0; 0; 0x69; 0; 0; 0; 0; 0]) ++ [].
Definition sample_nbc_values : bytes :=
  bs [7; 0; 0; 0] ++
  (bs [4; 0; 0; 0; 0; 0; 0; 0] ++ bs [2; 0; 0; 0; 0x68; 0; 2; 0; 0; 0; 0x69; 0; 0; 0; 0; 0]) ++ [].

Lemma sample_chunks :
  plp_chunks (bs [0x68; 0; 0x69; 0]) (bs [2; 0; 0; 0; 0x68; 0; 2; 0; 0; 0; 0x69; 0; 0; 0; 0; 0]).
Proof.
  apply (plp_chunk Byte.x02 Byte.x00 Byte.x00 Byte.x00 (bs [0x68; 0]) (bs [0x69; 0])); [done..|].
  apply (plp_chunk Byte.x02 Byte.x00 Byte.x00 Byte.x00 (bs [0x69; 0]) []); [done..|]. constructor.
Qed.

Lemma sample_row_wire : row_wire sample_columns sample_values sample_row.
Proof.
  constructor; [done|by apply (vw_fixed _ 4)|]. constructor; [done|by apply vw_prefix2_null|].
  constructor; [done| |constructor]. apply vw_plp; [by right|done|vm_compute; congruence|apply sample_chunks].
Qed.

Lemma sample_nbc_wire : nbc_values sample_columns sample_values sample_nbc_values.
Proof.
  constructor; [done|by apply (vw_fixed _ 4)|]. constructor.
  constructor; [done| |constructor]. apply vw_plp; [by right|done|vm_compute; congruence|apply sample_chunks].
Qed.

Lemma sample_bitmap : nbc_bitmap (bs [2]) sample_values.
Proof.
  split; [done|]. intros i ov Hi. exists (z2b 2).
  do 3 (destruct i as [|i]; [injection Hi as <-; by split|]). done.
Qed.

Lemma rows_safe_witness :
  row_ok (row_of sample_values) /\
  holds_some (ReadRow sample_columns (bs [7; 0]) (row_of sample_values)) (fun '(n, _) => 0 <= n <= 2).
Proof. split; [reflexivity|]. apply (rows_safe sample_columns (bs [7; 0]) (row_of sample_values)). reflexivity. Defined.

Lemma ReadRow_correct_witness :
  ReadRow sample_columns (sample_row ++ bs [0xFD]) (mkRowData [] [])
    = Ok (Some (zlen sample_row, row_of sample_values)) /\
  values (row_of sample_values) = [bs [7; 0; 0; 0]; []; bs [0x68; 0; 0x69; 0]].
Proof.
  split; [|reflexivity].
  exact (proj1 (ReadRow_correct sample_columns sample_values sample_row (bs [0xFD]) (mkRowData [] [])
           eq_refl sample_row_wire)).
Defined.

Lemma ReadNBCRow_correct_witness :
  ReadNBCRow sample_columns ((bs [2] ++ sample_nbc_values) ++ bs [0xFD]) (mkRowData [] [])
    = Ok (Some (zlen (bs [2] ++ sample_nbc_values), row_of sample_values)).
Proof.
  exact (proj1 (ReadNBCRow_correct sample_columns sample_values (bs [2]) sample_nbc_values (bs [0xFD])
           (mkRowData [] []) (conj eq_refl (List.Forall_nil _)) sample_bitmap sample_nbc_wire)).
Defined.

Definition sample_guid_column : ColumnMetadata := set_type TDS_TYPE_UNIQUEIDENTIFIER 16 0 0 0 new_column.
Definition sample_bad_guid : bytes := Byte.x01 :: replicate 16 Byte.x41.

Lemma read_skip_agreement_witness :
  SkipValue sample_bad_guid sample_guid_column = Ok (Some (1 + b2z Byte.x01)) /\
  sizes (ReadValue sample_bad_guid sample_guid_column) = Ok (Some 17).
Proof.
  destruct (read_skip_agreement sample_bad_guid sample_guid_column) as [H _].
  destruct H as (_ & _ & H); [apply is_one_of_elem; vm_compute; reflexivity|].
  apply (H eq_refl Byte.x01 (replicate 16 Byte.x41) eq_refl); vm_compute; congruence.
Defined.
