(* ===== verification/TokenParser.v ===== *)
(** * The token stream (src/src/tds/tds_token_parser.cpp)

    [TokenParser] is the class: a buffer with a read position, the columns of
    the current result set, and the last row, error, info and DONE token. A
    member function is a function from the object to a result and the new
    object, in the [parser] monad below: [Exn] is an exception that leaves the
    function (the object is then lost), [Oob] a read outside the buffer. The
    object's [current_row_] after an incomplete or failed row read is the
    cleared row (the code leaves it half filled), and its [columns_] after an
    exception in COLMETADATA are those parsed before it. [parse_error_] is the
    list of the message's parts. Debug output is not modelled. *)

From S2P Require Import Prelude TdsTypes Utf16 ColumnMetadata RowReader.

Record TdsError : Type := mkTdsError {
  number : Z;
  state : Z;
  severity : Z;
  message : bytes;
  server_name : bytes;
  proc_name : bytes;
  line_number : Z
}.

#[export] Instance TdsError_eq_dec : EqDecision TdsError.
Proof. solve_decision. Defined.

(** [TdsInfo] has the same fields. *)
Definition TdsInfo : Type := TdsError.
Definition no_error : TdsError := mkTdsError 0 0 0 [] [] [] 0.

Definition IsFatal (e : TdsError) : bool := 20 <=? severity e.
Definition IsUserError (e : TdsError) : bool := (11 <=? severity e) && (severity e <=? 16).
Definition IsInfo (e : TdsError) : bool := severity e <=? 10.

Record DoneToken : Type := mkDoneToken { status : Z; cur_cmd : Z; row_count : Z }.

#[export] Instance DoneToken_eq_dec : EqDecision DoneToken.
Proof. solve_decision. Defined.

Definition IsFinal (d : DoneToken) : bool := Z.land (status d) DoneStatus.DONE_MORE =? 0.
Definition HasError (d : DoneToken) : bool := negb (Z.land (status d) DoneStatus.DONE_ERROR =? 0).
Definition HasRowCount (d : DoneToken) : bool := negb (Z.land (status d) DoneStatus.DONE_COUNT =? 0).
Definition IsAttentionAck (d : DoneToken) : bool := negb (Z.land (status d) DoneStatus.DONE_ATTN =? 0).

Module ParserState.
Inductive t : Type :=
  | WaitingForToken | ParsingColMetadata | ParsingRow | ParsingDone
  | ParsingError | ParsingInfo | Complete | Error.

#[global] Instance t_eq_dec : EqDecision t.
Proof. solve_decision. Defined.
End ParserState.

Module ParsedTokenType.
Inductive t : Type :=
  | None | ColMetadata | Row | Done | Error | Info | EnvChange | NeedMoreData.

#[global] Instance t_eq_dec : EqDecision t.
Proof. solve_decision. Defined.
End ParsedTokenType.

(** What went into [parse_error_]. *)
Inductive error_text : Type :=
  | NoError
  | UnknownTokenType (token_type : Z)
  | ColMetadataParseError (e : exn)
  | RowBeforeColMetadata
  | NbcRowBeforeColMetadata
  | RowParseError (e : exn)
  | NbcRowParseError (e : exn).

#[export] Instance error_text_eq_dec : EqDecision error_text.
Proof. solve_decision. Defined.

Record TokenParser : Type := mkTokenParser {
  state_ : ParserState.t;
  parse_error_ : error_text;
  skip_rows_ : bool;
  raw_row_mode_ : bool;
  raw_row_offset_ : Z;
  raw_row_length_ : Z;
  raw_row_nbc_ : bool;
  pending_consume_ : Z;
  buffer_ : bytes;
  buffer_pos_ : Z;
  columns_ : list ColumnMetadata;
  skip_descs_ : list SkipDesc;
  current_row_ : RowData;
  current_error_ : TdsError;
  current_info_ : TdsInfo;
  current_done_ : DoneToken
}.

#[export] Instance TokenParser_eq_dec : EqDecision TokenParser.
Proof. solve_decision. Defined.

(** Assignments to members. *)
Definition set_state s (p : TokenParser) : TokenParser :=
  mkTokenParser s (parse_error_ p) (skip_rows_ p) (raw_row_mode_ p) (raw_row_offset_ p)
    (raw_row_length_ p) (raw_row_nbc_ p) (pending_consume_ p) (buffer_ p) (buffer_pos_ p)
    (columns_ p) (skip_descs_ p) (current_row_ p) (current_error_ p) (current_info_ p)
    (current_done_ p).
Definition set_parse_error e (p : TokenParser) : TokenParser :=
  mkTokenParser (state_ p) e (skip_rows_ p) (raw_row_mode_ p) (raw_row_offset_ p)
    (raw_row_length_ p) (raw_row_nbc_ p) (pending_consume_ p) (buffer_ p) (buffer_pos_ p)
    (columns_ p) (skip_descs_ p) (current_row_ p) (current_error_ p) (current_info_ p)
    (current_done_ p).
Definition set_raw_row o l n c (p : TokenParser) : TokenParser :=
  mkTokenParser (state_ p) (parse_error_ p) (skip_rows_ p) (raw_row_mode_ p) o l n c (buffer_ p)
    (buffer_pos_ p) (columns_ p) (skip_descs_ p) (current_row_ p) (current_error_ p)
    (current_info_ p) (current_done_ p).
Definition set_pending c (p : TokenParser) : TokenParser :=
  mkTokenParser (state_ p) (parse_error_ p) (skip_rows_ p) (raw_row_mode_ p) (raw_row_offset_ p)
    (raw_row_length_ p) (raw_row_nbc_ p) c (buffer_ p) (buffer_pos_ p) (columns_ p)
    (skip_descs_ p) (current_row_ p) (current_error_ p) (current_info_ p) (current_done_ p).
Definition set_buffer b bp (p : TokenParser) : TokenParser :=
  mkTokenParser (state_ p) (parse_error_ p) (skip_rows_ p) (raw_row_mode_ p) (raw_row_offset_ p)
    (raw_row_length_ p) (raw_row_nbc_ p) (pending_consume_ p) b bp (columns_ p) (skip_descs_ p)
    (current_row_ p) (current_error_ p) (current_info_ p) (current_done_ p).
Definition set_columns cs sd (p : TokenParser) : TokenParser :=
  mkTokenParser (state_ p) (parse_error_ p) (skip_rows_ p) (raw_row_mode_ p) (raw_row_offset_ p)
    (raw_row_length_ p) (raw_row_nbc_ p) (pending_consume_ p) (buffer_ p) (buffer_pos_ p) cs sd
    (current_row_ p) (current_error_ p) (current_info_ p) (current_done_ p).
Definition set_current_row r (p : TokenParser) : TokenParser :=
  mkTokenParser (state_ p) (parse_error_ p) (skip_rows_ p) (raw_row_mode_ p) (raw_row_offset_ p)
    (raw_row_length_ p) (raw_row_nbc_ p) (pending_consume_ p) (buffer_ p) (buffer_pos_ p)
    (columns_ p) (skip_descs_ p) r (current_error_ p) (current_info_ p) (current_done_ p).
Definition set_current_error e (p : TokenParser) : TokenParser :=
  mkTokenParser (state_ p) (parse_error_ p) (skip_rows_ p) (raw_row_mode_ p) (raw_row_offset_ p)
    (raw_row_length_ p) (raw_row_nbc_ p) (pending_consume_ p) (buffer_ p) (buffer_pos_ p)
    (columns_ p) (skip_descs_ p) (current_row_ p) e (current_info_ p) (current_done_ p).
Definition set_current_info i (p : TokenParser) : TokenParser :=
  mkTokenParser (state_ p) (parse_error_ p) (skip_rows_ p) (raw_row_mode_ p) (raw_row_offset_ p)
    (raw_row_length_ p) (raw_row_nbc_ p) (pending_consume_ p) (buffer_ p) (buffer_pos_ p)
    (columns_ p) (skip_descs_ p) (current_row_ p) (current_error_ p) i (current_done_ p).
Definition set_current_done d (p : TokenParser) : TokenParser :=
  mkTokenParser (state_ p) (parse_error_ p) (skip_rows_ p) (raw_row_mode_ p) (raw_row_offset_ p)
    (raw_row_length_ p) (raw_row_nbc_ p) (pending_consume_ p) (buffer_ p) (buffer_pos_ p)
    (columns_ p) (skip_descs_ p) (current_row_ p) (current_error_ p) (current_info_ p) d.

(** ** The object's simple operations *)

Definition TokenParser_new : TokenParser :=
  mkTokenParser ParserState.WaitingForToken NoError false false 0 0 false 0 [] 0 [] []
    (mkRowData [] []) no_error no_error (mkDoneToken 0 0 0).

(** [Reset] leaves the two modes and [raw_row_nbc_] as they are. *)
Definition Reset (p : TokenParser) : TokenParser :=
  mkTokenParser ParserState.WaitingForToken NoError (skip_rows_ p) (raw_row_mode_ p) 0 0 (raw_row_nbc_ p)
    0 [] 0 [] [] (RowData_Clear (current_row_ p)) no_error no_error (mkDoneToken 0 0 0).

Definition ResetState (p : TokenParser) : TokenParser := set_state ParserState.WaitingForToken p.

Definition SetSkipMode (skip : bool) (p : TokenParser) : TokenParser :=
  mkTokenParser (state_ p) (parse_error_ p) skip (raw_row_mode_ p) (raw_row_offset_ p)
    (raw_row_length_ p) (raw_row_nbc_ p) (pending_consume_ p) (buffer_ p) (buffer_pos_ p)
    (columns_ p) (skip_descs_ p) (current_row_ p) (current_error_ p) (current_info_ p)
    (current_done_ p).
Definition SetRawRowMode (enabled : bool) (p : TokenParser) : TokenParser :=
  mkTokenParser (state_ p) (parse_error_ p) (skip_rows_ p) enabled (raw_row_offset_ p)
    (raw_row_length_ p) (raw_row_nbc_ p) (pending_consume_ p) (buffer_ p) (buffer_pos_ p)
    (columns_ p) (skip_descs_ p) (current_row_ p) (current_error_ p) (current_info_ p)
    (current_done_ p).

Definition IsComplete (p : TokenParser) : bool := bool_decide (state_ p = ParserState.Complete).
Definition HasParseError (p : TokenParser) : bool := bool_decide (state_ p = ParserState.Error).
Definition HasColumnMetadata (p : TokenParser) : bool := bool_decide (columns_ p <> []).

Definition Feed (data : bytes) (p : TokenParser) : TokenParser :=
  set_buffer (buffer_ p ++ data) (buffer_pos_ p) p.

Definition CompactBuffer (p : TokenParser) : TokenParser :=
  if (zlen (buffer_ p) / 2 <? buffer_pos_ p) && (4096 <? buffer_pos_ p)
  then set_buffer (zdrop (buffer_pos_ p) (buffer_ p)) 0 p
  else p.

Definition ConsumeBytes (count : Z) (p : TokenParser) : TokenParser :=
  CompactBuffer (set_buffer (buffer_ p) (buffer_pos_ p + count) p).

(** [Current()] with [Available()] bytes behind it. *)
Definition Current (p : TokenParser) : bytes := zdrop (buffer_pos_ p) (buffer_ p).
Definition Available (p : TokenParser) : Z := zlen (buffer_ p) - buffer_pos_ p.

(** The wire bytes of the last raw row. *)
Definition GetRawRow (p : TokenParser) : res bytes :=
  slice (buffer_ p) (raw_row_offset_ p) (raw_row_length_ p).

(** ** The tokens *)

Section Tokens.
Context `{Simdutf}.

Definition ParseColMetadata (p : TokenParser) : res (bool * TokenParser) :=
  if Available p <? 3 then Ok (false, p) else
  let '(columns, outcome) := Parse (zdrop 1 (Current p)) in
  match outcome with
  | Oob => Oob
  | Exn e =>
      Ok (false, set_state ParserState.Error
                   (set_parse_error (ColMetadataParseError e) (set_columns columns (skip_descs_ p) p)))
  | Ok None => Ok (false, set_columns columns (skip_descs_ p) p)
  | Ok (Some bytes_consumed) =>
      Ok (true, set_state ParserState.ParsingRow
                  (ConsumeBytes (1 + bytes_consumed) (set_columns columns (ResolveSkipForm <$> columns) p)))
  end.

(** [ParseRow] and [ParseNBCRow] differ in the reader they call, the texts of
    their errors and the flag of a raw row. *)
Definition parse_row (nbc : bool) (p : TokenParser) : res (bool * TokenParser) :=
  if bool_decide (columns_ p = []) then
    Ok (false, set_state ParserState.Error
                 (set_parse_error (if nbc then NbcRowBeforeColMetadata else RowBeforeColMetadata) p))
  else if Available p <? 1 then Ok (false, p)
  else
    let data := zdrop 1 (Current p) in
    let skip := if nbc then SkipNBCRow (columns_ p) (Some (skip_descs_ p)) data
                else SkipRow (columns_ p) (Some (skip_descs_ p)) data in
    if skip_rows_ p then
      r ← skip;
      match r with
      | None => Ok (false, p)
      | Some bytes_consumed => Ok (true, ConsumeBytes (1 + bytes_consumed) p)
      end
    else if raw_row_mode_ p then
      r ← skip;
      match r with
      | None => Ok (false, p)
      | Some bytes_consumed =>
          Ok (true, set_raw_row (buffer_pos_ p + 1) bytes_consumed nbc (1 + bytes_consumed) p)
      end
    else
      let p := set_current_row (RowData_Clear (current_row_ p)) p in
      match (if nbc then ReadNBCRow (columns_ p) data (current_row_ p)
             else ReadRow (columns_ p) data (current_row_ p)) with
      | Oob => Oob
      | Exn e =>
          Ok (false, set_state ParserState.Error
                       (set_parse_error (if nbc then NbcRowParseError e else RowParseError e) p))
      | Ok None => Ok (false, p)
      | Ok (Some (bytes_consumed, row)) => Ok (true, ConsumeBytes (1 + bytes_consumed) (set_current_row row p))
      end.

Definition ParseRow (p : TokenParser) : res (bool * TokenParser) := parse_row false p.
Definition ParseNBCRow (p : TokenParser) : res (bool * TokenParser) := parse_row true p.

Definition ParseDone (p : TokenParser) : res (bool * TokenParser) :=
  if Available p <? 13 then Ok (false, p) else
  let data := Current p in
  status ← get16le data 1;
  cur_cmd ← get16le data 3;
  row_count ← get64le data 5;
  let done := mkDoneToken status cur_cmd row_count in
  let p := ConsumeBytes 13 (set_current_done done p) in
  Ok (true, if IsFinal done then set_state ParserState.Complete p else p).

(** A US_VARCHAR in [data], whose token ends at [length]. *)
Definition ParseUSVarchar (data : bytes) (length offset : Z) : res (option (Z * bytes)) :=
  if length <? offset + 2 then more else
  char_count ← get16le data offset;
  let offset := offset + 2 in
  let byte_length := char_count * 2 in
  if length <? offset + byte_length then more else
  chars ← slice data offset byte_length;
  Ok (Some (offset + byte_length, Utf16LEDecode chars)).

Definition ParseBVarchar (data : bytes) (length offset : Z) : res (option (Z * bytes)) :=
  if length <=? offset then more else
  char_count ← get8 data offset;
  let offset := offset + 1 in
  let byte_length := char_count * 2 in
  if length <? offset + byte_length then more else
  chars ← slice data offset byte_length;
  Ok (Some (offset + byte_length, Utf16LEDecode chars)).

(** The body [ParseError] and [ParseInfo] share, from the length check on: the
    members assigned so far (a read that fails in the middle leaves the earlier
    ones assigned), and whether the token was complete. *)
Definition parse_message (data : bytes) (token_length : Z) (e : TdsError) : res (bool * TdsError) :=
  let offset := 3 in
  number ← get32le data offset;
  state ← get8 data (offset + 4);
  severity ← get8 data (offset + 5);
  let e := mkTdsError number state severity (message e) (server_name e) (proc_name e) (line_number e) in
  r ← ParseUSVarchar data (3 + token_length) (offset + 6);
  match r with
  | None => Ok (false, e)
  | Some (offset, msg) =>
      let e := mkTdsError number state severity msg (server_name e) (proc_name e) (line_number e) in
      r ← ParseBVarchar data (3 + token_length) offset;
      match r with
      | None => Ok (false, e)
      | Some (offset, srv) =>
          let e := mkTdsError number state severity msg srv (proc_name e) (line_number e) in
          r ← ParseBVarchar data (3 + token_length) offset;
          match r with
          | None => Ok (false, e)
          | Some (offset, proc) =>
              let e := mkTdsError number state severity msg srv proc (line_number e) in
              if 3 + token_length <? offset + 4 then Ok (false, e) else
              line ← get32le data offset;
              Ok (true, mkTdsError number state severity msg srv proc line)
          end
      end
  end.

Definition ParseError (p : TokenParser) : res (bool * TokenParser) :=
  if Available p <? 3 then Ok (false, p) else
  let data := Current p in
  token_length ← get16le data 1;
  if Available p <? 3 + token_length then Ok (false, p) else
  if token_length <? 6 then Ok (false, p) else
  '(ok, e) ← parse_message data token_length (current_error_ p);
  let p := set_current_error e p in
  Ok (ok, if (ok : bool) then ConsumeBytes (3 + token_length) p else p).

Definition ParseInfo (p : TokenParser) : res (bool * TokenParser) :=
  if Available p <? 3 then Ok (false, p) else
  let data := Current p in
  token_length ← get16le data 1;
  if Available p <? 3 + token_length then Ok (false, p) else
  if token_length <? 6 then Ok (false, p) else
  '(ok, e) ← parse_message data token_length (current_info_ p);
  let p := set_current_info e p in
  Ok (ok, if (ok : bool) then ConsumeBytes (3 + token_length) p else p).

Definition ParseEnvChange (p : TokenParser) : res (bool * TokenParser) :=
  if Available p <? 3 then Ok (false, p) else
  token_length ← get16le (Current p) 1;
  if Available p <? 3 + token_length then Ok (false, p) else
  Ok (true, ConsumeBytes (3 + token_length) p).

(** ** The loop *)

(** [if (Parse...()) return ok; return NeedMoreData;]. *)
Definition token (m : res (bool * TokenParser)) (ok : ParsedTokenType.t)
    : res (ParsedTokenType.t * TokenParser) :=
  '(parsed, p) ← m; Ok (if (parsed : bool) then ok else ParsedTokenType.NeedMoreData, p).

Definition skipped_types : list Z :=
  [TokenType.ORDER; TokenType.RETURNSTATUS; TokenType.RETURNVALUE; TokenType.LOGINACK;
   TokenType.TABNAME; TokenType.COLINFO].

(** A turn of the [while]: return, or [continue] with the new object. *)
Inductive turn : Type :=
  | Return (t : ParsedTokenType.t) (p : TokenParser)
  | Continue (p : TokenParser).

Definition returns (m : res (ParsedTokenType.t * TokenParser)) : res turn :=
  '(t, p) ← m; Ok (Return t p).

Definition parse_turn (p : TokenParser) : res turn :=
  if bool_decide (state_ p = ParserState.Complete \/ state_ p = ParserState.Error)
  then Ok (Return ParsedTokenType.NeedMoreData p)
  else if Available p <? 1 then Ok (Return ParsedTokenType.NeedMoreData p)
  else
    token_type ← get8 (Current p) 0;
    if token_type =? TokenType.COLMETADATA then
      returns (token (ParseColMetadata p) ParsedTokenType.ColMetadata)
    else if token_type =? TokenType.ROW then returns (token (ParseRow p) ParsedTokenType.Row)
    else if token_type =? TokenType.NBCROW then returns (token (ParseNBCRow p) ParsedTokenType.Row)
    else if is_one_of token_type [TokenType.DONE; TokenType.DONEPROC; TokenType.DONEINPROC] then
      returns (token (ParseDone p) ParsedTokenType.Done)
    else if token_type =? TokenType.ERROR_TOKEN then
      returns (token (ParseError p) ParsedTokenType.Error)
    else if token_type =? TokenType.INFO then returns (token (ParseInfo p) ParsedTokenType.Info)
    else if token_type =? TokenType.ENVCHANGE then
      returns (token (ParseEnvChange p) ParsedTokenType.EnvChange)
    else if is_one_of token_type (skipped_types ++ [TokenType.SSPI]) then
      if Available p <? 3 then Ok (Return ParsedTokenType.NeedMoreData p) else
      token_length ← get16le (Current p) 1;
      let token_end := token_length + 3 in
      if Available p <? token_end then Ok (Return ParsedTokenType.NeedMoreData p) else
      Ok (Continue (ConsumeBytes token_end p))
    else if token_type =? TokenType.FEDAUTHINFO then
      if Available p <? 5 then Ok (Return ParsedTokenType.NeedMoreData p) else
      token_length ← get32le (Current p) 1;
      let token_end := token_length + 5 in
      if Available p <? token_end then Ok (Return ParsedTokenType.NeedMoreData p) else
      Ok (Continue (ConsumeBytes token_end p))
    else
      Ok (Return ParsedTokenType.None
            (set_state ParserState.Error (set_parse_error (UnknownTokenType token_type) p))).

Fixpoint parse_loop (fuel : nat) (p : TokenParser) : res (ParsedTokenType.t * TokenParser) :=
  match fuel with
  | O => Oob
  | S fuel =>
      t ← parse_turn p;
      match t with
      | Return t p => Ok (t, p)
      | Continue p => parse_loop fuel p
      end
  end.

(** Every [continue] consumes at least three bytes, so as many turns as the
    buffer has bytes, and one, are enough. *)
Definition TryParseNext (p : TokenParser) : res (ParsedTokenType.t * TokenParser) :=
  let p :=
    if 0 <? pending_consume_ p
    then ConsumeBytes (pending_consume_ p) (set_pending 0 p) else p in
  parse_loop (S (length (buffer_ p))) p.

End Tokens.

(** ** The transaction descriptor *)

(** One turn reads at least the token byte: [length data] turns are enough. *)
Fixpoint FindBeginTxnDescriptor_loop (fuel : nat) (data : bytes) (offset : Z) : res (option bytes) :=
  match fuel with
  | O => Oob
  | S fuel =>
      if negb (offset <? zlen data) then Ok None else
      token_type ← get8 data offset;
      let offset := offset + 1 in
      if token_type =? 0xE3 then
        if zlen data <? offset + 2 then Ok None else
        token_len ← get16le data offset;
        let offset := offset + 2 in
        let token_end := if zlen data <? offset + token_len then zlen data else offset + token_len in
        is_begin ← (if offset <? zlen data then b ← get8 data offset; Ok (b =? 0x08) else Ok false);
        let new_len_pos := offset + 1 in
        found ← (if (is_begin : bool) && (new_len_pos <? zlen data)
                 then b ← get8 data new_len_pos; Ok ((b =? 8) && (new_len_pos + 1 + 8 <=? zlen data))
                 else Ok false);
        if (found : bool) then d ← slice data (new_len_pos + 1) 8; Ok (Some d)
        else FindBeginTxnDescriptor_loop fuel data token_end
      else if is_one_of token_type [0xFD; 0xFE; 0xFF] then
        FindBeginTxnDescriptor_loop fuel data (offset + 12)
      else Ok None
  end.

(** [Some d]: [true], with [d] in [out_descriptor]. *)
Definition FindBeginTxnDescriptor (data : bytes) : res (option bytes) :=
  FindBeginTxnDescriptor_loop (S (length data)) data 0.

(** ** Well-formed objects *)

(** The buffer is used through its unread part only; [CompactBuffer] changes
    the buffer and not that part. *)
Definition pos_ok (p : TokenParser) : Prop := 0 <= buffer_pos_ p <= zlen (buffer_ p).

(** The precomputed skip forms belong to the columns, except while a COLMETADATA
    token that is incomplete (or was refused) waits at the front. *)
Definition descs_ok (p : TokenParser) : Prop :=
  skip_descs_ p = ResolveSkipForm <$> columns_ p \/
  (pending_consume_ p = 0 /\ get8 (Current p) 0 = Ok TokenType.COLMETADATA).

Record parser_ok (p : TokenParser) : Prop := {
  ok_pos : pos_ok p;
  ok_pending : 0 <= pending_consume_ p <= Available p;
  ok_row : row_ok (current_row_ p);
  ok_descs : descs_ok p
}.

(** What the caller has not been given yet: the raw row being looked at counts
    as consumed. *)
Definition unread (p : TokenParser) : bytes := zdrop (pending_consume_ p) (Current p).

Lemma Available_Current p : pos_ok p -> Available p = zlen (Current p).
Proof. intros H. unfold Available, Current. by rewrite zlen_zdrop. Qed.

(** Everything but the buffer. *)
Definition rest (p : TokenParser) :=
  (state_ p, parse_error_ p, skip_rows_ p, raw_row_mode_ p, raw_row_length_ p, raw_row_nbc_ p,
   columns_ p, skip_descs_ p, current_row_ p, current_error_ p, current_info_ p, current_done_ p).

Lemma rest_ConsumeBytes n p : rest (ConsumeBytes n p) = rest p.
Proof. unfold ConsumeBytes, CompactBuffer. by case_match. Qed.

Lemma pending_ConsumeBytes n p : pending_consume_ (ConsumeBytes n p) = pending_consume_ p.
Proof. unfold ConsumeBytes, CompactBuffer. by case_match. Qed.

Lemma Current_ConsumeBytes n p :
  pos_ok p -> 0 <= n <= Available p ->
  Current (ConsumeBytes n p) = zdrop n (Current p) /\ pos_ok (ConsumeBytes n p).
Proof.
  intros Hp Hn. unfold pos_ok, Available, ConsumeBytes, CompactBuffer, Current in *.
  case_match; simpl.
  - rewrite zdrop_0, zdrop_zdrop by lia. split; [done|].
    split; [lia|]. apply zlen_nonneg.
  - rewrite zdrop_zdrop by lia. split; [done|]. lia.
Qed.

Ltac rest_eqs n p :=
  let H := fresh in
  pose proof (rest_ConsumeBytes n p) as H; unfold rest in H; injection H as ? ? ? ? ? ? ? ? ? ? ? ?.

(** Consuming a token keeps the object well formed. *)
Lemma ok_ConsumeBytes n p :
  pos_ok p -> 0 <= n <= Available p -> pending_consume_ p = 0 -> row_ok (current_row_ p) ->
  skip_descs_ p = ResolveSkipForm <$> columns_ p -> parser_ok (ConsumeBytes n p).
Proof.
  intros Hp Hn Hpend Hrow Hd. destruct (Current_ConsumeBytes n p Hp Hn) as [Hc Hp'].
  rest_eqs n p. constructor; [done| | |].
  - rewrite pending_ConsumeBytes, Hpend, Available_Current by done. split; [lia|apply zlen_nonneg].
  - congruence.
  - left. congruence.
Qed.

(** [set_state] touches neither. *)
Lemma ok_set_state s p : parser_ok p -> parser_ok (set_state s p).
Proof. intros []. by constructor. Qed.

Lemma row_ok_Clear row : row_ok row -> row_clear (RowData_Clear row).
Proof.
  intros H. split; [unfold row_ok in *; simpl; by rewrite !length_fmap|]. simpl. apply Forall_fmap, Forall_true. done.
Qed.

Lemma row_ok_set i v b row : row_ok row -> row_ok (set_null i b (set_value i v row)).
Proof. unfold row_ok. simpl. by rewrite !length_insert. Qed.

Lemma row_ok_Prepare n row : row_ok row -> row_ok (RowData_Prepare n row).
Proof. intros H. destruct (length_Prepare n row H). unfold row_ok. congruence. Qed.

Lemma ReadRow_loop_row_ok data cols i off row :
  row_ok row -> forall n row', ReadRow_loop data cols i off row = Ok (Some (n, row')) -> row_ok row'.
Proof.
  revert i off row. induction cols as [|c cols IH]; intros i off row H n row' E; cbn [ReadRow_loop] in E.
  - by simplify_eq.
  - apply obind_Some in E as (r & _ & E). eapply IH, E. by apply row_ok_set.
Qed.

Lemma ReadBitmap_loop_row_ok data cols i row :
  row_ok row -> forall row', ReadBitmap_loop data cols i row = Ok row' -> row_ok row'.
Proof.
  revert i row. induction cols as [|c cols IH]; intros i row H row' E; cbn [ReadBitmap_loop] in E.
  - by simplify_eq.
  - apply bind_Ok in E as (b & _ & E). eapply IH, E. unfold row_ok in *. simpl. by rewrite length_insert.
Qed.

Lemma ReadNBCRow_loop_row_ok data cols i off row :
  row_ok row -> forall n row', ReadNBCRow_loop data cols i off row = Ok (Some (n, row')) -> row_ok row'.
Proof.
  revert i off row. induction cols as [|c cols IH]; intros i off row H n row' E; cbn [ReadNBCRow_loop] in E.
  - by simplify_eq.
  - destruct (null_mask row !! i) as [[]|]; [eauto| |done].
    apply obind_Some in E as (r & _ & E). eapply IH, E. unfold row_ok in *. simpl. by rewrite length_insert.
Qed.

Lemma ReadRow_row_ok cols data row n row' :
  row_ok row -> ReadRow cols data row = Ok (Some (n, row')) -> row_ok row'.
Proof. intros H. apply ReadRow_loop_row_ok. by apply row_ok_Prepare. Qed.

Lemma ReadNBCRow_row_ok cols data row n row' :
  row_ok row -> ReadNBCRow cols data row = Ok (Some (n, row')) -> row_ok row'.
Proof.
  intros H E. unfold ReadNBCRow in E. cbv zeta in E. destruct (_ <? _); [done|].
  apply bind_Ok in E as (row1 & E1 & E). eapply ReadNBCRow_loop_row_ok, E.
  eapply ReadBitmap_loop_row_ok, E1. by apply row_ok_Prepare.
Qed.

(** ** Every token function: no read outside, and what it consumed *)

(** After a token function: [true] consumed [n] bytes, [false] none. *)
Definition token_post (p : TokenParser) (b : bool) (p' : TokenParser) : Prop :=
  parser_ok p' /\
  if b then exists n, 0 < n <= Available p /\ unread p' = zdrop n (Current p)
  else pending_consume_ p' = 0 /\ Current p' = Current p.

Lemma unread_ConsumeBytes n p :
  pos_ok p -> 0 <= n <= Available p -> pending_consume_ p = 0 ->
  unread (ConsumeBytes n p) = zdrop n (Current p).
Proof.
  intros Hp Hn Hpend. unfold unread. rewrite pending_ConsumeBytes, Hpend, zdrop_0.
  by apply Current_ConsumeBytes.
Qed.

Lemma token_post_consume n p q :
  pos_ok p -> 0 < n <= Available p -> pending_consume_ q = 0 -> row_ok (current_row_ q) ->
  skip_descs_ q = ResolveSkipForm <$> columns_ q ->
  buffer_ q = buffer_ p -> buffer_pos_ q = buffer_pos_ p ->
  token_post p true (ConsumeBytes n q).
Proof.
  intros Hp Hn Hpend Hrow Hd Hb Hbp.
  assert (Hc : Current q = Current p) by (unfold Current; congruence).
  assert (Hp' : pos_ok q) by (unfold pos_ok in *; congruence).
  assert (Ha : Available q = Available p) by (unfold Available; congruence).
  split; [apply ok_ConsumeBytes; done || lia|]. exists n. split; [done|].
  rewrite unread_ConsumeBytes, Hc by (done || lia). done.
Qed.

Section Safety.
Context {S : Simdutf}.

Lemma zlen_Current_tail p k : pos_ok p -> 0 <= k <= Available p -> zlen (zdrop k (Current p)) = Available p - k.
Proof. intros Hp Hk. rewrite Available_Current in * by done. by rewrite zlen_zdrop. Qed.

Lemma ParseColMetadata_safe p :
  parser_ok p -> pending_consume_ p = 0 -> get8 (Current p) 0 = Ok TokenType.COLMETADATA ->
  holds (ParseColMetadata p) (fun '(b, p') => token_post p b p').
Proof.
  intros Hok Hpend Hhead. pose proof Hok as [Hp Hpe Hrow Hd]. unfold ParseColMetadata.
  destruct (Z.ltb_spec (Available p) 3); [by simpl|].
  pose proof (Parse_safe (zdrop 1 (Current p))) as Hs.
  rewrite zlen_Current_tail in Hs by (done || lia).
  destruct (Parse (zdrop 1 (Current p))) as [cs [[n|]|e|]]; simpl in Hs |- *; [| | |done].
  - assert (Ht : token_post p true (ConsumeBytes (1 + n) (set_columns cs (ResolveSkipForm <$> cs) p)))
      by (apply token_post_consume; simpl; done || lia).
    destruct Ht as [Hok' Hu]. split; [by apply ok_set_state|done].
  - split; [|done]. constructor; simpl; [done|rewrite ?Hpend; unfold Available in *; simpl; lia|done|by right].
  - split; [|done]. constructor; simpl; [done|rewrite ?Hpend; unfold Available in *; simpl; lia|done|by right].
Qed.

Lemma parse_row_safe nbc p :
  parser_ok p -> pending_consume_ p = 0 -> skip_descs_ p = ResolveSkipForm <$> columns_ p ->
  holds (parse_row nbc p) (fun '(b, p') => token_post p b p').
Proof.
  intros Hok Hpend Hd. pose proof Hok as [Hp Hpe Hrow _]. unfold parse_row.
  case_bool_decide; [simpl; split; [by destruct Hok; constructor|done]|].
  destruct (Z.ltb_spec (Available p) 1); [by simpl|].
  pose proof (zlen_Current_tail p 1 Hp ltac:(lia)) as Hl.
  set (skip := if nbc then SkipNBCRow _ _ _ else SkipRow _ _ _).
  assert (Hskip : holds_some skip (fun n => 0 <= n <= Available p - 1)).
  { unfold skip. rewrite Hd, <- Hl. destruct nbc.
    - rewrite SkipNBCRow_descs. apply SkipNBCRow_safe.
    - rewrite SkipRow_descs. apply SkipRow_safe. }
  cbv zeta. destruct (skip_rows_ p); [|destruct (raw_row_mode_ p)].
  - destruct skip as [[n|]| |]; simpl in *; try done.
    apply token_post_consume; done || lia.
  - destruct skip as [[n|]| |]; simpl in *; try done.
    split; [constructor; simpl; try done; [unfold Available in *; simpl; lia|by left]|].
    exists (1 + n). split; [lia|done].
  - pose proof (row_ok_Clear _ Hrow) as Hcl. set (p1 := set_current_row _ p).
    assert (Hread : holds_some (if nbc then ReadNBCRow (columns_ p1) (zdrop 1 (Current p)) (current_row_ p1)
                                else ReadRow (columns_ p1) (zdrop 1 (Current p)) (current_row_ p1))
                      (fun '(n, row) => 0 <= n <= Available p - 1 /\ row_ok row)).
    { rewrite <- Hl. destruct nbc; unfold holds_some.
      - pose proof (ReadNBCRow_safe (columns_ p1) (zdrop 1 (Current p)) (current_row_ p1)) as H1.
        pose proof (ReadNBCRow_row_ok (columns_ p1) (zdrop 1 (Current p)) (current_row_ p1)) as H2.
        destruct (ReadNBCRow _ _ _) as [[[n row]|]| |]; simpl in *; try done; [|by destruct H1; apply Hcl].
        split; [apply H1, Hcl|]. eapply H2; [apply Hcl|done].
      - pose proof (ReadRow_safe (columns_ p1) (zdrop 1 (Current p)) (current_row_ p1)) as H1.
        pose proof (ReadRow_row_ok (columns_ p1) (zdrop 1 (Current p)) (current_row_ p1)) as H2.
        destruct (ReadRow _ _ _) as [[[n row]|]| |]; simpl in *; try done.
        split; [done|]. eapply H2; [apply Hcl|done]. }
    destruct (if nbc then ReadNBCRow _ _ _ else ReadRow _ _ _) as [[[n row]|]| |]; simpl in *; try done.
    + apply token_post_consume; simpl; done || lia || apply Hread.
    + split; [|done]. constructor; simpl; [done|done|apply Hcl|by left].
    + split; [|done]. constructor; simpl; [done|done|apply Hcl|by left].
Qed.
End Safety.

Section Safety2.
Context {S : Simdutf}.

(** The tokens that are not rows keep the descriptors of the columns; one of
    them is at the front, so COLMETADATA is not. *)
Lemma descs_of_head p t :
  parser_ok p -> get8 (Current p) 0 = Ok t -> t <> TokenType.COLMETADATA ->
  skip_descs_ p = ResolveSkipForm <$> columns_ p.
Proof. intros [_ _ _ [|[_ H]]] Ht Hn; [done|]. congruence. Qed.

Lemma ParseDone_safe p :
  parser_ok p -> pending_consume_ p = 0 -> skip_descs_ p = ResolveSkipForm <$> columns_ p ->
  holds (ParseDone p) (fun '(b, p') => token_post p b p').
Proof.
  intros Hok Hpend Hd. pose proof Hok as [Hp Hpe Hrow _]. unfold ParseDone.
  destruct (Z.ltb_spec (Available p) 13); [by simpl|].
  rewrite Available_Current in * by done.
  apply holds_bind, holds_get16le; [lia..|]. intros st _.
  apply holds_bind, holds_get16le; [lia..|]. intros cmd _.
  apply holds_bind, holds_get64le; [lia..|]. intros rc _. cbv zeta.
  assert (Ht : token_post p true (ConsumeBytes 13 (set_current_done (mkDoneToken st cmd rc) p)))
    by (apply token_post_consume; simpl; try done; rewrite Available_Current by done; lia).
  destruct Ht as [Hok' Hu]. simpl. destruct (IsFinal _); [|done]. split; [by apply ok_set_state|done].
Qed.

Lemma ParseUSVarchar_safe data len off :
  0 <= off <= len -> len <= zlen data ->
  holds_some (ParseUSVarchar data len off) (fun '(o, _) => off <= o <= len).
Proof. intros. unfold ParseUSVarchar. safe_steps. lia. Qed.

Lemma ParseBVarchar_safe data len off :
  0 <= off <= len -> len <= zlen data ->
  holds_some (ParseBVarchar data len off) (fun '(o, _) => off <= o <= len).
Proof. intros. unfold ParseBVarchar. safe_steps. lia. Qed.

Lemma parse_message_safe data len e :
  6 <= len -> 3 + len <= zlen data -> holds (parse_message data len e) (fun _ => True).
Proof.
  intros H6 Hl. unfold parse_message. cbv zeta.
  apply holds_bind, holds_get32le; [lia..|]. intros num _.
  apply holds_bind, holds_get8; [lia..|]. intros st _.
  apply holds_bind, holds_get8; [lia..|]. intros sev _.
  apply holds_bind. eapply holds_mono; [apply (ParseUSVarchar_safe data (3 + len) (3 + 6)); lia|].
  intros [[o1 msg]|] H1; [|done].
  apply holds_bind. eapply holds_mono; [apply (ParseBVarchar_safe data (3 + len) o1); lia|].
  intros [[o2 srv]|] H2; [|done].
  apply holds_bind. eapply holds_mono; [apply (ParseBVarchar_safe data (3 + len) o2); lia|].
  intros [[o3 proc]|] H3; [|done].
  destruct (Z.ltb_spec (3 + len) (o3 + 4)); [done|].
  apply holds_bind, holds_get32le; [lia..|]. done.
Qed.

(** Tokens with a two-byte length. *)
Lemma short_token_safe p (f : Z -> res (bool * TokenParser)) :
  parser_ok p -> pending_consume_ p = 0 ->
  (forall n, 0 <= n < 65536 -> 3 + n <= Available p -> holds (f n) (fun '(b, p') => token_post p b p')) ->
  holds (if Available p <? 3 then Ok (false, p) else
         token_length ← get16le (Current p) 1;
         if Available p <? 3 + token_length then Ok (false, p) else f token_length)
        (fun '(b, p') => token_post p b p').
Proof.
  intros Hok Hpend Hf. pose proof Hok as [Hp _ _ _].
  destruct (Z.ltb_spec (Available p) 3); [by simpl|].
  apply holds_bind, holds_get16le; [lia|rewrite <- Available_Current by done; lia|]. intros n Hn.
  destruct (Z.ltb_spec (Available p) (3 + n)); [by simpl|]. by apply Hf.
Qed.

Lemma ParseError_safe p :
  parser_ok p -> pending_consume_ p = 0 -> skip_descs_ p = ResolveSkipForm <$> columns_ p ->
  holds (ParseError p) (fun '(b, p') => token_post p b p').
Proof.
  intros Hok Hpend Hd. pose proof Hok as [Hp Hpe Hrow _]. unfold ParseError. cbv zeta.
  apply short_token_safe; [done..|]. intros n Hn Hav.
  destruct (Z.ltb_spec n 6); [by simpl|]. apply holds_bind.
  eapply holds_mono; [apply parse_message_safe; [lia|by rewrite <- Available_Current]|].
  intros [[] e] _; simpl.
  - apply token_post_consume; simpl; done || lia.
  - split; [|done]. constructor; simpl; [done|done|done|by left].
Qed.

Lemma ParseInfo_safe p :
  parser_ok p -> pending_consume_ p = 0 -> skip_descs_ p = ResolveSkipForm <$> columns_ p ->
  holds (ParseInfo p) (fun '(b, p') => token_post p b p').
Proof.
  intros Hok Hpend Hd. pose proof Hok as [Hp Hpe Hrow _]. unfold ParseInfo. cbv zeta.
  apply short_token_safe; [done..|]. intros n Hn Hav.
  destruct (Z.ltb_spec n 6); [by simpl|]. apply holds_bind.
  eapply holds_mono; [apply parse_message_safe; [lia|by rewrite <- Available_Current]|].
  intros [[] e] _; simpl.
  - apply token_post_consume; simpl; done || lia.
  - split; [|done]. constructor; simpl; [done|done|done|by left].
Qed.

Lemma ParseEnvChange_safe p :
  parser_ok p -> pending_consume_ p = 0 -> skip_descs_ p = ResolveSkipForm <$> columns_ p ->
  holds (ParseEnvChange p) (fun '(b, p') => token_post p b p').
Proof.
  intros Hok Hpend Hd. pose proof Hok as [Hp Hpe Hrow _]. unfold ParseEnvChange.
  apply short_token_safe; [done..|]. intros n Hn Hav. simpl.
  apply token_post_consume; simpl; done || lia.
Qed.

(** ** A turn of the loop *)

Definition token_returned (t : ParsedTokenType.t) : bool :=
  match t with ParsedTokenType.None | ParsedTokenType.NeedMoreData => false | _ => true end.

(** The rest of the stream after a turn: a token was taken off it ([continue]
    or a token type), or nothing was. *)
Definition turn_post (p : TokenParser) (r : turn) : Prop :=
  match r with
  | Return t p' => token_post p (token_returned t) p'
  | Continue p' => token_post p true p' /\ pending_consume_ p' = 0
  end.

Lemma turn_post_token p t m :
  token_returned t = true ->
  holds m (fun '(b, p') => token_post p b p') -> holds (returns (token m t)) (turn_post p).
Proof. intros Ht. destruct m as [[[] p']| |]; simpl; try done. by rewrite Ht. Qed.

Lemma parse_turn_safe p :
  parser_ok p -> pending_consume_ p = 0 -> holds (parse_turn p) (turn_post p).
Proof.
  intros Hok Hpend. pose proof Hok as [Hp Hpe Hrow _]. unfold parse_turn.
  case_bool_decide; [by simpl|]. destruct (Z.ltb_spec (Available p) 1); [by simpl|].
  rewrite Available_Current in * by done.
  destruct (get8_inside (Current p) 0) as (t & Et & Ht); [lia|].
  assert (Hd := fun Hn => descs_of_head p t Hok Et Hn). rewrite Et. cbn [mbind res_bind].
  destruct (Z.eqb_spec t TokenType.COLMETADATA) as [->|Hn]; [by apply turn_post_token, ParseColMetadata_safe|].
  specialize (Hd Hn). clear Hn.
  repeat (match goal with |- holds (if ?b then _ else _) _ => destruct b; [by first
    [ apply turn_post_token, parse_row_safe | apply turn_post_token, ParseDone_safe
    | apply turn_post_token, ParseError_safe | apply turn_post_token, ParseInfo_safe
    | apply turn_post_token, ParseEnvChange_safe ]|] end).
  destruct (is_one_of t _); [|destruct (t =? TokenType.FEDAUTHINFO)].
  - destruct (Z.ltb_spec (zlen (Current p)) 3); [by simpl|].
    apply holds_bind, holds_get16le; [lia..|]. intros n Hn'. cbv zeta.
    destruct (Z.ltb_spec (zlen (Current p)) (n + 3)); [by simpl|].
    simpl. rewrite pending_ConsumeBytes. split; [|done].
    apply token_post_consume; simpl; try done. rewrite Available_Current by done. lia.
  - destruct (Z.ltb_spec (zlen (Current p)) 5); [by simpl|].
    apply holds_bind, holds_get32le; [lia..|]. intros n Hn'. cbv zeta.
    destruct (Z.ltb_spec (zlen (Current p)) (n + 5)); [by simpl|].
    simpl. rewrite pending_ConsumeBytes. split; [|done].
    apply token_post_consume; simpl; try done. rewrite Available_Current by done. lia.
  - simpl. split; [|done]. constructor; simpl; [done|rewrite Available_Current by done; done|done|by left].
Qed.

(** After [TryParseNext]: [n] bytes of what was unread are now consumed, some
    if a token was returned. *)
Definition next_post (p : TokenParser) (t : ParsedTokenType.t) (p' : TokenParser) : Prop :=
  parser_ok p' /\
  exists n, 0 <= n <= zlen (unread p) /\ unread p' = zdrop n (unread p) /\
    (token_returned t = true -> 0 < n) /\
    (token_returned t = false -> pending_consume_ p' = 0).

Lemma next_post_token p b t p' :
  parser_ok p -> pending_consume_ p = 0 -> token_returned t = b -> token_post p b p' -> next_post p t p'.
Proof.
  intros Hok Hpend Ht [Hok' H]. split; [done|].
  assert (Hu : unread p = Current p) by (unfold unread; by rewrite Hpend, zdrop_0). rewrite Hu.
  destruct b.
  - destruct H as (n & Hn & E). exists n. rewrite Available_Current in Hn by apply Hok.
    split; [lia|]. split; [done|]. split; [lia|]. congruence.
  - destruct H as [Hp E]. exists 0. split; [pose proof (zlen_nonneg (Current p)); lia|].
    split; [unfold unread; by rewrite Hp, E, !zdrop_0|]. split; [congruence|done].
Qed.

Lemma next_post_trans p q t p' n :
  parser_ok q -> 0 < n <= zlen (unread p) -> unread q = zdrop n (unread p) ->
  next_post q t p' -> next_post p t p'.
Proof.
  intros Hq Hn Hu [Hok (k & Hk & E & H1 & H2)]. split; [done|]. exists (n + k).
  rewrite Hu in Hk, E. rewrite zlen_zdrop in Hk by lia. rewrite zdrop_zdrop in E by lia.
  split; [lia|]. split; [done|]. split; [|done]. lia.
Qed.

Lemma parse_loop_safe fuel p :
  parser_ok p -> pending_consume_ p = 0 -> zlen (Current p) < Z.of_nat fuel ->
  holds (parse_loop fuel p) (fun '(t, p') => next_post p t p').
Proof.
  revert p. induction fuel as [|fuel IH]; intros p Hok Hpend Hf; [pose proof (zlen_nonneg (Current p)); lia|].
  cbn [parse_loop]. apply holds_bind. eapply holds_mono; [by apply parse_turn_safe|].
  intros [t p'|p']; simpl.
  - intros H. by eapply next_post_token.
  - intros [[Hok' (n & Hn & Hu)] Hp0]. rewrite Available_Current in Hn by apply Hok.
    assert (Hup : unread p = Current p) by (unfold unread; by rewrite Hpend, zdrop_0).
    assert (Huq : unread p' = Current p') by (unfold unread; by rewrite Hp0, zdrop_0).
    eapply holds_mono; [apply IH; [done..|]|].
    + rewrite <- Huq, Hu, zlen_zdrop by lia. lia.
    + intros [t q] Hq. eapply next_post_trans; [exact Hok'| |rewrite Hu, Hup; done|done]. rewrite Hup. lia.
Qed.

(** What [TryParseNext] starts from: the deferred consume done. *)
Definition settle (p : TokenParser) : TokenParser :=
  if 0 <? pending_consume_ p then ConsumeBytes (pending_consume_ p) (set_pending 0 p) else p.

Lemma settle_spec p :
  parser_ok p -> parser_ok (settle p) /\ pending_consume_ (settle p) = 0 /\ Current (settle p) = unread p.
Proof.
  intros Hok. pose proof Hok as [Hp Hpe Hrow Hd]. unfold settle, unread.
  destruct (Z.ltb_spec 0 (pending_consume_ p)) as [Hpos|Hz].
  - destruct Hd as [Hd|[Hd _]]; [|lia].
    assert (Hav : Available (set_pending 0 p) = Available p) by done.
    split; [|split].
    + apply ok_ConsumeBytes; simpl; done || lia.
    + by rewrite pending_ConsumeBytes.
    + destruct (Current_ConsumeBytes (pending_consume_ p) (set_pending 0 p)) as [-> _]; [done|lia|done].
  - replace (pending_consume_ p) with 0 by lia. rewrite zdrop_0. split; [done|]. split; [lia|done].
Qed.

Lemma TryParseNext_settle p : TryParseNext p = parse_loop (Datatypes.S (length (buffer_ (settle p)))) (settle p).
Proof. done. Qed.

Lemma TryParseNext_post p :
  parser_ok p -> holds (TryParseNext p) (fun '(t, p') => next_post p t p').
Proof.
  intros Hok. destruct (settle_spec p Hok) as (Hok' & Hp0 & Hc). rewrite TryParseNext_settle.
  eapply holds_mono; [apply parse_loop_safe; [done..|]|].
  - destruct Hok' as [Hpos _ _ _]. rewrite <- Available_Current by done. unfold pos_ok, Available, zlen in *. lia.
  - intros [t q] [Hq (n & Hn & Hu & H)]. split; [done|]. exists n.
    assert (E : unread (settle p) = unread p) by (unfold unread at 1; by rewrite Hp0, zdrop_0). by rewrite <- E.
Qed.

(** ** Every sequence of calls *)

(** One call on the object by its owner. [GetRow] and the like do not change it. *)
Inductive call : TokenParser -> TokenParser -> Prop :=
  | call_feed p data : call p (Feed data p)
  | call_reset p : call p (Reset p)
  | call_reset_state p : call p (ResetState p)
  | call_skip p b : call p (SetSkipMode b p)
  | call_raw p b : call p (SetRawRowMode b p)
  | call_next p t p' : TryParseNext p = Ok (t, p') -> call p p'.

Inductive reachable : TokenParser -> Prop :=
  | reachable_new : reachable TokenParser_new
  | reachable_call p p' : reachable p -> call p p' -> reachable p'.

Lemma Current_Feed data p : pos_ok p -> Current (Feed data p) = Current p ++ data.
Proof. intros Hp. unfold Current, Feed, pos_ok in *. simpl. apply zdrop_app_le. lia. Qed.

Lemma ok_Feed data p : parser_ok p -> parser_ok (Feed data p).
Proof.
  intros [Hp Hpe Hrow Hd]. pose proof (zlen_nonneg data). constructor; simpl.
  - unfold pos_ok, Feed in *. simpl. rewrite zlen_app. lia.
  - unfold Available in *. simpl. rewrite zlen_app. lia.
  - done.
  - destruct Hd as [Hd|[H0 Hh]]; [by left|right]. split; [done|]. rewrite Current_Feed by done.
    by apply get8_app_l.
Qed.

Lemma reachable_ok p : reachable p -> parser_ok p.
Proof.
  induction 1 as [|p p' _ IH Hc]; [constructor; by try left|].
  destruct Hc as [p data|p|p|p b|p b|p t p' E].
  - by apply ok_Feed.
  - constructor; simpl; [done|done|exact (proj1 (row_ok_Clear _ (ok_row _ IH)))|by left].
  - by apply ok_set_state.
  - destruct IH. by constructor.
  - destruct IH. by constructor.
  - pose proof (TryParseNext_post p IH) as H. rewrite E in H. apply H.
Qed.

End Safety2.

(** ** Bytes that arrive later *)

(** [grow d p q]: [q] is [p] with [d] more bytes at the end of its stream; the
    buffers may have been compacted at different times. [grow []] is the
    equivalence of objects no caller can tell apart. *)
Record grow (d : bytes) (p q : TokenParser) : Prop := {
  grow_pos : pos_ok p;
  grow_pos' : pos_ok q;
  grow_current : Current q = Current p ++ d;
  grow_rest : rest p = rest q;
  grow_pending : pending_consume_ p = pending_consume_ q;
  grow_raw : 0 < pending_consume_ p ->
    raw_row_offset_ p - buffer_pos_ p = raw_row_offset_ q - buffer_pos_ q
}.

Definition same : TokenParser -> TokenParser -> Prop := grow [].

Lemma same_refl p : pos_ok p -> same p p.
Proof. intros. constructor; try done. by rewrite app_nil_r. Qed.

Lemma grow_same d p q q' : grow d p q -> grow d p q' -> same q q'.
Proof.
  intros [? ? Hc Hr Hp Hw] [? ? Hc' Hr' Hp' Hw']. constructor; try done; try congruence.
  - by rewrite app_nil_r, Hc.
  - intros H. rewrite <- Hw, <- Hw' by congruence. done.
Qed.

Lemma grow_Feed d p : pos_ok p -> grow d p (Feed d p).
Proof.
  intros Hp. constructor; try done.
  - unfold pos_ok, Feed in *. simpl. rewrite zlen_app. pose proof (zlen_nonneg d). lia.
  - by apply Current_Feed.
Qed.

Lemma grow_Available d p q : grow d p q -> Available q = Available p + zlen d.
Proof. intros []. rewrite !Available_Current by done. by rewrite grow_current0, zlen_app. Qed.

Lemma grow_Consume d p q n :
  grow d p q -> 0 <= n <= Available p -> pending_consume_ p = 0 ->
  grow d (ConsumeBytes n p) (ConsumeBytes n q).
Proof.
  intros Hg Hn Hp0. pose proof (grow_Available _ _ _ Hg) as Ha. pose proof (zlen_nonneg d).
  destruct Hg as [Hp Hq Hc Hr Hpe Hw].
  destruct (Current_ConsumeBytes n p) as [E1 P1]; [done|lia|].
  destruct (Current_ConsumeBytes n q) as [E2 P2]; [done|lia|].
  constructor; try done.
  - rewrite E1, E2, Hc, zdrop_app_le; [done|]. rewrite <- Available_Current by done. lia.
  - by rewrite !rest_ConsumeBytes.
  - by rewrite !pending_ConsumeBytes.
  - rewrite pending_ConsumeBytes. lia.
Qed.

Ltac grow_field :=
  intros []; constructor; try done; unfold rest in *; simpl in *; congruence.

Lemma grow_set_state d p q s : grow d p q -> grow d (set_state s p) (set_state s q).
Proof. grow_field. Qed.
Lemma grow_set_parse_error d p q e : grow d p q -> grow d (set_parse_error e p) (set_parse_error e q).
Proof. grow_field. Qed.
Lemma grow_set_columns d p q cs sd : grow d p q -> grow d (set_columns cs sd p) (set_columns cs sd q).
Proof. grow_field. Qed.
Lemma grow_set_row d p q r : grow d p q -> grow d (set_current_row r p) (set_current_row r q).
Proof. grow_field. Qed.
Lemma grow_set_error d p q e : grow d p q -> grow d (set_current_error e p) (set_current_error e q).
Proof. grow_field. Qed.
Lemma grow_set_info d p q e : grow d p q -> grow d (set_current_info e p) (set_current_info e q).
Proof. grow_field. Qed.
Lemma grow_set_done d p q e : grow d p q -> grow d (set_current_done e p) (set_current_done e q).
Proof. grow_field. Qed.
Lemma grow_set_raw_row d p q l b n :
  grow d p q -> grow d (set_raw_row (buffer_pos_ p + 1) l b n p) (set_raw_row (buffer_pos_ q + 1) l b n q).
Proof. intros []. constructor; try done; unfold rest in *; simpl in *; [congruence|lia]. Qed.

Create HintDb grow.
#[local] Hint Resolve grow_set_state grow_set_parse_error grow_set_columns grow_set_row grow_set_error
  grow_set_info grow_set_done grow_set_raw_row : grow.

Lemma grow_fields d p q : grow d p q ->
  state_ p = state_ q /\ skip_rows_ p = skip_rows_ q /\ raw_row_mode_ p = raw_row_mode_ q /\
  columns_ p = columns_ q /\ skip_descs_ p = skip_descs_ q /\ current_row_ p = current_row_ q /\
  current_error_ p = current_error_ q /\ current_info_ p = current_info_ q.
Proof. intros [_ _ _ Hr _ _]. unfold rest in Hr. by simplify_eq. Qed.

(** A token function on [p] and on [q]: an answer is the same answer, and with
    nothing more in the stream so is "need more data". *)
Definition stable (d : bytes) (m m' : res (bool * TokenParser)) : Prop :=
  match m with
  | Ok (true, p') => exists q', m' = Ok (true, q') /\ grow d p' q'
  | Ok (false, p') =>
      state_ p' = ParserState.Error \/ d = [] -> exists q', m' = Ok (false, q') /\ grow d p' q'
  | Exn e => m' = Exn e
  | Oob => True
  end.

Lemma stable_bind {A} d (m m' : res A) (f f' : A -> res (bool * TokenParser)) :
  extends (fun _ => False) m m' -> (forall a, stable d (f a) (f' a)) -> stable d (m ≫= f) (m' ≫= f').
Proof. destruct m; simpl; [intros [[]| ->] H; apply H | by intros -> | done]. Qed.

(** A size test: it can only be passed with more bytes if it was failed. *)
Lemma stable_guard d p q n (m m' : res (bool * TokenParser)) :
  grow d p q -> state_ p <> ParserState.Error ->
  (n <= Available p -> stable d m m') ->
  stable d (if Available p <? n then Ok (false, p) else m) (if Available q <? n then Ok (false, q) else m').
Proof.
  intros Hg Hs Hm. rewrite (grow_Available _ _ _ Hg). pose proof (zlen_nonneg d).
  destruct (Z.ltb_spec (Available p) n) as [Hl|Hl].
  - intros [He| ->]; [done|]. rewrite zlen_nil, Z.add_0_r.
    exists q. by replace (Available p <? n) with true by lia.
  - replace (Available p + zlen d <? n) with false by lia. auto.
Qed.

Section Stable.
Context {S : Simdutf}.

Lemma grow_tail d p q : grow d p q -> 1 <= Available p ->
  zdrop 1 (Current q) = zdrop 1 (Current p) ++ d.
Proof.
  intros Hg Ha. destruct Hg. rewrite grow_current0, zdrop_app_le; [done|].
  by rewrite <- Available_Current.
Qed.

Lemma ParseColMetadata_stable d p q :
  grow d p q -> parser_ok p -> pending_consume_ p = 0 -> state_ p <> ParserState.Error ->
  stable d (ParseColMetadata p) (ParseColMetadata q).
Proof.
  intros Hg Hok Hpend Hs. unfold ParseColMetadata. apply stable_guard; [done..|]. intros Ha.
  rewrite (grow_tail _ _ _ Hg) by lia. pose proof (grow_fields _ _ _ Hg) as (_ & _ & _ & _ & Hd & _).
  pose proof (Parse_final (zdrop 1 (Current p)) d) as Hf. unfold final in Hf.
  pose proof (Parse_safe (zdrop 1 (Current p))) as Hsafe. rewrite zlen_Current_tail in Hsafe by (apply Hok || lia).
  destruct (Parse (zdrop 1 (Current p))) as [cs [[n|]|e|]] eqn:E; simpl in *.
  - rewrite Hf by done. eexists. split; [reflexivity|].
    apply grow_set_state, grow_Consume; [by apply grow_set_columns|unfold Available in *; simpl; lia|done].
  - intros [He| ->]; [done|]. rewrite app_nil_r, E, Hd. eauto with grow.
  - rewrite Hf by done. intros _. rewrite Hd. eauto 6 with grow.
  - done.
Qed.

Lemma parse_row_stable d nbc p q :
  grow d p q -> parser_ok p -> pending_consume_ p = 0 -> state_ p <> ParserState.Error ->
  skip_descs_ p = ResolveSkipForm <$> columns_ p ->
  stable d (parse_row nbc p) (parse_row nbc q).
Proof.
  intros Hg Hok Hpend Hs Hd. unfold parse_row. pose proof (zlen_nonneg d).
  pose proof (grow_fields _ _ _ Hg) as (_ & Hsk & Hraw & Hc & Hsd & Hrow & _).
  rewrite <- Hsk, <- Hraw, <- Hc, <- Hsd, <- Hrow, Hd.
  case_bool_decide; [intros _; eauto with grow|].
  apply stable_guard; [done..|]. intros Ha. cbv zeta. rewrite (grow_tail _ _ _ Hg) by lia.
  pose proof (zlen_Current_tail p 1 (ok_pos _ Hok) ltac:(lia)) as Hl.
  set (data := zdrop 1 (Current p)) in *. set (cols := columns_ p) in *.
  rewrite !SkipRow_descs, !SkipNBCRow_descs.
  assert (Hx : extends_some (if nbc then SkipNBCRow cols None data else SkipRow cols None data)
                            (if nbc then SkipNBCRow cols None (data ++ d) else SkipRow cols None (data ++ d)))
    by (destruct nbc; [apply SkipNBCRow_extends|apply SkipRow_extends]).
  assert (Hn : holds_some (if nbc then SkipNBCRow cols None data else SkipRow cols None data)
                          (fun n => 0 <= n <= Available p - 1))
    by (rewrite <- Hl; destruct nbc; [apply SkipNBCRow_safe|apply SkipRow_safe]).
  destruct (skip_rows_ p); [|destruct (raw_row_mode_ p)].
  - destruct (if nbc then SkipNBCRow cols None data else _) as [[n|]| |] eqn:E; simpl in *.
    + destruct Hx as [|Hx]; [done|]. rewrite Hx. eexists. split; [reflexivity|]. apply grow_Consume; done || lia.
    + intros [He| ->]; [done|]. rewrite app_nil_r, E. eauto.
    + by rewrite Hx.
    + done.
  - destruct (if nbc then SkipNBCRow cols None data else _) as [[n|]| |] eqn:E; simpl in *.
    + destruct Hx as [|Hx]; [done|]. rewrite Hx. eauto with grow.
    + intros [He| ->]; [done|]. rewrite app_nil_r, E. eauto.
    + by rewrite Hx.
    + done.
  - clear Hx Hn. cbn [columns_ current_row_ set_current_row]. rewrite <- ?Hrow, <- ?Hc. fold cols.
    set (row := RowData_Clear (current_row_ p)).
    assert (Hx : extends_some (if nbc then ReadNBCRow cols data row else ReadRow cols data row)
                   (if nbc then ReadNBCRow cols (data ++ d) row else ReadRow cols (data ++ d) row))
      by (destruct nbc; [apply ReadNBCRow_extends|apply ReadRow_extends]).
    assert (Hn : holds_some (if nbc then ReadNBCRow cols data row else ReadRow cols data row)
                   (fun '(n, _) => 0 <= n <= Available p - 1))
      by (rewrite <- Hl; destruct nbc; [apply ReadNBCRow_safe, row_ok_Clear, Hok|apply ReadRow_safe]).
    destruct (if nbc then ReadNBCRow cols data row else _) as [[[n row']|]| |] eqn:E; simpl in *.
    + destruct Hx as [|Hx]; [done|]. rewrite Hx. eexists. split; [reflexivity|].
      apply grow_Consume; [|unfold Available in *; simpl; lia|done]. eauto with grow.
    + intros [He| ->]; [done|]. rewrite app_nil_r, E. eauto with grow.
    + rewrite Hx. intros _. eauto 6 with grow.
    + done.
Qed.
End Stable.

Section Stable2.
Context {S : Simdutf}.

(** The front of the longer stream reads like the front of the shorter. *)
Lemma grow_reads d p q :
  grow d p q -> exists e, Current q = Current p ++ e /\ e = d.
Proof. intros []. eauto. Qed.

Lemma ParseDone_stable d p q :
  grow d p q -> parser_ok p -> pending_consume_ p = 0 -> state_ p <> ParserState.Error ->
  stable d (ParseDone p) (ParseDone q).
Proof.
  intros Hg Hok Hpend Hs. unfold ParseDone. apply stable_guard; [done..|]. intros Ha. cbv zeta.
  rewrite (grow_current _ _ _ Hg).
  apply stable_bind; [auto with tds|]. intros st. apply stable_bind; [auto with tds|]. intros cmd.
  apply stable_bind; [auto with tds|]. intros rc.
  assert (Hc : grow d (ConsumeBytes 13 (set_current_done (mkDoneToken st cmd rc) p))
                      (ConsumeBytes 13 (set_current_done (mkDoneToken st cmd rc) q)))
    by (apply grow_Consume; [by apply grow_set_done|unfold Available in *; simpl; lia|done]).
  simpl. destruct (IsFinal _); eauto with grow.
Qed.

Lemma ParseUSVarchar_app data d len off :
  extends (fun _ => False) (ParseUSVarchar data len off) (ParseUSVarchar (data ++ d) len off).
Proof.
  unfold ParseUSVarchar. apply extends_if; intros _; [apply extends_refl|].
  apply extends_bind; [auto with tds|]. intros c _. cbv zeta.
  apply extends_if; intros _; [apply extends_refl|].
  apply extends_bind; [auto with tds|]. intros ? _. apply extends_refl.
Qed.

Lemma ParseBVarchar_app data d len off :
  extends (fun _ => False) (ParseBVarchar data len off) (ParseBVarchar (data ++ d) len off).
Proof.
  unfold ParseBVarchar. apply extends_if; intros _; [apply extends_refl|].
  apply extends_bind; [auto with tds|]. intros c _. cbv zeta.
  apply extends_if; intros _; [apply extends_refl|].
  apply extends_bind; [auto with tds|]. intros ? _. apply extends_refl.
Qed.

(** The message lies inside the token, so what follows the token is not read. *)
Lemma parse_message_app data d len e :
  extends (fun _ => False) (parse_message data len e) (parse_message (data ++ d) len e).
Proof.
  unfold parse_message. cbv zeta.
  do 3 (apply extends_bind; [auto with tds|]; intros ? _).
  apply extends_bind; [apply ParseUSVarchar_app|]. intros [[o1 msg]|] _; [|apply extends_refl].
  apply extends_bind; [apply ParseBVarchar_app|]. intros [[o2 srv]|] _; [|apply extends_refl].
  apply extends_bind; [apply ParseBVarchar_app|]. intros [[o3 proc]|] _; [|apply extends_refl].
  apply extends_if; intros _; [apply extends_refl|].
  apply extends_bind; [auto with tds|]. intros ? _. apply extends_refl.
Qed.

(** A message that does not fit its token fails again in the same way, from the
    members the first attempt left. *)
Lemma parse_message_again data len e e' :
  parse_message data len e = Ok (false, e') -> parse_message data len e' = Ok (false, e').
Proof.
  unfold parse_message. cbv zeta. intros H.
  apply bind_Ok in H as (num & -> & H). apply bind_Ok in H as (st & -> & H).
  apply bind_Ok in H as (sev & -> & H). cbn [mbind res_bind].
  apply bind_Ok in H as (r1 & -> & H). cbn [mbind res_bind].
  destruct r1 as [[o1 msg]|]; [|by simplify_eq].
  apply bind_Ok in H as (r2 & -> & H). cbn [mbind res_bind].
  destruct r2 as [[o2 srv]|]; [|by simplify_eq].
  apply bind_Ok in H as (r3 & -> & H). cbn [mbind res_bind].
  destruct r3 as [[o3 proc]|]; [|by simplify_eq].
  destruct (_ <? _); [by simplify_eq|]. apply bind_Ok in H as (ln & _ & H). by simplify_eq.
Qed.

Lemma ParseError_stable d p q :
  grow d p q -> parser_ok p -> pending_consume_ p = 0 -> state_ p <> ParserState.Error ->
  stable d (ParseError p) (ParseError q).
Proof.
  intros Hg Hok Hpend Hs. unfold ParseError. cbv zeta. apply stable_guard; [done..|]. intros Ha.
  rewrite (grow_current _ _ _ Hg). apply stable_bind; [auto with tds|]. intros len.
  apply stable_guard; [done..|]. intros Hl.
  pose proof (grow_fields _ _ _ Hg) as (_ & _ & _ & _ & _ & _ & He & _). rewrite <- He.
  destruct (Z.ltb_spec len 6); [intros _; by exists q|].
  apply stable_bind; [apply parse_message_app|]. intros [[] e]; [|intros _; eexists; split; [reflexivity|by apply grow_set_error]].
  eexists. split; [reflexivity|]. apply grow_Consume; [by apply grow_set_error|unfold Available in *; simpl; lia|done].
Qed.

Lemma ParseInfo_stable d p q :
  grow d p q -> parser_ok p -> pending_consume_ p = 0 -> state_ p <> ParserState.Error ->
  stable d (ParseInfo p) (ParseInfo q).
Proof.
  intros Hg Hok Hpend Hs. unfold ParseInfo. cbv zeta. apply stable_guard; [done..|]. intros Ha.
  rewrite (grow_current _ _ _ Hg). apply stable_bind; [auto with tds|]. intros len.
  apply stable_guard; [done..|]. intros Hl.
  pose proof (grow_fields _ _ _ Hg) as (_ & _ & _ & _ & _ & _ & _ & He). rewrite <- He.
  destruct (Z.ltb_spec len 6); [intros _; by exists q|].
  apply stable_bind; [apply parse_message_app|]. intros [[] e]; [|intros _; eexists; split; [reflexivity|by apply grow_set_info]].
  eexists. split; [reflexivity|]. apply grow_Consume; [by apply grow_set_info|unfold Available in *; simpl; lia|done].
Qed.

Lemma get16le_nonneg data i v : get16le data i = Ok v -> 0 <= v < 65536.
Proof.
  rewrite get16le_eq. intros (b0 & E0 & H)%bind_Ok. apply bind_Ok in H as (b1 & E1 & H).
  apply get8_Ok_range in E0, E1. simplify_eq. lia.
Qed.

Lemma get32le_nonneg data i v : get32le data i = Ok v -> 0 <= v < 4294967296.
Proof.
  rewrite get32le_eq. intros (b0 & E0 & H)%bind_Ok. apply bind_Ok in H as (b1 & E1 & H).
  apply bind_Ok in H as (b2 & E2 & H). apply bind_Ok in H as (b3 & E3 & H).
  apply get8_Ok_range in E0, E1, E2, E3. simplify_eq. lia.
Qed.

Lemma ParseEnvChange_stable d p q :
  grow d p q -> parser_ok p -> pending_consume_ p = 0 -> state_ p <> ParserState.Error ->
  stable d (ParseEnvChange p) (ParseEnvChange q).
Proof.
  intros Hg Hok Hpend Hs. unfold ParseEnvChange. apply stable_guard; [done..|]. intros Ha.
  rewrite (grow_current _ _ _ Hg).
  destruct (get16le (Current p) 1) as [len| |] eqn:E; [|by apply get16le_not_exn in E|done].
  rewrite (get16le_app_l _ _ _ _ E). cbn [mbind res_bind]. apply get16le_nonneg in E.
  apply stable_guard; [done..|]. intros Hl. eexists. split; [reflexivity|].
  apply grow_Consume; done || lia.
Qed.

(** ** A turn on the longer stream *)

Definition final_state (p : TokenParser) : Prop :=
  state_ p = ParserState.Complete \/ state_ p = ParserState.Error.

#[local] Instance final_state_dec p : Decision (final_state p).
Proof. unfold final_state. apply _. Defined.

Definition waits (t : ParsedTokenType.t) (p : TokenParser) : Prop :=
  t = ParsedTokenType.NeedMoreData /\ ~ final_state p.

Definition turn_stable (d : bytes) (m m' : res turn) : Prop :=
  match m with
  | Ok (Return t p') => ~ waits t p' \/ d = [] -> exists q', m' = Ok (Return t q') /\ grow d p' q'
  | Ok (Continue p') => exists q', m' = Ok (Continue q') /\ grow d p' q'
  | Exn e => m' = Exn e
  | Oob => True
  end.

Lemma turn_stable_token d m m' t p :
  t <> ParsedTokenType.NeedMoreData ->
  (forall p', m = Ok (false, p') -> state_ p' = ParserState.Error \/ state_ p' = state_ p) ->
  ~ final_state p -> stable d m m' -> turn_stable d (returns (token m t)) (returns (token m' t)).
Proof.
  intros Ht Hf Hp Hs. destruct m as [[[] p']| |]; simpl in *.
  - destruct Hs as (q' & -> & Hg). simpl. eauto.
  - intros Hw. assert (Hd : state_ p' = ParserState.Error \/ d = []).
    { destruct Hw as [Hw|]; [|by right]. left. destruct (Hf p' eq_refl) as [|Hs']; [done|].
      exfalso. apply Hw. split; [done|]. unfold final_state in *. by rewrite Hs'. }
    destruct (Hs Hd) as (q' & -> & Hg). simpl. eauto.
  - by rewrite Hs.
  - done.
Qed.

(** A function that returned [false] set the error state or left the state. *)
Definition keeps_state (m : res (bool * TokenParser)) (p : TokenParser) : Prop :=
  forall p', m = Ok (false, p') -> state_ p' = ParserState.Error \/ state_ p' = state_ p.

Lemma keeps_short p f :
  (forall n, keeps_state (f n) p) ->
  keeps_state (if Available p <? 3 then Ok (false, p) else
               token_length ← get16le (Current p) 1;
               if Available p <? 3 + token_length then Ok (false, p) else f token_length) p.
Proof.
  intros Hf p'. destruct (_ <? 3); [intros [= <-]; by right|].
  intros (n & _ & H)%bind_Ok. destruct (_ <? _); [simplify_eq; by right|]. by apply (Hf n).
Qed.

Lemma ParseColMetadata_keeps p : keeps_state (ParseColMetadata p) p.
Proof.
  intros p'. unfold ParseColMetadata. destruct (_ <? _); [intros [= <-]; by right|].
  destruct (Parse _) as [cs [[n|]|e|]]; intros [=]; subst; simpl; auto.
Qed.

Lemma parse_row_keeps nbc p : keeps_state (parse_row nbc p) p.
Proof.
  intros p'. unfold parse_row. case_bool_decide; [intros [= <-]; by left|].
  destruct (_ <? 1); [intros [= <-]; by right|]. cbv zeta.
  destruct (skip_rows_ p); [|destruct (raw_row_mode_ p)].
  - intros ([n|] & _ & Hr)%bind_Ok; simplify_eq; by right.
  - intros ([n|] & _ & Hr)%bind_Ok; simplify_eq; by right.
  - match goal with |- match ?m with _ => _ end = _ -> _ => destruct m as [[[n row]|]| |] end;
      intros [=]; subst; simpl; auto.
Qed.

Lemma ParseDone_keeps p : keeps_state (ParseDone p) p.
Proof.
  intros p'. unfold ParseDone. destruct (_ <? _); [intros [= <-]; by right|].
  intros (st & _ & H)%bind_Ok. apply bind_Ok in H as (cmd & _ & H).
  apply bind_Ok in H as (rc & _ & H). cbv zeta in H. destruct (IsFinal _); done.
Qed.

Lemma ParseError_keeps p : keeps_state (ParseError p) p.
Proof.
  unfold ParseError. cbv zeta. apply keeps_short. intros n p'.
  destruct (_ <? 6); [intros [= <-]; by right|].
  intros ([[] e] & _ & H)%bind_Ok; simplify_eq. by right.
Qed.

Lemma ParseInfo_keeps p : keeps_state (ParseInfo p) p.
Proof.
  unfold ParseInfo. cbv zeta. apply keeps_short. intros n p'.
  destruct (_ <? 6); [intros [= <-]; by right|].
  intros ([[] e] & _ & H)%bind_Ok; simplify_eq. by right.
Qed.

Lemma ParseEnvChange_keeps p : keeps_state (ParseEnvChange p) p.
Proof. unfold ParseEnvChange. apply keeps_short. by intros n p' ?. Qed.

(** A skipped token, of which [Available] shows whether it is all there. *)
Lemma skip_stable d p q h (read read' : res Z) (extra : Z) :
  grow d p q -> pending_consume_ p = 0 -> ~ final_state p -> 0 < extra ->
  extends (fun _ => False) read read' -> (forall n, read = Ok n -> 0 <= n) ->
  turn_stable d
    (if Available p <? h then Ok (Return ParsedTokenType.NeedMoreData p) else
     token_length ← read;
     if Available p <? token_length + extra then Ok (Return ParsedTokenType.NeedMoreData p) else
     Ok (Continue (ConsumeBytes (token_length + extra) p)))
    (if Available q <? h then Ok (Return ParsedTokenType.NeedMoreData q) else
     token_length ← read';
     if Available q <? token_length + extra then Ok (Return ParsedTokenType.NeedMoreData q) else
     Ok (Continue (ConsumeBytes (token_length + extra) q))).
Proof.
  intros Hg Hpend Hf Hex Hr Hn. rewrite (grow_Available _ _ _ Hg). pose proof (zlen_nonneg d).
  assert (Hw : forall k, Available p < k -> ~ waits ParsedTokenType.NeedMoreData p \/ d = [] -> Available p + zlen d < k).
  { intros k Hk [Hw| ->]; [by destruct Hw|]. rewrite zlen_nil. lia. }
  destruct (Z.ltb_spec (Available p) h) as [Hl|Hl].
  - intros Hd. exists q. by replace (Available p + zlen d <? h) with true by (specialize (Hw h Hl Hd); lia).
  - replace (Available p + zlen d <? h) with false by lia.
    destruct read as [n|e|]; [|by rewrite Hr|done]. destruct Hr as [[]| ->]. specialize (Hn n eq_refl).
    cbn [mbind res_bind]. destruct (Z.ltb_spec (Available p) (n + extra)) as [Hl'|Hl'].
    + intros Hd. exists q. by replace (_ <? n + extra) with true by (specialize (Hw _ Hl' Hd); lia).
    + replace (_ <? n + extra) with false by lia. eexists. split; [reflexivity|]. apply grow_Consume; done || lia.
Qed.

Lemma parse_turn_stable d p q :
  grow d p q -> parser_ok p -> pending_consume_ p = 0 ->
  turn_stable d (parse_turn p) (parse_turn q).
Proof.
  intros Hg Hok Hpend. pose proof (grow_Available _ _ _ Hg) as Hav. pose proof (zlen_nonneg d) as Hd0.
  unfold parse_turn.
  pose proof (grow_fields _ _ _ Hg) as (Hst & _). rewrite <- Hst.
  destruct (decide (final_state p)) as [Hf|Hf].
  { rewrite !bool_decide_true by exact Hf. intros _. eauto. }
  rewrite !bool_decide_false by exact Hf.
  assert (Hs : state_ p <> ParserState.Error) by (intros E; apply Hf; by right).
  destruct (Z.ltb_spec (Available p) 1) as [Hl|Hl].
  { intros [Hw| ->]; [by destruct Hw|]. exists q. rewrite Hav, zlen_nil.
    by replace (_ <? 1) with true by lia. }
  replace (Available q <? 1) with false by lia. rewrite (grow_current _ _ _ Hg).
  rewrite Available_Current in Hl by apply Hok.
  destruct (get8_inside (Current p) 0) as (t & Et & Ht); [lia|].
  assert (Hd := fun Hn => descs_of_head p t Hok Et Hn).
  rewrite (get8_app_l _ _ _ _ Et), Et. cbn [mbind res_bind]. clear Et.
  destruct (Z.eqb_spec t TokenType.COLMETADATA) as [->|Hn].
  { eapply turn_stable_token; [done|apply ParseColMetadata_keeps|done|by apply ParseColMetadata_stable]. }
  specialize (Hd Hn). clear Hn.
  destruct (t =? TokenType.ROW).
  { eapply turn_stable_token; [done|apply parse_row_keeps|done|by apply parse_row_stable]. }
  destruct (t =? TokenType.NBCROW).
  { eapply turn_stable_token; [done|apply parse_row_keeps|done|by apply parse_row_stable]. }
  destruct (is_one_of t _).
  { eapply turn_stable_token; [done|apply ParseDone_keeps|done|by apply ParseDone_stable]. }
  destruct (t =? TokenType.ERROR_TOKEN).
  { eapply turn_stable_token; [done|apply ParseError_keeps|done|by apply ParseError_stable]. }
  destruct (t =? TokenType.INFO).
  { eapply turn_stable_token; [done|apply ParseInfo_keeps|done|by apply ParseInfo_stable]. }
  destruct (t =? TokenType.ENVCHANGE).
  { eapply turn_stable_token; [done|apply ParseEnvChange_keeps|done|by apply ParseEnvChange_stable]. }
  destruct (is_one_of t _); [|destruct (t =? TokenType.FEDAUTHINFO)].
  - apply skip_stable; try done; [auto with tds|]. intros n E%get16le_nonneg. lia.
  - apply skip_stable; try done; [auto with tds|]. intros n E%get32le_nonneg. lia.
  - intros _. eauto with grow.
Qed.
End Stable2.

Section Retry.
Context {S : Simdutf}.

Lemma same_trans p q r : same p q -> same q r -> same p r.
Proof.
  intros [? ? Hc Hr Hp Hw] [? ? Hc' Hr' Hp' Hw']. constructor; try done; try congruence.
  - by rewrite Hc', Hc, !app_nil_r.
  - intros H. rewrite Hw, Hw' by congruence. done.
Qed.

Lemma grow_ok d p q : grow d p q -> parser_ok p -> parser_ok q.
Proof.
  intros Hg [Hp Hpe Hrow Hd]. pose proof (grow_Available _ _ _ Hg) as Ha. pose proof (zlen_nonneg d).
  pose proof (grow_fields _ _ _ Hg) as (_ & _ & _ & Hc & Hsd & Hr & _). destruct Hg.
  constructor; [done|lia|congruence|]. destruct Hd as [Hd|[H0 Hh]]; [left; congruence|right].
  split; [congruence|]. rewrite grow_current0. by apply get8_app_l.
Qed.

Lemma turn_stable_trans m m' m'' :
  turn_stable [] m m' -> turn_stable [] m' m'' -> turn_stable [] m m''.
Proof.
  destruct m as [[t p|p]|e|]; simpl; [|intros (q & -> & Hg) (r & -> & Hg')|by intros -> ->|done].
  - intros H H' _. destruct H as (q & -> & Hg); [by right|]. destruct H' as (r & -> & Hg'); [by right|].
    exists r. split; [done|]. by eapply same_trans.
  - exists r. split; [done|]. by eapply same_trans.
Qed.

(** [f] left [p'] behind when it asked for more data; when the data comes it
    makes no difference whether it is called on [p] or on [p']. *)
Definition retry_ok (f : TokenParser -> res (bool * TokenParser)) (p : TokenParser) : Prop :=
  forall p', f p = Ok (false, p') ->
  p' = p \/ state_ p' = ParserState.Error \/
  forall d q, grow d p q -> exists q', grow d p' q' /\ f q' = f q /\
    buffer_ q' = buffer_ q /\ buffer_pos_ q' = buffer_pos_ q /\ state_ q' = state_ q.

Lemma ParseColMetadata_retry p : retry_ok ParseColMetadata p.
Proof.
  intros p'. unfold ParseColMetadata at 1. destruct (Z.ltb_spec (Available p) 3); [intros [= <-]; by left|].
  destruct (Parse _) as [cs [[n|]|e|]]; try done; intros [= <-]; [|by right; left].
  right; right. intros d q Hg. exists (set_columns cs (skip_descs_ p) q).
  split; [by apply grow_set_columns|]. split; [|done].
  pose proof (grow_Available _ _ _ Hg) as Ha. pose proof (zlen_nonneg d).
  unfold ParseColMetadata. change (Available (set_columns _ _ q)) with (Available q).
  replace (Available q <? 3) with false by lia.
  pose proof (grow_fields _ _ _ Hg) as (_ & _ & _ & _ & -> & _). done.
Qed.

Lemma RowData_Clear_twice row : RowData_Clear (RowData_Clear row) = RowData_Clear row.
Proof. unfold RowData_Clear. simpl. by rewrite <- !list_fmap_compose. Qed.

Lemma parse_row_retry nbc p : retry_ok (parse_row nbc) p.
Proof.
  intros p'. unfold parse_row at 1. case_bool_decide as Hc; [intros [= <-]; by right; left|].
  destruct (Z.ltb_spec (Available p) 1) as [|Ha]; [intros [= <-]; by left|]. cbv zeta.
  destruct (skip_rows_ p) eqn:Hs; [|destruct (raw_row_mode_ p) eqn:Hr].
  - intros ([n|] & _ & E)%bind_Ok; simplify_eq; by left.
  - intros ([n|] & _ & E)%bind_Ok; simplify_eq; by left.
  - match goal with |- match ?m with _ => _ end = _ -> _ => destruct m as [[[n row]|]| |] end;
      intros [=]; subst; [|by right; left].
    right; right. intros d q Hg. exists (set_current_row (RowData_Clear (current_row_ p)) q).
    split; [by apply grow_set_row|]. split; [|done].
    pose proof (grow_fields _ _ _ Hg) as (_ & Hs' & Hr' & Hc' & _ & Hrow & _).
    pose proof (grow_Available _ _ _ Hg) as Hav. pose proof (zlen_nonneg d).
    unfold parse_row. change (Available (set_current_row _ q)) with (Available q).
    cbn [columns_ skip_rows_ raw_row_mode_ set_current_row current_row_ skip_descs_].
    rewrite !(bool_decide_false (columns_ q = [])) by congruence.
    replace (Available q <? 1) with false by lia.
    rewrite <- Hs', Hs, <- Hr', Hr, Hrow, RowData_Clear_twice. done.
Qed.

Lemma ParseDone_retry p : retry_ok ParseDone p.
Proof.
  intros p'. unfold ParseDone at 1. destruct (_ <? _); [intros [= <-]; by left|].
  intros (st & _ & E)%bind_Ok. apply bind_Ok in E as (cmd & _ & E).
  apply bind_Ok in E as (rc & _ & E). cbv zeta in E. destruct (IsFinal _); done.
Qed.

Lemma parse_message_app_Ok data d len e r :
  parse_message data len e = Ok r -> parse_message (data ++ d) len e = Ok r.
Proof. intros E. pose proof (parse_message_app data d len e) as H. rewrite E in H. by destruct H as [[]|]. Qed.

Lemma ParseError_retry p : retry_ok ParseError p.
Proof.
  intros p'. unfold ParseError at 1. cbv zeta. destruct (Z.ltb_spec (Available p) 3); [intros [= <-]; by left|].
  intros (len & El & E)%bind_Ok. destruct (Z.ltb_spec (Available p) (3 + len)); [simplify_eq; by left|].
  destruct (Z.ltb_spec len 6); [simplify_eq; by left|].
  apply bind_Ok in E as ([[] e] & Em & E); [done|]. simplify_eq. right; right. intros d q Hg.
  exists (set_current_error e q). split; [by apply grow_set_error|]. split; [|done].
  pose proof (grow_Available _ _ _ Hg) as Ha. pose proof (zlen_nonneg d).
  pose proof (grow_fields _ _ _ Hg) as (_ & _ & _ & _ & _ & _ & He & _).
  unfold ParseError. cbv zeta. change (Available (set_current_error e q)) with (Available q).
  change (Current (set_current_error e q)) with (Current q). rewrite (grow_current _ _ _ Hg).
  replace (Available q <? 3) with false by lia. rewrite (get16le_app_l _ _ _ _ El). cbn [mbind res_bind].
  replace (Available q <? 3 + len) with false by lia. replace (len <? 6) with false by lia.
  rewrite <- He. cbn [current_error_ set_current_error].
  rewrite (parse_message_app_Ok _ _ _ _ _ Em).
  by rewrite (parse_message_app_Ok _ _ _ _ _ (parse_message_again _ _ _ _ Em)).
Qed.

Lemma ParseInfo_retry p : retry_ok ParseInfo p.
Proof.
  intros p'. unfold ParseInfo at 1. cbv zeta. destruct (Z.ltb_spec (Available p) 3); [intros [= <-]; by left|].
  intros (len & El & E)%bind_Ok. destruct (Z.ltb_spec (Available p) (3 + len)); [simplify_eq; by left|].
  destruct (Z.ltb_spec len 6); [simplify_eq; by left|].
  apply bind_Ok in E as ([[] e] & Em & E); [done|]. simplify_eq. right; right. intros d q Hg.
  exists (set_current_info e q). split; [by apply grow_set_info|]. split; [|done].
  pose proof (grow_Available _ _ _ Hg) as Ha. pose proof (zlen_nonneg d).
  pose proof (grow_fields _ _ _ Hg) as (_ & _ & _ & _ & _ & _ & _ & He).
  unfold ParseInfo. cbv zeta. change (Available (set_current_info e q)) with (Available q).
  change (Current (set_current_info e q)) with (Current q). rewrite (grow_current _ _ _ Hg).
  replace (Available q <? 3) with false by lia. rewrite (get16le_app_l _ _ _ _ El). cbn [mbind res_bind].
  replace (Available q <? 3 + len) with false by lia. replace (len <? 6) with false by lia.
  rewrite <- He. cbn [current_info_ set_current_info].
  rewrite (parse_message_app_Ok _ _ _ _ _ Em).
  by rewrite (parse_message_app_Ok _ _ _ _ _ (parse_message_again _ _ _ _ Em)).
Qed.

Lemma ParseEnvChange_retry p : retry_ok ParseEnvChange p.
Proof.
  intros p'. unfold ParseEnvChange at 1. destruct (_ <? _); [intros [= <-]; by left|].
  intros (n & _ & E)%bind_Ok. destruct (_ <? _); simplify_eq. by left.
Qed.

(** The [switch], as a table of token functions. *)
Definition handler (t : Z) : option ((TokenParser -> res (bool * TokenParser)) * ParsedTokenType.t) :=
  if t =? TokenType.COLMETADATA then Some (ParseColMetadata, ParsedTokenType.ColMetadata)
  else if t =? TokenType.ROW then Some (ParseRow, ParsedTokenType.Row)
  else if t =? TokenType.NBCROW then Some (ParseNBCRow, ParsedTokenType.Row)
  else if is_one_of t [TokenType.DONE; TokenType.DONEPROC; TokenType.DONEINPROC] then
    Some (ParseDone, ParsedTokenType.Done)
  else if t =? TokenType.ERROR_TOKEN then Some (ParseError, ParsedTokenType.Error)
  else if t =? TokenType.INFO then Some (ParseInfo, ParsedTokenType.Info)
  else if t =? TokenType.ENVCHANGE then Some (ParseEnvChange, ParsedTokenType.EnvChange)
  else None.

Lemma parse_turn_handler p t f ty :
  ~ final_state p -> 1 <= Available p -> get8 (Current p) 0 = Ok t -> handler t = Some (f, ty) ->
  parse_turn p = returns (token (f p) ty).
Proof.
  intros Hf Ha Ht Hh. unfold parse_turn. rewrite bool_decide_false by exact Hf.
  replace (Available p <? 1) with false by lia. rewrite Ht. cbn [mbind res_bind].
  revert Hh. unfold handler.
  repeat (match goal with |- context [if ?b then Some _ else _] => destruct b end;
    [intros [= <- <-]; reflexivity|]). done.
Qed.

Lemma handler_retry t f ty p : handler t = Some (f, ty) -> retry_ok f p.
Proof.
  unfold handler. repeat (match goal with |- context [if ?b then Some _ else _] => destruct b end;
    [intros [= <- <-]; first [apply ParseColMetadata_retry | apply (parse_row_retry false)
       | apply (parse_row_retry true) | apply ParseDone_retry | apply ParseError_retry
       | apply ParseInfo_retry | apply ParseEnvChange_retry]|]). done.
Qed.

(** Without a handler, a turn that asks for more data changes nothing. *)
Lemma parse_turn_no_handler p p' :
  (forall t f ty, get8 (Current p) 0 = Ok t -> handler t <> Some (f, ty)) ->
  parse_turn p = Ok (Return ParsedTokenType.NeedMoreData p') -> p' = p.
Proof.
  intros Hh. unfold parse_turn. case_bool_decide; [by intros [= <-]|].
  destruct (_ <? 1); [by intros [= <-]|]. intros (t & Et & E)%bind_Ok.
  specialize (Hh t). revert Hh E. unfold handler.
  repeat (match goal with |- context [if ?b then Some _ else _] => destruct b end;
    [intros Hh; exfalso; by eapply Hh|]). intros _.
  destruct (is_one_of t _); [|destruct (t =? _); [|done]].
  - destruct (_ <? 3); [by intros [= <-]|]. intros (n & _ & E)%bind_Ok. cbv zeta in E.
    destruct (_ <? _); by simplify_eq.
  - destruct (_ <? 5); [by intros [= <-]|]. intros (n & _ & E)%bind_Ok. cbv zeta in E.
    destruct (_ <? _); by simplify_eq.
Qed.

Lemma parse_turn_retry d p p' q q' :
  parser_ok p -> pending_consume_ p = 0 ->
  parse_turn p = Ok (Return ParsedTokenType.NeedMoreData p') -> ~ final_state p' ->
  grow d p q -> grow d p' q' -> turn_stable [] (parse_turn q) (parse_turn q').
Proof.
  intros Hok Hpend E Hf' Hg Hg'.
  assert (Hq : parser_ok q) by by eapply grow_ok.
  assert (Hqp : pending_consume_ q = 0) by (rewrite <- (grow_pending _ _ _ Hg); done).
  assert (Hself : p' = p -> turn_stable [] (parse_turn q) (parse_turn q')).
  { intros ->. apply parse_turn_stable; [by eapply grow_same|done..]. }
  assert (Hdec : (exists t f ty, get8 (Current p) 0 = Ok t /\ handler t = Some (f, ty)) \/
    (forall t f ty, get8 (Current p) 0 = Ok t -> handler t <> Some (f, ty))).
  { destruct (get8 (Current p) 0) as [t| |]; [|by right|by right].
    destruct (handler t) as [[f ty]|] eqn:Eh; [left; eauto|right]. intros ? f ty [= <-]. congruence. }
  destruct Hdec as [(t & f & ty & Et & Eh)|Hno]; [|by apply Hself, parse_turn_no_handler].
  destruct (decide (final_state p)) as [Hf|Hf].
  { apply Hself. unfold parse_turn in E. rewrite bool_decide_true in E by exact Hf. by injection E as <-. }
  pose proof (get8_Ok_range _ _ _ Et) as [Hlen _].
  rewrite <- Available_Current in Hlen by apply Hok.
  rewrite (parse_turn_handler p t f ty) in E by (done || lia).
  assert (Efp : f p = Ok (false, p')).
  { destruct (f p) as [[[] p1]| |]; simpl in E; try done; [|by injection E as ->].
    injection E as -> <-. revert Eh. unfold handler. repeat case_match; try done; intros [= _ ?]; done. }
  destruct (handler_retry _ _ _ p Eh p' Efp) as [->|[He|Hr]]; [by apply Hself|by destruct Hf'; right|].
  destruct (Hr d q Hg) as (q1 & Hg1 & Ef & Eb & Ep & Es).
  (* the two objects the same, up to the members the retry overwrites *)
  assert (Hcur : Current q1 = Current q) by (unfold Current; congruence).
  assert (Hav : Available q1 = Available q) by (unfold Available; congruence).
  assert (Et' : get8 (Current q) 0 = Ok t) by (rewrite (grow_current _ _ _ Hg); by apply get8_app_l).
  pose proof (grow_Available _ _ _ Hg) as Ha. pose proof (zlen_nonneg d).
  pose proof (grow_fields _ _ _ Hg) as (Hsq & _).
  assert (Hfq : ~ final_state q) by (unfold final_state in *; congruence).
  assert (Hfq1 : ~ final_state q1) by (unfold final_state in *; congruence).
  assert (Heq : parse_turn q1 = parse_turn q).
  { rewrite (parse_turn_handler q t f ty), (parse_turn_handler q1 t f ty) by (done || congruence || lia).
    by rewrite Ef. }
  rewrite <- Heq. apply parse_turn_stable; [by eapply grow_same| |].
  - eapply grow_ok; [exact Hg1|]. pose proof (parse_turn_safe p Hok Hpend) as Hs.
    rewrite (parse_turn_handler p t f ty), Efp in Hs by (done || lia). simpl in Hs. apply Hs.
  - rewrite <- (grow_pending _ _ _ Hg1). pose proof (parse_turn_safe p Hok Hpend) as Hs.
    rewrite (parse_turn_handler p t f ty), Efp in Hs by (done || lia). simpl in Hs. apply Hs.
Qed.

(** ** The loop and [TryParseNext] *)

Definition next_stable (d : bytes) (m m' : res (ParsedTokenType.t * TokenParser)) : Prop :=
  match m with
  | Ok (t, p') => ~ waits t p' \/ d = [] -> exists q', m' = Ok (t, q') /\ grow d p' q'
  | Exn e => m' = Exn e
  | Oob => True
  end.

(** Enough fuel is enough: any two amounts above the length of the stream agree. *)
Lemma parse_loop_more f f' p : parse_loop f p <> Oob -> (f <= f')%nat -> parse_loop f' p = parse_loop f p.
Proof.
  revert f' p. induction f as [|f IH]; intros f' p Hn Hf; [done|]. destruct f' as [|f']; [lia|].
  cbn [parse_loop] in *. destruct (parse_turn p) as [[t p'|p']| |]; simpl in *; try done. apply IH; [done|lia].
Qed.

Lemma parse_loop_fuel f f' p :
  parser_ok p -> pending_consume_ p = 0 ->
  zlen (Current p) < Z.of_nat f -> zlen (Current p) < Z.of_nat f' -> parse_loop f p = parse_loop f' p.
Proof.
  intros Hok Hp Hf Hf'. destruct (decide (f <= f')%nat) as [Hle|Hle].
  - symmetry. apply parse_loop_more; [|done]. eapply holds_safe, parse_loop_safe; done.
  - apply parse_loop_more; [|lia]. eapply holds_safe, parse_loop_safe; done.
Qed.

Lemma Continue_ok p p' :
  parser_ok p -> pending_consume_ p = 0 -> parse_turn p = Ok (Continue p') ->
  parser_ok p' /\ pending_consume_ p' = 0 /\ zlen (Current p') < zlen (Current p).
Proof.
  intros Hok Hp E. pose proof (parse_turn_safe p Hok Hp) as Hs. rewrite E in Hs. simpl in Hs.
  destruct Hs as [[Hok' (n & Hn & Hu)] Hp']. split; [done|]. split; [done|].
  unfold unread in Hu. rewrite Hp', zdrop_0 in Hu. rewrite Hu.
  rewrite Available_Current in Hn by apply Hok. rewrite zlen_zdrop by lia. lia.
Qed.

Lemma parse_loop_stable d f f' p q :
  grow d p q -> parser_ok p -> pending_consume_ p = 0 ->
  zlen (Current p) < Z.of_nat f -> zlen (Current q) < Z.of_nat f' ->
  next_stable d (parse_loop f p) (parse_loop f' q).
Proof.
  revert f' p q. induction f as [|f IH]; intros f' p q Hg Hok Hp Hf Hf'; [done|].
  destruct f' as [|f']; [pose proof (zlen_nonneg (Current q)); lia|]. cbn [parse_loop].
  pose proof (parse_turn_stable d p q Hg Hok Hp) as Ht.
  destruct (parse_turn p) as [[t p'|p']|e|] eqn:E; simpl in *; [| |by rewrite Ht|done].
  - intros Hw. destruct (Ht Hw) as (q' & -> & Hg'). simpl. eauto.
  - destruct Ht as (q' & E' & Hg'). rewrite E'. simpl.
    destruct (Continue_ok p p' Hok Hp E) as (Hok' & Hp' & Hl).
    destruct (Continue_ok q q' (grow_ok _ _ _ Hg Hok) ltac:(rewrite <- (grow_pending _ _ _ Hg); done) E') as (_ & _ & Hl').
    apply IH; done || lia.
Qed.

Lemma parse_loop_retry d f p p' q q' fq fq' :
  parse_loop f p = Ok (ParsedTokenType.NeedMoreData, p') -> ~ final_state p' ->
  parser_ok p -> pending_consume_ p = 0 -> grow d p q -> grow d p' q' ->
  zlen (Current q) < Z.of_nat fq -> zlen (Current q') < Z.of_nat fq' ->
  next_stable [] (parse_loop fq q) (parse_loop fq' q').
Proof.
  revert p q fq. induction f as [|f IH]; intros p q fq E Hf Hok Hp Hg Hg' Hfq Hfq'; [done|].
  cbn [parse_loop] in E. destruct (parse_turn p) as [[t p1|p1]|e|] eqn:Et; simpl in E; try done.
  - injection E as -> ->.
    assert (Hq : parser_ok q) by by eapply grow_ok.
    assert (Hqp : pending_consume_ q = 0) by (rewrite <- (grow_pending _ _ _ Hg); done).
    assert (Hok' : parser_ok p' /\ pending_consume_ p' = 0).
    { pose proof (parse_turn_safe p Hok Hp) as Hs. rewrite Et in Hs. simpl in Hs. by destruct Hs as (? & ? & _). }
    assert (Hq' : parser_ok q') by (eapply grow_ok; [exact Hg'|apply Hok']).
    assert (Hqp' : pending_consume_ q' = 0) by (rewrite <- (grow_pending _ _ _ Hg'); apply Hok').
    pose proof (parse_turn_retry d p p' q q' Hok Hp Et Hf Hg Hg') as Ht.
    destruct fq as [|fq]; [pose proof (zlen_nonneg (Current q)); lia|].
    destruct fq' as [|fq']; [pose proof (zlen_nonneg (Current q')); lia|]. cbn [parse_loop].
    destruct (parse_turn q) as [[t q1|q1]|e|] eqn:Eq; simpl in Ht |- *; [| |by rewrite Ht|done].
    + intros _. destruct Ht as (q2 & -> & Hs); [by right|]. simpl. eauto.
    + destruct Ht as (q2 & Eq' & Hs). rewrite Eq'. simpl.
      destruct (Continue_ok q q1 Hq Hqp Eq) as (Hok1 & Hp1 & Hl1).
      destruct (Continue_ok q' q2 Hq' Hqp' Eq') as (_ & _ & Hl2).
      apply parse_loop_stable; done || lia.
  - pose proof (parse_turn_stable d p q Hg Hok Hp) as Ht. rewrite Et in Ht. destruct Ht as (q1 & Eq & Hg1).
    destruct (Continue_ok p p1 Hok Hp Et) as (Hok1 & Hp1 & _).
    destruct (Continue_ok q q1 (grow_ok _ _ _ Hg Hok) ltac:(rewrite <- (grow_pending _ _ _ Hg); done) Eq) as (_ & _ & Hl).
    destruct fq as [|fq]; [pose proof (zlen_nonneg (Current q)); lia|]. cbn [parse_loop]. rewrite Eq. simpl.
    apply (IH p1 q1 fq E Hf Hok1 Hp1 Hg1 Hg'); lia.
Qed.

Lemma grow_settle d p q : grow d p q -> parser_ok p -> grow d (settle p) (settle q).
Proof.
  intros Hg Hok. unfold settle. rewrite <- (grow_pending _ _ _ Hg).
  destruct (Z.ltb_spec 0 (pending_consume_ p)); [|done].
  apply grow_Consume; [|apply Hok|done]. destruct Hg. constructor; try done; unfold rest in *; simpl in *; lia.
Qed.

Lemma settle_fuel p : parser_ok p -> zlen (Current (settle p)) < Z.of_nat (Datatypes.S (length (buffer_ (settle p)))).
Proof.
  intros Hok. destruct (settle_spec p Hok) as ([Hpos _ _ _] & _ & _).
  rewrite <- Available_Current by done. unfold pos_ok, Available, zlen in *. lia.
Qed.

Lemma TryParseNext_stable d p q :
  grow d p q -> parser_ok p -> next_stable d (TryParseNext p) (TryParseNext q).
Proof.
  intros Hg Hok. rewrite !TryParseNext_settle. destruct (settle_spec p Hok) as (Hok' & Hp0 & _).
  apply parse_loop_stable; [by apply grow_settle|done|done|by apply settle_fuel|].
  apply settle_fuel. by eapply grow_ok.
Qed.

Lemma TryParseNext_retry d p p' q q' :
  TryParseNext p = Ok (ParsedTokenType.NeedMoreData, p') -> ~ final_state p' ->
  parser_ok p -> grow d p q -> grow d p' q' ->
  next_stable [] (TryParseNext q) (TryParseNext q').
Proof.
  intros E Hf Hok Hg Hg'. pose proof (TryParseNext_post p Hok) as Hs. rewrite E in Hs.
  destruct Hs as (Hok' & n & _ & _ & _ & Hp'). specialize (Hp' eq_refl).
  assert (Hset : settle q' = q').
  { unfold settle. rewrite <- (grow_pending _ _ _ Hg'), Hp'. done. }
  rewrite !TryParseNext_settle in *. destruct (settle_spec p Hok) as (Hoks & Hp0 & _).
  eapply parse_loop_retry; [exact E|done|done|done|by apply grow_settle|by rewrite Hset| |].
  - apply settle_fuel. by eapply grow_ok.
  - apply settle_fuel. by eapply grow_ok.
Qed.

End Retry.

Section Throws.
Context {S : Simdutf}.

Lemma ParseUSVarchar_throws P data len off : throws_only P (ParseUSVarchar data len off).
Proof. unfold ParseUSVarchar. throws_steps. Qed.

Lemma ParseBVarchar_throws P data len off : throws_only P (ParseBVarchar data len off).
Proof. unfold ParseBVarchar. throws_steps. Qed.

Lemma parse_message_throws P data len e : throws_only P (parse_message data len e).
Proof.
  unfold parse_message. throws_steps; [apply ParseUSVarchar_throws|]. case_match; [|done].
  case_match. throws_steps; [apply ParseBVarchar_throws|]. case_match; [|done].
  case_match. throws_steps; [apply ParseBVarchar_throws|]. case_match; [|done].
  case_match. throws_steps.
Qed.

(** What leaves a turn: the row walk of the two modes that do not read rows is
    not inside a [try]. *)
Definition turn_error (p : TokenParser) (e : exn) : Prop :=
  is_lob_error e /\ skip_rows_ p || raw_row_mode_ p = true.

Lemma parse_row_throws nbc p :
  skip_descs_ p = ResolveSkipForm <$> columns_ p -> throws_only (turn_error p) (parse_row nbc p).
Proof.
  intros Hd. unfold parse_row, turn_error. cbv zeta. apply throws_if; intros _; [done|].
  apply throws_if; intros _; [done|].
  set (skip := if nbc then SkipNBCRow _ _ _ else SkipRow _ _ _).
  assert (Hskip : throws_only is_lob_error skip).
  { unfold skip. rewrite Hd. destruct nbc.
    - rewrite SkipNBCRow_descs. apply SkipNBCRow_throws.
    - rewrite SkipRow_descs. apply SkipRow_throws. }
  destruct (skip_rows_ p); [|destruct (raw_row_mode_ p)].
  - by destruct skip as [[]| |].
  - by destruct skip as [[]| |].
  - by destruct (if nbc then ReadNBCRow _ _ _ else _) as [[[]|]| |].
Qed.

Lemma returns_throws P m t : throws_only P m -> throws_only P (returns (token m t)).
Proof. by destruct m as [[]| |]. Qed.

Lemma short_token_throws P p f :
  (forall n, throws_only P (f n)) ->
  throws_only P (if Available p <? 3 then Ok (false, p) else
         token_length ← get16le (Current p) 1;
         if Available p <? 3 + token_length then Ok (false, p) else f token_length).
Proof. intros Hf. throws_steps. apply Hf. Qed.

Lemma parse_turn_throws p : parser_ok p -> throws_only (turn_error p) (parse_turn p).
Proof.
  intros Hok. unfold parse_turn. apply throws_if; intros _; [done|]. apply throws_if; intros _; [done|].
  destruct (get8 (Current p) 0) as [t| |] eqn:Et; [|unfold get8 in Et; by repeat case_match|done].
  assert (Hd := fun Hn => descs_of_head p t Hok Et Hn). cbn [mbind res_bind].
  destruct (Z.eqb_spec t TokenType.COLMETADATA) as [->|Hn].
  { apply returns_throws. unfold ParseColMetadata. apply throws_if; intros _; [done|].
    by destruct (Parse _) as [? [[]| |]]. }
  specialize (Hd Hn). repeat (apply throws_if; intros _; [apply returns_throws|]).
  - by apply parse_row_throws.
  - by apply parse_row_throws.
  - unfold ParseDone. throws_steps.
  - apply short_token_throws. intros n. apply throws_if; intros _; [done|].
    apply throws_bind; [apply parse_message_throws|]. by intros [].
  - apply short_token_throws. intros n. apply throws_if; intros _; [done|].
    apply throws_bind; [apply parse_message_throws|]. by intros [].
  - by apply short_token_throws.
  - apply throws_if; intros _; throws_steps.
Qed.

(** The loop goes on with the same object, some bytes further. *)
Lemma Continue_rest p p' : parse_turn p = Ok (Continue p') -> rest p' = rest p.
Proof.
  unfold parse_turn. case_bool_decide; [done|]. destruct (_ <? 1); [done|].
  intros (t & _ & E)%bind_Ok.
  repeat (match goal with H : (if ?b then returns (token ?m _) else _) = _ |- _ =>
    destruct b; [by destruct m as [[]| |]|] end).
  destruct (is_one_of t _); [|destruct (t =? _); [|done]].
  - destruct (_ <? 3); [done|]. apply bind_Ok in E as (n & _ & E). destruct (_ <? _); simplify_eq.
    apply rest_ConsumeBytes.
  - destruct (_ <? 5); [done|]. apply bind_Ok in E as (n & _ & E). destruct (_ <? _); simplify_eq.
    apply rest_ConsumeBytes.
Qed.

Lemma rest_settle p : rest (settle p) = rest p.
Proof. unfold settle. destruct (_ <? _); [by rewrite rest_ConsumeBytes|done]. Qed.

Lemma parse_loop_throws f p :
  parser_ok p -> pending_consume_ p = 0 -> throws_only (turn_error p) (parse_loop f p).
Proof.
  revert p. induction f as [|f IH]; intros p Hok Hp; [done|]. cbn [parse_loop].
  pose proof (parse_turn_throws p Hok) as Ht. destruct (parse_turn p) as [[t q|q]| |] eqn:E; try done.
  destruct (Continue_ok p q Hok Hp E) as (Hok' & Hp' & _). apply Continue_rest in E.
  simpl. specialize (IH q Hok' Hp'). unfold turn_error in *. unfold rest in E.
  injection E as _ _ E1 E2 _. by rewrite <- E1, <- E2.
Qed.

Lemma TryParseNext_throws p : parser_ok p -> throws_only (turn_error p) (TryParseNext p).
Proof.
  intros Hok. rewrite TryParseNext_settle. destruct (settle_spec p Hok) as (Hoks & Hp0 & _).
  pose proof (parse_loop_throws (Datatypes.S (length (buffer_ (settle p)))) _ Hoks Hp0) as H.
  pose proof (rest_settle p) as E. unfold rest in E. unfold turn_error in *. injection E as ? ? E1 E2 ?.
  by rewrite <- E1, <- E2.
Qed.

(** A token at the front of the stream that has a handler. *)
Lemma TryParseNext_handler p t f ty :
  parser_ok p -> ~ final_state p -> get8 (unread p) 0 = Ok t -> handler t = Some (f, ty) ->
  exists q, parser_ok q /\ pending_consume_ q = 0 /\ Current q = unread p /\ rest q = rest p /\
    forall b p', f q = Ok (b, p') ->
      TryParseNext p = Ok (if b then ty else ParsedTokenType.NeedMoreData, p').
Proof.
  intros Hok Hf Ht Hh. destruct (settle_spec p Hok) as (Hoks & Hp0 & Hc).
  pose proof (rest_settle p) as Hr. exists (settle p). repeat (split; [done|]). intros b p' E.
  assert (Hst : state_ (settle p) = state_ p) by (unfold rest in Hr; congruence).
  rewrite TryParseNext_settle. cbn [parse_loop].
  rewrite (parse_turn_handler (settle p) t f ty); [by rewrite E| | |by rewrite Hc|done].
  - unfold final_state in *. by rewrite Hst.
  - rewrite Available_Current, Hc by apply Hoks. apply get8_Ok_range in Ht. lia.
Qed.
End Throws.

Section Decoding.
Context {S : Simdutf}.

(** In a final state a call does nothing. *)
Lemma TryParseNext_final p :
  final_state p -> pending_consume_ p = 0 -> TryParseNext p = Ok (ParsedTokenType.NeedMoreData, p).
Proof.
  intros Hf Hp. unfold TryParseNext. rewrite Hp. cbn [Z.ltb Z.compare parse_loop].
  unfold parse_turn. rewrite bool_decide_true by exact Hf. done.
Qed.

Lemma unread_Current p : pending_consume_ p = 0 -> unread p = Current p.
Proof. intros H. unfold unread. by rewrite H, zdrop_0. Qed.

Lemma ParseDone_decodes q b s0 s1 c0 c1 r0 r1 r2 r3 r4 r5 r6 r7 r :
  parser_ok q -> pending_consume_ q = 0 ->
  Current q = b :: s0 :: s1 :: c0 :: c1 :: r0 :: r1 :: r2 :: r3 :: r4 :: r5 :: r6 :: r7 :: r ->
  let dn := mkDoneToken (le16 s0 s1) (le16 c0 c1) (le32 r0 r1 r2 r3 + 2 ^ 32 * le32 r4 r5 r6 r7) in
  exists m, ParseDone q = Ok (true, m) /\ Current m = r /\ pending_consume_ m = 0 /\ current_done_ m = dn /\
    state_ m = if IsFinal dn then ParserState.Complete else state_ q.
Proof.
  intros Hok Hp Hw dn. pose proof (ok_pos q Hok) as Hpos.
  assert (Ha : 13 <= Available q).
  { rewrite Available_Current, Hw by done. rewrite !zlen_cons. pose proof (zlen_nonneg r). lia. }
  set (m := ConsumeBytes 13 (set_current_done dn q)).
  destruct (Current_ConsumeBytes 13 (set_current_done dn q)) as [Hc _]; [done|split; [lia|exact Ha]|].
  change (Current (set_current_done dn q)) with (Current q) in Hc. rewrite Hw in Hc.
  assert (Hm : rest m = rest (set_current_done dn q)) by apply rest_ConsumeBytes.
  assert (Hpm : pending_consume_ m = 0) by (by unfold m; rewrite pending_ConsumeBytes).
  unfold rest in Hm. change (ConsumeBytes 13 (set_current_done dn q)) with m in Hc.
  assert (Em : ConsumeBytes 13 (set_current_done dn q) = m) by done. clearbody m. simpl in Hm.
  exists (if IsFinal dn then set_state ParserState.Complete m else m). split.
  - unfold ParseDone. replace (_ <? 13) with false by lia. cbv zeta. rewrite Hw.
    match goal with |- context [get16le ?l 1] => name_buffer l data Hd end.
    apply cursor_cons in Hd as [_ Hd]. change (0 + 1) with 1 in Hd.
    apply cursor_get16le in Hd as [E0 Hd]. change (1 + 2) with 3 in Hd.
    apply cursor_get16le in Hd as [E1 Hd]. change (3 + 2) with 5 in Hd.
    apply cursor_get32le in Hd as [E2 Hd]. apply cursor_get32le in Hd as [E3 _]. unfold get64le.
    rewrite E0. cbn [mbind res_bind]. rewrite E1. cbn [mbind res_bind].
    rewrite E2. cbn [mbind res_bind]. rewrite E3. cbn [mbind res_bind].
    pose proof (le32_range r0 r1 r2 r3). rewrite lor_shiftl_add by lia.
    rewrite (Z.mul_comm _ (2 ^ 32)). fold dn. by rewrite Em.
  - assert (Hdone : current_done_ m = dn) by congruence.
    assert (Hsm : state_ m = state_ q) by congruence.
    destruct (IsFinal dn); simpl; repeat split; try done; congruence.
Qed.
End Decoding.

(** A message token as the server writes it: [pad] is whatever the declared
    length holds behind the line number. *)
Definition message_body (n0 n1 n2 n3 st sev m0 m1 : byte) (msg : bytes) (sl : byte) (srv : bytes)
    (pl : byte) (proc : bytes) (l0 l1 l2 l3 : byte) (pad : bytes) : bytes :=
  n0 :: n1 :: n2 :: n3 :: st :: sev :: m0 :: m1 :: msg ++ sl :: srv ++ pl :: proc ++ l0 :: l1 :: l2 :: l3 :: pad.

Section Messages.
Context {S : Simdutf}.

Lemma ParseUSVarchar_complete data len off m0 m1 msg r :
  cursor data off (m0 :: m1 :: msg ++ r) -> zlen msg = 2 * le16 m0 m1 -> off + 2 + zlen msg <= len ->
  ParseUSVarchar data len off = Ok (Some (off + 2 + zlen msg, Utf16LEDecode msg)) /\
  cursor data (off + 2 + zlen msg) r.
Proof.
  intros Hc Hm Hl. pose proof (zlen_nonneg msg). apply cursor_get16le in Hc as [E Hc]. unfold ParseUSVarchar.
  replace (_ <? _) with false by lia. rewrite E. cbn [mbind res_bind]. cbv zeta.
  replace (_ <? _) with false by lia. rewrite (cursor_slice _ _ msg r) by (done || lia). cbn [mbind res_bind].
  split; [do 3 f_equal; lia|]. by apply cursor_app.
Qed.

Lemma ParseBVarchar_complete data len off sl srv r :
  cursor data off (sl :: srv ++ r) -> zlen srv = 2 * b2z sl -> off + 1 + zlen srv <= len ->
  ParseBVarchar data len off = Ok (Some (off + 1 + zlen srv, Utf16LEDecode srv)) /\
  cursor data (off + 1 + zlen srv) r.
Proof.
  intros Hc Hm Hl. pose proof (zlen_nonneg srv). apply cursor_cons in Hc as [E Hc]. unfold ParseBVarchar.
  replace (_ <=? _) with false by lia. rewrite E. cbn [mbind res_bind]. cbv zeta.
  replace (_ <? _) with false by lia. rewrite (cursor_slice _ _ srv r) by (done || lia). cbn [mbind res_bind].
  split; [do 3 f_equal; lia|]. by apply cursor_app.
Qed.

Lemma parse_message_complete data len e n0 n1 n2 n3 st sev m0 m1 msg sl srv pl proc l0 l1 l2 l3 pad r :
  cursor data 3 (message_body n0 n1 n2 n3 st sev m0 m1 msg sl srv pl proc l0 l1 l2 l3 pad ++ r) ->
  zlen msg = 2 * le16 m0 m1 -> zlen srv = 2 * b2z sl -> zlen proc = 2 * b2z pl ->
  zlen (message_body n0 n1 n2 n3 st sev m0 m1 msg sl srv pl proc l0 l1 l2 l3 pad) <= len ->
  parse_message data len e = Ok (true, mkTdsError (le32 n0 n1 n2 n3) (b2z st) (b2z sev) (Utf16LEDecode msg)
    (Utf16LEDecode srv) (Utf16LEDecode proc) (le32 l0 l1 l2 l3)).
Proof.
  intros Hc Hm Hs Hp Hl. unfold message_body in Hc, Hl. simpl app in Hc.
  repeat (rewrite <- app_assoc in Hc; simpl app in Hc).
  repeat first [rewrite zlen_cons in Hl | rewrite zlen_app in Hl]. pose proof (zlen_nonneg pad).
  pose proof (zlen_nonneg msg). pose proof (zlen_nonneg srv). pose proof (zlen_nonneg proc).
  unfold parse_message. cbv zeta.
  apply cursor_get32le in Hc as [-> Hc]. cbn [mbind res_bind].
  apply cursor_cons in Hc as [-> Hc]. cbn [mbind res_bind]. change (3 + 4 + 1) with (3 + 5) in Hc.
  apply cursor_cons in Hc as [-> Hc]. cbn [mbind res_bind]. change (3 + 5 + 1) with (3 + 6) in Hc.
  apply (ParseUSVarchar_complete _ (3 + len)) in Hc as [-> Hc]; [|done|lia]. cbn [mbind res_bind].
  apply (ParseBVarchar_complete _ (3 + len)) in Hc as [-> Hc]; [|done|lia]. cbn [mbind res_bind].
  apply (ParseBVarchar_complete _ (3 + len)) in Hc as [-> Hc]; [|done|lia]. cbn [mbind res_bind].
  replace (_ <? _) with false by lia.
  apply cursor_get32le in Hc as [-> _]. done.
Qed.

(** The frame of [ParseError] and [ParseInfo] around it. *)
Lemma message_frame q tok t0 t1 body r {A} (f : Z -> res A) (no : A) :
  parser_ok q -> Current q = tok :: t0 :: t1 :: body ++ r -> zlen body = le16 t0 t1 ->
  (if Available q <? 3 then Ok no else
   token_length ← get16le (Current q) 1;
   if Available q <? 3 + token_length then Ok no else f token_length)
  = f (le16 t0 t1) /\
  0 < 3 + le16 t0 t1 <= Available q /\ cursor (Current q) 3 (body ++ r).
Proof.
  intros Hok Hw Hb. pose proof (zlen_nonneg body). pose proof (zlen_nonneg r). pose proof (le16_range t0 t1).
  assert (Ha : Available q = 3 + zlen body + zlen r).
  { rewrite Available_Current, Hw by apply Hok. rewrite !zlen_cons, zlen_app. lia. }
  pose proof (cursor_0 (Current q)) as Hc. rewrite Hw in Hc at 2.
  apply cursor_cons in Hc as [_ Hc]. change (0 + 1) with 1 in Hc. apply cursor_get16le in Hc as [E Hc].
  split; [|split; [lia|exact Hc]]. replace (_ <? 3) with false by lia. rewrite E. cbn [mbind res_bind].
  by replace (_ <? _) with false by lia.
Qed.

Lemma ParseError_complete q tok t0 t1 n0 n1 n2 n3 st sev m0 m1 msg sl srv pl proc l0 l1 l2 l3 pad r :
  let body := message_body n0 n1 n2 n3 st sev m0 m1 msg sl srv pl proc l0 l1 l2 l3 pad in
  parser_ok q -> pending_consume_ q = 0 -> Current q = tok :: t0 :: t1 :: body ++ r -> zlen body = le16 t0 t1 ->
  zlen msg = 2 * le16 m0 m1 -> zlen srv = 2 * b2z sl -> zlen proc = 2 * b2z pl ->
  let e := mkTdsError (le32 n0 n1 n2 n3) (b2z st) (b2z sev) (Utf16LEDecode msg) (Utf16LEDecode srv)
             (Utf16LEDecode proc) (le32 l0 l1 l2 l3) in
  (exists m, ParseError q = Ok (true, m) /\ unread m = r /\ current_error_ m = e) /\
  (exists m, ParseInfo q = Ok (true, m) /\ unread m = r /\ current_info_ m = e).
Proof.
  intros body Hok Hp Hw Hb Hm Hs Hpr e. pose proof (ok_pos q Hok) as Hpos.
  assert (H6 : 6 <= le16 t0 t1).
  { rewrite <- Hb. unfold body, message_body. rewrite !zlen_cons.
    match goal with |- context [zlen ?l] => pose proof (zlen_nonneg l) end. lia. }
  assert (Hu : forall q', buffer_ q' = buffer_ q -> buffer_pos_ q' = buffer_pos_ q -> pending_consume_ q' = 0 ->
    3 + le16 t0 t1 <= Available q -> unread (ConsumeBytes (3 + le16 t0 t1) q') = r).
  { intros q' E1 E2 E3 Ha. assert (Hc : Current q' = Current q) by (unfold Current; congruence).
    rewrite unread_ConsumeBytes, Hc, Hw; [|unfold pos_ok in *; by rewrite E1, E2|unfold Available in *; rewrite E1, E2; lia|done].
    apply (zdrop_app_length (tok :: t0 :: t1 :: body)). rewrite !zlen_cons. lia. }
  split.
  - unfold ParseError. cbv zeta.
    destruct (message_frame q tok t0 t1 body r (fun len => if len <? 6 then Ok (false, q) else
      '(ok, e) ← parse_message (Current q) len (current_error_ q);
      Ok (ok, if (ok : bool) then ConsumeBytes (3 + len) (set_current_error e q) else set_current_error e q))
      (false, q)) as (-> & Ha & Hc); [done..|].
    replace (_ <? 6) with false by lia.
    rewrite (parse_message_complete _ _ _ _ _ _ _ _ _ _ _ _ _ _ _ _ _ _ _ _ _ _ Hc) by (done || (fold body; lia)).
    cbn [mbind res_bind]. eexists. split; [reflexivity|]. split; [apply Hu; done || lia|].
    pose proof (rest_ConsumeBytes (3 + le16 t0 t1) (set_current_error e q)) as Hr. unfold rest in Hr.
    by injection Hr.
  - unfold ParseInfo. cbv zeta.
    destruct (message_frame q tok t0 t1 body r (fun len => if len <? 6 then Ok (false, q) else
      '(ok, e) ← parse_message (Current q) len (current_info_ q);
      Ok (ok, if (ok : bool) then ConsumeBytes (3 + len) (set_current_info e q) else set_current_info e q))
      (false, q)) as (-> & Ha & Hc); [done..|].
    replace (_ <? 6) with false by lia.
    rewrite (parse_message_complete _ _ _ _ _ _ _ _ _ _ _ _ _ _ _ _ _ _ _ _ _ _ Hc) by (done || (fold body; lia)).
    cbn [mbind res_bind]. eexists. split; [reflexivity|]. split; [apply Hu; done || lia|].
    pose proof (rest_ConsumeBytes (3 + le16 t0 t1) (set_current_info e q)) as Hr. unfold rest in Hr.
    by injection Hr.
Qed.
End Messages.

(** ** A row token that was returned *)

Section RawRows.
Context {S : Simdutf}.

Lemma parse_turn_Row p p' :
  parse_turn p = Ok (Return ParsedTokenType.Row p') ->
  exists nbc : bool, get8 (Current p) 0 = Ok (if nbc then TokenType.NBCROW else TokenType.ROW) /\
    parse_row nbc p = Ok (true, p').
Proof.
  unfold parse_turn. case_bool_decide; [done|]. destruct (_ <? 1); [done|].
  intros (t & Et & E)%bind_Ok.
  destruct (t =? TokenType.COLMETADATA); [by destruct (ParseColMetadata p) as [[[] ?]| |]|].
  destruct (Z.eqb_spec t TokenType.ROW) as [->|_].
  { exists false. split; [done|]. unfold ParseRow in E. by destruct (parse_row false p) as [[[] ?]| |]; simplify_eq/=. }
  destruct (Z.eqb_spec t TokenType.NBCROW) as [->|_].
  { exists true. split; [done|]. unfold ParseNBCRow in E. by destruct (parse_row true p) as [[[] ?]| |]; simplify_eq/=. }
  exfalso.
  repeat (match goal with H : (if ?b then returns (token ?m _) else _) = _ |- _ =>
    destruct b; [by destruct m as [[[] ?]| |]|] end).
  destruct (is_one_of t _); [|destruct (t =? _); [|done]].
  - destruct (_ <? 3); [done|]. apply bind_Ok in E as (n & _ & E). by destruct (_ <? _).
  - destruct (_ <? 5); [done|]. apply bind_Ok in E as (n & _ & E). by destruct (_ <? _).
Qed.

Lemma parse_loop_Row f p p' :
  parser_ok p -> pending_consume_ p = 0 -> parse_loop f p = Ok (ParsedTokenType.Row, p') ->
  exists q k (nbc : bool), parser_ok q /\ pending_consume_ q = 0 /\ rest q = rest p /\
    0 <= k <= zlen (Current p) /\ Current q = zdrop k (Current p) /\
    get8 (Current q) 0 = Ok (if nbc then TokenType.NBCROW else TokenType.ROW) /\
    parse_row nbc q = Ok (true, p').
Proof.
  revert p. induction f as [|f IH]; intros p Hok Hp E; [done|]. cbn [parse_loop] in E.
  destruct (parse_turn p) as [[t q|q]| |] eqn:Et; simpl in E; try done.
  - injection E as -> ->. apply parse_turn_Row in Et as (nbc & H1 & H2). exists p, 0, nbc.
    pose proof (zlen_nonneg (Current p)). rewrite zdrop_0. repeat split; done || lia || apply Hok.
  - destruct (Continue_ok p q Hok Hp Et) as (Hok' & Hp' & _).
    pose proof (parse_turn_safe p Hok Hp) as Hs. rewrite Et in Hs. destruct Hs as [[_ (n & Hn & Hu)] _].
    rewrite unread_Current in Hu by done. rewrite Available_Current in Hn by apply Hok.
    destruct (IH q Hok' Hp' E) as (q' & k & nbc & H1 & H2 & H3 & H4 & H5 & H6 & H7).
    rewrite Hu, zlen_zdrop in H4 by lia. rewrite Hu, zdrop_zdrop in H5 by lia.
    exists q', (n + k), nbc. rewrite H3, (Continue_rest _ _ Et). repeat split; done || lia || apply H1.
Qed.

Lemma parse_row_raw nbc q p' :
  parser_ok q -> pending_consume_ q = 0 -> skip_descs_ q = ResolveSkipForm <$> columns_ q ->
  raw_row_mode_ q = true -> skip_rows_ q = false -> 1 <= Available q ->
  parse_row nbc q = Ok (true, p') ->
  exists w, zdrop 1 (Current q) = w ++ unread p' /\ columns_ p' = columns_ q /\ raw_row_nbc_ p' = nbc /\
    (if nbc then SkipNBCRow (columns_ q) None (w ++ unread p') else SkipRow (columns_ q) None (w ++ unread p'))
      = Ok (Some (zlen w)) /\
    (forall d, GetRawRow (Feed d p') = Ok w).
Proof.
  intros Hok Hp Hd Hraw Hskip Ha. pose proof (ok_pos q Hok) as Hpos.
  pose proof (zlen_Current_tail q 1 Hpos ltac:(lia)) as Hl.
  unfold parse_row. rewrite Hraw, Hskip. case_bool_decide; [done|].
  replace (_ <? 1) with false by lia. cbv zeta. rewrite Hd.
  rewrite SkipRow_descs, SkipNBCRow_descs.
  set (skip := if nbc then SkipNBCRow _ _ _ else SkipRow _ _ _).
  assert (Hn : holds_some skip (fun n => 0 <= n <= Available q - 1))
    by (unfold skip; rewrite <- Hl; destruct nbc; [apply SkipNBCRow_safe|apply SkipRow_safe]).
  destruct skip as [[n|]| |] eqn:E; try done. simpl in Hn. intros [= <-].
  assert (Hu : unread (set_raw_row (buffer_pos_ q + 1) n nbc (1 + n) q) = zdrop n (zdrop 1 (Current q))).
  { unfold unread. simpl. rewrite zdrop_zdrop by lia. done. }
  rewrite Hu. exists (ztake n (zdrop 1 (Current q))). rewrite ztake_zdrop.
  repeat (split; [done|]). split.
  - rewrite zlen_ztake by lia. unfold skip in E. by destruct nbc.
  - intros d. unfold GetRawRow. simpl. unfold pos_ok, Available in *. pose proof (zlen_nonneg d).
    rewrite slice_inside by (rewrite ?zlen_app; lia). f_equal.
    rewrite zdrop_app_le by lia. unfold Current. rewrite zdrop_zdrop by lia. rewrite ztake_app_le; [done|].
    rewrite zlen_zdrop; lia.
Qed.
End RawRows.

(** ** A message that does not fit *)

Section Stuck.
Context {S : Simdutf}.

(** Call, feed the next chunk, call again, ...: every answer is "need more
    data". *)
Fixpoint asks_for_more (p : TokenParser) (chunks : list bytes) : Prop :=
  exists p', TryParseNext p = Ok (ParsedTokenType.NeedMoreData, p') /\
    match chunks with [] => True | d :: chunks => asks_for_more (Feed d p') chunks end.

Lemma short_message_again p tok t0 t1 r :
  parser_ok p -> ~ final_state p -> unread p = tok :: t0 :: t1 :: r ->
  b2z tok = TokenType.ERROR_TOKEN \/ b2z tok = TokenType.INFO ->
  le16 t0 t1 < 6 -> le16 t0 t1 <= zlen r ->
  exists q, TryParseNext p = Ok (ParsedTokenType.NeedMoreData, q) /\ parser_ok q /\ ~ final_state q /\
    unread q = unread p.
Proof.
  intros Hok Hf Hw Htok Hlt Hle.
  assert (Hh : exists f ty, handler (b2z tok) = Some (f, ty) /\ (f = ParseError \/ f = ParseInfo)).
  { destruct Htok as [-> | ->]; do 2 eexists; (split; [reflexivity|]); [by left|by right]. }
  destruct Hh as (f & ty & Hh & Hff).
  destruct (TryParseNext_handler p (b2z tok) f ty Hok Hf) as (q & Hqok & Hqp & Hqc & Hqr & Hq);
    [rewrite Hw; apply get8_0|done|].
  assert (Hres : f q = Ok (false, q)).
  { rewrite Hw in Hqc. pose proof (le16_range t0 t1).
    assert (Ha : Available q = 3 + zlen r) by
      (rewrite Available_Current, Hqc by apply Hqok; rewrite !zlen_cons; lia).
    pose proof (cursor_0 (Current q)) as Hc. rewrite Hqc in Hc at 2.
    apply cursor_cons in Hc as [_ Hc]. apply cursor_get16le in Hc as [El _]. change (0 + 1) with 1 in El.
    destruct Hff as [-> | ->]; unfold ParseError, ParseInfo; cbv zeta;
      replace (_ <? 3) with false by lia; rewrite El; cbn [mbind res_bind];
      replace (_ <? _) with false by lia; by replace (_ <? 6) with true by lia. }
  exists q. split; [exact (Hq _ _ Hres)|]. split; [done|].
  assert (Hs : state_ q = state_ p) by (unfold rest in Hqr; congruence).
  split; [unfold final_state in *; by rewrite Hs|]. by rewrite unread_Current.
Qed.

Lemma unread_Feed d p : parser_ok p -> unread (Feed d p) = unread p ++ d.
Proof.
  intros [Hpos Hpe _ _]. unfold unread. rewrite Current_Feed by done. apply zdrop_app_le.
  rewrite <- Available_Current by done. simpl. lia.
Qed.
End Stuck.

(** ** The transaction descriptor of a well-formed response *)

(** What a response of ENVCHANGE and DONE tokens yields: the descriptor of the
    first ENVCHANGE of type 8 with an eight-byte new value; [None] when the
    response ends, or another token starts, before one. *)
Inductive txn_stream : bytes -> option bytes -> Prop :=
  | txn_end : txn_stream [] None
  | txn_begin l0 l1 d r :
      zlen d = 8 -> txn_stream (z2b 0xE3 :: l0 :: l1 :: z2b 8 :: z2b 8 :: d ++ r) (Some d)
  | txn_env l0 l1 k body r o :
      zlen (k :: body) = le16 l0 l1 -> k <> z2b 8 ->
      txn_stream r o -> txn_stream (z2b 0xE3 :: l0 :: l1 :: (k :: body) ++ r) o
  | txn_done t body r o :
      b2z t ∈ [0xFD; 0xFE; 0xFF] -> zlen body = 12 -> txn_stream r o -> txn_stream (t :: body ++ r) o
  | txn_other t r : b2z t ∉ [0xE3; 0xFD; 0xFE; 0xFF] -> txn_stream (t :: r) None.

Lemma FindBegin_safe fuel data off :
  0 <= off -> (0 < fuel)%nat -> zlen data - off < Z.of_nat fuel ->
  holds (FindBeginTxnDescriptor_loop fuel data off)
        (fun o => match o with Some d => zlen d = 8 | None => True end).
Proof.
  revert off. induction fuel as [|fuel IH]; intros off H0 Hpos Hf; [lia|].
  cbn [FindBeginTxnDescriptor_loop]. destruct (Z.ltb_spec off (zlen data)); [|done].
  simpl negb. cbv iota. apply holds_bind, holds_get8; [lia|]. intros t Ht. cbv zeta.
  destruct (t =? 0xE3).
  - destruct (Z.ltb_spec (zlen data) (off + 1 + 2)); [done|].
    apply holds_bind, holds_get16le; [lia..|]. intros n Hn.
    apply holds_bind. apply (holds_mono _ (fun _ => True)).
    { destruct (Z.ltb_spec (off + 1 + 2) (zlen data)); [|done]. apply holds_bind, holds_get8; [lia|done]. }
    intros is_begin _. apply holds_bind.
    apply (holds_mono _ (fun b : bool => b = true -> off + 1 + 2 + 1 + 1 + 8 <= zlen data)).
    { destruct is_begin, (Z.ltb_spec (off + 1 + 2 + 1) (zlen data)); simpl; try done.
      apply holds_bind, holds_get8; [lia|]. intros b _. simpl.
      intros [_ Hb]%andb_true_iff. lia. }
    intros [] Hfound.
    + specialize (Hfound eq_refl). apply holds_bind, holds_slice; [lia..|]. done.
    + destruct (Z.ltb_spec (zlen data) (off + 1 + 2 + n)); apply IH; lia.
  - destruct (is_one_of t _); [apply IH; lia|done].
Qed.

Lemma txn_find data o w off fuel :
  txn_stream w o -> cursor data off w -> zlen w < Z.of_nat fuel ->
  FindBeginTxnDescriptor_loop fuel data off = Ok o.
Proof.
  intros Hw. revert off fuel.
  induction Hw as [|l0 l1 d r Hd|l0 l1 k body r o Hb H8 Hw IH|t body r o Ht Hb Hw IH|t r Ht]; intros off fuel Hc Hf;
    (destruct fuel as [|fuel]; [match type of Hf with zlen ?l < _ => pose proof (zlen_nonneg l) end; lia|]);
    pose proof (cursor_len _ _ _ Hc) as Hl; cbn [FindBeginTxnDescriptor_loop].
  - rewrite zlen_nil in Hl. by replace (off <? zlen data) with false by lia.
  - rewrite !zlen_cons, zlen_app in Hl. pose proof (zlen_nonneg r).
    replace (off <? zlen data) with true by lia. simpl negb. cbv iota zeta.
    apply cursor_cons in Hc as [-> Hc]. cbn [mbind res_bind]. change (b2z (z2b 227) =? 227) with true. cbv iota.
    replace (_ <? _) with false by lia. apply cursor_get16le in Hc as [-> Hc]. cbn [mbind res_bind].
    replace (off + 1 + 2 <? zlen data) with true by lia.
    apply cursor_cons in Hc as [-> Hc]. cbn [mbind res_bind]. change (b2z (z2b 8) =? 8) with true. simpl andb.
    replace (off + 1 + 2 + 1 <? zlen data) with true by lia.
    apply cursor_cons in Hc as [-> Hc]. cbn [mbind res_bind]. change (b2z (z2b 8) =? 8) with true. simpl andb.
    replace (_ <=? _) with true by lia. cbv iota.
    by rewrite (cursor_slice _ _ d r) by done.
  - rewrite !zlen_cons, zlen_app, zlen_cons in Hl, Hf. pose proof (zlen_nonneg r). pose proof (zlen_nonneg body).
    rewrite zlen_cons in Hb.
    replace (off <? zlen data) with true by lia. simpl negb. cbv iota zeta.
    apply cursor_cons in Hc as [-> Hc]. cbn [mbind res_bind]. change (b2z (z2b 227) =? 227) with true. cbv iota.
    replace (_ <? _) with false by lia. apply cursor_get16le in Hc as [-> Hc]. cbn [mbind res_bind].
    replace (off + 1 + 2 <? zlen data) with true by lia.
    pose proof Hc as Hc'. simpl app in Hc'. apply cursor_cons in Hc' as [-> _]. cbn [mbind res_bind].
    assert (Hk : (b2z k =? 8) = false).
    { apply Z.eqb_neq. intros E. apply H8, b2z_inj. by rewrite E. }
    rewrite Hk. cbn [andb mbind res_bind]. replace (_ <? _) with false by lia.
    apply IH; [|lia]. apply cursor_app in Hc. by rewrite zlen_cons, Hb in Hc.
  - rewrite !zlen_cons, zlen_app in Hl, Hf. pose proof (zlen_nonneg r). pose proof (zlen_nonneg body).
    replace (off <? zlen data) with true by lia. simpl negb. cbv iota zeta.
    apply cursor_cons in Hc as [-> Hc]. cbn [mbind res_bind].
    replace (b2z t =? 227) with false by (symmetry; apply Z.eqb_neq; intros E; rewrite E in Ht; by apply is_one_of_elem in Ht).
    apply is_one_of_elem in Ht. rewrite Ht. apply IH; [|lia]. apply cursor_app in Hc. by rewrite Hb in Hc.
  - rewrite !zlen_cons in Hl. pose proof (zlen_nonneg r).
    replace (off <? zlen data) with true by lia. simpl negb. cbv iota zeta.
    apply cursor_cons in Hc as [-> Hc]. cbn [mbind res_bind].
    apply is_one_of_false in Ht. revert Ht. unfold is_one_of. simpl. intros Ht.
    destruct (b2z t =? 227); [done|]. simpl in Ht. by rewrite Ht.
Qed.
(** ** Properties *)

Section Properties.
Context {S : Simdutf}.

(** C1. On every object any sequence of calls can produce, [TryParseNext] ends
    and reads nothing outside the buffer. A token it returns takes at least one
    byte off the unread stream and nothing is lost in between (what is unread
    afterwards is a suffix of what was unread before); without a token the bytes
    of skipped tokens at most are consumed. The only exception that can escape
    is the text-pointer length check of the row walk, and only in the two modes
    that do not read the row (there the call is not inside the [try]). The new
    object is again well formed: the read position and the deferred consume lie
    inside the buffer, and the skip descriptors belong to the columns. *)
Theorem TryParseNext_total (p : TokenParser) (Hp : reachable p) :
  parser_ok p /\
  match TryParseNext p with
  | Ok (t, p') =>
      parser_ok p' /\
      exists n, 0 <= n <= zlen (unread p) /\ unread p' = zdrop n (unread p) /\
        (token_returned t = true -> 0 < n) /\
        (token_returned t = false -> pending_consume_ p' = 0)
  | Exn e => (exists len, e = LobLengthOutOfRange len) /\ skip_rows_ p || raw_row_mode_ p = true
  | Oob => False
  end.
Proof.
  pose proof (reachable_ok p Hp) as Hok. split; [done|].
  pose proof (TryParseNext_post p Hok) as H. pose proof (TryParseNext_throws p Hok) as Ht.
  destruct (TryParseNext p) as [[t p']|e|]; done.
Qed.

(** C13. The token stream may be cut into packets anywhere. Feeding [d] before
    or after a call makes no difference: an answer (a token, the end of the
    response, a parse error) is the same answer, with objects the caller cannot
    tell apart ([same]); and a call that found its token incomplete has no
    lasting effect, so calling again when [d] has arrived gives what one call on
    the whole gives, for every later call as well. *)
Theorem TryParseNext_chunks (p : TokenParser) (d : bytes) (Hp : reachable p) :
  match TryParseNext p with
  | Ok (t, p') =>
      (~ waits t p' -> exists q, TryParseNext (Feed d p) = Ok (t, q) /\ same (Feed d p') q) /\
      (waits t p' -> next_stable [] (TryParseNext (Feed d p)) (TryParseNext (Feed d p')))
  | Exn e => TryParseNext (Feed d p) = Exn e
  | Oob => False
  end /\
  forall q, same p q -> next_stable [] (TryParseNext p) (TryParseNext q).
Proof.
  pose proof (reachable_ok p Hp) as Hok. split; [|intros q Hq; by apply TryParseNext_stable].
  pose proof (grow_Feed d p (ok_pos p Hok)) as Hg.
  pose proof (TryParseNext_stable d p (Feed d p) Hg Hok) as Hs. pose proof (TryParseNext_post p Hok) as Hpost.
  destruct (TryParseNext p) as [[t p']|e|] eqn:E; simpl in Hs, Hpost; [|done|done]. destruct Hpost as [Hok' _].
  split.
  - intros Hw. destruct Hs as (q & -> & Hq); [by left|]. exists q. split; [done|].
    eapply grow_same; [by apply grow_Feed, Hok'|done].
  - intros [-> Hf]. apply (TryParseNext_retry d p p' _ _ E Hf Hok); [done|by apply grow_Feed, Hok'].
Qed.

(** DONE, DONEPROC and DONEINPROC: the status, command and 64-bit row count
    are those on the wire, thirteen bytes are consumed, and the parser stops
    (state [Complete], after which it gives no more tokens) exactly when the
    DONE_MORE bit is clear. *)
Theorem Done_decoded (p : TokenParser) (b s0 s1 c0 c1 r0 r1 r2 r3 r4 r5 r6 r7 : byte) (r : bytes)
    (Hp : reachable p) (Hf : ~ final_state p)
    (Hb : b2z b ∈ [TokenType.DONE; TokenType.DONEPROC; TokenType.DONEINPROC])
    (Hw : unread p = b :: s0 :: s1 :: c0 :: c1 :: r0 :: r1 :: r2 :: r3 :: r4 :: r5 :: r6 :: r7 :: r) :
  exists p', TryParseNext p = Ok (ParsedTokenType.Done, p') /\ unread p' = r /\
    current_done_ p' = mkDoneToken (le16 s0 s1) (le16 c0 c1)
                         (le32 r0 r1 r2 r3 + 2 ^ 32 * le32 r4 r5 r6 r7) /\
    (IsFinal (current_done_ p') = negb (Z.testbit (le16 s0 s1) 0)) /\
    (if IsFinal (current_done_ p') then
       IsComplete p' = true /\ (forall d, TryParseNext (Feed d p') = Ok (ParsedTokenType.NeedMoreData, Feed d p'))
     else state_ p' = state_ p).
Proof.
  pose proof (reachable_ok p Hp) as Hok.
  destruct (TryParseNext_handler p (b2z b) ParseDone ParsedTokenType.Done Hok Hf) as (q & Hqok & Hqp & Hqc & Hqr & Hq).
  { rewrite Hw. apply get8_0. }
  { revert Hb. unfold handler. rewrite !elem_of_cons, elem_of_nil. by intros [->|[->|[->|[]]]]. }
  rewrite Hw in Hqc. apply ParseDone_decodes in Hqc as (m & Em & Hu & Hpm & Hdm & Hst); [|done..].
  assert (Hsq : state_ q = state_ p) by (unfold rest in Hqr; congruence). rewrite Hsq, <- Hdm in Hst.
  apply Hq in Em. exists m. split; [done|]. split; [by rewrite unread_Current|]. split; [done|].
  assert (Hfin : IsFinal (current_done_ m) = negb (Z.testbit (le16 s0 s1) 0)).
  { rewrite Hdm. unfold IsFinal. simpl status.
    rewrite <- (land_shiftl1_testbit (le16 s0 s1) 0), negb_involutive by lia. done. }
  split; [done|]. destruct (IsFinal (current_done_ m)); [|done].
  split; [unfold IsComplete; by rewrite Hst|]. intros d. apply TryParseNext_final; [by left|done].
Qed.
(** ERROR and INFO: whatever number, state, severity, texts (UTF-16, with
    their own counts of code units) and line number the server wrote are what
    the parser reports, and exactly the declared token is consumed, trailing
    bytes it does not know included. *)
Theorem Message_decoded (p : TokenParser) (tok t0 t1 n0 n1 n2 n3 st sev m0 m1 : byte) (msg : bytes) (sl : byte)
    (srv : bytes) (pl : byte) (proc : bytes) (l0 l1 l2 l3 : byte) (pad r : bytes)
    (body := message_body n0 n1 n2 n3 st sev m0 m1 msg sl srv pl proc l0 l1 l2 l3 pad)
    (e := mkTdsError (le32 n0 n1 n2 n3) (b2z st) (b2z sev) (Utf16LEDecode msg) (Utf16LEDecode srv)
            (Utf16LEDecode proc) (le32 l0 l1 l2 l3))
    (Hp : reachable p) (Hf : ~ final_state p) (Hw : unread p = tok :: t0 :: t1 :: body ++ r)
    (Hlen : zlen body = le16 t0 t1) (Hmsg : zlen msg = 2 * le16 m0 m1)
    (Hsrv : zlen srv = 2 * b2z sl) (Hproc : zlen proc = 2 * b2z pl) :
  (b2z tok = TokenType.ERROR_TOKEN -> exists p', TryParseNext p = Ok (ParsedTokenType.Error, p') /\
     unread p' = r /\ current_error_ p' = e) /\
  (b2z tok = TokenType.INFO -> exists p', TryParseNext p = Ok (ParsedTokenType.Info, p') /\
     unread p' = r /\ current_info_ p' = e).
Proof.
  pose proof (reachable_ok p Hp) as Hok. split; intros Ht.
  - destruct (TryParseNext_handler p (b2z tok) ParseError ParsedTokenType.Error Hok Hf)
      as (q & Hqok & Hqp & Hqc & _ & Hq); [rewrite Hw; apply get8_0|by rewrite Ht|]. rewrite Hw in Hqc.
    destruct (ParseError_complete q tok t0 t1 n0 n1 n2 n3 st sev m0 m1 msg sl srv pl proc l0 l1 l2 l3 pad r)
      as [(m & Em & Hu & He) _]; [done..|]. exists m. split; [exact (Hq _ _ Em)|done].
  - destruct (TryParseNext_handler p (b2z tok) ParseInfo ParsedTokenType.Info Hok Hf)
      as (q & Hqok & Hqp & Hqc & _ & Hq); [rewrite Hw; apply get8_0|by rewrite Ht|]. rewrite Hw in Hqc.
    destruct (ParseError_complete q tok t0 t1 n0 n1 n2 n3 st sev m0 m1 msg sl srv pl proc l0 l1 l2 l3 pad r)
      as [_ (m & Em & Hu & He)]; [done..|]. exists m. split; [exact (Hq _ _ Em)|done].
Qed.

(** An ERROR or INFO token whose declared length is below 6 is never
    refused: however many more bytes arrive, every later call asks for more data
    again. *)
Theorem Short_message_stuck (p : TokenParser) (tok t0 t1 : byte) (r : bytes) (chunks : list bytes)
    (Hp : reachable p) (Hf : ~ final_state p) (Hw : unread p = tok :: t0 :: t1 :: r)
    (Htok : b2z tok = TokenType.ERROR_TOKEN \/ b2z tok = TokenType.INFO)
    (Hshort : le16 t0 t1 < 6) (Hall : le16 t0 t1 <= zlen r) :
  asks_for_more p chunks.
Proof.
  apply reachable_ok in Hp. revert p r Hp Hf Hw Hall.
  induction chunks as [|d chunks IH]; intros p r Hp Hf Hw Hall;
    destruct (short_message_again p tok t0 t1 r Hp Hf Hw Htok Hshort Hall) as (q & Eq & Hq & Hfq & Hu);
    exists q; (split; [done|]); [done|].
  pose proof (zlen_nonneg d). apply (IH _ (r ++ d)); [by apply ok_Feed|done| |rewrite zlen_app; lia].
  by rewrite unread_Feed, Hu, Hw.
Qed.

(** In raw-row mode the bytes handed out are the row's wire bytes, exactly
    those the skip walk steps over: behind [k] bytes of skipped tokens, the
    token byte and [w] precede what is left unread, [GetRawRow] is [w] (also
    after more bytes were fed), and [raw_row_nbc_] tells which of the two
    formats it is. *)
Theorem Raw_row_bytes (p p' : TokenParser) (Hp : reachable p) (Hraw : raw_row_mode_ p = true)
    (Hskip : skip_rows_ p = false) (Hrow : TryParseNext p = Ok (ParsedTokenType.Row, p')) :
  exists k b w, 0 <= k <= zlen (unread p) /\ zdrop k (unread p) = b :: w ++ unread p' /\
    b2z b = (if raw_row_nbc_ p' then TokenType.NBCROW else TokenType.ROW) /\ columns_ p' = columns_ p /\
    (if raw_row_nbc_ p' then SkipNBCRow (columns_ p) None (w ++ unread p')
     else SkipRow (columns_ p) None (w ++ unread p')) = Ok (Some (zlen w)) /\
    (forall d, GetRawRow (Feed d p') = Ok w).
Proof.
  pose proof (reachable_ok p Hp) as Hok. destruct (settle_spec p Hok) as (Hoks & Hp0 & Hc).
  rewrite TryParseNext_settle in Hrow. apply parse_loop_Row in Hrow; [|done..].
  destruct Hrow as (q & k & nbc & Hq & Hqp & Hr & Hk & Hqc & Ht & Hrow). rewrite rest_settle in Hr. rewrite Hc in Hk, Hqc.
  assert (raw_row_mode_ q = raw_row_mode_ p /\ skip_rows_ q = skip_rows_ p /\ columns_ q = columns_ p) as (E1 & E2 & E3)
    by (unfold rest in Hr; repeat split; congruence).
  pose proof (get8_Ok_range _ _ _ Ht) as [Hl _]. pose proof (Available_Current q (ok_pos q Hq)).
  apply parse_row_raw in Hrow as (w & Hw & H1 & H2 & H3 & H4); [|done|done| |congruence|congruence|lia].
  - destruct (Current q) as [|b l]; [done|]. rewrite get8_0 in Ht. injection Ht as Ht.
    change (zdrop 1 (b :: l)) with l in Hw. exists k, b, w. rewrite <- Hqc, H2, Ht, E3, Hw in *.
    by destruct nbc.
  - eapply descs_of_head; [done|exact Ht|]. by destruct nbc.
Qed.

(** [FindBeginTxnDescriptor] ends and reads only inside the response it is
    given, whatever that holds, and a descriptor it returns has eight bytes; on
    a response of whole ENVCHANGE and DONE tokens it returns the descriptor of
    the first begin-transaction ENVCHANGE, and fails if there is none. *)
Theorem FindBeginTxnDescriptor_finds (data : bytes) :
  holds (FindBeginTxnDescriptor data) (fun o => match o with Some d => zlen d = 8 | None => True end) /\
  (forall o, txn_stream data o -> FindBeginTxnDescriptor data = Ok o).
Proof.
  split; [apply FindBegin_safe; unfold zlen; lia|]. intros o Ho.
  apply (txn_find data o data 0); [done|apply cursor_0|unfold zlen; lia].
Qed.
End Properties.

(** ** Concrete inputs *)

Section Samples.
#[local] Existing Instance RefSimdutf.simdutf.

Definition sample_done : bytes := bs [0xFD; 0x10; 0; 0xC1; 0; 3; 0; 0; 0; 0; 0; 0; 0].
Definition sample_parser (data : bytes) : TokenParser := Feed data TokenParser_new.

Lemma reachable_sample data : reachable (sample_parser data).
Proof. eapply reachable_call; [apply reachable_new|apply call_feed]. Qed.

Lemma not_final_sample data : ~ final_state (sample_parser data).
Proof. by intros [|]. Qed.

Lemma TryParseNext_total_witness :
  reachable (sample_parser sample_done) /\ parser_ok (sample_parser sample_done).
Proof. split; [apply reachable_sample|]. exact (proj1 (TryParseNext_total _ (reachable_sample sample_done))). Defined.

(** The first five bytes of a DONE token, and then the rest. *)
Lemma TryParseNext_chunks_witness :
  (match TryParseNext (sample_parser (take 5 sample_done)) with
   | Ok (t, p') => bool_decide (t = ParsedTokenType.NeedMoreData) | _ => false end) = true /\
  next_stable [] (TryParseNext (Feed (drop 5 sample_done) (sample_parser (take 5 sample_done))))
                 (TryParseNext (Feed (drop 5 sample_done) (sample_parser (take 5 sample_done)))).
Proof.
  split; [vm_compute; reflexivity|].
  destruct (TryParseNext_chunks (sample_parser (take 5 sample_done)) (drop 5 sample_done)
              (reachable_sample _)) as [H _].
  assert (E : TryParseNext (sample_parser (take 5 sample_done))
              = Ok (ParsedTokenType.NeedMoreData, sample_parser (take 5 sample_done))) by (vm_compute; reflexivity).
  rewrite E in H. destruct H as [_ H]. apply H. split; [reflexivity|apply not_final_sample].
Defined.

Lemma Done_decoded_witness :
  exists p', TryParseNext (sample_parser sample_done) = Ok (ParsedTokenType.Done, p') /\
    current_done_ p' = mkDoneToken 16 193 3 /\ IsComplete p' = true.
Proof.
  destruct (Done_decoded (sample_parser sample_done) (z2b 0xFD) (z2b 0x10) (z2b 0) (z2b 0xC1) (z2b 0)
    (z2b 3) (z2b 0) (z2b 0) (z2b 0) (z2b 0) (z2b 0) (z2b 0) (z2b 0) []
    (reachable_sample _) (not_final_sample _)) as (p' & E & _ & Hd & _ & Hf).
  - apply is_one_of_elem. vm_compute. reflexivity.
  - vm_compute. reflexivity.
  - exists p'. split; [exact E|]. split; [rewrite Hd; vm_compute; reflexivity|].
    rewrite Hd in Hf. exact (proj1 Hf).
Defined.

(** Error 208, severity 16: "ab", server "s", no procedure, line 7. *)
Definition sample_error_body : bytes :=
  message_body (z2b 208) (z2b 0) (z2b 0) (z2b 0) (z2b 1) (z2b 16) (z2b 2) (z2b 0)
    (bs [0x61; 0; 0x62; 0]) (z2b 1) (bs [0x73; 0]) (z2b 0) [] (z2b 7) (z2b 0) (z2b 0) (z2b 0) [].

Lemma Message_decoded_witness :
  exists p', TryParseNext (sample_parser (z2b 0xAA :: z2b 20 :: z2b 0 :: sample_error_body ++ sample_done))
      = Ok (ParsedTokenType.Error, p') /\
    unread p' = sample_done /\
    current_error_ p' = mkTdsError 208 1 16 (bs [0x61; 0x62]) (bs [0x73]) [] 7.
Proof.
  destruct (Message_decoded
    (sample_parser (z2b 0xAA :: z2b 20 :: z2b 0 :: sample_error_body ++ sample_done))
    (z2b 0xAA) (z2b 20) (z2b 0) (z2b 208) (z2b 0) (z2b 0) (z2b 0) (z2b 1) (z2b 16) (z2b 2) (z2b 0)
    (bs [0x61; 0; 0x62; 0]) (z2b 1) (bs [0x73; 0]) (z2b 0) [] (z2b 7) (z2b 0) (z2b 0) (z2b 0) [] sample_done
    (reachable_sample _) (not_final_sample _)) as [H _];
    [vm_compute; reflexivity|vm_compute; reflexivity|vm_compute; reflexivity|vm_compute; reflexivity
    |vm_compute; reflexivity|].
  destruct H as (p' & E & Hu & He); [vm_compute; reflexivity|].
  exists p'. split; [exact E|]. split; [exact Hu|]. rewrite He. vm_compute. reflexivity.
Defined.

Lemma Short_message_stuck_witness :
  asks_for_more (sample_parser (bs [0xAA; 2; 0; 1; 2])) [sample_done; sample_done].
Proof.
  exact (Short_message_stuck (sample_parser (bs [0xAA; 2; 0; 1; 2])) (z2b 0xAA) (z2b 2) (z2b 0) (bs [1; 2])
    [sample_done; sample_done] (reachable_sample _) (not_final_sample _) eq_refl (or_introl eq_refl)
    eq_refl (fun H => match H with eq_refl => I end)).
Defined.

(** One INT column, then a row, in raw-row mode. *)
Definition sample_colmetadata : bytes := bs [0x81; 1; 0; 0; 0; 0; 0; 0; 0; 0x38; 1; 0x61; 0].
Definition sample_raw_parser : TokenParser :=
  let p := SetRawRowMode true (sample_parser (sample_colmetadata ++ bs [0xD1; 7; 0; 0; 0] ++ sample_done)) in
  match TryParseNext p with Ok (_, p') => p' | _ => p end.

Lemma reachable_raw : reachable sample_raw_parser.
Proof.
  assert (H : match TryParseNext (SetRawRowMode true
      (sample_parser (sample_colmetadata ++ bs [0xD1; 7; 0; 0; 0] ++ sample_done))) with Ok _ => true | _ => false end
    = true) by (vm_compute; reflexivity).
  unfold sample_raw_parser. destruct (TryParseNext _) as [[t p']| |] eqn:E; [|done|done].
  eapply reachable_call; [|eapply call_next, E]. eapply reachable_call; [apply reachable_sample|apply call_raw].
Qed.

Lemma Raw_row_bytes_witness :
  exists p' w, TryParseNext sample_raw_parser = Ok (ParsedTokenType.Row, p') /\ GetRawRow (Feed sample_done p') = Ok w.
Proof.
  assert (H : match TryParseNext sample_raw_parser with
              | Ok (t, _) => bool_decide (t = ParsedTokenType.Row) | _ => false end = true)
    by (vm_compute; reflexivity).
  destruct (TryParseNext sample_raw_parser) as [[t p']| |] eqn:E; try discriminate H.
  apply bool_decide_eq_true in H. subst t.
  destruct (Raw_row_bytes sample_raw_parser p' reachable_raw eq_refl eq_refl E) as (k & b & w & _ & _ & _ & _ & _ & Hg).
  exists p', w. split; [reflexivity|]. apply Hg.
Defined.
End Samples.
