(* ===== verification/Protocol.v ===== *)
(** * Message builders (src/src/tds/tds_protocol.cpp)

    The builders of [TdsProtocol]: PRELOGIN, the four LOGIN7 variants, SSPI and
    FEDAUTH_TOKEN messages, SQL_BATCH, ATTENTION, and the splitters that cut a
    message into packets; and the PRELOGIN response parser. The parsers of the
    other responses are in LoginResponse.v.

    A builder is the code's sequence of [Append...] calls, written with [|>].
    The LOGIN7 builders emit the same 94-byte fixed header, [AppendLogin7Header]
    here, with different values. [GET_PID()] is an argument. The splitters all
    end in the same [while], [split_loop]: [None] is a loop that is still
    running when its fuel is used up. *)

From S2P Require Import Prelude TdsTypes Utf16 Packet.

Notation "x |> f" := (f x) (at level 50, left associativity, only parsing) : tds_scope.

(** ** LOGIN7 fields *)

Definition LOGIN7_MAX_FIELD_CODE_UNITS : Z := 128.

Record Login7VarField : Type := mkLogin7VarField {
  utf16le_bytes : bytes;
  cch : Z;
  ib : Z
}.

(** Swap the nibbles, then XOR with 0xA5, in [int], cut to eight bits. *)
Definition obfuscate (b : byte) : byte :=
  z2b (Z.lxor (b2z (z2b (Z.lor (Z.land (Z.shiftl (b2z b) 4) 0xF0) (Z.land (Z.shiftr (b2z b) 4) 0x0F)))) 0xA5).

Section Builders.
Context `{Simdutf}.

(** The field and the new [cumulative_ib_offset], a [uint16_t]. *)
Definition EncodeLogin7VarField (field_name : string) (utf8_text : bytes) (cumulative_ib_offset : Z)
    (obfuscate_password : bool) : res (Login7VarField * Z) :=
  let encoded := match utf8_text with [] => [] | _ => Utf16LEEncode utf8_text end in
  let code_units := zlen encoded / 2 in
  if LOGIN7_MAX_FIELD_CODE_UNITS <? code_units then Exn (Login7FieldTooLong field_name code_units)
  else
    let encoded := if obfuscate_password then obfuscate <$> encoded else encoded in
    Ok (mkLogin7VarField encoded (code_units mod 65536) cumulative_ib_offset,
        (cumulative_ib_offset + zlen encoded) mod 65536).

Definition EncodePassword (password : bytes) : bytes := obfuscate <$> Utf16LEEncode password.

(** ** PRELOGIN *)

Definition BuildPrelogin (use_encrypt : bool) : TdsPacket :=
  let data_offset := 11 in
  TdsPacket_new PacketType.PRELOGIN PacketStatus.END_OF_MESSAGE
  |> AppendByte PreloginOption.VERSION
  |> AppendUInt16BE data_offset
  |> AppendUInt16BE 6
  |> AppendByte PreloginOption.ENCRYPTION
  |> AppendUInt16BE (data_offset + 6)
  |> AppendUInt16BE 1
  |> AppendByte PreloginOption.TERMINATOR
  |> AppendByte 15 |> AppendByte 0 |> AppendUInt16BE 0 |> AppendUInt16BE 0
  |> AppendByte (if use_encrypt then EncryptionOption.ENCRYPT_ON else EncryptionOption.ENCRYPT_NOT_SUP).

(** The 36 fixed bytes of TRACEID. *)
Definition trace_id : list Z :=
  [0x4d; 0x11; 0x08; 0x69; 0x83; 0x05; 0x40; 0x4c; 0x8d; 0x4c; 0x40; 0x8d; 0x68; 0x05; 0x32; 0xcd;
   0xe4; 0x56; 0xda; 0xab; 0x27; 0xff; 0x42; 0x3d; 0xa6; 0xb9; 0x88; 0x7b; 0x29; 0x50; 0x6b; 0x81;
   0; 0; 0; 0].

Definition AppendBytes (l : list Z) (p : TdsPacket) : TdsPacket :=
  foldl (fun p b => AppendByte b p) p l.

(** An option header. *)
Definition AppendOption (option offset length : Z) (p : TdsPacket) : TdsPacket :=
  p |> AppendByte option |> AppendUInt16BE offset |> AppendUInt16BE length.

Definition BuildPreloginWithFedAuth (use_encrypt fedauth_required : bool) : TdsPacket :=
  let headers_size := if fedauth_required then 36 else 31 in
  let data_offset := headers_size in
  let packet :=
    TdsPacket_new PacketType.PRELOGIN PacketStatus.END_OF_MESSAGE
    |> AppendOption PreloginOption.VERSION data_offset 6
    |> AppendOption PreloginOption.ENCRYPTION (data_offset + 6) 1
    |> AppendOption PreloginOption.INSTOPT (data_offset + 7) 1
    |> AppendOption PreloginOption.THREADID (data_offset + 8) 4
    |> AppendOption PreloginOption.MARS (data_offset + 12) 1
    |> AppendOption PreloginOption.TRACEID (data_offset + 13) 36 in
  let packet :=
    if fedauth_required then packet |> AppendOption PreloginOption.FEDAUTHREQUIRED (data_offset + 49) 1
    else packet in
  let packet :=
    packet
    |> AppendByte PreloginOption.TERMINATOR
    |> AppendBytes [0x06; 0x00; 0x09; 0x01; 0x00; 0x00]
    |> AppendByte (if use_encrypt then EncryptionOption.ENCRYPT_ON else EncryptionOption.ENCRYPT_NOT_SUP)
    |> AppendByte 0x00
    |> AppendBytes [0x00; 0x00; 0x00; 0x00]
    |> AppendByte 0x00
    |> AppendBytes trace_id in
  if fedauth_required then packet |> AppendByte 0x01 else packet.

Record PreloginResponse : Type := mkPreloginResponse {
  version_major : Z;
  version_minor : Z;
  version_build : Z;
  encryption : Z;
  fedauth_echo : bool;
  success : bool;
  error_message : string
}.

Definition new_prelogin : PreloginResponse := mkPreloginResponse 0 0 0 0 false false "".

Definition set_version ma mi bu (r : PreloginResponse) : PreloginResponse :=
  mkPreloginResponse ma mi bu (encryption r) (fedauth_echo r) (success r) (error_message r).
Definition set_encryption e (r : PreloginResponse) : PreloginResponse :=
  mkPreloginResponse (version_major r) (version_minor r) (version_build r) e (fedauth_echo r) (success r)
    (error_message r).
Definition set_echo e (r : PreloginResponse) : PreloginResponse :=
  mkPreloginResponse (version_major r) (version_minor r) (version_build r) (encryption r) e (success r)
    (error_message r).
Definition set_outcome s m (r : PreloginResponse) : PreloginResponse :=
  mkPreloginResponse (version_major r) (version_minor r) (version_build r) (encryption r) (fedauth_echo r) s m.

(** What one option contributes; [offset + length] is computed in [int]. *)
Definition prelogin_option (data : bytes) (option offset length : Z) (response : PreloginResponse)
    : res PreloginResponse :=
  if option =? PreloginOption.VERSION then
    if (offset + length <=? zlen data) && (6 <=? length) then
      ma ← get8 data offset;
      mi ← get8 data (offset + 1);
      bu ← get16be data (offset + 2);
      Ok (set_version ma mi bu response)
    else Ok response
  else if option =? PreloginOption.ENCRYPTION then
    if offset <? zlen data then e ← get8 data offset; Ok (set_encryption e response) else Ok response
  else if option =? PreloginOption.FEDAUTHREQUIRED then
    if (offset <? zlen data) && (1 <=? length) then
      e ← get8 data offset; Ok (set_echo (negb (e =? 0)) response)
    else Ok response
  else Ok response.

(** A turn steps over five bytes: [length data] turns are enough. *)
Fixpoint prelogin_loop (fuel : nat) (data : bytes) (pos : Z) (response : PreloginResponse)
    : res PreloginResponse :=
  match fuel with
  | O => Oob
  | Datatypes.S fuel =>
      if negb (pos <? zlen data) then Ok response else
      option ← get8 data pos;
      if option =? PreloginOption.TERMINATOR then Ok (set_outcome true (error_message response) response)
      else if zlen data <? pos + 5 then
        Ok (set_outcome (success response) "Truncated PRELOGIN response" response)
      else
        offset ← get16be data (pos + 1);
        length ← get16be data (pos + 3);
        response ← prelogin_option data option offset length response;
        prelogin_loop fuel data (pos + 5) response
  end.

Definition ParsePreloginResponse (data : bytes) : res PreloginResponse :=
  match data with
  | [] => Ok (set_outcome false "Empty PRELOGIN response" new_prelogin)
  | _ => prelogin_loop (Datatypes.S (length data)) data 0 new_prelogin
  end.

(** ** LOGIN7 *)

(** What goes into the fixed header; a pair is (ib, cch). *)
Record Login7Header : Type := mkLogin7Header {
  Length : Z;
  PacketSize : Z;
  ClientPID : Z;
  OptionFlags2 : Z;
  OptionFlags3 : Z;
  HostName : Z * Z;
  UserName : Z * Z;
  Password : Z * Z;
  AppName : Z * Z;
  ServerName : Z * Z;
  Extension : Z * Z;
  CltIntName : Z * Z;
  Language : Z * Z;
  Database : Z * Z;
  SSPI : Z * Z;
  AtchDBFile : Z * Z;
  ChangePassword : Z * Z;
  cbSSPILong : Z
}.

Definition AppendPair (p : Z * Z) (packet : TdsPacket) : TdsPacket :=
  packet |> AppendUInt16LE p.1 |> AppendUInt16LE p.2.

Definition AppendLogin7Header (h : Login7Header) (packet : TdsPacket) : TdsPacket :=
  packet
  |> AppendUInt32LE (Length h)
  |> AppendUInt32LE TDS_VERSION_7_4
  |> AppendUInt32LE (PacketSize h)
  |> AppendUInt32LE 0x00000001
  |> AppendUInt32LE (ClientPID h)
  |> AppendUInt32LE 0
  |> AppendByte (Z.lor 0x20 0x80)
  |> AppendByte (OptionFlags2 h)
  |> AppendByte 0x00
  |> AppendByte (OptionFlags3 h)
  |> AppendUInt32LE 0
  |> AppendUInt32LE 0x0409
  |> AppendPair (HostName h)
  |> AppendPair (UserName h)
  |> AppendPair (Password h)
  |> AppendPair (AppName h)
  |> AppendPair (ServerName h)
  |> AppendPair (Extension h)
  |> AppendPair (CltIntName h)
  |> AppendPair (Language h)
  |> AppendPair (Database h)
  |> AppendBytes [0; 0; 0; 0; 0; 0]
  |> AppendPair (SSPI h)
  |> AppendPair (AtchDBFile h)
  |> AppendPair (ChangePassword h)
  |> AppendUInt32LE (cbSSPILong h).

Definition UTF8_SUPPORT_EXT_LEN : Z := 1 + 4.

Definition AppendUtf8SupportFeature (packet : TdsPacket) : TdsPacket :=
  packet |> AppendByte FeatureExtId.UTF8SUPPORT |> AppendUInt32LE 0.

Definition field_pair (f : Login7VarField) : Z * Z := (ib f, cch f).

Definition BuildLogin7 (pid : Z) (host username password database app_name : bytes) (packet_size : Z)
    (request_utf8_support : bool) (server_name : bytes) : res TdsPacket :=
  '(field_hostname, var_offset) ← EncodeLogin7VarField "HostName" host 94 false;
  '(field_username, var_offset) ← EncodeLogin7VarField "UserName" username var_offset false;
  '(field_password, var_offset) ← EncodeLogin7VarField "Password" password var_offset true;
  '(field_appname, var_offset) ← EncodeLogin7VarField "AppName" app_name var_offset false;
  '(field_servername, var_offset) ←
    EncodeLogin7VarField "ServerName" (match server_name with [] => host | _ => server_name end) var_offset false;
  let cltintname_offset := var_offset in
  let language_off := var_offset in
  '(field_database, var_offset) ← EncodeLogin7VarField "Database" database var_offset false;
  let want_utf8_support := request_utf8_support in
  let unused1_offset := var_offset in
  let unused1_len := if want_utf8_support then 4 else 0 in
  let var_offset := if want_utf8_support then (var_offset + 4) mod 65536 else var_offset in
  let feature_ext_offset := var_offset in
  let total_length :=
    if want_utf8_support then var_offset + (UTF8_SUPPORT_EXT_LEN + 1) else var_offset in
  let packet :=
    TdsPacket_new PacketType.LOGIN7 PacketStatus.END_OF_MESSAGE
    |> AppendLogin7Header
         (mkLogin7Header total_length packet_size pid 0x02 (if want_utf8_support then 0x10 else 0x00)
            (field_pair field_hostname) (field_pair field_username) (field_pair field_password)
            (field_pair field_appname) (field_pair field_servername) (unused1_offset, unused1_len)
            (cltintname_offset, 0) (language_off, 0) (field_pair field_database)
            (var_offset, 0) (var_offset, 0) (var_offset, 0) 0)
    |> AppendPayload (utf16le_bytes field_hostname)
    |> AppendPayload (utf16le_bytes field_username)
    |> AppendPayload (utf16le_bytes field_password)
    |> AppendPayload (utf16le_bytes field_appname)
    |> AppendPayload (utf16le_bytes field_servername)
    |> AppendPayload (utf16le_bytes field_database) in
  Ok (if want_utf8_support then
        packet |> AppendUInt32LE feature_ext_offset |> AppendUtf8SupportFeature
        |> AppendByte FeatureExtId.TERMINATOR
      else packet).

(** [uint32_t] arithmetic. *)
Definition u32 (z : Z) : Z := z mod 4294967296.

Definition BuildLogin7WithSSPI (pid : Z) (client_hostname server_name database sspi_initial_blob app_name : bytes)
    (packet_size : Z) (request_utf8_support : bool) : res TdsPacket :=
  let sspi_blob_total := u32 (zlen sspi_initial_blob) in
  let sspi_short_len := if 0xFFFF <? sspi_blob_total then 0xFFFF else sspi_blob_total in
  let sspi_long_len := if 0xFFFF <? sspi_blob_total then sspi_blob_total else 0 in
  '(field_hostname, vf_offset) ← EncodeLogin7VarField "HostName" client_hostname 94 false;
  '(field_appname, vf_offset) ← EncodeLogin7VarField "AppName" app_name vf_offset false;
  '(field_servername, vf_offset) ← EncodeLogin7VarField "ServerName" server_name vf_offset false;
  '(field_database, vf_offset) ← EncodeLogin7VarField "Database" database vf_offset false;
  let username_offset := ib field_appname in
  let password_offset := ib field_appname in
  let cltintname_offset := ib field_database in
  let language_offset := ib field_database in
  let var_offset := vf_offset in
  if 0xFFFF <? var_offset then Exn SspiOffsetTooLarge else
  let sspi_offset := var_offset in
  let var_offset := u32 (var_offset + sspi_blob_total) in
  let atchdb_offset := if 0xFFFF <? var_offset then 0xFFFF else var_offset in
  let changepass_offset := atchdb_offset in
  let unused1_offset := if 0xFFFF <? var_offset then 0xFFFF else var_offset in
  let unused1_len := if request_utf8_support then 4 else 0 in
  let feature_ext_offset := if request_utf8_support then u32 (var_offset + 4) else 0 in
  let total_length :=
    if request_utf8_support then u32 (var_offset + (4 + UTF8_SUPPORT_EXT_LEN + 1)) else var_offset in
  let packet :=
    TdsPacket_new PacketType.LOGIN7 PacketStatus.END_OF_MESSAGE
    |> AppendLogin7Header
         (mkLogin7Header total_length packet_size pid (Z.lor 0x02 0x80)
            (if request_utf8_support then 0x10 else 0x00)
            (field_pair field_hostname) (username_offset, 0) (password_offset, 0)
            (field_pair field_appname) (field_pair field_servername) (unused1_offset, unused1_len)
            (cltintname_offset, 0) (language_offset, 0) (field_pair field_database)
            (sspi_offset, sspi_short_len) (atchdb_offset, 0) (changepass_offset, 0) sspi_long_len)
    |> AppendPayload (utf16le_bytes field_hostname)
    |> AppendPayload (utf16le_bytes field_appname)
    |> AppendPayload (utf16le_bytes field_servername)
    |> AppendPayload (utf16le_bytes field_database)
    |> AppendPayload sspi_initial_blob in
  Ok (if request_utf8_support then
        packet |> AppendUInt32LE feature_ext_offset |> AppendUtf8SupportFeature
        |> AppendByte FeatureExtId.TERMINATOR
      else packet).

Definition BuildSSPIMessage (sspi_blob : bytes) : TdsPacket :=
  TdsPacket_new PacketType.SSPI PacketStatus.END_OF_MESSAGE |> AppendPayload sspi_blob.

(** The part [BuildLogin7WithFedAuth] and [BuildLogin7WithADAL] share: the five
    string fields of an empty user and password, and the header with an
    extension DWORD behind them. [fedauth_ext_len] is the size of the FEDAUTH
    feature that [append_fedauth] writes. *)
Definition login7_fedauth (pid : Z) (client_hostname server_name database app_name : bytes) (packet_size : Z)
    (request_utf8_support : bool) (fedauth_ext_len : Z) (append_fedauth : TdsPacket -> TdsPacket)
    : res TdsPacket :=
  '(field_hostname, var_offset) ← EncodeLogin7VarField "HostName" client_hostname 94 false;
  '(field_username, var_offset) ← EncodeLogin7VarField "UserName" [] var_offset false;
  '(field_password, var_offset) ← EncodeLogin7VarField "Password" [] var_offset false;
  '(field_appname, var_offset) ← EncodeLogin7VarField "AppName" app_name var_offset false;
  '(field_servername, var_offset) ← EncodeLogin7VarField "ServerName" server_name var_offset false;
  let cltintname_offset := var_offset in
  let language_offset := var_offset in
  '(field_database, var_offset) ← EncodeLogin7VarField "Database" database var_offset false;
  let sspi_attrdb_chgpwd_offset := var_offset in
  let extension_dword_offset := var_offset in
  let var_offset := (var_offset + 4) mod 65536 in
  let feature_ext_offset := var_offset in
  let total_length :=
    u32 (var_offset + fedauth_ext_len + (if request_utf8_support then UTF8_SUPPORT_EXT_LEN else 0) + 1) in
  let packet :=
    TdsPacket_new PacketType.LOGIN7 PacketStatus.END_OF_MESSAGE
    |> AppendLogin7Header
         (mkLogin7Header total_length packet_size pid 0x02 0x10
            (field_pair field_hostname) (field_pair field_username) (field_pair field_password)
            (field_pair field_appname) (field_pair field_servername) (extension_dword_offset, 4)
            (cltintname_offset, 0) (language_offset, 0) (field_pair field_database)
            (sspi_attrdb_chgpwd_offset, 0) (sspi_attrdb_chgpwd_offset, 0) (sspi_attrdb_chgpwd_offset, 0) 0)
    |> AppendPayload (utf16le_bytes field_hostname)
    |> AppendPayload (utf16le_bytes field_appname)
    |> AppendPayload (utf16le_bytes field_servername)
    |> AppendPayload (utf16le_bytes field_database)
    |> AppendUInt32LE feature_ext_offset
    |> append_fedauth in
  let packet := if request_utf8_support then packet |> AppendUtf8SupportFeature else packet in
  Ok (packet |> AppendByte FeatureExtId.TERMINATOR).

Definition BuildLogin7WithFedAuth (pid : Z) (client_hostname server_name database fedauth_token : bytes)
    (fedauth_echo : bool) (app_name : bytes) (packet_size : Z) (request_utf8_support : bool) : res TdsPacket :=
  let fedauth_data_len := u32 (5 + u32 (zlen fedauth_token)) in
  let fedauth_ext_len := u32 (1 + 4 + fedauth_data_len) in
  login7_fedauth pid client_hostname server_name database app_name packet_size request_utf8_support fedauth_ext_len
    (fun packet =>
       packet
       |> AppendByte FeatureExtId.FEDAUTH
       |> AppendUInt32LE fedauth_data_len
       |> AppendByte (Z.lor (Z.shiftl 0x01 1) (if fedauth_echo then 1 else 0))
       |> AppendUInt32LE (u32 (zlen fedauth_token))
       |> AppendPayload fedauth_token).

Definition BuildLogin7WithADAL (pid : Z) (client_hostname server_name database : bytes) (fedauth_echo : bool)
    (app_name : bytes) (packet_size : Z) (request_utf8_support : bool) : res TdsPacket :=
  let fedauth_data_len := 2 in
  let fedauth_ext_len := 1 + 4 + fedauth_data_len in
  login7_fedauth pid client_hostname server_name database app_name packet_size request_utf8_support fedauth_ext_len
    (fun packet =>
       packet
       |> AppendByte FeatureExtId.FEDAUTH
       |> AppendUInt32LE fedauth_data_len
       |> AppendByte (Z.lor (Z.shiftl FEDAUTH_LIBRARY_ADAL 1) (if fedauth_echo then 1 else 0))
       |> AppendByte FEDAUTH_ADAL_WORKFLOW_PASSWORD).

Definition BuildFedAuthToken (token_utf16le nonce : bytes) : TdsPacket :=
  let token_len := u32 (zlen token_utf16le) in
  let nonce_len := u32 (zlen nonce) in
  let data_len := u32 (4 + token_len + nonce_len) in
  TdsPacket_new PacketType.FEDAUTH_TOKEN PacketStatus.END_OF_MESSAGE
  |> AppendUInt32LE data_len
  |> AppendUInt32LE token_len
  |> AppendPayload token_utf16le
  |> AppendPayload nonce.

(** ** SQL_BATCH *)

(** ALL_HEADERS with one transaction descriptor header; [None] is the null
    pointer. The code reads eight bytes from the pointer. *)
Definition all_headers (transaction_descriptor : option bytes) : bytes :=
  put32le 22 ++ put32le 18 ++ bs [0x02; 0x00] ++
  match transaction_descriptor with Some d => d | None => bs [0; 0; 0; 0; 0; 0; 0; 0] end ++
  bs [0x01; 0x00; 0x00; 0x00].

Definition BuildSqlBatch (sql : bytes) (transaction_descriptor : option bytes) : TdsPacket :=
  TdsPacket_new PacketType.SQL_BATCH PacketStatus.END_OF_MESSAGE
  |> AppendPayload (all_headers transaction_descriptor)
  |> AppendPayload (Utf16LEEncode sql).

(** The bytes of "SELECT 1". *)
Definition ping_sql : bytes := bs [0x53; 0x45; 0x4C; 0x45; 0x43; 0x54; 0x20; 0x31].
Definition BuildPing : TdsPacket := BuildSqlBatch ping_sql None.

Definition BuildAttention : TdsPacket :=
  TdsPacket_new PacketType.ATTENTION PacketStatus.END_OF_MESSAGE |> AppendByte 0xFF.

(** ** Splitting *)

(** The [while] over the payload. *)
Fixpoint split_loop (fuel : nat) (type max_payload : Z) (payload : bytes) (offset : Z)
    (packets : list TdsPacket) : option (list TdsPacket) :=
  match fuel with
  | O => None
  | Datatypes.S fuel =>
      if negb (offset <? zlen payload) then Some packets else
      let chunk_size := Z.min max_payload (zlen payload - offset) in
      let is_last := zlen payload <=? offset + chunk_size in
      let packet := TdsPacket_new type PacketStatus.END_OF_MESSAGE in
      let packet := if negb is_last then SetEndOfMessage false packet else packet in
      let packet := AppendPayload (ztake chunk_size (zdrop offset payload)) packet in
      split_loop fuel type max_payload payload (offset + chunk_size) (packets ++ [packet])
  end.

(** [max_packet_size - TDS_HEADER_SIZE] in [size_t]. *)
Definition size_t (z : Z) : Z := z mod 18446744073709551616.

(** The tail the multi-packet builders share. *)
Definition split_message (fuel : nat) (type : Z) (payload : bytes) (max_packet_size : Z)
    : option (list TdsPacket) :=
  let max_payload := size_t (max_packet_size - TDS_HEADER_SIZE) in
  if zlen payload <=? max_payload
  then Some [TdsPacket_new type PacketStatus.END_OF_MESSAGE |> AppendPayload payload]
  else split_loop fuel type max_payload payload 0 [].

Definition BuildSqlBatchMultiPacket (fuel : nat) (sql : bytes) (max_packet_size : Z)
    (transaction_descriptor : option bytes) : option (list TdsPacket) :=
  let sql_encoded := Utf16LEEncode sql in
  match sql_encoded with
  | [] => Some [BuildPing]
  | _ =>
      split_message fuel PacketType.SQL_BATCH (all_headers transaction_descriptor ++ sql_encoded)
        max_packet_size
  end.

Definition BuildBulkLoadMultiPacket (fuel : nat) (payload : bytes) (max_packet_size : Z)
    : option (list TdsPacket) :=
  match payload with
  | [] => Some []
  | _ => split_message fuel PacketType.BULK_LOAD payload max_packet_size
  end.

Definition BuildFedAuthTokenMultiPacket (fuel : nat) (token_utf16le : bytes) (max_packet_size : Z)
    (nonce : bytes) : option (list TdsPacket) :=
  let token_len := u32 (zlen token_utf16le) in
  let nonce_len := u32 (zlen nonce) in
  let data_len := u32 (4 + token_len + nonce_len) in
  split_message fuel PacketType.FEDAUTH_TOKEN
    (put32le data_len ++ put32le token_len ++ token_utf16le ++ nonce) max_packet_size.

Definition SplitIntoPackets (fuel : nat) (message : TdsPacket) (max_packet_size : Z)
    : option (list TdsPacket) :=
  let type := type_ message in
  let payload := payload_ message in
  let max_payload :=
    if TDS_HEADER_SIZE <? max_packet_size then max_packet_size - TDS_HEADER_SIZE
    else TDS_DEFAULT_PACKET_SIZE - TDS_HEADER_SIZE in
  if zlen payload <=? max_payload then Some [message]
  else split_loop fuel type max_payload payload 0 [].

End Builders.

(** ** Splitting a message *)

(** What a receiver needs of the packets of one message: the payloads, in order,
    are the message; no packet is empty or longer than the limit; and the
    end-of-message bit is on the last packet and on no other. *)
Record well_split (type limit : Z) (payload : bytes) (ps : list TdsPacket) : Prop := {
  split_concat : concat (payload_ <$> ps) = payload;
  split_bounds : Forall (fun p => type_ p = type /\ (status_ p = 0 \/ status_ p = 1) /\ 0 < zlen (payload_ p) <= limit) ps;
  split_eom : exists init last, ps = init ++ [last] /\ IsEndOfMessage last = true /\
                Forall (fun p => IsEndOfMessage p = false) init
}.

Lemma well_split_one type limit payload :
  0 < zlen payload <= limit ->
  well_split type limit payload [TdsPacket_new type PacketStatus.END_OF_MESSAGE |> AppendPayload payload].
Proof.
  intros Hl. constructor; simpl.
  - apply app_nil_r.
  - apply Forall_singleton. simpl. split_and!; [done|by right|lia..].
  - eexists [], _. split; [reflexivity|]. by split.
Qed.

Lemma well_split_cons type limit w r ps :
  zlen w = limit -> 0 < limit -> well_split type limit r ps ->
  well_split type limit (w ++ r)
    ((SetEndOfMessage false (TdsPacket_new type PacketStatus.END_OF_MESSAGE) |> AppendPayload w) :: ps).
Proof.
  intros Hw Hl [Hc Hb (init & last & He0 & He & Hi)]. constructor.
  - cbn [fmap list_fmap concat]. by rewrite Hc.
  - constructor; [simpl; split_and!; [done|by left|lia..]|done].
  - eexists (_ :: init), last. rewrite He0. split; [reflexivity|]. split; [done|]. by constructor.
Qed.

(** Enough turns: one per byte and one more. *)
Lemma split_loop_spec fuel type limit payload off acc :
  0 < limit -> 0 <= off < zlen payload -> zlen payload - off < Z.of_nat fuel ->
  exists ps, split_loop fuel type limit payload off acc = Some (acc ++ ps) /\
    well_split type limit (zdrop off payload) ps.
Proof.
  revert off acc. induction fuel as [|fuel IH]; intros off acc Hl Ho Hf; [lia|]. cbn [split_loop].
  replace (off <? zlen payload) with true by lia. simpl negb. cbv iota zeta.
  destruct (Z.leb_spec (zlen payload) (off + Z.min limit (zlen payload - off))) as [Hlast|Hmore].
  - rewrite Z.min_r by lia. simpl negb. cbv iota.
    replace (off + (zlen payload - off)) with (zlen payload) by lia.
    assert (Ht : ztake (zlen payload - off) (zdrop off payload) = zdrop off payload).
    { unfold ztake. apply take_ge. unfold zdrop, zlen in *. rewrite length_drop. lia. }
    rewrite Ht. eexists. split; [|apply well_split_one; rewrite zlen_zdrop; lia].
    destruct fuel as [|fuel]; [lia|]. cbn [split_loop]. by replace (zlen payload <? zlen payload) with false by lia.
  - rewrite Z.min_l in Hmore |- * by lia. simpl negb. cbv iota.
    destruct (IH (off + limit) (acc ++ [AppendPayload (ztake limit (zdrop off payload))
       (SetEndOfMessage false (TdsPacket_new type PacketStatus.END_OF_MESSAGE))])) as (ps & -> & Hps); [lia..|].
    eexists (_ :: ps). split; [by rewrite <- app_assoc|].
    rewrite <- (zdrop_zdrop limit off) in Hps by lia. rewrite <- (ztake_zdrop limit (zdrop off payload)) at 1.
    apply well_split_cons; [|lia|done]. rewrite zlen_ztake; [done|]. rewrite zlen_zdrop; lia.
Qed.

(** Without room for a byte the loop makes no progress. *)
Lemma split_loop_stuck fuel type payload off acc :
  off < zlen payload -> split_loop fuel type 0 payload off acc = None.
Proof.
  revert acc. induction fuel as [|fuel IH]; intros acc Ho; [done|]. cbn [split_loop].
  replace (off <? zlen payload) with true by lia. simpl negb. cbv iota zeta.
  rewrite Z.min_l, Z.add_0_r by lia. by apply IH.
Qed.

Lemma split_message_spec fuel type payload mps :
  TDS_HEADER_SIZE < mps < 2 ^ 64 -> payload <> [] -> zlen payload < Z.of_nat fuel ->
  exists ps, split_message fuel type payload mps = Some ps /\
    well_split type (mps - TDS_HEADER_SIZE) payload ps.
Proof.
  unfold split_message, size_t, TDS_HEADER_SIZE. intros Hm Hne Hf. rewrite Z.mod_small by lia.
  assert (0 < zlen payload) by (destruct payload; [done|]; rewrite zlen_cons; pose proof (zlen_nonneg payload); lia).
  destruct (Z.leb_spec (zlen payload) (mps - 8)).
  - eexists. split; [reflexivity|]. apply well_split_one. lia.
  - destruct (split_loop_spec fuel type (mps - 8) payload 0 []) as (ps & -> & Hps); [lia..|]. eauto.
Qed.

(** At the limits [size_t] arithmetic allows: a size of 8 leaves no room, and a
    smaller one wraps round to no limit at all. *)
Lemma split_message_degenerate fuel type payload :
  payload <> [] ->
  split_message fuel type payload TDS_HEADER_SIZE = None /\
  forall mps, 0 <= mps < TDS_HEADER_SIZE -> zlen payload <= 2 ^ 64 - 8 ->
    split_message fuel type payload mps
    = Some [TdsPacket_new type PacketStatus.END_OF_MESSAGE |> AppendPayload payload].
Proof.
  intros Hne. unfold split_message, size_t, TDS_HEADER_SIZE.
  assert (0 < zlen payload) by (destruct payload; [done|]; rewrite zlen_cons; pose proof (zlen_nonneg payload); lia).
  split.
  - change ((8 - 8) mod 18446744073709551616) with 0. replace (_ <=? 0) with false by lia.
    by apply split_loop_stuck.
  - intros mps Hm Hp. replace ((mps - 8) mod 18446744073709551616) with (mps - 8 + 2 ^ 64) by zlia.
    by replace (_ <=? _) with true by lia.
Qed.

(** ** The LOGIN7 record *)

(** The fixed header as bytes. *)
Definition login7_header (h : Login7Header) : bytes :=
  let pair p := put16le p.1 ++ put16le p.2 in
  put32le (Length h) ++ put32le TDS_VERSION_7_4 ++ put32le (PacketSize h) ++ put32le 1 ++
  put32le (ClientPID h) ++ put32le 0 ++
  [z2b (Z.lor 0x20 0x80); z2b (OptionFlags2 h); z2b 0; z2b (OptionFlags3 h)] ++
  put32le 0 ++ put32le 0x0409 ++
  pair (HostName h) ++ pair (UserName h) ++ pair (Password h) ++ pair (AppName h) ++
  pair (ServerName h) ++ pair (Extension h) ++ pair (CltIntName h) ++ pair (Language h) ++
  pair (Database h) ++ bs [0; 0; 0; 0; 0; 0] ++
  pair (SSPI h) ++ pair (AtchDBFile h) ++ pair (ChangePassword h) ++ put32le (cbSSPILong h).

Lemma AppendPayload_app a b p : AppendPayload b (AppendPayload a p) = AppendPayload (a ++ b) p.
Proof. unfold AppendPayload. simpl. by rewrite app_assoc. Qed.

Lemma AppendLogin7Header_payload h p :
  AppendLogin7Header h p = AppendPayload (login7_header h) p.
Proof.
  unfold AppendLogin7Header, AppendPair, AppendBytes, AppendUInt32LE, AppendUInt16LE, AppendByte. simpl foldl.
  by rewrite !AppendPayload_app.
Qed.

Lemma zlen_login7_header h : zlen (login7_header h) = 94.
Proof. done. Qed.

Lemma cursor_put16le data off v r :
  cursor data off (put16le v ++ r) -> get16le data off = Ok (v mod 65536) /\ cursor data (off + 2) r.
Proof.
  intros Hc. pose proof (get16le_put v r) as E. split; [|by apply (cursor_app _ _ (put16le v))].
  unfold put16le in *. apply cursor_get16le in Hc as [-> _].
  pose proof (cursor_0 ([z2b (Z.land v 255); z2b (Z.land (Z.shiftr v 8) 255)] ++ r)) as H0.
  apply cursor_get16le in H0 as [E' _]. congruence.
Qed.

Lemma cursor_put32le data off v r :
  cursor data off (put32le v ++ r) -> get32le data off = Ok (v mod 4294967296) /\ cursor data (off + 4) r.
Proof.
  intros Hc. pose proof (get32le_put v r) as E. split; [|by apply (cursor_app _ _ (put32le v))].
  unfold put32le in *. apply cursor_get32le in Hc as [-> _].
  match type of E with get32le ?l 0 = _ => pose proof (cursor_0 l) as H0 end.
  apply cursor_get32le in H0 as [E' _]. congruence.
Qed.

Lemma zlen_put32le v : zlen (put32le v) = 4.
Proof. done. Qed.

Lemma zlen_fmap {A B} (f : A -> B) l : zlen (f <$> l) = zlen l.
Proof. unfold zlen. by rewrite length_fmap. Qed.

(** Move along integers that were put one after the other, keeping what is read. *)
Ltac cursor_put Hc :=
  match type of Hc with
  | cursor _ ?o (put16le _ ++ _) =>
      let E := fresh "R" in apply cursor_put16le in Hc as [E Hc];
      let n := eval vm_compute in (o + 2) in change (o + 2) with n in Hc
  | cursor _ ?o (put32le _ ++ _) =>
      let E := fresh "R" in apply cursor_put32le in Hc as [E Hc];
      let n := eval vm_compute in (o + 4) in change (o + 4) with n in Hc
  | cursor _ ?o (?a ++ _) =>
      let k := eval vm_compute in (zlen a) in
      apply cursor_app in Hc; change (zlen a) with k in Hc;
      let n := eval vm_compute in (o + k) in change (o + k) with n in Hc
  end.

(** The header's fields at their offsets, in front of anything. *)
Lemma login7_header_reads h r :
  let data := login7_header h ++ r in
  get32le data 0 = Ok (Length h mod 4294967296) /\
  get16le data 36 = Ok ((HostName h).1 mod 65536) /\ get16le data 38 = Ok ((HostName h).2 mod 65536) /\
  get16le data 40 = Ok ((UserName h).1 mod 65536) /\ get16le data 42 = Ok ((UserName h).2 mod 65536) /\
  get16le data 44 = Ok ((Password h).1 mod 65536) /\ get16le data 46 = Ok ((Password h).2 mod 65536) /\
  get16le data 48 = Ok ((AppName h).1 mod 65536) /\ get16le data 50 = Ok ((AppName h).2 mod 65536) /\
  get16le data 52 = Ok ((ServerName h).1 mod 65536) /\ get16le data 54 = Ok ((ServerName h).2 mod 65536) /\
  get16le data 56 = Ok ((Extension h).1 mod 65536) /\ get16le data 58 = Ok ((Extension h).2 mod 65536) /\
  get16le data 68 = Ok ((Database h).1 mod 65536) /\ get16le data 70 = Ok ((Database h).2 mod 65536) /\
  get16le data 78 = Ok ((SSPI h).1 mod 65536) /\ get16le data 80 = Ok ((SSPI h).2 mod 65536) /\
  get32le data 90 = Ok (cbSSPILong h mod 4294967296) /\
  cursor data 94 r.
Proof.
  intros data. pose proof (cursor_0 data) as Hc. unfold data in Hc at 2. clearbody data.
  unfold login7_header in Hc. cbv zeta in Hc. rewrite <- !app_assoc in Hc.
  repeat cursor_put Hc. repeat first [exact Hc | split; [assumption|]].
Qed.

(** What a reader of the record makes of a (ib, cch) pair. *)
Definition login7_field (data : bytes) (at_ : Z) : res bytes :=
  ib ← get16le data at_; cch ← get16le data (at_ + 2); slice data ib (2 * cch).

(** The feature list: the Extension field points at a DWORD, which points at
    the list; it reaches to the end of the record. *)
Definition login7_features (data : bytes) : res bytes :=
  ib ← get16le data 56; off ← get32le data ib; slice data off (zlen data - off).

Definition login7_fields (data : bytes) (fields : list (Z * bytes)) : Prop :=
  Forall (fun f => login7_field data f.1 = Ok f.2) fields.

Definition even_length (w : bytes) : Prop := zlen w = 2 * (zlen w / 2).

Lemma zlen_push_codepoint_even cp : exists k, zlen (Legacy.push_codepoint cp) = 2 * k.
Proof. unfold Legacy.push_codepoint. case_match; [by exists 1|]. case_match; [by exists 2|by exists 0]. Qed.

Lemma general_even s : exists k, zlen (Legacy.Utf8ToUtf16LEGeneral s) = 2 * k.
Proof.
  remember (length s) as n eqn:Hn. revert s Hn.
  induction n as [n IH] using lt_wf_ind. intros s ->.
  assert (Hp : forall cp r, (length r < length s)%nat ->
    exists k, zlen (Legacy.push_codepoint cp ++ Legacy.Utf8ToUtf16LEGeneral r) = 2 * k).
  { intros cp r Hr. destruct (IH _ Hr r eq_refl) as [k Hk]. destruct (zlen_push_codepoint_even cp) as [j Hj].
    exists (j + k). rewrite zlen_app. lia. }
  destruct s as [|c0 r0]; [by exists 0|]. simpl in Hp |- *.
  repeat (case_match; try by exists 0); subst; try (apply Hp; simpl; lia).
  eapply IH; [|reflexivity]. simpl. lia.
Qed.

Lemma obfuscate_even w : even_length w -> even_length (obfuscate <$> w).
Proof. unfold even_length, zlen. by rewrite length_fmap. Qed.

Lemma zlen_obfuscate w : zlen (obfuscate <$> w) = zlen w.
Proof. unfold zlen. by rewrite length_fmap. Qed.

(** A pair of the header and the field it points at. *)
Lemma login7_field_at data at_ off w r :
  get16le data at_ = Ok (off mod 65536) -> get16le data (at_ + 2) = Ok ((zlen w / 2) mod 65536) ->
  cursor data off (w ++ r) -> off < 65536 -> even_length w -> zlen w <= 257 ->
  login7_field data at_ = Ok w /\ cursor data (off + zlen w) r.
Proof.
  unfold even_length. intros E1 E2 Hc Ho He Hw. pose proof (zlen_nonneg w). pose proof (cursor_len _ _ _ Hc).
  assert (0 <= off) by apply Hc.
  split; [|by apply cursor_app]. unfold login7_field. rewrite E1. cbn [mbind res_bind]. rewrite E2.
  cbn [mbind res_bind]. rewrite !Z.mod_small by lia. eapply cursor_slice; [exact Hc|lia].
Qed.

Section Login7.
Context {S : Simdutf}.

Lemma Utf16LEEncode_even s : even_length (Utf16LEEncode s).
Proof.
  assert (H : exists k, zlen (Utf16LEEncode s) = 2 * k).
  { unfold Utf16LEEncode. destruct s as [|c s]; [by exists 0|]. case_match.
    - rewrite LegacyUtf16LEEncode_general. apply general_even.
    - case_match; [by exists 0|]. rewrite zlen_units_bytes. eauto. }
  unfold even_length. destruct H as [k ->]. rewrite Z.mul_comm, Z.div_mul by lia. lia.
Qed.

(** The first field over the limit, as [EncodeLogin7VarField] finds it. *)
Fixpoint first_too_long (fields : list (string * bytes)) : option exn :=
  match fields with
  | [] => None
  | (name, text) :: fields =>
      let code_units := zlen (Utf16LEEncode text) / 2 in
      if 128 <? code_units then Some (Login7FieldTooLong name code_units) else first_too_long fields
  end.

Definition login7_bytes (obf : bool) (text : bytes) : bytes :=
  if obf then obfuscate <$> Utf16LEEncode text else Utf16LEEncode text.

Lemma zlen_login7_bytes obf t : zlen (login7_bytes obf t) = zlen (Utf16LEEncode t).
Proof. destruct obf; [apply zlen_obfuscate|done]. Qed.

Lemma login7_bytes_even obf t : even_length (login7_bytes obf t).
Proof. destruct obf; [apply obfuscate_even|]; apply Utf16LEEncode_even. Qed.

Lemma EncodeLogin7VarField_eq name t off obf :
  0 <= off < 60000 ->
  EncodeLogin7VarField name t off obf =
    if 128 <? zlen (Utf16LEEncode t) / 2 then Exn (Login7FieldTooLong name (zlen (Utf16LEEncode t) / 2))
    else Ok (mkLogin7VarField (login7_bytes obf t) (zlen (login7_bytes obf t) / 2) off,
             off + zlen (login7_bytes obf t)).
Proof.
  intros Ho. unfold EncodeLogin7VarField, LOGIN7_MAX_FIELD_CODE_UNITS.
  assert (E : match t with [] => [] | _ :: _ => Utf16LEEncode t end = Utf16LEEncode t) by (by destruct t).
  rewrite E. destruct (Z.ltb_spec 128 (zlen (Utf16LEEncode t) / 2)) as [|Hl]; [done|].
  pose proof (Utf16LEEncode_even t) as He. unfold even_length in He. pose proof (zlen_nonneg (Utf16LEEncode t)).
  rewrite zlen_login7_bytes. unfold login7_bytes.
  assert (Hz : zlen (if obf then obfuscate <$> Utf16LEEncode t else Utf16LEEncode t) = zlen (Utf16LEEncode t))
    by (destruct obf; [apply zlen_obfuscate|done]).
  rewrite Hz, !Z.mod_small by lia. done.
Qed.

(** A field that was accepted is short. *)
Lemma login7_bytes_short obf t :
  zlen (Utf16LEEncode t) / 2 <= 128 -> 0 <= zlen (login7_bytes obf t) <= 257.
Proof.
  intros H. pose proof (Utf16LEEncode_even t) as He. unfold even_length in He.
  rewrite zlen_login7_bytes. pose proof (zlen_nonneg (Utf16LEEncode t)). lia.
Qed.
End Login7.

(** One step of a builder: the next field is refused, or goes on behind the
    fields so far. *)
Ltac next_field t obf :=
  rewrite EncodeLogin7VarField_eq by lia; cbn [first_too_long];
  let Hs := fresh "Hshort" in
  destruct (Z.ltb_spec 128 (zlen (Utf16LEEncode t) / 2)) as [|Hs];
  [done|]; apply (login7_bytes_short obf) in Hs; cbn [mbind res_bind].

(** The fields of a finished record, read one after the other. *)
Ltac field_at off R R' Hc :=
  let E := fresh "F" in
  eapply (login7_field_at _ _ off) in Hc as [E Hc];
  [|exact R|exact R'|lia|apply login7_bytes_even|lia].

Section Login7Layout.
Context {S : Simdutf}.

(** The feature list behind the string fields. *)
Lemma login7_features_at data ext feat w :
  get16le data 56 = Ok ext -> cursor data ext (put32le feat ++ w) -> feat = ext + 4 -> feat < 4294967296 ->
  login7_features data = Ok w.
Proof.
  intros E Hc -> Hf. assert (0 <= ext) by apply Hc. unfold login7_features. rewrite E. cbn [mbind res_bind].
  apply cursor_put32le in Hc as [-> Hc]. cbn [mbind res_bind]. rewrite Z.mod_small by lia.
  apply (cursor_slice _ _ w []); [by rewrite app_nil_r|]. apply cursor_len in Hc. lia.
Qed.

Lemma BuildLogin7_spec pid host username password database app_name packet_size utf8 server_name :
  let server := match server_name with [] => host | _ => server_name end in
  match first_too_long [("HostName", host); ("UserName", username); ("Password", password);
                        ("AppName", app_name); ("ServerName", server); ("Database", database)]%string with
  | Some e =>
      BuildLogin7 pid host username password database app_name packet_size utf8 server_name = Exn e
  | None =>
      exists p, BuildLogin7 pid host username password database app_name packet_size utf8 server_name = Ok p /\
        type_ p = PacketType.LOGIN7 /\ IsEndOfMessage p = true /\
        let data := payload_ p in
        get32le data 0 = Ok (zlen data) /\ zlen data < 2000 /\
        login7_fields data [(36, Utf16LEEncode host); (40, Utf16LEEncode username);
          (44, EncodePassword password); (48, Utf16LEEncode app_name); (52, Utf16LEEncode server);
          (68, Utf16LEEncode database)] /\
        if utf8 then login7_features data = Ok (bs [0x0A; 0; 0; 0; 0; 0xFF]) else get16le data 58 = Ok 0
  end.
Proof.
  intros server. unfold BuildLogin7. fold server.
  next_field host false. next_field username false. next_field password true.
  next_field app_name false. next_field server false. next_field database false.
  eexists. split; [reflexivity|]. cbv zeta. cbn [utf16le_bytes]. unfold field_pair. cbn [ib cch].
  set (b1 := login7_bytes false host) in *. set (b2 := login7_bytes false username) in *.
  set (b3 := login7_bytes true password) in *. set (b4 := login7_bytes false app_name) in *.
  set (b5 := login7_bytes false server) in *. set (b6 := login7_bytes false database) in *.
  set (end_ := 94 + _ + _ + _ + _ + _ + _). rewrite (Z.mod_small (end_ + 4)) by (unfold end_; lia).
  set (h := mkLogin7Header _ _ _ _ _ _ _ _ _ _ _ _ _ _ _ _ _ _).
  set (tail := if utf8 then put32le (end_ + 4) ++ bs [0x0A; 0; 0; 0; 0; 0xFF] else []).
  match goal with |- type_ ?p = _ /\ _ =>
    assert (Hp : p = AppendPayload (login7_header h ++ b1 ++ b2 ++ b3 ++ b4 ++ b5 ++ b6 ++ tail)
                       (TdsPacket_new PacketType.LOGIN7 PacketStatus.END_OF_MESSAGE)) end.
  { unfold tail, AppendUtf8SupportFeature, AppendUInt32LE, AppendByte. rewrite AppendLogin7Header_payload.
    destruct utf8; rewrite !AppendPayload_app; f_equal; rewrite <- ?app_assoc, ?app_nil_r; reflexivity. }
  rewrite Hp. clear Hp. split; [done|]. split; [done|]. cbn [payload_ AppendPayload TdsPacket_new app].
  assert (Hlen : zlen (login7_header h ++ b1 ++ b2 ++ b3 ++ b4 ++ b5 ++ b6 ++ tail) = Length h /\
    0 <= Length h < 2000).
  { rewrite !zlen_app, zlen_login7_header. unfold tail. destruct utf8; cbn [h Length]; unfold end_, UTF8_SUPPORT_EXT_LEN.
    - change (zlen (put32le _ ++ _)) with 10. lia.
    - rewrite zlen_nil. lia. }
  destruct Hlen as [Hlen Hrange].
  destruct (login7_header_reads h (b1 ++ b2 ++ b3 ++ b4 ++ b5 ++ b6 ++ tail)) as
    (R0 & R36 & R38 & R40 & R42 & R44 & R46 & R48 & R50 & R52 & R54 & R56 & R58 & R68 & R70 & _ & _ & _ & Hc).
  set (data := login7_header h ++ _) in *. rewrite Hlen. rewrite Z.mod_small in R0 by lia.
  split; [exact R0|]. split; [lia|].
  field_at 94 R36 R38 Hc. field_at (94 + zlen b1) R40 R42 Hc. field_at (94 + zlen b1 + zlen b2) R44 R46 Hc.
  field_at (94 + zlen b1 + zlen b2 + zlen b3) R48 R50 Hc.
  field_at (94 + zlen b1 + zlen b2 + zlen b3 + zlen b4) R52 R54 Hc.
  field_at (94 + zlen b1 + zlen b2 + zlen b3 + zlen b4 + zlen b5) R68 R70 Hc. fold end_ in Hc.
  split; [unfold login7_fields; by repeat (apply Forall_cons; split; [assumption|])|].
  unfold tail in Hc. destruct utf8; [|exact R58].
  eapply (login7_features_at _ end_ (end_ + 4)); [|exact Hc|done|unfold end_; lia].
  rewrite R56. simpl. rewrite Z.mod_small by (unfold end_; lia). done.
Qed.

(** The SSPI blob: cbSSPI, or cbSSPILong when cbSSPI is at its maximum. *)
Definition login7_sspi (data : bytes) : res bytes :=
  ib ← get16le data 78; cb ← get16le data 80; long ← get32le data 90;
  slice data ib (if (cb =? 0xFFFF) && (0 <? long) then long else cb).

Lemma login7_sspi_at data ib blob r :
  get16le data 78 = Ok ib ->
  get16le data 80 = Ok (if 0xFFFF <? zlen blob then 0xFFFF else zlen blob) ->
  get32le data 90 = Ok (if 0xFFFF <? zlen blob then zlen blob else 0) ->
  cursor data ib (blob ++ r) -> login7_sspi data = Ok blob.
Proof.
  intros E1 E2 E3 Hc. unfold login7_sspi. rewrite E1. cbn [mbind res_bind]. rewrite E2. cbn [mbind res_bind].
  rewrite E3. cbn [mbind res_bind]. eapply cursor_slice; [exact Hc|].
  destruct (Z.ltb_spec 0xFFFF (zlen blob)).
  - by replace (0 <? zlen blob) with true by lia.
  - by rewrite andb_false_r.
Qed.

Lemma sspi_lengths n :
  0 <= n < 4294967296 ->
  (if 0xFFFF <? n then 0xFFFF else n) mod 65536 = (if 0xFFFF <? n then 0xFFFF else n) /\
  (if 0xFFFF <? n then n else 0) mod 4294967296 = (if 0xFFFF <? n then n else 0).
Proof. intros Hn. destruct (Z.ltb_spec 0xFFFF n); split; apply Z.mod_small; lia. Qed.

Lemma BuildLogin7WithSSPI_spec pid host server database blob app_name packet_size utf8 :
  zlen blob < 4294960000 ->
  match first_too_long [("HostName", host); ("AppName", app_name); ("ServerName", server);
                        ("Database", database)]%string with
  | Some e => BuildLogin7WithSSPI pid host server database blob app_name packet_size utf8 = Exn e
  | None =>
      exists p, BuildLogin7WithSSPI pid host server database blob app_name packet_size utf8 = Ok p /\
        type_ p = PacketType.LOGIN7 /\ IsEndOfMessage p = true /\
        let data := payload_ p in
        get32le data 0 = Ok (zlen data) /\
        login7_fields data [(36, Utf16LEEncode host); (40, []); (44, []); (48, Utf16LEEncode app_name);
          (52, Utf16LEEncode server); (68, Utf16LEEncode database)] /\
        login7_sspi data = Ok blob /\
        if utf8 then
          exists ext, cursor data ext (put32le (ext + 4) ++ bs [0x0A; 0; 0; 0; 0; 0xFF]) /\
            if 0xFFFF <? ext then get16le data 56 = Ok 0xFFFF
            else login7_features data = Ok (bs [0x0A; 0; 0; 0; 0; 0xFF])
        else get16le data 58 = Ok 0
  end.
Proof.
  intros Hblob. pose proof (zlen_nonneg blob) as Hblob0. unfold BuildLogin7WithSSPI, u32.
  rewrite (Z.mod_small (zlen blob)) by lia.
  next_field host false. next_field app_name false. next_field server false. next_field database false.
  cbn [utf16le_bytes]. unfold field_pair. cbn [ib cch].
  set (b1 := login7_bytes false host) in *. set (b4 := login7_bytes false app_name) in *.
  set (b5 := login7_bytes false server) in *. set (b6 := login7_bytes false database) in *.
  set (off := 94 + _ + _ + _ + _). assert (Hoff : 94 <= off < 2000) by (unfold off; lia).
  cbv zeta. replace (0xFFFF <? off) with false by lia.
  set (end_ := (off + zlen blob) mod 4294967296).
  assert (Hend : end_ = off + zlen blob) by (apply Z.mod_small; lia).
  rewrite (Z.mod_small (end_ + 4)), (Z.mod_small (end_ + (4 + _ + 1))) by (unfold UTF8_SUPPORT_EXT_LEN; lia).
  eexists. split; [reflexivity|].
  set (h := mkLogin7Header _ _ _ _ _ _ _ _ _ _ _ _ _ _ _ _ _ _).
  set (tail := if utf8 then put32le (end_ + 4) ++ bs [0x0A; 0; 0; 0; 0; 0xFF] else []).
  match goal with |- type_ ?p = _ /\ _ =>
    assert (Hp : p = AppendPayload (login7_header h ++ b1 ++ b4 ++ b5 ++ b6 ++ blob ++ tail)
                       (TdsPacket_new PacketType.LOGIN7 PacketStatus.END_OF_MESSAGE)) end.
  { unfold tail, AppendUtf8SupportFeature, AppendUInt32LE, AppendByte. rewrite AppendLogin7Header_payload.
    destruct utf8; rewrite !AppendPayload_app; f_equal; rewrite <- ?app_assoc, ?app_nil_r; reflexivity. }
  rewrite Hp. clear Hp. split; [done|]. split; [done|]. cbn [payload_ AppendPayload TdsPacket_new app].
  assert (Hlen : zlen (login7_header h ++ b1 ++ b4 ++ b5 ++ b6 ++ blob ++ tail) = Length h /\
    0 <= Length h < 4294967296).
  { rewrite !zlen_app, zlen_login7_header. unfold tail. destruct utf8; cbn [h Length]; unfold UTF8_SUPPORT_EXT_LEN.
    - change (zlen (put32le _ ++ _)) with 10. lia.
    - rewrite zlen_nil. lia. }
  destruct Hlen as [Hlen Hrange].
  destruct (login7_header_reads h (b1 ++ b4 ++ b5 ++ b6 ++ blob ++ tail)) as
    (R0 & R36 & R38 & R40 & R42 & R44 & R46 & R48 & R50 & R52 & R54 & R56 & R58 & R68 & R70 & R78 & R80 & R90 & Hc).
  set (data := login7_header h ++ _) in *. rewrite Hlen. rewrite Z.mod_small in R0 by lia.
  split; [exact R0|]. field_at 94 R36 R38 Hc.
  destruct (login7_field_at data 40 (94 + zlen b1) [] (b4 ++ b5 ++ b6 ++ blob ++ tail)) as [F40 _];
    [exact R40|exact R42|exact Hc|lia|done|done|].
  destruct (login7_field_at data 44 (94 + zlen b1) [] (b4 ++ b5 ++ b6 ++ blob ++ tail)) as [F44 _];
    [exact R44|exact R46|exact Hc|lia|done|done|].
  field_at (94 + zlen b1) R48 R50 Hc.
  field_at (94 + zlen b1 + zlen b4) R52 R54 Hc. field_at (94 + zlen b1 + zlen b4 + zlen b5) R68 R70 Hc.
  fold off in Hc. split; [unfold login7_fields; by repeat (apply Forall_cons; split; [assumption|])|].
  cbn [h SSPI fst snd cbSSPILong Extension] in R78, R80, R90, R56, R58.
  rewrite Z.mod_small in R78 by lia.
  destruct (sspi_lengths (zlen blob)) as [E80 E90]; [lia|]. rewrite E80 in R80. rewrite E90 in R90.
  split; [by apply (login7_sspi_at data off blob tail)|].
  apply cursor_app in Hc. rewrite <- Hend in Hc. unfold tail in Hc. destruct utf8; [|exact R58].
  exists end_. split; [exact Hc|].
  destruct (Z.ltb_spec 0xFFFF end_); [exact R56|]. rewrite Z.mod_small in R56 by lia.
  eapply (login7_features_at _ end_ (end_ + 4)); [exact R56|exact Hc|done|lia].
Qed.
End Login7Layout.

Section FedAuthLayout.
Context {S : Simdutf}.

(** The FEDAUTH feature, in front of UTF8_SUPPORT and the terminator. *)
Definition feature_list (fedauth : bytes) (utf8 : bool) : bytes :=
  fedauth ++ (if utf8 then bs [0x0A; 0; 0; 0; 0] else []) ++ bs [0xFF].

Lemma zlen_feature_list fedauth utf8 :
  zlen (feature_list fedauth utf8) = zlen fedauth + (if utf8 then UTF8_SUPPORT_EXT_LEN else 0) + 1.
Proof. unfold feature_list, UTF8_SUPPORT_EXT_LEN. rewrite !zlen_app. by destruct utf8; rewrite <- Z.add_assoc. Qed.

Lemma EncodeLogin7VarField_empty name off :
  0 <= off < 60000 -> EncodeLogin7VarField name [] off false = Ok (mkLogin7VarField [] 0 off, off).
Proof. intros Ho. rewrite EncodeLogin7VarField_eq by done. simpl. by rewrite Z.add_0_r. Qed.

Lemma login7_fedauth_spec pid host server database app_name packet_size utf8 fedauth append_fedauth :
  (forall p, append_fedauth p = AppendPayload fedauth p) -> zlen fedauth < 4294960000 ->
  match first_too_long [("HostName", host); ("AppName", app_name); ("ServerName", server);
                        ("Database", database)]%string with
  | Some e => login7_fedauth pid host server database app_name packet_size utf8 (zlen fedauth) append_fedauth = Exn e
  | None =>
      exists p, login7_fedauth pid host server database app_name packet_size utf8 (zlen fedauth) append_fedauth = Ok p /\
        type_ p = PacketType.LOGIN7 /\ IsEndOfMessage p = true /\
        let data := payload_ p in
        get32le data 0 = Ok (zlen data) /\
        login7_fields data [(36, Utf16LEEncode host); (40, []); (44, []); (48, Utf16LEEncode app_name);
          (52, Utf16LEEncode server); (68, Utf16LEEncode database)] /\
        get16le data 58 = Ok 4 /\ login7_features data = Ok (feature_list fedauth utf8)
  end.
Proof.
  intros Happ Hfed. pose proof (zlen_nonneg fedauth) as Hfed0. unfold login7_fedauth, u32.
  next_field host false. rewrite (EncodeLogin7VarField_empty "UserName") by lia. cbn [mbind res_bind].
  rewrite (EncodeLogin7VarField_empty "Password") by lia. cbn [mbind res_bind].
  next_field app_name false. next_field server false. next_field database false.
  eexists. split; [reflexivity|]. cbv zeta. cbn [utf16le_bytes]. unfold field_pair. cbn [ib cch].
  set (b1 := login7_bytes false host) in *. set (b4 := login7_bytes false app_name) in *.
  set (b5 := login7_bytes false server) in *. set (b6 := login7_bytes false database) in *.
  set (end_ := 94 + _ + _ + _ + _). assert (Hend : 94 <= end_ < 2000) by (unfold end_; lia).
  rewrite (Z.mod_small (end_ + 4) 65536) by lia.
  set (h := mkLogin7Header _ _ _ _ _ _ _ _ _ _ _ _ _ _ _ _ _ _).
  set (tail := put32le (end_ + 4) ++ feature_list fedauth utf8).
  match goal with |- type_ ?p = _ /\ _ =>
    assert (Hp : p = AppendPayload (login7_header h ++ b1 ++ b4 ++ b5 ++ b6 ++ tail)
                       (TdsPacket_new PacketType.LOGIN7 PacketStatus.END_OF_MESSAGE)) end.
  { unfold tail, feature_list, AppendUtf8SupportFeature, AppendUInt32LE, AppendByte.
    rewrite Happ, AppendLogin7Header_payload.
    destruct utf8; rewrite !AppendPayload_app; f_equal; rewrite <- ?app_assoc, ?app_nil_r; reflexivity. }
  rewrite Hp. clear Hp. split; [done|]. split; [done|]. cbn [payload_ AppendPayload TdsPacket_new app].
  assert (Hlen : zlen (login7_header h ++ b1 ++ b4 ++ b5 ++ b6 ++ tail) = Length h /\ 0 <= Length h < 4294967296).
  { rewrite !zlen_app, zlen_login7_header. unfold tail. rewrite zlen_app, zlen_feature_list.
    change (zlen (put32le (end_ + 4))) with 4. cbn [h Length]. unfold UTF8_SUPPORT_EXT_LEN.
    rewrite Z.mod_small by (destruct utf8; lia). destruct utf8; lia. }
  destruct Hlen as [Hlen Hrange].
  destruct (login7_header_reads h (b1 ++ b4 ++ b5 ++ b6 ++ tail)) as
    (R0 & R36 & R38 & R40 & R42 & R44 & R46 & R48 & R50 & R52 & R54 & R56 & R58 & R68 & R70 & _ & _ & _ & Hc).
  set (data := login7_header h ++ _) in *. rewrite Hlen. rewrite Z.mod_small in R0 by lia.
  split; [exact R0|]. field_at 94 R36 R38 Hc.
  destruct (login7_field_at data 40 (94 + zlen b1) [] (b4 ++ b5 ++ b6 ++ tail)) as [F40 _];
    [exact R40|exact R42|exact Hc|lia|done|done|].
  destruct (login7_field_at data 44 (94 + zlen b1) [] (b4 ++ b5 ++ b6 ++ tail)) as [F44 _];
    [exact R44|exact R46|exact Hc|lia|done|done|].
  field_at (94 + zlen b1) R48 R50 Hc.
  field_at (94 + zlen b1 + zlen b4) R52 R54 Hc. field_at (94 + zlen b1 + zlen b4 + zlen b5) R68 R70 Hc.
  fold end_ in Hc. split; [unfold login7_fields; by repeat (apply Forall_cons; split; [assumption|])|].
  split; [exact R58|]. cbn [h Extension fst] in R56. rewrite Z.mod_small in R56 by lia.
  eapply (login7_features_at _ end_ (end_ + 4)); [exact R56|exact Hc|done|lia].
Qed.
End FedAuthLayout.

(** ** The PRELOGIN response *)

(** The first TERMINATOR where an option may start, whole options before it. *)
Definition terminator_at (data : bytes) (k : nat) : Prop :=
  get8 data (5 * Z.of_nat k) = Ok PreloginOption.TERMINATOR /\
  forall j, (j < k)%nat -> 5 * Z.of_nat j + 5 <= zlen data /\
    get8 data (5 * Z.of_nat j) <> Ok PreloginOption.TERMINATOR.

Lemma prelogin_option_safe data option offset length r :
  0 <= offset -> 0 <= length ->
  holds (prelogin_option data option offset length r)
        (fun r' => success r' = success r /\ error_message r' = error_message r).
Proof.
  intros Ho Hl. unfold prelogin_option.
  destruct (option =? _); [|destruct (option =? _); [|destruct (option =? _); [|done]]].
  - destruct ((offset + length <=? zlen data) && (6 <=? length)) eqn:E; [|done].
    apply andb_true_iff in E as [E1 E2].
    apply holds_bind, holds_get8; [lia|]. intros ma _. apply holds_bind, holds_get8; [lia|]. intros mi _.
    apply holds_bind, holds_get16be; [lia..|]. done.
  - destruct (Z.ltb_spec offset (zlen data)); [|done]. by apply holds_bind, holds_get8.
  - destruct ((offset <? zlen data) && (1 <=? length)) eqn:E; [|done].
    apply andb_true_iff in E as [E1 E2]. apply holds_bind, holds_get8; [lia|]. done.
Qed.

Lemma prelogin_loop_spec fuel data k r :
  success r = false -> zlen data - 5 * Z.of_nat k < Z.of_nat fuel -> (0 < fuel)%nat ->
  (forall j, (j < k)%nat -> 5 * Z.of_nat j + 5 <= zlen data /\
    get8 data (5 * Z.of_nat j) <> Ok PreloginOption.TERMINATOR) ->
  holds (prelogin_loop fuel data (5 * Z.of_nat k) r)
    (fun r' => success r' = true <-> exists k', terminator_at data k').
Proof.
  revert k r. induction fuel as [|fuel IH]; intros k r Hr Hf Hpos Hk; [lia|]. cbn [prelogin_loop].
  assert (Hno : forall k', terminator_at data k' -> (k <= k')%nat).
  { intros k' [Ht _]. destruct (decide (k <= k')%nat); [done|]. destruct (Hk k') as [_ H]; [lia|]. done. }
  destruct (Z.ltb_spec (5 * Z.of_nat k) (zlen data)) as [Hin|Hout].
  - simpl negb. cbv iota. destruct (get8_inside data (5 * Z.of_nat k)) as (o & Eo & Ho); [lia|].
    rewrite Eo. cbn [mbind res_bind]. destruct (Z.eqb_spec o PreloginOption.TERMINATOR) as [->|Hne].
    { simpl. split; [intros _|done]. exists k. by split. }
    destruct (Z.ltb_spec (zlen data) (5 * Z.of_nat k + 5)) as [Htr|Hfit].
    { simpl. rewrite Hr. split; [done|]. intros (k' & Hk'). exfalso.
      pose proof (Hno _ Hk'). destruct Hk' as [Ht Hb]. apply get8_Ok_range in Ht as Hlt.
      destruct (decide (k = k')) as [<-|]; [congruence|]. destruct (Hb k); lia. }
    apply holds_bind, holds_get16be; [lia..|]. intros off Hoff.
    apply holds_bind, holds_get16be; [lia..|]. intros len Hlen. apply holds_bind.
    eapply holds_mono; [apply prelogin_option_safe; lia|]. intros r' [Hr' _].
    replace (5 * Z.of_nat k + 5) with (5 * Z.of_nat (Datatypes.S k)) by lia.
    apply IH; [congruence|lia|lia|]. intros j Hj. destruct (decide (j = k)) as [->|]; [|apply Hk; lia].
    split; [lia|]. congruence.
  - simpl. rewrite Hr. split; [done|]. intros (k' & Hk'). pose proof (Hno _ Hk').
    destruct Hk' as [Ht _]. apply get8_Ok_range in Ht. lia.
Qed.

(** ** Properties *)

(** What undoes [obfuscate]. *)
Definition deobfuscate (b : byte) : byte :=
  let x := Z.lxor (b2z b) 0xA5 in
  z2b (Z.lor (Z.land (Z.shiftl x 4) 0xF0) (Z.land (Z.shiftr x 4) 0x0F)).

Lemma deobfuscate_obfuscate b : deobfuscate (obfuscate b) = b.
Proof. by destruct b. Qed.

Section Properties.
Context {S : Simdutf}.

(** C30. A LOGIN7 record is what its own header says: Length is the record's
    length; every offset/length pair points at exactly that field's UTF-16 text
    (the password's obfuscated, and a server can undo that); the Extension field
    leads through its DWORD to the UTF8_SUPPORT feature and the terminator, or
    is empty. The builder fails exactly when a field has more than 128 code
    units, and names the first one. *)
Theorem BuildLogin7_layout (pid : Z) (host username password database app_name : bytes) (packet_size : Z)
    (utf8 : bool) (server_name : bytes)
    (server := match server_name with [] => host | _ => server_name end)
    (result := BuildLogin7 pid host username password database app_name packet_size utf8 server_name) :
  match first_too_long [("HostName", host); ("UserName", username); ("Password", password);
                        ("AppName", app_name); ("ServerName", server); ("Database", database)]%string with
  | Some e => result = Exn e
  | None =>
      exists p, result = Ok p /\ type_ p = PacketType.LOGIN7 /\ IsEndOfMessage p = true /\
        let data := payload_ p in
        get32le data 0 = Ok (zlen data) /\ zlen data < 2000 /\
        login7_fields data [(36, Utf16LEEncode host); (40, Utf16LEEncode username);
          (44, EncodePassword password); (48, Utf16LEEncode app_name); (52, Utf16LEEncode server);
          (68, Utf16LEEncode database)] /\
        if utf8 then login7_features data = Ok (bs [0x0A; 0; 0; 0; 0; 0xFF]) else get16le data 58 = Ok 0
  end /\
  deobfuscate <$> EncodePassword password = Utf16LEEncode password.
Proof.
  split; [apply BuildLogin7_spec|]. unfold EncodePassword. rewrite <- list_fmap_compose.
  rewrite <- (list_fmap_id (Utf16LEEncode password)) at 2. apply list_fmap_ext. intros ? b _. apply deobfuscate_obfuscate.
Qed.

(** The integrated-authentication LOGIN7: the same, and the SSPI blob,
    however long, is found through cbSSPI or cbSSPILong. The Extension field is
    wrong when the blob ends past 64 KB: it is clamped to 65535 instead of
    pointing at its DWORD. *)
Theorem BuildLogin7WithSSPI_layout (pid : Z) (host server database blob app_name : bytes) (packet_size : Z)
    (utf8 : bool) (Hblob : zlen blob < 4294960000)
    (result := BuildLogin7WithSSPI pid host server database blob app_name packet_size utf8) :
  match first_too_long [("HostName", host); ("AppName", app_name); ("ServerName", server);
                        ("Database", database)]%string with
  | Some e => result = Exn e
  | None =>
      exists p, result = Ok p /\ type_ p = PacketType.LOGIN7 /\ IsEndOfMessage p = true /\
        let data := payload_ p in
        get32le data 0 = Ok (zlen data) /\
        login7_fields data [(36, Utf16LEEncode host); (40, []); (44, []); (48, Utf16LEEncode app_name);
          (52, Utf16LEEncode server); (68, Utf16LEEncode database)] /\
        login7_sspi data = Ok blob /\
        if utf8 then
          exists ext, cursor data ext (put32le (ext + 4) ++ bs [0x0A; 0; 0; 0; 0; 0xFF]) /\
            if 0xFFFF <? ext then get16le data 56 = Ok 0xFFFF
            else login7_features data = Ok (bs [0x0A; 0; 0; 0; 0; 0xFF])
        else get16le data 58 = Ok 0
  end.
Proof. by apply BuildLogin7WithSSPI_spec. Qed.

(** The two Azure LOGIN7 records: the fields as above with empty user name
    and password, and a feature list of the FEDAUTH feature (with its own
    lengths, the echo bit, and the token or the ADAL workflow byte), then
    UTF8_SUPPORT if asked for, then the terminator. *)
Theorem BuildLogin7_fedauth_layout (pid : Z) (host server database token app_name : bytes) (echo : bool)
    (packet_size : Z) (utf8 : bool) (Htoken : zlen token < 4294950000)
    (layout := fun result fedauth =>
       match first_too_long [("HostName", host); ("AppName", app_name); ("ServerName", server);
                             ("Database", database)]%string with
       | Some e => result = Exn e
       | None =>
           exists p, result = Ok p /\ type_ p = PacketType.LOGIN7 /\ IsEndOfMessage p = true /\
             let data := payload_ p in
             get32le data 0 = Ok (zlen data) /\
             login7_fields data [(36, Utf16LEEncode host); (40, []); (44, []); (48, Utf16LEEncode app_name);
               (52, Utf16LEEncode server); (68, Utf16LEEncode database)] /\
             get16le data 58 = Ok 4 /\ login7_features data = Ok (feature_list fedauth utf8)
       end) :
  layout (BuildLogin7WithFedAuth pid host server database token echo app_name packet_size utf8)
    (bs [0x02] ++ put32le (5 + zlen token) ++ bs [if echo then 3 else 2] ++ put32le (zlen token) ++ token) /\
  layout (BuildLogin7WithADAL pid host server database echo app_name packet_size utf8)
    (bs [0x02; 2; 0; 0; 0; if echo then 5 else 4; 1]).
Proof.
  pose proof (zlen_nonneg token). split.
  - unfold BuildLogin7WithFedAuth, u32. rewrite (Z.mod_small (zlen token) 4294967296) by lia.
    rewrite (Z.mod_small (5 + zlen token) 4294967296) by lia.
    set (fedauth := bs [0x02] ++ _).
    assert (Hf : zlen fedauth = 10 + zlen token) by (unfold fedauth; rewrite !zlen_app, !zlen_put32le; unfold bs; rewrite !zlen_fmap, !zlen_cons, !zlen_nil; lia).
    replace ((1 + 4 + (5 + zlen token)) mod 4294967296) with (zlen fedauth) by (rewrite Hf, Z.mod_small by lia; lia).
    apply login7_fedauth_spec; [|lia]. intros p. unfold AppendUInt32LE, AppendByte.
    rewrite !AppendPayload_app. by destruct echo.
  - unfold BuildLogin7WithADAL. set (fedauth := bs _).
    apply (login7_fedauth_spec pid host server database app_name packet_size utf8 fedauth); [|by destruct echo].
    intros p. unfold AppendUInt32LE, AppendByte. rewrite !AppendPayload_app. by destruct echo.
Qed.

(** A batch is the ping, or splits. *)
Lemma SqlBatch_split fuel sql mps desc :
  TDS_HEADER_SIZE < mps < 2 ^ 64 -> zlen (payload_ (BuildSqlBatch sql desc)) < Z.of_nat fuel ->
  if decide (Utf16LEEncode sql = []) then BuildSqlBatchMultiPacket fuel sql mps desc = Some [BuildPing]
  else exists ps, BuildSqlBatchMultiPacket fuel sql mps desc = Some ps /\
         well_split PacketType.SQL_BATCH (mps - TDS_HEADER_SIZE) (payload_ (BuildSqlBatch sql desc)) ps.
Proof.
  intros Hm Hf. unfold BuildSqlBatchMultiPacket. case_decide as He; [by rewrite He|].
  destruct (Utf16LEEncode sql) as [|b l] eqn:E; [done|].
  assert (Hp : payload_ (BuildSqlBatch sql desc) = all_headers desc ++ b :: l)
    by (unfold BuildSqlBatch; by rewrite E).
  rewrite Hp in *. by apply split_message_spec.
Qed.

(** Every multi-packet message (SQL batch, bulk load, FEDAUTH token, and any
    message through [SplitIntoPackets]) is cut so that the payloads in order are
    the message of the one-packet builder, no packet is empty or longer than the
    limit, and the end-of-message bit is on the last packet only. An empty bulk
    load has no packet, and an empty batch becomes the ping. *)
Theorem MultiPacket_split (fuel : nat) (sql payload token nonce : bytes) (desc : option bytes) (message : TdsPacket)
    (mps : Z) (Hm : TDS_HEADER_SIZE < mps < 2 ^ 64)
    (Hf : zlen payload < Z.of_nat fuel /\ zlen (payload_ (BuildSqlBatch sql desc)) < Z.of_nat fuel /\
          zlen (payload_ (BuildFedAuthToken token nonce)) < Z.of_nat fuel /\
          zlen (payload_ message) < Z.of_nat fuel)
    (split_as := fun type payload result =>
       exists ps, result = Some ps /\ well_split type (mps - TDS_HEADER_SIZE) payload ps) :
  (if decide (Utf16LEEncode sql = []) then BuildSqlBatchMultiPacket fuel sql mps desc = Some [BuildPing]
   else split_as PacketType.SQL_BATCH (payload_ (BuildSqlBatch sql desc)) (BuildSqlBatchMultiPacket fuel sql mps desc)) /\
  (if decide (payload = []) then BuildBulkLoadMultiPacket fuel payload mps = Some []
   else split_as PacketType.BULK_LOAD payload (BuildBulkLoadMultiPacket fuel payload mps)) /\
  split_as PacketType.FEDAUTH_TOKEN (payload_ (BuildFedAuthToken token nonce))
    (BuildFedAuthTokenMultiPacket fuel token mps nonce) /\
  (if zlen (payload_ message) <=? mps - TDS_HEADER_SIZE then SplitIntoPackets fuel message mps = Some [message]
   else split_as (type_ message) (payload_ message) (SplitIntoPackets fuel message mps)).
Proof.
  destruct Hf as (Hf1 & Hf2 & Hf3 & Hf4). unfold split_as. split; [|split; [|split]].
  - by apply SqlBatch_split.
  - unfold BuildBulkLoadMultiPacket. case_decide as He; [by rewrite He|].
    destruct payload as [|b l]; [done|]. by apply split_message_spec.
  - replace (payload_ (BuildFedAuthToken token nonce)) with
      (put32le (u32 (4 + u32 (zlen token) + u32 (zlen nonce))) ++ put32le (u32 (zlen token)) ++ token ++ nonce) in *
      by (unfold BuildFedAuthToken, AppendUInt32LE; by rewrite !AppendPayload_app).
    by apply split_message_spec.
  - unfold SplitIntoPackets. replace (TDS_HEADER_SIZE <? mps) with true by lia.
    destruct (Z.leb_spec (zlen (payload_ message)) (mps - TDS_HEADER_SIZE)) as [|Hlong]; [done|].
    destruct (split_loop_spec fuel (type_ message) (mps - TDS_HEADER_SIZE) (payload_ message) 0 [])
      as (ps & -> & Hps); [lia|lia|lia|]. eauto.
Qed.

(** When the packet size leaves no room: the three builders that subtract
    the header without a guard loop for ever at a size of 8 and send one packet
    of any length below it; [SplitIntoPackets] falls back to 4096. (The sizes
    the login accepts, 512 to 32767, are far from this.) *)
Theorem MultiPacket_degenerate (fuel : nat) (payload : bytes) (message : TdsPacket)
    (Hp : payload <> [] /\ zlen payload <= 2 ^ 64 - 8) (Hf : zlen (payload_ message) < Z.of_nat fuel) :
  BuildBulkLoadMultiPacket fuel payload TDS_HEADER_SIZE = None /\
  (forall mps, 0 <= mps < TDS_HEADER_SIZE ->
     BuildBulkLoadMultiPacket fuel payload mps
     = Some [TdsPacket_new PacketType.BULK_LOAD PacketStatus.END_OF_MESSAGE |> AppendPayload payload]) /\
  (forall mps, mps <= TDS_HEADER_SIZE ->
     SplitIntoPackets fuel message mps = SplitIntoPackets fuel message TDS_DEFAULT_PACKET_SIZE /\
     SplitIntoPackets fuel message mps <> None).
Proof.
  destruct Hp as [Hne Hlen].
  destruct (split_message_degenerate fuel PacketType.BULK_LOAD payload Hne) as [H8 Hlt].
  assert (Hb : forall mps, BuildBulkLoadMultiPacket fuel payload mps
                           = split_message fuel PacketType.BULK_LOAD payload mps) by (by destruct payload).
  split; [by rewrite Hb|]. split; [intros mps Hm; rewrite Hb; by apply Hlt|].
  intros mps Hm. unfold SplitIntoPackets, TDS_HEADER_SIZE, TDS_DEFAULT_PACKET_SIZE in *.
  replace (8 <? mps) with false by lia. split; [done|]. change (8 <? 4096) with true. cbv iota.
  destruct (Z.leb_spec (zlen (payload_ message)) (4096 - 8)); [done|].
  destruct (split_loop_spec fuel (type_ message) (4096 - 8) (payload_ message) 0 []) as (ps & -> & _); [lia|lia|lia|].
  done.
Qed.

(** PRELOGIN. On any response the parser ends and reads only inside it, and
    reports success exactly when a TERMINATOR stands where an option may start,
    with whole options before it. The client's own two PRELOGIN messages parse
    back to what went into them. *)
Theorem ParsePreloginResponse_correct (data : bytes) (use_encrypt fedauth_required : bool)
    (enc := if use_encrypt then EncryptionOption.ENCRYPT_ON else EncryptionOption.ENCRYPT_NOT_SUP) :
  holds (ParsePreloginResponse data) (fun r => success r = true <-> exists k, terminator_at data k) /\
  ParsePreloginResponse (payload_ (BuildPrelogin use_encrypt))
    = Ok (mkPreloginResponse 15 0 0 enc false true "") /\
  ParsePreloginResponse (payload_ (BuildPreloginWithFedAuth use_encrypt fedauth_required))
    = Ok (mkPreloginResponse 6 0 0x0901 enc fedauth_required true "").
Proof.
  split; [|by destruct use_encrypt, fedauth_required].
  unfold ParsePreloginResponse. destruct data as [|b data].
  - simpl. split; [done|]. intros (k & Hk & _). apply get8_Ok_range in Hk. unfold zlen in Hk. simpl length in Hk. lia.
  - apply (prelogin_loop_spec _ _ 0); [done|unfold zlen; lia|lia|]. intros j Hj. lia.
Qed.
End Properties.

(** ** Concrete inputs *)

Section Samples.
#[local] Existing Instance RefSimdutf.simdutf.

Definition sample_host : bytes := bs [0x68; 0xC3; 0xA9].
Definition sample_blob : bytes := bs [0x60; 0x28; 6; 6].

Lemma BuildLogin7WithSSPI_layout_witness :
  exists p, BuildLogin7WithSSPI 1 sample_host sample_host [] sample_blob [] 4096 true = Ok p /\
    login7_sspi (payload_ p) = Ok sample_blob /\ get32le (payload_ p) 0 = Ok (zlen (payload_ p)).
Proof.
  pose proof (BuildLogin7WithSSPI_layout 1 sample_host sample_host [] sample_blob [] 4096 true eq_refl) as H.
  change (first_too_long _) with (@None exn) in H.
  destruct H as (p & E & _ & _ & Hlen & _ & Hs & _). exists p. split; [exact E|]. split; [exact Hs|exact Hlen].
Defined.

(** A blob past 64 KB: the Extension field says 65535, which lies in the blob. *)
Lemma sspi_extension_clamped :
  match BuildLogin7WithSSPI 1 sample_host sample_host [] (replicate (Z.to_nat 70000) Byte.x41) [] 4096 true with
  | Ok p => (get16le (payload_ p) 56, bool_decide (slice (payload_ p) 65535 4 = Ok (replicate 4 Byte.x41)))
  | _ => (Oob, false)
  end = (Ok 65535, true).
Proof. vm_compute. reflexivity. Qed.

Lemma BuildLogin7_fedauth_layout_witness :
  exists p, BuildLogin7WithFedAuth 1 sample_host sample_host [] sample_blob true [] 4096 true = Ok p /\
    login7_features (payload_ p)
    = Ok (bs [0x02; 9; 0; 0; 0; 3; 4; 0; 0; 0; 0x60; 0x28; 6; 6; 0x0A; 0; 0; 0; 0; 0xFF]).
Proof.
  pose proof (BuildLogin7_fedauth_layout 1 sample_host sample_host [] sample_blob [] true 4096 true eq_refl) as [H _].
  change (first_too_long _) with (@None exn) in H. cbv beta zeta iota in H.
  destruct H as (p & E & _ & _ & _ & _ & _ & Hf). exists p. split; [exact E|].
  rewrite Hf. vm_compute. reflexivity.
Defined.

(** Nine bytes in packets of at most five. *)
Definition sample_message : TdsPacket :=
  TdsPacket_new PacketType.SSPI PacketStatus.END_OF_MESSAGE |> AppendPayload (bs [1; 2; 3; 4; 5; 6; 7; 8; 9]).

Lemma MultiPacket_split_witness :
  exists ps, SplitIntoPackets 100 sample_message 13 = Some ps /\ well_split PacketType.SSPI 5 (payload_ sample_message) ps.
Proof.
  destruct (MultiPacket_split 100 ping_sql sample_blob sample_blob [] None sample_message 13) as (_ & _ & _ & H);
    [split; reflexivity|repeat split; vm_compute; reflexivity|].
  exact H.
Defined.

Lemma MultiPacket_degenerate_witness :
  BuildBulkLoadMultiPacket 100 sample_blob TDS_HEADER_SIZE = None /\ SplitIntoPackets 100 sample_message 8 <> None.
Proof.
  destruct (MultiPacket_degenerate 100 sample_blob sample_message) as (H1 & _ & H3);
    [split; [discriminate|vm_compute; discriminate]|vm_compute; reflexivity|].
  split; [exact H1|]. apply H3. discriminate.
Defined.
End Samples.
