(* ===== verification/LoginResponse.v ===== *)
(** * Parsers of whole responses (src/src/tds/tds_protocol.cpp)

    [ParseLoginResponse], the scan of the login response, and the three small
    scanners that look for one token in a response: [ParseDoneForAttentionAck],
    [IsSuccessResponse] and [ExtractErrorMessage]. [data] is the whole response
    and [ptr] an offset into it; [end_] is its length. Each [else if] of the
    login loop is a definition that gives the next turn. Debug output is not
    modelled. *)

From S2P Require Import Prelude TdsTypes Utf16 Packet ColumnMetadata RowReader TokenParser.

(** [true]: the low bytes of the code units, "assumes ASCII range". *)
Fixpoint ReadUTF16LE (data : bytes) (ptr : Z) (char_count : nat) : res bytes :=
  match char_count with
  | O => Ok []
  | S n => c ← get8 data ptr; rest ← ReadUTF16LE data (ptr + 2) n; Ok (z2b c :: rest)
  end.

(** The index of the first byte with the token's value. *)
Definition FindToken (data : bytes) (token : Z) : option nat :=
  (list_find (fun b => b2z b = token) data) ≫= fun p => Some p.1.

Record LoginResponse : Type := mkLoginResponse {
  success : bool;
  spid : Z;
  server_name : bytes;
  database : bytes;
  tds_version : Z;
  error_message : bytes;
  error_number : Z;
  error_state : Z;
  negotiated_packet_size : Z;
  has_routing : bool;
  routed_server : bytes;
  routed_port : Z;
  has_fedauth_info : bool;
  sts_url : bytes;
  server_spn : bytes;
  has_sspi_token : bool;
  sspi_token : bytes;
  has_feature_ext_ack : bool;
  fedauth_acked : bool;
  utf8_support_acked : bool
}.

#[export] Instance LoginResponse_eq_dec : EqDecision LoginResponse.
Proof. solve_decision. Defined.

Definition new_response : LoginResponse :=
  mkLoginResponse false 0 [] [] 0 [] 0 0 TDS_DEFAULT_PACKET_SIZE false [] 0 false [] [] false [] false false false.

(** Assignments to groups of members. *)
Definition set_ack ok name version (r : LoginResponse) : LoginResponse :=
  mkLoginResponse ok (spid r) name (database r) version (error_message r) (error_number r) (error_state r)
    (negotiated_packet_size r) (has_routing r) (routed_server r) (routed_port r) (has_fedauth_info r)
    (sts_url r) (server_spn r) (has_sspi_token r) (sspi_token r) (has_feature_ext_ack r) (fedauth_acked r)
    (utf8_support_acked r).
Definition set_error ok msg num st (r : LoginResponse) : LoginResponse :=
  mkLoginResponse ok (spid r) (server_name r) (database r) (tds_version r) msg num st
    (negotiated_packet_size r) (has_routing r) (routed_server r) (routed_port r) (has_fedauth_info r)
    (sts_url r) (server_spn r) (has_sspi_token r) (sspi_token r) (has_feature_ext_ack r) (fedauth_acked r)
    (utf8_support_acked r).
Definition set_packet_size n (r : LoginResponse) : LoginResponse :=
  mkLoginResponse (success r) (spid r) (server_name r) (database r) (tds_version r) (error_message r)
    (error_number r) (error_state r) n (has_routing r) (routed_server r) (routed_port r) (has_fedauth_info r)
    (sts_url r) (server_spn r) (has_sspi_token r) (sspi_token r) (has_feature_ext_ack r) (fedauth_acked r)
    (utf8_support_acked r).
Definition set_routing h s p (r : LoginResponse) : LoginResponse :=
  mkLoginResponse (success r) (spid r) (server_name r) (database r) (tds_version r) (error_message r)
    (error_number r) (error_state r) (negotiated_packet_size r) h s p (has_fedauth_info r)
    (sts_url r) (server_spn r) (has_sspi_token r) (sspi_token r) (has_feature_ext_ack r) (fedauth_acked r)
    (utf8_support_acked r).
Definition set_fedauth h u s (r : LoginResponse) : LoginResponse :=
  mkLoginResponse (success r) (spid r) (server_name r) (database r) (tds_version r) (error_message r)
    (error_number r) (error_state r) (negotiated_packet_size r) (has_routing r) (routed_server r) (routed_port r)
    h u s (has_sspi_token r) (sspi_token r) (has_feature_ext_ack r) (fedauth_acked r) (utf8_support_acked r).
Definition set_sspi h t (r : LoginResponse) : LoginResponse :=
  mkLoginResponse (success r) (spid r) (server_name r) (database r) (tds_version r) (error_message r)
    (error_number r) (error_state r) (negotiated_packet_size r) (has_routing r) (routed_server r) (routed_port r)
    (has_fedauth_info r) (sts_url r) (server_spn r) h t (has_feature_ext_ack r) (fedauth_acked r)
    (utf8_support_acked r).
Definition set_features h f u (r : LoginResponse) : LoginResponse :=
  mkLoginResponse (success r) (spid r) (server_name r) (database r) (tds_version r) (error_message r)
    (error_number r) (error_state r) (negotiated_packet_size r) (has_routing r) (routed_server r) (routed_port r)
    (has_fedauth_info r) (sts_url r) (server_spn r) (has_sspi_token r) (sspi_token r) h f u.

(** A turn of the [while]: leave the loop, [return], or go on at [ptr]. *)
Inductive turn : Type :=
  | Break (r : LoginResponse)
  | Return (r : LoginResponse)
  | Next (ptr : Z) (r : LoginResponse).

(** ** [std::stoul], base 10, 64-bit [unsigned long]; [None]: it throws *)

Definition is_space (b : byte) : bool := (b2z b =? 32) || ((9 <=? b2z b) && (b2z b <=? 13)).
Definition is_digit (b : byte) : bool := (48 <=? b2z b) && (b2z b <=? 57).

Fixpoint drop_spaces (s : bytes) : bytes :=
  match s with b :: r => if is_space b then drop_spaces r else s | [] => [] end.

(** The value of the digits at the front. *)
Fixpoint digits (acc : Z) (s : bytes) : Z :=
  match s with b :: r => if is_digit b then digits (10 * acc + (b2z b - 48)) r else acc | [] => acc end.

Definition stoul (s : bytes) : option Z :=
  let s := drop_spaces s in
  let '(neg, s) :=
    match s with b :: r => if b2z b =? 45 then (true, r) else if b2z b =? 43 then (false, r) else (false, s)
               | [] => (false, s) end in
  match s with
  | b :: _ =>
      if is_digit b then
        let v := digits 0 s in
        if 2 ^ 64 <=? v then None else Some (if (neg : bool) then (- v) mod 2 ^ 64 else v)
      else None
  | [] => None
  end.

(** ** One token *)

Definition login_ack (data : bytes) (ptr : Z) (response : LoginResponse) : res turn :=
  let end_ := zlen data in
  if end_ <? ptr + 2 then Ok (Break response) else
  len ← get16le data ptr;
  let ptr := ptr + 2 in
  if end_ <? ptr + len then Ok (Break response) else
  let loginack_end := ptr + len in
  if 10 <=? len then
    version ← get32be data (ptr + 1);
    let ptr := ptr + 5 in
    name_len ← get8 data ptr;
    let ptr := ptr + 1 in
    name ← (if ptr + name_len * 2 <=? loginack_end then ReadUTF16LE data ptr (Z.to_nat name_len)
            else Ok (server_name response));
    Ok (Next loginack_end (set_ack true name version response))
  else Ok (Next loginack_end (set_ack true (server_name response) (tds_version response) response)).

Definition login_error (data : bytes) (ptr : Z) (response : LoginResponse) : res turn :=
  let end_ := zlen data in
  if end_ <? ptr + 2 then Ok (Break response) else
  len ← get16le data ptr;
  let ptr := ptr + 2 in
  if (end_ <? ptr + len) || (len <? 14) then Ok (Break response) else
  let token_end := ptr + len in
  number ← get32le data ptr;
  state ← get8 data (ptr + 4);
  let ptr := ptr + 6 in
  msg_len ← get16le data ptr;
  let ptr := ptr + 2 in
  msg ← (if ptr + msg_len * 2 <=? token_end then ReadUTF16LE data ptr (Z.to_nat msg_len)
         else Ok (error_message response));
  Ok (Return (set_error false msg number state response)).

Definition login_done (data : bytes) (ptr : Z) (response : LoginResponse) : res turn :=
  if ptr + 12 <=? zlen data then Ok (Next (ptr + 12) response) else Ok (Break response).

(** ENVCHANGE type 4, at [env_data] with [len] bytes. *)
Definition env_packet_size (data : bytes) (env_data len : Z) (response : LoginResponse) : res LoginResponse :=
  new_val_len ← get8 data (env_data + 1);
  if (0 <? new_val_len) && (2 + new_val_len * 2 <=? len) then
    packet_size_str ← ReadUTF16LE data (env_data + 2) (Z.to_nat new_val_len);
    match stoul packet_size_str with
    | Some parsed =>
        if (TDS_MIN_PACKET_SIZE <=? parsed) && (parsed <=? TDS_MAX_PACKET_SIZE)
        then Ok (set_packet_size parsed response) else Ok response
    | None => Ok response
    end
  else Ok response.

(** ENVCHANGE type 20; each [continue] leaves what was assigned so far. *)
Definition env_routing (data : bytes) (env_data len : Z) (response : LoginResponse) : res LoginResponse :=
  let routing_ptr := env_data + 1 in
  let routing_end := env_data + len in
  if routing_end <? routing_ptr + 2 then Ok response else
  value_len ← get16le data routing_ptr;
  let routing_ptr := routing_ptr + 2 in
  if routing_end <? routing_ptr + 1 then Ok response else
  protocol ← get8 data routing_ptr;
  let routing_ptr := routing_ptr + 1 in
  if negb (protocol =? 0) then Ok response else
  if routing_end <? routing_ptr + 2 then Ok response else
  port ← get16le data routing_ptr;
  let response := set_routing (has_routing response) (routed_server response) port response in
  let routing_ptr := routing_ptr + 2 in
  if routing_end <? routing_ptr + 2 then Ok response else
  server_len_chars ← get16le data routing_ptr;
  let routing_ptr := routing_ptr + 2 in
  if (routing_ptr + server_len_chars * 2 <=? routing_end) && (0 <? server_len_chars) then
    server ← ReadUTF16LE data routing_ptr (Z.to_nat server_len_chars);
    Ok (set_routing true server port response)
  else Ok response.

Definition login_envchange (data : bytes) (ptr : Z) (response : LoginResponse) : res turn :=
  let end_ := zlen data in
  if end_ <? ptr + 2 then Ok (Break response) else
  len ← get16le data ptr;
  let ptr := ptr + 2 in
  if end_ <? ptr + len then Ok (Break response) else
  if len =? 0 then Ok (Next ptr response) else
  env_type ← get8 data ptr;
  response ← (if (env_type =? 4) && (3 <=? len) then env_packet_size data ptr len response
              else if (env_type =? 20) && (7 <=? len) then env_routing data ptr len response
              else Ok response);
  Ok (Next (ptr + len) response).

Definition login_info (data : bytes) (ptr : Z) (response : LoginResponse) : res turn :=
  let end_ := zlen data in
  if end_ <? ptr + 2 then Ok (Break response) else
  len ← get16le data ptr;
  let ptr := ptr + 2 in
  if ptr + len <=? end_ then Ok (Next (ptr + len) response) else Ok (Break response).

(** The info entries: [fuel] is the count, or the number of entries there is
    room for. *)
Fixpoint fedauth_entries (fuel : nat) (data : bytes) (token_start token_len info_ptr : Z)
    (response : LoginResponse) : res LoginResponse :=
  match fuel with
  | O => Ok response
  | S fuel =>
      if token_start + token_len <? info_ptr + 9 then Ok response else
      info_id ← get8 data info_ptr;
      data_len ← get32le data (info_ptr + 1);
      data_offset ← get32le data (info_ptr + 5);
      response ← (if (data_offset <=? token_len) && (data_len <=? token_len - data_offset) then
                    let char_count := (data_len / 2) mod 65536 in
                    value ← ReadUTF16LE data (token_start + data_offset) (Z.to_nat char_count);
                    if info_id =? FEDAUTHINFO_OPT_STS_URL then
                      Ok (set_fedauth (has_fedauth_info response) value (server_spn response) response)
                    else if info_id =? FEDAUTHINFO_OPT_SPN then
                      Ok (set_fedauth (has_fedauth_info response) (sts_url response) value response)
                    else Ok response
                  else Ok response);
      fedauth_entries fuel data token_start token_len (info_ptr + 9) response
  end.

Definition login_fedauthinfo (data : bytes) (ptr : Z) (response : LoginResponse) : res turn :=
  let end_ := zlen data in
  if end_ <? ptr + 4 then Ok (Break response) else
  token_len ← get32le data ptr;
  let ptr := ptr + 4 in
  if (end_ <? ptr + token_len) || (token_len <? 4) then Ok (Break response) else
  count ← get32le data ptr;
  response ← fedauth_entries (Z.to_nat (Z.min count (token_len / 9 + 1))) data ptr token_len (ptr + 4) response;
  Ok (Next (ptr + token_len) (set_fedauth true (sts_url response) (server_spn response) response)).

Definition login_sspi (data : bytes) (ptr : Z) (response : LoginResponse) : res turn :=
  let end_ := zlen data in
  if end_ <? ptr + 2 then Ok (Break response) else
  blob_len ← get16le data ptr;
  let ptr := ptr + 2 in
  if end_ <? ptr + blob_len then Ok (Break response) else
  blob ← slice data ptr blob_len;
  Ok (Next (ptr + blob_len) (set_sspi true blob response)).

(** The acknowledgements; a turn steps over a byte at least. The result's offset
    is where the loop leaves [ptr]. *)
Fixpoint feature_acks (fuel : nat) (data : bytes) (ptr : Z) (response : LoginResponse)
    : res (Z * LoginResponse) :=
  match fuel with
  | O => Oob
  | S fuel =>
      let end_ := zlen data in
      if negb (ptr <? end_) then Ok (ptr, response) else
      feature_id ← get8 data ptr;
      let ptr := ptr + 1 in
      if feature_id =? FeatureExtId.TERMINATOR then Ok (ptr, response) else
      if end_ <? ptr + 4 then Ok (end_, response) else
      data_len ← get32le data ptr;
      let ptr := ptr + 4 in
      if (end_ - ptr) mod 4294967296 <? data_len then Ok (end_, response) else
      let response :=
        if feature_id =? FeatureExtId.FEDAUTH then
          set_features (has_feature_ext_ack response) true (utf8_support_acked response) response
        else if feature_id =? FeatureExtId.UTF8SUPPORT then
          set_features (has_feature_ext_ack response) (fedauth_acked response) true response
        else response in
      feature_acks fuel data (ptr + data_len) response
  end.

Definition login_features (data : bytes) (ptr : Z) (response : LoginResponse) : res turn :=
  '(ptr, response) ←
    feature_acks (S (length data)) data ptr
      (set_features true (fedauth_acked response) (utf8_support_acked response) response);
  Ok (Next ptr response).

Definition login_unknown (data : bytes) (ptr : Z) (response : LoginResponse) : res turn :=
  let end_ := zlen data in
  if ptr + 2 <=? end_ then
    len ← get16le data ptr;
    let ptr := ptr + 2 in
    Ok (Next (if (0 <? len) && (ptr + len <=? end_) then ptr + len else ptr) response)
  else Ok (Break response).

(** ** The loop *)

Definition done_types : list Z := [TokenType.DONE; TokenType.DONEPROC; TokenType.DONEINPROC].

Definition login_turn (data : bytes) (ptr : Z) (response : LoginResponse) : res turn :=
  token_type ← get8 data ptr;
  let ptr := ptr + 1 in
  if token_type =? TokenType.LOGINACK then login_ack data ptr response
  else if token_type =? TokenType.ERROR_TOKEN then login_error data ptr response
  else if is_one_of token_type done_types then login_done data ptr response
  else if token_type =? TokenType.ENVCHANGE then login_envchange data ptr response
  else if token_type =? TokenType.INFO then login_info data ptr response
  else if token_type =? TokenType.FEDAUTHINFO then login_fedauthinfo data ptr response
  else if token_type =? TokenType.SSPI then login_sspi data ptr response
  else if token_type =? TokenType.FEATUREEXTACK then login_features data ptr response
  else login_unknown data ptr response.

(** The message for a response that named neither success nor an error. *)
Definition no_loginack : bytes :=
  bs [78; 111; 32; 76; 79; 71; 73; 78; 65; 67; 75; 32; 116; 111; 107; 101; 110; 32; 105; 110; 32;
      114; 101; 115; 112; 111; 110; 115; 101].
Definition empty_response : bytes :=
  bs [69; 109; 112; 116; 121; 32; 76; 79; 71; 73; 78; 32; 114; 101; 115; 112; 111; 110; 115; 101].

Definition login_finish (response : LoginResponse) : LoginResponse :=
  if negb (success response) && bool_decide (error_message response = [])
  then set_error false no_loginack (error_number response) (error_state response) response
  else response.

(** Every turn steps over a byte at least. *)
Fixpoint login_loop (fuel : nat) (data : bytes) (ptr : Z) (response : LoginResponse) : res LoginResponse :=
  match fuel with
  | O => Oob
  | S fuel =>
      if negb (ptr <? zlen data) then Ok (login_finish response) else
      t ← login_turn data ptr response;
      match t with
      | Break response => Ok (login_finish response)
      | Return response => Ok response
      | Next ptr response => login_loop fuel data ptr response
      end
  end.

Definition ParseLoginResponse (data : bytes) : res LoginResponse :=
  match data with
  | [] => Ok (set_error false empty_response 0 0 new_response)
  | _ => login_loop (S (length data)) data 0 new_response
  end.

(** ** The small scanners *)

(** [else { skip a token with a two-byte length }]: [None] is the [break]. *)
Definition skip_token (data : bytes) (ptr : Z) : res (option Z) :=
  if ptr + 2 <=? zlen data then
    len ← get16le data ptr;
    let ptr := ptr + 2 in
    if ptr + len <=? zlen data then Ok (Some (ptr + len)) else Ok None
  else Ok None.

Fixpoint attention_loop (fuel : nat) (data : bytes) (ptr : Z) : res bool :=
  match fuel with
  | O => Oob
  | S fuel =>
      if negb (ptr <? zlen data) then Ok false else
      token ← get8 data ptr;
      let ptr := ptr + 1 in
      if is_one_of token done_types then
        if ptr + 12 <=? zlen data then
          status ← get16le data ptr;
          if negb (Z.land status DoneStatus.DONE_ATTN =? 0) then Ok true
          else attention_loop fuel data (ptr + 12)
        else Ok false
      else
        next ← skip_token data ptr;
        match next with Some ptr => attention_loop fuel data ptr | None => Ok false end
  end.

Definition ParseDoneForAttentionAck (data : bytes) : res bool :=
  attention_loop (S (length data)) data 0.

Fixpoint success_loop (fuel : nat) (data : bytes) (ptr : Z) : res bool :=
  match fuel with
  | O => Oob
  | S fuel =>
      if negb (ptr <? zlen data) then Ok true else
      token ← get8 data ptr;
      let ptr := ptr + 1 in
      if is_one_of token done_types then
        if ptr + 2 <=? zlen data then
          status ← get16le data ptr;
          Ok (Z.land status DoneStatus.DONE_ERROR =? 0)
        else Ok true
      else
        next ← skip_token data ptr;
        match next with Some ptr => success_loop fuel data ptr | None => Ok true end
  end.

Definition IsSuccessResponse (data : bytes) : res bool :=
  if existsb (fun b => b2z b =? TokenType.ERROR_TOKEN) data then Ok false
  else success_loop (S (length data)) data 0.

Fixpoint error_loop (fuel : nat) (data : bytes) (ptr : Z) : res bytes :=
  match fuel with
  | O => Oob
  | S fuel =>
      if negb (ptr <? zlen data) then Ok [] else
      token ← get8 data ptr;
      let ptr := ptr + 1 in
      if token =? TokenType.ERROR_TOKEN then
        if zlen data <? ptr + 2 then Ok [] else
        len ← get16le data ptr;
        let ptr := ptr + 2 in
        if (zlen data <? ptr + len) || (len <? 10) then Ok [] else
        let ptr := ptr + 6 in
        msg_len ← get16le data ptr;
        let ptr := ptr + 2 in
        if ptr + msg_len * 2 <=? zlen data then ReadUTF16LE data ptr (Z.to_nat msg_len) else Ok []
      else
        next ← skip_token data ptr;
        match next with Some ptr => error_loop fuel data ptr | None => Ok [] end
  end.

Definition ExtractErrorMessage (data : bytes) : res bytes := error_loop (S (length data)) data 0.

(** ** Safety *)

Lemma ReadUTF16LE_safe data ptr n Q :
  0 <= ptr -> ptr + 2 * Z.of_nat n <= zlen data -> (forall s, Q s) -> holds (ReadUTF16LE data ptr n) Q.
Proof.
  intros H0 Hl HQ. eapply holds_mono; [|intros s _; apply HQ]. clear Q HQ. instantiate (1 := fun _ => True).
  revert ptr H0 Hl. induction n as [|n IH]; intros ptr H0 Hl; [done|]. cbn [ReadUTF16LE].
  apply holds_bind, holds_get8; [lia|]. intros c _. apply holds_bind.
  eapply holds_mono; [apply IH; lia|done].
Qed.

(** What is always true of a response. *)
Definition response_ok (r : LoginResponse) : Prop :=
  TDS_MIN_PACKET_SIZE <= negotiated_packet_size r <= TDS_MAX_PACKET_SIZE /\
  0 <= routed_port r < 65536 /\ (has_routing r = true -> routed_server r <> []) /\
  zlen (sspi_token r) < 65536 /\ (has_sspi_token r = false -> sspi_token r = []) /\
  0 <= error_number r < 4294967296 /\ 0 <= error_state r < 256 /\ 0 <= tds_version r < 4294967296.

Definition turn_ok (data : bytes) (ptr : Z) (t : turn) : Prop :=
  match t with
  | Break r | Return r => response_ok r
  | Next ptr' r => response_ok r /\ ptr <= ptr' <= zlen data
  end.

Lemma new_response_ok : response_ok new_response.
Proof. repeat split; done. Qed.

Ltac rok := repeat match goal with H : response_ok _ |- _ => destruct H as (? & ? & ? & ? & ? & ? & ? & ?) end;
  repeat split; simpl in *; try done; try lia.

Lemma ReadUTF16LE_nonempty data ptr n s :
  ReadUTF16LE data ptr n = Ok s -> (0 < n)%nat -> s <> [].
Proof.
  destruct n as [|n]; [lia|]. cbn [ReadUTF16LE]. intros (c & _ & E)%bind_Ok.
  apply bind_Ok in E as (l & _ & E). by injection E as <-.
Qed.

Lemma login_ack_safe data ptr r :
  response_ok r -> 0 <= ptr <= zlen data -> holds (login_ack data ptr r) (turn_ok data ptr).
Proof.
  intros Hr Hp. unfold login_ack. cbv zeta. destruct (Z.ltb_spec (zlen data) (ptr + 2)); [done|].
  apply holds_bind, holds_get16le; [lia..|]. intros len Hlen.
  destruct (Z.ltb_spec (zlen data) (ptr + 2 + len)); [done|]. destruct (Z.leb_spec 10 len); [|simpl; split; [rok|lia]].
  apply holds_bind, holds_get32be; [lia..|]. intros v Hv. apply holds_bind, holds_get8; [lia|]. intros nl Hnl.
  apply holds_bind. destruct (Z.leb_spec (ptr + 2 + 5 + 1 + nl * 2) (ptr + 2 + len)).
  - apply ReadUTF16LE_safe; [lia..|]. intros name. simpl. split; [rok|lia].
  - simpl. split; [rok|lia].
Qed.

Lemma login_error_safe data ptr r :
  response_ok r -> 0 <= ptr <= zlen data -> holds (login_error data ptr r) (turn_ok data ptr).
Proof.
  intros Hr Hp. unfold login_error. cbv zeta. destruct (Z.ltb_spec (zlen data) (ptr + 2)); [done|].
  apply holds_bind, holds_get16le; [lia..|]. intros len Hlen.
  destruct (Z.ltb_spec (zlen data) (ptr + 2 + len)); [done|]. destruct (Z.ltb_spec len 14); [done|]. simpl orb.
  cbv iota. apply holds_bind, holds_get32le; [lia..|]. intros num Hn. apply holds_bind, holds_get8; [lia|]. intros st Hst.
  apply holds_bind, holds_get16le; [lia..|]. intros ml Hml. apply holds_bind.
  destruct (Z.leb_spec (ptr + 2 + 6 + 2 + ml * 2) (ptr + 2 + len)).
  - apply ReadUTF16LE_safe; [lia..|]. intros msg. simpl. rok.
  - simpl. rok.
Qed.

Lemma env_packet_size_safe data ptr len r :
  response_ok r -> 0 <= ptr -> 3 <= len -> ptr + len <= zlen data ->
  holds (env_packet_size data ptr len r) response_ok.
Proof.
  intros Hr Hp Hl He. unfold env_packet_size. apply holds_bind, holds_get8; [lia|]. intros nl Hnl.
  destruct (Z.ltb_spec 0 nl); [|done]. destruct (Z.leb_spec (2 + nl * 2) len); [|done]. simpl andb. cbv iota.
  apply holds_bind. apply ReadUTF16LE_safe; [lia..|]. intros s. destruct (stoul s) as [v|]; [|done].
  destruct ((TDS_MIN_PACKET_SIZE <=? v) && (v <=? TDS_MAX_PACKET_SIZE)) eqn:E; [|done].
  apply andb_true_iff in E as [? ?]. simpl. rok.
Qed.

Lemma env_routing_safe data ptr len r :
  response_ok r -> 0 <= ptr -> 7 <= len -> ptr + len <= zlen data ->
  holds (env_routing data ptr len r) response_ok.
Proof.
  intros Hr Hp Hl He. unfold env_routing. cbv zeta. apply holds_if; intros ?; [done|].
  apply holds_bind, holds_get16le; [lia..|]. intros vl _. apply holds_if; intros ?; [done|].
  apply holds_bind, holds_get8; [lia|]. intros proto _. apply holds_if; intros ?; [done|].
  apply holds_if; intros ?; [done|]. apply holds_bind, holds_get16le; [lia..|]. intros port Hport.
  apply holds_if; intros ?; [simpl; rok|]. apply holds_bind, holds_get16le; [lia..|]. intros sl Hsl.
  apply holds_if; [intros [E1 E2]%andb_true_iff|intros _; simpl; rok].
  assert (Hs : holds (ReadUTF16LE data (ptr + 1 + 2 + 1 + 2 + 2) (Z.to_nat sl)) (fun s => s <> [])).
  { pose proof (ReadUTF16LE_safe data (ptr + 1 + 2 + 1 + 2 + 2) (Z.to_nat sl) (fun _ => True)) as Hsafe.
    destruct (ReadUTF16LE _ _ _) as [s| |] eqn:E; simpl; [|done|apply Hsafe; [lia..|done]].
    eapply ReadUTF16LE_nonempty; [exact E|lia]. }
  apply holds_bind. eapply holds_mono; [exact Hs|]. intros s Hne. simpl. rok.
Qed.

Lemma login_envchange_safe data ptr r :
  response_ok r -> 0 <= ptr <= zlen data -> holds (login_envchange data ptr r) (turn_ok data ptr).
Proof.
  intros Hr Hp. unfold login_envchange. cbv zeta. destruct (Z.ltb_spec (zlen data) (ptr + 2)); [done|].
  apply holds_bind, holds_get16le; [lia..|]. intros len Hlen.
  destruct (Z.ltb_spec (zlen data) (ptr + 2 + len)); [done|]. destruct (Z.eqb_spec len 0); [simpl; split; [done|lia]|].
  apply holds_bind, holds_get8; [lia|]. intros ty _. apply holds_bind.
  eapply (holds_mono _ response_ok); [|intros r' Hr'; simpl; split; [done|lia]].
  apply holds_if; [intros [_ E]%andb_true_iff; apply env_packet_size_safe; done || lia|]. intros _.
  apply holds_if; [intros [_ E]%andb_true_iff; apply env_routing_safe; done || lia|]. done.
Qed.

Lemma fedauth_entries_safe fuel data start len info r :
  response_ok r -> 0 <= start <= info -> 0 <= len -> start + len <= zlen data ->
  holds (fedauth_entries fuel data start len info r) response_ok.
Proof.
  revert info r. induction fuel as [|fuel IH]; intros info r Hr Hs Hl He; [done|]. cbn [fedauth_entries].
  destruct (Z.ltb_spec (start + len) (info + 9)); [done|].
  apply holds_bind, holds_get8; [lia|]. intros id _. apply holds_bind, holds_get32le; [lia..|]. intros dl Hdl.
  apply holds_bind, holds_get32le; [lia..|]. intros off Hoff. apply holds_bind.
  eapply (holds_mono _ response_ok); [|intros r' Hr'; apply IH; done || lia].
  apply holds_if; [intros [E1 E2]%andb_true_iff|done]. cbv zeta. apply holds_bind.
  assert (0 <= (dl / 2) mod 65536) by (apply Z.mod_pos_bound; lia).
  assert (2 * ((dl / 2) mod 65536) <= dl).
  { assert ((dl / 2) mod 65536 <= dl / 2) by (apply Z.mod_le; zlia). zlia. }
  apply ReadUTF16LE_safe; [lia| |].
  - rewrite Z2Nat.id by lia. lia.
  - intros s. destruct (id =? _); [simpl; rok|]. destruct (id =? _); [simpl; rok|done].
Qed.

Lemma login_fedauthinfo_safe data ptr r :
  response_ok r -> 0 <= ptr <= zlen data -> holds (login_fedauthinfo data ptr r) (turn_ok data ptr).
Proof.
  intros Hr Hp. unfold login_fedauthinfo. cbv zeta. destruct (Z.ltb_spec (zlen data) (ptr + 4)); [done|].
  apply holds_bind, holds_get32le; [lia..|]. intros len Hlen.
  destruct (Z.ltb_spec (zlen data) (ptr + 4 + len)); [done|]. destruct (Z.ltb_spec len 4); [done|]. simpl orb. cbv iota.
  apply holds_bind, holds_get32le; [lia..|]. intros count Hc. apply holds_bind.
  eapply holds_mono; [apply fedauth_entries_safe; done || lia|]. intros r' Hr'. simpl. split; [rok|lia].
Qed.

Lemma login_sspi_safe data ptr r :
  response_ok r -> 0 <= ptr <= zlen data -> holds (login_sspi data ptr r) (turn_ok data ptr).
Proof.
  intros Hr Hp. unfold login_sspi. cbv zeta. destruct (Z.ltb_spec (zlen data) (ptr + 2)); [done|].
  apply holds_bind, holds_get16le; [lia..|]. intros len Hlen.
  destruct (Z.ltb_spec (zlen data) (ptr + 2 + len)); [done|].
  apply holds_bind, holds_slice; [lia..|]. intros blob Hb. simpl. split; [rok|lia].
Qed.

Lemma feature_acks_safe fuel data ptr r :
  response_ok r -> 0 <= ptr <= zlen data -> zlen data - ptr < Z.of_nat fuel ->
  holds (feature_acks fuel data ptr r) (fun '(ptr', r') => response_ok r' /\ ptr <= ptr' <= zlen data).
Proof.
  revert ptr r. induction fuel as [|fuel IH]; intros ptr r Hr Hp Hf; [lia|]. cbn [feature_acks]. cbv zeta.
  destruct (Z.ltb_spec ptr (zlen data)); [|simpl; split; [done|lia]]. simpl negb. cbv iota.
  apply holds_bind, holds_get8; [lia|]. intros id _. destruct (id =? _); [simpl; split; [done|lia]|].
  destruct (Z.ltb_spec (zlen data) (ptr + 1 + 4)); [simpl; split; [done|lia]|].
  apply holds_bind, holds_get32le; [lia..|]. intros len Hlen.
  destruct (Z.ltb_spec ((zlen data - (ptr + 1 + 4)) mod 4294967296) len); [simpl; split; [done|lia]|].
  assert ((zlen data - (ptr + 1 + 4)) mod 4294967296 <= zlen data - (ptr + 1 + 4)) by (apply Z.mod_le; lia).
  eapply holds_mono; [apply IH; [|lia|lia]|intros [p' r']; intros [? ?]; split; [done|lia]].
  destruct (id =? _); [rok|]. destruct (id =? _); [rok|done].
Qed.

Lemma login_turn_safe data ptr r :
  response_ok r -> 0 <= ptr < zlen data ->
  holds (login_turn data ptr r) (turn_ok data (ptr + 1)).
Proof.
  intros Hr Hp. unfold login_turn. apply holds_bind, holds_get8; [lia|]. intros t _. cbv zeta.
  destruct (t =? _); [apply login_ack_safe; done || lia|]. destruct (t =? _); [apply login_error_safe; done || lia|].
  destruct (is_one_of t _).
  { unfold login_done. destruct (Z.leb_spec (ptr + 1 + 12) (zlen data)); simpl; [split; [done|lia]|done]. }
  destruct (t =? _); [apply login_envchange_safe; done || lia|].
  destruct (t =? _).
  { unfold login_info. cbv zeta. destruct (Z.ltb_spec (zlen data) (ptr + 1 + 2)); [done|].
    apply holds_bind, holds_get16le; [lia..|]. intros len Hlen.
    destruct (Z.leb_spec (ptr + 1 + 2 + len) (zlen data)); simpl; [split; [done|lia]|done]. }
  destruct (t =? _); [apply login_fedauthinfo_safe; done || lia|].
  destruct (t =? _); [apply login_sspi_safe; done || lia|].
  destruct (t =? _).
  { unfold login_features. apply holds_bind. eapply holds_mono; [apply feature_acks_safe; [rok|lia|unfold zlen; lia]|].
    intros [p' r'] H. simpl. done. }
  unfold login_unknown. cbv zeta. destruct (Z.leb_spec (ptr + 1 + 2) (zlen data)); [|done].
  apply holds_bind, holds_get16le; [lia..|]. intros len Hlen. simpl. split; [done|].
  destruct ((0 <? len) && (ptr + 1 + 2 + len <=? zlen data)) eqn:E; [|lia]. apply andb_true_iff in E as [? ?]. lia.
Qed.

Lemma login_finish_ok r : response_ok r -> response_ok (login_finish r).
Proof. intros Hr. unfold login_finish. destruct (_ && _); [|done]. rok. Qed.

Lemma login_loop_safe fuel data ptr r :
  response_ok r -> 0 <= ptr <= zlen data -> zlen data - ptr < Z.of_nat fuel ->
  holds (login_loop fuel data ptr r) response_ok.
Proof.
  revert ptr r. induction fuel as [|fuel IH]; intros ptr r Hr Hp Hf; [lia|]. cbn [login_loop].
  destruct (Z.ltb_spec ptr (zlen data)); [|simpl; by apply login_finish_ok]. simpl negb. cbv iota.
  apply holds_bind. eapply holds_mono; [apply login_turn_safe; done || lia|].
  intros [r'|r'|p' r'] Ht; simpl in Ht; [by apply login_finish_ok|done|]. apply IH; [apply Ht|lia|lia].
Qed.

(** ** A login response, token by token *)

(** The low bytes of UTF-16 text. *)
Fixpoint low_bytes (s : bytes) : bytes :=
  match s with b :: _ :: r => b :: low_bytes r | _ => [] end.

(** One token that is not an error, and what it does to the response. *)
Inductive login_token : bytes -> (LoginResponse -> LoginResponse) -> Prop :=
  | lt_ack l0 l1 interface v0 v1 v2 v3 n name prog_version :
      zlen (interface :: v0 :: v1 :: v2 :: v3 :: n :: name ++ prog_version) = le16 l0 l1 ->
      zlen name = 2 * b2z n -> zlen prog_version = 4 ->
      login_token (z2b TokenType.LOGINACK :: l0 :: l1 :: interface :: v0 :: v1 :: v2 :: v3 :: n :: name ++ prog_version)
        (set_ack true (low_bytes name) (le32 v3 v2 v1 v0))
  | lt_packet_size l0 l1 n text old v :
      zlen (z2b 4 :: n :: text ++ old) = le16 l0 l1 -> zlen text = 2 * b2z n -> 0 < b2z n ->
      stoul (low_bytes text) = Some v ->
      login_token (z2b TokenType.ENVCHANGE :: l0 :: l1 :: z2b 4 :: n :: text ++ old)
        (if (TDS_MIN_PACKET_SIZE <=? v) && (v <=? TDS_MAX_PACKET_SIZE) then set_packet_size v else id)
  | lt_routing l0 l1 v0 v1 p0 p1 s0 s1 server old :
      zlen (z2b 20 :: v0 :: v1 :: z2b 0 :: p0 :: p1 :: s0 :: s1 :: server ++ old) = le16 l0 l1 ->
      zlen server = 2 * le16 s0 s1 -> 0 < le16 s0 s1 ->
      login_token (z2b TokenType.ENVCHANGE :: l0 :: l1 :: z2b 20 :: v0 :: v1 :: z2b 0 :: p0 :: p1 :: s0 :: s1 :: server ++ old)
        (set_routing true (low_bytes server) (le16 p0 p1))
  | lt_env l0 l1 t body :
      zlen (t :: body) = le16 l0 l1 -> b2z t <> 4 -> b2z t <> 20 ->
      login_token (z2b TokenType.ENVCHANGE :: l0 :: l1 :: t :: body) id
  | lt_info l0 l1 body :
      zlen body = le16 l0 l1 -> login_token (z2b TokenType.INFO :: l0 :: l1 :: body) id
  | lt_done t body :
      b2z t ∈ done_types -> zlen body = 12 -> login_token (t :: body) id
  | lt_sspi l0 l1 blob :
      zlen blob = le16 l0 l1 -> login_token (z2b TokenType.SSPI :: l0 :: l1 :: blob) (set_sspi true blob)
  | lt_features acks f :
      feature_list acks f ->
      login_token (z2b TokenType.FEATUREEXTACK :: acks)
        (fun r => f (set_features true (fedauth_acked r) (utf8_support_acked r) r))
(** The acknowledgements, up to the terminator. *)
with feature_list : bytes -> (LoginResponse -> LoginResponse) -> Prop :=
  | fl_end : feature_list [z2b FeatureExtId.TERMINATOR] id
  | fl_fedauth d0 d1 d2 d3 body acks f :
      zlen body = le32 d0 d1 d2 d3 -> feature_list acks f ->
      feature_list (z2b FeatureExtId.FEDAUTH :: d0 :: d1 :: d2 :: d3 :: body ++ acks)
        (fun r => f (set_features (has_feature_ext_ack r) true (utf8_support_acked r) r))
  | fl_utf8 d0 d1 d2 d3 body acks f :
      zlen body = le32 d0 d1 d2 d3 -> feature_list acks f ->
      feature_list (z2b FeatureExtId.UTF8SUPPORT :: d0 :: d1 :: d2 :: d3 :: body ++ acks)
        (fun r => f (set_features (has_feature_ext_ack r) (fedauth_acked r) true r))
  | fl_other id_ d0 d1 d2 d3 body acks f :
      b2z id_ ∉ [FeatureExtId.TERMINATOR; FeatureExtId.FEDAUTH; FeatureExtId.UTF8SUPPORT] ->
      zlen body = le32 d0 d1 d2 d3 -> feature_list acks f ->
      feature_list (id_ :: d0 :: d1 :: d2 :: d3 :: body ++ acks) f.

(** A whole response, from the object it starts with to the one it ends with;
    an ERROR token ends the scan. *)
Inductive login_stream : bytes -> LoginResponse -> LoginResponse -> Prop :=
  | ls_end r : login_stream [] r (login_finish r)
  | ls_token w f rest r r' :
      login_token w f -> login_stream rest (f r) r' -> login_stream (w ++ rest) r r'
  | ls_error l0 l1 n0 n1 n2 n3 st cl m0 m1 msg body rest r :
      zlen (n0 :: n1 :: n2 :: n3 :: st :: cl :: m0 :: m1 :: msg ++ body) = le16 l0 l1 ->
      14 <= le16 l0 l1 -> zlen msg = 2 * le16 m0 m1 ->
      login_stream (z2b TokenType.ERROR_TOKEN :: l0 :: l1 :: n0 :: n1 :: n2 :: n3 :: st :: cl :: m0 :: m1 :: msg ++ body ++ rest)
        r (set_error false (low_bytes msg) (le32 n0 n1 n2 n3) (b2z st) r).

Lemma ReadUTF16LE_cursor n data ptr s r :
  cursor data ptr (s ++ r) -> zlen s = 2 * Z.of_nat n -> ReadUTF16LE data ptr n = Ok (low_bytes s).
Proof.
  revert ptr s. induction n as [|n IH]; intros ptr s Hc Hs.
  - by rewrite (zlen_0_nil s) by lia.
  - destruct s as [|b [|b' s]]; [rewrite zlen_nil in Hs; lia|rewrite zlen_cons, zlen_nil in Hs; lia|].
    rewrite !zlen_cons in Hs. simpl app in Hc. apply cursor_cons in Hc as [E Hc]. apply cursor_cons in Hc as [_ Hc].
    cbn [ReadUTF16LE low_bytes]. rewrite E. cbn [mbind res_bind].
    replace (ptr + 2) with (ptr + 1 + 1) by lia. rewrite (IH _ s Hc) by lia. simpl. by rewrite z2b_b2z.
Qed.

Lemma cursor_get32be data off b0 b1 b2 b3 r :
  cursor data off (b0 :: b1 :: b2 :: b3 :: r) ->
  get32be data off = Ok (le32 b3 b2 b1 b0) /\ cursor data (off + 4) r.
Proof.
  intros [E0 H1]%cursor_cons. apply cursor_cons in H1 as [E1 H2].
  apply cursor_cons in H2 as [E2 H3]. apply cursor_cons in H3 as [E3 H4].
  replace (off + 4) with (off + 1 + 1 + 1 + 1) by lia. split; [|done].
  rewrite get32be_eq, E0. simpl. rewrite E1. simpl.
  replace (off + 2) with (off + 1 + 1) by lia. rewrite E2. simpl.
  replace (off + 3) with (off + 1 + 1 + 1) by lia. rewrite E3. simpl. f_equal. unfold le32. lia.
Qed.

(** Offsets that are sums of small numbers, added up. *)
Ltac norm_off Hc :=
  repeat match type of Hc with
  | cursor ?d (?o + ?a + ?b) ?r => apply (cursor_eq d _ (o + (a + b)) r) in Hc; [|lia];
      let n := eval vm_compute in (a + b) in change (a + b) with n in Hc
  end.

Lemma login_ack_token data ptr r l0 l1 interface v0 v1 v2 v3 n name prog_version rest :
  cursor data ptr (l0 :: l1 :: interface :: v0 :: v1 :: v2 :: v3 :: n :: name ++ prog_version ++ rest) ->
  zlen (interface :: v0 :: v1 :: v2 :: v3 :: n :: name ++ prog_version) = le16 l0 l1 ->
  zlen name = 2 * b2z n -> zlen prog_version = 4 ->
  login_ack data ptr r = Ok (Next (ptr + 2 + le16 l0 l1) (set_ack true (low_bytes name) (le32 v3 v2 v1 v0) r)).
Proof.
  intros Hc Hl Hn Hp. pose proof (cursor_len _ _ _ Hc) as Hlen.
  rewrite !zlen_cons, !zlen_app in Hlen. rewrite !zlen_cons, zlen_app in Hl. pose proof (zlen_nonneg rest).
  pose proof (zlen_nonneg name). unfold login_ack. cbv zeta.
  replace (_ <? _) with false by lia. apply cursor_get16le in Hc as [-> Hc]. cbn [mbind res_bind].
  replace (_ <? _) with false by lia. replace (10 <=? _) with true by lia.
  apply cursor_cons in Hc as [_ Hc]. apply cursor_get32be in Hc as [-> Hc]. cbn [mbind res_bind].
  apply (cursor_eq _ _ (ptr + 2 + 5)) in Hc; [|lia].
  apply cursor_cons in Hc as [-> Hc]. cbn [mbind res_bind].
  replace (_ <=? _) with true by lia.
  rewrite (ReadUTF16LE_cursor _ _ _ name (prog_version ++ rest)) by (done || lia). done.
Qed.

Lemma env_packet_size_token data ptr r n text old rest len v :
  cursor data ptr (z2b 4 :: n :: text ++ old ++ rest) -> len = 2 + zlen text + zlen old ->
  zlen text = 2 * b2z n -> 0 < b2z n -> stoul (low_bytes text) = Some v ->
  env_packet_size data ptr len r
  = Ok ((if (TDS_MIN_PACKET_SIZE <=? v) && (v <=? TDS_MAX_PACKET_SIZE) then set_packet_size v else id) r).
Proof.
  intros Hc -> Ht Hn Hv. pose proof (zlen_nonneg old). unfold env_packet_size.
  apply cursor_cons in Hc as [_ Hc]. apply cursor_cons in Hc as [-> Hc]. cbn [mbind res_bind].
  replace (0 <? b2z n) with true by lia. replace (_ <=? _) with true by lia. simpl andb. cbv iota.
  apply (cursor_eq _ _ (ptr + 2)) in Hc; [|lia].
  rewrite (ReadUTF16LE_cursor _ _ _ text (old ++ rest)) by (done || lia). cbn [mbind res_bind]. rewrite Hv.
  by destruct ((TDS_MIN_PACKET_SIZE <=? v) && (v <=? TDS_MAX_PACKET_SIZE)).
Qed.

Lemma env_routing_token data ptr r v0 v1 p0 p1 s0 s1 server old rest len :
  cursor data ptr (z2b 20 :: v0 :: v1 :: z2b 0 :: p0 :: p1 :: s0 :: s1 :: server ++ old ++ rest) ->
  len = 8 + zlen server + zlen old -> zlen server = 2 * le16 s0 s1 -> 0 < le16 s0 s1 ->
  env_routing data ptr len r = Ok (set_routing true (low_bytes server) (le16 p0 p1) r).
Proof.
  intros Hc -> Hs H0. pose proof (zlen_nonneg old). unfold env_routing. cbv zeta.
  apply cursor_cons in Hc as [_ Hc]. replace (_ <? _) with false by lia.
  apply cursor_get16le in Hc as [-> Hc]. cbn [mbind res_bind]. replace (_ <? _) with false by lia.
  apply cursor_cons in Hc as [-> Hc]. cbn [mbind res_bind]. change (b2z (z2b 0) =? 0) with true. simpl negb. cbv iota.
  replace (_ <? _) with false by lia. apply cursor_get16le in Hc as [-> Hc]. cbn [mbind res_bind].
  replace (_ <? _) with false by lia. apply cursor_get16le in Hc as [-> Hc]. cbn [mbind res_bind].
  replace (_ <=? _) with true by lia. replace (0 <? _) with true by lia. simpl andb. cbv iota.
  rewrite (ReadUTF16LE_cursor _ _ _ server (old ++ rest)) by (done || lia). done.
Qed.

Lemma feature_acks_token acks f : feature_list acks f -> forall fuel data ptr r rest,
  cursor data ptr (acks ++ rest) -> zlen data < 4294967296 -> zlen acks <= Z.of_nat fuel ->
  feature_acks fuel data ptr r = Ok (ptr + zlen acks, f r).
Proof.
  induction 1 as [|d0 d1 d2 d3 body acks f Hb Hl IH|d0 d1 d2 d3 body acks f Hb Hl IH|id_ d0 d1 d2 d3 body acks f Hid Hb Hl IH];
    intros fuel data ptr r rest Hc Hd Hf;
    (destruct fuel as [|fuel]; [rewrite zlen_cons in Hf; match type of Hf with context [zlen ?l] => pose proof (zlen_nonneg l) end; lia|]);
    pose proof (cursor_len _ _ _ Hc) as Hlen; pose proof (proj1 (proj1 Hc)) as Hp0; cbn [feature_acks]; cbv zeta; simpl app in Hc, Hlen.
  - rewrite zlen_cons in Hlen. pose proof (zlen_nonneg rest). replace (ptr <? zlen data) with true by lia.
    simpl negb. cbv iota. by apply cursor_cons in Hc as [-> Hc].
  - rewrite !zlen_cons, zlen_app in Hf. rewrite <- app_assoc in Hlen, Hc. rewrite !zlen_cons, !zlen_app in Hlen.
    pose proof (zlen_nonneg rest). pose proof (zlen_nonneg body). pose proof (zlen_nonneg acks).
    replace (ptr <? zlen data) with true by lia.
    simpl negb. cbv iota. apply cursor_cons in Hc as [-> Hc]. cbn [mbind res_bind].
    change (_ =? FeatureExtId.TERMINATOR) with false. cbv iota. replace (_ <? _) with false by lia.
    apply cursor_get32le in Hc as [-> Hc]. cbn [mbind res_bind]. rewrite Z.mod_small by lia.
    replace (_ <? _) with false by lia. change (_ =? FeatureExtId.FEDAUTH) with true. cbv iota.
    apply cursor_app in Hc. rewrite Hb in Hc. rewrite (IH fuel data _ _ rest Hc) by lia.
    rewrite !zlen_cons, zlen_app. do 2 f_equal. lia.
  - rewrite !zlen_cons, zlen_app in Hf. rewrite <- app_assoc in Hlen, Hc. rewrite !zlen_cons, !zlen_app in Hlen.
    pose proof (zlen_nonneg rest). pose proof (zlen_nonneg body). pose proof (zlen_nonneg acks).
    replace (ptr <? zlen data) with true by lia.
    simpl negb. cbv iota. apply cursor_cons in Hc as [-> Hc]. cbn [mbind res_bind].
    change (_ =? FeatureExtId.TERMINATOR) with false. cbv iota. replace (_ <? _) with false by lia.
    apply cursor_get32le in Hc as [-> Hc]. cbn [mbind res_bind]. rewrite Z.mod_small by lia.
    replace (_ <? _) with false by lia. change (_ =? FeatureExtId.FEDAUTH) with false.
    change (_ =? FeatureExtId.UTF8SUPPORT) with true. cbv iota.
    apply cursor_app in Hc. rewrite Hb in Hc. rewrite (IH fuel data _ _ rest Hc) by lia.
    rewrite !zlen_cons, zlen_app. do 2 f_equal. lia.
  - rewrite !zlen_cons, zlen_app in Hf. rewrite <- app_assoc in Hlen, Hc. rewrite !zlen_cons, !zlen_app in Hlen.
    pose proof (zlen_nonneg rest). pose proof (zlen_nonneg body). pose proof (zlen_nonneg acks).
    rewrite !not_elem_of_cons in Hid. destruct Hid as (I1 & I2 & I3 & _).
    replace (ptr <? zlen data) with true by lia.
    simpl negb. cbv iota. apply cursor_cons in Hc as [-> Hc]. cbn [mbind res_bind].
    apply Z.eqb_neq in I1, I2, I3. rewrite I1, I2, I3. replace (_ <? _) with false by lia.
    apply cursor_get32le in Hc as [-> Hc]. cbn [mbind res_bind]. rewrite Z.mod_small by lia.
    replace (_ <? _) with false by lia.
    apply cursor_app in Hc. rewrite Hb in Hc. rewrite (IH fuel data _ _ rest Hc) by lia.
    rewrite !zlen_cons, zlen_app. do 2 f_equal. lia.
Qed.

(** Resolve the tests on a token byte that is a constant. *)
Ltac pick_token :=
  repeat match goal with
  | |- context [is_one_of (b2z (z2b ?a)) ?l] =>
      let v := eval vm_compute in (is_one_of (b2z (z2b a)) l) in change (is_one_of (b2z (z2b a)) l) with v
  | |- context [b2z (z2b ?a) =? ?b] =>
      let v := eval vm_compute in (b2z (z2b a) =? b) in change (b2z (z2b a) =? b) with v
  end; cbv iota.

(** A token at the start of a turn takes the loop to the token after it. *)
Lemma login_turn_token w f : login_token w f -> forall data ptr r rest,
  cursor data ptr (w ++ rest) -> zlen data < 4294967296 ->
  login_turn data ptr r = Ok (Next (ptr + zlen w) (f r)).
Proof.
  assert (Hsame : forall (e e' : Z) (r : LoginResponse), e = e' -> Ok (Next e r) = Ok (Next e' r)) by congruence.
  intros Hw data ptr r rest Hc Hd. pose proof (cursor_len _ _ _ Hc) as Hlen. pose proof (zlen_nonneg rest).
  pose proof (proj1 (proj1 Hc)) as Hp0.
  rewrite zlen_app in Hlen. unfold login_turn.
  destruct Hw as [l0 l1 interface v0 v1 v2 v3 n name pv Hl Hn Hp|l0 l1 n text old v Hl Ht Hn Hv
    |l0 l1 v0 v1 p0 p1 s0 s1 server old Hl Hs H0|l0 l1 t body Hl H4 H20|l0 l1 body Hl|t body Ht Hb|l0 l1 blob Hl|acks f Hf];
    simpl app in Hc; apply cursor_cons in Hc as [-> Hc]; cbn [mbind res_bind]; cbv zeta.
  - pick_token.
    rewrite <- app_assoc in Hc. rewrite (login_ack_token _ _ r _ _ _ _ _ _ _ _ _ pv rest Hc Hl Hn Hp).
    apply Hsame. rewrite !zlen_cons in *. lia.
  - pick_token.
    rewrite <- app_assoc in Hc. rewrite !zlen_cons in *. rewrite !zlen_app in *. pose proof (zlen_nonneg old).
    unfold login_envchange. cbv zeta. replace (_ <? _) with false by lia. apply cursor_get16le in Hc as [-> Hc].
    cbn [mbind res_bind]. replace (_ <? _) with false by lia. replace (_ =? 0) with false by lia.
    pose proof (proj1 (cursor_cons _ _ _ _ Hc)) as ->. cbn [mbind res_bind]. pick_token.
    replace (3 <=? _) with true by lia. simpl andb. cbv iota.
    rewrite (env_packet_size_token _ _ _ _ _ _ _ _ v Hc) by (done || lia). cbn [mbind res_bind].
    apply Hsame. lia.
  - pick_token.
    rewrite <- app_assoc in Hc. rewrite !zlen_cons in *. rewrite !zlen_app in *. pose proof (zlen_nonneg old).
    unfold login_envchange. cbv zeta. replace (_ <? _) with false by lia. apply cursor_get16le in Hc as [-> Hc].
    cbn [mbind res_bind]. replace (_ <? _) with false by lia. replace (_ =? 0) with false by lia.
    pose proof (proj1 (cursor_cons _ _ _ _ Hc)) as ->. cbn [mbind res_bind]. pick_token.
    replace (7 <=? _) with true by lia. simpl andb. cbv iota.
    rewrite (env_routing_token _ _ _ _ _ _ _ _ _ _ _ _ _ Hc) by (done || lia). cbn [mbind res_bind].
    apply Hsame. lia.
  - pick_token.
    rewrite !zlen_cons in *. pose proof (zlen_nonneg body).
    unfold login_envchange. cbv zeta. replace (_ <? _) with false by lia. apply cursor_get16le in Hc as [-> Hc].
    cbn [mbind res_bind]. replace (_ <? _) with false by lia. replace (_ =? 0) with false by lia.
    apply cursor_cons in Hc as [-> Hc]. cbn [mbind res_bind].
    apply Z.eqb_neq in H4, H20. rewrite H4, H20. simpl andb. cbv iota. cbn [mbind res_bind]. apply Hsame. lia.
  - pick_token.
    rewrite !zlen_cons in *.
    pose proof (zlen_nonneg body).
    unfold login_info. cbv zeta. replace (_ <? _) with false by lia. apply cursor_get16le in Hc as [-> Hc].
    cbn [mbind res_bind]. replace (_ <=? _) with true by lia. apply Hsame. lia.
  - rewrite zlen_cons in *.
    assert ((b2z t =? TokenType.LOGINACK) = false /\ (b2z t =? TokenType.ERROR_TOKEN) = false /\ is_one_of (b2z t) done_types = true)
      as (-> & -> & ->).
    { unfold done_types in Ht. rewrite !elem_of_cons in Ht. destruct Ht as [-> |[-> |[-> |Ht]]]; [done..|].
      by apply not_elem_of_nil in Ht. }
    unfold login_done. replace (_ <=? _) with true by lia. apply Hsame. lia.
  - pick_token.
    rewrite !zlen_cons in *. pose proof (zlen_nonneg blob).
    unfold login_sspi. cbv zeta. replace (_ <? _) with false by lia. apply cursor_get16le in Hc as [-> Hc].
    cbn [mbind res_bind]. replace (_ <? _) with false by lia. rewrite (cursor_slice _ _ _ _ _ Hc) by done.
    cbn [mbind res_bind]. apply Hsame. lia.
  - pick_token.
    rewrite zlen_cons in *.
    unfold login_features. rewrite (feature_acks_token _ _ Hf _ _ _ _ _ Hc) by (done || unfold zlen in *; lia).
    cbn [mbind res_bind]. apply Hsame. lia.
Qed.

Lemma login_error_token data ptr r l0 l1 n0 n1 n2 n3 st cl m0 m1 msg rest :
  cursor data ptr (l0 :: l1 :: n0 :: n1 :: n2 :: n3 :: st :: cl :: m0 :: m1 :: msg ++ rest) ->
  8 + zlen msg <= le16 l0 l1 <= 8 + zlen msg + zlen rest -> 14 <= le16 l0 l1 -> zlen msg = 2 * le16 m0 m1 ->
  login_error data ptr r = Ok (Return (set_error false (low_bytes msg) (le32 n0 n1 n2 n3) (b2z st) r)).
Proof.
  intros Hc Hl H14 Hm. pose proof (cursor_len _ _ _ Hc) as Hlen. rewrite !zlen_cons, zlen_app in Hlen.
  pose proof (zlen_nonneg msg). unfold login_error. cbv zeta.
  replace (_ <? _) with false by lia. apply cursor_get16le in Hc as [-> Hc]. cbn [mbind res_bind].
  replace (zlen data <? _) with false by lia. replace (le16 l0 l1 <? 14) with false by lia. simpl orb. cbv iota.
  apply cursor_get32le in Hc as [-> Hc]. cbn [mbind res_bind]. apply cursor_cons in Hc as [-> Hc]. cbn [mbind res_bind].
  apply cursor_cons in Hc as [_ Hc]. apply (cursor_eq _ _ (ptr + 2 + 6)) in Hc; [|lia].
  apply cursor_get16le in Hc as [-> Hc]. cbn [mbind res_bind]. replace (_ <=? _) with true by lia.
  rewrite (ReadUTF16LE_cursor _ _ _ msg rest Hc) by lia. done.
Qed.

Lemma login_token_pos w f : login_token w f -> 0 < zlen w.
Proof. intros []; rewrite zlen_cons; match goal with |- context [zlen ?l] => pose proof (zlen_nonneg l) end; lia. Qed.

Lemma login_loop_stream w r r' : login_stream w r r' -> forall fuel data ptr,
  cursor data ptr w -> zlen data < 4294967296 -> zlen w < Z.of_nat fuel -> login_loop fuel data ptr r = Ok r'.
Proof.
  induction 1 as [r|w f rest r r' Ht Hs IH|l0 l1 n0 n1 n2 n3 st cl m0 m1 msg body rest r Hl H14 Hm];
    intros fuel data ptr Hc Hd Hf; (destruct fuel as [|fuel]; [match type of Hf with zlen ?l < _ => pose proof (zlen_nonneg l) end; lia|]);
    pose proof (cursor_len _ _ _ Hc) as Hlen; cbn [login_loop].
  - rewrite zlen_nil in Hlen. by replace (ptr <? zlen data) with false by lia.
  - pose proof (login_token_pos _ _ Ht). rewrite zlen_app in *. pose proof (zlen_nonneg rest).
    replace (ptr <? zlen data) with true by lia. simpl negb. cbv iota.
    rewrite (login_turn_token _ _ Ht _ _ _ _ Hc) by done. cbn [mbind res_bind].
    apply IH; [by apply cursor_app|done|lia].
  - rewrite !zlen_cons, !zlen_app in *. pose proof (zlen_nonneg rest). pose proof (zlen_nonneg body). pose proof (zlen_nonneg msg).
    replace (ptr <? zlen data) with true by lia. simpl negb. cbv iota.
    unfold login_turn. apply cursor_cons in Hc as [-> Hc]. cbn [mbind res_bind]. cbv zeta. pick_token.
    rewrite (login_error_token _ _ r _ _ _ _ _ _ _ _ _ _ _ _ Hc) by (rewrite ?zlen_app; lia). done.
Qed.

(** ** The small scanners: a stream of tokens with a length and of DONE tokens *)

(** [sts] are the statuses of the DONE tokens, in order. *)
Inductive scan_stream : bytes -> list Z -> Prop :=
  | ss_end : scan_stream [] []
  | ss_token t l0 l1 body rest sts :
      b2z t ∉ done_types -> zlen body = le16 l0 l1 -> scan_stream rest sts ->
      scan_stream (t :: l0 :: l1 :: body ++ rest) sts
  | ss_done t s0 s1 body rest sts :
      b2z t ∈ done_types -> zlen body = 10 -> scan_stream rest sts ->
      scan_stream (t :: s0 :: s1 :: body ++ rest) (le16 s0 s1 :: sts).

Definition acknowledges (status : Z) : bool := negb (Z.land status DoneStatus.DONE_ATTN =? 0).

Lemma not_one_of t l : t ∉ l -> is_one_of t l = false.
Proof. intros H. apply not_true_iff_false. by rewrite is_one_of_elem. Qed.

Lemma skip_token_cursor data ptr l0 l1 body rest :
  cursor data ptr (l0 :: l1 :: body ++ rest) -> zlen body = le16 l0 l1 ->
  skip_token data ptr = Ok (Some (ptr + 2 + zlen body)) /\ cursor data (ptr + 2 + zlen body) rest.
Proof.
  intros Hc Hb. pose proof (cursor_len _ _ _ Hc) as Hlen. rewrite !zlen_cons, zlen_app in Hlen.
  pose proof (zlen_nonneg body). pose proof (zlen_nonneg rest). unfold skip_token. cbv zeta.
  replace (ptr + 2 <=? _) with true by lia. apply cursor_get16le in Hc as [-> Hc]. cbn [mbind res_bind].
  replace (ptr + 2 + _ <=? _) with true by lia. apply cursor_app in Hc. split; [do 2 f_equal; lia|done].
Qed.

Lemma attention_loop_stream w sts : scan_stream w sts -> forall fuel data ptr,
  cursor data ptr w -> zlen w < Z.of_nat fuel -> attention_loop fuel data ptr = Ok (existsb acknowledges sts).
Proof.
  induction 1 as [|t l0 l1 body rest sts Ht Hb Hs IH|t s0 s1 body rest sts Ht Hb Hs IH]; intros fuel data ptr Hc Hf;
    (destruct fuel as [|fuel]; [match type of Hf with zlen ?l < _ => pose proof (zlen_nonneg l) end; lia|]);
    pose proof (cursor_len _ _ _ Hc) as Hlen; cbn [attention_loop existsb]; rewrite ?zlen_nil, ?zlen_cons, ?zlen_app in *.
  - by replace (ptr <? zlen data) with false by lia.
  - pose proof (zlen_nonneg body). pose proof (zlen_nonneg rest). replace (ptr <? zlen data) with true by lia.
    simpl negb. cbv iota. apply cursor_cons in Hc as [-> Hc]. cbn [mbind res_bind]. cbv zeta.
    rewrite (not_one_of _ _ Ht). apply skip_token_cursor in Hc as [-> Hc]; [|done]. cbn [mbind res_bind].
    apply IH; [done|lia].
  - pose proof (zlen_nonneg rest). replace (ptr <? zlen data) with true by lia.
    simpl negb. cbv iota. apply cursor_cons in Hc as [-> Hc]. cbn [mbind res_bind]. cbv zeta.
    rewrite (proj2 (is_one_of_elem _ _) Ht). replace (ptr + 1 + 12 <=? _) with true by lia.
    apply cursor_get16le in Hc as [-> Hc]. cbn [mbind res_bind]. fold (acknowledges (le16 s0 s1)).
    destruct (acknowledges _); [done|]. simpl orb. apply IH; [|lia].
    apply cursor_app in Hc. eapply cursor_eq; [|exact Hc]. lia.
Qed.

Lemma success_loop_stream w sts : scan_stream w sts -> forall fuel data ptr,
  cursor data ptr w -> zlen w < Z.of_nat fuel ->
  success_loop fuel data ptr = Ok (match sts with s :: _ => Z.land s DoneStatus.DONE_ERROR =? 0 | [] => true end).
Proof.
  induction 1 as [|t l0 l1 body rest sts Ht Hb Hs IH|t s0 s1 body rest sts Ht Hb Hs IH]; intros fuel data ptr Hc Hf;
    (destruct fuel as [|fuel]; [match type of Hf with zlen ?l < _ => pose proof (zlen_nonneg l) end; lia|]);
    pose proof (cursor_len _ _ _ Hc) as Hlen; cbn [success_loop]; rewrite ?zlen_nil, ?zlen_cons, ?zlen_app in *.
  - by replace (ptr <? zlen data) with false by lia.
  - pose proof (zlen_nonneg body). pose proof (zlen_nonneg rest). replace (ptr <? zlen data) with true by lia.
    simpl negb. cbv iota. apply cursor_cons in Hc as [-> Hc]. cbn [mbind res_bind]. cbv zeta.
    rewrite (not_one_of _ _ Ht). apply skip_token_cursor in Hc as [-> Hc]; [|done]. cbn [mbind res_bind].
    apply IH; [done|lia].
  - pose proof (zlen_nonneg rest). replace (ptr <? zlen data) with true by lia.
    simpl negb. cbv iota. apply cursor_cons in Hc as [-> Hc]. cbn [mbind res_bind]. cbv zeta.
    rewrite (proj2 (is_one_of_elem _ _) Ht). replace (ptr + 1 + 2 <=? _) with true by lia.
    by apply cursor_get16le in Hc as [-> Hc].
Qed.

Lemma skip_token_safe data ptr :
  0 <= ptr <= zlen data ->
  holds (skip_token data ptr) (fun o => forall p, o = Some p -> ptr < p <= zlen data).
Proof.
  intros Hp. unfold skip_token. cbv zeta. destruct (Z.leb_spec (ptr + 2) (zlen data)); [|done].
  apply holds_bind, holds_get16le; [lia..|]. intros len Hlen.
  destruct (Z.leb_spec (ptr + 2 + len) (zlen data)); [|done]. intros p [= <-]. lia.
Qed.

Lemma attention_loop_safe fuel data ptr :
  0 <= ptr <= zlen data -> zlen data - ptr < Z.of_nat fuel -> holds (attention_loop fuel data ptr) (fun _ => True).
Proof.
  revert ptr. induction fuel as [|fuel IH]; intros ptr Hp Hf; [lia|]. cbn [attention_loop].
  destruct (Z.ltb_spec ptr (zlen data)); [|done]. simpl negb. cbv iota.
  apply holds_bind, holds_get8; [lia|]. intros t _. cbv zeta. destruct (is_one_of t _).
  - destruct (Z.leb_spec (ptr + 1 + 12) (zlen data)); [|done]. apply holds_bind, holds_get16le; [lia..|].
    intros s _. destruct (negb _); [done|]. apply IH; lia.
  - apply holds_bind. eapply holds_mono; [apply skip_token_safe; lia|]. intros [p|] H1; [|done].
    specialize (H1 p eq_refl). apply IH; lia.
Qed.

Lemma success_loop_safe fuel data ptr :
  0 <= ptr <= zlen data -> zlen data - ptr < Z.of_nat fuel -> holds (success_loop fuel data ptr) (fun _ => True).
Proof.
  revert ptr. induction fuel as [|fuel IH]; intros ptr Hp Hf; [lia|]. cbn [success_loop].
  destruct (Z.ltb_spec ptr (zlen data)); [|done]. simpl negb. cbv iota.
  apply holds_bind, holds_get8; [lia|]. intros t _. cbv zeta. destruct (is_one_of t _).
  - destruct (Z.leb_spec (ptr + 1 + 2) (zlen data)); [|done]. apply holds_bind, holds_get16le; [lia..|]. done.
  - apply holds_bind. eapply holds_mono; [apply skip_token_safe; lia|]. intros [p|] H1; [|done].
    specialize (H1 p eq_refl). apply IH; lia.
Qed.

Lemma error_loop_safe fuel data ptr :
  0 <= ptr <= zlen data -> zlen data - ptr < Z.of_nat fuel -> holds (error_loop fuel data ptr) (fun _ => True).
Proof.
  revert ptr. induction fuel as [|fuel IH]; intros ptr Hp Hf; [lia|]. cbn [error_loop].
  destruct (Z.ltb_spec ptr (zlen data)); [|done]. simpl negb. cbv iota.
  apply holds_bind, holds_get8; [lia|]. intros t _. cbv zeta. destruct (t =? _).
  - destruct (Z.ltb_spec (zlen data) (ptr + 1 + 2)); [done|]. apply holds_bind, holds_get16le; [lia..|].
    intros len Hlen. apply holds_if; [done|]. intros E. apply holds_bind, holds_get16le; [lia..|].
    intros ml Hml. apply holds_if; [|done]. intros E2. apply ReadUTF16LE_safe; [lia..|done].
  - apply holds_bind. eapply holds_mono; [apply skip_token_safe; lia|]. intros [p|] H1; [|done].
    specialize (H1 p eq_refl). apply IH; lia.
Qed.

Ltac no_throw :=
  repeat first
    [ exact I
    | solve [auto with tds]
    | apply throws_if; intro
    | apply throws_bind; [solve [auto with tds | no_throw]|intro]
    | match goal with
      | |- throws_only _ (match ?x with _ => _ end) => destruct x
      | |- throws_only _ (let '(_, _) := ?x in _) => destruct x
      end ].

Lemma ReadUTF16LE_throws data ptr n : throws_only (fun _ => False) (ReadUTF16LE data ptr n).
Proof. revert ptr. induction n as [|n IH]; intros ptr; cbn [ReadUTF16LE]; [done|]. repeat (apply throws_bind; [auto with tds|intro]). done. Qed.

Lemma throws_get32be P data i : throws_only P (get32be data i).
Proof. repeat (apply throws_bind; [apply throws_get8|intro]). done. Qed.

#[local] Hint Resolve ReadUTF16LE_throws throws_get32be : tds.

Lemma fedauth_entries_throws fuel data start len info r :
  throws_only (fun _ => False) (fedauth_entries fuel data start len info r).
Proof. revert info r. induction fuel as [|fuel IH]; intros info r; cbn [fedauth_entries]; cbv zeta; no_throw; apply IH. Qed.

Lemma feature_acks_throws fuel data ptr r : throws_only (fun _ => False) (feature_acks fuel data ptr r).
Proof. revert ptr r. induction fuel as [|fuel IH]; intros ptr r; cbn [feature_acks]; cbv zeta; no_throw; apply IH. Qed.

#[local] Hint Resolve fedauth_entries_throws feature_acks_throws : tds.

Lemma login_turn_throws data ptr r : throws_only (fun _ => False) (login_turn data ptr r).
Proof.
  unfold login_turn, login_ack, login_error, login_done, login_envchange, env_packet_size, env_routing,
    login_info, login_fedauthinfo, login_sspi, login_features, login_unknown. cbv zeta. no_throw.
Qed.

Lemma skip_token_throws data ptr : throws_only (fun _ => False) (skip_token data ptr).
Proof. unfold skip_token. cbv zeta. no_throw. Qed.

#[local] Hint Resolve login_turn_throws skip_token_throws : tds.

Lemma login_loop_throws fuel data ptr r : throws_only (fun _ => False) (login_loop fuel data ptr r).
Proof. revert ptr r. induction fuel as [|fuel IH]; intros ptr r; cbn [login_loop]; cbv zeta; no_throw; apply IH. Qed.

Lemma attention_loop_throws fuel data ptr : throws_only (fun _ => False) (attention_loop fuel data ptr).
Proof. revert ptr. induction fuel as [|fuel IH]; intros ptr; cbn [attention_loop]; cbv zeta; no_throw; apply IH. Qed.

Lemma success_loop_throws fuel data ptr : throws_only (fun _ => False) (success_loop fuel data ptr).
Proof. revert ptr. induction fuel as [|fuel IH]; intros ptr; cbn [success_loop]; cbv zeta; no_throw; apply IH. Qed.

Lemma error_loop_throws fuel data ptr : throws_only (fun _ => False) (error_loop fuel data ptr).
Proof. revert ptr. induction fuel as [|fuel IH]; intros ptr; cbn [error_loop]; cbv zeta; no_throw; apply IH. Qed.

Lemma returns_of {A} (m : res A) Q : holds m Q -> throws_only (fun _ => False) m -> exists a, m = Ok a /\ Q a.
Proof. destruct m; simpl; [eauto|done|done]. Qed.

Lemma fuel_enough (data : bytes) : zlen data - 0 < Z.of_nat (S (length data)).
Proof. unfold zlen. lia. Qed.

Lemma ParseLoginResponse_returns data : exists r, ParseLoginResponse data = Ok r /\ response_ok r.
Proof.
  pose proof (zlen_nonneg data) as Hn. pose proof (fuel_enough data) as Hf.
  unfold ParseLoginResponse. destruct data as [|b data]; [eexists; split; [done|]; repeat split; done|].
  apply returns_of; [apply login_loop_safe; [apply new_response_ok|lia|done]|apply login_loop_throws].
Qed.

Lemma ParseDoneForAttentionAck_returns data : exists b, ParseDoneForAttentionAck data = Ok b.
Proof.
  pose proof (zlen_nonneg data).
  destruct (returns_of _ _ (attention_loop_safe _ data 0 ltac:(lia) (fuel_enough data)) (attention_loop_throws _ _ _)) as (b & E & _).
  eauto.
Qed.

Lemma IsSuccessResponse_returns data : exists b, IsSuccessResponse data = Ok b.
Proof.
  pose proof (zlen_nonneg data). unfold IsSuccessResponse. destruct (existsb _ _); [eauto|].
  destruct (returns_of _ _ (success_loop_safe _ data 0 ltac:(lia) (fuel_enough data)) (success_loop_throws _ _ _)) as (b & E & _).
  eauto.
Qed.

(** ** The properties *)

(** Whatever bytes a server answers with, [ParseLoginResponse] and the
    three scanners read only inside the response, throw nothing and return: the
    loops end because each turn steps over a byte. The response they fill is
    well formed: the packet size stays within the protocol's 512..32767, a
    routing target has a server name, and a token that is not flagged is
    empty. *)
Theorem Responses_safe (data : bytes) :
  (exists r, ParseLoginResponse data = Ok r /\ response_ok r) /\
  (exists b, ParseDoneForAttentionAck data = Ok b) /\
  (exists b, IsSuccessResponse data = Ok b) /\
  (exists m, ExtractErrorMessage data = Ok m).
Proof.
  split_and!; [apply ParseLoginResponse_returns|apply ParseDoneForAttentionAck_returns|apply IsSuccessResponse_returns|].
  pose proof (zlen_nonneg data).
  destruct (returns_of _ _ (error_loop_safe _ data 0 ltac:(lia) (fuel_enough data)) (error_loop_throws _ _ _)) as (b & E & _).
  eauto.
Qed.

(** C31. A response made of well-formed LOGINACK, ENVCHANGE (packet size,
    routing and others), INFO, DONE, SSPI, FEATUREEXTACK and ERROR tokens is
    decoded to what its tokens say, in order: each token's fields reach the
    response, nothing of it is skipped, an ERROR ends the scan with its number,
    state and message, and a response with no LOGINACK gets the message that
    says so. *)
Theorem ParseLoginResponse_decodes (data : bytes) (r : LoginResponse)
    (Hdata : data <> []) (Hsize : zlen data < 4294967296) (Hs : login_stream data new_response r) :
  ParseLoginResponse data = Ok r.
Proof.
  unfold ParseLoginResponse. destruct data as [|b data]; [done|].
  apply (login_loop_stream _ _ _ Hs); [apply cursor_0|done|]. pose proof (fuel_enough (b :: data)). lia.
Qed.

(** On a stream of DONE tokens and of tokens with a two-byte length,
    [ParseDoneForAttentionAck] says whether some DONE acknowledges the
    attention, and [IsSuccessResponse] whether the first DONE has no error
    flag, unless the byte 0xAA is anywhere in the response: then, ERROR token
    or not, it says the response failed. *)
Theorem Scanners_decode (data : bytes) (sts : list Z) (Hs : scan_stream data sts) :
  ParseDoneForAttentionAck data = Ok (existsb acknowledges sts) /\
  IsSuccessResponse data
  = Ok (if decide (z2b TokenType.ERROR_TOKEN ∈ data) then false
        else match sts with s :: _ => Z.land s DoneStatus.DONE_ERROR =? 0 | [] => true end).
Proof.
  pose proof (fuel_enough data) as Hf. split; [apply (attention_loop_stream _ _ Hs); [apply cursor_0|lia]|].
  unfold IsSuccessResponse. case_decide as Hin.
  - replace (existsb _ data) with true; [done|]. symmetry. apply existsb_exists.
    eexists. split; [by apply list_elem_of_In|done].
  - destruct (existsb _ data) eqn:E; [|apply (success_loop_stream _ _ Hs); [apply cursor_0|lia]].
    apply existsb_exists in E as (b & Hb & Eb). apply list_elem_of_In in Hb. apply Z.eqb_eq in Eb.
    destruct Hin. rewrite <- Eb, z2b_b2z. done.
Qed.

(** COLMETADATA of an INT column, a ROW of it, and the DONE that acknowledges
    an attention. *)
Definition cancelled_result : bytes :=
  bs [0x81; 1; 0;  0; 0; 0; 0;  0; 0;  0x38;  0;
      0xD1; 1; 0; 0; 0;
      0xFD; 0x20; 0; 0; 0; 0; 0; 0; 0; 0; 0; 0; 0].

(** A query cancelled while its result is on the wire: the token parser
    finds the acknowledgement behind the metadata and the row, but
    [ParseDoneForAttentionAck], which takes every token that is not a DONE to
    have a length, loses its place in them and reports that there is none. *)
Theorem ParseDoneForAttentionAck_misses `{Simdutf} :
  (exists p1 p2 p3,
    TryParseNext (Feed cancelled_result TokenParser_new) = Ok (ParsedTokenType.ColMetadata, p1) /\
    TryParseNext p1 = Ok (ParsedTokenType.Row, p2) /\ TryParseNext p2 = Ok (ParsedTokenType.Done, p3) /\
    IsAttentionAck (current_done_ p3) = true) /\
  ParseDoneForAttentionAck cancelled_result = Ok false.
Proof.
  split; [|by vm_compute].
  let v := eval vm_compute in (TryParseNext (Feed cancelled_result TokenParser_new)) in
  lazymatch v with Ok (_, ?p1) =>
    let v := eval vm_compute in (TryParseNext p1) in
    lazymatch v with Ok (_, ?p2) =>
      let v := eval vm_compute in (TryParseNext p2) in
      lazymatch v with Ok (_, ?p3) => exists p1, p2, p3 end end end.
  split_and!; vm_compute; reflexivity.
Qed.

(** ENVCHANGE to 4096-byte packets, LOGINACK of TDS 7.4 by server "SQL",
    FEATUREEXTACK of UTF-8 support, DONE. *)
Definition sample_login : bytes :=
  bs ([0xE3; 15; 0; 4; 4; 52; 0; 48; 0; 57; 0; 54; 0; 0; 0; 0; 0; 0] ++
      [0xAD; 16; 0; 1; 0x74; 0; 0; 4; 3; 83; 0; 81; 0; 76; 0; 16; 0; 0; 1] ++
      [0xAE; 10; 1; 0; 0; 0; 1; 0xFF] ++
      [0xFD; 0; 0; 0; 0; 0; 0; 0; 0; 0; 0; 0; 0]).
Definition sample_login_response : LoginResponse :=
  set_features true false true (set_ack true (bs [83; 81; 76]) 0x74000004 (set_packet_size 4096 new_response)).

Lemma ParseLoginResponse_decodes_witness : ParseLoginResponse sample_login = Ok sample_login_response.
Proof.
  apply ParseLoginResponse_decodes; [discriminate|vm_compute; reflexivity|].
  refine (ls_token _ _ _ _ _ (lt_packet_size (z2b 15) (z2b 0) (z2b 4) (bs [52; 0; 48; 0; 57; 0; 54; 0])
    (bs [0; 0; 0; 0; 0]) 4096 _ _ _ _) _); try (vm_compute; reflexivity).
  refine (ls_token _ _ _ _ _ (lt_ack (z2b 16) (z2b 0) (z2b 1) (z2b 0x74) (z2b 0) (z2b 0) (z2b 4) (z2b 3)
    (bs [83; 0; 81; 0; 76; 0]) (bs [16; 0; 0; 1]) _ _ _) _); try (vm_compute; reflexivity).
  refine (ls_token _ _ _ _ _ (lt_features _ _ (fl_utf8 (z2b 1) (z2b 0) (z2b 0) (z2b 0) [z2b 1] _ _ _ fl_end)) _);
    try (vm_compute; reflexivity).
  refine (ls_token _ _ [] _ _ (lt_done (z2b 0xFD) (bs [0; 0; 0; 0; 0; 0; 0; 0; 0; 0; 0; 0]) _ _) _);
    try (vm_compute; reflexivity).
  - apply is_one_of_elem. vm_compute. reflexivity.
  - apply ls_end.
Defined.

(** ENVCHANGE, then a DONE with the error and the attention flags. *)
Definition sample_scan : bytes := bs [0xE3; 2; 0; 8; 0; 0xFD; 0x22; 0; 0; 0; 0; 0; 0; 0; 0; 0; 0; 0].

Lemma Scanners_decode_witness :
  ParseDoneForAttentionAck sample_scan = Ok true /\ IsSuccessResponse sample_scan = Ok false.
Proof.
  destruct (Scanners_decode sample_scan [0x22]) as [E1 E2].
  - refine (ss_token (z2b 0xE3) (z2b 2) (z2b 0) (bs [8; 0]) _ _ _ _ _); try (vm_compute; reflexivity).
    + rewrite <- is_one_of_elem. vm_compute. discriminate.
    + refine (ss_done (z2b 0xFD) (z2b 0x22) (z2b 0) (bs [0; 0; 0; 0; 0; 0; 0; 0; 0; 0]) [] [] _ _ ss_end);
        [apply is_one_of_elem|]; vm_compute; reflexivity.
  - split; [exact E1|]. rewrite E2. vm_compute. reflexivity.
Defined.
