(* ===== verification/Connection.v ===== *)
(** * A connection (src/src/tds/tds_connection.cpp, include/tds/tds_connection.hpp)

    [TdsConnection] is the object, with the socket of [Socket] inside it. A
    member function is a computation [M A] on it: it returns, throws, is still
    [Running] when its fuel is used up (a peer can keep a read loop busy for
    ever), or is [Undefined]. Whatever happens, the object it leaves is the
    second component, so the state a connection is in after an exception is
    part of the model.

    Parameters: the transport, the conversions, the process id and host name the
    operating system gives, the clock (read off the transport's state), and the
    authenticator of an integrated login (its [Free], and a factory that throws, are left out). Debug
    output, the move operations and the destructor are not modelled. *)

From S2P Require Import Prelude TdsTypes Utf16 Packet Socket ColumnMetadata RowReader TokenParser Protocol LoginResponse.

(** One constructor per kind of text put into [last_error_], with the values in
    it; the wording, which differs a little between the login paths, is not kept. *)
Inductive conn_error : Type :=
  | NoError
  | InvalidStateForConnect (current : ConnectionState)
  | SocketError (e : sock_error)
  | NotAuthenticating
  | FailedToSend (message : string) (e : sock_error)
  | FailedToReceive (message : string) (e : sock_error)
  | PreloginFailed (message : string)
  | ServerWithoutTls
  | ServerDeclinedTls
  | TlsHandshakeError (e : sock_error)
  | ServerRequiresTls
  | AuthenticationFailed (method : string) (number state : Z) (message : bytes)
  | NoAuthenticator
  | NoAuthenticatorForHop (host : bytes) (port : Z)
  | AuthenticatorError (what : string)
  | EmptyInitialBlob
  | SspiRoundsExceeded
  | TooManyRoutingHops (hops : Z) (server : bytes) (port : Z)
  | FailedToConnectToRouted (server : bytes) (port : Z) (e : sock_error)
  | HopLoopExited
  | PingFailed (e : sock_error)
  | AttentionTimeout
  | CannotExecute (current : ConnectionState)
  | CannotReceive
  | ReceiveError (e : sock_error).

Inductive LoginAttemptOutcome : Type := Success | Route | Failure.

#[export] Instance LoginAttemptOutcome_eq_dec : EqDecision LoginAttemptOutcome.
Proof. solve_decision. Defined.

(** What a call of the authenticator gives: bytes, or the [what()] of the
    exception that is caught. *)
Class Authenticator : Type := {
  auth : Type;
  InitialBytes : auth -> (string + bytes) * auth;
  NextBytes : bytes -> auth -> (string + bytes) * auth
}.

Inductive outcome (A : Type) : Type :=
  | Returns (a : A)
  | Throws (e : exn)
  | Running
  | Undefined.
Arguments Returns {A} a.
Arguments Throws {A} e.
Arguments Running {A}.
Arguments Undefined {A}.

Section Connection.
Context {T : Transport} {Si : Simdutf} {Au : Authenticator}.

Record TdsConnection : Type := mkTdsConnection {
  socket_ : TdsSocket;
  state_ : ConnectionState;
  request_utf8_support_ : bool;
  utf8_support_acked_ : bool;
  host_ : bytes;
  port_ : Z;
  database_ : bytes;
  spid_ : Z;
  last_used_at_ : Z;
  last_error_ : conn_error;
  last_error_number_ : Z;
  last_error_state_ : Z;
  next_packet_id_ : Z;
  tls_enabled_ : bool;
  connect_timeout_seconds_ : Z;
  requested_packet_size_ : Z;
  negotiated_packet_size_ : Z;
  transaction_descriptor_ : bytes;
  has_transaction_descriptor_ : bool;
  needs_reset_ : bool;
  fedauth_echo_ : bool;
  has_routing_ : bool;
  routed_server_ : bytes;
  routed_port_ : Z;
  tds_server_name_ : bytes
}.

(** The constructor; [created] is the clock's value. *)
Definition TdsConnection_new (n : net) (created : Z) : TdsConnection :=
  mkTdsConnection (TdsSocket_new n) Disconnected true false [] 0 [] 0 created NoError 0 0 1 false
    DEFAULT_CONNECTION_TIMEOUT TDS_DEFAULT_PACKET_SIZE TDS_DEFAULT_PACKET_SIZE (replicate 8 Byte.x00) false false false
    false [] 0 [].

(** Assignment to a member. *)
Definition set_socket (v : TdsSocket) (c : TdsConnection) : TdsConnection :=
  mkTdsConnection v (state_ c) (request_utf8_support_ c) (utf8_support_acked_ c) (host_ c) (port_ c) (database_
  c) (spid_ c) (last_used_at_ c) (last_error_ c) (last_error_number_ c) (last_error_state_ c) (next_packet_id_
  c) (tls_enabled_ c) (connect_timeout_seconds_ c) (requested_packet_size_ c) (negotiated_packet_size_ c)
  (transaction_descriptor_ c) (has_transaction_descriptor_ c) (needs_reset_ c) (fedauth_echo_ c) (has_routing_
  c) (routed_server_ c) (routed_port_ c) (tds_server_name_ c).
Definition set_state (v : ConnectionState) (c : TdsConnection) : TdsConnection :=
  mkTdsConnection (socket_ c) v (request_utf8_support_ c) (utf8_support_acked_ c) (host_ c) (port_ c)
  (database_ c) (spid_ c) (last_used_at_ c) (last_error_ c) (last_error_number_ c) (last_error_state_ c)
  (next_packet_id_ c) (tls_enabled_ c) (connect_timeout_seconds_ c) (requested_packet_size_ c)
  (negotiated_packet_size_ c) (transaction_descriptor_ c) (has_transaction_descriptor_ c) (needs_reset_ c)
  (fedauth_echo_ c) (has_routing_ c) (routed_server_ c) (routed_port_ c) (tds_server_name_ c).
Definition set_request_utf8_support (v : bool) (c : TdsConnection) : TdsConnection :=
  mkTdsConnection (socket_ c) (state_ c) v (utf8_support_acked_ c) (host_ c) (port_ c) (database_ c) (spid_ c)
  (last_used_at_ c) (last_error_ c) (last_error_number_ c) (last_error_state_ c) (next_packet_id_ c)
  (tls_enabled_ c) (connect_timeout_seconds_ c) (requested_packet_size_ c) (negotiated_packet_size_ c)
  (transaction_descriptor_ c) (has_transaction_descriptor_ c) (needs_reset_ c) (fedauth_echo_ c) (has_routing_
  c) (routed_server_ c) (routed_port_ c) (tds_server_name_ c).
Definition set_utf8_support_acked (v : bool) (c : TdsConnection) : TdsConnection :=
  mkTdsConnection (socket_ c) (state_ c) (request_utf8_support_ c) v (host_ c) (port_ c) (database_ c) (spid_
  c) (last_used_at_ c) (last_error_ c) (last_error_number_ c) (last_error_state_ c) (next_packet_id_ c)
  (tls_enabled_ c) (connect_timeout_seconds_ c) (requested_packet_size_ c) (negotiated_packet_size_ c)
  (transaction_descriptor_ c) (has_transaction_descriptor_ c) (needs_reset_ c) (fedauth_echo_ c) (has_routing_
  c) (routed_server_ c) (routed_port_ c) (tds_server_name_ c).
Definition set_host (v : bytes) (c : TdsConnection) : TdsConnection :=
  mkTdsConnection (socket_ c) (state_ c) (request_utf8_support_ c) (utf8_support_acked_ c) v (port_ c)
  (database_ c) (spid_ c) (last_used_at_ c) (last_error_ c) (last_error_number_ c) (last_error_state_ c)
  (next_packet_id_ c) (tls_enabled_ c) (connect_timeout_seconds_ c) (requested_packet_size_ c)
  (negotiated_packet_size_ c) (transaction_descriptor_ c) (has_transaction_descriptor_ c) (needs_reset_ c)
  (fedauth_echo_ c) (has_routing_ c) (routed_server_ c) (routed_port_ c) (tds_server_name_ c).
Definition set_port (v : Z) (c : TdsConnection) : TdsConnection :=
  mkTdsConnection (socket_ c) (state_ c) (request_utf8_support_ c) (utf8_support_acked_ c) (host_ c) v
  (database_ c) (spid_ c) (last_used_at_ c) (last_error_ c) (last_error_number_ c) (last_error_state_ c)
  (next_packet_id_ c) (tls_enabled_ c) (connect_timeout_seconds_ c) (requested_packet_size_ c)
  (negotiated_packet_size_ c) (transaction_descriptor_ c) (has_transaction_descriptor_ c) (needs_reset_ c)
  (fedauth_echo_ c) (has_routing_ c) (routed_server_ c) (routed_port_ c) (tds_server_name_ c).
Definition set_database (v : bytes) (c : TdsConnection) : TdsConnection :=
  mkTdsConnection (socket_ c) (state_ c) (request_utf8_support_ c) (utf8_support_acked_ c) (host_ c) (port_ c)
  v (spid_ c) (last_used_at_ c) (last_error_ c) (last_error_number_ c) (last_error_state_ c) (next_packet_id_
  c) (tls_enabled_ c) (connect_timeout_seconds_ c) (requested_packet_size_ c) (negotiated_packet_size_ c)
  (transaction_descriptor_ c) (has_transaction_descriptor_ c) (needs_reset_ c) (fedauth_echo_ c) (has_routing_
  c) (routed_server_ c) (routed_port_ c) (tds_server_name_ c).
Definition set_spid (v : Z) (c : TdsConnection) : TdsConnection :=
  mkTdsConnection (socket_ c) (state_ c) (request_utf8_support_ c) (utf8_support_acked_ c) (host_ c) (port_ c)
  (database_ c) v (last_used_at_ c) (last_error_ c) (last_error_number_ c) (last_error_state_ c)
  (next_packet_id_ c) (tls_enabled_ c) (connect_timeout_seconds_ c) (requested_packet_size_ c)
  (negotiated_packet_size_ c) (transaction_descriptor_ c) (has_transaction_descriptor_ c) (needs_reset_ c)
  (fedauth_echo_ c) (has_routing_ c) (routed_server_ c) (routed_port_ c) (tds_server_name_ c).
Definition set_last_used_at (v : Z) (c : TdsConnection) : TdsConnection :=
  mkTdsConnection (socket_ c) (state_ c) (request_utf8_support_ c) (utf8_support_acked_ c) (host_ c) (port_ c)
  (database_ c) (spid_ c) v (last_error_ c) (last_error_number_ c) (last_error_state_ c) (next_packet_id_ c)
  (tls_enabled_ c) (connect_timeout_seconds_ c) (requested_packet_size_ c) (negotiated_packet_size_ c)
  (transaction_descriptor_ c) (has_transaction_descriptor_ c) (needs_reset_ c) (fedauth_echo_ c) (has_routing_
  c) (routed_server_ c) (routed_port_ c) (tds_server_name_ c).
Definition set_last_error (v : conn_error) (c : TdsConnection) : TdsConnection :=
  mkTdsConnection (socket_ c) (state_ c) (request_utf8_support_ c) (utf8_support_acked_ c) (host_ c) (port_ c)
  (database_ c) (spid_ c) (last_used_at_ c) v (last_error_number_ c) (last_error_state_ c) (next_packet_id_ c)
  (tls_enabled_ c) (connect_timeout_seconds_ c) (requested_packet_size_ c) (negotiated_packet_size_ c)
  (transaction_descriptor_ c) (has_transaction_descriptor_ c) (needs_reset_ c) (fedauth_echo_ c) (has_routing_
  c) (routed_server_ c) (routed_port_ c) (tds_server_name_ c).
Definition set_last_error_number (v : Z) (c : TdsConnection) : TdsConnection :=
  mkTdsConnection (socket_ c) (state_ c) (request_utf8_support_ c) (utf8_support_acked_ c) (host_ c) (port_ c)
  (database_ c) (spid_ c) (last_used_at_ c) (last_error_ c) v (last_error_state_ c) (next_packet_id_ c)
  (tls_enabled_ c) (connect_timeout_seconds_ c) (requested_packet_size_ c) (negotiated_packet_size_ c)
  (transaction_descriptor_ c) (has_transaction_descriptor_ c) (needs_reset_ c) (fedauth_echo_ c) (has_routing_
  c) (routed_server_ c) (routed_port_ c) (tds_server_name_ c).
Definition set_last_error_state (v : Z) (c : TdsConnection) : TdsConnection :=
  mkTdsConnection (socket_ c) (state_ c) (request_utf8_support_ c) (utf8_support_acked_ c) (host_ c) (port_ c)
  (database_ c) (spid_ c) (last_used_at_ c) (last_error_ c) (last_error_number_ c) v (next_packet_id_ c)
  (tls_enabled_ c) (connect_timeout_seconds_ c) (requested_packet_size_ c) (negotiated_packet_size_ c)
  (transaction_descriptor_ c) (has_transaction_descriptor_ c) (needs_reset_ c) (fedauth_echo_ c) (has_routing_
  c) (routed_server_ c) (routed_port_ c) (tds_server_name_ c).
Definition set_next_packet_id (v : Z) (c : TdsConnection) : TdsConnection :=
  mkTdsConnection (socket_ c) (state_ c) (request_utf8_support_ c) (utf8_support_acked_ c) (host_ c) (port_ c)
  (database_ c) (spid_ c) (last_used_at_ c) (last_error_ c) (last_error_number_ c) (last_error_state_ c) v
  (tls_enabled_ c) (connect_timeout_seconds_ c) (requested_packet_size_ c) (negotiated_packet_size_ c)
  (transaction_descriptor_ c) (has_transaction_descriptor_ c) (needs_reset_ c) (fedauth_echo_ c) (has_routing_
  c) (routed_server_ c) (routed_port_ c) (tds_server_name_ c).
Definition set_tls_enabled (v : bool) (c : TdsConnection) : TdsConnection :=
  mkTdsConnection (socket_ c) (state_ c) (request_utf8_support_ c) (utf8_support_acked_ c) (host_ c) (port_ c)
  (database_ c) (spid_ c) (last_used_at_ c) (last_error_ c) (last_error_number_ c) (last_error_state_ c)
  (next_packet_id_ c) v (connect_timeout_seconds_ c) (requested_packet_size_ c) (negotiated_packet_size_ c)
  (transaction_descriptor_ c) (has_transaction_descriptor_ c) (needs_reset_ c) (fedauth_echo_ c) (has_routing_
  c) (routed_server_ c) (routed_port_ c) (tds_server_name_ c).
Definition set_connect_timeout_seconds (v : Z) (c : TdsConnection) : TdsConnection :=
  mkTdsConnection (socket_ c) (state_ c) (request_utf8_support_ c) (utf8_support_acked_ c) (host_ c) (port_ c)
  (database_ c) (spid_ c) (last_used_at_ c) (last_error_ c) (last_error_number_ c) (last_error_state_ c)
  (next_packet_id_ c) (tls_enabled_ c) v (requested_packet_size_ c) (negotiated_packet_size_ c)
  (transaction_descriptor_ c) (has_transaction_descriptor_ c) (needs_reset_ c) (fedauth_echo_ c) (has_routing_
  c) (routed_server_ c) (routed_port_ c) (tds_server_name_ c).
Definition set_requested_packet_size (v : Z) (c : TdsConnection) : TdsConnection :=
  mkTdsConnection (socket_ c) (state_ c) (request_utf8_support_ c) (utf8_support_acked_ c) (host_ c) (port_ c)
  (database_ c) (spid_ c) (last_used_at_ c) (last_error_ c) (last_error_number_ c) (last_error_state_ c)
  (next_packet_id_ c) (tls_enabled_ c) (connect_timeout_seconds_ c) v (negotiated_packet_size_ c)
  (transaction_descriptor_ c) (has_transaction_descriptor_ c) (needs_reset_ c) (fedauth_echo_ c) (has_routing_
  c) (routed_server_ c) (routed_port_ c) (tds_server_name_ c).
Definition set_negotiated_packet_size (v : Z) (c : TdsConnection) : TdsConnection :=
  mkTdsConnection (socket_ c) (state_ c) (request_utf8_support_ c) (utf8_support_acked_ c) (host_ c) (port_ c)
  (database_ c) (spid_ c) (last_used_at_ c) (last_error_ c) (last_error_number_ c) (last_error_state_ c)
  (next_packet_id_ c) (tls_enabled_ c) (connect_timeout_seconds_ c) (requested_packet_size_ c) v
  (transaction_descriptor_ c) (has_transaction_descriptor_ c) (needs_reset_ c) (fedauth_echo_ c) (has_routing_
  c) (routed_server_ c) (routed_port_ c) (tds_server_name_ c).
Definition set_transaction_descriptor (v : bytes) (c : TdsConnection) : TdsConnection :=
  mkTdsConnection (socket_ c) (state_ c) (request_utf8_support_ c) (utf8_support_acked_ c) (host_ c) (port_ c)
  (database_ c) (spid_ c) (last_used_at_ c) (last_error_ c) (last_error_number_ c) (last_error_state_ c)
  (next_packet_id_ c) (tls_enabled_ c) (connect_timeout_seconds_ c) (requested_packet_size_ c)
  (negotiated_packet_size_ c) v (has_transaction_descriptor_ c) (needs_reset_ c) (fedauth_echo_ c)
  (has_routing_ c) (routed_server_ c) (routed_port_ c) (tds_server_name_ c).
Definition set_has_transaction_descriptor (v : bool) (c : TdsConnection) : TdsConnection :=
  mkTdsConnection (socket_ c) (state_ c) (request_utf8_support_ c) (utf8_support_acked_ c) (host_ c) (port_ c)
  (database_ c) (spid_ c) (last_used_at_ c) (last_error_ c) (last_error_number_ c) (last_error_state_ c)
  (next_packet_id_ c) (tls_enabled_ c) (connect_timeout_seconds_ c) (requested_packet_size_ c)
  (negotiated_packet_size_ c) (transaction_descriptor_ c) v (needs_reset_ c) (fedauth_echo_ c) (has_routing_ c)
  (routed_server_ c) (routed_port_ c) (tds_server_name_ c).
Definition set_needs_reset (v : bool) (c : TdsConnection) : TdsConnection :=
  mkTdsConnection (socket_ c) (state_ c) (request_utf8_support_ c) (utf8_support_acked_ c) (host_ c) (port_ c)
  (database_ c) (spid_ c) (last_used_at_ c) (last_error_ c) (last_error_number_ c) (last_error_state_ c)
  (next_packet_id_ c) (tls_enabled_ c) (connect_timeout_seconds_ c) (requested_packet_size_ c)
  (negotiated_packet_size_ c) (transaction_descriptor_ c) (has_transaction_descriptor_ c) v (fedauth_echo_ c)
  (has_routing_ c) (routed_server_ c) (routed_port_ c) (tds_server_name_ c).
Definition set_fedauth_echo (v : bool) (c : TdsConnection) : TdsConnection :=
  mkTdsConnection (socket_ c) (state_ c) (request_utf8_support_ c) (utf8_support_acked_ c) (host_ c) (port_ c)
  (database_ c) (spid_ c) (last_used_at_ c) (last_error_ c) (last_error_number_ c) (last_error_state_ c)
  (next_packet_id_ c) (tls_enabled_ c) (connect_timeout_seconds_ c) (requested_packet_size_ c)
  (negotiated_packet_size_ c) (transaction_descriptor_ c) (has_transaction_descriptor_ c) (needs_reset_ c) v
  (has_routing_ c) (routed_server_ c) (routed_port_ c) (tds_server_name_ c).
Definition set_has_routing (v : bool) (c : TdsConnection) : TdsConnection :=
  mkTdsConnection (socket_ c) (state_ c) (request_utf8_support_ c) (utf8_support_acked_ c) (host_ c) (port_ c)
  (database_ c) (spid_ c) (last_used_at_ c) (last_error_ c) (last_error_number_ c) (last_error_state_ c)
  (next_packet_id_ c) (tls_enabled_ c) (connect_timeout_seconds_ c) (requested_packet_size_ c)
  (negotiated_packet_size_ c) (transaction_descriptor_ c) (has_transaction_descriptor_ c) (needs_reset_ c)
  (fedauth_echo_ c) v (routed_server_ c) (routed_port_ c) (tds_server_name_ c).
Definition set_routed_server (v : bytes) (c : TdsConnection) : TdsConnection :=
  mkTdsConnection (socket_ c) (state_ c) (request_utf8_support_ c) (utf8_support_acked_ c) (host_ c) (port_ c)
  (database_ c) (spid_ c) (last_used_at_ c) (last_error_ c) (last_error_number_ c) (last_error_state_ c)
  (next_packet_id_ c) (tls_enabled_ c) (connect_timeout_seconds_ c) (requested_packet_size_ c)
  (negotiated_packet_size_ c) (transaction_descriptor_ c) (has_transaction_descriptor_ c) (needs_reset_ c)
  (fedauth_echo_ c) (has_routing_ c) v (routed_port_ c) (tds_server_name_ c).
Definition set_routed_port (v : Z) (c : TdsConnection) : TdsConnection :=
  mkTdsConnection (socket_ c) (state_ c) (request_utf8_support_ c) (utf8_support_acked_ c) (host_ c) (port_ c)
  (database_ c) (spid_ c) (last_used_at_ c) (last_error_ c) (last_error_number_ c) (last_error_state_ c)
  (next_packet_id_ c) (tls_enabled_ c) (connect_timeout_seconds_ c) (requested_packet_size_ c)
  (negotiated_packet_size_ c) (transaction_descriptor_ c) (has_transaction_descriptor_ c) (needs_reset_ c)
  (fedauth_echo_ c) (has_routing_ c) (routed_server_ c) v (tds_server_name_ c).
Definition set_tds_server_name (v : bytes) (c : TdsConnection) : TdsConnection :=
  mkTdsConnection (socket_ c) (state_ c) (request_utf8_support_ c) (utf8_support_acked_ c) (host_ c) (port_ c)
  (database_ c) (spid_ c) (last_used_at_ c) (last_error_ c) (last_error_number_ c) (last_error_state_ c)
  (next_packet_id_ c) (tls_enabled_ c) (connect_timeout_seconds_ c) (requested_packet_size_ c)
  (negotiated_packet_size_ c) (transaction_descriptor_ c) (has_transaction_descriptor_ c) (needs_reset_ c)
  (fedauth_echo_ c) (has_routing_ c) (routed_server_ c) (routed_port_ c) v.

(** ** Computations on a connection *)

Definition M (A : Type) : Type := TdsConnection -> outcome A * TdsConnection.

#[global] Instance M_ret : MRet M := fun A a c => (Returns a, c).
#[global] Instance M_bind : MBind M := fun A B f m c =>
  match m c with
  | (Returns a, c) => f a c
  | (Throws e, c) => (Throws e, c)
  | (Running, c) => (Running, c)
  | (Undefined, c) => (Undefined, c)
  end.

Definition get : M TdsConnection := fun c => (Returns c, c).
Definition modify (f : TdsConnection -> TdsConnection) : M unit := fun c => (Returns tt, f c).

Definition lift {A} (m : res A) : M A := fun c =>
  (match m with Ok a => Returns a | Exn e => Throws e | Oob => Undefined end, c).
Definition lift_option {A} (m : option A) : M A := fun c =>
  (match m with Some a => Returns a | None => Running end, c).

(** The environment: fuel for the loops whose number of turns the peer
    decides, and what the operating system says. *)
Context (fuel : nat) (pid : Z) (client_hostname : bytes) (now : net -> Z).

Definition on_socket {A} (f : TdsSocket -> A * TdsSocket) : M A := fun c =>
  let '(a, s) := f (socket_ c) in (Returns a, set_socket s c).

Definition SendPacket (packet : TdsPacket) : M bool := fun c =>
  match Socket.SendPacket fuel packet (socket_ c) with
  | Some (ok, s) => (Returns ok, set_socket s c)
  | None => (Running, c)
  end.

Definition Send (data : bytes) : M bool := fun c =>
  match Socket.Send fuel data (socket_ c) with
  | Some (ok, s) => (Returns ok, set_socket s c)
  | None => (Running, c)
  end.

(** [None]: it returned false. *)
Definition ReceiveMessage (timeout_ms : Z) : M (option bytes) := fun c =>
  match Socket.ReceiveMessage fuel timeout_ms (socket_ c) with
  | Some (Ok (AMessage m, s)) => (Returns (Some m), set_socket s c)
  | Some (Ok (NoMessage, s)) => (Returns None, set_socket s c)
  | Some (Ok (MessageThrows e, s)) => (Throws e, set_socket s c)
  | Some (Exn e) => (Throws e, c)
  | Some Oob => (Undefined, c)
  | None => (Running, c)
  end.

Definition socket_error (c : TdsConnection) : sock_error := Socket.last_error_ (socket_ c).

(** [last_error_ = ...; return a]. *)
Definition fail {A} (e : TdsConnection -> conn_error) (a : A) : M A := fun c => (Returns a, set_last_error (e c) c).

(** [next_packet_id_++], eight bits. *)
Definition take_packet_id : M Z := fun c =>
  (Returns (next_packet_id_ c), set_next_packet_id ((next_packet_id_ c + 1) mod 256) c).

Definition UpdateLastUsed : M unit := modify (fun c => set_last_used_at (now (net_ (socket_ c))) c).

Definition handshake_timeout : Z := DEFAULT_CONNECTION_TIMEOUT * 1000.

(** [compare_exchange_strong]. *)
Definition compare_exchange (from to : ConnectionState) : M bool := fun c =>
  if decide (state_ c = from) then (Returns true, set_state to c) else (Returns false, c).

Definition TransitionState (from to : ConnectionState) : M bool := compare_exchange from to.

(** ** Connecting *)

Definition Connect (host : bytes) (port timeout_seconds : Z) : M bool :=
  ok ← compare_exchange Disconnected Authenticating;
  if negb ok then fail (fun c => InvalidStateForConnect (state_ c)) false else
  _ ← modify (fun c => set_last_error NoError (set_connect_timeout_seconds timeout_seconds (set_port port (set_host host c))));
  ok ← on_socket (Socket.Connect host port timeout_seconds);
  if negb ok then
    _ ← modify (fun c => set_state Disconnected (set_last_error (SocketError (socket_error c)) c));
    mret false
  else mret true.

Definition SetRequestedPacketSize (packet_size : Z) : M unit :=
  modify (set_requested_packet_size
    (if packet_size =? 0 then TDS_DEFAULT_PACKET_SIZE
     else if packet_size <? TDS_MIN_PACKET_SIZE then TDS_MIN_PACKET_SIZE
     else if TDS_MAX_PACKET_SIZE <? packet_size then TDS_MAX_PACKET_SIZE else packet_size)).

Definition NoteFeatureAcks (r : LoginResponse) : M unit :=
  modify (fun c => set_utf8_support_acked (request_utf8_support_ c && utf8_support_acked r) c).

Definition ApplyNegotiatedFraming : M unit :=
  modify (fun c =>
    let packet_size := if negotiated_packet_size_ c <? TDS_MIN_PACKET_SIZE
                       then TDS_DEFAULT_PACKET_SIZE else negotiated_packet_size_ c in
    let frames := TDS_RECV_BUFFER_TARGET_BYTES / packet_size in
    let frames := if frames <? TDS_RECV_MIN_FRAMES then TDS_RECV_MIN_FRAMES else frames in
    set_socket (SetReceiveFraming packet_size frames (socket_ c)) c).

(** ** PRELOGIN *)

(** Sending one packet and reading the answer; [None]: an error has been
    noted. *)
Definition exchange (name : string) (packet : TdsPacket) : M (option bytes) :=
  id ← take_packet_id;
  sent ← SendPacket (SetPacketId id packet);
  if negb sent then fail (fun c => FailedToSend name (socket_error c)) None else
  response ← ReceiveMessage handshake_timeout;
  match response with
  | None => fail (fun c => FailedToReceive name (socket_error c)) None
  | Some m => mret (Some m)
  end.

(** The tail the two PRELOGIN flavours share: encryption. *)
Definition negotiate_encryption (use_encrypt : bool) (encryption : Z) (sni_hostname : bytes) : M bool :=
  if use_encrypt then
    if encryption =? EncryptionOption.ENCRYPT_NOT_SUP then fail (fun _ => ServerWithoutTls) false
    else if encryption =? EncryptionOption.ENCRYPT_OFF then fail (fun _ => ServerDeclinedTls) false
    else
      c ← get;
      '(ok, id) ← on_socket (EnableTls (next_packet_id_ c) handshake_timeout sni_hostname);
      _ ← modify (set_next_packet_id id);
      if negb ok then fail (fun c => TlsHandshakeError (socket_error c)) false
      else _ ← modify (set_tls_enabled true); mret true
  else if encryption =? EncryptionOption.ENCRYPT_REQ then fail (fun _ => ServerRequiresTls) false
  else _ ← modify (set_tls_enabled false); mret true.

Definition DoPrelogin (use_encrypt : bool) : M bool :=
  response ← exchange "PRELOGIN" (BuildPrelogin use_encrypt);
  match response with
  | None => mret false
  | Some m =>
      r ← lift (ParsePreloginResponse m);
      if negb (Protocol.success r) then fail (fun _ => PreloginFailed (Protocol.error_message r)) false
      else negotiate_encryption use_encrypt (encryption r) []
  end.

Definition DoPreloginWithFedAuth (use_encrypt : bool) (sni_hostname : bytes) : M bool :=
  response ← exchange "PRELOGIN" (BuildPreloginWithFedAuth use_encrypt true);
  match response with
  | None => mret false
  | Some m =>
      r ← lift (ParsePreloginResponse m);
      if negb (Protocol.success r) then fail (fun _ => PreloginFailed (Protocol.error_message r)) false
      else
        _ ← modify (set_fedauth_echo (fedauth_echo r));
        negotiate_encryption use_encrypt (encryption r) sni_hostname
  end.

(** ** LOGIN7 *)

Definition default_app_name : bytes :=
  bs [68; 117; 99; 107; 68; 66; 32; 77; 83; 83; 81; 76; 32; 69; 120; 116; 101; 110; 115; 105; 111; 110].
Definition login7_app_name (app_name : bytes) : bytes := match app_name with [] => default_app_name | _ => app_name end.

(** [if (login_response.has_routing)]: routing outranks success. *)
Definition note_routing (r : LoginResponse) : M LoginAttemptOutcome :=
  _ ← modify (fun c => set_routed_port (routed_port r) (set_routed_server (routed_server r) (set_has_routing true c)));
  mret Route.

Definition note_failure (method : string) (r : LoginResponse) : M LoginAttemptOutcome :=
  _ ← modify (fun c => set_last_error_state (error_state r mod 256) (set_last_error_number (error_number r) c));
  fail (fun _ => AuthenticationFailed method (error_number r) (error_state r) (error_message r)) Failure.

Definition note_success (r : LoginResponse) : M LoginAttemptOutcome :=
  _ ← modify (fun c => set_negotiated_packet_size (negotiated_packet_size r) (set_spid (spid r) c));
  _ ← ApplyNegotiatedFraming;
  mret Success.

(** What SQL and Azure authentication make of the final response. *)
Definition conclude (method : string) (r : LoginResponse) : M LoginAttemptOutcome :=
  if has_routing r then note_routing r
  else if negb (success r) then note_failure method r
  else note_success r.

Definition DoLogin7 (username password database app_name : bytes) : M LoginAttemptOutcome :=
  c ← get;
  login ← lift (BuildLogin7 pid (host_ c) username password database (login7_app_name app_name)
                  (requested_packet_size_ c) (request_utf8_support_ c) (tds_server_name_ c));
  response ← exchange "LOGIN7" login;
  match response with
  | None => mret Failure
  | Some m =>
      r ← lift (ParseLoginResponse m);
      _ ← NoteFeatureAcks r;
      conclude "Authentication" r
  end.

(** Packets sent one after the other; the first that fails ends it. *)
Fixpoint send_all (packets : list TdsPacket) : M bool :=
  match packets with
  | [] => mret true
  | p :: packets => sent ← SendPacket p; if negb sent then mret false else send_all packets
  end.

(** [packet_id = 1; pkt.SetPacketId(packet_id++)]. *)
Fixpoint number_packets (id : Z) (packets : list TdsPacket) : list TdsPacket :=
  match packets with
  | [] => []
  | p :: packets => SetPacketId id p :: number_packets ((id + 1) mod 256) packets
  end.

Definition DoLogin7WithFedAuth (database fedauth_token app_name : bytes) : M LoginAttemptOutcome :=
  c ← get;
  login ← lift (BuildLogin7WithADAL pid client_hostname (tds_server_name_ c) database (fedauth_echo_ c)
                  (login7_app_name app_name) (requested_packet_size_ c) (request_utf8_support_ c));
  response ← exchange "LOGIN7" login;
  match response with
  | None => mret Failure
  | Some m =>
      r ← lift (ParseLoginResponse m);
      _ ← NoteFeatureAcks r;
      if has_fedauth_info r then
        packets ← lift_option (BuildFedAuthTokenMultiPacket fuel fedauth_token TDS_DEFAULT_PACKET_SIZE []);
        sent ← send_all (number_packets 1 packets);
        if negb sent then fail (fun c => FailedToSend "FEDAUTH_TOKEN" (socket_error c)) Failure else
        response ← ReceiveMessage handshake_timeout;
        match response with
        | None => fail (fun c => FailedToReceive "LOGINACK after FEDAUTH_TOKEN" (socket_error c)) Failure
        | Some m =>
            r ← lift (ParseLoginResponse m);
            _ ← NoteFeatureAcks r;
            conclude "Azure AD authentication" r
        end
      else conclude "Azure AD authentication" r
  end.

(** ** Integrated authentication *)

(** Each packet of a message takes the next id. *)
Fixpoint send_numbered (packets : list TdsPacket) : M bool :=
  match packets with
  | [] => mret true
  | p :: packets =>
      id ← take_packet_id;
      sent ← SendPacket (SetPacketId id p);
      if negb sent then mret false else send_numbered packets
  end.

Definition send_split (name : string) (message : TdsPacket) (max_packet : Z) : M bool :=
  packets ← lift_option (SplitIntoPackets fuel message max_packet);
  sent ← send_numbered packets;
  if negb sent then fail (fun c => FailedToSend name (socket_error c)) false else mret true.

Definition MAX_SSPI_ROUNDS : nat := 8.

(** The continuation loop on SSPI tokens, [rounds] to go. *)
Fixpoint sspi_rounds (rounds : nat) (max_packet : Z) (authenticator : auth) : M LoginAttemptOutcome :=
  match rounds with
  | O => fail (fun _ => SspiRoundsExceeded) Failure
  | S rounds =>
      response ← ReceiveMessage handshake_timeout;
      match response with
      | None => fail (fun c => FailedToReceive "LOGIN7 response (integrated)" (socket_error c)) Failure
      | Some m =>
          r ← lift (ParseLoginResponse m);
          _ ← NoteFeatureAcks r;
          if has_routing r then note_routing r
          else if success r then note_success r
          else if negb (has_sspi_token r) then note_failure "Kerberos auth" r
          else
            let '(blob, authenticator) := NextBytes (sspi_token r) authenticator in
            match blob with
            | inl what => fail (fun _ => AuthenticatorError what) Failure
            | inr [] => sspi_rounds rounds max_packet authenticator
            | inr next_blob =>
                sent ← send_split "SSPI continuation packet" (BuildSSPIMessage next_blob) max_packet;
                if negb sent then mret Failure else sspi_rounds rounds max_packet authenticator
            end
      end
  end.

Definition DoLoginIntegrated (authenticator : auth) (database app_name : bytes) (max_packet : Z)
    : M LoginAttemptOutcome :=
  let '(blob, authenticator) := InitialBytes authenticator in
  match blob with
  | inl what => fail (fun _ => AuthenticatorError what) Failure
  | inr [] => fail (fun _ => EmptyInitialBlob) Failure
  | inr initial_blob =>
      c ← get;
      login ← lift (BuildLogin7WithSSPI pid client_hostname
                      (match tds_server_name_ c with [] => host_ c | s => s end) database initial_blob
                      (login7_app_name app_name) (requested_packet_size_ c) (request_utf8_support_ c));
      sent ← send_split "LOGIN7 (integrated) packet" login max_packet;
      if negb sent then mret Failure else sspi_rounds MAX_SSPI_ROUNDS max_packet authenticator
  end.

(** ** Routing *)

(** The last position of a byte, and the first. *)
Fixpoint rfind (b : byte) (s : bytes) : option nat :=
  match s with
  | [] => None
  | x :: s =>
      match rfind b s with
      | Some i => Some (S i)
      | None => if decide (x = b) then Some O else None
      end
  end.
Fixpoint find_byte (b : byte) (s : bytes) : option nat :=
  match s with
  | [] => None
  | x :: s => if decide (x = b) then Some O else S <$> find_byte b s
  end.

(** [std::stoi] of a text of digits; a value outside [int] throws and is
    ignored, as one outside 1..65535 is. *)
Definition port_suffix (port_str : bytes) : option Z :=
  match port_str with
  | [] => None
  | _ =>
      if forallb is_digit port_str then
        let parsed_port := digits 0 port_str in
        if (0 <? parsed_port) && (parsed_port <=? 65535) then Some parsed_port else None
      else None
  end.

Definition colon : byte := z2b 58.
Definition backslash : byte := z2b 92.

(** The ServerName for LOGIN7, the host for TCP, and the port. *)
Definition routed_target (routed_server : bytes) (routed_port : Z) : bytes * bytes * Z :=
  let '(server, port) :=
    match rfind colon routed_server with
    | Some i =>
        match port_suffix (drop (S i) routed_server) with
        | Some p => (take i routed_server, p)
        | None => (routed_server, routed_port)
        end
    | None => (routed_server, routed_port)
    end in
  (server, match find_byte backslash server with Some i => take i server | None => server end, port).

Definition NormalizeRoutedTarget (routed_server : bytes) (routed_port : Z) : M (bytes * Z) :=
  let '(name, host, port) := routed_target routed_server routed_port in
  _ ← modify (set_tds_server_name name);
  mret (host, port).

Definition MAX_ROUTING_HOPS : Z := 5.

(** The state an attempt starts from. *)
Definition fresh_attempt (c : TdsConnection) : TdsConnection :=
  set_fedauth_echo false (set_tls_enabled false (set_next_packet_id 1 (set_last_error_state 0
    (set_last_error_number 0 (set_routed_port 0 (set_routed_server [] (set_has_routing false c))))))).

Definition disconnect_socket (c : TdsConnection) : TdsConnection :=
  set_socket (Socket.Close (socket_ c)) (set_state Disconnected c).

(** [routing_hop] is a number from 0 to [MAX_ROUTING_HOPS], so [hops], one more
    than is left, is never used up: the code's last lines are unreachable. *)
Fixpoint hop_loop (hops : nat) (attempt : Z -> M LoginAttemptOutcome) (routing_hop : Z) : M bool :=
  match hops with
  | O =>
      _ ← modify (fun c => disconnect_socket (set_last_error HopLoopExited c));
      mret false
  | S hops =>
      _ ← modify fresh_attempt;
      outcome ← attempt routing_hop;
      match outcome with
      | Success => _ ← modify (set_state Idle); mret true
      | Failure => _ ← modify disconnect_socket; mret false
      | Route =>
          let routing_hop := routing_hop + 1 in
          if MAX_ROUTING_HOPS <? routing_hop then
            _ ← modify (fun c => disconnect_socket
                   (set_last_error (TooManyRoutingHops routing_hop (routed_server_ c) (routed_port_ c)) c));
            mret false
          else
            c ← get;
            '(next_server, next_port) ← NormalizeRoutedTarget (routed_server_ c) (routed_port_ c);
            _ ← modify (fun c => set_port next_port (set_host next_server (set_socket (Socket.Close (socket_ c)) c)));
            c ← get;
            ok ← on_socket (Socket.Connect next_server next_port (connect_timeout_seconds_ c));
            if negb ok then
              _ ← modify (fun c => set_state Disconnected
                     (set_last_error (FailedToConnectToRouted next_server next_port (socket_error c)) c));
              mret false
            else hop_loop hops attempt routing_hop
      end
  end.

Definition RunWithRoutingHops (attempt : Z -> M LoginAttemptOutcome) : M bool :=
  hop_loop (S (Z.to_nat MAX_ROUTING_HOPS)) attempt 0.

(** What the three [Authenticate] functions share around the attempt. *)
Definition authenticate (database : bytes) (attempt : Z -> M LoginAttemptOutcome) : M bool :=
  c ← get;
  if negb (bool_decide (state_ c = Authenticating)) then fail (fun _ => NotAuthenticating) false else
  _ ← modify (fun c => set_database database (set_tds_server_name (host_ c) c));
  ok ← RunWithRoutingHops attempt;
  if negb ok then _ ← modify (set_database []); mret false
  else _ ← UpdateLastUsed; mret true.

Definition sql_attempt (username password database app_name : bytes) (use_encrypt : bool) : M LoginAttemptOutcome :=
  ok ← DoPrelogin use_encrypt;
  if negb ok then mret Failure else DoLogin7 username password database app_name.

Definition Authenticate (username password database : bytes) (use_encrypt : bool) (app_name : bytes) : M bool :=
  authenticate database (fun _ => sql_attempt username password database app_name use_encrypt).

Definition fedauth_attempt (database fedauth_token app_name : bytes) (use_encrypt : bool) : M LoginAttemptOutcome :=
  ok ← DoPreloginWithFedAuth use_encrypt [];
  if negb ok then mret Failure else DoLogin7WithFedAuth database fedauth_token app_name.

Definition AuthenticateWithFedAuth (database fedauth_token : bytes) (use_encrypt : bool) (app_name : bytes) : M bool :=
  authenticate database (fun _ => fedauth_attempt database fedauth_token app_name use_encrypt).

(** The factory is called for every attempt, with the hop's host and port (a
    null factory is one that gives nothing). [first_attempt] is a variable the
    lambda captures, true until an authenticator has been built; a null one ends
    the login, so it is true exactly before the first hop. *)
Definition integrated_attempt (factory : bytes -> Z -> option auth) (database app_name : bytes)
    (use_encrypt : bool) (max_packet routing_hop : Z) : M LoginAttemptOutcome :=
  c ← get;
  match factory (host_ c) (port_ c) with
  | None =>
      fail (fun c => if routing_hop =? 0 then NoAuthenticator else NoAuthenticatorForHop (host_ c) (port_ c)) Failure
  | Some authenticator =>
      ok ← DoPrelogin use_encrypt;
      if negb ok then mret Failure else DoLoginIntegrated authenticator database app_name max_packet
  end.

Definition AuthenticateIntegrated (database : bytes) (factory : bytes -> Z -> option auth) (use_encrypt : bool)
    (app_name : bytes) (login7_max_packet : Z) : M bool :=
  let login7_fragment_size :=
    if (256 <=? login7_max_packet) && (login7_max_packet <=? TDS_MAX_PACKET_SIZE) then login7_max_packet
    else TDS_DEFAULT_PACKET_SIZE in
  authenticate database (integrated_attempt factory database app_name use_encrypt login7_fragment_size).

(** ** A logged-in connection *)

Definition IsAlive (c : TdsConnection) : bool :=
  negb (bool_decide (state_ c = Disconnected)) && IsConnected (socket_ c).

Definition IsLongIdle (c : TdsConnection) : bool :=
  LONG_IDLE_THRESHOLD <? (now (net_ (socket_ c)) - last_used_at_ c) / 1000.

Definition Ping (timeout_ms : Z) : M bool :=
  ok ← compare_exchange Idle Executing;
  if negb ok then c ← get; mret (bool_decide (state_ c = Executing)) else
  id ← take_packet_id;
  sent ← SendPacket (SetPacketId id BuildPing);
  success ← (if negb sent then mret false else
             response ← ReceiveMessage timeout_ms;
             match response with
             | Some m => lift (IsSuccessResponse m)
             | None => mret false
             end);
  if success : bool then
    _ ← modify (set_state Idle);
    _ ← UpdateLastUsed;
    mret true
  else
    _ ← modify (fun c => set_state Disconnected (set_last_error (PingFailed (socket_error c)) c));
    mret false.

Definition ValidateWithPing : M bool :=
  c ← get; if negb (IsAlive c) then mret false else Ping 5000.

Definition SendAttention : M bool :=
  ok ← compare_exchange Executing Cancelling;
  if negb ok then mret false else
  id ← take_packet_id;
  sent ← SendPacket (SetPacketId id BuildAttention);
  if negb sent then
    _ ← modify (fun c => set_state Disconnected (set_last_error (FailedToSend "ATTENTION" (socket_error c)) c));
    mret false
  else mret true.

(** The [while]: the clock is read before every message. *)
Fixpoint attention_wait (turns : nat) (start timeout_ms : Z) : M bool :=
  match turns with
  | O => fun c => (Running, c)
  | S turns =>
      c ← get;
      let elapsed := now (net_ (socket_ c)) - start in
      if timeout_ms <=? elapsed then
        _ ← modify (fun c => set_state Disconnected (set_last_error AttentionTimeout c));
        mret false
      else
        response ← ReceiveMessage (timeout_ms - elapsed);
        match response with
        | Some m =>
            acked ← lift (ParseDoneForAttentionAck m);
            if acked : bool then
              _ ← modify (set_state Idle);
              _ ← UpdateLastUsed;
              mret true
            else attention_wait turns start timeout_ms
        | None => _ ← modify (set_state Disconnected); mret false
        end
  end.

Definition WaitForAttentionAck (timeout_ms : Z) : M bool :=
  c ← get;
  if negb (bool_decide (state_ c = Cancelling)) then mret false
  else attention_wait fuel (now (net_ (socket_ c))) timeout_ms.

Definition Close : M unit :=
  c ← get;
  if decide (state_ c = Disconnected) then mret tt else
  _ ← (if decide (state_ c = Executing) then
         _ ← SendAttention; _ ← WaitForAttentionAck (CANCELLATION_TIMEOUT * 1000); mret tt
       else mret tt);
  modify (fun c => set_database [] (set_spid 0 (set_state Disconnected (set_socket (Socket.Close (socket_ c)) c)))).

Definition SetTransactionDescriptor (descriptor : option bytes) : M unit :=
  match descriptor with
  | Some d => modify (fun c => set_has_transaction_descriptor true (set_transaction_descriptor (ztake 8 d) c))
  | None => modify (fun c => set_has_transaction_descriptor false (set_transaction_descriptor (replicate 8 Byte.x00) c))
  end.

Definition ClearTransactionDescriptor : M unit := SetTransactionDescriptor None.

Definition GetTransactionDescriptor (c : TdsConnection) : option bytes :=
  if has_transaction_descriptor_ c then Some (transaction_descriptor_ c) else None.

Definition SetNeedsReset (reset : bool) : M unit := modify (set_needs_reset reset).

(** The RESET_CONNECTION flag goes on the first packet. *)
Definition flag_reset (packets : list TdsPacket) : list TdsPacket :=
  match packets with
  | first :: rest => SetStatus (Z.lor (status_ first) PacketStatus.RESET_CONNECTION) first :: rest
  | [] => []
  end.

(** Several packets: at once over TCP, one by one over TLS. *)
Definition send_batch (packets : list TdsPacket) : M bool :=
  match packets with
  | _ :: _ :: _ =>
      c ← get;
      if negb (IsTlsEnabled (socket_ c)) then Send (concat (Serialize <$> number_packets 1 packets))
      else send_all (number_packets 1 packets)
  | _ => send_numbered packets
  end.

(** The error text of each way of sending; the one over TLS also has the
    packet's index, which is not kept. *)
Definition batch_name (packets : list TdsPacket) (tls : bool) : string :=
  match packets with
  | _ :: _ :: _ => if tls then "TLS packet" else "multi-packet SQL_BATCH"
  | _ => "SQL_BATCH"
  end.

Definition ExecuteBatch (sql : bytes) : M bool :=
  ok ← compare_exchange Idle Executing;
  if negb ok then fail (fun c => CannotExecute (state_ c)) false else
  c ← get;
  packets ← lift_option (BuildSqlBatchMultiPacket fuel sql (negotiated_packet_size_ c) (GetTransactionDescriptor c));
  packets ← (if needs_reset_ c && negb (bool_decide (packets = []))
             then _ ← modify (set_needs_reset false); mret (flag_reset packets) else mret packets);
  sent ← send_batch packets;
  if negb sent then
    _ ← modify (fun c => set_state Disconnected
           (set_last_error (FailedToSend (batch_name packets (IsTlsEnabled (socket_ c))) (socket_error c)) c));
    mret false
  else mret true.

(** [None] is -1, [Some []] is 0. *)
Definition ReceiveData (buffer_size timeout_ms : Z) : M (option bytes) :=
  c ← get;
  if negb (bool_decide (state_ c = Executing)) && negb (bool_decide (state_ c = Cancelling))
  then fail (fun _ => CannotReceive) None else
  received ← on_socket (Receive buffer_size timeout_ms);
  match received with
  | None => _ ← modify (fun c => set_state Disconnected (set_last_error (ReceiveError (socket_error c)) c)); mret None
  | Some [] => _ ← modify (set_state Disconnected); mret (Some [])
  | Some b => mret (Some b)
  end.
End Connection.
