(* ===== verification/ConnectionSpec.v ===== *)
(** * What a connection promises (about [Connection])

    A computation on a connection is judged by [wp]; a login step, which keeps
    the connection's state and target, by [triple]. On these rest: the loop over
    the routing hops, the wire form of a batch ([message_of], [sends]), and the
    refinement of an abstract state machine ([machine]) by every operation
    ([refines]).

    Properties: the refinement over any sequence of calls, the contract of
    [RunWithRoutingHops], the splitting of a routed target, the message
    [ExecuteBatch] sends. *)

From S2P Require Import Prelude TdsTypes Utf16 Packet Socket ColumnMetadata RowReader TokenParser Protocol LoginResponse Connection.

(** ** Reasoning about computations *)

Section Logic.
Context {T : Transport} {Si : Simdutf} {Au : Authenticator}.

(** [m] run on [c] does not reach [Undefined]; [Q] if it returns, [E] if it
    throws. *)
Definition wp {A} (m : M A) (c : TdsConnection) (Q : A -> TdsConnection -> Prop) (E : exn -> TdsConnection -> Prop)
    : Prop :=
  match m c with
  | (Returns a, c') => Q a c'
  | (Throws e, c') => E e c'
  | (Running, _) => True
  | (Undefined, _) => False
  end.

Lemma wp_ret {A} (a : A) c (Q : A -> TdsConnection -> Prop) E : Q a c -> wp (mret a) c Q E.
Proof. done. Qed.

Lemma wp_bind {A B} (m : M A) (f : A -> M B) c Q E :
  wp m c (fun a c' => wp (f a) c' Q E) E -> wp (m ≫= f) c Q E.
Proof. unfold wp, mbind, M_bind. destruct (m c) as [[a|e| |] c']; done. Qed.

Lemma wp_mono {A} (m : M A) c Q Q' E E' :
  wp m c Q E -> (forall a c', Q a c' -> Q' a c') -> (forall e c', E e c' -> E' e c') -> wp m c Q' E'.
Proof. unfold wp. destruct (m c) as [[a|e| |] c']; auto. Qed.

Lemma wp_get c (Q : TdsConnection -> TdsConnection -> Prop) E : Q c c -> wp get c Q E.
Proof. done. Qed.

Lemma wp_modify f c (Q : unit -> TdsConnection -> Prop) E : Q tt (f c) -> wp (modify f) c Q E.
Proof. done. Qed.

Lemma wp_fail {A} e (a : A) c Q E : Q a (set_last_error (e c) c) -> wp (fail e a) c Q E.
Proof. done. Qed.

Lemma wp_lift {A} (m : res A) c (Q : A -> TdsConnection -> Prop) (E : exn -> TdsConnection -> Prop) :
  holds m (fun a => Q a c) -> throws_only (fun e => E e c) m -> wp (lift m) c Q E.
Proof. by destruct m. Qed.

Lemma wp_lift_option {A} (m : option A) c (Q : A -> TdsConnection -> Prop) E :
  (forall a, m = Some a -> Q a c) -> wp (lift_option m) c Q E.
Proof. unfold wp, lift_option. destruct m; auto. Qed.

Lemma wp_if {A} (b : bool) (m k : M A) c Q E :
  (b = true -> wp m c Q E) -> (b = false -> wp k c Q E) -> wp (if b then m else k) c Q E.
Proof. destruct b; auto. Qed.

(** ** What every connection satisfies, and what a login leaves alone *)

Record conn_ok (c : TdsConnection) : Prop := {
  ok_socket : socket_ok (socket_ c);
  ok_negotiated : TDS_MIN_PACKET_SIZE <= negotiated_packet_size_ c <= TDS_MAX_PACKET_SIZE;
  ok_requested : TDS_MIN_PACKET_SIZE <= requested_packet_size_ c <= TDS_MAX_PACKET_SIZE;
  ok_packet_id : 0 <= next_packet_id_ c < 256;
  ok_descriptor : zlen (transaction_descriptor_ c) = 8
}.

(** "NEVER touch state_": an attempt keeps the state, the target and what the
    caller configured. *)
Record steady (c c' : TdsConnection) : Prop := {
  st_ok : conn_ok c';
  st_state : state_ c' = state_ c;
  st_host : host_ c' = host_ c;
  st_port : port_ c' = port_ c;
  st_database : database_ c' = database_ c;
  st_name : tds_server_name_ c' = tds_server_name_ c;
  st_timeout : connect_timeout_seconds_ c' = connect_timeout_seconds_ c;
  st_requested : requested_packet_size_ c' = requested_packet_size_ c;
  st_utf8 : request_utf8_support_ c' = request_utf8_support_ c;
  st_txn : GetTransactionDescriptor c' = GetTransactionDescriptor c;
  st_reset : needs_reset_ c' = needs_reset_ c
}.

Lemma steady_refl c : conn_ok c -> steady c c.
Proof. by constructor. Qed.

Lemma steady_trans c1 c2 c3 : steady c1 c2 -> steady c2 c3 -> steady c1 c3.
Proof. intros [] []. constructor; congruence. Qed.

(** The exceptions that can leave the TDS layer during a login. *)
Definition login_exn (e : exn) : Prop :=
  match e with Login7FieldTooLong _ _ | SspiOffsetTooLarge | InvalidPacketLength => True | _ => False end.

(** From a connection with [P], [m] is steady and returns with [Q]. *)
Definition triple {A} (P : TdsConnection -> Prop) (m : M A) (Q : A -> TdsConnection -> Prop) : Prop :=
  forall c, conn_ok c -> P c ->
    wp m c (fun a c' => steady c c' /\ Q a c') (fun e c' => steady c c' /\ login_exn e).

Definition always {A} (_ : A) (_ : TdsConnection) : Prop := True.

Lemma triple_ret {A} P (a : A) Q : (forall c, P c -> Q a c) -> triple P (mret a) Q.
Proof. intros H c Hok Hc. apply wp_ret. split; [by apply steady_refl|auto]. Qed.

Lemma triple_bind {A B} P R Q (m : M A) (f : A -> M B) :
  triple P m R -> (forall a, triple (R a) (f a) Q) -> triple P (m ≫= f) Q.
Proof.
  intros Hm Hf c Hok HP. apply wp_bind. eapply wp_mono; [by apply Hm| |done].
  intros a c1 [H1 HR]. eapply wp_mono; [apply Hf; [apply H1|done]|..].
  - intros b c2 [H2 HQ]. split; [by eapply steady_trans|done].
  - intros e c2 [H2 He]. split; [by eapply steady_trans|done].
Qed.

Lemma triple_mono {A} (P P' : TdsConnection -> Prop) (Q Q' : A -> TdsConnection -> Prop) m :
  triple P m Q -> (forall c, P' c -> P c) -> (forall a c, Q a c -> Q' a c) -> triple P' m Q'.
Proof.
  intros H HP HQ c Hok Hc. eapply wp_mono; [apply H; auto| |done]. intros a c' [Hs Hq]. auto.
Qed.

Lemma triple_if {A} P (b : bool) (m k : M A) Q :
  (b = true -> triple P m Q) -> (b = false -> triple P k Q) -> triple P (if b then m else k) Q.
Proof. destruct b; auto. Qed.

(** The connection as it is now may be looked at. *)
Lemma triple_get {A} P (f : TdsConnection -> M A) Q :
  (forall c0, triple (fun c => P c /\ c = c0) (f c0) Q) -> triple P (get ≫= f) Q.
Proof. intros H c Hok HP. apply wp_bind, wp_get. by apply H. Qed.

Lemma triple_modify P f Q :
  (forall c, conn_ok c -> P c -> steady c (f c) /\ Q tt (f c)) -> triple P (modify f) Q.
Proof. intros H c Hok HP. apply wp_modify. by apply H. Qed.

Lemma steady_error c e : conn_ok c -> steady c (set_last_error e c).
Proof. intros []. by constructor. Qed.

Definition err_set (c : TdsConnection) : Prop := last_error_ c <> NoError.

Lemma triple_fail {A} P e (a : A) (Q : A -> TdsConnection -> Prop) :
  (forall c, P c -> e c <> NoError) -> (forall c, err_set c -> Q a c) -> triple P (fail e a) Q.
Proof.
  intros He HQ c Hok HP. apply wp_fail. split; [by apply steady_error|]. apply HQ. unfold err_set. simpl. eauto.
Qed.

Lemma triple_lift {A} P (m : res A) (Q : A -> TdsConnection -> Prop) :
  holds m (fun a => forall c, P c -> Q a c) -> throws_only login_exn m -> triple P (lift m) Q.
Proof.
  intros Hh Ht c Hok HP. apply wp_lift.
  - eapply holds_mono; [exact Hh|]. intros a Ha. split; [by apply steady_refl|auto].
  - destruct m; simpl in *; auto using steady_refl.
Qed.

Lemma triple_lift_option {A} P (m : option A) (Q : A -> TdsConnection -> Prop) :
  (forall a c, P c -> Q a c) -> triple P (lift_option m) Q.
Proof. intros H c Hok HP. apply wp_lift_option. intros a _. split; [by apply steady_refl|auto]. Qed.

Definition connected (c : TdsConnection) : Prop := IsConnected (socket_ c) = true.

Lemma steady_socket s c : conn_ok c -> socket_ok s -> steady c (set_socket s c).
Proof. intros [] Hs. by constructor. Qed.
End Logic.

(** ** The steps of a login *)

Section Steps.
Context {T : Transport} {Si : Simdutf} {Au : Authenticator}.
Context (fuel : nat) (pid : Z) (client_hostname : bytes) (now : net -> Z).

(** A step that notes an error and returns. *)
Ltac tfail := apply triple_fail; [intros; discriminate|intros; simpl; auto].

Lemma triple_SendPacket P packet :
  triple P (SendPacket fuel packet) (fun ok c => ok = true -> connected c).
Proof.
  intros c Hok _. unfold wp, SendPacket, Socket.SendPacket.
  destruct (Socket.Send fuel (Serialize packet) (socket_ c)) as [[ok s]|] eqn:E; [|done].
  apply Send_client in E as [Hs Hc]; [|apply Hok]. split; [by apply steady_socket|exact Hc].
Qed.

Lemma triple_ReceiveMessage t :
  triple connected (ReceiveMessage fuel t) (fun o c => match o with Some _ => connected c | None => True end).
Proof.
  intros c Hok Hcon. unfold wp, ReceiveMessage.
  destruct (Socket.ReceiveMessage fuel t (socket_ c)) as [o|] eqn:E; [|done].
  pose proof E as E2. apply message_loop_spec in E as (x & s' & -> & Hs & _ & new & _ & Hx); [|apply Hok].
  destruct x as [|m|e].
  - split; [by apply steady_socket|done].
  - split; [by apply steady_socket|]. apply message_loop_connected in E2. unfold connected in *. simpl. by rewrite E2.
  - split; [by apply steady_socket|]. by rewrite Hx.
Qed.

Lemma triple_take_packet_id P : triple P take_packet_id always.
Proof.
  intros c [] _. unfold wp, take_packet_id. split; [|done]. constructor; try done. constructor; try done. simpl.
  apply Z.mod_pos_bound. lia.
Qed.

(** A non-empty answer comes over a connected socket, and no answer has left an
    error. *)
Definition answered {A} (o : option A) (c : TdsConnection) : Prop :=
  match o with Some _ => connected c | None => err_set c end.

Lemma triple_exchange P name packet : triple P (exchange fuel name packet) answered.
Proof.
  unfold exchange. eapply triple_bind; [apply triple_take_packet_id|]. intros id.
  eapply triple_bind; [apply triple_SendPacket|]. intros [] ; simpl negb; cbv iota.
  - eapply (triple_mono connected _ answered); [|intros c Hc; exact (Hc eq_refl)|done].
    eapply triple_bind; [apply triple_ReceiveMessage|]. intros [m|].
    + by apply triple_ret.
    + tfail.
  - tfail.
Qed.

(** The result of a step that returns a [bool]. *)
Definition done_or_error (ok : bool) (c : TdsConnection) : Prop := if ok then connected c else err_set c.

Lemma steady_tls b c : conn_ok c -> steady c (set_tls_enabled b c).
Proof. intros []. by constructor. Qed.

Lemma triple_negotiate use_encrypt enc sni :
  triple connected (negotiate_encryption use_encrypt enc sni) done_or_error.
Proof.
  unfold negotiate_encryption. apply triple_if; intros _.
  - apply triple_if; intros _; [tfail|]. apply triple_if; intros _; [tfail|].
    apply triple_get. intros c0. eapply (triple_bind _ (fun r c => c = c /\ 0 <= r.2 < 256 /\ (r.1 = true -> connected c))).
    + intros c Hok [Hc ->]. unfold wp, on_socket.
      destruct (EnableTls (next_packet_id_ c0) handshake_timeout sni (socket_ c0)) as [[ok id] s] eqn:E.
      pose proof E as E2. apply EnableTls_client in E as [Hs Hcon]; [|apply Hok].
      split; [by apply steady_socket|]. split; [done|]. split; [|exact Hcon]. simpl.
      destruct Hok. revert E2. unfold EnableTls. cbv zeta. destruct (negb _); [by intros [= _ <- _]|].
      destruct (tls_context_ _); [by intros [= _ <- _]|].
      pose proof (tls_handshake_id (match sni with [] => Socket.host_ (ClearReceiveBuffer (socket_ c0)) | _ => sni end)
                    handshake_timeout (next_packet_id_ c0) (net_ (ClearReceiveBuffer (socket_ c0)))) as Hid.
      destruct (tls_handshake _ _ _ _) as [[b i] n]. simpl in Hid. destruct b; intros [= _ <- _]; auto.
    + intros [ok id]. simpl. eapply (triple_bind _ (fun _ c => ok = true -> connected c)).
      * apply triple_modify. intros c [] (_ & Hid & Hc). split; [|exact Hc]. by constructor.
      * intros []. destruct ok; simpl negb; cbv iota; [|tfail].
        eapply (triple_bind _ (fun _ c => connected c)).
        -- apply triple_modify. intros c Hok Hc. split; [by apply steady_tls|exact (Hc eq_refl)].
        -- intros []. by apply triple_ret.
  - apply triple_if; intros _; [tfail|]. eapply (triple_bind _ (fun _ c => connected c)).
    + apply triple_modify. intros c Hok Hc. split; [by apply steady_tls|exact Hc].
    + intros []. by apply triple_ret.
Qed.

Lemma throws_get16be P data i : throws_only P (get16be data i).
Proof. repeat (apply throws_bind; [apply throws_get8|intro]). done. Qed.

#[local] Hint Resolve throws_get16be : tds.

Lemma prelogin_option_throws data o off len r : throws_only (fun _ => False) (prelogin_option data o off len r).
Proof. unfold prelogin_option. no_throw. Qed.

Lemma prelogin_loop_throws fu data pos r : throws_only (fun _ => False) (prelogin_loop fu data pos r).
Proof.
  revert pos r. induction fu as [|fu IH]; intros pos r; cbn [prelogin_loop]; cbv zeta; [done|].
  pose proof prelogin_option_throws. no_throw.
Qed.

(** A step of a login that may throw, but only what a login may. *)
Definition login_res {A} (m : res A) : Prop :=
  match m with Ok _ => True | Exn e => login_exn e | Oob => False end.

Lemma login_res_bind {A B} (m : res A) (f : A -> res B) :
  login_res m -> (forall a, login_res (f a)) -> login_res (m ≫= f).
Proof. by destruct m; simpl; auto. Qed.

Lemma triple_build {A} P (m : res A) : login_res m -> triple P (lift m) always.
Proof. intros H. apply triple_lift; by destruct m. Qed.

Lemma login_res_field name text offset obf : login_res (EncodeLogin7VarField name text offset obf).
Proof. unfold EncodeLogin7VarField. cbv zeta. by destruct (_ <? _). Qed.

Ltac login_fields := repeat (apply login_res_bind; [apply login_res_field|intros [? ?]]).

Lemma login_res_sql host username password database app_name size utf8 server :
  login_res (BuildLogin7 pid host username password database app_name size utf8 server).
Proof. unfold BuildLogin7. login_fields. done. Qed.

Lemma login_res_adal host server database echo app_name size utf8 :
  login_res (BuildLogin7WithADAL pid host server database echo app_name size utf8).
Proof. unfold BuildLogin7WithADAL, login7_fedauth. login_fields. done. Qed.

Lemma login_res_sspi host server database blob app_name size utf8 :
  login_res (BuildLogin7WithSSPI pid host server database blob app_name size utf8).
Proof. unfold BuildLogin7WithSSPI. cbv zeta. login_fields. by destruct (_ <? _). Qed.

Lemma ParsePreloginResponse_returns data : exists r, ParsePreloginResponse data = Ok r.
Proof.
  unfold ParsePreloginResponse. destruct data as [|b data]; [eauto|]. set (d := b :: data).
  destruct (returns_of (prelogin_loop (S (length d)) d 0 new_prelogin) (fun _ => True)) as (r & E & _); [| |by exists r].
  - eapply holds_mono; [|done]. apply (prelogin_loop_spec _ _ 0); [done|unfold zlen; lia|lia|intros j Hj; lia].
  - apply prelogin_loop_throws.
Qed.

Lemma triple_prelogin_response P data : triple P (lift (ParsePreloginResponse data)) (fun _ => P).
Proof. destruct (ParsePreloginResponse_returns data) as [r ->]. by apply triple_ret. Qed.

Lemma triple_login_response P data :
  triple P (lift (ParseLoginResponse data)) (fun r c => P c /\ response_ok r).
Proof. destruct (ParseLoginResponse_returns data) as (r & -> & Hr). by apply triple_ret. Qed.

(** Binding on a step whose answer is to be looked at. *)
Lemma triple_answered {A B} P m (f : option A -> M B) (Q : B -> TdsConnection -> Prop) :
  triple P m answered -> triple err_set (f None) Q -> (forall a, triple connected (f (Some a)) Q) ->
  triple P (m ≫= f) Q.
Proof. intros Hm Hn Hs. eapply triple_bind; [exact Hm|]. by intros [a|]. Qed.

Lemma triple_step {B} P m (f : unit -> M B) Q : triple P m (fun _ => P) -> triple P (f tt) Q -> triple P (m ≫= f) Q.
Proof. intros Hm Hf. eapply triple_bind; [exact Hm|]. by intros []. Qed.

Lemma triple_quiet {B} P g (f : unit -> M B) (Q : B -> TdsConnection -> Prop) :
  (forall c, conn_ok c -> P c -> steady c (g c) /\ P (g c)) -> triple P (f tt) Q -> triple P (modify g ≫= f) Q.
Proof. intros Hg. apply triple_step. by apply triple_modify. Qed.

Ltac quiet := apply triple_quiet; [intros ? [] ?; split; [by constructor|done]|].

Lemma triple_DoPrelogin P use_encrypt : triple P (DoPrelogin fuel use_encrypt) done_or_error.
Proof.
  unfold DoPrelogin. apply triple_answered; [apply triple_exchange|by apply triple_ret|]. intros m.
  eapply triple_bind; [apply triple_prelogin_response|]. intros r.
  apply triple_if; intros _; [tfail|apply triple_negotiate].
Qed.

Lemma triple_DoPreloginWithFedAuth P use_encrypt sni : triple P (DoPreloginWithFedAuth fuel use_encrypt sni) done_or_error.
Proof.
  unfold DoPreloginWithFedAuth. apply triple_answered; [apply triple_exchange|by apply triple_ret|]. intros m.
  eapply triple_bind; [apply triple_prelogin_response|]. intros r.
  apply triple_if; intros _; [tfail|]. quiet. apply triple_negotiate.
Qed.

(** What an attempt leaves behind for the loop over the hops. *)
Definition login_post (o : LoginAttemptOutcome) (c : TdsConnection) : Prop :=
  match o with
  | Success => connected c
  | Route => has_routing_ c = true /\ routed_server_ c <> [] /\ 0 <= routed_port_ c < 65536
  | Failure => err_set c
  end.

Lemma triple_note_routing r :
  has_routing r = true -> response_ok r -> triple connected (note_routing r) login_post.
Proof.
  intros Hr (_ & Hp & Hs & _). unfold note_routing.
  eapply (triple_bind _ (fun _ => login_post Route)); [|intros []; by apply triple_ret].
  apply triple_modify. intros c [] Hc. split; [by constructor|]. simpl. auto.
Qed.

Lemma triple_note_failure method r : response_ok r -> triple connected (note_failure method r) login_post.
Proof.
  intros _. unfold note_failure. quiet. tfail.
Qed.

Lemma SetReceiveFraming_connected ps f s : IsConnected (SetReceiveFraming ps f s) = IsConnected s.
Proof. unfold SetReceiveFraming. cbv zeta. by destruct (_ <? _). Qed.

Lemma triple_note_success r : response_ok r -> triple connected (note_success r) login_post.
Proof.
  intros (Hn & _). unfold note_success.
  apply triple_quiet; [intros c [] Hc; split; [by constructor|done]|].
  apply triple_quiet; [|by apply triple_ret].
  intros c Hok Hc. split.
  - apply steady_socket; [done|]. apply SetReceiveFraming_ok; [apply Hok|]. unfold TDS_RECV_MIN_FRAMES.
    destruct (Z.ltb_spec (TDS_RECV_BUFFER_TARGET_BYTES / (if negotiated_packet_size_ c <? TDS_MIN_PACKET_SIZE
      then TDS_DEFAULT_PACKET_SIZE else negotiated_packet_size_ c)) 2); lia.
  - unfold connected. simpl. by rewrite SetReceiveFraming_connected.
Qed.

Lemma triple_conclude method r : response_ok r -> triple connected (conclude method r) login_post.
Proof.
  intros Hr. unfold conclude. apply triple_if; intros E; [by apply triple_note_routing|].
  apply triple_if; intros _; [by apply triple_note_failure|by apply triple_note_success].
Qed.

Lemma triple_final {B} m (f : LoginResponse -> M B) Q :
  (forall r, response_ok r -> triple connected (f r) Q) ->
  triple connected (r ← lift (ParseLoginResponse m); _ ← NoteFeatureAcks r; f r) Q.
Proof.
  intros Hf. eapply triple_bind; [apply triple_login_response|]. intros r c Hok [Hc Hr]. revert c Hok Hc.
  change (triple connected (_ ← NoteFeatureAcks r; f r) Q). quiet. by apply Hf.
Qed.

Lemma triple_DoLogin7 P username password database app_name :
  triple P (DoLogin7 fuel pid username password database app_name) login_post.
Proof.
  unfold DoLogin7. apply triple_get. intros c0. eapply triple_bind; [apply triple_build, login_res_sql|].
  intros login. apply triple_answered; [apply triple_exchange|by apply triple_ret|].
  intros m. apply triple_final. intros r Hr. by apply triple_conclude.
Qed.

Lemma triple_send_all packets : triple connected (send_all fuel packets) (fun ok c => ok = true -> connected c).
Proof.
  induction packets as [|p packets IH]; cbn [send_all]; [by apply triple_ret|].
  eapply triple_bind; [apply triple_SendPacket|]. intros []; simpl negb; cbv iota.
  - eapply triple_mono; [exact IH|intros c Hc; exact (Hc eq_refl)|done].
  - by apply triple_ret.
Qed.

Lemma triple_send_numbered packets :
  triple connected (send_numbered fuel packets) (fun ok c => ok = true -> connected c).
Proof.
  induction packets as [|p packets IH]; cbn [send_numbered]; [by apply triple_ret|].
  eapply triple_bind; [apply triple_take_packet_id|]. intros id.
  eapply triple_bind; [apply triple_SendPacket|]. intros []; simpl negb; cbv iota.
  - eapply triple_mono; [exact IH|intros c Hc; exact (Hc eq_refl)|done].
  - by apply triple_ret.
Qed.

Lemma triple_receive_answer {B} t (f : option bytes -> M B) Q :
  triple (fun _ => True) (f None) Q -> (forall m, triple connected (f (Some m)) Q) ->
  triple connected (r ← ReceiveMessage fuel t; f r) Q.
Proof.
  intros Hn Hs. eapply triple_bind; [apply triple_ReceiveMessage|]. intros [m|]; [done|].
  eapply triple_mono; [exact Hn|done|done].
Qed.

Lemma triple_DoLogin7WithFedAuth P database token app_name :
  triple P (DoLogin7WithFedAuth fuel pid client_hostname database token app_name) login_post.
Proof.
  unfold DoLogin7WithFedAuth. apply triple_get. intros c0. eapply triple_bind; [apply triple_build, login_res_adal|].
  intros login. apply triple_answered; [apply triple_exchange|by apply triple_ret|].
  intros m. apply triple_final. intros r Hr. apply triple_if; intros _; [|by apply triple_conclude].
  eapply (triple_bind _ (fun _ => connected)); [by apply triple_lift_option|]. intros packets.
  eapply triple_bind; [apply triple_send_all|]. intros [] ; simpl negb; cbv iota; [|tfail].
  eapply (triple_mono connected _ login_post); [|intros c Hc; exact (Hc eq_refl)|done].
  apply triple_receive_answer; [tfail|]. intros m2. apply triple_final. intros r2 Hr2. by apply triple_conclude.
Qed.

Lemma triple_send_split name message max_packet :
  triple connected (send_split fuel name message max_packet) done_or_error.
Proof.
  unfold send_split. eapply (triple_bind _ (fun _ => connected)); [by apply triple_lift_option|]. intros packets.
  eapply triple_bind; [apply triple_send_numbered|]. intros []; simpl negb; cbv iota; [|tfail].
  apply triple_ret. intros c Hc. exact (Hc eq_refl).
Qed.

Lemma triple_sspi_rounds rounds max_packet authenticator :
  triple connected (sspi_rounds fuel rounds max_packet authenticator) login_post.
Proof.
  revert authenticator. induction rounds as [|rounds IH]; intros a; cbn [sspi_rounds]; [tfail|].
  apply triple_receive_answer; [tfail|]. intros m. apply triple_final. intros r Hr.
  apply triple_if; intros E; [by apply triple_note_routing|].
  apply triple_if; intros _; [by apply triple_note_success|].
  apply triple_if; intros _; [by apply triple_note_failure|].
  destruct (NextBytes _ a) as [[what|[|b blob]] a']; [tfail|apply IH|].
  eapply triple_bind; [apply triple_send_split|]. intros []; simpl negb; cbv iota; [apply IH|by apply triple_ret].
Qed.

Lemma triple_DoLoginIntegrated a database app_name max_packet :
  triple connected (DoLoginIntegrated fuel pid client_hostname a database app_name max_packet) login_post.
Proof.
  unfold DoLoginIntegrated. destruct (InitialBytes a) as [[what|[|b blob]] a']; [tfail|tfail|].
  apply triple_get. intros c0. eapply (triple_bind _ (fun _ => connected)).
  { pose proof (login_res_sspi client_hostname (match tds_server_name_ c0 with [] => host_ c0 | s => s end) database
      (b :: blob) (login7_app_name app_name) (requested_packet_size_ c0) (request_utf8_support_ c0)) as Hl.
    apply triple_lift; destruct (BuildLogin7WithSSPI _ _ _ _ _ _ _ _); simpl in *; try done. by intros c [Hc _]. }
  intros login. eapply triple_bind; [apply triple_send_split|].
  intros []; simpl negb; cbv iota; [apply triple_sspi_rounds|by apply triple_ret].
Qed.

Lemma triple_prelogin_then P m k :
  triple P m done_or_error -> triple connected k login_post ->
  triple P (ok ← m; if negb ok then mret Failure else k) login_post.
Proof. intros Hm Hk. eapply triple_bind; [exact Hm|]. intros []; simpl negb; cbv iota; [done|by apply triple_ret]. Qed.

Lemma triple_sql_attempt P username password database app_name use_encrypt :
  triple P (sql_attempt fuel pid username password database app_name use_encrypt) login_post.
Proof. apply triple_prelogin_then; [apply triple_DoPrelogin|apply triple_DoLogin7]. Qed.

Lemma triple_fedauth_attempt P database token app_name use_encrypt :
  triple P (fedauth_attempt fuel pid client_hostname database token app_name use_encrypt) login_post.
Proof. apply triple_prelogin_then; [apply triple_DoPreloginWithFedAuth|apply triple_DoLogin7WithFedAuth]. Qed.

Lemma triple_integrated_attempt P factory database app_name use_encrypt max_packet hop :
  triple P (integrated_attempt fuel pid client_hostname factory database app_name use_encrypt max_packet hop) login_post.
Proof.
  unfold integrated_attempt. apply triple_get. intros c0. destruct (factory _ _) as [a|].
  - apply triple_prelogin_then; [apply triple_DoPrelogin|apply triple_DoLoginIntegrated].
  - apply triple_fail; [intros; by destruct (_ =? _)|done].
Qed.
End Steps.

(** ** Messages on the wire *)

Section Wire.
Context {T : Transport} {Si : Simdutf} {Au : Authenticator}.
Context (fuel : nat).

(** Packets a receiver puts together to the message. *)
Definition sendable (p : TdsPacket) : Prop := fits p /\ 0 <= status_ p < 256.

Inductive message_of : list TdsPacket -> bytes -> Prop :=
  | mo_last p : sendable p -> IsEndOfMessage p = true -> message_of [p] (payload_ p)
  | mo_more p ps m : sendable p -> IsEndOfMessage p = false -> message_of ps m -> message_of (p :: ps) (payload_ p ++ m).

Lemma message_of_stream ps m : message_of ps m -> forall r, stream_message (concat (Serialize <$> ps) ++ r) m r.
Proof.
  assert (Hs : forall p, sendable p -> zlen (Serialize p) <= TDS_MAX_PACKET_SIZE).
  { intros p [Hf _]. rewrite zlen_Serialize. exact Hf. }
  induction 1 as [p Hp He|p ps m Hp He H IH]; intros r.
  - cbn [fmap list_fmap concat]. rewrite app_nil_r, <- zdrop_Serialize. apply sm_last; [by apply scan_Serialize, Hp|auto|].
    by rewrite frame_eom_Serialize by apply Hp.
  - cbn [fmap list_fmap concat]. rewrite <- app_assoc, <- zdrop_Serialize. apply (sm_more _ _ (concat (Serialize <$> ps) ++ r)).
    + by apply scan_Serialize, Hp.
    + auto.
    + by rewrite frame_eom_Serialize by apply Hp.
    + apply IH.
Qed.

Lemma message_of_number ps m : message_of ps m -> forall id, message_of (number_packets id ps) m.
Proof.
  induction 1 as [p Hp He|p ps m Hp He H IH]; intros id; cbn [number_packets].
  - exact (mo_last (SetPacketId id p) Hp He).
  - exact (mo_more (SetPacketId id p) _ _ Hp He (IH _)).
Qed.

Lemma reset_packet p : sendable p ->
  let q := SetStatus (Z.lor (status_ p) PacketStatus.RESET_CONNECTION) p in
  sendable q /\ IsEndOfMessage q = IsEndOfMessage p.
Proof.
  intros [Hf Hs] q. unfold q, IsEndOfMessage, sendable, PacketStatus.RESET_CONNECTION, PacketStatus.END_OF_MESSAGE. simpl.
  split; [split; [exact Hf|]|].
  - split; [apply Z.lor_nonneg; lia|]. destruct (decide (status_ p = 0)) as [->|]; [done|].
    apply Z.log2_lt_cancel. rewrite Z.log2_lor by lia. apply Z.max_lub_lt; [|done].
    apply (Z.le_lt_trans _ (Z.log2 255)); [apply Z.log2_le_mono; lia|done].
  - rewrite Z.land_lor_distr_l. change (Z.land 8 1) with 0. by rewrite Z.lor_0_r.
Qed.

Lemma message_of_reset ps m : message_of ps m -> message_of (flag_reset ps) m.
Proof.
  destruct 1 as [p Hp He|p ps m Hp He H]; destruct (reset_packet p Hp) as [Hq Eq]; rewrite He in Eq.
  - exact (mo_last _ Hq Eq).
  - exact (mo_more _ _ _ Hq Eq H).
Qed.

Lemma well_split_message type limit payload ps :
  limit <= TDS_MAX_PACKET_SIZE - TDS_HEADER_SIZE -> well_split type limit payload ps -> message_of ps payload.
Proof.
  intros Hl [<- Hb (init & last & -> & He & Hi)].
  assert (Hp : Forall sendable (init ++ [last])).
  { eapply Forall_impl; [exact Hb|]. intros p (_ & Hs & Hp). unfold sendable, fits. lia. }
  clear Hb. induction Hi as [|p init Hpe Hi IH]; inversion Hp as [|? ? Hpp Hpr]; subst.
  - simpl. rewrite app_nil_r. by apply mo_last.
  - apply (mo_more p); [done..|]. by apply IH.
Qed.

(** The status byte of the first packet. *)
Definition plain (p : TdsPacket) : Prop := status_ p = 0 \/ status_ p = 1.

Lemma first_status reset id ps m : Forall plain ps -> message_of ps m ->
  exists t st w, concat (Serialize <$> number_packets id (if reset : bool then flag_reset ps else ps)) = t :: st :: w /\
    Z.testbit (b2z st) 3 = reset.
Proof.
  intros Hp. destruct 1 as [p _ _|p ps m _ _ _]; inversion Hp as [|? ? H _]; subst; destruct reset;
    (eexists _, _, _; split; [reflexivity|]; rewrite b2z_z2b; simpl; destruct H as [-> | ->]; reflexivity).
Qed.

Lemma message_of_BuildPing {Hspec : SimdutfSpec Si} : message_of [BuildPing] (payload_ BuildPing).
Proof.
  assert (E : Utf16LEEncode ping_sql = Legacy.Utf8ToUtf16LEGeneral ping_sql) by apply Utf16LEEncode_general.
  apply mo_last; [|done]. split; [|done]. unfold fits, BuildPing, BuildSqlBatch, AppendPayload. rewrite E. done.
Qed.

(** ** What an operation puts on the wire *)

(** Of the data, the bytes that left: all of them if the answer is true. *)
Definition wrote (data : bytes) (c : TdsConnection) (ok : bool) (c' : TdsConnection) : Prop :=
  exists w, accepted (net_ (socket_ c')) = accepted (net_ (socket_ c)) ++ w /\ w `prefix_of` data /\ (ok = true -> w = data).

Lemma wrote_app d1 d2 c c1 c2 ok : wrote d1 c true c1 -> wrote d2 c1 ok c2 -> wrote (d1 ++ d2) c ok c2.
Proof.
  intros (w1 & E1 & _ & H1) (w2 & E2 & P2 & H2). rewrite (H1 eq_refl) in E1. exists (d1 ++ w2).
  split; [by rewrite E2, E1, app_assoc|]. split; [by apply prefix_app|]. intros Hok. by rewrite (H2 Hok).
Qed.

Lemma wrote_stop d1 d2 c c1 : wrote d1 c false c1 -> wrote (d1 ++ d2) c false c1.
Proof. intros (w & E & P & _). exists w. split; [done|]. split; [|done]. by apply prefix_app_r. Qed.

(** Sending throws nothing, and changes the socket and the packet id only. *)
Definition sends (m : M bool) (data : TdsConnection -> bytes) : Prop :=
  forall c, conn_ok c -> wp m c (fun ok c' => steady c c' /\ wrote (data c) c ok c') (fun _ _ => False).

Lemma wp_Send data c : conn_ok c ->
  wp (Send fuel data) c (fun ok c' => (exists s, socket_ok s /\ c' = set_socket s c) /\ wrote data c ok c') (fun _ _ => False).
Proof.
  intros Hok. unfold wp, Send. destruct (Socket.Send fuel data (socket_ c)) as [[ok s]|] eqn:E; [|done].
  split; [exists s; split; [by eapply Send_client; [exact E|apply Hok]|done]|].
  apply Send_accepted in E as (k & Ha & Hk). exists (ztake k data). split; [done|]. split; [|done].
  exists (zdrop k data). by rewrite ztake_zdrop.
Qed.

Lemma sends_Send data : sends (Send fuel data) (fun _ => data).
Proof.
  intros c Hok. eapply wp_mono; [by apply wp_Send| |done]. intros ok c' [(s & Hs & ->) Hw]. split; [by apply steady_socket|done].
Qed.

Lemma sends_ret : sends (mret true) (fun _ => []).
Proof. intros c Hok. apply wp_ret. split; [by apply steady_refl|]. exists []. by rewrite app_nil_r. Qed.

(** Sending one thing and, if it went, another. *)
Lemma wp_send_then d1 (m : M bool) d2 c : conn_ok c ->
  (forall s, socket_ok s -> wp m (set_socket s c)
     (fun ok c2 => steady (set_socket s c) c2 /\ wrote d2 (set_socket s c) ok c2) (fun _ _ => False)) ->
  wp (sent ← Send fuel d1; if negb sent then mret false else m) c
    (fun ok c' => steady c c' /\ wrote (d1 ++ d2) c ok c') (fun _ _ => False).
Proof.
  intros Hok Hm. apply wp_bind. eapply wp_mono; [by apply wp_Send| |done]. intros ok c1 [(s & Hs & ->) Hw].
  destruct ok; simpl negb; cbv iota.
  - eapply wp_mono; [by apply Hm| |done]. intros ok c2 [Hs2 Hw2].
    split; [by eapply steady_trans; [apply steady_socket|]|by eapply wrote_app].
  - apply wp_ret. split; [by apply steady_socket|by apply wrote_stop].
Qed.

Lemma set_socket_ok s c : conn_ok c -> socket_ok s -> conn_ok (set_socket s c).
Proof. intros Hok Hs. by apply steady_socket. Qed.

Lemma sends_all ps : sends (send_all fuel ps) (fun _ => concat (Serialize <$> ps)).
Proof.
  induction ps as [|p ps IH]; [exact sends_ret|]. intros c Hok. cbn [send_all fmap list_fmap concat].
  change (SendPacket fuel p) with (Send fuel (Serialize p)). apply wp_send_then; [done|]. intros s Hs.
  by apply IH, set_socket_ok.
Qed.

Lemma sends_numbered ps :
  sends (send_numbered fuel ps) (fun c => concat (Serialize <$> number_packets (next_packet_id_ c) ps)).
Proof.
  induction ps as [|p ps IH]; [exact sends_ret|]. intros c Hok. cbn [send_numbered number_packets fmap list_fmap concat].
  apply wp_bind. unfold take_packet_id, wp at 1. set (q := SetPacketId _ p). set (id := (next_packet_id_ c + 1) mod 256).
  change (SendPacket fuel q) with (Send fuel (Serialize q)).
  assert (Hid : 0 <= id < 256) by (apply Z.mod_pos_bound; lia).
  assert (Hs : steady c (set_next_packet_id id c)) by (destruct Hok; by constructor).
  eapply wp_mono; [apply (wp_send_then _ _ (concat (Serialize <$> number_packets id ps)))| |done]; [apply Hs| |].
  - intros s Hsok. apply (IH (set_socket s (set_next_packet_id id c))). apply set_socket_ok; [apply Hs|done].
  - intros ok c' [Hs' Hw]. split; [by eapply steady_trans|exact Hw].
Qed.

(** The first id of a batch. *)
Definition batch_id (c : TdsConnection) (packets : list TdsPacket) : Z :=
  match packets with _ :: _ :: _ => 1 | _ => next_packet_id_ c end.

Lemma sends_batch ps :
  sends (send_batch fuel ps) (fun c => concat (Serialize <$> number_packets (batch_id c ps) ps)).
Proof.
  destruct ps as [|p1 [|p2 ps]]; [apply sends_numbered..|]. intros c Hok. cbn [send_batch]. apply wp_bind, wp_get.
  apply wp_if; intros _; [by apply sends_Send|by apply sends_all].
Qed.
End Wire.

(** ** The loop over the routing hops *)

Section Hops.
Context {T : Transport} {Si : Simdutf} {Au : Authenticator}.

Definition hop_post (ok : bool) (c : TdsConnection) : Prop :=
  conn_ok c /\
  if ok then state_ c = Idle /\ connected c
  else state_ c = Disconnected /\ IsConnected (socket_ c) = false /\ err_set c.

Definition login_throws (e : exn) (c : TdsConnection) : Prop :=
  conn_ok c /\ state_ c = Authenticating /\ login_exn e.

Lemma fresh_attempt_ok c : conn_ok c -> conn_ok (fresh_attempt c).
Proof. by intros []. Qed.

Lemma disconnect_ok c : conn_ok c -> err_set c -> hop_post false (disconnect_socket c).
Proof.
  intros [] He. destruct (Close_client (socket_ c)) as [H1 H2]; [done|]. split; [by constructor|]. by split_and!.
Qed.

(** [P]: what the attempt is promised; a connected socket is enough for it. *)
Lemma wp_hop_loop (P : TdsConnection -> Prop) attempt : (forall c, connected c -> P c) ->
  (forall hop, triple P (attempt hop) login_post) ->
  forall hops hop c, Z.of_nat hops + hop = MAX_ROUTING_HOPS + 1 -> hop <= MAX_ROUTING_HOPS ->
  conn_ok c -> P (fresh_attempt c) -> state_ c = Authenticating -> wp (hop_loop hops attempt hop) c hop_post login_throws.
Proof.
  intros HP Hatt. unfold MAX_ROUTING_HOPS. induction hops as [|hops IH]; intros hop c Hn Hle Hok Hpre Hst; [lia|].
  cbn [hop_loop]. apply wp_bind, wp_modify, wp_bind. eapply wp_mono.
  { apply Hatt; [by apply fresh_attempt_ok|done]. }
  2:{ intros e c' [Hs He]. split_and!; [apply Hs|rewrite (st_state _ _ Hs); exact Hst|exact He]. }
  intros o c1 [Hs Ho]. pose proof (st_ok _ _ Hs) as Hok1. assert (Hst1 : state_ c1 = Authenticating).
  { rewrite (st_state _ _ Hs). exact Hst. }
  destruct o; simpl in Ho.
  - apply wp_bind, wp_modify, wp_ret. split; [by destruct Hok1|done].
  - unfold MAX_ROUTING_HOPS. destruct (Z.ltb_spec 5 (hop + 1)) as [Hgt|Hle1].
    + apply wp_bind, wp_modify, wp_ret. apply disconnect_ok; [by destruct Hok1|done].
    + apply wp_bind, wp_get. unfold NormalizeRoutedTarget.
      destruct (routed_target (routed_server_ c1) (routed_port_ c1)) as [[name host] port].
      apply wp_bind, wp_bind, wp_modify, wp_ret. apply wp_bind, wp_modify, wp_bind, wp_get, wp_bind.
      set (c2 := set_port _ _). unfold wp at 1, on_socket.
      destruct (Socket.Connect host port _ (socket_ c2)) as [ok s] eqn:Ec.
      apply Connect_client in Ec as (H1 & H2 & H3); [|by apply Close_client, Hok1].
      destruct ok; simpl negb; cbv iota.
      * apply IH; [unfold MAX_ROUTING_HOPS; lia..|by destruct Hok1|by apply HP|exact Hst1].
      * apply wp_bind, wp_modify, wp_ret. split; [by destruct Hok1|]. by split_and!.
  - apply wp_bind, wp_modify, wp_ret. by apply disconnect_ok.
Qed.

Lemma wp_RunWithRoutingHops (P : TdsConnection -> Prop) attempt c : (forall c, connected c -> P c) ->
  (forall hop, triple P (attempt hop) login_post) ->
  conn_ok c -> P (fresh_attempt c) -> state_ c = Authenticating -> wp (RunWithRoutingHops attempt) c hop_post login_throws.
Proof. intros HP H Hok Hpre Hst. by apply (wp_hop_loop P). Qed.
End Hops.

(** ** The state machine *)

(** The member functions a client calls, with their arguments. *)
Inductive conn_op {Au : Authenticator} : Type :=
  | OpConnect (host : bytes) (port timeout_seconds : Z)
  | OpAuthenticate (username password database : bytes) (use_encrypt : bool) (app_name : bytes)
  | OpFedAuth (database token : bytes) (use_encrypt : bool) (app_name : bytes)
  | OpIntegrated (database : bytes) (factory : bytes -> Z -> option auth) (use_encrypt : bool) (app_name : bytes)
      (login7_max_packet : Z)
  | OpPing (timeout_ms : Z)
  | OpValidateWithPing
  | OpSendAttention
  | OpWaitForAttentionAck (timeout_ms : Z)
  | OpClose
  | OpExecuteBatch (sql : bytes)
  | OpReceiveData (buffer_size timeout_ms : Z)
  | OpTransitionState (from to : ConnectionState)
  | OpSetTransactionDescriptor (descriptor : option bytes)
  | OpSetNeedsReset (reset : bool)
  | OpSetRequestedPacketSize (packet_size : Z).

(** Eight bytes are read from a transaction descriptor that is not null, and a
    buffer to receive into has room. *)
Definition op_ok {Au : Authenticator} (op : conn_op) : Prop :=
  match op with
  | OpSetTransactionDescriptor (Some d) => 8 <= zlen d
  | OpReceiveData buffer_size _ => 0 < buffer_size
  | _ => True
  end.

Section Machine.
Context {T : Transport} {Si : Simdutf} {Au : Authenticator}.
Context (fuel : nat) (pid : Z) (client_hostname : bytes) (now : net -> Z).

(** What a call answers: for [ReceiveData], whether there were bytes; true for
    a function without a result. *)
Definition run_op (op : conn_op) : M bool :=
  match op with
  | OpConnect host port timeout => Connect host port timeout
  | OpAuthenticate username password database use_encrypt app_name =>
      Authenticate fuel pid now username password database use_encrypt app_name
  | OpFedAuth database token use_encrypt app_name =>
      AuthenticateWithFedAuth fuel pid client_hostname now database token use_encrypt app_name
  | OpIntegrated database factory use_encrypt app_name max_packet =>
      AuthenticateIntegrated fuel pid client_hostname now database factory use_encrypt app_name max_packet
  | OpPing timeout_ms => Ping fuel now timeout_ms
  | OpValidateWithPing => ValidateWithPing fuel now
  | OpSendAttention => SendAttention fuel
  | OpWaitForAttentionAck timeout_ms => WaitForAttentionAck fuel now timeout_ms
  | OpClose => _ ← Close fuel now; mret true
  | OpExecuteBatch sql => ExecuteBatch fuel sql
  | OpReceiveData buffer_size timeout_ms =>
      received ← ReceiveData buffer_size timeout_ms;
      mret (match received with Some (_ :: _) => true | _ => false end)
  | OpTransitionState from to => TransitionState from to
  | OpSetTransactionDescriptor d => _ ← SetTransactionDescriptor d; mret true
  | OpSetNeedsReset reset => _ ← SetNeedsReset reset; mret true
  | OpSetRequestedPacketSize size => _ ← SetRequestedPacketSize size; mret true
  end.

(** The abstract machine: where an answer leaves the connection; [None] is an
    exception. [stays] is a call that is refused. *)
Definition stays (s : ConnectionState) (answer : option bool) (s' : ConnectionState) : Prop :=
  answer = Some false /\ s' = s.

Definition answers (on_true on_false : ConnectionState) (on_throw : option ConnectionState) (answer : option bool)
    (s' : ConnectionState) : Prop :=
  match answer with
  | Some true => s' = on_true
  | Some false => s' = on_false
  | None => on_throw = Some s'
  end.

Definition machine (op : conn_op) (s : ConnectionState) : option bool -> ConnectionState -> Prop :=
  match op, s with
  | OpConnect _ _ _, Disconnected => answers Authenticating Disconnected None
  | OpAuthenticate _ _ _ _ _, Authenticating
  | OpFedAuth _ _ _ _, Authenticating
  | OpIntegrated _ _ _ _ _, Authenticating => answers Idle Disconnected (Some Authenticating)
  | OpPing _, Idle => answers Idle Disconnected (Some Executing)
  | OpPing _, Executing => fun answer s' => answer = Some true /\ s' = Executing
  | OpValidateWithPing, Idle => fun answer s' => answers Idle Disconnected (Some Executing) answer s' \/ stays Idle answer s'
  | OpValidateWithPing, Executing => fun answer s' => exists b, answer = Some b /\ s' = Executing
  | OpSendAttention, Executing => answers Cancelling Disconnected None
  | OpWaitForAttentionAck _, Cancelling => answers Idle Disconnected (Some Cancelling)
  | OpClose, Executing => answers Disconnected Disconnected (Some Cancelling)
  | OpClose, _ => fun answer s' => answer = Some true /\ s' = Disconnected
  | OpExecuteBatch _, Idle => answers Executing Disconnected None
  | OpReceiveData _ _, (Executing | Cancelling) => answers s Disconnected None
  | OpTransitionState from to, _ =>
      if decide (s = from) then fun answer s' => answer = Some true /\ s' = to else stays s
  | OpSetTransactionDescriptor _, _ | OpSetNeedsReset _, _ | OpSetRequestedPacketSize _, _ =>
      fun answer s' => answer = Some true /\ s' = s
  | _, _ => stays s
  end.

(** [op] on [c] does what the machine says, and leaves a sound connection. *)
Definition refines (op : conn_op) (c : TdsConnection) : Prop :=
  wp (run_op op) c
    (fun b c' => conn_ok c' /\ machine op (state_ c) (Some b) (state_ c'))
    (fun e c' => conn_ok c' /\ login_exn e /\ machine op (state_ c) None (state_ c')).

(** An operation off the state it is for does nothing but note an error. *)
Lemma wp_compare_exchange from to c (Q : bool -> TdsConnection -> Prop) E :
  (state_ c = from -> Q true (set_state to c)) -> (state_ c <> from -> Q false c) ->
  wp (compare_exchange from to) c Q E.
Proof. unfold wp, compare_exchange. destruct (decide _); auto. Qed.

Lemma refines_Connect host port timeout c : conn_ok c -> refines (OpConnect host port timeout) c.
Proof.
  intros Hok. unfold refines, run_op, Connect. apply wp_bind, wp_compare_exchange; intros Hst; simpl negb; cbv iota.
  - rewrite Hst. apply wp_bind, wp_modify, wp_bind. set (c1 := set_last_error _ _). unfold wp at 1, on_socket.
    destruct (Socket.Connect host port timeout (socket_ c1)) as [ok s] eqn:E.
    apply Connect_client in E as (H1 & _ & _); [|apply Hok].
    destruct ok; simpl negb; cbv iota; [apply wp_ret|apply wp_bind, wp_modify, wp_ret]; (split; [by destruct Hok|done]).
  - apply wp_fail. split; [by destruct Hok|]. simpl. by destruct (state_ c).
Qed.

Lemma wp_authenticate database attempt c :
  (forall hop, triple (fun _ => True) (attempt hop) login_post) -> conn_ok c ->
  wp (authenticate now database attempt) c
    (fun b c' => conn_ok c' /\
       match state_ c with
       | Authenticating => answers Idle Disconnected (Some Authenticating) (Some b) (state_ c')
       | s => stays s (Some b) (state_ c')
       end)
    (fun e c' => conn_ok c' /\ login_exn e /\
       match state_ c with
       | Authenticating => answers Idle Disconnected (Some Authenticating) None (state_ c')
       | s => stays s None (state_ c')
       end).
Proof.
  intros Hatt Hok. unfold authenticate. apply wp_bind, wp_get.
  destruct (decide (state_ c = Authenticating)) as [Hst|Hst].
  - rewrite bool_decide_true, Hst by done. simpl negb. cbv iota. apply wp_bind, wp_modify, wp_bind. eapply wp_mono.
    { apply (wp_RunWithRoutingHops (fun _ => True)); [done..|by destruct Hok|done|exact Hst]. }
    + intros [] c1 [[] Hc]; simpl negb; cbv iota.
      * apply wp_bind, wp_modify, wp_ret. split; [by constructor|apply Hc].
      * apply wp_bind, wp_modify, wp_ret. split; [by constructor|apply Hc].
    + intros e c1 (Hok1 & Hs1 & He). rewrite Hs1. done.
  - rewrite bool_decide_false by done. apply wp_fail. split; [by destruct Hok|]. simpl. by destruct (state_ c).
Qed.

Lemma refines_Authenticate username password database use_encrypt app_name c :
  conn_ok c -> refines (OpAuthenticate username password database use_encrypt app_name) c.
Proof.
  intros Hok. eapply wp_mono; [apply wp_authenticate; [intros hop; apply triple_sql_attempt|done]|..].
  - intros b c'. simpl. by destruct (state_ c).
  - intros e c'. simpl. by destruct (state_ c).
Qed.

Lemma refines_FedAuth database token use_encrypt app_name c :
  conn_ok c -> refines (OpFedAuth database token use_encrypt app_name) c.
Proof.
  intros Hok. eapply wp_mono; [apply wp_authenticate; [intros hop; apply triple_fedauth_attempt|done]|..].
  - intros b c'. simpl. by destruct (state_ c).
  - intros e c'. simpl. by destruct (state_ c).
Qed.

Lemma refines_Integrated database factory use_encrypt app_name max_packet c :
  conn_ok c -> refines (OpIntegrated database factory use_encrypt app_name max_packet) c.
Proof.
  intros Hok. eapply wp_mono; [apply wp_authenticate; [intros hop; apply triple_integrated_attempt|done]|..].
  - intros b c'. simpl. by destruct (state_ c).
  - intros e c'. simpl. by destruct (state_ c).
Qed.

Lemma triple_always {A} P (m : M A) Q : triple P m Q -> triple P m always.
Proof. intros H. eapply triple_mono; [exact H|done|done]. Qed.

(** Receiving, whatever it answers. *)
Lemma triple_receive_always P t : triple P (ReceiveMessage fuel t) always.
Proof.
  intros c Hok _. unfold wp, ReceiveMessage.
  destruct (Socket.ReceiveMessage fuel t (socket_ c)) as [o|] eqn:E; [|done].
  apply message_loop_spec in E as (x & s' & -> & Hs & _ & new & _ & Hx); [|apply Hok].
  destruct x as [|m|e]; (split; [by apply steady_socket|done || by rewrite Hx]).
Qed.

Lemma state_ok s c : conn_ok c -> conn_ok (set_state s c).
Proof. by intros []. Qed.

(** The end of an operation that sets the state. *)
Ltac finish := split; [repeat match goal with H : conn_ok _ |- _ => destruct H end; by constructor|].

(** One steady step; then the rest, from the same state. *)
Lemma wp_steady {A B} R (m : M A) (f : A -> M B) c s Q E :
  triple (fun _ => True) m R -> conn_ok c -> state_ c = s ->
  (forall e c', conn_ok c' -> state_ c' = s -> login_exn e -> E e c') ->
  (forall a c', conn_ok c' -> state_ c' = s -> R a c' -> wp (f a) c' Q E) ->
  wp (m ≫= f) c Q E.
Proof.
  intros Hm Hok Hst HE Hf. apply wp_bind. eapply wp_mono; [by apply Hm|..].
  - intros a c' [Hs Ha]. apply Hf; [apply Hs|rewrite (st_state _ _ Hs); exact Hst|done].
  - intros e c' [Hs He]. apply HE; [apply Hs|rewrite (st_state _ _ Hs); exact Hst|done].
Qed.

(** The end of an operation: the state it stores, or the state it is in. *)
Ltac settle := intros; first [apply wp_ret|apply wp_bind, wp_modify; settle|idtac].
Ltac ends := settle; split; [match goal with H : conn_ok _ |- _ => destruct H end; by constructor|].

Lemma refines_Ping timeout_ms c : conn_ok c -> refines (OpPing timeout_ms) c.
Proof.
  intros Hok. unfold refines, run_op, Ping. apply wp_bind, wp_compare_exchange; intros Hst; simpl negb; cbv iota.
  2:{ apply wp_bind, wp_get, wp_ret. split; [done|]. by destruct (state_ c). }
  rewrite Hst. set (E := fun (e : exn) c' => _). set (c0 := set_state Executing c).
  assert (HE : forall e c', conn_ok c' -> state_ c' = Executing -> login_exn e -> E e c').
  { intros e c' H1 H2 H3. unfold E. simpl. by rewrite H2. }
  eapply (wp_steady always _ _ c0 Executing); [apply triple_take_packet_id|by apply state_ok|done|done|].
  intros id c1 Hok1 Hs1 _. eapply (wp_steady always); [eapply triple_always, triple_SendPacket|done..|].
  intros ok c2 Hok2 Hs2 _. eapply (wp_steady always); [|done..|].
  { apply triple_if; intros _; [by apply triple_ret|]. eapply triple_bind; [apply triple_receive_always|].
    intros [m|]; [|by apply triple_ret]. destruct (IsSuccessResponse_returns m) as [b ->]. by apply triple_ret. }
  intros [] c3 Hok3 Hs3 _; ends; done.
Qed.

Lemma refines_ValidateWithPing c : conn_ok c -> refines OpValidateWithPing c.
Proof.
  intros Hok. unfold refines, run_op, ValidateWithPing. apply wp_bind, wp_get.
  destruct (IsAlive c) eqn:Ea; simpl negb; cbv iota.
  - eapply wp_mono; [by apply (refines_Ping 5000)|..].
    + intros b c'. simpl. destruct (state_ c); intros [H1 H2]; (split; [done|]); eauto.
    + intros e c'. simpl. destruct (state_ c); intros (H1 & He & H2); (split_and!; [done..|]); auto; by destruct H2.
  - apply wp_ret. split; [done|]. simpl. destruct (state_ c); first [by right|by exists false|done].
Qed.

Lemma refines_SendAttention c : conn_ok c -> refines OpSendAttention c.
Proof.
  intros Hok. unfold refines, run_op, SendAttention. apply wp_bind, wp_compare_exchange; intros Hst; simpl negb; cbv iota.
  2:{ apply wp_ret. split; [done|]. simpl. by destruct (state_ c). }
  rewrite Hst. apply wp_bind. unfold wp at 1, take_packet_id. apply wp_bind.
  set (c1 := set_next_packet_id _ _). assert (Hok1 : conn_ok c1).
  { destruct Hok. constructor; try done. apply Z.mod_pos_bound. lia. }
  unfold wp at 1, SendPacket, Socket.SendPacket. destruct (Socket.Send fuel _ _) as [[ok s]|] eqn:E; [|done].
  apply Send_client in E as [Hs _]; [|apply Hok1]. destruct Hok1. destruct ok; simpl negb; cbv iota; settle; by split.
Qed.

Lemma refines_WaitForAttentionAck timeout_ms c : conn_ok c -> refines (OpWaitForAttentionAck timeout_ms) c.
Proof.
  intros Hok. unfold refines, run_op, WaitForAttentionAck. apply wp_bind, wp_get.
  destruct (decide (state_ c = Cancelling)) as [Hst|Hst].
  2:{ rewrite bool_decide_false by done. apply wp_ret. split; [done|]. simpl. by destruct (state_ c). }
  rewrite bool_decide_true, Hst by done. simpl negb. cbv iota. generalize (now (net_ (socket_ c))). intros start.
  generalize fuel at 2. intros turns. revert c Hok Hst.
  induction turns as [|turns IH]; intros c Hok Hst; cbn [attention_wait]; [done|].
  apply wp_bind, wp_get. cbv zeta. apply wp_if; intros _; [by ends|].
  eapply (wp_steady always); [apply triple_receive_always|done|done| |].
  { intros e c' H1 H2 H3. simpl. by rewrite H2. }
  intros [m|] c1 Hok1 Hs1 _; [|by ends].
  destruct (ParseDoneForAttentionAck_returns m) as [b ->]. apply wp_bind, wp_lift; [|done]. simpl.
  destruct b; [by ends|by apply IH].
Qed.

(** What [Close] does at its end. *)
Definition closed (c : TdsConnection) : TdsConnection :=
  set_database [] (set_spid 0 (set_state Disconnected (set_socket (Socket.Close (socket_ c)) c))).

Lemma wp_closed s c E : conn_ok c ->
  wp (modify closed) c
    (fun _ c1 => wp (mret true) c1 (fun b c2 => conn_ok c2 /\ machine OpClose s (Some b) (state_ c2)) E) E.
Proof.
  intros []. destruct (Close_client (socket_ c)) as [H _]; [done|]. apply wp_modify, wp_ret.
  split; [by constructor|by destruct s].
Qed.

Lemma refines_Close c : conn_ok c -> refines OpClose c.
Proof.
  intros Hok. unfold refines, run_op, Close. apply wp_bind, wp_bind, wp_get.
  destruct (decide (state_ c = Disconnected)) as [Hd|Hd].
  { apply wp_ret, wp_ret. split; [done|]. rewrite Hd. by split. }
  apply wp_bind. destruct (decide (state_ c = Executing)) as [He|He]; [|by apply wp_ret, (wp_closed (state_ c))].
  rewrite He. apply wp_bind. eapply wp_mono; [by apply refines_SendAttention|..].
  2:{ intros e c' (_ & _ & H). by rewrite He in H. }
  intros b c1 [Hok1 _]. apply wp_bind. eapply wp_mono; [by apply (refines_WaitForAttentionAck (CANCELLATION_TIMEOUT * 1000))|..].
  - intros b' c2 [Hok2 _]. by apply wp_ret, (wp_closed Executing).
  - intros e c2 (H1 & H2 & H3). split_and!; [done..|]. simpl. by destruct (state_ c1); try by destruct H3.
Qed.

Definition batch_wire (c : TdsConnection) (ps : list TdsPacket) : bytes :=
  let ps := if needs_reset_ c then flag_reset ps else ps in concat (Serialize <$> number_packets (batch_id c ps) ps).

Lemma wp_ExecuteBatch sql c : conn_ok c -> state_ c = Idle ->
  wp (ExecuteBatch fuel sql) c
    (fun ok c' => conn_ok c' /\ state_ c' = (if ok then Executing else Disconnected) /\ (ok = false -> err_set c') /\
       exists ps, BuildSqlBatchMultiPacket fuel sql (negotiated_packet_size_ c) (GetTransactionDescriptor c) = Some ps /\
         wrote (batch_wire c ps) c ok c' /\ (ps <> [] -> needs_reset_ c' = false))
    (fun _ _ => False).
Proof.
  intros Hok Hst. unfold ExecuteBatch. apply wp_bind, wp_compare_exchange; intros Hs; [simpl negb; cbv iota|done].
  apply wp_bind, wp_get. set (c0 := set_state Executing c).
  apply wp_bind, wp_lift_option. intros ps Eps. apply wp_bind.
  change (BuildSqlBatchMultiPacket fuel sql (negotiated_packet_size_ c) (GetTransactionDescriptor c) = Some ps) in Eps.
  assert (Hgo : forall r qs, qs = (if needs_reset_ c then flag_reset ps else ps) -> (ps <> [] -> r = false) ->
    wp (sent ← send_batch fuel qs;
        if negb sent then
          _ ← modify (fun c => set_state Disconnected
                 (set_last_error (FailedToSend (batch_name qs (IsTlsEnabled (socket_ c))) (socket_error c)) c));
          mret false
        else mret true) (set_needs_reset r c0)
      (fun ok c' => conn_ok c' /\ state_ c' = (if ok then Executing else Disconnected) /\ (ok = false -> err_set c') /\
       exists ps, BuildSqlBatchMultiPacket fuel sql (negotiated_packet_size_ c) (GetTransactionDescriptor c) = Some ps /\
         wrote (batch_wire c ps) c ok c' /\ (ps <> [] -> needs_reset_ c' = false)) (fun _ _ => False)).
  { intros r qs Eq Hr. apply wp_bind. eapply wp_mono; [apply sends_batch; by destruct Hok| |done].
    intros ok c1 [Hs1 (w & Ew & Hpre & Hall)]. pose proof (st_ok _ _ Hs1) as Hok1.
    assert (Hwire : concat (Serialize <$> number_packets (batch_id (set_needs_reset r c0) qs) qs) = batch_wire c ps)
      by (unfold batch_wire; by rewrite <- Eq).
    rewrite Hwire in *. assert (Hr1 : ps <> [] -> needs_reset_ c1 = false) by (rewrite (st_reset _ _ Hs1); exact Hr).
    destruct ok; simpl negb; cbv iota.
    - apply wp_ret. split_and!; [done|by rewrite (st_state _ _ Hs1)|done|]. exists ps. split; [done|]. split; [|done].
      by exists w.
    - apply wp_bind, wp_modify, wp_ret. split_and!; [by destruct Hok1|done|done|]. exists ps. split; [done|]. split; [|done].
      by exists w. }
  change (needs_reset_ c0) with (needs_reset_ c). destruct (needs_reset_ c) eqn:Er; simpl andb.
  - destruct (decide (ps = [])) as [->|Hne].
    + rewrite bool_decide_true by done. simpl negb. cbv iota. apply wp_ret.
      replace c0 with (set_needs_reset true c0) by (unfold c0; rewrite <- Er; by destruct c). by apply Hgo.
    + rewrite bool_decide_false by done. simpl negb. cbv iota. apply wp_bind, wp_modify, wp_ret. by apply Hgo.
  - apply wp_ret. replace c0 with (set_needs_reset false c0) by (unfold c0; rewrite <- Er; by destruct c). by apply Hgo.
Qed.

Lemma refines_ExecuteBatch sql c : conn_ok c -> refines (OpExecuteBatch sql) c.
Proof.
  intros Hok. destruct (decide (state_ c = Idle)) as [Hst|Hst].
  - unfold refines, run_op. eapply wp_mono; [by apply wp_ExecuteBatch| |done].
    intros ok c' (H1 & H2 & _). rewrite Hst. split; [done|]. by destruct ok.
  - unfold refines, run_op, ExecuteBatch. apply wp_bind, wp_compare_exchange; intros Hs; [done|]. simpl negb. cbv iota.
    apply wp_fail. split; [by destruct Hok|]. simpl. by destruct (state_ c).
Qed.

Lemma refines_ReceiveData buffer_size timeout_ms c : 0 < buffer_size -> conn_ok c -> refines (OpReceiveData buffer_size timeout_ms) c.
Proof.
  intros Hb0 Hok. unfold refines, run_op, ReceiveData. apply wp_bind, wp_bind, wp_get.
  destruct (decide (state_ c = Executing \/ state_ c = Cancelling)) as [Hs|Hs].
  - assert (Hb : negb (bool_decide (state_ c = Executing)) && negb (bool_decide (state_ c = Cancelling)) = false).
    { destruct Hs as [-> | ->]; done. }
    rewrite Hb. cbv iota. apply wp_bind. unfold wp at 1, on_socket.
    destruct (Receive buffer_size timeout_ms (socket_ c)) as [r s] eqn:E.
    apply Receive_spec in E as [Hsame _]; [|done]. apply same_but_net_ok in Hsame; [|apply Hok].
    destruct r as [[|b l]|]; [apply wp_bind, wp_modify, wp_ret, wp_ret|apply wp_ret, wp_ret|apply wp_bind, wp_modify, wp_ret, wp_ret];
      (split; [by destruct Hok|]); simpl; by destruct Hs as [-> | ->].
  - assert (Hb : negb (bool_decide (state_ c = Executing)) && negb (bool_decide (state_ c = Cancelling)) = true).
    { rewrite !bool_decide_false by tauto. done. }
    rewrite Hb. cbv iota. apply wp_fail, wp_ret. split; [by destruct Hok|]. simpl.
    destruct (state_ c); try (by split); by (exfalso; apply Hs; auto).
Qed.

Lemma refines_all op c : conn_ok c -> op_ok op -> refines op c.
Proof.
  intros Hok Hop. destruct op;
    [by apply refines_Connect|by apply refines_Authenticate|by apply refines_FedAuth|by apply refines_Integrated
    |by apply refines_Ping|by apply refines_ValidateWithPing|by apply refines_SendAttention
    |by apply refines_WaitForAttentionAck|by apply refines_Close|by apply refines_ExecuteBatch
    |by apply refines_ReceiveData|..]; unfold refines, run_op.
  - apply wp_compare_exchange; intros Hs; unfold machine.
    + rewrite decide_True by done. split; [by apply state_ok|done].
    + rewrite decide_False by done. by split.
  - apply wp_bind. destruct descriptor as [d|]; apply wp_modify, wp_ret; (split; [|done]); destruct Hok; constructor; try done.
    simpl. simpl in Hop. rewrite zlen_ztake; lia.
  - apply wp_bind, wp_modify, wp_ret. split; [by destruct Hok|done].
  - apply wp_bind, wp_modify, wp_ret. split; [|done]. destruct Hok. constructor; try done. simpl.
    unfold TDS_DEFAULT_PACKET_SIZE, TDS_MIN_PACKET_SIZE, TDS_MAX_PACKET_SIZE. repeat case_match; lia.
Qed.
End Machine.

(** ** Following the hops *)

Section Followed.
Context {T : Transport} {Si : Simdutf} {Au : Authenticator}.
Context (attempt : Z -> M LoginAttemptOutcome).

(** The connection as the next attempt finds it. *)
Definition retargeted (name host : bytes) (port : Z) (s : TdsSocket) (c : TdsConnection) : TdsConnection :=
  set_socket s (set_port port (set_host host (set_tds_server_name name c))).

(** From the attempt of number [hop] on [c], the answers lead to that of number
    [hop'] on [c']. *)
Inductive followed : Z -> TdsConnection -> Z -> TdsConnection -> Prop :=
  | followed_here hop c : followed hop c hop c
  | followed_hop hop c c1 name host port s hop' c' :
      attempt hop (fresh_attempt c) = (Returns Route, c1) ->
      routed_target (routed_server_ c1) (routed_port_ c1) = (name, host, port) ->
      Socket.Connect host port (connect_timeout_seconds_ c1) (Socket.Close (socket_ c1)) = (true, s) ->
      followed (hop + 1) (retargeted name host port s c1) hop' c' ->
      followed hop c hop' c'.

(** How the last attempt, number [hop] on [c], ends the loop. *)
Definition last_attempt (hop : Z) (c : TdsConnection) (ok : bool) (c' : TdsConnection) : Prop :=
  match attempt hop (fresh_attempt c) with
  | (Returns Success, c1) => ok = true /\ c' = set_state Idle c1
  | (Returns Failure, c1) => ok = false /\ c' = disconnect_socket c1
  | (Returns Route, c1) =>
      ok = false /\ state_ c' = Disconnected /\
      if hop =? MAX_ROUTING_HOPS
      then last_error_ c' = TooManyRoutingHops (hop + 1) (routed_server_ c1) (routed_port_ c1)
      else let '(_, host, port) := routed_target (routed_server_ c1) (routed_port_ c1) in
           let '(connects, s) := Socket.Connect host port (connect_timeout_seconds_ c1) (Socket.Close (socket_ c1)) in
           connects = false /\ last_error_ c' = FailedToConnectToRouted host port (Socket.last_error_ s)
  | _ => False
  end.

Lemma hop_loop_followed : forall hops hop c ok c',
  Z.of_nat hops + hop = MAX_ROUTING_HOPS + 1 -> hop <= MAX_ROUTING_HOPS ->
  hop_loop hops attempt hop c = (Returns ok, c') ->
  exists hop1 c1, followed hop c hop1 c1 /\ hop <= hop1 <= MAX_ROUTING_HOPS /\ last_attempt hop1 c1 ok c'.
Proof.
  unfold MAX_ROUTING_HOPS. induction hops as [|hops IH]; intros hop c ok c' Hn Hle; [lia|]. cbn [hop_loop].
  unfold mbind, M_bind, modify. destruct (attempt hop (fresh_attempt c)) as [[[]|e| |] c1] eqn:Ea; try done.
  - intros [= <- <-]. exists hop, c. split; [constructor|]. split; [lia|]. unfold last_attempt. by rewrite Ea.
  - unfold MAX_ROUTING_HOPS. destruct (Z.ltb_spec 5 (hop + 1)).
    + intros [= <- <-]. exists hop, c. split; [constructor|]. split; [lia|]. unfold last_attempt. rewrite Ea.
      split; [done|]. split; [done|]. unfold MAX_ROUTING_HOPS. by replace (hop =? 5) with true by lia.
    + unfold get, NormalizeRoutedTarget, mbind, M_bind, modify, mret, M_ret, on_socket.
      destruct (routed_target (routed_server_ c1) (routed_port_ c1)) as [[name host] port] eqn:Et.
      cbn [socket_ set_port set_host set_socket set_tds_server_name connect_timeout_seconds_].
      destruct (Socket.Connect host port (connect_timeout_seconds_ c1) (Socket.Close (socket_ c1))) as [ok1 s] eqn:Ec.
      destruct ok1; simpl negb; cbv iota.
      * intros E. apply IH in E as (hop1 & c2 & Hf & Hh & Hl); [|unfold MAX_ROUTING_HOPS; lia..].
        exists hop1, c2. split; [|split; [unfold MAX_ROUTING_HOPS in *; lia|done]].
        eapply followed_hop; [exact Ea|exact Et|exact Ec|exact Hf].
      * intros [= <- <-]. exists hop, c. split; [constructor|]. split; [lia|]. unfold last_attempt. rewrite Ea, Et, Ec.
        split; [done|]. split; [done|]. unfold MAX_ROUTING_HOPS. by replace (hop =? 5) with false by lia.
  - intros [= <- <-]. exists hop, c. split; [constructor|]. split; [lia|]. unfold last_attempt. by rewrite Ea.
Qed.
End Followed.

(** ** Splitting a routed target *)

Section Target.
Context {T : Transport} {Si : Simdutf} {Au : Authenticator}.

Lemma find_byte_app b s t : b ∉ s -> find_byte b (s ++ t) = (fun i => (length s + i)%nat) <$> find_byte b t.
Proof.
  induction s as [|x s IH]; intros Hs; cbn [find_byte app length]; [by destruct (find_byte b t)|].
  apply not_elem_of_cons in Hs as [Hx Hs]. rewrite decide_False by done. rewrite IH by done. by destruct (find_byte b t).
Qed.

Lemma rfind_none b s : b ∉ s -> rfind b s = None.
Proof.
  induction s as [|x s IH]; intros Hs; cbn [rfind]; [done|]. apply not_elem_of_cons in Hs as [Hx Hs]. rewrite IH by done.
  by rewrite decide_False by done.
Qed.

Lemma rfind_last b s t : b ∉ t -> rfind b (s ++ b :: t) = Some (length s).
Proof.
  intros Ht. induction s as [|x s IH]; cbn [rfind app length]; [by rewrite rfind_none, decide_True|by rewrite IH].
Qed.

Lemma drop_past {A} (s : list A) b t : drop (S (length s)) (s ++ b :: t) = t.
Proof. induction s as [|x s IH]; [done|exact IH]. Qed.

Lemma digits_no_colon ds : forallb is_digit ds = true -> colon ∉ ds.
Proof. intros H Hin. rewrite forallb_forall in H. apply list_elem_of_In, H in Hin. done. Qed.

(** The name without what follows its first backslash. *)
Lemma host_part host inst : backslash ∉ host -> (inst = [] \/ exists i, inst = backslash :: i) ->
  match find_byte backslash (host ++ inst) with Some i => take i (host ++ inst) | None => host ++ inst end = host.
Proof.
  intros Hh Hi. rewrite find_byte_app by done. destruct Hi as [->|[i ->]].
  - cbn [find_byte fmap option_fmap option_map]. apply app_nil_r.
  - cbn [find_byte]. rewrite decide_True by done. cbn [fmap option_fmap option_map]. by rewrite Nat.add_0_r, take_app_length.
Qed.
End Target.

(** ** The properties *)

Section Traces.
Context {T : Transport} {Si : Simdutf} {Au : Authenticator}.
Context (fuel : nat) (pid : Z) (client_hostname : bytes) (now : net -> Z).

(** What a caller sees of a call: its result, or an exception. *)
Definition answer_of (o : outcome bool) : option (option bool) :=
  match o with Returns b => Some (Some b) | Throws _ => Some None | Running | Undefined => None end.

(** The calls a client made and the answers it got. *)
Inductive trace : TdsConnection -> list (conn_op * option bool) -> TdsConnection -> Prop :=
  | trace_nil c : trace c [] c
  | trace_call c op a l c' :
      op_ok op -> answer_of (run_op fuel pid client_hostname now op c).1 = Some a ->
      trace (run_op fuel pid client_hostname now op c).2 l c' -> trace c ((op, a) :: l) c'.

(** The same calls on the abstract machine. *)
Inductive path : ConnectionState -> list (conn_op * option bool) -> ConnectionState -> Prop :=
  | path_nil s : path s [] s
  | path_call s op a s1 l s' : machine op s a s1 -> path s1 l s' -> path s ((op, a) :: l) s'.

Lemma refines_answer op c a : conn_ok c -> op_ok op ->
  answer_of (run_op fuel pid client_hostname now op c).1 = Some a ->
  let c' := (run_op fuel pid client_hostname now op c).2 in conn_ok c' /\ machine op (state_ c) a (state_ c').
Proof.
  intros Hok Hop. pose proof (refines_all fuel pid client_hostname now op c Hok Hop) as H. unfold refines, wp in H.
  destruct (run_op _ _ _ _ op c) as [[b|e| |] c']; simpl; intros [= <-]; [done|]. by destruct H as (H1 & _ & H2).
Qed.

Lemma trace_path c l c' : trace c l c' -> conn_ok c -> conn_ok c' /\ path (state_ c) l (state_ c').
Proof.
  induction 1 as [c|c op a l c' Hop Ha Ht IH]; intros Hok; [split; [done|constructor]|].
  destruct (refines_answer op c a Hok Hop Ha) as [H1 H2]. destruct (IH H1) as [H3 H4].
  split; [done|]. by eapply path_call.
Qed.

Lemma TdsConnection_new_ok n created : conn_ok (TdsConnection_new n created).
Proof. constructor; [apply TdsSocket_new_ok|simpl; unfold TDS_MIN_PACKET_SIZE, TDS_MAX_PACKET_SIZE, TDS_DEFAULT_PACKET_SIZE; lia..|done]. Qed.
End Traces.

(** C5. The connection refines the state machine of its header. Whatever calls a
    client makes on a new connection, in any order, and whatever the server, the
    kernel and the authenticator answer: every state it is left in is the one
    the machine gives for the answer the caller saw, a call off its state is
    refused and changes no state, no call reads outside a buffer, the numbers
    the connection keeps stay in the ranges the protocol allows, and the only
    exceptions are a login field over 128 code units, an SSPI offset over 65535
    and a packet length out of range. *)
Theorem Operations_refine `{Transport} `{Simdutf} `{Authenticator} (fuel : nat) (pid : Z) (client_hostname : bytes)
    (now : net -> Z) (n : net) (created : Z) (calls : list (conn_op * option bool)) (c : TdsConnection)
    (Ht : trace fuel pid client_hostname now (TdsConnection_new n created) calls c) :
  path Disconnected calls (state_ c) /\ conn_ok c /\
  (forall op, op_ok op ->
    match (run_op fuel pid client_hostname now op c).1 with
    | Undefined => False
    | Throws e => login_exn e
    | Returns _ | Running => True
    end).
Proof.
  destruct (trace_path _ _ _ _ _ _ _ Ht (TdsConnection_new_ok n created)) as [Hok Hp]. split; [exact Hp|]. split; [exact Hok|].
  intros op Hop. pose proof (refines_all fuel pid client_hostname now op c Hok Hop) as Hr. unfold refines, wp in Hr.
  destruct (run_op _ _ _ _ op c) as [[b|e| |] c']; try done. by destruct Hr as (_ & He & _).
Qed.

(** C19. [RunWithRoutingHops] keeps the contract of its header for every attempt
    that keeps its own: true leaves the connection Idle and connected; false
    leaves it Disconnected, the socket closed, an error set; the state is not
    touched before. The attempts made are those the ROUTING answers lead to, each
    on the target [NormalizeRoutedTarget] makes of the answer before it, six at
    most, and the last one decides: success, failure, a sixth routing answer
    ("too many hops"), or a target that does not accept a connection. *)
Theorem RunWithRoutingHops_contract `{Transport} `{Simdutf} `{Authenticator}
    (attempt : Z -> M LoginAttemptOutcome) (c : TdsConnection)
    (Hatt : forall hop, triple connected (attempt hop) login_post)
    (Hok : conn_ok c) (Hst : state_ c = Authenticating) (Hcon : connected c) :
  wp (RunWithRoutingHops attempt) c
    (fun ok c' => hop_post ok c' /\
       exists hop c1, followed attempt 0 c hop c1 /\ 0 <= hop <= MAX_ROUTING_HOPS /\ last_attempt attempt hop c1 ok c')
    (fun e c' => conn_ok c' /\ state_ c' = Authenticating /\ login_exn e).
Proof.
  pose proof (wp_RunWithRoutingHops connected attempt c (fun _ H => H) Hatt Hok Hcon Hst) as Hw. unfold wp in *.
  destruct (RunWithRoutingHops attempt c) as [[ok|e| |] c'] eqn:E; try done. split; [exact Hw|].
  by apply hop_loop_followed in E.
Qed.

(** What a server's routing target means, whatever stands in it. A host
    without backslash, with or without [\instance], and [:port] behind it: the
    port outranks that of the ENVCHANGE, LOGIN7 is told [host\instance] and TCP
    the host. Without a colon the ENVCHANGE's port is used. What stands behind
    the last colon and is no port from 1 to 65535 stays part of the name. *)
Theorem NormalizeRoutedTarget_splits `{Transport} `{Simdutf} `{Authenticator} (host inst suffix : bytes) (port : Z)
    (c : TdsConnection) (Hh : backslash ∉ host) (Hi : inst = [] \/ exists i, inst = backslash :: i) :
  (forall p, port_suffix suffix = Some p ->
     NormalizeRoutedTarget (host ++ inst ++ colon :: suffix) port c = (Returns (host, p), set_tds_server_name (host ++ inst) c) /\
     p = digits 0 suffix /\ 1 <= p <= 65535) /\
  (colon ∉ host ++ inst -> NormalizeRoutedTarget (host ++ inst) port c = (Returns (host, port), set_tds_server_name (host ++ inst) c)) /\
  (colon ∉ suffix -> port_suffix suffix = None ->
     exists tcp, NormalizeRoutedTarget (host ++ inst ++ colon :: suffix) port c
                 = (Returns (tcp, port), set_tds_server_name (host ++ inst ++ colon :: suffix) c) /\ (inst <> [] -> tcp = host)).
Proof.
  unfold NormalizeRoutedTarget, routed_target. split; [|split].
  - intros p Hp. assert (Hd : forallb is_digit suffix = true /\ p = digits 0 suffix /\ 1 <= p <= 65535).
    { revert Hp. unfold port_suffix. destruct suffix as [|b suffix]; [done|]. destruct (forallb _ _); [|done]. cbv zeta.
      destruct (andb _ _) eqn:E; [|done]. apply andb_true_iff in E as [E1%Z.ltb_lt E2%Z.leb_le]. intros Hd. injection Hd as Hd. change (digits 0 (b :: suffix) = p) in Hd. subst p. split; [done|split; [done|lia]]. }
    split; [|tauto]. destruct Hd as [Hd _]. rewrite app_assoc, rfind_last by by apply digits_no_colon.
    rewrite drop_past. rewrite Hp, take_app_length, host_part by done. done.
  - intros Hc. rewrite rfind_none by done. by rewrite host_part by done.
  - intros Hc Hn. rewrite app_assoc, rfind_last by done. rewrite drop_past. rewrite Hn.
    rewrite <- app_assoc. eexists. split; [reflexivity|]. intros Hne. destruct Hi as [->|[i ->]]; [done|].
    rewrite (host_part host ((backslash :: i) ++ colon :: suffix)); [done|done|]. right. by eexists.
Qed.

(** C24. [ExecuteBatch] puts one TDS message on the wire: the bytes that leave are
    a prefix of it, all of it when the call returns true, and what a receiver
    puts together out of its packets is the ALL_HEADERS block, with the
    transaction descriptor if one is set, and the statement in UTF-16LE (a ping
    if that is empty), whatever the negotiated packet size and whether it goes
    out in one write or packet by packet. RESET_CONNECTION is on the first packet
    exactly if a reset was asked for, and is not asked for again. *)
Theorem ExecuteBatch_message `{Transport} `{Simdutf} `{!SimdutfSpec _} `{Authenticator} (fuel : nat) (sql : bytes)
    (c c' : TdsConnection) (ok : bool) (Hok : conn_ok c) (Hst : state_ c = Idle)
    (Hf : zlen (payload_ (BuildSqlBatch sql (GetTransactionDescriptor c))) < Z.of_nat fuel)
    (Hr : ExecuteBatch fuel sql c = (Returns ok, c')) :
  exists wire left,
    accepted (net_ (socket_ c')) = accepted (net_ (socket_ c)) ++ left /\ left `prefix_of` wire /\
    (if ok then left = wire /\ state_ c' = Executing else state_ c' = Disconnected /\ last_error_ c' <> NoError) /\
    stream_message wire
      (payload_ (if decide (Utf16LEEncode sql = []) then BuildPing
                 else BuildSqlBatch sql (GetTransactionDescriptor c))) [] /\
    (exists type status w, wire = type :: status :: w /\ Z.testbit (b2z status) 3 = needs_reset_ c) /\
    needs_reset_ c' = false.
Proof.
  pose proof (wp_ExecuteBatch fuel sql c Hok Hst) as Hw. unfold wp in Hw. rewrite Hr in Hw.
  destruct Hw as (Hok' & Hs & He & ps & Eps & (w & Ew & Hpre & Hall) & Hreset).
  pose proof (ok_negotiated _ Hok) as Hneg. unfold TDS_MIN_PACKET_SIZE, TDS_MAX_PACKET_SIZE in Hneg.
  pose proof (SqlBatch_split fuel sql (negotiated_packet_size_ c) (GetTransactionDescriptor c)) as Hsplit.
  rewrite Eps in Hsplit. specialize (Hsplit ltac:(unfold TDS_HEADER_SIZE; lia) Hf).
  set (m := payload_ (if decide _ then _ else _)).
  assert (Hm : message_of ps m /\ Forall plain ps).
  { unfold m. case_decide as Hd.
    - injection Hsplit as ->. split; [apply message_of_BuildPing|]. constructor; [by right|constructor].
    - destruct Hsplit as (ps' & [= <-] & Hws). split.
      + eapply well_split_message; [|exact Hws]. unfold TDS_MAX_PACKET_SIZE. lia.
      + eapply Forall_impl; [apply Hws|]. by intros p (_ & Hp & _). }
  destruct Hm as [Hm Hp]. exists (batch_wire c ps), w. split; [done|]. split; [done|].
  split; [destruct ok; [by split; [apply Hall|]|by split; [|apply He]]|]. split.
  - rewrite <- (app_nil_r (batch_wire c ps)). unfold batch_wire. cbv zeta. apply message_of_stream, message_of_number.
    destruct (needs_reset_ c); [by apply message_of_reset|done].
  - split; [by apply (first_status (needs_reset_ c) _ _ m)|]. apply Hreset. by destruct Hm.
Qed.

(** ** Concrete inputs *)

Section Samples.
#[local] Existing Instance RefSimdutf.simdutf.
#[local] Existing Instance script_transport.

(** An authenticator that always has a token. *)
#[local] Instance sample_authenticator : Authenticator := {|
  auth := unit; InitialBytes a := (inr (bs [0x60]), a); NextBytes _ a := (inr [], a)
|}.

(** A server without encryption that accepts the login: LOGINACK and DONE. *)
Definition sample_server : script :=
  mkScript [bs [4; 1; 0; 15; 0; 0; 1; 0; 1; 0; 6; 0; 1; 255; 2];
            bs [4; 1; 0; 34; 0; 0; 1; 0; 0xAD; 10; 0; 1; 0x74; 0; 0; 4; 0; 16; 0; 0; 0];
            bs [0xFD; 0; 0; 0; 0; 0; 0; 0; 0; 0; 0; 0; 0]] [] [].
Definition text (l : list Z) : bytes := bs l.

Definition sample_calls : list (conn_op * option bool) :=
  [(OpPing 1000, Some false); (OpConnect (text [104]) 1433 15, Some true);
   (OpAuthenticate (text [115; 97]) (text [112]) (text [109]) false [], Some true);
   (OpSetNeedsReset true, Some true); (OpExecuteBatch (text [83]), Some true); (OpSendAttention, Some true)].

Fixpoint run_all (calls : list (conn_op * option bool)) (c : TdsConnection) : TdsConnection :=
  match calls with
  | [] => c
  | (op, _) :: calls => run_all calls (run_op 400 1 (text [99]) (fun _ => 0) op c).2
  end.

Definition sample_after : TdsConnection := run_all sample_calls (TdsConnection_new sample_server 0).

Lemma Operations_refine_witness :
  path Disconnected sample_calls Cancelling /\ conn_ok sample_after.
Proof.
  assert (Ht : trace 400 1 (text [99]) (fun _ => 0) (TdsConnection_new sample_server 0) sample_calls sample_after).
  { unfold sample_after, sample_calls. cbn [run_all].
    repeat (apply trace_call; [exact I|vm_compute; reflexivity|]). apply trace_nil. }
  destruct (@Operations_refine script_transport _ _ 400 1 (text [99]) (fun _ => 0) sample_server 0 sample_calls sample_after Ht) as (Hp & Hok & _).
  assert (Hs : state_ sample_after = Cancelling) by (vm_compute; reflexivity).
  rewrite Hs in Hp. split; [exact Hp|exact Hok].
Defined.

(** A server that routes its first client on. *)
Definition sample_attempt (hop : Z) : M LoginAttemptOutcome :=
  if hop =? 0 then
    _ ← modify (fun c => set_routed_port 1433 (set_routed_server (text [104; 92; 105; 58; 55]) (set_has_routing true c)));
    mret Route
  else mret Success.

Lemma sample_attempt_keeps hop : triple connected (sample_attempt hop) login_post.
Proof.
  unfold sample_attempt. destruct (hop =? 0); [|by apply triple_ret].
  eapply (triple_bind _ (fun _ => login_post Route)); [|intros []; by apply triple_ret].
  apply triple_modify. intros c [] _. split; [by constructor|done].
Qed.

Definition sample_connecting : TdsConnection := set_state Authenticating (run_all (take 2 sample_calls) (TdsConnection_new sample_server 0)).

Lemma RunWithRoutingHops_contract_witness :
  exists c', RunWithRoutingHops sample_attempt sample_connecting = (Returns true, c') /\
    state_ c' = Idle /\ tds_server_name_ c' = text [104; 92; 105] /\ host_ c' = text [104] /\ port_ c' = 7.
Proof.
  assert (Hok : conn_ok sample_connecting) by (constructor; [constructor|..]; vm_compute; repeat split; discriminate).
  pose proof (@RunWithRoutingHops_contract script_transport _ _ sample_attempt sample_connecting sample_attempt_keeps Hok eq_refl eq_refl) as Hw.
  assert (E : (RunWithRoutingHops sample_attempt sample_connecting).1 = Returns true) by (vm_compute; reflexivity).
  exists (RunWithRoutingHops sample_attempt sample_connecting).2. split; [rewrite <- E; apply surjective_pairing|].
  unfold wp in Hw. destruct (RunWithRoutingHops sample_attempt sample_connecting) as [o c'] eqn:Er.
  simpl in E. rewrite E in Hw. destruct Hw as [[_ [Hs _]] _]. split; [exact Hs|].
  assert (H : match RunWithRoutingHops sample_attempt sample_connecting with (_, c) =>
    bool_decide (tds_server_name_ c = text [104; 92; 105] /\ host_ c = text [104] /\ port_ c = 7) end = true)
    by (vm_compute; reflexivity).
  rewrite Er in H. by apply bool_decide_eq_true in H.
Defined.

Lemma NormalizeRoutedTarget_splits_witness :
  NormalizeRoutedTarget (text [104; 92; 105; 58; 49; 52]) 1433 sample_connecting
  = (Returns (text [104], 14), set_tds_server_name (text [104; 92; 105]) sample_connecting).
Proof.
  destruct (@NormalizeRoutedTarget_splits script_transport _ _ (text [104]) (text [92; 105]) (text [49; 52]) 1433 sample_connecting) as [H _].
  - intros Hin. apply list_elem_of_singleton in Hin. discriminate Hin.
  - right. exists (text [105]). reflexivity.
  - destruct (H 14) as [E _]; [vm_compute; reflexivity|exact E].
Defined.

Definition sample_idle : TdsConnection := run_all (take 4 sample_calls) (TdsConnection_new sample_server 0).

Lemma ExecuteBatch_message_witness :
  exists wire left, stream_message wire (payload_ (BuildSqlBatch (text [83]) None)) [] /\
    Z.testbit (b2z (nth 1 wire Byte.x00)) 3 = true /\
    accepted (net_ (socket_ (ExecuteBatch 400 (text [83]) sample_idle).2)) = accepted (net_ (socket_ sample_idle)) ++ left /\
    left = wire.
Proof.
  assert (Hok : conn_ok sample_idle) by (constructor; [constructor|..]; vm_compute; repeat split; discriminate).
  destruct (@ExecuteBatch_message script_transport _ _ _ 400 (text [83]) sample_idle (ExecuteBatch 400 (text [83]) sample_idle).2 true Hok)
    as (wire & left & Ha & Hpre & (Hl & _) & Hm & (t & st & w & Hwire & Hb) & _).
  - vm_compute. reflexivity.
  - vm_compute. reflexivity.
  - rewrite (surjective_pairing (ExecuteBatch 400 (text [83]) sample_idle)) at 1. f_equal.
  - exists wire, left. split; [|split; [|split; [exact Ha|exact Hl]]].
    + rewrite decide_False in Hm by (vm_compute; discriminate). exact Hm.
    + rewrite Hwire. cbn [nth]. rewrite Hb. vm_compute. reflexivity.
Defined.
End Samples.
