(* ===== verification/Pool.v ===== *)
(** * The connection pool (src/src/tds/tds_connection_pool.cpp, include/tds/tds_connection_pool.hpp)

    What the pool needs of its connections is the class [Connections], and what
    it relies on the laws of [ConnectionsSpec], which are properties of
    [Connection]'s operations and of the catalog's factories.

    Every stretch of code that runs under [pool_mutex_] without giving it up is
    one function on the pool and the world of connections; what a thread does
    between two stretches is its program counter ([acquire_pc], [client]), and
    [sys_step] interleaves the stretches of any number of clients, the cleanup
    thread and [Shutdown]. Waiting on a condition variable is being in [Waiting]:
    a thread may go on at any time, as a spurious wake-up lets it. The
    statistics are [size_t]; ids start at 1 and are not bounded (a wrap takes
    2^64 connections); [timeout_ms] and [acquire_timeout * 1000] are taken as they
    are. Null pointers, the warnings on stderr and the final debug assertion are
    left out, and so is the cleanup thread itself: joining it is waiting for its
    last pass. *)

From stdpp Require Import gmap.
From S2P Require Import Prelude TdsTypes Connection.

(** ** What a pool needs of connections *)

Class Connections : Type := {
  conn : Type;
  #[global] conn_eq_dec :: EqDecision conn;
  world : Type;
  GetState : conn -> world -> ConnectionState;
  IsAlive : conn -> world -> bool;
  IsLongIdle : conn -> world -> bool;
  Close : conn -> world -> outcome unit * world;
  ValidateWithPing : conn -> world -> outcome bool * world;
  UpdateLastUsed : conn -> world -> world;
  (** The connections that exist. *)
  known : world -> conn -> bool;
  factory : world -> outcome (option conn) * world;
  (** [steady_clock::now()], in nanoseconds. *)
  steady_now : world -> Z
}.

Section Interface.
Context {C : Connections}.

(** What an operation on one connection leaves of another. *)
Definition view (c : conn) (w : world) : ConnectionState * bool := (GetState c w, IsAlive c w).

(** [w'] is [w] but for the connections in [cs] and those that are new. *)
Record only (cs : list conn) (w w' : world) : Prop := {
  only_view c : known w c = true -> c ∉ cs -> view c w' = view c w;
  only_known c : known w c = true -> known w' c = true
}.
End Interface.

Class ConnectionsSpec (C : Connections) : Prop := {
  close_only c w : only [c] w (Close c w).2;
  (** Off the state Executing there is nothing to cancel, and nothing throws. *)
  close_returns c w : GetState c w <> Executing -> (Close c w).1 = Returns tt;
  ping_only c w : only [c] w (ValidateWithPing c w).2;
  ping_idle c w : view c w = (Idle, true) -> (ValidateWithPing c w).1 = Returns true ->
    view c (ValidateWithPing c w).2 = (Idle, true);
  used_only c w : only [] w (UpdateLastUsed c w);
  factory_only w : only [] w (factory w).2;
  (** A connection the factory returns is new, logged in and connected. *)
  factory_fresh c w : (factory w).1 = Returns (Some c) ->
    known w c = false /\ known (factory w).2 c = true /\ view c (factory w).2 = (Idle, true)
}.

Section Pool.
Context {C : Connections}.

(** ** The state *)

Record PoolConfiguration : Type := mkPoolConfiguration {
  connection_limit : Z;
  connection_cache : bool;
  connection_timeout : Z;
  idle_timeout : Z;
  min_connections : Z;
  acquire_timeout : Z
}.

Record ConnectionMetadata : Type := mkConnectionMetadata {
  connection : conn;
  connection_id : Z;
  last_released : Z
}.

Record PoolStatistics : Type := mkPoolStatistics {
  total_connections : Z;
  idle_connections : Z;
  active_connections : Z;
  connections_created : Z;
  connections_closed : Z;
  acquire_count : Z;
  acquire_timeout_count : Z;
  acquire_wait_total_ms : Z;
  pinned_count : Z
}.

Record ConnectionPool : Type := mkConnectionPool {
  config_ : PoolConfiguration;
  idle_connections_ : list ConnectionMetadata;
  active_connections_ : gmap Z conn;
  stats_ : PoolStatistics;
  next_connection_id_ : Z;
  shutdown_flag_ : bool;
  pinned_count_ : Z
}.

Definition no_stats : PoolStatistics := mkPoolStatistics 0 0 0 0 0 0 0 0 0.

Definition ConnectionPool_new (config : PoolConfiguration) : ConnectionPool :=
  mkConnectionPool config [] ∅ no_stats 1 false 0.

(** Assignment to a member. *)
Definition set_idle (l : list ConnectionMetadata) (p : ConnectionPool) : ConnectionPool :=
  mkConnectionPool (config_ p) l (active_connections_ p) (stats_ p) (next_connection_id_ p) (shutdown_flag_ p) (pinned_count_ p).
Definition set_active (m : gmap Z conn) (p : ConnectionPool) : ConnectionPool :=
  mkConnectionPool (config_ p) (idle_connections_ p) m (stats_ p) (next_connection_id_ p) (shutdown_flag_ p) (pinned_count_ p).
Definition set_stats (s : PoolStatistics) (p : ConnectionPool) : ConnectionPool :=
  mkConnectionPool (config_ p) (idle_connections_ p) (active_connections_ p) s (next_connection_id_ p) (shutdown_flag_ p) (pinned_count_ p).
Definition set_next_id (n : Z) (p : ConnectionPool) : ConnectionPool :=
  mkConnectionPool (config_ p) (idle_connections_ p) (active_connections_ p) (stats_ p) n (shutdown_flag_ p) (pinned_count_ p).
Definition set_shutdown (b : bool) (p : ConnectionPool) : ConnectionPool :=
  mkConnectionPool (config_ p) (idle_connections_ p) (active_connections_ p) (stats_ p) (next_connection_id_ p) b (pinned_count_ p).
Definition set_pinned (n : Z) (p : ConnectionPool) : ConnectionPool :=
  mkConnectionPool (config_ p) (idle_connections_ p) (active_connections_ p) (stats_ p) (next_connection_id_ p)
    (shutdown_flag_ p) n.

(** Sixty-four bits. *)
Definition u64 (z : Z) : Z := z mod 18446744073709551616.

(** [stats_.total_connections += total; ...]. *)
Definition add_counts (total idle active created closed : Z) (p : ConnectionPool) : ConnectionPool :=
  let s := stats_ p in
  set_stats (mkPoolStatistics (u64 (total_connections s + total)) (u64 (idle_connections s + idle))
    (u64 (active_connections s + active)) (u64 (connections_created s + created)) (u64 (connections_closed s + closed))
    (acquire_count s) (acquire_timeout_count s) (acquire_wait_total_ms s) (pinned_count s)) p.
Definition add_acquires (acquires timeouts wait_ms : Z) (p : ConnectionPool) : ConnectionPool :=
  let s := stats_ p in
  set_stats (mkPoolStatistics (total_connections s) (idle_connections s) (active_connections s) (connections_created s)
    (connections_closed s) (u64 (acquire_count s + acquires)) (u64 (acquire_timeout_count s + timeouts))
    (u64 (acquire_wait_total_ms s + wait_ms)) (pinned_count s)) p.

(** ** Computations *)

(** What runs under the mutex: it may throw, with the pool as it is then. *)
Definition PM (A : Type) : Type := ConnectionPool * world -> outcome A * (ConnectionPool * world).

#[global] Instance PM_ret : MRet PM := fun A a s => (Returns a, s).
#[global] Instance PM_bind : MBind PM := fun A B f m s =>
  match m s with
  | (Returns a, s) => f a s
  | (Throws e, s) => (Throws e, s)
  | (Running, s) => (Running, s)
  | (Undefined, s) => (Undefined, s)
  end.

Definition get : PM ConnectionPool := fun s => (Returns s.1, s).
Definition update (f : ConnectionPool -> ConnectionPool) : PM unit := fun '(p, w) => (Returns tt, (f p, w)).
Definition ask {A} (f : world -> A) : PM A := fun s => (Returns (f s.2), s).
Definition call {A} (f : world -> outcome A * world) : PM A := fun '(p, w) => let '(o, w) := f w in (o, (p, w)).

Definition touch (f : world -> world) : PM unit := fun '(p, w) => (Returns tt, (p, f w)).

(** ** Handing out *)

(** [duration_cast<milliseconds>(now - start)], and in seconds. *)
Definition elapsed_ms (now start : Z) : Z := (now - start) ÷ 1000000.
Definition elapsed_s (now start : Z) : Z := (now - start) ÷ 1000000000.

Definition ValidateConnection (c : conn) : PM bool :=
  alive ← ask (IsAlive c);
  if negb alive then mret false else
  long ← ask (IsLongIdle c);
  if long : bool then call (ValidateWithPing c) else mret true.

(** The [while] of [TryAcquireIdle] on the queue. *)
Fixpoint try_idle (queue : list ConnectionMetadata) : PM (option conn) :=
  match queue with
  | [] => mret None
  | meta :: queue =>
      _ ← update (fun p => add_counts 0 (-1) 0 0 0 (set_idle queue p));
      valid ← ValidateConnection (connection meta);
      if valid : bool then
        _ ← update (fun p => add_counts 0 0 1 0 0 (set_active (<[connection_id meta := connection meta]> (active_connections_ p)) p));
        _ ← touch (UpdateLastUsed (connection meta));
        mret (Some (connection meta))
      else
        _ ← call (Close (connection meta));
        _ ← update (add_counts (-1) 0 0 0 1);
        try_idle queue
  end.

Definition TryAcquireIdle : PM (option conn) := p ← get; try_idle (idle_connections_ p).

(** Where a thread is in [Acquire]. *)
Inductive acquire_pc : Type :=
  | Entering (timeout_ms : Z)
  | Locking (start timeout_ms : Z)
  | Creating (start timeout_ms : Z)
  | Created (start timeout_ms : Z) (c : option conn)
  | Waiting (start timeout_ms : Z)
  | Done (c : option conn).

(** From "pool exhausted" to the wait. *)
Definition exhausted (start timeout_ms : Z) : PM acquire_pc :=
  if timeout_ms =? 0 then _ ← update (add_acquires 0 1 0); mret (Done None) else
  now ← ask steady_now;
  let elapsed := elapsed_ms now start in
  if timeout_ms <=? elapsed then _ ← update (add_acquires 0 1 elapsed); mret (Done None)
  else mret (Waiting start timeout_ms).

(** The head of the loop: an idle connection, or the way to another. *)
Definition acquire_turn (start timeout_ms : Z) : PM acquire_pc :=
  c ← TryAcquireIdle;
  match c with
  | Some c =>
      now ← ask steady_now;
      _ ← update (add_acquires 0 0 (elapsed_ms now start));
      mret (Done (Some c))
  | None =>
      p ← get;
      if total_connections (stats_ p) <? connection_limit (config_ p) then mret (Creating start timeout_ms)
      else exhausted start timeout_ms
  end.

(** What is done with the connection once the lock is taken again. *)
Definition register (start timeout_ms : Z) (c : option conn) : PM acquire_pc :=
  match c with
  | Some c =>
      p ← get;
      let id := next_connection_id_ p in
      _ ← update (fun p => add_counts 1 0 1 1 0 (set_active (<[id := c]> (active_connections_ p)) (set_next_id (id + 1) p)));
      now ← ask steady_now;
      _ ← update (add_acquires 0 0 (elapsed_ms now start));
      mret (Done (Some c))
  | None => exhausted start timeout_ms
  end.

(** The next stretch of [Acquire]. [Creating] runs without the lock. *)
Definition acquire_step (pc : acquire_pc) : PM acquire_pc :=
  match pc with
  | Entering timeout_ms =>
      p ← get;
      if shutdown_flag_ p then mret (Done None) else
      now ← ask steady_now;
      mret (Locking now (if timeout_ms <? 0 then acquire_timeout (config_ p) * 1000 else timeout_ms))
  | Locking start timeout_ms => _ ← update (add_acquires 1 0 0); acquire_turn start timeout_ms
  | Creating start timeout_ms => c ← call factory; mret (Created start timeout_ms c)
  | Created start timeout_ms c => register start timeout_ms c
  | Waiting start timeout_ms =>
      p ← get; if shutdown_flag_ p then mret (Done None) else acquire_turn start timeout_ms
  | Done c => mret (Done c)
  end.

(** ** Taking back *)

Definition find_active (c : conn) (m : gmap Z conn) : option Z :=
  match list_find (fun kv => kv.2 = c) (map_to_list m) with Some (_, (id, _)) => Some id | None => None end.

(** [Close] and the counters. *)
Definition close_counted (c : conn) : PM unit := _ ← call (Close c); update (add_counts (-1) 0 0 0 1).

(** [Release] once it has the lock; the check before it is [release_check]. *)
Definition release_locked (c : conn) : PM unit :=
  p ← get;
  if shutdown_flag_ p then call (Close c) else
  let found := find_active c (active_connections_ p) in
  _ ← match found with
      | Some id => update (fun p => add_counts 0 0 (-1) 0 0 (set_active (delete id (active_connections_ p)) p))
      | None => mret tt
      end;
  state ← ask (GetState c);
  if negb (bool_decide (state = Idle)) then close_counted c else
  alive ← ask (IsAlive c);
  if negb (connection_cache (config_ p)) || negb alive then close_counted c else
  now ← ask steady_now;
  match found with
  | Some id => update (fun p => add_counts 0 1 0 0 0 (set_idle (idle_connections_ p ++ [mkConnectionMetadata c id now]) p))
  | None =>
      update (fun p => add_counts 0 1 0 0 0 (set_next_id (next_connection_id_ p + 1)
        (set_idle (idle_connections_ p ++ [mkConnectionMetadata c (next_connection_id_ p) now]) p)))
  end.

(** Whether [Release] goes on to the lock. *)
Definition release_check (p : ConnectionPool) : bool := negb (shutdown_flag_ p).

(** ** The cleanup thread *)

(** The [while] over the queue, with what is kept so far. *)
Fixpoint sweep (queue remaining : list ConnectionMetadata) (now to_keep : Z) : PM (list ConnectionMetadata) :=
  match queue with
  | [] => mret remaining
  | meta :: queue =>
      _ ← update (set_idle queue);
      p ← get;
      let idle_duration := elapsed_s now (last_released meta) in
      let should_close := (idle_timeout (config_ p) <? idle_duration) && (to_keep <=? Z.of_nat (length remaining)) in
      if should_close then
        _ ← call (Close (connection meta));
        _ ← update (add_counts (-1) (-1) 0 0 1);
        sweep queue remaining now to_keep
      else sweep queue (remaining ++ [meta]) now to_keep
  end.

(** One turn of [CleanupThreadFunc]. *)
Definition cleanup_pass : PM unit :=
  p ← get;
  if shutdown_flag_ p then mret tt else
  if idle_timeout (config_ p) <=? 0 then mret tt else
  now ← ask steady_now;
  let to_keep := if active_connections (stats_ p) <? min_connections (config_ p)
                 then min_connections (config_ p) - active_connections (stats_ p) else 0 in
  remaining ← sweep (idle_connections_ p) [] now to_keep;
  update (set_idle remaining).

(** ** Shutdown *)

Definition shutdown_signal : PM unit := update (set_shutdown true).

Fixpoint close_idle (queue : list ConnectionMetadata) : PM unit :=
  match queue with
  | [] => mret tt
  | meta :: queue =>
      _ ← call (Close (connection meta));
      _ ← update (fun p => add_counts 0 0 0 0 1 (set_idle queue p));
      close_idle queue
  end.

Fixpoint close_active (l : list (Z * conn)) : PM unit :=
  match l with
  | [] => mret tt
  | (_, c) :: l => _ ← call (Close c); _ ← update (add_counts 0 0 0 0 1); close_active l
  end.

Definition shutdown_close : PM unit :=
  p ← get;
  _ ← close_idle (idle_connections_ p);
  _ ← close_active (map_to_list (active_connections_ p));
  update (fun p =>
    let s := stats_ p in
    set_stats (mkPoolStatistics 0 0 0 (connections_created s) (connections_closed s) (acquire_count s)
      (acquire_timeout_count s) (acquire_wait_total_ms s) (pinned_count s)) (set_active ∅ p)).

(** ** The pin counter and the statistics *)

(** An [int64_t]. *)
Definition i64 (z : Z) : Z := (z + 9223372036854775808) mod 18446744073709551616 - 9223372036854775808.

Definition IncrementPinned : PM unit := update (fun p => set_pinned (i64 (pinned_count_ p + 1)) p).
Definition DecrementPinned : PM unit := update (fun p => set_pinned (i64 (pinned_count_ p - 1)) p).
Definition GetPinnedCount (p : ConnectionPool) : Z := pinned_count_ p.

Definition GetStats (p : ConnectionPool) : PoolStatistics :=
  let s := stats_ p in
  mkPoolStatistics (total_connections s) (idle_connections s) (active_connections s) (connections_created s)
    (connections_closed s) (acquire_count s) (acquire_timeout_count s) (acquire_wait_total_ms s) (pinned_count_ p).
End Pool.
