(* ===== verification/PoolSpec.v ===== *)
(** * What the connection pool promises

    The clients of a pool ([client], [sys_step]), what holds in every state they
    can reach ([sys_inv]: [shape] says who has which connection, [counts] what the
    statistics count), and what each stretch of [Pool] does to it, as triples of
    [pwp]. [Pool_sound] is the whole of it; [Acquire_hands_out],
    [Release_outcomes] and [Cleanup_keeps] are about one operation each. [Toy] is
    a small instance of the interface, [Pool_limit_exceeded] and [Pool_slot_lost]
    are two of its runs. *)

From stdpp Require Import gmap.
From S2P Require Import Prelude TdsTypes Connection Pool.

(** ** The system: clients, the cleanup thread, Shutdown *)

Section System.
Context {C : Connections}.

(** What a client thread is doing. [Releasing]: past the unlocked check. *)
Inductive client : Type :=
  | Resting
  | Acquiring (pc : acquire_pc)
  | Holding (c : conn)
  | Releasing (c : conn).

Record system : Type := mkSystem {
  pool : ConnectionPool;
  world_ : world;
  clients : list client;
  (** Whether an exception has left a stretch of [Acquire] or [Release]. *)
  threw : bool
}.

(** The client after a stretch of [Acquire]. *)
Definition acquired (o : outcome acquire_pc) : option client :=
  match o with
  | Returns (Done (Some c)) => Some (Holding c)
  | Returns (Done None) => Some Resting
  | Returns pc => Some (Acquiring pc)
  | Throws _ => Some Resting
  | Running | Undefined => None
  end.

(** Whether a stretch threw; one that goes on for ever is no step. *)
Definition ended {A} (o : outcome A) : option bool :=
  match o with Returns _ => Some false | Throws _ => Some true | Running | Undefined => None end.

Inductive sys_step : system -> system -> Prop :=
  | step_enter p w l i t timeout_ms :
      l !! i = Some Resting ->
      sys_step (mkSystem p w l t) (mkSystem p w (<[i := Acquiring (Entering timeout_ms)]> l) t)
  | step_acquire p w l i t pc o p' w' cl b :
      l !! i = Some (Acquiring pc) -> acquire_step pc (p, w) = (o, (p', w')) -> acquired o = Some cl -> ended o = Some b ->
      sys_step (mkSystem p w l t) (mkSystem p' w' (<[i := cl]> l) (t || b))
  | step_use p w l i t c w' :
      l !! i = Some (Holding c) -> only [c] w w' -> sys_step (mkSystem p w l t) (mkSystem p w' l t)
  | step_time p w l t w' : only [] w w' -> sys_step (mkSystem p w l t) (mkSystem p w' l t)
  | step_release p w l i t c :
      l !! i = Some (Holding c) ->
      sys_step (mkSystem p w l t) (mkSystem p w (<[i := if release_check p then Releasing c else Resting]> l) t)
  | step_release_locked p w l i t c o p' w' b :
      l !! i = Some (Releasing c) -> release_locked c (p, w) = (o, (p', w')) -> ended o = Some b ->
      sys_step (mkSystem p w l t) (mkSystem p' w' (<[i := Resting]> l) (t || b))
  | step_cleanup p w l t p' w' :
      cleanup_pass (p, w) = (Returns tt, (p', w')) -> sys_step (mkSystem p w l t) (mkSystem p' w' l t)
  | step_shutdown p w l t : sys_step (mkSystem p w l t) (mkSystem (set_shutdown true p) w l t)
  | step_shutdown_close p w l t p' w' :
      shutdown_flag_ p = true -> shutdown_close (p, w) = (Returns tt, (p', w')) ->
      sys_step (mkSystem p w l t) (mkSystem p' w' l t).

Definition system_new (config : PoolConfiguration) (w : world) (n : nat) : system :=
  mkSystem (ConnectionPool_new config) w (replicate n Resting) false.

Inductive reachable (config : PoolConfiguration) (w : world) (n : nat) : system -> Prop :=
  | reachable_new : reachable config w n (system_new config w n)
  | reachable_step s s' : reachable config w n s -> sys_step s s' -> reachable config w n s'.

(** ** The invariant *)

(** The connections a client has that are not in the pool yet; the ones it
    holds; whether it is making one. *)
Definition pending (cl : client) : list conn :=
  match cl with Acquiring (Created _ _ (Some c)) => [c] | _ => [] end.
Definition held (cl : client) : list conn :=
  match cl with Holding c | Releasing c | Acquiring (Done (Some c)) => [c] | _ => [] end.
Definition creates (cl : client) : Z :=
  match cl with Acquiring (Creating _ _) | Acquiring (Created _ _ (Some _)) => 1 | _ => 0 end.

Definition conns (l : list ConnectionMetadata) : list conn := connection <$> l.

(** Who has which connection. [ps] and [hs]: what the clients have pending and
    hold. *)
Record shape (p : ConnectionPool) (w : world) (ps hs : list conn) : Prop := {
  sh_ids : NoDup (connection_id <$> idle_connections_ p);
  sh_idle_id meta : meta ∈ idle_connections_ p ->
    active_connections_ p !! connection_id meta = None /\ connection_id meta < next_connection_id_ p;
  sh_active_id id c : active_connections_ p !! id = Some c -> id < next_connection_id_ p;
  sh_owners : NoDup (conns (idle_connections_ p) ++ ps ++ hs);
  sh_active id c : active_connections_ p !! id = Some c -> c ∉ conns (idle_connections_ p) ++ ps;
  sh_once id id' c : active_connections_ p !! id = Some c -> active_connections_ p !! id' = Some c -> id = id';
  sh_held c : shutdown_flag_ p = false -> c ∈ hs -> exists id, active_connections_ p !! id = Some c;
  sh_known c : c ∈ conns (idle_connections_ p) ++ ps ++ hs -> known w c = true;
  sh_known_active id c : active_connections_ p !! id = Some c -> known w c = true;
  sh_view meta : meta ∈ idle_connections_ p -> view (connection meta) w = (Idle, true)
}.

(** The statistics. [limbo]: taken out of one place and not yet in another;
    [making]: how many of [n] clients are making a connection. *)
Record counts (p : ConnectionPool) (limbo making n : Z) (threw : bool) : Prop := {
  ct_idle : idle_connections (stats_ p) = Z.of_nat (length (idle_connections_ p));
  ct_active : active_connections (stats_ p) = Z.of_nat (size (active_connections_ p));
  ct_total : idle_connections (stats_ p) + active_connections (stats_ p) + limbo <= total_connections (stats_ p);
  ct_exact : threw = false ->
    total_connections (stats_ p) = idle_connections (stats_ p) + active_connections (stats_ p) + limbo;
  ct_making : 0 <= making <= n;
  ct_limit : total_connections (stats_ p) + making <= connection_limit (config_ p) + n - 1 < 18446744073709551615
}.

Definition pool_inv (p : ConnectionPool) (w : world) (ps hs : list conn) (making n : Z) (threw : bool) : Prop :=
  shape p w ps hs /\ counts p 0 making n threw.

(** ** Moving a connection *)

Lemma shape_perm p w ps ps' hs hs' : ps ≡ₚ ps' -> hs ≡ₚ hs' -> shape p w ps hs -> shape p w ps' hs'.
Proof.
  intros Hp Hh []. constructor; try done.
  - by rewrite <- Hp, <- Hh.
  - intros id c. rewrite <- Hp. eauto.
  - intros c. rewrite <- Hh. eauto.
  - intros c. rewrite <- Hp, <- Hh. eauto.
Qed.

Lemma shape_world p w w' cs ps hs :
  only cs w w' -> (forall c, c ∈ cs -> c ∉ conns (idle_connections_ p)) -> shape p w ps hs -> shape p w' ps hs.
Proof.
  intros [Hv Hk] Hcs []. constructor; try done.
  - intros c Hc. auto.
  - intros id c Hc. eauto.
  - intros meta Hm. assert (Hin : connection meta ∈ conns (idle_connections_ p)) by by apply list_elem_of_fmap_2.
    rewrite Hv; [auto|apply sh_known0, elem_of_app; by left|]. intros Hc. by apply (Hcs _ Hc).
Qed.

Lemma shape_pop p w ps hs meta q :
  idle_connections_ p = meta :: q -> shape p w ps hs ->
  shape (set_idle q p) w (connection meta :: ps) hs /\ view (connection meta) w = (Idle, true) /\
  active_connections_ p !! connection_id meta = None /\ connection_id meta < next_connection_id_ p /\
  connection_id meta ∉ connection_id <$> q.
Proof.
  intros Hq []. rewrite Hq in *. split.
  - constructor; simpl; try done.
    + by apply NoDup_cons in sh_ids0 as [_ ?].
    + intros m Hm. apply sh_idle_id0. by right.
    + revert sh_owners0. unfold conns. rewrite fmap_cons. cbn [app]. intros H.
      assert (E : (connection <$> q) ++ (connection meta :: ps) ++ hs ≡ₚ connection meta :: (connection <$> q) ++ ps ++ hs)
        by (symmetry; apply Permutation_middle). by rewrite E.
    + intros id c Hc. specialize (sh_active0 id c Hc). unfold conns in *. set_solver.
    + intros c Hc. apply sh_known0. unfold conns in *. set_solver.
    + intros m Hm. apply sh_view0. by right.
  - destruct (sh_idle_id0 meta) as [H1 H2]; [by left|]. apply NoDup_cons in sh_ids0 as [Hn _].
    split_and!; [by apply sh_view0; left|done..].
Qed.

Lemma shape_activate p w ps hs c id :
  active_connections_ p !! id = None -> id < next_connection_id_ p -> id ∉ connection_id <$> idle_connections_ p ->
  shape p w (c :: ps) hs -> shape (set_active (<[id := c]> (active_connections_ p)) p) w ps (c :: hs).
Proof.
  intros Hid Hlt Hni []. constructor; simpl; try done.
  - intros meta Hm. destruct (sh_idle_id0 meta Hm). split; [|done]. rewrite lookup_insert_ne; [done|].
    intros ->. apply Hni. by apply list_elem_of_fmap_2.
  - intros id' c' [[-> ->]|[Hne Hc']]%lookup_insert_Some; [done|eauto].
  - by rewrite <- Permutation_middle.
  - intros id' c' [[-> ->]|[Hne Hc']]%lookup_insert_Some.
    + apply NoDup_app in sh_owners0 as (_ & Hd & Hn). cbn [app] in Hn. apply NoDup_cons in Hn as [Hn _]. set_solver.
    + specialize (sh_active0 id' c' Hc'). set_solver.
  - intros i j c' [[-> ->]|[Hi Hi']]%lookup_insert_Some [[-> Hj]|[Hj Hj']]%lookup_insert_Some; [done|..].
    + specialize (sh_active0 _ _ Hj'). set_solver.
    + subst c'. specialize (sh_active0 _ _ Hi'). set_solver.
    + eauto.
  - intros c' Hf [-> | Hc']%elem_of_cons; [exists id; by rewrite lookup_insert_eq|].
    destruct (sh_held0 c' Hf Hc') as [id' Hid']. exists id'. rewrite lookup_insert_ne; [done|congruence].
  - intros c' Hc'. apply sh_known0. set_solver.
  - intros id' c' [[-> ->]|[Hne Hc']]%lookup_insert_Some; [apply sh_known0; set_solver|eauto].
Qed.

Lemma shape_deactivate p w ps hs c id :
  active_connections_ p !! id = Some c -> shape p w ps (c :: hs) ->
  shape (set_active (delete id (active_connections_ p)) p) w (c :: ps) hs /\
  id < next_connection_id_ p /\ id ∉ connection_id <$> idle_connections_ p.
Proof.
  intros Hid []. split; [|split; [eauto|]].
  - constructor; simpl; try done.
    + intros meta Hm. destruct (sh_idle_id0 meta Hm) as [H1 H2]. split; [|done]. by rewrite lookup_delete_None; right.
    + intros id' c' [Hne Hc']%lookup_delete_Some. eauto.
    + by rewrite Permutation_middle.
    + intros id' c' [Hne Hc']%lookup_delete_Some. specialize (sh_active0 id' c' Hc').
      assert (c' <> c) by (intros ->; apply Hne; eauto). set_solver.
    + intros i j c' [Hi Hi']%lookup_delete_Some [Hj Hj']%lookup_delete_Some. eauto.
    + intros c' Hf Hc'. destruct (sh_held0 c' Hf) as [id' Hid']; [set_solver|]. exists id'. apply lookup_delete_Some.
      split; [|done]. intros <-. rewrite Hid in Hid'. injection Hid' as <-.
      apply NoDup_app in sh_owners0 as (_ & _ & Hn). apply NoDup_app in Hn as (_ & _ & Hn). by apply NoDup_cons in Hn as [Hn _].
    + intros c' Hc'. apply sh_known0. set_solver.
    + intros id' c' [Hne Hc']%lookup_delete_Some. eauto.
  - intros (meta & -> & Hm)%list_elem_of_fmap. destruct (sh_idle_id0 meta Hm) as [H1 _]. congruence.
Qed.
Lemma shape_enqueue p w ps hs c id now :
  active_connections_ p !! id = None -> id < next_connection_id_ p -> id ∉ connection_id <$> idle_connections_ p ->
  view c w = (Idle, true) -> (forall id', active_connections_ p !! id' <> Some c) ->
  shape p w (c :: ps) hs -> shape (set_idle (idle_connections_ p ++ [mkConnectionMetadata c id now]) p) w ps hs.
Proof.
  intros Hid Hlt Hni Hv Hna []. set (meta := mkConnectionMetadata c id now).
  assert (Ec : conns (idle_connections_ p ++ [meta]) = conns (idle_connections_ p) ++ [c])
    by (unfold conns; by rewrite fmap_app).
  constructor; simpl; rewrite ?Ec; try done.
  - rewrite fmap_app. apply NoDup_app. split; [done|]. split; [set_solver|apply NoDup_singleton].
  - intros m [Hm | ->%list_elem_of_singleton]%elem_of_app; [auto|done].
  - by rewrite <- app_assoc.
  - intros id' c' Hc'. specialize (sh_active0 id' c' Hc'). specialize (Hna id'). set_solver.
  - intros c' Hc'. apply sh_known0. set_solver.
  - intros m [Hm | ->%list_elem_of_singleton]%elem_of_app; [auto|done].
Qed.

Lemma shape_drop p w ps hs c : shape p w (c :: ps) hs -> shape p w ps hs.
Proof.
  intros []. constructor; try done.
  - cbn [app] in sh_owners0. rewrite <- Permutation_middle in sh_owners0. by apply NoDup_cons in sh_owners0 as [_ ?].
  - intros id c' Hc'. specialize (sh_active0 id c' Hc'). set_solver.
  - intros c' Hc'. apply sh_known0. set_solver.
Qed.

Lemma shape_drop_held p w ps hs c : shape p w ps (c :: hs) -> shape p w ps hs.
Proof.
  intros []. constructor; try done.
  - rewrite app_assoc, <- Permutation_middle, <- app_assoc in sh_owners0. by apply NoDup_cons in sh_owners0 as [_ ?].
  - intros c' Hf Hc'. apply sh_held0; [done|set_solver].
  - intros c' Hc'. apply sh_known0. set_solver.
Qed.

(** A connection that was not there before. *)
Lemma shape_fresh p w w' ps hs c :
  only [] w w' -> known w c = false -> known w' c = true -> shape p w ps hs -> shape p w' (c :: ps) hs.
Proof.
  intros Ho Hk Hk' Hs. pose proof (shape_world p w w' [] ps hs Ho) as Hs'. specialize (Hs' ltac:(set_solver) Hs).
  destruct Hs, Hs'. constructor; try done.
  - cbn [app]. rewrite <- Permutation_middle. apply NoDup_cons. split; [|done]. intros Hin. apply sh_known0 in Hin. congruence.
  - intros id c' Hc'. specialize (sh_active0 id c' Hc'). assert (c' <> c) by (intros ->; apply sh_known_active0 in Hc'; congruence).
    set_solver.
  - intros c' Hc'. destruct (decide (c' = c)) as [->|]; [done|]. apply sh_known1. set_solver.
Qed.

Lemma shape_counts total idle active created closed p w ps hs :
  shape p w ps hs -> shape (add_counts total idle active created closed p) w ps hs.
Proof. intros []. by constructor. Qed.

Lemma shape_acquires a t ms p w ps hs : shape p w ps hs -> shape (add_acquires a t ms p) w ps hs.
Proof. intros []. by constructor. Qed.

Lemma shape_signal p w ps hs : shape p w ps hs -> shape (set_shutdown true p) w ps hs.
Proof. intros []. by constructor. Qed.

(** An id not given out yet. *)
Lemma shape_next_id p w ps hs : shape p w ps hs ->
  active_connections_ p !! next_connection_id_ p = None /\ next_connection_id_ p ∉ connection_id <$> idle_connections_ p /\
  shape (set_next_id (next_connection_id_ p + 1) p) w ps hs.
Proof.
  intros []. split_and!.
  - destruct (active_connections_ p !! next_connection_id_ p) eqn:E; [|done]. apply sh_active_id0 in E. lia.
  - intros (meta & E & Hm)%list_elem_of_fmap. destruct (sh_idle_id0 meta Hm). lia.
  - constructor; simpl; try done.
    + intros meta Hm. destruct (sh_idle_id0 meta Hm). split; [done|lia].
    + intros id c Hc. apply sh_active_id0 in Hc. lia.
Qed.

Lemma find_active_spec c (m : gmap Z conn) :
  match find_active c m with Some id => m !! id = Some c | None => forall id, m !! id <> Some c end.
Proof.
  unfold find_active. destruct (list_find _ _) as [[i [id c']]|] eqn:E.
  - apply list_find_Some in E as (Hi & Hc & _). simpl in Hc. subst c'. apply list_elem_of_lookup_2 in Hi.
    by apply elem_of_map_to_list in Hi.
  - apply list_find_None in E. intros id Hid. apply elem_of_map_to_list in Hid. rewrite Forall_forall in E. by apply (E _ Hid).
Qed.

(** ** The statistics *)

Lemma u64_small z : 0 <= z < 18446744073709551616 -> u64 z = z.
Proof. apply Z.mod_small. Qed.

(** Less is known after an exception. *)
Lemma counts_threw p limbo making n t : 0 <= limbo -> counts p limbo making n t -> counts p 0 making n true.
Proof. intros Hl []. constructor; try done. lia. Qed.

(** ** Running a stretch *)

Definition pwp {A} (m : PM A) (p : ConnectionPool) (w : world) (Q : A -> ConnectionPool -> world -> Prop)
    (E : ConnectionPool -> world -> Prop) : Prop :=
  match m (p, w) with
  | (Returns a, (p', w')) => Q a p' w'
  | (Throws _, (p', w')) => E p' w'
  | _ => True
  end.

Lemma pwp_ret {A} (a : A) p w (Q : A -> ConnectionPool -> world -> Prop) E : Q a p w -> pwp (mret a) p w Q E.
Proof. done. Qed.

Lemma pwp_bind {A B} (m : PM A) (f : A -> PM B) p w Q E :
  pwp m p w (fun a p' w' => pwp (f a) p' w' Q E) E -> pwp (m ≫= f) p w Q E.
Proof. unfold pwp, mbind, PM_bind. destruct (m (p, w)) as [[a|e| |] [p' w']]; done. Qed.

Lemma pwp_mono {A} (m : PM A) p w (Q Q' : A -> ConnectionPool -> world -> Prop) (E E' : ConnectionPool -> world -> Prop) :
  pwp m p w Q E -> (forall a p' w', Q a p' w' -> Q' a p' w') -> (forall p' w', E p' w' -> E' p' w') -> pwp m p w Q' E'.
Proof. unfold pwp. destruct (m (p, w)) as [[a|e| |] [p' w']]; auto. Qed.

Lemma pwp_get p w (Q : ConnectionPool -> ConnectionPool -> world -> Prop) E : Q p p w -> pwp get p w Q E.
Proof. done. Qed.

Lemma pwp_update f p w (Q : unit -> ConnectionPool -> world -> Prop) E : Q tt (f p) w -> pwp (update f) p w Q E.
Proof. done. Qed.

Lemma pwp_ask {A} (f : world -> A) p w (Q : A -> ConnectionPool -> world -> Prop) E : Q (f w) p w -> pwp (ask f) p w Q E.
Proof. done. Qed.

Lemma pwp_call {A} (f : world -> outcome A * world) p w (Q : A -> ConnectionPool -> world -> Prop) (E : ConnectionPool -> world -> Prop) :
  (forall a, (f w).1 = Returns a -> Q a p (f w).2) -> E p (f w).2 -> pwp (call f) p w Q E.
Proof. unfold pwp, call. destruct (f w) as [[a|e| |] w']; auto. Qed.
Lemma pwp_touch f p w (Q : unit -> ConnectionPool -> world -> Prop) E : Q tt p (f w) -> pwp (touch f) p w Q E.
Proof. done. Qed.
End System.

(** ** Every stretch keeps the invariant *)

Section Stretches.
Context {C : Connections} {HC : ConnectionsSpec C}.

Lemma pending_not_idle p w ps hs c : shape p w (c :: ps) hs -> c ∉ conns (idle_connections_ p).
Proof.
  intros [_ _ _ Ho _ _ _ _ _ _]. apply NoDup_app in Ho as (_ & Hd & _). intros Hin. apply (Hd c Hin). left.
Qed.

Lemma shape_call p w w' c ps hs : only [c] w w' -> shape p w (c :: ps) hs -> shape p w' (c :: ps) hs.
Proof.
  intros Ho Hs. apply (shape_world p w w' [c]); [done| |done]. intros c' ->%list_elem_of_singleton. by eapply pending_not_idle.
Qed.

(** Connections that are ready stay so while somebody uses another one. *)
Definition kept (ps : list conn) (w w' : world) : Prop :=
  forall c, c ∈ ps -> view c w = (Idle, true) -> view c w' = (Idle, true).

Lemma kept_refl ps w : kept ps w w.
Proof. by intros c. Qed.

Lemma kept_trans ps w1 w2 w3 : kept ps w1 w2 -> kept ps w2 w3 -> kept ps w1 w3.
Proof. unfold kept. auto. Qed.

Lemma kept_only ps w w' cs : only cs w w' -> (forall c, c ∈ ps -> known w c = true /\ c ∉ cs) -> kept ps w w'.
Proof. intros [Hv _] Hps c Hc <-. by apply Hv; apply Hps. Qed.

Lemma kept_call p w w' c ps hs : only [c] w w' -> shape p w (c :: ps) hs -> kept ps w w'.
Proof.
  intros Ho []. apply (kept_only _ _ _ [c]); [done|]. intros c' Hc'. split; [apply sh_known0; set_solver|].
  apply NoDup_app in sh_owners0 as (_ & _ & Hn). cbn [app] in Hn. apply NoDup_cons in Hn as [Hn _].
  intros ->%list_elem_of_singleton. apply Hn. set_solver.
Qed.

(** The state of the pool that no stretch of [Acquire] changes. *)
Definition same_pool (p p' : ConnectionPool) : Prop := config_ p' = config_ p /\ shutdown_flag_ p' = shutdown_flag_ p.

Lemma pwp_ValidateConnection p w ps hs c : shape p w (c :: ps) hs -> view c w = (Idle, true) ->
  pwp (ValidateConnection c) p w
    (fun valid p' w' => p' = p /\ shape p w' (c :: ps) hs /\ kept ps w w' /\ (valid = true -> view c w' = (Idle, true)))
    (fun p' w' => p' = p /\ shape p w' (c :: ps) hs /\ kept ps w w').
Proof.
  intros Hs Hv. unfold ValidateConnection. apply pwp_bind, pwp_ask. injection Hv as Hst Ha. rewrite Ha. simpl negb. cbv iota.
  apply pwp_bind, pwp_ask. destruct (IsLongIdle c w).
  - pose proof (shape_call p w _ c ps hs (ping_only c w) Hs) as Hs'.
    pose proof (kept_call p w _ c ps hs (ping_only c w) Hs) as Hk. apply pwp_call; [|by split_and!].
    intros valid Hr. split_and!; [done..|]. intros ->. apply ping_idle; [unfold view; congruence|done].
  - apply pwp_ret. split; [done|]. split; [done|]. split; [by intros ???|]. intros _. unfold view. congruence.
Qed.

Lemma pwp_try_idle ps hs making n t : forall queue p w, idle_connections_ p = queue -> pool_inv p w ps hs making n t ->
  pwp (try_idle queue) p w
    (fun r p' w' => same_pool p p' /\ kept ps w w' /\
       match r with
       | Some c => pool_inv p' w' ps (c :: hs) making n t /\ view c w' = (Idle, true)
       | None => pool_inv p' w' ps hs making n t
       end)
    (fun p' w' => kept ps w w' /\ pool_inv p' w' ps hs making n true).
Proof.
  induction queue as [|meta queue IH]; intros p w Hq [Hs Hc]; cbn [try_idle]; [apply pwp_ret; split_and!; done || by apply kept_refl|].
  destruct (shape_pop p w ps hs meta queue Hq Hs) as (Hs1 & Hv & Hid & Hlt & Hni).
  set (p1 := add_counts 0 (-1) 0 0 0 (set_idle queue p)).
  assert (Hc1 : counts p1 1 making n t).
  { destruct Hc. rewrite Hq in *. simpl length in *. constructor; cbn -[u64 Z.add]; rewrite ?u64_small by lia; try lia.
    all: try (intros Ht; specialize (ct_exact0 Ht); lia). }
  apply (shape_counts 0 (-1) 0 0 0) in Hs1. fold p1 in Hs1. apply pwp_bind, pwp_update. fold p1. apply pwp_bind.
  eapply pwp_mono; [by apply (pwp_ValidateConnection p1 w ps hs)|..].
  2:{ intros p' w' (-> & Hs2 & Hk). split; [done|]. split; [by eapply shape_drop|]. by eapply (counts_threw _ 1). }
  intros valid p' w1 (-> & Hs2 & Hk2 & Hv2). destruct valid.
  - apply pwp_bind, pwp_update. set (p2 := add_counts 0 0 1 0 0 _). apply pwp_bind.
    assert (Hs3 : shape p2 w1 ps (connection meta :: hs)) by (by apply shape_counts, (shape_activate p1 w1)).
    assert (Hc3 : counts p2 0 making n t).
    { destruct Hc1. constructor; cbn -[u64 Z.add p1]; rewrite ?map_size_insert_None by exact Hid; rewrite ?u64_small by lia; try lia.
      all: try (intros Ht; specialize (ct_exact0 Ht); lia). }
    apply pwp_touch, pwp_ret. pose proof (used_only (connection meta) w1) as Ho. split; [done|]. split.
    { eapply kept_trans; [exact Hk2|]. apply (kept_only _ _ _ []); [done|]. intros c Hc'. split; [|set_solver].
      apply (sh_known _ _ _ _ Hs2). set_solver. }
    split.
    + split; [|done]. apply (shape_world p2 w1 _ []); [done|set_solver|done].
    + rewrite (only_view _ _ _ Ho); [by apply Hv2| |set_solver]. apply (sh_known _ _ _ _ Hs2). set_solver.
  - pose proof (close_only (connection meta) w1) as Ho. pose proof (shape_call p1 w1 _ _ ps hs Ho Hs2) as Hs3.
    apply shape_drop in Hs3. pose proof (kept_trans _ _ _ _ Hk2 (kept_call p1 w1 _ _ ps hs Ho Hs2)) as Hk3.
    apply pwp_bind, pwp_call; [|split; [done|]; split; [done|by eapply (counts_threw _ 1)]].
    intros [] _. apply pwp_bind, pwp_update. set (p2 := add_counts (-1) 0 0 0 1 p1).
    eapply pwp_mono; [apply (IH p2)|..]; [done| | |].
    + split; [by apply shape_counts|].
      destruct Hc1. constructor; cbn -[u64 Z.add p1]; rewrite ?u64_small by lia; try lia.
      all: try (intros Ht; specialize (ct_exact0 Ht); lia).
    + intros r p' w' (Hsp & Hk & Hr). split; [exact Hsp|]. split; [by eapply kept_trans|done].
    + intros p' w' [Hk Hr]. split; [by eapply kept_trans|done].
Qed.
End Stretches.

Section Stretches2.
Context {C : Connections} {HC : ConnectionsSpec C}.

(** The invariant, with the connections that are pending ready. *)
Definition ready_inv (p : ConnectionPool) (w : world) (ps hs : list conn) (making n : Z) (threw : bool) : Prop :=
  pool_inv p w ps hs making n threw /\ forall c, c ∈ ps -> view c w = (Idle, true).

Lemma ready_acquires a b ms p w ps hs making n t :
  ready_inv p w ps hs making n t -> ready_inv (add_acquires a b ms p) w ps hs making n t.
Proof. intros [[Hs []] Hr]. split; [|done]. split; [by apply shape_acquires|by constructor]. Qed.

(** What a stretch of [Acquire] leaves, by the point it stops at. *)
Definition turn_post (ps hs : list conn) (making n : Z) (t : bool) (pc : acquire_pc) (p : ConnectionPool) (w : world) : Prop :=
  ready_inv p w (pending (Acquiring pc) ++ ps) (held (Acquiring pc) ++ hs) (creates (Acquiring pc) + making) n t /\
  match pc with Done (Some c) => view c w = (Idle, true) | _ => True end.

Lemma pwp_exhausted start timeout_ms p w ps hs making n t E :
  ready_inv p w ps hs making n t -> pwp (exhausted start timeout_ms) p w (turn_post ps hs making n t) E.
Proof.
  intros H. unfold exhausted. destruct (_ =? _); [by apply pwp_bind, pwp_update, pwp_ret; split; [apply ready_acquires|]|].
  apply pwp_bind, pwp_ask. cbv zeta. destruct (_ <=? _); [|by apply pwp_ret].
  apply pwp_bind, pwp_update, pwp_ret. by split; [apply ready_acquires|].
Qed.

Lemma pwp_acquire_turn start timeout_ms p w ps hs making n t :
  making <= n - 1 -> ready_inv p w ps hs making n t ->
  pwp (acquire_turn start timeout_ms) p w (turn_post ps hs making n t) (fun p' w' => ready_inv p' w' ps hs making n true).
Proof.
  intros Hm [H Hr]. unfold acquire_turn. apply pwp_bind. unfold TryAcquireIdle. apply pwp_bind, pwp_get.
  eapply pwp_mono; [by eapply pwp_try_idle|..].
  2:{ intros p' w' [Hk H']. split; [done|]. auto. }
  intros [c|] p' w' (_ & Hk & H').
  - apply pwp_bind, pwp_ask, pwp_bind, pwp_update, pwp_ret. split; [|apply H']. apply ready_acquires. split; [apply H'|].
    cbn [pending app]. auto.
  - apply pwp_bind, pwp_get. destruct (Z.ltb_spec (total_connections (stats_ p')) (connection_limit (config_ p'))).
    + apply pwp_ret. split; [|done]. split; [|cbn [pending app]; auto]. destruct H' as [Hs []]. split; [done|].
      constructor; try done; simpl; lia.
    + apply pwp_exhausted. split; [done|auto].
Qed.

Lemma pwp_register start timeout_ms c p w ps hs making n t E : 0 <= making ->
  ready_inv p w (pending (Acquiring (Created start timeout_ms c)) ++ ps) hs
    (creates (Acquiring (Created start timeout_ms c)) + making) n t ->
  pwp (register start timeout_ms c) p w (turn_post ps hs making n t) E.
Proof.
  intros Hm H. destruct c as [c|]; [|by apply pwp_exhausted]. cbn [pending creates app] in H. destruct H as [[Hs Hc] Hr].
  unfold register. apply pwp_bind, pwp_get. cbv zeta. apply pwp_bind, pwp_update, pwp_bind, pwp_ask, pwp_bind, pwp_update, pwp_ret.
  split; [|by apply Hr; left]. apply ready_acquires. split; [|intros c' Hc'; apply Hr; by right].
  destruct (shape_next_id _ _ _ _ Hs) as (Hid & Hni & Hs1). split.
  - apply shape_counts. apply (shape_activate (set_next_id (next_connection_id_ p + 1) p)); try done. simpl. lia.
  - destruct Hc. constructor; cbn -[u64 Z.add]; rewrite ?map_size_insert_None by exact Hid; rewrite ?u64_small by lia; try lia.
    all: try (intros Ht; specialize (ct_exact0 Ht); lia).
Qed.

Lemma pwp_acquire_step pc p w ps hs making n t :
  0 <= making <= n - 1 -> (forall c, pc <> Done (Some c)) ->
  ready_inv p w (pending (Acquiring pc) ++ ps) hs (creates (Acquiring pc) + making) n t ->
  pwp (acquire_step pc) p w (turn_post ps hs making n t) (fun p' w' => ready_inv p' w' ps hs making n true).
Proof.
  intros Hm Hd H. destruct pc as [tm|start tm|start tm|start tm c|start tm|[c|]]; cbn [acquire_step].
  - apply pwp_bind, pwp_get. destruct (shutdown_flag_ p); [by apply pwp_ret|]. by apply pwp_bind, pwp_ask, pwp_ret.
  - apply pwp_bind, pwp_update. apply pwp_acquire_turn; [lia|]. by apply ready_acquires.
  - destruct H as [[Hs Hc] Hr]. pose proof (factory_only w) as Ho.
    assert (Hk : kept ps w (factory w).2).
    { apply (kept_only _ _ _ []); [done|]. intros c Hin. split; [|set_solver]. apply (sh_known _ _ _ _ Hs). set_solver. }
    assert (Hs' : shape p (factory w).2 ps hs) by (apply (shape_world p w _ []); [done|set_solver|done]).
    assert (Hless : forall t', counts p 0 (1 + making) n t -> counts p 0 making n (t || t')).
    { intros t' []. constructor; try done; try lia. intros Ht. apply orb_false_iff in Ht as [-> _]. auto. }
    apply pwp_bind, pwp_call.
    + intros [c|] E; apply pwp_ret; (split; [|done]).
      * destruct (factory_fresh c w E) as (K1 & K2 & K3). split; [|by intros c' [-> | Hin]%elem_of_cons; auto].
        split; [by eapply shape_fresh|done].
      * split; [|cbn [pending app]; auto]. split; [done|]. specialize (Hless false Hc). by rewrite orb_false_r in Hless.
    + split; [|auto]. split; [done|]. specialize (Hless true Hc). by rewrite orb_true_r in Hless.
  - apply pwp_register; [lia|done].
  - apply pwp_bind, pwp_get. destruct (shutdown_flag_ p); [by apply pwp_ret|]. apply pwp_acquire_turn; [lia|done].
  - by destruct (Hd c).
  - by apply pwp_ret.
Qed.

Lemma pwp_close_counted p w c ps hs making n t :
  shape p w (c :: ps) hs -> counts p 1 making n t ->
  pwp (close_counted c) p w (fun _ p' w' => kept ps w w' /\ pool_inv p' w' ps hs making n t)
    (fun p' w' => kept ps w w' /\ pool_inv p' w' ps hs making n true).
Proof.
  intros Hs Hc. unfold close_counted. pose proof (close_only c w) as Ho. pose proof (kept_call _ _ _ _ _ _ Ho Hs) as Hk.
  pose proof (shape_drop _ _ _ _ _ (shape_call _ _ _ _ _ _ Ho Hs)) as Hs'. apply pwp_bind, pwp_call.
  - intros [] _. apply pwp_update. split; [done|]. split; [by apply shape_counts|].
    destruct Hc. constructor; cbn -[u64 Z.add]; rewrite ?u64_small by lia; try lia.
    all: try (intros Ht; specialize (ct_exact0 Ht); lia).
  - split; [done|]. split; [done|]. by eapply (counts_threw _ 1).
Qed.

Lemma pwp_release_locked c p w ps hs making n t :
  ready_inv p w ps (c :: hs) making n t ->
  pwp (release_locked c) p w (fun _ p' w' => ready_inv p' w' ps hs making n t)
    (fun p' w' => ready_inv p' w' ps hs making n true).
Proof.
  intros [[Hs Hc] Hr]. unfold release_locked. apply pwp_bind, pwp_get. destruct (shutdown_flag_ p) eqn:Hf.
  - pose proof (close_only c w) as Ho.
    assert (Hni : c ∉ conns (idle_connections_ p) /\ c ∉ ps).
    { destruct Hs. rewrite app_assoc, <- Permutation_middle in sh_owners0. apply NoDup_cons in sh_owners0 as [Hn _]. set_solver. }
    assert (Hs' : shape p (Close c w).2 ps hs).
    { apply (shape_drop_held _ _ _ _ c). apply (shape_world p w _ [c]); [done|set_solver|done]. }
    assert (Hk : kept ps w (Close c w).2).
    { apply (kept_only _ _ _ [c]); [done|]. intros c' Hc'. split; [apply (sh_known _ _ _ _ Hs); set_solver|set_solver]. }
    apply pwp_call; [|split; [|auto]; split; [done|by eapply (counts_threw _ 0)]].
    intros _ _. split; [|auto]. by split.
  - destruct (sh_held _ _ _ _ Hs c Hf) as [id0 Hid0]; [left|]. pose proof (find_active_spec c (active_connections_ p)) as Hfind.
    destruct (find_active c (active_connections_ p)) as [id|]; [|by destruct (Hfind id0)]. clear id0 Hid0.
    destruct (shape_deactivate p w ps hs c id Hfind Hs) as (Hs1 & Hlt & Hni). apply pwp_bind, pwp_update.
    set (p1 := add_counts 0 0 (-1) 0 0 (set_active (delete id (active_connections_ p)) p)).
    assert (Hsz : size (active_connections_ p) = S (size (delete id (active_connections_ p)))).
    { rewrite map_size_delete, Hfind. assert (size (active_connections_ p) <> O); [|lia].
      apply map_size_ne_0_lookup. eauto. }
    assert (Hc1 : counts p1 1 making n t).
    { destruct Hc. constructor; cbn -[u64 Z.add]; rewrite ?u64_small by lia; try lia.
      all: try (intros Ht; specialize (ct_exact0 Ht); lia). }
    apply (shape_counts 0 0 (-1) 0 0) in Hs1. fold p1 in Hs1.
    assert (Hclose : pwp (close_counted c) p1 w (fun _ p' w' => ready_inv p' w' ps hs making n t)
                       (fun p' w' => ready_inv p' w' ps hs making n true)).
    { eapply pwp_mono; [by apply pwp_close_counted|..].
      - intros _ p' w' [Hk H']. split; [done|auto].
      - intros p' w' [Hk H']. split; [done|auto]. }
    apply pwp_bind, pwp_ask. case_bool_decide as Hst; simpl negb; cbv iota; [|exact Hclose].
    apply pwp_bind, pwp_ask. destruct (IsAlive c w) eqn:Ha; [|by rewrite orb_true_r; exact Hclose].
    destruct (connection_cache (config_ p)); [|exact Hclose]. simpl orb. cbv iota.
    apply pwp_bind, pwp_ask, pwp_update. split; [|done]. split.
    + apply shape_counts, (shape_enqueue p1); [| | | | |done].
      * apply (lookup_delete_eq (active_connections_ p)).
      * done.
      * done.
      * unfold view. congruence.
      * intros id' Hid'. apply (lookup_delete_Some (active_connections_ p)) in Hid' as [Hne Hid']. apply Hne. by apply (sh_once _ _ _ _ Hs id id' c).
    + destruct Hc1. change (idle_connections_ p1) with (idle_connections_ p) in ct_idle0. constructor; cbn -[u64 Z.add p1]; rewrite ?length_app; simpl length; rewrite ?u64_small by lia; try lia.
      all: try (intros Ht; specialize (ct_exact0 Ht); lia).
Qed.
End Stretches2.

(** ** The cleanup pass *)

Section Cleanup.
Context {C : Connections} {HC : ConnectionsSpec C}.

(** What one pass keeps of a queue and what it closes, with [k] kept before. *)
Fixpoint kept_of (timeout now to_keep k : Z) (queue : list ConnectionMetadata) : list ConnectionMetadata :=
  match queue with
  | [] => []
  | meta :: queue =>
      if (timeout <? elapsed_s now (last_released meta)) && (to_keep <=? k) then kept_of timeout now to_keep k queue
      else meta :: kept_of timeout now to_keep (k + 1) queue
  end.

Lemma kept_of_sublist timeout now to_keep queue : forall k, kept_of timeout now to_keep k queue `sublist_of` queue.
Proof.
  induction queue as [|meta queue IH]; intros k; cbn [kept_of]; [constructor|].
  destruct (_ && _); [by apply sublist_cons|by apply sublist_skip].
Qed.

(** No connection that is not too old goes, and not so many that fewer than
    [to_keep] are left of a queue that had as many. *)
Lemma kept_of_enough timeout now to_keep queue : forall k,
  Z.min to_keep (k + Z.of_nat (length queue)) <= k + Z.of_nat (length (kept_of timeout now to_keep k queue)).
Proof.
  induction queue as [|meta queue IH]; intros k; cbn [kept_of]; [simpl; lia|].
  destruct (_ <? _); simpl andb; [destruct (Z.leb_spec to_keep k)|]; cbn [length].
  - pose proof (Zle_0_nat (length (kept_of timeout now to_keep k queue))). lia.
  - specialize (IH (k + 1)). lia.
  - specialize (IH (k + 1)). lia.
Qed.

Lemma kept_of_dropped timeout now to_keep queue meta : forall k,
  meta ∈ queue -> meta ∉ kept_of timeout now to_keep k queue ->
  timeout < elapsed_s now (last_released meta) /\ to_keep <= k + Z.of_nat (length (kept_of timeout now to_keep k queue)).
Proof.
  induction queue as [|m queue IH]; intros k Hin Hout; [by apply elem_of_nil in Hin|]. cbn [kept_of] in *.
  destruct ((timeout <? elapsed_s now (last_released m)) && (to_keep <=? k)) eqn:E.
  - apply andb_true_iff in E as [E1%Z.ltb_lt E2%Z.leb_le]. apply elem_of_cons in Hin as [->|Hin]; [|by apply IH].
    split; [done|]. lia.
  - apply not_elem_of_cons in Hout as [Hne Hout]. apply elem_of_cons in Hin as [->|Hin]; [done|].
    destruct (IH (k + 1) Hin Hout). split; [done|]. cbn [length]. lia.
Qed.

(** The queue while the pass is in it: what is kept so far, then the rest. *)
Definition sweeping (p : ConnectionPool) (remaining queue : list ConnectionMetadata) : ConnectionPool :=
  set_idle (remaining ++ queue) p.

Lemma shape_idle_perm p w ps hs l l' :
  l ≡ₚ l' -> shape (set_idle l p) w ps hs -> shape (set_idle l' p) w ps hs.
Proof.
  intros Hl []. assert (Hc : conns l ≡ₚ conns l') by by apply fmap_Permutation. simpl in *.
  constructor; simpl; try done; try setoid_rewrite <- Hl; try setoid_rewrite <- Hc; done.
Qed.

Lemma pwp_call_returns {A} (f : world -> outcome A * world) p w (Q : A -> ConnectionPool -> world -> Prop) E a :
  (f w).1 = Returns a -> Q a p (f w).2 -> pwp (call f) p w Q E.
Proof. unfold pwp, call. destruct (f w) as [o w']. simpl. by intros -> ?. Qed.

Lemma pwp_sweep ps hs making n t E now to_keep : forall queue remaining p w,
  idle_connections_ p = queue ->
  pool_inv (sweeping p remaining queue) w ps hs making n t ->
  pwp (sweep queue remaining now to_keep) p w
    (fun remaining' p' w' =>
       remaining' = remaining ++ kept_of (idle_timeout (config_ p)) now to_keep (Z.of_nat (length remaining)) queue /\
       config_ p' = config_ p /\ kept ps w w' /\ pool_inv (set_idle remaining' p') w' ps hs making n t) E.
Proof.
  induction queue as [|meta queue IH]; intros remaining p w Hq Hinv; cbn [sweep kept_of].
  - apply pwp_ret. unfold sweeping in Hinv. rewrite app_nil_r in *. split_and!; [done|done|by apply kept_refl|done].
  - apply pwp_bind, pwp_update, pwp_bind, pwp_get. cbv zeta. cbn [config_ set_idle]. set (p1 := set_idle queue p).
    destruct ((idle_timeout (config_ p) <? elapsed_s now (last_released meta)) && (to_keep <=? Z.of_nat (length remaining))).
    + destruct Hinv as [Hs Hc]. unfold sweeping in *.
      apply (shape_idle_perm _ _ _ _ _ (meta :: remaining ++ queue)) in Hs; [|symmetry; apply Permutation_middle].
      destruct (shape_pop (set_idle (meta :: remaining ++ queue) p) w ps hs meta (remaining ++ queue) eq_refl Hs) as (Hs1 & Hv & _).
      pose proof (close_only (connection meta) w) as Ho.
      pose proof (kept_call _ _ _ _ _ _ Ho Hs1) as Hk. pose proof (shape_drop _ _ _ _ _ (shape_call _ _ _ _ _ _ Ho Hs1)) as Hs2.
      assert (Hret : (Close (connection meta) w).1 = Returns tt) by (apply close_returns; injection Hv as -> _; done).
      apply pwp_bind. eapply pwp_call_returns; [exact Hret|]. apply pwp_bind, pwp_update.
      eapply pwp_mono; [apply (IH remaining); [done|]| |done].
      * split; [destruct Hs2; by constructor|]. destruct Hc. simpl in *. rewrite length_app in *. simpl length in *.
        constructor; cbn -[u64 Z.add length app]; rewrite ?length_app; rewrite ?u64_small by lia; try lia.
        all: try (intros Ht; specialize (ct_exact0 Ht); lia).
      * intros r p' w' (Hr & Hcfg & Hk' & Hi). split_and!; [done|done|by eapply kept_trans|done].
    + eapply pwp_mono; [apply (IH (remaining ++ [meta])); [done|]| |done].
      * unfold sweeping in *. rewrite <- app_assoc. destruct Hinv as [[] []]. split; by constructor.
      * intros r p' w' (Hr & Hcfg & Hk' & Hi). split_and!; [|done|done|done]. rewrite Hr, <- app_assoc, length_app. simpl length.
        replace (Z.of_nat (length remaining + 1)) with (Z.of_nat (length remaining) + 1) by lia. done.
Qed.

(** The pass itself: what it keeps. *)
Definition to_keep (p : ConnectionPool) : Z :=
  if active_connections (stats_ p) <? min_connections (config_ p)
  then min_connections (config_ p) - active_connections (stats_ p) else 0.

Lemma pwp_cleanup_pass p w ps hs making n t E :
  ready_inv p w ps hs making n t ->
  pwp cleanup_pass p w
    (fun _ p' w' => ready_inv p' w' ps hs making n t /\
       idle_connections_ p' =
         if shutdown_flag_ p || (idle_timeout (config_ p) <=? 0) then idle_connections_ p
         else kept_of (idle_timeout (config_ p)) (steady_now w) (to_keep p) 0 (idle_connections_ p)) E.
Proof.
  intros [Hi Hr]. unfold cleanup_pass. apply pwp_bind, pwp_get. destruct (shutdown_flag_ p); [by apply pwp_ret|].
  destruct (idle_timeout (config_ p) <=? 0); [by apply pwp_ret|]. apply pwp_bind, pwp_ask. cbv zeta. apply pwp_bind.
  eapply pwp_mono; [apply (pwp_sweep ps hs making n t E (steady_now w) (to_keep p) (idle_connections_ p) [] p w)|..]; [done| | |done].
  - destruct Hi as [[] []]. split; by constructor.
  - intros r p' w' (-> & _ & Hk & Hi'). apply pwp_update. split; [split; [done|auto]|done].
Qed.

(** ** Shutdown *)

Lemma pwp_close_idle p0 ps hs E (w0 : world) : forall queue p w,
  idle_connections_ p = queue -> shape p w ps hs -> kept ps w0 w ->
  active_connections_ p = active_connections_ p0 -> config_ p = config_ p0 -> shutdown_flag_ p = shutdown_flag_ p0 ->
  pwp (close_idle queue) p w
    (fun _ p' w' => idle_connections_ p' = [] /\ shape p' w' ps hs /\ kept ps w0 w' /\
       active_connections_ p' = active_connections_ p0 /\ config_ p' = config_ p0 /\ shutdown_flag_ p' = shutdown_flag_ p0) E.
Proof.
  induction queue as [|meta queue IH]; intros p w Hq Hs Hk Ha Hcf Hf; cbn [close_idle]; [by apply pwp_ret|].
  destruct (shape_pop _ w ps hs meta queue Hq Hs) as (Hs1 & Hv & _). pose proof (close_only (connection meta) w) as Ho.
  pose proof (kept_call _ _ _ _ _ _ Ho Hs1) as Hk1. pose proof (shape_drop _ _ _ _ _ (shape_call _ _ _ _ _ _ Ho Hs1)) as Hs2.
  assert (Hret : (Close (connection meta) w).1 = Returns tt) by (apply close_returns; injection Hv as -> _; done).
  apply pwp_bind. eapply pwp_call_returns; [exact Hret|]. apply pwp_bind, pwp_update.
  apply IH; try done; [by apply shape_counts|by eapply kept_trans].
Qed.

Lemma pwp_close_active p0 ps hs (w0 : world) : forall l p w,
  (forall id c, (id, c) ∈ l -> c ∉ conns (idle_connections_ p0) ++ ps) ->
  idle_connections_ p = idle_connections_ p0 -> shape p w ps hs -> kept ps w0 w ->
  config_ p = config_ p0 -> shutdown_flag_ p = shutdown_flag_ p0 ->
  pwp (close_active l) p w
    (fun _ p' w' => idle_connections_ p' = idle_connections_ p0 /\ shape p' w' ps hs /\ kept ps w0 w' /\
       config_ p' = config_ p0 /\ shutdown_flag_ p' = shutdown_flag_ p0) (fun _ _ => True).
Proof.
  induction l as [|[id c] l IH]; intros p w Hl Hi Hs Hk Hcf Hf; cbn [close_active]; [by apply pwp_ret|].
  assert (Hc : c ∉ conns (idle_connections_ p0) ++ ps) by (apply (Hl id); left). pose proof (close_only c w) as Ho.
  apply pwp_bind, pwp_call; [|done]. intros [] _. apply pwp_bind, pwp_update. apply IH; try done.
  - intros id' c' Hin. apply (Hl id'). by right.
  - apply shape_counts, (shape_world p w _ [c]); [done| |done]. rewrite Hi. set_solver.
  - eapply kept_trans; [exact Hk|]. apply (kept_only _ _ _ [c]); [done|]. intros c' Hc'.
    split; [apply (sh_known _ _ _ _ Hs); set_solver|set_solver].
Qed.

Lemma pwp_shutdown_close p w ps hs making n t :
  shutdown_flag_ p = true -> ready_inv p w ps hs making n t ->
  pwp shutdown_close p w
    (fun _ p' w' => ready_inv p' w' ps hs making n t /\ idle_connections_ p' = [] /\ active_connections_ p' = ∅ /\
       total_connections (stats_ p') = 0) (fun _ _ => True).
Proof.
  intros Hf [[Hs Hc] Hr]. unfold shutdown_close. apply pwp_bind, pwp_get, pwp_bind.
  eapply pwp_mono; [apply (pwp_close_idle p ps hs (fun _ _ => True) w _ p w); by try apply kept_refl| |done].
  intros _ p1 w1 (Hi1 & Hs1 & Hk1 & Ha1 & Hcf1 & Hf1). apply pwp_bind. rewrite <- Ha1.
  eapply pwp_mono; [apply (pwp_close_active p1 ps hs w _ p1 w1); try done| |done].
  { intros id c Hin%elem_of_map_to_list. by apply (sh_active _ _ _ _ Hs1 id). }
  intros _ p2 w2 (Hi2 & Hs2 & Hk2 & Hcf2 & Hf2). apply pwp_update. cbv zeta.
  assert (Hi : idle_connections_ p2 = []) by congruence. split; [|by split_and!].
  split; [|auto]. split.
  - destruct Hs2. rewrite Hi in *. constructor; simpl; rewrite ?Hi; try done; try (intros meta Hm; by apply elem_of_nil in Hm).
    intros c Hff. by rewrite Hf2, Hf1, Hf in Hff.
  - destruct Hc. constructor; cbn -[Z.add]; rewrite ?Hi; try done; try lia.
    rewrite Hcf2, Hcf1. lia.
Qed.
End Cleanup.

(** ** Every step of the system *)

Section Steps.
Context {C : Connections} {HC : ConnectionsSpec C}.

Definition sys_inv (s : system) : Prop :=
  ready_inv (pool s) (world_ s) (clients s ≫= pending) (clients s ≫= held)
    (foldr (fun cl k => creates cl + k) 0 (clients s)) (Z.of_nat (length (clients s))) (threw s) /\
  Forall (fun cl => forall c, cl <> Acquiring (Done c)) (clients s).

Lemma ready_perm p w ps ps' hs hs' making n t :
  ps ≡ₚ ps' -> hs ≡ₚ hs' -> ready_inv p w ps hs making n t -> ready_inv p w ps' hs' making n t.
Proof.
  intros Hp Hh [[Hs Hc] Hr]. split; [split; [by eapply shape_perm|done]|]. intros c. rewrite <- Hp. auto.
Qed.

Lemma creates_range cl : 0 <= creates cl <= 1.
Proof. destruct cl as [|[]| |]; simpl; try case_match; lia. Qed.

Lemma foldr_creates l : 0 <= foldr (fun cl k => creates cl + k) 0 l <= Z.of_nat (length l).
Proof. induction l as [|cl l IH]; cbn [foldr length]; [lia|]. pose proof (creates_range cl). lia. Qed.

(** One client and the others. *)
Lemma clients_at (l : list client) i cl : l !! i = Some cl ->
  exists ps hs k, 0 <= k <= Z.of_nat (length l) - 1 /\ forall cl',
    (<[i := cl']> l ≫= pending) ≡ₚ pending cl' ++ ps /\ (<[i := cl']> l ≫= held) ≡ₚ held cl' ++ hs /\
    foldr (fun cl k => creates cl + k) 0 (<[i := cl']> l) = creates cl' + k.
Proof.
  intros Hi. pose proof (lookup_lt_Some _ _ _ Hi) as Hlt.
  exists ((take i l ++ drop (S i) l) ≫= pending), ((take i l ++ drop (S i) l) ≫= held),
    (foldr (fun cl k => creates cl + k) 0 (take i l ++ drop (S i) l)). split.
  - pose proof (foldr_creates (take i l ++ drop (S i) l)) as H. rewrite length_app, length_take, length_drop in H. lia.
  - intros cl'. rewrite insert_take_drop by done. split_and!.
    + rewrite !bind_app, bind_cons. rewrite (Permutation_app_comm (take i l ≫= pending)), <- app_assoc.
      apply Permutation_app_head. apply Permutation_app_comm.
    + rewrite !bind_app, bind_cons. rewrite (Permutation_app_comm (take i l ≫= held)), <- app_assoc.
      apply Permutation_app_head. apply Permutation_app_comm.
    + rewrite !foldr_app. cbn [foldr]. generalize (foldr (fun cl k => creates cl + k) 0 (drop (S i) l)). intros z.
      generalize (take i l). intros l1. induction l1 as [|x l1 IH]; cbn [foldr]; lia.
Qed.

(** The invariant with one client picked out, and back with another in its
    place. *)
Lemma sys_inv_at p w l t i cl : sys_inv (mkSystem p w l t) -> l !! i = Some cl ->
  exists ps hs k, 0 <= k <= Z.of_nat (length l) - 1 /\
    ready_inv p w (pending cl ++ ps) (held cl ++ hs) (creates cl + k) (Z.of_nat (length l)) t /\
    forall cl' p' w' t', (forall c, cl' <> Acquiring (Done c)) ->
      ready_inv p' w' (pending cl' ++ ps) (held cl' ++ hs) (creates cl' + k) (Z.of_nat (length l)) t' ->
      sys_inv (mkSystem p' w' (<[i := cl']> l) t').
Proof.
  intros [Hr Hd] Hi. cbn in *. destruct (clients_at l i cl Hi) as (ps & hs & k & Hk & Hcl). exists ps, hs, k.
  split; [done|]. split.
  - destruct (Hcl cl) as (E1 & E2 & E3). rewrite list_insert_id in E1, E2, E3 by done. rewrite <- E3.
    by eapply ready_perm.
  - intros cl' p' w' t' Hne Hr'. destruct (Hcl cl') as (E1 & E2 & E3). split; cbn.
    + rewrite E3, length_insert. by eapply ready_perm.
    + apply Forall_insert; [done|exact Hne].
Qed.

Lemma pwp_run {A} (m : PM A) p w Q E o p' w' : pwp m p w Q E -> m (p, w) = (o, (p', w')) ->
  match o with Returns a => Q a p' w' | Throws _ => E p' w' | _ => True end.
Proof. unfold pwp. intros H E'. by rewrite E' in H. Qed.

Lemma ready_world p w w' cs ps hs making n t :
  only cs w w' -> (forall c, c ∈ cs -> c ∈ hs) -> ready_inv p w ps hs making n t -> ready_inv p w' ps hs making n t.
Proof.
  intros Ho Hcs [[Hs Hc] Hr].
  assert (Hd : forall c, c ∈ cs -> c ∉ conns (idle_connections_ p) /\ c ∉ ps).
  { intros c Hin%Hcs. pose proof (sh_owners _ _ _ _ Hs) as Hn. rewrite app_assoc in Hn.
    apply NoDup_app in Hn as (_ & Hd & _). split; intros Hx; apply (Hd c); set_solver. }
  split; [split; [|done]|].
  - apply (shape_world p w _ cs); [done|by intros c Hin; apply Hd|done].
  - intros c Hin. eapply (kept_only ps w w' cs); [done| |done|auto]. intros c' Hc'.
    split; [apply (sh_known _ _ _ _ Hs); set_solver|]. intros Hx. by apply (Hd c').
Qed.

Lemma step_inv s s' : sys_inv s -> sys_step s s' -> sys_inv s'.
Proof.
  intros Hinv Hstep. destruct Hstep as
    [p w l i t tm Hi|p w l i t pc o p' w' cl b Hi Ho Hcl Hb|p w l i t c w' Hi Ho|p w l t w' Ho|p w l i t c Hi
    |p w l i t c o p' w' b Hi Ho Hb|p w l t p' w' Ho|p w l t|p w l t p' w' Hf Ho].
  - destruct (sys_inv_at _ _ _ _ _ _ Hinv Hi) as (ps & hs & k & Hk & Hr & Hback). by apply Hback.
  - destruct (sys_inv_at _ _ _ _ _ _ Hinv Hi) as (ps & hs & k & Hk & Hr & Hback).
    assert (Hnd : forall c, pc <> Done c).
    { destruct Hinv as [_ Hd]. cbn in Hd. rewrite Forall_lookup in Hd. intros c ->. by apply (Hd i _ Hi c). }
    assert (Hw : pwp (acquire_step pc) p w (turn_post ps hs k (Z.of_nat (length l)) t)
                   (fun p' w' => ready_inv p' w' ps hs k (Z.of_nat (length l)) true)).
    { apply pwp_acquire_step; [done|intros c; apply Hnd|]. destruct pc as [| | | | |[c|]]; try done. by destruct (Hnd (Some c)). }
    pose proof (pwp_run _ _ _ _ _ _ _ _ Hw Ho) as Hpost. destruct o as [pc'|e| |]; simpl in *; try done.
    + injection Hb as <-. rewrite orb_false_r. destruct Hpost as [Hpost _].
      destruct pc' as [| | | | |[c|]]; injection Hcl as <-; by apply Hback.
    + injection Hb as <-. injection Hcl as <-. rewrite orb_true_r. by apply Hback.
  - destruct Hinv as [Hr Hd]. split; [|done]. apply (ready_world _ w _ [c]); [done| |exact Hr].
    intros c' ->%list_elem_of_singleton. apply list_elem_of_bind. exists (Holding c). cbn. split; [by left|].
    by eapply list_elem_of_lookup_2.
  - destruct Hinv as [Hr Hd]. split; [|done]. apply (ready_world _ w _ []); [done|set_solver|exact Hr].
  - destruct (sys_inv_at _ _ _ _ _ _ Hinv Hi) as (ps & hs & k & Hk & Hr & Hback). destruct (release_check p).
    + by apply Hback.
    + apply Hback; [done|]. destruct Hr as [[Hs Hc] Hr]. split; [split; [|done]|done]. by apply (shape_drop_held _ _ _ _ c).
  - destruct (sys_inv_at _ _ _ _ _ _ Hinv Hi) as (ps & hs & k & Hk & Hr & Hback).
    pose proof (pwp_run _ _ _ _ _ _ _ _ (pwp_release_locked c p w ps hs k _ t Hr) Ho) as Hpost.
    destruct o as [[]|e| |]; simpl in *; try done; injection Hb as <-; apply Hback; rewrite ?orb_false_r, ?orb_true_r; done.
  - destruct Hinv as [Hr Hd]. split; [|done].
    exact (proj1 (pwp_run _ _ _ _ _ _ _ _ (pwp_cleanup_pass _ _ _ _ _ _ _ (fun _ _ => False) Hr) Ho)).
  - destruct Hinv as [[[Hs Hc] Hr] Hd]. split; [|done]. split; [split|done]; [by apply shape_signal|]. destruct Hc. by constructor.
  - destruct Hinv as [Hr Hd]. split; [|done].
    exact (proj1 (pwp_run _ _ _ _ _ _ _ _ (pwp_shutdown_close _ _ _ _ _ _ _ Hf Hr) Ho)).
Qed.

Lemma bind_replicate_nil (f : client -> list conn) n : f Resting = [] -> replicate n Resting ≫= f = [].
Proof. intros Hf. induction n as [|n IH]; [done|]. cbn [replicate]. by rewrite bind_cons, Hf, IH. Qed.

Lemma system_new_inv config w n :
  0 <= connection_limit config -> (0 < n)%nat -> connection_limit config + Z.of_nat n - 1 < 18446744073709551615 ->
  sys_inv (system_new config w n).
Proof.
  intros Hl Hn Hb. unfold system_new. split; cbn; [|by apply Forall_replicate].
  rewrite !bind_replicate_nil by done. rewrite length_replicate. split; [|set_solver]. split.
  - constructor; simpl; try done; try set_solver; try apply NoDup_nil_2.
  - assert (E : forall k, foldr (fun cl k => creates cl + k) 0 (replicate k Resting) = 0)
      by (induction k as [|k IH]; [done|exact IH]). rewrite E. constructor; simpl; try done; lia.
Qed.

Lemma reachable_inv config w n s :
  0 <= connection_limit config -> (0 < n)%nat -> connection_limit config + Z.of_nat n - 1 < 18446744073709551615 ->
  reachable config w n s -> sys_inv s.
Proof. intros Hl Hn Hb. induction 1 as [|s s' _ IH Hs]; [by apply system_new_inv|by eapply step_inv]. Qed.
End Steps.

(** ** Schedules *)

Section Schedules.
Context {C : Connections}.

(** A step chosen by who goes next. *)
Inductive event : Type :=
  | EvEnter (i : nat) (timeout_ms : Z)
  | EvAcquire (i : nat)
  | EvUse (i : nat) (f : conn -> world -> world)
  | EvRelease (i : nat)
  | EvReleaseLocked (i : nat).

Definition run_event (s : system) (e : event) : option system :=
  match e with
  | EvEnter i tm =>
      match clients s !! i with
      | Some Resting => Some (mkSystem (pool s) (world_ s) (<[i := Acquiring (Entering tm)]> (clients s)) (threw s))
      | _ => None
      end
  | EvAcquire i =>
      match clients s !! i with
      | Some (Acquiring pc) =>
          let '(o, (p, w)) := acquire_step pc (pool s, world_ s) in
          cl ← acquired o; b ← ended o; Some (mkSystem p w (<[i := cl]> (clients s)) (threw s || b))
      | _ => None
      end
  | EvUse i f =>
      match clients s !! i with
      | Some (Holding c) => Some (mkSystem (pool s) (f c (world_ s)) (clients s) (threw s))
      | _ => None
      end
  | EvRelease i =>
      match clients s !! i with
      | Some (Holding c) =>
          Some (mkSystem (pool s) (world_ s) (<[i := if release_check (pool s) then Releasing c else Resting]> (clients s)) (threw s))
      | _ => None
      end
  | EvReleaseLocked i =>
      match clients s !! i with
      | Some (Releasing c) =>
          let '(o, (p, w)) := release_locked c (pool s, world_ s) in
          b ← ended o; Some (mkSystem p w (<[i := Resting]> (clients s)) (threw s || b))
      | _ => None
      end
  end.

Definition event_ok (e : event) : Prop := match e with EvUse _ f => forall c w, only [c] w (f c w) | _ => True end.

Lemma run_event_step s e s' : event_ok e -> run_event s e = Some s' -> sys_step s s'.
Proof.
  destruct s as [p w l t]. destruct e as [i tm|i|i f|i|i]; simpl; intros He; destruct (l !! i) as [[|pc|c|c]|] eqn:Hi; try done.
  - intros [= <-]. by constructor.
  - destruct (acquire_step pc (p, w)) as [o [p' w']] eqn:Ea. destruct (acquired o) as [cl|] eqn:Ec; [|done]. simpl.
    destruct (ended o) as [b|] eqn:Eb; [|done]. intros [= <-]. by eapply step_acquire.
  - intros [= <-]. by eapply step_use.
  - intros [= <-]. by constructor.
  - destruct (release_locked c (p, w)) as [o [p' w']] eqn:Ea. simpl. destruct (ended o) as [b|] eqn:Eb; [|done].
    intros [= <-]. by eapply step_release_locked.
Qed.

Lemma run_reachable config w n evs : Forall event_ok evs -> forall s s', reachable config w n s ->
  foldl (fun s e => s ≫= fun s => run_event s e) (Some s) evs = Some s' -> reachable config w n s'.
Proof.
  induction 1 as [|e evs He _ IH]; intros s s' Hs; simpl; [by intros [= <-]|].
  destruct (run_event s e) as [s1|] eqn:E.
  - apply IH. eapply reachable_step; [exact Hs|by eapply run_event_step].
  - intros H. exfalso. revert H. clear. induction evs as [|e evs IH]; [done|exact IH].
Qed.
End Schedules.

(** ** The properties *)

Section Owners.
Context {C : Connections} {HC : ConnectionsSpec C}.

Definition owned (cl : client) : list conn := pending cl ++ held cl.

Lemma owned_perm l : (l ≫= pending) ++ (l ≫= held) ≡ₚ l ≫= owned.
Proof.
  induction l as [|cl l IH]; [done|]. rewrite !bind_cons. unfold owned at 1. rewrite <- IH, <- !app_assoc.
  apply Permutation_app_head. rewrite !app_assoc. apply Permutation_app_tail, Permutation_app_comm.
Qed.

Lemma NoDup_bind_once {A B} (f : A -> list B) l i j a b x :
  NoDup (l ≫= f) -> i <> j -> l !! i = Some a -> l !! j = Some b -> x ∈ f a -> x ∈ f b -> False.
Proof.
  revert i j. induction l as [|y l IH]; intros i j Hn Hne Hi Hj Ha Hb; [done|]. rewrite bind_cons in Hn.
  apply NoDup_app in Hn as (_ & Hd & Hn).
  assert (Hin : forall k c, l !! k = Some c -> x ∈ f c -> x ∈ l ≫= f).
  { intros k c Hk Hc. apply list_elem_of_bind. exists c. split; [done|]. by eapply list_elem_of_lookup_2. }
  destruct i as [|i], j as [|j]; simpl in *; [done|..].
  - injection Hi as ->. apply (Hd x Ha). by eapply Hin.
  - injection Hj as ->. apply (Hd x Hb). by eapply Hin.
  - apply (IH i j); auto.
Qed.

Lemma inv_exclusive s i j a b c : sys_inv s -> i <> j -> clients s !! i = Some a -> clients s !! j = Some b ->
  c ∈ owned a -> c ∈ owned b -> False.
Proof.
  intros [[[Hs _] _] _] Hne Hi Hj Ha Hb. pose proof (sh_owners _ _ _ _ Hs) as Hn. apply NoDup_app in Hn as (_ & _ & Hn).
  rewrite owned_perm in Hn. by eapply (NoDup_bind_once owned).
Qed.

Lemma inv_not_idle s i a c : sys_inv s -> clients s !! i = Some a -> c ∈ owned a -> c ∉ conns (idle_connections_ (pool s)).
Proof.
  intros [[[Hs _] _] _] Hi Ha Hin. pose proof (sh_owners _ _ _ _ Hs) as Hn. rewrite owned_perm in Hn.
  apply NoDup_app in Hn as (_ & Hd & _). apply (Hd c Hin). apply list_elem_of_bind. exists a. split; [done|].
  by eapply list_elem_of_lookup_2.
Qed.
End Owners.

(** C2. The pool, whatever its clients, its cleanup thread and [Shutdown] do in
    whatever order, whatever fails, and whoever throws: the statistics count
    what is there ([total_connections] never counts less, and exactly that while
    no exception has left a call); no connection is with two clients, or with a
    client and in the queue, or in the queue twice; what a client holds is
    listed as active until [Shutdown]; every queued connection is Idle and
    connected; and with [n] clients there are never more connections than the
    limit and [n - 1] besides (making one is begun under the limit, but the
    place is not reserved). *)
Theorem Pool_sound `{C : Connections} `{!ConnectionsSpec C} (config : PoolConfiguration) (w : world) (n : nat) (s : system)
    (Hl : 0 <= connection_limit config) (Hn : (0 < n)%nat)
    (Hb : connection_limit config + Z.of_nat n - 1 < 18446744073709551615) (Hr : reachable config w n s) :
  idle_connections (stats_ (pool s)) = Z.of_nat (length (idle_connections_ (pool s))) /\
  active_connections (stats_ (pool s)) = Z.of_nat (size (active_connections_ (pool s))) /\
  idle_connections (stats_ (pool s)) + active_connections (stats_ (pool s)) <= total_connections (stats_ (pool s)) /\
  (threw s = false -> total_connections (stats_ (pool s))
                      = idle_connections (stats_ (pool s)) + active_connections (stats_ (pool s))) /\
  total_connections (stats_ (pool s)) <= connection_limit (config_ (pool s)) + Z.of_nat (length (clients s)) - 1 /\
  NoDup (conns (idle_connections_ (pool s))) /\
  (forall meta, meta ∈ idle_connections_ (pool s) -> view (connection meta) (world_ s) = (Idle, true)) /\
  (forall i cl c, clients s !! i = Some cl -> c ∈ owned cl ->
     c ∉ conns (idle_connections_ (pool s)) /\ (forall j cl', clients s !! j = Some cl' -> c ∈ owned cl' -> i = j)) /\
  (forall i c, shutdown_flag_ (pool s) = false -> clients s !! i = Some (Holding c) ->
     exists id, active_connections_ (pool s) !! id = Some c).
Proof.
  pose proof (reachable_inv config w n s Hl Hn Hb Hr) as Hinv. pose proof Hinv as [[[Hs Hc] _] _]. destruct Hc as [ct_i ct_a ct_t ct_exact0 ct_m ct_l].
  split_and!; try done; try lia.
  - intros Ht. specialize (ct_exact0 Ht). lia.
  - pose proof (sh_owners _ _ _ _ Hs) as Hno. by apply NoDup_app in Hno as [? _].
  - apply (sh_view _ _ _ _ Hs).
  - intros i cl c Hi Hc. split; [by eapply inv_not_idle|]. intros j cl' Hj Hc'. destruct (decide (i = j)); [done|].
    by destruct (inv_exclusive s i j cl cl' c Hinv).
  - intros i c Hf Hi. apply (sh_held _ _ _ _ Hs); [done|]. apply list_elem_of_bind. exists (Holding c). split; [left|].
    by eapply list_elem_of_lookup_2.
Qed.

(** C28. What [Acquire] hands out, in any state the system can reach: a
    connection that is logged in, idle and connected at that moment, that no
    other client has, that is not in the queue any more, and that is listed as
    active, so that [Release] will find it. *)
Theorem Acquire_hands_out `{C : Connections} `{!ConnectionsSpec C} (config : PoolConfiguration) (w : world) (n : nat)
    (s : system) (i : nat) (pc : acquire_pc) (c : conn) (p' : ConnectionPool) (w' : world)
    (Hl : 0 <= connection_limit config) (Hn : (0 < n)%nat)
    (Hb : connection_limit config + Z.of_nat n - 1 < 18446744073709551615) (Hr : reachable config w n s)
    (Hi : clients s !! i = Some (Acquiring pc))
    (Ha : acquire_step pc (pool s, world_ s) = (Returns (Done (Some c)), (p', w'))) :
  view c w' = (Idle, true) /\ c ∉ conns (idle_connections_ p') /\
  (forall j cl, j <> i -> clients s !! j = Some cl -> c ∉ owned cl) /\
  (shutdown_flag_ p' = false -> exists id, active_connections_ p' !! id = Some c).
Proof.
  pose proof (reachable_inv config w n s Hl Hn Hb Hr) as Hinv. destruct s as [p w0 l t]. simpl in *.
  assert (Hs' : sys_inv (mkSystem p' w' (<[i := Holding c]> l) (t || false))).
  { eapply step_inv; [exact Hinv|]. by eapply step_acquire. }
  destruct (sys_inv_at _ _ _ _ _ _ Hinv Hi) as (ps & hs & k & Hk & Hready & _).
  assert (Hnd : forall c, pc <> Done c).
  { destruct Hinv as [_ Hd]. cbn in Hd. rewrite Forall_lookup in Hd. intros c' ->. by apply (Hd i _ Hi c'). }
  assert (Hw : pwp (acquire_step pc) p w0 (turn_post ps hs k (Z.of_nat (length l)) t)
                 (fun p' w' => ready_inv p' w' ps hs k (Z.of_nat (length l)) true)).
  { apply pwp_acquire_step; [done|intros c'; apply Hnd|]. destruct pc as [| | | | |[c'|]]; try done. by destruct (Hnd (Some c')). }
  destruct (pwp_run _ _ _ _ _ _ _ _ Hw Ha) as [_ Hv]. pose proof (lookup_lt_Some _ _ _ Hi) as Hlt.
  assert (Hi' : <[i := Holding c]> l !! i = Some (Holding c)) by by apply list_lookup_insert_eq.
  split; [exact Hv|]. split; [|split].
  - apply (inv_not_idle _ i (Holding c) c Hs'); [exact Hi'|by left].
  - intros j cl Hji Hj Hc. apply (inv_exclusive _ i j (Holding c) cl c Hs'); [done|exact Hi'| |by left|done].
    simpl. by rewrite list_lookup_insert_ne.
  - intros Hf. destruct Hs' as [[[Hs _] _] _]. apply (sh_held _ _ _ _ Hs); [exact Hf|]. apply list_elem_of_bind.
    exists (Holding c). split; [by left|]. by eapply list_elem_of_lookup_2.
Qed.

(** What becomes of a connection that is given back. Idle, connected, and
    with caching on, it goes to the end of the queue under the id it was active
    under, untouched; otherwise it is closed and one connection fewer is
    counted; after [Shutdown] it is closed and nothing is counted. In each case
    but the last it is no longer active. *)
Theorem Release_outcomes `{C : Connections} `{!ConnectionsSpec C} (config : PoolConfiguration) (w : world) (n : nat)
    (s : system) (i : nat) (c : conn) (p' : ConnectionPool) (w' : world)
    (Hl : 0 <= connection_limit config) (Hn : (0 < n)%nat)
    (Hb : connection_limit config + Z.of_nat n - 1 < 18446744073709551615) (Hr : reachable config w n s)
    (Hi : clients s !! i = Some (Releasing c))
    (Ha : release_locked c (pool s, world_ s) = (Returns tt, (p', w'))) :
  let p := pool s in
  if shutdown_flag_ p then p' = p /\ w' = (Close c (world_ s)).2
  else exists id, active_connections_ p !! id = Some c /\ active_connections_ p' = delete id (active_connections_ p) /\
    if bool_decide (GetState c (world_ s) = Idle) && connection_cache (config_ p) && IsAlive c (world_ s)
    then idle_connections_ p' = idle_connections_ p ++ [mkConnectionMetadata c id (steady_now (world_ s))] /\
         w' = world_ s /\ total_connections (stats_ p') = total_connections (stats_ p)
    else idle_connections_ p' = idle_connections_ p /\ w' = (Close c (world_ s)).2 /\
         total_connections (stats_ p') = total_connections (stats_ p) - 1.
Proof.
  pose proof (reachable_inv config w n s Hl Hn Hb Hr) as Hinv. destruct s as [p w0 l t]. simpl in *.
  destruct (sys_inv_at _ _ _ _ _ _ Hinv Hi) as (ps & hs & k & Hk & [[Hs Hc] _] & _). cbn [pending held app] in *.
  revert Ha. unfold release_locked, mbind, PM_bind, get. cbn [fst snd].
  destruct (shutdown_flag_ p) eqn:Hf.
  { unfold call. destruct (Close c w0) as [o w1]. simpl. by intros [= _ <- <-]. }
  destruct (sh_held _ _ _ _ Hs c Hf) as [id0 Hid0]; [by left|]. pose proof (find_active_spec c (active_connections_ p)) as Hfind.
  destruct (find_active c (active_connections_ p)) as [id|]; [|by destruct (Hfind id0)].
  assert (Htot : 1 <= total_connections (stats_ p) < 18446744073709551616).
  { destruct Hc. assert (size (active_connections_ p) <> O) by (apply map_size_ne_0_lookup; eauto). lia. }
  assert (Hclose : forall q, close_counted c (q, w0) = (Returns tt, (p', w')) -> total_connections (stats_ q) = total_connections (stats_ p) ->
    active_connections_ p' = active_connections_ q /\ idle_connections_ p' = idle_connections_ q /\ w' = (Close c w0).2 /\
    total_connections (stats_ p') = total_connections (stats_ p) - 1).
  { intros q. unfold close_counted, mbind, PM_bind, call, update. destruct (Close c w0) as [[[]|e| |] w1]; try done.
    intros [= <- <-] Eq. split_and!; [done..|]. cbn -[u64 Z.add]. rewrite Eq, u64_small by lia. lia. }
  unfold update, ask. cbn [fst snd].
  assert (Eq : total_connections (stats_ (add_counts 0 0 (-1) 0 0 (set_active (delete id (active_connections_ p)) p))) = total_connections (stats_ p))
    by (cbn -[u64 Z.add]; rewrite u64_small by lia; lia).
  assert (Hgone : close_counted c (add_counts 0 0 (-1) 0 0 (set_active (delete id (active_connections_ p)) p), w0) = (Returns tt, (p', w')) ->
    exists id, active_connections_ p !! id = Some c /\ active_connections_ p' = delete id (active_connections_ p) /\
      idle_connections_ p' = idle_connections_ p /\ w' = (Close c w0).2 /\ total_connections (stats_ p') = total_connections (stats_ p) - 1).
  { intros Hcl. destruct (Hclose _ Hcl Eq) as (E1 & E2 & E3 & E4). exists id. by split_and!. }
  case_bool_decide as Hst; destruct (connection_cache (config_ p)); cbn [negb andb orb snd]; try exact Hgone.
  destruct (IsAlive c w0); cbn [negb]; [|exact Hgone].
  intros [= <- <-]. exists id. split_and!; try done. cbn -[u64 Z.add]. rewrite !u64_small; try lia. rewrite u64_small; lia.
Qed.

(** C34. A pass of the cleanup thread throws nothing (an exception there would
    end the process), keeps the queue's order, closes only connections that have
    been idle longer than the timeout, and of those only while [min_connections]
    less the active ones are kept; it leaves the accounts in order. *)
Theorem Cleanup_keeps `{C : Connections} `{!ConnectionsSpec C} (config : PoolConfiguration) (w : world) (n : nat)
    (s : system) (o : outcome unit) (p' : ConnectionPool) (w' : world)
    (Hl : 0 <= connection_limit config) (Hn : (0 < n)%nat)
    (Hb : connection_limit config + Z.of_nat n - 1 < 18446744073709551615) (Hr : reachable config w n s)
    (Ha : cleanup_pass (pool s, world_ s) = (o, (p', w'))) :
  let p := pool s in
  match o with
  | Returns _ =>
      idle_connections_ p' `sublist_of` idle_connections_ p /\
      Z.min (to_keep p) (Z.of_nat (length (idle_connections_ p))) <= Z.of_nat (length (idle_connections_ p')) /\
      (forall meta, meta ∈ idle_connections_ p -> meta ∉ idle_connections_ p' ->
         0 < idle_timeout (config_ p) < elapsed_s (steady_now (world_ s)) (last_released meta) /\
         to_keep p <= Z.of_nat (length (idle_connections_ p'))) /\
      sys_inv (mkSystem p' w' (clients s) (threw s))
  | Throws _ => False
  | _ => True
  end.
Proof.
  pose proof (reachable_inv config w n s Hl Hn Hb Hr) as Hinv. destruct s as [p w0 l t]. simpl in *. pose proof Hinv as [Hready Hd].
  pose proof (pwp_run _ _ _ _ _ _ _ _ (pwp_cleanup_pass _ _ _ _ _ _ _ (fun _ _ => False) Hready) Ha) as Hpost. cbn in Hpost.
  destruct o as [[]|e| |]; try done. destruct Hpost as [Hr' Hq].
  assert (Hsys : sys_inv (mkSystem p' w' l t)) by by split.
  destruct (shutdown_flag_ p) eqn:Hf; simpl in Hq.
  { rewrite Hq. split_and!; [done|lia|by intros meta H1 H2|done]. }
  destruct (Z.leb_spec (idle_timeout (config_ p)) 0) as [Hz|Hz].
  { rewrite Hq. split_and!; [done|lia|by intros meta H1 H2|done]. }
  rewrite Hq. split_and!; [apply kept_of_sublist| | |done].
  - pose proof (kept_of_enough (idle_timeout (config_ p)) (steady_now w0) (to_keep p) (idle_connections_ p) 0). lia.
  - intros meta H1 H2. destruct (kept_of_dropped _ _ _ _ _ _ H1 H2). split; [lia|]. lia.
Qed.

(** ** Concrete connections *)

(** Connections that are a table of states. [Close] on one that is Executing
    throws, as it does when the server sends an oversized frame for an
    acknowledgement; a ping succeeds on an idle one. *)
Module Toy.
Record toy_world : Type := mkToy { table : list (ConnectionState * bool); clock : Z }.

Definition row (c : nat) (w : toy_world) : ConnectionState * bool := default (Disconnected, false) (table w !! c).
Definition put (c : nat) (r : ConnectionState * bool) (w : toy_world) : toy_world := mkToy (<[c := r]> (table w)) (clock w).

#[export] Instance toy : Connections := {
  conn := nat;
  world := toy_world;
  GetState c w := (row c w).1;
  IsAlive c w := (row c w).2;
  IsLongIdle _ _ := true;
  Close c w := if decide ((row c w).1 = Executing) then (Throws InvalidPacketLength, w)
               else (Returns tt, put c (Disconnected, false) w);
  ValidateWithPing c w := (Returns (bool_decide (row c w = (Idle, true))), w);
  UpdateLastUsed _ w := w;
  known w c := bool_decide (c < length (table w))%nat;
  factory w := (Returns (Some (length (table w))), mkToy (table w ++ [(Idle, true)]) (clock w));
  steady_now := clock
}.

Lemma view_row c w : view c w = row c w.
Proof. unfold view. simpl. by destruct (row c w). Qed.

Lemma only_refl cs w : only cs w w.
Proof. by constructor. Qed.

#[export] Instance toy_spec : ConnectionsSpec toy.
Proof.
  split; intros c w || intros w; simpl.
  - destruct (decide _); [apply only_refl|]. constructor; simpl; intros c'.
    + rewrite !view_row. unfold row, put. simpl. intros _ Hc. rewrite list_lookup_insert_ne; [done|set_solver].
    + by rewrite length_insert.
  - intros H. by rewrite decide_False.
  - apply only_refl.
  - done.
  - apply only_refl.
  - constructor; simpl; intros c'; rewrite ?bool_decide_eq_true; simpl; intros Hc.
    + intros _. rewrite !view_row. unfold row. simpl. by rewrite lookup_app_l.
    + rewrite length_app. lia.
  - intros [= <-]. rewrite bool_decide_eq_false, bool_decide_eq_true, view_row, length_app. unfold row. simpl.
    rewrite lookup_app_r, Nat.sub_diag by lia. split_and!; [lia|lia|done].
Qed.

Definition nth_conn (i : nat) : @conn toy := i.

Definition empty_world : toy_world := mkToy [] 0.
(** Two connections at most, kept when idle for less than 60 s. *)
Definition toy_config : PoolConfiguration := mkPoolConfiguration 2 true 30 60 0 30.
End Toy.

(** ** Runs *)

Section Runs.
#[local] Existing Instance Toy.toy.
#[local] Existing Instance Toy.toy_spec.

Definition narrow_config : PoolConfiguration := mkPoolConfiguration 1 true 30 60 0 30.

(** The run of a schedule from a new pool with two clients. *)
Definition run (config : PoolConfiguration) (evs : list event) : option system :=
  foldl (fun s e => s ≫= fun s => run_event s e) (Some (system_new config Toy.empty_world 2)) evs.

(** A run gives its last state. *)
Definition last_state (config : PoolConfiguration) (evs : list event) : system :=
  default (system_new config Toy.empty_world 2) (run config evs).

Lemma put_only c r w : only [c] w (Toy.put c r w).
Proof.
  constructor; simpl; intros c'.
  - rewrite !Toy.view_row. unfold Toy.row, Toy.put. simpl. intros _ Hc. rewrite list_lookup_insert_ne; [done|set_solver].
  - by rewrite length_insert.
Qed.

Lemma last_reachable config evs : Forall event_ok evs -> is_Some (run config evs) ->
  reachable config Toy.empty_world 2 (last_state config evs).
Proof.
  intros He [s Hs]. unfold last_state. rewrite Hs. simpl.
  eapply run_reachable; [exact He|apply reachable_new|exact Hs].
Qed.

(** Client [i] from the call of [Acquire] to the connection made for it. *)
Definition to_locked (i : nat) : list event := [EvEnter i 5000; EvAcquire i; EvAcquire i].
Definition from_locked (i : nat) : list event := [EvAcquire i; EvAcquire i].

(** Both clients have a connection; the first gives its own back. *)
Definition busy : list event :=
  to_locked 0 ++ from_locked 0 ++ to_locked 1 ++ from_locked 1 ++ [EvRelease 0; EvReleaseLocked 0].
(** The first asks again. *)
Definition asking : list event := busy ++ [EvEnter 0 0; EvAcquire 0].
(** The first is giving its connection back. *)
Definition giving : list event := to_locked 0 ++ from_locked 0 ++ [EvRelease 0].
(** The connection is handed back in the middle of an answer. *)
Definition careless : list event :=
  to_locked 0 ++ from_locked 0 ++ [EvUse 0 (fun c => Toy.put c (Executing, true)); EvRelease 0; EvReleaseLocked 0].

Ltac schedule := repeat (apply Forall_cons; split; [done || (intros ? ?; apply put_only)|]); apply Forall_nil; done.

Lemma Pool_sound_witness :
  let s := last_state Toy.toy_config busy in
  total_connections (stats_ (pool s)) = 2 /\
  (threw s = false -> total_connections (stats_ (pool s)) = idle_connections (stats_ (pool s)) + active_connections (stats_ (pool s))) /\
  exists id, active_connections_ (pool s) !! id = Some (Toy.nth_conn 1).
Proof.
  assert (Hr : reachable Toy.toy_config Toy.empty_world 2 (last_state Toy.toy_config busy))
    by (apply last_reachable; [schedule|vm_compute; eauto]).
  destruct (Pool_sound (C := Toy.toy) Toy.toy_config Toy.empty_world 2 _ ltac:(vm_compute; discriminate) ltac:(lia) ltac:(vm_compute; reflexivity) Hr)
    as (_ & _ & _ & Ht & _ & _ & _ & _ & Hheld).
  split; [vm_compute; reflexivity|]. split; [exact Ht|]. apply (Hheld 1%nat); vm_compute; reflexivity.
Defined.

Lemma Acquire_hands_out_witness :
  let s := last_state Toy.toy_config asking in
  let r := acquire_step (Locking 0 0) (pool s, world_ s) in
  view (Toy.nth_conn 0) r.2.2 = (Idle, true) /\ (Toy.nth_conn 0) ∉ conns (idle_connections_ r.2.1).
Proof.
  assert (Hr : reachable Toy.toy_config Toy.empty_world 2 (last_state Toy.toy_config asking))
    by (apply last_reachable; [schedule|vm_compute; eauto]).
  destruct (Acquire_hands_out (C := Toy.toy) Toy.toy_config Toy.empty_world 2 _ 0 (Locking 0 0) (Toy.nth_conn 0)
    (acquire_step (Locking 0 0) (pool (last_state Toy.toy_config asking), world_ (last_state Toy.toy_config asking))).2.1
    (acquire_step (Locking 0 0) (pool (last_state Toy.toy_config asking), world_ (last_state Toy.toy_config asking))).2.2
    ltac:(vm_compute; discriminate) ltac:(lia) ltac:(vm_compute; reflexivity) Hr ltac:(vm_compute; reflexivity)
    ltac:(vm_compute; reflexivity)) as (Hv & Hi & _).
  split; [exact Hv|exact Hi].
Defined.

Lemma Release_outcomes_witness :
  let s := last_state Toy.toy_config giving in
  let r := release_locked (Toy.nth_conn 0) (pool s, world_ s) in
  active_connections_ r.2.1 = ∅ /\ idle_connections_ r.2.1 = [mkConnectionMetadata (Toy.nth_conn 0) 1 0].
Proof.
  assert (Hr : reachable Toy.toy_config Toy.empty_world 2 (last_state Toy.toy_config giving))
    by (apply last_reachable; [schedule|vm_compute; eauto]).
  pose proof (Release_outcomes (C := Toy.toy) Toy.toy_config Toy.empty_world 2 _ 0 (Toy.nth_conn 0)
    (release_locked (Toy.nth_conn 0) (pool (last_state Toy.toy_config giving), world_ (last_state Toy.toy_config giving))).2.1
    (release_locked (Toy.nth_conn 0) (pool (last_state Toy.toy_config giving), world_ (last_state Toy.toy_config giving))).2.2
    ltac:(vm_compute; discriminate) ltac:(lia) ltac:(vm_compute; reflexivity) Hr ltac:(vm_compute; reflexivity)
    ltac:(vm_compute; reflexivity)) as H.
  split; [vm_compute; reflexivity|]. destruct H as (id & Hid & _ & Hq & _). etrans; [exact Hq|].
  vm_compute in Hid. revert Hid. vm_compute. destruct id as [|[]|]; try discriminate. reflexivity.
Defined.

Lemma Cleanup_keeps_witness :
  let s := last_state Toy.toy_config busy in
  idle_connections_ (cleanup_pass (pool s, world_ s)).2.1 `sublist_of` idle_connections_ (pool s).
Proof.
  assert (Hr : reachable Toy.toy_config Toy.empty_world 2 (last_state Toy.toy_config busy))
    by (apply last_reachable; [schedule|vm_compute; eauto]).
  pose proof (Cleanup_keeps (C := Toy.toy) Toy.toy_config Toy.empty_world 2 _ (Returns tt)
    (cleanup_pass (pool (last_state Toy.toy_config busy), world_ (last_state Toy.toy_config busy))).2.1
    (cleanup_pass (pool (last_state Toy.toy_config busy), world_ (last_state Toy.toy_config busy))).2.2
    ltac:(vm_compute; discriminate) ltac:(lia) ltac:(vm_compute; reflexivity) Hr ltac:(vm_compute; reflexivity)) as H.
  exact (proj1 H).
Defined.

(** Two clients that find one place make a connection each. *)
Lemma Pool_limit_exceeded :
  let s := last_state narrow_config (to_locked 0 ++ to_locked 1 ++ from_locked 0 ++ from_locked 1) in
  reachable narrow_config Toy.empty_world 2 s /\ connection_limit (config_ (pool s)) = 1 /\
  total_connections (stats_ (pool s)) = 2 /\ clients s = [Holding (Toy.nth_conn 0); Holding (Toy.nth_conn 1)].
Proof.
  split_and!; [|vm_compute; reflexivity..]. apply last_reachable; [schedule|vm_compute; eauto].
Qed.

(** An exception from [Close] in [Release] leaves the place taken: nobody has a
    connection, none is queued, and no more can be made. *)
Lemma Pool_slot_lost :
  let s := last_state narrow_config careless in
  reachable narrow_config Toy.empty_world 2 s /\ clients s = [Resting; Resting] /\ idle_connections_ (pool s) = [] /\
  active_connections_ (pool s) = ∅ /\ total_connections (stats_ (pool s)) = connection_limit (config_ (pool s)) /\
  (acquire_step (Locking 0 0) (pool s, world_ s)).1 = Returns (Done None).
Proof.
  split_and!; [|vm_compute; reflexivity..]. apply last_reachable; [schedule|vm_compute; eauto].
Qed.
End Runs.
