(* ===== verification/Values.v ===== *)
(** * Values, vectors and words

    What the value encoders take and give: machine words as bytes ([le],
    [from_le], [sx]), DuckDB's types and vectors, and the target column of a bulk
    load ([BCPColumnMetadata], src/src/include/copy/target_resolver.hpp and
    copy/target_resolver.cpp).

    DuckDB is not part of the repository. A [LogicalType] carries the answers of
    the DuckDB calls the code makes on it (its [id], [InternalType], decimal
    width and scale); [type_ok] is DuckDB's documented storage of each type. A
    vector is read through its unified format: [data], an optional selection
    vector, an optional validity mask ([None]: all valid). Which storage types may
    be read as which, and the text of an interval, are DuckDB's ([DuckDB]); any
    other read is its internal error. [hugeint_t] is a [Z]: multiplying and
    negating may overflow, which [Hugeint] leaves open; the other operations are
    those of integers. Floating-point values are their bit patterns, and [Floats]
    is the conversion between the two widths. *)

From S2P Require Import Prelude TdsTypes.

(** ** Words *)

(** The low [n] bytes of a word, least significant first: a byte loop
    [(v >> (8 * i)) & 0xFF], or a [memcpy] out of the word. *)
Fixpoint le (n : nat) (v : Z) : bytes :=
  match n with
  | O => []
  | S n => z2b (Z.land v 0xFF) :: le n (Z.shiftr v 8)
  end.

(** The unsigned word in some bytes: a [memcpy] into it. *)
Fixpoint from_le (l : bytes) : Z :=
  match l with [] => 0 | b :: l => b2z b + 256 * from_le l end.

(** Two's complement: the signed reading of the low [w] bits. *)
Definition sx (w v : Z) : Z := (v + 2 ^ (w - 1)) mod 2 ^ w - 2 ^ (w - 1).
Definition ux (w v : Z) : Z := v mod 2 ^ w.

(** ** Types *)

Inductive LogicalTypeId : Type :=
  | BOOLEAN | TINYINT | UTINYINT | SMALLINT | USMALLINT | INTEGER | UINTEGER | BIGINT | UBIGINT | HUGEINT | UHUGEINT
  | FLOAT | DOUBLE | DECIMAL | VARCHAR | BLOB | GEOMETRY | INTERVAL | UUID
  | DATE | TIME | TIMESTAMP | TIMESTAMP_MS | TIMESTAMP_NS | TIMESTAMP_SEC | TIMESTAMP_TZ
  | OTHER_TYPE.

#[export] Instance LogicalTypeId_eq_dec : EqDecision LogicalTypeId.
Proof. solve_decision. Defined.

Module PhysicalType.
Inductive t : Type :=
  | BOOL | INT8 | UINT8 | INT16 | UINT16 | INT32 | UINT32 | INT64 | UINT64 | INT128 | UINT128
  | FLOAT | DOUBLE | VARCHAR | INTERVAL | OTHER.
End PhysicalType.
Abbreviation PhysicalType := PhysicalType.t.

#[export] Instance PhysicalType_eq_dec : EqDecision PhysicalType.
Proof. solve_decision. Defined.

Record LogicalType : Type := mkLogicalType {
  id : LogicalTypeId;
  InternalType : PhysicalType;
  decimal_width : Z;
  decimal_scale : Z
}.

(** [GetTypeIdSize]: the bytes of one value of the storage type. *)
Definition GetTypeIdSize (p : PhysicalType) : Z :=
  match p with
  | PhysicalType.BOOL | PhysicalType.INT8 | PhysicalType.UINT8 => 1
  | PhysicalType.INT16 | PhysicalType.UINT16 => 2
  | PhysicalType.INT32 | PhysicalType.UINT32 | PhysicalType.FLOAT => 4
  | PhysicalType.INT64 | PhysicalType.UINT64 | PhysicalType.DOUBLE => 8
  | PhysicalType.INT128 | PhysicalType.UINT128 | PhysicalType.VARCHAR | PhysicalType.INTERVAL => 16
  | PhysicalType.OTHER => 0
  end.

(** How DuckDB stores the values of a type. *)
Definition storage (d : LogicalTypeId) (width : Z) : PhysicalType :=
  match d with
  | BOOLEAN => PhysicalType.BOOL
  | TINYINT => PhysicalType.INT8
  | UTINYINT => PhysicalType.UINT8
  | SMALLINT => PhysicalType.INT16
  | USMALLINT => PhysicalType.UINT16
  | INTEGER | DATE => PhysicalType.INT32
  | UINTEGER => PhysicalType.UINT32
  | BIGINT | TIME | TIMESTAMP | TIMESTAMP_MS | TIMESTAMP_NS | TIMESTAMP_SEC | TIMESTAMP_TZ => PhysicalType.INT64
  | UBIGINT => PhysicalType.UINT64
  | HUGEINT | UUID => PhysicalType.INT128
  | UHUGEINT => PhysicalType.UINT128
  | FLOAT => PhysicalType.FLOAT
  | DOUBLE => PhysicalType.DOUBLE
  | DECIMAL => if width <=? 4 then PhysicalType.INT16 else if width <=? 9 then PhysicalType.INT32
               else if width <=? 18 then PhysicalType.INT64 else PhysicalType.INT128
  | VARCHAR | BLOB | GEOMETRY => PhysicalType.VARCHAR
  | INTERVAL => PhysicalType.INTERVAL
  | OTHER_TYPE => PhysicalType.OTHER
  end.

Definition type_ok (t : LogicalType) : Prop :=
  InternalType t = storage (id t) (decimal_width t) /\
  (id t = DECIMAL -> 1 <= decimal_width t <= 38 /\ 0 <= decimal_scale t <= decimal_width t).

(** ** Values *)

(** A stored value: a word, or a string's bytes. *)
Inductive cell : Type := Word (z : Z) | Str (s : bytes).

Definition value_ok (p : PhysicalType) (c : cell) : Prop :=
  match c with
  | Word z =>
      match p with
      | PhysicalType.BOOL => z = 0 \/ z = 1
      | PhysicalType.INT8 => -128 <= z < 128
      | PhysicalType.UINT8 => 0 <= z < 256
      | PhysicalType.INT16 => -32768 <= z < 32768
      | PhysicalType.UINT16 => 0 <= z < 65536
      | PhysicalType.INT32 => -2147483648 <= z < 2147483648
      | PhysicalType.UINT32 | PhysicalType.FLOAT => 0 <= z < 4294967296
      | PhysicalType.INT64 => -9223372036854775808 <= z < 9223372036854775808
      | PhysicalType.UINT64 | PhysicalType.DOUBLE => 0 <= z < 18446744073709551616
      | PhysicalType.INT128 => - 2 ^ 127 <= z < 2 ^ 127
      | PhysicalType.UINT128 => 0 <= z < 2 ^ 128
      | PhysicalType.INTERVAL => True
      | PhysicalType.VARCHAR | PhysicalType.OTHER => False
      end
  | Str s => p = PhysicalType.VARCHAR /\ zlen s < 4294967296
  end.

(** The unified format of a vector. *)
Record UnifiedVectorFormat : Type := mkFormat {
  data : nat -> cell;
  sel : option (nat -> nat);
  validity : option (nat -> bool)
}.

Record Vector : Type := mkVector { GetType : LogicalType; ToUnifiedFormat : UnifiedVectorFormat }.

Definition IsSet (fmt : UnifiedVectorFormat) : bool := bool_decide (is_Some (sel fmt)).
Definition AllValid (fmt : UnifiedVectorFormat) : bool := bool_decide (validity fmt = None).
Definition get_index (fmt : UnifiedVectorFormat) (row : nat) : nat := match sel fmt with Some f => f row | None => row end.
Definition RowIsValid (fmt : UnifiedVectorFormat) (idx : nat) : bool :=
  match validity fmt with Some f => f idx | None => true end.

Definition FormatIsNull (fmt : UnifiedVectorFormat) (row : nat) : bool := negb (RowIsValid fmt (get_index fmt row)).

(** What the code takes from DuckDB about values. *)
Class DuckDB : Type := {
  (** May vectors stored as the second be read as the first? *)
  StorageTypeCompatible : PhysicalType -> PhysicalType -> bool;
  Interval_ToString : Z -> bytes;
  StorageTypeCompatible_refl p : StorageTypeCompatible p p = true;
  (** The text of an interval is short and ASCII. *)
  Interval_ToString_ascii z : Forall (fun b => b2z b < 128) (Interval_ToString z) /\ zlen (Interval_ToString z) < 256
}.

(** [FormatValue<T>], at a storage type for [T]. *)
Definition FormatValue `{DuckDB} (T : PhysicalType) (v : Vector) (row : nat) : res cell :=
  if StorageTypeCompatible T (InternalType (GetType v))
  then Ok (data (ToUnifiedFormat v) (get_index (ToUnifiedFormat v) row))
  else Exn (InternalError "Expected unified vector format").

Definition word (c : cell) : Z := match c with Word z => z | Str _ => 0 end.
Definition str (c : cell) : bytes := match c with Str s => s | Word _ => [] end.

Definition FormatWord `{DuckDB} (T : PhysicalType) (v : Vector) (row : nat) : res Z := c ← FormatValue T v row; Ok (word c).
Definition FormatStr `{DuckDB} (v : Vector) (row : nat) : res bytes := c ← FormatValue PhysicalType.VARCHAR v row; Ok (str c).

(** ** 128 bits *)

Definition lower (h : Z) : Z := h mod 18446744073709551616.
Definition upper (h : Z) : Z := h / 18446744073709551616.
Definition huge (h : Z) : Prop := - 2 ^ 127 <= h < 2 ^ 127.

Class Hugeint : Type := {
  h_mul : Z -> Z -> res Z;
  h_neg : Z -> res Z;
  h_mul_exact a b : huge (a * b) -> h_mul a b = Ok (a * b);
  h_neg_exact a : huge (- a) -> h_neg a = Ok (- a)
}.

(** [Hugeint::POWERS_OF_TEN]. *)
Definition POWERS_OF_TEN (k : Z) : Z := 10 ^ k.

(** ** Floating point *)

Class Floats : Type := {
  widen : Z -> Z;
  narrow : Z -> Z;
  is_nan : Z -> bool;
  widen_range x : 0 <= widen x < 18446744073709551616;
  narrow_range x : 0 <= narrow x < 4294967296;
  (** Every float is a double. *)
  narrow_widen x : 0 <= x < 4294967296 -> is_nan x = false -> narrow (widen x) = x
}.

(** ** The target column of a bulk load *)

Record BCPColumnMetadata : Type := mkBCPColumnMetadata {
  name : bytes;
  duckdb_type : LogicalType;
  tds_type_token : Z;
  max_length : Z;
  precision : Z;
  scale : Z;
  nullable : bool;
  collation : bytes;
  collation_name : bytes;
  null_only_source : bool
}.

Definition GetFlags (col : BCPColumnMetadata) : Z := if nullable col then Z.lor 0x0008 0x0001 else 0x0008.

Definition IsPLPType (col : BCPColumnMetadata) : bool := max_length col =? 0xFFFF.

Definition IsVariableLengthUSHORT (col : BCPColumnMetadata) : bool :=
  (tds_type_token col =? 0xE7) || (tds_type_token col =? 0xA7) || (tds_type_token col =? 0xA5).

Definition IsFixedLength (col : BCPColumnMetadata) : bool :=
  bool_decide (tds_type_token col ∈ [0x26; 0x68; 0x6D; 0x6A; 0x6C; 0x24; 0x28; 0x29; 0x2A; 0x2B]).

Definition GetLengthPrefixSize (col : BCPColumnMetadata) : Z :=
  if IsVariableLengthUSHORT col then 2 else if IsFixedLength col then 1 else 0.

(** ** Lemmas on words *)

Lemma from_le_range l : 0 <= from_le l < 256 ^ zlen l.
Proof.
  induction l as [|b l IH]; cbn [from_le]; [by split|]. pose proof (b2z_range b).
  rewrite zlen_cons, Z.pow_add_r by (pose proof (zlen_nonneg l); lia). lia.
Qed.

Lemma zlen_le n v : zlen (le n v) = Z.of_nat n.
Proof. revert v. induction n as [|n IH]; intros v; cbn [le]; rewrite ?zlen_cons, ?IH, ?zlen_nil; lia. Qed.

Lemma length_le n v : length (le n v) = n.
Proof. pose proof (zlen_le n v). unfold zlen in *. lia. Qed.

Lemma from_le_le n v : from_le (le n v) = v mod 256 ^ Z.of_nat n.
Proof.
  revert v. induction n as [|n IH]; intros v; cbn [le from_le]; [by rewrite Z.mod_1_r|].
  rewrite b2z_byte_0, IH, Z.shiftr_div_pow2 by lia. change (2 ^ 8) with 256.
  rewrite Nat2Z.inj_succ, Z.pow_succ_r by lia. rewrite Z.rem_mul_r by lia. lia.
Qed.

Lemma le_from_le l : le (length l) (from_le l) = l.
Proof.
  induction l as [|b l IH]; [done|]. cbn [length le from_le]. pose proof (b2z_range b). f_equal.
  - apply b2z_inj. rewrite b2z_byte_0. zlia.
  - rewrite Z.shiftr_div_pow2 by lia. change (2 ^ 8) with 256.
    replace ((b2z b + 256 * from_le l) / 256) with (from_le l) by zlia. exact IH.
Qed.

Lemma le_app n m v : le (n + m) v = le n v ++ le m (Z.shiftr v (8 * Z.of_nat n)).
Proof.
  revert v. induction n as [|n IH]; intros v.
  - cbn [Nat.add le app]. by rewrite Z.shiftr_0_r.
  - cbn [Nat.add le app]. rewrite IH. do 3 f_equal. rewrite Z.shiftr_shiftr by lia. f_equal. lia.
Qed.

Lemma from_le_app a b : from_le (a ++ b) = from_le a + 256 ^ zlen a * from_le b.
Proof.
  induction a as [|x a IH]; cbn [app from_le]; [change (zlen (@nil byte)) with 0; lia|].
  rewrite IH, zlen_cons, Z.pow_add_r by (pose proof (zlen_nonneg a); lia). lia.
Qed.

(** Only the low bytes matter. *)
Lemma le_mod n v w : v mod 256 ^ Z.of_nat n = w mod 256 ^ Z.of_nat n -> le n v = le n w.
Proof.
  intros H. rewrite <- !from_le_le in H. pose proof (le_from_le (le n v)) as A. pose proof (le_from_le (le n w)) as B.
  rewrite length_le in A, B. by rewrite <- A, <- B, H.
Qed.

Lemma sx_small w v : 0 < w -> - 2 ^ (w - 1) <= v < 2 ^ (w - 1) -> sx w v = v.
Proof.
  intros Hw Hv. unfold sx. assert (2 ^ w = 2 * 2 ^ (w - 1)) by (rewrite <- Z.pow_succ_r by lia; f_equal; lia).
  rewrite Z.mod_small; lia.
Qed.

Lemma sx_ux w v : 0 < w -> sx w (ux w v) = sx w v.
Proof. intros Hw. unfold sx, ux. by rewrite Zplus_mod_idemp_l. Qed.

Lemma lower_upper h : h = lower h + 18446744073709551616 * upper h.
Proof. unfold lower, upper. zlia. Qed.

Lemma upper_neg h : (upper h <? 0) = (h <? 0).
Proof. unfold upper. destruct (Z.ltb_spec h 0), (Z.ltb_spec (h / 18446744073709551616) 0); zlia. Qed.

(** ** Instances: arithmetic that refuses to overflow, vectors read as stored *)
Module Checked.
Definition in_range (z : Z) : res Z :=
  if (- 2 ^ 127 <=? z) && (z <? 2 ^ 127) then Ok z else Exn (InternalError "Overflow in HUGEINT").

Lemma in_range_ok z : huge z -> in_range z = Ok z.
Proof. intros [H1 H2]. unfold in_range. by rewrite (proj2 (Z.leb_le _ _) H1), (proj2 (Z.ltb_lt _ _) H2). Qed.

#[export] Instance hugeint : Hugeint := {|
  h_mul a b := in_range (a * b);
  h_neg a := in_range (- a);
  h_mul_exact a b := in_range_ok (a * b);
  h_neg_exact a := in_range_ok (- a)
|}.

(** A stand-in with the laws of the conversion, not IEEE's function. *)
Definition is_nan32 (x : Z) : bool := (Z.land (Z.shiftr x 23) 0xFF =? 0xFF) && negb (Z.land x 0x7FFFFF =? 0).

#[export, refine] Instance floats : Floats := {|
  widen x := x mod 4294967296;
  narrow x := x mod 4294967296;
  is_nan := is_nan32
|}.
Proof.
  - intros x. zlia.
  - intros x. zlia.
  - intros x Hx _. zlia.
Defined.

Lemma noon_ascii : Forall (fun b => b2z b < 128) (bs [0x30; 0x30]) /\ zlen (bs [0x30; 0x30]) < 256.
Proof. split; [repeat constructor; by vm_compute|by vm_compute]. Qed.

#[export] Instance duckdb : DuckDB := {|
  StorageTypeCompatible p q := bool_decide (p = q);
  Interval_ToString _ := bs [0x30; 0x30];
  StorageTypeCompatible_refl p := bool_decide_eq_true_2 (p = p) eq_refl;
  Interval_ToString_ascii _ := noon_ascii
|}.
End Checked.
