(* ===== verification/Encoding.v ===== *)
(** * Wire forms of values (src/src/tds/encoding/)

    The value encoders of [BCPRowEncoder] (bcp_row_encoder.cpp) and the decoders
    of decimal_encoding.cpp, datetime_encoding.cpp and guid_encoding.cpp. An
    encoder returns the bytes it appends; a decoder reads [data], a pointer whose
    bounds the caller has checked: reading past the end is [Oob], and so is
    signed overflow, which C++ leaves undefined ([int32], [int64]).

    Main results: a decimal, a GUID, a date and a time of day are read back as
    they were written; the two ways of reading a decimal and a GUID agree. *)

From S2P Require Import Prelude TdsTypes Utf16 Values.

(** A signed result, or undefined. *)
Definition int32 (z : Z) : res Z := if (-2147483648 <=? z) && (z <? 2147483648) then Ok z else Oob.
Definition int64 (z : Z) : res Z :=
  if (-9223372036854775808 <=? z) && (z <? 9223372036854775808) then Ok z else Oob.

(** [memcpy] of [n] bytes at [i] into an unsigned word. *)
Definition load (data : bytes) (i n : Z) : res Z := b ← slice data i n; Ok (from_le b).

(** [for (i = 0; i < len; i++) ticks |= int64_t(data[i]) << (i * 8);] *)
Fixpoint or_bytes (data : bytes) (off : Z) (n : nat) (i : Z) (ticks : Z) : res Z :=
  match n with
  | O => Ok ticks
  | S n => b ← get8 data (off + i); or_bytes data off n (i + 1) (Z.lor ticks (Z.shiftl b (8 * i)))
  end.

(** [out *= 10], [n] times. *)
Fixpoint Pow10 (n : nat) : Z := match n with O => 1 | S n => Pow10 n * 10 end.

Definition DAYS_FROM_0001_TO_EPOCH : Z := 719162.
Definition DAYS_FROM_1900_TO_EPOCH : Z := 25567.
Definition MICROS_PER_DAY : Z := 86400000000.
Definition SECONDS_PER_DAY : Z := 86400.

(** ** Decimals *)

Section Decimal.
Context {H : Hugeint}.

Definition GetDecimalByteSize (precision : Z) : Z :=
  if precision <=? 9 then 5 else if precision <=? 19 then 9 else if precision <=? 28 then 13 else 17.

(** The mantissa's bytes: the low word's, then the high word's. *)
Fixpoint mantissa (n : nat) (i : Z) (abs_value : Z) : bytes :=
  match n with
  | O => []
  | S n =>
      z2b (if i <? 8 then Z.land (Z.shiftr (lower abs_value) (i * 8)) 0xFF
           else Z.land (Z.shiftr (ux 64 (upper abs_value)) ((i - 8) * 8)) 0xFF) :: mantissa n (i + 1) abs_value
  end.

Definition decimal_payload (value precision : Z) : res bytes :=
  let byte_size := GetDecimalByteSize precision in
  let is_negative := upper value <? 0 in
  abs_value ← (if is_negative then h_neg value else Ok value);
  Ok (z2b (if is_negative then 0x00 else 0x01) :: mantissa (Z.to_nat (byte_size - 1)) 0 abs_value).

Definition EncodeDecimal (value precision scale : Z) : res bytes :=
  payload ← decimal_payload value precision;
  Ok (z2b (GetDecimalByteSize precision) :: payload).

(** [for (i = length - 1; i >= 1; i--)]. *)
Fixpoint portable_loop (data : bytes) (n : nat) (magnitude : Z) : res Z :=
  match n with
  | O => Ok magnitude
  | S m =>
      b ← get8 data (Z.of_nat n);
      x ← h_mul magnitude 256;
      portable_loop data m (x + b)
  end.

Definition ConvertDecimalPortable (data : bytes) (length : Z) : res Z :=
  sign ← get8 data 0;
  magnitude ← portable_loop data (Z.to_nat (length - 1)) 0;
  if sign =? 0 then h_neg magnitude else Ok magnitude.

Definition ConvertDecimal (data : bytes) (length : Z) : res Z :=
  if length =? 0 then Ok 0 else
  let mag_bytes := length - 1 in
  if mag_bytes <=? 16 then
    let low_bytes := Z.min mag_bytes 8 in
    lo ← (if 0 <? low_bytes then load data 1 low_bytes else Ok 0);
    up ← (if 8 <? mag_bytes then load data 9 (mag_bytes - 8) else Ok 0);
    sign ← get8 data 0;
    let magnitude := lo + 18446744073709551616 * sx 64 up in
    if sign =? 0 then h_neg magnitude else Ok magnitude
  else ConvertDecimalPortable data length.

(** Two 32-bit words, the high one first. *)
Definition ConvertMoney (data : bytes) : res Z :=
  high ← load data 0 4;
  low ← load data 4 4;
  Ok (sx 64 (Z.lor (Z.shiftl high 32) low)).

Definition ConvertSmallMoney (data : bytes) : res Z := v ← load data 0 4; Ok (sx 32 v).
End Decimal.

(** ** GUIDs *)

(** The sixteen bytes of a UUID, most significant first. *)
Fixpoint be_bytes (n : nat) (i : Z) (word : Z) : bytes :=
  match n with O => [] | S n => z2b (Z.land (Z.shiftr word (56 - i * 8)) 0xFF) :: be_bytes n (i + 1) word end.

(** The order of the bytes on the wire: [Data1], [Data2] and [Data3] reversed. *)
Definition mixed_endian (b : bytes) : bytes :=
  match b with
  | b0 :: b1 :: b2 :: b3 :: b4 :: b5 :: b6 :: b7 :: data4 => b3 :: b2 :: b1 :: b0 :: b5 :: b4 :: b7 :: b6 :: data4
  | _ => b
  end.

(** [EncodeHugeIntToWire] of uuid_codec.cpp, and the payload of [EncodeGUID]. *)
Definition EncodeHugeIntToWire (uuid : Z) : bytes :=
  let up := Z.lxor (ux 64 (upper uuid)) (Z.shiftl 1 63) in
  mixed_endian (be_bytes 8 0 up ++ be_bytes 8 0 (lower uuid)).

Definition EncodeGUID (uuid : Z) : bytes := z2b 16 :: EncodeHugeIntToWire uuid.

Definition ReorderGuidBytes (input : bytes) : res bytes := b ← slice input 0 16; Ok (mixed_endian b).

Definition ConvertGuid (data : bytes) : res Z :=
  data1 ← load data 0 4;
  data2 ← load data 4 2;
  data3 ← load data 6 2;
  let up := Z.lor (Z.lor (Z.shiftl data1 32) (Z.shiftl data2 16)) data3 in
  b8 ← get8 data 8; b9 ← get8 data 9; b10 ← get8 data 10; b11 ← get8 data 11;
  b12 ← get8 data 12; b13 ← get8 data 13; b14 ← get8 data 14; b15 ← get8 data 15;
  let lo := Z.lor (Z.lor (Z.lor (Z.lor (Z.lor (Z.lor (Z.lor (Z.shiftl b8 56) (Z.shiftl b9 48)) (Z.shiftl b10 40))
              (Z.shiftl b11 32)) (Z.shiftl b12 24)) (Z.shiftl b13 16)) (Z.shiftl b14 8)) b15 in
  Ok (lo + 18446744073709551616 * sx 64 (Z.lxor up (Z.shiftl 1 63))).

(** ** Integers, floats, binary *)

Definition EncodeInt8 (value : Z) : bytes := [z2b 1; z2b value].
Definition EncodeInt16 (value : Z) : bytes := z2b 2 :: le 2 value.
Definition EncodeInt32 (value : Z) : bytes := z2b 4 :: le 4 value.
Definition EncodeInt64 (value : Z) : bytes := z2b 8 :: le 8 value.
Definition EncodeUInt8 (value : Z) : bytes := [z2b 1; z2b value].
Definition EncodeBit (value : bool) : bytes := [z2b 1; z2b (if value then 0x01 else 0x00)].
Definition EncodeFloat (bits : Z) : bytes := z2b 4 :: le 4 bits.
Definition EncodeDouble (bits : Z) : bytes := z2b 8 :: le 8 bits.

(** The length is cast to sixteen bits, and that many bytes are copied. *)
Definition EncodeBinary (value : bytes) : bytes :=
  let len := zlen value mod 65536 in le 2 len ++ ztake len value.

Definition UNKNOWN_PLP_LEN : Z := 0xFFFFFFFFFFFFFFFE.

Definition EncodeBinaryPLP (value : bytes) : bytes :=
  let chunk_len := zlen value mod 4294967296 in
  le 8 UNKNOWN_PLP_LEN ++ (if 0 <? chunk_len then le 4 chunk_len ++ ztake chunk_len value else []) ++ le 4 0.

Definition EncodeNullFixed : bytes := bs [0x00].
Definition EncodeNullVariable : bytes := bs [0xFF; 0xFF].
Definition EncodeNullGUID : bytes := bs [0x00].
Definition EncodeNullDateTime : bytes := bs [0x00].
Definition EncodeNullPLP : bytes := replicate 8 (z2b 0xFF).

Definition StringToUTF16LE `{Simdutf} (str : bytes) : bytes := Utf16LEEncode str.

(** ** Dates and times *)

Definition GetTimeByteSize (scale : Z) : Z := if scale <=? 2 then 3 else if scale <=? 4 then 4 else 5.

Definition EncodeDate (days : Z) : res bytes :=
  days ← int32 (days + DAYS_FROM_0001_TO_EPOCH);
  Ok (z2b 3 :: le 3 days).

Definition scale_time (value scale : Z) : res Z :=
  if scale <=? 6 then
    let divisor := Pow10 (Z.to_nat (6 - scale)) in
    rounded ← int64 (value + divisor ÷ 2);
    let scaled_value := rounded ÷ divisor in
    let per_day := SECONDS_PER_DAY * Pow10 (Z.to_nat scale) in
    Ok (if per_day <=? scaled_value then per_day - 1 else scaled_value)
  else int64 (value * 10).

Definition EncodeTime (value scale : Z) : res bytes :=
  scaled_value ← scale_time value scale;
  let byte_size := GetTimeByteSize scale in
  Ok (z2b byte_size :: le (Z.to_nat byte_size) scaled_value).

Definition EncodeDatetime2Raw (time_value date_value scale : Z) : bytes :=
  let time_size := GetTimeByteSize scale in
  z2b (time_size + 3) :: le (Z.to_nat time_size) time_value ++ le 3 date_value.

Definition EncodeDatetimeOffsetRaw (time_value date_value offset_minutes scale : Z) : bytes :=
  let time_size := GetTimeByteSize scale in
  z2b (time_size + 3 + 2) :: le (Z.to_nat time_size) time_value ++ le 3 date_value ++ le 2 offset_minutes.

(** Microseconds since 1970 as a time of day, cut off, and a day since 0001. *)
Definition TimestampToDatetime2Components (total_micros scale : Z) : res (Z * Z) :=
  '(days, time_micros) ←
    (if 0 <=? total_micros then
       Ok (sx 32 (total_micros ÷ MICROS_PER_DAY), Z.rem total_micros MICROS_PER_DAY)
     else
       x ← int64 (total_micros - MICROS_PER_DAY + 1);
       let days := sx 32 (x ÷ MICROS_PER_DAY) in
       Ok (days, total_micros - days * MICROS_PER_DAY));
  d ← int32 (days + DAYS_FROM_0001_TO_EPOCH);
  let time_value := if scale <=? 6 then time_micros ÷ Pow10 (Z.to_nat (6 - scale)) else time_micros * 10 in
  Ok (ux 64 time_value, ux 32 d).

Definition EncodeDatetime2 (ts scale : Z) : res bytes :=
  '(time_value, date_value) ← TimestampToDatetime2Components ts scale;
  Ok (EncodeDatetime2Raw time_value date_value scale).

Definition EncodeDatetimeOffset (ts offset_minutes scale : Z) : res bytes :=
  '(time_value, date_value) ← TimestampToDatetime2Components ts scale;
  Ok (EncodeDatetimeOffsetRaw time_value date_value offset_minutes scale).

Definition GetTimeByteLength (scale : Z) : Z := if scale <=? 2 then 3 else if scale <=? 4 then 4 else 5.

Definition load_date (data : bytes) (i : Z) : res Z :=
  b0 ← get8 data i; b1 ← get8 data (i + 1); b2 ← get8 data (i + 2);
  Ok (Z.lor (Z.lor b0 (Z.shiftl b1 8)) (Z.shiftl b2 16)).

Definition ConvertDate (data : bytes) : res Z := days ← load_date data 0; Ok (days - DAYS_FROM_0001_TO_EPOCH).

Definition TimeTicksToMicroseconds (ticks scale : Z) : res Z :=
  if scale <=? 6 then int64 (ticks * Pow10 (Z.to_nat (6 - scale))) else Ok (ticks ÷ 10).

Definition ConvertTime (data : bytes) (scale : Z) : res Z :=
  ticks ← or_bytes data 0 (Z.to_nat (GetTimeByteLength scale)) 0 0;
  TimeTicksToMicroseconds ticks scale.

(** Assembled in unsigned arithmetic. *)
Definition ConvertDatetime (data : bytes) : res Z :=
  d ← load data 0 4;
  t ← load data 4 4;
  let unix_days := sx 32 d - DAYS_FROM_1900_TO_EPOCH in
  let microseconds := (sx 32 t * 10000) ÷ 3 in
  Ok (sx 64 (ux 64 (ux 64 unix_days * MICROS_PER_DAY + ux 64 microseconds))).

Definition ConvertDatetime2 (data : bytes) (scale : Z) : res Z :=
  let time_len := GetTimeByteLength scale in
  time_ticks ← or_bytes data 0 (Z.to_nat time_len) 0 0;
  days ← load_date data time_len;
  let unix_days := days - DAYS_FROM_0001_TO_EPOCH in
  microseconds ← TimeTicksToMicroseconds time_ticks scale;
  int64 (unix_days * MICROS_PER_DAY + microseconds).

Definition ConvertSmallDatetime (data : bytes) : res Z :=
  days ← load data 0 2;
  minutes ← load data 2 2;
  let unix_days := days - DAYS_FROM_1900_TO_EPOCH in
  Ok (unix_days * MICROS_PER_DAY + minutes * 60 * 1000000).

(** The time on the wire is UTC; the offset is not read. *)
Definition ConvertDatetimeOffset (data : bytes) (scale : Z) : res Z :=
  let time_len := GetTimeByteLength scale in
  time_ticks ← or_bytes data 0 (Z.to_nat time_len) 0 0;
  days ← load_date data time_len;
  let unix_days := days - DAYS_FROM_0001_TO_EPOCH in
  microseconds ← TimeTicksToMicroseconds time_ticks scale;
  int64 (unix_days * MICROS_PER_DAY + microseconds).

(** ** Lemmas *)

Lemma Pow10_pow n : Pow10 n = 10 ^ Z.of_nat n.
Proof. induction n as [|n IH]; [done|]. cbn [Pow10]. rewrite IH, Nat2Z.inj_succ, Z.pow_succ_r by lia. lia. Qed.

Lemma int32_ok z : -2147483648 <= z < 2147483648 -> int32 z = Ok z.
Proof. intros Hz. unfold int32. by rewrite (proj2 (Z.leb_le _ _)), (proj2 (Z.ltb_lt _ _)) by lia. Qed.

Lemma int64_ok z : -9223372036854775808 <= z < 9223372036854775808 -> int64 z = Ok z.
Proof. intros Hz. unfold int64. by rewrite (proj2 (Z.leb_le _ _)), (proj2 (Z.ltb_lt _ _)) by lia. Qed.

Lemma load_le p n v r i : i = zlen p -> load (p ++ le n v ++ r) i (Z.of_nat n) = Ok (v mod 256 ^ Z.of_nat n).
Proof.
  intros ->. unfold load. rewrite <- (Z.add_0_r (zlen p)) at 1. rewrite slice_app_r by lia.
  rewrite (slice_prefix (le n v) r) by by rewrite zlen_le. cbn [mbind res_bind]. by rewrite from_le_le.
Qed.

Lemma or_bytes_from_le l : forall data off n i t r,
  cursor data (off + i) (l ++ r) -> n = length l -> 0 <= i -> 0 <= t < 256 ^ i ->
  or_bytes data off n i t = Ok (t + 256 ^ i * from_le l).
Proof.
  induction l as [|b l IH]; intros data off n i t r Hc -> Hi Ht; cbn [length or_bytes from_le].
  - f_equal. lia.
  - cbn [app] in Hc. destruct (cursor_cons _ _ _ _ Hc) as [Hg Hc']. rewrite Hg. cbn [mbind res_bind].
    assert (E : 2 ^ (8 * i) = 256 ^ i) by (rewrite Z.pow_mul_r by lia; done).
    rewrite lor_shiftl_add by lia. rewrite E.
    pose proof (b2z_range b). assert (0 < 256 ^ i) by (apply Z.pow_pos_nonneg; lia).
    rewrite (IH data off (length l) (i + 1) _ r); [| |done|lia|].
    + f_equal. rewrite Z.pow_add_r by lia. lia.
    + by replace (off + (i + 1)) with (off + i + 1) by lia.
    + rewrite Z.pow_add_r by lia. nia.
Qed.

(** The [|=] loop reads what a [memcpy] does. *)
Lemma or_bytes_le p n v r off : off = zlen p -> or_bytes (p ++ le n v ++ r) off n 0 0 = Ok (v mod 256 ^ Z.of_nat n).
Proof.
  intros ->. rewrite (or_bytes_from_le (le n v) _ _ _ _ _ r); [|..|by rewrite length_le|lia|by split].
  - by rewrite from_le_le, Z.add_0_l, Z.mul_1_l.
  - rewrite Z.add_0_r. apply (cursor_eq _ (0 + zlen p)); [lia|]. apply cursor_app, cursor_0.
Qed.

Lemma byte_lower v k : 0 <= k <= 56 -> Z.land (Z.shiftr (lower v) k) 0xFF = Z.land (Z.shiftr v k) 0xFF.
Proof.
  intros Hk. unfold lower. change 18446744073709551616 with (2 ^ 64). change 0xFF with (Z.ones 8).
  apply Z.bits_inj'. intros n Hn. rewrite !Z.land_spec, !Z.shiftr_spec by lia.
  destruct (Z.lt_ge_cases n 8); [|by rewrite Z.ones_spec_high, !andb_false_r by lia].
  by rewrite Z.mod_pow2_bits_low by lia.
Qed.

Lemma byte_upper v k : 64 <= k <= 120 -> Z.land (Z.shiftr (ux 64 (upper v)) (k - 64)) 0xFF = Z.land (Z.shiftr v k) 0xFF.
Proof.
  intros Hk. unfold upper, ux. change 18446744073709551616 with (2 ^ 64). change 0xFF with (Z.ones 8).
  apply Z.bits_inj'. intros n Hn. rewrite !Z.land_spec, !Z.shiftr_spec by lia.
  destruct (Z.lt_ge_cases n 8); [|by rewrite Z.ones_spec_high, !andb_false_r by lia].
  rewrite Z.mod_pow2_bits_low, Z.div_pow2_bits by lia. do 2 f_equal. lia.
Qed.

Lemma mantissa_le n : forall i v, 0 <= i -> i + Z.of_nat n <= 16 -> mantissa n i v = le n (Z.shiftr v (8 * i)).
Proof.
  induction n as [|n IH]; intros i v Hi Hn; [done|]. cbn [mantissa le]. rewrite IH by lia.
  f_equal.
  - f_equal. destruct (Z.ltb_spec i 8).
    + rewrite byte_lower by lia. do 2 f_equal. lia.
    + replace ((i - 8) * 8) with (8 * i - 64) by lia. apply byte_upper. lia.
  - f_equal. rewrite Z.shiftr_shiftr by lia. f_equal. lia.
Qed.

Lemma GetDecimalByteSize_cases p : GetDecimalByteSize p = 5 /\ p <= 9 \/ GetDecimalByteSize p = 9 /\ 9 < p <= 19 \/
  GetDecimalByteSize p = 13 /\ 19 < p <= 28 \/ GetDecimalByteSize p = 17 /\ 28 < p.
Proof. unfold GetDecimalByteSize. repeat case_match; lia. Qed.

(** A number of [p] digits fits the magnitude. *)
Lemma decimal_bound p v : 1 <= p <= 38 -> Z.abs v < 10 ^ p ->
  Z.abs v < 256 ^ (GetDecimalByteSize p - 1) /\ Z.abs v < 2 ^ 127.
Proof.
  intros Hp Hv.
  assert (10 ^ p <= 10 ^ 38) by (apply Z.pow_le_mono_r; lia).
  assert (Z.abs v < 2 ^ 127) by (assert (10 ^ 38 < 2 ^ 127) by (vm_compute; done); lia). split; [|done].
  destruct (GetDecimalByteSize_cases p) as [[-> Hc]|[[-> Hc]|[[-> Hc]|[-> Hc]]]].
  - assert (10 ^ p <= 10 ^ 9) by (apply Z.pow_le_mono_r; lia). assert (10 ^ 9 < 256 ^ (5 - 1)) by (vm_compute; done). lia.
  - assert (10 ^ p <= 10 ^ 19) by (apply Z.pow_le_mono_r; lia). assert (10 ^ 19 < 256 ^ (9 - 1)) by (vm_compute; done). lia.
  - assert (10 ^ p <= 10 ^ 28) by (apply Z.pow_le_mono_r; lia). assert (10 ^ 28 < 256 ^ (13 - 1)) by (vm_compute; done). lia.
  - assert (2 ^ 127 < 256 ^ (17 - 1)) by (vm_compute; done). lia.
Qed.

(** What is on the wire: the sign, and the magnitude. *)
Definition sign_magnitude (n : nat) (v : Z) : bytes := z2b (if v <? 0 then 0x00 else 0x01) :: le n (Z.abs v).

Section DecimalLemmas.
Context {H : Hugeint}.

Lemma decimal_payload_eq v p : - 2 ^ 127 < v < 2 ^ 127 ->
  decimal_payload v p = Ok (sign_magnitude (Z.to_nat (GetDecimalByteSize p - 1)) v).
Proof.
  intros Hv. unfold decimal_payload, sign_magnitude. rewrite upper_neg.
  assert (Hn : 0 + Z.of_nat (Z.to_nat (GetDecimalByteSize p - 1)) <= 16)
    by (destruct (GetDecimalByteSize_cases p) as [[-> _]|[[-> _]|[[-> _]|[-> _]]]]; lia).
  destruct (Z.ltb_spec v 0) as [Hz|Hz].
  - rewrite h_neg_exact by (unfold huge; lia). cbn [mbind res_bind]. rewrite mantissa_le, Z.mul_0_r, Z.shiftr_0_r by lia.
    by replace (- v) with (Z.abs v) by lia.
  - cbn [mbind res_bind]. rewrite mantissa_le, Z.mul_0_r, Z.shiftr_0_r by lia. by replace v with (Z.abs v) at 1 by lia.
Qed.
End DecimalLemmas.

Definition signed_magnitude (s : byte) (m : Z) : Z := if b2z s =? 0 then - m else m.

Lemma load_prefix l i p r n : i = zlen p -> n = zlen l -> load (p ++ l ++ r) i n = Ok (from_le l).
Proof.
  intros -> ->. unfold load. rewrite <- (Z.add_0_r (zlen p)) at 1. rewrite slice_app_r by lia.
  by rewrite (slice_prefix l r) by done.
Qed.

Section DecimalDecoding.
Context {H : Hugeint}.

Lemma ConvertDecimal_sign_magnitude s mag r : zlen mag <= 16 -> from_le mag < 2 ^ 127 ->
  ConvertDecimal (s :: mag ++ r) (1 + zlen mag) = Ok (signed_magnitude s (from_le mag)).
Proof.
  intros Hl Hm. pose proof (zlen_nonneg mag). pose proof (from_le_range mag) as Hr. unfold ConvertDecimal.
  rewrite (proj2 (Z.eqb_neq _ _)) by lia. cbv zeta. replace (1 + zlen mag - 1) with (zlen mag) by lia.
  rewrite (proj2 (Z.leb_le _ _)) by lia.
  assert (Hs : (if b2z s =? 0 then h_neg (from_le mag) else Ok (from_le mag)) = Ok (signed_magnitude s (from_le mag))).
  { unfold signed_magnitude. destruct (b2z s =? 0); [|done]. apply h_neg_exact. unfold huge. lia. }
  destruct (Z.le_gt_cases (zlen mag) 8) as [Hk|Hk].
  - rewrite Z.min_l by lia. rewrite (proj2 (Z.ltb_ge 8 (zlen mag))) by lia.
    assert (Hlo : (if 0 <? zlen mag then load (s :: mag ++ r) 1 (zlen mag) else Ok 0) = Ok (from_le mag)).
    { destruct (Z.ltb_spec 0 (zlen mag)) as [Hz|Hz]; [by apply (load_prefix mag 1 [s])|]. by rewrite (zlen_0_nil mag) by lia. }
    rewrite Hlo. cbn [mbind res_bind]. rewrite get8_0. cbn [mbind res_bind].
    replace (from_le mag + 18446744073709551616 * sx 64 0) with (from_le mag) by (change (sx 64 0) with 0; lia). exact Hs.
  - rewrite Z.min_r by lia. change (0 <? 8) with true. rewrite (proj2 (Z.ltb_lt 8 (zlen mag))) by lia. cbv iota.
    set (a := ztake 8 mag). set (b := zdrop 8 mag). assert (E : mag = a ++ b) by (unfold a, b; by rewrite ztake_zdrop).
    assert (Ha : zlen a = 8) by (apply zlen_ztake; lia). assert (Hb : zlen b = zlen mag - 8) by (apply zlen_zdrop; lia).
    assert (Hlo : load (s :: mag ++ r) 1 8 = Ok (from_le a)).
    { rewrite E, <- app_assoc. by apply (load_prefix a 1 [s]). }
    assert (Hup : load (s :: mag ++ r) 9 (zlen mag - 8) = Ok (from_le b)).
    { rewrite E at 1. rewrite <- app_assoc. apply (load_prefix b 9 (s :: a)); [by rewrite zlen_cons, Ha|done]. }
    rewrite Hlo, Hup. cbn [mbind res_bind]. rewrite get8_0. cbn [mbind res_bind].
    assert (Hf : from_le mag = from_le a + 18446744073709551616 * from_le b).
    { rewrite E, from_le_app, Ha. done. }
    pose proof (from_le_range a) as Hra. pose proof (from_le_range b) as Hrb.
    rewrite sx_small; [|lia|]; [by rewrite <- Hf|]. change (2 ^ (64 - 1)) with 9223372036854775808.
    change (2 ^ 127) with 170141183460469231731687303715884105728 in Hm. lia.
Qed.

Lemma portable_loop_from_le s l : forall r acc, 0 <= acc -> acc * 256 ^ zlen l + from_le l < 2 ^ 127 ->
  portable_loop (s :: l ++ r) (length l) acc = Ok (acc * 256 ^ zlen l + from_le l).
Proof.
  induction l as [|b l IH] using rev_ind; intros r acc Ha Hb.
  - cbn [portable_loop length from_le]. f_equal. change (256 ^ zlen []) with 1. lia.
  - rewrite length_app, Nat.add_comm. cbn [length Nat.add portable_loop].
    rewrite from_le_app, zlen_app in *. change (zlen [b]) with 1 in *. rewrite Z.pow_add_r in * by (pose proof (zlen_nonneg l); lia).
    change (256 ^ 1) with 256 in *. change (from_le [b]) with (b2z b + 256 * 0) in *.
    assert (Hp0 : 0 < 256 ^ zlen l) by (apply Z.pow_pos_nonneg; [lia|apply zlen_nonneg]).
    pose proof (b2z_range b). pose proof (from_le_range l).
    assert (Hg : get8 (s :: (l ++ [b]) ++ r) (Z.of_nat (S (length l))) = Ok (b2z b)).
    { rewrite <- app_assoc. replace (Z.of_nat (S (length l))) with (zlen (s :: l) + 0) by (rewrite zlen_cons; unfold zlen; lia).
      change (s :: l ++ [b] ++ r) with ((s :: l) ++ [b] ++ r). rewrite get8_app_r by lia. apply get8_0. }
    rewrite Hg. cbn [mbind res_bind]. rewrite h_mul_exact by (unfold huge; nia). cbn [mbind res_bind].
    rewrite <- app_assoc, IH by nia. f_equal. nia.
Qed.

Lemma ConvertDecimalPortable_sign_magnitude s mag r : from_le mag < 2 ^ 127 ->
  ConvertDecimalPortable (s :: mag ++ r) (1 + zlen mag) = Ok (signed_magnitude s (from_le mag)).
Proof.
  intros Hm. unfold ConvertDecimalPortable. rewrite get8_0. cbn [mbind res_bind].
  replace (Z.to_nat (1 + zlen mag - 1)) with (length mag) by (unfold zlen; lia).
  rewrite portable_loop_from_le by lia. cbn [mbind res_bind]. rewrite Z.mul_0_l, Z.add_0_l. unfold signed_magnitude.
  pose proof (from_le_range mag). destruct (b2z s =? 0); [|done]. apply h_neg_exact. unfold huge. lia.
Qed.

Lemma signed_sign_magnitude n v : Z.abs v < 256 ^ Z.of_nat n ->
  exists s mag, sign_magnitude n v = s :: mag /\ zlen mag = Z.of_nat n /\ from_le mag = Z.abs v /\
    signed_magnitude s (from_le mag) = v.
Proof.
  intros Hv. exists (z2b (if v <? 0 then 0x00 else 0x01)), (le n (Z.abs v)). rewrite zlen_le, from_le_le, Z.mod_small by lia.
  split_and!; [done..|]. unfold signed_magnitude. destruct (Z.ltb_spec v 0).
  - change (b2z (z2b 0) =? 0) with true. cbv iota. lia.
  - change (b2z (z2b 1) =? 0) with false. cbv iota. lia.
Qed.
End DecimalDecoding.

Lemma decimal_payload_back `{Hugeint} p v r : 1 <= p <= 38 -> Z.abs v < 10 ^ p ->
  exists payload, decimal_payload v p = Ok payload /\ zlen payload = GetDecimalByteSize p /\
    ConvertDecimal (payload ++ r) (zlen payload) = Ok v.
Proof.
  intros Hp Hv. destruct (decimal_bound p v Hp Hv) as [Hb Hh].
  assert (Hn : Z.of_nat (Z.to_nat (GetDecimalByteSize p - 1)) = GetDecimalByteSize p - 1 /\ GetDecimalByteSize p <= 17)
    by (destruct (GetDecimalByteSize_cases p) as [[-> _]|[[-> _]|[[-> _]|[-> _]]]]; lia).
  rewrite <- (proj1 Hn) in Hb. destruct (signed_sign_magnitude _ v Hb) as (sg & mag & E & Hl & Hf & Hs).
  exists (sg :: mag). rewrite decimal_payload_eq, E by lia. split; [done|]. rewrite zlen_cons, Hl. split; [lia|].
  rewrite <- Hl. cbn [app]. rewrite ConvertDecimal_sign_magnitude by lia. by rewrite Hs.
Qed.

(** ** Properties *)

(** A decimal of the column's precision is written as its length byte and
    that many bytes (sign and magnitude), and read back as it was, whatever
    follows it. *)
Theorem Decimal_roundtrip `{Hugeint} (p s v : Z) (r : bytes) (Hp : 1 <= p <= 38) (Hv : Z.abs v < 10 ^ p) :
  exists payload, EncodeDecimal v p s = Ok (z2b (zlen payload) :: payload) /\ zlen payload = GetDecimalByteSize p /\
    ConvertDecimal (payload ++ r) (zlen payload) = Ok v.
Proof.
  destruct (decimal_payload_back p v r Hp Hv) as (payload & E & Hl & Hc). exists payload. unfold EncodeDecimal.
  rewrite E, <- Hl. by cbn [mbind res_bind].
Qed.

(** Reading a decimal by two loads gives what the byte loop gives, for any
    bytes whose magnitude fits 127 bits, and neither reads past the value. *)
Theorem ConvertDecimal_portable `{Hugeint} (data r : bytes) (Hl : 1 <= zlen data <= 17) (Hm : from_le (drop 1 data) < 2 ^ 127) :
  ConvertDecimal (data ++ r) (zlen data) = ConvertDecimalPortable (data ++ r) (zlen data) /\
  ConvertDecimal (data ++ r) (zlen data) = Ok (signed_magnitude (hd Byte.x00 data) (from_le (drop 1 data))).
Proof.
  destruct data as [|s mag]; [change (zlen (@nil byte)) with 0 in Hl; lia|]. cbn [drop hd app] in *. rewrite zlen_cons in *.
  rewrite ConvertDecimal_sign_magnitude; [|lia|exact Hm]. by rewrite ConvertDecimalPortable_sign_magnitude.
Qed.

(** *** GUIDs *)

Lemma be_bytes_le x : be_bytes 8 0 x = rev (le 8 x).
Proof. cbn [be_bytes le rev app]. rewrite !Z.shiftr_shiftr by lia. cbn [Z.add Z.mul Z.sub]. by rewrite Z.shiftr_0_r. Qed.

Lemma lor_horner a b k n : 0 <= k -> 0 <= n -> 0 <= b < 2 ^ n ->
  Z.lor (Z.shiftl a (k + n)) (Z.shiftl b k) = Z.shiftl (2 ^ n * a + b) k.
Proof.
  intros Hk Hn Hb. rewrite Z.add_comm, <- Z.shiftl_shiftl, <- Z.shiftl_lor by lia. f_equal.
  rewrite Z.lor_comm, lor_shiftl_add by lia. lia.
Qed.

Lemma lxor_top x : 0 <= x < 2 ^ 64 -> Z.lxor x (Z.shiftl 1 63) = if x <? 2 ^ 63 then x + 2 ^ 63 else x - 2 ^ 63.
Proof.
  intros Hx. change (Z.shiftl 1 63) with (2 ^ 63).
  assert (Hlow : forall y, 0 <= y < 2 ^ 63 -> Z.lxor y (2 ^ 63) = y + 2 ^ 63).
  { intros y Hy. symmetry. apply Z.add_nocarry_lxor. change (2 ^ 63) with (Z.shiftl 1 63). by apply land_shiftl_0. }
  destruct (Z.ltb_spec x (2 ^ 63)); [apply Hlow; lia|]. replace x with ((x - 2 ^ 63) + 2 ^ 63) at 1 by lia.
  rewrite <- Hlow by lia. by rewrite Z.lxor_assoc, Z.lxor_nilpotent, Z.lxor_0_r.
Qed.

Lemma sx_lxor_top x : 0 <= x < 2 ^ 64 -> sx 64 (Z.lxor x (Z.shiftl 1 63)) = x - 2 ^ 63.
Proof.
  intros Hx. rewrite lxor_top by done. unfold sx. change (64 - 1) with 63. destruct (Z.ltb_spec x (2 ^ 63)).
  - replace (x + 2 ^ 63 + 2 ^ 63) with (x + 1 * 2 ^ 64) by lia. rewrite Z.mod_add by lia. rewrite Z.mod_small; lia.
  - replace (x - 2 ^ 63 + 2 ^ 63) with x by lia. rewrite Z.mod_small; lia.
Qed.

Lemma ux_lxor_top u : - 2 ^ 63 <= u < 2 ^ 63 -> Z.lxor (ux 64 u) (Z.shiftl 1 63) = u + 2 ^ 63.
Proof.
  intros Hu. unfold ux. rewrite lxor_top by (apply Z.mod_pos_bound; lia). destruct (Z.lt_ge_cases u 0).
  - replace (u mod 2 ^ 64) with (u + 2 ^ 64) by (rewrite <- (Z.mod_add u 1) by lia; rewrite Z.mod_small; lia).
    rewrite (proj2 (Z.ltb_ge _ _)) by lia. lia.
  - rewrite Z.mod_small by lia. by rewrite (proj2 (Z.ltb_lt _ _)) by lia.
Qed.

Lemma huge_split lo up : 0 <= lo < 2 ^ 64 -> - 2 ^ 63 <= up < 2 ^ 63 ->
  lower (lo + 18446744073709551616 * up) = lo /\ upper (lo + 18446744073709551616 * up) = up /\
  huge (lo + 18446744073709551616 * up).
Proof.
  intros Hl Hu. unfold lower, upper, huge. change (2 ^ 64) with 18446744073709551616 in *.
  change (2 ^ 63) with 9223372036854775808 in *. change (2 ^ 127) with 170141183460469231731687303715884105728. split_and!; zlia.
Qed.

Lemma EncodeHugeIntToWire_le v : huge v ->
  EncodeHugeIntToWire v = mixed_endian (rev (le 8 (upper v + 2 ^ 63)) ++ rev (le 8 (lower v))).
Proof.
  intros Hv. unfold EncodeHugeIntToWire. rewrite ux_lxor_top, !be_bytes_le; [done|].
  unfold huge, upper in *. change (2 ^ 63) with 9223372036854775808. change (2 ^ 127) with 170141183460469231731687303715884105728 in Hv.
  zlia.
Qed.

(** Sixteen bytes, one by one. *)
Lemma sixteen (w : bytes) : zlen w = 16 -> exists w0 w1 w2 w3 w4 w5 w6 w7 w8 w9 w10 w11 w12 w13 w14 w15,
  w = [w0; w1; w2; w3; w4; w5; w6; w7; w8; w9; w10; w11; w12; w13; w14; w15].
Proof. unfold zlen. intros Hw. do 16 (destruct w as [|? w]; [simpl in Hw; lia|]). destruct w; [|simpl in Hw; lia]. by repeat eexists. Qed.

Lemma get8_lookup data i b : 0 <= i -> data !! Z.to_nat i = Some b -> get8 data i = Ok (b2z b).
Proof.
  intros Hi E. unfold get8. pose proof (lookup_lt_Some _ _ _ E).
  by rewrite (proj2 (Z.leb_le 0 i)), (proj2 (Z.ltb_lt i (zlen data))), E by (unfold zlen; lia).
Qed.

Lemma ConvertGuid_bytes w r : zlen w = 16 ->
  exists up lo, 0 <= up < 2 ^ 64 /\ 0 <= lo < 2 ^ 64 /\
    ConvertGuid (w ++ r) = Ok (lo + 18446744073709551616 * (up - 2 ^ 63)) /\
    w = mixed_endian (rev (le 8 up) ++ rev (le 8 lo)).
Proof.
  intros Hw. destruct (sixteen w Hw) as (w0 & w1 & w2 & w3 & w4 & w5 & w6 & w7 & w8 & w9 & w10 & w11 & w12 & w13 & w14 & w15 & ->).
  set (lu := [w6; w7; w4; w5; w0; w1; w2; w3]). set (ll := [w15; w14; w13; w12; w11; w10; w9; w8]).
  exists (from_le lu), (from_le ll). split_and!; [apply (from_le_range lu)..|apply (from_le_range ll)|apply (from_le_range ll)| |].
  - unfold ConvertGuid. cbn [app]. set (d := w0 :: _).
    assert (load d 0 4 = Ok (from_le [w0; w1; w2; w3])) as -> by by apply (load_prefix [w0; w1; w2; w3] 0 [] (w4 :: w5 :: w6 :: w7 :: w8 :: w9 :: w10 :: w11 :: w12 :: w13 :: w14 :: w15 :: r) 4).
    assert (load d 4 2 = Ok (from_le [w4; w5])) as -> by by apply (load_prefix [w4; w5] 4 [w0; w1; w2; w3] (w6 :: w7 :: w8 :: w9 :: w10 :: w11 :: w12 :: w13 :: w14 :: w15 :: r) 2).
    assert (load d 6 2 = Ok (from_le [w6; w7])) as -> by by apply (load_prefix [w6; w7] 6 [w0; w1; w2; w3; w4; w5] (w8 :: w9 :: w10 :: w11 :: w12 :: w13 :: w14 :: w15 :: r) 2).
    cbn [mbind res_bind]. 
    rewrite (get8_lookup d 8 w8), (get8_lookup d 9 w9), (get8_lookup d 10 w10), (get8_lookup d 11 w11),
      (get8_lookup d 12 w12), (get8_lookup d 13 w13), (get8_lookup d 14 w14), (get8_lookup d 15 w15) by done.
    cbn [mbind res_bind].
    pose proof (b2z_range w8). pose proof (b2z_range w9). pose proof (b2z_range w10). pose proof (b2z_range w11).
    pose proof (b2z_range w12). pose proof (b2z_range w13). pose proof (b2z_range w14). pose proof (b2z_range w15).
    pose proof (from_le_range [w0; w1; w2; w3]). pose proof (from_le_range [w4; w5]). pose proof (from_le_range [w6; w7]) as H67.
    rewrite <- (Z.shiftl_0_r (b2z w15)). rewrite <- (Z.shiftl_0_r (from_le [w6; w7])).
    rewrite (lor_horner _ (b2z w9) 48 8), (lor_horner _ (b2z w10) 40 8), (lor_horner _ (b2z w11) 32 8), (lor_horner _ (b2z w12) 24 8),
      (lor_horner _ (b2z w13) 16 8), (lor_horner _ (b2z w14) 8 8), (lor_horner _ (b2z w15) 0 8) by (try lia; done).
    rewrite (lor_horner _ (from_le [w4; w5]) 16 16), (lor_horner _ (from_le [w6; w7]) 0 16) by (try lia; done).
    rewrite !Z.shiftl_0_r. rewrite sx_lxor_top.
    + f_equal. unfold lu, ll. cbn [from_le]. lia.
    + pose proof (from_le_range lu) as Hlu. revert Hlu. change (256 ^ zlen lu) with (2 ^ 64). unfold lu. cbn [from_le]. lia.
  - pose proof (le_from_le lu : le 8 (from_le lu) = lu) as Eu. pose proof (le_from_le ll : le 8 (from_le ll) = ll) as El.
    by rewrite Eu, El.
Qed.

Lemma rev_le_inj n x y : 0 <= x < 256 ^ Z.of_nat n -> 0 <= y < 256 ^ Z.of_nat n -> rev (le n x) = rev (le n y) -> x = y.
Proof.
  intros Hx Hy E. apply (f_equal (@rev byte)) in E. rewrite !rev_involutive in E. apply (f_equal from_le) in E.
  by rewrite !from_le_le, !Z.mod_small in E by done.
Qed.

Lemma mixed_endian_inj a b : zlen a = 16 -> zlen b = 16 -> mixed_endian a = mixed_endian b -> a = b.
Proof.
  intros Ha Hb. destruct (sixteen a Ha) as (? & ? & ? & ? & ? & ? & ? & ? & ? & ? & ? & ? & ? & ? & ? & ? & ->).
  destruct (sixteen b Hb) as (? & ? & ? & ? & ? & ? & ? & ? & ? & ? & ? & ? & ? & ? & ? & ? & ->). cbn [mixed_endian].
  by intros [= -> -> -> -> -> -> -> -> -> -> -> -> -> -> -> ->].
Qed.

Lemma zlen_guid up lo : zlen (rev (le 8 up) ++ rev (le 8 lo)) = 16.
Proof. unfold zlen. by rewrite length_app, !length_rev, !length_le. Qed.

(** GUIDs on the wire and DuckDB's UUIDs are in bijection: any sixteen bytes
    decode to a 128-bit value that encodes to the same bytes, and any value
    decodes from its own encoding; the two ways of undoing the mixed byte order
    agree (the reordered bytes, read big-endian, are the value with its top bit
    flipped). *)
Theorem Guid_bijection (w r : bytes) (v : Z) (Hw : zlen w = 16) (Hv : huge v) :
  (exists x, ConvertGuid (w ++ r) = Ok x /\ huge x /\ EncodeHugeIntToWire x = w) /\
  ConvertGuid (EncodeHugeIntToWire v ++ r) = Ok v /\
  (exists u, ReorderGuidBytes (EncodeHugeIntToWire v ++ r) = Ok u /\ from_le (rev u) = v + 2 ^ 127).
Proof.
  assert (Hdec : forall w, zlen w = 16 -> exists x, ConvertGuid (w ++ r) = Ok x /\ huge x /\ EncodeHugeIntToWire x = w).
  { intros w' Hw'. destruct (ConvertGuid_bytes w' r Hw') as (up & lo & Hu & Hl & E & Ew).
    destruct (huge_split lo (up - 2 ^ 63) Hl) as (E1 & E2 & Hh); [lia|].
    exists (lo + 18446744073709551616 * (up - 2 ^ 63)). split; [done|]. split; [done|].
    rewrite EncodeHugeIntToWire_le, E1, E2 by done. rewrite Z.sub_add. by symmetry. }
  split; [by apply Hdec|].
  assert (Hup : - 2 ^ 63 <= upper v < 2 ^ 63).
  { unfold huge, upper in *. change (2 ^ 63) with 9223372036854775808.
    change (2 ^ 127) with 170141183460469231731687303715884105728 in Hv. zlia. }
  assert (Hlo : 0 <= lower v < 2 ^ 64) by (unfold lower; apply Z.mod_pos_bound; lia).
  pose proof (zlen_guid (upper v + 2 ^ 63) (lower v)) as Hz.
  assert (Hm : zlen (EncodeHugeIntToWire v) = 16).
  { rewrite EncodeHugeIntToWire_le by done. destruct (sixteen _ Hz) as (? & ? & ? & ? & ? & ? & ? & ? & ? & ? & ? & ? & ? & ? & ? & ? & ->). done. }
  split.
  - destruct (Hdec _ Hm) as (x & E & Hx & Ex). rewrite E. f_equal. rewrite !EncodeHugeIntToWire_le in Ex by done.
    apply mixed_endian_inj in Ex; [|apply zlen_guid..]. apply app_inj_1 in Ex as [E1 E2]; [|by rewrite !length_rev, !length_le].
    assert (Hux : - 2 ^ 63 <= upper x < 2 ^ 63).
    { unfold huge, upper in *. change (2 ^ 63) with 9223372036854775808.
      change (2 ^ 127) with 170141183460469231731687303715884105728 in Hx. zlia. }
    apply rev_le_inj in E1; [|lia..]. apply rev_le_inj in E2; [|unfold lower; apply Z.mod_pos_bound; lia..].
    rewrite (lower_upper x), (lower_upper v). lia.
  - unfold ReorderGuidBytes. rewrite (slice_prefix (EncodeHugeIntToWire v) r) by by rewrite Hm. cbn [mbind res_bind].
    eexists. split; [done|]. rewrite EncodeHugeIntToWire_le by done.
    assert (Einv : forall b, zlen b = 16 -> mixed_endian (mixed_endian b) = b).
    { intros b Hb. destruct (sixteen b Hb) as (? & ? & ? & ? & ? & ? & ? & ? & ? & ? & ? & ? & ? & ? & ? & ? & ->). done. }
    rewrite Einv by done. rewrite rev_app_distr, !rev_involutive, from_le_app, !from_le_le, zlen_le.
    rewrite !Z.mod_small by lia. rewrite (lower_upper v) at 3. lia.
Qed.

(** *** Dates and times *)

Lemma load_date_le p d r i : i = zlen p -> load_date (p ++ le 3 d ++ r) i = Ok (d mod 256 ^ 3).
Proof.
  intros ->. unfold load_date. rewrite <- (Z.add_0_r (zlen p)) at 1. rewrite !get8_app_r by lia.
  change (256 ^ 3) with (256 ^ Z.of_nat 3). rewrite <- (from_le_le 3 d). pose proof (length_le 3 d) as Hl.
  destruct (le 3 d) as [|b0 [|b1 [|b2 [|]]]]; try discriminate. cbn [app from_le].
  rewrite get8_0, (get8_lookup _ 1 b1), (get8_lookup _ 2 b2) by done. cbn [mbind res_bind].
  pose proof (b2z_range b0). pose proof (b2z_range b1).
  rewrite <- (Z.shiftl_0_r (b2z b2)) at 1. rewrite Z.shiftl_0_r, (lor_shiftl_add (b2z b0)), lor_shiftl_add by lia. f_equal. lia.
Qed.

Lemma GetTimeByteSize_Length scale : GetTimeByteSize scale = GetTimeByteLength scale.
Proof. done. Qed.

(** The scales, one by one. *)
Lemma scale_cases scale : 0 <= scale <= 7 ->
  scale = 0 \/ scale = 1 \/ scale = 2 \/ scale = 3 \/ scale = 4 \/ scale = 5 \/ scale = 6 \/ scale = 7.
Proof. lia. Qed.

(** The microseconds of one tick: at scale 7 DuckDB's resolution is the coarser. *)
Definition tick (scale : Z) : Z := if scale <=? 6 then 10 ^ (6 - scale) else 1.

Lemma tick_pos scale : 0 < tick scale.
Proof. unfold tick. destruct (Z.leb_spec scale 6); [apply Z.pow_pos_nonneg|]; lia. Qed.

(** A count of ticks that fits the field is read back as a multiple of [tick]. *)
Lemma ticks_back k r scale : 0 <= scale <= 7 ->
  0 <= k -> k * tick scale < (if scale =? 7 then 864000000000 else 86400000000) ->
  ConvertTime (le (Z.to_nat (GetTimeByteLength scale)) k ++ r) scale
  = Ok (if scale =? 7 then k ÷ 10 else tick scale * k).
Proof.
  intros Hs Hk Hb. unfold ConvertTime.
  rewrite (or_bytes_le [] _ _ r 0 eq_refl : or_bytes (le _ _ ++ r) 0 _ 0 0 = _).
  assert (Hm : k mod 256 ^ Z.of_nat (Z.to_nat (GetTimeByteLength scale)) = k).
  { apply Z.mod_small. split; [done|].
    assert ((if scale =? 7 then 864000000000 else 86400000000) <= 256 ^ Z.of_nat (Z.to_nat (GetTimeByteLength scale)) * tick scale).
    { destruct (scale_cases scale Hs) as [-> | [-> | [-> | [-> | [-> | [-> | [-> | ->]]]]]]]; apply Z.leb_le; vm_compute; reflexivity. }
    pose proof (tick_pos scale). nia. }
  rewrite Hm. cbn [mbind res_bind]. unfold TimeTicksToMicroseconds, tick in *. rewrite Pow10_pow.
  destruct (Z.leb_spec scale 6).
  - rewrite (proj2 (Z.eqb_neq scale 7)) in * by lia. rewrite Z2Nat.id by lia. rewrite Z.mul_comm in Hb. rewrite (Z.mul_comm k).
    apply int64_ok. assert (0 < 10 ^ (6 - scale)) by (apply Z.pow_pos_nonneg; lia). nia.
  - by rewrite (proj2 (Z.eqb_eq scale 7)) by lia.
Qed.

(** Half up, capped at the last tick of the day. *)
Definition nearest_tick (scale v : Z) : Z :=
  Z.min ((v + tick scale / 2) / tick scale) (86400000000 / tick scale - 1).

Lemma ticks_per_day scale : 0 <= scale <= 7 -> tick scale * (SECONDS_PER_DAY * 10 ^ Z.min scale 6) = 86400000000.
Proof. intros Hs. destruct (scale_cases scale Hs) as [-> | [-> | [-> | [-> | [-> | [-> | [-> | ->]]]]]]]; by vm_compute. Qed.

Lemma scale_time_eq v scale : 0 <= scale <= 7 -> 0 <= v < 86400000000 ->
  scale_time v scale = Ok (if scale =? 7 then v * 10 else nearest_tick scale v) /\
  tick scale * nearest_tick scale v < 86400000000 /\ 0 <= nearest_tick scale v.
Proof.
  intros Hs Hv. pose proof (tick_pos scale). pose proof (ticks_per_day scale Hs) as Hd. unfold scale_time, nearest_tick.
  replace (86400000000 / tick scale) with (SECONDS_PER_DAY * 10 ^ Z.min scale 6) by (apply Z.div_unique_exact; lia).
  assert (0 <= (v + tick scale / 2) / tick scale) by (apply Z.div_pos; [|lia]; assert (0 <= tick scale / 2) by (apply Z.div_pos; lia); lia).
  assert (0 < SECONDS_PER_DAY * 10 ^ Z.min scale 6) by (assert (0 < 10 ^ Z.min scale 6) by (apply Z.pow_pos_nonneg; lia); unfold SECONDS_PER_DAY; lia).
  split; [|nia]. destruct (Z.leb_spec scale 6) as [Hc|Hc].
  - rewrite (proj2 (Z.eqb_neq scale 7)), !Pow10_pow, !Z2Nat.id by lia. rewrite Z.min_l in * by lia.
    assert (Et : 10 ^ (6 - scale) = tick scale) by (unfold tick; by rewrite (proj2 (Z.leb_le _ _))). rewrite Et.
    assert (tick scale <= 1000000) by (rewrite <- Et; apply (Z.pow_le_mono_r 10 _ 6); lia).
    rewrite int64_ok by zlia. cbn [mbind res_bind]. rewrite (Z.quot_div_nonneg (tick scale)) by lia.
    rewrite Z.quot_div_nonneg by zlia. f_equal. rewrite (Z.min_l scale 6) by lia. destruct (Z.leb_spec (SECONDS_PER_DAY * 10 ^ scale) ((v + tick scale / 2) / tick scale)); lia.
  - rewrite (proj2 (Z.eqb_eq scale 7)) by lia. apply int64_ok. lia.
Qed.

(** No other multiple of the tick in the day is nearer. *)
Lemma nearest_tick_nearest scale v m : 0 <= scale <= 7 -> 0 <= v < 86400000000 -> 0 <= m * tick scale < 86400000000 ->
  Z.abs (nearest_tick scale v * tick scale - v) < Z.abs (m * tick scale - v) \/
  Z.abs (nearest_tick scale v * tick scale - v) = Z.abs (m * tick scale - v) /\ m * tick scale <= nearest_tick scale v * tick scale.
Proof.
  intros Hs Hv Hm. pose proof (tick_pos scale). pose proof (ticks_per_day scale Hs) as Hd. unfold nearest_tick.
  set (D := SECONDS_PER_DAY * 10 ^ Z.min scale 6) in *. set (q := tick scale) in *.
  replace (86400000000 / q) with D by (apply Z.div_unique_exact; lia).
  pose proof (Z.div_mod (v + q / 2) q ltac:(lia)) as E1. pose proof (Z.mod_pos_bound (v + q / 2) q ltac:(lia)) as B1.
  pose proof (Z.div_mod q 2 ltac:(lia)) as E2. pose proof (Z.mod_pos_bound q 2 ltac:(lia)) as B2.
  set (x := (v + q / 2) / q) in *. assert (m < D) by nia. destruct (Z.lt_trichotomy m (Z.min x (D - 1))) as [Hc|[->|Hc]].
  - assert (m * q <= Z.min x (D - 1) * q - q) by nia. assert (Z.min x (D - 1) * q <= x * q) by nia. lia.
  - right. lia.
  - assert (Z.min x (D - 1) = x) as -> by lia. assert (x * q + q <= m * q) by nia. left. lia.
Qed.

Lemma Date_back d r : -2147483648 <= d < 2146764486 ->
  EncodeDate d = Ok (z2b 3 :: le 3 (d + 719162)) /\ ConvertDate (le 3 (d + 719162) ++ r) = Ok ((d + 719162) mod 16777216 - 719162).
Proof.
  intros Hd. unfold EncodeDate, DAYS_FROM_0001_TO_EPOCH. rewrite int32_ok by lia. split; [done|].
  unfold ConvertDate. by rewrite (load_date_le [] _ r 0 eq_refl : load_date (le 3 _ ++ r) 0 = _).
Qed.

Lemma Time_back v scale r : 0 <= scale <= 7 -> 0 <= v < 86400000000 ->
  exists payload, EncodeTime v scale = Ok (z2b (zlen payload) :: payload) /\ zlen payload = GetTimeByteLength scale /\
    ConvertTime (payload ++ r) scale = Ok (nearest_tick scale v * tick scale).
Proof.
  intros Hs Hv. destruct (scale_time_eq v scale Hs Hv) as (E & Hn & Hn0). unfold EncodeTime. rewrite E. cbn [mbind res_bind].
  set (k := if scale =? 7 then v * 10 else nearest_tick scale v). rewrite GetTimeByteSize_Length.
  assert (Hz : zlen (le (Z.to_nat (GetTimeByteLength scale)) k) = GetTimeByteLength scale)
    by (rewrite zlen_le; unfold GetTimeByteLength; repeat case_match; lia).
  exists (le (Z.to_nat (GetTimeByteLength scale)) k). split; [by rewrite Hz|]. split; [done|].
  rewrite (ticks_back k r scale Hs).
  - f_equal. subst k. destruct (Z.eqb_spec scale 7) as [->|]; [|lia].
    unfold nearest_tick. change (tick 7) with 1. zlia.
  - subst k. case_match; lia.
  - subst k. destruct (Z.eqb_spec scale 7) as [->|]; [change (tick 7) with 1|]; lia.
Qed.

(** A date is read back as it was written exactly when it lies in the
    2^24 days the field holds; outside it wraps. A time of day is read back as
    the nearest multiple of the column's tick within the day, the later of two
    equally near (so exactly, at scales 6 and 7). *)
Theorem Date_time_roundtrip (d v scale : Z) (r : bytes) (Hd : -2147483648 <= d < 2146764486)
  (Hs : 0 <= scale <= 7) (Hv : 0 <= v < 86400000000) :
  (exists payload, EncodeDate d = Ok (z2b 3 :: payload) /\ zlen payload = 3 /\
     exists d', ConvertDate (payload ++ r) = Ok d' /\ (d' = d <-> 0 <= d + DAYS_FROM_0001_TO_EPOCH < 16777216)) /\
  exists payload t, EncodeTime v scale = Ok (z2b (zlen payload) :: payload) /\ zlen payload = GetTimeByteLength scale /\
     ConvertTime (payload ++ r) scale = Ok t /\ 0 <= t < 86400000000 /\ (tick scale | t) /\
     forall t', (tick scale | t') -> 0 <= t' < 86400000000 ->
       Z.abs (t - v) < Z.abs (t' - v) \/ Z.abs (t - v) = Z.abs (t' - v) /\ t' <= t.
Proof.
  split.
  - destruct (Date_back d r Hd) as [E1 E2]. exists (le 3 (d + 719162)). split; [done|]. split; [apply zlen_le|].
    eexists. split; [done|]. unfold DAYS_FROM_0001_TO_EPOCH. zlia.
  - destruct (Time_back v scale r Hs Hv) as (payload & E1 & Hl & E2), (scale_time_eq v scale Hs Hv) as (_ & Hn & Hn0).
    exists payload, (nearest_tick scale v * tick scale). pose proof (tick_pos scale).
    split_and!; [done|done|done|nia|lia|apply Z.divide_factor_r|].
    intros t' [m ->] Ht'. by apply nearest_tick_nearest.
Qed.

(** ** The properties at work *)

(** DECIMAL(10,2) -12345.67. *)
Lemma Decimal_roundtrip_witness :
  exists payload, EncodeDecimal (H := Checked.hugeint) (-1234567) 10 2 = Ok (z2b (zlen payload) :: payload) /\
    zlen payload = GetDecimalByteSize 10 /\ ConvertDecimal (H := Checked.hugeint) (payload ++ bs [7]) (zlen payload) = Ok (-1234567).
Proof. apply (Decimal_roundtrip (H := Checked.hugeint) 10 2); lia. Defined.

Lemma ConvertDecimal_portable_witness :
  ConvertDecimal (H := Checked.hugeint) (bs [1; 0x39; 0x30; 0; 0; 0; 0; 0; 0; 2] ++ bs [9]) 10 = Ok 36893488147419115577.
Proof.
  apply (fun H1 H2 => proj2 (ConvertDecimal_portable (H := Checked.hugeint) (bs [1; 0x39; 0x30; 0; 0; 0; 0; 0; 0; 2]) (bs [9]) H1 H2)).
  - split; vm_compute; congruence.
  - vm_compute. reflexivity.
Defined.

Lemma Guid_bijection_witness : ConvertGuid (EncodeHugeIntToWire (-170141183460469231731687303715884105728) ++ bs [1]) = Ok (-170141183460469231731687303715884105728).
Proof.
  apply (fun H1 H2 => proj1 (proj2 (Guid_bijection (replicate 16 Byte.x00) (bs [1]) (-170141183460469231731687303715884105728) H1 H2))).
  - reflexivity.
  - split; vm_compute; congruence.
Defined.

(** 1970-01-01, and 23:59:59.9996 in a [time(3)] column: the last tick. *)
Lemma Date_time_roundtrip_witness :
  exists payload, EncodeDate 0 = Ok (z2b 3 :: payload) /\ zlen payload = 3 /\
     exists d', ConvertDate (payload ++ []) = Ok d' /\ (d' = 0 <-> 0 <= 0 + DAYS_FROM_0001_TO_EPOCH < 16777216).
Proof. apply (fun H1 H2 H3 => proj1 (Date_time_roundtrip 0 86399999600 3 [] H1 H2 H3)); lia. Defined.

Example last_tick : (p ← EncodeTime 86399999600 3; ConvertTime (drop 1 p) 3) = Ok 86399999000.
Proof. vm_compute. reflexivity. Qed.
