(* ===== verification/Codecs.v ===== *)
(** * The codecs (src/src/codec/)

    One Module per family, named as the C++ namespace: how a value of a DuckDB
    vector becomes the bytes of a bulk-load row ([EncodeToBcp], the overload on a
    vector's format), and how the bytes of a result value become the content of
    a DuckDB vector ([DecodeFromTds]).

    An encoder returns the bytes it appends to [buf]; room it reserves and then
    fills is checked ([fill]). A decoder returns what it does to the vector at
    its row ([stored]). The SQL text of literals and types, and the overloads on
    a single [Value], are not modelled here.

    Main results: an integer or a decimal is written as the number it is, rounded
    half away from zero where the column has fewer decimals, or refused, exactly
    when it does not fit; a timestamp is written as the nearest tick of the
    column; text that is too long is cut between characters. *)

From S2P Require Import Prelude TdsTypes Utf16 ColumnMetadata Values Encoding.

(** What a decoder does at its row. *)
Inductive stored : Type :=
  | Store (p : PhysicalType) (c : cell)
  | SetNull
  | Untouched.

(** Room of [n] bytes, zero at first, into which [b] is written. *)
Definition fill (n : Z) (b : bytes) : res bytes :=
  if zlen b <=? n then Ok (b ++ replicate (Z.to_nat (n - zlen b)) Byte.x00) else Oob.

(** ** Families (type_family.cpp) *)

Inductive TypeFamily : Type :=
  | Boolean | Integer | Float | Decimal | Money | String | Binary | DateTime | Uuid.

Definition FamilyFromTdsType (tds_type_id : Z) : res TypeFamily :=
  if is_one_of tds_type_id [TDS_TYPE_BIT; TDS_TYPE_BITN] then Ok Boolean
  else if is_one_of tds_type_id [TDS_TYPE_TINYINT; TDS_TYPE_SMALLINT; TDS_TYPE_INT; TDS_TYPE_BIGINT; TDS_TYPE_INTN] then Ok Integer
  else if is_one_of tds_type_id [TDS_TYPE_REAL; TDS_TYPE_FLOAT; TDS_TYPE_FLOATN] then Ok Float
  else if is_one_of tds_type_id [TDS_TYPE_DECIMAL; TDS_TYPE_NUMERIC] then Ok Decimal
  else if is_one_of tds_type_id [TDS_TYPE_MONEY; TDS_TYPE_SMALLMONEY; TDS_TYPE_MONEYN] then Ok Money
  else if is_one_of tds_type_id [TDS_TYPE_BIGCHAR; TDS_TYPE_BIGVARCHAR; TDS_TYPE_NCHAR; TDS_TYPE_NVARCHAR; TDS_TYPE_XML] then Ok String
  else if is_one_of tds_type_id [TDS_TYPE_BIGBINARY; TDS_TYPE_BIGVARBINARY] then Ok Binary
  else if is_one_of tds_type_id [TDS_TYPE_DATE; TDS_TYPE_TIME; TDS_TYPE_DATETIME; TDS_TYPE_SMALLDATETIME; TDS_TYPE_DATETIME2;
                                 TDS_TYPE_DATETIMEN; TDS_TYPE_DATETIMEOFFSET] then Ok DateTime
  else if tds_type_id =? TDS_TYPE_UNIQUEIDENTIFIER then Ok Uuid
  else Exn (InvalidInput "Unsupported TDS type id for TypeFamily mapping").

Definition FamilyFromLogicalType (type : LogicalType) : res TypeFamily :=
  match id type with
  | BOOLEAN => Ok Boolean
  | TINYINT | UTINYINT | SMALLINT | USMALLINT | INTEGER | UINTEGER | BIGINT | UBIGINT | HUGEINT => Ok Integer
  | FLOAT | DOUBLE => Ok Float
  | DECIMAL => Ok Decimal
  | VARCHAR | INTERVAL => Ok String
  | BLOB | GEOMETRY => Ok Binary
  | DATE | TIME | TIMESTAMP | TIMESTAMP_NS | TIMESTAMP_MS | TIMESTAMP_SEC | TIMESTAMP_TZ => Ok DateTime
  | UUID => Ok Uuid
  | UHUGEINT | OTHER_TYPE => Exn (NotImplemented "Unsupported DuckDB type for TypeFamily mapping")
  end.

(** ** Boolean *)

Module boolean.
Definition DecodeFromTds (bytes : bytes) : stored :=
  Store PhysicalType.BOOL (Word (match bytes with b :: _ => if b2z b =? 0 then 0 else 1 | [] => 0 end)).

Definition EncodeToBcp `{DuckDB} (in_ : Vector) (row : nat) (col : BCPColumnMetadata) : res bytes :=
  v ← FormatWord PhysicalType.BOOL in_ row;
  Ok [z2b 1; z2b (if v =? 0 then 0x00 else 0x01)].
End boolean.

(** ** Integers *)

Module integer.
Section Integer.
Context `{Hugeint} `{DuckDB}.

Definition AppendUInt8Bcp (value : Z) : bytes := [z2b 1; z2b value].
Definition AppendInt16Bcp (value : Z) : bytes := z2b 2 :: le 2 value.
Definition AppendInt32Bcp (value : Z) : bytes := z2b 4 :: le 4 value.
Definition AppendInt64Bcp (value : Z) : bytes := z2b 8 :: le 8 value.

Definition MaxDecimal38 : Z := POWERS_OF_TEN 38 - 1.

Definition CheckHugeintFitsDecimal38 (value : Z) : res unit :=
  let max := MaxDecimal38 in
  min ← h_neg max;
  if (max <? value) || (value <? min) then Exn (InvalidInput "HUGEINT value is out of range for DECIMAL(38,0)") else Ok tt.

Definition CheckUhugeintFitsDecimal38 (value : Z) : res unit :=
  if MaxDecimal38 <? value then Exn (InvalidInput "UHUGEINT value is out of range for DECIMAL(38,0)") else Ok tt.

Definition ReadSourceInteger (in_ : Vector) (row : nat) : res Z :=
  match InternalType (GetType in_) with
  | PhysicalType.BOOL | PhysicalType.INT8 => FormatWord PhysicalType.INT8 in_ row
  | PhysicalType.UINT8 => FormatWord PhysicalType.UINT8 in_ row
  | PhysicalType.INT16 => FormatWord PhysicalType.INT16 in_ row
  | PhysicalType.UINT16 => FormatWord PhysicalType.UINT16 in_ row
  | PhysicalType.INT32 => FormatWord PhysicalType.INT32 in_ row
  | PhysicalType.UINT32 => FormatWord PhysicalType.UINT32 in_ row
  | PhysicalType.INT64 => FormatWord PhysicalType.INT64 in_ row
  | PhysicalType.UINT64 => FormatWord PhysicalType.UINT64 in_ row
  | PhysicalType.INT128 => FormatWord PhysicalType.INT128 in_ row
  | _ => Exn (InternalError "codec::integer::EncodeToBcp: unexpected source PhysicalType for an integer column")
  end.

Definition NarrowSourceInteger (value min max : Z) : res Z :=
  if (max <? value) || (value <? min) then Exn (InvalidInput "integer value is out of range for the target column") else Ok value.

(** The arm of a target [min .. max] wide, with its exact-match source. *)
Definition narrow (src : PhysicalType) (min max : Z) (append : Z -> bytes) (in_ : Vector) (row : nat) : res bytes :=
  if decide (InternalType (GetType in_) = src) then v ← FormatWord src in_ row; Ok (append v)
  else x ← ReadSourceInteger in_ row; v ← NarrowSourceInteger x min max; Ok (append v).

Definition EncodeToBcp (in_ : Vector) (row : nat) (col : BCPColumnMetadata) : res bytes :=
  match id (duckdb_type col) with
  | UTINYINT => narrow PhysicalType.UINT8 0 255 AppendUInt8Bcp in_ row
  | TINYINT | SMALLINT => narrow PhysicalType.INT16 (-32768) 32767 AppendInt16Bcp in_ row
  | USMALLINT => v ← FormatWord PhysicalType.UINT16 in_ row; Ok (AppendInt32Bcp v)
  | INTEGER => narrow PhysicalType.INT32 (-2147483648) 2147483647 AppendInt32Bcp in_ row
  | UINTEGER => v ← FormatWord PhysicalType.UINT32 in_ row; Ok (AppendInt64Bcp v)
  | BIGINT => narrow PhysicalType.INT64 (-9223372036854775808) 9223372036854775807 AppendInt64Bcp in_ row
  | UBIGINT => v ← FormatWord PhysicalType.UINT64 in_ row; EncodeDecimal v (precision col) (scale col)
  | HUGEINT =>
      v ← FormatWord PhysicalType.INT128 in_ row;
      _ ← CheckHugeintFitsDecimal38 v;
      EncodeDecimal v (precision col) (scale col)
  | UHUGEINT =>
      v ← FormatWord PhysicalType.UINT128 in_ row;
      _ ← CheckUhugeintFitsDecimal38 v;
      EncodeDecimal v (precision col) (scale col)
  | _ => Exn (NotImplemented "codec::integer::EncodeToBcp: unsupported type")
  end.

Definition DecodeFromTds (bytes : bytes) : res stored :=
  let n := zlen bytes in
  if n =? 1 then b ← get8 bytes 0; Ok (Store PhysicalType.UINT8 (Word b))
  else if n =? 2 then v ← load bytes 0 2; Ok (Store PhysicalType.INT16 (Word (sx 16 v)))
  else if n =? 4 then v ← load bytes 0 4; Ok (Store PhysicalType.INT32 (Word (sx 32 v)))
  else if n =? 8 then v ← load bytes 0 8; Ok (Store PhysicalType.INT64 (Word (sx 64 v)))
  else Exn (InvalidInput "codec::integer::DecodeFromTds: invalid integer length").
End Integer.
End integer.

(** ** Floating point *)

Module float_family.
Section Float.
Context `{Floats} `{DuckDB}.

Definition AppendFloatBcp (bits : Z) : bytes := z2b 4 :: le 4 bits.
Definition AppendDoubleBcp (bits : Z) : bytes := z2b 8 :: le 8 bits.

Definition EncodeToBcp (in_ : Vector) (row : nat) (col : BCPColumnMetadata) : res bytes :=
  let source_id := id (GetType in_) in
  if negb (bool_decide (source_id = FLOAT)) && negb (bool_decide (source_id = DOUBLE))
  then Exn (InternalError "codec::float_family::EncodeToBcp: unexpected LogicalType")
  else
    value ← (if bool_decide (source_id = FLOAT) then f ← FormatWord PhysicalType.FLOAT in_ row; Ok (widen f)
             else FormatWord PhysicalType.DOUBLE in_ row);
    if bool_decide (id (duckdb_type col) = FLOAT) then Ok (AppendFloatBcp (Values.narrow value)) else Ok (AppendDoubleBcp value).

Definition DecodeFromTds (bytes : bytes) : res stored :=
  if zlen bytes =? 4 then v ← load bytes 0 4; Ok (Store PhysicalType.FLOAT (Word v))
  else if zlen bytes =? 8 then v ← load bytes 0 8; Ok (Store PhysicalType.DOUBLE (Word v))
  else Ok Untouched.
End Float.
End float_family.

(** ** Decimals *)

Module decimal.
Section Decimal.
Context `{Hugeint} `{DuckDB}.

Definition WidenVectorToHugeint (vec : Vector) (row_idx : nat) : res Z :=
  match InternalType (GetType vec) with
  | PhysicalType.INT16 => FormatWord PhysicalType.INT16 vec row_idx
  | PhysicalType.INT32 => FormatWord PhysicalType.INT32 vec row_idx
  | PhysicalType.INT64 => FormatWord PhysicalType.INT64 vec row_idx
  | PhysicalType.INT128 => FormatWord PhysicalType.INT128 vec row_idx
  | PhysicalType.UINT64 => FormatWord PhysicalType.UINT64 vec row_idx
  | _ => Exn (InternalError "codec::decimal::EncodeToBcp: unexpected PhysicalType for DECIMAL")
  end.

Definition CheckMantissaFitsPrecision (value : Z) (col : BCPColumnMetadata) : res unit :=
  if (precision col =? 0) || (38 <? precision col) then Ok tt else
  let max := POWERS_OF_TEN (precision col) - 1 in
  min ← h_neg max;
  if (max <? value) || (value <? min) then Exn (InvalidInput "DECIMAL value is out of range") else Ok tt.

Definition SourceScale (type : LogicalType) : Z := if bool_decide (id type = DECIMAL) then decimal_scale type else 0.

Definition RescaleMantissa (mantissa shift : Z) : res Z :=
  if shift =? 0 then Ok mantissa
  else if 0 <? shift then
    if 38 <? shift then Exn (InvalidInput "the difference of scales exceeds DECIMAL's 38-digit range") else
    let limit := POWERS_OF_TEN (38 - shift) in
    neg_limit ← (if limit <? mantissa then Ok 0 else h_neg limit);
    if (limit <? mantissa) || (mantissa <? neg_limit)
    then Exn (InvalidInput "DECIMAL value does not fit once rescaled")
    else h_mul mantissa (POWERS_OF_TEN shift)
  else
    let down := - shift in
    if 38 <? down then Ok 0 else
    let divisor := POWERS_OF_TEN down in
    let quotient := mantissa ÷ divisor in
    let remainder := Z.rem mantissa divisor in
    abs_remainder ← (if remainder <? 0 then h_neg remainder else Ok remainder);
    let half := divisor ÷ 2 in
    if negb (abs_remainder <? half) then Ok (if mantissa <? 0 then quotient - 1 else quotient + 1) else Ok quotient.

(** Sign and magnitude, without the length byte. *)
Definition ScatterToBcp (in_ : Vector) (row : nat) (col : BCPColumnMetadata) : res bytes :=
  value ← WidenVectorToHugeint in_ row;
  value ← RescaleMantissa value (scale col - SourceScale (GetType in_));
  _ ← CheckMantissaFitsPrecision value col;
  decimal_payload value (precision col).

Definition EncodeToBcp (in_ : Vector) (row : nat) (col : BCPColumnMetadata) : res bytes :=
  payload ← ScatterToBcp in_ row col;
  Ok (z2b (GetDecimalByteSize (precision col)) :: payload).

(** The storage follows the column's precision; narrow ones keep the low word. *)
Definition DecodeFromTds (bytes : bytes) (col : ColumnMetadata) : res stored :=
  int_value ← ConvertDecimal bytes (zlen bytes);
  let p := ColumnMetadata.precision col in
  Ok (if p <=? 4 then Store PhysicalType.INT16 (Word (sx 16 (lower int_value)))
      else if p <=? 9 then Store PhysicalType.INT32 (Word (sx 32 (lower int_value)))
      else if p <=? 18 then Store PhysicalType.INT64 (Word (sx 64 (lower int_value)))
      else Store PhysicalType.INT128 (Word int_value)).
End Decimal.
End decimal.

(** ** Money (read only) *)

Module money.
Definition DecodeFromTds (bytes : bytes) : res stored :=
  if zlen bytes =? 8 then v ← ConvertMoney bytes; Ok (Store PhysicalType.INT128 (Word v))
  else if zlen bytes =? 4 then v ← ConvertSmallMoney bytes; Ok (Store PhysicalType.INT64 (Word (sx 64 (lower v))))
  else Exn (InvalidInput "Invalid MONEY length").
End money.

(** ** GUIDs *)

Module uuid.
Definition GUID_WIRE_SIZE : Z := 16.
Definition GUID_LENGTH_PREFIX : Z := 16.

Definition DecodeFromTds (bytes : bytes) : res stored :=
  if negb (zlen bytes =? GUID_WIRE_SIZE) then Exn (InvalidInput "codec::uuid::DecodeFromTds: expected 16 wire bytes")
  else guid ← ConvertGuid bytes; Ok (Store PhysicalType.INT128 (Word guid)).

Definition ScatterToBcp `{DuckDB} (in_ : Vector) (row : nat) : res bytes :=
  v ← FormatWord PhysicalType.INT128 in_ row; Ok (EncodeHugeIntToWire v).

Definition EncodeToBcp `{DuckDB} (in_ : Vector) (row : nat) (col : BCPColumnMetadata) : res bytes :=
  payload ← ScatterToBcp in_ row; Ok (z2b GUID_LENGTH_PREFIX :: payload).
End uuid.

(** ** Strings *)

Module string.
Section Prefixes.

(** [while (i < size)] of [Utf8PrefixForUtf16Limit]: the prefix, and its size
    in UTF-16. Every turn takes at least one byte. *)
Fixpoint prefix_loop (fuel : nat) (data : bytes) (max_bytes i used : Z) : res (Z * Z) :=
  match fuel with
  | O => Ok (i, used)
  | S fuel =>
      if i <? zlen data then
        lead ← get8 data i;
        let cp_bytes := if lead <? 0x80 then 1 else if lead <? 0xE0 then 2 else if lead <? 0xF0 then 3 else 4 in
        let u16_bytes := if lead <? 0xF0 then 2 else 4 in
        if max_bytes <? used + u16_bytes then Ok (i, used) else prefix_loop fuel data max_bytes (i + cp_bytes) (used + u16_bytes)
      else Ok (i, used)
  end.

Definition Utf8PrefixForUtf16Limit (data : bytes) (max_bytes : Z) : res (Z * Z) :=
  prefix_loop (length data) data max_bytes 0 0.

(** [while (n > 0 && (data[n] & 0xC0) == 0x80) n--;] *)
Fixpoint back_off (data : bytes) (n : nat) : res Z :=
  match n with
  | O => Ok 0
  | S m => c ← get8 data (Z.of_nat n); if Z.land c 0xC0 =? 0x80 then back_off data m else Ok (Z.of_nat n)
  end.

Definition Utf8PrefixForByteLimit (data : bytes) (max_bytes : Z) : res Z :=
  if zlen data <=? max_bytes then Ok (zlen data) else back_off data (Z.to_nat max_bytes).
End Prefixes.

Definition WriteLe32 (v : Z) : bytes := le 4 v.
Definition WritePlpHeader : bytes := le 8 UNKNOWN_PLP_LEN.

Section Strings.
Context `{Simdutf} `{DuckDB}.

(** The converter's bytes do not depend on the alignment of its output. *)
Definition encode_into (room : Z) (input : bytes) : res bytes :=
  let enc := Utf16LEEncodeDirect false input in if zlen enc <=? room then Ok enc else Oob.

Definition AppendNVarcharNonPlp (input : bytes) : res bytes :=
  enc ← encode_into (2 * zlen input) input;
  Ok (le 2 (zlen enc) ++ enc).

Definition AppendNVarcharPlp (input : bytes) : res bytes :=
  if zlen input =? 0 then Ok (WritePlpHeader ++ WriteLe32 0) else
  enc ← encode_into (2 * zlen input) input;
  Ok (WritePlpHeader ++ WriteLe32 (zlen enc) ++ enc ++ WriteLe32 0).

Definition EncodeNVarcharFromUtf8 (utf8_data : bytes) (col : BCPColumnMetadata) : res bytes :=
  let '(utf16_byte_len, valid_utf8) := Utf16LEByteLengthView utf8_data in
  '(utf8_len, utf16_byte_len) ←
    (if negb (IsPLPType col) && (max_length col <? utf16_byte_len)
     then Utf8PrefixForUtf16Limit utf8_data (max_length col)
     else Ok (zlen utf8_data, utf16_byte_len));
  input ← slice utf8_data 0 utf8_len;
  if negb valid_utf8 then
    if IsPLPType col then AppendNVarcharPlp input else AppendNVarcharNonPlp input
  else if IsPLPType col then
    if utf16_byte_len =? 0 then AppendNVarcharPlp input else
    payload ← fill utf16_byte_len (Utf16LEEncodeValidDirect input);
    Ok (WritePlpHeader ++ WriteLe32 utf16_byte_len ++ payload ++ WriteLe32 0)
  else
    payload ← fill utf16_byte_len (Utf16LEEncodeValidDirect input);
    Ok (le 2 utf16_byte_len ++ payload).

Definition EncodeVarcharUtf8 (utf8_data : bytes) (col : BCPColumnMetadata) : res bytes :=
  utf8_len ← (if negb (IsPLPType col) && (max_length col <? zlen utf8_data)
              then Utf8PrefixForByteLimit utf8_data (max_length col) else Ok (zlen utf8_data));
  input ← slice utf8_data 0 utf8_len;
  if IsPLPType col then
    Ok (WritePlpHeader ++ (if 0 <? utf8_len then WriteLe32 utf8_len ++ input ++ WriteLe32 0 else WriteLe32 0))
  else Ok (le 2 utf8_len ++ input).

Definition EncodeToBcp (in_ : Vector) (row : nat) (col : BCPColumnMetadata) : res bytes :=
  match id (duckdb_type col) with
  | VARCHAR => str_val ← FormatStr in_ row; EncodeNVarcharFromUtf8 str_val col
  | INTERVAL => iv ← FormatWord PhysicalType.INTERVAL in_ row; EncodeNVarcharFromUtf8 (Interval_ToString iv) col
  | _ => Exn (NotImplemented "codec::string::EncodeToBcp: unsupported type")
  end.

Definition EncodeToBcpUtf8 (in_ : Vector) (row : nat) (col : BCPColumnMetadata) : res bytes :=
  match id (duckdb_type col) with
  | VARCHAR => str_val ← FormatStr in_ row; EncodeVarcharUtf8 str_val col
  | INTERVAL => iv ← FormatWord PhysicalType.INTERVAL in_ row; EncodeVarcharUtf8 (Interval_ToString iv) col
  | _ => Exn (NotImplemented "codec::string::EncodeToBcpUtf8: unsupported type")
  end.

(** Trailing U+0020 code units. *)
Fixpoint trim16 (rev_bytes : bytes) : bytes :=
  match rev_bytes with
  | b1 :: b0 :: r => if (b2z b0 =? 0x20) && (b2z b1 =? 0x00) then trim16 r else rev_bytes
  | _ => rev_bytes
  end.

(** Trailing spaces. *)
Fixpoint trim8 (rev_bytes : bytes) : bytes :=
  match rev_bytes with b :: r => if b2z b =? 0x20 then trim8 r else rev_bytes | [] => [] end.

Definition DecodeFromTds (bytes : bytes) (col : ColumnMetadata) : res stored :=
  let trim_trailing_spaces := (type_id col =? TDS_TYPE_BIGCHAR) || (type_id col =? TDS_TYPE_NCHAR) in
  if is_one_of (type_id col) [TDS_TYPE_NCHAR; TDS_TYPE_NVARCHAR; TDS_TYPE_XML; TDS_TYPE_NTEXT] then
    let trimmed := if trim_trailing_spaces then rev (trim16 (rev bytes)) else bytes in
    match Utf8LengthFromUtf16LEView trimmed with
    | None =>
        let s := Utf16LEDecode bytes in
        Ok (Store PhysicalType.VARCHAR (Str (if trim_trailing_spaces then rev (trim8 (rev s)) else s)))
    | Some utf8_len => s ← fill utf8_len (Utf16LEDecodeValidInto trimmed); Ok (Store PhysicalType.VARCHAR (Str s))
    end
  else Ok (Store PhysicalType.VARCHAR (Str (if trim_trailing_spaces then rev (trim8 (rev bytes)) else bytes))).
End Strings.
End string.

(** ** Binary *)

Module binary.
Definition DecodeFromTds (bytes : bytes) : stored := Store PhysicalType.VARCHAR (Str bytes).

Definition ClampBlobToBound (blob : bytes) (col : BCPColumnMetadata) : bytes :=
  let bound := max_length col in
  if (bound =? 0) || (zlen blob <=? bound) then blob else ztake bound blob.

Definition EncodeToBcp `{DuckDB} (in_ : Vector) (row : nat) (col : BCPColumnMetadata) : res bytes :=
  blob ← FormatStr in_ row;
  Ok (if IsPLPType col then EncodeBinaryPLP blob else EncodeBinary (ClampBlobToBound blob col)).
End binary.

(** ** Dates and times *)

Module datetime.
Section DateTime.
Context `{DuckDB}.

Definition TicksPerSecondFor (id : LogicalTypeId) : res Z :=
  match id with
  | TIMESTAMP_SEC => Ok 1
  | TIMESTAMP_MS => Ok 1000
  | TIMESTAMP | TIMESTAMP_TZ => Ok 1000000
  | TIMESTAMP_NS => Ok 1000000000
  | _ => Exn (InternalError "TicksPerSecondFor: not a TIMESTAMP variant")
  end.

(** A power of ten in an [int64_t]. *)
Definition Pow10 (exp : Z) : res Z := int64 (Encoding.Pow10 (Z.to_nat exp)).

(** A count of ticks as days and the ticks of the last day, rounding down. *)
Definition split_days (raw_ticks source_per_day : Z) : res (Z * Z) :=
  if 0 <=? raw_ticks then Ok (raw_ticks ÷ source_per_day, Z.rem raw_ticks source_per_day)
  else
    x ← int64 (raw_ticks - source_per_day + 1);
    let days := x ÷ source_per_day in
    Ok (days, raw_ticks - days * source_per_day).

Definition ComputeDatetime2Components (raw_ticks : Z) (source_type : LogicalTypeId) (target_scale : Z) : res (Z * Z) :=
  source_per_sec ← TicksPerSecondFor source_type;
  let source_per_day := source_per_sec * SECONDS_PER_DAY in
  '(days, sub_day_ticks) ← split_days raw_ticks source_per_day;
  let date_value := ux 32 (days + DAYS_FROM_0001_TO_EPOCH) in
  target_per_sec ← Pow10 target_scale;
  if source_per_sec <=? target_per_sec then
    t ← int64 (sub_day_ticks * (target_per_sec ÷ source_per_sec));
    Ok (ux 64 t, date_value)
  else
    let divisor := source_per_sec ÷ target_per_sec in
    let scaled := (sub_day_ticks + divisor ÷ 2) ÷ divisor in
    let target_per_day := target_per_sec * SECONDS_PER_DAY in
    if target_per_day <=? scaled then Ok (0, ux 32 (date_value + 1)) else Ok (ux 64 scaled, date_value).

Definition EncodeToBcp (in_ : Vector) (row : nat) (col : BCPColumnMetadata) : res bytes :=
  let source_id := id (GetType in_) in
  match id (duckdb_type col) with
  | DATE => d ← FormatWord PhysicalType.INT32 in_ row; EncodeDate d
  | TIME => t ← FormatWord PhysicalType.INT64 in_ row; EncodeTime t (scale col)
  | TIMESTAMP | TIMESTAMP_MS | TIMESTAMP_NS | TIMESTAMP_SEC =>
      if bool_decide (source_id = DATE) then
        d ← FormatWord PhysicalType.INT32 in_ row;
        days ← int32 (d + DAYS_FROM_0001_TO_EPOCH);
        Ok (EncodeDatetime2Raw 0 (ux 32 days) (scale col))
      else
        t ← FormatWord PhysicalType.INT64 in_ row;
        '(time_value, date_value) ← ComputeDatetime2Components t source_id (scale col);
        Ok (EncodeDatetime2Raw time_value date_value (scale col))
  | TIMESTAMP_TZ =>
      t ← FormatWord PhysicalType.INT64 in_ row;
      '(time_value, date_value) ← ComputeDatetime2Components t source_id (scale col);
      Ok (EncodeDatetimeOffsetRaw time_value date_value 0 (scale col))
  | _ => Exn (NotImplemented "codec::datetime::EncodeToBcp: unexpected DuckDB type")
  end.

Definition Datetime2WireToNativeUnit (data : bytes) (time_len wire_scale : Z) (target_type : LogicalTypeId) : res (option Z) :=
  time_ticks ← or_bytes data 0 (Z.to_nat time_len) 0 0;
  days ← load_date data time_len;
  let unix_days := days - DAYS_FROM_0001_TO_EPOCH in
  wire_per_sec ← Pow10 wire_scale;
  target_per_sec ← TicksPerSecondFor target_type;
  sub_day_ticks ← (if wire_per_sec <=? target_per_sec then int64 (time_ticks * (target_per_sec ÷ wire_per_sec))
                   else Ok (time_ticks ÷ (wire_per_sec ÷ target_per_sec)));
  let ticks_per_day := SECONDS_PER_DAY * target_per_sec in
  if (9223372036854775807 ÷ ticks_per_day <? unix_days) || (unix_days <? -9223372036854775808 ÷ ticks_per_day) then Ok None else
  let days_ticks := unix_days * ticks_per_day in
  limit ← int64 (9223372036854775807 - sub_day_ticks);
  if limit <? days_ticks then Ok None else Ok (Some (days_ticks + sub_day_ticks)).

Definition Datetime2TimeByteLen (scale : Z) : Z := if scale <=? 2 then 3 else if scale <=? 4 then 4 else 5.

Definition FixedTemporalReadLen (col : ColumnMetadata) : Z :=
  let s := ColumnMetadata.scale col in
  let time_len := if s <=? 2 then 3 else if s <=? 4 then 4 else 5 in
  if type_id col =? TDS_TYPE_DATE then 3
  else if type_id col =? TDS_TYPE_TIME then time_len
  else if type_id col =? TDS_TYPE_DATETIME then 8
  else if type_id col =? TDS_TYPE_SMALLDATETIME then 4
  else if type_id col =? TDS_TYPE_DATETIME2 then 3 + time_len
  else if type_id col =? TDS_TYPE_DATETIMEOFFSET then 5 + time_len
  else 0.

Definition store_timestamp (t : Z) : stored := Store PhysicalType.INT64 (Word t).

(** [out_type]: the type of the vector, which [FillVector] took from the column. *)
Definition DecodeFromTds (bytes : bytes) (col : ColumnMetadata) (out_type : LogicalTypeId) : res stored :=
  let need := FixedTemporalReadLen col in
  let s := ColumnMetadata.scale col in
  if negb (need =? 0) && (zlen bytes <? need) then Exn (InvalidInput "temporal column arrived with too few bytes")
  else if type_id col =? TDS_TYPE_DATE then d ← ConvertDate bytes; Ok (Store PhysicalType.INT32 (Word d))
  else if type_id col =? TDS_TYPE_TIME then t ← ConvertTime bytes s; Ok (store_timestamp t)
  else if type_id col =? TDS_TYPE_DATETIME then t ← ConvertDatetime bytes; Ok (store_timestamp t)
  else if type_id col =? TDS_TYPE_SMALLDATETIME then t ← ConvertSmallDatetime bytes; Ok (store_timestamp t)
  else if type_id col =? TDS_TYPE_DATETIME2 then
    native ← Datetime2WireToNativeUnit bytes (Datetime2TimeByteLen s) s out_type;
    Ok (match native with Some t => store_timestamp t | None => SetNull end)
  else if type_id col =? TDS_TYPE_DATETIMEN then
    if zlen bytes =? 8 then t ← ConvertDatetime bytes; Ok (store_timestamp t)
    else if zlen bytes =? 4 then t ← ConvertSmallDatetime bytes; Ok (store_timestamp t)
    else Exn (InvalidInput "Invalid DATETIMEN length")
  else if type_id col =? TDS_TYPE_DATETIMEOFFSET then t ← ConvertDatetimeOffset bytes s; Ok (store_timestamp t)
  else Exn (InvalidInput "codec::datetime::DecodeFromTds: unexpected TDS type").
End DateTime.
End datetime.
