(* ===== verification/CodecsSpec.v ===== *)
(** * What a value becomes (theorems about [Codecs])

    The contract of the write side, family by family: which number, instant or
    text the bytes stand for, judged by the decoders of the read side, and when a
    value is refused. *)

From S2P Require Import Prelude TdsTypes Utf16 ColumnMetadata Values Encoding Codecs.

(** ** Reading the vector *)

(** [v] holds [c] at [row]. *)
Definition holds_cell (v : Vector) (row : nat) (c : cell) : Prop :=
  data (ToUnifiedFormat v) (get_index (ToUnifiedFormat v) row) = c /\ value_ok (InternalType (GetType v)) c.

Lemma FormatWord_cell `{DuckDB} v row z T : holds_cell v row (Word z) -> InternalType (GetType v) = T -> FormatWord T v row = Ok z.
Proof. intros [E _] <-. unfold FormatWord, FormatValue. by rewrite StorageTypeCompatible_refl, E. Qed.

Lemma FormatStr_cell `{DuckDB} v row s : holds_cell v row (Str s) -> FormatStr v row = Ok s.
Proof.
  intros [E Hv]. cbn [value_ok] in Hv. unfold FormatStr, FormatValue. rewrite (proj1 Hv), StorageTypeCompatible_refl, E. done.
Qed.

(** ** Integers *)

(** The numbers a column of an integer type takes, and its width on the wire. *)
Definition integer_target (d : LogicalTypeId) : option (Z * Z * nat) :=
  match d with
  | UTINYINT => Some (0, 255, 1%nat)
  | TINYINT | SMALLINT => Some (-32768, 32767, 2%nat)
  | INTEGER => Some (-2147483648, 2147483647, 4%nat)
  | BIGINT => Some (-9223372036854775808, 9223372036854775807, 8%nat)
  | _ => None
  end.

Definition integer_source (p : PhysicalType) : bool :=
  bool_decide (p ∈ [PhysicalType.INT8; PhysicalType.UINT8; PhysicalType.INT16; PhysicalType.UINT16; PhysicalType.INT32; PhysicalType.UINT32;
       PhysicalType.INT64; PhysicalType.UINT64; PhysicalType.INT128]).

Lemma ReadSourceInteger_cell `{DuckDB} v row z : holds_cell v row (Word z) -> integer_source (InternalType (GetType v)) = true ->
  integer.ReadSourceInteger v row = Ok z.
Proof.
  intros Hc Hs. unfold integer.ReadSourceInteger. destruct (InternalType (GetType v)) eqn:E; first [discriminate Hs|by apply FormatWord_cell].
Qed.

Lemma narrow_cell `{DuckDB} src lo hi append v row z : holds_cell v row (Word z) -> integer_source (InternalType (GetType v)) = true ->
  (forall z, value_ok src (Word z) -> lo <= z <= hi) ->
  integer.narrow src lo hi append v row =
    if (lo <=? z) && (z <=? hi) then Ok (append z) else Exn (InvalidInput "integer value is out of range for the target column").
Proof.
  intros Hc Hs Hr. unfold integer.narrow. destruct (decide _) as [E|E].
  - rewrite (FormatWord_cell v row z src) by done. cbn [mbind res_bind]. pose proof (Hr z) as Hz. rewrite <- E in Hz.
    destruct Hc as [_ Hc]. specialize (Hz Hc). by rewrite (proj2 (Z.leb_le lo z)), (proj2 (Z.leb_le z hi)) by lia.
  - rewrite (ReadSourceInteger_cell v row z) by done. cbn [mbind res_bind]. unfold integer.NarrowSourceInteger.
    destruct (Z.ltb_spec hi z), (Z.ltb_spec z lo), (Z.leb_spec lo z), (Z.leb_spec z hi); try lia; done.
Qed.

Lemma decode_integer n z : n = 1%nat /\ 0 <= z < 256 \/ (n = 2%nat \/ n = 4%nat \/ n = 8%nat) /\ - 2 ^ (8 * Z.of_nat n - 1) <= z < 2 ^ (8 * Z.of_nat n - 1) ->
  exists p, integer.DecodeFromTds (le n z) = Ok (Store p (Word z)).
Proof.
  assert (Hl : forall m, load (le m z) 0 (Z.of_nat m) = Ok (z mod 256 ^ Z.of_nat m)).
  { intros m. pose proof (load_le [] m z [] 0 eq_refl) as E. by rewrite app_nil_r in E. }
  assert (Hx : forall m, 0 < 8 * Z.of_nat m -> - 2 ^ (8 * Z.of_nat m - 1) <= z < 2 ^ (8 * Z.of_nat m - 1) -> sx (8 * Z.of_nat m) (z mod 256 ^ Z.of_nat m) = z).
  { intros m Hm Hz. replace (256 ^ Z.of_nat m) with (2 ^ (8 * Z.of_nat m)) by (rewrite Z.pow_mul_r by lia; done).
    change (z mod 2 ^ (8 * Z.of_nat m)) with (ux (8 * Z.of_nat m) z). rewrite sx_ux by lia. by apply sx_small. }
  unfold integer.DecodeFromTds. rewrite zlen_le.
  intros [[-> Hz]|[[->|[->| ->]] Hz]]; cbn [Z.of_nat Pos.of_succ_nat Pos.succ Z.eqb Pos.eqb].
  - exists PhysicalType.UINT8. cbn [le]. rewrite get8_0. cbn [mbind res_bind]. rewrite b2z_byte_0. do 3 f_equal. zlia.
  - eexists. rewrite (Hl 2%nat : load _ 0 2 = _). cbn [mbind res_bind]. by rewrite (Hx 2%nat : _ -> _ -> sx 16 _ = _) by (done || lia).
  - eexists. rewrite (Hl 4%nat : load _ 0 4 = _). cbn [mbind res_bind]. by rewrite (Hx 4%nat : _ -> _ -> sx 32 _ = _) by (done || lia).
  - eexists. rewrite (Hl 8%nat : load _ 0 8 = _). cbn [mbind res_bind]. by rewrite (Hx 8%nat : _ -> _ -> sx 64 _ = _) by (done || lia).
Qed.

(** C35. An integer of any width in a column of any integer type: it is written
    in the column's width and read back as the same number exactly when the
    column's range has it, and refused with a message otherwise; a signed source
    never turns into another number in SQL Server's unsigned [tinyint]. *)
Theorem Integer_column `{Hugeint} `{DuckDB} (v : Vector) (row : nat) (col : BCPColumnMetadata) (z lo hi : Z) (n : nat)
  (Hc : holds_cell v row (Word z)) (Hs : integer_source (InternalType (GetType v)) = true)
  (Ht : integer_target (id (duckdb_type col)) = Some (lo, hi, n)) :
  (lo <= z <= hi -> integer.EncodeToBcp v row col = Ok (z2b (Z.of_nat n) :: le n z) /\
                    exists p, integer.DecodeFromTds (le n z) = Ok (Store p (Word z))) /\
  (~ lo <= z <= hi -> exists m, integer.EncodeToBcp v row col = Exn (InvalidInput m)).
Proof.
  assert (E : integer.EncodeToBcp v row col = if (lo <=? z) && (z <=? hi) then Ok (z2b (Z.of_nat n) :: le n z)
                else Exn (InvalidInput "integer value is out of range for the target column")).
  { unfold integer.EncodeToBcp. destruct (id (duckdb_type col)); try discriminate; injection Ht as <- <- <-;
      rewrite (narrow_cell _ _ _ _ _ _ z) by (try done; intros x; cbn [value_ok]; lia); try done.
    destruct ((0 <=? z) && (z <=? 255)); [|done]. unfold integer.AppendUInt8Bcp. cbn [le].
    do 3 f_equal. apply b2z_inj. by rewrite b2z_byte_0, b2z_z2b. }
  rewrite E. split.
  - intros Hz. rewrite (proj2 (Z.leb_le lo z)), (proj2 (Z.leb_le z hi)) by lia. split; [done|]. apply decode_integer.
    destruct (id (duckdb_type col)); try discriminate; injection Ht as <- <- <-; [right|left|right..]; (split; [auto|]);
      [change (2 ^ (8 * Z.of_nat 2 - 1)) with 32768|idtac|change (2 ^ (8 * Z.of_nat 2 - 1)) with 32768|
       change (2 ^ (8 * Z.of_nat 4 - 1)) with 2147483648|change (2 ^ (8 * Z.of_nat 8 - 1)) with 9223372036854775808]; lia.
  - intros Hz. destruct (Z.leb_spec lo z), (Z.leb_spec z hi); try lia; by eexists.
Qed.

(** ** Decimals *)

(** [m] is the number [v] moved by [shift] decimal places: exactly if that needs
    no rounding, otherwise to the nearest, a half away from zero. *)
Definition rescaled (v shift m : Z) : Prop :=
  if 0 <=? shift then m = v * 10 ^ shift
  else 2 * Z.abs (m * 10 ^ (- shift) - v) <= 10 ^ (- shift) /\
       (2 * Z.abs (m * 10 ^ (- shift) - v) = 10 ^ (- shift) -> Z.abs v < Z.abs (m * 10 ^ (- shift))).

Lemma rescaled_unique v shift m m' : rescaled v shift m -> rescaled v shift m' -> m = m'.
Proof.
  unfold rescaled. destruct (Z.leb_spec 0 shift) as [Hs|Hs]; [by intros -> ->|].
  assert (0 < 10 ^ (- shift)) by (apply Z.pow_pos_nonneg; lia). set (k := 10 ^ (- shift)) in *. intros [H1 H2] [H3 H4].
  destruct (Z.lt_trichotomy m m') as [Hc|[->|Hc]]; [exfalso|done|exfalso].
  - assert (m * k + k <= m' * k) by nia. assert (m * k + k = m' * k) by lia. assert (m < 0) by nia. assert (0 < m') by nia. nia.
  - assert (m' * k + k <= m * k) by nia. assert (m' * k + k = m * k) by lia. assert (m' < 0) by nia. assert (0 < m) by nia. nia.
Qed.

Lemma round_half_away v k : 0 < k -> k mod 2 = 0 ->
  let m := if k ÷ 2 <=? Z.abs (Z.rem v k) then (if v <? 0 then v ÷ k - 1 else v ÷ k + 1) else v ÷ k in
  2 * Z.abs (m * k - v) <= k /\ (2 * Z.abs (m * k - v) = k -> Z.abs v < Z.abs (m * k)).
Proof.
  intros Hk He. cbv zeta. assert (Eh : 2 * (k ÷ 2) = k) by zlia. pose proof (Z.quot_rem v k ltac:(lia)) as E. pose proof (Z.rem_bound_abs v k ltac:(lia)) as B.
  pose proof (Z.rem_nonneg v k) as P. pose proof (Z.rem_nonpos v k) as N.
  destruct (Z.leb_spec (k ÷ 2) (Z.abs (Z.rem v k))), (Z.ltb_spec v 0).
  - specialize (N ltac:(lia) ltac:(lia)). assert (v ÷ k <= 0) by nia. rewrite Z.mul_sub_distr_r. split; [lia|]. intros. nia.
  - specialize (P ltac:(lia) ltac:(lia)). assert (0 <= v ÷ k) by nia. rewrite Z.mul_add_distr_r. split; [lia|]. intros. nia.
  - split; [lia|]. lia.
  - split; [lia|]. lia.
Qed.

Lemma pow10_38 : 10 ^ 38 < 2 ^ 127.
Proof. vm_compute. done. Qed.

Lemma huge_38 x : Z.abs x <= 10 ^ 38 -> huge x.
Proof. pose proof pow10_38. unfold huge. lia. Qed.

Lemma RescaleMantissa_up `{Hugeint} v shift : 0 < shift <= 38 ->
  decimal.RescaleMantissa v shift = Ok (v * 10 ^ shift) \/
  10 ^ 38 < Z.abs (v * 10 ^ shift) /\ exists msg, decimal.RescaleMantissa v shift = Exn (InvalidInput msg).
Proof.
  intros Hs. unfold decimal.RescaleMantissa, POWERS_OF_TEN. pose proof huge_38 as Hh.
  rewrite (proj2 (Z.eqb_neq shift 0)), (proj2 (Z.ltb_lt 0 shift)), (proj2 (Z.ltb_ge 38 shift)) by lia.
  assert (Hm : 10 ^ (38 - shift) * 10 ^ shift = 10 ^ 38) by (rewrite <- Z.pow_add_r by lia; f_equal; lia).
  assert (Hps : 0 < 10 ^ shift) by (apply Z.pow_pos_nonneg; lia).
  assert (Hpl : 0 < 10 ^ (38 - shift)) by (apply Z.pow_pos_nonneg; lia).
  set (l := 10 ^ (38 - shift)) in *. set (k := 10 ^ shift) in *. set (M := 10 ^ 38) in *. clearbody M l k.
  destruct (Z.ltb_spec l v) as [Hl|Hl]; [right; split; [nia|by eexists]|].
  rewrite h_neg_exact by (apply Hh; nia). cbn [mbind res_bind orb].
  destruct (Z.ltb_spec v (- l)) as [Hl'|Hl']; [right; split; [nia|by eexists]|].
  left. apply h_mul_exact, Hh. nia.
Qed.

Lemma RescaleMantissa_down `{Hugeint} v shift : -38 <= shift < 0 ->
  exists m, rescaled v shift m /\ decimal.RescaleMantissa v shift = Ok m.
Proof.
  intros Hs. unfold decimal.RescaleMantissa, POWERS_OF_TEN.
  rewrite (proj2 (Z.eqb_neq shift 0)), (proj2 (Z.ltb_ge 0 shift)), (proj2 (Z.ltb_ge 38 (- shift))) by lia.
  assert (Hk : 0 < 10 ^ (- shift)) by (apply Z.pow_pos_nonneg; lia).
  assert (He : 10 ^ (- shift) mod 2 = 0).
  { replace (- shift) with (1 + (- shift - 1)) by lia. rewrite Z.pow_add_r by lia. change (10 ^ 1) with (2 * 5).
    rewrite <- Z.mul_assoc, Z.mul_comm. apply Z.mod_mul. lia. }
  assert (Hb : Z.abs (Z.rem v (10 ^ (- shift))) <= 10 ^ 38).
  { pose proof (Z.rem_bound_abs v (10 ^ (- shift)) ltac:(lia)). assert (10 ^ (- shift) <= 10 ^ 38) by (apply Z.pow_le_mono_r; lia). lia. }
  assert (E : (if Z.rem v (10 ^ (- shift)) <? 0 then h_neg (Z.rem v (10 ^ (- shift))) else Ok (Z.rem v (10 ^ (- shift))))
              = Ok (Z.abs (Z.rem v (10 ^ (- shift))))).
  { destruct (Z.ltb_spec (Z.rem v (10 ^ (- shift))) 0); [|f_equal; lia]. rewrite h_neg_exact by (apply huge_38; lia). f_equal. lia. }
  cbv zeta. rewrite E. cbn [mbind res_bind]. rewrite <- Z.leb_antisym.
  exists (if 10 ^ (- shift) ÷ 2 <=? Z.abs (Z.rem v (10 ^ (- shift)))
          then (if v <? 0 then v ÷ 10 ^ (- shift) - 1 else v ÷ 10 ^ (- shift) + 1) else v ÷ 10 ^ (- shift)).
  split; [|by destruct (_ <=? _), (v <? 0)].
  unfold rescaled. rewrite (proj2 (Z.leb_gt 0 shift)) by lia. apply (round_half_away v (10 ^ (- shift)) Hk He).
Qed.

(** Rescaling is exact or rounds, and refuses only what fits no decimal. *)
Lemma RescaleMantissa_spec `{Hugeint} v shift : -38 <= shift <= 38 ->
  exists m, rescaled v shift m /\
    (decimal.RescaleMantissa v shift = Ok m \/
     10 ^ 38 < Z.abs m /\ exists msg, decimal.RescaleMantissa v shift = Exn (InvalidInput msg)).
Proof.
  intros Hs. destruct (Z.lt_trichotomy shift 0) as [Hc|[->|Hc]].
  - destruct (RescaleMantissa_down v shift) as (m & Hm & E); [lia|]. exists m. auto.
  - exists v. split; [unfold rescaled; rewrite Z.leb_refl; lia|]. by left.
  - exists (v * 10 ^ shift). split; [unfold rescaled; by rewrite (proj2 (Z.leb_le 0 shift)) by lia|].
    apply RescaleMantissa_up. lia.
Qed.

Definition decimal_source (t : LogicalType) : Prop :=
  type_ok t /\ (id t = DECIMAL \/ id t = HUGEINT \/ id t = UBIGINT).

Lemma WidenVectorToHugeint_cell `{DuckDB} v row z : holds_cell v row (Word z) -> decimal_source (GetType v) ->
  decimal.WidenVectorToHugeint v row = Ok z.
Proof.
  intros Hc [[Hi _] Hd]. unfold decimal.WidenVectorToHugeint. unfold storage in Hi.
  destruct Hd as [Hd|[Hd|Hd]]; rewrite Hd in Hi; [destruct (decimal_width (GetType v) <=? 4), (decimal_width (GetType v) <=? 9), (decimal_width (GetType v) <=? 18)|..];
    rewrite Hi; by apply FormatWord_cell.
Qed.

Lemma SourceScale_range t : decimal_source t -> 0 <= decimal.SourceScale t <= 38.
Proof. intros [[_ Hd] _]. unfold decimal.SourceScale. case_bool_decide as E; [|lia]. specialize (Hd E). lia. Qed.

(** C25. A decimal (or HUGEINT, or UBIGINT) in a DECIMAL(p, s) column is written
    as the number moved to the column's scale (exactly, or rounded half away from
    zero when the column has fewer decimals), and read back as that number;
    it is refused with a message exactly when that number has more than p
    digits. *)
Theorem Decimal_column `{Hugeint} `{DuckDB} (v : Vector) (row : nat) (col : BCPColumnMetadata) (z m : Z) (r : bytes)
  (Hc : holds_cell v row (Word z)) (Hs : decimal_source (GetType v))
  (Hp : 1 <= precision col <= 38) (Hsc : 0 <= scale col <= precision col)
  (Hm : rescaled z (scale col - decimal.SourceScale (GetType v)) m) :
  (Z.abs m < 10 ^ precision col ->
     exists payload, decimal.EncodeToBcp v row col = Ok (z2b (zlen payload) :: payload) /\
       zlen payload = GetDecimalByteSize (precision col) /\ ConvertDecimal (payload ++ r) (zlen payload) = Ok m) /\
  (10 ^ precision col <= Z.abs m -> exists msg, decimal.EncodeToBcp v row col = Exn (InvalidInput msg)).
Proof.
  unfold decimal.EncodeToBcp, decimal.ScatterToBcp. rewrite (WidenVectorToHugeint_cell v row z) by done. cbn [mbind res_bind].
  pose proof (SourceScale_range _ Hs) as Hr.
  destruct (RescaleMantissa_spec z (scale col - decimal.SourceScale (GetType v))) as (m' & Hm' & Hcase); [lia|].
  rewrite (rescaled_unique _ _ _ _ Hm Hm') in *. clear m Hm. rename m' into m.
  assert (Hpow : 10 ^ precision col <= 10 ^ 38) by (apply Z.pow_le_mono_r; lia).
  destruct Hcase as [E|[Hbig [msg E]]]; rewrite E; cbn [mbind res_bind]; [|split; [lia|intros _; by exists msg]].
  unfold decimal.CheckMantissaFitsPrecision, POWERS_OF_TEN.
  rewrite (proj2 (Z.eqb_neq (precision col) 0)), (proj2 (Z.ltb_ge 38 (precision col))) by lia. cbn [orb].
  assert (Hpos : 0 < 10 ^ precision col) by (apply Z.pow_pos_nonneg; lia).
  rewrite h_neg_exact by (apply huge_38; lia). cbn [mbind res_bind]. split; intros Hfit.
  - rewrite (proj2 (Z.ltb_ge _ m)), (proj2 (Z.ltb_ge m _)) by lia. cbn [mbind res_bind orb].
    destruct (decimal_payload_back (precision col) m r Hp Hfit) as (payload & Ep & Hl & Hback).
    exists payload. rewrite Ep. cbn [mbind res_bind]. by rewrite <- Hl.
  - destruct (Z.ltb_spec (10 ^ precision col - 1) m), (Z.ltb_spec m (- (10 ^ precision col - 1))); try lia; by eexists.
Qed.

(** ** Timestamps *)

Lemma split_days_floor raw d : 0 < d -> -9223372036854775808 <= raw - d + 1 -> raw < 9223372036854775808 ->
  datetime.split_days raw d = Ok (raw / d, raw mod d).
Proof.
  intros Hd Hlo Hhi. unfold datetime.split_days. destruct (Z.leb_spec 0 raw).
  - by rewrite Z.quot_div_nonneg, Z.rem_mod_nonneg by lia.
  - rewrite int64_ok by lia. cbn [mbind res_bind].
    assert (Hq : (raw - d + 1) ÷ d = raw / d).
    { replace (raw - d + 1) with (- (d - 1 - raw)) by lia. rewrite Z.quot_opp_l, Z.quot_div_nonneg by lia.
      pose proof (Z.div_mod raw d ltac:(lia)) as E. pose proof (Z.mod_pos_bound raw d ltac:(lia)).
      assert (d - 1 - raw = d * (- (raw / d)) + (d - 1 - raw mod d)) as -> by lia.
      rewrite Z.mul_comm, Z.div_add_l by lia. rewrite (Z.div_small (d - 1 - raw mod d)) by lia. lia. }
    rewrite Hq. f_equal. f_equal. pose proof (Z.div_mod raw d ltac:(lia)). lia.
Qed.

(** Ticks of a timestamp in a second. *)
Definition unit_of (d : LogicalTypeId) : option Z :=
  match d with
  | TIMESTAMP_SEC => Some 1
  | TIMESTAMP_MS => Some 1000
  | TIMESTAMP | TIMESTAMP_TZ => Some 1000000
  | TIMESTAMP_NS => Some 1000000000
  | _ => None
  end.

Lemma unit_cases d u : unit_of d = Some u ->
  datetime.TicksPerSecondFor d = Ok u /\ (u = 1 \/ u = 1000 \/ u = 1000000 \/ u = 1000000000).
Proof. destruct d; try discriminate; intros [= <-]; auto. Qed.

Lemma Pow10_scale s : 0 <= s <= 7 -> datetime.Pow10 s = Ok (10 ^ s).
Proof.
  intros Hs. unfold datetime.Pow10. rewrite Pow10_pow, Z2Nat.id by lia. apply int64_ok.
  assert (10 ^ s <= 10 ^ 7) by (apply Z.pow_le_mono_r; lia). assert (0 < 10 ^ s) by (apply Z.pow_pos_nonneg; lia). lia.
Qed.

(** The ticks of the column since 0001-01-01 nearest to an instant [raw], which
    is counted in [u] ticks a second since 1970: [n] of [t] a second. *)
Definition nearest_instant (raw u t n : Z) : Prop :=
  - u < 2 * (n * u - (raw + DAYS_FROM_0001_TO_EPOCH * 86400 * u) * t) <= u.

Lemma units_divide u s : (u = 1 \/ u = 1000 \/ u = 1000000 \/ u = 1000000000) -> 0 <= s <= 7 ->
  if u <=? 10 ^ s then exists f, 0 < f <= 10000000 /\ 10 ^ s = u * f /\ 10 ^ s ÷ u = f
  else exists f, 0 < f /\ u = 10 ^ s * f /\ u ÷ 10 ^ s = f /\ 2 * (f ÷ 2) = f.
Proof.
  intros Hu Hs. destruct (Z.leb_spec u (10 ^ s)); [exists (10 ^ s ÷ u)|exists (u ÷ 10 ^ s)]; revert H;
    destruct (scale_cases s Hs) as [-> | [-> | [-> | [-> | [-> | [-> | [-> | ->]]]]]]];
    destruct Hu as [-> | [-> | [-> | ->]]]; intros H; split_and!;
    first [by vm_compute in H|vm_compute; reflexivity|vm_compute; discriminate].
Qed.

Lemma ComputeDatetime2Components_nearest raw d u s : unit_of d = Some u -> 0 <= s <= 7 ->
  -9223372036854775808 <= raw - 86400 * u + 1 -> raw < 9223372036854775808 ->
  - DAYS_FROM_0001_TO_EPOCH * 86400 * u <= raw < (16777215 - DAYS_FROM_0001_TO_EPOCH) * 86400 * u ->
  exists time date, datetime.ComputeDatetime2Components raw d s = Ok (time, date) /\
    0 <= time < 86400 * 10 ^ s /\ 0 <= date < 16777216 /\ nearest_instant raw u (10 ^ s) (date * 86400 * 10 ^ s + time).
Proof.
  intros Hd Hs Hlo Hhi Hr. destruct (unit_cases d u Hd) as [E Hu]. unfold datetime.ComputeDatetime2Components.
  rewrite E. cbn [mbind res_bind]. change SECONDS_PER_DAY with 86400. unfold DAYS_FROM_0001_TO_EPOCH in *.
  rewrite (Z.mul_comm u). rewrite split_days_floor by lia. cbn [mbind res_bind]. rewrite Pow10_scale by done. cbn [mbind res_bind].
  pose proof (Z.div_mod raw (86400 * u) ltac:(lia)) as Er. pose proof (Z.mod_pos_bound raw (86400 * u) ltac:(lia)) as Br.
  set (days := raw / (86400 * u)) in *. set (sub := raw mod (86400 * u)) in *.
  assert (Hdays : -719162 <= days < 16777215 - 719162) by (clear Hs; destruct Hu as [-> | [-> | [-> | ->]]]; lia).
  assert (Hdate : ux 32 (days + 719162) = days + 719162).
  { unfold ux. change (2 ^ 32) with 4294967296. apply Z.mod_small. lia. }
  rewrite Hdate. assert (Ht : 0 < 10 ^ s <= 10000000).
  { split; [apply Z.pow_pos_nonneg; lia|]. apply (Z.pow_le_mono_r 10 s 7); lia. }
  pose proof (units_divide u s Hu Hs) as Hf. unfold nearest_instant, DAYS_FROM_0001_TO_EPOCH.
  destruct (Z.leb_spec u (10 ^ s)) as [Hc|Hc].
  - destruct Hf as (f & Hf & Et & Eq). rewrite Eq. set (t := 10 ^ s) in *. clearbody t days sub.
    assert (Hb : sub * f < 86400 * t) by (rewrite Et; nia). rewrite int64_ok by nia. cbn [mbind res_bind].
    assert (Hux : ux 64 (sub * f) = sub * f) by (unfold ux; apply Z.mod_small; change (2 ^ 64) with 18446744073709551616; nia).
    rewrite Hux. do 2 eexists. split; [done|]. split_and!; [nia|done|lia|lia| |].
    + replace (((days + 719162) * 86400 * t + sub * f) * u - (raw + 719162 * 86400 * u) * t) with 0; [lia|]. rewrite Er, Et. ring.
    + replace (((days + 719162) * 86400 * t + sub * f) * u - (raw + 719162 * 86400 * u) * t) with 0; [lia|]. rewrite Er, Et. ring.
  - destruct Hf as (f & Hf & Et & Eq & Eh). rewrite Eq. set (t := 10 ^ s) in *. clearbody t days sub.
    rewrite Z.quot_div_nonneg by lia.
    pose proof (Z.div_mod (sub + f ÷ 2) f ltac:(lia)) as Es. pose proof (Z.mod_pos_bound (sub + f ÷ 2) f ltac:(lia)) as Bs.
    set (sc := (sub + f ÷ 2) / f) in *. set (h := f ÷ 2) in *. clearbody sc h.
    assert (Hsc : 0 <= sc <= 86400 * t) by nia.
    assert (Hn : ((days + 719162) * 86400 * t + sc) * u - (raw + 719162 * 86400 * u) * t = t * (sc * f - sub)) by (rewrite Er, Et; ring).
    assert (Hnear : - u < 2 * (((days + 719162) * 86400 * t + sc) * u - (raw + 719162 * 86400 * u) * t) <= u) by (rewrite Hn, Et; nia).
    rewrite (Z.mul_comm t). destruct (Z.leb_spec (86400 * t) sc) as [Hcar|Hcar].
    + assert (sc = 86400 * t) as -> by lia. exists 0, (days + 719162 + 1).
      assert (Hdate' : ux 32 (days + 719162 + 1) = days + 719162 + 1).
      { unfold ux. change (2 ^ 32) with 4294967296. apply Z.mod_small. lia. }
      rewrite Hdate'. split; [done|]. split; [lia|]. split; [lia|].
      by replace ((days + 719162 + 1) * 86400 * t + 0) with ((days + 719162) * 86400 * t + 86400 * t) by ring.
    + exists sc, (days + 719162).
      assert (Hux : ux 64 sc = sc) by (unfold ux; apply Z.mod_small; change (2 ^ 64) with 18446744073709551616; nia).
      rewrite Hux. split; [done|]. split; [lia|]. split; [lia|done].
Qed.

Lemma time_fits s : 0 <= s <= 7 -> 86400 * 10 ^ s <= 256 ^ GetTimeByteSize s.
Proof. intros Hs. destruct (scale_cases s Hs) as [-> | [-> | [-> | [-> | [-> | [-> | [-> | ->]]]]]]]; vm_compute; discriminate. Qed.

Lemma GetTimeByteSize_range s : 3 <= GetTimeByteSize s <= 5.
Proof. unfold GetTimeByteSize. repeat case_match; lia. Qed.

(** The payload of a [datetime2]. *)
Definition datetime2_payload (time date s : Z) : bytes := le (Z.to_nat (GetTimeByteSize s)) time ++ le 3 date.

Lemma zlen_datetime2 time date s : zlen (datetime2_payload time date s) = GetTimeByteSize s + 3.
Proof. unfold datetime2_payload. rewrite zlen_app, !zlen_le. pose proof (GetTimeByteSize_range s). lia. Qed.

Lemma datetime2_back time date s d u r : unit_of d = Some u -> 0 <= s <= 7 ->
  0 <= time < 86400 * 10 ^ s -> 0 <= date < 16777216 ->
  -9223372036854775808 <= (date - 719162) * (86400 * u) -> (date - 719162 + 1) * (86400 * u) <= 9223372036854775808 ->
  datetime.Datetime2WireToNativeUnit (datetime2_payload time date s ++ r) (datetime.Datetime2TimeByteLen s) s d =
    Ok (Some ((date - 719162) * (86400 * u) + (if 10 ^ s <=? u then time * (u ÷ 10 ^ s) else time ÷ (10 ^ s ÷ u)))).
Proof.
  intros Hd Hs Ht Hda Hlo Hhi. destruct (unit_cases d u Hd) as [E Hu]. unfold datetime.Datetime2WireToNativeUnit, datetime2_payload.
  change (datetime.Datetime2TimeByteLen s) with (GetTimeByteSize s). pose proof (GetTimeByteSize_range s) as Hg.
  rewrite <- app_assoc, (or_bytes_le [] _ _ _ 0 eq_refl : or_bytes (le _ _ ++ _) 0 _ 0 0 = _). cbn [mbind res_bind].
  rewrite load_date_le by (rewrite zlen_le; lia). cbn [mbind res_bind]. rewrite Pow10_scale, E by done. cbn [mbind res_bind].
  rewrite (Z.mod_small date) by done. rewrite Z2Nat.id by lia. pose proof (time_fits s Hs) as Hf. rewrite (Z.mod_small time) by lia.
  unfold DAYS_FROM_0001_TO_EPOCH. change SECONDS_PER_DAY with 86400.
  assert (Hpos : 0 < 10 ^ s) by (apply Z.pow_pos_nonneg; lia).
  set (sub := if 10 ^ s <=? u then time * (u ÷ 10 ^ s) else time ÷ (10 ^ s ÷ u)).
  assert (Hsub : 0 <= sub < 86400 * u).
  { subst sub. pose proof (units_divide u s Hu Hs) as Hx. set (t := 10 ^ s) in *. clearbody t.
    destruct (Z.leb_spec t u), (Z.leb_spec u t); try lia.
    - assert (u = t) as -> by lia. rewrite Z.quot_same by lia. lia.
    - destruct Hx as (f & Hf1 & Et & Eq & _). rewrite Eq. rewrite Et in *. nia.
    - destruct Hx as (f & Hf1 & Et & Eq). rewrite Eq. rewrite Z.quot_div_nonneg by lia.
      split; [apply Z.div_pos; lia|]. apply Z.div_lt_upper_bound; nia. }
  assert (Es : (if 10 ^ s <=? u then int64 (time * (u ÷ 10 ^ s)) else Ok (time ÷ (10 ^ s ÷ u))) = Ok sub).
  { subst sub. destruct (10 ^ s <=? u); [|done]. apply int64_ok. lia. }
  rewrite Es. cbn [mbind res_bind]. clearbody sub.
  assert (Hb : (9223372036854775807 ÷ (86400 * u) <? date - 719162) || (date - 719162 <? -9223372036854775808 ÷ (86400 * u)) = false).
  { apply orb_false_iff. split; apply Z.ltb_ge.
    - rewrite Z.quot_div_nonneg by lia. apply Z.div_le_lower_bound; lia.
    - change (-9223372036854775808) with (- (9223372036854775808)). rewrite Z.quot_opp_l, Z.quot_div_nonneg by lia.
      pose proof (Z.mul_div_le 9223372036854775808 (86400 * u) ltac:(lia)).
      pose proof (Z.mul_succ_div_gt 9223372036854775808 (86400 * u) ltac:(lia)). set (q := 9223372036854775808 / (86400 * u)) in *. nia. }
  rewrite Hb. rewrite int64_ok by lia. cbn [mbind res_bind].
  rewrite (proj2 (Z.ltb_ge _ _)) by lia. done.
Qed.

Lemma datetime_target d : d ∈ [TIMESTAMP; TIMESTAMP_MS; TIMESTAMP_NS; TIMESTAMP_SEC] ->
  d = TIMESTAMP \/ d = TIMESTAMP_MS \/ d = TIMESTAMP_NS \/ d = TIMESTAMP_SEC.
Proof. rewrite !elem_of_cons, elem_of_nil. tauto. Qed.

(** C29. A timestamp of any unit in a datetime2(s) column: what is written is a
    legal time of a legal day, the column's tick nearest to the instant (the
    later of two), with the carry into the date at midnight; it is read back as
    the same timestamp when the column is at least as fine as the type, and
    otherwise at most half a tick away. *)
Theorem Timestamp_column `{DuckDB} (v : Vector) (row : nat) (col : BCPColumnMetadata) (z u : Z) (r : bytes)
  (Hc : holds_cell v row (Word z)) (Hi : InternalType (GetType v) = PhysicalType.INT64) (Hu : unit_of (id (GetType v)) = Some u)
  (Ht : id (duckdb_type col) ∈ [TIMESTAMP; TIMESTAMP_MS; TIMESTAMP_NS; TIMESTAMP_SEC]) (Hs : 0 <= scale col <= 7)
  (Hlo : -9223372036854775808 <= z - 86400 * u + 1) (Hhi : z + 86400 * u < 9223372036854775808)
  (Hr : - DAYS_FROM_0001_TO_EPOCH * 86400 * u <= z < (16777215 - DAYS_FROM_0001_TO_EPOCH) * 86400 * u) :
  exists time date z', let p := datetime2_payload time date (scale col) in
    datetime.EncodeToBcp v row col = Ok (z2b (zlen p) :: p) /\
    0 <= time < 86400 * 10 ^ scale col /\ 0 <= date < 16777216 /\
    nearest_instant z u (10 ^ scale col) (date * 86400 * 10 ^ scale col + time) /\
    datetime.Datetime2WireToNativeUnit (p ++ r) (datetime.Datetime2TimeByteLen (scale col)) (scale col) (id (GetType v)) = Ok (Some z') /\
    (if u <=? 10 ^ scale col then z' = z else 2 * Z.abs (z' - z) * 10 ^ scale col <= u).
Proof.
  destruct (ComputeDatetime2Components_nearest z _ u (scale col) Hu Hs Hlo ltac:(lia) Hr) as (time & date & E & Htime & Hdate & Hn).
  destruct (unit_cases _ u Hu) as [_ Hucases].
  exists time, date, ((date - 719162) * (86400 * u) + (if 10 ^ scale col <=? u then time * (u ÷ 10 ^ scale col) else time ÷ (10 ^ scale col ÷ u))).
  cbv zeta. split; [|split; [done|split; [done|split; [done|]]]].
  { assert (Es : bool_decide (id (GetType v) = DATE) = false).
    { apply bool_decide_eq_false_2. intros Ed. rewrite Ed in Hu. discriminate. }
    unfold datetime.EncodeToBcp. destruct (datetime_target _ Ht) as [-> | [-> | [-> | ->]]];
      rewrite Es, (FormatWord_cell v row z) by done; cbn [mbind res_bind]; rewrite E; cbn [mbind res_bind];
      unfold EncodeDatetime2Raw; rewrite zlen_datetime2; done. }
  pose proof (units_divide u (scale col) Hucases Hs) as Hf. unfold nearest_instant, DAYS_FROM_0001_TO_EPOCH in *.
  assert (Hpos : 0 < 10 ^ scale col) by (apply Z.pow_pos_nonneg; lia).
  assert (Hb : z - 86400 * u + 1 <= (date - 719162) * (86400 * u) <= z + u).
  { set (t := 10 ^ scale col) in *. clearbody t. split.
    - assert ((date * 86400 * t + time) * u < (date + 1) * 86400 * t * u) by nia.
      assert (2 * (z + 719162 * 86400 * u) * t < 2 * ((date + 1) * 86400 * t * u) + u) by nia. nia.
    - nia. }
  rewrite (datetime2_back time date (scale col) _ u r Hu Hs Htime Hdate) by nia. split; [done|].
  set (t := 10 ^ scale col) in *. clearbody t.
  destruct (Z.leb_spec u t) as [Hc1|Hc1].
  - destruct Hf as (f & Hf1 & Et & Eq). rewrite Eq.
    assert (Hx : (date * 86400 * t + time) * u = (z + 719162 * 86400 * u) * t) by nia.
    assert (Htm : time = (z - (date - 719162) * (86400 * u)) * f) by (subst t; nia).
    destruct (Z.leb_spec t u) as [Hc2|Hc2].
    + assert (u = t) by lia. assert (f = 1) by nia. subst f. rewrite H0, Z.quot_same by lia. lia.
    + rewrite Htm, Z.quot_mul by lia. lia.
  - destruct Hf as (f & Hf1 & Et & Eq & _). rewrite (proj2 (Z.leb_le t u)), Eq by lia. subst u. nia.
Qed.

(** ** Text *)

Section TextSizes.
Context {S : Simdutf} {Spec : SimdutfSpec S}.

Lemma ByteLengthView_encode cps : Forall scalar cps ->
  Utf16LEByteLengthView (utf8_encode cps) = (2 * zlen (utf16_encode cps), true).
Proof.
  intros Hc. pose proof (utf8_encode_nil cps) as Hn. unfold Utf16LEByteLengthView. destruct (utf8_encode cps) as [|b s] eqn:E.
  - by rewrite Hn by done.
  - rewrite <- E. rewrite validate_utf8_encode, utf16_length_spec by done. cbn [negb]. f_equal. lia.
Qed.

Lemma EncodeValidDirect_encode cps : Forall scalar cps ->
  Utf16LEEncodeValidDirect (utf8_encode cps) = units_bytes (utf16_encode cps).
Proof.
  intros Hc. pose proof (utf8_encode_nil cps) as Hn. unfold Utf16LEEncodeValidDirect. destruct (utf8_encode cps) as [|b s] eqn:E.
  - by rewrite Hn by done.
  - by rewrite <- E, convert_utf8_spec.
Qed.

Lemma units_bytes_nil us : units_bytes us = [] -> us = [].
Proof. intros E. apply zlen_0_nil. pose proof (zlen_units_bytes us) as Hz. rewrite E in Hz. change (zlen []) with 0 in Hz. lia. Qed.

Lemma DecodeFromTds_nvarchar cps col : Forall scalar cps -> type_id col = TDS_TYPE_NVARCHAR ->
  string.DecodeFromTds (units_bytes (utf16_encode cps)) col = Ok (Store PhysicalType.VARCHAR (Str (utf8_encode cps))).
Proof.
  intros Hc Ht. unfold string.DecodeFromTds. rewrite Ht. change (is_one_of TDS_TYPE_NVARCHAR _) with true.
  change ((TDS_TYPE_NVARCHAR =? TDS_TYPE_BIGCHAR) || (TDS_TYPE_NVARCHAR =? TDS_TYPE_NCHAR)) with false. cbv zeta iota.
  unfold Utf8LengthFromUtf16LEView, Utf16LEDecodeValidInto.
  destruct (units_bytes (utf16_encode cps)) as [|b s] eqn:E.
  - apply units_bytes_nil, utf16_encode_nil in E as ->. done.
  - rewrite <- E, bytes_units_bytes by by apply utf16_encode_units.
    assert (Hv : validate_utf16le (utf16_encode cps) = true) by (apply validate_utf16le_spec; by exists cps).
    rewrite Hv, utf8_length_spec, convert_utf16_spec by done. cbn [negb]. unfold fill. rewrite Z.leb_refl, Z.sub_diag. cbn [mbind res_bind].
    by rewrite app_nil_r.
Qed.
End TextSizes.

Lemma utf8_enc_lead c r : scalar c -> exists lead,
  get8 (utf8_enc c ++ r) 0 = Ok lead /\
  (if lead <? 0x80 then 1 else if lead <? 0xE0 then 2 else if lead <? 0xF0 then 3 else 4) = zlen (utf8_enc c) /\
  (if lead <? 0xF0 then 2 else 4) = 2 * zlen (utf16_enc c).
Proof.
  intros [Hc Hs]. unfold utf8_enc, utf16_enc.
  destruct (Z.ltb_spec c 0x80) as [H1|H1]; [|destruct (Z.ltb_spec c 0x800) as [H2|H2]; [|destruct (Z.ltb_spec c 0x10000) as [H3|H3]]];
    cbn [bs fmap list_fmap app]; rewrite get8_0, b2z_z2b_small by zlia; eexists; (split; [done|]).
  - rewrite (proj2 (Z.ltb_lt c 0x80)), (proj2 (Z.ltb_lt c 0xF0)), (proj2 (Z.ltb_lt c 0x10000)) by lia. done.
  - assert (0xC0 <= 0xC0 + c / 64 < 0xE0) by zlia.
    rewrite (proj2 (Z.ltb_ge (0xC0 + c / 64) 0x80)), (proj2 (Z.ltb_lt _ 0xE0)), (proj2 (Z.ltb_lt _ 0xF0)), (proj2 (Z.ltb_lt c 0x10000)) by lia. done.
  - assert (0xE0 <= 0xE0 + c / 4096 < 0xF0) by zlia.
    rewrite (proj2 (Z.ltb_ge (0xE0 + c / 4096) 0x80)), (proj2 (Z.ltb_ge _ 0xE0)), (proj2 (Z.ltb_lt _ 0xF0)) by lia. done.
  - assert (0xF0 <= 0xF0 + c / 262144 < 0xF5) by zlia.
    rewrite (proj2 (Z.ltb_ge (0xF0 + c / 262144) 0x80)), (proj2 (Z.ltb_ge _ 0xE0)), (proj2 (Z.ltb_ge _ 0xF0)) by lia. done.
Qed.

Lemma utf8_encode_app a b : utf8_encode (a ++ b) = utf8_encode a ++ utf8_encode b.
Proof. unfold utf8_encode. by rewrite fmap_app, concat_app. Qed.

(** [cps1] is as much of [cps] as [max] bytes hold, [size] bytes a character. *)
Definition longest_prefix (size : Z -> Z) (max : Z) (cps cps1 : list Z) : Prop :=
  exists cps2, cps = cps1 ++ cps2 /\ foldr (fun c n => size c + n) 0 cps1 <= max /\
    match cps2 with [] => True | c :: _ => max < foldr (fun c n => size c + n) 0 cps1 + size c end.

Definition size16 (c : Z) : Z := 2 * zlen (utf16_enc c).
Definition size8 (c : Z) : Z := zlen (utf8_enc c).

Lemma size16_sum cps : foldr (fun c n => size16 c + n) 0 cps = 2 * zlen (utf16_encode cps).
Proof.
  induction cps as [|c cps IH]; [done|]. cbn [foldr]. rewrite IH. change (c :: cps) with ([c] ++ cps).
  rewrite utf16_encode_app, zlen_app. unfold utf16_encode at 2, size16. cbn [fmap list_fmap concat]. rewrite app_nil_r. lia.
Qed.

Lemma size8_sum cps : foldr (fun c n => size8 c + n) 0 cps = zlen (utf8_encode cps).
Proof.
  induction cps as [|c cps IH]; [done|]. cbn [foldr]. rewrite IH. change (c :: cps) with ([c] ++ cps).
  rewrite utf8_encode_app, zlen_app. unfold utf8_encode at 2, size8. cbn [fmap list_fmap concat]. rewrite app_nil_r. lia.
Qed.

Lemma get8_app_at p data i : i = zlen p -> get8 (p ++ data) i = get8 data 0.
Proof. intros ->. replace (zlen p) with (zlen p + 0) by lia. by rewrite get8_app_r by lia. Qed.

Lemma prefix_loop_spec cps : forall fuel p max used, Forall scalar cps -> used <= max ->
  (length (utf8_encode cps) <= fuel)%nat ->
  exists cps1, longest_prefix size16 (max - used) cps cps1 /\
    string.prefix_loop fuel (p ++ utf8_encode cps) max (zlen p) used =
      Ok (zlen p + zlen (utf8_encode cps1), used + 2 * zlen (utf16_encode cps1)).
Proof.
  induction cps as [|c cps IH]; intros fuel p max used Hcps Hu Hf.
  - exists []. split; [exists []; split; [done|]; cbn [foldr]; lia|]. destruct fuel; cbn [string.prefix_loop];
      [|rewrite app_nil_r, Z.ltb_irrefl]; do 2 f_equal; change (zlen (utf8_encode [])) with 0; change (zlen (utf16_encode [])) with 0; lia.
  - apply Forall_cons in Hcps as [Hc Hcps]. destruct (utf8_enc_lead c (utf8_encode cps) Hc) as (lead & Hg & Hl8 & Hl16).
    assert (E : utf8_encode (c :: cps) = utf8_enc c ++ utf8_encode cps) by done.
    pose proof (zlen_utf8_enc c) as Hz. rewrite E, length_app in Hf. unfold zlen in Hz.
    destruct fuel as [|fuel]; [lia|]. cbn [string.prefix_loop]. rewrite E.
    rewrite (proj2 (Z.ltb_lt _ _)) by (rewrite !zlen_app; pose proof (zlen_nonneg (utf8_encode cps)); unfold zlen at 3; lia).
    rewrite get8_app_at by done. rewrite Hg. cbn [mbind res_bind]. rewrite Hl8, Hl16.
    destruct (Z.ltb_spec max (used + 2 * zlen (utf16_enc c))) as [Hm|Hm].
    + exists []. split; [exists (c :: cps); split; [done|]; cbn [foldr]; unfold size16; lia|].
      do 2 f_equal; change (zlen (utf8_encode [])) with 0; change (zlen (utf16_encode [])) with 0; lia.
    + rewrite app_assoc. destruct (IH fuel (p ++ utf8_enc c) max (used + 2 * zlen (utf16_enc c)) Hcps Hm) as (cps1 & (cps2 & E2 & H1 & H2) & Eq); [lia|].
      exists (c :: cps1). split.
      * exists cps2. split; [by rewrite E2|]. cbn [foldr]. unfold size16 in *. destruct cps2; lia.
      * rewrite zlen_app in Eq. rewrite Eq. do 2 f_equal.
        -- change (c :: cps1) with ([c] ++ cps1). rewrite utf8_encode_app, zlen_app. unfold utf8_encode at 2. cbn [fmap list_fmap concat]. rewrite app_nil_r. lia.
        -- change (c :: cps1) with ([c] ++ cps1). rewrite utf16_encode_app, zlen_app. unfold utf16_encode at 2. cbn [fmap list_fmap concat]. rewrite app_nil_r. lia.
Qed.

Lemma land_C0_cont : forall z, 0 <= z < 64 -> Z.land (0x80 + z) 0xC0 = 0x80.
Proof. apply (z_range_ind (fun z => Z.land (0x80 + z) 0xC0 = 0x80) 0 64). vm_compute. done. Qed.

Lemma land_C0_lead : forall z, 0 <= z < 256 -> ~ 0x80 <= z < 0xC0 -> Z.land z 0xC0 <> 0x80.
Proof.
  intros z Hz Hn. assert (forall z, 0 <= z < 256 -> 0x80 <= z < 0xC0 \/ Z.land z 0xC0 <> 0x80) as Hall.
  { apply (z_range_ind (fun z => 0x80 <= z < 0xC0 \/ Z.land z 0xC0 <> 0x80) 0 256). vm_compute. done. }
  destruct (Hall z Hz); [done|done].
Qed.

(** In a character, the first byte and only it is no continuation byte. *)
Lemma utf8_enc_bytes c j r : scalar c -> (j < length (utf8_enc c))%nat ->
  exists b, get8 (utf8_enc c ++ r) (Z.of_nat j) = Ok b /\ (Z.land b 0xC0 =? 0x80) = negb (j =? 0)%nat.
Proof.
  intros [Hc Hs] Hj. unfold utf8_enc in *.
  assert (Hcont : forall x, (Z.land (b2z (z2b (0x80 + x mod 64))) 0xC0 =? 0x80) = true).
  { intros x. rewrite b2z_z2b_small by zlia. apply Z.eqb_eq, land_C0_cont. zlia. }
  assert (Hlead : forall x, 0 <= x < 256 -> ~ 0x80 <= x < 0xC0 -> (Z.land (b2z (z2b x)) 0xC0 =? 0x80) = false).
  { intros x Hx Hn. rewrite b2z_z2b_small by lia. apply Z.eqb_neq. by apply land_C0_lead. }
  destruct (Z.ltb_spec c 0x80) as [H1|H1]; [|destruct (Z.ltb_spec c 0x800) as [H2|H2]; [|destruct (Z.ltb_spec c 0x10000) as [H3|H3]]];
    cbn [bs fmap list_fmap app length] in *;
    (destruct j as [|[|[|[|j]]]]; [..|lia]; try lia; eexists; (split; [by apply get8_lookup|]);
     first [apply Hcont|apply Hlead; zlia]).
Qed.

Lemma back_off_inside p c r j : scalar c -> (j < length (utf8_enc c))%nat ->
  string.back_off (p ++ utf8_enc c ++ r) (length p + j) = Ok (zlen p).
Proof.
  intros Hc. induction j as [|j IH]; intros Hj.
  - destruct (utf8_enc_bytes c 0 r Hc Hj) as (b & Hg & Hb). rewrite Nat.add_0_r.
    destruct (length p) as [|n] eqn:E; [cbn [string.back_off]; unfold zlen; by rewrite E|].
    cbn [string.back_off]. rewrite get8_app_at by (unfold zlen; lia). change (Z.of_nat 0) with 0 in Hg. rewrite Hg. cbn [mbind res_bind].
    rewrite Hb. cbn. unfold zlen. by rewrite E.
  - destruct (utf8_enc_bytes c (Datatypes.S j) r Hc Hj) as (b & Hg & Hb).
    replace (length p + Datatypes.S j)%nat with (Datatypes.S (length p + j)) by lia. cbn [string.back_off].
    replace (Z.of_nat (Datatypes.S (length p + j))) with (zlen p + Z.of_nat (Datatypes.S j)) by (unfold zlen; lia).
    rewrite get8_app_r by lia. rewrite Hg. cbn [mbind res_bind]. rewrite Hb. cbn [negb Nat.eqb]. apply IH. lia.
Qed.

Lemma back_off_spec cps : forall p n, Forall scalar cps -> (length p <= n < length (p ++ utf8_encode cps))%nat ->
  exists cps1, longest_prefix size8 (Z.of_nat n - zlen p) cps cps1 /\
    string.back_off (p ++ utf8_encode cps) n = Ok (zlen p + zlen (utf8_encode cps1)).
Proof.
  induction cps as [|c cps IH]; intros p n Hcps Hn.
  - rewrite app_nil_r in Hn. lia.
  - apply Forall_cons in Hcps as [Hc Hcps]. assert (E : utf8_encode (c :: cps) = utf8_enc c ++ utf8_encode cps) by done.
    destruct (Nat.lt_ge_cases n (length p + length (utf8_enc c))) as [Hin|Hout].
    + exists []. split.
      * exists (c :: cps). split; [done|]. cbn [foldr]. unfold size8, zlen. lia.
      * rewrite E. replace n with (length p + (n - length p))%nat by lia. rewrite back_off_inside by (done || lia).
        f_equal. change (zlen (utf8_encode [])) with 0. lia.
    + rewrite E, app_assoc in *. destruct (IH (p ++ utf8_enc c) n Hcps) as (cps1 & (cps2 & E2 & H1 & H2) & Eq); [rewrite !length_app in *; lia|].
      exists (c :: cps1). rewrite zlen_app in *. split.
      * exists cps2. split; [by rewrite E2|]. cbn [foldr]. unfold size8 in *. destruct cps2; lia.
      * rewrite Eq. f_equal. change (c :: cps1) with ([c] ++ cps1). rewrite utf8_encode_app, zlen_app. unfold utf8_encode at 2.
        cbn [fmap list_fmap concat]. rewrite app_nil_r. lia.
Qed.

(** The framing of a text or binary value: a 16-bit length, or one PLP chunk. *)
Definition plp (payload : bytes) : bytes :=
  string.WritePlpHeader ++
  (if zlen payload =? 0 then string.WriteLe32 0 else string.WriteLe32 (zlen payload) ++ payload ++ string.WriteLe32 0).
Definition framed (col : BCPColumnMetadata) (payload : bytes) : bytes :=
  if IsPLPType col then plp payload else le 2 (zlen payload) ++ payload.

(** What a column keeps of a text: all of it, or as much as its bound holds. *)
Definition kept (size : Z -> Z) (col : BCPColumnMetadata) (cps cps1 : list Z) : Prop :=
  if IsPLPType col then cps1 = cps else longest_prefix size (max_length col) cps cps1.

Lemma longest_prefix_all size max cps : foldr (fun c n => size c + n) 0 cps <= max -> longest_prefix size max cps cps.
Proof. intros Hm. exists []. by rewrite app_nil_r. Qed.

Lemma fill_exact b n : n = zlen b -> fill n b = Ok b.
Proof. intros ->. unfold fill. rewrite Z.leb_refl, Z.sub_diag. by rewrite app_nil_r. Qed.

Lemma slice_all s : slice s 0 (zlen s) = Ok s.
Proof. pose proof (slice_prefix s [] (zlen s) eq_refl) as E. by rewrite app_nil_r in E. Qed.

Lemma kept_prefix size col cps cps1 : kept size col cps cps1 -> exists cps2, cps = cps1 ++ cps2.
Proof. unfold kept. destruct (IsPLPType col); [intros ->; exists []; by rewrite app_nil_r|intros (cps2 & E & _); by exists cps2]. Qed.

Section TextColumn.
Context {S : Simdutf} {Spec : SimdutfSpec S}.

(** Where a value is cut. *)
Lemma nvarchar_cut cps col : Forall scalar cps -> 0 <= max_length col ->
  exists cps1, kept size16 col cps cps1 /\
    (if negb (IsPLPType col) && (max_length col <? 2 * zlen (utf16_encode cps)) then string.Utf8PrefixForUtf16Limit (utf8_encode cps) (max_length col)
     else Ok (zlen (utf8_encode cps), 2 * zlen (utf16_encode cps))) = Ok (zlen (utf8_encode cps1), 2 * zlen (utf16_encode cps1)).
Proof.
  intros Hc Hml. unfold kept. destruct (IsPLPType col); cbn [negb andb]; [by exists cps|].
  destruct (Z.ltb_spec (max_length col) (2 * zlen (utf16_encode cps))) as [Hm|Hm].
  - destruct (prefix_loop_spec cps (length (utf8_encode cps)) [] (max_length col) 0 Hc ltac:(lia) ltac:(lia)) as (cps1 & Hl & E).
    rewrite Z.sub_0_r in Hl. exists cps1. split; [done|]. exact E.
  - exists cps. split; [apply longest_prefix_all; rewrite size16_sum; lia|done].
Qed.

Lemma varchar_cut cps col : Forall scalar cps -> 0 <= max_length col ->
  exists cps1, kept size8 col cps cps1 /\
    (if negb (IsPLPType col) && (max_length col <? zlen (utf8_encode cps)) then string.Utf8PrefixForByteLimit (utf8_encode cps) (max_length col)
     else Ok (zlen (utf8_encode cps))) = Ok (zlen (utf8_encode cps1)).
Proof.
  intros Hc Hml. unfold kept. destruct (IsPLPType col); cbn [negb andb]; [by exists cps|].
  destruct (Z.ltb_spec (max_length col) (zlen (utf8_encode cps))) as [Hm|Hm].
  - unfold string.Utf8PrefixForByteLimit. rewrite (proj2 (Z.leb_gt _ _)) by lia.
    destruct (back_off_spec cps [] (Z.to_nat (max_length col)) Hc) as (cps1 & Hl & E); [cbn [app length]; unfold zlen in Hm; lia|].
    change (zlen []) with 0 in *. rewrite Z.sub_0_r, Z2Nat.id in Hl by lia. exists cps1. split; [done|]. exact E.
  - exists cps. split; [apply longest_prefix_all; rewrite size8_sum; lia|done].
Qed.

Lemma EncodeNVarchar_kept cps cps1 col : Forall scalar cps -> kept size16 col cps cps1 ->
  (if negb (IsPLPType col) && (max_length col <? 2 * zlen (utf16_encode cps)) then string.Utf8PrefixForUtf16Limit (utf8_encode cps) (max_length col)
   else Ok (zlen (utf8_encode cps), 2 * zlen (utf16_encode cps))) = Ok (zlen (utf8_encode cps1), 2 * zlen (utf16_encode cps1)) ->
  string.EncodeNVarcharFromUtf8 (utf8_encode cps) col = Ok (framed col (units_bytes (utf16_encode cps1))).
Proof.
  intros Hc Hk E. unfold string.EncodeNVarcharFromUtf8. rewrite ByteLengthView_encode, E by done. cbn [mbind res_bind].
  destruct (kept_prefix _ _ _ _ Hk) as [cps2 ->]. apply Forall_app in Hc as [Hc1 _].
  rewrite utf8_encode_app, slice_prefix by done. cbn [mbind res_bind negb]. unfold framed, plp. rewrite zlen_units_bytes.
  destruct (IsPLPType col).
  - destruct (Z.eqb_spec (2 * zlen (utf16_encode cps1)) 0) as [Hz|Hz].
    + assert (cps1 = []) as -> by (apply utf16_encode_nil, zlen_0_nil; lia). done.
    + by rewrite EncodeValidDirect_encode, fill_exact by (done || by rewrite zlen_units_bytes).
  - by rewrite EncodeValidDirect_encode, fill_exact by (done || by rewrite zlen_units_bytes).
Qed.

Lemma EncodeNVarcharFromUtf8_spec cps col : Forall scalar cps -> 0 <= max_length col ->
  exists cps1, kept size16 col cps cps1 /\ string.EncodeNVarcharFromUtf8 (utf8_encode cps) col = Ok (framed col (units_bytes (utf16_encode cps1))).
Proof.
  intros Hc Hml. destruct (nvarchar_cut cps col Hc Hml) as (cps1 & Hk & E). exists cps1. split; [done|]. by apply EncodeNVarchar_kept.
Qed.

Lemma EncodeVarchar_kept cps cps1 col : Forall scalar cps -> kept size8 col cps cps1 ->
  (if negb (IsPLPType col) && (max_length col <? zlen (utf8_encode cps)) then string.Utf8PrefixForByteLimit (utf8_encode cps) (max_length col)
   else Ok (zlen (utf8_encode cps))) = Ok (zlen (utf8_encode cps1)) ->
  string.EncodeVarcharUtf8 (utf8_encode cps) col = Ok (framed col (utf8_encode cps1)).
Proof.
  intros Hc Hk E. unfold string.EncodeVarcharUtf8. rewrite E. cbn [mbind res_bind].
  destruct (kept_prefix _ _ _ _ Hk) as [cps2 ->]. rewrite utf8_encode_app, slice_prefix by done. cbn [mbind res_bind]. unfold framed, plp.
  pose proof (zlen_nonneg (utf8_encode cps1)). destruct (IsPLPType col); [|done].
  destruct (Z.ltb_spec 0 (zlen (utf8_encode cps1))), (Z.eqb_spec (zlen (utf8_encode cps1)) 0); (done || lia).
Qed.

Lemma EncodeVarcharUtf8_spec cps col : Forall scalar cps -> 0 <= max_length col ->
  exists cps1, kept size8 col cps cps1 /\ string.EncodeVarcharUtf8 (utf8_encode cps) col = Ok (framed col (utf8_encode cps1)).
Proof.
  intros Hc Hml. destruct (varchar_cut cps col Hc Hml) as (cps1 & Hk & E). exists cps1. split; [done|]. by apply EncodeVarchar_kept.
Qed.
End TextColumn.

(** C36. Text in an [nvarchar] column, or as UTF-8 in a [varchar] one, is written
    whole if it fits and otherwise cut to the most whole characters that the
    column's bound holds (surrogate pairs and UTF-8 sequences stay whole); a MAX
    column takes all of it. The [nvarchar] payload is read back as that text. *)
Theorem Text_column {S : Simdutf} {Spec : SimdutfSpec S} `{DuckDB} (v : Vector) (row : nat) (col : BCPColumnMetadata) (cps : list Z)
  (Hc : holds_cell v row (Str (utf8_encode cps))) (Hcps : Forall scalar cps)
  (Ht : id (duckdb_type col) = VARCHAR) (Hm : 0 <= max_length col) :
  (exists cps1, kept size16 col cps cps1 /\
     string.EncodeToBcp v row col = Ok (framed col (units_bytes (utf16_encode cps1))) /\
     forall c, type_id c = TDS_TYPE_NVARCHAR ->
       string.DecodeFromTds (units_bytes (utf16_encode cps1)) c = Ok (Store PhysicalType.VARCHAR (Str (utf8_encode cps1)))) /\
  (exists cps1, kept size8 col cps cps1 /\ string.EncodeToBcpUtf8 v row col = Ok (framed col (utf8_encode cps1))).
Proof.
  unfold string.EncodeToBcp, string.EncodeToBcpUtf8. rewrite Ht, (FormatStr_cell v row _ Hc). cbn [mbind res_bind]. split.
  - destruct (EncodeNVarcharFromUtf8_spec cps col Hcps Hm) as (cps1 & Hk & E). exists cps1. split; [done|]. split; [done|].
    intros c Hty. destruct (kept_prefix _ _ _ _ Hk) as [cps2 ->]. apply Forall_app in Hcps as [Hcps _].
    by apply DecodeFromTds_nvarchar.
  - by apply EncodeVarcharUtf8_spec.
Qed.

(** ** The properties at work *)

Definition one_row (t : LogicalType) (c : cell) : Vector := mkVector t (mkFormat (fun _ => c) None None).
Definition sample_column (t : LogicalType) (token max_len prec sc : Z) : BCPColumnMetadata :=
  mkBCPColumnMetadata [] t token max_len prec sc true [] [] false.

Definition bigint_vector (z : Z) : Vector := one_row (mkLogicalType BIGINT PhysicalType.INT64 0 0) (Word z).
Definition tinyint_column := sample_column (mkLogicalType UTINYINT PhysicalType.UINT8 0 0) 0x26 1 0 0.
Definition decimal_vector : Vector := one_row (mkLogicalType DECIMAL PhysicalType.INT32 5 2) (Word (-125)).
Definition decimal_column := sample_column (mkLogicalType DECIMAL PhysicalType.INT16 4 1) 0x6A 5 4 1.
Definition timestamp_vector : Vector := one_row (mkLogicalType TIMESTAMP PhysicalType.INT64 0 0) (Word 1705363199999999).
Definition datetime2_column := sample_column (mkLogicalType TIMESTAMP PhysicalType.INT64 0 0) 0x2A 7 0 3.
Definition text_vector : Vector := one_row (mkLogicalType VARCHAR PhysicalType.VARCHAR 0 0) (Str (utf8_encode [0x41; 0x1F600])).
Definition nvarchar2_column := sample_column (mkLogicalType VARCHAR PhysicalType.VARCHAR 0 0) 0xE7 4 0 0.

(** A BIGINT 300 in a [tinyint] column, and a 200. *)
Lemma Integer_column_witness :
  (exists m, integer.EncodeToBcp (H := Checked.hugeint) (H0 := Checked.duckdb) (bigint_vector 300) 0 tinyint_column = Exn (InvalidInput m)) /\
  integer.EncodeToBcp (H := Checked.hugeint) (H0 := Checked.duckdb) (bigint_vector 200) 0 tinyint_column = Ok (bs [1; 200]).
Proof.
  split.
  - refine (proj2 (Integer_column (H := Checked.hugeint) (H0 := Checked.duckdb) (bigint_vector 300) 0 tinyint_column 300 0 255 1 _ eq_refl eq_refl) _); [by split|lia].
  - refine (proj1 (proj1 (Integer_column (H := Checked.hugeint) (H0 := Checked.duckdb) (bigint_vector 200) 0 tinyint_column 200 0 255 1 _ eq_refl eq_refl) _)); [by split|lia].
Defined.

(** DECIMAL(5,2) -1.25 in a DECIMAL(4,1) column: -1.3. *)
Lemma Decimal_column_witness :
  exists payload, decimal.EncodeToBcp (H := Checked.hugeint) (H0 := Checked.duckdb) decimal_vector 0 decimal_column = Ok (z2b (zlen payload) :: payload) /\
    zlen payload = GetDecimalByteSize 4 /\ ConvertDecimal (H := Checked.hugeint) (payload ++ bs [1]) (zlen payload) = Ok (-13).
Proof.
  refine (proj1 (Decimal_column (H := Checked.hugeint) (H0 := Checked.duckdb) decimal_vector 0 decimal_column (-125) (-13) (bs [1]) _ _ _ _ _) _).
  - by split.
  - split; [split; [done|]; cbn; lia|by left].
  - cbn; lia.
  - cbn; lia.
  - split; vm_compute; [discriminate|done].
  - vm_compute. done.
Defined.

(** 2024-01-15 23:59:59.999999 in a datetime2(3) column: the next midnight. *)
Lemma Timestamp_column_witness :
  datetime.EncodeToBcp (H := Checked.duckdb) timestamp_vector 0 datetime2_column = Ok (z2b 7 :: datetime2_payload 0 (19738 + 719162) 3) /\
  exists time date, datetime.EncodeToBcp (H := Checked.duckdb) timestamp_vector 0 datetime2_column = Ok (z2b (zlen (datetime2_payload time date 3)) :: datetime2_payload time date 3) /\
    0 <= time < 86400000.
Proof.
  split; [vm_compute; reflexivity|].
  refine (match Timestamp_column (H := Checked.duckdb) timestamp_vector 0 datetime2_column 1705363199999999 1000000 [] _ eq_refl eq_refl _ _ _ _ _ with
          | ex_intro _ time (ex_intro _ date (ex_intro _ _ (conj E (conj Ht _)))) => ex_intro _ time (ex_intro _ date (conj E Ht)) end).
  - split; [done|]. cbn. lia.
  - cbn. set_solver.
  - cbn. lia.
  - lia.
  - lia.
  - vm_compute. split; [discriminate|done].
Defined.

(** An A and an emoji in an [nvarchar(2)] column: the pair does not fit. *)
Lemma Text_column_witness :
  string.EncodeToBcp (H := RefSimdutf.simdutf) (H0 := Checked.duckdb) text_vector 0 nvarchar2_column = Ok (bs [2; 0; 0x41; 0]) /\
  exists cps1, kept size16 nvarchar2_column [0x41; 0x1F600] cps1 /\
     string.EncodeToBcp (H := RefSimdutf.simdutf) (H0 := Checked.duckdb) text_vector 0 nvarchar2_column = Ok (framed nvarchar2_column (units_bytes (utf16_encode cps1))).
Proof.
  split; [vm_compute; reflexivity|].
  refine (match Text_column (S := RefSimdutf.simdutf) (Spec := ref_simdutf_spec) (H := Checked.duckdb) text_vector 0 nvarchar2_column [0x41; 0x1F600] _ _ eq_refl _ with
          | conj (ex_intro _ cps1 (conj Hk (conj E _))) _ => ex_intro _ cps1 (conj Hk E) end).
  - by split.
  - repeat constructor; vm_compute; intuition discriminate.
  - cbn. lia.
Defined.
