(* ===== verification/BcpRow.v ===== *)
(** * Rows of a bulk load (src/src/tds/encoding/bcp_row_encoder.cpp)

    The row-by-row path of [BCPRowEncoder]: per-column state prepared once per
    chunk ([PrepareColumnStates]), one row from it ([EncodeRowFromStates]), a
    chunk ([EncodeRows], the loop of [EncodeChunk]). A chunk is its vectors and
    its number of rows. The theorems are in [BcpRowSpec]. *)

From S2P Require Import Prelude TdsTypes Utf16 Values Encoding Codecs.

Definition BCP_TOKEN_ROW : Z := 0xD1.

Definition EncodeFn : Type := Vector -> nat -> BCPColumnMetadata -> res bytes.

Inductive NullWireKind : Type := Plp | VariableUShort | Fixed.

#[export] Instance NullWireKind_eq_dec : EqDecision NullWireKind.
Proof. solve_decision. Defined.

(** [vec] is [None] for a column that is NULL in every row. *)
Record ColumnEncodeState : Type := mkState {
  vec : option Vector;
  encode : option EncodeFn;
  null_kind : NullWireKind
}.

Record DataChunk : Type := mkChunk { chunk_data : list Vector; chunk_size : nat }.

Definition EncodeNullOfKind (kind : NullWireKind) : bytes :=
  match kind with Plp => EncodeNullPLP | VariableUShort => EncodeNullVariable | Fixed => EncodeNullFixed end.

Definition NullMarkerSize (kind : NullWireKind) : Z := match kind with Plp => 8 | VariableUShort => 2 | Fixed => 1 end.

Section Rows.
Context `{Hugeint} `{Floats} `{DuckDB} `{Simdutf}.

Definition ResolveEncoder (col : BCPColumnMetadata) : res EncodeFn :=
  match FamilyFromLogicalType (duckdb_type col) with
  | Exn (NotImplemented _) => Exn (NotImplemented "MSSQL: Unsupported type for BCP encoding")
  | Exn e => Exn e
  | Oob => Oob
  | Ok Boolean => Ok boolean.EncodeToBcp
  | Ok Integer => Ok integer.EncodeToBcp
  | Ok Float => Ok float_family.EncodeToBcp
  | Ok Decimal => Ok decimal.EncodeToBcp
  | Ok String => Ok (if tds_type_token col =? TDS_TYPE_BIGVARCHAR then string.EncodeToBcpUtf8 else string.EncodeToBcp)
  | Ok Binary => Ok binary.EncodeToBcp
  | Ok Uuid => Ok uuid.EncodeToBcp
  | Ok DateTime => Ok datetime.EncodeToBcp
  | Ok Money => Ok (fun _ _ _ => Exn (InternalError "BCP encoder reached Money family arm"))
  end.

Definition null_kind_of (col : BCPColumnMetadata) : NullWireKind :=
  if IsPLPType col then Plp else if IsVariableLengthUSHORT col then VariableUShort else Fixed.

(** [for (r = 0; r < format_count; r++)]: a value where only NULLs are admitted. *)
Fixpoint all_null (fmt : UnifiedVectorFormat) (n : nat) : bool :=
  match n with O => true | S n => all_null fmt n && FormatIsNull fmt n end.

Definition PrepareColumnState (chunk : DataChunk) (format_count : nat) (col : BCPColumnMetadata) (source_idx : Z) :
    res ColumnEncodeState :=
  let absent := mkState None None (null_kind_of col) in
  if source_idx <? 0 then Ok absent else
  match chunk_data chunk !! Z.to_nat source_idx with
  | None => Ok absent
  | Some v =>
      if null_only_source col then
        if all_null (ToUnifiedFormat v) format_count then Ok absent
        else Exn (InvalidInput "MSSQL COPY: type mismatch")
      else
        encode ← ResolveEncoder col;
        Ok (mkState (Some v) (Some encode) (null_kind_of col))
  end.

Fixpoint PrepareColumnStates_from (chunk : DataChunk) (format_count : nat) (columns : list BCPColumnMetadata)
    (column_mapping : option (list Z)) (target_idx : nat) : res (list ColumnEncodeState) :=
  match columns with
  | [] => Ok []
  | col :: columns =>
      source_idx ← match column_mapping with
                   | Some m => match m !! target_idx with Some i => Ok i | None => Oob end
                   | None => Ok (Z.of_nat target_idx)
                   end;
      state ← PrepareColumnState chunk format_count col source_idx;
      states ← PrepareColumnStates_from chunk format_count columns column_mapping (Datatypes.S target_idx);
      Ok (state :: states)
  end.

Definition PrepareColumnStates (chunk : DataChunk) (format_count : nat) (columns : list BCPColumnMetadata)
    (column_mapping : option (list Z)) : res (list ColumnEncodeState) :=
  PrepareColumnStates_from chunk format_count columns column_mapping 0.

(** The bytes of one value. An absent encoder is a null function pointer. *)
Definition encode_cell (row_idx : nat) (col : BCPColumnMetadata) (state : ColumnEncodeState) : res bytes :=
  match vec state with
  | None => Ok (EncodeNullOfKind (null_kind state))
  | Some v =>
      if FormatIsNull (ToUnifiedFormat v) row_idx then Ok (EncodeNullOfKind (null_kind state))
      else match encode state with Some f => f v row_idx col | None => Oob end
  end.

Fixpoint EncodeRowFromStates (row_idx : nat) (columns : list BCPColumnMetadata) (states : list ColumnEncodeState) : res bytes :=
  match columns, states with
  | [], _ => Ok []
  | col :: columns, state :: states =>
      b ← encode_cell row_idx col state;
      bs ← EncodeRowFromStates row_idx columns states;
      Ok (b ++ bs)
  | _ :: _, [] => Oob
  end.

(** [n] rows from [row_idx] on, a token before each. *)
Fixpoint EncodeRows (n row_idx : nat) (columns : list BCPColumnMetadata) (states : list ColumnEncodeState) : res bytes :=
  match n with
  | O => Ok []
  | S n =>
      b ← EncodeRowFromStates row_idx columns states;
      bs ← EncodeRows n (Datatypes.S row_idx) columns states;
      Ok (z2b BCP_TOKEN_ROW :: b ++ bs)
  end.

Definition EncodeRow (chunk : DataChunk) (row_idx : nat) (columns : list BCPColumnMetadata) (column_mapping : option (list Z)) :
    res bytes :=
  states ← PrepareColumnStates chunk (Datatypes.S row_idx) columns column_mapping;
  EncodeRowFromStates row_idx columns states.
End Rows.
