(* ===== verification/BcpRowSpec.v ===== *)
(** * Rows of a bulk load are read back (theorems about [BcpRow])

    [target_ok] says what the metadata of a target column looks like, [accepts]
    which sources it takes ([loadable]: a whole chunk). [written]: each encoder's
    bytes are a value of the reader's grammar ([RowReader.value_wire]). Main
    result: whatever rows are written, the reader of result rows reads exactly
    their values back, NULLs included. *)

From S2P Require Import Prelude TdsTypes Utf16 ColumnMetadata RowReader Values Encoding Codecs CodecsSpec BcpRow.

(** ** Target columns, and what they take *)

(** The columns of the generated and of the queried metadata: a wire type and a
    width for each DuckDB type ([xml] is text in PLP form). *)
Definition target_ok (col : BCPColumnMetadata) : Prop :=
  let token := tds_type_token col in
  let bounded := max_length col = 0xFFFF \/ 1 <= max_length col <= 8000 in
  match id (duckdb_type col) with
  | BOOLEAN => token = TDS_TYPE_BITN /\ max_length col = 1
  | UTINYINT => token = TDS_TYPE_INTN /\ max_length col = 1
  | TINYINT | SMALLINT => token = TDS_TYPE_INTN /\ max_length col = 2
  | USMALLINT | INTEGER => token = TDS_TYPE_INTN /\ max_length col = 4
  | UINTEGER | BIGINT => token = TDS_TYPE_INTN /\ max_length col = 8
  | FLOAT => token = TDS_TYPE_FLOATN /\ max_length col = 4
  | DOUBLE => token = TDS_TYPE_FLOATN /\ max_length col = 8
  | UBIGINT => token = TDS_TYPE_DECIMAL /\ precision col = 20 /\ scale col = 0 /\ max_length col = 13
  | HUGEINT => token = TDS_TYPE_DECIMAL /\ precision col = 38 /\ scale col = 0 /\ max_length col = 17
  | DECIMAL => token = TDS_TYPE_DECIMAL /\ 1 <= precision col <= 38 /\ 0 <= scale col <= precision col /\
               max_length col = GetDecimalByteSize (precision col)
  | UUID => token = TDS_TYPE_UNIQUEIDENTIFIER /\ max_length col = 16
  | DATE => token = TDS_TYPE_DATE /\ max_length col = 3
  | TIME => token = TDS_TYPE_TIME /\ 0 <= scale col <= 7 /\ max_length col = GetTimeByteSize (scale col)
  | TIMESTAMP | TIMESTAMP_MS | TIMESTAMP_NS | TIMESTAMP_SEC =>
      token = TDS_TYPE_DATETIME2 /\ 0 <= scale col <= 7 /\ max_length col = GetTimeByteSize (scale col) + 3
  | TIMESTAMP_TZ => token = TDS_TYPE_DATETIMEOFFSET /\ 0 <= scale col <= 7 /\ max_length col = GetTimeByteSize (scale col) + 5
  | VARCHAR => token = TDS_TYPE_XML /\ max_length col = 0xFFFF \/ (token = TDS_TYPE_NVARCHAR \/ token = TDS_TYPE_BIGVARCHAR) /\ bounded
  | INTERVAL => token = TDS_TYPE_NVARCHAR /\ bounded
  | BLOB => token = TDS_TYPE_BIGVARBINARY /\ bounded
  | UHUGEINT | GEOMETRY | OTHER_TYPE => False
  end.

Definition narrowing_source (src : LogicalTypeId) : bool := bool_decide (src ∈ [TINYINT; UTINYINT; SMALLINT; INTEGER; BIGINT]).

(** The source types a column of a DuckDB type is loaded from: itself, and the
    pairs of [IsTypeCompatible] (copy/target_resolver.cpp). *)
Definition accepts (src dst : LogicalTypeId) : bool :=
  match dst with
  | UTINYINT => narrowing_source src
  | SMALLINT => narrowing_source src || bool_decide (src = USMALLINT)
  | INTEGER => narrowing_source src || bool_decide (src ∈ [USMALLINT; UINTEGER])
  | BIGINT => narrowing_source src || bool_decide (src ∈ [USMALLINT; UINTEGER; UBIGINT])
  | FLOAT | DOUBLE => bool_decide (src ∈ [FLOAT; DOUBLE])
  | DECIMAL => bool_decide (src ∈ [DECIMAL; HUGEINT; UBIGINT])
  | TIMESTAMP => bool_decide (src ∈ [TIMESTAMP; TIMESTAMP_MS; TIMESTAMP_NS; TIMESTAMP_SEC; DATE])
  | BLOB => bool_decide (src ∈ [BLOB; GEOMETRY])
  | _ => bool_decide (src = dst)
  end.

(** The values that mean something: text is UTF-8 of less than 2 GiB, a time is
    within a day, and an instant is not so far away that counting its days
    overflows (which the infinities of DuckDB do). *)
Definition cell_fits (src : LogicalTypeId) (c : cell) : Prop :=
  match c with
  | Str s => src = VARCHAR -> exists cps, Forall scalar cps /\ s = utf8_encode cps /\ zlen s < 2147483648
  | Word z =>
      match src with
      | DATE => z < 2146764486
      | TIME => 0 <= z <= 86400000000
      | _ => match unit_of src with Some u => -9223372036854775808 <= z - 86400 * u + 1 | None => True end
      end
  end.

(** ** The wire form of a value *)

Definition frame (col : BCPColumnMetadata) (ov : option bytes) : bytes :=
  match ov with
  | None => EncodeNullOfKind (null_kind_of col)
  | Some p => match null_kind_of col with Fixed => z2b (zlen p) :: p | _ => framed col p end
  end.

Definition payload_ok (col : BCPColumnMetadata) (p : bytes) : Prop :=
  match null_kind_of col with
  | Fixed => 0 < zlen p < 256 /\ (tds_type_token col = TDS_TYPE_UNIQUEIDENTIFIER -> zlen p = 16)
  | VariableUShort => zlen p < 65535
  | Plp => zlen p < 4294967296
  end.

(** The column as a reader of rows describes it. *)
Definition reader_column (col : BCPColumnMetadata) : ColumnMetadata :=
  mkColumnMetadata (name col) (tds_type_token col) (max_length col) (precision col) (scale col) 0 (GetFlags col).

Lemma plp_wire c p : plp_column c -> zlen p < 4294967296 -> value_wire c (Some p) (plp p).
Proof.
  intros Hc Hp. unfold plp. apply vw_plp; [done|done|vm_compute; discriminate|]. pose proof (zlen_nonneg p).
  destruct (Z.eqb_spec (zlen p) 0) as [Hz|Hz]; [rewrite (zlen_0_nil p Hz); apply plp_end|].
  assert (Hl : forall v, 0 <= v < 4294967296 -> exists n0 n1 n2 n3, le 4 v = [n0; n1; n2; n3] /\ le32 n0 n1 n2 n3 = v).
  { intros v Hv. pose proof (from_le_le 4 v) as E. rewrite Z.mod_small in E by (change (256 ^ Z.of_nat 4) with 4294967296; lia).
    pose proof (length_le 4 v) as Hl. destruct (le 4 v) as [|n0 [|n1 [|n2 [|n3 [|]]]]]; try discriminate.
    exists n0, n1, n2, n3. split; [done|]. cbn [from_le] in E. unfold le32. lia. }
  destruct (Hl (zlen p)) as (n0 & n1 & n2 & n3 & E & El); [lia|]. unfold string.WriteLe32. rewrite E.
  cbn [app]. rewrite <- (app_nil_r p) at 1. apply plp_chunk; [done|lia|]. apply plp_end.
Qed.

(** How NULL and lengths are written agrees with how the reader takes them. *)
Definition kind_ok (col : BCPColumnMetadata) : Prop :=
  is_one_of (tds_type_token col) readable_types = true /\
  match null_kind_of col with
  | Fixed => kind_of (tds_type_token col) = KPrefix1 /\ 0 < max_length col <= 17 /\ IsPLPType col = false
  | VariableUShort => kind_of (tds_type_token col) = KVar /\ ColumnMetadata.IsPLPType (reader_column col) = false /\
                      IsPLPType col = false /\ 1 <= max_length col <= 8000
  | Plp => plp_column (reader_column col) /\ IsPLPType col = true
  end.

Lemma fixed_kind col t : tds_type_token col = t -> 0 < max_length col <= 17 -> kind_of t = KPrefix1 ->
  is_one_of t readable_types = true -> (t =? 0xE7) || (t =? 0xA7) || (t =? 0xA5) = false -> kind_ok col.
Proof.
  intros <- Hm Hk Hr Hv. unfold kind_ok, null_kind_of, IsPLPType, IsVariableLengthUSHORT.
  rewrite (proj2 (Z.eqb_neq _ _)) by lia. by rewrite Hv.
Qed.

Lemma variable_kind col t : tds_type_token col = t -> max_length col = 0xFFFF \/ 1 <= max_length col <= 8000 ->
  t = TDS_TYPE_NVARCHAR \/ t = TDS_TYPE_BIGVARCHAR \/ t = TDS_TYPE_BIGVARBINARY -> kind_ok col.
Proof.
  intros Et Hm Hc. unfold kind_ok, null_kind_of, IsPLPType, IsVariableLengthUSHORT, plp_column, ColumnMetadata.IsPLPType, reader_column.
  cbn [type_id ColumnMetadata.max_length]. rewrite Et.
  assert (Hv : (t =? 0xE7) || (t =? 0xA7) || (t =? 0xA5) = true) by (by destruct Hc as [-> | [-> | ->]]).
  rewrite Hv. destruct (Z.eqb_spec (max_length col) 65535) as [Em|Em]; cbn [negb].
  - destruct Hc as [-> | [-> | ->]]; (split; [done|]); (split; [by right|done]).
  - destruct Hc as [-> | [-> | ->]]; rewrite ?(proj2 (Z.eqb_neq _ _) Em); split_and!; try done; lia.
Qed.

Lemma target_kind col : target_ok col -> kind_ok col.
Proof.
  unfold target_ok. intros Ht. pose proof (GetTimeByteSize_range (scale col)) as Hs.
  assert (Hd : 5 <= GetDecimalByteSize (precision col) <= 17) by (destruct (GetDecimalByteSize_cases (precision col)); lia).
  destruct (id (duckdb_type col)) eqn:Ed; try done;
    try (destruct Ht as [E Hm]; eapply fixed_kind; [exact E|lia|done|done|done]).
  - destruct Ht as [[E Hm]|[[E|E] Hm]]; [|eapply variable_kind; eauto..].
    unfold kind_ok, null_kind_of, IsPLPType. rewrite E, Hm. split; [done|]. cbn. split; [left; cbn; by rewrite E|done].
  - destruct Ht as [E Hm]. eapply variable_kind; eauto.
  - destruct Ht as [E Hm]. eapply variable_kind; eauto.
Qed.

Lemma le_2_le16 v : 0 <= v < 65536 -> exists lo hi, le 2 v = [lo; hi] /\ le16 lo hi = v.
Proof.
  intros Hv. pose proof (from_le_le 2 v) as E. rewrite Z.mod_small in E by (change (256 ^ Z.of_nat 2) with 65536; lia).
  pose proof (length_le 2 v) as Hl. destruct (le 2 v) as [|lo [|hi [|]]]; try discriminate. exists lo, hi. split; [done|].
  cbn [from_le] in E. unfold le16. lia.
Qed.

(** What is written is a value of the reader's grammar. *)
Lemma frame_wire col ov : kind_ok col -> (forall p, ov = Some p -> payload_ok col p) ->
  value_wire (reader_column col) ov (frame col ov).
Proof.
  intros [Hr Hk] Hp. unfold frame, payload_ok, framed in *. destruct (null_kind_of col) eqn:En.
  - destruct Hk as [Hk Hplp]. destruct ov as [p|]; [|by apply vw_plp_null]. rewrite Hplp. by apply plp_wire, Hp.
  - destruct Hk as (Hk & Hr2 & Hplp & Hm). destruct ov as [p|]; [|by apply vw_prefix2_null]. rewrite Hplp. specialize (Hp p eq_refl).
    pose proof (zlen_nonneg p). destruct (le_2_le16 (zlen p)) as (lo & hi & E & El); [lia|]. rewrite E.
    by apply vw_prefix2; [..|lia].
  - destruct Hk as (Hk & Hm & Hplp). destruct ov as [p|]; [|by apply vw_prefix1_null]. destruct (Hp p eq_refl) as [Hz Hu].
    apply vw_prefix1; rewrite ?b2z_z2b_small by lia; [done|done|lia|done].
Qed.

(** ** Encoders on accepted values *)

(** A normal result is a value of the column, framed. *)
Definition written (col : BCPColumnMetadata) (m : res bytes) : Prop :=
  holds m (fun w => exists p, w = frame col (Some p) /\ payload_ok col p).

Lemma written_fixed col n p : null_kind_of col = Fixed -> zlen p = n -> 0 < n < 256 ->
  (tds_type_token col = TDS_TYPE_UNIQUEIDENTIFIER -> n = 16) -> written col (Ok (z2b n :: p)).
Proof. intros Hk <- Hn Hu. exists p. unfold frame, payload_ok. by rewrite Hk. Qed.

Lemma written_framed col m : null_kind_of col <> Fixed ->
  holds m (fun w => exists p, w = framed col p /\ (if IsPLPType col then zlen p < 4294967296 else zlen p < 65535)) -> written col m.
Proof.
  intros Hk Hm. eapply holds_mono; [exact Hm|]. intros w (p & -> & Hp). exists p. unfold frame, payload_ok, null_kind_of in *.
  destruct (IsPLPType col); [done|]. by destruct (IsVariableLengthUSHORT col).
Qed.

Lemma holds_int32 z Q : -2147483648 <= z < 2147483648 -> Q z -> holds (int32 z) Q.
Proof. intros Hz HQ. by rewrite int32_ok. Qed.

Lemma holds_int64 z Q : -9223372036854775808 <= z < 9223372036854775808 -> Q z -> holds (int64 z) Q.
Proof. intros Hz HQ. by rewrite int64_ok. Qed.

Lemma holds_check {A} (b : bool) e (m : res A) Q : (b = false -> holds m Q) -> holds (if b then Exn e else m) Q.
Proof. by destruct b; [|auto]. Qed.

Lemma fixed_of col t : target_ok col -> tds_type_token col = t -> kind_of t = KPrefix1 -> null_kind_of col = Fixed.
Proof.
  intros Ht E Hk. destruct (target_kind col Ht) as [_ Hc]. rewrite E in Hc. destruct (null_kind_of col); [| |done].
  - unfold plp_column in Hc. cbn [reader_column type_id] in Hc. rewrite E, Hk in Hc. by destruct Hc as [[?|[? _]] _].
  - rewrite Hk in Hc. by destruct Hc.
Qed.

Lemma variable_of col t : target_ok col -> tds_type_token col = t -> kind_of t <> KPrefix1 -> null_kind_of col <> Fixed.
Proof. intros Ht E Hk Hn. destruct (target_kind col Ht) as [_ Hc]. rewrite Hn, E in Hc. by destruct Hc. Qed.

Lemma ztake_all {A} (l : list A) : ztake (zlen l) l = l.
Proof. unfold ztake, zlen. rewrite Nat2Z.id. by apply take_ge. Qed.

Section Cells.
Context `{Hugeint} `{Floats} `{DuckDB} {S : Simdutf} {Spec : SimdutfSpec S}.

Lemma EncodeDecimal_written v p s Q : huge v -> huge (- v) ->
  (forall payload, zlen payload = GetDecimalByteSize p -> Q (z2b (GetDecimalByteSize p) :: payload)) -> holds (EncodeDecimal v p s) Q.
Proof.
  unfold huge. intros Hv Hv2 HQ. unfold EncodeDecimal. rewrite decimal_payload_eq by lia. cbn [mbind res_bind holds]. apply HQ.
  unfold sign_magnitude. rewrite zlen_cons, zlen_le. destruct (GetDecimalByteSize_cases p); lia.
Qed.

Lemma narrow_written src lo hi append v row z Q : holds_cell v row (Word z) -> integer_source (InternalType (GetType v)) = true ->
  (forall z, value_ok src (Word z) -> lo <= z <= hi) -> (forall z, Q (append z)) -> holds (integer.narrow src lo hi append v row) Q.
Proof.
  intros Hc Hs Hr HQ. rewrite (narrow_cell src lo hi append v row z Hc Hs Hr). by destruct (_ && _); [apply HQ|].
Qed.

Lemma integer_cell col v row z : target_ok col -> holds_cell v row (Word z) -> type_ok (GetType v) ->
  FamilyFromLogicalType (duckdb_type col) = Ok Integer -> accepts (id (GetType v)) (id (duckdb_type col)) = true ->
  written col (integer.EncodeToBcp v row col).
Proof.
  intros Ht Hc [Hi _] Hf Ha. unfold FamilyFromLogicalType in Hf. assert (Hsrc : id (duckdb_type col) <> HUGEINT -> integer_source (InternalType (GetType v)) = true).
  { rewrite Hi. intros Hd. destruct (id (duckdb_type col)), (id (GetType v)); first [discriminate Ha|discriminate Hf|done|by destruct Hd]. }
  pose proof Ht as Ht'. unfold target_ok in Ht. unfold integer.EncodeToBcp.
  assert (Hsame : id (GetType v) = id (duckdb_type col) -> forall T, storage (id (duckdb_type col)) 0 = T ->
    (forall w, storage (id (duckdb_type col)) w = storage (id (duckdb_type col)) 0) -> FormatWord T v row = Ok z).
  { intros E T <- Hw. apply FormatWord_cell; [done|]. by rewrite Hi, E, Hw. }
  destruct Hc as [Hd Hv]. rewrite Hi in Hv.
  destruct (id (duckdb_type col)) eqn:Ed; try discriminate Hf;
    try (destruct Ht as [E Hm]; assert (Hk : null_kind_of col = Fixed) by (by eapply fixed_of);
      eapply narrow_written; [split; [exact Hd|by rewrite Hi]|by apply Hsrc|intros x; cbn [value_ok]; lia|
        intros x; apply written_fixed; [done|by rewrite ?zlen_le|lia|by rewrite E]]).
  all: apply bool_decide_eq_true in Ha.
  - destruct Ht as [E Hm]. assert (Hk : null_kind_of col = Fixed) by (by eapply fixed_of).
    rewrite (Hsame Ha PhysicalType.UINT16) by done. cbn [mbind res_bind]. apply written_fixed; [done|by rewrite zlen_le|lia|by rewrite E].
  - destruct Ht as [E Hm]. assert (Hk : null_kind_of col = Fixed) by (by eapply fixed_of).
    rewrite (Hsame Ha PhysicalType.UINT32) by done. cbn [mbind res_bind]. apply written_fixed; [done|by rewrite zlen_le|lia|by rewrite E].
  - destruct Ht as (E & Hp & _). assert (Hk : null_kind_of col = Fixed) by (by eapply fixed_of).
    rewrite (Hsame Ha PhysicalType.UINT64) by done. cbn [mbind res_bind]. rewrite Ha in Hv. cbn in Hv.
    apply EncodeDecimal_written; [unfold huge; lia..|]. intros payload Hl. apply written_fixed; [done|done|rewrite Hp; done|by rewrite E].
  - destruct Ht as (E & Hp & _). assert (Hk : null_kind_of col = Fixed) by (by eapply fixed_of).
    rewrite (Hsame Ha PhysicalType.INT128) by done. cbn [mbind res_bind]. rewrite Ha in Hv. cbn [storage value_ok] in Hv.
    unfold integer.CheckHugeintFitsDecimal38, integer.MaxDecimal38, POWERS_OF_TEN. pose proof pow10_38 as Hp38.
    assert (0 < 10 ^ 38) by done. set (M := 10 ^ 38) in *. clearbody M. rewrite h_neg_exact by (unfold huge; lia). cbn [mbind res_bind].
    destruct (Z.ltb_spec (M - 1) z); [done|]. destruct (Z.ltb_spec z (- (M - 1))); [done|]. cbn [orb].
    apply EncodeDecimal_written; [unfold huge; lia..|]. intros payload Hl. apply written_fixed; [done|done|rewrite Hp; done|by rewrite E].
Qed.

Lemma boolean_cell col v row z : target_ok col -> holds_cell v row (Word z) -> type_ok (GetType v) ->
  id (duckdb_type col) = BOOLEAN -> accepts (id (GetType v)) BOOLEAN = true -> written col (boolean.EncodeToBcp v row col).
Proof.
  intros Ht Hc [Hi _] Hd Ha. apply bool_decide_eq_true in Ha. pose proof Ht as Ht'. unfold target_ok in Ht. rewrite Hd in Ht. destruct Ht as [E Hm].
  unfold boolean.EncodeToBcp. rewrite (FormatWord_cell v row z) by (done || by rewrite Hi, Ha). cbn [mbind res_bind].
  apply written_fixed; [by eapply fixed_of|done|done|by rewrite E].
Qed.

Lemma float_cell col v row z : target_ok col -> holds_cell v row (Word z) -> type_ok (GetType v) ->
  FamilyFromLogicalType (duckdb_type col) = Ok Float -> accepts (id (GetType v)) (id (duckdb_type col)) = true ->
  written col (float_family.EncodeToBcp v row col).
Proof.
  intros Ht Hc [Hi _] Hf Ha. unfold float_family.EncodeToBcp. pose proof Ht as Ht'. unfold target_ok in Ht. unfold FamilyFromLogicalType in Hf.
  assert (Hs : id (GetType v) = FLOAT \/ id (GetType v) = DOUBLE).
  { destruct (id (duckdb_type col)); try discriminate Hf; apply bool_decide_eq_true in Ha; rewrite !elem_of_cons, elem_of_nil in Ha; tauto. }
  assert (Hk : null_kind_of col = Fixed /\ tds_type_token col = TDS_TYPE_FLOATN).
  { destruct (id (duckdb_type col)); try discriminate Hf; destruct Ht as [E _]; split; try done; by eapply fixed_of. }
  destruct Hk as [Hk E].
  assert (Hw : forall x, written col (if bool_decide (id (duckdb_type col) = FLOAT) then Ok (float_family.AppendFloatBcp (Values.narrow x))
                                      else Ok (float_family.AppendDoubleBcp x))).
  { intros x. case_bool_decide; apply written_fixed; (done || (rewrite ?zlen_le; done) || by rewrite E). }
  destruct Hs as [Es|Es]; rewrite !Es in *.
  - rewrite (bool_decide_eq_true_2 (FLOAT = FLOAT)) by done. cbn [negb andb]. rewrite (FormatWord_cell v row z) by done. apply Hw.
  - rewrite (bool_decide_eq_false_2 (DOUBLE = FLOAT)), (bool_decide_eq_true_2 (DOUBLE = DOUBLE)) by done. cbn [negb andb].
    rewrite (FormatWord_cell v row z) by done. apply Hw.
Qed.

Lemma decimal_cell col v row z : target_ok col -> holds_cell v row (Word z) -> type_ok (GetType v) ->
  id (duckdb_type col) = DECIMAL -> accepts (id (GetType v)) DECIMAL = true -> written col (decimal.EncodeToBcp v row col).
Proof.
  intros Ht Hc Hty Hd Ha. apply bool_decide_eq_true in Ha. rewrite !elem_of_cons, elem_of_nil in Ha.
  pose proof Ht as Ht'. unfold target_ok in Ht. rewrite Hd in Ht. destruct Ht as (E & Hp & Hsc & Hm).
  assert (Hs : decimal_source (GetType v)) by (split; [done|tauto]).
  unfold decimal.EncodeToBcp, decimal.ScatterToBcp. rewrite (WidenVectorToHugeint_cell v row z) by done. cbn [mbind res_bind].
  pose proof (SourceScale_range _ Hs) as Hr.
  destruct (RescaleMantissa_spec z (scale col - decimal.SourceScale (GetType v))) as (m & _ & Hcase); [lia|].
  destruct Hcase as [Em|[_ [msg Em]]]; rewrite Em; cbn [mbind res_bind]; [|done].
  unfold decimal.CheckMantissaFitsPrecision, POWERS_OF_TEN.
  rewrite (proj2 (Z.eqb_neq (precision col) 0)), (proj2 (Z.ltb_ge 38 (precision col))) by lia. cbn [orb].
  assert (10 ^ precision col <= 10 ^ 38) by (apply Z.pow_le_mono_r; lia). pose proof pow10_38.
  assert (Hpos : 0 < 10 ^ precision col) by (apply Z.pow_pos_nonneg; lia).
  rewrite h_neg_exact by (apply huge_38; lia). cbn [mbind res_bind].
  destruct (Z.ltb_spec (10 ^ precision col - 1) m); [done|]. destruct (Z.ltb_spec m (- (10 ^ precision col - 1))); [done|]. cbn [orb mbind res_bind].
  destruct (decimal_payload_back (precision col) m [] Hp ltac:(lia)) as (payload & Ep & Hl & _). rewrite Ep. cbn [mbind res_bind].
  apply written_fixed; [by eapply fixed_of|done| |by rewrite E]. destruct (GetDecimalByteSize_cases (precision col)); lia.
Qed.

Lemma uuid_cell col v row z : target_ok col -> holds_cell v row (Word z) -> type_ok (GetType v) ->
  id (duckdb_type col) = UUID -> accepts (id (GetType v)) UUID = true -> written col (uuid.EncodeToBcp v row col).
Proof.
  intros Ht Hc [Hi _] Hd Ha. apply bool_decide_eq_true in Ha. pose proof Ht as Ht'. unfold target_ok in Ht. rewrite Hd in Ht. destruct Ht as [E Hm].
  unfold uuid.EncodeToBcp, uuid.ScatterToBcp. rewrite (FormatWord_cell v row z) by (done || by rewrite Hi, Ha). cbn [mbind res_bind].
  destruct Hc as [_ Hv]. rewrite Hi, Ha in Hv. change uuid.GUID_LENGTH_PREFIX with 16. apply written_fixed; [by eapply fixed_of|done|done|done].
Qed.

Lemma interval_text z : exists cps, Forall scalar cps /\ Interval_ToString z = utf8_encode cps /\ zlen (Interval_ToString z) < 2147483648.
Proof.
  destruct (Interval_ToString_ascii z) as [Ha Hl]. exists (b2z <$> Interval_ToString z). split_and!; [| |lia].
  - apply Forall_fmap. eapply Forall_impl; [exact Ha|]. intros b Hb. cbn in *. pose proof (b2z_range b). split; lia.
  - clear Hl. induction Ha as [|b s Hb _ IH]; [done|]. cbn [fmap list_fmap]. rewrite IH at 1.
    change (utf8_encode (b2z b :: (b2z <$> s))) with (utf8_enc (b2z b) ++ utf8_encode (b2z <$> s)).
    unfold utf8_enc. rewrite (proj2 (Z.ltb_lt _ 0x80)) by lia. cbn [bs fmap list_fmap app]. by rewrite z2b_b2z.
Qed.

Lemma utf16_shorter cps : Forall scalar cps -> zlen (utf16_encode cps) <= zlen (utf8_encode cps).
Proof.
  intros Hc. pose proof (size16_sum cps) as H16. pose proof (size8_sum cps) as H8.
  assert (foldr (fun c n => size16 c + n) 0 cps <= 2 * foldr (fun c n => size8 c + n) 0 cps); [|lia].
  clear H16 H8. induction Hc as [|c cps Hc _ IH]; [done|]. cbn [foldr]. assert (size16 c <= 2 * size8 c); [|lia].
  unfold size16, size8, utf8_enc, utf16_enc.
  destruct (Z.ltb_spec c 0x80) as [A1|A1]; [|destruct (Z.ltb_spec c 0x800) as [A2|A2]; [|destruct (Z.ltb_spec c 0x10000) as [A3|A3]]];
    rewrite ?(proj2 (Z.ltb_lt c 0x10000)) by lia; repeat case_match; try lia; vm_compute; discriminate.
Qed.

Lemma kept_size_16 col cps cps1 : Forall scalar cps -> zlen (utf8_encode cps) < 2147483648 -> max_length col = 0xFFFF \/ 1 <= max_length col <= 8000 ->
  kept size16 col cps cps1 ->
  if IsPLPType col then zlen (units_bytes (utf16_encode cps1)) < 4294967296 else zlen (units_bytes (utf16_encode cps1)) < 65535.
Proof.
  intros Hc Hl Hm Hk. unfold kept in Hk. unfold IsPLPType in *. rewrite zlen_units_bytes. pose proof (utf16_shorter cps Hc).
  destruct (Z.eqb_spec (max_length col) 65535); [subst; lia|]. destruct Hk as (cps2 & -> & Hs & _). rewrite size16_sum in Hs. lia.
Qed.

Lemma kept_size_8 col cps cps1 : zlen (utf8_encode cps) < 2147483648 -> max_length col = 0xFFFF \/ 1 <= max_length col <= 8000 ->
  kept size8 col cps cps1 ->
  if IsPLPType col then zlen (utf8_encode cps1) < 4294967296 else zlen (utf8_encode cps1) < 65535.
Proof.
  intros Hl Hm Hk. unfold kept in Hk. unfold IsPLPType in *.
  destruct (Z.eqb_spec (max_length col) 65535); [subst; lia|]. destruct Hk as (cps2 & -> & Hs & _). rewrite size8_sum in Hs. lia.
Qed.

(** Text, by either encoder. *)
Lemma text_written col cps : target_ok col -> (id (duckdb_type col) = VARCHAR \/ id (duckdb_type col) = INTERVAL) ->
  Forall scalar cps -> zlen (utf8_encode cps) < 2147483648 ->
  written col (if tds_type_token col =? TDS_TYPE_BIGVARCHAR then string.EncodeVarcharUtf8 (utf8_encode cps) col
               else string.EncodeNVarcharFromUtf8 (utf8_encode cps) col).
Proof.
  intros Ht Hd Hc Hl. pose proof Ht as Ht'. unfold target_ok in Ht.
  assert (Hm : (max_length col = 0xFFFF \/ 1 <= max_length col <= 8000) /\ kind_of (tds_type_token col) <> KPrefix1).
  { destruct Hd as [Hd|Hd]; rewrite Hd in Ht; [destruct Ht as [[E Hm]|[[E|E] Hm]]|destruct Ht as [E Hm]]; rewrite E; (split; [tauto|done]). }
  destruct Hm as [Hm Hk]. apply written_framed; [by eapply variable_of|]. destruct (_ =? _).
  - destruct (EncodeVarcharUtf8_spec cps col Hc ltac:(lia)) as (cps1 & Hkept & E). rewrite E. eexists. split; [done|]. by eapply kept_size_8.
  - destruct (EncodeNVarcharFromUtf8_spec cps col Hc ltac:(lia)) as (cps1 & Hkept & E). rewrite E. eexists. split; [done|]. by eapply kept_size_16.
Qed.

Lemma text_cell col v row c : target_ok col -> holds_cell v row c -> type_ok (GetType v) -> cell_fits (id (GetType v)) c ->
  FamilyFromLogicalType (duckdb_type col) = Ok String -> accepts (id (GetType v)) (id (duckdb_type col)) = true ->
  written col (if tds_type_token col =? TDS_TYPE_BIGVARCHAR then string.EncodeToBcpUtf8 v row col else string.EncodeToBcp v row col).
Proof.
  intros Ht Hc [Hi _] Hfit Hf Ha. unfold FamilyFromLogicalType in Hf. unfold string.EncodeToBcpUtf8, string.EncodeToBcp.
  pose proof (text_written col) as Hw.
  destruct (id (duckdb_type col)) eqn:Ed; try discriminate Hf; apply bool_decide_eq_true in Ha; rewrite Ha in *.
  - destruct c as [z|s]; [destruct Hc as [_ Hv]; by rewrite Hi in Hv|]. destruct (Hfit eq_refl) as (cps & Hs & -> & Hl).
    specialize (Hw cps Ht ltac:(by left) Hs Hl). rewrite (FormatStr_cell v row _ Hc). cbn [mbind res_bind]. by destruct (_ =? _).
  - destruct c as [z|s]; [|destruct Hc as [_ [Hv _]]; by rewrite Hi in Hv]. destruct (interval_text z) as (cps & Hs & E & Hl).
    rewrite E in Hl. specialize (Hw cps Ht ltac:(by right) Hs Hl).
    rewrite (FormatWord_cell v row z) by done. cbn [mbind res_bind]. rewrite E. by destruct (_ =? _).
Qed.

(** A binary value is cut to the column's bound and framed. *)
Lemma binary_framed s col : zlen s < 4294967296 -> max_length col = 0xFFFF \/ 1 <= max_length col <= 8000 ->
  (if IsPLPType col then EncodeBinaryPLP s else EncodeBinary (binary.ClampBlobToBound s col)) =
  framed col (if IsPLPType col then s else binary.ClampBlobToBound s col) /\
  (IsPLPType col = false -> zlen (binary.ClampBlobToBound s col) <= 8000).
Proof.
  intros Hl Hm. pose proof (zlen_nonneg s). unfold framed, EncodeBinaryPLP, EncodeBinary, plp. destruct (IsPLPType col) eqn:Ep.
  - split; [|done]. rewrite Z.mod_small by lia. change string.WritePlpHeader with (le 8 UNKNOWN_PLP_LEN). change string.WriteLe32 with (le 4).
    apply (f_equal (app _)). destruct (Z.ltb_spec 0 (zlen s)), (Z.eqb_spec (zlen s) 0); try lia; [|done]. by rewrite ztake_all, <- app_assoc.
  - unfold IsPLPType in Ep. apply Z.eqb_neq in Ep.
    assert (Hb : 0 <= zlen (binary.ClampBlobToBound s col) <= 8000).
    { unfold binary.ClampBlobToBound. rewrite (proj2 (Z.eqb_neq (max_length col) 0)) by lia. cbn [orb].
      destruct (Z.leb_spec (zlen s) (max_length col)); [lia|]. rewrite zlen_ztake; lia. }
    split; [|lia]. rewrite Z.mod_small by lia. by rewrite ztake_all.
Qed.

Lemma binary_cell col v row c : target_ok col -> holds_cell v row c -> type_ok (GetType v) ->
  FamilyFromLogicalType (duckdb_type col) = Ok Binary -> accepts (id (GetType v)) (id (duckdb_type col)) = true ->
  written col (binary.EncodeToBcp v row col).
Proof.
  intros Ht Hc [Hi _] Hf Ha. unfold FamilyFromLogicalType in Hf. pose proof Ht as Ht'. unfold target_ok in Ht.
  destruct (id (duckdb_type col)) eqn:Ed; try discriminate Hf; [|done]. destruct Ht as [E Hm].
  apply bool_decide_eq_true in Ha. rewrite !elem_of_cons, elem_of_nil in Ha.
  assert (Hp : InternalType (GetType v) = PhysicalType.VARCHAR) by (rewrite Hi; destruct Ha as [-> | [-> | []]]; done).
  destruct c as [z|s]; [destruct Hc as [_ Hv]; by rewrite Hp in Hv|].
  unfold binary.EncodeToBcp. rewrite (FormatStr_cell v row s Hc). cbn [mbind res_bind]. destruct Hc as [_ [_ Hl]].
  apply written_framed; [by eapply variable_of; [..|rewrite ?E]|]. destruct (binary_framed s col Hl Hm) as [-> Hb].
  eexists. split; [done|]. destruct (IsPLPType col); [done|]. specialize (Hb eq_refl). lia.
Qed.

Lemma EncodeTime_written z s Q : 0 <= s <= 7 -> 0 <= z <= 86400000000 ->
  (forall p, zlen p = GetTimeByteSize s -> Q (z2b (GetTimeByteSize s) :: p)) -> holds (EncodeTime z s) Q.
Proof.
  intros Hs Hz HQ. unfold EncodeTime. apply holds_bind.
  apply (holds_mono _ (fun _ => True)); [|intros x _; apply HQ; rewrite zlen_le; pose proof (GetTimeByteSize_range s); lia].
  unfold scale_time. destruct (Z.leb_spec s 6) as [Hc|Hc]; [|apply holds_int64; [lia|done]].
  rewrite !Pow10_pow, !Z2Nat.id by lia. assert (0 < 10 ^ (6 - s) <= 10 ^ 6) by (split; [apply Z.pow_pos_nonneg; lia|apply Z.pow_le_mono_r; lia]).
  change (10 ^ 6) with 1000000 in *. apply holds_bind, holds_int64; [|done]. zlia.
Qed.

Lemma Compute_written z d u s Q : unit_of d = Some u -> 0 <= s <= 7 -> -9223372036854775808 <= z - 86400 * u + 1 -> z < 9223372036854775808 ->
  (forall x, Q x) -> holds (datetime.ComputeDatetime2Components z d s) Q.
Proof.
  intros Hd Hs Hlo Hhi HQ. destruct (unit_cases d u Hd) as [E Hu]. unfold datetime.ComputeDatetime2Components.
  rewrite E. cbn [mbind res_bind]. change SECONDS_PER_DAY with 86400. rewrite (Z.mul_comm u), split_days_floor by lia. cbn [mbind res_bind].
  rewrite Pow10_scale by done. cbn [mbind res_bind]. pose proof (units_divide u s Hu Hs) as Hf.
  pose proof (Z.mod_pos_bound z (86400 * u) ltac:(lia)) as Hm.
  destruct (u <=? 10 ^ s); [|by destruct (_ <=? _); apply HQ]. destruct Hf as (f & Hf & Et & ->).
  assert (10 ^ s <= 10 ^ 7) by (apply Z.pow_le_mono_r; lia). change (10 ^ 7) with 10000000 in *.
  set (sub := z mod (86400 * u)) in *. clearbody sub. apply holds_bind, holds_int64; [nia|apply HQ].
Qed.

Lemma datetime2_written col time date : target_ok col -> id (duckdb_type col) ∈ [TIMESTAMP; TIMESTAMP_MS; TIMESTAMP_NS; TIMESTAMP_SEC] ->
  written col (Ok (EncodeDatetime2Raw time date (scale col))).
Proof.
  intros Ht Hd. pose proof Ht as Ht'. unfold target_ok in Ht. pose proof (GetTimeByteSize_range (scale col)).
  assert (E : tds_type_token col = TDS_TYPE_DATETIME2) by (destruct (datetime_target _ Hd) as [Ed|[Ed|[Ed|Ed]]]; rewrite Ed in Ht; apply Ht).
  unfold EncodeDatetime2Raw. cbv zeta. apply written_fixed; [by eapply fixed_of|rewrite zlen_app, !zlen_le; lia|lia|by rewrite E].
Qed.

Lemma datetime_cell col v row c : target_ok col -> holds_cell v row c -> type_ok (GetType v) -> cell_fits (id (GetType v)) c ->
  FamilyFromLogicalType (duckdb_type col) = Ok DateTime -> accepts (id (GetType v)) (id (duckdb_type col)) = true ->
  written col (datetime.EncodeToBcp v row col).
Proof.
  intros Ht Hc [Hi _] Hfit Hf Ha. unfold FamilyFromLogicalType in Hf. pose proof Ht as Ht'. unfold target_ok in Ht.
  pose proof (GetTimeByteSize_range (scale col)) as Hg. unfold datetime.EncodeToBcp.
  assert (Hz : exists z, c = Word z).
  { destruct c as [z|s]; [by exists z|]. destruct Hc as [_ [Hv _]]. rewrite Hi in Hv.
    destruct (id (duckdb_type col)), (id (GetType v)); first [discriminate Ha|discriminate Hf|discriminate Hv|done]. }
  destruct Hz as [z ->]. pose proof Hc as [_ Hv].
  assert (Hts : forall u, unit_of (id (GetType v)) = Some u -> id (GetType v) <> DATE -> cell_fits (id (GetType v)) (Word z) ->
     InternalType (GetType v) = PhysicalType.INT64 /\ -9223372036854775808 <= z - 86400 * u + 1 /\ z < 9223372036854775808).
  { intros u Hu Hnd Hfit'. rewrite Hi in Hv |- *. destruct (id (GetType v)); try discriminate Hu; cbn in Hfit', Hu, Hv; injection Hu as <-; split_and!; (done || lia). }
  assert (Hstamp : id (duckdb_type col) ∈ [TIMESTAMP; TIMESTAMP_MS; TIMESTAMP_NS; TIMESTAMP_SEC] ->
    0 <= scale col <= 7 -> id (GetType v) = DATE \/ (exists u, unit_of (id (GetType v)) = Some u) ->
    written col (if bool_decide (id (GetType v) = DATE)
       then d ← FormatWord PhysicalType.INT32 v row; days ← int32 (d + DAYS_FROM_0001_TO_EPOCH); Ok (EncodeDatetime2Raw 0 (ux 32 days) (scale col))
       else t ← FormatWord PhysicalType.INT64 v row;
         '(time_value, date_value) ← datetime.ComputeDatetime2Components t (id (GetType v)) (scale col);
         Ok (EncodeDatetime2Raw time_value date_value (scale col)))).
  { intros Hd Hs Hsrc. case_bool_decide as Ed.
    - rewrite Ed in Hi, Hfit. rewrite Hi in Hv. cbn in Hfit, Hv. rewrite (FormatWord_cell v row z) by done. cbn [mbind res_bind].
      unfold DAYS_FROM_0001_TO_EPOCH. apply holds_bind, holds_int32; [lia|]. by apply datetime2_written.
    - destruct Hsrc as [?|[u Hu]]; [done|]. destruct (Hts u Hu Ed Hfit) as (Hp & Hlo & Hhi).
      rewrite (FormatWord_cell v row z) by done. cbn [mbind res_bind]. apply holds_bind.
      eapply Compute_written; [done..|]. intros [time date]. by apply datetime2_written. }
  destruct (id (duckdb_type col)) eqn:Ed; try discriminate Hf; apply bool_decide_eq_true in Ha.
  - destruct Ht as [E Hm]. rewrite Ha in Hi, Hfit. rewrite Hi in Hv. cbn in Hfit, Hv. rewrite (FormatWord_cell v row z) by done. cbn [mbind res_bind].
    unfold EncodeDate, DAYS_FROM_0001_TO_EPOCH. apply holds_bind, holds_int32; [lia|].
    apply written_fixed; [by eapply fixed_of|by rewrite zlen_le|done|by rewrite E].
  - destruct Ht as (E & Hs & Hm). rewrite Ha in Hi, Hfit. cbn in Hfit. rewrite (FormatWord_cell v row z) by done. cbn [mbind res_bind].
    apply EncodeTime_written; [done..|]. intros p Hp. apply written_fixed; [by eapply fixed_of|done|lia|by rewrite E].
  - apply Hstamp; [rewrite !elem_of_cons; tauto|lia|]. rewrite !elem_of_cons, elem_of_nil in Ha.
    destruct Ha as [-> | [-> | [-> | [-> | [-> | []]]]]]; [right; by eexists..|by left].
  - apply Hstamp; [rewrite !elem_of_cons; tauto|lia|]. rewrite Ha. right; by eexists.
  - apply Hstamp; [rewrite !elem_of_cons; tauto|lia|]. rewrite Ha. right; by eexists.
  - apply Hstamp; [rewrite !elem_of_cons; tauto|lia|]. rewrite Ha. right; by eexists.
  - destruct Ht as (E & Hs & Hm). destruct (Hts 1000000) as (Hp & Hlo & Hhi); [by rewrite Ha|by rewrite Ha|done|].
    rewrite (FormatWord_cell v row z) by done. cbn [mbind res_bind]. rewrite Ha. apply holds_bind.
    eapply Compute_written; [done..|]. intros [time date]. unfold EncodeDatetimeOffsetRaw. cbv zeta.
    apply written_fixed; [by eapply fixed_of|rewrite !zlen_app, !zlen_le; lia|lia|by rewrite E].
Qed.

(** A target column has an encoder, which writes what the column accepts. *)
Lemma cell_written col v row c : target_ok col -> type_ok (GetType v) -> accepts (id (GetType v)) (id (duckdb_type col)) = true ->
  holds_cell v row c -> cell_fits (id (GetType v)) c -> exists f, ResolveEncoder col = Ok f /\ written col (f v row col).
Proof.
  intros Ht Hty Ha Hc Hfit. unfold ResolveEncoder. destruct (FamilyFromLogicalType (duckdb_type col)) as [fam|e|] eqn:Ef.
  2-3: unfold FamilyFromLogicalType, target_ok in *; by destruct (id (duckdb_type col)).
  assert (Hw : forall p, value_ok p c -> p <> PhysicalType.VARCHAR -> exists z, c = Word z) by (intros p; destruct c; [by eexists|by intros [-> _]]).
  assert (Hword : id (duckdb_type col) <> VARCHAR -> id (duckdb_type col) <> BLOB -> exists z, c = Word z).
  { intros H2 H3. apply (Hw (InternalType (GetType v))); [apply Hc|]. destruct Hty as [-> _].
    unfold target_ok in Ht.
    destruct (id (duckdb_type col)), (id (GetType v)); first [discriminate Ha|done|by destruct H2|by destruct H3|cbn; repeat case_match; done]. }
  destruct fam; try (eexists; split; [done|]).
  - assert (Ed : id (duckdb_type col) = BOOLEAN) by (unfold FamilyFromLogicalType in Ef; by destruct (id (duckdb_type col))).
    destruct Hword as [z ->]; [by rewrite Ed..|]. rewrite Ed in Ha. by eapply boolean_cell.
  - destruct Hword as [z ->]; [unfold FamilyFromLogicalType in Ef; by destruct (id (duckdb_type col))..|]. by eapply integer_cell.
  - destruct Hword as [z ->]; [unfold FamilyFromLogicalType in Ef; by destruct (id (duckdb_type col))..|]. by eapply float_cell.
  - assert (Ed : id (duckdb_type col) = DECIMAL) by (unfold FamilyFromLogicalType in Ef; by destruct (id (duckdb_type col))).
    destruct Hword as [z ->]; [by rewrite Ed..|]. rewrite Ed in Ha. by eapply decimal_cell.
  - unfold FamilyFromLogicalType in Ef; by destruct (id (duckdb_type col)).
  - pose proof (text_cell col v row c Ht Hc Hty Hfit Ef Ha) as Hx. by destruct (_ =? _).
  - by eapply binary_cell.
  - by eapply datetime_cell.
  - assert (Ed : id (duckdb_type col) = UUID) by (unfold FamilyFromLogicalType in Ef; by destruct (id (duckdb_type col))).
    destruct Hword as [z ->]; [by rewrite Ed..|]. rewrite Ed in Ha. by eapply uuid_cell.
Qed.
End Cells.

(** ** Rows and chunks *)

(** The values of [n] rows of a vector. *)
Definition vector_ok (n : nat) (v : Vector) : Prop :=
  type_ok (GetType v) /\
  forall row, (row < n)%nat -> FormatIsNull (ToUnifiedFormat v) row = false ->
    exists c, holds_cell v row c /\ cell_fits (id (GetType v)) c.

Definition source_ok (n : nat) (chunk : DataChunk) (col : BCPColumnMetadata) (source_idx : Z) : Prop :=
  forall v, 0 <= source_idx -> chunk_data chunk !! Z.to_nat source_idx = Some v ->
    null_only_source col = false -> accepts (id (GetType v)) (id (duckdb_type col)) = true /\ vector_ok n v.

(** Where column [i] comes from. *)
Definition source_of (column_mapping : option (list Z)) (i : nat) : Z :=
  match column_mapping with Some m => default (-1) (m !! i) | None => Z.of_nat i end.

(** Is the value of a row NULL, by the source alone? *)
Definition null_at (chunk : DataChunk) (column_mapping : option (list Z)) (i row : nat) : bool :=
  if source_of column_mapping i <? 0 then true
  else match chunk_data chunk !! Z.to_nat (source_of column_mapping i) with
       | Some v => FormatIsNull (ToUnifiedFormat v) row
       | None => true
       end.

Definition loadable (n : nat) (chunk : DataChunk) (columns : list BCPColumnMetadata) (column_mapping : option (list Z)) : Prop :=
  (forall m, column_mapping = Some m -> (length columns <= length m)%nat) /\
  forall i col, columns !! i = Some col -> target_ok col /\ source_ok n chunk col (source_of column_mapping i).

Section RowsSpec.
Context `{Hugeint} `{Floats} `{DuckDB} {S : Simdutf} {Spec : SimdutfSpec S}.

(** A state that writes the values of [null]'s complement, and only those. *)
Definition state_ok (n : nat) (null : nat -> bool) (col : BCPColumnMetadata) (state : ColumnEncodeState) : Prop :=
  null_kind state = null_kind_of col /\
  forall row, (row < n)%nat ->
    if null row then encode_cell row col state = Ok (frame col None) else written col (encode_cell row col state).

Lemma all_null_spec fmt n row : all_null fmt n = true -> (row < n)%nat -> FormatIsNull fmt row = true.
Proof.
  induction n as [|n IH]; [lia|]. cbn [all_null]. intros [Ha Hn]%andb_prop Hr. destruct (decide (row = n)) as [->|]; [done|].
  apply IH; [done|lia].
Qed.

Lemma PrepareColumnState_ok n chunk col column_mapping i :
  target_ok col -> source_ok n chunk col (source_of column_mapping i) ->
  holds (PrepareColumnState chunk n col (source_of column_mapping i)) (state_ok n (null_at chunk column_mapping i) col).
Proof.
  intros Ht Hs. unfold PrepareColumnState, source_ok, null_at in *. set (idx := source_of column_mapping i) in *. clearbody idx.
  destruct (Z.ltb_spec idx 0) as [Hi|Hi]; [by split|].
  destruct (chunk_data chunk !! Z.to_nat idx) as [v|] eqn:Ev; [|by split]. specialize (Hs v Hi eq_refl). destruct (null_only_source col).
  - destruct (all_null _ n) eqn:Ea; [|done]. split; [done|]. intros row Hrow. by rewrite (all_null_spec _ _ _ Ea Hrow).
  - destruct (Hs eq_refl) as (Ha & Hty & Hv). assert (He : exists f, ResolveEncoder col = Ok f).
    { unfold ResolveEncoder, FamilyFromLogicalType. unfold target_ok in Ht. destruct (id (duckdb_type col)); first [done|by eexists]. }
    destruct He as [f Ef]. rewrite Ef. split; [done|]. intros row Hrow. unfold encode_cell. cbn [vec encode].
    specialize (Hv row Hrow). destruct (FormatIsNull (ToUnifiedFormat v) row) eqn:En; [done|].
    destruct (Hv eq_refl) as (c & Hc & Hfit). destruct (cell_written col v row c Ht Hty Ha Hc Hfit) as (f2 & Ef2 & Hw). assert (f2 = f) as -> by congruence. exact Hw.
Qed.

(** What holds of every column's state holds of all of them. *)
Lemma PrepareColumnStates_each n chunk columns column_mapping (P : nat -> BCPColumnMetadata -> ColumnEncodeState -> Prop) i :
  (forall m, column_mapping = Some m -> (i + length columns <= length m)%nat) ->
  (forall j col, columns !! j = Some col -> holds (PrepareColumnState chunk n col (source_of column_mapping (i + j))) (P (i + j)%nat col)) ->
  holds (PrepareColumnStates_from chunk n columns column_mapping i) (fun states =>
    length states = length columns /\
    forall j col state, columns !! j = Some col -> states !! j = Some state -> P (i + j)%nat col state).
Proof.
  revert i. induction columns as [|col columns IH]; intros i Hm Hc; [by split|]. cbn [PrepareColumnStates_from].
  assert (E : match column_mapping with Some m => match m !! i with Some x => Ok x | None => Oob end | None => Ok (Z.of_nat i) end
              = Ok (source_of column_mapping i)).
  { unfold source_of. destruct column_mapping as [m|]; [|done]. specialize (Hm m eq_refl). cbn [length] in Hm.
    destruct (lookup_lt_is_Some_2 m i) as [x ->]; [lia|done]. }
  rewrite E. cbn [mbind res_bind]. specialize (Hc 0%nat col eq_refl) as Hc0. rewrite Nat.add_0_r in Hc0.
  apply holds_bind. eapply holds_mono; [exact Hc0|]. intros state Hst.
  apply holds_bind. eapply holds_mono; [apply (IH (Datatypes.S i))|].
  - intros m Em. specialize (Hm m Em). cbn [length] in Hm. lia.
  - intros j c Hj. replace (Datatypes.S i + j)%nat with (i + Datatypes.S j)%nat by lia. by apply Hc.
  - intros states [Hl Hall]. split; [by cbn; rewrite Hl|]. intros [|j] c st Hj Hj'.
    + injection Hj as ->. injection Hj' as ->. by rewrite Nat.add_0_r.
    + cbn in Hj, Hj'. replace (i + Datatypes.S j)%nat with (Datatypes.S i + j)%nat by lia. by apply Hall.
Qed.

Lemma PrepareColumnStates_ok n chunk columns column_mapping i :
  (forall m, column_mapping = Some m -> (i + length columns <= length m)%nat) ->
  (forall j col, columns !! j = Some col -> target_ok col /\ source_ok n chunk col (source_of column_mapping (i + j))) ->
  holds (PrepareColumnStates_from chunk n columns column_mapping i) (fun states =>
    length states = length columns /\
    forall j col state, columns !! j = Some col -> states !! j = Some state ->
      state_ok n (null_at chunk column_mapping (i + j)) col state).
Proof.
  intros Hm Hc. apply (PrepareColumnStates_each n chunk columns column_mapping (fun j col => state_ok n (null_at chunk column_mapping j) col) i Hm).
  intros j col Hj. destruct (Hc j col Hj). by apply PrepareColumnState_ok.
Qed.

(** The values of a row: NULL by [null], and the rest as their encoders write them. *)
Definition row_values (row : nat) (columns : list BCPColumnMetadata) (states : list ColumnEncodeState) (null : nat -> bool)
    (ovs : list (option bytes)) : Prop :=
  forall j col state, columns !! j = Some col -> states !! j = Some state ->
    exists ov, ovs !! j = Some ov /\ encode_cell row col state = Ok (frame col ov) /\ (ov = None <-> null j = true).

Lemma EncodeRowFromStates_wire n row columns : (row < n)%nat -> forall states null,
  length states = length columns ->
  (forall j col state, columns !! j = Some col -> states !! j = Some state -> target_ok col /\ state_ok n (null j) col state) ->
  holds (EncodeRowFromStates row columns states) (fun w =>
    exists ovs, row_wire (reader_column <$> columns) ovs w /\ row_values row columns states (fun j => null j row) ovs).
Proof.
  intros Hrow. induction columns as [|col columns IH]; intros [|state states] null Hl Hall; try done.
  - exists []. split; [constructor|]. intros j c st Hj. done.
  - cbn [EncodeRowFromStates]. destruct (Hall 0%nat col state eq_refl eq_refl) as (Ht & _ & Hst). specialize (Hst row Hrow).
    assert (Hcell : holds (encode_cell row col state) (fun w => exists ov, w = frame col ov /\ (ov = None <-> null 0%nat row = true) /\
       forall p, ov = Some p -> payload_ok col p)).
    { destruct (null 0%nat row).
      - rewrite Hst. by exists None.
      - eapply holds_mono; [exact Hst|]. intros w (p & -> & Hp). exists (Some p). split; [done|]. split; [done|]. by intros q [= <-]. }
    destruct (encode_cell row col state) as [b|e|] eqn:Eb; [|done|done]. destruct Hcell as (ov & -> & Hn & Hp). cbn [mbind res_bind].
    apply holds_bind. eapply holds_mono; [apply (IH states (fun j => null (Datatypes.S j)))|].
    + by injection Hl.
    + intros j c st Hj Hj'. by apply (Hall (Datatypes.S j)).
    + intros ws (ovs & Hw & Hv). pose proof (target_kind col Ht) as Hkind. exists (ov :: ovs). split.
      * cbn [fmap list_fmap]. constructor; [apply Hkind|by apply frame_wire|done].
      * intros [|j] c st Hj Hj'; [|by apply Hv]. injection Hj as <-. injection Hj' as <-. by exists ov.
Qed.

(** [w] is [n] rows from [row] on, a token before each, of the values [rows]. *)
Inductive chunk_wire (columns : list ColumnMetadata) : list (list (option bytes)) -> bytes -> Prop :=
  | chunk_wire_nil : chunk_wire columns [] []
  | chunk_wire_row ovs rows w ws :
      row_wire columns ovs w -> chunk_wire columns rows ws ->
      chunk_wire columns (ovs :: rows) (z2b BCP_TOKEN_ROW :: w ++ ws).

Lemma EncodeRows_wire n columns states null :
  length states = length columns ->
  (forall j col state, columns !! j = Some col -> states !! j = Some state -> target_ok col /\ state_ok n (null j) col state) ->
  forall k row, (row + k <= n)%nat ->
  holds (EncodeRows k row columns states) (fun w =>
    exists rows, chunk_wire (reader_column <$> columns) rows w /\ length rows = k /\
      forall i ovs, rows !! i = Some ovs -> row_values (row + i) columns states (fun j => null j (row + i)%nat) ovs).
Proof.
  intros Hl Hall k. induction k as [|k IH]; intros row Hk; [exists []; by split; [constructor|]|]. cbn [EncodeRows].
  apply holds_bind. eapply holds_mono; [eapply (EncodeRowFromStates_wire n row); [lia|done..]|]. intros w (ovs & Hw & Hv).
  apply holds_bind. eapply holds_mono; [apply (IH (Datatypes.S row)); lia|]. intros ws (rows & Hws & Hn & Hr).
  exists (ovs :: rows). split; [by constructor|]. split; [cbn; by rewrite Hn|]. intros [|i] o Hi.
  - injection Hi as <-. by rewrite Nat.add_0_r.
  - replace (row + Datatypes.S i)%nat with (Datatypes.S row + i)%nat by lia. by apply Hr.
Qed.
End RowsSpec.

(** Reading [n] rows off a chunk: each token, then the row after it. *)
Fixpoint read_rows (n : nat) (columns : list ColumnMetadata) (data : bytes) : option (list RowData) :=
  match n with
  | O => match data with [] => Some [] | _ => None end
  | Datatypes.S n =>
      match data with
      | token :: data =>
          if b2z token =? TokenType.ROW then
            match ReadRow columns data (mkRowData [] []) with
            | Ok (Some (k, row)) => rows ← read_rows n columns (zdrop k data); Some (row :: rows)
            | _ => None
            end
          else None
      | [] => None
      end
  end.

Lemma chunk_wire_read columns rows w : chunk_wire columns rows w ->
  read_rows (length rows) columns w = Some (row_of <$> rows).
Proof.
  induction 1 as [|ovs rows w ws Hw _ IH]; [done|]. cbn [read_rows length fmap list_fmap].
  assert (E : ReadRow columns (w ++ ws) (mkRowData [] []) = Ok (Some (zlen w, row_of ovs))) by (by apply ReadRow_complete).
  change (b2z (z2b BCP_TOKEN_ROW) =? TokenType.ROW) with true. cbv iota. rewrite E, zdrop_app_length by done.
  change (list_fmap _ _ row_of rows) with (row_of <$> rows). by rewrite IH.
Qed.

(** The rows a chunk's states are encoded to. *)
Lemma EncodeRows_loadable `{Hugeint} `{Floats} `{DuckDB} {S : Simdutf} {Spec : SimdutfSpec S}
  (chunk : DataChunk) (columns : list BCPColumnMetadata) (column_mapping : option (list Z)) :
  loadable (chunk_size chunk) chunk columns column_mapping ->
  holds (PrepareColumnStates chunk (chunk_size chunk) columns column_mapping) (fun states =>
    holds (EncodeRows (chunk_size chunk) 0 columns states) (fun w =>
      exists rows, chunk_wire (reader_column <$> columns) rows w /\ length rows = chunk_size chunk /\
        forall i ovs, rows !! i = Some ovs -> row_values i columns states (fun j => null_at chunk column_mapping j i) ovs)).
Proof.
  intros [Hm Hc]. eapply holds_mono; [by apply (PrepareColumnStates_ok (chunk_size chunk) chunk columns column_mapping 0 Hm Hc)|].
  intros states [Hl Hst]. apply (EncodeRows_wire (chunk_size chunk) columns states (null_at chunk column_mapping) Hl); [|lia].
  intros j col state Hj Hj'. split; [apply (Hc j col Hj)|by apply (Hst j)].
Qed.

(** C10. A chunk written row by row for the columns of a target table: the encoder
    never goes outside its inputs, and whatever it writes, the reader of result
    rows takes as exactly that many rows, to the last byte; a value is NULL
    exactly where the source column is absent or NULL, and otherwise it is the
    payload its codec wrote. *)
Theorem Rows_read_back `{Hugeint} `{Floats} `{DuckDB} {S : Simdutf} {Spec : SimdutfSpec S}
  (chunk : DataChunk) (columns : list BCPColumnMetadata) (column_mapping : option (list Z))
  (Hload : loadable (chunk_size chunk) chunk columns column_mapping) :
  PrepareColumnStates chunk (chunk_size chunk) columns column_mapping <> Oob /\
  forall states, PrepareColumnStates chunk (chunk_size chunk) columns column_mapping = Ok states ->
    EncodeRows (chunk_size chunk) 0 columns states <> Oob /\
    forall w, EncodeRows (chunk_size chunk) 0 columns states = Ok w ->
      exists rows, read_rows (chunk_size chunk) (reader_column <$> columns) w = Some (row_of <$> rows) /\
        length rows = chunk_size chunk /\
        forall i ovs, rows !! i = Some ovs -> row_values i columns states (fun j => null_at chunk column_mapping j i) ovs.
Proof.
  pose proof (EncodeRows_loadable chunk columns column_mapping Hload) as Hp. split; [by eapply holds_safe|].
  intros states Es. apply (holds_Ok _ _ _ Hp) in Es. split; [by eapply holds_safe|]. intros w Ew.
  apply (holds_Ok _ _ _ Es) in Ew as (rows & Hw & Hlr & Hv). exists rows. split; [|done]. rewrite <- Hlr. by apply chunk_wire_read.
Qed.

(** ** The property at work *)

(** A [tinyint] from a BIGINT column that is NULL in its first row, an
    [nvarchar(2)], and a column without a source. *)
Definition id_vector : Vector :=
  mkVector (mkLogicalType BIGINT PhysicalType.INT64 0 0) (mkFormat (fun _ => Word 200) None (Some (fun i => negb (i =? 0)%nat))).
Definition sample_chunk : DataChunk := mkChunk [id_vector; text_vector] 2.
Definition sample_columns : list BCPColumnMetadata := [tinyint_column; nvarchar2_column; decimal_column].
Definition sample_mapping : option (list Z) := Some [0; 1; -1].

Lemma sample_loadable : loadable 2 sample_chunk sample_columns sample_mapping.
Proof.
  split; [by intros m [= <-]|].
  intros [|[|[|i]]] col Hc; try discriminate Hc; injection Hc as <-; (split; [cbn; repeat split; first [done|lia|right; split; [by left|right; lia]]|]).
  - intros v _ [= <-] _. split; [done|]. split; [split; [done|by intros [=]]|]. intros row _ _. exists (Word 200). by repeat split.
  - intros v _ [= <-] _. split; [done|]. split; [split; [done|by intros [=]]|]. intros row _ _.
    exists (Str (utf8_encode [0x41; 0x1F600])). split; [by repeat split|]. intros _. exists [0x41; 0x1F600].
    split; [|by split]. repeat constructor; vm_compute; intuition discriminate.
  - intros v Hv. by vm_compute in Hv.
Qed.

Definition sample_wire : bytes := bs [0xD1; 0; 2; 0; 0x41; 0; 0; 0xD1; 1; 200; 2; 0; 0x41; 0; 0].

Definition sample_states : list ColumnEncodeState :=
  [mkState (Some id_vector) (Some (integer.EncodeToBcp (H := Checked.hugeint) (H0 := Checked.duckdb))) Fixed;
   mkState (Some text_vector) (Some (string.EncodeToBcp (H := RefSimdutf.simdutf) (H0 := Checked.duckdb))) VariableUShort;
   mkState None None Fixed].

Lemma Rows_read_back_witness :
  exists rows, read_rows 2 (reader_column <$> sample_columns) sample_wire = Some (row_of <$> rows) /\ length rows = 2%nat.
Proof.
  refine (match proj2 (proj2 (Rows_read_back (H := Checked.hugeint) (H0 := Checked.floats) (H1 := Checked.duckdb) (S := RefSimdutf.simdutf)
      (Spec := ref_simdutf_spec) sample_chunk sample_columns sample_mapping sample_loadable) sample_states _) sample_wire _ with
    ex_intro _ rows (conj Hr (conj Hl _)) => ex_intro _ rows (conj Hr Hl) end).
  - reflexivity.
  - vm_compute. reflexivity.
Defined.
