(* ===== verification/Scatter.v ===== *)
(** * The columnar path of a bulk load

    tds/encoding/bcp_row_encoder.cpp ([TryEncodeChunkColumnar], [EncodeChunk] and
    the kernels of plain copies and conversions), codec/write_column_ops.cpp,
    codec/scatter_position.hpp, and the batch kernels of codec/decimal_codec.cpp,
    datetime_codec.cpp, uuid_codec.cpp and string_codec.cpp.

    The room for a chunk is reserved first, from metadata and validity masks, and
    the columns are then written into it at computed places. The room is a list of
    bytes [mem], zero at first, written by [store], which is [Oob] outside it; a
    cursor is an array of positions, one per row. A kernel's loop over rows is
    [scatter_rows]; what it writes for a row is a [cell] of its own. The kernels'
    templates on the selection vector ([HAS_SEL]) are one definition, since
    [get_index] makes the same choice. Counters are left out.

    The theorems are in [ScatterSpec]. *)

From S2P Require Import Prelude TdsTypes Utf16 Values Encoding Codecs BcpRow.

(** ** Writing at a place *)

Definition store (mem : bytes) (off : Z) (b : bytes) : res bytes :=
  if (0 <=? off) && (off + zlen b <=? zlen mem) then Ok (ztake off mem ++ b ++ zdrop (off + zlen b) mem) else Oob.

(** [StridePos] and [CursorPos] (scatter_position.hpp); [dst] is an offset. *)
Inductive Pos : Type :=
  | StridePos (dst stride : Z)
  | CursorPos (dst : Z) (row_begin : nat).

Definition At (pos : Pos) (cursor : list Z) (r : nat) : res Z :=
  match pos with
  | StridePos dst stride => Ok (dst + Z.of_nat r * stride)
  | CursorPos dst row_begin => match cursor !! (row_begin + r)%nat with Some c => Ok (dst + c) | None => Oob end
  end.

Definition Advance (pos : Pos) (cursor : list Z) (r : nat) (n : Z) : list Z :=
  match pos with
  | StridePos _ _ => cursor
  | CursorPos _ row_begin => alter (fun c => c + n) (row_begin + r)%nat cursor
  end.

(** What a kernel works on: the room, and the cursors. *)
Definition room : Type := bytes * list Z.

(** [for (idx_t r = 0; r < rows; r++)] of every kernel: the row's bytes at the
    row's place. [cell] is block-relative. *)
Fixpoint scatter_rows (pos : Pos) (cell : nat -> res bytes) (rows r : nat) (b : room) : res room :=
  match rows with
  | O => Ok b
  | S rows =>
      out ← At pos b.2 r;
      w ← cell r;
      mem ← store b.1 out w;
      scatter_rows pos cell rows (S r) (mem, Advance pos b.2 r (zlen w))
  end.

(** The test for NULL at the head of a kernel's body: a zero length byte. *)
Definition unless_null (has_nulls : bool) (fmt : UnifiedVectorFormat) (idx : nat) (value : res bytes) : res bytes :=
  if has_nulls && negb (RowIsValid fmt idx) then Ok [Byte.x00] else value.

(** [src[idx]]. *)
Definition src_at (fmt : UnifiedVectorFormat) (idx : nat) : Z := word (data fmt idx).

(** ** Which kernel (write_column_ops.cpp) *)

Inductive ScatterArm : Type :=
  | Unsupported | NullOnly | DirectCopy1 | DirectCopy2 | DirectCopy4 | DirectCopy8 | IntConvert | FloatConvert
  | DecimalArm | DatetimeArm | GuidArm | VarString | RowFallback.

#[export] Instance ScatterArm_eq_dec : EqDecision ScatterArm.
Proof. solve_decision. Defined.

Record WriteColumnOps : Type := mkOps { arm : ScatterArm; kind : NullWireKind; wire_width : Z; src_width : Z }.

Definition IsVariable (op : WriteColumnOps) : bool := bool_decide (arm op = VarString).
Definition CanScatter (op : WriteColumnOps) : bool :=
  negb (bool_decide (arm op = Unsupported)) && negb (bool_decide (arm op = RowFallback)).

Definition DirectCopyTargetWidth (target_type : LogicalType) : Z :=
  match id target_type with
  | BOOLEAN | UTINYINT => 1
  | TINYINT | SMALLINT => 2
  | INTEGER | FLOAT => 4
  | BIGINT | DOUBLE => 8
  | _ => 0
  end.

Definition DirectCopyArm (width : Z) : ScatterArm :=
  if width =? 1 then DirectCopy1 else if width =? 2 then DirectCopy2 else if width =? 4 then DirectCopy4
  else if width =? 8 then DirectCopy8 else Unsupported.

Definition is_physical (p : PhysicalType) (l : list PhysicalType) : bool := bool_decide (p ∈ l).
Definition is_logical (d : LogicalTypeId) (l : list LogicalTypeId) : bool := bool_decide (d ∈ l).

(** The temporal cases: does the kernel write the width that was declared? *)
Definition datetime_ok (source : LogicalType) (target : BCPColumnMetadata) : bool :=
  let tid := id (duckdb_type target) in
  let src := InternalType source in
  let dt2_written := GetTimeByteSize (scale target) + 3 in
  let date_ok := is_logical tid [DATE] && is_physical src [PhysicalType.INT32] && is_logical (id source) [DATE] && (max_length target =? 3) in
  let time_ok := is_logical tid [TIME] && is_physical src [PhysicalType.INT64] && is_logical (id source) [TIME] &&
                 (max_length target =? GetTimeByteSize (scale target)) in
  let dto_ok := is_logical tid [TIMESTAMP_TZ] && is_physical src [PhysicalType.INT64] && (max_length target =? dt2_written + 2) in
  let date_to_ts_ok := is_logical tid [TIMESTAMP] && is_physical src [PhysicalType.INT32] && is_logical (id source) [DATE] &&
                       (max_length target =? dt2_written) in
  let ts_ok := negb (is_logical tid [DATE; TIME; TIMESTAMP_TZ]) && is_physical src [PhysicalType.INT64] && (max_length target =? dt2_written) in
  date_ok || ts_ok || time_ok || dto_ok || date_to_ts_ok.

(** The plain copies and conversions. *)
Definition direct_arm (source : LogicalType) (target : BCPColumnMetadata) : ScatterArm * Z * Z :=
  let tid := id (duckdb_type target) in
  let want := DirectCopyTargetWidth (duckdb_type target) in
  let sp := InternalType source in
  if want =? 0 then (RowFallback, max_length target, 0)
  else if negb (max_length target =? want) then (RowFallback, max_length target, 0)
  else
    let src_size := GetTypeIdSize sp in
    if negb (src_size =? want) then
      if is_logical tid [TINYINT; SMALLINT; INTEGER; BIGINT] &&
         is_physical sp [PhysicalType.INT8; PhysicalType.INT16; PhysicalType.INT32; PhysicalType.INT64] then (IntConvert, want, src_size)
      else if is_logical tid [FLOAT; DOUBLE] && is_physical sp [PhysicalType.FLOAT; PhysicalType.DOUBLE] then (FloatConvert, want, src_size)
      else (RowFallback, want, 0)
    else if is_physical sp [PhysicalType.UINT8; PhysicalType.UINT16; PhysicalType.UINT32; PhysicalType.UINT64] &&
            is_logical tid [SMALLINT; INTEGER; BIGINT] then (RowFallback, want, 0)
    else if bool_decide (sp = PhysicalType.INT8) && is_logical tid [UTINYINT] then (RowFallback, want, 0)
    else (DirectCopyArm want, want, 0).

Definition ResolveWriteColumnOps (source : LogicalType) (target : BCPColumnMetadata) : WriteColumnOps :=
  let string_source := bool_decide (InternalType source = PhysicalType.VARCHAR) in
  let str_or_bin := is_one_of (tds_type_token target) [TDS_TYPE_NVARCHAR; TDS_TYPE_BIGVARCHAR; TDS_TYPE_BIGVARBINARY] in
  let tid := id (duckdb_type target) in
  match null_kind_of target with
  | VariableUShort => mkOps (if str_or_bin && string_source then VarString else RowFallback) VariableUShort 0 0
  | Plp => mkOps (if str_or_bin && string_source then VarString else RowFallback) Plp 0 0
  | Fixed =>
      if is_logical tid [DECIMAL; UBIGINT; HUGEINT] then
        let src_ok := is_physical (InternalType source)
          [PhysicalType.INT16; PhysicalType.INT32; PhysicalType.INT64; PhysicalType.INT128; PhysicalType.UINT64] in
        let width := GetDecimalByteSize (precision target) in
        if src_ok && (max_length target =? width) then mkOps DecimalArm Fixed width 0
        else mkOps RowFallback Fixed (max_length target) 0
      else if is_logical tid [DATE; TIMESTAMP; TIMESTAMP_MS; TIMESTAMP_NS; TIMESTAMP_SEC; TIME; TIMESTAMP_TZ] then
        mkOps (if datetime_ok source target then DatetimeArm else RowFallback) Fixed (max_length target) 0
      else if is_logical tid [UUID] then
        if is_logical (id source) [UUID] && (max_length target =? 16) then mkOps GuidArm Fixed 16 0
        else mkOps RowFallback Fixed (max_length target) 0
      else let '(a, w, s) := direct_arm source target in mkOps a Fixed w s
  end.

(** ** Plain copies *)

Definition WriteNullMarker (kind : NullWireKind) : bytes :=
  match kind with Plp => replicate 8 Byte.xff | VariableUShort => replicate 2 Byte.xff | Fixed => [Byte.x00] end.

(** [ScatterDirect<W>] and [CursorDirect<W>]. *)
Definition direct_cell (W : nat) (fmt : UnifiedVectorFormat) (idx : nat) : res bytes :=
  Ok (z2b (Z.of_nat W) :: le W (src_at fmt idx)).

Definition ScatterDirect (W : nat) (dst stride : Z) (row_begin rows : nat) (fmt : UnifiedVectorFormat) (b : room) : res room :=
  scatter_rows (StridePos dst stride) (fun r => direct_cell W fmt (get_index fmt (row_begin + r))) rows 0 b.

Definition CursorDirect (W : nat) (r0 rend : nat) (fmt : UnifiedVectorFormat) (b : room) : res room :=
  scatter_rows (CursorPos 0 r0) (fun r => let idx := get_index fmt (r0 + r) in unless_null true fmt idx (direct_cell W fmt idx)) (rend - r0) 0 b.

(** ** Integers of another width *)

Inductive IntType : Type := int8_t | uint8_t | int16_t | int32_t | int64_t.

Definition int_bytes (t : IntType) : nat :=
  match t with int8_t | uint8_t => 1 | int16_t => 2 | int32_t => 4 | int64_t => 8 end.
Definition int_cast (t : IntType) (z : Z) : Z :=
  match t with int8_t => sx 8 z | uint8_t => ux 8 z | int16_t => sx 16 z | int32_t => sx 32 z | int64_t => sx 64 z end.
Definition int_min (t : IntType) : Z :=
  match t with int8_t => -128 | uint8_t => 0 | int16_t => -32768 | int32_t => -2147483648 | int64_t => -9223372036854775808 end.
Definition int_max (t : IntType) : Z :=
  match t with int8_t => 127 | uint8_t => 255 | int16_t => 32767 | int32_t => 2147483647 | int64_t => 9223372036854775807 end.

(** The value as it is written, and whether the cast lost it. *)
Definition conv_cell (DST : IntType) (fmt : UnifiedVectorFormat) (idx : nat) : res bytes :=
  Ok (z2b (Z.of_nat (int_bytes DST)) :: le (int_bytes DST) (int_cast DST (src_at fmt idx))).
Definition conv_bad (SRC DST : IntType) (fmt : UnifiedVectorFormat) (idx : nat) : bool :=
  (int_bytes DST <? int_bytes SRC)%nat && negb (int_cast SRC (int_cast DST (src_at fmt idx)) =? src_at fmt idx).

(** [ThrowIntRange]: [mask] says whether NULLs are stepped over. *)
Fixpoint ThrowIntRange (fmt : UnifiedVectorFormat) (row_begin rows : nat) (lo hi : Z) (mask : bool) : exn :=
  match rows with
  | O => InternalError "BCPRowEncoder: integer range check disagreed with the rescan"
  | S rows =>
      let idx := get_index fmt row_begin in
      let v := src_at fmt idx in
      if negb (mask && negb (RowIsValid fmt idx)) && ((v <? lo) || (hi <? v))
      then InvalidInput "integer value is out of range for the target column"
      else ThrowIntRange fmt (S row_begin) rows lo hi mask
  end.

(** [bad |= ...] over the rows that are not NULL. *)
Definition any_bad (SRC DST : IntType) (mask : bool) (fmt : UnifiedVectorFormat) (row_begin rows : nat) : bool :=
  existsb (fun r => let idx := get_index fmt r in negb (mask && negb (RowIsValid fmt idx)) && conv_bad SRC DST fmt idx) (seq row_begin rows).

(** [ScatterConvT] and [CursorConvT]. *)
Definition ConvT (SRC DST : IntType) (pos : Pos) (mask : bool) (row_begin rows : nat) (fmt : UnifiedVectorFormat) (b : room) : res room :=
  b ← scatter_rows pos (fun r => let idx := get_index fmt (row_begin + r) in unless_null mask fmt idx (conv_cell DST fmt idx)) rows 0 b;
  if any_bad SRC DST mask fmt row_begin rows then Exn (ThrowIntRange fmt row_begin rows (int_min DST) (int_max DST) mask) else Ok b.

Definition src_of_width (w : Z) : IntType := if w =? 1 then int8_t else if w =? 2 then int16_t else if w =? 4 then int32_t else int64_t.
Definition dst_of_width (w : Z) : IntType := if w =? 1 then uint8_t else if w =? 2 then int16_t else if w =? 4 then int32_t else int64_t.

Definition ScatterConv (dst stride : Z) (row_begin rows : nat) (fmt : UnifiedVectorFormat) (op : WriteColumnOps) (b : room) : res room :=
  ConvT (src_of_width (src_width op)) (dst_of_width (wire_width op)) (StridePos dst stride) false row_begin rows fmt b.

Definition CursorConv (r0 rend : nat) (fmt : UnifiedVectorFormat) (op : WriteColumnOps) (b : room) : res room :=
  ConvT (src_of_width (src_width op)) (dst_of_width (wire_width op)) (CursorPos 0 r0) true r0 (rend - r0) fmt b.

(** ** Floats of another width *)

Section Kernels.
Context `{Hugeint} `{Floats} `{DuckDB} `{Simdutf}.

Definition float_cell (op : WriteColumnOps) (fmt : UnifiedVectorFormat) (idx : nat) : res bytes :=
  if wire_width op =? 4 then Ok (z2b 4 :: le 4 (narrow (src_at fmt idx))) else Ok (z2b 8 :: le 8 (widen (src_at fmt idx))).

Definition ScatterConvFloat (dst stride : Z) (row_begin rows : nat) (fmt : UnifiedVectorFormat) (op : WriteColumnOps) (b : room) : res room :=
  scatter_rows (StridePos dst stride) (fun r => float_cell op fmt (get_index fmt (row_begin + r))) rows 0 b.

Definition CursorConvFloat (r0 rend : nat) (fmt : UnifiedVectorFormat) (op : WriteColumnOps) (b : room) : res room :=
  scatter_rows (CursorPos 0 r0) (fun r => let idx := get_index fmt (r0 + r) in unless_null true fmt idx (float_cell op fmt idx)) (rend - r0) 0 b.

(** ** Decimals (decimal_codec.cpp) *)

(** [static_cast<M>] and [NegateMag], by the bytes of the magnitude. *)
Definition mag_cast (MAG : nat) (raw : Z) : Z := if (MAG =? 4)%nat then sx 32 raw else if (MAG =? 8)%nat then sx 64 raw else raw.
Definition NegateMag (MAG : nat) (v : Z) : Z :=
  if (MAG =? 4)%nat then ux 32 (0 - ux 32 v)
  else if (MAG =? 8)%nat then ux 64 (0 - ux 64 v)
  else
    let lo := ux 64 (0 - lower v) in
    let up := sx 64 (ux 64 (Z.lnot (ux 64 (upper v))) + (if lower v =? 0 then 1 else 0)) in
    lo + 18446744073709551616 * up.

Definition ScatterOne (MAG : nat) (raw : Z) : bytes :=
  let v := mag_cast MAG raw in
  let neg := v <? 0 in
  z2b (if neg then 0x00 else 0x01) :: le MAG (if neg then NegateMag MAG v else v).

Definition fast_cell (MAG : nat) (byte_size : Z) (fmt : UnifiedVectorFormat) (idx : nat) : res bytes :=
  Ok (z2b byte_size :: ScatterOne MAG (src_at fmt idx)).

Definition general_cell (shift byte_size : Z) (col : BCPColumnMetadata) (fmt : UnifiedVectorFormat) (idx : nat) : res bytes :=
  value ← decimal.RescaleMantissa (src_at fmt idx) shift;
  _ ← decimal.CheckMantissaFitsPrecision value col;
  let neg := upper value <? 0 in
  mag ← (if neg then h_neg value else Ok value);
  Ok (z2b byte_size :: z2b (if neg then 0x00 else 0x01) :: le (Z.to_nat (byte_size - 1)) mag).

Definition mag_of (byte_size : Z) : nat := if byte_size =? 5 then 4 else if byte_size =? 9 then 8 else if byte_size =? 13 then 12 else 16.

(** What is decided by metadata alone. *)
Definition decimal_fast (src_type : LogicalType) (col : BCPColumnMetadata) : bool :=
  (scale col - decimal.SourceScale src_type =? 0) && bool_decide (id src_type = DECIMAL) && (decimal_width src_type <=? precision col) &&
  (GetTypeIdSize (InternalType src_type) <=? GetDecimalByteSize (precision col) - 1).

Definition decimal_ScatterChunkPos (pos : Pos) (row_begin rows : nat) (in_ : Vector) (col : BCPColumnMetadata) (all_valid : bool) (b : room) : res room :=
  let byte_size := GetDecimalByteSize (precision col) in
  let src_type := GetType in_ in
  let fmt := ToUnifiedFormat in_ in
  let shift := scale col - decimal.SourceScale src_type in
  let fast := decimal_fast src_type col in
  let run cell := scatter_rows pos (fun r => let idx := get_index fmt (row_begin + r) in unless_null (negb all_valid) fmt idx (cell fmt idx)) rows 0 b in
  if is_physical (InternalType src_type) [PhysicalType.INT16; PhysicalType.INT32; PhysicalType.INT64; PhysicalType.INT128]
  then if fast then run (fast_cell (mag_of byte_size) byte_size) else run (general_cell shift byte_size col)
  else if bool_decide (InternalType src_type = PhysicalType.UINT64) then run (general_cell shift byte_size col)
  else Exn (InternalError "codec::decimal::ScatterChunk: unexpected source PhysicalType").

(** ** GUIDs (uuid_codec.cpp) *)

Definition guid_cell (fmt : UnifiedVectorFormat) (idx : nat) : res bytes :=
  Ok (z2b uuid.GUID_LENGTH_PREFIX :: EncodeHugeIntToWire (src_at fmt idx)).

Definition uuid_ScatterDispatch (pos : Pos) (row_begin rows : nat) (fmt : UnifiedVectorFormat) (all_valid : bool) (b : room) : res room :=
  scatter_rows pos (fun r => let idx := get_index fmt (row_begin + r) in unless_null (negb all_valid) fmt idx (guid_cell fmt idx)) rows 0 b.

(** ** Dates and times (datetime_codec.cpp) *)

(** The time and the date of a count of ticks. *)
Definition dt2_fields (UPSCALE : bool) (per_day factor half per_day_target raw : Z) : res (Z * Z) :=
  '(days, sub) ← datetime.split_days raw per_day;
  let date_value := ux 32 (days + DAYS_FROM_0001_TO_EPOCH) in
  if UPSCALE then t ← int64 (sub * factor); Ok (ux 64 t, date_value)
  else
    let scaled := (sub + half) ÷ factor in
    if per_day_target <=? scaled then Ok (0, ux 32 (date_value + 1)) else Ok (ux 64 scaled, date_value).

Definition dt2_cell (UPSCALE : bool) (TIME_BYTES : nat) (per_day factor half per_day_target total_size : Z) (fmt : UnifiedVectorFormat) (idx : nat) : res bytes :=
  '(time_value, date_value) ← dt2_fields UPSCALE per_day factor half per_day_target (src_at fmt idx);
  Ok (z2b total_size :: le TIME_BYTES time_value ++ le 3 date_value).

Definition dto_cell (UPSCALE : bool) (TIME_BYTES : nat) (per_day factor half per_day_target total_size : Z) (fmt : UnifiedVectorFormat) (idx : nat) : res bytes :=
  '(time_value, date_value) ← dt2_fields UPSCALE per_day factor half per_day_target (src_at fmt idx);
  Ok (z2b total_size :: le TIME_BYTES time_value ++ le 3 date_value ++ [Byte.x00; Byte.x00]).

Definition time_cell (TIME_BYTES : nat) (UPSCALE : bool) (factor half per_day : Z) (fmt : UnifiedVectorFormat) (idx : nat) : res bytes :=
  ticks ← (if UPSCALE then t ← int64 (src_at fmt idx * factor); Ok (ux 64 t)
           else t ← int64 (src_at fmt idx + half); Ok (ux 64 (t ÷ factor)));
  let ticks := if ux 64 per_day <=? ticks then ux 64 (ux 64 per_day - 1) else ticks in
  Ok (z2b (Z.of_nat TIME_BYTES) :: le TIME_BYTES ticks).

Definition date_cell (fmt : UnifiedVectorFormat) (idx : nat) : res bytes :=
  days ← int32 (src_at fmt idx + DAYS_FROM_0001_TO_EPOCH);
  Ok (z2b 3 :: le 3 (ux 32 days)).

Definition date_as_dt2_cell (TIMESIZE : nat) (fmt : UnifiedVectorFormat) (idx : nat) : res bytes :=
  days ← int32 (src_at fmt idx + DAYS_FROM_0001_TO_EPOCH);
  Ok (z2b (Z.of_nat TIMESIZE + 3) :: replicate TIMESIZE Byte.x00 ++ le 3 (ux 32 days)).

Definition datetime_ScatterChunkPos (pos : Pos) (all_valid : bool) (row_begin rows : nat) (in_ : Vector) (col : BCPColumnMetadata) (b : room) : res room :=
  let fmt := ToUnifiedFormat in_ in
  let run cell := scatter_rows pos (fun r => let idx := get_index fmt (row_begin + r) in unless_null (negb all_valid) fmt idx (cell fmt idx)) rows 0 b in
  let tb := Z.to_nat (GetTimeByteSize (scale col)) in
  if bool_decide (id (duckdb_type col) = DATE) then run date_cell
  else if bool_decide (id (duckdb_type col) = TIME) then
    target_per_sec ← datetime.Pow10 (scale col);
    let up := 1000000 <=? target_per_sec in
    let f := if up then target_per_sec ÷ 1000000 else 1000000 ÷ target_per_sec in
    let h := if up then 0 else f ÷ 2 in
    run (time_cell tb up f h (target_per_sec * SECONDS_PER_DAY))
  else if bool_decide (id (GetType in_) = DATE) then run (date_as_dt2_cell tb)
  else
    source_per_sec ← datetime.TicksPerSecondFor (id (GetType in_));
    let per_day := source_per_sec * SECONDS_PER_DAY in
    target_per_sec ← datetime.Pow10 (scale col);
    let upscale := source_per_sec <=? target_per_sec in
    let factor := if upscale then target_per_sec ÷ source_per_sec else source_per_sec ÷ target_per_sec in
    let half := if upscale then 0 else factor ÷ 2 in
    let per_day_target := target_per_sec * SECONDS_PER_DAY in
    let time_size := GetTimeByteSize (scale col) in
    if bool_decide (id (duckdb_type col) = TIMESTAMP_TZ)
    then run (dto_cell upscale tb per_day factor half per_day_target (time_size + 3 + 2))
    else run (dt2_cell upscale tb per_day factor half per_day_target (time_size + 3)).

(** ** Text and binary (string_codec.cpp) *)

Inductive VarKind : Type := NVarchar | Utf8Varchar | VarBinary.

#[export] Instance VarKind_eq_dec : EqDecision VarKind.
Proof. solve_decision. Defined.

Record StringColumnPlan : Type := mkPlan {
  lengths : list Z;
  wire : list Z;
  src_len : list Z;
  plan_kind : VarKind;
  all_ascii : bool;
  truncated : bool;
  plp : bool
}.

Definition no_plan : StringColumnPlan := mkPlan [] [] [] NVarchar false false false.

(** Eight bytes at a time. *)
Fixpoint IsAsciiRun (data : bytes) : bool :=
  match data with
  | c0 :: c1 :: c2 :: c3 :: c4 :: c5 :: c6 :: c7 :: r =>
      if Z.land (Legacy.load64 c0 c1 c2 c3 c4 c5 c6 c7) 0x8080808080808080 =? 0 then IsAsciiRun r else false
  | _ => forallb (fun c => Z.land (b2z c) 0x80 =? 0) data
  end.

Definition WidenAscii (src : bytes) : bytes := concat ((fun c => [c; Byte.x00]) <$> src).

Definition uint32 (z : Z) : Z := ux 32 z.

(** The bytes of a value of payload [len], framing included. *)
Definition wire_of (plp : bool) (len : Z) : Z :=
  if negb plp then uint32 (2 + len) else if len =? 0 then 12 else uint32 (16 + len).

(** The length of one value, and whether all were ASCII so far; [None]: invalid. *)
Definition plan_len (kind : VarKind) (ascii : bool) (sv : bytes) : option (Z * bool) :=
  if negb (bool_decide (kind = NVarchar)) then Some (uint32 (zlen sv), ascii)
  else if ascii && IsAsciiRun sv then Some (uint32 (uint32 (zlen sv) * 2), ascii)
  else let '(u16, valid) := Utf16LEByteLengthView sv in
       if negb valid then None else Some (uint32 u16, false).

(** The loop of [PlanColumn] from row [r] on: the lengths, the wire sizes,
    whether a value is over the bound and whether all were ASCII; [None]: invalid
    UTF-8. *)
Fixpoint plan_rows (kind : VarKind) (plp : bool) (bound : Z) (fmt : UnifiedVectorFormat) (rows r : nat) (ascii : bool) :
    option (list Z * list Z * bool * bool) :=
  match rows with
  | O => Some ([], [], false, ascii)
  | S rows =>
      let idx := get_index fmt r in
      if negb (RowIsValid fmt idx) then
        '(ls, ws, over, ascii) ← plan_rows kind plp bound fmt rows (S r) ascii;
        Some (0 :: ls, (if plp then 8 else 2) :: ws, over, ascii)
      else
        let sv := str (data fmt idx) in
        '(len, ascii) ← plan_len kind ascii sv;
        '(ls, ws, over, ascii) ← plan_rows kind plp bound fmt rows (S r) ascii;
        Some (len :: ls, wire_of plp len :: ws, (bound <? len) || over, ascii)
  end.

(** One row of [ClampToBound]: its length and the bytes of the source it keeps. *)
Definition clamp_row (kind : VarKind) (bound len : Z) (sv : bytes) : res (Z * Z) :=
  if bound <? len then
    match kind with
    | NVarchar => '(src, len) ← string.Utf8PrefixForUtf16Limit sv bound; Ok (uint32 len, uint32 src)
    | Utf8Varchar => src ← string.Utf8PrefixForByteLimit sv bound; Ok (uint32 src, uint32 src)
    | VarBinary => Ok (bound, bound)
    end
  else Ok (len, uint32 (zlen sv)).

Fixpoint clamp_rows (kind : VarKind) (plp : bool) (bound : Z) (fmt : UnifiedVectorFormat) (r : nat) (lengths wire : list Z) :
    res (list Z * list Z * list Z) :=
  match lengths, wire with
  | len :: lengths, w :: wire =>
      let idx := get_index fmt r in
      '(len, w, src) ←
        (if negb (RowIsValid fmt idx) then Ok (len, w, 0)
         else '(len, src) ← clamp_row kind bound len (str (data fmt idx)); Ok (len, wire_of plp len, src));
      '(ls, ws, srcs) ← clamp_rows kind plp bound fmt (S r) lengths wire;
      Ok (len :: ls, w :: ws, src :: srcs)
  | _, _ => Ok ([], [], [])
  end.

Definition kind_of_token (token : Z) : option VarKind :=
  if token =? TDS_TYPE_BIGVARCHAR then Some Utf8Varchar
  else if token =? TDS_TYPE_BIGVARBINARY then Some VarBinary
  else if token =? TDS_TYPE_NVARCHAR then Some NVarchar
  else None.

(** [None]: it returned false. *)
Definition PlanColumn (fmt : UnifiedVectorFormat) (rows : nat) (col : BCPColumnMetadata) : res (option StringColumnPlan) :=
  match kind_of_token (tds_type_token col) with
  | None => Ok None
  | Some kind =>
      let plp := IsPLPType col in
      let bound := if plp then 0xFFFFFFFF else max_length col in
      match plan_rows kind plp bound fmt rows 0 true with
      | None => Ok None
      | Some (ls, ws, over, ascii) =>
          let all_ascii := ascii && bool_decide (kind = NVarchar) in
          if over then '(ls, ws, srcs) ← clamp_rows kind plp bound fmt 0 ls ws; Ok (Some (mkPlan ls ws srcs kind all_ascii true plp))
          else Ok (Some (mkPlan ls ws [] kind all_ascii false plp))
      end
  end.

Definition nth_res (l : list Z) (i : nat) : res Z := match l !! i with Some x => Ok x | None => Oob end.

(** The payload of a value. *)
Definition var_payload (plan : StringColumnPlan) (r : nat) (len : Z) (sv : bytes) : res bytes :=
  src_bytes ← (if truncated plan then nth_res (src_len plan) r else Ok (zlen sv));
  if all_ascii plan then src ← slice sv 0 (len ÷ 2); Ok (WidenAscii src)
  else if bool_decide (plan_kind plan = NVarchar) then src ← slice sv 0 src_bytes; Ok (Utf16LEEncodeValidDirect src)
  else slice sv 0 len.

(** [for (r = r0; r < rend; r++)] of [ScatterVarBlock]. *)
Fixpoint ScatterVarBlock (rows r : nat) (fmt : UnifiedVectorFormat) (plan : StringColumnPlan) (b : room) : res room :=
  match rows with
  | O => Ok b
  | S rows =>
      let '(mem, cursor) := b in
      out ← nth_res cursor r;
      w ← nth_res (wire plan) r;
      let idx := get_index fmt r in
      mem ←
        (if negb (RowIsValid fmt idx) then store mem out (replicate (if plp plan then 8 else 2) Byte.xff)
         else
           len ← nth_res (lengths plan) r;
           let sv := str (data fmt idx) in
           if negb (plp plan) then
             mem ← store mem out (le 2 len);
             payload ← var_payload plan r len sv;
             store mem (out + 2) payload
           else
             mem ← store mem out string.WritePlpHeader;
             if len =? 0 then store mem (out + 8) (string.WriteLe32 0)
             else
               mem ← store mem (out + 8) (string.WriteLe32 len);
               mem ← store mem (out + 12 + len) (string.WriteLe32 0);
               payload ← var_payload plan r len sv;
               store mem (out + 12) payload);
      ScatterVarBlock rows (S r) fmt plan (mem, alter (fun c => c + w) r cursor)
  end.

(** ** A block of rows *)

Definition column : Type := BCPColumnMetadata * ColumnEncodeState * WriteColumnOps * Z * StringColumnPlan.

Definition null_rows (pos : Pos) (kind : NullWireKind) (rows : nat) (b : room) : res room :=
  scatter_rows pos (fun _ => Ok (WriteNullMarker kind)) rows 0 b.

(** The arms of the [switch] of [ScatterBlock]. *)
Definition strided_arm (col : BCPColumnMetadata) (st : ColumnEncodeState) (op : WriteColumnOps) (dst stride : Z) (row_begin rows : nat) (b : room) : res room :=
  match arm op, vec st with
  | NullOnly, _ => null_rows (StridePos dst stride) (null_kind st) rows b
  | DecimalArm, Some v => decimal_ScatterChunkPos (StridePos dst stride) row_begin rows v col true b
  | GuidArm, Some v => uuid_ScatterDispatch (StridePos dst stride) row_begin rows (ToUnifiedFormat v) true b
  | DatetimeArm, Some v => datetime_ScatterChunkPos (StridePos dst stride) true row_begin rows v col b
  | DirectCopy1, Some v => ScatterDirect 1 dst stride row_begin rows (ToUnifiedFormat v) b
  | DirectCopy2, Some v => ScatterDirect 2 dst stride row_begin rows (ToUnifiedFormat v) b
  | DirectCopy4, Some v => ScatterDirect 4 dst stride row_begin rows (ToUnifiedFormat v) b
  | DirectCopy8, Some v => ScatterDirect 8 dst stride row_begin rows (ToUnifiedFormat v) b
  | IntConvert, Some v => ScatterConv dst stride row_begin rows (ToUnifiedFormat v) op b
  | FloatConvert, Some v => ScatterConvFloat dst stride row_begin rows (ToUnifiedFormat v) op b
  | (Unsupported | RowFallback | VarString), _ => Exn (InternalError "BCPRowEncoder: unreachable scatter arm")
  | _, None => Oob
  end.

Fixpoint ScatterBlock (bdst stride : Z) (row_begin rows : nat) (columns : list column) (col_off : Z) (b : room) : res room :=
  match columns with
  | [] => Ok b
  | (col, st, op, width, _) :: columns =>
      b ← strided_arm col st op (bdst + col_off) stride row_begin rows b;
      ScatterBlock bdst stride row_begin rows columns (col_off + (1 + width)) b
  end.

(** The body of [ScatterBlockCursor]. *)
Definition cursor_arm (col : BCPColumnMetadata) (st : ColumnEncodeState) (op : WriteColumnOps) (width : Z) (plan : StringColumnPlan)
    (r0 rend : nat) (b : room) : res room :=
  match vec st with
  | None => if IsVariable op then Oob else null_rows (CursorPos 0 r0) (null_kind st) (rend - r0) b
  | Some v =>
      let fmt := ToUnifiedFormat v in
      if IsVariable op then ScatterVarBlock (rend - r0) r0 fmt plan b else
      match arm op with
      | DirectCopy1 => CursorDirect 1 r0 rend fmt b
      | DirectCopy2 => CursorDirect 2 r0 rend fmt b
      | DirectCopy4 => CursorDirect 4 r0 rend fmt b
      | DirectCopy8 => CursorDirect 8 r0 rend fmt b
      | IntConvert => CursorConv r0 rend fmt op b
      | FloatConvert => CursorConvFloat r0 rend fmt op b
      | GuidArm => uuid_ScatterDispatch (CursorPos 0 r0) r0 (rend - r0) fmt (AllValid fmt) b
      | DecimalArm => decimal_ScatterChunkPos (CursorPos 0 r0) r0 (rend - r0) v col (AllValid fmt) b
      | DatetimeArm => datetime_ScatterChunkPos (CursorPos 0 r0) (AllValid fmt) r0 (rend - r0) v col b
      | _ => Exn (InternalError "BCPRowEncoder: unreachable cursor arm")
      end
  end.

Fixpoint ScatterBlockCursor (r0 rend : nat) (columns : list column) (b : room) : res room :=
  match columns with
  | [] => Ok b
  | (col, st, op, width, plan) :: columns => b ← cursor_arm col st op width plan r0 rend b; ScatterBlockCursor r0 rend columns b
  end.

(** ** A chunk *)

(** The first loop of [TryEncodeChunkColumnar]: [None] when a column has no
    kernel or no plan. *)
Fixpoint resolve_columns (row_count : nat) (columns : list BCPColumnMetadata) (states : list ColumnEncodeState) : res (option (list column)) :=
  match columns, states with
  | [], _ => Ok (Some [])
  | col :: columns, st :: states =>
      c ← (match vec st with
           | None => Ok (Some (col, st, mkOps NullOnly Fixed 0 0, NullMarkerSize (null_kind st) - 1, no_plan))
           | Some v =>
               let op := ResolveWriteColumnOps (GetType v) col in
               if negb (CanScatter op) then Ok None
               else if IsVariable op then
                 plan ← PlanColumn (ToUnifiedFormat v) row_count col;
                 Ok (p ← plan; Some (col, st, op, 0, p))
               else Ok (Some (col, st, op, wire_width op, no_plan))
           end);
      match c with
      | None => Ok None
      | Some c => cs ← resolve_columns row_count columns states; Ok (cs ← cs; Some (c :: cs))
      end
  | _ :: _, [] => Oob
  end.

Definition has_variable (columns : list column) : bool := existsb (fun '(_, _, op, _, _) => IsVariable op) columns.

Definition all_valid (columns : list column) : bool :=
  forallb (fun '(_, st, op, _, _) => IsVariable op || match vec st with Some v => AllValid (ToUnifiedFormat v) | None => true end) columns.

Definition stride_of (columns : list column) : Z :=
  1 + foldr (fun '(_, _, op, width, _) n => (if IsVariable op then 2 else 1 + width) + n) 0 columns.

(** What a column changes in the sizes of the rows. *)
Definition adjust_rows (c : column) (row_at : list Z) : list Z :=
  let '(_, st, op, width, plan) := c in
  if IsVariable op then zip_with Z.add row_at (wire plan)
  else match vec st with
       | None => row_at
       | Some v =>
           let fmt := ToUnifiedFormat v in
           if AllValid fmt then row_at
           else imap (fun r n => n - (if RowIsValid fmt (get_index fmt r) then 0 else width)) row_at
       end.

Definition row_sizes (row_count : nat) (columns : list column) : list Z :=
  let base_row := 1 + foldr (fun '(_, _, op, width, _) n => (if IsVariable op then 0 else 1 + width) + n) 0 columns in
  foldl (fun row_at c => adjust_rows c row_at) (replicate row_count base_row) columns.

(** Sizes into offsets, and the total. *)
Fixpoint prefix_sum (acc : Z) (sizes : list Z) : list Z * Z :=
  match sizes with
  | [] => ([], acc)
  | sz :: sizes => let '(offs, total) := prefix_sum (acc + sz) sizes in (acc :: offs, total)
  end.

Definition BLOCK_ROWS : nat := 128.

(** The token of each row of a block. *)
Fixpoint strided_tokens (bdst stride : Z) (rows r : nat) (mem : bytes) : res bytes :=
  match rows with
  | O => Ok mem
  | S rows => mem ← store mem (bdst + Z.of_nat r * stride) [z2b BCP_TOKEN_ROW]; strided_tokens bdst stride rows (S r) mem
  end.

Fixpoint strided_blocks (turns : nat) (stride : Z) (row_count r0 : nat) (columns : list column) (b : room) : res room :=
  match turns with
  | O => Ok b
  | S turns =>
      if (r0 <? row_count)%nat then
        let rend := Nat.min (r0 + BLOCK_ROWS) row_count in
        let bdst := Z.of_nat r0 * stride in
        mem ← strided_tokens bdst stride (rend - r0) 0 b.1;
        b ← ScatterBlock bdst stride r0 (rend - r0) columns 1 (mem, b.2);
        strided_blocks turns stride row_count (r0 + BLOCK_ROWS) columns b
      else Ok b
  end.

Fixpoint cursor_tokens (row_at : list Z) (mem : bytes) : res bytes :=
  match row_at with
  | [] => Ok mem
  | at_ :: row_at => mem ← store mem at_ [z2b BCP_TOKEN_ROW]; cursor_tokens row_at mem
  end.

Fixpoint cursor_blocks (turns : nat) (row_count r0 : nat) (columns : list column) (b : room) : res room :=
  match turns with
  | O => Ok b
  | S turns =>
      if (r0 <? row_count)%nat then
        b ← ScatterBlockCursor r0 (Nat.min (r0 + BLOCK_ROWS) row_count) columns b;
        cursor_blocks turns row_count (r0 + BLOCK_ROWS) columns b
      else Ok b
  end.

(** The bytes added to the buffer; [None]: it returned false. The room is zero at
    first ([resize]). *)
Definition TryEncodeChunkColumnar (row_count : nat) (columns : list BCPColumnMetadata) (states : list ColumnEncodeState) : res (option bytes) :=
  if bool_decide (columns = []) then Ok None else
  resolved ← resolve_columns row_count columns states;
  match resolved with
  | None => Ok None
  | Some cs =>
      if all_valid cs && negb (has_variable cs) then
        let stride := stride_of cs in
        let mem := replicate (row_count * Z.to_nat stride) Byte.x00 in
        b ← strided_blocks row_count stride row_count 0 cs (mem, []);
        Ok (Some b.1)
      else
        let '(row_at, total) := prefix_sum 0 (row_sizes row_count cs) in
        mem ← cursor_tokens row_at (replicate (Z.to_nat total) Byte.x00);
        b ← cursor_blocks row_count row_count 0 cs (mem, (fun at_ => at_ + 1) <$> row_at);
        Ok (Some b.1)
  end.

Definition EncodeChunk (chunk : DataChunk) (columns : list BCPColumnMetadata) (column_mapping : option (list Z)) : res bytes :=
  if (chunk_size chunk =? 0)%nat then Ok [] else
  states ← PrepareColumnStates chunk (chunk_size chunk) columns column_mapping;
  columnar ← TryEncodeChunkColumnar (chunk_size chunk) columns states;
  match columnar with
  | Some b => Ok b
  | None => EncodeRows (chunk_size chunk) 0 columns states
  end.
End Kernels.
