(* ===== verification/ScatterCells.v ===== *)
(** * The columnar path writes the codecs' values (theorems about [Scatter])

    A kernel's cell, or a conversion's with its range check, is what the codec of
    the row path writes for the value, and one refuses where the other does
    ([same]): decimals, GUIDs, dates and times, plain copies, conversions between
    integers and between floats. [ScatterSpec] puts the cells together. *)

From S2P Require Import Prelude TdsTypes Utf16 ColumnMetadata RowReader Values Encoding Codecs CodecsSpec BcpRow BcpRowSpec Scatter.

(** ** A kernel's cell is the codec's value *)

(** Both refuse, or both give the same bytes. *)
Definition same (m m' : res bytes) : Prop :=
  match m, m' with Ok a, Ok b => a = b | Exn _, Exn _ => True | _, _ => False end.

Lemma same_self m : m <> Oob -> same m m.
Proof. by destruct m. Qed.

Lemma src_at_cell v row z : holds_cell v row (Word z) -> src_at (ToUnifiedFormat v) (get_index (ToUnifiedFormat v) row) = z.
Proof. intros [E _]. unfold src_at. by rewrite E. Qed.

Lemma NegateMag_neg MAG v : (MAG = 4 \/ MAG = 8 \/ MAG = 12 \/ MAG = 16)%nat -> - 2 ^ 127 <= v < 0 ->
  NegateMag MAG v mod 256 ^ Z.of_nat MAG = (- v) mod 256 ^ Z.of_nat MAG.
Proof.
  intros HM Hv. unfold NegateMag, ux. destruct HM as [-> | [-> | HM]]; cbn [Nat.eqb].
  - change (256 ^ Z.of_nat 4) with (2 ^ 32). rewrite Z.mod_mod, Zminus_mod_idemp_r by done. done.
  - change (256 ^ Z.of_nat 8) with (2 ^ 64). rewrite Z.mod_mod, Zminus_mod_idemp_r by done. done.
  - assert (E : exists k, ux 64 (0 - lower v) + 18446744073709551616 *
        sx 64 (ux 64 (Z.lnot (ux 64 (upper v))) + (if lower v =? 0 then 1 else 0)) = - v + k * 2 ^ 128).
    { assert (Hs : forall x, exists k, sx 64 x = x + k * 18446744073709551616).
      { intros x. unfold sx. change (2 ^ 64) with 18446744073709551616. exists (- ((x + 2 ^ (64 - 1)) / 18446744073709551616)).
        pose proof (Z.div_mod (x + 2 ^ (64 - 1)) 18446744073709551616 ltac:(lia)). lia. }
      destruct (Hs (ux 64 (Z.lnot (ux 64 (upper v))) + (if lower v =? 0 then 1 else 0))) as [k1 ->].
      unfold ux, Z.lnot. change (2 ^ 64) with 18446744073709551616. change (2 ^ 128) with (18446744073709551616 * 18446744073709551616).
      pose proof (lower_upper v) as Elu. pose proof (Z.mod_pos_bound v 18446744073709551616 ltac:(lia)) as Hlo. fold (lower v) in Hlo.
      set (lo := lower v) in *. set (up := upper v) in *. clearbody lo up.
      pose proof (Z.div_mod up 18446744073709551616 ltac:(lia)) as Eu. set (u := up mod 18446744073709551616) in *.
      set (qu := up / 18446744073709551616) in *. clearbody u qu.
      pose proof (Z.div_mod (Z.pred (- u)) 18446744073709551616 ltac:(lia)) as Ep.
      set (p := Z.pred (- u) mod 18446744073709551616) in *. set (qp := Z.pred (- u) / 18446744073709551616) in *. clearbody p qp.
      destruct (Z.eqb_spec lo 0) as [->|Hz].
      - exists (k1 + qu - qp). change ((0 - 0) mod 18446744073709551616) with 0. lia.
      - assert ((0 - lo) mod 18446744073709551616 = 18446744073709551616 - lo) as ->.
        { symmetry. apply (Z.mod_unique _ _ (-1)); lia. }
        exists (k1 + qu - qp). lia. }
    unfold ux in E. change (2 ^ 64) with 18446744073709551616 in *. destruct E as [k E].
    destruct HM as [-> | ->]; cbn [Nat.eqb]; cbv zeta; rewrite E.
    + replace (k * 2 ^ 128) with (k * 2 ^ 32 * 256 ^ Z.of_nat 12) by (change (256 ^ Z.of_nat 12) with (2 ^ 96); rewrite <- Z.mul_assoc, <- Z.pow_add_r by lia; done).
      by rewrite Z_mod_plus_full.
    + change (2 ^ 128) with (256 ^ Z.of_nat 16). by rewrite Z_mod_plus_full.
Qed.

Lemma ScatterOne_magnitude MAG z : (MAG = 4 \/ MAG = 8 \/ MAG = 12 \/ MAG = 16)%nat -> - 2 ^ 127 < z < 2 ^ 127 -> mag_cast MAG z = z ->
  ScatterOne MAG z = sign_magnitude MAG z.
Proof.
  intros HM Hz Hc. unfold ScatterOne, sign_magnitude. rewrite Hc. f_equal. destruct (Z.ltb_spec z 0); apply le_mod.
  - rewrite NegateMag_neg by (done || lia). by replace (- z) with (Z.abs z) by lia.
  - by replace (Z.abs z) with z by lia.
Qed.

Lemma mag_of_size p : (mag_of (GetDecimalByteSize p) = 4 \/ mag_of (GetDecimalByteSize p) = 8 \/ mag_of (GetDecimalByteSize p) = 12 \/ mag_of (GetDecimalByteSize p) = 16)%nat /\
  Z.of_nat (mag_of (GetDecimalByteSize p)) = GetDecimalByteSize p - 1.
Proof. destruct (GetDecimalByteSize_cases p) as [[-> _]|[[-> _]|[[-> _]|[-> _]]]]; by cbn; auto. Qed.

(** A storage type no wider than the magnitude keeps its values. *)
Lemma mag_cast_small MAG p z : value_ok p (Word z) -> GetTypeIdSize p <= Z.of_nat MAG -> (MAG = 4 \/ MAG = 8 \/ MAG = 12 \/ MAG = 16)%nat ->
  is_physical p [PhysicalType.INT16; PhysicalType.INT32; PhysicalType.INT64; PhysicalType.INT128] = true -> mag_cast MAG z = z.
Proof.
  intros Hv Hs HM Hp. unfold mag_cast. destruct HM as [-> | [-> | [-> | ->]]]; cbn [Nat.eqb]; [| |done|done];
    apply sx_small; try done; destruct p; try discriminate Hp; cbn in Hs, Hv |- *; lia.
Qed.

Section CellsAgree.
Context `{Hugeint} `{Floats} `{DuckDB} {S : Simdutf} {Spec : SimdutfSpec S}.

(** Values on which the two paths agree beyond what [cell_fits] asks: a DECIMAL is
    within its type, a time is before midnight, a float that stays a float is a
    number, and text leaves room for its framing in 32 bits. *)
Definition cell_exact (src : LogicalType) (dst : LogicalTypeId) (c : cell) : Prop :=
  match c with
  | Word z => (id src = DECIMAL -> Z.abs z < 10 ^ decimal_width src) /\ (id src = TIME -> z < 86400000000) /\
              (id src = FLOAT -> dst = FLOAT -> is_nan z = false)
  | Str s => zlen s < 2147483640
  end.

Definition decimal_kernel (v : Vector) (col : BCPColumnMetadata) (idx : nat) : res bytes :=
  let fmt := ToUnifiedFormat v in
  let byte_size := GetDecimalByteSize (precision col) in
  if decimal_fast (GetType v) col then fast_cell (mag_of byte_size) byte_size fmt idx
  else general_cell (scale col - decimal.SourceScale (GetType v)) byte_size col fmt idx.

Lemma check_fits x col : 1 <= precision col <= 38 -> decimal.CheckMantissaFitsPrecision x col =
  if (10 ^ precision col - 1 <? x) || (x <? - (10 ^ precision col - 1)) then Exn (InvalidInput "DECIMAL value is out of range") else Ok tt.
Proof.
  intros Hp. unfold decimal.CheckMantissaFitsPrecision, POWERS_OF_TEN.
  rewrite (proj2 (Z.eqb_neq (precision col) 0)), (proj2 (Z.ltb_ge 38 (precision col))) by lia. cbn [orb].
  assert (10 ^ precision col <= 10 ^ 38) by (apply Z.pow_le_mono_r; lia). pose proof pow10_38.
  assert (0 < 10 ^ precision col) by (apply Z.pow_pos_nonneg; lia).
  by rewrite h_neg_exact by (apply huge_38; lia).
Qed.

(** What the general kernel writes for a number that fits. *)
Lemma general_payload col m : 1 <= precision col <= 38 -> Z.abs m < 10 ^ precision col ->
  decimal_payload m (precision col) = Ok (sign_magnitude (Z.to_nat (GetDecimalByteSize (precision col) - 1)) m) /\
  (mag ← (if upper m <? 0 then h_neg m else Ok m);
   Ok (z2b (GetDecimalByteSize (precision col)) :: z2b (if upper m <? 0 then 0x00 else 0x01) :: le (Z.to_nat (GetDecimalByteSize (precision col) - 1)) mag)) =
  Ok (z2b (GetDecimalByteSize (precision col)) :: sign_magnitude (Z.to_nat (GetDecimalByteSize (precision col) - 1)) m).
Proof.
  intros Hp Hm. destruct (decimal_bound _ _ Hp Hm) as [_ Hb]. split; [apply decimal_payload_eq; lia|]. unfold sign_magnitude. rewrite upper_neg.
  destruct (Z.ltb_spec m 0).
  - rewrite h_neg_exact by (unfold huge; lia). cbn [mbind res_bind]. by replace (- m) with (Z.abs m) by lia.
  - cbn [mbind res_bind]. by replace (Z.abs m) with m by lia.
Qed.

Lemma fast_agrees v col row z : holds_cell v row (Word z) -> type_ok (GetType v) -> cell_exact (GetType v) DECIMAL (Word z) ->
  1 <= precision col <= 38 -> decimal_fast (GetType v) col = true ->
  scale col = decimal.SourceScale (GetType v) /\ id (GetType v) = DECIMAL /\ Z.abs z < 10 ^ precision col /\
  fast_cell (mag_of (GetDecimalByteSize (precision col))) (GetDecimalByteSize (precision col)) (ToUnifiedFormat v) (get_index (ToUnifiedFormat v) row) =
    Ok (z2b (GetDecimalByteSize (precision col)) :: sign_magnitude (Z.to_nat (GetDecimalByteSize (precision col) - 1)) z).
Proof.
  intros Hc [Hi Hdw] (Hx & _) Hp Hf. unfold decimal_fast in Hf. repeat match goal with H : _ && _ = true |- _ => apply andb_prop in H as [? ?] end.
  repeat match goal with H : (_ =? _) = true |- _ => apply Z.eqb_eq in H | H : (_ <=? _) = true |- _ => apply Z.leb_le in H end.
  match goal with H : bool_decide _ = true |- _ => apply bool_decide_eq_true in H; rename H into Hd end.
  specialize (Hx Hd). specialize (Hdw Hd).
  assert (Hz : Z.abs z < 10 ^ precision col).
  { eapply Z.lt_le_trans; [exact Hx|]. apply Z.pow_le_mono_r; lia. }
  split; [lia|]. split; [done|]. split; [done|]. unfold fast_cell. rewrite (src_at_cell v row z Hc). do 2 f_equal.
  destruct (mag_of_size (precision col)) as [Hm Hm2]. destruct (decimal_bound _ _ Hp Hz) as [_ Hb].
  rewrite ScatterOne_magnitude; [|done|lia|].
  - f_equal. lia.
  - eapply mag_cast_small; [apply Hc|lia|done|]. rewrite Hi, Hd. unfold storage. by repeat case_match.
Qed.

Lemma decimal_agrees v col row z f : holds_cell v row (Word z) -> type_ok (GetType v) -> target_ok col ->
  is_logical (id (duckdb_type col)) [DECIMAL; UBIGINT; HUGEINT] = true -> accepts (id (GetType v)) (id (duckdb_type col)) = true ->
  cell_exact (GetType v) (id (duckdb_type col)) (Word z) -> ResolveEncoder col = Ok f ->
  same (decimal_kernel v col (get_index (ToUnifiedFormat v) row)) (f v row col).
Proof.
  intros Hc Hty Ht Hd Ha Hx Hf. apply bool_decide_eq_true in Hd. rewrite !elem_of_cons, elem_of_nil in Hd. pose proof Ht as Ht'. unfold target_ok in Ht.
  unfold ResolveEncoder, FamilyFromLogicalType in Hf. unfold decimal_kernel. destruct Hd as [Hd|[Hd|[Hd|[]]]]; rewrite Hd in *; injection Hf as <-; apply bool_decide_eq_true in Ha.
  - destruct Ht as (_ & Hp & Hsc & _). assert (Hs : decimal_source (GetType v)) by (split; [done|]; rewrite !elem_of_cons, elem_of_nil in Ha; tauto).
    unfold decimal.EncodeToBcp, decimal.ScatterToBcp. rewrite (WidenVectorToHugeint_cell v row z) by done. cbn [mbind res_bind].
    destruct (decimal_fast (GetType v) col) eqn:Ef.
    + destruct (fast_agrees v col row z Hc Hty Hx Hp Ef) as (Esc & _ & Hz & ->). rewrite Esc, Z.sub_diag. change (decimal.RescaleMantissa z 0) with (Ok z). cbn [mbind res_bind].
      rewrite check_fits by done. rewrite (proj2 (Z.ltb_ge _ z)), (proj2 (Z.ltb_ge z _)) by lia. cbn [orb mbind res_bind].
      destruct (general_payload col z Hp Hz) as [-> _]. done.
    + unfold general_cell. rewrite (src_at_cell v row z Hc). pose proof (SourceScale_range _ Hs).
      destruct (RescaleMantissa_spec z (scale col - decimal.SourceScale (GetType v))) as (m & _ & [E|[_ [msg E]]]); [lia| |]; rewrite E; cbn [mbind res_bind]; [|done].
      rewrite check_fits by done. destruct (Z.ltb_spec (10 ^ precision col - 1) m); [done|]. destruct (Z.ltb_spec m (- (10 ^ precision col - 1))); [done|].
      cbn [orb mbind res_bind]. destruct (general_payload col m Hp ltac:(lia)) as [-> E2]. cbv zeta. rewrite E2. done.
  - destruct Ht as (_ & Hp & Hsc & _). assert (Ef : decimal_fast (GetType v) col = false) by (unfold decimal_fast; by rewrite Ha, andb_false_r).
    rewrite Ef. unfold general_cell. rewrite (src_at_cell v row z Hc). unfold decimal.SourceScale. rewrite Ha, Hsc, bool_decide_eq_false_2 by done.
    destruct Hty as [Hi _]. rewrite Ha in Hi. pose proof Hc as [_ Hv]. rewrite Hi in Hv. cbn in Hv.
    unfold integer.EncodeToBcp. rewrite Hd, (FormatWord_cell v row z) by done. cbn [mbind res_bind]. unfold EncodeDecimal.
    assert (Hz : Z.abs z < 10 ^ precision col) by (rewrite Hp; change (10 ^ 20) with 100000000000000000000; lia).
    change (decimal.RescaleMantissa z (0 - 0)) with (Ok z). cbn [mbind res_bind].
    rewrite check_fits by lia. rewrite (proj2 (Z.ltb_ge _ z)), (proj2 (Z.ltb_ge z _)) by lia. cbn [orb mbind res_bind].
    destruct (general_payload col z ltac:(lia) Hz) as [-> E2]. cbv zeta. by rewrite E2.
  - destruct Ht as (_ & Hp & Hsc & _). assert (Ef : decimal_fast (GetType v) col = false) by (unfold decimal_fast; by rewrite Ha, andb_false_r).
    rewrite Ef. unfold general_cell. rewrite (src_at_cell v row z Hc). unfold decimal.SourceScale. rewrite Ha, Hsc, bool_decide_eq_false_2 by done.
    destruct Hty as [Hi _]. rewrite Ha in Hi. unfold integer.EncodeToBcp. rewrite Hd, (FormatWord_cell v row z) by done. cbn [mbind res_bind]. unfold EncodeDecimal.
    change (decimal.RescaleMantissa z (0 - 0)) with (Ok z). cbn [mbind res_bind]. rewrite check_fits by lia.
    unfold integer.CheckHugeintFitsDecimal38, integer.MaxDecimal38, POWERS_OF_TEN. rewrite (h_neg_exact (10 ^ 38 - 1)) by (vm_compute; split; [discriminate|done]). cbn [mbind res_bind]. rewrite Hp at 1 2.
    destruct (Z.ltb_spec (10 ^ 38 - 1) z); [done|]. destruct (Z.ltb_spec z (- (10 ^ 38 - 1))); [done|]. cbn [orb mbind res_bind].
    destruct (general_payload col z ltac:(lia)) as [-> E2]; [rewrite Hp; lia|]. cbv zeta. by rewrite E2.
Qed.

Lemma guid_agrees v col row z f : holds_cell v row (Word z) -> type_ok (GetType v) -> id (duckdb_type col) = UUID -> id (GetType v) = UUID ->
  ResolveEncoder col = Ok f -> same (guid_cell (ToUnifiedFormat v) (get_index (ToUnifiedFormat v) row)) (f v row col).
Proof.
  intros Hc [Hi _] Hd Hs Hf. unfold ResolveEncoder, FamilyFromLogicalType in Hf. rewrite Hd in Hf. injection Hf as <-.
  unfold guid_cell, uuid.EncodeToBcp, uuid.ScatterToBcp. rewrite (src_at_cell v row z Hc), (FormatWord_cell v row z) by (done || by rewrite Hi, Hs). done.
Qed.

(** The datetime kernel of a column. *)
Definition datetime_kernel (v : Vector) (col : BCPColumnMetadata) (idx : nat) : res bytes :=
  let fmt := ToUnifiedFormat v in
  let tb := Z.to_nat (GetTimeByteSize (scale col)) in
  if bool_decide (id (duckdb_type col) = DATE) then date_cell fmt idx
  else if bool_decide (id (duckdb_type col) = TIME) then
    target_per_sec ← datetime.Pow10 (scale col);
    let up := 1000000 <=? target_per_sec in
    let f := if up then target_per_sec ÷ 1000000 else 1000000 ÷ target_per_sec in
    let h := if up then 0 else f ÷ 2 in
    time_cell tb up f h (target_per_sec * SECONDS_PER_DAY) fmt idx
  else if bool_decide (id (GetType v) = DATE) then date_as_dt2_cell tb fmt idx
  else
    source_per_sec ← datetime.TicksPerSecondFor (id (GetType v));
    let per_day := source_per_sec * SECONDS_PER_DAY in
    target_per_sec ← datetime.Pow10 (scale col);
    let upscale := source_per_sec <=? target_per_sec in
    let factor := if upscale then target_per_sec ÷ source_per_sec else source_per_sec ÷ target_per_sec in
    let half := if upscale then 0 else factor ÷ 2 in
    let per_day_target := target_per_sec * SECONDS_PER_DAY in
    let time_size := GetTimeByteSize (scale col) in
    if bool_decide (id (duckdb_type col) = TIMESTAMP_TZ)
    then dto_cell upscale tb per_day factor half per_day_target (time_size + 3 + 2) fmt idx
    else dt2_cell upscale tb per_day factor half per_day_target (time_size + 3) fmt idx.

Lemma le_ux n w z : (8 * Z.of_nat n <= w) -> le n (ux w z) = le n z.
Proof.
  intros Hw. apply le_mod. unfold ux. assert (E : 2 ^ w = 256 ^ Z.of_nat n * 2 ^ (w - 8 * Z.of_nat n)).
  { change 256 with (2 ^ 8). rewrite <- Z.pow_mul_r, <- Z.pow_add_r by lia. f_equal. lia. }
  rewrite E, Z.rem_mul_r by (apply Z.pow_nonzero || apply Z.pow_pos_nonneg; lia).
  rewrite (Z.mul_comm (256 ^ _)), Z_mod_plus_full. by rewrite Z.mod_mod by (apply Z.pow_nonzero; lia).
Qed.

Lemma le_zero n : le n 0 = replicate n Byte.x00.
Proof. induction n as [|n IH]; [done|]. cbn [le replicate]. change (Z.shiftr 0 8) with 0. by rewrite IH. Qed.

Lemma date_agrees v row z : holds_cell v row (Word z) -> InternalType (GetType v) = PhysicalType.INT32 -> z < 2146764486 ->
  date_cell (ToUnifiedFormat v) (get_index (ToUnifiedFormat v) row) = EncodeDate z /\
  FormatWord PhysicalType.INT32 v row = Ok z /\ int32 (z + DAYS_FROM_0001_TO_EPOCH) = Ok (z + 719162).
Proof.
  intros Hc Hi Hz. pose proof Hc as [_ Hv]. rewrite Hi in Hv. cbn in Hv. unfold date_cell, EncodeDate. rewrite (src_at_cell v row z Hc).
  unfold DAYS_FROM_0001_TO_EPOCH. rewrite !int32_ok by lia. cbn [mbind res_bind]. rewrite le_ux by done.
  split; [done|]. split; [by apply FormatWord_cell|done].
Qed.

Lemma time_agrees v row s z : holds_cell v row (Word z) -> 0 <= s <= 7 -> 0 <= z < 86400000000 ->
  (target_per_sec ← datetime.Pow10 s;
    let up := 1000000 <=? target_per_sec in
    let f := if up then target_per_sec ÷ 1000000 else 1000000 ÷ target_per_sec in
    let h := if up then 0 else f ÷ 2 in
    time_cell (Z.to_nat (GetTimeByteSize s)) up f h (target_per_sec * SECONDS_PER_DAY) (ToUnifiedFormat v) (get_index (ToUnifiedFormat v) row)) = EncodeTime z s.
Proof.
  intros Hc Hs Hz. rewrite Pow10_scale by done. cbn [mbind res_bind]. cbv zeta. unfold time_cell. rewrite (src_at_cell v row z Hc).
  unfold EncodeTime, scale_time. change SECONDS_PER_DAY with 86400.
  assert (Hux : forall x, 0 <= x < 2 ^ 64 -> ux 64 x = x) by (intros x Hx; by apply Z.mod_small). change (2 ^ 64) with 18446744073709551616 in Hux.
  assert (Hg : forall t, t = z -> GetTimeByteSize s = GetTimeByteSize s) by done. clear Hg.
  rewrite Z2Nat.id by (pose proof (GetTimeByteSize_range s); lia).
  assert (Hstep : forall t m t', t = t' -> (m <=? t) = (m <=? t') -> 0 <= t < 18446744073709551616 -> 0 < m < 18446744073709551616 ->
    (if ux 64 m <=? ux 64 t then ux 64 (ux 64 m - 1) else ux 64 t) = (if m <=? t' then m - 1 else t')).
  { intros t m t' <- _ Ht Hm. rewrite !Hux by (try rewrite Hux by lia; lia). done. }
  destruct (scale_cases s Hs) as [-> | [-> | [-> | [-> | [-> | [-> | [-> | ->]]]]]]];
    match goal with |- context[10 ^ ?k] => let p := eval vm_compute in (10 ^ k) in change (10 ^ k) with p end;
    match goal with |- context[1000000 <=? ?p] => let b := eval vm_compute in (1000000 <=? p) in change (1000000 <=? p) with b end; cbv iota;
    repeat match goal with |- context[?a ÷ ?b] => match a with Zpos _ => match b with Zpos _ => let p := eval vm_compute in (a ÷ b) in change (a ÷ b) with p end end end;
    repeat match goal with |- context[Pow10 ?k] => let p := eval vm_compute in (Pow10 k) in change (Pow10 k) with p end;
    repeat match goal with |- context[?a ÷ ?b] => match a with Zpos _ => match b with Zpos _ => let p := eval vm_compute in (a ÷ b) in change (a ÷ b) with p end end end;
    repeat match goal with |- context[?a <=? 6] => let p := eval vm_compute in (a <=? 6) in change (a <=? 6) with p end; cbv iota; rewrite !int64_ok by lia; cbn [mbind res_bind];
    do 3 f_equal.
  1-6: apply Hstep; [f_equal; lia|done|rewrite Z.quot_div_nonneg by lia; split; [apply Z.div_pos; lia|apply Z.div_lt_upper_bound; lia]|lia].
  - apply Hstep; [rewrite Z.quot_1_r; lia|rewrite Z.quot_1_r; f_equal; lia|lia|lia].
  - rewrite !Hux by (try rewrite Hux by lia; lia). rewrite (proj2 (Z.leb_gt _ _)) by lia. lia.
Qed.

Lemma stamp_agrees z d u s : unit_of d = Some u -> 0 <= s <= 7 ->
  (target_per_sec ← datetime.Pow10 s;
   let upscale := u <=? target_per_sec in
   let factor := if upscale then target_per_sec ÷ u else u ÷ target_per_sec in
   let half := if upscale then 0 else factor ÷ 2 in
   dt2_fields upscale (u * SECONDS_PER_DAY) factor half (target_per_sec * SECONDS_PER_DAY) z) = datetime.ComputeDatetime2Components z d s.
Proof.
  intros Hd Hs. destruct (unit_cases d u Hd) as [E Hu]. unfold datetime.ComputeDatetime2Components. rewrite E. cbn [mbind res_bind].
  rewrite Pow10_scale by done. cbn [mbind res_bind]. unfold dt2_fields. cbv zeta. destruct (datetime.split_days z (u * SECONDS_PER_DAY)) as [[days sub]|e|]; [|done..].
  cbn [mbind res_bind]. by destruct (u <=? 10 ^ s).
Qed.

Definition temporal : list LogicalTypeId := [DATE; TIMESTAMP; TIMESTAMP_MS; TIMESTAMP_NS; TIMESTAMP_SEC; TIME; TIMESTAMP_TZ].

(** An instant: from the same fields, the same bytes. *)
Lemma stamp_cell_agrees v col row z u : holds_cell v row (Word z) -> InternalType (GetType v) = PhysicalType.INT64 ->
  unit_of (id (GetType v)) = Some u -> 0 <= scale col <= 7 ->
  forall offset, (if offset : bool then
      (source_per_sec ← datetime.TicksPerSecondFor (id (GetType v));
       target_per_sec ← datetime.Pow10 (scale col);
       dto_cell (source_per_sec <=? target_per_sec) (Z.to_nat (GetTimeByteSize (scale col))) (source_per_sec * SECONDS_PER_DAY)
         (if source_per_sec <=? target_per_sec then target_per_sec ÷ source_per_sec else source_per_sec ÷ target_per_sec)
         (if source_per_sec <=? target_per_sec then 0 else (if source_per_sec <=? target_per_sec then target_per_sec ÷ source_per_sec else source_per_sec ÷ target_per_sec) ÷ 2)
         (target_per_sec * SECONDS_PER_DAY) (GetTimeByteSize (scale col) + 3 + 2) (ToUnifiedFormat v) (get_index (ToUnifiedFormat v) row))
    else
      (source_per_sec ← datetime.TicksPerSecondFor (id (GetType v));
       target_per_sec ← datetime.Pow10 (scale col);
       dt2_cell (source_per_sec <=? target_per_sec) (Z.to_nat (GetTimeByteSize (scale col))) (source_per_sec * SECONDS_PER_DAY)
         (if source_per_sec <=? target_per_sec then target_per_sec ÷ source_per_sec else source_per_sec ÷ target_per_sec)
         (if source_per_sec <=? target_per_sec then 0 else (if source_per_sec <=? target_per_sec then target_per_sec ÷ source_per_sec else source_per_sec ÷ target_per_sec) ÷ 2)
         (target_per_sec * SECONDS_PER_DAY) (GetTimeByteSize (scale col) + 3) (ToUnifiedFormat v) (get_index (ToUnifiedFormat v) row)))
  = (t ← FormatWord PhysicalType.INT64 v row;
     '(time_value, date_value) ← datetime.ComputeDatetime2Components t (id (GetType v)) (scale col);
     Ok (if offset then EncodeDatetimeOffsetRaw time_value date_value 0 (scale col) else EncodeDatetime2Raw time_value date_value (scale col))).
Proof.
  intros Hc Hi Hu Hs offset. rewrite (FormatWord_cell v row z) by done. cbn [mbind res_bind]. destruct (unit_cases _ u Hu) as [E _]. rewrite E. cbn [mbind res_bind].
  rewrite <- (stamp_agrees z _ u (scale col) Hu Hs). rewrite Pow10_scale by done. cbn [mbind res_bind]. cbv zeta.
  unfold dto_cell, dt2_cell. rewrite (src_at_cell v row z Hc).
  destruct offset; destruct (dt2_fields _ _ _ _ _ _) as [[t d]|e|]; done.
Qed.

Lemma datetime_agrees v col row z f : holds_cell v row (Word z) -> type_ok (GetType v) -> target_ok col ->
  id (duckdb_type col) ∈ temporal -> accepts (id (GetType v)) (id (duckdb_type col)) = true ->
  cell_fits (id (GetType v)) (Word z) -> cell_exact (GetType v) (id (duckdb_type col)) (Word z) -> ResolveEncoder col = Ok f ->
  same (datetime_kernel v col (get_index (ToUnifiedFormat v) row)) (f v row col).
Proof.
  intros Hc Hty Ht Hd Ha Hfit (_ & Htime & _) Hf.
  assert (Hn : f v row col <> Oob).
  { destruct (cell_written col v row (Word z) Ht Hty Ha Hc Hfit) as (g & Eg & Hw). rewrite Hf in Eg. injection Eg as <-. by eapply holds_safe. }
  enough (E : datetime_kernel v col (get_index (ToUnifiedFormat v) row) = f v row col) by (rewrite E; by apply same_self).
  clear Hn. destruct Hty as [Hi _]. unfold target_ok in Ht. unfold ResolveEncoder, FamilyFromLogicalType in Hf.
  assert (Hf' : f = datetime.EncodeToBcp) by (unfold temporal in Hd; rewrite !elem_of_cons, elem_of_nil in Hd;
    destruct Hd as [Hd|[Hd|[Hd|[Hd|[Hd|[Hd|[Hd|[]]]]]]]]; rewrite Hd in Hf; by injection Hf).
  subst f. clear Hf. unfold datetime.EncodeToBcp, datetime_kernel.
  assert (Hstamp : 0 <= scale col <= 7 -> id (duckdb_type col) <> DATE -> id (duckdb_type col) <> TIME -> id (duckdb_type col) <> TIMESTAMP_TZ ->
    id (GetType v) = DATE \/ (exists u, unit_of (id (GetType v)) = Some u) ->
    datetime_kernel v col (get_index (ToUnifiedFormat v) row) =
    (if bool_decide (id (GetType v) = DATE)
     then d ← FormatWord PhysicalType.INT32 v row; days ← int32 (d + DAYS_FROM_0001_TO_EPOCH); Ok (EncodeDatetime2Raw 0 (ux 32 days) (scale col))
     else t ← FormatWord PhysicalType.INT64 v row;
       '(time_value, date_value) ← datetime.ComputeDatetime2Components t (id (GetType v)) (scale col);
       Ok (EncodeDatetime2Raw time_value date_value (scale col)))).
  { intros Hs N1 N2 N3 Hsrc. unfold datetime_kernel. rewrite (bool_decide_eq_false_2 _ N1), (bool_decide_eq_false_2 _ N2), (bool_decide_eq_false_2 _ N3).
    case_bool_decide as Es.
    - rewrite Es in Hi, Hfit. cbn in Hfit. destruct (date_agrees v row z Hc Hi Hfit) as (_ & Ew & Ed). rewrite Ew. cbn [mbind res_bind].
      unfold date_as_dt2_cell. rewrite (src_at_cell v row z Hc), Ed. cbn [mbind res_bind]. unfold EncodeDatetime2Raw. cbv zeta.
      rewrite le_zero, Z2Nat.id by (pose proof (GetTimeByteSize_range (scale col)); lia). done.
    - destruct Hsrc as [?|[u Hu]]; [done|]. apply (stamp_cell_agrees v col row z u Hc) with (offset := false); [|done..].
      rewrite Hi. by destruct (id (GetType v)). }
  unfold temporal in Hd. rewrite !elem_of_cons, elem_of_nil in Hd. unfold datetime_kernel in Hstamp.
  destruct Hd as [Hd|[Hd|[Hd|[Hd|[Hd|[Hd|[Hd|[]]]]]]]]; rewrite Hd in *; apply bool_decide_eq_true in Ha.
  - rewrite Ha in Hi, Hfit. cbn in Hfit. destruct (date_agrees v row z Hc Hi Hfit) as (Ed & Ew & _). rewrite Ew. exact Ed.
  - apply Hstamp; [lia|done|done|done|]. rewrite !elem_of_cons, elem_of_nil in Ha. destruct Ha as [-> | [-> | [-> | [-> | [-> | []]]]]]; [right; by eexists..|by left].
  - apply Hstamp; [lia|done|done|done|]. rewrite Ha. right. by eexists.
  - apply Hstamp; [lia|done|done|done|]. rewrite Ha. right. by eexists.
  - apply Hstamp; [lia|done|done|done|]. rewrite Ha. right. by eexists.
  - rewrite Ha in Hi, Hfit. cbn in Hfit. specialize (Htime Ha). rewrite (FormatWord_cell v row z) by done. cbn [mbind res_bind].
    rewrite (bool_decide_eq_false_2 (TIME = DATE)), (bool_decide_eq_true_2 (TIME = TIME)) by done. apply (time_agrees v row (scale col) z Hc); lia.
  - rewrite (bool_decide_eq_false_2 (TIMESTAMP_TZ = DATE)), (bool_decide_eq_false_2 (TIMESTAMP_TZ = TIME)), (bool_decide_eq_true_2 (TIMESTAMP_TZ = TIMESTAMP_TZ)) by done.
    rewrite (bool_decide_eq_false_2 (id (GetType v) = DATE)) by (by rewrite Ha).
    apply (stamp_cell_agrees v col row z 1000000 Hc) with (offset := true); [by rewrite Hi, Ha|by rewrite Ha|lia].
Qed.

(** Plain copies. *)
Lemma direct_agrees v col row z f W : holds_cell v row (Word z) -> type_ok (GetType v) -> target_ok col ->
  accepts (id (GetType v)) (id (duckdb_type col)) = true -> cell_exact (GetType v) (id (duckdb_type col)) (Word z) -> ResolveEncoder col = Ok f ->
  direct_arm (GetType v) col = (DirectCopyArm (Z.of_nat W), Z.of_nat W, 0) -> DirectCopyArm (Z.of_nat W) <> Unsupported ->
  same (direct_cell W (ToUnifiedFormat v) (get_index (ToUnifiedFormat v) row)) (f v row col).
Proof.
  intros Hc [Hi _] Ht Ha (_ & _ & Hnan) Hf Hop Hn. unfold direct_cell. rewrite (src_at_cell v row z Hc).
  pose proof Hc as [_ Hv]. rewrite Hi in Hv. unfold direct_arm in Hop. rewrite Hi in Hop. unfold DirectCopyTargetWidth in Hop. unfold target_ok in Ht.
  unfold ResolveEncoder, FamilyFromLogicalType in Hf.
  assert (HW : W = 1%nat \/ W = 2%nat \/ W = 4%nat \/ W = 8%nat).
  { unfold DirectCopyArm in Hn. destruct (Z.eqb_spec (Z.of_nat W) 1), (Z.eqb_spec (Z.of_nat W) 2), (Z.eqb_spec (Z.of_nat W) 4), (Z.eqb_spec (Z.of_nat W) 8); try done; lia. }
  destruct (id (duckdb_type col)) eqn:Ed; try done; try (destruct Ht as [_ Hm]; rewrite Hm in Hop);
    destruct (id (GetType v)) eqn:Es; try discriminate Ha;
    first [by destruct HW as [-> | [-> | [-> | ->]]]; discriminate Hop|idtac];
    destruct HW as [-> | [-> | [-> | ->]]]; try discriminate Hop; injection Hf as <-.
  all: rewrite ?Es in Hi; cbn in Hi; cbn in Hv.
  all: unfold boolean.EncodeToBcp, integer.EncodeToBcp, integer.narrow, float_family.EncodeToBcp; rewrite ?Ed, ?Es.
  all: rewrite ?(FormatWord_cell v row z) by done; cbn [mbind res_bind]; rewrite ?decide_True by done; rewrite ?(FormatWord_cell v row z) by done; cbn [mbind res_bind same].
  all: unfold integer.AppendUInt8Bcp, integer.AppendInt16Bcp, integer.AppendInt32Bcp, integer.AppendInt64Bcp; try done.
  - cbn [le]. destruct Hv as [-> | ->]; done.
  - cbn [le]. do 2 f_equal. apply b2z_inj. rewrite b2z_byte_0, b2z_z2b. done.
  - rewrite (bool_decide_eq_true_2 (FLOAT = FLOAT)) by done. cbn [negb andb]. rewrite ?(FormatWord_cell v row z) by done. cbn [mbind res_bind same].
    unfold float_family.AppendFloatBcp. rewrite narrow_widen by (done || by apply Hnan). done.
  - rewrite (bool_decide_eq_false_2 (DOUBLE = FLOAT)), (bool_decide_eq_true_2 (DOUBLE = DOUBLE)) by done. cbn [negb andb].
    rewrite (FormatWord_cell v row z) by done. done.
Qed.

Lemma float_agrees v col row z f w s : holds_cell v row (Word z) -> type_ok (GetType v) -> target_ok col ->
  accepts (id (GetType v)) (id (duckdb_type col)) = true -> ResolveEncoder col = Ok f ->
  direct_arm (GetType v) col = (FloatConvert, w, s) ->
  same (float_cell (mkOps FloatConvert Fixed w s) (ToUnifiedFormat v) (get_index (ToUnifiedFormat v) row)) (f v row col).
Proof.
  intros Hc [Hi _] Ht Ha Hf Hop. unfold float_cell. cbn [wire_width]. rewrite (src_at_cell v row z Hc).
  unfold direct_arm in Hop. rewrite Hi in Hop. unfold DirectCopyTargetWidth, DirectCopyArm in Hop. unfold target_ok in Ht.
  unfold ResolveEncoder, FamilyFromLogicalType in Hf.
  destruct (id (duckdb_type col)) eqn:Ed; try done; try (destruct Ht as [_ Hm]; rewrite Hm in Hop);
    destruct (id (GetType v)) eqn:Es; try discriminate Ha; try discriminate Hop; injection Hop as <- <-; injection Hf as <-.
  all: unfold float_family.EncodeToBcp; rewrite ?Ed, ?Es, ?(bool_decide_eq_true_2 (FLOAT = FLOAT)), ?(bool_decide_eq_true_2 (DOUBLE = DOUBLE)),
    ?(bool_decide_eq_false_2 (DOUBLE = FLOAT)) by done; cbn [negb andb]; rewrite (FormatWord_cell v row z) by done; done.
Qed.

(** Integers of another width: what is lost is what the codec refuses. *)
Lemma sx_range w z : 0 < w -> - 2 ^ (w - 1) <= sx w z < 2 ^ (w - 1).
Proof.
  intros Hw. unfold sx. assert (2 ^ w = 2 * 2 ^ (w - 1)) by (rewrite <- Z.pow_succ_r by lia; f_equal; lia).
  pose proof (Z.mod_pos_bound (z + 2 ^ (w - 1)) (2 ^ w) ltac:(apply Z.pow_pos_nonneg; lia)). lia.
Qed.

Lemma sx_fits w z : 0 < w -> (sx w z =? z) = (- 2 ^ (w - 1) <=? z) && (z <=? 2 ^ (w - 1) - 1).
Proof.
  intros Hw. pose proof (sx_range w z Hw). destruct (Z.leb_spec (- 2 ^ (w - 1)) z), (Z.leb_spec z (2 ^ (w - 1) - 1)); cbn [andb].
  - apply Z.eqb_eq, sx_small; lia.
  - apply Z.eqb_neq. lia.
  - apply Z.eqb_neq. lia.
  - apply Z.eqb_neq. lia.
Qed.

Lemma convert_agrees v col row z f w s : holds_cell v row (Word z) -> type_ok (GetType v) -> target_ok col ->
  accepts (id (GetType v)) (id (duckdb_type col)) = true -> ResolveEncoder col = Ok f -> direct_arm (GetType v) col = (IntConvert, w, s) ->
  w = Z.of_nat (int_bytes (dst_of_width w)) /\
  let idx := get_index (ToUnifiedFormat v) row in
  if conv_bad (src_of_width s) (dst_of_width w) (ToUnifiedFormat v) idx then exists e, f v row col = Exn e
  else f v row col = conv_cell (dst_of_width w) (ToUnifiedFormat v) idx.
Proof.
  intros Hc [Hi _] Ht Ha Hf Hop. cbv zeta. unfold conv_bad, conv_cell. rewrite (src_at_cell v row z Hc).
  pose proof Hc as [_ Hv]. rewrite Hi in Hv. unfold direct_arm in Hop. rewrite Hi in Hop. unfold DirectCopyTargetWidth, DirectCopyArm in Hop. unfold target_ok in Ht.
  unfold ResolveEncoder, FamilyFromLogicalType in Hf.
  destruct (id (duckdb_type col)) eqn:Ed; try done; try (destruct Ht as [_ Hm]; rewrite Hm in Hop);
    destruct (id (GetType v)) eqn:Es; try discriminate Ha; try discriminate Hop; injection Hop as <- <-; injection Hf as <-.
  all: cbn in Hi, Hv; assert (Hsrc : integer_source (InternalType (GetType v)) = true) by (by rewrite Hi).
  all: split; [done|]; unfold integer.EncodeToBcp; rewrite Ed; rewrite (narrow_cell _ _ _ _ _ _ z Hc Hsrc) by (intros x; cbn; lia).
  all: cbn [src_of_width dst_of_width int_bytes int_cast Z.eqb Pos.eqb Nat.ltb Nat.leb andb Z.of_nat Pos.of_succ_nat Pos.succ].
  all: rewrite ?(sx_small 8 z), ?(sx_small 16 z), ?(sx_small 32 z), ?(sx_small 64 z) by (done || cbn; lia).
  all: try (rewrite (proj2 (Z.leb_le _ z)), (proj2 (Z.leb_le z _)) by lia; done).
  all: match goal with |- context[sx ?k (sx ?j ?y)] => assert (Hj : 0 < j) by done; pose proof (sx_range j y Hj) as Hr; pose proof (sx_small j y Hj) as Hsm;
    cbn in Hr, Hsm; rewrite (sx_small k (sx j y)) by (cbn; lia); rewrite (sx_fits j y Hj); cbn end.
  all: change (- 2 ^ (16 - 1)) with (-32768); change (2 ^ (16 - 1) - 1) with 32767; change (- 2 ^ (32 - 1)) with (-2147483648); change (2 ^ (32 - 1) - 1) with 2147483647.
  all: match goal with |- context[(?lo <=? ?y) && (?y <=? ?hi)] => destruct (Z.leb_spec lo y), (Z.leb_spec y hi) end;
    cbn [andb negb]; try (by eexists).
  all: unfold integer.AppendInt16Bcp, integer.AppendInt32Bcp; rewrite Hsm by lia; done.
Qed.

(** A row of a column by its kernel's cell. *)
Definition agrees (v : Vector) (col : BCPColumnMetadata) (f : EncodeFn) (kernel : nat -> res bytes) (row : nat) : Prop :=
  FormatIsNull (ToUnifiedFormat v) row = false -> same (kernel (get_index (ToUnifiedFormat v) row)) (f v row col).
End CellsAgree.
