(* ===== verification/ScatterSpec.v ===== *)
(** * The columnar path writes the row path's bytes (theorems about [Scatter])

    [T] is a chunk as the row path writes it, a slot of known length for every
    value. A kernel keeps every byte of the room that already agrees with [T]
    ([done]) and makes its own slots agree ([scatter_rows_spec]); so the order in
    which columns and blocks are written does not matter, and when every slot has
    been written the room is [T]. What remains is that each kernel's cell is the
    codec's value ([ScatterCells]), and that sizes and offsets are those of [T]. *)

From S2P Require Import Prelude TdsTypes Utf16 ColumnMetadata RowReader Values Encoding Codecs CodecsSpec BcpRow BcpRowSpec Scatter ScatterCells.

(** ** Agreement with the text to be written *)

Definition done (T mem : bytes) (off n : Z) : Prop := forall i, off <= Z.of_nat i < off + n -> mem !! i = T !! i.

Definition holds_at (T : bytes) (off : Z) (b : bytes) : Prop := exists pre post, T = pre ++ b ++ post /\ zlen pre = off.

Definition keeps (T mem mem' : bytes) : Prop := forall off n, done T mem off n -> done T mem' off n.

Lemma keeps_trans T a b c : keeps T a b -> keeps T b c -> keeps T a c.
Proof. unfold keeps. auto. Qed.

Lemma keeps_refl T a : keeps T a a.
Proof. unfold keeps. auto. Qed.

Lemma holds_at_bounds T off b : holds_at T off b -> 0 <= off /\ off + zlen b <= zlen T.
Proof.
  intros (pre & post & -> & <-). rewrite !zlen_app. pose proof (zlen_nonneg pre). pose proof (zlen_nonneg post). lia.
Qed.

Lemma holds_at_app T off a b : holds_at T off (a ++ b) -> holds_at T off a /\ holds_at T (off + zlen a) b.
Proof.
  intros (pre & post & -> & <-). split.
  - exists pre, (b ++ post). by rewrite <- app_assoc.
  - exists (pre ++ a), post. by rewrite zlen_app, <- !app_assoc.
Qed.

Lemma holds_at_same T off a b : holds_at T off a -> holds_at T off b -> zlen a = zlen b -> a = b.
Proof.
  intros (p & q & -> & Ho) (p' & q' & E & Ho') Hl.
  assert (p = p') as ->.
  { rewrite <- (ztake_app_length p (a ++ q) off), <- (ztake_app_length p' (b ++ q') off) by done. by rewrite E. }
  apply app_inv_head in E. rewrite <- (ztake_app_length a q (zlen a)), <- (ztake_app_length b q' (zlen a)) by done. by rewrite E.
Qed.

Lemma store_bounds mem off b : 0 <= off -> off + zlen b <= zlen mem -> exists mem', store mem off b = Ok mem' /\ zlen mem' = zlen mem.
Proof.
  intros H1 H2. pose proof (zlen_nonneg b). unfold store. rewrite (proj2 (Z.leb_le 0 off)), (proj2 (Z.leb_le _ (zlen mem))) by lia. eexists. split; [done|].
  rewrite !zlen_app, zlen_ztake, zlen_zdrop by lia. lia.
Qed.

Lemma store_lookup mem mem' off b i : store mem off b = Ok mem' ->
  mem' !! i = if (off <=? Z.of_nat i) && (Z.of_nat i <? off + zlen b) then b !! (i - Z.to_nat off)%nat else mem !! i.
Proof.
  unfold store. destruct (Z.leb_spec 0 off) as [H1|]; [|done]. destruct (Z.leb_spec (off + zlen b) (zlen mem)) as [H2|]; [|done].
  intros [= <-]. pose proof (zlen_nonneg b). unfold zlen, ztake, zdrop in *. cbn [andb].
  assert (Hl : length (take (Z.to_nat off) mem) = Z.to_nat off) by (rewrite length_take; lia).
  destruct (Z.leb_spec off (Z.of_nat i)), (Z.ltb_spec (Z.of_nat i) (off + Z.of_nat (length b))); cbn [andb].
  - rewrite lookup_app_r, Hl by lia. rewrite lookup_app_l by lia. done.
  - rewrite lookup_app_r, Hl by lia. rewrite lookup_app_r by lia. rewrite lookup_drop. f_equal. lia.
  - rewrite lookup_app_l by lia. by rewrite lookup_take_lt by lia.
  - lia.
Qed.

(** Writing a piece of [T] where it belongs. *)
Lemma store_done T mem off b : zlen mem = zlen T -> holds_at T off b ->
  exists mem', store mem off b = Ok mem' /\ zlen mem' = zlen T /\ keeps T mem mem' /\ done T mem' off (zlen b).
Proof.
  intros Hl Hb. destruct (holds_at_bounds _ _ _ Hb) as [H1 H2]. destruct (store_bounds mem off b H1 ltac:(lia)) as (mem' & E & Hl').
  exists mem'. split; [done|]. split; [lia|].
  assert (HT : forall i, off <= Z.of_nat i < off + zlen b -> b !! (i - Z.to_nat off)%nat = T !! i).
  { destruct Hb as (pre & post & -> & <-). intros i Hi. unfold zlen in *. rewrite lookup_app_r by lia. rewrite lookup_app_l by lia. f_equal. lia. }
  split.
  - intros o n Hd i Hi. rewrite (store_lookup _ _ _ _ i E). destruct (Z.leb_spec off (Z.of_nat i)), (Z.ltb_spec (Z.of_nat i) (off + zlen b));
      cbn [andb]; first [apply HT; lia|by apply Hd].
  - intros i Hi. rewrite (store_lookup _ _ _ _ i E). rewrite (proj2 (Z.leb_le _ _)), (proj2 (Z.ltb_lt _ _)) by lia. by apply HT.
Qed.

Lemma done_all T mem : zlen mem = zlen T -> done T mem 0 (zlen T) -> mem = T.
Proof.
  intros Hl Hd. apply list_eq. intros i. destruct (Z.lt_ge_cases (Z.of_nat i) (zlen T)); [apply Hd; lia|].
  unfold zlen in *. by rewrite !lookup_ge_None_2 by lia.
Qed.

Lemma done_app T mem off n m : 0 <= n -> done T mem off n -> done T mem (off + n) m -> done T mem off (n + m).
Proof. intros Hn H1 H2 i Hi. destruct (Z.lt_ge_cases (Z.of_nat i) (off + n)); [apply H1; lia|apply H2; lia]. Qed.

(** ** The loop over rows *)

(** The cursors after rows [r .. r + rows) have been written. *)
Definition advanced (pos : Pos) (cur cur' : list Z) (r rows : nat) (slot : nat -> bytes) : Prop :=
  match pos with
  | StridePos _ _ => cur' = cur
  | CursorPos _ rb => forall i, cur' !! i =
      (fun c => if (rb + r <=? i)%nat && (i <? rb + r + rows)%nat then c + zlen (slot (i - rb)%nat) else c) <$> cur !! i
  end.

Lemma advanced_0 pos cur r slot : advanced pos cur cur r 0 slot.
Proof.
  destruct pos as [|dst rb]; [done|]. intros i. destruct (Nat.leb_spec (rb + r) i), (Nat.ltb_spec i (rb + r + 0)); try lia; cbn [andb]; by destruct (cur !! i).
Qed.

Lemma advanced_S pos cur cur' r rows slot (w : bytes) : zlen w = zlen (slot r) ->
  advanced pos (Advance pos cur r (zlen w)) cur' (S r) rows slot -> advanced pos cur cur' r (S rows) slot.
Proof.
  intros Hw. destruct pos as [|dst rb]; [done|]. cbn [advanced Advance]. intros Hc i. rewrite Hc.
  destruct (decide (i = rb + r)%nat) as [->|Hi].
  - rewrite list_lookup_alter, decide_True by done. rewrite (proj2 (Nat.leb_gt (rb + S r) _)) by lia.
    rewrite (proj2 (Nat.leb_le (rb + r) _)), (proj2 (Nat.ltb_lt _ (rb + r + S rows))) by lia. cbn [andb].
    replace (rb + r - rb)%nat with r by lia. rewrite <- Hw. by destruct (cur !! (rb + r)%nat).
  - rewrite list_lookup_alter_ne by done. destruct (cur !! i); [|done]. cbn [fmap option_fmap option_map]. f_equal.
    destruct (Nat.leb_spec (rb + S r) i), (Nat.leb_spec (rb + r) i), (Nat.ltb_spec i (rb + S r + rows)), (Nat.ltb_spec i (rb + r + S rows)); try lia; done.
Qed.

Lemma At_Advance pos cur r r' n : r <> r' -> At pos (Advance pos cur r n) r' = At pos cur r'.
Proof. intros Hr. destruct pos as [|dst rb]; [done|]. cbn [At Advance]. rewrite list_lookup_alter_ne by lia. done. Qed.

(** The rows have their place in [T], and the cells the length of the slots. *)
Lemma scatter_rows_spec T pos cell slot off rows : forall r mem cur, zlen mem = zlen T ->
  (forall i, (r <= i < r + rows)%nat -> At pos cur i = Ok (off i) /\ holds_at T (off i) (slot i) /\
     holds (cell i) (fun w => zlen w = zlen (slot i))) ->
  match scatter_rows pos cell rows r (mem, cur) with
  | Ok (mem', cur') =>
      (forall i, (r <= i < r + rows)%nat -> exists w, cell i = Ok w) /\ zlen mem' = zlen T /\ advanced pos cur cur' r rows slot /\
      ((forall i, (r <= i < r + rows)%nat -> cell i = Ok (slot i)) ->
         keeps T mem mem' /\ forall i, (r <= i < r + rows)%nat -> done T mem' (off i) (zlen (slot i)))
  | Exn _ => exists i e, (r <= i < r + rows)%nat /\ cell i = Exn e
  | Oob => False
  end.
Proof.
  induction rows as [|rows IH]; intros r mem cur Hl Hr; cbn [scatter_rows].
  - split; [lia|]. split; [done|]. split; [apply advanced_0|]. intros _. split; [apply keeps_refl|lia].
  - destruct (Hr r ltac:(lia)) as (Ha & Hs & Hc). cbn [fst snd]. rewrite Ha. cbn [mbind res_bind].
    destruct (cell r) as [w|e|] eqn:Ec; [|by exists r, e; split; [lia|]|done]. cbn [holds mbind res_bind] in *.
    destruct (holds_at_bounds _ _ _ Hs) as [B1 B2]. destruct (store_bounds mem (off r) w ltac:(lia) ltac:(lia)) as (mem1 & E1 & Hl1).
    rewrite E1. cbn [mbind res_bind]. specialize (IH (S r) mem1 (Advance pos cur r (zlen w)) ltac:(lia)).
    destruct (scatter_rows pos cell rows (S r) _) as [[mem' cur']|e|].
    + destruct IH as (Hall & Hl' & Hadv & Hd).
      { intros i Hi. rewrite At_Advance by lia. apply Hr. lia. }
      split; [|split; [done|split; [by eapply advanced_S|]]].
      * intros i Hi. destruct (decide (i = r)) as [->|]; [by exists w|apply Hall; lia].
      * intros Heq. assert (w = slot r) as -> by (specialize (Heq r ltac:(lia)); congruence).
        destruct (store_done T mem (off r) (slot r) Hl Hs) as (m2 & E2 & _ & Hk & Hdone). rewrite E1 in E2. injection E2 as <-.
        destruct Hd as [Hk2 Hd]; [intros i Hi; apply Heq; lia|]. split; [by eapply keeps_trans|].
        intros i Hi. destruct (decide (i = r)) as [->|]; [by apply Hk2|apply Hd; lia].
    + destruct IH as (i & e' & Hi & E); [|exists i, e'; split; [lia|done]]. intros i Hi. rewrite At_Advance by lia. apply Hr. lia.
    + apply IH. intros i Hi. rewrite At_Advance by lia. apply Hr. lia.
Qed.

(** ** Text and binary *)

Lemma IsAsciiRun_forallb s : IsAsciiRun s = forallb (fun c => Z.land (b2z c) 0x80 =? 0) s.
Proof. exact (IsAsciiString_forallb s). Qed.

Lemma IsAsciiRun_app a b : IsAsciiRun (a ++ b) = IsAsciiRun a && IsAsciiRun b.
Proof. rewrite !IsAsciiRun_forallb. apply forallb_app. Qed.

Lemma ascii_char c : scalar c -> IsAsciiRun (utf8_enc c) = true -> utf8_enc c = [z2b c] /\ utf16_enc c = [c] /\ 0 <= c < 128.
Proof.
  intros Hc. unfold utf8_enc, utf16_enc. destruct (Z.ltb_spec c 0x80) as [Hl|Hl].
  - intros _. rewrite (proj2 (Z.ltb_lt c 65536)) by lia. split; [done|]. split; [done|]. destruct Hc; lia.
  - assert (Hc' : c < 0x110000) by (destruct Hc; lia).
    rewrite IsAsciiRun_forallb. intros E. exfalso. 
    assert (Hx : forall x, 0x80 <= x < 256 -> (Z.land x 0x80 =? 0) = false) by (apply (z_range_ind (fun x => (Z.land x 0x80 =? 0) = false) 128 128); by vm_compute).
    destruct (Z.ltb_spec c 2048); [|destruct (Z.ltb_spec c 65536)];
      unfold bs in E; cbn [forallb map fmap list_fmap] in E; apply andb_prop in E as [E _]; rewrite b2z_z2b, Z.mod_small in E by zlia;
      rewrite Hx in E by zlia; done.
Qed.

Lemma WidenAscii_app a b : WidenAscii (a ++ b) = WidenAscii a ++ WidenAscii b.
Proof. unfold WidenAscii. by rewrite fmap_app, concat_app. Qed.

(** ASCII is widened byte by byte. *)
Lemma ascii_text cps : Forall scalar cps -> IsAsciiRun (utf8_encode cps) = true ->
  units_bytes (utf16_encode cps) = WidenAscii (utf8_encode cps) /\ zlen (utf16_encode cps) = zlen (utf8_encode cps).
Proof.
  induction 1 as [|c cps Hc Hcs IH]; [done|]. change (c :: cps) with ([c] ++ cps). rewrite utf8_encode_app, utf16_encode_app, IsAsciiRun_app.
  change (utf8_encode [c]) with (utf8_enc c ++ []). change (utf16_encode [c]) with (utf16_enc c ++ []). rewrite !app_nil_r.
  intros [E1 E2]%andb_prop. destruct (ascii_char c Hc E1) as (-> & -> & Hr). destruct (IH E2) as [IH1 IH2].
  rewrite units_bytes_app, WidenAscii_app, IH1, !zlen_app, IH2. split; [|done]. f_equal. unfold units_bytes, WidenAscii. cbn [fmap list_fmap concat app].
  unfold put16le. cbn [app]. f_equal; [|f_equal]; apply b2z_inj; [by rewrite b2z_byte_0, b2z_z2b|]. rewrite b2z_byte_at by lia. by rewrite Z.div_small by lia.
Qed.

Lemma zlen_WidenAscii q : zlen (WidenAscii q) = 2 * zlen q.
Proof. induction q as [|b q IH]; [done|]. change (b :: q) with ([b] ++ q). rewrite WidenAscii_app, !zlen_app, IH. change (zlen (WidenAscii [b])) with 2. change (zlen [b]) with 1. lia. Qed.

Lemma slice_to s a b : s = a ++ b -> slice s 0 (zlen a) = Ok a.
Proof. intros ->. by apply slice_prefix. Qed.

Section VarText.
Context `{Hugeint} `{Floats} `{DuckDB} {S : Simdutf} {Spec : SimdutfSpec S}.

(** The value [s] as a column of a kind takes it: [full] bytes if nothing is cut,
    [p] after cutting, [q] of the source. *)
Definition var_value (kind : VarKind) (bound : Z) (s : bytes) (full : Z) (p : bytes) : Prop :=
  (forall ascii, plan_len kind ascii s = Some (full, if bool_decide (kind = NVarchar) then ascii && IsAsciiRun s else ascii)) /\
  0 <= full < 4294967280 /\ zlen s < 4294967296 /\
  exists q, clamp_row kind bound full s = Ok (zlen p, zlen q) /\ slice s 0 (zlen q) = Ok q /\ zlen p <= full /\
    p = (if bool_decide (kind = NVarchar) then Utf16LEEncodeValidDirect q else q) /\
    (kind = NVarchar -> IsAsciiRun s = true -> p = WidenAscii q).

Definition bound_of (col : BCPColumnMetadata) : Z := if IsPLPType col then 0xFFFFFFFF else max_length col.
Definition bounded (col : BCPColumnMetadata) : Prop := max_length col = 0xFFFF \/ 1 <= max_length col <= 8000.

Lemma uint32_small z : 0 <= z < 4294967296 -> uint32 z = z.
Proof. apply Z.mod_small. Qed.

Lemma bound_cut col full : bounded col -> full < 4294967280 -> (bound_of col <? full) = negb (IsPLPType col) && (max_length col <? full).
Proof.
  intros Hb Hf. unfold bound_of. destruct (IsPLPType col); [|done]. cbn [negb andb]. apply Z.ltb_ge. lia.
Qed.

Lemma nvarchar_value cps col : Forall scalar cps -> zlen (utf8_encode cps) < 2147483640 -> bounded col ->
  exists p, var_value NVarchar (bound_of col) (utf8_encode cps) (2 * zlen (utf16_encode cps)) p /\
    string.EncodeNVarcharFromUtf8 (utf8_encode cps) col = Ok (framed col p).
Proof.
  intros Hc Hl Hb. assert (Hml : 0 <= max_length col) by (destruct Hb; lia). pose proof (utf16_shorter cps Hc) as Hsh.
  pose proof (zlen_nonneg (utf16_encode cps)) as Hn. destruct (nvarchar_cut cps col Hc Hml) as (cps1 & Hk & E).
  exists (units_bytes (utf16_encode cps1)). split; [|by apply EncodeNVarchar_kept].
  destruct (kept_prefix _ _ _ _ Hk) as [cps2 Ec]. split; [|split; [lia|split; [lia|]]].
  - intros ascii. unfold plan_len. rewrite (bool_decide_eq_true_2 (NVarchar = NVarchar)) by done. cbn [negb].
    destruct ascii; cbn [andb]; [destruct (IsAsciiRun (utf8_encode cps)) eqn:Ea|].
    + destruct (ascii_text cps Hc Ea) as [_ El]. rewrite El in *. rewrite (uint32_small (zlen (utf8_encode cps))), uint32_small by lia. do 2 f_equal. lia.
    + rewrite ByteLengthView_encode by done. cbn [negb]. by rewrite uint32_small by lia.
    + rewrite ByteLengthView_encode by done. cbn [negb]. by rewrite uint32_small by lia.
  - assert (Hc1 : Forall scalar cps1) by (rewrite Ec in Hc; by apply Forall_app in Hc as [? _]).
    assert (H8 : 0 <= zlen (utf8_encode cps1) <= zlen (utf8_encode cps)).
    { rewrite Ec, utf8_encode_app, zlen_app. pose proof (zlen_nonneg (utf8_encode cps1)). pose proof (zlen_nonneg (utf8_encode cps2)). lia. }
    assert (H16 : 0 <= zlen (utf16_encode cps1) <= zlen (utf16_encode cps)).
    { rewrite Ec, utf16_encode_app, zlen_app. pose proof (zlen_nonneg (utf16_encode cps1)). pose proof (zlen_nonneg (utf16_encode cps2)). lia. }
    exists (utf8_encode cps1). rewrite zlen_units_bytes. split; [|split; [|split; [lia|split; [by rewrite EncodeValidDirect_encode|]]]].
    + unfold clamp_row. rewrite bound_cut by (done || lia). destruct (negb _ && _) eqn:Eo.
      * unfold bound_of. destruct (IsPLPType col); [done|]. rewrite E. cbn [mbind res_bind]. by rewrite !uint32_small by lia.
      * injection E as E1 E2. rewrite uint32_small by lia. by rewrite E1, E2.
    + apply (slice_to _ _ (utf8_encode cps2)). by rewrite Ec, utf8_encode_app.
    + intros _ Ea. rewrite Ec, utf8_encode_app, IsAsciiRun_app in Ea. apply andb_prop in Ea as [Ea _]. by apply ascii_text.
Qed.

Lemma varchar_value cps col : Forall scalar cps -> zlen (utf8_encode cps) < 2147483640 -> bounded col ->
  exists p, var_value Utf8Varchar (bound_of col) (utf8_encode cps) (zlen (utf8_encode cps)) p /\
    string.EncodeVarcharUtf8 (utf8_encode cps) col = Ok (framed col p).
Proof.
  intros Hc Hl Hb. assert (Hml : 0 <= max_length col) by (destruct Hb; lia). pose proof (zlen_nonneg (utf8_encode cps)) as Hn.
  destruct (varchar_cut cps col Hc Hml) as (cps1 & Hk & E). exists (utf8_encode cps1). split; [|by apply (EncodeVarchar_kept cps)].
  destruct (kept_prefix _ _ _ _ Hk) as [cps2 Ec]. split; [|split; [lia|split; [lia|]]].
  - intros ascii. unfold plan_len. rewrite (bool_decide_eq_false_2 (Utf8Varchar = NVarchar)) by done. cbn [negb]. by rewrite uint32_small by lia.
  - assert (H8 : 0 <= zlen (utf8_encode cps1) <= zlen (utf8_encode cps)).
    { rewrite Ec, utf8_encode_app, zlen_app. pose proof (zlen_nonneg (utf8_encode cps1)). pose proof (zlen_nonneg (utf8_encode cps2)). lia. }
    exists (utf8_encode cps1). split; [|split; [|split; [lia|split; [done|done]]]].
    + unfold clamp_row. rewrite bound_cut by (done || lia). destruct (negb _ && _) eqn:Eo.
      * unfold bound_of. destruct (IsPLPType col); [done|]. rewrite E. cbn [mbind res_bind]. by rewrite !uint32_small by lia.
      * injection E as E1. rewrite uint32_small by lia. by rewrite E1.
    + apply (slice_to _ _ (utf8_encode cps2)). by rewrite Ec, utf8_encode_app.
Qed.

Lemma binary_value s col : zlen s < 2147483640 -> bounded col ->
  exists p, var_value VarBinary (bound_of col) s (zlen s) p /\
    (if IsPLPType col then EncodeBinaryPLP s else EncodeBinary (binary.ClampBlobToBound s col)) = framed col p.
Proof.
  intros Hl Hb. pose proof (zlen_nonneg s) as Hn.
  exists (if IsPLPType col then s else binary.ClampBlobToBound s col). split; [split; [|split; [lia|split; [lia|]]]|].
  - intros ascii. unfold plan_len. rewrite (bool_decide_eq_false_2 (VarBinary = NVarchar)) by done. cbn [negb]. by rewrite uint32_small by lia.
  - unfold clamp_row. rewrite bound_cut by (done || lia). unfold bound_of, binary.ClampBlobToBound, IsPLPType. destruct (Z.eqb_spec (max_length col) 65535) as [Ep|Ep]; cbn [negb andb].
    + exists s. rewrite uint32_small by lia. split; [done|]. split; [apply slice_all|split; [lia|done]].
    + rewrite (proj2 (Z.eqb_neq (max_length col) 0)) by (destruct Hb; lia). cbn [orb]. destruct (Z.leb_spec (zlen s) (max_length col)), (Z.ltb_spec (max_length col) (zlen s)); try lia.
      * exists s. rewrite uint32_small by lia. split; [done|]. split; [apply slice_all|split; [lia|done]].
      * exists (ztake (max_length col) s). rewrite zlen_ztake by (destruct Hb; lia). split; [done|].
        split; [|split; [lia|done]]. rewrite <- (zlen_ztake (max_length col) s) at 1 by (destruct Hb; lia). apply (slice_to _ _ (zdrop (max_length col) s)). symmetry. apply take_drop.
  - apply binary_framed; [lia|done].
Qed.

(** The same as functions of the value. *)
Definition full_of (kind : VarKind) (s : bytes) : Z := match plan_len kind false s with Some (n, _) => n | None => 0 end.
Definition kept_of (kind : VarKind) (bound : Z) (s : bytes) : bytes :=
  match clamp_row kind bound (full_of kind s) s with Ok (_, n) => ztake n s | _ => [] end.
Definition payload_of (kind : VarKind) (bound : Z) (s : bytes) : bytes :=
  if bool_decide (kind = NVarchar) then Utf16LEEncodeValidDirect (kept_of kind bound s) else kept_of kind bound s.

Lemma var_value_of kind bound s full p : var_value kind bound s full p ->
  full = full_of kind s /\ p = payload_of kind bound s.
Proof.
  intros (Hp & _ & _ & q & Hc & Hs & _ & Hpq & _). unfold payload_of, kept_of. assert (full_of kind s = full) as -> by (unfold full_of; by rewrite (Hp false)).
  rewrite Hc. split; [done|]. rewrite Hpq. unfold slice in Hs. destruct (_ && _); [|done]. injection Hs as Hs. change (zdrop 0 s) with s in Hs. by rewrite Hs.
Qed.

Section Plan.
Context (col : BCPColumnMetadata) (kind : VarKind) (fmt : UnifiedVectorFormat) (n : nat).

Let null (row : nat) : bool := FormatIsNull fmt row.
Let sv (row : nat) : bytes := str (data fmt (get_index fmt row)).
Let full (row : nat) : Z := full_of kind (sv row).
Let payload (row : nat) : bytes := payload_of kind (bound_of col) (sv row).

Hypothesis Hval : forall row, (row < n)%nat -> null row = false -> var_value kind (bound_of col) (sv row) (full row) (payload row).

Lemma plan_rows_spec rows : forall r ascii, (r + rows <= n)%nat ->
  exists over asc, plan_rows kind (IsPLPType col) (bound_of col) fmt rows r ascii =
      Some ((fun i => if null i then 0 else full i) <$> seq r rows,
            (fun i => if null i then (if IsPLPType col then 8 else 2) else wire_of (IsPLPType col) (full i)) <$> seq r rows, over, asc) /\
    (asc = true -> ascii = true /\ forall i, (r <= i < r + rows)%nat -> null i = false -> kind = NVarchar -> IsAsciiRun (sv i) = true) /\
    (over = false -> forall i, (r <= i < r + rows)%nat -> null i = false -> full i <= bound_of col).
Proof.
  induction rows as [|rows IH]; intros r ascii Hr; cbn [plan_rows seq fmap list_fmap].
  - exists false, ascii. split; [done|]. split; [split; [done|lia]|lia].
  - change (negb (RowIsValid fmt (get_index fmt r))) with (null r). destruct (null r) eqn:Hn.
    + destruct (IH (Datatypes.S r) ascii ltac:(lia)) as (over & asc & -> & Ha & Ho). cbn [mbind option_bind]. exists over, asc. split; [done|]. split.
      * intros [-> Hi]%Ha. split; [done|]. intros i Hi1 Hi2. apply Hi; [|done]. destruct (decide (i = r)) as [->|]; [congruence|lia].
      * intros Hv i Hi1 Hi2. apply Ho; [done| |done]. destruct (decide (i = r)) as [->|]; [congruence|lia].
    + destruct (Hval r ltac:(lia) Hn) as (Hp & _). change (str (data fmt (get_index fmt r))) with (sv r). rewrite (Hp ascii). cbn [mbind option_bind].
      destruct (IH (Datatypes.S r) (if bool_decide (kind = NVarchar) then ascii && IsAsciiRun (sv r) else ascii) ltac:(lia)) as (over & asc & -> & Ha & Ho).
      cbn [mbind option_bind]. eexists _, asc. split; [done|]. split.
      * intros [E Hi]%Ha. case_bool_decide as Hk.
        -- apply andb_prop in E as [-> E]. split; [done|]. intros i Hi1 Hi2 _. destruct (decide (i = r)) as [->|]; [done|apply Hi; [lia|done|done]].
        -- split; [done|]. intros i Hi1 Hi2 Hk'. done.
      * intros [E1 E2]%orb_false_elim i Hi1 Hi2. apply Z.ltb_ge in E1. destruct (decide (i = r)) as [->|]; [done|apply Ho; [done|lia|done]].
Qed.

Lemma clamp_rows_spec rows : forall r, (r + rows <= n)%nat ->
  clamp_rows kind (IsPLPType col) (bound_of col) fmt r ((fun i => if null i then 0 else full i) <$> seq r rows)
    ((fun i => if null i then (if IsPLPType col then 8 else 2) else wire_of (IsPLPType col) (full i)) <$> seq r rows) =
  Ok ((fun i => if null i then 0 else zlen (payload i)) <$> seq r rows,
      (fun i => if null i then (if IsPLPType col then 8 else 2) else wire_of (IsPLPType col) (zlen (payload i))) <$> seq r rows,
      (fun i => if null i then 0 else zlen (kept_of kind (bound_of col) (sv i))) <$> seq r rows).
Proof.
  induction rows as [|rows IH]; intros r Hr; [done|]. cbn [seq fmap list_fmap clamp_rows].
  change (negb (RowIsValid fmt (get_index fmt r))) with (null r). change (str (data fmt (get_index fmt r))) with (sv r). destruct (null r) eqn:Hn.
  - cbn [mbind res_bind]. rewrite IH by lia. done.
  - destruct (Hval r ltac:(lia) Hn) as (_ & _ & _ & q & Hc & Hs & _). rewrite Hc. cbn [mbind res_bind]. rewrite IH by lia. cbn [mbind res_bind].
    do 4 f_equal. unfold kept_of. fold (full r). rewrite Hc. unfold slice in Hs. destruct (_ && _); [|done]. injection Hs as Hs. change (zdrop 0 (sv r)) with (sv r) in Hs. by rewrite Hs.
Qed.

(** What a plan gets right. *)
Definition planned (plan : StringColumnPlan) : Prop :=
  plp plan = IsPLPType col /\ length (wire plan) = n /\
  forall i, (i < n)%nat ->
    wire plan !! i = Some (if null i then (if IsPLPType col then 8 else 2) else wire_of (IsPLPType col) (zlen (payload i))) /\
    (null i = false -> lengths plan !! i = Some (zlen (payload i)) /\ var_payload plan i (zlen (payload i)) (sv i) = Ok (payload i)).

Lemma lookup_rows {A} (f : nat -> A) i : (i < n)%nat -> (f <$> seq 0 n) !! i = Some (f i).
Proof. intros Hi. by rewrite list_lookup_fmap, lookup_seq_lt. Qed.

Let kept (row : nat) : bytes := kept_of kind (bound_of col) (sv row).

Lemma kept_ok i : (i < n)%nat -> null i = false ->
  clamp_row kind (bound_of col) (full i) (sv i) = Ok (zlen (payload i), zlen (kept i)) /\ slice (sv i) 0 (zlen (kept i)) = Ok (kept i) /\
  payload i = (if bool_decide (kind = NVarchar) then Utf16LEEncodeValidDirect (kept i) else kept i) /\
  (kind = NVarchar -> IsAsciiRun (sv i) = true -> payload i = WidenAscii (kept i)).
Proof.
  intros Hi Hn. destruct (Hval i Hi Hn) as (_ & _ & _ & q & Hc & Hs & _ & Hp & Hw).
  assert (kept i = q) as ->; [|done]. unfold kept, kept_of. fold (full i). rewrite Hc.
  unfold slice in Hs. destruct (_ && _); [|done]. injection Hs as Hs. exact Hs.
Qed.

Lemma var_payload_ok plan i : plan_kind plan = kind -> (all_ascii plan = true -> kind = NVarchar /\ IsAsciiRun (sv i) = true) ->
  (i < n)%nat -> null i = false -> (if truncated plan then nth_res (src_len plan) i else Ok (zlen (sv i))) = Ok (zlen (kept i)) ->
  var_payload plan i (zlen (payload i)) (sv i) = Ok (payload i).
Proof.
  intros Hk Ha Hi Hn Hsrc. destruct (kept_ok i Hi Hn) as (Hc & Hs & Hp & Hw). unfold var_payload. rewrite Hsrc, Hk. cbn [mbind res_bind].
  destruct (all_ascii plan).
  - destruct (Ha eq_refl) as [Ek Ea]. rewrite (Hw Ek Ea), zlen_WidenAscii, Z.mul_comm, Z.quot_mul by lia. by rewrite Hs.
  - rewrite Hp. case_bool_decide; [by rewrite Hs|done].
Qed.

Lemma PlanColumn_spec : kind_of_token (tds_type_token col) = Some kind ->
  exists plan, PlanColumn fmt n col = Ok (Some plan) /\ planned plan.
Proof.
  intros Hk. unfold PlanColumn. rewrite Hk. fold (bound_of col).
  destruct (plan_rows_spec n 0 true ltac:(lia)) as (over & asc & -> & Ha & Ho).
  assert (Hasc : forall i, (i < n)%nat -> null i = false -> asc && bool_decide (kind = NVarchar) = true -> kind = NVarchar /\ IsAsciiRun (sv i) = true).
  { intros i Hi Hn [E1 E2]%andb_prop. apply bool_decide_eq_true in E2. split; [done|]. apply Ha; (done || lia). }
  destruct over.
  - rewrite clamp_rows_spec by lia. cbn [mbind res_bind]. eexists. split; [done|]. split; [done|]. cbn [wire lengths plp]. split; [by rewrite length_fmap, length_seq|].
    intros i Hi. rewrite !lookup_rows by done. split; [done|]. intros Hn. rewrite Hn. split; [done|]. apply var_payload_ok; try done.
    + by apply Hasc.
    + cbn [truncated src_len]. unfold nth_res. rewrite lookup_rows by done. by rewrite Hn.
  - eexists. split; [done|]. split; [done|]. cbn [wire lengths plp]. split; [by rewrite length_fmap, length_seq|].
    intros i Hi. rewrite !lookup_rows by done. destruct (null i) eqn:Hn; [done|]. specialize (Ho eq_refl i ltac:(lia) Hn).
    destruct (kept_ok i Hi Hn) as (Hc & _). unfold clamp_row in Hc. rewrite (proj2 (Z.ltb_ge _ _)) in Hc by done. injection Hc as E1 E2.
    destruct (Hval i Hi Hn) as (_ & _ & Hl & _). rewrite uint32_small in E2 by (pose proof (zlen_nonneg (sv i)); lia).
    rewrite E1. split; [done|]. intros _. split; [done|]. apply var_payload_ok; try done.
    + by apply Hasc.
    + cbn [truncated]. by rewrite E2.
Qed.
End Plan.
End VarText.

(** ** Rows of text *)

(** Two stores side by side are one, in either order. *)
Lemma store_app mem off a b : 0 <= off -> off + zlen a + zlen b <= zlen mem ->
  (mem1 ← store mem off a; store mem1 (off + zlen a) b) = store mem off (a ++ b) /\
  (mem1 ← store mem (off + zlen a) b; store mem1 off a) = store mem off (a ++ b).
Proof.
  intros H1 H2. pose proof (zlen_nonneg a). pose proof (zlen_nonneg b).
  destruct (store_bounds mem off a ltac:(lia) ltac:(lia)) as (m1 & E1 & L1). destruct (store_bounds mem (off + zlen a) b ltac:(lia) ltac:(lia)) as (m2 & E2 & L2).
  destruct (store_bounds mem off (a ++ b) ltac:(lia) ltac:(rewrite zlen_app; lia)) as (m3 & E3 & L3).
  destruct (store_bounds m1 (off + zlen a) b ltac:(lia) ltac:(lia)) as (m4 & E4 & L4). destruct (store_bounds m2 off a ltac:(lia) ltac:(lia)) as (m5 & E5 & L5).
  rewrite E1, E2, E3. cbn [mbind res_bind]. rewrite E4, E5.
  split; f_equal; apply list_eq; intros i; rewrite ?(store_lookup _ _ _ _ i E4), ?(store_lookup _ _ _ _ i E5), ?(store_lookup _ _ _ _ i E1), ?(store_lookup _ _ _ _ i E2),
    (store_lookup _ _ _ _ i E3), zlen_app; unfold zlen in *;
    destruct (Z.leb_spec (off + Z.of_nat (length a)) (Z.of_nat i)), (Z.ltb_spec (Z.of_nat i) (off + Z.of_nat (length a) + Z.of_nat (length b))),
      (Z.leb_spec off (Z.of_nat i)), (Z.ltb_spec (Z.of_nat i) (off + Z.of_nat (length a))), (Z.ltb_spec (Z.of_nat i) (off + (Z.of_nat (length a) + Z.of_nat (length b)))); try lia; cbn [andb];
    rewrite ?lookup_app_r by lia; rewrite ?lookup_app_l by lia; try done; f_equal; lia.
Qed.

(** What a row of a planned column is. *)
Definition var_text (col : BCPColumnMetadata) (null : bool) (p : bytes) : bytes :=
  if null then replicate (if IsPLPType col then 8%nat else 2%nat) Byte.xff else framed col p.

Lemma zlen_framed col p : zlen p < 4294967280 -> zlen (framed col p) = wire_of (IsPLPType col) (zlen p).
Proof.
  intros Hp. pose proof (zlen_nonneg p). unfold framed, wire_of, CodecsSpec.plp. destruct (IsPLPType col); cbn [negb].
  - destruct (zlen p =? 0); rewrite !zlen_app; change (zlen string.WritePlpHeader) with 8; unfold string.WriteLe32; rewrite !zlen_le; [done|].
    rewrite uint32_small by lia. lia.
  - rewrite zlen_app, zlen_le, uint32_small by lia. lia.
Qed.

(** The stores of one row. *)
Lemma store_text mem out col p : 0 <= out -> out + zlen (framed col p) <= zlen mem ->
  (if negb (IsPLPType col) then
     mem ← store mem out (le 2 (zlen p)); payload ← Ok p; store mem (out + 2) payload
   else
     mem ← store mem out string.WritePlpHeader;
     if zlen p =? 0 then store mem (out + 8) (string.WriteLe32 0)
     else
       mem ← store mem (out + 8) (string.WriteLe32 (zlen p));
       mem ← store mem (out + 12 + zlen p) (string.WriteLe32 0);
       payload ← Ok p;
       store mem (out + 12) payload) = store mem out (framed col p).
Proof.
  intros H1 H2. pose proof (zlen_nonneg p). unfold framed, CodecsSpec.plp, string.WriteLe32 in *. destruct (IsPLPType col); cbn [negb].
  - destruct (Z.eqb_spec (zlen p) 0) as [Hz|Hz]; rewrite !zlen_app, !zlen_le in H2; change (zlen string.WritePlpHeader) with 8 in H2.
    + destruct (store_app mem out string.WritePlpHeader (le 4 0)) as [E _]; [done|rewrite zlen_le; change (zlen string.WritePlpHeader) with 8; lia|]. exact E.
    + destruct (store_app mem out string.WritePlpHeader (le 4 (zlen p) ++ p ++ le 4 0)) as [<- _]; [done|rewrite !zlen_app, !zlen_le; change (zlen string.WritePlpHeader) with 8; lia|].
      destruct (store_bounds mem out string.WritePlpHeader H1) as (m1 & -> & L1); [change (zlen string.WritePlpHeader) with 8; lia|]. cbn [mbind res_bind].
      change (zlen string.WritePlpHeader) with 8.
      destruct (store_app m1 (out + 8) (le 4 (zlen p)) (p ++ le 4 0)) as [<- _]; [lia|rewrite !zlen_app, !zlen_le; lia|].
      destruct (store_bounds m1 (out + 8) (le 4 (zlen p)) ltac:(lia)) as (m2 & -> & L2); [rewrite zlen_le; lia|]. cbn [mbind res_bind].
      rewrite zlen_le. replace (out + 8 + Z.of_nat 4) with (out + 12) by lia.
      destruct (store_app m2 (out + 12) p (le 4 0)) as [_ <-]; [lia|rewrite !zlen_le; lia|]. done.
  - rewrite zlen_app, zlen_le in H2. destruct (store_app mem out (le 2 (zlen p)) p) as [<- _]; [done|rewrite zlen_le; lia|]. by rewrite zlen_le.
Qed.

Section VarRows.
Context `{Hugeint} `{Floats} `{DuckDB} {S : Simdutf} {Spec : SimdutfSpec S}.

(** Within bounds, a block of text is a kernel's loop. *)
Lemma ScatterVarBlock_rows col kind fmt n plan r0 rows : planned col kind fmt n plan ->
  forall r mem cur, (r + rows <= n)%nat -> (r0 <= r)%nat ->
  (forall i, (r <= i < r + rows)%nat -> FormatIsNull fmt i = false -> zlen (payload_of kind (bound_of col) (str (data fmt (get_index fmt i)))) < 4294967280) ->
  let text i := var_text col (FormatIsNull fmt i) (payload_of kind (bound_of col) (str (data fmt (get_index fmt i)))) in
  (forall i, (r <= i < r + rows)%nat -> exists c, cur !! i = Some c /\ 0 <= c /\ c + zlen (text i) <= zlen mem) ->
  ScatterVarBlock rows r fmt plan (mem, cur) = scatter_rows (CursorPos 0 r0) (fun i => Ok (text (r0 + i)%nat)) rows (r - r0) (mem, cur).
Proof.
  intros (Hplp & _ & Hplan). induction rows as [|rows IH]; intros r mem cur Hn Hr Hsmall text Hb; [done|]. cbn [ScatterVarBlock scatter_rows fst snd].
  destruct (Hb r ltac:(lia)) as (c & Ec & Hc0 & Hc1). unfold At, nth_res. replace (r0 + (r - r0))%nat with r by lia. rewrite Ec. cbn [mbind res_bind].
  destruct (Hplan r ltac:(lia)) as [Ew Ev]. rewrite Ew. cbn [mbind res_bind].
  assert (Hw : (if FormatIsNull fmt r then if IsPLPType col then 8 else 2 else wire_of (IsPLPType col) (zlen (payload_of kind (bound_of col) (str (data fmt (get_index fmt r)))))) = zlen (text r)).
  { unfold text, var_text. destruct (FormatIsNull fmt r) eqn:Hnull; [by destruct (IsPLPType col)|]. symmetry. apply zlen_framed. apply Hsmall; [lia|done]. }
  rewrite Hw. assert (Hstore : (if negb (RowIsValid fmt (get_index fmt r)) then store mem c (replicate (if plp plan then 8 else 2) Byte.xff)
     else
       len ← match lengths plan !! r with Some x => Ok x | None => Oob end;
       let sv := str (data fmt (get_index fmt r)) in
       if negb (plp plan) then
         mem ← store mem c (le 2 len);
         payload ← var_payload plan r len sv;
         store mem (c + 2) payload
       else
         mem ← store mem c string.WritePlpHeader;
         if len =? 0 then store mem (c + 8) (string.WriteLe32 0)
         else
           mem ← store mem (c + 8) (string.WriteLe32 len);
           mem ← store mem (c + 12 + len) (string.WriteLe32 0);
           payload ← var_payload plan r len sv;
           store mem (c + 12) payload) = store mem c (text r)).
  { unfold text, var_text in *. change (negb (RowIsValid fmt (get_index fmt r))) with (FormatIsNull fmt r). rewrite Hplp.
    destruct (FormatIsNull fmt r) eqn:Hnull; [done|]. destruct (Ev eq_refl) as [El Ep]. rewrite El. cbn [mbind res_bind]. cbv zeta. rewrite Ep. by apply store_text. }
  cbv zeta in Hstore |- *. rewrite Hstore. clear Hstore. replace (0 + c) with c by lia.
  destruct (store_bounds mem c (text r) Hc0 Hc1) as (mem1 & E1 & L1). rewrite E1. cbn [mbind res_bind Advance].
  replace (r0 + (r - r0))%nat with r by lia. rewrite IH; [|lia|lia|intros i Hi; apply Hsmall; lia|].
  - replace (Datatypes.S r - r0)%nat with (Datatypes.S (r - r0)) by lia. done.
  - intros i Hi. rewrite list_lookup_alter_ne by lia. rewrite L1. apply Hb. lia.
Qed.
End VarRows.

(** ** A block of a column *)

(** What writing [rows] rows of a column leads to: [enc] is the row path's value,
    [slot] its place in [T], [off] where that is. *)
Definition outcome (T : bytes) (pos : Pos) (enc : nat -> res bytes) (slot : nat -> bytes) (off : nat -> Z) (rows : nat) (b : room) (m : res room) : Prop :=
  match m with
  | Ok (mem', cur') =>
      (forall i, (i < rows)%nat -> exists w, enc i = Ok w) /\ zlen mem' = zlen T /\ advanced pos b.2 cur' 0 rows slot /\
      keeps T b.1 mem' /\ forall i, (i < rows)%nat -> done T mem' (off i) (zlen (slot i))
  | Exn _ => exists i e, (i < rows)%nat /\ enc i = Exn e
  | Oob => False
  end.

(** The rows' places. *)
Definition placed (T : bytes) (pos : Pos) (slot : nat -> bytes) (off : nat -> Z) (rows : nat) (b : room) : Prop :=
  zlen b.1 = zlen T /\ forall i, (i < rows)%nat -> At pos b.2 i = Ok (off i) /\ holds_at T (off i) (slot i).

Lemma scatter_same T pos cell enc slot off rows b : placed T pos slot off rows b ->
  (forall i, (i < rows)%nat -> same (cell i) (enc i) /\ holds (enc i) (eq (slot i))) ->
  outcome T pos enc slot off rows b (scatter_rows pos cell rows 0 b).
Proof.
  intros [Hl Hp] Hc. destruct b as [mem cur].
  assert (Hcell : forall i, (i < rows)%nat -> holds (cell i) (eq (slot i))).
  { intros i Hi. destruct (Hc i Hi) as [Hs He]. destruct (cell i), (enc i); try done. cbn in *. congruence. }
  pose proof (scatter_rows_spec T pos cell slot off rows 0 mem cur Hl) as Hspec. cbn [fst snd] in *.
  destruct (scatter_rows pos cell rows 0 (mem, cur)) as [[mem' cur']|e|].
  - destruct Hspec as (Hok & Hl' & Ha & Hd).
    { intros i Hi. destruct (Hp i ltac:(lia)). split; [done|]. split; [done|]. specialize (Hcell i ltac:(lia)). destruct (cell i); try done. cbn in *. by subst. }
    destruct Hd as [Hk Hd].
    { intros i Hi. destruct (Hok i Hi) as [w E]. specialize (Hcell i ltac:(lia)). rewrite E in *. cbn in Hcell. congruence. }
    split; [|split; [done|split; [done|split; [done|]]]].
    + intros i Hi. destruct (Hok i ltac:(lia)) as [w E]. destruct (Hc i Hi) as [Hs _]. rewrite E in Hs. destruct (enc i) as [w'| |]; [by exists w'|done..].
    + intros i Hi. apply Hd. lia.
  - destruct Hspec as (i & e' & Hi & E).
    { intros i Hi. destruct (Hp i ltac:(lia)). split; [done|]. split; [done|]. specialize (Hcell i ltac:(lia)). destruct (cell i); try done. cbn in *. by subst. }
    destruct (Hc i ltac:(lia)) as [Hs _]. rewrite E in Hs. destruct (enc i) as [|e2|] eqn:Ee; [done| |done]. exists i, e2. split; [lia|done].
  - apply Hspec. intros i Hi. destruct (Hp i ltac:(lia)). split; [done|]. split; [done|]. specialize (Hcell i ltac:(lia)). destruct (cell i); try done. cbn in *. by subst.
Qed.

(** With the range check of a conversion after the loop. *)
Lemma scatter_checked T pos cell enc slot off rows b (bad : nat -> bool) e : placed T pos slot off rows b ->
  (forall i, (i < rows)%nat -> (exists w, cell i = Ok w /\ zlen w = zlen (slot i)) /\ holds (enc i) (eq (slot i)) /\
     if bad i then exists e, enc i = Exn e else enc i = cell i) ->
  outcome T pos enc slot off rows b (b ← scatter_rows pos cell rows 0 b; if existsb bad (seq 0 rows) then Exn e else Ok b).
Proof.
  intros [Hl Hp] Hc. destruct b as [mem cur]. pose proof (scatter_rows_spec T pos cell slot off rows 0 mem cur Hl) as Hspec. cbn [fst snd] in *.
  assert (Hpre : forall i, (0 <= i < 0 + rows)%nat -> At pos cur i = Ok (off i) /\ holds_at T (off i) (slot i) /\ holds (cell i) (fun w => zlen w = zlen (slot i))).
  { intros i Hi. destruct (Hp i ltac:(lia)), (Hc i ltac:(lia)) as ((w & -> & Hw) & _). done. }
  specialize (Hspec Hpre). destruct (scatter_rows pos cell rows 0 (mem, cur)) as [[mem' cur']|e'|]; cbn [mbind res_bind].
  - destruct Hspec as (_ & Hl' & Ha & Hd). destruct (existsb bad (seq 0 rows)) eqn:Eb.
    + apply existsb_exists in Eb as (i & Hi & Eb). apply in_seq in Hi. destruct (Hc i ltac:(lia)) as (_ & _ & Hbad). rewrite Eb in Hbad. destruct Hbad as [e2 E]. exists i, e2. split; [lia|done].
    + assert (Hok : forall i, (i < rows)%nat -> enc i = cell i).
      { intros i Hi. destruct (Hc i Hi) as (_ & _ & Hbad). destruct (bad i) eqn:Ei; [|done]. exfalso. assert (existsb bad (seq 0 rows) = true); [|congruence].
        apply existsb_exists. exists i. split; [apply in_seq; lia|done]. }
      destruct Hd as [Hk Hd].
      { intros i Hi. destruct (Hc i ltac:(lia)) as ((w & E & _) & He & _). rewrite Hok, E in He by lia. cbn in He. congruence. }
      split; [|split; [done|split; [done|split; [done|]]]].
      * intros i Hi. destruct (Hc i Hi) as ((w & E & _) & _). exists w. by rewrite Hok.
      * intros i Hi. apply Hd. lia.
  - destruct Hspec as (i & e2 & Hi & E). destruct (Hc i ltac:(lia)) as ((w & E' & _) & _). congruence.
  - done.
Qed.

(** ** Columns with a kernel *)

Section Columns.
Context `{Hugeint} `{Floats} `{DuckDB} {S : Simdutf} {Spec : SimdutfSpec S}.

(** The source of a column: what it takes, and values on which the paths agree. *)
Record sourced (n : nat) (col : BCPColumnMetadata) (st : ColumnEncodeState) (v : Vector) (f : EncodeFn) : Prop := {
  sourced_vec : vec st = Some v;
  sourced_encode : encode st = Some f;
  sourced_kind : null_kind st = null_kind_of col;
  sourced_resolve : ResolveEncoder col = Ok f;
  sourced_target : target_ok col;
  sourced_type : type_ok (GetType v);
  sourced_accepts : accepts (id (GetType v)) (id (duckdb_type col)) = true;
  sourced_cells row : (row < n)%nat -> FormatIsNull (ToUnifiedFormat v) row = false ->
    exists c, holds_cell v row c /\ cell_fits (id (GetType v)) c /\ cell_exact (GetType v) (id (duckdb_type col)) c
}.

(** A column's kernel: the loops of both arms, and what it writes for a value. *)
Definition has_kernel (n : nat) (col : BCPColumnMetadata) (st : ColumnEncodeState) (op : WriteColumnOps) (v : Vector) (f : EncodeFn)
    (kernel : nat -> res bytes) : Prop :=
  let fmt := ToUnifiedFormat v in
  (forall dst stride r0 rows b, strided_arm col st op dst stride r0 rows b =
     scatter_rows (StridePos dst stride) (fun r => kernel (get_index fmt (r0 + r))) rows 0 b) /\
  (exists mask, (mask = true \/ AllValid fmt = true) /\ forall width plan r0 rend b, cursor_arm col st op width plan r0 rend b =
     scatter_rows (CursorPos 0 r0) (fun r => unless_null mask fmt (get_index fmt (r0 + r)) (kernel (get_index fmt (r0 + r)))) (rend - r0) 0 b) /\
  forall row, (row < n)%nat -> FormatIsNull fmt row = false ->
    same (kernel (get_index fmt row)) (f v row col) /\ holds (kernel (get_index fmt row)) (fun w => zlen w = 1 + wire_width op).

(** The mask of a kernel that is told whether all rows are valid. *)
Lemma mask_ok fmt : negb (AllValid fmt) = true \/ AllValid fmt = true.
Proof. destruct (AllValid fmt); auto. Qed.

Lemma holds_same (m m' : res bytes) Q : same m m' -> (forall w, m = Ok w -> Q w) -> holds m Q.
Proof. destruct m; cbn; auto. Qed.

Lemma word_of v row c : holds_cell v row c -> InternalType (GetType v) <> PhysicalType.VARCHAR -> exists z, c = Word z.
Proof. intros [_ Hv] Hn. destruct c as [z|s]; [by exists z|]. by destruct Hv. Qed.

Lemma word_at n col st v f row : sourced n col st v f -> (row < n)%nat -> FormatIsNull (ToUnifiedFormat v) row = false ->
  InternalType (GetType v) <> PhysicalType.VARCHAR -> exists z, holds_cell v row (Word z) /\ cell_fits (id (GetType v)) (Word z) /\
    cell_exact (GetType v) (id (duckdb_type col)) (Word z).
Proof.
  intros Hs Hr Hn Ht. destruct (sourced_cells _ _ _ _ _ Hs row Hr Hn) as (c & Hc & Hf & Hx). destruct (word_of _ _ _ Hc Ht) as [z ->]. by exists z.
Qed.

Lemma decimal_column n col st v f : sourced n col st v f -> is_logical (id (duckdb_type col)) [DECIMAL; UBIGINT; HUGEINT] = true ->
  is_physical (InternalType (GetType v)) [PhysicalType.INT16; PhysicalType.INT32; PhysicalType.INT64; PhysicalType.INT128; PhysicalType.UINT64] = true ->
  has_kernel n col st (mkOps DecimalArm Fixed (GetDecimalByteSize (precision col)) 0) v f (decimal_kernel v col).
Proof.
  intros Hs Hd Hp. destruct (sourced_type _ _ _ _ _ Hs) as [Hi _].
  assert (Hfast : InternalType (GetType v) = PhysicalType.UINT64 -> decimal_fast (GetType v) col = false).
  { intros E. unfold decimal_fast. rewrite (bool_decide_eq_false_2 (id (GetType v) = DECIMAL)); [by rewrite andb_false_r|].
    intros E2. rewrite E, E2 in Hi. unfold storage in Hi. by repeat case_match. }
  assert (Hrun : forall pos r0 rows av b, decimal_ScatterChunkPos pos r0 rows v col av b =
     scatter_rows pos (fun r => unless_null (negb av) (ToUnifiedFormat v) (get_index (ToUnifiedFormat v) (r0 + r)) (decimal_kernel v col (get_index (ToUnifiedFormat v) (r0 + r)))) rows 0 b).
  { intros pos r0 rows av b. unfold decimal_ScatterChunkPos, decimal_kernel. cbv zeta. unfold is_physical in *. apply bool_decide_eq_true in Hp.
    rewrite !elem_of_cons, elem_of_nil in Hp. destruct Hp as [E|[E|[E|[E|[E|[]]]]]]; rewrite ?(Hfast E); rewrite E;
      [destruct (decimal_fast _ _); reflexivity..|reflexivity]. }
  split; [|split; [exists (negb (AllValid (ToUnifiedFormat v))); split; [apply mask_ok|]|]].
  - intros. unfold strided_arm. cbn [arm]. rewrite (sourced_vec _ _ _ _ _ Hs). apply Hrun.
  - intros. unfold cursor_arm. rewrite (sourced_vec _ _ _ _ _ Hs). apply Hrun.
  - intros row Hr Hn. destruct (word_at n col st v f row Hs Hr Hn) as (z & Hc & Hf & Hx); [intros E; rewrite E in Hp; discriminate Hp|].
    assert (Hsame : same (decimal_kernel v col (get_index (ToUnifiedFormat v) row)) (f v row col)) by (destruct Hs; by eapply decimal_agrees).
    split; [done|]. apply (holds_same _ _ _ Hsame). intros w E. cbn [wire_width]. destruct (mag_of_size (precision col)) as [_ Em]. unfold decimal_kernel in E.
    destruct (decimal_fast _ _).
    + injection E as <-. unfold ScatterOne. rewrite !zlen_cons, zlen_le. lia.
    + unfold general_cell in E. destruct (decimal.RescaleMantissa _ _); [|done..]. cbn [mbind res_bind] in E. destruct (decimal.CheckMantissaFitsPrecision _ _); [|done..].
      cbn [mbind res_bind] in E. cbv zeta in E. match type of E with mbind _ ?m = _ => destruct m end; [|done..]. cbn [mbind res_bind] in E. injection E as <-. rewrite !zlen_cons, zlen_le. lia.
Qed.

Lemma guid_column n col st v f : sourced n col st v f -> id (duckdb_type col) = UUID -> id (GetType v) = UUID ->
  has_kernel n col st (mkOps GuidArm Fixed 16 0) v f (guid_cell (ToUnifiedFormat v)).
Proof.
  intros Hs Hd Hi. split; [|split; [exists (negb (AllValid (ToUnifiedFormat v))); split; [apply mask_ok|]|]].
  - intros. unfold strided_arm. cbn [arm]. by rewrite (sourced_vec _ _ _ _ _ Hs).
  - intros. unfold cursor_arm. by rewrite (sourced_vec _ _ _ _ _ Hs).
  - intros row Hr Hn. destruct (word_at n col st v f row Hs Hr Hn) as (z & Hc & Hf & Hx); [destruct (sourced_type _ _ _ _ _ Hs) as [-> _]; by rewrite Hi|].
    split; [destruct Hs; by eapply guid_agrees|]. cbn [holds guid_cell wire_width]. rewrite zlen_cons. f_equal.
Qed.

Lemma temporal_source n col st v f : sourced n col st v f -> id (duckdb_type col) ∈ temporal ->
  (id (duckdb_type col) = DATE /\ id (GetType v) = DATE \/ id (duckdb_type col) = TIME /\ id (GetType v) = TIME \/
   id (duckdb_type col) <> DATE /\ id (duckdb_type col) <> TIME /\ (id (GetType v) = DATE \/ exists u, unit_of (id (GetType v)) = Some u)) /\
  (id (duckdb_type col) <> DATE -> 0 <= scale col <= 7) /\
  max_length col = (if bool_decide (id (duckdb_type col) = DATE) then 3 else if bool_decide (id (duckdb_type col) = TIME) then GetTimeByteSize (scale col)
     else if bool_decide (id (duckdb_type col) = TIMESTAMP_TZ) then GetTimeByteSize (scale col) + 5 else GetTimeByteSize (scale col) + 3) /\
  InternalType (GetType v) <> PhysicalType.VARCHAR.
Proof.
  intros Hs Hd. pose proof (sourced_accepts _ _ _ _ _ Hs) as Ha. pose proof (sourced_target _ _ _ _ _ Hs) as Ht. destruct (sourced_type _ _ _ _ _ Hs) as [Hi _].
  unfold target_ok in Ht. unfold temporal in Hd. rewrite !elem_of_cons, elem_of_nil in Hd.
  destruct Hd as [Hd|[Hd|[Hd|[Hd|[Hd|[Hd|[Hd|[]]]]]]]]; rewrite Hd in *; apply bool_decide_eq_true in Ha; rewrite ?elem_of_cons, ?elem_of_nil in Ha.
  1,3-7: rewrite Ha in *; (split; [|split; [tauto|split; [tauto|by rewrite Hi]]]); auto; right; right; (split; [done|split; [done|]]); right; by eexists.
  split; [|split; [tauto|split; [tauto|]]].
  - right; right. split; [done|]. split; [done|]. destruct Ha as [-> | [-> | [-> | [-> | [-> | []]]]]]; [right; by eexists..|by left].
  - rewrite Hi. by destruct Ha as [-> | [-> | [-> | [-> | [-> | []]]]]].
Qed.

Lemma datetime_rows n col st v f : sourced n col st v f -> id (duckdb_type col) ∈ temporal -> forall pos av r0 rows b,
  datetime_ScatterChunkPos pos av r0 rows v col b =
  scatter_rows pos (fun r => unless_null (negb av) (ToUnifiedFormat v) (get_index (ToUnifiedFormat v) (r0 + r)) (datetime_kernel v col (get_index (ToUnifiedFormat v) (r0 + r)))) rows 0 b.
Proof.
  intros Hs Hd pos av r0 rows b. destruct (temporal_source _ _ _ _ _ Hs Hd) as (Hsrc & Hsc & _). unfold datetime_ScatterChunkPos, datetime_kernel. cbv zeta.
  case_bool_decide as N1; [done|]. rewrite Pow10_scale by auto. cbn [mbind res_bind]. case_bool_decide as N2; [done|]. case_bool_decide as N3; [done|].
  destruct Hsrc as [[? _]|[[? _]|(_ & _ & [?|[u Hu]])]]; [done..|]. destruct (unit_cases _ u Hu) as [-> _]. cbn [mbind res_bind]. by destruct (bool_decide (id (duckdb_type col) = TIMESTAMP_TZ)).
Qed.

(** The length of a text put together from pieces. *)
Ltac text_len := rewrite ?zlen_cons, ?zlen_app, ?zlen_le, ?zlen_cons, ?zlen_nil; try lia.

Lemma zlen_dt2_cell up tb pd fa ha pt total fmt idx w : dt2_cell up tb pd fa ha pt total fmt idx = Ok w -> zlen w = Z.of_nat tb + 4.
Proof. unfold dt2_cell. destruct (dt2_fields _ _ _ _ _ _) as [[t d]| |]; [|done..]. cbn [mbind res_bind]. intros [= <-]. text_len. Qed.

Lemma zlen_dto_cell up tb pd fa ha pt total fmt idx w : dto_cell up tb pd fa ha pt total fmt idx = Ok w -> zlen w = Z.of_nat tb + 6.
Proof. unfold dto_cell. destruct (dt2_fields _ _ _ _ _ _) as [[t d]| |]; [|done..]. cbn [mbind res_bind]. intros [= <-]. text_len. Qed.

Lemma zlen_time_cell tb up fa ha pd fmt idx w : time_cell tb up fa ha pd fmt idx = Ok w -> zlen w = Z.of_nat tb + 1.
Proof. unfold time_cell. destruct (if up then _ else _); [|done..]. cbn [mbind res_bind]. intros [= <-]. text_len. Qed.

Lemma datetime_column n col st v f : sourced n col st v f -> id (duckdb_type col) ∈ temporal ->
  has_kernel n col st (mkOps DatetimeArm Fixed (max_length col) 0) v f (datetime_kernel v col).
Proof.
  intros Hs Hd. pose proof (datetime_rows _ _ _ _ _ Hs Hd) as Hrun. split; [|split; [exists (negb (AllValid (ToUnifiedFormat v))); split; [apply mask_ok|]|]].
  - intros. unfold strided_arm. cbn [arm]. rewrite (sourced_vec _ _ _ _ _ Hs). apply Hrun.
  - intros. unfold cursor_arm. rewrite (sourced_vec _ _ _ _ _ Hs). apply Hrun.
  - destruct (temporal_source _ _ _ _ _ Hs Hd) as (_ & Hsc & Hm & Hp).
    intros row Hr Hn. destruct (word_at n col st v f row Hs Hr Hn Hp) as (z & Hc & Hf & Hx).
    assert (Hsame : same (datetime_kernel v col (get_index (ToUnifiedFormat v) row)) (f v row col)) by (destruct Hs; by eapply datetime_agrees).
    split; [done|]. apply (holds_same _ _ _ Hsame). intros w. cbn [wire_width]. rewrite Hm. unfold datetime_kernel. pose proof (GetTimeByteSize_range (scale col)).
    case_bool_decide as N1; [unfold date_cell; destruct (int32 _); [|done..]; cbn [mbind res_bind]; intros [= <-]; text_len|].
    rewrite Pow10_scale by auto. cbn [mbind res_bind]. cbv zeta. case_bool_decide as N2; [intros ->%zlen_time_cell; lia|].
    destruct (decide (id (GetType v) = DATE)) as [N3|N3]; [rewrite (bool_decide_eq_true_2 _ N3)|rewrite (bool_decide_eq_false_2 _ N3)].
    + unfold date_as_dt2_cell. destruct (int32 _); cbn [mbind res_bind]; intros [= <-].
      case_bool_decide as N4; [|text_len; unfold zlen; rewrite length_replicate; lia]. exfalso. pose proof (sourced_accepts _ _ _ _ _ Hs) as Ha. rewrite N3, N4 in Ha. discriminate Ha.
    + destruct (datetime.TicksPerSecondFor _); [|done..]. cbn [mbind res_bind]. cbv zeta. case_bool_decide; [intros ->%zlen_dto_cell; lia|intros ->%zlen_dt2_cell; lia].
Qed.

Lemma direct_column n col st v f W : sourced n col st v f -> (W = 1 \/ W = 2 \/ W = 4 \/ W = 8)%nat ->
  direct_arm (GetType v) col = (DirectCopyArm (Z.of_nat W), Z.of_nat W, 0) -> InternalType (GetType v) <> PhysicalType.VARCHAR ->
  has_kernel n col st (mkOps (DirectCopyArm (Z.of_nat W)) Fixed (Z.of_nat W) 0) v f (direct_cell W (ToUnifiedFormat v)).
Proof.
  intros Hs HW Hop Hp. split; [|split; [exists true; split; [by left|]|]].
  - intros. unfold strided_arm. cbn [arm]. rewrite (sourced_vec _ _ _ _ _ Hs). by destruct HW as [-> | [-> | [-> | ->]]].
  - intros. unfold cursor_arm. rewrite (sourced_vec _ _ _ _ _ Hs). by destruct HW as [-> | [-> | [-> | ->]]].
  - intros row Hr Hn. destruct (word_at n col st v f row Hs Hr Hn Hp) as (z & Hc & Hf & Hx). split.
    + destruct Hs. apply (direct_agrees v col row z f W); try done. by destruct HW as [-> | [-> | [-> | ->]]].
    + cbn [holds direct_cell wire_width]. rewrite zlen_cons, zlen_le. lia.
Qed.

Lemma float_column n col st v f w s : sourced n col st v f -> direct_arm (GetType v) col = (FloatConvert, w, s) -> w = 4 \/ w = 8 ->
  InternalType (GetType v) <> PhysicalType.VARCHAR ->
  has_kernel n col st (mkOps FloatConvert Fixed w s) v f (Scatter.float_cell (mkOps FloatConvert Fixed w s) (ToUnifiedFormat v)).
Proof.
  intros Hs Hop Hw Hp. split; [|split; [exists true; split; [by left|]|]].
  - intros. unfold strided_arm. cbn [arm]. by rewrite (sourced_vec _ _ _ _ _ Hs).
  - intros. unfold cursor_arm. by rewrite (sourced_vec _ _ _ _ _ Hs).
  - intros row Hr Hn. destruct (word_at n col st v f row Hs Hr Hn Hp) as (z & Hc & Hf & Hx). split; [destruct Hs; by eapply float_agrees|].
    unfold Scatter.float_cell. cbn [wire_width]. destruct Hw as [-> | ->]; cbn [Z.eqb Pos.eqb holds]; by rewrite zlen_cons, zlen_le.
Qed.

(** ** What a column writes, and how much *)

Definition cell_len (c : column) (row : nat) : Z :=
  let '(_, st, op, width, plan) := c in
  match vec st with
  | None => 1 + width
  | Some v => if IsVariable op then default 0 (wire plan !! row) else if FormatIsNull (ToUnifiedFormat v) row then 1 else 1 + width
  end.

Definition enc (c : column) (row : nat) : res bytes := let '(col, st, _, _, _) := c in encode_cell row col st.

(** The room of a value: its bytes, or as many zeros where the row path throws. *)
Definition slot (c : column) (row : nat) : bytes :=
  match enc c row with Ok w => w | _ => replicate (Z.to_nat (cell_len c row)) Byte.x00 end.

Definition is_variable (c : column) : bool := let '(_, _, op, _, _) := c in IsVariable op.
Definition no_nulls (c : column) : bool :=
  let '(_, st, _, _, _) := c in match vec st with Some v => AllValid (ToUnifiedFormat v) | None => true end.

Definition run_cursor (c : column) (r0 rend : nat) (b : room) : res room :=
  let '(col, st, op, width, plan) := c in cursor_arm col st op width plan r0 rend b.
Definition run_strided (c : column) (dst stride : Z) (r0 rows : nat) (b : room) : res room :=
  let '(col, st, op, _, _) := c in strided_arm col st op dst stride r0 rows b.

Definition block_ok (c : column) (T : bytes) (pos : Pos) (r0 rows : nat) (run : room -> res room) : Prop :=
  forall off b, placed T pos (fun i => slot c (r0 + i)) off rows b ->
    outcome T pos (fun i => enc c (r0 + i)) (fun i => slot c (r0 + i)) off rows b (run b).

(** A column of the chunk: what the arms owe the assembly. *)
Record column_ok (n : nat) (c : column) : Prop := {
  column_len row : (row < n)%nat -> enc c row <> Oob /\ zlen (slot c row) = cell_len c row;
  column_wire : is_variable c = true -> let '(_, st, _, _, plan) := c in length (wire plan) = n /\ vec st <> None;
  column_cursor T r0 rend : (r0 <= rend <= n)%nat -> block_ok c T (CursorPos 0 r0) r0 (rend - r0) (run_cursor c r0 rend);
  column_strided T dst stride r0 rows : is_variable c = false -> no_nulls c = true -> (r0 + rows <= n)%nat ->
    block_ok c T (StridePos dst stride) r0 rows (run_strided c dst stride r0 rows)
}.

Lemma enc_slot c row : enc c row <> Oob -> holds (enc c row) (eq (slot c row)).
Proof. unfold slot. by destruct (enc c row). Qed.

Lemma slot_len c row m : enc c row <> Oob -> 0 <= cell_len c row -> same m (enc c row) -> (forall w, m = Ok w -> zlen w = cell_len c row) ->
  zlen (slot c row) = cell_len c row.
Proof.
  intros Hn Hp Hs Hl. unfold slot. destruct (enc c row) as [w|e|]; [|unfold zlen; rewrite length_replicate; lia|done].
  destruct m as [w'| |]; [|done..]. cbn in Hs. subst w'. by apply Hl.
Qed.

(** A kernel's loop over a block. *)
Lemma cells_block c T pos r0 rows run cell : (forall b, run b = scatter_rows pos cell rows 0 b) ->
  (forall i, (i < rows)%nat -> enc c (r0 + i) <> Oob /\ same (cell i) (enc c (r0 + i))) -> block_ok c T pos r0 rows run.
Proof.
  intros Hrun Hc off b Hp. rewrite Hrun. apply scatter_same; [done|]. intros i Hi. destruct (Hc i Hi) as [Hn Hs]. split; [done|]. by apply enc_slot.
Qed.

Lemma sourced_safe n col st v f row : sourced n col st v f -> (row < n)%nat -> FormatIsNull (ToUnifiedFormat v) row = false -> f v row col <> Oob.
Proof.
  intros Hs Hr Hn. destruct Hs. destruct (sourced_cells0 row Hr Hn) as (c & Hc & Hf & _).
  destruct (cell_written col v row c ltac:(done) ltac:(done) ltac:(done) Hc Hf) as (g & Eg & Hw). rewrite sourced_resolve0 in Eg. injection Eg as <-. by eapply holds_safe.
Qed.

Lemma encode_sourced n col st v f row : sourced n col st v f ->
  encode_cell row col st = if FormatIsNull (ToUnifiedFormat v) row then Ok (EncodeNullOfKind (null_kind_of col)) else f v row col.
Proof. intros [Hv He Hk _ _ _ _ _]. unfold encode_cell. by rewrite Hv, He, Hk. Qed.

Lemma AllValid_null fmt row : AllValid fmt = true -> FormatIsNull fmt row = false.
Proof. unfold AllValid, FormatIsNull, RowIsValid. intros E. apply bool_decide_eq_true in E. by rewrite E. Qed.

Lemma kernel_column n col st op v f kernel : sourced n col st v f -> null_kind_of col = Fixed -> IsVariable op = false -> 0 <= wire_width op ->
  has_kernel n col st op v f kernel -> column_ok n (col, st, op, wire_width op, no_plan).
Proof.
  intros Hs Hk Hvar Hw (Hst & (mask & Hmask & Hcur) & Hcell). set (c := (col, st, op, wire_width op, no_plan)).
  assert (Henc : forall row, (row < n)%nat -> enc c row <> Oob /\ forall mask, mask = true \/ AllValid (ToUnifiedFormat v) = true ->
     same (unless_null mask (ToUnifiedFormat v) (get_index (ToUnifiedFormat v) row) (kernel (get_index (ToUnifiedFormat v) row))) (enc c row)).
  { intros row Hr. cbn [enc c]. rewrite (encode_sourced n col st v f row Hs). unfold unless_null. destruct (FormatIsNull (ToUnifiedFormat v) row) eqn:Hn.
    - split; [done|]. intros m Hm. destruct Hm as [-> | Hm]; [|by rewrite AllValid_null in Hn].
      unfold FormatIsNull in Hn. rewrite Hn, Hk. done.
    - split; [by eapply sourced_safe|]. intros m _. unfold FormatIsNull in Hn. rewrite Hn, andb_false_r. by apply Hcell. }
  split.
  - intros row Hr. destruct (Henc row Hr) as [Hn Hsame]. split; [done|]. specialize (Hsame true (or_introl eq_refl)).
    apply (slot_len _ _ _ Hn) in Hsame; [done|cbn [cell_len c]; rewrite (sourced_vec _ _ _ _ _ Hs), Hvar; case_match; lia|].
    intros w. cbn [cell_len c]. rewrite (sourced_vec _ _ _ _ _ Hs), Hvar. unfold unless_null. change (true && negb (RowIsValid (ToUnifiedFormat v) (get_index (ToUnifiedFormat v) row))) with (FormatIsNull (ToUnifiedFormat v) row).
    destruct (FormatIsNull (ToUnifiedFormat v) row) eqn:Hnull; [by intros [= <-]|]. intros E. destruct (Hcell row Hr Hnull) as [_ Hh]. by rewrite E in Hh.
  - cbn. by rewrite Hvar.
  - intros T r0 rend Hr. eapply cells_block; [intros b; apply Hcur|]. intros i Hi. cbv beta. destruct (Henc (r0 + i)%nat ltac:(lia)). auto.
  - intros T dst stride r0 rows _ Hv Hr. cbn in Hv. rewrite (sourced_vec _ _ _ _ _ Hs) in Hv. eapply cells_block; [intros b; apply Hst|]. intros i Hi. cbv beta. destruct (Henc (r0 + i)%nat ltac:(lia)) as [? Hsame].
    split; [done|]. exact (Hsame false (or_intror Hv)).
Qed.

(** A column without a source. *)
Lemma absent_column n col st : vec st = None -> column_ok n (col, st, mkOps NullOnly Fixed 0 0, NullMarkerSize (null_kind st) - 1, no_plan).
Proof.
  intros Hv. set (c := (col, st, mkOps NullOnly Fixed 0 0, NullMarkerSize (null_kind st) - 1, no_plan)).
  assert (Henc : forall row, enc c row = Ok (WriteNullMarker (null_kind st))).
  { intros row. cbn [enc c]. unfold encode_cell. rewrite Hv. by destruct (null_kind st). }
  split.
  - intros row Hr. split; [by rewrite Henc|]. unfold slot. rewrite Henc. cbn [cell_len c]. rewrite Hv. by destruct (null_kind st).
  - done.
  - intros T r0 rend Hr. eapply cells_block; [intros b; cbn [run_cursor c]; unfold cursor_arm; rewrite Hv; reflexivity|].
    intros i Hi. rewrite Henc. done.
  - intros T dst stride r0 rows _ _ Hr. eapply cells_block; [intros b; reflexivity|]. intros i Hi. rewrite Henc. done.
Qed.

(** Integers of another width. *)
Lemma existsb_from g r0 rows : forall s, existsb g (seq (r0 + s) rows) = existsb (fun i => g (r0 + i)%nat) (seq s rows).
Proof. induction rows as [|rows IH]; intros s; [done|]. cbn [seq existsb]. f_equal. rewrite <- IH. do 2 f_equal. lia. Qed.

Lemma convert_column n col st v f w s : sourced n col st v f -> null_kind_of col = Fixed -> direct_arm (GetType v) col = (IntConvert, w, s) ->
  InternalType (GetType v) <> PhysicalType.VARCHAR -> 0 < w -> column_ok n (col, st, mkOps IntConvert Fixed w s, w, no_plan).
Proof.
  intros Hs Hk Hop Hp Hw. set (c := (col, st, mkOps IntConvert Fixed w s, w, no_plan)). set (fmt := ToUnifiedFormat v).
  set (bad mask row := let idx := get_index fmt row in negb (mask && negb (RowIsValid fmt idx)) && conv_bad (src_of_width s) (dst_of_width w) fmt idx).
  set (cell mask row := unless_null mask fmt (get_index fmt row) (conv_cell (dst_of_width w) fmt (get_index fmt row))).
  assert (Hrow : forall row, (row < n)%nat -> enc c row <> Oob /\ forall mask, mask = true \/ AllValid fmt = true ->
     (exists b, cell mask row = Ok b /\ zlen b = cell_len c row) /\ if bad mask row then exists e, enc c row = Exn e else enc c row = cell mask row).
  { intros row Hr. cbn [enc cell_len c]. rewrite (sourced_vec _ _ _ _ _ Hs). change (IsVariable _) with false. cbv iota. fold fmt.
    rewrite (encode_sourced n col st v f row Hs). fold fmt. unfold cell, bad, unless_null. destruct (FormatIsNull fmt row) eqn:Hn.
    - split; [done|]. intros mask Hm. destruct Hm as [-> | Hm]; [|by rewrite AllValid_null in Hn]. unfold FormatIsNull in Hn. rewrite Hn, Hk. split; [by eexists|done].
    - split; [by eapply sourced_safe|]. intros mask _. destruct (word_at n col st v f row Hs Hr Hn Hp) as (z & Hc & _).
      destruct (convert_agrees v col row z f w s Hc (sourced_type _ _ _ _ _ Hs) (sourced_target _ _ _ _ _ Hs) (sourced_accepts _ _ _ _ _ Hs) (sourced_resolve _ _ _ _ _ Hs) Hop) as [Ew Hconv].
      fold fmt in Hconv. unfold FormatIsNull in Hn. rewrite Hn, andb_false_r. cbn [negb andb]. split; [|exact Hconv].
      eexists. split; [done|]. rewrite zlen_cons, zlen_le. lia. }
  assert (Hblock : forall T pos mask r0 rows, mask = true \/ AllValid fmt = true -> (r0 + rows <= n)%nat ->
     block_ok c T pos r0 rows (ConvT (src_of_width s) (dst_of_width w) pos mask r0 rows fmt)).
  { intros T pos mask r0 rows Hm Hr off b Hb. unfold ConvT, any_bad. assert (Ex : seq r0 rows = seq (r0 + 0) rows) by (by rewrite Nat.add_0_r). rewrite Ex, existsb_from.
    apply (scatter_checked T pos (fun i => cell mask (r0 + i)%nat) (fun i => enc c (r0 + i)) (fun i => slot c (r0 + i)) off rows b (fun i => bad mask (r0 + i)%nat)); [done|].
    intros i Hi. destruct (Hrow (r0 + i)%nat ltac:(lia)) as [Hn Hc]. destruct (Hc mask Hm) as [(wb & E & El) Hbad]. split; [|split; [by apply enc_slot|done]].
    exists wb. split; [done|]. rewrite El. unfold slot. destruct (bad mask (r0 + i)%nat).
    - destruct Hbad as [e ->]. unfold zlen. rewrite length_replicate. pose proof (zlen_nonneg wb). lia.
    - by rewrite Hbad, E. }
  split.
  - intros row Hr. destruct (Hrow row Hr) as [Hn Hc]. split; [done|]. destruct (Hc true (or_introl eq_refl)) as [(b & E & El) Hbad]. unfold slot. destruct (bad true row).
    + destruct Hbad as [e ->]. unfold zlen. rewrite length_replicate. pose proof (zlen_nonneg b). lia.
    + by rewrite Hbad, E.
  - done.
  - intros T r0 rend Hr. intros off b Hb. cbn [run_cursor c]. unfold cursor_arm. rewrite (sourced_vec _ _ _ _ _ Hs). apply Hblock; [by left|lia|done].
  - intros T dst stride r0 rows _ Hv Hr. intros off b Hb. cbn [run_strided c]. unfold strided_arm. cbn [arm]. rewrite (sourced_vec _ _ _ _ _ Hs). apply Hblock; [right|lia|done].
    cbn in Hv. by rewrite (sourced_vec _ _ _ _ _ Hs) in Hv.
Qed.

(** Text and binary. *)
Lemma var_values n col st v f kind : sourced n col st v f -> kind_of_token (tds_type_token col) = Some kind -> InternalType (GetType v) = PhysicalType.VARCHAR ->
  forall row, (row < n)%nat -> FormatIsNull (ToUnifiedFormat v) row = false ->
  let s := str (data (ToUnifiedFormat v) (get_index (ToUnifiedFormat v) row)) in
  exists full p, var_value kind (bound_of col) s full p /\ f v row col = Ok (framed col p).
Proof.
  intros Hs Hk Hp row Hr Hn. destruct (sourced_cells _ _ _ _ _ Hs row Hr Hn) as (c & Hc & Hf & Hx). cbv zeta.
  pose proof Hc as [Ed Hv]. destruct c as [z|s]; [by rewrite Hp in Hv|]. rewrite Ed. cbn [str]. cbn in Hx, Hf. pose proof (FormatStr_cell v row s Hc) as Estr.
  pose proof (sourced_target _ _ _ _ _ Hs) as Ht. pose proof (sourced_resolve _ _ _ _ _ Hs) as Hres. pose proof (sourced_accepts _ _ _ _ _ Hs) as Ha.
  destruct (sourced_type _ _ _ _ _ Hs) as [Hi _]. rewrite Hp in Hi. unfold target_ok in Ht. unfold ResolveEncoder, FamilyFromLogicalType in Hres. unfold kind_of_token in Hk.
  assert (Htext : id (duckdb_type col) = VARCHAR -> id (GetType v) = VARCHAR) by (intros E; rewrite E in Ha; by apply bool_decide_eq_true in Ha).
  destruct (id (duckdb_type col)) eqn:Et; try done;
    try (by destruct Ht as [E _]; rewrite E in Hk; discriminate Hk); try (destruct Ht as [Ht _]; rewrite Ht in Hk; discriminate Hk).
  - specialize (Htext eq_refl). destruct (Hf Htext) as (cps & Hcps & -> & _). destruct Ht as [[E _]|[[E|E] Hb]]; rewrite E in Hk, Hres; [done| |]; injection Hk as <-; injection Hres as <-.
    + destruct (nvarchar_value cps col Hcps Hx Hb) as (p & Hval & Henc). exists (2 * zlen (utf16_encode cps)), p. split; [done|].
      unfold string.EncodeToBcp. rewrite Et, Estr. exact Henc.
    + destruct (varchar_value cps col Hcps Hx Hb) as (p & Hval & Henc). exists (zlen (utf8_encode cps)), p. split; [done|].
      unfold string.EncodeToBcpUtf8. rewrite Et, Estr. exact Henc.
  - destruct Ht as [E Hb]. rewrite E in Hk. injection Hk as <-. injection Hres as <-. destruct (binary_value s col Hx Hb) as (p & Hval & Henc).
    exists (zlen s), p. split; [done|]. unfold binary.EncodeToBcp. rewrite Estr. cbn [mbind res_bind]. by rewrite Henc.
  - apply bool_decide_eq_true in Ha. rewrite Ha in Hi. discriminate Hi.
Qed.

Lemma var_column n col st v f kind op : sourced n col st v f -> kind_of_token (tds_type_token col) = Some kind -> null_kind_of col <> Fixed ->
  InternalType (GetType v) = PhysicalType.VARCHAR -> IsVariable op = true ->
  exists plan, PlanColumn (ToUnifiedFormat v) n col = Ok (Some plan) /\ column_ok n (col, st, op, 0, plan).
Proof.
  intros Hs Hk Hnk Hp Hvar. set (fmt := ToUnifiedFormat v). pose proof (var_values n col st v f kind Hs Hk Hp) as Hvv. fold fmt in Hvv. cbv zeta in Hvv.
  set (s row := str (data fmt (get_index fmt row))). set (payload row := payload_of kind (bound_of col) (s row)).
  assert (Hval : forall row, (row < n)%nat -> FormatIsNull fmt row = false ->
    var_value kind (bound_of col) (s row) (full_of kind (s row)) (payload row) /\ f v row col = Ok (framed col (payload row)) /\ zlen (payload row) < 4294967280).
  { intros row Hr Hn. destruct (Hvv row Hr Hn) as (full & p & Hv & He). destruct (var_value_of _ _ _ _ _ Hv) as [-> ->]. split; [done|]. split; [done|].
    destruct Hv as (_ & Hfull & _ & q & _ & _ & Hle & _). unfold payload, s. lia. }
  destruct (PlanColumn_spec col kind fmt n) as (plan & Eplan & Hplan); [intros row Hr Hn; by apply Hval|done|].
  exists plan. split; [done|]. set (c := (col, st, op, 0, plan)). pose proof Hplan as (Eplp & Elen & Hrows).
  assert (Henc : forall row, (row < n)%nat -> enc c row = Ok (var_text col (FormatIsNull fmt row) (payload row))).
  { intros row Hr. cbn [enc c]. rewrite (encode_sourced n col st v f row Hs). fold fmt. destruct (FormatIsNull fmt row) eqn:Hn; [|by apply Hval].
    unfold var_text, null_kind_of in *. destruct (IsPLPType col); [done|]. by destruct (IsVariableLengthUSHORT col). }
  assert (Hlen : forall row, (row < n)%nat -> zlen (slot c row) = cell_len c row).
  { intros row Hr. unfold slot. rewrite (Henc row Hr). cbn [cell_len c]. rewrite (sourced_vec _ _ _ _ _ Hs), Hvar. destruct (Hrows row Hr) as [-> _]. cbn [default].
    unfold var_text. fold fmt. destruct (FormatIsNull fmt row) eqn:Hn; [by destruct (IsPLPType col)|]. apply zlen_framed. by apply Hval. }
  split.
  - intros row Hr. split; [by rewrite Henc|by apply Hlen].
  - intros _. cbn [c]. by rewrite (sourced_vec _ _ _ _ _ Hs).
  - intros T r0 rend Hr off [mem cur] Hb. cbn [run_cursor c]. unfold cursor_arm. rewrite (sourced_vec _ _ _ _ _ Hs), Hvar. fold fmt.
    rewrite (ScatterVarBlock_rows col kind fmt n plan r0) by first [done|lia|intros i Hi Hn; apply Hval; (done || lia)|
      intros i Hi; destruct Hb as [Hl Hb]; destruct (Hb (i - r0)%nat ltac:(lia)) as [Ha Hh]; cbn in Ha, Hl;
      replace (r0 + (i - r0))%nat with i in * by lia; destruct (cur !! i) as [ci|]; [|done]; injection Ha as Ha; apply holds_at_bounds in Hh;
      unfold slot in Hh; rewrite (Henc i) in Hh by lia; exists ci; split; [done|]; unfold payload, s in Hh; lia].
    rewrite Nat.sub_diag. apply scatter_same; [done|]. intros i Hi. cbv beta. rewrite Henc by lia. split; [done|]. cbn [holds]. unfold slot. by rewrite Henc by lia.
  - intros T dst stride r0 rows Hv. cbn in Hv. congruence.
Qed.

(** ** Which kernel a column gets *)

Lemma direct_cases source target :
  match direct_arm source target with
  | (RowFallback, _, _) => True
  | (IntConvert, w, _) => 0 < w /\ InternalType source <> PhysicalType.VARCHAR
  | (FloatConvert, w, _) => (w = 4 \/ w = 8) /\ InternalType source <> PhysicalType.VARCHAR
  | (a, w, s) => exists W, (W = 1 \/ W = 2 \/ W = 4 \/ W = 8)%nat /\ a = DirectCopyArm (Z.of_nat W) /\ w = Z.of_nat W /\ s = 0 /\ InternalType source <> PhysicalType.VARCHAR
  end.
Proof.
  unfold direct_arm. set (want := DirectCopyTargetWidth (duckdb_type target)).
  assert (Hwant : want = 0 \/ exists W, (W = 1 \/ W = 2 \/ W = 4 \/ W = 8)%nat /\ want = Z.of_nat W).
  { unfold want, DirectCopyTargetWidth. destruct (id (duckdb_type target)); auto; right;
      first [by exists 1%nat; auto|by exists 2%nat; auto|by exists 4%nat; auto|by exists 8%nat; auto]. }
  destruct (Z.eqb_spec want 0) as [|Hz]; [done|]. destruct Hwant as [?|(W & HW & E)]; [done|]. destruct (_ =? want); [|done]. cbn [negb].
  destruct (Z.eqb_spec (GetTypeIdSize (InternalType source)) want) as [Hsz|Hsz]; cbn [negb].
  - destruct (_ && _); [done|]. destruct (_ && _); [done|]. rewrite E in *.
    assert (Hv : InternalType source <> PhysicalType.VARCHAR) by (intros Ev; rewrite Ev in Hsz; cbn in Hsz; lia).
    destruct HW as [-> | [-> | [-> | ->]]]; eexists; (split; [|done]); auto.
  - destruct (_ && is_physical _ _) eqn:E1.
    + apply andb_prop in E1 as [_ E1]. split; [lia|]. intros Ev. rewrite Ev in E1. discriminate E1.
    + destruct (is_logical _ [FLOAT; DOUBLE] && _) eqn:E2; [|done]. apply andb_prop in E2 as [E3 E2]. split.
      * apply bool_decide_eq_true in E3. rewrite !elem_of_cons, elem_of_nil in E3. unfold want, DirectCopyTargetWidth. destruct E3 as [-> | [-> | []]]; auto.
      * intros Ev. rewrite Ev in E2. discriminate E2.
Qed.

Lemma kind_of_one token : is_one_of token [TDS_TYPE_NVARCHAR; TDS_TYPE_BIGVARCHAR; TDS_TYPE_BIGVARBINARY] = true -> exists kind, kind_of_token token = Some kind.
Proof.
  unfold is_one_of, kind_of_token. cbn [existsb]. destruct (token =? TDS_TYPE_BIGVARCHAR); [by eexists|]. destruct (token =? TDS_TYPE_BIGVARBINARY); [by eexists|].
  destruct (token =? TDS_TYPE_NVARCHAR); [by eexists|done].
Qed.

(** The kernel of a column with a source, when it has one. *)
Lemma resolved_column n col st v f : sourced n col st v f ->
  let op := ResolveWriteColumnOps (GetType v) col in CanScatter op = true ->
  if IsVariable op then exists plan, PlanColumn (ToUnifiedFormat v) n col = Ok (Some plan) /\ column_ok n (col, st, op, 0, plan)
  else column_ok n (col, st, op, wire_width op, no_plan).
Proof.
  intros Hs. cbv zeta. unfold ResolveWriteColumnOps. destruct (null_kind_of col) eqn:Hk.
  1,2: destruct (is_one_of _ _ && _) eqn:E; [|done]; intros _; apply andb_prop in E as [E1 E2]; apply bool_decide_eq_true in E2;
    destruct (kind_of_one _ E1) as [kind Hkind]; eapply var_column; (done || congruence).
  destruct (is_logical _ [DECIMAL; UBIGINT; HUGEINT]) eqn:Ed.
  { destruct (is_physical _ _) eqn:Ep; [|done]. destruct (max_length col =? _); [|done]. intros _.
    apply (kernel_column n col st (mkOps DecimalArm Fixed (GetDecimalByteSize (precision col)) 0) v f (decimal_kernel v col)); try done.
    - cbn [wire_width]. destruct (mag_of_size (precision col)) as [_ ?]. lia.
    - by apply decimal_column. }
  destruct (is_logical _ [DATE; TIMESTAMP; _; _; _; _; _]) eqn:Et.
  { destruct (datetime_ok _ _); [|done]. intros _. apply bool_decide_eq_true in Et. fold temporal in Et.
    apply (kernel_column n col st (mkOps DatetimeArm Fixed (max_length col) 0) v f (datetime_kernel v col)); try done.
    - cbn [wire_width]. destruct (temporal_source _ _ _ _ _ Hs Et) as (_ & _ & -> & _). pose proof (GetTimeByteSize_range (scale col)). repeat case_bool_decide; lia.
    - by apply datetime_column. }
  destruct (is_logical _ [UUID]) eqn:Eu.
  { destruct (is_logical (id (GetType v)) [UUID]) eqn:Es; [|done]. destruct (max_length col =? 16); [|done]. intros _.
    apply bool_decide_eq_true in Eu, Es. rewrite elem_of_cons, elem_of_nil in Eu; rewrite elem_of_cons, elem_of_nil in Es; destruct Eu as [Eu|[]], Es as [Es|[]].
    apply (kernel_column n col st (mkOps GuidArm Fixed 16 0) v f (guid_cell (ToUnifiedFormat v))); try done. by apply guid_column. }
  pose proof (direct_cases (GetType v) col) as Hd. destruct (direct_arm (GetType v) col) as [[a w] s] eqn:Ea. intros Hcan.
  assert (Hdir : forall W, (W = 1 \/ W = 2 \/ W = 4 \/ W = 8)%nat -> direct_arm (GetType v) col = (DirectCopyArm (Z.of_nat W), Z.of_nat W, 0) ->
    InternalType (GetType v) <> PhysicalType.VARCHAR -> column_ok n (col, st, mkOps (DirectCopyArm (Z.of_nat W)) Fixed (Z.of_nat W) 0, Z.of_nat W, no_plan)).
  { intros W HW E Hp. apply (kernel_column n col st (mkOps (DirectCopyArm (Z.of_nat W)) Fixed (Z.of_nat W) 0) v f (direct_cell W (ToUnifiedFormat v)));
      [done|done|by destruct HW as [-> | [-> | [-> | ->]]]|cbn; lia|by apply direct_column]. }
  destruct a; try done; try (destruct Hd as (W & HW & Earm & -> & -> & Hp); rewrite Earm in Ea; specialize (Hdir W HW Ea Hp);
    destruct HW as [-> | [-> | [-> | ->]]]; (discriminate Earm || exact Hdir)).
  - destruct Hd as [Hw Hp]. by apply (convert_column n col st v f w s).
  - destruct Hd as [Hw Hp]. apply (kernel_column n col st (mkOps FloatConvert Fixed w s) v f (Scatter.float_cell (mkOps FloatConvert Fixed w s) (ToUnifiedFormat v))); try done; [cbn; lia|by apply float_column].
Qed.
End Columns.
