(* ===== verification/ChunkSpec.v ===== *)
(** * The columnar path writes the row path's chunk (theorems about [Scatter])

    The chunk as the row path writes it, a line per row, and where everything is
    in it ([start]). The strided path and the cursor path each write every token
    and every slot of it at its place, by blocks; so [EncodeChunk] gives the bytes
    of the row path, or throws where it throws. *)

From S2P Require Import Prelude TdsTypes Utf16 ColumnMetadata RowReader Values Encoding Codecs CodecsSpec BcpRow BcpRowSpec Scatter ScatterCells ScatterSpec.

Section Chunks.
Context `{Hugeint} `{Floats} `{DuckDB} {S : Simdutf} {Spec : SimdutfSpec S}.

(** ** The chunk as the row path writes it *)

Fixpoint enc_row (row : nat) (cs : list column) : res bytes :=
  match cs with [] => Ok [] | c :: cs => b ← enc c row; bs ← enc_row row cs; Ok (b ++ bs) end.

Fixpoint enc_rows (rows r : nat) (cs : list column) : res bytes :=
  match rows with O => Ok [] | Datatypes.S rows => b ← enc_row r cs; bs ← enc_rows rows (Datatypes.S r) cs; Ok (z2b BCP_TOKEN_ROW :: b ++ bs) end.

Definition row_text (row : nat) (cs : list column) : bytes := concat ((fun c => slot c row) <$> cs).
Definition line (cs : list column) (row : nat) : bytes := z2b BCP_TOKEN_ROW :: row_text row cs.
Definition chunk_text (cs : list column) (r rows : nat) : bytes := concat (line cs <$> seq r rows).
Definition start (cs : list column) (row : nat) : Z := zlen (chunk_text cs 0 row).

(** All values of some rows are written, or some value is refused. *)
Definition all_written (cs : list column) (r rows : nat) : Prop := forall i c, (i < rows)%nat -> c ∈ cs -> exists w, enc c (r + i) = Ok w.
Definition some_refused (cs : list column) (r rows : nat) : Prop := exists i c e, (i < rows)%nat /\ c ∈ cs /\ enc c (r + i) = Exn e.

Lemma enc_row_all row cs : (forall c, c ∈ cs -> exists w, enc c row = Ok w) -> enc_row row cs = Ok (row_text row cs).
Proof.
  induction cs as [|c cs IH]; intros Hall; [done|]. cbn [enc_row]. destruct (Hall c) as [w E]; [by left|]. rewrite E. cbn [mbind res_bind].
  rewrite IH by (intros c' Hc; apply Hall; by right). unfold row_text. cbn [fmap list_fmap concat]. unfold slot at 2. by rewrite E.
Qed.

Lemma enc_row_some row cs c e : (forall c, c ∈ cs -> enc c row <> Oob) -> c ∈ cs -> enc c row = Exn e -> exists e', enc_row row cs = Exn e'.
Proof.
  intros Hn Hc He. induction cs as [|c0 cs IH]; [by apply elem_of_nil in Hc|]. cbn [enc_row]. destruct (enc c0 row) as [w|e0|] eqn:E0; [|by eexists|].
  - apply elem_of_cons in Hc as [->|Hc]; [congruence|]. destruct IH as [e' ->]; [intros c' Hc'; apply Hn; by right|done|]. by eexists.
  - exfalso. apply (Hn c0); [by left|done].
Qed.

Lemma enc_rows_all cs rows : forall r, all_written cs r rows -> enc_rows rows r cs = Ok (chunk_text cs r rows).
Proof.
  induction rows as [|rows IH]; intros r Hall; [done|]. cbn [enc_rows]. rewrite enc_row_all by (intros c Hc; destruct (Hall 0%nat c ltac:(lia) Hc) as [w E]; rewrite Nat.add_0_r in E; by eexists).
  cbn [mbind res_bind]. rewrite IH; [done|]. intros i c Hi Hc. destruct (Hall (Datatypes.S i) c ltac:(lia) Hc) as [w E]. exists w. rewrite <- E. f_equal. lia.
Qed.

Lemma enc_rows_some cs rows : forall r, (forall i c, (i < rows)%nat -> c ∈ cs -> enc c (r + i) <> Oob) -> some_refused cs r rows -> exists e, enc_rows rows r cs = Exn e.
Proof.
  induction rows as [|rows IH]; intros r Hn (i & c & e & Hi & Hc & E); [lia|]. cbn [enc_rows].
  assert (Hrow : enc_row r cs <> Oob /\ (forall e, enc c r = Exn e -> exists e', enc_row r cs = Exn e')).
  { assert (Hn0 : forall c, c ∈ cs -> enc c r <> Oob) by (intros c' Hc'; specialize (Hn 0%nat c' ltac:(lia) Hc'); by rewrite Nat.add_0_r in Hn).
    split; [|intros e0 He0; by eapply enc_row_some]. clear -Hn0. induction cs as [|c0 cs IH]; [done|]. cbn [enc_row].
    assert (enc c0 r <> Oob) by (apply Hn0; by left). destruct (enc c0 r); cbn [mbind res_bind]; [|done..]. assert (enc_row r cs <> Oob) by (apply IH; intros c' ?; apply Hn0; by right).
    by destruct (enc_row r cs). }
  destruct Hrow as [Hrow1 Hrow2]. destruct i as [|i].
  - rewrite Nat.add_0_r in E. destruct (Hrow2 e E) as [e' ->]. by eexists.
  - destruct (enc_row r cs); [|by eexists|done]. cbn [mbind res_bind]. destruct (IH (Datatypes.S r)) as [e' ->]; [| |by eexists].
    + intros j c' Hj Hc'. replace (Datatypes.S r + j)%nat with (r + Datatypes.S j)%nat by lia. apply Hn; [lia|done].
    + exists i, c, e. split; [lia|]. split; [done|]. rewrite <- E. f_equal. lia.
Qed.

Lemma start_S cs row : start cs (Datatypes.S row) = start cs row + zlen (line cs row).
Proof. unfold start, chunk_text. rewrite seq_S, fmap_app, concat_app, zlen_app. cbn [fmap list_fmap concat]. by rewrite app_nil_r. Qed.

Lemma chunk_split cs n row : (row < n)%nat -> holds_at (chunk_text cs 0 n) (start cs row) (line cs row).
Proof.
  intros Hr. exists (chunk_text cs 0 row), (chunk_text cs (Datatypes.S row) (n - Datatypes.S row)). split; [|done]. unfold chunk_text.
  replace n with (row + Datatypes.S (n - Datatypes.S row))%nat at 1 by lia. rewrite seq_app, fmap_app, concat_app. done.
Qed.

Lemma done_chunk cs T mem n : (forall i, (i < n)%nat -> done T mem (start cs i) (zlen (line cs i))) -> done T mem 0 (start cs n).
Proof.
  induction n as [|n IH]; intros Hd; [intros i Hi; change (start cs 0) with 0 in Hi; lia|]. rewrite start_S. apply done_app; [apply zlen_nonneg|apply IH; auto|]. rewrite Z.add_0_l. apply Hd. lia.
Qed.

(** The token and the values of a row are both there. *)
Lemma line_split cs T row : holds_at T (start cs row) (line cs row) ->
  holds_at T (start cs row) [z2b BCP_TOKEN_ROW] /\ holds_at T (start cs row + 1) (row_text row cs).
Proof. intros Hl. exact (holds_at_app T (start cs row) [z2b BCP_TOKEN_ROW] (row_text row cs) Hl). Qed.

Lemma done_line cs T mem row : done T mem (start cs row) 1 -> done T mem (start cs row + 1) (zlen (row_text row cs)) -> done T mem (start cs row) (zlen (line cs row)).
Proof. intros H1' H2'. unfold line. rewrite zlen_cons. by apply done_app. Qed.

(** ** The cursor path *)

(** What a block of columns leads to, values at [off]. *)
Definition block_outcome (T : bytes) (cs : list column) (r0 rows : nat) (off : nat -> Z) (b : room) (touched : nat -> Prop) (m : res room) : Prop :=
  match m with
  | Ok (mem', cur') =>
      all_written cs r0 rows /\ zlen mem' = zlen T /\ (forall i, ~ touched i -> cur' !! i = b.2 !! i) /\ keeps T b.1 mem' /\
      forall i, (i < rows)%nat -> done T mem' (off i) (zlen (row_text (r0 + i) cs))
  | Exn _ => some_refused cs r0 rows
  | Oob => False
  end.

Lemma row_text_cons row c cs : row_text row (c :: cs) = slot c row ++ row_text row cs.
Proof. done. Qed.

Lemma all_written_cons c cs r0 rows : (forall i, (i < rows)%nat -> exists w, enc c (r0 + i) = Ok w) -> all_written cs r0 rows -> all_written (c :: cs) r0 rows.
Proof. intros Hc Hcs i c' Hi [->|Hc']%elem_of_cons; [by apply Hc|by apply Hcs]. Qed.

(** Writing a column, then the rest. *)
Lemma block_cons T c cs r0 rows off b touched m mem1 cur1 :
  keeps T b.1 mem1 -> (forall i, (i < rows)%nat -> done T mem1 (off i) (zlen (slot c (r0 + i)))) ->
  (forall i, (i < rows)%nat -> exists w, enc c (r0 + i) = Ok w) -> (forall i, ~ touched i -> cur1 !! i = b.2 !! i) ->
  block_outcome T cs r0 rows (fun i => off i + zlen (slot c (r0 + i))) (mem1, cur1) touched m ->
  block_outcome T (c :: cs) r0 rows off b touched m.
Proof.
  intros Hk Hd Hw Hcur. destruct m as [[mem' cur']|e|]; [|by intros (i & c' & e' & Hi & Hc & E); exists i, c', e'; split; [|split; [by right|]]|done].
  intros (Hall & Hl & Hc' & Hk' & Hd'). split; [by apply all_written_cons|]. split; [done|]. split; [intros i Hi; by rewrite Hc', Hcur|].
  split; [by eapply keeps_trans|]. intros i Hi. rewrite row_text_cons, zlen_app. apply done_app; [apply zlen_nonneg| |by apply Hd']. apply Hk'. by apply Hd.
Qed.

Lemma block_refused T c cs r0 rows off b touched i e : (i < rows)%nat -> enc c (r0 + i) = Exn e -> forall e', block_outcome T (c :: cs) r0 rows off b touched (Exn e').
Proof. intros Hi E e'. exists i, c, e. split; [done|]. split; [by left|done]. Qed.

Lemma ScatterBlockCursor_spec n T cs r0 rend : Forall (column_ok n) cs -> (r0 <= rend <= n)%nat -> forall off b,
  zlen b.1 = zlen T -> (forall i, (i < rend - r0)%nat -> b.2 !! (r0 + i)%nat = Some (off i) /\ holds_at T (off i) (row_text (r0 + i) cs)) ->
  block_outcome T cs r0 (rend - r0) off b (fun i => (r0 <= i < rend)%nat) (ScatterBlockCursor r0 rend cs b).
Proof.
  intros Hcs Hr. induction Hcs as [|c cs Hc Hcs IH]; intros off b Hl Hb.
  - destruct b as [mem cur]. split; [intros i c _ Hc; by apply elem_of_nil in Hc|]. split; [done|]. split; [done|]. split; [apply keeps_refl|].
    intros i _ j. change (zlen (row_text (r0 + i) [])) with 0. lia.
  - cbn [ScatterBlockCursor]. destruct c as [[[[col st] op] width] plan] eqn:Ecol. rewrite <- Ecol in *.
    change (cursor_arm col st op width plan r0 rend b) with (run_cursor (col, st, op, width, plan) r0 rend b). rewrite <- Ecol.
    assert (Hplace : placed T (CursorPos 0 r0) (fun i => slot c (r0 + i)) off (rend - r0) b).
    { split; [done|]. intros i Hi. destruct (Hb i Hi) as [Ei Hi2]. cbn [At]. rewrite Ei. split; [done|]. rewrite row_text_cons in Hi2.
      apply holds_at_app in Hi2 as [Hi2 _]. exact Hi2. }
    pose proof (column_cursor _ _ Hc T r0 rend Hr off b Hplace) as Harm. destruct (run_cursor c r0 rend b) as [[mem1 cur1]|e|]; cbn [mbind res_bind]; [|destruct Harm as (i & e' & Hi & E); by eapply block_refused|done].
    destruct Harm as (Hw & Hl1 & Hadv & Hk & Hd). cbn [advanced] in Hadv. eapply block_cons; [exact Hk|exact Hd|exact Hw| |apply IH; [done|]].
    + intros i Hi. rewrite Hadv. destruct (b.2 !! i); [|done]. cbn [fmap option_fmap option_map]. f_equal. destruct (Nat.leb_spec (r0 + 0) i), (Nat.ltb_spec i (r0 + 0 + (rend - r0))); cbn [andb]; try done. lia.
    + intros i Hi. destruct (Hb i Hi) as [Ei Hi2]. cbn [snd]. rewrite Hadv, Ei. rewrite row_text_cons in Hi2. apply holds_at_app in Hi2 as [_ Hi2]. split; [|done].
      cbn [fmap option_fmap option_map]. rewrite (proj2 (Nat.leb_le _ _)), (proj2 (Nat.ltb_lt _ _)) by lia. cbn [andb]. by replace (r0 + i - r0)%nat with i by lia.
Qed.

(** The blocks of a chunk. *)
Lemma all_written_app cs r0 r1 n : all_written cs r0 (r1 - r0) -> (forall i c, (r1 <= i < n)%nat -> c ∈ cs -> exists w, enc c i = Ok w) -> all_written cs r0 (n - r0).
Proof.
  intros H1' H2' i c Hi Hc. destruct (Nat.lt_ge_cases (r0 + i) r1); [apply H1'; [lia|done]|apply H2'; [lia|done]].
Qed.

Lemma some_refused_wider cs r0 rows r n : (r <= r0)%nat -> (r0 + rows <= r + n \/ rows = 0)%nat -> some_refused cs r0 rows -> some_refused cs r n.
Proof. intros Hr Hn (i & c & e & Hi & Hc & E). exists (r0 + i - r)%nat, c, e. split; [lia|]. split; [done|]. rewrite <- E. f_equal. lia. Qed.

(** Lines are written from their [d]th byte on. *)
Definition chunk_outcome (d : Z) (T : bytes) (cs : list column) (r0 n : nat) (mem : bytes) (m : res room) : Prop :=
  match m with
  | Ok (mem', _) => all_written cs r0 (n - r0) /\ zlen mem' = zlen T /\ keeps T mem mem' /\
                    forall i, (r0 <= i < n)%nat -> done T mem' (start cs i + d) (zlen (line cs i) - d)
  | Exn _ => some_refused cs r0 (n - r0)
  | Oob => False
  end.

Lemma chunk_end d T cs r0 n mem cur : zlen mem = zlen T -> (n <= r0)%nat -> chunk_outcome d T cs r0 n mem (Ok (mem, cur)).
Proof. intros Hl Hr. split; [intros i c Hi; lia|]. split; [done|]. split; [apply keeps_refl|intros; lia]. Qed.

(** One block, then the others. *)
Lemma chunk_next d T cs r0 next rend n mem mem1 m : (r0 < rend <= n /\ r0 < next /\ (n <= next /\ rend = n \/ rend = next))%nat ->
  all_written cs r0 (rend - r0) -> keeps T mem mem1 -> (forall i, (r0 <= i < rend)%nat -> done T mem1 (start cs i + d) (zlen (line cs i) - d)) ->
  chunk_outcome d T cs next n mem1 m -> chunk_outcome d T cs r0 n mem m.
Proof.
  intros Hr Hall Hk Hd. destruct m as [[mem' cur']|e|]; cbn [chunk_outcome]; [|intros Hm; by eapply some_refused_wider; [..|exact Hm]; lia|done].
  intros (Hall' & Hl & Hk' & Hd'). split; [|split; [done|split; [by eapply keeps_trans|]]].
  - apply (all_written_app cs r0 rend); [done|]. intros i c Hi Hc. destruct (Hall' (i - next)%nat c ltac:(lia) Hc) as [w E]. exists w. rewrite <- E. f_equal. lia.
  - intros i Hi. destruct (Nat.lt_ge_cases i rend); [apply Hk', Hd; lia|apply Hd'; lia].
Qed.

Lemma cursor_blocks_spec n T cs : Forall (column_ok n) cs -> (forall i, (i < n)%nat -> holds_at T (start cs i) (line cs i)) ->
  forall turns r0 b, (n <= r0 + turns)%nat -> zlen b.1 = zlen T -> (forall i, (r0 <= i < n)%nat -> b.2 !! i = Some (start cs i + 1)) ->
  chunk_outcome 1 T cs r0 n b.1 (cursor_blocks turns n r0 cs b).
Proof.
  intros Hcs Hline. induction turns as [|turns IH]; intros r0 b Ht Hl Hb; cbn [cursor_blocks].
  - destruct b. apply chunk_end; [done|lia].
  - destruct (Nat.ltb_spec r0 n) as [Hr|Hr]; [|destruct b; by apply chunk_end]. set (next := (r0 + BLOCK_ROWS)%nat). set (rend := Nat.min next n).
    assert (Hrend : (r0 < rend <= n /\ r0 < next /\ (n <= next /\ rend = n \/ rend = next))%nat) by (unfold rend, next, BLOCK_ROWS; lia). clearbody rend next.
    pose proof (ScatterBlockCursor_spec n T cs r0 rend Hcs ltac:(lia) (fun i => start cs (r0 + i) + 1) b Hl) as Hblock.
    assert (Hpre : forall i, (i < rend - r0)%nat -> b.2 !! (r0 + i)%nat = Some (start cs (r0 + i) + 1) /\ holds_at T (start cs (r0 + i) + 1) (row_text (r0 + i) cs)).
    { intros i Hi. split; [apply Hb; lia|]. apply line_split, Hline. lia. }
    specialize (Hblock Hpre). clear Hpre. destruct (ScatterBlockCursor r0 rend cs b) as [[mem1 cur1]|e|]; cbn [mbind res_bind];
      [|by eapply some_refused_wider; [..|exact Hblock]; lia|done].
    destruct Hblock as (Hall & Hl1 & Hcur & Hk & Hd). cbn [snd] in Hcur.
    specialize (IH next (mem1, cur1) ltac:(lia) Hl1). cbn [fst snd] in IH.
    eapply chunk_next; [exact Hrend|exact Hall|exact Hk| |apply IH; intros i Hi; rewrite Hcur by lia; apply Hb; lia].
    intros i Hi. specialize (Hd (i - r0)%nat ltac:(lia)). cbv beta in Hd. replace (r0 + (i - r0))%nat with i in Hd by lia.
    unfold line. rewrite zlen_cons. by replace (1 + zlen (row_text i cs) - 1) with (zlen (row_text i cs)) by lia.
Qed.

Lemma cursor_tokens_spec T cs n k : (forall i, (i < n)%nat -> holds_at T (start cs i) (line cs i)) -> forall r mem, (r + k <= n)%nat -> zlen mem = zlen T ->
  exists mem', cursor_tokens (start cs <$> seq r k) mem = Ok mem' /\ zlen mem' = zlen T /\ keeps T mem mem' /\ forall i, (r <= i < r + k)%nat -> done T mem' (start cs i) 1.
Proof.
  intros Hline. induction k as [|k IH]; intros r mem Hr Hl; [exists mem; split; [done|split; [done|split; [apply keeps_refl|intros; lia]]]|].
  cbn [seq fmap list_fmap cursor_tokens]. destruct (line_split cs T r (Hline r ltac:(lia))) as [Htok _].
  destruct (store_done T mem _ _ Hl Htok) as (mem1 & -> & Hl1 & Hk1 & Hd1). cbn [mbind res_bind].
  destruct (IH (Datatypes.S r) mem1 ltac:(lia) Hl1) as (mem' & -> & Hl' & Hk' & Hd'). exists mem'. split; [done|]. split; [done|]. split; [by eapply keeps_trans|].
  intros i Hi. destruct (decide (i = r)) as [->|]; [by apply Hk'|apply Hd'; lia].
Qed.

(** ** The sizes of the rows *)

Definition base_len (c : column) : Z := let '(_, _, op, width, _) := c in if IsVariable op then 0 else 1 + width.

Lemma cell_len_fixed n c row : column_ok n c -> is_variable c = false -> no_nulls c = true -> cell_len c row = base_len c.
Proof.
  intros _ Hv Hn. destruct c as [[[[col st] op] width] plan]. cbn in *. rewrite Hv. destruct (vec st); [|done]. by rewrite AllValid_null.
Qed.

Lemma zlen_row_text n cs row : Forall (column_ok n) cs -> (row < n)%nat -> zlen (row_text row cs) = foldr (fun c k => cell_len c row + k) 0 cs.
Proof.
  intros Hcs Hr. induction Hcs as [|c cs Hc Hcs IH]; [done|]. rewrite row_text_cons, zlen_app, IH. cbn [foldr]. by destruct (column_len _ _ Hc row Hr) as [_ ->].
Qed.

Lemma adjust_rows_spec n c g : column_ok n c -> adjust_rows c (g <$> seq 0 n) = (fun i => g i + (cell_len c i - base_len c)) <$> seq 0 n.
Proof.
  intros Hc. apply list_eq. intros i. rewrite list_lookup_fmap. pose proof (column_wire _ _ Hc) as Hw. destruct c as [[[[col st] op] width] plan]. cbn [adjust_rows cell_len base_len is_variable] in *.
  destruct (Nat.lt_ge_cases i n) as [Hi|Hi].
  - rewrite (lookup_seq_lt 0 n i) by done. cbn [fmap option_fmap option_map Nat.add]. destruct (IsVariable op) eqn:Ev.
    + destruct (Hw eq_refl) as [Hlen Hv]. destruct (vec st) as [v|]; [|done]. rewrite lookup_zip_with, lookup_rows by done. cbn [mbind option_bind].
      destruct (wire plan !! i) as [x|] eqn:Ex; [cbn; f_equal; lia|]. apply lookup_ge_None in Ex. lia.
    + destruct (vec st) as [v|]; [|rewrite lookup_rows by done; f_equal; lia]. destruct (AllValid (ToUnifiedFormat v)) eqn:Ea.
      * rewrite lookup_rows by done. rewrite AllValid_null by done. f_equal. lia.
      * rewrite list_lookup_imap, lookup_rows by done. cbn [fmap option_fmap option_map]. unfold FormatIsNull. f_equal. destruct (RowIsValid _ _); cbn [negb]; lia.
  - rewrite (lookup_seq_ge 0 n i) by done. cbn [fmap option_fmap option_map]. apply lookup_ge_None.
    destruct (IsVariable op); [rewrite length_zip_with, length_fmap, length_seq; lia|]. destruct (vec st) as [v|]; [|rewrite length_fmap, length_seq; lia].
    destruct (AllValid _); [|rewrite length_imap]; rewrite length_fmap, length_seq; lia.
Qed.

Lemma fold_rows_spec n cs g : Forall (column_ok n) cs ->
  foldl (fun row_at c => adjust_rows c row_at) (g <$> seq 0 n) cs = (fun i => g i + foldr (fun c k => cell_len c i - base_len c + k) 0 cs) <$> seq 0 n.
Proof.
  intros Hcs. revert g. induction Hcs as [|c cs Hc Hcs IH]; intros g; cbn [foldl foldr].
  - apply list_fmap_ext. intros i x _. lia.
  - rewrite (adjust_rows_spec n c g Hc), IH. apply list_fmap_ext. intros i x _. lia.
Qed.

Lemma row_sizes_spec n cs : Forall (column_ok n) cs -> row_sizes n cs = (fun i => zlen (line cs i)) <$> seq 0 n.
Proof.
  intros Hcs. unfold row_sizes. match goal with |- context[replicate n ?b] => set (base := b) end. assert (Hb : base = 1 + foldr (fun c k => base_len c + k) 0 cs).
  { unfold base. f_equal. clear. induction cs as [|[[[[col st] op] width] plan] cs IH]; [done|]. cbn [foldr base_len]. by rewrite IH. }
  replace (replicate n base) with ((fun _ : nat => base) <$> seq 0 n) by (rewrite <- (length_seq n 0) at 2; generalize (seq 0 n); intros l; induction l; cbn; congruence).
  rewrite fold_rows_spec by done. apply list_eq. intros i. destruct (Nat.lt_ge_cases i n) as [Hi|Hi].
  - rewrite !lookup_rows by done. f_equal. unfold line. rewrite zlen_cons, (zlen_row_text n) by done. rewrite Hb. clear. induction cs as [|c cs IH]; cbn [foldr]; lia.
  - rewrite !list_lookup_fmap, lookup_seq_ge by done. done.
Qed.

Lemma prefix_sum_spec cs k : forall r, prefix_sum (start cs r) ((fun i => zlen (line cs i)) <$> seq r k) = (start cs <$> seq r k, start cs (r + k)).
Proof.
  induction k as [|k IH]; intros r; cbn [seq fmap list_fmap prefix_sum]; [by rewrite Nat.add_0_r|]. rewrite <- start_S, IH.
  by replace (Datatypes.S r + k)%nat with (r + Datatypes.S k)%nat by lia.
Qed.

(** ** The strided path *)

Definition fixed_columns (cs : list column) : Prop := Forall (fun c => is_variable c = false /\ no_nulls c = true) cs.

Lemma ScatterBlock_spec n T cs bdst stride r0 rows : Forall (column_ok n) cs -> fixed_columns cs -> (r0 + rows <= n)%nat -> forall col_off b,
  zlen b.1 = zlen T -> (forall i, (i < rows)%nat -> holds_at T (bdst + col_off + Z.of_nat i * stride) (row_text (r0 + i) cs)) ->
  block_outcome T cs r0 rows (fun i => bdst + col_off + Z.of_nat i * stride) b (fun _ => False) (ScatterBlock bdst stride r0 rows cs col_off b).
Proof.
  intros Hcs Hfix Hr. induction Hcs as [|c cs Hc Hcs IH]; intros col_off b Hl Hb.
  - destruct b as [mem cur]. split; [intros i c _ Hc; by apply elem_of_nil in Hc|]. split; [done|]. split; [done|]. split; [apply keeps_refl|].
    intros i _ j. change (zlen (row_text (r0 + i) [])) with 0. lia.
  - apply Forall_cons in Hfix as [[Hv Hn] Hfix]. specialize (IH Hfix).
    assert (Hlen : forall i, (i < rows)%nat -> zlen (slot c (r0 + i)) = base_len c).
    { intros i Hi. destruct (column_len _ _ Hc (r0 + i)%nat ltac:(lia)) as [_ ->]. by apply (cell_len_fixed n). }
    assert (Hbase : base_len c = let '(_, _, _, width, _) := c in 1 + width) by (destruct c as [[[[col st] op] width] plan]; cbn in *; by rewrite Hv).
    assert (Hstep : ScatterBlock bdst stride r0 rows (c :: cs) col_off b = (b ← run_strided c (bdst + col_off) stride r0 rows b; ScatterBlock bdst stride r0 rows cs (col_off + base_len c) b)).
    { rewrite Hbase. by destruct c as [[[[col st] op] width] plan]. }
    rewrite Hstep. assert (Hplace : placed T (StridePos (bdst + col_off) stride) (fun i => slot c (r0 + i)) (fun i => bdst + col_off + Z.of_nat i * stride) rows b).
    { split; [done|]. intros i Hi. specialize (Hb i Hi). rewrite row_text_cons in Hb. apply holds_at_app in Hb as [Hb _]. split; [done|exact Hb]. }
    pose proof (column_strided _ _ Hc T _ stride r0 rows Hv Hn Hr _ b Hplace) as Harm.
    destruct (run_strided c (bdst + col_off) stride r0 rows b) as [[mem1 cur1]|e|]; cbn [mbind res_bind]; [|destruct Harm as (i & e' & Hi & E); by eapply block_refused|done].
    destruct Harm as (Hw & Hl1 & Hadv & Hk & Hd). cbn [advanced] in Hadv. subst cur1. eapply block_cons; [exact Hk|exact Hd|exact Hw|done|].
    specialize (IH (col_off + base_len c) (mem1, b.2) Hl1). cbn [fst] in IH.
    assert (Hpre : forall i, (i < rows)%nat -> holds_at T (bdst + (col_off + base_len c) + Z.of_nat i * stride) (row_text (r0 + i) cs)).
    { intros i Hi. specialize (Hb i Hi). rewrite row_text_cons in Hb. apply holds_at_app in Hb as [_ Hb]. rewrite Hlen in Hb by done.
      by replace (bdst + (col_off + base_len c) + Z.of_nat i * stride) with (bdst + col_off + Z.of_nat i * stride + base_len c) by lia. }
    specialize (IH Hpre). revert IH. destruct (ScatterBlock bdst stride r0 rows cs (col_off + base_len c) (mem1, b.2)) as [[mem' cur']|e|]; [|done|done].
    intros (Ha & Hl' & Hc' & Hk' & Hd'). split; [done|]. split; [done|]. split; [done|]. split; [done|]. intros i Hi. rewrite Hlen by done. specialize (Hd' i Hi). cbv beta in Hd'.
    by replace (bdst + col_off + Z.of_nat i * stride + base_len c) with (bdst + (col_off + base_len c) + Z.of_nat i * stride) by lia.
Qed.

Lemma strided_tokens_spec T cs stride r0 rows : (forall i, (i < rows)%nat -> holds_at T (Z.of_nat (r0 + i) * stride) (line cs (r0 + i))) ->
  forall k r mem, (r + k <= rows)%nat -> zlen mem = zlen T ->
  exists mem', strided_tokens (Z.of_nat r0 * stride) stride k r mem = Ok mem' /\ zlen mem' = zlen T /\ keeps T mem mem' /\
    forall i, (r <= i < r + k)%nat -> done T mem' (Z.of_nat (r0 + i) * stride) 1.
Proof.
  intros Hline. induction k as [|k IH]; intros r mem Hr Hl; [exists mem; split; [done|split; [done|split; [apply keeps_refl|intros; lia]]]|].
  cbn [strided_tokens]. destruct (holds_at_app T (Z.of_nat (r0 + r) * stride) [z2b BCP_TOKEN_ROW] (row_text (r0 + r) cs) (Hline r ltac:(lia))) as [Htok _].
  replace (Z.of_nat r0 * stride + Z.of_nat r * stride) with (Z.of_nat (r0 + r) * stride) by lia.
  destruct (store_done T mem _ _ Hl Htok) as (mem1 & -> & Hl1 & Hk1 & Hd1). cbn [mbind res_bind].
  destruct (IH (Datatypes.S r) mem1 ltac:(lia) Hl1) as (mem' & -> & Hl' & Hk' & Hd'). exists mem'. split; [done|]. split; [done|]. split; [by eapply keeps_trans|].
  intros i Hi. destruct (decide (i = r)) as [->|]; [by apply Hk'|apply Hd'; lia].
Qed.

Lemma strided_blocks_spec n T cs stride : Forall (column_ok n) cs -> fixed_columns cs -> (forall i, (i < n)%nat -> start cs i = Z.of_nat i * stride) ->
  (forall i, (i < n)%nat -> holds_at T (start cs i) (line cs i)) ->
  forall turns r0 b, (n <= r0 + turns)%nat -> zlen b.1 = zlen T -> chunk_outcome 0 T cs r0 n b.1 (strided_blocks turns stride n r0 cs b).
Proof.
  intros Hcs Hfix Hst Hline. induction turns as [|turns IH]; intros r0 b Ht Hl; cbn [strided_blocks].
  - destruct b. apply chunk_end; [done|lia].
  - destruct (Nat.ltb_spec r0 n) as [Hr|Hr]; [|destruct b; by apply chunk_end]. set (next := (r0 + BLOCK_ROWS)%nat). set (rend := Nat.min next n). cbv zeta.
    assert (Hrend : (r0 < rend <= n /\ r0 < next /\ (n <= next /\ rend = n \/ rend = next))%nat) by (unfold rend, next, BLOCK_ROWS; lia). clearbody rend next.
    assert (Hl0 : forall i, (i < rend - r0)%nat -> holds_at T (Z.of_nat (r0 + i) * stride) (line cs (r0 + i))) by (intros i Hi; rewrite <- Hst by lia; apply Hline; lia).
    destruct (strided_tokens_spec T cs stride r0 (rend - r0) Hl0 (rend - r0) 0 b.1 ltac:(lia) Hl) as (mem0 & -> & Hl0' & Hk0 & Hd0). cbn [mbind res_bind].
    assert (Hpre : forall i, (i < rend - r0)%nat -> holds_at T (Z.of_nat r0 * stride + 1 + Z.of_nat i * stride) (row_text (r0 + i) cs)).
    { intros i Hi. destruct (holds_at_app T (Z.of_nat (r0 + i) * stride) [z2b BCP_TOKEN_ROW] (row_text (r0 + i) cs) (Hl0 i Hi)) as [_ Hrow].
      change (zlen [z2b BCP_TOKEN_ROW]) with 1 in Hrow. by replace (Z.of_nat r0 * stride + 1 + Z.of_nat i * stride) with (Z.of_nat (r0 + i) * stride + 1) by lia. }
    pose proof (ScatterBlock_spec n T cs (Z.of_nat r0 * stride) stride r0 (rend - r0) Hcs Hfix ltac:(lia) 1 (mem0, b.2) Hl0' Hpre) as Hblock.
    destruct (ScatterBlock _ stride r0 (rend - r0) cs 1 (mem0, b.2)) as [[mem1 cur1]|e|]; cbn [mbind res_bind]; [|by eapply some_refused_wider; [..|exact Hblock]; lia|done].
    destruct Hblock as (Hall & Hl1 & _ & Hk & Hd). specialize (IH next (mem1, cur1) ltac:(lia) Hl1). cbn [fst snd] in *.
    eapply chunk_next; [exact Hrend|exact Hall|by eapply keeps_trans| |exact IH]. intros i Hi. rewrite Hst by lia. rewrite Z.add_0_r, Z.sub_0_r. unfold line. rewrite zlen_cons.
    specialize (Hd (i - r0)%nat ltac:(lia)). specialize (Hd0 (i - r0)%nat ltac:(lia)). cbv beta in Hd, Hd0. replace (r0 + (i - r0))%nat with i in * by lia.
    apply done_app; [lia|by apply Hk|]. by replace (Z.of_nat i * stride + 1) with (Z.of_nat r0 * stride + 1 + Z.of_nat (i - r0) * stride) by (rewrite Nat2Z.inj_sub by lia; lia).
Qed.

(** ** The chunk *)

Lemma fixed_columns_of cs : all_valid cs && negb (has_variable cs) = true -> fixed_columns cs.
Proof.
  intros [Ha Hv]%andb_prop. apply negb_true_iff in Hv. unfold fixed_columns, all_valid, has_variable in *. induction cs as [|[[[[col st] op] width] plan] cs IH]; [constructor|].
  cbn in Ha, Hv. apply andb_prop in Ha as [Ha1 Ha2]. apply orb_false_elim in Hv as [Hv1 Hv2]. constructor; [|by apply IH]. cbn. rewrite Hv1 in Ha1. by destruct (vec st).
Qed.

Lemma stride_line n cs row : Forall (column_ok n) cs -> fixed_columns cs -> (row < n)%nat -> zlen (line cs row) = stride_of cs.
Proof.
  intros Hcs Hfix Hr. unfold line. rewrite zlen_cons, (zlen_row_text n) by done. unfold stride_of. f_equal. induction Hcs as [|c cs Hc Hcs IH]; [done|].
  apply Forall_cons in Hfix as [[Hv Hn] Hfix]. cbn [foldr]. rewrite IH by done. rewrite (cell_len_fixed n) by done. destruct c as [[[[col st] op] width] plan]. cbn in *. by rewrite Hv.
Qed.

Lemma start_stride n cs : Forall (column_ok n) cs -> fixed_columns cs -> forall i, (i <= n)%nat -> start cs i = Z.of_nat i * stride_of cs.
Proof.
  intros Hcs Hfix. induction i as [|i IH]; intros Hi; [done|]. rewrite start_S, IH, (stride_line n) by (done || lia). lia.
Qed.

Lemma row_offsets n cs : Forall (column_ok n) cs -> prefix_sum 0 (row_sizes n cs) = (start cs <$> seq 0 n, start cs n).
Proof. intros Hcs. rewrite row_sizes_spec by done. exact (prefix_sum_spec cs n 0). Qed.

(** The room once every line is done. *)
Lemma room_filled n cs mem : zlen mem = zlen (chunk_text cs 0 n) -> (forall i, (i < n)%nat -> done (chunk_text cs 0 n) mem (start cs i) (zlen (line cs i))) -> mem = chunk_text cs 0 n.
Proof. intros Hl Hd. apply done_all; [done|]. change (zlen (chunk_text cs 0 n)) with (start cs n). by apply done_chunk. Qed.

Lemma TryEncode_spec n columns states cs : resolve_columns n columns states = Ok (Some cs) -> Forall (column_ok n) cs ->
  match TryEncodeChunkColumnar n columns states with
  | Ok (Some b) => all_written cs 0 n /\ b = chunk_text cs 0 n
  | Ok None => True
  | Exn _ => some_refused cs 0 n
  | Oob => False
  end.
Proof.
  intros Hres Hcs. unfold TryEncodeChunkColumnar. case_bool_decide; [done|]. rewrite Hres. cbn [mbind res_bind].
  set (T := chunk_text cs 0 n). assert (Hline : forall i, (i < n)%nat -> holds_at T (start cs i) (line cs i)) by (intros i Hi; by apply chunk_split).
  assert (Hz : forall k : nat, zlen (replicate k Byte.x00) = Z.of_nat k) by (intros k; unfold zlen; by rewrite length_replicate).
  destruct (all_valid cs && negb (has_variable cs)) eqn:Epath.
  - pose proof (fixed_columns_of cs Epath) as Hfix. cbv zeta. pose proof (start_stride n cs Hcs Hfix) as Hst.
    assert (Hl : zlen (replicate (n * Z.to_nat (stride_of cs)) Byte.x00) = zlen T).
    { rewrite Hz. change (zlen T) with (start cs n). rewrite Hst by lia. destruct n as [|m]; [done|]. rewrite <- (stride_line (Datatypes.S m) cs 0) by (done || lia).
      pose proof (zlen_nonneg (line cs 0)). lia. }
    pose proof (strided_blocks_spec n T cs (stride_of cs) Hcs Hfix ltac:(intros i Hi; apply Hst; lia) Hline n 0 (replicate (n * Z.to_nat (stride_of cs)) Byte.x00, []) ltac:(lia) Hl) as Hb.
    destruct (strided_blocks _ _ _ _ _ _) as [[mem cur]|e|]; cbn [mbind res_bind chunk_outcome] in *; rewrite ?Nat.sub_0_r in Hb; [|done|done].
    destruct Hb as (Hall & Hl' & _ & Hd). split; [done|]. cbn [fst]. apply room_filled; [done|]. intros i Hi. specialize (Hd i ltac:(lia)). by rewrite Z.add_0_r, Z.sub_0_r in Hd.
  - rewrite row_offsets by done. destruct (cursor_tokens_spec T cs n n Hline 0 (replicate (Z.to_nat (start cs n)) Byte.x00) ltac:(lia)) as (mem0 & -> & Hl0 & _ & Htok).
    { rewrite Hz. change (zlen T) with (start cs n). pose proof (zlen_nonneg T). change (zlen T) with (start cs n) in *. lia. }
    cbn [mbind res_bind]. pose proof (cursor_blocks_spec n T cs Hcs Hline n 0 (mem0, (fun at_ => at_ + 1) <$> (start cs <$> seq 0 n)) ltac:(lia) Hl0) as Hb.
    assert (Hcur : forall i, (0 <= i < n)%nat -> ((fun at_ => at_ + 1) <$> (start cs <$> seq 0 n)) !! i = Some (start cs i + 1)).
    { intros i Hi. rewrite list_lookup_fmap, lookup_rows by lia. done. }
    specialize (Hb Hcur). destruct (cursor_blocks _ _ _ _ _) as [[mem cur]|e|]; cbn [mbind res_bind chunk_outcome fst] in *; rewrite ?Nat.sub_0_r in Hb; [|done|done].
    destruct Hb as (Hall & Hl' & Hk & Hd). split; [done|]. apply room_filled; [done|]. intros i Hi. apply done_line; [apply Hk, Htok; lia|].
    specialize (Hd i ltac:(lia)). unfold line in Hd. rewrite zlen_cons in Hd. by replace (1 + zlen (row_text i cs) - 1) with (zlen (row_text i cs)) in Hd by lia.
Qed.

(** ** From the chunk to its columns *)

Definition sources_ok (n : nat) (columns : list BCPColumnMetadata) (states : list ColumnEncodeState) : Prop :=
  Forall2 (fun col st => vec st = None \/ exists v f, sourced n col st v f) columns states.

Lemma EncodeRow_enc row columns states cs : Forall2 (fun p c => forall row, enc c row = encode_cell row p.1 p.2) (zip columns states) cs ->
  length columns = length states -> EncodeRowFromStates row columns states = enc_row row cs.
Proof.
  revert states cs. induction columns as [|col columns IH]; intros [|st states] cs Hf Hl; cbn in Hf, Hl; try lia; [by apply Forall2_nil_inv_l in Hf as ->|].
  apply Forall2_cons_inv_l in Hf as (c & cs' & Ec & Hf & ->). cbn [EncodeRowFromStates enc_row]. rewrite Ec, (IH states cs') by (done || lia). done.
Qed.

Lemma EncodeRows_enc rows columns states cs : Forall2 (fun p c => forall row, enc c row = encode_cell row p.1 p.2) (zip columns states) cs ->
  length columns = length states -> forall r, EncodeRows rows r columns states = enc_rows rows r cs.
Proof.
  intros Hf Hl. induction rows as [|rows IH]; intros r; [done|]. cbn [EncodeRows enc_rows]. by rewrite (EncodeRow_enc r columns states cs Hf Hl), IH.
Qed.

Lemma resolve_columns_spec n columns states : sources_ok n columns states ->
  resolve_columns n columns states = Ok None \/
  exists cs, resolve_columns n columns states = Ok (Some cs) /\ Forall (column_ok n) cs /\
    Forall2 (fun p c => forall row, enc c row = encode_cell row p.1 p.2) (zip columns states) cs.
Proof.
  induction 1 as [|col st columns states Hst _ IH]; [right; by exists []|]. cbn [resolve_columns].
  match goal with |- context[mbind _ ?m] => assert (Hc : m = Ok None \/ exists c, m = Ok (Some c) /\ column_ok n c /\ forall row, enc c row = encode_cell row col st) end.
  { destruct Hst as [Hv|(v & f & Hs)].
    - rewrite Hv. right. eexists. split; [done|]. split; [by apply absent_column|done].
    - rewrite (sourced_vec _ _ _ _ _ Hs). pose proof (resolved_column n col st v f Hs) as Hr. cbv zeta in *. destruct (CanScatter _); [|by left]. specialize (Hr eq_refl). cbn [negb].
      right. destruct (IsVariable _); [destruct Hr as (plan & -> & Hok); eexists; split; [done|]; by split|]. eexists. split; [done|]. by split. }
  destruct Hc as [-> |(c & -> & Hok & Hc)]; cbn [mbind res_bind]; [by left|]. destruct IH as [-> |(cs & -> & Hcs & Hf)]; cbn [mbind res_bind]; [by left|].
  right. eexists. split; [done|]. split; [by constructor|]. by constructor.
Qed.

(** The values on which the two paths agree ([cell_exact]). *)
Definition exact (n : nat) (chunk : DataChunk) (columns : list BCPColumnMetadata) (column_mapping : option (list Z)) : Prop :=
  forall i col v row c, columns !! i = Some col -> 0 <= source_of column_mapping i -> chunk_data chunk !! Z.to_nat (source_of column_mapping i) = Some v -> (row < n)%nat ->
    holds_cell v row c -> cell_exact (GetType v) (id (duckdb_type col)) c.

Lemma PrepareColumnState_sourced n chunk columns column_mapping i col :
  columns !! i = Some col -> target_ok col -> source_ok n chunk col (source_of column_mapping i) -> exact n chunk columns column_mapping ->
  holds (PrepareColumnState chunk n col (source_of column_mapping i)) (fun st => vec st = None \/ exists v f, sourced n col st v f).
Proof.
  intros Hi Ht Hs Hx. specialize (Hx i col). unfold PrepareColumnState, source_ok in *. set (idx := source_of column_mapping i) in *. clearbody idx.
  destruct (Z.ltb_spec idx 0) as [Hi0|Hi0]; [by left|]. destruct (chunk_data chunk !! Z.to_nat idx) as [v|] eqn:Ev; [|by left].
  specialize (Hs v Hi0 eq_refl). destruct (null_only_source col); [destruct (all_null _ n); [by left|done]|].
  destruct (Hs eq_refl) as (Ha & Hty & Hv). destruct (ResolveEncoder col) as [f|e|] eqn:Ef; [|done|].
  - right. exists v, f. split; try done. intros row Hr Hn. destruct (Hv row Hr Hn) as (c & Hc & Hf). exists c. split; [done|]. split; [done|]. by apply (Hx v row).
  - unfold ResolveEncoder, FamilyFromLogicalType in Ef. unfold target_ok in Ht. by destruct (id (duckdb_type col)).
Qed.
End Chunks.

(** [EncodeChunk] without the columnar path: row by row. *)
Definition EncodeChunk_rows `{Hugeint} `{Floats} `{DuckDB} `{Simdutf} (chunk : DataChunk) (columns : list BCPColumnMetadata) (column_mapping : option (list Z)) : res bytes :=
  if (chunk_size chunk =? 0)%nat then Ok [] else
  states ← PrepareColumnStates chunk (chunk_size chunk) columns column_mapping;
  EncodeRows (chunk_size chunk) 0 columns states.

(** The two paths of [EncodeChunk]. *)
Lemma EncodeChunk_same `{Hugeint} `{Floats} `{DuckDB} {S : Simdutf} {Spec : SimdutfSpec S}
  (chunk : DataChunk) (columns : list BCPColumnMetadata) (column_mapping : option (list Z))
  (Hload : loadable (chunk_size chunk) chunk columns column_mapping)
  (Hexact : exact (chunk_size chunk) chunk columns column_mapping) :
  same (EncodeChunk chunk columns column_mapping) (EncodeChunk_rows chunk columns column_mapping).
Proof.
  unfold EncodeChunk, EncodeChunk_rows. destruct (chunk_size chunk =? 0)%nat; [done|]. set (n := chunk_size chunk) in *. destruct Hload as [Hm Hc].
  pose proof (PrepareColumnStates_each n chunk columns column_mapping (fun _ col st => vec st = None \/ exists v f, sourced n col st v f) 0) as Hprep.
  unfold PrepareColumnStates. destruct (PrepareColumnStates_from chunk n columns column_mapping 0) as [states|e|] eqn:E; cbn [mbind res_bind holds] in *; [|done|].
  2:{ apply Hprep; [done|]. intros j col Hj. destruct (Hc j col Hj). by apply (PrepareColumnState_sourced n chunk columns). }
  destruct Hprep as [Hlen Hst]; [done|intros j col Hj; destruct (Hc j col Hj); by apply (PrepareColumnState_sourced n chunk columns)|].
  assert (Hsrc : sources_ok n columns states).
  { apply Forall2_same_length_lookup_2; [done|]. intros j col st Hj Hj'. by apply (Hst j). }
  assert (Hsafe : EncodeRows n 0 columns states <> Oob).
  { pose proof (EncodeRows_loadable chunk columns column_mapping (conj Hm Hc)) as Hok. unfold PrepareColumnStates in Hok. fold n in Hok.
    rewrite E in Hok. by eapply holds_safe. }
  destruct (resolve_columns_spec n columns states Hsrc) as [Hnone|(cs & Hres & Hcs & Hf)].
  - assert (Et : TryEncodeChunkColumnar n columns states = Ok None) by (unfold TryEncodeChunkColumnar; rewrite Hnone; by case_bool_decide).
    rewrite Et. by apply same_self.
  - pose proof (TryEncode_spec n columns states cs Hres Hcs) as Htry. rewrite (EncodeRows_enc n columns states cs Hf) in * by done.
    destruct (TryEncodeChunkColumnar n columns states) as [[b|]|e|]; cbn [mbind res_bind]; [| |destruct Htry as (i & c & e' & Hi & Hin & Ec)|done].
    + destruct Htry as [Hall ->]. by rewrite enc_rows_all.
    + by apply same_self.
    + destruct (enc_rows_some cs n 0) as [e2 ->]; [|by exists i, c, e'|done].
      intros i' c' Hi' Hc'. eapply Forall_forall in Hcs; [|exact Hc']. by apply (column_len _ _ Hcs).
Qed.

(** C12. The columnar path of a bulk load is an optimisation and nothing else: for
    a chunk that the target table's columns take, [EncodeChunk] writes byte for
    byte what encoding it row by row writes, whichever path it takes (fixed
    stride, cursors, or the fallback), NULLs, conversions, cut text and all; it
    throws exactly where the row path throws; and no kernel reads outside the
    chunk or writes outside the room that was reserved. *)
Theorem EncodeChunk_rowwise `{Hugeint} `{Floats} `{DuckDB} {S : Simdutf} {Spec : SimdutfSpec S}
  (chunk : DataChunk) (columns : list BCPColumnMetadata) (column_mapping : option (list Z))
  (Hload : loadable (chunk_size chunk) chunk columns column_mapping)
  (Hexact : exact (chunk_size chunk) chunk columns column_mapping) :
  same (EncodeChunk chunk columns column_mapping) (EncodeChunk_rows chunk columns column_mapping).
Proof. by apply EncodeChunk_same. Qed.

(** ** The property at work *)

Lemma sample_exact : exact (H0 := Checked.floats) 2 sample_chunk sample_columns sample_mapping.
Proof.
  intros i col v row c Hi H0' Hv Hr [Hd Hc]. destruct i as [|[|[|i]]]; [injection Hi as <-; injection Hv as <-..|by cbn in H0'|done].
  - cbn in Hd. subst c. cbn. by repeat split.
  - cbn in Hd. subst c. by vm_compute.
Qed.

(** The chunk of [Rows_read_back_witness], by the cursor path. *)
Lemma EncodeChunk_rowwise_witness :
  EncodeChunk (H := Checked.hugeint) (H0 := Checked.floats) (H1 := Checked.duckdb) (H2 := RefSimdutf.simdutf) sample_chunk sample_columns sample_mapping = Ok sample_wire /\
  same (EncodeChunk (H := Checked.hugeint) (H0 := Checked.floats) (H1 := Checked.duckdb) (H2 := RefSimdutf.simdutf) sample_chunk sample_columns sample_mapping)
    (EncodeChunk_rows (H := Checked.hugeint) (H0 := Checked.floats) (H1 := Checked.duckdb) (H2 := RefSimdutf.simdutf) sample_chunk sample_columns sample_mapping).
Proof.
  split; [by vm_compute|].
  apply (EncodeChunk_rowwise (H := Checked.hugeint) (H0 := Checked.floats) (H1 := Checked.duckdb) (S := RefSimdutf.simdutf) (Spec := ref_simdutf_spec)
    sample_chunk sample_columns sample_mapping); [exact sample_loadable|exact sample_exact].
Defined.
