(* ===== verification/BcpWriter.v ===== *)
(** * The writer of a bulk load (src/src/copy/bcp_writer.cpp)

    [BCPWriter] turns the chunks of a COPY into one TDS message per batch:
    COLMETADATA, the rows, DONE. Rows are kept in an accumulator of which whole
    frames leave while the batch is still being encoded. A member function is a
    computation [W A] on the object; the connection in it is that of
    [Connection], whose computations [on_conn] lifts. The mutex, the frame
    buffer (overwritten before each use), the copy of the target, the debug
    output and the performance counters are left out. Theorems: [BcpWriterSpec]. *)

From S2P Require Import Prelude TdsTypes Utf16 Packet Socket Protocol Connection Values Encoding Codecs BcpRow Scatter.

Definition TOKEN_COLMETADATA : Z := 0x81.
Definition TOKEN_DONE : Z := 0xFD.
Definition DONE_COUNT : Z := 0x0010.
Definition CURCMD_INSERT : Z := 0x00C3.
Definition STREAM_BLOCK_CHUNKS : Z := 2.

(** ** Tokens *)

(** [WriteUTF16LEString]: one byte counts the code units. *)
Definition WriteUTF16LEString `{Simdutf} (str : bytes) : bytes :=
  let utf16_bytes := Utf16LEEncode str in
  z2b (zlen utf16_bytes / 2) :: utf16_bytes.

(** The type byte and what follows it; [None] for a type that is refused. *)
Definition type_info_token (col : BCPColumnMetadata) : option bytes :=
  let t := tds_type_token col in
  let width := [z2b (max_length col)] in
  if is_one_of t [TDS_TYPE_INTN] then Some (z2b t :: width)
  else if is_one_of t [TDS_TYPE_BITN] then Some [z2b t; z2b 1]
  else if is_one_of t [TDS_TYPE_FLOATN] then Some (z2b t :: width)
  else if is_one_of t [TDS_TYPE_DECIMAL; TDS_TYPE_NUMERIC] then
    Some (z2b t :: width ++ [z2b (precision col); z2b (scale col)])
  else if is_one_of t [TDS_TYPE_NVARCHAR; TDS_TYPE_BIGVARCHAR] then
    Some (z2b t :: put16le (max_length col) ++ ztake 5 (collation col))
  else if is_one_of t [TDS_TYPE_BIGVARBINARY] then Some (z2b t :: put16le (max_length col))
  else if is_one_of t [TDS_TYPE_UNIQUEIDENTIFIER] then Some [z2b t; z2b 16]
  else if is_one_of t [TDS_TYPE_XML] then
    Some (z2b TDS_TYPE_NVARCHAR :: put16le 0xFFFF ++ ztake 5 (collation col))
  else if is_one_of t [TDS_TYPE_DATE] then Some [z2b t]
  else if is_one_of t [TDS_TYPE_TIME; TDS_TYPE_DATETIME2; TDS_TYPE_DATETIMEOFFSET] then Some [z2b t; z2b (scale col)]
  else None.

(** The loop over the columns. After an exception the buffer keeps what was
    pushed before it. *)
Fixpoint put_columns `{Simdutf} (columns : list BCPColumnMetadata) (buffer : bytes) : option exn * bytes :=
  match columns with
  | [] => (None, buffer)
  | col :: columns =>
      let buffer := buffer ++ put32le 0 ++ put16le (GetFlags col) in
      match type_info_token col with
      | None => (Some (NotImplemented "MSSQL: Unsupported TDS type in COLMETADATA"), buffer ++ [z2b (tds_type_token col)])
      | Some info => put_columns columns (buffer ++ info ++ WriteUTF16LEString (Values.name col))
      end
  end.

Definition BuildColmetadataToken `{Simdutf} (columns : list BCPColumnMetadata) (buffer : bytes) : option exn * bytes :=
  put_columns columns (buffer ++ [z2b TOKEN_COLMETADATA] ++ put16le (zlen columns)).

Definition BuildDoneToken (row_count : Z) : bytes :=
  [z2b TOKEN_DONE] ++ put16le DONE_COUNT ++ put16le CURCMD_INSERT ++ put64le row_count.

(** ** The server's answer *)

Record BcpResponse : Type := mkBcpResponse {
  server_row_count : Z;
  found_done : bool;
  has_error : bool;
  error_message : bytes
}.

Definition no_response : BcpResponse := mkBcpResponse 0 false false [].

(** A [break] leaves the loop with what was found so far. *)
Inductive response_turn : Type :=
  | Stop (r : BcpResponse)
  | At (pos : Z) (r : BcpResponse).

(** [if (pos + n > response.size()) break;] *)
Definition want (response : bytes) (pos n : Z) (r : BcpResponse) (k : res response_turn) : res response_turn :=
  if zlen response <? pos + n then Ok (Stop r) else k.

(** ERROR, from behind its token byte: the length is read and not used. *)
Definition error_turn `{Simdutf} (response : bytes) (pos : Z) (r : BcpResponse) : res response_turn :=
  let r := mkBcpResponse (server_row_count r) (found_done r) true (error_message r) in
  want response pos 2 r (
  _ ← get16le response pos;
  let pos := pos + 2 in
  want response pos 4 r (let pos := pos + 4 in
  want response pos 1 r (let pos := pos + 1 in
  want response pos 1 r (let pos := pos + 1 in
  want response pos 2 r (
  msg_len ← get16le response pos;
  let pos := pos + 2 in
  want response pos (msg_len * 2) r (
  message ← slice response pos (msg_len * 2);
  let r := mkBcpResponse (server_row_count r) (found_done r) true (Utf16LEDecode message) in
  let pos := pos + msg_len * 2 in
  want response pos 1 r (
  server_len ← get8 response pos;
  let pos := pos + 1 + server_len * 2 in
  want response pos 1 r (
  proc_len ← get8 response pos;
  Ok (At (pos + 1 + proc_len * 2 + 4) r))))))))).

(** DONE and its variants: eight bytes are checked for, twelve are read. *)
Definition done_turn (response : bytes) (pos : Z) (r : BcpResponse) : res response_turn :=
  want response pos 8 r (
  status ← get16le response pos;
  let pos := pos + 4 in
  count ← get64le response pos;
  Ok (At (pos + 8) (mkBcpResponse count true (has_error r || negb (Z.land status 0x0002 =? 0)) (error_message r)))).

(** Any other token: a 16-bit length and as many bytes. *)
Definition skip_turn (response : bytes) (pos : Z) (r : BcpResponse) : res response_turn :=
  want response pos 2 r (length ← get16le response pos; Ok (At (pos + 2 + length) r)).

Definition response_step `{Simdutf} (response : bytes) (pos : Z) (r : BcpResponse) : res response_turn :=
  token ← get8 response pos;
  let pos := pos + 1 in
  if token =? 0xAA then error_turn response pos r
  else if is_one_of token [TOKEN_DONE; 0xFE; 0xFF] then done_turn response pos r
  else skip_turn response pos r.

(** Each turn takes at least one byte, so the fuel [scan_response] gives lasts. *)
Fixpoint response_loop `{Simdutf} (fuel : nat) (response : bytes) (pos : Z) (r : BcpResponse) : res BcpResponse :=
  match fuel with
  | O => Oob
  | Datatypes.S fuel =>
      if pos <? zlen response then
        turn ← response_step response pos r;
        match turn with Stop r => Ok r | At pos r => response_loop fuel response pos r end
      else Ok r
  end.

Definition scan_response `{Simdutf} (response : bytes) : res BcpResponse :=
  response_loop (Datatypes.S (length response)) response 0 no_response.

(** ** The object *)

Section Writer.
Context `{Hugeint} `{Floats} `{DuckDB} {Si : Simdutf} {T : Transport} {Au : Authenticator}.

Record BCPWriter : Type := mkBCPWriter {
  conn_ : TdsConnection;
  columns_ : list BCPColumnMetadata;
  column_mapping_ : list Z;
  colmetadata_sent_ : bool;
  rows_sent_ : Z;
  bytes_sent_ : Z;
  rows_in_batch_ : Z;
  packet_id_ : Z;
  accumulator_buffer_ : bytes;
  chunks_since_drain_ : Z
}.

Definition BCPWriter_new (conn : TdsConnection) (columns : list BCPColumnMetadata) (column_mapping : list Z) : BCPWriter :=
  mkBCPWriter conn columns column_mapping false 0 0 0 1 [] 0.

Definition set_conn (c : TdsConnection) (w : BCPWriter) : BCPWriter :=
  mkBCPWriter c (columns_ w) (column_mapping_ w) (colmetadata_sent_ w) (rows_sent_ w) (bytes_sent_ w)
    (rows_in_batch_ w) (packet_id_ w) (accumulator_buffer_ w) (chunks_since_drain_ w).
Definition set_sent (b : bool) (w : BCPWriter) : BCPWriter :=
  mkBCPWriter (conn_ w) (columns_ w) (column_mapping_ w) b (rows_sent_ w) (bytes_sent_ w)
    (rows_in_batch_ w) (packet_id_ w) (accumulator_buffer_ w) (chunks_since_drain_ w).
Definition set_rows (total batch : Z) (w : BCPWriter) : BCPWriter :=
  mkBCPWriter (conn_ w) (columns_ w) (column_mapping_ w) (colmetadata_sent_ w) total (bytes_sent_ w)
    batch (packet_id_ w) (accumulator_buffer_ w) (chunks_since_drain_ w).
Definition set_bytes_sent (n : Z) (w : BCPWriter) : BCPWriter :=
  mkBCPWriter (conn_ w) (columns_ w) (column_mapping_ w) (colmetadata_sent_ w) (rows_sent_ w) n
    (rows_in_batch_ w) (packet_id_ w) (accumulator_buffer_ w) (chunks_since_drain_ w).
Definition set_packet_id (n : Z) (w : BCPWriter) : BCPWriter :=
  mkBCPWriter (conn_ w) (columns_ w) (column_mapping_ w) (colmetadata_sent_ w) (rows_sent_ w) (bytes_sent_ w)
    (rows_in_batch_ w) n (accumulator_buffer_ w) (chunks_since_drain_ w).
Definition set_accumulator (b : bytes) (w : BCPWriter) : BCPWriter :=
  mkBCPWriter (conn_ w) (columns_ w) (column_mapping_ w) (colmetadata_sent_ w) (rows_sent_ w) (bytes_sent_ w)
    (rows_in_batch_ w) (packet_id_ w) b (chunks_since_drain_ w).
Definition set_chunks (n : Z) (w : BCPWriter) : BCPWriter :=
  mkBCPWriter (conn_ w) (columns_ w) (column_mapping_ w) (colmetadata_sent_ w) (rows_sent_ w) (bytes_sent_ w)
    (rows_in_batch_ w) (packet_id_ w) (accumulator_buffer_ w) n.

Definition W (A : Type) : Type := BCPWriter -> outcome A * BCPWriter.

#[global] Instance W_ret : MRet W := fun A a w => (Returns a, w).
#[global] Instance W_bind : MBind W := fun A B f m w =>
  match m w with
  | (Returns a, w) => f a w
  | (Throws e, w) => (Throws e, w)
  | (Running, w) => (Running, w)
  | (Undefined, w) => (Undefined, w)
  end.

Definition self : W BCPWriter := fun w => (Returns w, w).
Definition update (f : BCPWriter -> BCPWriter) : W unit := fun w => (Returns tt, f w).
Definition throw {A} (e : exn) : W A := fun w => (Throws e, w).
Definition undefined {A} : W A := fun w => (Undefined, w).
Definition on_conn {A} (m : M A) : W A := fun w => let '(a, c) := m (conn_ w) in (a, set_conn c w).

(** Fuel for the loops of the connection whose turns the peer decides, the
    clock, and what a chunk whose encoding throws has left in the accumulator
    (the encoder does not say; the batch is lost). *)
Context (fuel : nat) (now : net -> Z) (leftover : DataChunk -> bytes).

(** ** Frames *)

Definition uint64 (z : Z) : Z := z mod 18446744073709551616.

(** The eight header bytes and the payload, as far as the 16-bit length says. *)
Definition bulk_frame (last : bool) (packet_id : Z) (payload : bytes) : bytes :=
  let total := (TDS_HEADER_SIZE + zlen payload) mod 65536 in
  ztake total
    (bs [PacketType.BULK_LOAD; if last then 1 else 0; Z.land (Z.shiftr total 8) 0xFF; Z.land total 0xFF; 0; 0; packet_id; 0]
     ++ payload).

(** The [while], from [offset] on. A packet smaller than its header would be
    written outside the frame buffer. A turn that does not end the loop takes a
    byte at least, so the turns [WriteFrames] gives are never used up. *)
Fixpoint frame_loop (turns : nat) (data : bytes) (eom : bool) (offset : Z) : W unit :=
  match turns with
  | O => undefined
  | Datatypes.S turns =>
      let length := zlen data in
      if negb ((offset <? length) || ((length =? 0) && eom)) then mret tt else
      w ← self;
      let packet_size := negotiated_packet_size_ (conn_ w) in
      if packet_size <? TDS_HEADER_SIZE then undefined else
      let chunk := Z.min (packet_size - TDS_HEADER_SIZE) (length - offset) in
      let last := eom && (length <=? offset + chunk) in
      let total := (TDS_HEADER_SIZE + chunk) mod 65536 in
      _ ← update (fun w => set_packet_id ((packet_id_ w + 1) mod 256) w);
      sent ← on_conn (Send fuel (bulk_frame last (packet_id_ w) (ztake chunk (zdrop offset data))));
      if negb sent then
        _ ← on_conn (Connection.Close fuel now);
        throw (IOError "MSSQL: Failed to send BULK_LOAD frame")
      else
        _ ← update (fun w => set_bytes_sent (uint64 (bytes_sent_ w + total)) w);
        if chunk =? 0 then mret tt else frame_loop turns data eom (offset + chunk)
  end.

Definition WriteFrames (data : bytes) (eom : bool) : W unit :=
  frame_loop (Datatypes.S (length data)) data eom 0.

(** A packet of the size of its header is a division by zero. *)
Definition DrainWholeFrames : W unit :=
  w ← self;
  let max_payload := uint64 (negotiated_packet_size_ (conn_ w) - TDS_HEADER_SIZE) in
  if max_payload =? 0 then undefined else
  let sendable := zlen (accumulator_buffer_ w) / max_payload * max_payload in
  if sendable =? 0 then mret tt else
  _ ← WriteFrames (ztake sendable (accumulator_buffer_ w)) false;
  update (fun w => set_accumulator (zdrop sendable (accumulator_buffer_ w)) w).

(** ** Operations *)

Definition WriteColmetadata : W unit :=
  w ← self;
  if colmetadata_sent_ w then throw (InvalidInput "MSSQL: COLMETADATA already sent") else
  let '(failed, buffer) := BuildColmetadataToken (columns_ w) [] in
  _ ← update (set_accumulator buffer);
  match failed with
  | Some e => throw e
  | None => update (set_sent true)
  end.

Definition WriteRows (chunk : DataChunk) : W Z :=
  w ← self;
  if negb (colmetadata_sent_ w) then throw (InvalidInput "MSSQL: COLMETADATA must be sent before rows") else
  let rows_written := Z.of_nat (chunk_size chunk) in
  let mapping := match column_mapping_ w with [] => None | m => Some m end in
  let append b := update (set_accumulator (accumulator_buffer_ w ++ b)) in
  _ ← (match EncodeChunk chunk (columns_ w) mapping with
       | Ok b => append b
       | Exn e => _ ← append (leftover chunk); throw e
       | Oob => undefined
       end);
  let chunks := uint64 (chunks_since_drain_ w + 1) in
  _ ← (if STREAM_BLOCK_CHUNKS <=? chunks then _ ← update (set_chunks 0); DrainWholeFrames else update (set_chunks chunks));
  _ ← update (fun w => set_rows (uint64 (rows_sent_ w + rows_written)) (uint64 (rows_in_batch_ w + rows_written)) w);
  mret rows_written.

(** [BuildDoneToken] and [WriteFrames], of [WriteDone] and [FlushBatch]. *)
Definition send_done (row_count : Z) : W unit :=
  _ ← update (fun w => set_accumulator (accumulator_buffer_ w ++ BuildDoneToken row_count) w);
  w ← self;
  WriteFrames (accumulator_buffer_ w) true.

Definition WriteDone (row_count : Z) : W unit :=
  w ← self;
  if negb (colmetadata_sent_ w) then throw (InvalidInput "MSSQL: COLMETADATA must be sent before DONE")
  else send_done row_count.

Definition lift_res {A} (m : res A) : W A := match m with Ok a => mret a | Exn e => throw e | Oob => undefined end.

(** The connection is closed before each [throw] of its own. *)
Definition close_and_throw {A} (e : exn) : W A := _ ← on_conn (Connection.Close fuel now); throw e.

Definition bcp_failed (message : bytes) : exn :=
  InvalidInput ("MSSQL: BCP failed: " ++
    match message with [] => "Unknown SQL Server error during bulk load" | _ => String.string_of_list_byte message end)%string.

Definition Finalize : W Z :=
  received ← on_conn (ReceiveMessage fuel 30000);
  match received with
  | None => close_and_throw (IOError "MSSQL: Failed to receive BCP response")
  | Some response =>
      r ← lift_res (scan_response response);
      if has_error r then close_and_throw (bcp_failed (error_message r))
      else if negb (found_done r) then close_and_throw (IOError "MSSQL: Did not receive DONE token in BCP response")
      else
        _ ← on_conn (TransitionState Executing Idle);
        mret (server_row_count r)
  end.

Definition FlushBatch (row_count : Z) : W Z :=
  w ← self;
  if negb (colmetadata_sent_ w) then throw (InvalidInput "MSSQL: COLMETADATA must be sent before flush") else
  _ ← send_done row_count;
  Finalize.

Definition ResetForNextBatch : W unit :=
  update (fun w => set_rows (rows_sent_ w) 0 (set_sent false (set_chunks 0 (set_accumulator [] w)))).

Definition IsColmetadataSent (w : BCPWriter) : bool := colmetadata_sent_ w.
Definition GetRowsSent (w : BCPWriter) : Z := rows_sent_ w.
Definition GetBytesSent (w : BCPWriter) : Z := bytes_sent_ w.
Definition GetRowsInCurrentBatch (w : BCPWriter) : Z := rows_in_batch_ w.
Definition GetAccumulatorSize (w : BCPWriter) : Z := zlen (accumulator_buffer_ w).
End Writer.
