(* ===== verification/BcpWriterSpec.v ===== *)
(** * One message per batch (theorems about [BcpWriter])

    [wpw] is [wp] for the writer's computations. [streaming]: what has left and
    what the accumulator holds, together, are the message so far, whenever whole
    frames were drained. Main results: a batch is one TDS message, COLMETADATA,
    rows and DONE, and the readers of this library read it back; what [Finalize]
    makes of the server's answer, and the state it leaves the connection in. *)

From S2P Require Import Prelude TdsTypes Utf16 Packet Socket Values ColumnMetadata RowReader Protocol Connection ConnectionSpec Encoding Codecs CodecsSpec BcpRow BcpRowSpec Scatter ChunkSpec BcpWriter.

(** ** Reasoning about the writer's computations *)

Section Logic.
Context `{Hugeint} `{Floats} `{DuckDB} {Si : Simdutf} {T : Transport} {Au : Authenticator}.

Definition wpw {A} (m : W A) (w : BCPWriter) (Q : A -> BCPWriter -> Prop) (E : exn -> BCPWriter -> Prop) : Prop :=
  match m w with
  | (Returns a, w') => Q a w'
  | (Throws e, w') => E e w'
  | (Running, _) => True
  | (Undefined, _) => False
  end.

Lemma wpw_ret {A} (a : A) w (Q : A -> BCPWriter -> Prop) E : Q a w -> wpw (mret a) w Q E.
Proof. done. Qed.

Lemma wpw_throw {A} e w (Q : A -> BCPWriter -> Prop) (E : exn -> BCPWriter -> Prop) : E e w -> wpw (throw e) w Q E.
Proof. done. Qed.

Lemma wpw_bind {A B} (m : W A) (f : A -> W B) w Q E :
  wpw m w (fun a w' => wpw (f a) w' Q E) E -> wpw (m ≫= f) w Q E.
Proof. unfold wpw, mbind, W_bind. destruct (m w) as [[a|e| |] w']; done. Qed.

Lemma wpw_mono {A} (m : W A) w Q Q' E E' :
  wpw m w Q E -> (forall a w', Q a w' -> Q' a w') -> (forall e w', E e w' -> E' e w') -> wpw m w Q' E'.
Proof. unfold wpw. destruct (m w) as [[a|e| |] w']; auto. Qed.

Lemma wpw_self {B} (f : BCPWriter -> W B) w Q E : wpw (f w) w Q E -> wpw (w ← self; f w) w Q E.
Proof. done. Qed.

Lemma wpw_update {B} g (f : unit -> W B) w Q E : wpw (f tt) (g w) Q E -> wpw (update g ≫= f) w Q E.
Proof. done. Qed.

Lemma wpw_update_end g w (Q : unit -> BCPWriter -> Prop) E : Q tt (g w) -> wpw (update g) w Q E.
Proof. done. Qed.

Lemma wpw_on_conn {A} (m : M A) w Q E :
  wp m (conn_ w) (fun a c => Q a (set_conn c w)) (fun e c => E e (set_conn c w)) -> wpw (on_conn m) w Q E.
Proof. unfold wpw, wp, on_conn. by destruct (m (conn_ w)) as [[a|e| |] c]. Qed.

Lemma wpw_returns {A} (m : W A) w Q E a w' : wpw m w Q E -> m w = (Returns a, w') -> Q a w'.
Proof. unfold wpw. intros Hw E1. by rewrite E1 in Hw. Qed.

Lemma wpw_throws {A} (m : W A) w Q E e w' : wpw m w Q E -> m w = (Throws e, w') -> E e w'.
Proof. unfold wpw. intros Hw E1. by rewrite E1 in Hw. Qed.

(** The connection as the transport layer leaves it. *)
Definition sent_over (c c' : TdsConnection) : Prop := exists s, socket_ok s /\ c' = set_socket s c.

Lemma sent_over_refl c : conn_ok c -> sent_over c c.
Proof. intros Hok. exists (socket_ c). split; [apply Hok|by destruct c]. Qed.

Lemma sent_over_trans c1 c2 c3 : sent_over c1 c2 -> sent_over c2 c3 -> sent_over c1 c3.
Proof. intros (s1 & _ & ->) (s2 & Hs2 & ->). by exists s2. Qed.

Lemma sent_over_ok c c' : sent_over c c' -> conn_ok c -> conn_ok c'.
Proof. intros (s & Hs & ->) Hok. by apply set_socket_ok. Qed.

Definition wire (c : TdsConnection) : bytes := accepted (net_ (socket_ c)).
Definition max_payload (c : TdsConnection) : Z := negotiated_packet_size_ c - TDS_HEADER_SIZE.

Lemma sent_over_payload c c' : sent_over c c' -> max_payload c' = max_payload c.
Proof. by intros (s & _ & ->). Qed.

Lemma max_payload_range c : conn_ok c -> 0 < max_payload c <= TDS_MAX_PACKET_SIZE - TDS_HEADER_SIZE.
Proof. intros []. unfold max_payload, TDS_MIN_PACKET_SIZE, TDS_MAX_PACKET_SIZE, TDS_HEADER_SIZE in *. lia. Qed.

(** ** Packets of a batch *)

Definition bulk_packet (last : bool) (payload : bytes) : TdsPacket :=
  mkTdsPacket PacketType.BULK_LOAD (if last then 1 else 0) 0 0 0 payload.

(** A packet in the middle of a message is full. *)
Definition whole (limit : Z) (p : TdsPacket) : Prop := exists b, p = bulk_packet false b /\ zlen b = limit.
Definition final (limit : Z) (p : TdsPacket) : Prop := exists b, p = bulk_packet true b /\ zlen b <= limit.

Definition tail_of (limit : Z) (eom : bool) (ps : list TdsPacket) : Prop :=
  if eom then exists init last, ps = init ++ [last] /\ Forall (whole limit) init /\ final limit last
  else Forall (whole limit) ps.

Definition after (id : Z) (ps : list TdsPacket) : Z := Nat.iter (length ps) (fun i => (i + 1) mod 256) id.

Lemma after_cons id p ps : after id (p :: ps) = after ((id + 1) mod 256) ps.
Proof. unfold after. cbn [length]. by rewrite Nat.iter_succ_r. Qed.

Lemma after_app id ps qs : after id (ps ++ qs) = after (after id ps) qs.
Proof. revert id. induction ps as [|p ps IH]; intros id; [done|]. by rewrite <- app_comm_cons, !after_cons, IH. Qed.

Lemma number_packets_app id ps qs : number_packets id (ps ++ qs) = number_packets id ps ++ number_packets (after id ps) qs.
Proof.
  revert id. induction ps as [|p ps IH]; intros id; [done|]. rewrite <- app_comm_cons, after_cons. cbn [number_packets].
  by rewrite IH.
Qed.

Definition packets_wire (id : Z) (ps : list TdsPacket) : bytes := concat (Serialize <$> number_packets id ps).

Lemma packets_wire_cons id p ps : packets_wire id (p :: ps) = Serialize (SetPacketId id p) ++ packets_wire ((id + 1) mod 256) ps.
Proof. done. Qed.

Lemma packets_wire_app id ps qs : packets_wire id (ps ++ qs) = packets_wire id ps ++ packets_wire (after id ps) qs.
Proof. unfold packets_wire. by rewrite number_packets_app, fmap_app, concat_app. Qed.

Lemma bulk_frame_Serialize last id b : zlen b <= TDS_MAX_PACKET_SIZE - TDS_HEADER_SIZE ->
  bulk_frame last id b = Serialize (SetPacketId id (bulk_packet last b)).
Proof.
  unfold TDS_MAX_PACKET_SIZE, TDS_HEADER_SIZE. intros Hb. pose proof (zlen_nonneg b). unfold bulk_frame, TDS_HEADER_SIZE.
  set (total := (8 + zlen b) mod 65536). assert (Ht : total = 8 + zlen b) by (unfold total; apply Z.mod_small; lia).
  assert (Eb : bs [PacketType.BULK_LOAD; if last then 1 else 0; Z.land (Z.shiftr total 8) 0xFF; Z.land total 0xFF; 0; 0; id; 0] ++ b
    = Serialize (SetPacketId id (bulk_packet last b))) by done.
  rewrite Eb, Ht. rewrite <- (app_nil_r (Serialize _)) at 1. apply ztake_app_length. by rewrite zlen_Serialize.
Qed.

Lemma whole_message limit ps last : limit <= TDS_MAX_PACKET_SIZE - TDS_HEADER_SIZE ->
  Forall (whole limit) ps -> final limit last -> message_of (ps ++ [last]) (concat (payload_ <$> ps) ++ payload_ last).
Proof.
  intros Hl Hps (b & -> & Hb). assert (Hs : forall e b, zlen b <= limit -> sendable (bulk_packet e b)).
  { intros e b' Hb'. split; [unfold fits, bulk_packet; cbn [payload_]; lia|destruct e; cbn; lia]. }
  induction Hps as [|p ps (b' & -> & Hb') _ IH].
  - by apply (mo_last (bulk_packet true b)); [apply Hs|].
  - cbn [fmap list_fmap concat app]. rewrite <- app_assoc. apply (mo_more (bulk_packet false b')); [apply Hs; lia|done|exact IH].
Qed.
End Logic.

(** ** Sending frames *)

Section Frames.
Context `{Hugeint} `{Floats} `{DuckDB} {Si : Simdutf} {T : Transport} {Au : Authenticator}.
Context (fuel : nat) (now : net -> Z).

Record sent_frames (w : BCPWriter) (ps : list TdsPacket) (w' : BCPWriter) : Prop := {
  sf_conn : sent_over (conn_ w) (conn_ w');
  sf_wire : wire (conn_ w') = wire (conn_ w) ++ packets_wire (packet_id_ w) ps;
  sf_id : packet_id_ w' = after (packet_id_ w) ps;
  sf_bytes : uint64 (bytes_sent_ w') = uint64 (bytes_sent_ w + zlen (packets_wire (packet_id_ w) ps));
  sf_rest : w' = set_conn (conn_ w') (set_packet_id (packet_id_ w') (set_bytes_sent (bytes_sent_ w') w))
}.

Lemma uint64_add a b : uint64 (uint64 a + b) = uint64 (a + b).
Proof. unfold uint64. by rewrite Zplus_mod_idemp_l. Qed.

Lemma uint64_idem a : uint64 (uint64 a) = uint64 a.
Proof. unfold uint64. by rewrite Z.mod_mod. Qed.

Lemma uint64_shift a b c : uint64 a = uint64 b -> uint64 (a + c) = uint64 (b + c).
Proof. intros E. by rewrite <- uint64_add, E, uint64_add. Qed.

Lemma sent_none w : conn_ok (conn_ w) -> sent_frames w [] w.
Proof.
  intros Hok. constructor; [by apply sent_over_refl|by rewrite app_nil_r|done|by rewrite Z.add_0_r|by destruct w].
Qed.

Lemma sent_app w1 ps w2 qs w3 : sent_frames w1 ps w2 -> sent_frames w2 qs w3 -> sent_frames w1 (ps ++ qs) w3.
Proof.
  intros [C1 W1 I1 B1 R1] [C2 W2 I2 B2 R2]. constructor.
  - by eapply sent_over_trans.
  - by rewrite W2, W1, I1, packets_wire_app, app_assoc.
  - by rewrite I2, I1, after_app.
  - rewrite B2, packets_wire_app, zlen_app, <- I1, Z.add_assoc. by apply uint64_shift.
  - rewrite R2, R1. done.
Qed.

(** What an exception leaves: [e0] once the connection is closed, or what the
    close itself threw while it waited for the server. *)
Definition closed_by (e0 e : exn) (w : BCPWriter) : Prop :=
  conn_ok (conn_ w) /\ (e = e0 /\ state_ (conn_ w) = Disconnected \/ login_exn e /\ state_ (conn_ w) = Cancelling).

Lemma wp_Close c : conn_ok c ->
  wp (Connection.Close fuel now) c (fun _ c' => conn_ok c' /\ state_ c' = Disconnected)
    (fun e c' => conn_ok c' /\ login_exn e /\ state_ c' = Cancelling).
Proof.
  intros Hok. pose proof (refines_Close fuel 0 [] now c Hok) as Hr. unfold refines, run_op in Hr.
  unfold wp, mbind, M_bind in *. destruct (Connection.Close fuel now c) as [[[]|e| |] c']; [| |done..]; cbn in Hr.
  - destruct Hr as [H1' H2']. split; [done|]. destruct (state_ c); by destruct H2'.
  - destruct Hr as (H1' & H2' & H3'). split; [done|]. split; [done|]. destruct (state_ c); try by destruct H3'.
    by injection H3'.
Qed.

Lemma wpw_close_then {A} e0 w (Q : A -> BCPWriter -> Prop) : conn_ok (conn_ w) ->
  wpw (_ ← on_conn (Connection.Close fuel now); throw e0) w Q (closed_by e0).
Proof.
  intros Hok. apply wpw_bind, wpw_on_conn. eapply wp_mono; [by apply wp_Close|..].
  - intros [] c [H1' H2']. apply wpw_throw. split; [done|by left].
  - intros e c (H1' & H2' & H3'). split; [done|by right].
Qed.

Definition send_failure : exn := IOError "MSSQL: Failed to send BULK_LOAD frame".

(** One frame. *)
Lemma wpw_send_frame {A} (k : bool -> W A) w last b Q E : conn_ok (conn_ w) -> zlen b <= max_payload (conn_ w) ->
  (forall w1, sent_frames w [bulk_packet last b] (set_bytes_sent (uint64 (bytes_sent_ w1 + (TDS_HEADER_SIZE + zlen b) mod 65536)) w1) ->
     wpw (k true) w1 Q E) ->
  (forall w1, conn_ok (conn_ w1) -> wpw (k false) w1 Q E) ->
  wpw (_ ← update (fun w => set_packet_id ((packet_id_ w + 1) mod 256) w);
       sent ← on_conn (Send fuel (bulk_frame last (packet_id_ w) b)); k sent) w Q E.
Proof.
  intros Hok Hb Ht Hf. pose proof (max_payload_range _ Hok) as Hr. apply wpw_update, wpw_bind, wpw_on_conn.
  rewrite bulk_frame_Serialize by lia. set (p := bulk_packet last b) in *.
  eapply wp_mono; [apply (wp_Send fuel (Serialize (SetPacketId (packet_id_ w) p))); exact Hok| |done].
  intros ok c' [(s & Hs & Ec) (x & Ha & _ & Hx)]. cbn [set_packet_id conn_] in *. destruct ok.
  - apply Ht. rewrite (Hx eq_refl) in Ha. subst c'. constructor; cbn [set_packet_id set_bytes_sent set_conn packet_id_ conn_ bytes_sent_].
    + by exists s.
    + unfold packets_wire. cbn [number_packets fmap list_fmap concat]. rewrite app_nil_r. exact Ha.
    + done.
    + rewrite packets_wire_cons, zlen_app, zlen_Serialize. cbn [SetPacketId payload_ p bulk_packet]. unfold TDS_HEADER_SIZE, TDS_MAX_PACKET_SIZE in *.
      pose proof (zlen_nonneg b). rewrite (Z.mod_small (8 + _)) by lia. change (zlen (packets_wire _ [])) with 0. rewrite Z.add_0_r.
      unfold uint64. by rewrite Z.mod_mod.
    + done.
  - apply Hf. subst c'. by apply set_socket_ok.
Qed.

(** The loop from [offset] on: full packets, and with [eom] the last one. *)
Lemma wpw_frame_loop (data : bytes) (eom : bool) : forall turns offset w, conn_ok (conn_ w) ->
  0 <= offset <= zlen data -> zlen data - offset < Z.of_nat turns ->
  (if eom then offset < zlen data \/ zlen data = 0 else exists k, zlen data - offset = k * max_payload (conn_ w)) ->
  wpw (frame_loop fuel now turns data eom offset) w
    (fun _ w' => exists ps, sent_frames w ps w' /\ tail_of (max_payload (conn_ w)) eom ps /\ concat (payload_ <$> ps) = zdrop offset data)
    (closed_by send_failure).
Proof.
  induction turns as [|turns IH]; intros offset w Hok Ho Ht Hk; [lia|]. cbn [frame_loop]. cbv zeta.
  pose proof (max_payload_range _ Hok) as Hm. pose proof (ok_negotiated _ Hok) as Hn.
  destruct ((offset <? zlen data) || ((zlen data =? 0) && eom)) eqn:Eturn; cbn [negb].
  2:{ assert (offset = zlen data /\ eom = false) as [-> ->].
      { apply orb_false_iff in Eturn as [E1 E2]. destruct eom; [exfalso; rewrite andb_true_r in E2; lia|split; [lia|done]]. } apply wpw_ret. exists [].
      split; [by apply sent_none|]. split; [constructor|]. symmetry. apply zlen_0_nil. rewrite zlen_zdrop; lia. }
  apply wpw_self. rewrite (proj2 (Z.ltb_ge _ _)) by (unfold TDS_MIN_PACKET_SIZE, TDS_HEADER_SIZE in *; lia).
  set (limit := max_payload (conn_ w)) in *. change (negotiated_packet_size_ (conn_ w) - TDS_HEADER_SIZE) with limit.
  set (chunk := Z.min limit (zlen data - offset)). set (b := ztake chunk (zdrop offset data)).
  assert (Eb : zlen b = chunk) by (apply zlen_ztake; rewrite zlen_zdrop; lia).
  assert (Ed : zdrop offset data = b ++ zdrop (offset + chunk) data).
  { rewrite <- (ztake_zdrop chunk (zdrop offset data)) at 1. fold b. by rewrite zdrop_zdrop by lia. }
  set (last := eom && (zlen data <=? offset + chunk)).
  eapply wpw_send_frame; [done|fold b; lia| |].
  2:{ intros w1 Hok1. cbn [negb]. by apply wpw_close_then. }
  intros w1 Hs1. cbn [negb]. apply wpw_update. rewrite Eb in Hs1. set (w2 := set_bytes_sent _ w1) in *.
  assert (Hstep : forall ps w', sent_frames w2 ps w' -> sent_frames w (bulk_packet last b :: ps) w')
    by (intros ps w' Hps; exact (sent_app _ [_] _ _ _ Hs1 Hps)).
  assert (Hok2 : conn_ok (conn_ w2)) by (eapply sent_over_ok; [apply Hs1|done]).
  destruct (Z.eqb_spec chunk 0) as [Ez|Ez].
  { destruct eom; [|simpl in Eturn; lia]. apply wpw_ret. exists [bulk_packet last b]. split; [by apply Hstep, sent_none|].
    unfold last. rewrite (proj2 (Z.leb_le _ _)) by lia. split; [exists [], (bulk_packet true b); split_and!; [done..|]; exists b; split; [done|lia]|].
    rewrite Ed, (zlen_0_nil (zdrop (offset + chunk) data)) by (rewrite zlen_zdrop; lia). done. }
  destruct (Z.leb_spec (zlen data) (offset + chunk)) as [Hend|Hmore]; unfold last in *.
  - destruct turns as [|turns]; [lia|]. cbn [frame_loop]. cbv zeta. rewrite (proj2 (Z.ltb_ge _ _)) by lia.
    rewrite (proj2 (Z.eqb_neq (zlen data) 0)) by lia. cbn [orb andb negb]. apply wpw_ret. exists [bulk_packet (eom && true) b].
    split; [by apply Hstep, sent_none|]. split.
    + destruct eom; simpl; [exists [], (bulk_packet true b); split_and!; [done..|]; exists b; split; [done|lia]|].
      constructor; [|done]. exists b. split; [done|]. destruct Hk as [k Hk]. assert (k = 1) by nia. lia.
    + rewrite Ed, (zlen_0_nil (zdrop (offset + chunk) data)) by (rewrite zlen_zdrop; lia). done.
  - eapply wpw_mono; [apply IH; [done|lia|lia|]| |done].
    + rewrite (sent_over_payload _ _ (sf_conn _ _ _ Hs1)). fold limit. destruct eom; [lia|]. destruct Hk as [k Hk].
      exists (k - 1). lia.
    + rewrite (sent_over_payload _ _ (sf_conn _ _ _ Hs1)). fold limit. intros _ w' (ps & Hps & Htail & Hcat).
      exists (bulk_packet (eom && false) b :: ps). split; [by apply Hstep|]. rewrite andb_false_r.
      assert (Hwhole : whole limit (bulk_packet false b)) by (exists b; split; [done|lia]). split.
      * destruct eom; [|by constructor]. destruct Htail as (init & p & -> & Hi & Hp). exists (bulk_packet false b :: init), p.
        split_and!; [done|by constructor|done].
      * cbn [fmap list_fmap concat]. rewrite Ed. by f_equal.
Qed.

Lemma wpw_WriteFrames (data : bytes) (eom : bool) w : conn_ok (conn_ w) ->
  (if eom then True else exists k, zlen data = k * max_payload (conn_ w)) ->
  wpw (WriteFrames fuel now data eom) w
    (fun _ w' => exists ps, sent_frames w ps w' /\ tail_of (max_payload (conn_ w)) eom ps /\ concat (payload_ <$> ps) = data)
    (closed_by send_failure).
Proof.
  intros Hok Hk. pose proof (zlen_nonneg data). pose proof (wpw_frame_loop data eom (Datatypes.S (length data)) 0 w) as Hf.
  rewrite zdrop_0 in Hf. apply Hf; [done|lia|unfold zlen; lia|].
  rewrite Z.sub_0_r. destruct eom; [lia|done].
Qed.

(** ** The message so far *)

(** Since [w0], [n] rows have gone into a message that so far is [m]. *)
Record streaming (w0 : BCPWriter) (m : bytes) (n : Z) (w : BCPWriter) : Prop := {
  st_frames : exists ps, Forall (whole (max_payload (conn_ w0))) ps /\ m = concat (payload_ <$> ps) ++ accumulator_buffer_ w /\
    wire (conn_ w) = wire (conn_ w0) ++ packets_wire (packet_id_ w0) ps /\ packet_id_ w = after (packet_id_ w0) ps /\
    uint64 (bytes_sent_ w) = uint64 (bytes_sent_ w0 + zlen (packets_wire (packet_id_ w0) ps));
  st_conn : sent_over (conn_ w0) (conn_ w);
  st_columns : columns_ w = columns_ w0 /\ column_mapping_ w = column_mapping_ w0;
  st_sent : colmetadata_sent_ w = true;
  st_rows : uint64 (rows_sent_ w) = uint64 (rows_sent_ w0 + n);
  st_batch : uint64 (rows_in_batch_ w) = uint64 (rows_in_batch_ w0 + n)
}.

Lemma streaming_ok w0 m n w : conn_ok (conn_ w0) -> streaming w0 m n w -> conn_ok (conn_ w).
Proof. intros Hok Hs. by eapply sent_over_ok; [apply Hs|]. Qed.

Lemma streaming_payload w0 m n w : streaming w0 m n w -> max_payload (conn_ w) = max_payload (conn_ w0).
Proof. intros Hs. apply sent_over_payload, Hs. Qed.

(** Frames that leave are taken off the accumulator. *)
Lemma streaming_drained w0 m n w ps w' rest : streaming w0 m n w -> sent_frames w ps w' ->
  Forall (whole (max_payload (conn_ w0))) ps -> accumulator_buffer_ w = concat (payload_ <$> ps) ++ rest ->
  streaming w0 m n (set_accumulator rest w').
Proof.
  intros [(qs & Hqs & Em & Ew & Ei & Eb) Hc Hcol Hsent Hr Hn] Hs Hps Ea.
  pose proof (sf_rest _ _ _ Hs) as Er. constructor; try (rewrite Er; cbn; done).
  - exists (qs ++ ps). split; [by apply Forall_app|]. cbn [set_accumulator accumulator_buffer_ conn_ packet_id_ bytes_sent_].
    rewrite fmap_app, concat_app, <- app_assoc, <- Ea. split; [done|].
    rewrite (sf_wire _ _ _ Hs), (sf_id _ _ _ Hs), (sf_bytes _ _ _ Hs), Ew, Ei, packets_wire_app, after_app, zlen_app, app_assoc.
    split_and!; [done..|]. rewrite Z.add_assoc. by apply uint64_shift.
  - cbn. eapply sent_over_trans; [exact Hc|apply Hs].
Qed.

Lemma wpw_DrainWholeFrames w0 m n w : conn_ok (conn_ w0) -> streaming w0 m n w ->
  wpw (DrainWholeFrames fuel now) w
    (fun _ w' => streaming w0 m n w' /\ zlen (accumulator_buffer_ w') < max_payload (conn_ w0) /\ chunks_since_drain_ w' = chunks_since_drain_ w)
    (closed_by send_failure).
Proof.
  intros Hok0 Hs. pose proof (streaming_ok _ _ _ _ Hok0 Hs) as Hok. pose proof (max_payload_range _ Hok) as Hm.
  rewrite <- (streaming_payload _ _ _ _ Hs). set (limit := max_payload (conn_ w)) in *.
  apply wpw_self. cbv zeta. change (negotiated_packet_size_ (conn_ w) - TDS_HEADER_SIZE) with limit.
  unfold uint64. rewrite (Z.mod_small limit) by (unfold TDS_MAX_PACKET_SIZE, TDS_HEADER_SIZE in *; lia).
  rewrite (proj2 (Z.eqb_neq _ _)) by lia. set (a := accumulator_buffer_ w). set (sendable := zlen a / limit * limit).
  assert (Hq : 0 <= sendable <= zlen a /\ zlen a - sendable < limit).
  { pose proof (zlen_nonneg a). unfold sendable. pose proof (Z.div_mod (zlen a) limit). pose proof (Z.mod_pos_bound (zlen a) limit).
    pose proof (Z.div_pos (zlen a) limit). nia. }
  destruct (Z.eqb_spec sendable 0) as [E0|E0]; [apply wpw_ret; split_and!; [done|fold a; lia|done]|].
  apply wpw_bind. eapply wpw_mono; [apply wpw_WriteFrames; [done|]| |done].
  { exists (zlen a / limit). fold limit. by rewrite zlen_ztake by lia. }
  intros _ w' (ps & Hps & Hw & Hcat). cbn [tail_of] in Hw. pose proof (sf_rest _ _ _ Hps) as Er.
  apply wpw_update_end.
  assert (Ea : accumulator_buffer_ w' = a) by (by rewrite Er). split_and!.
  - rewrite Ea. eapply streaming_drained; [exact Hs|exact Hps|by rewrite <- (streaming_payload _ _ _ _ Hs)|]. by rewrite Hcat, ztake_zdrop.
  - cbn. rewrite Ea, zlen_zdrop; lia.
  - by rewrite Er.
Qed.
End Frames.

(** ** A batch *)

Section Batch.
Context `{Hugeint} `{Floats} `{DuckDB} {Si : Simdutf} {T : Transport} {Au : Authenticator}.
Context (fuel : nat) (now : net -> Z) (leftover : DataChunk -> bytes).

Definition mapping_of (w : BCPWriter) : option (list Z) := match column_mapping_ w with [] => None | m => Some m end.
Definition encodes (w : BCPWriter) (chunk : DataChunk) : res bytes := EncodeChunk chunk (columns_ w) (mapping_of w).

(** The calls a COPY makes for one batch. *)
Fixpoint write_chunks (chunks : list DataChunk) : W unit :=
  match chunks with
  | [] => mret tt
  | chunk :: chunks => _ ← WriteRows fuel now leftover chunk; write_chunks chunks
  end.

Definition write_batch (chunks : list DataChunk) (row_count : Z) : W unit :=
  _ ← WriteColmetadata;
  _ ← write_chunks chunks;
  WriteDone fuel now row_count.

Fixpoint total_rows (chunks : list DataChunk) : Z :=
  match chunks with [] => 0 | chunk :: chunks => Z.of_nat (chunk_size chunk) + total_rows chunks end.

(** How a batch fails: a type COLMETADATA cannot announce, a value the encoder
    refuses, or a send that failed. Only the last says anything to the server,
    and it closes the connection. *)
Definition batch_fails (w0 : BCPWriter) (chunks : list DataChunk) (e : exn) (w : BCPWriter) : Prop :=
  (BuildColmetadataToken (columns_ w0) []).1 = Some e /\ conn_ w = conn_ w0 \/
  (exists chunk, chunk ∈ chunks /\ encodes w0 chunk = Exn e) /\ sent_over (conn_ w0) (conn_ w) \/
  closed_by send_failure e w.

Lemma wpw_WriteColmetadata w : conn_ok (conn_ w) -> colmetadata_sent_ w = false ->
  wpw WriteColmetadata w
    (fun _ w' => exists token, BuildColmetadataToken (columns_ w) [] = (None, token) /\ streaming w token 0 w')
    (fun e w' => (BuildColmetadataToken (columns_ w) []).1 = Some e /\ conn_ w' = conn_ w).
Proof.
  intros Hok Hs. apply wpw_self. rewrite Hs. destruct (BuildColmetadataToken (columns_ w) []) as [[e|] token].
  - by apply wpw_update, wpw_throw.
  - apply wpw_update, wpw_update_end. exists token. split; [done|]. constructor; try done; cbn.
    + exists []. split; [constructor|]. split; [done|]. change (packets_wire _ []) with (@nil Byte.byte). by rewrite app_nil_r, Z.add_0_r.
    + by apply sent_over_refl.
    + by rewrite Z.add_0_r.
    + by rewrite Z.add_0_r.
Qed.

Lemma streaming_append w0 m n w b : streaming w0 m n w ->
  streaming w0 (m ++ b) n (set_accumulator (accumulator_buffer_ w ++ b) w).
Proof.
  intros [(ps & Hps & -> & Hrest) ? ? ? ? ?]. constructor; try done. exists ps. split; [done|]. by rewrite <- app_assoc.
Qed.

Lemma streaming_chunks w0 m n w k : streaming w0 m n w -> streaming w0 m n (set_chunks k w).
Proof. by intros []. Qed.

Lemma wpw_WriteRows w0 m n w chunk : conn_ok (conn_ w0) -> streaming w0 m n w -> encodes w0 chunk <> Oob ->
  wpw (WriteRows fuel now leftover chunk) w
    (fun k w' => k = Z.of_nat (chunk_size chunk) /\ exists b, encodes w0 chunk = Ok b /\ streaming w0 (m ++ b) (n + k) w')
    (fun e w' => encodes w0 chunk = Exn e /\ sent_over (conn_ w0) (conn_ w') \/ closed_by send_failure e w').
Proof.
  intros Hok Hs He. pose proof (st_columns _ _ _ _ Hs) as [Ec Em]. apply wpw_self. rewrite (st_sent _ _ _ _ Hs). cbn [negb]. cbv zeta.
  assert (E : EncodeChunk chunk (columns_ w) (match column_mapping_ w with [] => None | mp => Some mp end) = encodes w0 chunk)
    by (unfold encodes, mapping_of; by rewrite Ec, Em).
  rewrite E. destruct (encodes w0 chunk) as [b|e|]; [| |done].
  2:{ apply wpw_bind, wpw_update, wpw_throw. left. split; [done|]. cbn. apply Hs. }
  apply wpw_bind, wpw_update_end. pose proof (streaming_append _ _ _ _ b Hs) as Hs1. set (w1 := set_accumulator _ w) in *.
  apply wpw_bind. apply (wpw_mono _ _ (fun _ w' => streaming w0 (m ++ b) n w') _ (closed_by send_failure)); [| |by right].
  - destruct (STREAM_BLOCK_CHUNKS <=? _); [|by apply wpw_update_end, streaming_chunks]. apply wpw_update.
    eapply wpw_mono; [apply (wpw_DrainWholeFrames fuel now w0 (m ++ b) n); [done|by apply streaming_chunks]|by intros ? ? []|done].
  - intros _ w2 Hs2. apply wpw_update, wpw_ret. split; [done|]. exists b. split; [done|].
    destruct Hs2. constructor; try done; cbn [set_rows rows_sent_ rows_in_batch_]; rewrite uint64_idem, Z.add_assoc; by apply uint64_shift.
Qed.

Lemma wpw_write_chunks w0 : conn_ok (conn_ w0) -> forall chunks m n w, streaming w0 m n w ->
  (forall chunk, chunk ∈ chunks -> encodes w0 chunk <> Oob) ->
  wpw (write_chunks chunks) w
    (fun _ w' => exists bs, Forall2 (fun chunk b => encodes w0 chunk = Ok b) chunks bs /\ streaming w0 (m ++ concat bs) (n + total_rows chunks) w')
    (fun e w' => (exists chunk, chunk ∈ chunks /\ encodes w0 chunk = Exn e) /\ sent_over (conn_ w0) (conn_ w') \/ closed_by send_failure e w').
Proof.
  intros Hok. induction chunks as [|chunk chunks IH]; intros m n w Hs He; cbn [write_chunks total_rows].
  - apply wpw_ret. exists []. rewrite app_nil_r, Z.add_0_r. by split; [constructor|].
  - apply wpw_bind. eapply wpw_mono; [apply (wpw_WriteRows w0 m n); [done..|apply He; left]| |].
    + intros k w1 (-> & b & Eb & Hs1). eapply wpw_mono; [apply (IH _ _ _ Hs1)| |].
      * intros c Hc. apply He. by right.
      * intros _ w2 (bs & Hbs & Hs2). exists (b :: bs). split; [by constructor|]. cbn [concat]. by rewrite app_assoc, Z.add_assoc.
      * intros e w2 [[(c & Hc & Ee) Ho]|Hcl]; [|by right]. left. split; [|done]. exists c. split; [by right|done].
    + intros e w1 [[Ee Ho]|Hcl]; [|by right]. left. split; [|done]. exists chunk. split; [left|done].
Qed.

(** DONE, the rest of the accumulator, and the end of the message. *)
Definition batch_sent (w0 : BCPWriter) (m : bytes) (n : Z) (w : BCPWriter) : Prop :=
  exists ps, message_of ps m /\ tail_of (max_payload (conn_ w0)) true ps /\
    wire (conn_ w) = wire (conn_ w0) ++ packets_wire (packet_id_ w0) ps /\ packet_id_ w = after (packet_id_ w0) ps /\
    uint64 (bytes_sent_ w) = uint64 (bytes_sent_ w0 + zlen (packets_wire (packet_id_ w0) ps)) /\
    uint64 (rows_sent_ w) = uint64 (rows_sent_ w0 + n) /\ sent_over (conn_ w0) (conn_ w).

Lemma wpw_send_done w0 m n w row_count : conn_ok (conn_ w0) -> streaming w0 m n w ->
  wpw (send_done fuel now row_count) w (fun _ w' => batch_sent w0 (m ++ BuildDoneToken row_count) n w') (closed_by send_failure).
Proof.
  intros Hok Hs. pose proof (max_payload_range _ Hok) as Hl. unfold send_done. apply wpw_update, wpw_self.
  pose proof (streaming_append _ _ _ _ (BuildDoneToken row_count) Hs) as Hs1. set (w1 := set_accumulator _ w) in *.
  eapply wpw_mono; [apply wpw_WriteFrames; [by eapply streaming_ok|done]| |done].
  intros _ w2 (ps & Hps & (init & last & -> & Hi & Hf) & Hcat). rewrite (streaming_payload _ _ _ _ Hs1) in *.
  destruct Hs1 as [(qs & Hqs & -> & Ew & Ei & Eb) Hconn _ _ Hr _]. exists (qs ++ init ++ [last]). split_and!.
  - rewrite <- Hcat, app_assoc, fmap_app, concat_app. cbn [fmap list_fmap concat]. rewrite app_nil_r, app_assoc, <- concat_app, <- fmap_app.
    eapply whole_message; [|by apply Forall_app|exact Hf]. lia.
  - exists (qs ++ init), last. split; [by rewrite app_assoc|]. by split; [apply Forall_app|].
  - by rewrite (sf_wire _ _ _ Hps), Ew, Ei, (packets_wire_app _ qs), app_assoc.
  - by rewrite (sf_id _ _ _ Hps), Ei, (after_app _ qs).
  - rewrite (sf_bytes _ _ _ Hps), Ei, (packets_wire_app _ qs), zlen_app, Z.add_assoc. by apply uint64_shift.
  - rewrite <- Hr. by rewrite (sf_rest _ _ _ Hps).
  - eapply sent_over_trans; [exact Hconn|apply Hps].
Qed.

Lemma wpw_write_batch w0 chunks row_count : conn_ok (conn_ w0) -> colmetadata_sent_ w0 = false ->
  (forall chunk, chunk ∈ chunks -> encodes w0 chunk <> Oob) ->
  wpw (write_batch chunks row_count) w0
    (fun _ w => exists token bs, BuildColmetadataToken (columns_ w0) [] = (None, token) /\
       Forall2 (fun chunk b => encodes w0 chunk = Ok b) chunks bs /\
       batch_sent w0 (token ++ concat bs ++ BuildDoneToken row_count) (total_rows chunks) w)
    (batch_fails w0 chunks).
Proof.
  intros Hok Hs He. apply wpw_bind. eapply wpw_mono; [by apply wpw_WriteColmetadata| |by left].
  intros _ w1 (token & Et & Hs1). apply wpw_bind. eapply wpw_mono; [by apply (wpw_write_chunks w0 Hok chunks token 0)| |by right].
  intros _ w2 (bs & Hbs & Hs2). unfold WriteDone. apply wpw_self. rewrite (st_sent _ _ _ _ Hs2). cbn [negb].
  eapply wpw_mono; [by apply wpw_send_done|..].
  - intros [] w3 Hw3. exists token, bs. split; [done|]. split; [done|]. rewrite app_assoc. exact Hw3.
  - intros e w3 Hc. by right; right.
Qed.
End Batch.

(** ** The server's answer *)

Section Answer.
Context {Si : Simdutf}.

Definition with_error (message : bytes) (r : BcpResponse) : BcpResponse :=
  mkBcpResponse (server_row_count r) (found_done r) true message.
Definition with_done (count status : Z) (r : BcpResponse) : BcpResponse :=
  mkBcpResponse count true (has_error r || negb (Z.land status 0x0002 =? 0)) (error_message r).

Definition answer_types : list Z := [TOKEN_DONE; 0xFE; 0xFF].

(** [answer r w r']: the tokens of [w], read after [r], make [r']. *)
Inductive answer : BcpResponse -> bytes -> BcpResponse -> Prop :=
  | answer_end r : answer r [] r
  | answer_error r l0 l1 num st cl m0 m1 msg sl server pl proc line rest r' :
      zlen num = 4 -> zlen msg = 2 * le16 m0 m1 -> zlen server = 2 * b2z sl -> zlen proc = 2 * b2z pl -> zlen line = 4 ->
      answer (with_error (Utf16LEDecode msg) r) rest r' ->
      answer r (z2b 0xAA :: l0 :: l1 :: num ++ st :: cl :: m0 :: m1 :: msg ++ sl :: server ++ pl :: proc ++ line ++ rest) r'
  | answer_done r t s0 s1 c0 c1 n0 n1 n2 n3 n4 n5 n6 n7 rest r' :
      b2z t ∈ answer_types ->
      answer (with_done (le32 n0 n1 n2 n3 + 2 ^ 32 * le32 n4 n5 n6 n7) (le16 s0 s1) r) rest r' ->
      answer r (t :: s0 :: s1 :: c0 :: c1 :: n0 :: n1 :: n2 :: n3 :: n4 :: n5 :: n6 :: n7 :: rest) r'
  | answer_other r t l0 l1 body rest r' :
      b2z t <> 0xAA -> b2z t ∉ answer_types -> zlen body = le16 l0 l1 -> answer r rest r' ->
      answer r (t :: l0 :: l1 :: body ++ rest) r'.

(** A DONE cut between its eighth and its twelfth byte. *)
Definition cut_done (data : bytes) : Prop :=
  exists p t b, data = p ++ t :: b /\ b2z t ∈ answer_types /\ 8 <= zlen b < 12.

Lemma want_enough data pos n r k rest : cursor data pos rest -> n <= zlen rest -> want data pos n r k = k.
Proof. intros Hc Hn. apply cursor_len in Hc. unfold want. by rewrite (proj2 (Z.ltb_ge _ _)) by lia. Qed.

Lemma holds_want data pos n r k Q : Q (Stop r) -> (pos + n <= zlen data -> holds k Q) -> holds (want data pos n r k) Q.
Proof. intros HQ Hk. unfold want. by destruct (Z.ltb_spec (zlen data) (pos + n)); [|apply Hk]. Qed.

(** A turn reads inside the response and takes a byte, unless a DONE is cut. *)
Definition goes_on (pos : Z) (t : response_turn) : Prop := match t with At pos' _ => pos < pos' | Stop _ => True end.

Lemma error_turn_safe data pos r : 0 <= pos -> holds (error_turn data pos r) (goes_on (pos - 1)).
Proof.
  intros Hp. unfold error_turn. cbv zeta.
  repeat match goal with
  | |- holds (want _ _ _ _ _) _ => apply holds_want; [done|intros ?]
  | |- holds (_ ≫= _) _ => apply holds_bind
  | |- holds (get8 _ _) _ => apply holds_get8; [lia|intros ? ?]
  | |- holds (get16le _ _) _ => apply holds_get16le; [lia..|intros ? ?]
  | |- holds (slice _ _ _) _ => apply holds_slice; [lia..|intros ? ?]
  end. cbn. lia.
Qed.

Lemma response_step_safe data pos r : 0 <= pos < zlen data -> cut_done data \/ holds (response_step data pos r) (goes_on pos).
Proof.
  intros Hp. destruct (cursor_at data pos) as [_ Ec]; [lia|]. pose proof (zlen_zdrop pos data ltac:(lia)) as El.
  destruct (zdrop pos data) as [|t b] eqn:Ed; [rewrite zlen_nil in El; lia|]. rewrite zlen_cons in El.
  assert (Hc : cursor data pos (t :: b)) by (rewrite <- Ed; by apply cursor_at; lia).
  apply cursor_cons in Hc as [Et _]. unfold response_step. rewrite Et. cbn [mbind res_bind]. cbv zeta.
  destruct (b2z t =? 0xAA).
  { right. eapply holds_mono; [apply error_turn_safe; lia|]. intros [|]; cbn; [done|lia]. }
  fold answer_types. destruct (is_one_of (b2z t) answer_types) eqn:Ea.
  - unfold done_turn. destruct (decide (8 <= zlen b < 12)) as [Hcut|Hcut].
    + left. exists (ztake pos data), t, b. split; [by rewrite <- Ed, ztake_zdrop|]. by split; [apply is_one_of_elem|].
    + right. apply holds_want; [done|intros Hl]. apply holds_bind, holds_get16le; [lia..|]. intros st _.
      apply holds_bind, holds_get64le; [lia..|]. intros n _. cbn. lia.
  - right. unfold skip_turn. apply holds_want; [done|intros Hl]. apply holds_bind, holds_get16le; [lia..|]. intros n Hn. cbn. lia.
Qed.

Lemma response_loop_safe data : forall fuel pos r, 0 <= pos -> zlen data - pos < Z.of_nat fuel ->
  (0 < fuel)%nat -> cut_done data \/ holds (response_loop fuel data pos r) (fun _ => True).
Proof.
  induction fuel as [|fuel IH]; intros pos r Hp Hf H0'; [lia|]. cbn [response_loop].
  destruct (Z.ltb_spec pos (zlen data)); [|by right]. destruct (response_step_safe data pos r) as [Hd|Hs]; [done|by left|].
  destruct (response_step data pos r) as [[r'|pos' r']|e|]; [by right| |by right|done].
  cbn in Hs. apply IH; lia.
Qed.

Lemma scan_response_cut data : scan_response data = Oob -> cut_done data.
Proof.
  intros E. destruct (response_loop_safe data (Datatypes.S (length data)) 0 no_response) as [Hd|Hs]; [lia|unfold zlen; lia|lia|done|].
  unfold scan_response in E. by rewrite E in Hs.
Qed.

Lemma response_throws data fuel pos r : throws_only (fun _ => False) (response_loop fuel data pos r).
Proof.
  revert pos r. induction fuel as [|fuel IH]; intros pos r; cbn [response_loop]; [done|]. apply throws_if; intros _; [|done].
  apply throws_bind; [|intros [|]; [done|apply IH]]. unfold response_step, error_turn, done_turn, skip_turn, want. cbv zeta.
  repeat match goal with
  | |- throws_only _ (if _ then _ else _) => apply throws_if; intros _
  | |- throws_only _ (_ ≫= _) => apply throws_bind; [|intros ?]
  end; auto with tds; done.
Qed.

Lemma cursor_get64le data off n0 n1 n2 n3 n4 n5 n6 n7 r :
  cursor data off (n0 :: n1 :: n2 :: n3 :: n4 :: n5 :: n6 :: n7 :: r) ->
  get64le data off = Ok (le32 n0 n1 n2 n3 + 2 ^ 32 * le32 n4 n5 n6 n7) /\ cursor data (off + 8) r.
Proof.
  intros [E1 Hc]%cursor_get32le. apply cursor_get32le in Hc as [E2 Hc]. unfold get64le. rewrite E1. cbn [mbind res_bind].
  rewrite E2. cbn [mbind res_bind]. pose proof (le32_range n0 n1 n2 n3). rewrite lor_shiftl_add by lia.
  split; [f_equal; lia|]. by replace (off + 8) with (off + 4 + 4) by lia.
Qed.

Ltac want_eval := rewrite (want_enough _ _ _ _ _ _ ltac:(eassumption)) by (rewrite ?zlen_cons, ?zlen_app; lia).

Lemma error_turn_complete data pos r l0 l1 num st cl m0 m1 msg sl server pl proc line rest :
  cursor data pos (l0 :: l1 :: num ++ st :: cl :: m0 :: m1 :: msg ++ sl :: server ++ pl :: proc ++ line ++ rest) ->
  zlen num = 4 -> zlen msg = 2 * le16 m0 m1 -> zlen server = 2 * b2z sl -> zlen proc = 2 * b2z pl -> zlen line = 4 ->
  exists pos', error_turn data pos r = Ok (At pos' (with_error (Utf16LEDecode msg) r)) /\ cursor data pos' rest.
Proof.
  intros Hc Hn Hm Hs Hp Hl. pose proof (zlen_nonneg rest). pose proof (zlen_nonneg msg). pose proof (zlen_nonneg server). pose proof (zlen_nonneg proc).
  assert (Hlen := cursor_len _ _ _ Hc). rewrite !zlen_cons, !zlen_app, !zlen_cons, !zlen_app, !zlen_cons, !zlen_app, !zlen_cons, !zlen_app in Hlen.
  unfold error_turn, want. cbv zeta.
  rewrite (proj2 (Z.ltb_ge _ _)) by lia. apply cursor_get16le in Hc as [-> Hc]. cbn [mbind res_bind].
  apply cursor_app in Hc. rewrite Hn in Hc. apply cursor_cons in Hc as [_ Hc]. apply cursor_cons in Hc as [_ Hc].
  do 4 (rewrite (proj2 (Z.ltb_ge _ _)) by lia). apply cursor_get16le in Hc as [-> Hc]. cbn [mbind res_bind].
  rewrite (proj2 (Z.ltb_ge _ _)) by lia. rewrite (cursor_slice _ _ msg _ _ Hc) by lia. cbn [mbind res_bind].
  apply cursor_app in Hc. replace (le16 m0 m1 * 2) with (zlen msg) by lia.
  rewrite (proj2 (Z.ltb_ge _ _)) by lia. apply cursor_cons in Hc as [-> Hc]. cbn [mbind res_bind].
  apply cursor_app in Hc. replace (b2z sl * 2) with (zlen server) by lia.
  rewrite (proj2 (Z.ltb_ge _ _)) by lia. apply cursor_cons in Hc as [-> Hc]. cbn [mbind res_bind].
  apply cursor_app, cursor_app in Hc. replace (b2z pl * 2) with (zlen proc) by lia. rewrite Hl in Hc. by eexists.
Qed.

Lemma response_step_complete data pos t rest r : cursor data pos (t :: rest) ->
  response_step data pos r = if b2z t =? 0xAA then error_turn data (pos + 1) r
    else if is_one_of (b2z t) answer_types then done_turn data (pos + 1) r else skip_turn data (pos + 1) r.
Proof. intros [Et _]%cursor_cons. unfold response_step. by rewrite Et. Qed.

Lemma answer_loop r w r' : answer r w r' -> forall fuel data pos, cursor data pos w -> zlen w < Z.of_nat fuel ->
  response_loop fuel data pos r = Ok r'.
Proof.
  induction 1 as [r|r l0 l1 num st cl m0 m1 msg sl server pl proc line rest r' Hn Hm Hs Hp Hl _ IH
    |r t s0 s1 c0 c1 n0 n1 n2 n3 n4 n5 n6 n7 rest r' Ht _ IH|r t l0 l1 body rest r' Ha Ht Hb _ IH]; intros fuel data pos Hc Hf;
    (destruct fuel as [|fuel]; [match type of Hf with zlen ?l < _ => pose proof (zlen_nonneg l) end; lia|]);
    pose proof (cursor_len _ _ _ Hc) as Hlen; cbn [response_loop].
  - rewrite zlen_nil in Hlen. by rewrite (proj2 (Z.ltb_ge _ _)) by lia.
  - match type of Hlen with _ = pos + zlen (_ :: ?l) => pose proof (zlen_nonneg l) end. rewrite zlen_cons in Hlen.
    rewrite (proj2 (Z.ltb_lt _ _)) by lia. rewrite (response_step_complete _ _ _ _ _ Hc). apply cursor_cons in Hc as [_ Hc].
    destruct (error_turn_complete _ _ r _ _ _ _ _ _ _ _ _ _ _ _ _ _ Hc) as (pos' & E & Hc'); [done..|].
    change (b2z (z2b 0xAA) =? 0xAA) with true. cbv iota. rewrite E. cbn [mbind res_bind]. apply IH; [done|].
    rewrite ?zlen_cons, ?zlen_app in Hf. pose proof (zlen_nonneg msg). rewrite !zlen_cons, !zlen_app in Hf. pose proof (zlen_nonneg server).
    rewrite !zlen_cons, !zlen_app in Hf. pose proof (zlen_nonneg proc). rewrite !zlen_cons, !zlen_app in Hf. lia.
  - rewrite !zlen_cons in Hlen, Hf. pose proof (zlen_nonneg rest).
    rewrite (proj2 (Z.ltb_lt _ _)) by lia. rewrite (response_step_complete _ _ _ _ _ Hc). apply cursor_cons in Hc as [_ Hc].
    rewrite (proj2 (is_one_of_elem _ _) Ht). rewrite (proj2 (Z.eqb_neq _ _)) by (intros E; rewrite E in Ht; apply is_one_of_elem in Ht; discriminate Ht).
    unfold done_turn, want. rewrite (proj2 (Z.ltb_ge _ _)) by lia. apply cursor_get16le in Hc as [-> Hc]. cbn [mbind res_bind].
    cbv zeta. apply cursor_cons in Hc as [_ Hc]. apply cursor_cons in Hc as [_ Hc]. replace (pos + 1 + 2 + 1 + 1) with (pos + 1 + 4) in Hc by lia.
    apply cursor_get64le in Hc as [-> Hc]. cbn [mbind res_bind]. apply IH; [done|lia].
  - rewrite !zlen_cons, zlen_app in Hlen, Hf. pose proof (zlen_nonneg rest). pose proof (zlen_nonneg body).
    rewrite (proj2 (Z.ltb_lt _ _)) by lia. rewrite (response_step_complete _ _ _ _ _ Hc). apply cursor_cons in Hc as [_ Hc].
    rewrite (proj2 (Z.eqb_neq _ _)) by done. assert (E : is_one_of (b2z t) answer_types = false) by (apply not_true_iff_false; by rewrite is_one_of_elem). rewrite E.
    unfold skip_turn, want. rewrite (proj2 (Z.ltb_ge _ _)) by lia. apply cursor_get16le in Hc as [-> Hc]. cbn [mbind res_bind].
    apply cursor_app in Hc. rewrite Hb in Hc. apply IH; [done|lia].
Qed.
End Answer.

(** ** The end of a batch *)

Section Finish.
Context {Si : Simdutf} {T : Transport} {Au : Authenticator}.
Context (fuel : nat) (now : net -> Z).

(** [m] is the message at the head of what is unread and what arrives. *)
Definition received (c : TdsConnection) (m : bytes) : Prop :=
  exists new rest, stream_message (unread (socket_ c) ++ new) m rest.

Lemma wp_receive t c : conn_ok c ->
  wp (ReceiveMessage fuel t) c (fun o c' => sent_over c c' /\ match o with Some m => received c m | None => True end)
    (fun e c' => sent_over c c' /\ e = InvalidPacketLength).
Proof.
  intros Hok. unfold wp, ReceiveMessage. destruct (Socket.ReceiveMessage fuel t (socket_ c)) as [o|] eqn:E; [|done].
  apply message_loop_spec in E as (x & s' & -> & Hs & _ & new & _ & Hx); [|apply Hok].
  destruct x as [|m|e]; (split; [by exists s'|]); [done| |done]. destruct Hx as (m' & -> & Hm). by eexists _, _.
Qed.

(** What can be wrong with an answer, by the exception that reports it. *)
Definition refusal (c : TdsConnection) (e : exn) : Prop :=
  e = IOError "MSSQL: Failed to receive BCP response" \/
  exists m r, received c m /\ scan_response m = Ok r /\
    if has_error r then e = bcp_failed (error_message r)
    else found_done r = false /\ e = IOError "MSSQL: Did not receive DONE token in BCP response".

Definition finished (w : BCPWriter) (o : outcome Z) (w' : BCPWriter) : Prop :=
  match o with
  | Returns n =>
      (exists m r, received (conn_ w) m /\ scan_response m = Ok r /\ has_error r = false /\ found_done r = true /\
         n = server_row_count r) /\
      conn_ok (conn_ w') /\ state_ (conn_ w') = Idle
  | Throws e =>
      conn_ok (conn_ w') /\
      (refusal (conn_ w) e /\ state_ (conn_ w') = Disconnected \/
       login_exn e /\ state_ (conn_ w') = Cancelling \/
       e = InvalidPacketLength /\ state_ (conn_ w') = Executing)
  | Running => True
  | Undefined => exists m, received (conn_ w) m /\ cut_done m
  end.

(** Whatever [m] does. *)
Definition post {A} (m : W A) (w : BCPWriter) (P : outcome A -> BCPWriter -> Prop) : Prop := P (m w).1 (m w).2.

Lemma post_bind {A B} (m : W A) (f : A -> W B) w P :
  post m w (fun o w' => match o with
    | Returns a => post (f a) w' P | Throws e => P (Throws e) w' | Running => P Running w' | Undefined => P Undefined w' end) ->
  post (m ≫= f) w P.
Proof. unfold post, mbind, W_bind. by destruct (m w) as [[a|e| |] w']. Qed.

Lemma post_returns {A} (m : W A) w P a w' : post m w P -> m w = (Returns a, w') -> P (Returns a) w'.
Proof. unfold post. intros Hp E. by rewrite E in Hp. Qed.

Lemma close_and_throw_finished w w1 e : conn_ok (conn_ w1) -> refusal (conn_ w) e ->
  post (close_and_throw fuel now e) w1 (finished w).
Proof.
  intros Hok He. pose proof (wpw_close_then fuel now (A := Z) e w1 (fun _ _ => False) Hok) as Hw. unfold wpw in Hw.
  fold (close_and_throw (A := Z) fuel now e) in Hw. unfold post. destruct (close_and_throw (A := Z) fuel now e w1) as [[n|e'| |] w2]; [done| |done..].
  destruct Hw as [Hok2 [[-> Hs]|[Hl Hs]]]; (split; [done|]); [by left|by right; left].
Qed.

Lemma Finalize_finished w : conn_ok (conn_ w) -> state_ (conn_ w) = Executing -> post (Finalize fuel now) w (finished w).
Proof.
  intros Hok Hst. pose proof (wp_receive 30000 (conn_ w) Hok) as Hr. unfold wp in Hr. apply post_bind.
  unfold post at 1, on_conn. destruct (ReceiveMessage fuel 30000 (conn_ w)) as [[o|e| |] c]; cbn [fst snd]; [| |done..].
  2:{ destruct Hr as [Hs ->]. split; [by eapply sent_over_ok|]. right; right. split; [done|]. by destruct Hs as (s & _ & ->). }
  destruct Hr as [Hs Hm]. set (w1 := set_conn c w). assert (Hok1 : conn_ok (conn_ w1)) by (by eapply sent_over_ok).
  destruct o as [m|]; [|apply close_and_throw_finished; [done|by left]].
  apply post_bind. destruct (scan_response m) as [r|e|] eqn:Er.
  2:{ exfalso. pose proof (response_throws m (Datatypes.S (length m)) 0 no_response) as Ht. unfold scan_response in Er. by rewrite Er in Ht. }
  2:{ unfold post, lift_res. cbn. exists m. split; [done|]. by apply scan_response_cut. }
  change (post (if has_error r then close_and_throw fuel now (bcp_failed (error_message r))
    else if negb (found_done r) then close_and_throw fuel now (IOError "MSSQL: Did not receive DONE token in BCP response")
    else _ ← on_conn (TransitionState Executing Idle); mret (server_row_count r)) w1 (finished w)).
  destruct (has_error r) eqn:Eh; [apply close_and_throw_finished; [done|right; exists m, r; by rewrite Eh]|].
  destruct (found_done r) eqn:Ed; cbn [negb].
  2:{ apply close_and_throw_finished; [done|]. right. exists m, r. by rewrite Eh. }
  assert (Es : state_ c = Executing) by (by destruct Hs as (s & _ & ->)).
  unfold post, on_conn, TransitionState, compare_exchange, mbind, W_bind. cbn [conn_ set_conn w1]. rewrite decide_True by done.
  cbn. split; [by exists m, r|]. split; [by apply ConnectionSpec.state_ok|done].
Qed.
End Finish.

(** ** What a reader makes of a batch *)

Section ReadBack.
Context {Si : Simdutf} {Spec : SimdutfSpec Si}.

(** The first four collation bytes, as the reader keeps them. *)
Definition collation_word (col : BCPColumnMetadata) : Z :=
  match Values.collation col with c0 :: c1 :: c2 :: c3 :: _ => le32 c0 c1 c2 c3 | _ => 0 end.

(** The column as COLMETADATA announces it: XML travels as nvarchar(max). *)
Definition announced (col : BCPColumnMetadata) : ColumnMetadata :=
  let make t ml p s coll := mkColumnMetadata (Values.name col) t ml p s coll (GetFlags col) in
  let t := tds_type_token col in
  if is_one_of t [TDS_TYPE_XML] then make TDS_TYPE_NVARCHAR 0xFFFF 0 0 (collation_word col)
  else if is_one_of t decimal_types then make t (Values.max_length col) (Values.precision col) (Values.scale col) 0
  else if is_one_of t [TDS_TYPE_NVARCHAR; TDS_TYPE_BIGVARCHAR] then make t (Values.max_length col) 0 0 (collation_word col)
  else if is_one_of t [TDS_TYPE_DATE] then make t 0 0 0 0
  else if is_one_of t time_types then make t 0 0 (Values.scale col) 0
  else make t (Values.max_length col) 0 0 0.

(** A name of fewer than 256 code units, and the five collation bytes. *)
Definition name_ok (col : BCPColumnMetadata) : Prop :=
  (exists cps, Forall scalar cps /\ Values.name col = utf8_encode cps /\ zlen (utf16_encode cps) < 256) /\
  zlen (Values.collation col) = 5.

Lemma name_token col : name_ok col ->
  exists chars, b_varchar chars (WriteUTF16LEString (Values.name col)) /\ Utf16LEDecode chars = Values.name col.
Proof.
  intros [(cps & Hcps & -> & Hl) _]. exists (units_bytes (utf16_encode cps)). split; [|by apply Utf16LEDecode_encode].
  unfold WriteUTF16LEString. rewrite Utf16LEEncode_encode by done. constructor.
  rewrite zlen_units_bytes. replace (2 * zlen (utf16_encode cps) / 2) with (zlen (utf16_encode cps)) by zlia.
  pose proof (zlen_nonneg (utf16_encode cps)). by rewrite b2z_z2b_small by lia.
Qed.

Lemma put16le_le16 v : 0 <= v < 65536 -> exists l0 l1, put16le v = [l0; l1] /\ le16 l0 l1 = v.
Proof.
  intros Hv. unfold put16le. eexists _, _. split; [done|]. unfold le16. rewrite b2z_byte_0, b2z_byte_at, join16 by lia. by apply Z.mod_small.
Qed.

(** Target columns by what their type announces. *)
Inductive token_ok (col : BCPColumnMetadata) : Z -> Prop :=
  | token_width t : t ∈ [TDS_TYPE_INTN; TDS_TYPE_BITN; TDS_TYPE_FLOATN; TDS_TYPE_UNIQUEIDENTIFIER] ->
      0 < Values.max_length col < 256 -> (t = TDS_TYPE_BITN -> Values.max_length col = 1) ->
      (t = TDS_TYPE_UNIQUEIDENTIFIER -> Values.max_length col = 16) -> token_ok col t
  | token_decimal : 0 <= Values.max_length col < 256 -> 0 <= Values.precision col < 256 -> 0 <= Values.scale col < 256 ->
      token_ok col TDS_TYPE_DECIMAL
  | token_text t : t ∈ [TDS_TYPE_NVARCHAR; TDS_TYPE_BIGVARCHAR] -> 0 <= Values.max_length col < 65536 -> token_ok col t
  | token_binary : 0 <= Values.max_length col < 65536 -> token_ok col TDS_TYPE_BIGVARBINARY
  | token_xml : Values.max_length col = 0xFFFF -> token_ok col TDS_TYPE_XML
  | token_date : token_ok col TDS_TYPE_DATE
  | token_time t : t ∈ time_types -> 0 <= Values.scale col <= 7 -> token_ok col t.

Lemma target_token col : target_ok col -> token_ok col (tds_type_token col).
Proof.
  unfold target_ok. intros Ht. pose proof (GetTimeByteSize_range (Values.scale col)) as Hs.
  assert (Hd : 5 <= GetDecimalByteSize (Values.precision col) <= 17) by (destruct (GetDecimalByteSize_cases (Values.precision col)); lia).
  destruct (id (duckdb_type col)); try done; try (destruct Ht as [-> Ht]);
    try (apply token_width; [set_solver|lia|intros ?; first [done|lia]|intros ?; first [done|lia]]);
    try (apply token_decimal; lia); try (apply token_binary; lia); try apply token_date;
    try (apply token_time; [set_solver|lia]); try (apply token_text; [set_solver|lia]).
  destruct Ht as [[-> Hm]|[[-> | ->] Hm]]; [by apply token_xml|apply token_text; [set_solver|lia]..].
Qed.

(** TYPE_INFO from the numbers in it. *)
Lemma info_width t ml : is_one_of t nullable_types || is_one_of t [TDS_TYPE_UNIQUEIDENTIFIER] = true -> 0 <= ml < 256 ->
  type_info t ml 0 0 0 [z2b ml].
Proof.
  intros Ht Hm. rewrite <- (b2z_z2b_small ml Hm) at 1. destruct (is_one_of t nullable_types) eqn:E; [by apply ti_nullable|by apply ti_guid].
Qed.

Lemma info_decimal ml p s : 0 <= ml < 256 -> 0 <= p < 256 -> 0 <= s < 256 ->
  type_info TDS_TYPE_DECIMAL ml p s 0 ([z2b ml] ++ [z2b p; z2b s]).
Proof.
  intros Hm Hp Hs. rewrite <- (b2z_z2b_small ml Hm) at 1. rewrite <- (b2z_z2b_small p Hp) at 1. rewrite <- (b2z_z2b_small s Hs) at 1.
  by apply ti_decimal.
Qed.

Lemma info_text t ml coll word : is_one_of t string_types = true -> 0 <= ml < 65536 -> zlen coll = 5 ->
  word = match coll with c0 :: c1 :: c2 :: c3 :: _ => le32 c0 c1 c2 c3 | _ => 0 end ->
  type_info t ml 0 0 word (put16le ml ++ ztake 5 coll).
Proof.
  intros Ht Hm Hc ->. destruct (put16le_le16 ml Hm) as (l0 & l1 & -> & <-).
  destruct coll as [|c0 [|c1 [|c2 [|c3 [|c4 [|]]]]]]; try (rewrite ?zlen_cons, ?zlen_nil in Hc; lia); [by apply ti_string|].
  rewrite !zlen_cons in Hc. match type of Hc with context [zlen ?l] => pose proof (zlen_nonneg l) end. lia.
Qed.

Lemma info_binary ml : 0 <= ml < 65536 -> type_info TDS_TYPE_BIGVARBINARY ml 0 0 0 (put16le ml).
Proof. intros Hm. destruct (put16le_le16 ml Hm) as (l0 & l1 & -> & <-). by apply ti_binary. Qed.

Lemma info_scale t s : is_one_of t time_types = true -> 0 <= s <= 7 -> type_info t 0 0 s 0 [z2b s].
Proof. intros Ht Hs. assert (E : b2z (z2b s) = s) by (apply b2z_z2b_small; lia). rewrite <- E at 1. apply ti_time; [done|lia]. Qed.

Ltac eval_types :=
  repeat match goal with
  | |- context [is_one_of ?t ?l] =>
      let b := eval vm_compute in (is_one_of t l) in
      match b with true => change (is_one_of t l) with true | false => change (is_one_of t l) with false end
  end; cbv iota beta zeta.
Ltac each_type H := unfold time_types in H; rewrite ?elem_of_cons, ?elem_of_nil in H; destruct_or! H; subst; try done.

(** TYPE_INFO of a target column. *)
Lemma type_info_announced col : target_ok col -> name_ok col ->
  exists info, type_info_token col = Some (z2b (type_id (announced col)) :: info) /\
    type_info (type_id (announced col)) (max_length (announced col)) (precision (announced col)) (scale (announced col))
      (collation (announced col)) info.
Proof.
  intros Ht%target_token [_ Hcoll]. unfold type_info_token, announced, collation_word. revert Ht. generalize (tds_type_token col).
  intros t Ht. destruct Ht as [t Hin Hm Hb Hg| | t Hin Hm| |Hm| |t Hin Hs]; try each_type Hin; eval_types; cbn [type_id max_length precision scale collation];
    (eexists; split; [reflexivity|]).
  all: rewrite ?Hb, ?Hg by done;
    first [apply info_decimal|apply info_binary|apply ti_date|apply info_scale|apply info_text|apply info_width]; first [done|lia].
Qed.

Lemma announced_range col : target_ok col -> 0 <= type_id (announced col) < 256.
Proof.
  intros Ht%target_token. unfold announced. revert Ht. generalize (tds_type_token col). intros t Ht.
  destruct Ht as [t Hin _ _ _| | t Hin _| |_| |t Hin _]; try each_type Hin; eval_types; done.
Qed.

Lemma column_announced col : target_ok col -> name_ok col ->
  exists info, type_info_token col = Some info /\
    column_wire (announced col) (put32le 0 ++ put16le (GetFlags col) ++ info ++ WriteUTF16LEString (Values.name col)).
Proof.
  intros Ht Hn. destruct (type_info_announced col Ht Hn) as (info & E & Hi). destruct (name_token col Hn) as (chars & Hc & Ed).
  exists (z2b (type_id (announced col)) :: info). split; [done|].
  destruct (put16le_le16 (GetFlags col)) as (f0 & f1 & -> & Ef); [unfold GetFlags; by destruct (nullable col)|].
  pose proof (column_wire_intro (put32le 0) f0 f1 (z2b (type_id (announced col))) (max_length (announced col))
    (precision (announced col)) (scale (announced col)) (collation (announced col)) info chars (WriteUTF16LEString (Values.name col)) eq_refl) as Hw.
  rewrite b2z_z2b_small in Hw by by apply announced_range. specialize (Hw Hi Hc). rewrite Ed, Ef in Hw.
  replace (announced col) with (mkColumnMetadata (Values.name col) (type_id (announced col)) (max_length (announced col))
    (precision (announced col)) (scale (announced col)) (collation (announced col)) (GetFlags col)) at 1; [exact Hw|].
  unfold announced. repeat case_match; done.
Qed.

Definition columns_ok (columns : list BCPColumnMetadata) : Prop :=
  zlen columns < 65535 /\ Forall (fun col => target_ok col /\ name_ok col) columns.

Lemma put_columns_announced columns : Forall (fun col => target_ok col /\ name_ok col) columns -> forall buffer,
  exists w, put_columns columns buffer = (None, buffer ++ w) /\ columns_wire (announced <$> columns) w.
Proof.
  induction 1 as [|col columns [Ht Hn] _ IH]; intros buffer; cbn [put_columns].
  - exists []. rewrite app_nil_r. by split; [|constructor].
  - destruct (column_announced col Ht Hn) as (info & -> & Hw). cbv zeta.
    destruct (IH ((buffer ++ put32le 0 ++ put16le (GetFlags col)) ++ info ++ WriteUTF16LEString (Values.name col))) as (w & -> & Hws).
    exists ((put32le 0 ++ put16le (GetFlags col) ++ info ++ WriteUTF16LEString (Values.name col)) ++ w).
    split; [by rewrite <- !app_assoc|]. cbn [fmap list_fmap]. by apply columns_wire_cons.
Qed.

(** The token is the one the reader of result sets takes, to its last byte. *)
Lemma token_announced columns : columns_ok columns ->
  exists w, BuildColmetadataToken columns [] = (None, z2b TOKEN_COLMETADATA :: w) /\
    forall r, Parse (w ++ r) = (announced <$> columns, Ok (Some (zlen w))).
Proof.
  intros [Hn Hc]. pose proof (zlen_nonneg columns). unfold BuildColmetadataToken.
  destruct (put_columns_announced columns Hc ([] ++ [z2b TOKEN_COLMETADATA] ++ put16le (zlen columns))) as (w & -> & Hw).
  exists (put16le (zlen columns) ++ w). split; [by rewrite <- app_assoc|]. intros r. apply Parse_complete.
  destruct (put16le_le16 (zlen columns)) as (n0 & n1 & -> & E); [lia|]. cbn [app].
  apply colmetadata_columns; [|lia|done]. rewrite E. unfold zlen. by rewrite length_fmap.
Qed.

(** A value is read by its type's kind. *)
Lemma value_wire_same c c' ov w : type_id c' = type_id c -> (kind_of (type_id c) = KVar -> IsPLPType c' = IsPLPType c) ->
  value_wire c ov w -> value_wire c' ov w.
Proof.
  intros Et Hp. assert (Hplp : plp_column c -> plp_column c').
  { intros [Hk|[Hk Hl]]; [left; by rewrite Et|right]. rewrite Et, Hp by done. done. }
  destruct 1; [eapply vw_fixed|apply vw_prefix1_null|apply vw_prefix1|apply vw_prefix2_null|apply vw_prefix2|apply vw_plp_null|eapply vw_plp];
    rewrite ?Et, ?Hp by done; eauto.
Qed.

Lemma value_wire_xml c c' ov w : kind_of (type_id c) = KXml -> plp_column c' -> value_wire c ov w -> value_wire c' ov w.
Proof. intros Hx Hp. destruct 1; try congruence; [by apply vw_plp_null|by eapply vw_plp]. Qed.

Lemma value_wire_announced col ov w : target_ok col -> value_wire (reader_column col) ov w -> value_wire (announced col) ov w.
Proof.
  intros Ht%target_token. unfold announced, reader_column. revert Ht. generalize (tds_type_token col). intros t Ht.
  destruct Ht as [t Hin _ _ _| | t Hin _| |_| |t Hin _]; try each_type Hin; eval_types;
    first [apply value_wire_same; [done|by intros [=]]|apply value_wire_xml; [done|by right]].
Qed.

Lemma announced_readable col : target_ok col -> is_one_of (type_id (announced col)) readable_types = true.
Proof.
  intros Ht%target_token. unfold announced. revert Ht. generalize (tds_type_token col). intros t Ht.
  destruct Ht as [t Hin _ _ _| | t Hin _| |_| |t Hin _]; try each_type Hin; eval_types; done.
Qed.

Lemma row_wire_announced columns : Forall target_ok columns -> forall ovs w,
  row_wire (reader_column <$> columns) ovs w -> row_wire (announced <$> columns) ovs w.
Proof.
  induction 1 as [|col columns Ht _ IH]; intros ovs w Hw; [exact Hw|]. cbn [fmap list_fmap] in *. inversion Hw; subst.
  apply row_wire_cons; [by apply announced_readable|by apply value_wire_announced|by apply IH].
Qed.

Lemma chunk_wire_announced columns rows w : Forall target_ok columns ->
  chunk_wire (reader_column <$> columns) rows w -> chunk_wire (announced <$> columns) rows w.
Proof. intros Ht. induction 1; constructor; [by apply row_wire_announced|done]. Qed.

Lemma chunk_wire_app cols rows1 rows2 w1 w2 : chunk_wire cols rows1 w1 -> chunk_wire cols rows2 w2 -> chunk_wire cols (rows1 ++ rows2) (w1 ++ w2).
Proof. induction 1 as [|ovs rows w ws Hw _ IH]; intros H2'; [done|]. cbn [app]. rewrite <- app_assoc. constructor; [done|]. by apply IH. Qed.
End ReadBack.

(** ** The properties *)

Section BatchRead.
Context `{Hugeint} `{Floats} `{DuckDB} {Si : Simdutf} {Spec : SimdutfSpec Si} {T : Transport} {Au : Authenticator}.

Definition takes (w : BCPWriter) (chunk : DataChunk) : Prop :=
  loadable (chunk_size chunk) chunk (columns_ w) (mapping_of w) /\ exact (chunk_size chunk) chunk (columns_ w) (mapping_of w).

(** The rows of one chunk, as [Rows_read_back] describes them. *)
Definition rows_of (w : BCPWriter) (chunk : DataChunk) (rows : list (list (option bytes))) : Prop :=
  length rows = chunk_size chunk /\
  forall i ovs, rows !! i = Some ovs ->
    exists states, PrepareColumnStates chunk (chunk_size chunk) (columns_ w) (mapping_of w) = Ok states /\
      row_values i (columns_ w) states (fun j => null_at chunk (mapping_of w) j i) ovs.

Lemma takes_encodes w chunk : takes w chunk ->
  holds (encodes w chunk) (fun b => exists rows, chunk_wire (reader_column <$> columns_ w) rows b /\ rows_of w chunk rows).
Proof.
  intros [Hl He]. pose proof (EncodeChunk_same chunk _ _ Hl He) as Hs. pose proof (EncodeRows_loadable chunk _ _ Hl) as Hr.
  fold (encodes w chunk) in Hs. unfold EncodeChunk_rows in Hs. destruct (Nat.eqb_spec (chunk_size chunk) 0) as [E|E].
  - unfold encodes, EncodeChunk. rewrite (proj2 (Nat.eqb_eq _ _) E). exists []. split; [constructor|]. by split.
  - destruct (PrepareColumnStates _ _ _ _) as [states|e|] eqn:Ep; cbn [mbind res_bind holds] in Hs, Hr; [|by destruct (encodes w chunk)|done].
    destruct (encodes w chunk) as [b|e|]; [|done|by destruct (EncodeRows _ _ _ _)].
    destruct (EncodeRows _ _ _ _) as [b'|e|]; [|by destruct Hs..]. cbn in Hs. subst b'.
    destruct Hr as (rows & Hw & Hn & Hv). exists rows. split; [done|]. split; [done|]. intros i ovs Hi. exists states. split; [done|]. by apply Hv.
Qed.

Lemma bodies_read w chunks bodies : (forall chunk, chunk ∈ chunks -> takes w chunk) ->
  Forall2 (fun chunk b => encodes w chunk = Ok b) chunks bodies ->
  exists rowss, chunk_wire (reader_column <$> columns_ w) (concat rowss) (concat bodies) /\ Forall2 (rows_of w) chunks rowss.
Proof.
  intros Ht. induction 1 as [|chunk b chunks bodies Hb _ IH]; [exists []; split; constructor|].
  destruct IH as (rowss & Hw & Hr); [intros c Hc; apply Ht; by right|].
  pose proof (takes_encodes w chunk (Ht chunk ltac:(left))) as Hc. rewrite Hb in Hc. destruct Hc as (rows & Hrw & Hro).
  exists (rows :: rowss). split; [by apply chunk_wire_app|by constructor].
Qed.

(** A batch on the wire, as its reader takes it apart: COLMETADATA with the
    columns, the rows of every chunk in order, and DONE with the row count. *)
Definition batch_read (w : BCPWriter) (chunks : list DataChunk) (row_count : Z) (m : bytes) : Prop :=
  exists token body rowss,
    m = z2b TOKEN_COLMETADATA :: token ++ body ++ BuildDoneToken row_count /\
    Parse (token ++ body ++ BuildDoneToken row_count) = (announced <$> columns_ w, Ok (Some (zlen token))) /\
    read_rows (length (concat rowss)) (announced <$> columns_ w) body = Some (row_of <$> concat rowss) /\
    Forall2 (rows_of w) chunks rowss.
End BatchRead.

(** C8. A batch of a bulk load (COLMETADATA, any chunks, DONE) is one TDS message,
    whatever is drained when: if the calls return, what they put on the wire is
    packets from which a receiver puts together exactly the COLMETADATA token,
    the bytes of every chunk in order, and DONE; all but the last are full, their
    ids are consecutive, and the counters have counted every byte and row. If
    they throw, it is for a type COLMETADATA has no form for, or a value the
    encoder refuses, with the connection as it was; or for a send that failed,
    and then the connection is closed (or its closing threw in its turn). *)
Theorem Batch_one_message `{Hugeint} `{Floats} `{DuckDB} {Si : Simdutf} {T : Transport} {Au : Authenticator}
  (fuel : nat) (now : net -> Z) (leftover : DataChunk -> bytes) (w0 : BCPWriter) (chunks : list DataChunk) (row_count : Z)
  (Hok : conn_ok (conn_ w0)) (Hnew : colmetadata_sent_ w0 = false)
  (Hsafe : forall chunk, chunk ∈ chunks -> encodes w0 chunk <> Oob) :
  wpw (write_batch fuel now leftover chunks row_count) w0
    (fun _ w => exists token bodies ps,
       BuildColmetadataToken (columns_ w0) [] = (None, token) /\
       Forall2 (fun chunk b => encodes w0 chunk = Ok b) chunks bodies /\
       wire (conn_ w) = wire (conn_ w0) ++ packets_wire (packet_id_ w0) ps /\
       stream_message (packets_wire (packet_id_ w0) ps) (token ++ concat bodies ++ BuildDoneToken row_count) [] /\
       tail_of (max_payload (conn_ w0)) true ps /\ packet_id_ w = after (packet_id_ w0) ps /\
       uint64 (bytes_sent_ w) = uint64 (bytes_sent_ w0 + zlen (packets_wire (packet_id_ w0) ps)) /\
       uint64 (rows_sent_ w) = uint64 (rows_sent_ w0 + total_rows chunks))
    (batch_fails w0 chunks).
Proof.
  eapply wpw_mono; [by apply wpw_write_batch| |done].
  intros [] w (token & bodies & Et & Hb & ps & Hm & Htail & Hw & Hid & Hbytes & Hrows & _). exists token, bodies, ps.
  split_and!; try done. rewrite <- (app_nil_r (packets_wire _ _)). by apply message_of_stream, message_of_number.
Qed.

(** C6. A bulk load can be read back: if the batch of some chunks that the target
    columns take is sent, a reader of the connection gets one message; the reader
    of result sets finds in it the columns of the target (XML as nvarchar(max)),
    then as many rows as the chunks have, each with the payloads the codecs wrote
    and NULL exactly where the source is, then DONE with the row count, to the
    last byte. *)
Theorem Batch_read_back `{Hugeint} `{Floats} `{DuckDB} {Si : Simdutf} {Spec : SimdutfSpec Si} {T : Transport} {Au : Authenticator}
  (fuel : nat) (now : net -> Z) (leftover : DataChunk -> bytes) (w0 w : BCPWriter) (chunks : list DataChunk) (row_count : Z)
  (Hok : conn_ok (conn_ w0)) (Hnew : colmetadata_sent_ w0 = false) (Hcols : columns_ok (columns_ w0))
  (Htakes : forall chunk, chunk ∈ chunks -> takes w0 chunk)
  (Hr : write_batch fuel now leftover chunks row_count w0 = (Returns tt, w)) :
  exists sent m, wire (conn_ w) = wire (conn_ w0) ++ sent /\ stream_message sent m [] /\ batch_read w0 chunks row_count m.
Proof.
  eapply wpw_returns in Hr; [|apply wpw_write_batch; [done..|]].
  2:{ intros chunk Hc. eapply holds_safe, takes_encodes. by apply Htakes. }
  destruct Hr as (token & bodies & Et & Hb & ps & Hm & _ & Hw & _). destruct (token_announced _ Hcols) as (t & Et' & Hp).
  rewrite Et in Et'. injection Et' as ->. destruct (bodies_read w0 chunks bodies Htakes Hb) as (rowss & Hrows & Hof).
  eexists _, _. split; [exact Hw|]. split; [rewrite <- (app_nil_r (packets_wire _ _)); by apply message_of_stream, message_of_number|].
  exists t, (concat bodies), rowss. split_and!; [done|apply Hp| |done]. apply chunk_wire_read, chunk_wire_announced; [|done].
  destruct Hcols as [_ Hc]. eapply Forall_impl; [exact Hc|]. by intros col [].
Qed.

(** C17. [Finalize], whatever the server answers: it returns a row count only for
    an answer with a DONE and no error, leaving the connection idle; it throws
    only once the connection is closed, except for what the transport layer
    itself throws on a frame over 32767 bytes, which leaves it executing (or
    cancelling, while it was being closed); and it reads outside the answer only
    if that ends between the eighth and the twelfth byte of a DONE. *)
Theorem Finalize_contract {Si : Simdutf} {T : Transport} {Au : Authenticator} (fuel : nat) (now : net -> Z) (w : BCPWriter)
  (Hok : conn_ok (conn_ w)) (Hst : state_ (conn_ w) = Executing) :
  post (Finalize fuel now) w (finished w).
Proof. by apply Finalize_finished. Qed.

(** C18. A well-formed answer decides how a bulk load ends: when its frames are
    buffered or on their way, in pieces of any size, [Finalize] returns the row
    count of the last DONE if no ERROR token and no DONE_ERROR bit is in it;
    otherwise it closes the connection and throws, with the text of the last
    ERROR if there was one. Tokens it does not know are skipped by their length. *)
Theorem Finalize_answers {Si : Simdutf} {T : Transport} {Au : Authenticator} (fuel k : nat) (now : net -> Z) (w : BCPWriter)
  (d m rest : bytes) (r : BcpResponse)
  (Hok : conn_ok (conn_ w)) (Hst : state_ (conn_ w) = Executing) (Hcon : IsConnected (socket_ (conn_ w)) = true)
  (Hd : supplies k (tls_context_ (socket_ (conn_ w))) (net_ (socket_ (conn_ w))) d)
  (Hm : stream_message (unread (socket_ (conn_ w)) ++ d) m rest) (Hf : zlen (unread (socket_ (conn_ w)) ++ d) < Z.of_nat fuel)
  (Ha : answer no_response m r) :
  wpw (Finalize fuel now) w
    (fun n w' => has_error r = false /\ found_done r = true /\ n = server_row_count r /\ state_ (conn_ w') = Idle)
    (fun e w' => if has_error r then closed_by (bcp_failed (error_message r)) e w'
       else found_done r = false /\ closed_by (IOError "MSSQL: Did not receive DONE token in BCP response") e w').
Proof.
  destruct (message_loop_supplied _ _ _ Hm fuel k [] 30000 (socket_ (conn_ w)) d) as (s' & k' & d' & E & Hs & _); [done|apply Hok|done..|].
  assert (Er : scan_response m = Ok r) by (apply (answer_loop _ _ _ Ha); [apply cursor_0|unfold zlen; lia]).
  unfold Finalize. apply wpw_bind, wpw_on_conn. unfold wp, ReceiveMessage, Socket.ReceiveMessage. rewrite E. cbn [app].
  assert (Hok1 : conn_ok (set_socket s' (conn_ w))) by (by apply set_socket_ok). rewrite Er. unfold lift_res. apply wpw_bind, wpw_ret.
  destruct (has_error r) eqn:Eh; [by apply wpw_close_then|]. destruct (found_done r) eqn:Ef; cbn [negb].
  - apply wpw_bind, wpw_on_conn. unfold wp, TransitionState, compare_exchange. rewrite decide_True by done. by apply wpw_ret.
  - apply (wpw_mono _ _ (fun _ _ => False) _ (closed_by (IOError "MSSQL: Did not receive DONE token in BCP response"))); [by apply wpw_close_then|done|done].
Qed.

(** ** Concrete inputs *)

Section Samples.
#[local] Existing Instance RefSimdutf.simdutf.
#[local] Existing Instance ref_simdutf_spec.
#[local] Existing Instance script_transport.
#[local] Existing Instance sample_authenticator.
#[local] Existing Instance Checked.hugeint.
#[local] Existing Instance Checked.floats.
#[local] Existing Instance Checked.duckdb.

(** The columns of [BcpRowSpec], with a collation, on a connection of small
    packets. *)
Definition collated (col : BCPColumnMetadata) : BCPColumnMetadata :=
  mkBCPColumnMetadata (bs [0x63]) (duckdb_type col) (tds_type_token col) (Values.max_length col) (Values.precision col) (Values.scale col)
    (nullable col) (bs [0x09; 0x04; 0xD0; 0x00; 0x34]) [] (null_only_source col).

Definition bulk_conn (answer : list bytes) : TdsConnection :=
  set_negotiated_packet_size 512 (set_state Executing
    (run_all (take 3 sample_calls) (TdsConnection_new (mkScript (inbox sample_server ++ answer) [] []) 0))).
Definition sample_writer (answer : list bytes) : BCPWriter :=
  BCPWriter_new (bulk_conn answer) (collated <$> sample_columns) [0; 1; -1].
Definition sample_chunks : list DataChunk := replicate 40 sample_chunk.

#[local] Abbreviation sample_batch := (write_batch 400 (fun _ => 0) (fun _ => []) sample_chunks 80 (sample_writer [])).

Lemma run_returns {A} (x : outcome A * BCPWriter) a : x.1 = Returns a -> x = (Returns a, x.2).
Proof. destruct x as [o w]. by intros [= ->]. Qed.

Lemma sample_batch_returns : sample_batch = (Returns tt, sample_batch.2).
Proof. apply run_returns. vm_compute. reflexivity. Qed.

Lemma sample_takes chunk : chunk ∈ sample_chunks -> takes (sample_writer []) chunk.
Proof.
  intros [-> _]%elem_of_replicate. change (mapping_of (sample_writer [])) with sample_mapping. split.
  - destruct sample_loadable as [Hm Hc]. split; [done|]. intros i col Hi. cbn [columns_ sample_writer BCPWriter_new] in Hi.
    rewrite list_lookup_fmap in Hi. destruct (sample_columns !! i) as [c|] eqn:E; [|done]. injection Hi as <-. exact (Hc i c E).
  - intros i col v row c Hi. cbn [columns_ sample_writer BCPWriter_new] in Hi.
    rewrite list_lookup_fmap in Hi. destruct (sample_columns !! i) as [c0|] eqn:E; [|done]. injection Hi as <-.
    exact (sample_exact i c0 v row c E).
Qed.

Lemma sample_writer_ok answer : conn_ok (conn_ (sample_writer answer)).
Proof. constructor; [constructor|..]; vm_compute; repeat split; discriminate. Qed.

Lemma Batch_one_message_witness :
  exists token bodies ps, wire (conn_ sample_batch.2) = wire (bulk_conn []) ++ packets_wire 1 ps /\
    stream_message (packets_wire 1 ps) (token ++ concat bodies ++ BuildDoneToken 80) [] /\ packet_id_ sample_batch.2 = 3.
Proof.
  destruct (wpw_returns _ _ _ _ _ _
    (Batch_one_message 400 (fun _ => 0) (fun _ => []) (sample_writer []) sample_chunks 80 (sample_writer_ok []) eq_refl
      (fun chunk Hc => holds_safe _ _ (takes_encodes _ chunk (sample_takes chunk Hc)))) sample_batch_returns)
    as (token & bodies & ps & _ & _ & Hwire & Hm & _).
  exists token, bodies, ps. split; [exact Hwire|]. split; [exact Hm|vm_compute; reflexivity].
Defined.

Lemma sample_columns_ok : columns_ok (collated <$> sample_columns).
Proof.
  split; [reflexivity|]. assert (Hn : forall col, name_ok (collated col)).
  { intros col. split; [|reflexivity]. exists [0x63]. split; [|split; reflexivity]. repeat constructor; vm_compute; intuition discriminate. }
  apply Forall_fmap, Forall_lookup. intros i col Hi. split; [|apply Hn]. exact (proj1 (proj2 sample_loadable i col Hi)).
Qed.

Lemma Batch_read_back_witness :
  exists sent m, wire (conn_ sample_batch.2) = wire (bulk_conn []) ++ sent /\ stream_message sent m [] /\
    batch_read (sample_writer []) sample_chunks 80 m.
Proof.
  apply (Batch_read_back 400 (fun _ => 0) (fun _ => []) (sample_writer []) sample_batch.2 sample_chunks 80 (sample_writer_ok []) eq_refl
    sample_columns_ok sample_takes sample_batch_returns).
Defined.

(** INFO with nothing in it, and a DONE that counts 80 rows, in one packet. *)
Definition sample_answer : bytes := bs [0xAB; 0; 0; 0xFD; 0x10; 0; 0xC3; 0; 80; 0; 0; 0; 0; 0; 0; 0].
Definition answering : BCPWriter := sample_writer [bs [4; 1; 0; 24; 0; 0; 1; 0] ++ sample_answer].

Lemma answering_returns : Finalize 400 (fun _ => 0) answering = (Returns 80, (Finalize 400 (fun _ => 0) answering).2).
Proof. apply run_returns. vm_compute. reflexivity. Qed.

Lemma Finalize_contract_witness :
  exists w', Finalize 400 (fun _ => 0) answering = (Returns 80, w') /\ state_ (conn_ w') = Idle.
Proof.
  destruct (post_returns _ _ _ _ _ (Finalize_contract 400 (fun _ => 0) answering (sample_writer_ok _) eq_refl) answering_returns) as (_ & _ & Hs).
  exists (Finalize 400 (fun _ => 0) answering).2. split; [exact answering_returns|exact Hs].
Defined.

Definition sample_packet_header : bytes := bs [4; 1; 0; 24; 0; 0; 1; 0].

Lemma answering_supplies :
  supplies 24 (tls_context_ (socket_ (conn_ answering))) (net_ (socket_ (conn_ answering))) (sample_packet_header ++ sample_answer).
Proof.
  assert (E : inbox (net_ (socket_ (conn_ answering))) = [sample_packet_header ++ sample_answer]) by (vm_compute; reflexivity).
  rewrite <- (app_nil_r (sample_packet_header ++ sample_answer)). change (_ ++ []) with (concat [sample_packet_header ++ sample_answer]).
  rewrite <- E. apply script_supplies; rewrite E; [repeat constructor; discriminate|vm_compute; lia].
Qed.

Lemma answering_unread : unread (socket_ (conn_ answering)) = [].
Proof. vm_compute. reflexivity. Qed.

Lemma answering_stream : stream_message (unread (socket_ (conn_ answering)) ++ sample_packet_header ++ sample_answer) sample_answer [].
Proof.
  rewrite answering_unread. refine (sm_last _ (sample_packet_header ++ sample_answer) [] _ _ _); vm_compute; first [reflexivity|discriminate].
Qed.

Lemma sample_answer_answer : answer no_response sample_answer (mkBcpResponse 80 true false []).
Proof.
  refine (answer_other _ (z2b 0xAB) (z2b 0) (z2b 0) [] _ _ _ _ _ (answer_done _ (z2b 0xFD) (z2b 0x10) (z2b 0) (z2b 0xC3) (z2b 0)
    (z2b 80) (z2b 0) (z2b 0) (z2b 0) (z2b 0) (z2b 0) (z2b 0) (z2b 0) [] _ _ (answer_end _))); try reflexivity.
  - vm_compute. discriminate.
  - intros Hin. apply is_one_of_elem in Hin. discriminate Hin.
  - by apply is_one_of_elem.
Qed.

Lemma Finalize_answers_witness :
  exists w', Finalize 400 (fun _ => 0) answering = (Returns 80, w') /\ state_ (conn_ w') = Idle.
Proof.
  destruct (wpw_returns _ _ _ _ _ _ (Finalize_answers 400 24 (fun _ => 0) answering (sample_packet_header ++ sample_answer)
    sample_answer [] (mkBcpResponse 80 true false []) (sample_writer_ok _) eq_refl eq_refl answering_supplies answering_stream
    ltac:(rewrite answering_unread; reflexivity) sample_answer_answer) answering_returns) as (_ & _ & _ & Hs).
  exists (Finalize 400 (fun _ => 0) answering).2. split; [exact answering_returns|exact Hs].
Defined.

(** ** Findings *)

(** Eight bytes behind the token are enough for the check, and twelve are read. *)
Lemma scan_response_overreads : scan_response (bs [0xFD; 0; 0; 0xC3; 0; 80; 0; 0; 0]) = Oob.
Proof. vm_compute. reflexivity. Qed.

(** A frame of 32768 bytes: the exception leaves the connection executing, not
    closed as before the other exceptions. *)
Definition oversized : BCPWriter := sample_writer [bs [4; 1; 0x80; 0; 0; 0; 1; 0] ++ replicate (Z.to_nat 32760) Byte.x00].

Lemma Finalize_left_executing :
  (Finalize 400 (fun _ => 0) oversized).1 = Throws InvalidPacketLength /\ state_ (conn_ (Finalize 400 (fun _ => 0) oversized).2) = Executing.
Proof. split; vm_compute; reflexivity. Qed.
End Samples.
