(* ===== verification/Sql.v ===== *)
(** * T-SQL text

    How the server splits a batch's text into delimited identifiers, string
    constants and the bytes between them ([lex]), the quoting functions of the
    code, and decimal numerals. The lexer is the reference the generated
    statements are read with: [[..]] and [".."] are names, ['..'] is a string, a
    doubled closing delimiter stands for itself, [--] and [/*] open a comment. In
    a string a backslash at the end of a line is T-SQL's line continuation: both
    are left out ([joined_lines]). The code does not write around it, so a string
    that holds one ([continued]) is not read back as itself.
    The code never writes a comment: text in which one opens, or in which a name
    or string is left open, has no reading.

    [reads s ts] is the form in which the readings compose: wherever a name, a
    string or a plain stretch of text has just ended, reading [s] yields exactly
    [ts]. Quoting is sound when what is quoted reads as one token whatever bytes
    it holds. *)

From S2P Require Import Prelude.
From Stdlib Require Strings.String.

(** Text of the source's string constants. *)
Definition tx (s : string) : bytes := String.list_byte_of_string s.

(** ** Quoting *)

(** Double every byte [q]. *)
Fixpoint doubled (q : byte) (s : bytes) : bytes :=
  match s with
  | [] => []
  | c :: s => if bool_decide (c = q) then q :: c :: doubled q s else c :: doubled q s
  end.

Definition LBRACKET : byte := z2b 0x5B.
Definition RBRACKET : byte := z2b 0x5D.
Definition QUOTE : byte := z2b 0x27.
Definition DQUOTE : byte := z2b 0x22.
Definition DASH : byte := z2b 0x2D.
Definition SLASH : byte := z2b 0x2F.
Definition STAR : byte := z2b 0x2A.

Module MSSQLValueSerializer.
Definition EscapeIdentifier (name : bytes) : bytes := LBRACKET :: doubled RBRACKET name ++ [RBRACKET].
Definition EscapeString (value : bytes) : bytes := doubled QUOTE value.
End MSSQLValueSerializer.

(** [codec::string::EscapeSqlSingleQuotes]. *)
Definition EscapeSqlSingleQuotes (str : bytes) : bytes := doubled QUOTE str.

(** [FilterEncoder::EscapeBracketIdentifier]: the closing brackets only. *)
Definition EscapeBracketIdentifier (identifier : bytes) : bytes := doubled RBRACKET identifier.

(** [MSSQLDeleteStatement::EscapeIdentifier]: search, insert, skip two. *)
Fixpoint insert_loop (fuel : nat) (escaped : bytes) (pos : nat) : bytes :=
  match fuel with
  | O => escaped
  | S fuel =>
      match list_find (fun c => c = RBRACKET) (drop pos escaped) with
      | Some (i, _) => insert_loop fuel (take (pos + i) escaped ++ RBRACKET :: drop (pos + i) escaped) (pos + i + 2)
      | None => escaped
      end
  end.

Definition Delete_EscapeIdentifier (identifier : bytes) : bytes :=
  LBRACKET :: insert_loop (S (length identifier)) identifier 0 ++ [RBRACKET].

(** ** The reference lexer *)

Inductive delim : Type := Bracket | Quote | DoubleQuote.
Inductive item : Type := Ch (b : byte) | Name (s : bytes) | Text (s : bytes).
Inductive state : Type := Between | In (d : delim) (acc : bytes) | After (d : delim) (acc : bytes) | Dash | Slash.

#[export] Instance delim_eq_dec : EqDecision delim.
Proof. solve_decision. Defined.
#[export] Instance item_eq_dec : EqDecision item.
Proof. solve_decision. Defined.
#[export] Instance state_eq_dec : EqDecision state.
Proof. solve_decision. Defined.

(** *** Line continuation *)

Definition BACKSLASH : byte := z2b 0x5C.
Definition LF : byte := z2b 0x0A.
Definition CR : byte := z2b 0x0D.

(** A backslash and the end of its line, LF or CR LF, are left out. *)
Fixpoint joined_lines (s : bytes) : bytes :=
  match s with
  | [] => []
  | b :: r =>
      match bool_decide (b = BACKSLASH), r with
      | true, c :: r1 =>
          if bool_decide (c = LF) then joined_lines r1
          else match bool_decide (c = CR), r1 with
               | true, d :: r2 => if bool_decide (d = LF) then joined_lines r2 else b :: joined_lines r
               | _, _ => b :: joined_lines r
               end
      | _, _ => b :: joined_lines r
      end
  end.

Definition line_ends (s : bytes) : bool :=
  match s with
  | c :: r => bool_decide (c = LF) || (bool_decide (c = CR) && match r with d :: _ => bool_decide (d = LF) | [] => false end)
  | [] => false
  end.

(** Is there a line continuation in [s]? *)
Fixpoint continued (s : bytes) : bool :=
  match s with [] => false | b :: r => (bool_decide (b = BACKSLASH) && line_ends r) || continued r end.

Definition closing (d : delim) : byte := match d with Bracket => RBRACKET | Quote => QUOTE | DoubleQuote => DQUOTE end.
Definition token (d : delim) (acc : bytes) : item := match d with Quote => Text (joined_lines acc) | _ => Name acc end.

Definition opens (b : byte) : state :=
  if bool_decide (b = LBRACKET) then In Bracket []
  else if bool_decide (b = QUOTE) then In Quote []
  else if bool_decide (b = DQUOTE) then In DoubleQuote []
  else if bool_decide (b = DASH) then Dash
  else if bool_decide (b = SLASH) then Slash
  else Between.

(** A byte read between tokens. *)
Definition fresh (b : byte) : list item * state :=
  match opens b with Between => ([Ch b], Between) | st => ([], st) end.

Definition emit (t : item) (r : list item * state) : list item * state := (t :: r.1, r.2).

Definition step (st : state) (b : byte) : option (list item * state) :=
  match st with
  | Between => Some (fresh b)
  | In d acc => Some ([], if bool_decide (b = closing d) then After d acc else In d (acc ++ [b]))
  | After d acc => Some (if bool_decide (b = closing d) then ([], In d (acc ++ [b])) else emit (token d acc) (fresh b))
  | Dash => if bool_decide (b = DASH) then None else Some (emit (Ch DASH) (fresh b))
  | Slash => if bool_decide (b = STAR) then None else Some (emit (Ch SLASH) (fresh b))
  end.

Fixpoint run (st : state) (s : bytes) : option (list item * state) :=
  match s with
  | [] => Some ([], st)
  | b :: s =>
      match step st b with
      | None => None
      | Some (ts, st) => match run st s with None => None | Some (ts', st) => Some (ts ++ ts', st) end
      end
  end.

Definition finish (st : state) : option (list item) :=
  match st with
  | Between => Some []
  | In _ _ => None
  | After d acc => Some [token d acc]
  | Dash => Some [Ch DASH]
  | Slash => Some [Ch SLASH]
  end.

Definition lex (s : bytes) : option (list item) :=
  match run Between s with
  | None => None
  | Some (ts, st) => match finish st with None => None | Some ts' => Some (ts ++ ts') end
  end.

Lemma joined_lines_id s : continued s = false -> joined_lines s = s.
Proof.
  induction s as [|b s IH]; intros H; [done|]. cbn [continued] in H. apply orb_false_elim in H as [Hb Hs]. specialize (IH Hs).
  cbn [joined_lines]. destruct (bool_decide (b = BACKSLASH)); [|by rewrite IH]. destruct s as [|c s]; [done|].
  cbn [line_ends andb] in Hb. apply orb_false_elim in Hb as [-> Hc]. destruct (bool_decide (c = CR)); [|by rewrite IH].
  destruct s as [|d s]; [by rewrite IH|]. cbn [andb] in Hc. by rewrite Hc, IH.
Qed.

Lemma continued_no_backslash s : BACKSLASH ∉ s -> continued s = false.
Proof.
  induction s as [|b s IH]; intros H; [done|]. rewrite not_elem_of_cons in H. destruct H as [Hb Hs]. cbn [continued].
  rewrite bool_decide_eq_false_2 by done. by apply IH.
Qed.

Lemma line_ends_LF s : line_ends s = true -> LF ∈ s.
Proof.
  destruct s as [|c s]; [done|]. cbn [line_ends]. intros [H|H]%orb_prop; [apply bool_decide_eq_true_1 in H; subst; left|].
  apply andb_prop in H as [_ H]. destruct s as [|d s]; [done|]. apply bool_decide_eq_true_1 in H. subst. right. left.
Qed.

Lemma continued_one_line s : LF ∉ s -> continued s = false.
Proof.
  induction s as [|b s IH]; intros H; [done|]. rewrite not_elem_of_cons in H. destruct H as [_ Hs]. cbn [continued]. rewrite (IH Hs), orb_false_r.
  destruct (line_ends s) eqn:E; [by apply line_ends_LF in E|]. apply andb_false_r.
Qed.

(** Text outside names and strings. *)
Definition chars (s : bytes) : list item := Ch <$> s.

(** ** Readings *)

Definition calm (st : state) : bool := match st with Between | After _ _ => true | _ => false end.
Definition flush (st : state) : list item := match st with After d acc => [token d acc] | _ => [] end.

(** From [st], [s] reads as [ts] and leaves nothing open. *)
Definition from (st : state) (s : bytes) (ts : list item) : Prop :=
  exists ts' st', run st s = Some (ts', st') /\ calm st' = true /\ ts' ++ flush st' = ts.

(** After plain text; and after anything that is complete. *)
Definition reads0 (s : bytes) (ts : list item) : Prop := from Between s ts.
Definition reads (s : bytes) (ts : list item) : Prop := forall st, calm st = true -> from st s (flush st ++ ts).

Lemma run_app st a b :
  run st (a ++ b) =
  match run st a with
  | None => None
  | Some (ts, st) => match run st b with None => None | Some (ts', st) => Some (ts ++ ts', st) end
  end.
Proof.
  revert st. induction a as [|x a IH]; intros st; cbn [app run]; [by destruct (run st b) as [[]|]|].
  destruct (step st x) as [[ts st']|]; [|done]. rewrite IH. destruct (run st' a) as [[ts' st'']|]; [|done].
  destruct (run st'' b) as [[ts'' st3]|]; [|done]. by rewrite app_assoc.
Qed.

Lemma reads_weaken s ts : reads s ts -> reads0 s ts.
Proof. intros H. exact (H Between eq_refl). Qed.

Lemma from_app st a b ta tb : from st a ta -> reads b tb -> from st (a ++ b) (ta ++ tb).
Proof.
  intros (t1 & s1 & H1 & Hc & <-) Hb. destruct (Hb s1 Hc) as (t2 & s2 & H2 & Hc2 & E).
  exists (t1 ++ t2), s2. rewrite run_app, H1, H2. split_and!; [done|done|]. by rewrite <- !app_assoc, E.
Qed.

Lemma reads_app a b ta tb : reads a ta -> reads b tb -> reads (a ++ b) (ta ++ tb).
Proof. intros Ha Hb st Hst. rewrite app_assoc. apply from_app; [by apply Ha|done]. Qed.

Lemma reads0_app a b ta tb : reads0 a ta -> reads b tb -> reads0 (a ++ b) (ta ++ tb).
Proof. apply from_app. Qed.

Lemma reads_nil : reads [] [].
Proof. intros st Hst. exists [], st. by rewrite app_nil_r. Qed.

Lemma reads0_lex s ts : reads0 s ts -> lex s = Some ts.
Proof.
  intros (t1 & s1 & H1 & Hc & <-). unfold lex. rewrite H1.
  destruct s1; try done; cbn [finish flush]; by rewrite ?app_nil_r.
Qed.

(** Plain text: it reads as itself, and its first byte closes nothing. *)
Definition starts (p : bytes) : bool :=
  match p with [] => false | b :: _ => negb (bool_decide (b ∈ [RBRACKET; QUOTE; DQUOTE])) end.

Definition plain (p : bytes) : Prop := run Between p = Some (chars p, Between).

Definition plainly (p : bytes) : bool := starts p && bool_decide (run Between p = Some (chars p, Between)).

Lemma run_After d acc b s : b <> closing d ->
  run (After d acc) (b :: s) =
  match run Between (b :: s) with None => None | Some (ts, st) => Some (token d acc :: ts, st) end.
Proof.
  intros Hb. cbn [run step]. rewrite bool_decide_eq_false_2 by done. destruct (fresh b) as [ts st]. cbn.
  by destruct (run st s) as [[]|].
Qed.

Lemma run_plain p st : plain p -> starts p = true -> calm st = true -> run st p = Some (flush st ++ chars p, Between).
Proof.
  intros Hp Hs Hst. destruct st; try done. destruct p as [|b p]; [done|]. rewrite run_After; [by rewrite Hp|].
  cbn [starts] in Hs. apply negb_true_iff, bool_decide_eq_false_1 in Hs. intros ->. apply Hs. destruct d; cbn; set_solver.
Qed.

Lemma reads_chars p : plain p -> starts p = true -> reads p (chars p).
Proof. intros Hp Hs st Hst. exists (flush st ++ chars p), Between. rewrite run_plain by done. by rewrite app_nil_r. Qed.

Lemma plainly_spec p : plainly p = true -> plain p /\ starts p = true.
Proof. unfold plainly, plain. intros [Hs H]%andb_true_iff. by apply bool_decide_eq_true_1 in H. Qed.

Lemma reads_plainly p : plainly p = true -> reads p (chars p).
Proof. intros [? ?]%plainly_spec. by apply reads_chars. Qed.

(** Plain text, then something that needs plain text before it. *)
Lemma reads_sep p s ts : plainly p = true -> reads0 s ts -> reads (p ++ s) (chars p ++ ts).
Proof.
  intros [Hp Hs]%plainly_spec (t1 & s1 & H1 & Hc & <-) st Hst.
  exists (flush st ++ chars p ++ t1), s1. rewrite run_app, run_plain, H1 by done.
  split_and!; [by rewrite <- app_assoc|done|]. by rewrite <- !app_assoc.
Qed.

Lemma reads0_plain p : plain p -> reads0 p (chars p).
Proof. intros Hp. exists (chars p), Between. split_and!; [done|done|]. by rewrite app_nil_r. Qed.

Lemma plain_app p q : plain p -> plain q -> plain (p ++ q).
Proof. unfold plain, chars. intros Hp Hq. by rewrite run_app, Hp, Hq, fmap_app. Qed.

(** *** Quoted text *)

Lemma run_In d acc s : run (In d acc) (doubled (closing d) s ++ [closing d]) = Some ([], After d (acc ++ s)).
Proof.
  revert acc. induction s as [|c s IH]; intros acc; cbn [doubled app].
  - cbn [run step]. rewrite bool_decide_eq_true_2 by done. by rewrite !app_nil_r.
  - destruct (bool_decide (c = closing d)) eqn:E.
    + apply bool_decide_eq_true_1 in E. subst c. cbn [app run step].
      rewrite bool_decide_eq_true_2 by done. cbn [run step]. rewrite bool_decide_eq_true_2 by done.
      rewrite IH, <- app_assoc. done.
    + cbn [app run step]. rewrite E, IH, <- app_assoc. done.
Qed.

Lemma reads_quoted d o s st :
  calm st = true -> fresh o = ([], In d []) -> (forall e, o <> closing e) \/ st = Between ->
  from st (o :: doubled (closing d) s ++ [closing d]) (flush st ++ [token d s]).
Proof.
  intros Hst Ho Hne. exists (flush st), (After d s). split_and!; [|done|done].
  assert (H : run Between (o :: doubled (closing d) s ++ [closing d]) = Some ([], After d s)).
  { cbn [run step]. rewrite Ho. by rewrite run_In. }
  destruct st; try done. rewrite run_After; [by rewrite H|]. by destruct Hne as [Hne|?].
Qed.

(** A quoted identifier is one name, whatever it holds. *)
Lemma reads_EscapeIdentifier name : reads (MSSQLValueSerializer.EscapeIdentifier name) [Name name].
Proof. intros st Hst. apply (reads_quoted Bracket LBRACKET); [done|done|]. left. by intros []. Qed.

Lemma reads_bracketed name : reads (LBRACKET :: EscapeBracketIdentifier name ++ [RBRACKET]) [Name name].
Proof. apply reads_EscapeIdentifier. Qed.

(** An escaped string between quotes is one string, unless it continues a line. *)
Lemma reads0_quoted s : continued s = false -> reads0 (QUOTE :: EscapeSqlSingleQuotes s ++ [QUOTE]) [Text s].
Proof.
  intros Hs. rewrite <- (joined_lines_id s Hs) at 2. change [Text (joined_lines s)] with [token Quote s].
  apply (reads_quoted Quote QUOTE); [done|done|by right].
Qed.

(** The other escaping loop does the same. *)
Lemma list_find_bracket_None s : list_find (fun c => c = RBRACKET) s = None -> doubled RBRACKET s = s.
Proof.
  induction s as [|c s IH]; intros Hf; [done|]. cbn [doubled].
  apply list_find_None, Forall_cons in Hf as [Hc Hs]. rewrite bool_decide_eq_false_2 by done.
  f_equal. by apply IH, list_find_None.
Qed.

Lemma doubled_app q a b : doubled q (a ++ b) = doubled q a ++ doubled q b.
Proof. induction a as [|c a IH]; [done|]. cbn [doubled app]. rewrite IH. by destruct (bool_decide _). Qed.

Lemma insert_loop_spec fuel done_ rest :
  (length rest < fuel)%nat -> insert_loop fuel (done_ ++ rest) (length done_) = done_ ++ doubled RBRACKET rest.
Proof.
  revert done_ rest. induction fuel as [|fuel IH]; intros done_ rest Hf; [lia|]. cbn [insert_loop].
  rewrite drop_app_length. destruct (list_find _ rest) as [[i c]|] eqn:Ef; [|by rewrite list_find_bracket_None].
  apply list_find_Some in Ef as (Hi & -> & Hbefore).
  rewrite <- (take_drop_middle _ _ _ Hi) at 1 3.
  set (p := take i rest) in *. set (q := drop (S i) rest) in *.
  assert (Hp : length p = i) by (unfold p; apply lookup_lt_Some in Hi; rewrite length_take; lia).
  assert (E : take (length done_ + i) (done_ ++ p ++ RBRACKET :: q) = done_ ++ p).
  { rewrite app_assoc. apply take_app_length'. by rewrite length_app, Hp. }
  assert (E' : drop (length done_ + i) (done_ ++ p ++ RBRACKET :: q) = RBRACKET :: q).
  { rewrite app_assoc. apply drop_app_length'. by rewrite length_app, Hp. }
  assert (E0 : done_ ++ rest = done_ ++ p ++ RBRACKET :: q) by (unfold p, q; by rewrite take_drop_middle).
  rewrite ?E0, E, E'.
  replace ((done_ ++ p) ++ RBRACKET :: RBRACKET :: q) with ((done_ ++ p ++ [RBRACKET; RBRACKET]) ++ q)
    by (by rewrite <- !app_assoc).
  replace (length done_ + i + 2)%nat with (length (done_ ++ p ++ [RBRACKET; RBRACKET])).
  2: { rewrite !length_app, Hp. cbn. lia. }
  rewrite IH by (unfold q; rewrite length_drop; apply lookup_lt_Some in Hi; lia).
  rewrite doubled_app. cbn [doubled]. rewrite bool_decide_eq_true_2 by done.
  rewrite (list_find_bracket_None p); [by rewrite <- !app_assoc|].
  apply list_find_None, Forall_lookup. intros j x Hj. unfold p in Hj.
  apply lookup_take_Some in Hj as [Hj ?]. by apply (Hbefore j).
Qed.

Lemma Delete_EscapeIdentifier_eq name : Delete_EscapeIdentifier name = MSSQLValueSerializer.EscapeIdentifier name.
Proof.
  unfold Delete_EscapeIdentifier, MSSQLValueSerializer.EscapeIdentifier.
  pose proof (insert_loop_spec (S (length name)) [] name ltac:(lia)) as E. cbn [app length] in E. by rewrite E.
Qed.

(** ** Numerals *)

Definition digit (d : Z) : byte := z2b (48 + d).
Definition is_digit (b : byte) : bool := (48 <=? b2z b) && (b2z b <=? 57).
Definition digit_value (b : byte) : Z := b2z b - 48.

Fixpoint digits (fuel : nat) (n : Z) : bytes :=
  match fuel with
  | O => []
  | S fuel => if n <? 10 then [digit n] else digits fuel (n / 10) ++ [digit (n mod 10)]
  end.

(** The decimal numeral of a number that is not negative; [std::to_string]. *)
Definition numeral (n : Z) : bytes := digits (S (Z.to_nat (Z.log2 n))) n.
Definition std_to_string (z : Z) : bytes := if z <? 0 then DASH :: numeral (- z) else numeral z.

(** printf's [%0wd]. *)
Definition zeros (n : Z) : bytes := replicate (Z.to_nat n) (digit 0).
Definition padded (w : Z) (s : bytes) : bytes := zeros (w - zlen s) ++ s.
Definition fmt0 (w z : Z) : bytes := if z <? 0 then DASH :: padded (w - 1) (numeral (- z)) else padded w (numeral z).

(** Reading a numeral. *)
Fixpoint read_digits (acc : Z) (s : bytes) : option Z :=
  match s with
  | [] => Some acc
  | b :: s => if is_digit b then read_digits (10 * acc + digit_value b) s else None
  end.

Definition read_numeral (s : bytes) : option Z := match s with [] => None | _ => read_digits 0 s end.

Lemma b2z_digit d : 0 <= d < 10 -> b2z (digit d) = 48 + d.
Proof. intros H. unfold digit. apply b2z_z2b_small. lia. Qed.

Lemma is_digit_digit d : 0 <= d < 10 -> is_digit (digit d) = true.
Proof. intros H. unfold is_digit. rewrite b2z_digit by done. apply andb_true_iff. rewrite !Z.leb_le. lia. Qed.

Lemma read_digits_app acc a b :
  read_digits acc (a ++ b) = match read_digits acc a with Some acc => read_digits acc b | None => None end.
Proof. revert acc. induction a as [|x a IH]; intros acc; cbn [app read_digits]; [done|]. destruct (is_digit x); [apply IH|done]. Qed.

Lemma digits_S fuel n : 0 <= n -> (Z.to_nat n < fuel)%nat \/ (Z.log2 n < Z.of_nat fuel) ->
  digits fuel n <> [] /\ Forall (fun b => is_digit b = true) (digits fuel n) /\
  forall acc, read_digits acc (digits fuel n) = Some (acc * 10 ^ zlen (digits fuel n) + n).
Proof.
  revert n. induction fuel as [|fuel IH]; intros n Hn Hf.
  - exfalso. destruct Hf; [lia|]. pose proof (Z.log2_nonneg n). lia.
  - cbn [digits]. destruct (Z.ltb_spec n 10) as [Hlt|Hge].
    + split_and!; [done| |].
      * repeat constructor. by apply is_digit_digit.
      * intros acc. cbn [read_digits]. rewrite is_digit_digit by done. unfold digit_value. rewrite b2z_digit by done.
        change (10 ^ zlen [digit n]) with 10. f_equal. lia.
    + assert (Hq : 0 <= n / 10) by zlia.
      assert (Hf' : Z.log2 (n / 10) < Z.of_nat fuel).
      { destruct Hf as [Hf|Hf].
        - destruct (Z.eq_dec (n / 10) 0) as [->|?]; [cbn; zlia|]. pose proof (Z.log2_lt_lin (n / 10) ltac:(lia)). zlia.
        - assert (Z.log2 (n / 10) <= Z.log2 n - 1); [|lia].
          assert (Z.log2 (n / 10) <= Z.log2 (n / 2 ^ 1)) by (apply Z.log2_le_mono; change (2 ^ 1) with 2; zlia).
          assert (Z.log2 (n / 2 ^ 1) = Z.log2 n - 1); [|lia].
          rewrite <- Z.shiftr_div_pow2, Z.log2_shiftr by lia. pose proof (Z.log2_le_mono 2 n ltac:(lia)). cbn in *. lia. }
      destruct (IH (n / 10) Hq (or_intror Hf')) as (Hne & Hd & Hr). split_and!.
      * by destruct (digits fuel (n / 10)).
      * apply Forall_app. split; [done|]. repeat constructor. apply is_digit_digit. zlia.
      * intros acc. rewrite read_digits_app, Hr. cbn [read_digits]. rewrite is_digit_digit by zlia.
        unfold digit_value. rewrite b2z_digit by zlia. rewrite zlen_app, zlen_cons, zlen_nil, Z.pow_add_r by (pose proof (zlen_nonneg (digits fuel (n / 10))); lia).
        f_equal. zlia.
Qed.

Lemma numeral_spec n : 0 <= n ->
  numeral n <> [] /\ Forall (fun b => is_digit b = true) (numeral n) /\
  forall acc, read_digits acc (numeral n) = Some (acc * 10 ^ zlen (numeral n) + n).
Proof. intros Hn. apply digits_S; [done|]. right. pose proof (Z.log2_nonneg n). lia. Qed.

Lemma read_numeral_numeral n : 0 <= n -> read_numeral (numeral n) = Some n.
Proof.
  intros Hn. destruct (numeral_spec n Hn) as (Hne & _ & Hr). unfold read_numeral.
  destruct (numeral n) eqn:E; [done|]. rewrite <- E in *. by rewrite Hr.
Qed.

Lemma is_digit_plain b : is_digit b = true -> opens b = Between /\ b <> DASH /\ b <> STAR.
Proof.
  intros H. assert (Hb : 48 <= b2z b <= 57) by (unfold is_digit in H; lia).
  assert (forall c, b2z c < 48 \/ 57 < b2z c -> b <> c) as Hne by (intros c Hc ->; lia).
  split; [|split; apply Hne; by vm_compute; auto].
  unfold opens. repeat (rewrite bool_decide_eq_false_2 by (apply Hne; vm_compute; auto)). done.
Qed.

Lemma plain_cons b p : opens b = Between -> plain p -> plain (b :: p).
Proof. unfold plain, chars, fresh. intros Hb Hp. cbn [run step]. unfold fresh. by rewrite Hb, Hp. Qed.

Lemma plain_digits s : Forall (fun b => is_digit b = true) s -> plain s.
Proof. induction 1 as [|b s Hb _ IH]; [done|]. apply plain_cons; [by apply is_digit_plain|done]. Qed.

(** A sign before a digit. *)
Lemma plain_dash b p : is_digit b = true -> plain (b :: p) -> plain (DASH :: b :: p).
Proof.
  intros Hb Hp. destruct (is_digit_plain b Hb) as (Ho & Hd & _). unfold plain, chars in *. cbn [run step] in *.
  change (fresh DASH) with (@nil item, Dash). cbn [run step]. rewrite bool_decide_eq_false_2 by done.
  unfold fresh in *. rewrite Ho in *. cbn [emit fst snd]. destruct (run Between p) as [[ts st]|]; [|done].
  by injection Hp as -> ->.
Qed.

Lemma starts_digits s : s <> [] -> Forall (fun b => is_digit b = true) s -> starts s = true.
Proof.
  intros Hne H. destruct H as [|b s Hb _]; [done|]. cbn. apply negb_true_iff, bool_decide_eq_false_2.
  unfold is_digit in Hb. intros Hin. rewrite !elem_of_cons in Hin.
  destruct Hin as [->|[->|[->|Hin]]]; try (by vm_compute in Hb). by apply elem_of_nil in Hin.
Qed.

Lemma numeral_plain n : 0 <= n -> plain (numeral n) /\ starts (numeral n) = true.
Proof.
  intros Hn. destruct (numeral_spec n Hn) as (Hne & Hd & _). split; [by apply plain_digits|by apply starts_digits].
Qed.

Lemma std_to_string_plain z : plain (std_to_string z) /\ starts (std_to_string z) = true.
Proof.
  unfold std_to_string. destruct (Z.ltb_spec z 0) as [Hz|Hz]; [|by apply numeral_plain].
  split; [|done]. destruct (numeral_spec (- z) ltac:(lia)) as (Hne & Hd & _). pose proof (plain_digits _ Hd) as Hp.
  destruct (numeral (- z)) as [|b p]; [done|]. apply Forall_cons in Hd as [Hb _]. by apply plain_dash.
Qed.
