(* ===== verification/SqlRead.v ===== *)
(** * Reading T-SQL

    The reference the generated statements are read with, on the items of the
    lexer: constants ([read_constant]), lists of names, and the rows of a table
    value constructor, whose values end at a comma or a closing parenthesis that
    is not inside another. *)

From S2P Require Import Prelude Sql.

(** ** Constants *)

(** [CDecimal m k] is [m / 10^k], [CReal m e] is [m * 10^e]. *)
Inductive constant : Type :=
  | CNull
  | CInt (z : Z)
  | CDecimal (m k : Z)
  | CReal (m e : Z)
  | CBinary (b : bytes)
  | CString (national : bool) (s : bytes)
  | CCast (c : constant) (type_name : bytes).

Definition unchars (l : list item) : option bytes := mapM (fun i => match i with Ch b => Some b | _ => None end) l.

(** Split at the first [c]. *)
Fixpoint cut (c : byte) (s : bytes) : option (bytes * bytes) :=
  match s with
  | [] => None
  | b :: s =>
      if bool_decide (b = c) then Some ([], s)
      else match cut c s with Some (l, r) => Some (b :: l, r) | None => None end
  end.

(** What follows a given beginning. *)
Fixpoint eat_bytes (p s : bytes) : option bytes :=
  match p, s with
  | [], _ => Some s
  | a :: p, b :: s => if bool_decide (a = b) then eat_bytes p s else None
  | _ :: _, [] => None
  end.

Definition point_ : byte := z2b 0x2E.
Definition exponent_ : byte := z2b 0x65.

(** Digits, perhaps with a point: the integer and the digits after the point. *)
Definition read_mantissa (s : bytes) : option (Z * option Z) :=
  match cut point_ s with
  | Some (i, f) =>
      match i, f, read_digits 0 (i ++ f) with _ :: _, _ :: _, Some m => Some (m, Some (zlen f)) | _, _, _ => None end
  | None => match read_numeral s with Some m => Some (m, None) | None => None end
  end.

Definition read_exponent (s : bytes) : option Z :=
  match s with
  | b :: r =>
      if bool_decide (b = DASH) then (z ← read_numeral r; Some (- z))
      else if bool_decide (b = z2b 0x2B) then read_numeral r else read_numeral s
  | [] => None
  end.

Definition read_unsigned (sign : Z) (s : bytes) : option constant :=
  match cut exponent_ s with
  | Some (mantissa, ex) =>
      '(m, k) ← read_mantissa mantissa; e ← read_exponent ex; Some (CReal (sign * m) (e - default 0 k))
  | None =>
      '(m, k) ← read_mantissa s;
      Some (match k with Some k => CDecimal (sign * m) k | None => CInt (sign * m) end)
  end.

Definition read_number (s : bytes) : option constant :=
  match s with
  | b :: r => if bool_decide (b = DASH) then read_unsigned (-1) r else read_unsigned 1 s
  | [] => None
  end.

Definition hex_value (b : byte) : option Z :=
  let z := b2z b in
  if (48 <=? z) && (z <=? 57) then Some (z - 48) else if (65 <=? z) && (z <=? 70) then Some (z - 55) else None.

Fixpoint read_hex (s : bytes) : option bytes :=
  match s with
  | [] => Some []
  | a :: b :: s => x ← hex_value a; y ← hex_value b; r ← read_hex s; Some (z2b (16 * x + y) :: r)
  | _ => None
  end.

(** The bare words, numbers and binary strings. *)
Definition read_bare (s : bytes) : option constant :=
  if bool_decide (s = tx "NULL") then Some CNull
  else match eat_bytes (tx "0x") s with
  | Some h => b ← read_hex h; Some (CBinary b)
  | None => read_number s
  end.

Definition read_simple (l : list item) : option constant :=
  match l with
  | [Text s] => Some (CString false s)
  | [Ch b; Text s] => if bool_decide (b = z2b 0x4E) then Some (CString true s) else None
  | _ => s ← unchars l; read_bare s
  end.

(** Strip characters. *)
Fixpoint eat (p : bytes) (l : list item) : option (list item) :=
  match p, l with
  | [], _ => Some l
  | b :: p, Ch c :: l => if bool_decide (b = c) then eat p l else None
  | _ :: _, _ => None
  end.

(** Everything before a blank that is not in a string, and from it on. *)
Fixpoint before_blank (l : list item) : list item * list item :=
  match l with
  | [] => ([], [])
  | Ch b :: r => if bool_decide (b = z2b 0x20) then ([], l) else (Ch b :: (before_blank r).1, (before_blank r).2)
  | i :: r => (i :: (before_blank r).1, (before_blank r).2)
  end.

(** The last character, which must be a closing parenthesis, removed. *)
Definition unclose (s : bytes) : option bytes :=
  match reverse s with b :: r => if bool_decide (b = z2b 0x29) then Some (reverse r) else None | [] => None end.

Definition read_constant (l : list item) : option constant :=
  match eat (tx "CAST(") l with
  | Some l =>
      let '(value, l) := before_blank l in
      c ← read_simple value; l ← eat (tx " AS ") l; s ← unchars l; ty ← unclose s; Some (CCast c ty)
  | None => read_simple l
  end.

(** How a constant begins: a quote, perhaps after [N], a digit, perhaps after a
    minus sign, [CAST(], or [NULL]. *)
Definition starts_literal (l : list item) : bool :=
  match l with
  | Text _ :: _ => true
  | Ch b :: Text _ :: _ => bool_decide (b = z2b 0x4E)
  | Ch b :: r =>
      is_digit b || (bool_decide (b = DASH) && match r with Ch d :: _ => is_digit d | _ => false end) ||
      bool_decide (is_Some (eat (tx "CAST(") l)) || bool_decide (is_Some (eat (tx "NULL") l))
  | _ => false
  end.

Definition parse_constant (s : bytes) : option constant := l ← lex s; read_constant l.

(** ** Values and rows *)

Definition PARL : byte := z2b 0x28.
Definition PARR : byte := z2b 0x29.
Definition COMMA : byte := z2b 0x2C.

Definition prepend (ts : list item) (r : option (list item * list item)) : option (list item * list item) :=
  match r with Some (a, b) => Some (ts ++ a, b) | None => None end.

Definition BLANK : byte := z2b 0x20.

(** The items up to the comma or parenthesis that ends a value; with [blank],
    a blank or the end of the text ends it as well. *)
Fixpoint take_until (blank : bool) (depth : nat) (l : list item) : option (list item * list item) :=
  match l with
  | [] => match depth with O => if blank then Some ([], []) else None | S _ => None end
  | i :: r =>
      if bool_decide (i = Ch PARL) then prepend [i] (take_until blank (S depth) r)
      else if bool_decide (i = Ch PARR) then
        match depth with O => Some ([], l) | S depth => prepend [i] (take_until blank depth r) end
      else if bool_decide (i = Ch COMMA) then
        match depth with O => Some ([], l) | S _ => prepend [i] (take_until blank depth r) end
      else if blank && bool_decide (i = Ch BLANK) then
        match depth with O => Some ([], l) | S _ => prepend [i] (take_until blank depth r) end
      else prepend [i] (take_until blank depth r)
  end.

Definition take_value : nat -> list item -> option (list item * list item) := take_until false.

(** Things separated by [sep]; [fuel] bounds their number. *)
Section Separated.
Context {A : Type} (one : list item -> option (A * list item)) (sep : bytes).

Fixpoint separated (fuel : nat) (l : list item) : option (list A * list item) :=
  match fuel with
  | O => None
  | S fuel =>
      '(a, l) ← one l;
      match eat sep l with
      | Some l => '(r, l) ← separated fuel l; Some (a :: r, l)
      | None => Some ([a], l)
      end
  end.
End Separated.

Definition read_name (l : list item) : option (bytes * list item) :=
  match l with Name s :: l => Some (s, l) | _ => None end.

Definition read_names (l : list item) : option (list bytes * list item) := separated read_name (tx ", ") (S (length l)) l.

(** A value of a row. *)
Definition read_value (l : list item) : option (constant * list item) :=
  '(v, l) ← take_value 0 l; c ← read_constant v; Some (c, l).

Definition read_row (l : list item) : option (list constant * list item) :=
  l ← eat (tx "(") l; '(r, l) ← separated read_value (tx ", ") (S (length l)) l; l ← eat (tx ")") l; Some (r, l).

(** ** Lemmas *)

Lemma eat_chars p l : eat p (chars p ++ l) = Some l.
Proof. induction p as [|b p IH]; cbn; [done|]. by rewrite bool_decide_eq_true_2. Qed.

Lemma unchars_chars s : unchars (chars s) = Some s.
Proof. unfold unchars, chars. induction s as [|b s IH]; [done|]. cbn. cbn in IH. by rewrite IH. Qed.

(** [ts] keeps the reader of a value going, from depth [d] to [d']. *)
Definition within (d : nat) (ts : list item) (d' : nat) : Prop :=
  forall blank l, take_until blank d (ts ++ l) = prepend ts (take_until blank d' l).

Lemma prepend_app a b r : prepend (a ++ b) r = prepend a (prepend b r).
Proof. destruct r as [[x y]|]; [|done]. cbn. by rewrite app_assoc. Qed.

Lemma within_app d a d' b d'' : within d a d' -> within d' b d'' -> within d (a ++ b) d''.
Proof. intros Ha Hb blank l. by rewrite <- app_assoc, Ha, Hb, prepend_app. Qed.

Lemma within_nil d : within d [] d.
Proof. intros blank l. cbn. by destruct (take_until blank d l) as [[]|]. Qed.

(** Nothing that could end a value. *)
Definition inert (i : item) : bool := bool_decide (i ∉ [Ch PARL; Ch PARR; Ch COMMA; Ch BLANK]).

Lemma within_inert d ts : Forall (fun i => inert i = true) ts -> within d ts d.
Proof.
  induction 1 as [|i ts Hi _ IH]; [apply within_nil|]. intros blank l. cbn [app take_until].
  unfold inert in Hi. apply bool_decide_eq_true_1 in Hi. rewrite !not_elem_of_cons in Hi. destruct Hi as (H1 & H2 & H3 & H4 & _).
  rewrite !bool_decide_eq_false_2 by done. rewrite andb_false_r, IH. by rewrite <- (prepend_app [i]).
Qed.

(** The depth after some text, if no value ends in it. *)
Fixpoint depth_after (d : nat) (s : bytes) : option nat :=
  match s with
  | [] => Some d
  | b :: s =>
      if bool_decide (b = PARL) then depth_after (S d) s
      else if bool_decide (b = PARR) then match d with O => None | S d => depth_after d s end
      else if bool_decide (b = COMMA) || bool_decide (b = BLANK) then match d with O => None | S _ => depth_after d s end
      else depth_after d s
  end.

Lemma within_chars s d d' : depth_after d s = Some d' -> within d (chars s) d'.
Proof.
  revert d. induction s as [|b s IH]; intros d; cbn [depth_after]; [intros [= ->]; apply within_nil|].
  intros H blank l. cbn [chars fmap list_fmap app take_until].
  assert (E : forall c, bool_decide (Ch b = Ch c) = bool_decide (b = c)) by (intros c; apply bool_decide_ext; split; congruence).
  assert (IH' : forall d0, depth_after d0 s = Some d' ->
    prepend [Ch b] (take_until blank d0 (chars s ++ l)) = prepend (Ch b :: chars s) (take_until blank d' l)).
  { intros d0 H0. rewrite (IH _ H0). by rewrite <- (prepend_app [Ch b]). }
  rewrite !E. destruct (bool_decide (b = PARL)); [by apply IH'|].
  destruct (bool_decide (b = PARR)); [destruct d; [done|by apply IH']|].
  destruct (bool_decide (b = COMMA)); [destruct d; [done|by apply IH']|]. cbn [orb] in H.
  destruct (bool_decide (b = BLANK)); [destruct d, blank; try done; by apply IH'|]. rewrite andb_false_r. by apply IH'.
Qed.

(** Where a value ends. *)
Definition stops (l : list item) : Prop := exists c r, l = Ch c :: r /\ (c = PARR \/ c = COMMA).

Lemma take_value_stop l : stops l -> take_value 0 l = Some ([], l).
Proof. intros (c & r & -> & [->| ->]); reflexivity. Qed.

(** Where a word ends. *)
Definition follows (l : list item) : Prop := l = [] \/ exists c r, l = Ch c :: r /\ c ∈ [PARR; COMMA; BLANK].

Lemma take_word_stop l : follows l -> take_until true 0 l = Some ([], l).
Proof. intros [->|(c & r & -> & Hc)]; [done|]. repeat (apply elem_of_cons in Hc as [-> |Hc]; [reflexivity|]). by apply elem_of_nil in Hc. Qed.

Lemma read_value_app ts c l : within 0 ts 0 -> read_constant ts = Some c -> stops l -> read_value (ts ++ l) = Some (c, l).
Proof.
  intros Hw Hc Hl. unfold read_value, take_value. rewrite Hw. fold take_value. rewrite take_value_stop by done. cbn. by rewrite app_nil_r, Hc.
Qed.

(** ** Things separated by a text *)

(** The loops [if (i > 0) sql += sep; sql += x]. *)
Fixpoint join {A} (sep : list A) (l : list (list A)) : list A :=
  match l with
  | [] => []
  | [x] => x
  | x :: l => x ++ sep ++ join sep l
  end.

Lemma join_cons {A} (sep x : list A) y l : join sep (x :: y :: l) = x ++ sep ++ join sep (y :: l).
Proof. done. Qed.

Lemma length_join {A} (sep : list A) l : sep <> [] -> (length l <= S (length (join sep l)))%nat.
Proof.
  intros Hs. induction l as [|x [|y l] IH]; [cbn; lia|cbn; lia|]. rewrite join_cons, !length_app.
  assert (0 < length sep)%nat by (destruct sep; [done|cbn; lia]). cbn [length] in *. lia.
Qed.

Lemma reads_join sep xs tss : plainly sep = true -> Forall2 reads xs tss -> reads (join sep xs) (join (chars sep) tss).
Proof.
  intros Hs. induction 1 as [|x ts xs tss Hx H IH]; [apply reads_nil|]. destruct H as [|y ts' xs tss Hy H]; [done|].
  rewrite !join_cons. by repeat apply reads_app; [| apply reads_plainly|].
Qed.

(** The separator gives each thing the plain text it needs before it. *)
Lemma reads_sep_join p sep xs tss :
  plainly p = true -> plainly sep = true -> Forall2 reads0 xs tss ->
  reads (p ++ join sep xs) (chars p ++ join (chars sep) tss).
Proof.
  intros Hp Hs H. revert p Hp. induction H as [|x ts xs tss Hx H IH]; intros p Hp.
  - cbn [join]. rewrite !app_nil_r. by apply reads_plainly.
  - destruct H as [|y ts' xs tss Hy H]; [by apply reads_sep|]. rewrite !join_cons, !(app_assoc p), !(app_assoc (chars p)).
    apply reads_app; [by apply reads_sep|]. by apply IH.
Qed.

Section SeparatedJoin.
Context {A : Type} (one : list item -> option (A * list item)) (sep : bytes) (good : list item -> Prop).

(** [ts] is the text of [a], wherever what follows is [good]. *)
Definition renders (a : A) (ts : list item) : Prop := forall l, good l -> one (ts ++ l) = Some (a, l).

Lemma separated_join fuel xs tss l :
  (forall l, good (chars sep ++ l)) -> good l -> eat sep l = None -> xs <> [] -> Forall2 renders xs tss ->
  (length xs <= fuel)%nat -> separated one sep fuel (join (chars sep) tss ++ l) = Some (xs, l).
Proof.
  intros Hsep Hl He Hne H. revert fuel. induction H as [|a ts xs tss Ha H IH]; intros fuel Hf; [done|].
  destruct fuel as [|fuel]; [cbn in Hf; lia|]. cbn [separated]. destruct H as [|b ts' xs tss Hb H].
  - cbn [join]. rewrite Ha by done. cbn. by rewrite He.
  - rewrite join_cons, <- !app_assoc, Ha by apply Hsep. cbn. rewrite eat_chars.
    rewrite IH; [done|done|cbn in *; lia].
Qed.
End SeparatedJoin.

Lemma renders_name s : renders read_name (fun _ => True) s [Name s].
Proof. done. Qed.

Lemma read_names_join names l : names <> [] -> eat (tx ", ") l = None ->
  read_names (join (chars (tx ", ")) ((fun s => [Name s]) <$> names) ++ l) = Some (names, l).
Proof.
  intros Hne He. unfold read_names. apply separated_join with (good := fun _ => True); try done.
  - apply Forall2_fmap_r, Forall_Forall2_diag, Forall_forall. intros s _. apply renders_name.
  - rewrite length_app. pose proof (length_join (chars (tx ", ")) ((fun s => [Name s]) <$> names) ltac:(done)) as Hj.
    rewrite length_fmap in Hj. lia.
Qed.

Lemma reads_names names : reads (join (tx ", ") (MSSQLValueSerializer.EscapeIdentifier <$> names))
                                (join (chars (tx ", ")) ((fun s => [Name s]) <$> names)).
Proof.
  apply reads_join; [done|]. apply Forall2_fmap_l, Forall2_fmap_r, Forall_Forall2_diag, Forall_forall.
  intros s _. apply reads_EscapeIdentifier.
Qed.

(** A word is a digit's or a sign's, whatever may follow it. *)
Lemma starts_literal_digit d s l : is_digit d = true -> follows l -> starts_literal (Ch d :: chars s ++ l) = true.
Proof.
  intros Hd Hl. destruct s as [|b s]; [|by cbn; rewrite Hd]. destruct Hl as [->|(c & r & -> & _)]; by cbn; rewrite Hd.
Qed.

Lemma starts_literal_dash d s l : is_digit d = true -> starts_literal (Ch DASH :: Ch d :: chars s ++ l) = true.
Proof. intros Hd. by cbn; rewrite Hd, orb_true_r. Qed.

(** A value's text: after plain text it reads as one value. *)
Record literal (s : bytes) (c : constant) (ts : list item) : Prop := {
  literal_reads : reads0 s ts;
  literal_within : within 0 ts 0;
  literal_constant : read_constant ts = Some c;
  literal_head l : follows l -> starts_literal (ts ++ l) = true
}.

Lemma literal_parse s c ts : literal s c ts -> parse_constant s = Some c.
Proof. intros [Hr _ Hc _]. unfold parse_constant. by rewrite (reads0_lex _ _ Hr). Qed.

Lemma renders_literal s c ts : literal s c ts -> renders read_value stops c ts.
Proof. intros [_ Hw Hc _] l Hl. by apply read_value_app. Qed.

(** A row of literals in parentheses. *)
Definition row_text (lits : list bytes) : bytes := tx "(" ++ join (tx ", ") lits ++ tx ")".

Lemma row_reads lits tss : Forall2 reads0 lits tss ->
  reads (row_text lits) (chars (tx "(") ++ join (chars (tx ", ")) tss ++ chars (tx ")")).
Proof.
  intros H. unfold row_text. rewrite !app_assoc. apply reads_app; [|by apply reads_plainly]. by apply reads_sep_join.
Qed.

Lemma read_row_app cs tss l : cs <> [] -> Forall2 (renders read_value stops) cs tss ->
  read_row (chars (tx "(") ++ join (chars (tx ", ")) tss ++ chars (tx ")") ++ l) = Some (cs, l).
Proof.
  intros Hne H. unfold read_row. rewrite eat_chars. cbn [mbind option_bind].
  rewrite (separated_join read_value (tx ", ") stops _ cs tss); try done.
  - intros l'. exists COMMA. eexists. split; [reflexivity|by right].
  - exists PARR. eexists. split; [reflexivity|by left].
  - rewrite (Forall2_length _ _ _ H). rewrite length_app.
    pose proof (length_join (chars (tx ", ")) tss ltac:(done)). lia.
Qed.
