(* ===== verification/Calendar.v ===== *)
(** * Dates and times of the server

    The Gregorian calendar from year 1 to 9999 and the ISO 8601 texts that the
    server reads a date, a time and a timestamp from, with a reader of each: the
    reference the texts of the code are compared with. Days are counted from
    1970-01-01, times in ticks of 100 ns. *)

From S2P Require Import Prelude Sql.

(** ** The calendar *)

Definition leap (y : Z) : bool := (y mod 4 =? 0) && (negb (y mod 100 =? 0) || (y mod 400 =? 0)).

Definition month_length (y m : Z) : Z :=
  if m =? 2 then (if leap y then 29 else 28) else if bool_decide (m ∈ [4; 6; 9; 11]) then 30 else 31.

Definition valid_date (y m d : Z) : bool :=
  (1 <=? y) && (y <=? 9999) && (1 <=? m) && (m <=? 12) && (1 <=? d) && (d <=? month_length y m).

(** Days before a year, since 0001-01-01, and before a month of a year. *)
Definition before_year (y : Z) : Z := 365 * (y - 1) + (y - 1) / 4 - (y - 1) / 100 + (y - 1) / 400.

Fixpoint before_month (y : Z) (months : nat) : Z :=
  match months with O => 0 | S k => before_month y k + month_length y (Z.of_nat k + 1) end.

Definition EPOCH : Z := 719162.
Definition day_number (y m d : Z) : Z := before_year y + before_month y (Z.to_nat (m - 1)) + (d - 1) - EPOCH.

(** The days of the years 1 to 9999. *)
Definition FIRST_DAY : Z := day_number 1 1 1.
Definition LAST_DAY : Z := day_number 9999 12 31.
Definition in_calendar (n : Z) : bool := (FIRST_DAY <=? n) && (n <=? LAST_DAY).

(** The date of a day. *)
Fixpoint year_loop (fuel : nat) (y n : Z) : Z :=
  match fuel with O => y | S fuel => if before_year (y + 1) <=? n then year_loop fuel (y + 1) n else y end.

Fixpoint month_loop (fuel : nat) (y m r : Z) : Z * Z :=
  match fuel with O => (m, r + 1) | S fuel => if r <? month_length y m then (m, r + 1) else month_loop fuel y (m + 1) (r - month_length y m) end.

Definition civil (n : Z) : Z * Z * Z :=
  let n := n + EPOCH in
  let y := year_loop 40 (n / 366 + 1) n in
  let '(m, d) := month_loop 11 y 1 (n - before_year y) in (y, m, d).

(** *** It is the date *)

Lemma div_next y k : 0 < k -> y / k = (y - 1) / k + (if y mod k =? 0 then 1 else 0).
Proof.
  intros Hk. pose proof (Z.div_mod y k ltac:(lia)) as E. pose proof (Z.mod_pos_bound y k Hk).
  destruct (Z.eqb_spec (y mod k) 0); [rewrite <- (Z.div_unique_pos (y - 1) k (y / k - 1) (k - 1))|rewrite <- (Z.div_unique_pos (y - 1) k (y / k) (y mod k - 1))]; lia.
Qed.

Lemma mod_factor y a b : a <> 0 -> y mod (a * b) = 0 -> y mod a = 0.
Proof.
  intros Ha H. destruct (Z.eq_dec b 0) as [->|Hb]; [rewrite Z.mul_0_r, Z.mod_0_r in H; subst; by apply Z.mod_0_l|].
  apply Z.mod_divide in H as [q ->]; [|lia]. replace (q * (a * b)) with (q * b * a) by lia. by apply Z.mod_mul.
Qed.

Lemma before_year_next y : before_year (y + 1) = before_year y + 365 + (if leap y then 1 else 0).
Proof.
  unfold before_year, leap. replace (y + 1 - 1) with y by lia. rewrite (div_next y 4), (div_next y 100), (div_next y 400) by lia.
  assert (y mod 100 = 0 -> y mod 4 = 0) by exact (mod_factor y 4 25 ltac:(lia)).
  assert (y mod 400 = 0 -> y mod 100 = 0) by exact (mod_factor y 100 4 ltac:(lia)).
  destruct (Z.eqb_spec (y mod 4) 0), (Z.eqb_spec (y mod 100) 0), (Z.eqb_spec (y mod 400) 0); cbn [andb orb negb]; lia.
Qed.

Lemma month_length_range y m : 28 <= month_length y m <= 31.
Proof. unfold month_length. destruct (m =? 2), (leap y); try lia; case_bool_decide; lia. Qed.

Lemma before_month_year y : before_month y 12 = 365 + (if leap y then 1 else 0).
Proof. cbn [before_month]. unfold month_length. by destruct (leap y). Qed.

Lemma year_loop_spec fuel y n : before_year y <= n -> n < before_year (y + Z.of_nat fuel) ->
  before_year (year_loop fuel y n) <= n < before_year (year_loop fuel y n + 1) /\ y <= year_loop fuel y n.
Proof.
  revert y. induction fuel as [|fuel IH]; intros y Hlo Hhi; cbn [year_loop].
  - rewrite Z.add_0_r in Hhi. pose proof (before_year_next y). destruct (leap y); lia.
  - destruct (Z.leb_spec (before_year (y + 1)) n) as [Hn|Hn]; [|lia].
    destruct (IH (y + 1)) as [H1 H2]; [done|by replace (y + 1 + Z.of_nat fuel) with (y + Z.of_nat (S fuel)) by lia|]. lia.
Qed.

Lemma year_start n : 0 <= n < 3652059 -> let y := n / 366 + 1 in 1 <= y /\ before_year y <= n < before_year (y + 40).
Proof. intros Hn. cbv zeta. unfold before_year. split; zlia. Qed.

Lemma month_loop_spec fuel y k r : (k + fuel = 11)%nat -> 0 <= r < before_month y 12 - before_month y k ->
  let '(m, d) := month_loop fuel y (Z.of_nat k + 1) r in
  1 <= m <= 12 /\ 1 <= d <= month_length y m /\ before_month y (Z.to_nat (m - 1)) + (d - 1) = before_month y k + r.
Proof.
  revert k r. induction fuel as [|fuel IH]; intros k r Hk Hr; cbn [month_loop].
  - assert (k = 11%nat) as -> by lia. change (before_month y 12) with (before_month y 11 + month_length y (Z.of_nat 11 + 1)) in Hr.
    replace (Z.to_nat (Z.of_nat 11 + 1 - 1)) with 11%nat by lia.
    change (Z.of_nat 11 + 1) with 12 in *. lia.
  - destruct (Z.ltb_spec r (month_length y (Z.of_nat k + 1))) as [Hlt|Hge].
    + replace (Z.to_nat (Z.of_nat k + 1 - 1)) with k by lia. lia.
    + replace (Z.of_nat k + 1 + 1) with (Z.of_nat (S k) + 1) by lia.
      pose proof (IH (S k) (r - month_length y (Z.of_nat k + 1)) ltac:(lia)) as H.
      change (before_month y (S k)) with (before_month y k + month_length y (Z.of_nat k + 1)) in H. specialize (H ltac:(lia)).
      destruct (month_loop _ _ _ _) as [m d]. lia.
Qed.

Lemma civil_spec n : in_calendar n = true -> let '(y, m, d) := civil n in valid_date y m d = true /\ day_number y m d = n.
Proof.
  intros Hn. assert (Hb : 0 <= n + EPOCH < 3652059).
  { unfold in_calendar in Hn. change FIRST_DAY with (-719162) in Hn. change LAST_DAY with 2932896 in Hn. unfold EPOCH. lia. }
  unfold civil. set (k := n + EPOCH) in *. destruct (year_start k Hb) as (Hy0 & Hlo & Hhi).
  destruct (year_loop_spec 40 (k / 366 + 1) k Hlo Hhi) as [Hy Hy1]. set (y := year_loop 40 (k / 366 + 1) k) in *.
  pose proof (before_year_next y) as Hnext. pose proof (before_month_year y) as Hm12.
  pose proof (month_loop_spec 11 y 0 (k - before_year y) eq_refl) as Hm. change (before_month y 0) with 0 in Hm.
  specialize (Hm ltac:(lia)). change (Z.of_nat 0 + 1) with 1 in Hm. destruct (month_loop 11 y 1 _) as [m d].
  destruct Hm as (Hm & Hd & Hs). assert (y <= 9999).
  { destruct (Z.le_gt_cases y 9999) as [|Hgt]; [done|]. assert (before_year 10000 <= before_year y) by (unfold before_year; zlia).
    change (before_year 10000) with 3652059 in *. lia. }
  split; [unfold valid_date; lia|]. unfold day_number. lia.
Qed.

(** ** ISO texts *)

(** The last [w] decimal digits. *)
Fixpoint field (w : nat) (n : Z) : bytes := match w with O => [] | S w => field w (n / 10) ++ [digit (n mod 10)] end.

Definition iso_date (n : Z) : bytes := let '(y, m, d) := civil n in field 4 y ++ tx "-" ++ field 2 m ++ tx "-" ++ field 2 d.

Definition TICKS_PER_DAY : Z := 864000000000.

Definition iso_time (t : Z) : bytes :=
  field 2 (t / 36000000000) ++ tx ":" ++ field 2 (t / 600000000 mod 60) ++ tx ":" ++ field 2 (t / 10000000 mod 60) ++ tx "." ++ field 7 (t mod 10000000).

Definition iso_datetime (t : Z) : bytes := iso_date (t / TICKS_PER_DAY) ++ tx "T" ++ iso_time (t mod TICKS_PER_DAY).

(** *** Read *)

Definition read_date (s : bytes) : option Z :=
  match s with
  | [y1; y2; y3; y4; a; m1; m2; b; d1; d2] =>
      y ← read_numeral [y1; y2; y3; y4]; m ← read_numeral [m1; m2]; d ← read_numeral [d1; d2];
      if bool_decide (a = DASH /\ b = DASH) && valid_date y m d then Some (day_number y m d) else None
  | _ => None
  end.

Definition read_time (s : bytes) : option Z :=
  match s with
  | [h1; h2; a; m1; m2; b; s1; s2; p; f1; f2; f3; f4; f5; f6; f7] =>
      h ← read_numeral [h1; h2]; m ← read_numeral [m1; m2]; s ← read_numeral [s1; s2]; f ← read_numeral [f1; f2; f3; f4; f5; f6; f7];
      if bool_decide (a = z2b 0x3A /\ b = z2b 0x3A /\ p = z2b 0x2E) && (h <? 24) && (m <? 60) && (s <? 60)
      then Some (((h * 60 + m) * 60 + s) * 10000000 + f) else None
  | _ => None
  end.

Definition read_datetime (s : bytes) : option Z :=
  d ← read_date (ztake 10 s); t ← read_time (zdrop 11 s);
  if bool_decide (ztake 1 (zdrop 10 s) = tx "T") then Some (d * TICKS_PER_DAY + t) else None.

Lemma length_field w n : length (field w n) = w.
Proof. revert n. induction w as [|w IH]; intros n; cbn [field]; [done|]. rewrite length_app, IH. cbn. lia. Qed.

Lemma read_digits_field w n acc : 0 <= n < 10 ^ Z.of_nat w -> read_digits acc (field w n) = Some (acc * 10 ^ Z.of_nat w + n).
Proof.
  revert n acc. induction w as [|w IH]; intros n acc Hn; cbn [field].
  - change (10 ^ Z.of_nat 0) with 1 in *. cbn. f_equal. lia.
  - rewrite Nat2Z.inj_succ, Z.pow_succ_r in * by lia. rewrite read_digits_app, IH by zlia. cbn [read_digits].
    rewrite is_digit_digit by zlia. unfold digit_value. rewrite b2z_digit by zlia. f_equal. zlia.
Qed.

Lemma read_field w n : 0 <= n < 10 ^ Z.of_nat (S w) -> read_numeral (field (S w) n) = Some n.
Proof.
  intros Hn. unfold read_numeral. destruct (field (S w) n) eqn:E; [pose proof (length_field (S w) n) as Hl; by rewrite E in Hl|].
  by rewrite <- E, read_digits_field by done.
Qed.

Lemma read_date_iso n : in_calendar n = true -> read_date (iso_date n) = Some n.
Proof.
  intros Hn. pose proof (civil_spec n Hn) as H. unfold iso_date. destruct (civil n) as [[y m] d]. destruct H as [Hv <-].
  assert (Hr : 1 <= y <= 9999 /\ 1 <= m <= 12 /\ 1 <= d <= 31) by (unfold valid_date in Hv; pose proof (month_length_range y m); lia).
  pose proof (read_field 3 y ltac:(cbn; lia)) as Hy. pose proof (read_field 1 m ltac:(cbn; lia)) as Hm. pose proof (read_field 1 d ltac:(cbn; lia)) as Hd.
  cbn [field app] in *. unfold read_date. change (tx "-") with [DASH]. cbn [app]. rewrite Hy, Hm, Hd. cbn [mbind option_bind].
  by rewrite bool_decide_eq_true_2, Hv by done.
Qed.

Lemma read_time_iso t : 0 <= t < TICKS_PER_DAY -> read_time (iso_time t) = Some t.
Proof.
  unfold TICKS_PER_DAY. intros Ht. unfold iso_time.
  pose proof (read_field 1 (t / 36000000000) ltac:(cbn; zlia)) as Hh. pose proof (read_field 1 (t / 600000000 mod 60) ltac:(cbn; zlia)) as Hm.
  pose proof (read_field 1 (t / 10000000 mod 60) ltac:(cbn; zlia)) as Hs. pose proof (read_field 6 (t mod 10000000) ltac:(cbn; zlia)) as Hf.
  cbn [field app] in *. change (tx ":") with [z2b 0x3A]. change (tx ".") with [z2b 0x2E]. cbn [app]. unfold read_time.
  rewrite Hh, Hm, Hs, Hf. cbn [mbind option_bind]. rewrite bool_decide_eq_true_2 by done.
  assert ((t / 36000000000 <? 24) && (t / 600000000 mod 60 <? 60) && (t / 10000000 mod 60 <? 60) = true) as E by zlia.
  rewrite <- !andb_assoc in *. cbn [andb]. rewrite E. f_equal. zlia.
Qed.

Lemma read_datetime_iso t : in_calendar (t / TICKS_PER_DAY) = true -> read_datetime (iso_datetime t) = Some t.
Proof.
  intros Hn. unfold read_datetime, iso_datetime. set (d := iso_date _). set (u := iso_time _).
  assert (Hd : 10 = zlen d).
  { unfold d, iso_date. destruct (civil _) as [[y m] dd]. unfold zlen. by rewrite !length_app, !length_field. }
  assert (Ht : zdrop 10 (d ++ tx "T" ++ u) = tx "T" ++ u) by (by apply zdrop_app_length).
  rewrite (ztake_app_length d _ 10 Hd), Ht. change (zdrop 11 (d ++ tx "T" ++ u)) with (zdrop (10 + 1) (d ++ tx "T" ++ u)).
  rewrite <- zdrop_zdrop, Ht by lia. change (zdrop 1 (tx "T" ++ u)) with u. change (ztake 1 (tx "T" ++ u)) with (tx "T").
  unfold d, u. rewrite read_date_iso, read_time_iso by (done || (apply Z.mod_pos_bound; done)). cbn [mbind option_bind].
  rewrite bool_decide_eq_true_2 by done. f_equal. pose proof (Z.div_mod t TICKS_PER_DAY ltac:(done)). lia.
Qed.

(** *** As printf writes them *)

Lemma field_zero w : field w 0 = replicate w (digit 0).
Proof. induction w as [|w IH]; [done|]. cbn [field]. change (0 / 10) with 0. change (0 mod 10) with 0. rewrite IH. by rewrite <- replicate_cons_app. Qed.

Lemma padded_digits_field fuel w n : 0 <= n < 10 ^ Z.of_nat w -> Z.log2 n < Z.of_nat fuel -> (0 < w)%nat ->
  zeros (Z.of_nat w - zlen (digits fuel n)) ++ digits fuel n = field w n.
Proof.
  revert w n. induction fuel as [|fuel IH]; intros w n Hn Hf Hw; [pose proof (Z.log2_nonneg n); lia|].
  destruct w as [|w]; [lia|]. cbn [digits field]. rewrite Nat2Z.inj_succ, Z.pow_succ_r in * by lia. destruct (Z.ltb_spec n 10) as [Hlt|Hge].
  - rewrite Z.div_small, Z.mod_small, field_zero by lia. unfold zeros. f_equal. f_equal. change (zlen [digit n]) with 1. lia.
  - destruct w as [|w]; [change (10 ^ Z.of_nat 0) with 1 in Hn; lia|]. rewrite zlen_app. change (zlen [digit (n mod 10)]) with 1.
    rewrite <- (IH (S w) (n / 10)); [|zlia| |lia].
    + rewrite app_assoc. do 3 f_equal. lia.
    + assert (Z.log2 (n / 10) <= Z.log2 n - 1); [|lia].
      assert (Z.log2 (n / 10) <= Z.log2 (n / 2 ^ 1)) by (apply Z.log2_le_mono; change (2 ^ 1) with 2; zlia).
      assert (Z.log2 (n / 2 ^ 1) = Z.log2 n - 1); [|lia].
      rewrite <- Z.shiftr_div_pow2, Z.log2_shiftr by lia. pose proof (Z.log2_le_mono 2 n ltac:(lia)). cbn in *. lia.
Qed.

Lemma fmt0_field w n : 0 <= n < 10 ^ w -> 0 < w -> fmt0 w n = field (Z.to_nat w) n.
Proof.
  intros Hn Hw. unfold fmt0. destruct (Z.ltb_spec n 0); [lia|]. unfold padded, numeral.
  rewrite <- (padded_digits_field (S (Z.to_nat (Z.log2 n)))); rewrite ?Z2Nat.id by lia; [done|done|pose proof (Z.log2_nonneg n); lia|lia].
Qed.
