(* ===== verification/Literals.v ===== *)
(** * SQL literals

    The values the statements carry: [FormatSqlLiteral] of every codec family
    (src/src/codec, the files *_codec.cpp, and codec/literal_format.cpp), the size estimates
    beside it, and the serializer of the DML statements
    (dml/insert/mssql_value_serializer.cpp).

    DuckDB's own texts are its own: the accessors of a [Value], [Date::Convert],
    [Time::Convert], [UUID::ToString], [Hugeint::ToString], [Interval::ToString]
    and [Value::ToString] are the classes [DuckDB] and [Values_]. The text of a
    floating-point number is the stream's [%g], computed exactly here. *)

From S2P Require Import Prelude Sql Calendar TdsTypes Values Encoding ColumnMetadata Codecs.

(** ** Values *)

Record Value : Type := mkValue { type : LogicalType; cell_of : option cell }.

Definition IsNull (v : Value) : bool := bool_decide (cell_of v = None).

(** What the code takes from DuckDB about values. [GetValue] is the typed
    accessor ([IntegerValue::Get], [GetValue<T>], [GetValueUnsafe<T>]). *)
Class Values_ : Type := {
  GetValue : PhysicalType -> Value -> res cell;
  ToString : Value -> bytes;
  Date_Convert : Z -> Z * Z * Z;
  Time_Convert : Z -> Z * Z * Z * Z;
  UUID_ToString : Z -> bytes;
  Hugeint_ToString : Z -> bytes;
  (** A value read at its own storage type. *)
  GetValue_stored v c : cell_of v = Some c -> GetValue (InternalType (type v)) v = Ok c;
  (** The text of a string is the string. *)
  ToString_VARCHAR v s : id (type v) = VARCHAR -> cell_of v = Some (Str s) -> ToString v = s;
  (** The Gregorian date of a day, and the time of day of microseconds since midnight. *)
  Date_Convert_civil n : in_calendar n = true -> Date_Convert n = civil n;
  Time_Convert_fields t : 0 <= t < 86400000000 ->
    Time_Convert t = (t / 3600000000, t / 60000000 mod 60, t / 1000000 mod 60, t mod 1000000);
  (** Hexadecimal digits and dashes. *)
  UUID_ToString_text u : Forall (fun b => b <> QUOTE /\ b <> BACKSLASH) (UUID_ToString u);
  Hugeint_ToString_decimal h : huge h -> Hugeint_ToString h = std_to_string h
}.

Definition GetWord `{Values_} (p : PhysicalType) (v : Value) : res Z := c ← GetValue p v; Ok (word c).
Definition GetStr `{Values_} (p : PhysicalType) (v : Value) : res bytes := c ← GetValue p v; Ok (str c).

(** ** Floating-point text *)

Module Float.
(** A finite number [(-1)^sign * m * 2^e]. *)
Inductive number : Type := NaN | Infinity (negative : bool) | Finite (negative : bool) (m e : Z).

Definition decode (mbits ebits bits : Z) : number :=
  let frac := bits mod 2 ^ mbits in
  let ex := (bits / 2 ^ mbits) mod 2 ^ ebits in
  let negative := Z.testbit bits (mbits + ebits) in
  let bias := 2 ^ (ebits - 1) - 1 in
  if ex =? 2 ^ ebits - 1 then (if frac =? 0 then Infinity negative else NaN)
  else if ex =? 0 then Finite negative frac (1 - bias - mbits)
  else Finite negative (frac + 2 ^ mbits) (ex - bias - mbits).

Definition binary32 (bits : Z) : number := decode 23 8 bits.
Definition binary64 (bits : Z) : number := decode 52 11 bits.

(** The nearest integer to [a / b], ties to even. *)
Definition round_half_even (a b : Z) : Z :=
  let q := a / b in
  let r := a mod b in
  if 2 * r <? b then q else if b <? 2 * r then q + 1 else if Z.even q then q else q + 1.

(** [m * 2^e] and [10^k] as fractions. *)
Definition num (m e : Z) : Z := m * 2 ^ Z.max e 0.
Definition den (e : Z) : Z := 2 ^ Z.max (- e) 0.

(** [m * 2^e / 10^k], rounded. *)
Definition scaled (m e k : Z) : Z := round_half_even (num m e * 10 ^ Z.max (- k) 0) (den e * 10 ^ Z.max k 0).

(** Is [10^x <= m * 2^e]? *)
Definition at_least (m e x : Z) : bool := den e * 10 ^ Z.max x 0 <=? num m e * 10 ^ Z.max (- x) 0.

(** The decimal exponent: from an estimate below, upwards. *)
Fixpoint climb (fuel : nat) (m e x : Z) : Z :=
  match fuel with O => x | S fuel => if at_least m e (x + 1) then climb fuel m e (x + 1) else x end.

Definition exponent10 (m e : Z) : Z := climb 5 m e ((Z.log2 m + e) * 30103 / 100000 - 2).

(** The [p] significant digits, as an integer, and the decimal exponent of the
    first of them. *)
Definition significant (p m e : Z) : Z * Z :=
  let x := exponent10 m e in
  let d := scaled m e (x - p + 1) in
  if d =? 10 ^ p then (10 ^ (p - 1), x + 1) else (d, x).

Definition strip_zeros (s : bytes) : bytes :=
  foldr (fun b acc => match acc with [] => if bool_decide (b = digit 0) then [] else [b] | _ => b :: acc end) [] s.

Definition point (int frac : bytes) : bytes :=
  match strip_zeros frac with [] => int | frac => int ++ tx "." ++ frac end.

(** [oss << std::setprecision(p) << value]. *)
Definition general (p : Z) (n : number) : bytes :=
  match n with
  | NaN => tx "nan"
  | Infinity negative => if negative then tx "-inf" else tx "inf"
  | Finite negative m e =>
      let sign := if negative then [DASH] else [] in
      if m =? 0 then sign ++ tx "0" else
      let '(d, x) := significant p m e in
      let ds := numeral d in
      if (x <? -4) || (p <=? x) then
        sign ++ point (ztake 1 ds) (zdrop 1 ds) ++ tx "e" ++ (if x <? 0 then [DASH] else tx "+") ++ padded 2 (numeral (Z.abs x))
      else if x <? 0 then sign ++ point (tx "0") (zeros (- x - 1) ++ ds)
      else sign ++ point (ztake (x + 1) ds) (zdrop (x + 1) ds)
  end.
End Float.

(** ** The serializer's decimals *)

Module SerializeDecimal.
(** [while (digits.size() <= scale)] a zero in front. *)
Definition pad (scale : Z) (digits : bytes) : bytes := zeros (scale + 1 - zlen digits) ++ digits.

Definition place (scale : Z) (negative : bool) (digits : bytes) : bytes :=
  let result := if negative then [DASH] else [] in
  if scale =? 0 then result ++ digits
  else let int_len := zlen digits - scale in result ++ ztake int_len digits ++ tx "." ++ zdrop int_len digits.
End SerializeDecimal.

Section Literals.
Context `{DuckDB} `{Values_}.

Definition SerializeDecimal (value width scale : Z) : bytes :=
  let unscaled := Hugeint_ToString value in
  let negative := match unscaled with c :: _ => bool_decide (c = DASH) | [] => false end in
  let digits := if negative then zdrop 1 unscaled else unscaled in
  SerializeDecimal.place scale negative (SerializeDecimal.pad scale digits).

(** ** FormatSqlLiteral by family *)

Definition boolean_FormatSqlLiteral (v : Value) : res bytes :=
  b ← GetWord PhysicalType.BOOL v; Ok (if b =? 0 then tx "0" else tx "1").

Definition integer_FormatSqlLiteral (v : Value) (type : LogicalType) : res bytes :=
  if IsNull v then Ok (tx "NULL") else
  match id type with
  | TINYINT => z ← GetWord PhysicalType.INT8 v; Ok (std_to_string z)
  | SMALLINT => z ← GetWord PhysicalType.INT16 v; Ok (std_to_string z)
  | INTEGER => z ← GetWord PhysicalType.INT32 v; Ok (std_to_string z)
  | BIGINT => z ← GetWord PhysicalType.INT64 v; Ok (std_to_string z)
  | UTINYINT => z ← GetWord PhysicalType.UINT8 v; Ok (std_to_string z)
  | USMALLINT => z ← GetWord PhysicalType.UINT16 v; Ok (std_to_string z)
  | UINTEGER => z ← GetWord PhysicalType.UINT32 v; Ok (std_to_string z)
  | UBIGINT =>
      uval ← GetWord PhysicalType.UINT64 v;
      Ok (if uval <=? 9223372036854775807 then std_to_string uval
          else tx "CAST(" ++ std_to_string uval ++ tx " AS DECIMAL(20,0))")
  | HUGEINT => z ← GetWord PhysicalType.INT128 v; Ok (SerializeDecimal z 38 0)
  | UHUGEINT => Exn (NotImplemented "codec::integer::FormatSqlLiteral: UHUGEINT literal not yet implemented")
  | _ => Exn (NotImplemented "codec::integer::FormatSqlLiteral: unsupported type")
  end.

Definition ValidateFiniteOrThrow (n : Float.number) : res unit :=
  match n with
  | Float.NaN => Exn (InvalidInput "NaN values cannot be rendered as a SQL literal")
  | Float.Infinity _ => Exn (InvalidInput "infinity cannot be rendered as a SQL literal")
  | Float.Finite _ _ _ => Ok tt
  end.

Definition has (c : byte) (s : bytes) : bool := bool_decide (c ∈ s).

Definition RenderFloatLiteral (n : Float.number) (precision : Z) : res bytes :=
  _ ← ValidateFiniteOrThrow n;
  let result := Float.general precision n in
  Ok (if negb (has (z2b 0x2E) result) && negb (has (z2b 0x65) result) && negb (has (z2b 0x45) result)
      then result ++ tx ".0" else result).

Definition float_FormatSqlLiteral (v : Value) (type : LogicalType) : res bytes :=
  match id type with
  | FLOAT => x ← GetWord PhysicalType.FLOAT v; RenderFloatLiteral (Float.binary32 x) 9
  | DOUBLE => x ← GetWord PhysicalType.DOUBLE v; RenderFloatLiteral (Float.binary64 x) 17
  | _ => Exn (InternalError "codec::float_family::FormatSqlLiteral: unexpected LogicalType")
  end.

Definition decimal_FormatSqlLiteral (v : Value) (type : LogicalType) : res bytes :=
  if IsNull v then Ok (tx "NULL") else
  if bool_decide (id type = HUGEINT) then z ← GetWord PhysicalType.INT128 v; Ok (SerializeDecimal z 38 0) else
  if negb (bool_decide (id type = DECIMAL)) then Exn (InternalError "codec::decimal::FormatSqlLiteral: unexpected LogicalType") else
  let width := decimal_width type in
  let scale := decimal_scale type in
  match InternalType type with
  | PhysicalType.INT16 => z ← GetWord PhysicalType.INT16 v; Ok (SerializeDecimal z width scale)
  | PhysicalType.INT32 => z ← GetWord PhysicalType.INT32 v; Ok (SerializeDecimal z width scale)
  | PhysicalType.INT64 => z ← GetWord PhysicalType.INT64 v; Ok (SerializeDecimal z width scale)
  | PhysicalType.INT128 => z ← GetWord PhysicalType.INT128 v; Ok (SerializeDecimal z width scale)
  | _ => Exn (InternalError "codec::decimal::FormatSqlLiteral: unexpected PhysicalType for DECIMAL")
  end.

Definition string_FormatSqlLiteral (v : Value) (type : LogicalType) : res bytes :=
  if IsNull v then Ok (tx "NULL") else
  match id type with
  | VARCHAR => Ok (tx "N'" ++ EscapeSqlSingleQuotes (ToString v) ++ tx "'")
  | INTERVAL => iv ← GetWord PhysicalType.INTERVAL v; Ok (tx "N'" ++ EscapeSqlSingleQuotes (Interval_ToString iv) ++ tx "'")
  | _ => Exn (NotImplemented "codec::string::FormatSqlLiteral: unsupported type")
  end.

Definition hex_char (n : Z) : byte := z2b (if n <? 10 then 48 + n else 55 + n).

Definition HexRender (data : bytes) : bytes :=
  tx "0x" ++ mjoin ((fun b => [hex_char (Z.shiftr (b2z b) 4); hex_char (Z.land (b2z b) 0x0F)]) <$> data).

Definition binary_FormatSqlLiteral (v : Value) : res bytes :=
  if IsNull v then Ok (tx "NULL") else blob ← GetStr PhysicalType.VARCHAR v; Ok (HexRender blob).

Definition uuid_FormatSqlLiteral (v : Value) : res bytes :=
  if IsNull v then Ok (tx "NULL") else
  uuid ← GetWord PhysicalType.INT128 v; Ok (tx "'" ++ UUID_ToString uuid ++ tx "'").

(** *** Dates and times *)

Definition date_text (y mo d : Z) : bytes := fmt0 4 y ++ tx "-" ++ fmt0 2 mo ++ tx "-" ++ fmt0 2 d.
Definition time_text (h mi s hundred_ns : Z) : bytes :=
  fmt0 2 h ++ tx ":" ++ fmt0 2 mi ++ tx ":" ++ fmt0 2 s ++ tx "." ++ fmt0 7 hundred_ns.

Definition FormatDateText (value : Z) : bytes := let '(y, mo, d) := Date_Convert value in date_text y mo d.
Definition FormatTimeText (value : Z) : bytes := let '(h, mi, s, us) := Time_Convert value in time_text h mi s (us * 10).

Definition FormatTzOffset (offset_seconds : Z) : bytes :=
  let abs_off := Z.abs offset_seconds in
  (if 0 <=? offset_seconds then tx "+" else [DASH]) ++
  fmt0 2 (abs_off ÷ 3600) ++ tx ":" ++ fmt0 2 (Z.rem abs_off 3600 ÷ 60).

Definition FormatTimestampIsoTFromSource (raw : Z) (source : LogicalTypeId) : res bytes :=
  '(time_value, date_value) ← datetime.ComputeDatetime2Components raw source 7;
  unix_days ← int32 (sx 32 date_value - DAYS_FROM_0001_TO_EPOCH);
  let '(y, mo, day) := Date_Convert unix_days in
  let time := sx 64 time_value in
  let sec_in_day := time ÷ 10000000 in
  let hundred_ns := Z.rem time 10000000 in
  let h := sx 32 (sec_in_day ÷ 3600) in
  let mi := sx 32 (Z.rem sec_in_day 3600 ÷ 60) in
  let s := sx 32 (Z.rem sec_in_day 60) in
  Ok (date_text y mo day ++ tx "T" ++ time_text h mi s hundred_ns).

Definition datetime_FormatSqlLiteral (v : Value) (type : LogicalType) : res bytes :=
  if IsNull v then Ok (tx "NULL") else
  match id type with
  | DATE => d ← GetWord PhysicalType.INT32 v; Ok (tx "'" ++ FormatDateText d ++ tx "'")
  | TIME => t ← GetWord PhysicalType.INT64 v; Ok (tx "'" ++ FormatTimeText t ++ tx "'")
  | TIMESTAMP | TIMESTAMP_MS | TIMESTAMP_NS | TIMESTAMP_SEC =>
      t ← GetWord PhysicalType.INT64 v;
      text ← FormatTimestampIsoTFromSource t (id type);
      Ok (tx "CAST('" ++ text ++ tx "' AS DATETIME2(7))")
  | TIMESTAMP_TZ =>
      t ← GetWord PhysicalType.INT64 v;
      text ← FormatTimestampIsoTFromSource t TIMESTAMP_TZ;
      Ok (tx "CAST('" ++ text ++ FormatTzOffset 0 ++ tx "' AS DATETIMEOFFSET(7))")
  | _ => Exn (InvalidInput "codec::datetime::FormatSqlLiteral: unexpected DuckDB type")
  end.

(** [codec::FormatSqlLiteral]. *)
Definition FormatSqlLiteral (v : Value) (type : LogicalType) : res bytes :=
  if IsNull v then Ok (tx "NULL") else
  family ← FamilyFromLogicalType type;
  match family with
  | Boolean => boolean_FormatSqlLiteral v
  | Integer => integer_FormatSqlLiteral v type
  | Float => float_FormatSqlLiteral v type
  | Decimal => decimal_FormatSqlLiteral v type
  | Money => Exn (InternalError "codec::FormatSqlLiteral: Money family has no LogicalType-side path")
  | String => string_FormatSqlLiteral v type
  | Binary => binary_FormatSqlLiteral v
  | DateTime => datetime_FormatSqlLiteral v type
  | Uuid => uuid_FormatSqlLiteral v
  end.

(** [MSSQLValueSerializer::Serialize]: the value's own type decides. *)
Definition Serialize (value : Value) : res bytes :=
  match FormatSqlLiteral value (type value) with
  | Exn (NotImplemented _) => Exn (InvalidInput "Cannot serialize DuckDB type for SQL Server INSERT")
  | r => r
  end.

(** [FilterEncoder::ValueToSQLLiteral]. *)
Definition ValueToSQLLiteral (value : Value) (type : LogicalType) : res bytes :=
  match FormatSqlLiteral value type with
  | Exn (NotImplemented _) =>
      Ok (if IsNull value then tx "NULL" else tx "N'" ++ EscapeSqlSingleQuotes (ToString value) ++ tx "'")
  | r => r
  end.

(** ** Size estimates *)

Definition EstimateLiteralSize (type : LogicalType) : res Z :=
  family ← FamilyFromLogicalType type;
  match family with
  | Boolean => Ok 1
  | Integer =>
      match id type with
      | TINYINT | UTINYINT => Ok 4
      | SMALLINT | USMALLINT => Ok 6
      | INTEGER | UINTEGER => Ok 11
      | BIGINT => Ok 20
      | UBIGINT => Ok 50
      | HUGEINT | UHUGEINT => Ok 45
      | _ => Exn (NotImplemented "codec::integer::EstimateLiteralSize: unsupported type")
      end
  | Float =>
      match id type with
      | FLOAT => Ok 20
      | DOUBLE => Ok 30
      | _ => Exn (InternalError "codec::float_family::EstimateLiteralSize: unexpected LogicalType")
      end
  | Decimal => Ok 45
  | Money => Exn (InternalError "codec::EstimateLiteralSize: Money family has no LogicalType-side path")
  | String =>
      match id type with
      | VARCHAR | INTERVAL => Ok 4
      | _ => Exn (NotImplemented "codec::string::EstimateLiteralSize: unsupported type")
      end
  | Binary => Ok (2 + 8192 * 2)
  | DateTime =>
      match id type with
      | DATE => Ok 12
      | TIME => Ok 20
      | TIMESTAMP | TIMESTAMP_MS | TIMESTAMP_NS | TIMESTAMP_SEC => Ok 60
      | TIMESTAMP_TZ => Ok 75
      | _ => Exn (InvalidInput "codec::datetime::EstimateLiteralSize: unexpected DuckDB type")
      end
  | Uuid => Ok 38
  end.

Definition EstimateSerializedSize (value : Value) (type : LogicalType) : res Z :=
  if IsNull value then Ok 4 else
  if bool_decide (id type = VARCHAR) then
    s ← GetStr PhysicalType.VARCHAR value; n ← EstimateLiteralSize type; Ok (n + zlen s * 2)
  else match EstimateLiteralSize type with Exn (NotImplemented _) => Ok 50 | r => r end.
End Literals.
