(* ===== verification/FloatSpec.v ===== *)
(** * The text of floating-point numbers

    [std::setprecision(p)] prints the decimal with [p] significant digits nearest
    to the number, and for the precisions the code asks for (9 digits of a
    [FLOAT], 17 of a [DOUBLE]) no other number of the type is as near to it. *)

From S2P Require Import Prelude Sql Values Literals.

Import Float.

Definition pos (z : Z) : Z := Z.max z 0.

(** [m * 2^e], scaled by [2^s] and [10^t]: fractions compared as integers. *)
Lemma pos_split z : z = pos z - pos (- z).
Proof. unfold pos. lia. Qed.

Lemma pos_nonneg z : 0 <= pos z.
Proof. unfold pos. lia. Qed.

#[export] Hint Resolve pos_nonneg : core.

(** ** The decimal exponent *)

(** [10^x <= 2^l], and its negation, for every size of number. *)
Definition below (l x : Z) : bool := 10 ^ pos x * 2 ^ pos (- l) <=? 2 ^ pos l * 10 ^ pos (- x).

Definition estimate (l : Z) : Z := l * 30103 / 100000 - 2.

(** [log10 2] is between [59/196] and [28/93]. *)
Lemma small_powers r : 0 <= r < 196 ->
  2 ^ r < 10 ^ (r * 30103 / 100000 + 1) /\ 10 ^ (r * 30103 / 100000) <= 2 ^ r.
Proof.
  assert (H : forallb (fun r => (2 ^ r <? 10 ^ (r * 30103 / 100000 + 1)) && (10 ^ (r * 30103 / 100000) <=? 2 ^ r)) (seqZ 0 196) = true)
    by (vm_compute; reflexivity).
  intros Hr. rewrite forallb_forall in H. specialize (H r). rewrite andb_true_iff, Z.ltb_lt, Z.leb_le in H. apply H.
  apply list_elem_of_In, elem_of_seqZ. lia.
Qed.

Lemma pow2_below n : 0 <= n <= 1300 -> 2 ^ n < 10 ^ (n * 30103 / 100000 + 2).
Proof.
  intros Hn. set (q := n / 93). set (r := n mod 93). assert (E : n = 93 * q + r) by (unfold q, r; zlia).
  assert (Hq : 0 <= q <= 13) by (unfold q; zlia). assert (Hr : 0 <= r < 93) by (unfold r; zlia).
  destruct (small_powers r ltac:(lia)) as [H _].
  apply (Z.lt_le_trans _ (10 ^ (28 * q + (r * 30103 / 100000 + 1)))); [|apply Z.pow_le_mono_r; zlia].
  rewrite E, !Z.pow_add_r, !Z.pow_mul_r by zlia.
  assert ((2 ^ 93) ^ q <= (10 ^ 28) ^ q) by (apply Z.pow_le_mono_l; by vm_compute).
  assert (0 < (2 ^ 93) ^ q) by (apply Z.pow_pos_nonneg; lia). assert (0 <= 2 ^ r) by (apply Z.pow_nonneg; lia).
  rewrite <- Z.pow_add_r by zlia. nia.
Qed.

Lemma pow10_below n : 0 <= n <= 1300 -> 1 <= n * 30103 / 100000 -> 10 ^ (n * 30103 / 100000 - 1) <= 2 ^ n.
Proof.
  intros Hn Hp. set (q := n / 196). set (r := n mod 196). assert (E : n = 196 * q + r) by (unfold q, r; zlia).
  assert (Hq : 0 <= q <= 6) by (unfold q; zlia). assert (Hr : 0 <= r < 196) by (unfold r; zlia).
  destruct (small_powers r ltac:(lia)) as [_ H].
  transitivity (10 ^ (59 * q + r * 30103 / 100000)); [apply Z.pow_le_mono_r; zlia|].
  rewrite E, !Z.pow_add_r, !Z.pow_mul_r by zlia.
  assert ((10 ^ 59) ^ q <= (2 ^ 196) ^ q) by (apply Z.pow_le_mono_l; by vm_compute).
  assert (0 < (10 ^ 59) ^ q) by (apply Z.pow_pos_nonneg; lia). assert (0 <= 10 ^ (r * 30103 / 100000)) by (apply Z.pow_nonneg; lia).
  nia.
Qed.

Lemma estimate_ok l : -1200 <= l <= 1200 -> below l (estimate l) = true /\ below (l + 1) (estimate l + 6) = false.
Proof.
  intros Hl. unfold below, estimate. split.
  - apply Z.leb_le. destruct (Z.le_gt_cases 0 l) as [H|H].
    + unfold pos. rewrite (Z.max_r (- l) 0), (Z.max_l l 0), Z.mul_1_r by lia.
      destruct (Z.le_gt_cases (l * 30103 / 100000) 2) as [Hs|Hs].
      * rewrite Z.max_r by lia. assert (0 < 2 ^ l) by (apply Z.pow_pos_nonneg; lia).
        assert (0 < 10 ^ Z.max (- (l * 30103 / 100000 - 2)) 0) by (apply Z.pow_pos_nonneg; lia). nia.
      * rewrite Z.max_l, Z.max_r, Z.mul_1_r by lia. transitivity (10 ^ (l * 30103 / 100000 - 1)); [apply Z.pow_le_mono_r; lia|].
        apply pow10_below; lia.
    + unfold pos. rewrite (Z.max_l (- l) 0), (Z.max_r l 0) by lia.
      rewrite (Z.max_r (l * 30103 / 100000 - 2) 0), (Z.max_l (- (l * 30103 / 100000 - 2)) 0), !Z.mul_1_l by zlia.
      transitivity (10 ^ (- l * 30103 / 100000 + 2)); [apply Z.lt_le_incl, pow2_below; lia|apply Z.pow_le_mono_r; zlia].
  - apply Z.leb_gt. destruct (Z.le_gt_cases 0 (l + 1)) as [H|H].
    + unfold pos. rewrite (Z.max_r (- (l + 1)) 0), (Z.max_l (l + 1) 0), Z.mul_1_r by lia.
      rewrite (Z.max_l (l * 30103 / 100000 - 2 + 6) 0), (Z.max_r (- (l * 30103 / 100000 - 2 + 6)) 0), Z.mul_1_r by zlia.
      apply (Z.lt_le_trans _ (10 ^ ((l + 1) * 30103 / 100000 + 2))); [apply pow2_below; lia|apply Z.pow_le_mono_r; zlia].
    + unfold pos. rewrite (Z.max_l (- (l + 1)) 0), (Z.max_r (l + 1) 0), Z.mul_1_l by lia.
      destruct (Z.le_gt_cases (l * 30103 / 100000 - 2 + 6) 0) as [Hs|Hs].
      * rewrite Z.max_l, Z.max_r, Z.mul_1_l by lia.
        assert (Hlt : 10 ^ (- (l + 1) * 30103 / 100000 - 1) <= 2 ^ (- (l + 1)) \/ - (l + 1) * 30103 / 100000 < 1).
        { destruct (Z.le_gt_cases 1 (- (l + 1) * 30103 / 100000)); [left; apply pow10_below; lia|by right]. }
        destruct Hlt as [Hlt|Hlt].
        { destruct (Z.eq_dec (l * 30103 / 100000 - 2 + 6) 0) as [->|].
          - change (10 ^ (- 0)) with 1. apply Z.pow_gt_1; lia.
          - apply (Z.lt_le_trans _ (10 ^ (- (l + 1) * 30103 / 100000 - 1))); [apply Z.pow_lt_mono_r; zlia|done]. }
        assert (l * 30103 / 100000 - 2 + 6 = 0) as -> by zlia. change (10 ^ (- 0)) with 1.
        apply Z.pow_gt_1; lia.
      * rewrite Z.max_r, Z.max_l by lia. change (10 ^ 0) with 1.
        assert (10 ^ 1 <= 10 ^ (l * 30103 / 100000 - 2 + 6)) by (apply Z.pow_le_mono_r; lia).
        assert (0 < 2 ^ (- (l + 1))) by (apply Z.pow_pos_nonneg; lia). nia.
Qed.

Ltac posz := match goal with |- context [Z.log2 ?m] => pose proof (Z.log2_nonneg m) | _ => idtac end; unfold pos in *; lia.

Lemma pow_cancel a b c : 0 < c -> a * c <= b * c -> a <= b.
Proof. nia. Qed.

Section Number.
Context (m e : Z) (Hm : 0 < m).

Abbreviation L := (Z.log2 m + e).

Lemma balance : Z.log2 m + pos e + pos (- L) = pos (- e) + pos L.
Proof. unfold pos. lia. Qed.

Lemma at_least_below x : below L x = true -> at_least m e x = true.
Proof.
  unfold below, at_least, num, den. fold (pos e) (pos (- e)) (pos x) (pos (- x)). intros H%Z.leb_le. apply Z.leb_le.
  apply (pow_cancel _ _ (2 ^ pos (- L))); [by apply Z.pow_pos_nonneg|].
  pose proof (Z.log2_spec m Hm) as [Hlo _]. pose proof balance as B. apply (f_equal (Z.pow 2)) in B.
  rewrite !Z.pow_add_r in B by posz.
  assert (0 < 2 ^ pos (- L)) by by apply Z.pow_pos_nonneg. assert (0 < 2 ^ pos (- e)) by by apply Z.pow_pos_nonneg.
  assert (0 < 2 ^ pos e) by by apply Z.pow_pos_nonneg. assert (0 < 10 ^ pos (- x)) by by apply Z.pow_pos_nonneg.
  transitivity (2 ^ pos (- e) * (2 ^ pos L * 10 ^ pos (- x))); [nia|].
  replace (2 ^ pos (- e) * (2 ^ pos L * 10 ^ pos (- x))) with ((2 ^ pos (- e) * 2 ^ pos L) * 10 ^ pos (- x)) by ring.
  rewrite <- B. assert (2 ^ Z.log2 m * (2 ^ pos e * 2 ^ pos (- L)) <= m * (2 ^ pos e * 2 ^ pos (- L))) by nia. nia.
Qed.

Lemma balance1 : Z.succ (Z.log2 m) + pos e + pos (- (L + 1)) = pos (- e) + pos (L + 1).
Proof. unfold pos. lia. Qed.

Lemma at_least_above x : below (L + 1) x = false -> at_least m e x = false.
Proof.
  unfold below, at_least, num, den. fold (pos e) (pos (- e)) (pos x) (pos (- x)). intros H%Z.leb_gt. apply Z.leb_gt.
  pose proof (Z.log2_spec m Hm) as [_ Hhi]. pose proof balance1 as B. apply (f_equal (Z.pow 2)) in B.
  rewrite !Z.pow_add_r in B by posz.
  assert (0 < 2 ^ pos (- (L + 1))) by by apply Z.pow_pos_nonneg. assert (0 < 2 ^ pos (- e)) by by apply Z.pow_pos_nonneg.
  assert (0 < 2 ^ pos e) by by apply Z.pow_pos_nonneg. assert (0 < 10 ^ pos (- x)) by by apply Z.pow_pos_nonneg.
  apply (Z.mul_lt_mono_pos_r (2 ^ pos (- (L + 1)))); [done|].
  apply (Z.lt_trans _ (2 ^ Z.succ (Z.log2 m) * (2 ^ pos e * 2 ^ pos (- (L + 1))) * 10 ^ pos (- x))).
  - assert (m * (2 ^ pos e * 2 ^ pos (- (L + 1))) < 2 ^ Z.succ (Z.log2 m) * (2 ^ pos e * 2 ^ pos (- (L + 1)))) by nia. nia.
  - rewrite (Z.mul_assoc (2 ^ Z.succ _)), B. nia.
Qed.

Lemma climb_spec fuel x : at_least m e x = true -> at_least m e (x + Z.of_nat fuel + 1) = false ->
  at_least m e (climb fuel m e x) = true /\ at_least m e (climb fuel m e x + 1) = false.
Proof.
  revert x. induction fuel as [|fuel IH]; intros x H1 H2; cbn [climb].
  - split; [done|]. by replace (x + 1) with (x + Z.of_nat 0 + 1) by lia.
  - destruct (at_least m e (x + 1)) eqn:E; [|by split]. apply IH; [done|].
    by replace (x + 1 + Z.of_nat fuel + 1) with (x + Z.of_nat (S fuel) + 1) by lia.
Qed.

Lemma exponent10_spec : -1200 <= L <= 1200 ->
  at_least m e (exponent10 m e) = true /\ at_least m e (exponent10 m e + 1) = false.
Proof.
  intros HL. destruct (estimate_ok L HL) as [H1 H2]. apply climb_spec; [by apply at_least_below|].
  apply at_least_above. replace (_ + Z.of_nat 5 + 1) with (estimate L + 6); [done|]. unfold estimate. lia.
Qed.

(** ** The digits *)

Definition upper_ (k : Z) : Z := num m e * 10 ^ pos (- k).
Definition lower_ (k : Z) : Z := den e * 10 ^ pos k.

Lemma lower_pos k : 0 < lower_ k.
Proof. unfold lower_, den. fold (pos (- e)). apply Z.mul_pos_pos; by apply Z.pow_pos_nonneg. Qed.

Lemma at_least_scale x k : 0 <= x - k -> at_least m e x = (lower_ k * 10 ^ (x - k) <=? upper_ k).
Proof.
  intros Hk. unfold at_least, lower_, upper_. fold (pos x) (pos (- x)).
  assert (B : 10 ^ pos x * 10 ^ pos (- k) = 10 ^ pos (- x) * (10 ^ pos k * 10 ^ (x - k))).
  { rewrite <- !Z.pow_add_r by posz. f_equal. unfold pos. lia. }
  assert (0 < 10 ^ pos (- x)) by by apply Z.pow_pos_nonneg. assert (0 < 10 ^ pos (- k)) by by apply Z.pow_pos_nonneg.
  assert (E : den e * 10 ^ pos k * 10 ^ (x - k) * 10 ^ pos (- x) = den e * 10 ^ pos x * 10 ^ pos (- k)).
  { transitivity (den e * (10 ^ pos (- x) * (10 ^ pos k * 10 ^ (x - k)))); [ring|]. rewrite <- B. ring. }
  destruct (Z.leb_spec (den e * 10 ^ pos x) (num m e * 10 ^ pos (- x))) as [Hle|Hle]; symmetry.
  - apply Z.leb_le. apply (pow_cancel _ _ (10 ^ pos (- x))); [done|].
    rewrite E. nia.
  - apply Z.leb_gt. apply (Z.mul_lt_mono_pos_r (10 ^ pos (- x))); [done|].
    rewrite E. nia.
Qed.

Lemma round_half_even_spec a b : 0 < b -> Z.abs (round_half_even a b * b - a) * 2 <= b.
Proof.
  intros Hb. unfold round_half_even. pose proof (Z.div_mod a b ltac:(lia)). pose proof (Z.mod_pos_bound a b Hb).
  destruct (Z.ltb_spec (2 * (a mod b)) b); [nia|]. destruct (Z.ltb_spec b (2 * (a mod b))); [nia|].
  destruct (Z.even _); nia.
Qed.

Lemma round_half_even_mono a b lo hi : 0 < b -> b * lo <= a -> a < b * hi -> lo <= round_half_even a b <= hi.
Proof. intros Hb H1 H2. pose proof (round_half_even_spec a b Hb). nia. Qed.

(** The significant digits are [p] digits, and their decimal is within half a
    unit of the last. *)
Lemma significant_spec p : 0 < p -> -1200 <= L <= 1200 ->
  let '(d, x) := significant p m e in
  10 ^ (p - 1) <= d < 10 ^ p /\
  exists k, 0 <= x - p + 1 - k /\
    Z.abs (d * 10 ^ (x - p + 1 - k) * lower_ k - upper_ k) * 2 <= lower_ k /\ lower_ k * 10 ^ (p - 1) <= upper_ k.
Proof.
  intros Hp HL. unfold significant. destruct (exponent10_spec HL) as [H1 H2]. set (x := exponent10 m e) in *.
  set (k := x - p + 1). rewrite (at_least_scale x k) in H1 by lia. rewrite (at_least_scale (x + 1) k) in H2 by lia.
  replace (x - k) with (p - 1) in H1 by lia. replace (x + 1 - k) with p in H2 by lia. apply Z.leb_le in H1. apply Z.leb_gt in H2.
  assert (E : scaled m e k = round_half_even (upper_ k) (lower_ k)) by done. rewrite E.
  pose proof (lower_pos k) as Hb. pose proof (round_half_even_spec (upper_ k) (lower_ k) Hb) as Hr.
  pose proof (round_half_even_mono (upper_ k) (lower_ k) (10 ^ (p - 1)) (10 ^ p) Hb H1 ltac:(lia)) as Hd.
  assert (Hpp : 10 ^ p = 10 * 10 ^ (p - 1)) by (rewrite <- Z.pow_succ_r by lia; f_equal; lia).
  assert (0 < 10 ^ (p - 1)) by (apply Z.pow_pos_nonneg; lia).
  destruct (Z.eqb_spec (round_half_even (upper_ k) (lower_ k)) (10 ^ p)) as [Eq|Hne].
  - split; [lia|]. exists k. replace (x + 1 - p + 1 - k) with 1 by lia. rewrite Z.pow_1_r.
    rewrite Eq, Hpp in Hr. split_and!; [lia| |done]. by rewrite (Z.mul_comm _ 10).
  - split; [lia|]. exists k. replace (x - p + 1 - k) with 0 by lia. rewrite Z.pow_0_r, Z.mul_1_r. done.
Qed.
End Number.

(** ** Numbers of a type *)

(** The finite numbers of a type with [mbits] stored bits of mantissa. *)
Definition canonical (mbits emin m e : Z) : Prop :=
  0 <= m < 2 ^ (mbits + 1) /\ emin <= e /\ (2 ^ mbits <= m \/ e = emin).

Lemma decode_canonical mbits ebits bits negative m e :
  0 <= mbits -> 1 <= ebits -> decode mbits ebits bits = Finite negative m e ->
  canonical mbits (2 - 2 ^ (ebits - 1) - mbits) m e.
Proof.
  intros Hb He. unfold decode. pose proof (Z.mod_pos_bound bits (2 ^ mbits) ltac:(lia)).
  pose proof (Z.mod_pos_bound (bits / 2 ^ mbits) (2 ^ ebits) ltac:(lia)).
  assert (2 ^ (mbits + 1) = 2 * 2 ^ mbits) by (rewrite Z.pow_add_r by lia; lia).
  destruct (Z.eqb_spec ((bits / 2 ^ mbits) mod 2 ^ ebits) (2 ^ ebits - 1)); [by destruct (_ =? 0)|].
  destruct (Z.eqb_spec ((bits / 2 ^ mbits) mod 2 ^ ebits) 0); intros [= <- <- <-]; unfold canonical; lia.
Qed.

Lemma decode_size mbits ebits bits negative m e :
  0 <= mbits -> 1 <= ebits -> decode mbits ebits bits = Finite negative m e -> 0 < m ->
  2 - 2 ^ (ebits - 1) - mbits <= Z.log2 m + e <= 2 ^ (ebits - 1).
Proof.
  intros Hb He Hd Hm. pose proof (decode_canonical _ _ _ _ _ _ Hb He Hd) as (H1 & H2 & _).
  pose proof (Z.log2_nonneg m). split; [lia|].
  assert (Z.log2 m <= mbits) by (assert (Z.log2 m < mbits + 1) by (apply Z.log2_lt_pow2; lia); lia).
  assert (e <= 2 ^ (ebits - 1) - mbits); [|lia]. revert Hd. unfold decode.
  pose proof (Z.mod_pos_bound (bits / 2 ^ mbits) (2 ^ ebits) ltac:(lia)).
  assert (2 ^ ebits = 2 * 2 ^ (ebits - 1)) by (rewrite <- Z.pow_succ_r by lia; f_equal; lia).
  assert (0 < 2 ^ (ebits - 1)) by (apply Z.pow_pos_nonneg; lia).
  destruct (Z.eqb_spec ((bits / 2 ^ mbits) mod 2 ^ ebits) (2 ^ ebits - 1)); [by destruct (_ =? 0)|].
  destruct (Z.eqb_spec ((bits / 2 ^ mbits) mod 2 ^ ebits) 0); intros [= <- <- <-]; lia.
Qed.

(** Two numbers of a type are a unit of the last place apart. *)
Definition scale_up (m e e' : Z) : Z := m * 2 ^ pos e * 2 ^ pos (- e').

Lemma scale_up_shift m e e' f : f <= e -> f <= e' -> scale_up m e e' * 2 ^ (pos (- f)) = m * 2 ^ (e - f) * 2 ^ (pos (- e) + pos (- e') + pos f).
Proof.
  intros H1 H2. unfold scale_up. rewrite <- !Z.mul_assoc. f_equal. rewrite <- !Z.pow_add_r by posz. f_equal. posz.
Qed.

Lemma canonical_gap mbits emin m e m' e' :
  0 <= mbits -> canonical mbits emin m e -> canonical mbits emin m' e' -> 
  m * 2 ^ (e - Z.min e e') <> m' * 2 ^ (e' - Z.min e e') ->
  m * 2 ^ (e - Z.min e e') <= Z.abs (m * 2 ^ (e - Z.min e e') - m' * 2 ^ (e' - Z.min e e')) * 2 ^ (mbits + 1).
Proof.
  intros Hb (Hm & He & Hc) (Hm' & He' & Hc') Hne.
  assert (Hp : 2 ^ (mbits + 1) = 2 * 2 ^ mbits) by (rewrite Z.pow_add_r by lia; lia).
  assert (0 < 2 ^ mbits) by (apply Z.pow_pos_nonneg; lia).
  destruct (Z.lt_trichotomy e e') as [Hlt|[<-|Hgt]].
  - rewrite Z.min_l in * by lia. rewrite Z.sub_diag, Z.pow_0_r, Z.mul_1_r in *.
    assert (2 <= 2 ^ (e' - e)) by (rewrite <- (Z.pow_1_r 2) at 1; apply Z.pow_le_mono_r; lia).
    assert (2 ^ mbits <= m') by lia. nia.
  - rewrite Z.min_id in *. rewrite Z.sub_diag, Z.pow_0_r, !Z.mul_1_r in *. nia.
  - rewrite Z.min_r in * by lia. rewrite Z.sub_diag, Z.pow_0_r, Z.mul_1_r in *.
    assert (2 ^ mbits <= m) by lia.
    destruct (Z.eq_dec (e - e') 1) as [E1|Hne1].
    + rewrite E1, Z.pow_1_r in *. nia.
    + assert (4 <= 2 ^ (e - e')) by (change 4 with (2 ^ 2); apply Z.pow_le_mono_r; lia).
      set (q := 2 ^ (e - e')) in *. nia.
Qed.

(** ** Nearness *)

(** The distance of [M * 10^K] from [m * 2^e], over [10^(-K)+ * 2^(-e)+]. *)
Definition gap (M K m e : Z) : Z := Z.abs (M * 10 ^ pos K * 2 ^ pos (- e) - m * 2 ^ pos e * 10 ^ pos (- K)).

(** [M * 10^K] is nearer to [m * 2^e] than to [m' * 2^e']. *)
Definition nearer (M K m e m' e' : Z) : Prop := gap M K m e * 2 ^ pos (- e') < gap M K m' e' * 2 ^ pos (- e).

Definition same_number (m e m' e' : Z) : Prop := m * 2 ^ (e - Z.min e e') = m' * 2 ^ (e' - Z.min e e').

Lemma abs_mul_r a c : 0 <= c -> Z.abs a * c = Z.abs (a * c).
Proof. intros Hc. by rewrite Z.abs_mul, (Z.abs_eq c). Qed.

Lemma gap_shift M K j m e : 0 <= j ->
  gap (M * 10 ^ j) (K - j) m e * 10 ^ pos (- K) = gap M K m e * 10 ^ pos (- (K - j)).
Proof.
  intros Hj. unfold gap. rewrite !abs_mul_r by (apply Z.pow_nonneg; lia). f_equal.
  rewrite !Z.mul_sub_distr_r. f_equal; [|ring].
  replace (M * 10 ^ j * 10 ^ pos (K - j) * 2 ^ pos (- e) * 10 ^ pos (- K)) with (M * 2 ^ pos (- e) * (10 ^ j * 10 ^ pos (K - j) * 10 ^ pos (- K))) by ring.
  replace (M * 10 ^ pos K * 2 ^ pos (- e) * 10 ^ pos (- (K - j))) with (M * 2 ^ pos (- e) * (10 ^ pos K * 10 ^ pos (- (K - j)))) by ring.
  f_equal. rewrite <- !Z.pow_add_r by posz. f_equal. posz.
Qed.

Lemma nearer_shift M K j m e m' e' : 0 <= j -> nearer (M * 10 ^ j) (K - j) m e m' e' <-> nearer M K m e m' e'.
Proof.
  intros Hj. unfold nearer. pose proof (gap_shift M K j m e Hj) as G. pose proof (gap_shift M K j m' e' Hj) as G'.
  assert (0 < 10 ^ pos (- K)) by by apply Z.pow_pos_nonneg. assert (0 < 10 ^ pos (- (K - j))) by by apply Z.pow_pos_nonneg.
  rewrite (Z.mul_lt_mono_pos_r (10 ^ pos (- K))) by done. rewrite (Z.mul_lt_mono_pos_r (10 ^ pos (- (K - j))) (gap M K m e * _)) by done.
  replace (gap (M * 10 ^ j) (K - j) m e * 2 ^ pos (- e') * 10 ^ pos (- K)) with (gap M K m e * 10 ^ pos (- (K - j)) * 2 ^ pos (- e')) by (rewrite <- G; ring).
  replace (gap (M * 10 ^ j) (K - j) m' e' * 2 ^ pos (- e) * 10 ^ pos (- K)) with (gap M K m' e' * 10 ^ pos (- (K - j)) * 2 ^ pos (- e)) by (rewrite <- G'; ring).
  split; intros Hlt; nia.
Qed.

(** The gap of [canonical_gap] in the scale of [gap]. *)
Lemma canonical_gap_scaled mbits emin m e m' e' :
  0 <= mbits -> canonical mbits emin m e -> canonical mbits emin m' e' -> ~ same_number m e m' e' ->
  scale_up m e e' <= Z.abs (scale_up m e e' - scale_up m' e' e) * 2 ^ (mbits + 1).
Proof.
  intros Hb Hc Hc' Hne. pose proof (canonical_gap mbits emin m e m' e' Hb Hc Hc' Hne) as Hg.
  set (f := Z.min e e') in *. pose proof (scale_up_shift m e e' f ltac:(lia) ltac:(lia)) as E.
  pose proof (scale_up_shift m' e' e f ltac:(lia) ltac:(lia)) as E'.
  replace (pos (- e') + pos (- e) + pos f) with (pos (- e) + pos (- e') + pos f) in E' by lia.
  set (c := 2 ^ (pos (- e) + pos (- e') + pos f)) in *. assert (0 < c) by (apply Z.pow_pos_nonneg; posz).
  assert (Hf : 0 < 2 ^ pos (- f)) by by apply Z.pow_pos_nonneg.
  apply (pow_cancel _ _ (2 ^ pos (- f))); [done|]. rewrite E.
  replace (Z.abs (scale_up m e e' - scale_up m' e' e) * 2 ^ (mbits + 1) * 2 ^ pos (- f))
    with (Z.abs (scale_up m e e' * 2 ^ pos (- f) - scale_up m' e' e * 2 ^ pos (- f)) * 2 ^ (mbits + 1)).
  2: { rewrite <- Z.mul_sub_distr_r, Z.abs_mul, (Z.abs_eq (2 ^ pos (- f))) by lia. ring. }
  rewrite E, E', <- Z.mul_sub_distr_r, Z.abs_mul, (Z.abs_eq c) by lia. nia.
Qed.

Lemma abs_nearer a v w u : Z.abs (a - v) * 2 <= u -> u < Z.abs (v - w) -> Z.abs (a - v) < Z.abs (a - w).
Proof. lia. Qed.

(** The decimal of enough digits tells the number from every other. *)
Lemma nearest_unique mbits emin p m e m' e' D k :
  0 <= mbits -> 2 ^ (mbits + 1) < 10 ^ (p - 1) ->
  canonical mbits emin m e -> canonical mbits emin m' e' -> ~ same_number m e m' e' ->
  Z.abs (D * lower_ e k - upper_ m e k) * 2 <= lower_ e k -> lower_ e k * 10 ^ (p - 1) <= upper_ m e k ->
  nearer D k m e m' e'.
Proof.
  intros Hb Hp Hc Hc' Hne Hnear Hbig. pose proof (canonical_gap_scaled _ _ _ _ _ _ Hb Hc Hc' Hne) as Hg.
  pose proof (lower_pos e k) as Hl. unfold nearer, gap.
  assert (E1 : D * 10 ^ pos k * 2 ^ pos (- e) = D * lower_ e k) by (unfold lower_, den; fold (pos (- e)); ring).
  assert (E2 : m * 2 ^ pos e * 10 ^ pos (- k) = upper_ m e k) by (unfold upper_, num; fold (pos e); ring).
  rewrite E1, E2. assert (Hq : 0 < 2 ^ pos (- e')) by by apply Z.pow_pos_nonneg.
  assert (Hq0 : 0 < 2 ^ pos (- e)) by by apply Z.pow_pos_nonneg. assert (Ht : 0 < 10 ^ pos (- k)) by by apply Z.pow_pos_nonneg.
  assert (Hbp : 0 < 2 ^ (mbits + 1)) by (apply Z.pow_pos_nonneg; lia).
  assert (V : upper_ m e k * 2 ^ pos (- e') = scale_up m e e' * 10 ^ pos (- k)) by (unfold upper_, num, scale_up; fold (pos e); ring).
  set (U := lower_ e k * 2 ^ pos (- e')). set (V' := scale_up m' e' e * 10 ^ pos (- k)).
  assert (HV : U < Z.abs (upper_ m e k * 2 ^ pos (- e') - V')).
  { apply (Z.mul_lt_mono_pos_r (2 ^ (mbits + 1))); [done|].
    apply (Z.lt_le_trans _ (upper_ m e k * 2 ^ pos (- e'))); [|rewrite V; unfold V'].
    1: { assert (lower_ e k * 2 ^ (mbits + 1) < upper_ m e k) by nia. unfold U.
         replace (lower_ e k * 2 ^ pos (- e') * 2 ^ (mbits + 1)) with (lower_ e k * 2 ^ (mbits + 1) * 2 ^ pos (- e')) by ring.
         by apply Z.mul_lt_mono_pos_r. }
    rewrite <- Z.mul_sub_distr_r, Z.abs_mul, (Z.abs_eq (10 ^ _)) by lia. nia. }
  assert (F : Z.abs (D * 10 ^ pos k * 2 ^ pos (- e') - m' * 2 ^ pos e' * 10 ^ pos (- k)) * 2 ^ pos (- e)
            = Z.abs (D * lower_ e k * 2 ^ pos (- e') - V')).
  { rewrite abs_mul_r by lia. f_equal. unfold V', scale_up, lower_, den. fold (pos (- e)). ring. }
  assert (G : Z.abs (D * lower_ e k - upper_ m e k) * 2 ^ pos (- e') = Z.abs (D * lower_ e k * 2 ^ pos (- e') - upper_ m e k * 2 ^ pos (- e'))).
  { rewrite abs_mul_r by lia. f_equal. ring. }
  rewrite F, G. assert (HU : Z.abs (D * lower_ e k * 2 ^ pos (- e') - upper_ m e k * 2 ^ pos (- e')) * 2 <= U).
  { rewrite <- G. unfold U. rewrite <- (Z.mul_assoc _ _ 2), (Z.mul_comm (2 ^ _) 2), Z.mul_assoc. by apply Z.mul_le_mono_nonneg_r; [lia|]. }
  exact (abs_nearer _ _ _ _ HU HV).
Qed.
