(* ===== verification/LiteralsSpec.v ===== *)
(** * Literals, read back

    The literal of every value, read by the reference of [SqlRead], is the
    constant that denotes the value, and it is complete text: it opens no
    comment, leaves no quote open and holds no comma or parenthesis a row would
    end at. So it can stand anywhere in a statement whatever the data is. *)

From S2P Require Import Prelude Sql SqlRead Calendar TdsTypes Values Encoding ColumnMetadata Codecs CodecsSpec Literals FloatSpec.

(** ** Texts of numbers *)

(** Facts on concrete bytes, by evaluation. *)
Ltac decided := match goal with |- ?P => exact (bool_decide_eq_true_1 P (eq_refl true)) end.

(** The bytes numbers are written with. *)
Definition numchar (b : byte) : bool := is_digit b || bool_decide (b ∈ [DASH; point_; exponent_; z2b 0x2B]).

Lemma numchar_digit b : is_digit b = true -> numchar b = true.
Proof. unfold numchar. by intros ->. Qed.

Lemma numchar_out s x : Forall (fun b => numchar b = true) s -> numchar x = false -> x ∉ s.
Proof. intros Hs Hx Hin. eapply Forall_forall in Hs; [|exact Hin]. congruence. Qed.

Lemma inert_chars s : Forall (fun b => b <> PARL /\ b <> PARR /\ b <> COMMA /\ b <> BLANK) s -> Forall (fun i => inert i = true) (chars s).
Proof.
  intros H. apply Forall_fmap. eapply Forall_impl; [exact H|]. intros b (H1 & H2 & H3 & H4). cbn. unfold inert.
  apply bool_decide_eq_true_2. rewrite !not_elem_of_cons. split_and!; [congruence..|by apply not_elem_of_nil].
Qed.

Lemma eat_bytes_Some p s r : eat_bytes p s = Some r -> s = p ++ r.
Proof.
  revert s. induction p as [|a p IH]; intros s; cbn; [by intros [= ->]|]. destruct s as [|b s]; [done|].
  destruct (bool_decide (a = b)) eqn:E; [|done]. apply bool_decide_eq_true_1 in E. subst b. intros H. by rewrite (IH _ H).
Qed.

Lemma eat_chars_None p s : eat_bytes p s = None -> eat p (chars s) = None.
Proof.
  revert s. induction p as [|a p IH]; intros s; cbn; [done|]. destruct s as [|b s]; [done|]. cbn.
  destruct (bool_decide (a = b)); [apply IH|done].
Qed.

Lemma read_simple_chars s : read_simple (chars s) = read_bare s.
Proof.
  transitivity (s ← unchars (chars s); read_bare s); [|by rewrite unchars_chars].
  by destruct s as [|a [|b [|c s]]].
Qed.

(** Text with a byte a number does not have. *)
Lemma eat_bytes_foreign p s x :
  Forall (fun b => numchar b = true) s -> numchar x = false -> x ∈ p -> eat_bytes p s = None.
Proof.
  intros Hs Hx Hp. destruct (eat_bytes p s) eqn:E; [|done]. apply eat_bytes_Some in E. subst s.
  exfalso. apply (numchar_out _ _ Hs Hx). set_solver.
Qed.

Lemma literal_number s c : plain s -> Forall (fun b => numchar b = true) s -> read_number s = Some c ->
  (forall l, follows l -> starts_literal (chars s ++ l) = true) -> literal s c (chars s).
Proof.
  intros Hp Hs Hc Hh. split; [by apply reads0_plain| | |done].
  - apply within_inert, inert_chars, Forall_forall. intros b Hb.
    split_and!; intros ->; by apply (numchar_out s _ Hs) in Hb.
  - unfold read_constant. rewrite eat_chars_None, read_simple_chars.
    2: { apply (eat_bytes_foreign _ s (z2b 0x43)); [done|done|]. decided. }
    unfold read_bare. rewrite bool_decide_eq_false_2.
    2: { intros ->. apply Forall_cons in Hs as [Hn _]. by vm_compute in Hn. }
    rewrite (eat_bytes_foreign _ s (z2b 0x78)); [done|done|done|]. decided.
Qed.

(** *** Integers *)

Lemma cut_None c s : c ∉ s -> cut c s = None.
Proof.
  induction s as [|b s IH]; intros Hc; cbn; [done|]. rewrite not_elem_of_cons in Hc. destruct Hc as [Hb Hs].
  rewrite bool_decide_eq_false_2 by done. by rewrite IH.
Qed.

Lemma cut_app c a b : c ∉ a -> cut c (a ++ c :: b) = Some (a, b).
Proof.
  induction a as [|x a IH]; intros Hc; cbn; [by rewrite bool_decide_eq_true_2|].
  rewrite not_elem_of_cons in Hc. destruct Hc as [Hb Hs]. rewrite bool_decide_eq_false_2 by done. by rewrite IH.
Qed.

Definition all_digits (s : bytes) : Prop := Forall (fun b => is_digit b = true) s.

Lemma digits_out s x : all_digits s -> is_digit x = false -> x ∉ s.
Proof. intros Hs Hx Hin. eapply Forall_forall in Hs; [|exact Hin]. congruence. Qed.

Lemma all_digits_numchar s : all_digits s -> Forall (fun b => numchar b = true) s.
Proof. intros H. eapply Forall_impl; [exact H|]. intros b. apply numchar_digit. Qed.

Lemma read_mantissa_digits s m : all_digits s -> read_numeral s = Some m -> read_mantissa s = Some (m, None).
Proof. intros Hd Hm. unfold read_mantissa. by rewrite cut_None, Hm by by apply digits_out. Qed.

Lemma read_unsigned_digits g s m : all_digits s -> read_numeral s = Some m -> read_unsigned g s = Some (CInt (g * m)).
Proof.
  intros Hd Hm. unfold read_unsigned. rewrite cut_None by by apply digits_out. by rewrite (read_mantissa_digits _ _ Hd Hm).
Qed.

(** A sign in front. *)
Definition signed (negative : bool) (s : bytes) : bytes := if negative then DASH :: s else s.
Definition sign_of (negative : bool) : Z := if negative then -1 else 1.

Lemma read_number_signed negative d s c :
  is_digit d = true -> read_unsigned (sign_of negative) (d :: s) = Some c -> read_number (signed negative (d :: s)) = Some c.
Proof.
  intros Hd Hc. destruct negative; cbn [signed sign_of read_number] in *; [done|].
  rewrite bool_decide_eq_false_2; [done|]. intros ->. by vm_compute in Hd.
Qed.

Lemma plain_signed negative d s : is_digit d = true -> plain (d :: s) -> plain (signed negative (d :: s)).
Proof. intros Hd Hp. destruct negative; [by apply plain_dash|done]. Qed.

(** A number: a sign, a digit, and the rest. *)
Lemma literal_signed negative d s c :
  is_digit d = true -> Forall (fun b => numchar b = true) s -> plain (d :: s) ->
  read_unsigned (sign_of negative) (d :: s) = Some c ->
  literal (signed negative (d :: s)) c (chars (signed negative (d :: s))).
Proof.
  intros Hd Hs Hp Hc. apply literal_number; [by apply plain_signed| |by apply read_number_signed|].
  - assert (numchar d = true) by by apply numchar_digit. destruct negative; repeat constructor; done.
  - intros l Hl. destruct negative; [by apply (starts_literal_dash d s l)|by apply (starts_literal_digit d s l)].
Qed.

Lemma std_to_string_signed z : std_to_string z = signed (z <? 0) (numeral (Z.abs z)).
Proof. unfold std_to_string, signed. destruct (Z.ltb_spec z 0); do 2 f_equal; lia. Qed.

Lemma sign_abs z : sign_of (z <? 0) * Z.abs z = z.
Proof. destruct (Z.ltb_spec z 0); cbn; lia. Qed.

Lemma literal_int z : literal (std_to_string z) (CInt z) (chars (std_to_string z)).
Proof.
  rewrite std_to_string_signed. destruct (numeral_spec (Z.abs z) ltac:(lia)) as (Hne & Hd & _).
  pose proof (read_numeral_numeral (Z.abs z) ltac:(lia)) as Hr.
  pose proof (read_unsigned_digits (sign_of (z <? 0)) _ _ Hd Hr) as Hu. rewrite sign_abs in Hu.
  pose proof (plain_digits _ Hd) as Hp. destruct (numeral (Z.abs z)) as [|d s]; [done|].
  pose proof Hd as [Hd1 Hd2]%Forall_cons. by apply literal_signed; [|apply all_digits_numchar| |].
Qed.

(** *** Decimals *)

Lemma read_digits_zeros acc n s : acc = 0 -> read_digits acc (zeros n ++ s) = read_digits 0 s.
Proof.
  intros ->. unfold zeros. induction (Z.to_nat n) as [|k IH]; [done|]. cbn [replicate app read_digits].
  rewrite is_digit_digit by lia. unfold digit_value. rewrite b2z_digit by lia. exact IH.
Qed.

Lemma all_digits_zeros n : all_digits (zeros n).
Proof. apply Forall_replicate. by apply is_digit_digit. Qed.

Lemma zlen_zeros n : 0 <= n -> zlen (zeros n) = n.
Proof. intros Hn. unfold zlen, zeros. rewrite length_replicate. lia. Qed.

Lemma plain_pointed i f : all_digits i -> all_digits f -> plain (i ++ tx "." ++ f).
Proof. intros Hi Hf. apply plain_app; [by apply plain_digits|]. apply plain_app; [reflexivity|by apply plain_digits]. Qed.

Lemma read_mantissa_pointed i f m :
  i <> [] -> f <> [] -> all_digits i -> read_digits 0 (i ++ f) = Some m -> read_mantissa (i ++ tx "." ++ f) = Some (m, Some (zlen f)).
Proof.
  intros Hi Hf Hd Hm. unfold read_mantissa. change (tx "." ++ f) with (point_ :: f).
  rewrite cut_app by by apply digits_out. destruct i, f; try done. by rewrite Hm.
Qed.

Lemma pointed_numchar i f : all_digits i -> all_digits f -> Forall (fun b => numchar b = true) (i ++ tx "." ++ f).
Proof.
  intros Hi Hf. apply Forall_app. split; [by apply all_digits_numchar|].
  apply Forall_app. split; [by repeat constructor|by apply all_digits_numchar].
Qed.

Lemma literal_decimal negative i f m :
  i <> [] -> f <> [] -> all_digits i -> all_digits f -> read_digits 0 (i ++ f) = Some m ->
  let s := signed negative (i ++ tx "." ++ f) in literal s (CDecimal (sign_of negative * m) (zlen f)) (chars s).
Proof.
  intros Hi Hf Hdi Hdf Hm. pose proof (pointed_numchar i f Hdi Hdf) as Hn.
  pose proof (plain_pointed i f Hdi Hdf) as Hp. pose proof (read_mantissa_pointed i f m Hi Hf Hdi Hm) as Hr.
  assert (He : exponent_ ∉ i ++ tx "." ++ f).
  { rewrite !not_elem_of_app. split_and!; [by apply digits_out| |by apply digits_out].
    decided. }
  assert (Hu : read_unsigned (sign_of negative) (i ++ tx "." ++ f) = Some (CDecimal (sign_of negative * m) (zlen f))).
  { unfold read_unsigned. rewrite cut_None by done. by rewrite Hr. }
  destruct i as [|d i]; [done|]. apply Forall_cons in Hdi as [Hd _]. cbn [app] in *.
  apply Forall_cons in Hn as [_ Hn]. by apply literal_signed.
Qed.

(** *** Floating-point numbers *)

Lemma read_digits_lin s acc v : read_digits 0 s = Some v -> read_digits acc s = Some (acc * 10 ^ zlen s + v).
Proof.
  enough (H : forall s acc b v, read_digits b s = Some v -> read_digits (acc + b) s = Some (acc * 10 ^ zlen s + v)).
  { intros Hv. rewrite <- (Z.add_0_r acc) at 1. by apply H. }
  clear. induction s as [|c s IH]; intros acc b v; cbn [read_digits].
  - intros [= <-]. by rewrite zlen_nil, Z.pow_0_r, Z.mul_1_r.
  - destruct (is_digit c); [|done]. intros Hv. replace (10 * (acc + b) + digit_value c) with (10 * acc + (10 * b + digit_value c)) by lia.
    rewrite (IH (10 * acc) _ _ Hv). f_equal. rewrite zlen_cons, Z.pow_add_r by (pose proof (zlen_nonneg s); lia). lia.
Qed.

Lemma read_digits_app_0 a b x y :
  read_digits 0 a = Some x -> read_digits 0 b = Some y -> read_digits 0 (a ++ b) = Some (x * 10 ^ zlen b + y).
Proof. intros Ha Hb. rewrite read_digits_app, Ha. by apply read_digits_lin. Qed.

Lemma all_digits_read s : all_digits s -> exists v, read_digits 0 s = Some v /\ 0 <= v.
Proof.
  enough (H : forall s acc, all_digits s -> 0 <= acc -> exists v, read_digits acc s = Some v /\ 0 <= v) by (intros Hs; by apply H).
  clear. induction s as [|c s IH]; intros acc Hs Ha; cbn [read_digits]; [by exists acc|].
  apply Forall_cons in Hs as [Hc Hs]. rewrite Hc. apply IH; [done|]. unfold digit_value. unfold is_digit in Hc. lia.
Qed.

Lemma read_zeros n : read_digits 0 (zeros n) = Some 0.
Proof. rewrite <- (app_nil_r (zeros n)). by rewrite read_digits_zeros. Qed.

Lemma strip_zeros_spec s : exists j, 0 <= j /\ s = Float.strip_zeros s ++ zeros j.
Proof.
  induction s as [|c s (j & Hj & E)]; [by exists 0|]. cbn [Float.strip_zeros foldr]. fold (Float.strip_zeros s).
  destruct (Float.strip_zeros s) as [|b r] eqn:Es.
  - destruct (bool_decide (c = digit 0)) eqn:Ec.
    + apply bool_decide_eq_true_1 in Ec. subst c. exists (j + 1). split; [lia|]. cbn [app] in *. rewrite E.
      unfold zeros. by replace (Z.to_nat (j + 1)) with (S (Z.to_nat j)) by lia.
    + exists j. split; [done|]. cbn [app] in *. by rewrite <- E.
  - exists j. split; [done|]. cbn [app] in *. by rewrite <- E.
Qed.

(** A mantissa: the digits of [i] and [f] with the zeros at the end left out. *)
Lemma point_spec i f : i <> [] -> all_digits i -> all_digits f ->
  let s := Float.point i f in
  plain s /\ Forall (fun b => numchar b = true) s /\ (exponent_ ∉ s) /\
  (exists d r, s = d :: r /\ is_digit d = true) /\
  exists M k j, read_mantissa s = Some (M, k) /\ 0 <= j /\ read_digits 0 (i ++ f) = Some (M * 10 ^ j) /\
    default 0 k + j = zlen f /\ (k = None -> s = i /\ read_digits 0 i = Some M) /\ (is_Some k -> point_ ∈ s).
Proof.
  intros Hi Hdi Hdf s. destruct (strip_zeros_spec f) as (j & Hj & Ef).
  assert (Hdg : all_digits (Float.strip_zeros f)) by (rewrite Ef in Hdf; by apply Forall_app in Hdf as [? _]).
  assert (Hfirst : forall t, exists d r, i ++ t = d :: r /\ is_digit d = true).
  { intros t. destruct i as [|d i]; [done|]. apply Forall_cons in Hdi as [? _]. by eexists _, _. }
  destruct (all_digits_read i Hdi) as (v & Hv & _). unfold s, Float.point.
  destruct (Float.strip_zeros f) as [|b g] eqn:Eg.
  - split_and!; [by apply plain_digits|by apply all_digits_numchar|by apply digits_out| |].
    { destruct (Hfirst []) as (d & r & Er & Hd). rewrite app_nil_r in Er. by exists d, r. }
    exists v, None, j. split_and!; [|done| | | |by intros []].
    + apply read_mantissa_digits; [done|]. unfold read_numeral. by destruct i.
    + cbn [app] in Ef. rewrite Ef, (read_digits_app_0 _ _ v 0), zlen_zeros by (done || apply read_zeros). f_equal. lia.
    + cbn [app] in Ef. rewrite Ef, zlen_zeros by done. done.
    + done.
  - rewrite <- Eg in *. set (h := Float.strip_zeros f) in *. destruct (all_digits_read h Hdg) as (w & Hw & _).
    assert (Hne : h <> []) by (by rewrite Eg).
    split_and!; [by apply plain_pointed|by apply pointed_numchar| |apply Hfirst|].
    { rewrite !not_elem_of_app. split_and!; [by apply digits_out|decided|by apply digits_out]. }
    exists (v * 10 ^ zlen h + w), (Some (zlen h)), j. split_and!; [|done| | |done|].
    + apply read_mantissa_pointed; try done. by apply read_digits_app_0.
    + rewrite Ef, app_assoc, (read_digits_app_0 _ _ (v * 10 ^ zlen h + w) 0), zlen_zeros
        by (done || apply read_zeros || by apply read_digits_app_0). f_equal. lia.
    + rewrite Ef, zlen_app, zlen_zeros by done. cbn. lia.
    + intros _. apply elem_of_app. right. apply elem_of_app. left. decided.
Qed.

(** The value of a number constant is [M * 10^K]. *)
Definition amount (c : constant) : option (Z * Z) :=
  match c with
  | CInt z => Some (z, 0)
  | CDecimal m k => Some (m, - k)
  | CReal m e => Some (m, e)
  | _ => None
  end.

(** The same decimal, with other zeros at its end. *)
Definition same_decimal (M K M' K' : Z) : Prop := exists a b, 0 <= a /\ 0 <= b /\ M * 10 ^ a = M' * 10 ^ b /\ K - a = K' - b.

Lemma nearer_same_decimal M K M' K' m e m' e' : same_decimal M K M' K' -> nearer M K m e m' e' <-> nearer M' K' m e m' e'.
Proof.
  intros (a & b & Ha & Hb & E & E'). rewrite <- (nearer_shift M K a), <- (nearer_shift M' K' b) by done. by rewrite E, E'.
Qed.

Lemma zlen_digits p n fuel : 0 <= n < 10 ^ Z.of_nat p -> (p <= fuel)%nat -> (p = 1%nat \/ 10 ^ (Z.of_nat p - 1) <= n) ->
  (0 < p)%nat -> zlen (digits fuel n) = Z.of_nat p.
Proof.
  revert n fuel. induction p as [|p IH]; intros n fuel Hn Hf Hp Hpos; [lia|]. destruct fuel as [|fuel]; [lia|]. cbn [digits].
  destruct (Z.ltb_spec n 10) as [Hlt|Hge].
  - rewrite zlen_cons, zlen_nil. destruct Hp as [Hp|Hp]; [lia|]. destruct p as [|p]; [done|].
    assert (10 ^ 1 <= 10 ^ (Z.of_nat (S (S p)) - 1)) by (apply Z.pow_le_mono_r; lia). lia.
  - rewrite zlen_app, zlen_cons, zlen_nil. destruct p as [|p]; [change (10 ^ Z.of_nat 1) with 10 in Hn; lia|].
    replace (Z.of_nat (S (S p))) with (Z.succ (Z.of_nat (S p))) in Hn by lia. rewrite Z.pow_succ_r in Hn by lia.
    rewrite (IH (n / 10) fuel); [lia|zlia|lia| |lia]. destruct Hp as [Hp|Hp]; [lia|].
    destruct p as [|p]; [by left|]. right. apply Z.div_le_lower_bound; [lia|]. rewrite <- Z.pow_succ_r by lia.
    by replace (Z.succ (Z.of_nat (S (S p)) - 1)) with (Z.of_nat (S (S (S p))) - 1) by lia.
Qed.

Lemma zlen_numeral p n : 0 < p -> 10 ^ (p - 1) <= n < 10 ^ p -> zlen (numeral n) = p.
Proof.
  intros Hp Hn. rewrite <- (Z2Nat.id p) in * by lia. assert (0 < 10 ^ (Z.of_nat (Z.to_nat p) - 1)) by (apply Z.pow_pos_nonneg; lia).
  apply zlen_digits; [lia| |lia|lia].
  assert (Z.of_nat (Z.to_nat p) - 1 <= Z.log2 n); [|lia]. transitivity (Z.log2 (2 ^ (Z.of_nat (Z.to_nat p) - 1))).
  - by rewrite Z.log2_pow2 by lia.
  - apply Z.log2_le_mono. transitivity (10 ^ (Z.of_nat (Z.to_nat p) - 1)); [apply Z.pow_le_mono_l; lia|lia].
Qed.

Definition sci_exponent (x : Z) : bytes := (if x <? 0 then [DASH] else tx "+") ++ padded 2 (numeral (Z.abs x)).

Lemma padded_digits w s : all_digits s -> all_digits (padded w s).
Proof. intros Hs. apply Forall_app. split; [apply all_digits_zeros|done]. Qed.

Lemma read_padded w s v : s <> [] -> read_digits 0 s = Some v -> read_numeral (padded w s) = Some v.
Proof.
  intros Hne Hv. unfold read_numeral, padded. destruct (zeros (w - zlen s) ++ s) eqn:E.
  - by apply app_eq_nil in E as [_ ?].
  - rewrite <- E. by rewrite read_digits_zeros.
Qed.

Lemma read_numeral_0 n : 0 <= n -> read_digits 0 (numeral n) = Some n.
Proof. intros Hn. destruct (numeral_spec n Hn) as (_ & _ & Hr). rewrite Hr. by f_equal. Qed.

Lemma padded_cons w s : s <> [] -> all_digits s -> exists d r, padded w s = d :: r /\ is_digit d = true.
Proof.
  intros Hne Hs. pose proof (padded_digits w s Hs) as Hp. destruct (padded w s) as [|d r] eqn:E.
  - unfold padded in E. by apply app_eq_nil in E as [_ ?].
  - apply Forall_cons in Hp as [Hd _]. by exists d, r.
Qed.

Lemma sci_exponent_spec x :
  plain (tx "e" ++ sci_exponent x) /\ Forall (fun b => numchar b = true) (tx "e" ++ sci_exponent x) /\
  read_exponent (sci_exponent x) = Some x.
Proof.
  destruct (numeral_spec (Z.abs x) ltac:(lia)) as (Hne & Hd & _).
  pose proof (padded_digits 2 _ Hd) as Hpd. destruct (padded_cons 2 _ Hne Hd) as (d & r & E & Hdd).
  pose proof (read_padded 2 _ _ Hne (read_numeral_0 (Z.abs x) ltac:(lia))) as Hr.
  pose proof (plain_digits _ Hpd) as Hp. unfold sci_exponent. rewrite E in *.
  destruct (Z.ltb_spec x 0) as [Hx|Hx].
  - split_and!.
    + apply plain_cons; [done|]. by apply plain_dash.
    + do 2 (apply Forall_app; split; [by repeat constructor|]). by apply all_digits_numchar.
    + cbn [app read_exponent]. rewrite bool_decide_eq_true_2 by done. rewrite Hr. cbn. f_equal. lia.
  - split_and!.
    + apply plain_cons; [done|]. by apply plain_cons.
    + do 2 (apply Forall_app; split; [by repeat constructor|]). by apply all_digits_numchar.
    + cbn [app tx String.list_byte_of_string]. change (read_exponent (z2b 0x2B :: d :: r) = Some x).
      cbn [read_exponent]. rewrite bool_decide_eq_false_2 by decided. rewrite bool_decide_eq_true_2 by done. rewrite Hr. f_equal. lia.
Qed.

(** A sign, a mantissa, and perhaps an exponent. *)
Lemma literal_mantissa negative s M k :
  plain s -> Forall (fun b => numchar b = true) s -> exponent_ ∉ s -> (exists d r, s = d :: r /\ is_digit d = true) ->
  read_mantissa s = Some (M, k) ->
  let c := match k with Some k => CDecimal (sign_of negative * M) k | None => CInt (sign_of negative * M) end in
  literal (signed negative s) c (chars (signed negative s)).
Proof.
  intros Hp Hn He (d & r & -> & Hd) Hr c. apply Forall_cons in Hn as [_ Hn]. apply literal_signed; try done.
  unfold read_unsigned. rewrite cut_None by done. rewrite Hr. by destruct k.
Qed.

Lemma literal_scientific negative s M k x :
  plain s -> Forall (fun b => numchar b = true) s -> exponent_ ∉ s -> (exists d r, s = d :: r /\ is_digit d = true) ->
  read_mantissa s = Some (M, k) ->
  literal (signed negative (s ++ tx "e" ++ sci_exponent x)) (CReal (sign_of negative * M) (x - default 0 k))
    (chars (signed negative (s ++ tx "e" ++ sci_exponent x))).
Proof.
  intros Hp Hn He (d & r & -> & Hd) Hr. destruct (sci_exponent_spec x) as (Hpe & Hne & Hre).
  pose proof (plain_app _ _ Hp Hpe) as Hpp. cbn [app] in *. apply Forall_cons in Hn as [_ Hn]. apply literal_signed; try done.
  - apply Forall_app. by split.
  - unfold read_unsigned. change (d :: r ++ tx "e" ++ sci_exponent x) with ((d :: r) ++ exponent_ :: sci_exponent x).
    rewrite cut_app by done. rewrite Hr. cbn. by rewrite Hre.
Qed.

Lemma has_signed b negative s : b <> DASH -> has b (signed negative s) = has b s.
Proof.
  intros Hb. unfold has. apply bool_decide_ext. destruct negative; cbn [signed]; [|done]. rewrite elem_of_cons. split; [by intros [?|?]|by right].
Qed.

Lemma literal_append_zero negative i : i <> [] -> all_digits i -> forall v, read_digits 0 i = Some v ->
  literal (signed negative i ++ tx ".0") (CDecimal (sign_of negative * (10 * v)) 1) (chars (signed negative i ++ tx ".0")).
Proof.
  intros Hi Hd v Hv. replace (signed negative i ++ tx ".0") with (signed negative (i ++ tx "." ++ [digit 0])) by by destruct negative.
  apply (literal_decimal negative i [digit 0] (10 * v)); [done|done|done|repeat constructor|].
  rewrite (read_digits_app_0 i [digit 0] v 0) by done. f_equal. rewrite zlen_cons, zlen_nil. change (10 ^ (1 + 0)) with 10. lia.
Qed.

Lemma has_true b s : b ∈ s -> has b s = true.
Proof. intros H. by apply bool_decide_eq_true_2. Qed.

Lemma has_false b s : b ∉ s -> has b s = false.
Proof. intros H. by apply bool_decide_eq_false_2. Qed.

Lemma signed_app (negative : bool) (s : bytes) : (if negative then [DASH] else []) ++ s = signed negative s.
Proof. by destruct negative. Qed.

(** What the float family appends to a text without a point or an exponent. *)
Definition with_point (result : bytes) : bytes :=
  if negb (has (z2b 0x2E) result) && negb (has (z2b 0x65) result) && negb (has (z2b 0x45) result)
  then result ++ tx ".0" else result.

Lemma numchar_no_E s : Forall (fun b => numchar b = true) s -> has (z2b 0x45) s = false.
Proof. intros Hs. apply has_false. by apply (numchar_out s). Qed.

Lemma with_point_signed negative s :
  with_point (signed negative s) =
  if negb (has (z2b 0x2E) s) && negb (has (z2b 0x65) s) && negb (has (z2b 0x45) s)
  then signed negative s ++ tx ".0" else signed negative s.
Proof. unfold with_point. by rewrite !has_signed by done. Qed.

(** A text in fixed notation. *)
Lemma literal_fixed negative i f d K :
  i <> [] -> all_digits i -> all_digits f -> read_digits 0 (i ++ f) = Some d -> K = - zlen f ->
  exists c M' K', let s := with_point (signed negative (Float.point i f)) in
    literal s c (chars s) /\ amount c = Some (sign_of negative * M', K') /\ same_decimal M' K' d K.
Proof.
  intros Hi Hdi Hdf Hd HK. destruct (point_spec i f Hi Hdi Hdf) as (Hp & Hn & He & Hf & M & k & j & Hr & Hj & HM & Hk & HN & HS).
  rewrite Hd in HM. injection HM as ->. pose proof (literal_mantissa negative _ M k Hp Hn He Hf Hr) as HL. rewrite with_point_signed. destruct k as [k|].
  - rewrite has_true by by apply HS. cbn [negb andb]. eexists _, M, (- k). split_and!; [exact HL|done|].
    exists j, 0. cbn in Hk. split_and!; lia.
  - destruct (HN eq_refl) as [Ei Hv]. rewrite Ei in *. rewrite !has_false by (by apply digits_out). cbn [negb andb].
    eexists _, (10 * M), (-1). split_and!; [by apply literal_append_zero|done|].
    exists j, 1. cbn in Hk. split_and!; [lia|lia|lia|lia].
Qed.

Lemma general_literal negative p m e :
  0 < p -> 0 <= m -> (0 < m -> -1200 <= Z.log2 m + e <= 1200) ->
  exists c M K, let s := with_point (Float.general p (Float.Finite negative m e)) in
    literal s c (chars s) /\ amount c = Some (sign_of negative * M, K) /\
    if m =? 0 then M = 0
    else same_decimal M K (Float.significant p m e).1 ((Float.significant p m e).2 - p + 1).
Proof.
  intros Hp Hm HL. cbn [Float.general]. destruct (Z.eqb_spec m 0) as [->|Hne].
  { rewrite signed_app. exists (CDecimal (sign_of negative * (10 * 0)) 1), 0, (-1).
    rewrite with_point_signed. split_and!; [|done|done].
    by apply (literal_append_zero negative (tx "0")); [|repeat constructor|]. }
  pose proof (significant_spec m e ltac:(lia) p Hp (HL ltac:(lia))) as Hs. destruct (Float.significant p m e) as [d x].
  destruct Hs as [Hd _]. cbn [fst snd]. pose proof (zlen_numeral p d Hp Hd) as Hlen.
  assert (Hd0 : 0 <= d) by (assert (0 < 10 ^ (p - 1)) by (apply Z.pow_pos_nonneg; lia); lia).
  destruct (numeral_spec d Hd0) as (Hnn & Hdd & _). pose proof (read_numeral_0 d Hd0) as Hrd. set (ds := numeral d) in *.
  assert (Htake : forall n, all_digits (ztake n ds)) by (intros n; by apply Forall_take).
  assert (Hdrop : forall n, all_digits (zdrop n ds)) by (intros n; by apply Forall_drop).
  assert (Hne1 : forall n, 1 <= n <= p -> ztake n ds <> []).
  { intros n Hn E. pose proof (zlen_ztake n ds ltac:(lia)) as El. rewrite E, zlen_nil in El. lia. }
  destruct ((x <? -4) || (p <=? x)) eqn:Ex.
  - destruct (point_spec (ztake 1 ds) (zdrop 1 ds) (Hne1 1 ltac:(lia)) (Htake 1) (Hdrop 1))
      as (Hp1 & Hn1 & He1 & Hf1 & M & k & j & Hr & Hj & HM & Hk & _ & _).
    pose proof (literal_scientific negative _ M k x Hp1 Hn1 He1 Hf1 Hr) as Hlit. unfold sci_exponent in Hlit.
    rewrite signed_app, with_point_signed. rewrite (has_true (z2b 0x65)).
    2: { apply elem_of_app. right. apply elem_of_app. left. decided. }
    rewrite andb_false_r. cbn [andb]. eexists _, M, (x - default 0 k). split_and!; [exact Hlit|done|].
    rewrite ztake_zdrop, Hrd in HM. injection HM as ->. rewrite zlen_zdrop in Hk by lia.
    exists j, 0. split_and!; lia.
  - apply orb_false_iff in Ex as [Ex1%Z.ltb_ge Ex2%Z.leb_gt]. destruct (Z.ltb_spec x 0) as [Hx|Hx]; rewrite signed_app.
    + apply (literal_fixed negative (tx "0")); [done|by repeat constructor| | |].
      * apply Forall_app. split; [apply all_digits_zeros|done].
      * change (tx "0") with (zeros 1). rewrite !read_digits_zeros by done. done.
      * rewrite zlen_app, zlen_zeros by lia. lia.
    + apply literal_fixed; [apply Hne1; lia|done|done| |].
      * by rewrite ztake_zdrop.
      * rewrite zlen_zdrop by lia. lia.
Qed.

(** ** Strings and casts *)

Lemma doubled_none q s : q ∉ s -> doubled q s = s.
Proof.
  induction s as [|c s IH]; intros Hq; [done|]. rewrite not_elem_of_cons in Hq. destruct Hq as [Hc Hs]. cbn [doubled].
  rewrite bool_decide_eq_false_2 by done. by rewrite IH.
Qed.

Lemma within_Text d s : within d [Text s] d.
Proof. apply within_inert. by repeat constructor. Qed.

Lemma literal_string s : continued s = false ->
  literal (tx "N'" ++ EscapeSqlSingleQuotes s ++ tx "'") (CString true s) [Ch (z2b 0x4E); Text s].
Proof.
  intros Hc. split; [|apply within_inert; by repeat constructor|done|by intros l _].
  change (reads0 (tx "N" ++ (QUOTE :: EscapeSqlSingleQuotes s ++ [QUOTE])) (chars (tx "N") ++ [Text s])).
  apply reads_weaken, reads_sep; [done|by apply reads0_quoted].
Qed.

(** Text that stands for itself between quotes. *)
Definition verbatim (t : bytes) : Prop := QUOTE ∉ t /\ BACKSLASH ∉ t.

Lemma reads0_verbatim t : verbatim t -> reads0 (tx "'" ++ t ++ tx "'") [Text t].
Proof.
  intros [Hq Hb]. pose proof (reads0_quoted t (continued_no_backslash t Hb)) as H. unfold EscapeSqlSingleQuotes in H.
  by rewrite doubled_none in H.
Qed.

Lemma literal_verbatim t : verbatim t -> literal (tx "'" ++ t ++ tx "'") (CString false t) [Text t].
Proof. intros Ht. by split; [apply reads0_verbatim|apply within_Text| |]. Qed.

Lemma before_blank_app ts l : Forall (fun i => i <> Ch (z2b 0x20)) ts ->
  before_blank (ts ++ Ch (z2b 0x20) :: l) = (ts, Ch (z2b 0x20) :: l).
Proof.
  induction 1 as [|i ts Hi _ IH]; [done|]. cbn [app before_blank]. rewrite IH. destruct i as [b|x|x]; [|done..].
  by rewrite bool_decide_eq_false_2 by congruence.
Qed.

Lemma unclose_app s : unclose (s ++ [PARR]) = Some s.
Proof. unfold unclose. rewrite reverse_snoc, bool_decide_eq_true_2 by done. by rewrite reverse_involutive. Qed.

(** [CAST(v AS T)], where [v] is plain or quoted and has no blank outside quotes. *)
Lemma literal_cast s c ts ty :
  reads0 s ts -> within 1 ts 1 -> Forall (fun i => i <> Ch (z2b 0x20)) ts ->
  read_simple ts = Some c -> plain ty -> starts ty = true -> within 1 (chars ty) 1 -> 
  literal (tx "CAST(" ++ s ++ tx " AS " ++ ty ++ tx ")") (CCast c ty)
    (chars (tx "CAST(") ++ ts ++ chars (tx " AS ") ++ chars ty ++ chars (tx ")")).
Proof.
  intros Hs Hw Hb Hc Hty Hst Hwt. split.
  - apply reads_weaken. rewrite !app_assoc. apply reads_app; [|by apply reads_plainly].
    apply reads_app; [|by apply reads_chars]. apply reads_app; [|by apply reads_plainly]. by apply reads_sep.
  - apply within_app with 1%nat; [by apply within_chars|]. apply within_app with 1%nat; [done|].
    apply within_app with 1%nat; [by apply within_chars|]. apply within_app with 1%nat; [done|by apply within_chars].
  - unfold read_constant. rewrite eat_chars.
    change (chars (tx " AS ") ++ chars ty ++ chars (tx ")")) with (Ch (z2b 0x20) :: chars (tx "AS ") ++ chars ty ++ chars (tx ")")).
    rewrite before_blank_app by done. change (Ch (z2b 0x20) :: chars (tx "AS ") ++ chars ty ++ chars (tx ")")) with (chars (tx " AS ") ++ chars ty ++ chars (tx ")")).
    rewrite Hc. cbn [mbind option_bind]. rewrite eat_chars. cbn [mbind option_bind].
    replace (chars ty ++ chars (tx ")")) with (chars (ty ++ [PARR])) by (unfold chars; by rewrite fmap_app).
    rewrite unchars_chars. cbn [mbind option_bind]. by rewrite unclose_app.
  - by intros l _.
Qed.

Lemma literal_cast_text t ty :
  verbatim t -> plain ty -> starts ty = true -> within 1 (chars ty) 1 ->
  exists ts, literal (tx "CAST('" ++ t ++ tx "' AS " ++ ty ++ tx ")") (CCast (CString false t) ty) ts.
Proof.
  intros Ht Hty Hst Hw. exists (chars (tx "CAST(") ++ [Text t] ++ chars (tx " AS ") ++ chars ty ++ chars (tx ")")).
  replace (tx "CAST('" ++ t ++ tx "' AS " ++ ty ++ tx ")") with (tx "CAST(" ++ (tx "'" ++ t ++ tx "'") ++ tx " AS " ++ ty ++ tx ")").
  - apply literal_cast; try done; [by apply reads0_verbatim|apply within_Text|by repeat constructor].
  - change (tx "CAST('") with (tx "CAST(" ++ tx "'"). change (tx "' AS ") with (tx "'" ++ tx " AS "). by rewrite <- !app_assoc.
Qed.

Lemma read_simple_number s c : Forall (fun b => numchar b = true) s -> read_number s = Some c -> read_simple (chars s) = Some c.
Proof.
  intros Hs Hc. rewrite read_simple_chars. unfold read_bare. rewrite bool_decide_eq_false_2.
  - rewrite (eat_bytes_foreign _ s (z2b 0x78)); [done|done|done|decided].
  - intros ->. apply Forall_cons in Hs as [Hn _]. by vm_compute in Hn.
Qed.

(** ** Binary strings *)

Lemma hex_byte b :
  hex_value (hex_char (Z.shiftr (b2z b) 4)) = Some (Z.shiftr (b2z b) 4) /\
  hex_value (hex_char (Z.land (b2z b) 0x0F)) = Some (Z.land (b2z b) 0x0F) /\
  z2b (16 * Z.shiftr (b2z b) 4 + Z.land (b2z b) 0x0F) = b /\
  opens (hex_char (Z.shiftr (b2z b) 4)) = Between /\ opens (hex_char (Z.land (b2z b) 0x0F)) = Between /\
  inert (Ch (hex_char (Z.shiftr (b2z b) 4))) = true /\ inert (Ch (hex_char (Z.land (b2z b) 0x0F))) = true.
Proof. by destruct b; vm_compute. Qed.

Definition hex_text (data : bytes) : bytes :=
  mjoin ((fun b => [hex_char (Z.shiftr (b2z b) 4); hex_char (Z.land (b2z b) 0x0F)]) <$> data).

Lemma hex_text_cons b data :
  hex_text (b :: data) = hex_char (Z.shiftr (b2z b) 4) :: hex_char (Z.land (b2z b) 0x0F) :: hex_text data.
Proof. reflexivity. Qed.

Lemma read_hex_text data : read_hex (hex_text data) = Some data.
Proof.
  induction data as [|b data IH]; [done|]. destruct (hex_byte b) as (H1 & H2 & H3 & _). rewrite hex_text_cons.
  cbn [read_hex]. rewrite H1, H2, IH. cbn [mbind option_bind]. by rewrite H3.
Qed.

Lemma hex_text_plain data : plain (hex_text data) /\ Forall (fun i => inert i = true) (chars (hex_text data)).
Proof.
  induction data as [|b data [IH1 IH2]]; [by split; [|constructor]|]. destruct (hex_byte b) as (_ & _ & _ & H1 & H2 & H3 & H4).
  rewrite hex_text_cons. split; [by repeat apply plain_cons|]. by repeat (apply Forall_cons; split; [done|]).
Qed.

Lemma literal_binary data : literal (HexRender data) (CBinary data) (chars (HexRender data)).
Proof.
  destruct (hex_text_plain data) as [Hp Hi]. change (HexRender data) with (tx "0x" ++ hex_text data). split.
  - apply reads0_plain. by apply plain_app.
  - unfold chars. rewrite fmap_app. apply within_app with 0%nat; [by apply within_chars|by apply within_inert].
  - unfold read_constant. rewrite eat_chars_None by done. rewrite read_simple_chars. unfold read_bare.
    change (tx "0x" ++ hex_text data) with (z2b 0x30 :: z2b 0x78 :: hex_text data).
    rewrite bool_decide_eq_false_2 by done. change (eat_bytes (tx "0x") (z2b 0x30 :: z2b 0x78 :: hex_text data)) with (Some (hex_text data)).
    cbv iota beta. by rewrite read_hex_text.
  - by intros l _.
Qed.

(** ** Values *)

(** The texts of dates and times. *)
Lemma field_digits w n : all_digits (field w n).
Proof.
  revert n. induction w as [|w IH]; intros n; [constructor|]. cbn [field]. apply Forall_app. split; [apply IH|].
  constructor; [|constructor]. apply is_digit_digit. apply Z.mod_pos_bound. lia.
Qed.

Lemma verbatim_digits s : all_digits s -> verbatim s.
Proof. intros Hs. split; by apply digits_out. Qed.

Lemma verbatim_app s t : verbatim s -> verbatim t -> verbatim (s ++ t).
Proof. intros [] []. split; apply not_elem_of_app; by split. Qed.

Ltac verbatim_text := repeat match goal with |- verbatim (_ ++ _) => apply verbatim_app end; first [apply verbatim_digits, field_digits|split; decided].

Lemma iso_date_verbatim n : verbatim (iso_date n).
Proof. unfold iso_date. destruct (civil n) as [[y m] d]. verbatim_text. Qed.

Lemma iso_time_verbatim n : verbatim (iso_time n).
Proof. unfold iso_time. verbatim_text. Qed.

Lemma iso_datetime_verbatim n : verbatim (iso_datetime n).
Proof. unfold iso_datetime. apply verbatim_app; [apply iso_date_verbatim|]. apply verbatim_app; [split; decided|apply iso_time_verbatim]. Qed.

Lemma date_text_iso n : in_calendar n = true -> (let '(y, m, d) := civil n in date_text y m d) = iso_date n.
Proof.
  intros Hn. pose proof (civil_spec n Hn) as H. unfold iso_date, date_text. destruct (civil n) as [[y m] d]. destruct H as [Hv _].
  pose proof (month_length_range y m). unfold valid_date in Hv. by rewrite !fmt0_field by (cbn; lia).
Qed.

Lemma time_text_iso t : 0 <= t < TICKS_PER_DAY ->
  time_text (t / 36000000000) (t / 600000000 mod 60) (t / 10000000 mod 60) (t mod 10000000) = iso_time t.
Proof. unfold TICKS_PER_DAY. intros Ht. unfold iso_time, time_text. by rewrite !fmt0_field by (cbn; zlia). Qed.

Section Values.
Context `{DuckDB} `{Values_}.

Lemma literal_SerializeDecimal z width scale : huge z -> 0 <= scale ->
  literal (SerializeDecimal z width scale) (if scale =? 0 then CInt z else CDecimal z scale) (chars (SerializeDecimal z width scale)).
Proof.
  intros Hz Hs. destruct (numeral_spec (Z.abs z) ltac:(lia)) as (Hne & Hd & _).
  pose proof (read_numeral_0 (Z.abs z) ltac:(lia)) as Hr.
  assert (E : SerializeDecimal z width scale = SerializeDecimal.place scale (z <? 0) (SerializeDecimal.pad scale (numeral (Z.abs z)))).
  { unfold SerializeDecimal. rewrite Hugeint_ToString_decimal, std_to_string_signed by done.
    destruct (z <? 0); cbn [signed]; [by rewrite bool_decide_eq_true_2|].
    destruct (numeral (Z.abs z)) as [|d s]; [done|]. apply Forall_cons in Hd as [Hd _].
    rewrite bool_decide_eq_false_2; [done|]. intros ->. by vm_compute in Hd. }
  rewrite E. set (ds := numeral (Z.abs z)) in *. unfold SerializeDecimal.place.
  assert (Hl : 0 < zlen ds) by (destruct ds; [done|]; rewrite zlen_cons; pose proof (zlen_nonneg ds); lia).
  destruct (Z.eqb_spec scale 0) as [->|Hs0].
  - rewrite signed_app. assert (SerializeDecimal.pad 0 ds = ds) as ->.
    { unfold SerializeDecimal.pad, zeros. by replace (Z.to_nat (0 + 1 - zlen ds)) with O by lia. }
    unfold ds. rewrite <- std_to_string_signed. apply literal_int.
  - assert (Hpd : all_digits (SerializeDecimal.pad scale ds)) by (apply Forall_app; split; [apply all_digits_zeros|done]).
    assert (Hpl : scale + 1 <= zlen (SerializeDecimal.pad scale ds)).
    { unfold SerializeDecimal.pad. rewrite zlen_app. unfold zeros, zlen at 1. rewrite length_replicate. lia. }
    assert (Hpr : read_digits 0 (SerializeDecimal.pad scale ds) = Some (Z.abs z)) by (unfold SerializeDecimal.pad; by rewrite read_digits_zeros).
    set (ps := SerializeDecimal.pad scale ds) in *. rewrite signed_app.
    pose proof (literal_decimal (z <? 0) (ztake (zlen ps - scale) ps) (zdrop (zlen ps - scale) ps) (Z.abs z)) as HL.
    rewrite zlen_zdrop, sign_abs in HL by lia. replace (zlen ps - (zlen ps - scale)) with scale in HL by lia.
    apply HL; [| |by apply Forall_take|by apply Forall_drop|by rewrite ztake_zdrop].
    + intros E'. pose proof (zlen_ztake (zlen ps - scale) ps ltac:(lia)) as E2. rewrite E', zlen_nil in E2. lia.
    + intros E'. pose proof (zlen_zdrop (zlen ps - scale) ps ltac:(lia)) as E2. rewrite E', zlen_nil in E2. lia.
Qed.

(** *** The moment a date or a time is *)

(** A timestamp's tick of 100 ns since 1970 nearest to it, the later of two; in
    the years of the server, and for nanoseconds a day inside the 64 bits. *)
Definition instant (d : LogicalTypeId) (z : Z) : option Z :=
  u ← unit_of d;
  let t := (2 * z * 10000000 + u) / (2 * u) in
  if (-9223372036854775808 <=? z - 86400 * u + 1) && in_calendar (t / TICKS_PER_DAY) then Some t else None.

(** Days, ticks since midnight, ticks since 1970. *)
Definition moment (v : Value) : option Z :=
  c ← cell_of v;
  match id (type v) with
  | DATE => if in_calendar (word c) then Some (word c) else None
  | TIME => if (0 <=? word c) && (word c <? 86400000000) then Some (10 * word c) else None
  | d => instant d (word c)
  end.

Definition DATETIME2 : bytes := tx "DATETIME2(7)".
Definition DATETIMEOFFSET : bytes := tx "DATETIMEOFFSET(7)".
Definition UTC : bytes := tx "+00:00".

(** The moment a constant is, where one of a type is expected. *)
Definition read_moment (d : LogicalTypeId) (c : constant) : option Z :=
  match d, c with
  | DATE, CString _ s => read_date s
  | TIME, CString _ s => read_time s
  | TIMESTAMP_TZ, CCast (CString _ s) ty =>
      if bool_decide (ty = DATETIMEOFFSET) && bool_decide (zdrop 27 s = UTC) then read_datetime (ztake 27 s) else None
  | (TIMESTAMP | TIMESTAMP_MS | TIMESTAMP_NS | TIMESTAMP_SEC), CCast (CString _ s) ty =>
      if bool_decide (ty = DATETIME2) then read_datetime s else None
  | _, _ => None
  end.

(** *** The constant *)

(** A string constant cannot hold a line continuation, a date is of the calendar. *)
Definition string_constant (national : bool) (s : bytes) : res constant :=
  if continued s then Exn (InvalidInput "a line continuation") else Ok (CString national s).

Definition moment_constant (f : Z -> constant) (m : option Z) : res constant :=
  match m with Some m => Ok (f m) | None => Exn (InvalidInput "no date or time of the server") end.

(** The constant a value is; floating-point values are below. *)
Definition denoted (v : Value) : res constant :=
  match cell_of v with
  | None => Ok CNull
  | Some c =>
      let z := word c in
      match id (type v) with
      | BOOLEAN | TINYINT | SMALLINT | INTEGER | BIGINT | UTINYINT | USMALLINT | UINTEGER | HUGEINT => Ok (CInt z)
      | UBIGINT => Ok (if z <=? 9223372036854775807 then CInt z else CCast (CInt z) (tx "DECIMAL(20,0)"))
      | DECIMAL => Ok (if decimal_scale (type v) =? 0 then CInt z else CDecimal z (decimal_scale (type v)))
      | VARCHAR => string_constant true (str c)
      | INTERVAL => string_constant true (Interval_ToString z)
      | BLOB | GEOMETRY => Ok (CBinary (str c))
      | UUID => Ok (CString false (UUID_ToString z))
      | DATE => moment_constant (fun n => CString false (iso_date n)) (moment v)
      | TIME => moment_constant (fun t => CString false (iso_time t)) (moment v)
      | TIMESTAMP | TIMESTAMP_MS | TIMESTAMP_NS | TIMESTAMP_SEC => moment_constant (fun t => CCast (CString false (iso_datetime t)) DATETIME2) (moment v)
      | TIMESTAMP_TZ => moment_constant (fun t => CCast (CString false (iso_datetime t ++ UTC)) DATETIMEOFFSET) (moment v)
      | FLOAT | DOUBLE | UHUGEINT | OTHER_TYPE => Exn (NotImplemented "Unsupported DuckDB type for TypeFamily mapping")
      end
  end.

(** The number of a floating-point value, and the precision it is printed with. *)
Definition float_of (v : Value) : option (Float.number * Z) :=
  match cell_of v, id (type v) with
  | Some c, FLOAT => Some (Float.binary32 (word c), 9)
  | Some c, DOUBLE => Some (Float.binary64 (word c), 17)
  | _, _ => None
  end.

(** [c] denotes the value: exactly, or for a floating-point value as the decimal
    of its [p] significant digits. *)
Inductive denotes (v : Value) (c : constant) : Prop :=
  | denotes_exactly : denoted v = Ok c -> denotes v c
  | denotes_float p negative m e M K :
      float_of v = Some (Float.Finite negative m e, p) -> amount c = Some (sign_of negative * M, K) ->
      (if m =? 0 then M = 0 else same_decimal M K (Float.significant p m e).1 ((Float.significant p m e).2 - p + 1)) ->
      denotes v c.

(** What a literal can say: a string without line continuation, a date or a time
    of the server. *)
Definition expressible (v : Value) : bool :=
  match cell_of v with
  | None => true
  | Some c =>
      match id (type v) with
      | VARCHAR => negb (continued (str c))
      | INTERVAL => negb (continued (Interval_ToString (word c)))
      | DATE | TIME | TIMESTAMP | TIMESTAMP_MS | TIMESTAMP_NS | TIMESTAMP_SEC | TIMESTAMP_TZ => bool_decide (is_Some (moment v))
      | _ => true
      end
  end.

(** A value of its type that a literal can say. *)
Definition good_value (v : Value) : Prop :=
  type_ok (type v) /\ (match cell_of v with Some c => value_ok (InternalType (type v)) c | None => True end) /\ expressible v = true.

Lemma GetWord_stored v c : cell_of v = Some c -> GetWord (InternalType (type v)) v = Ok (word c).
Proof. intros Hc. unfold GetWord. by rewrite (GetValue_stored v c Hc). Qed.

Lemma GetStr_stored v c : cell_of v = Some c -> GetStr (InternalType (type v)) v = Ok (str c).
Proof. intros Hc. unfold GetStr. by rewrite (GetValue_stored v c Hc). Qed.

Lemma literal_null : literal (tx "NULL") CNull (chars (tx "NULL")).
Proof. by split; [apply reads0_plain|apply within_chars| |]. Qed.

Lemma literal_ubigint z : 0 <= z ->
  exists ts, literal (tx "CAST(" ++ std_to_string z ++ tx " AS DECIMAL(20,0))") (CCast (CInt z) (tx "DECIMAL(20,0)")) ts.
Proof.
  intros Hz. destruct (std_to_string_plain z) as [Hp Hst]. destruct (numeral_spec z Hz) as (Hne & Hd & _).
  assert (E : std_to_string z = numeral z) by (unfold std_to_string; by destruct (Z.ltb_spec z 0); [lia|]).
  eexists. change (tx " AS DECIMAL(20,0))") with (tx " AS " ++ tx "DECIMAL(20,0)" ++ tx ")").
  apply literal_cast; [by apply reads0_plain| | | |done|done|by apply within_chars].
  - apply within_inert, inert_chars. rewrite E. eapply Forall_impl; [exact Hd|]. intros b Hb. cbn.
    split_and!; intros ->; by vm_compute in Hb.
  - rewrite E. apply Forall_fmap. eapply Forall_impl; [exact Hd|]. intros b Hb. cbn. intros [= ->]. by vm_compute in Hb.
  - rewrite E. apply read_simple_number; [by apply all_digits_numchar|]. rewrite <- E.
    rewrite std_to_string_signed.
    assert ((z <? 0) = false) as -> by lia. rewrite (Z.abs_eq z) by lia.
    destruct (numeral z) as [|d s] eqn:En; [done|]. apply Forall_cons in Hd as [Hd1 Hd2]. apply read_number_signed; [done|].
    rewrite <- En. replace z with (sign_of false * z) at 2 by (cbn; lia). apply read_unsigned_digits; [|by apply read_numeral_numeral].
    rewrite En. by constructor.
Qed.
End Values.

Section Formats.
Context `{DuckDB} `{Values_}.

Lemma value_bool c : value_ok PhysicalType.BOOL c -> exists z, c = Word z /\ (z = 0 \/ z = 1).
Proof. destruct c as [z|s]; cbn; [by exists z|by intros [? _]]. Qed.

Lemma value_word p c : value_ok p c -> p <> PhysicalType.VARCHAR -> exists z, c = Word z.
Proof. destruct c as [z|s]; cbn; [by exists z|by intros [-> _]]. Qed.

(** Of a timestamp the code writes the moment it is. *)
Lemma timestamp_text d z t : instant d z = Some t -> z < 9223372036854775808 -> FormatTimestampIsoTFromSource z d = Ok (iso_datetime t).
Proof.
  unfold instant. destruct (unit_of d) as [u|] eqn:Hu; [|done]. cbn [mbind option_bind].
  destruct ((-9223372036854775808 <=? z - 86400 * u + 1) && _) eqn:E; [|done]. apply andb_prop in E as [Hlo Hcal]. intros [= <-] Hhi.
  destruct (unit_cases d u Hu) as [_ Hucases]. set (t := (2 * z * 10000000 + u) / (2 * u)) in *.
  assert (Ht : 2 * u * t <= 2 * z * 10000000 + u < 2 * u * t + 2 * u) by (unfold t; pose proof (Z.div_mod (2 * z * 10000000 + u) (2 * u)); pose proof (Z.mod_pos_bound (2 * z * 10000000 + u) (2 * u)); lia).
  clearbody t. pose proof Hcal as Hc. unfold in_calendar in Hc. change FIRST_DAY with (-719162) in Hc. change LAST_DAY with 2932896 in Hc.
  unfold TICKS_PER_DAY in *. assert (Hb : -719162 * 864000000000 <= t < 2932897 * 864000000000) by zlia.
  destruct (ComputeDatetime2Components_nearest z d u 7 Hu ltac:(lia) ltac:(lia) ltac:(lia)) as (time & date & E & Htime & Hdate & Hn).
  { unfold DAYS_FROM_0001_TO_EPOCH. destruct Hucases as [-> | [-> | [-> | ->]]]; lia. }
  unfold nearest_instant, DAYS_FROM_0001_TO_EPOCH in Hn. change (10 ^ 7) with 10000000 in *.
  assert (Eq : date * 86400 * 10000000 + time = t + 719162 * 864000000000) by (destruct Hucases as [-> | [-> | [-> | ->]]]; lia).
  unfold FormatTimestampIsoTFromSource. rewrite E. cbn [mbind res_bind].
  assert (Ed : t / 864000000000 = date - 719162) by (symmetry; apply (Z.div_unique_pos _ _ _ time); lia).
  assert (Em : t mod 864000000000 = time) by (symmetry; apply (Z.mod_unique_pos _ _ (date - 719162)); lia).
  assert (sx 32 date = date) as -> by (unfold sx; change (2 ^ (32 - 1)) with 2147483648; change (2 ^ 32) with 4294967296; zlia).
  assert (sx 64 time = time) as -> by (unfold sx; change (2 ^ (64 - 1)) with 9223372036854775808; change (2 ^ 64) with 18446744073709551616; zlia).
  rewrite int32_ok by (unfold DAYS_FROM_0001_TO_EPOCH; lia). cbn [mbind res_bind]. unfold DAYS_FROM_0001_TO_EPOCH.
  unfold iso_datetime, TICKS_PER_DAY. rewrite Ed in *. rewrite Em, Date_Convert_civil by done.
  rewrite <- (date_text_iso (date - 719162)), <- (time_text_iso time) by (done || (unfold TICKS_PER_DAY; lia)).
  destruct (civil (date - 719162)) as [[y mo] day].
  assert (Hs : forall x, 0 <= x < 100 -> sx 32 x = x) by (intros x Hx; unfold sx; change (2 ^ (32 - 1)) with 2147483648; change (2 ^ 32) with 4294967296; zlia).
  rewrite !Z.quot_div_nonneg, !Z.rem_mod_nonneg by zlia. rewrite !Hs by zlia. do 4 f_equal; clear -Htime; zlia.
Qed.

Lemma date_text_moment n : in_calendar n = true -> FormatDateText n = iso_date n.
Proof. intros Hn. unfold FormatDateText. rewrite Date_Convert_civil by done. by apply date_text_iso. Qed.

Lemma time_text_moment t : 0 <= t < 86400000000 -> FormatTimeText t = iso_time (10 * t).
Proof.
  intros Ht. unfold FormatTimeText. rewrite Time_Convert_fields, <- time_text_iso by (done || (unfold TICKS_PER_DAY; lia)). f_equal; zlia.
Qed.

Lemma literal_timestamp raw source t : instant source raw = Some t -> raw < 9223372036854775808 ->
  exists s ts, (text ← FormatTimestampIsoTFromSource raw source; Ok (tx "CAST('" ++ text ++ tx "' AS DATETIME2(7))")) = Ok s /\
    literal s (CCast (CString false (iso_datetime t)) DATETIME2) ts.
Proof.
  intros Ht Hr. rewrite (timestamp_text _ _ _ Ht Hr). cbn [mbind res_bind].
  destruct (literal_cast_text (iso_datetime t) DATETIME2) as [ts Hts]; [apply iso_datetime_verbatim|done|done|by apply within_chars|].
  eexists _, ts. split; [reflexivity|]. by change (tx "' AS DATETIME2(7))") with (tx "' AS " ++ DATETIME2 ++ tx ")").
Qed.

Lemma int64_word c : value_ok PhysicalType.INT64 c -> word c < 9223372036854775808.
Proof. destruct c as [z|s]; cbn; [lia|by intros [? _]]. Qed.

Lemma timestamp_denoted v c0 d c : cell_of v = Some c0 -> value_ok PhysicalType.INT64 c0 -> id (type v) = d ->
  d ∈ [TIMESTAMP; TIMESTAMP_MS; TIMESTAMP_NS; TIMESTAMP_SEC] ->
  moment_constant (fun t => CCast (CString false (iso_datetime t)) DATETIME2) (moment v) = Ok c ->
  exists s ts, (text ← FormatTimestampIsoTFromSource (word c0) d; Ok (tx "CAST('" ++ text ++ tx "' AS DATETIME2(7))")) = Ok s /\ literal s c ts.
Proof.
  intros Ec Hok Ed Hd Hc. assert (Em : moment v = instant d (word c0)).
  { unfold moment. rewrite Ec. cbn [mbind option_bind]. rewrite Ed. by destruct (datetime_target d Hd) as [->|[->|[->| ->]]]. }
  rewrite Em in Hc. destruct (instant d (word c0)) as [t|] eqn:Ht; [|done]. injection Hc as <-.
  apply literal_timestamp; [done|by apply int64_word].
Qed.

(** The constant is the moment it is made of. *)
Lemma read_moment_denoted v c : denoted v = Ok c -> read_moment (id (type v)) c = moment v.
Proof.
  unfold denoted, string_constant, moment_constant. intros E.
  destruct (cell_of v) as [c0|] eqn:Ec; [|injection E as <-; unfold moment; rewrite Ec; by destruct (id (type v))].
  destruct (moment v) as [m|] eqn:Em; unfold moment in Em; rewrite Ec in Em; cbn [mbind option_bind] in Em;
    destruct (id (type v)) eqn:Eid; try (destruct (continued _)); try discriminate E; try discriminate Em; try (injection E as <-; done).
  { destruct (in_calendar (word c0)) eqn:Hc; [|done]. injection Em as <-. injection E as <-. by apply read_date_iso. }
  { destruct ((0 <=? word c0) && _) eqn:Hc; [|done]. injection Em as <-. injection E as <-. apply read_time_iso. unfold TICKS_PER_DAY. lia. }
  all: injection E as <-; unfold instant in Em; cbn [unit_of mbind option_bind] in Em;
    match type of Em with (if _ && ?b then _ else _) = _ => destruct b eqn:Hc; [|by rewrite andb_false_r in Em] end;
    destruct (_ <=? _); cbn [andb] in Em; [injection Em as <-|done]; cbn [read_moment].
  1-4: rewrite bool_decide_eq_true_2 by done; by apply read_datetime_iso.
  assert (Hl : forall n, zlen (iso_datetime n) = 27).
  { intros n. unfold iso_datetime, iso_date, iso_time. destruct (civil _) as [[y mo] d]. unfold zlen. by rewrite !length_app, !length_field. }
  rewrite (zdrop_app_length _ _ 27), (ztake_app_length _ _ 27) by by rewrite Hl.
  rewrite !bool_decide_eq_true_2 by done. by apply read_datetime_iso.
Qed.

(** The value exactly denoted has a literal, and it is complete text. *)
Lemma FormatSqlLiteral_denoted v c : good_value v -> denoted v = Ok c ->
  exists s ts, FormatSqlLiteral v (type v) = Ok s /\ literal s c ts.
Proof.
  intros ([Hst Hdec] & Hok & _) Hc. unfold denoted in Hc. unfold FormatSqlLiteral, IsNull, FamilyFromLogicalType.
  destruct (cell_of v) as [c0|] eqn:Ec; [|injection Hc as <-; rewrite bool_decide_eq_true_2 by done; eexists _, _; by split; [|apply literal_null]].
  rewrite bool_decide_eq_false_2 by done. pose proof (GetWord_stored v c0 Ec) as HW. pose proof (GetStr_stored v c0 Ec) as HS.
  unfold boolean_FormatSqlLiteral, integer_FormatSqlLiteral, float_FormatSqlLiteral, decimal_FormatSqlLiteral, string_FormatSqlLiteral,
    binary_FormatSqlLiteral, uuid_FormatSqlLiteral, datetime_FormatSqlLiteral, IsNull. rewrite Ec, (bool_decide_eq_false_2 (Some c0 = None)) by done.
  rewrite Hst in *. destruct (id (type v)) eqn:Eid; cbn [storage] in *; try discriminate Hc; cbn [mbind res_bind];
    try (rewrite HW; cbn [mbind res_bind]); try (injection Hc as <-; eexists _, _; split; [reflexivity|by apply literal_int]).
  - apply value_bool in Hok as (z & -> & Hz). injection Hc as <-. cbn [word] in *.
    destruct Hz as [-> | ->]; eexists _, _; (split; [reflexivity|]); [exact (literal_int 0)|exact (literal_int 1)].
  - injection Hc as <-. destruct (Z.leb_spec (word c0) 9223372036854775807) as [Hle|Hgt].
    + eexists _, _. split; [reflexivity|apply literal_int].
    + destruct (literal_ubigint (word c0)) as [ts Hts]; [lia|]. by exists (tx "CAST(" ++ std_to_string (word c0) ++ tx " AS DECIMAL(20,0))"), ts.
  - injection Hc as <-. destruct c0 as [z|?]; [|by destruct Hok]. eexists _, _. split; [reflexivity|].
    apply (literal_SerializeDecimal z 38 0); [exact Hok|lia].
  - rewrite (bool_decide_eq_false_2 (DECIMAL = HUGEINT)), (bool_decide_eq_true_2 (DECIMAL = DECIMAL)) by done. cbn [negb].
    destruct (Hdec eq_refl) as [Hw Hs]. injection Hc as <-.
    assert (Hz : huge (word c0)).
    { destruct c0 as [z|?]; cbn in *.
      - destruct (decimal_width (type v) <=? 4), (decimal_width (type v) <=? 9), (decimal_width (type v) <=? 18); unfold huge; cbn in Hok; lia.
      - by destruct (decimal_width (type v) <=? 4), (decimal_width (type v) <=? 9), (decimal_width (type v) <=? 18); destruct Hok. }
    destruct (decimal_width (type v) <=? 4); [|destruct (decimal_width (type v) <=? 9); [|destruct (decimal_width (type v) <=? 18)]];
      rewrite HW; cbn [mbind res_bind]; eexists _, _; (split; [reflexivity|apply literal_SerializeDecimal; [done|lia]]).
  - destruct c0 as [z|s]; [by destruct Hok|]. unfold string_constant in Hc. cbn [str] in Hc. destruct (continued s) eqn:Hn; [done|].
    injection Hc as <-. rewrite (ToString_VARCHAR v s) by done. eexists _, _. split; [reflexivity|by apply literal_string].
  - rewrite HS. injection Hc as <-. eexists _, _. split; [reflexivity|apply literal_binary].
  - rewrite HS. injection Hc as <-. eexists _, _. split; [reflexivity|apply literal_binary].
  - unfold string_constant in Hc. destruct (continued _) eqn:Hn; [done|]. injection Hc as <-. eexists _, _. split; [reflexivity|by apply literal_string].
  - injection Hc as <-. eexists _, _. split; [reflexivity|]. apply literal_verbatim.
    pose proof (UUID_ToString_text (word c0)) as Hu. rewrite Forall_forall in Hu. split; intros Hin; by destruct (Hu _ Hin).
  - unfold moment_constant, moment in Hc. rewrite Ec, Eid in Hc. cbn [mbind option_bind] in Hc. destruct (in_calendar (word c0)) eqn:Hn; [|done].
    injection Hc as <-. rewrite date_text_moment by done. eexists _, _. split; [reflexivity|]. apply literal_verbatim, iso_date_verbatim.
  - unfold moment_constant, moment in Hc. rewrite Ec, Eid in Hc. cbn [mbind option_bind] in Hc. destruct ((0 <=? word c0) && _) eqn:Hn; [|done].
    injection Hc as <-. rewrite time_text_moment by lia. eexists _, _. split; [reflexivity|]. apply literal_verbatim, iso_time_verbatim.
  - apply (timestamp_denoted v c0 _ c Ec Hok Eid); [decided|exact Hc].
  - apply (timestamp_denoted v c0 _ c Ec Hok Eid); [decided|exact Hc].
  - apply (timestamp_denoted v c0 _ c Ec Hok Eid); [decided|exact Hc].
  - apply (timestamp_denoted v c0 _ c Ec Hok Eid); [decided|exact Hc].
  - unfold moment_constant, moment in Hc. rewrite Ec, Eid in Hc. cbn [mbind option_bind] in Hc. destruct (instant _ _) as [t|] eqn:Ht; [|done].
    injection Hc as <-. rewrite (timestamp_text _ _ _ Ht) by by apply (int64_word c0). cbn [mbind res_bind]. change (FormatTzOffset 0) with UTC.
    destruct (literal_cast_text (iso_datetime t ++ UTC) DATETIMEOFFSET) as [ts Hts]; [|done|done|by apply within_chars|].
    { apply verbatim_app; [apply iso_datetime_verbatim|split; decided]. }
    eexists _, ts. split; [reflexivity|]. rewrite <- app_assoc in Hts.
    by change (tx "' AS DATETIMEOFFSET(7))") with (tx "' AS " ++ DATETIMEOFFSET ++ tx ")").
Qed.
End Formats.

(** ** Floating-point values *)

Lemma gap_opp M K m e : gap (- M) K (- m) e = gap M K m e.
Proof. unfold gap. rewrite <- Z.abs_opp. f_equal. ring. Qed.

Lemma nearer_opp M K m e m' e' : nearer (- M) K (- m) e (- m') e' <-> nearer M K m e m' e'.
Proof. unfold nearer. by rewrite !gap_opp. Qed.

(** Zero is nearer to itself, and a positive decimal to its own number than to
    any that is not positive. *)
Lemma nearer_zero K e m' e' : m' <> 0 -> nearer 0 K 0 e m' e'.
Proof.
  intros Hm. unfold nearer, gap. rewrite !Z.mul_0_l. cbn [Z.sub Z.opp Z.abs Z.add].
  assert (0 < 10 ^ pos (- K)) by by apply Z.pow_pos_nonneg. assert (0 < 2 ^ pos (- e)) by by apply Z.pow_pos_nonneg.
  assert (0 < 2 ^ pos e') by by apply Z.pow_pos_nonneg. apply Z.mul_pos_pos; [|done]. apply Z.abs_pos.
  assert (m' * 2 ^ pos e' * 10 ^ pos (- K) <> 0) by (rewrite !Z.mul_eq_0; lia). lia.
Qed.

Lemma nearer_sign D k m e m' e' p :
  2 <= 10 ^ (p - 1) -> m' <= 0 -> Z.abs (D * lower_ e k - upper_ m e k) * 2 <= lower_ e k -> lower_ e k * 10 ^ (p - 1) <= upper_ m e k ->
  nearer D k m e m' e'.
Proof.
  intros Hp Hm' Hnear Hbig. pose proof (lower_pos e k) as Hl. unfold nearer, gap.
  assert (E1 : D * 10 ^ pos k * 2 ^ pos (- e) = D * lower_ e k) by (unfold lower_, Float.den; fold (pos (- e)); ring).
  assert (E2 : m * 2 ^ pos e * 10 ^ pos (- k) = upper_ m e k) by (unfold upper_, Float.num; fold (pos e); ring).
  rewrite E1, E2. assert (Hq : 0 < 2 ^ pos (- e')) by by apply Z.pow_pos_nonneg.
  assert (Hq0 : 0 < 2 ^ pos (- e)) by by apply Z.pow_pos_nonneg. assert (Ht : 0 < 10 ^ pos (- k)) by by apply Z.pow_pos_nonneg.
  assert (Ht' : 0 < 10 ^ pos k) by by apply Z.pow_pos_nonneg. assert (Hq' : 0 < 2 ^ pos e') by by apply Z.pow_pos_nonneg.
  assert (Hbig2 : 2 * lower_ e k <= upper_ m e k) by nia. set (V' := - m' * 2 ^ pos e' * 10 ^ pos (- k)).
  assert (HV : 0 <= V') by (unfold V'; apply Z.mul_nonneg_nonneg; [apply Z.mul_nonneg_nonneg|]; lia).
  replace (D * 10 ^ pos k * 2 ^ pos (- e') - m' * 2 ^ pos e' * 10 ^ pos (- k)) with (D * 10 ^ pos k * 2 ^ pos (- e') + V') by (unfold V'; ring).
  assert (HD : 0 < D * lower_ e k) by lia. assert (HD' : 0 < D) by nia.
  assert (HA : 0 < D * 10 ^ pos k * 2 ^ pos (- e')) by (repeat apply Z.mul_pos_pos; done).
  apply (Z.lt_le_trans _ (D * lower_ e k * 2 ^ pos (- e'))); [apply Z.mul_lt_mono_pos_r; [done|lia]|].
  rewrite <- E1. rewrite Z.abs_eq by lia. replace (D * 10 ^ pos k * 2 ^ pos (- e) * 2 ^ pos (- e')) with (D * 10 ^ pos k * 2 ^ pos (- e') * 2 ^ pos (- e)) by ring.
  apply Z.mul_le_mono_nonneg_r; lia.
Qed.

(** The decimal of the significant digits against any other number of the type. *)
Lemma significant_nearest mbits emin p negative m e m' e' M K :
  0 <= mbits -> 1 < p -> 2 ^ (mbits + 1) < 10 ^ (p - 1) -> (0 < m -> -1200 <= Z.log2 m + e <= 1200) ->
  canonical mbits emin m e -> canonical mbits emin (Z.abs m') e' ->
  ~ same_number (sign_of negative * m) e m' e' ->
  (if m =? 0 then M = 0 else same_decimal M K (Float.significant p m e).1 ((Float.significant p m e).2 - p + 1)) ->
  nearer (sign_of negative * M) K (sign_of negative * m) e m' e'.
Proof.
  intros Hb Hp Hpow HL Hc Hc' Hne HM. destruct (Z.eqb_spec m 0) as [->|Hm0].
  { subst M. rewrite Z.mul_0_r in *. apply nearer_zero. intros ->. apply Hne. unfold same_number. by rewrite !Z.mul_0_l. }
  assert (Hm : 0 < m) by (destruct Hc; lia).
  assert (Hpos : forall m', canonical mbits emin (Z.abs m') e' -> ~ same_number m e m' e' -> nearer M K m e m' e').
  { clear m' Hc' Hne. intros m' Hc' Hne. rewrite (nearer_same_decimal _ _ _ _ _ _ _ _ HM).
    pose proof (significant_spec m e Hm p ltac:(lia) (HL Hm)) as Hs. destruct (Float.significant p m e) as [d x].
    destruct Hs as (_ & k & Hk & Hnear & Hbig). cbn [fst snd].
    rewrite <- (nearer_shift d (x - p + 1) (x - p + 1 - k)) by done. replace (x - p + 1 - (x - p + 1 - k)) with k by lia.
    destruct (Z.le_gt_cases m' 0) as [Hneg|Hpos].
    - apply (nearer_sign _ _ _ _ _ _ p); try done.
      transitivity (10 ^ 1); [done|]. apply Z.pow_le_mono_r; lia.
    - rewrite Z.abs_eq in Hc' by lia. by apply (nearest_unique mbits emin p). }
  destruct negative; cbn [sign_of] in *.
  - rewrite <- nearer_opp. replace (- (-1 * M)) with M by lia. replace (- (-1 * m)) with m by lia. apply Hpos.
    + by rewrite Z.abs_opp.
    + intros Hs. apply Hne. unfold same_number in *. replace (-1 * m) with (- m) by lia. rewrite !Z.mul_opp_l in *. lia.
  - rewrite !Z.mul_1_l in *. by apply Hpos.
Qed.

Section Literals.
Context `{DuckDB} `{Values_}.

Lemma decode_sizes n bits negative m e p :
  n = Float.Finite negative m e -> (n, p) = (Float.binary32 bits, 9) \/ (n, p) = (Float.binary64 bits, 17) ->
  0 < p /\ 0 <= m /\ (0 < m -> -1200 <= Z.log2 m + e <= 1200).
Proof.
  intros -> [[= E ->]|[= E ->]]; symmetry in E.
  - pose proof (decode_canonical 23 8 bits _ _ _ ltac:(lia) ltac:(lia) E) as (Hm & _). split_and!; [lia|lia|]. intros Hpos.
    pose proof (decode_size 23 8 bits _ _ _ ltac:(lia) ltac:(lia) E Hpos) as Hs.
    change (2 - 2 ^ (8 - 1) - 23) with (-149) in Hs. change (2 ^ (8 - 1)) with 128 in Hs. lia.
  - pose proof (decode_canonical 52 11 bits _ _ _ ltac:(lia) ltac:(lia) E) as (Hm & _). split_and!; [lia|lia|]. intros Hpos.
    pose proof (decode_size 52 11 bits _ _ _ ltac:(lia) ltac:(lia) E Hpos) as Hs.
    change (2 - 2 ^ (11 - 1) - 52) with (-1074) in Hs. change (2 ^ (11 - 1)) with 1024 in Hs. lia.
Qed.

(** What the float family does with a stored value. *)
Lemma FormatSqlLiteral_float v n p : good_value v -> float_of v = Some (n, p) -> FormatSqlLiteral v (type v) = RenderFloatLiteral n p.
Proof.
  intros [[Hst _] _] Hf. unfold float_of in Hf. destruct (cell_of v) as [c|] eqn:Ec; [|done].
  pose proof (GetWord_stored v c Ec) as HW. rewrite Hst in HW.
  unfold FormatSqlLiteral, IsNull, FamilyFromLogicalType, float_FormatSqlLiteral. rewrite Ec, bool_decide_eq_false_2 by done.
  destruct (id (type v)); try done; injection Hf as <- <-; cbn [mbind res_bind storage] in *; by rewrite HW.
Qed.

Lemma float_of_cases v n p : float_of v = Some (n, p) -> exists bits, (n, p) = (Float.binary32 bits, 9) \/ (n, p) = (Float.binary64 bits, 17).
Proof.
  unfold float_of. destruct (cell_of v) as [c|]; [|done]. destruct (id (type v)); try done; intros [= <- <-]; exists (word c); tauto.
Qed.

Lemma RenderFloatLiteral_finite negative m e p : RenderFloatLiteral (Float.Finite negative m e) p = Ok (with_point (Float.general p (Float.Finite negative m e))).
Proof. reflexivity. Qed.

Lemma float_literal v negative m e p : good_value v -> float_of v = Some (Float.Finite negative m e, p) ->
  exists s c ts M K, FormatSqlLiteral v (type v) = Ok s /\ literal s c ts /\ amount c = Some (sign_of negative * M, K) /\
    if m =? 0 then M = 0 else same_decimal M K (Float.significant p m e).1 ((Float.significant p m e).2 - p + 1).
Proof.
  intros Hv Hf. rewrite (FormatSqlLiteral_float _ _ _ Hv Hf). destruct (float_of_cases _ _ _ Hf) as [bits Hb].
  destruct (decode_sizes _ bits negative m e p eq_refl Hb) as (Hp & Hm & HL).
  destruct (general_literal negative p m e Hp Hm HL) as (c & M & K & Hlit & Ha & HM).
  rewrite RenderFloatLiteral_finite. by eexists _, c, _, M, K.
Qed.

(** Every literal is complete text that denotes its value. *)
Lemma FormatSqlLiteral_literal v s : good_value v -> FormatSqlLiteral v (type v) = Ok s ->
  exists c ts, literal s c ts /\ denotes v c.
Proof.
  intros Hv Hs. destruct (denoted v) as [c|ex|] eqn:Ed.
  { destruct (FormatSqlLiteral_denoted v c Hv Ed) as (s' & ts & E & Hlit). rewrite Hs in E. injection E as ->.
    exists c, ts. split; [done|by apply denotes_exactly]. }
  all: destruct (float_of v) as [[n p]|] eqn:Ef.
  1, 3: destruct n as [|neg|negative m e]; [by rewrite (FormatSqlLiteral_float _ _ _ Hv Ef) in Hs..|];
    destruct (float_literal v negative m e p Hv Ef) as (s' & c & ts & M & K & E & Hlit & Ha & HM);
    rewrite Hs in E; injection E as ->; exists c, ts; (split; [done|]); by eapply denotes_float.
  all: exfalso; destruct Hv as ([Hst _] & _ & Hex); unfold denoted, string_constant, moment_constant in Ed; unfold expressible in Hex;
    unfold float_of in Ef; unfold FormatSqlLiteral, IsNull, FamilyFromLogicalType in Hs;
    destruct (cell_of v) as [c0|] eqn:Ec; [|done]; rewrite bool_decide_eq_false_2 in Hs by done;
    destruct (id (type v)) eqn:Eid; try done;
    solve [by destruct (continued _)|by apply bool_decide_eq_true_1 in Hex as [m Hm]; rewrite Hm in Ed].
Qed.
End Literals.

(** ** An instance: DuckDB's texts of dates, times and identifiers *)
Module SampleValues.
Definition GetValue (p : PhysicalType) (v : Value) : res cell :=
  match cell_of v with
  | Some c => if bool_decide (InternalType (type v) = p) then Ok c else Exn (InternalError "Type mismatch")
  | None => Exn (InternalError "Calling GetValue on a value that is NULL")
  end.

Definition ToString (v : Value) : bytes := match cell_of v with Some c => str c | None => tx "NULL" end.

Definition Time_Convert (t : Z) : Z * Z * Z * Z :=
  (t / 3600000000, t / 60000000 mod 60, t / 1000000 mod 60, t mod 1000000).

Definition lower_hex (n : Z) : byte := z2b (if n <? 10 then 48 + n else 87 + n).
Definition hex_of (n : nat) (z : Z) : bytes := (fun k => lower_hex (Z.land (Z.shiftr z (4 * (Z.of_nat n - 1 - k))) 15)) <$> seqZ 0 (Z.of_nat n).

Definition UUID_ToString (u : Z) : bytes :=
  let w := (u + 2 ^ 127) mod 2 ^ 128 in
  hex_of 8 (Z.shiftr w 96) ++ tx "-" ++ hex_of 4 (Z.shiftr w 80) ++ tx "-" ++ hex_of 4 (Z.shiftr w 64) ++ tx "-" ++
  hex_of 4 (Z.shiftr w 48) ++ tx "-" ++ hex_of 12 w.

Lemma lower_hex_plain z : lower_hex (Z.land z 15) <> QUOTE /\ lower_hex (Z.land z 15) <> BACKSLASH.
Proof.
  assert (Hr : 0 <= Z.land z 15 < 16) by (change 15 with (Z.ones 4); rewrite Z.land_ones by lia; apply Z.mod_pos_bound; lia).
  revert Hr. generalize (Z.land z 15). intros n Hn.
  split; intros E; apply (f_equal b2z) in E; unfold lower_hex in E; [change (b2z QUOTE) with 39 in E|change (b2z BACKSLASH) with 92 in E];
    destruct (n <? 10) eqn:En; rewrite b2z_z2b_small in E by lia; lia.
Qed.

Lemma hex_of_plain n z : Forall (fun b => b <> QUOTE /\ b <> BACKSLASH) (hex_of n z).
Proof. apply Forall_fmap, Forall_forall. intros k _. apply lower_hex_plain. Qed.

#[export, refine] Instance values : Values_ := {|
  Literals.GetValue := GetValue;
  Literals.ToString := ToString;
  Literals.Date_Convert := civil;
  Literals.Time_Convert := Time_Convert;
  Literals.UUID_ToString := UUID_ToString;
  Literals.Hugeint_ToString := std_to_string
|}.
Proof.
  - intros v c Hc. unfold GetValue. by rewrite Hc, bool_decide_eq_true_2.
  - intros v s _ Hs. unfold ToString. by rewrite Hs.
  - done.
  - done.
  - intros u. unfold UUID_ToString. repeat (apply Forall_app; split); try apply hex_of_plain; by repeat constructor.
  - done.
Defined.
End SampleValues.

(** ** Literals *)

(** C7. The literal of a value is accepted and read back as the constant that
    denotes exactly that value: integers and booleans as their number, decimals
    with their scale, binary as its bytes, strings as their bytes in a national
    string constant whatever quotes they hold, UUIDs and intervals as their text,
    [NULL] as itself; dates, times and timestamps as a text (a cast of it) that
    an independent reader of ISO 8601 takes for the very day of the Gregorian
    calendar, tick of the day, or tick since 1970 nearest to the timestamp.
    Left out are a string with T-SQL's line continuation in it (a backslash at
    the end of a line), which no string constant can hold, and dates and times
    the server does not have. *)
Theorem literal_denotes `{DuckDB} `{Values_} v c : good_value v -> denoted v = Ok c ->
  exists s, Serialize v = Ok s /\ FormatSqlLiteral v (type v) = Ok s /\ parse_constant s = Some c /\ read_moment (id (type v)) c = moment v.
Proof.
  intros Hv Hc. destruct (FormatSqlLiteral_denoted v c Hv Hc) as (s & ts & Hs & Hlit).
  exists s. unfold Serialize. rewrite Hs. split_and!; [done|done|by eapply literal_parse|by apply read_moment_denoted].
Qed.

Definition sample_decimal : Value := mkValue (mkLogicalType DECIMAL PhysicalType.INT64 18 4) (Some (Word (-1205))).

(** 2024-02-29 23:59:58.000001, in microseconds. *)
Definition sample_timestamp : Value := mkValue (mkLogicalType TIMESTAMP PhysicalType.INT64 0 0) (Some (Word 1709251198000001)).

Lemma literal_denotes_witness :
  (exists s, Serialize (H := Checked.duckdb) (H0 := SampleValues.values) sample_decimal = Ok s /\
    FormatSqlLiteral (H := Checked.duckdb) (H0 := SampleValues.values) sample_decimal (type sample_decimal) = Ok s /\
    parse_constant s = Some (CDecimal (-1205) 4) /\ read_moment DECIMAL (CDecimal (-1205) 4) = moment sample_decimal) /\
  let c := CCast (CString false (tx "2024-02-29T23:59:58.0000010")) (tx "DATETIME2(7)") in
  exists s, Serialize (H := Checked.duckdb) (H0 := SampleValues.values) sample_timestamp = Ok s /\
    FormatSqlLiteral (H := Checked.duckdb) (H0 := SampleValues.values) sample_timestamp (type sample_timestamp) = Ok s /\
    parse_constant s = Some c /\ read_moment TIMESTAMP c = moment sample_timestamp.
Proof.
  split; apply (literal_denotes (H := Checked.duckdb) (H0 := SampleValues.values)); by vm_compute.
Defined.

(** *** What goes wrong *)

(** A backslash at the end of a line is lost with the line's end: the constant is
    the national string [ab]. *)
Lemma line_continuation_lost `{DuckDB} `{Values_} :
  exists s, Serialize (mkValue (mkLogicalType VARCHAR PhysicalType.VARCHAR 0 0) (Some (Str (tx "a" ++ [BACKSLASH; LF] ++ tx "b")))) = Ok s /\
    parse_constant s = Some (CString true (tx "ab")).
Proof.
  set (text := tx "a" ++ [BACKSLASH; LF] ++ tx "b"). exists (tx "N'" ++ EscapeSqlSingleQuotes text ++ tx "'"). split; [|by vm_compute].
  unfold Serialize, FormatSqlLiteral, string_FormatSqlLiteral, IsNull. cbn [cell_of type].
  rewrite bool_decide_eq_false_2 by done. cbn [mbind res_bind FamilyFromLogicalType id].
  by rewrite (ToString_VARCHAR _ text).
Qed.

(** C38. The literal of a finite [FLOAT] (nine significant digits) or [DOUBLE]
    (seventeen) is a number constant nearer to the value than to any other number
    of the type: reading it to the nearest number gives the value back. *)
Theorem float_literal_unique `{DuckDB} `{Values_} v bits mbits ebits p negative m e :
  good_value v -> cell_of v = Some (Word bits) ->
  (id (type v) = FLOAT /\ (mbits, ebits, p) = (23, 8, 9) \/ id (type v) = DOUBLE /\ (mbits, ebits, p) = (52, 11, 17)) ->
  Float.decode mbits ebits bits = Float.Finite negative m e ->
  exists s c M K, Serialize v = Ok s /\ parse_constant s = Some c /\ amount c = Some (M, K) /\
    forall bits' negative' m' e', Float.decode mbits ebits bits' = Float.Finite negative' m' e' ->
      ~ same_number (sign_of negative * m) e (sign_of negative' * m') e' ->
      nearer M K (sign_of negative * m) e (sign_of negative' * m') e'.
Proof.
  intros Hv Hc Ht Hd.
  assert (Hf : float_of v = Some (Float.Finite negative m e, p) /\ 1 <= ebits /\ 0 <= mbits /\ 1 < p /\ 2 ^ (mbits + 1) < 10 ^ (p - 1) /\
               (0 < m -> -1200 <= Z.log2 m + e <= 1200)).
  { unfold float_of. rewrite Hc. destruct Ht as [[Ei [= -> -> ->]]|[Ei [= -> -> ->]]]; rewrite Ei; cbn [word];
      unfold Float.binary32, Float.binary64; rewrite Hd; (split_and!; [done|lia..|]).
    - apply (decode_sizes _ bits negative m e 9 eq_refl). left. unfold Float.binary32. by rewrite Hd.
    - apply (decode_sizes _ bits negative m e 17 eq_refl). right. unfold Float.binary64. by rewrite Hd. }
  destruct Hf as (Hf & He & Hb & Hp & Hpow & HL).
  destruct (float_literal v negative m e p Hv Hf) as (s & c & ts & M & K & Hs & Hlit & Ha & HM).
  exists s, c, (sign_of negative * M), K. unfold Serialize. rewrite Hs. split_and!; [done|by eapply literal_parse|done|].
  intros bits' negative' m' e' Hd' Hne. pose proof (decode_canonical _ _ _ _ _ _ Hb He Hd) as Hcan.
  pose proof (decode_canonical _ _ _ _ _ _ Hb He Hd') as Hcan'.
  eapply significant_nearest; try done. replace (Z.abs (sign_of negative' * m')) with m'; [done|].
  destruct Hcan' as [[? _] _]. destruct negative'; cbn; lia.
Qed.

Definition sample_double : Value := mkValue (mkLogicalType DOUBLE PhysicalType.DOUBLE 0 0) (Some (Word 0x3FB999999999999A)).

Lemma float_literal_unique_witness :
  exists s c M K, Serialize (H := Checked.duckdb) (H0 := SampleValues.values) sample_double = Ok s /\
    parse_constant s = Some c /\ amount c = Some (M, K) /\
    forall bits' negative' m' e', Float.decode 52 11 bits' = Float.Finite negative' m' e' ->
      ~ same_number (1 * 7205759403792794) (-56) (sign_of negative' * m') e' ->
      nearer M K (1 * 7205759403792794) (-56) (sign_of negative' * m') e'.
Proof.
  apply (float_literal_unique (H := Checked.duckdb) (H0 := SampleValues.values) sample_double 0x3FB999999999999A 52 11 17 false).
  - split; [split; [reflexivity|by intros [=]]|by split; [cbn; lia|]].
  - reflexivity.
  - right. by split.
  - by vm_compute.
Defined.
