(* ===== verification/Dml.v ===== *)
(** * INSERT, UPDATE and DELETE

    The statements of src/src/dml: their text ([MSSQLInsertStatement],
    [MSSQLUpdateStatement], [MSSQLDeleteStatement]), the grouping of rows into
    statements ([MSSQLBatchBuilder], the UPDATE and DELETE executors), and the
    operators that drive them. A chunk is the list of its rows, a row the list of
    its values; sizes and counts are [Z].

    Sending a statement and reading its answer is the interface [Server]; the
    exchange over a connection implements it elsewhere. *)

From S2P Require Import Prelude Sql SqlRead TdsTypes Values ColumnMetadata Codecs Literals.

(** [vector[i]]: DuckDB's vector checks its index. *)
Definition at_ {A} (l : list A) (i : Z) : res A :=
  match (if i <? 0 then None else l !! Z.to_nat i) with
  | Some a => Ok a
  | None => Exn (InternalError "Attempted to access index within vector")
  end.

Definition chunk : Type := list (list Value).

(** ** Configuration (mssql_insert_config, mssql_dml_config) *)

Definition MSSQL_MIN_INSERT_SQL_BYTES : Z := 1024.

Module MSSQLInsertConfig.
Record t : Type := mk { batch_size : Z; max_rows_per_statement : Z; max_sql_bytes : Z; use_returning_output : bool }.

Definition default : t := mk 1000 1000 8388608 true.
Definition EffectiveRowsPerStatement (c : t) : Z := Z.min (batch_size c) (max_rows_per_statement c).

Definition Validate (c : t) : res unit :=
  if batch_size c <? 1 then Exn (InvalidInput "mssql_insert_batch_size must be >= 1")
  else if max_rows_per_statement c <? 1 then Exn (InvalidInput "mssql_insert_max_rows_per_statement must be >= 1")
  else if max_sql_bytes c <? MSSQL_MIN_INSERT_SQL_BYTES then Exn (InvalidInput "mssql_insert_max_sql_bytes must be >= 1024")
  else Ok tt.
End MSSQLInsertConfig.

Module MSSQLDMLConfig.
Record t : Type := mk { batch_size : Z; max_parameters : Z; use_prepared : bool }.

Definition default : t := mk 500 2000 true.

Definition EffectiveBatchSize (c : t) (params_per_row : Z) : Z :=
  if params_per_row =? 0 then batch_size c else Z.min (batch_size c) (max_parameters c / params_per_row).

Definition Validate (c : t) : res unit :=
  if batch_size c =? 0 then Exn (InvalidInput "mssql_dml_batch_size must be >= 1")
  else if max_parameters c =? 0 then Exn (InvalidInput "mssql_dml_max_parameters must be >= 1")
  else Ok tt.

(** [LoadDMLConfig]: a setting that is there, as an unsigned number. *)
Definition LoadDMLConfig (batch_size_ max_parameters_ : option Z) (use_prepared_ : option bool) : res t :=
  let config := mk (match batch_size_ with Some v => ux 64 v | None => batch_size default end)
                   (match max_parameters_ with Some v => ux 64 v | None => max_parameters default end)
                   (match use_prepared_ with Some v => v | None => use_prepared default end) in
  _ ← Validate config; Ok config.
End MSSQLDMLConfig.

(** ** INSERT: the target and the statement *)

Record MSSQLInsertColumn : Type := mkMSSQLInsertColumn {
  name : bytes;
  duckdb_type : LogicalType;
  mssql_type : bytes;
  is_identity : bool;
  is_nullable : bool;
  has_default : bool
}.

Record MSSQLInsertTarget : Type := mkMSSQLInsertTarget {
  schema_name : bytes;
  table_name : bytes;
  columns : list MSSQLInsertColumn;
  insert_column_indices : list Z;
  returning_column_indices : list Z
}.

Import MSSQLValueSerializer.

Definition bracketed_table (schema table : bytes) : bytes := EscapeIdentifier schema ++ tx "." ++ EscapeIdentifier table.

Module MSSQLInsertStatement.
(** The names the indices of a list stand for. *)
Definition column_names (target : MSSQLInsertTarget) (indices : list Z) : res (list bytes) :=
  mapM (fun i => col ← at_ (columns target) i; Ok (name col)) indices.

(** The three cached texts of [InitializeCache]. *)
Definition GetTableName (target : MSSQLInsertTarget) : bytes := bracketed_table (schema_name target) (table_name target).

Definition GetColumnList (target : MSSQLInsertTarget) : res bytes :=
  names ← column_names target (insert_column_indices target); Ok (join (tx ", ") (EscapeIdentifier <$> names)).

Definition GetOutputClause (target : MSSQLInsertTarget) (include_output : bool) : res bytes :=
  if include_output && negb (bool_decide (returning_column_indices target = [])) then
    names ← column_names target (returning_column_indices target);
    Ok (tx "OUTPUT " ++ join (tx ", ") ((fun n => tx "INSERTED." ++ EscapeIdentifier n) <$> names))
  else Ok [].

Definition statement_text (table cols output : bytes) (row_literals : list (list bytes)) : bytes :=
  tx "INSERT INTO " ++ table ++ tx " (" ++ cols ++ tx ")" ++
  (match output with [] => [] | _ => [z2b 10] ++ output end) ++
  [z2b 10] ++ tx "VALUES" ++ join (tx ",") ((fun row => [z2b 10] ++ tx "  " ++ row_text row) <$> row_literals) ++ tx ";".

Definition Build (target : MSSQLInsertTarget) (include_output : bool) (row_literals : list (list bytes)) : res bytes :=
  cols ← GetColumnList target; output ← GetOutputClause target include_output;
  Ok (statement_text (GetTableName target) cols output row_literals).
End MSSQLInsertStatement.

(** ** INSERT: the batch builder *)

Module MSSQLBatchBuilder.
Record t : Type := mk {
  target : MSSQLInsertTarget;
  config : MSSQLInsertConfig.t;
  include_output_clause : bool;
  row_literals : list (list bytes);
  current_sql_bytes : Z;
  pending_row_count : Z;
  current_row_offset : Z;
  batch_count : Z;
  base_sql_size : Z
}.

Record MSSQLInsertBatch : Type := mkMSSQLInsertBatch {
  row_offset_start : Z;
  row_offset_end : Z;
  row_count : Z;
  sql_statement : bytes;
  sql_bytes : Z
}.

Definition CalculateBaseSQLSize (target : MSSQLInsertTarget) (include_output : bool) : res Z :=
  cols ← MSSQLInsertStatement.GetColumnList target;
  output ← MSSQLInsertStatement.GetOutputClause target include_output;
  Ok (12 + zlen (MSSQLInsertStatement.GetTableName target) + 2 + zlen cols + 1 +
      (match output with [] => 0 | _ => 1 + zlen output end) + 7 + 1).

(** The constructor. *)
Definition new (target : MSSQLInsertTarget) (config : MSSQLInsertConfig.t) (include_output : bool) : res t :=
  base ← CalculateBaseSQLSize target include_output;
  Ok (mk target config include_output [] base 0 0 0 base).

Section Rows.
Context `{DuckDB} `{Values_}.

(** A literal of a column; [xml] text is limited to what one packet holds. *)
Definition check_xml (mssql_type literal : bytes) : res bytes :=
  if bool_decide (mssql_type = tx "xml") && (4096 <? zlen literal)
  then Exn (InvalidInput "XML column value is too large for SQL literals") else Ok literal.

Definition SerializeRow (target : MSSQLInsertTarget) (row : list Value) : res (list bytes) :=
  mapM (fun col_idx =>
    col ← at_ (columns target) col_idx; value ← at_ row col_idx;
    literal ← Serialize value; check_xml (mssql_type col) literal) (insert_column_indices target).

Definition EstimateRowSize (literals : list bytes) : Z :=
  4 + zlen (join (tx ", ") literals) + 2.

Definition AddRow (row : list Value) (b : t) : res (bool * t) :=
  literals ← SerializeRow (target b) row;
  let row_sql_size := EstimateRowSize literals in
  if MSSQLInsertConfig.max_sql_bytes (config b) <? row_sql_size then Exn (InvalidInput "Row exceeds maximum SQL size")
  else if (MSSQLInsertConfig.max_sql_bytes (config b) <? current_sql_bytes b + row_sql_size) && (0 <? pending_row_count b) then Ok (false, b)
  else if MSSQLInsertConfig.EffectiveRowsPerStatement (config b) <=? pending_row_count b then Ok (false, b)
  else Ok (true, mk (target b) (config b) (include_output_clause b) (row_literals b ++ [literals])
                    (current_sql_bytes b + row_sql_size) (pending_row_count b + 1) (current_row_offset b + 1)
                    (batch_count b) (base_sql_size b)).
End Rows.

Definition HasPendingRows (b : t) : bool := 0 <? pending_row_count b.

Definition FlushBatch (b : t) : res (MSSQLInsertBatch * t) :=
  sql ← MSSQLInsertStatement.Build (target b) (include_output_clause b) (row_literals b);
  Ok (mkMSSQLInsertBatch (current_row_offset b - pending_row_count b) (current_row_offset b) (pending_row_count b) sql (zlen sql),
      mk (target b) (config b) (include_output_clause b) [] (base_sql_size b) 0 (current_row_offset b) (batch_count b + 1) (base_sql_size b)).
End MSSQLBatchBuilder.

(** ** The server's answer to a statement *)

Inductive answer (A : Type) : Type :=
  | Answered (a : A) (execution_time_us : Z)
  | Refused (error_number : Z) (message : bytes)
  | NotSent (message : bytes)
  | Broken (message : string).
Arguments Answered {A}.
Arguments Refused {A}.
Arguments NotSent {A}.
Arguments Broken {A}.

(** Running a statement for its row count ([ExecuteBatch]), or for the chunk its
    [OUTPUT] clause returns, if it returned rows ([ExecuteBatchWithOutput]). *)
Class Server : Type := {
  world : Type;
  run_sql : bytes -> world -> answer Z * world;
  run_output : bytes -> list Z -> world -> answer (option chunk) * world
}.

Record MSSQLInsertError : Type := mkMSSQLInsertError {
  statement_index : Z;
  error_offset_start : Z;
  error_offset_end : Z;
  sql_error_number : Z;
  sql_error_message : bytes
}.

Inductive thrown : Type := InsertException (e : MSSQLInsertError) | Exception (e : exn).

Inductive outcome (A : Type) : Type := Returns (a : A) | Throws (t : thrown) | Undefined.
Arguments Returns {A}.
Arguments Throws {A}.
Arguments Undefined {A}.

(** A method of an object with state [S]: what it throws leaves the state. *)
Definition E {SV : Server} (S A : Type) : Type := S * world -> outcome A * (S * world).

#[export] Instance E_ret {SV : Server} {S} : MRet (E S) := fun A a s => (Returns a, s).
#[export] Instance E_bind {SV : Server} {S} : MBind (E S) := fun A B f m s =>
  match m s with
  | (Returns a, s) => f a s
  | (Throws t, s) => (Throws t, s)
  | (Undefined, s) => (Undefined, s)
  end.

Section Methods.
Context {SV : Server} {S : Type}.

Definition get : E S S := fun s => (Returns s.1, s).
Definition put (x : S) : E S unit := fun s => (Returns tt, (x, s.2)).
Definition undefined {A} : E S A := fun s => (Undefined, s).
Definition throw {A} (t : thrown) : E S A := fun s => (Throws t, s).
Definition lift {A} (m : res A) : E S A := fun s =>
  (match m with Ok a => Returns a | Exn e => Throws (Exception e) | Oob => Undefined end, s).
Definition on_server {A} (f : world -> A * world) : E S A := fun s => let '(a, w) := f s.2 in (Returns a, (s.1, w)).
End Methods.

(** ** INSERT: the executor *)

Module MSSQLInsertStatistics.
Record t : Type := mk {
  total_rows_inserted : Z; total_batches_executed : Z; total_execution_time_us : Z;
  min_batch_size : Z; max_batch_size : Z; avg_batch_size : Z; min_sql_bytes : Z; max_sql_bytes : Z
}.

Definition empty : t := mk 0 0 0 0 0 0 0 0.

Definition RecordBatch (row_count sql_bytes execution_time_us : Z) (s : t) : t :=
  let rows := total_rows_inserted s + row_count in
  let batches := total_batches_executed s + 1 in
  let first := batches =? 1 in
  mk rows batches (total_execution_time_us s + execution_time_us)
     (if first then row_count else Z.min (min_batch_size s) row_count)
     (if first then row_count else Z.max (max_batch_size s) row_count)
     (rows / batches)
     (if first then sql_bytes else Z.min (min_sql_bytes s) sql_bytes)
     (if first then sql_bytes else Z.max (max_sql_bytes s) sql_bytes).
End MSSQLInsertStatistics.

Module MSSQLInsertExecutor.
Record t : Type := mk {
  target : MSSQLInsertTarget;
  config : MSSQLInsertConfig.t;
  finalized : bool;
  statistics : MSSQLInsertStatistics.t;
  batch_builder : option MSSQLBatchBuilder.t;
  returning_column_ids : list Z
}.

Definition new (target : MSSQLInsertTarget) (config : MSSQLInsertConfig.t) : t :=
  mk target config false MSSQLInsertStatistics.empty None [].

Definition set_finalized (x : t) : t := mk (target x) (config x) true (statistics x) (batch_builder x) (returning_column_ids x).
Definition set_builder (b : MSSQLBatchBuilder.t) (x : t) : t :=
  mk (target x) (config x) (finalized x) (statistics x) (Some b) (returning_column_ids x).
Definition set_statistics (s : MSSQLInsertStatistics.t) (x : t) : t :=
  mk (target x) (config x) (finalized x) s (batch_builder x) (returning_column_ids x).
Definition set_returning (ids : list Z) (x : t) : t := mk (target x) (config x) (finalized x) (statistics x) (batch_builder x) ids.

Section Executor.
Context `{DuckDB} `{Values_} {SV : Server}.

Definition EnsureBatchBuilder (with_output : bool) : E t MSSQLBatchBuilder.t :=
  x ← get;
  match batch_builder x with
  | Some b => mret b
  | None => b ← lift (MSSQLBatchBuilder.new (target x) (config x) with_output); _ ← put (set_builder b x); mret b
  end.

(** The builder, once it is there. *)
Definition builder : E t MSSQLBatchBuilder.t :=
  x ← get; match batch_builder x with Some b => mret b | None => undefined end.

(** [batch_builder_->...]. *)
Definition on_builder {A} (f : MSSQLBatchBuilder.t -> res (A * MSSQLBatchBuilder.t)) : E t A :=
  b ← builder; '(a, b) ← lift (f b); x ← get; _ ← put (set_builder b x); mret a.

(** The error of a statement, with the rows the builder says it had. *)
Definition insert_error (number : Z) (message : bytes) : E t MSSQLInsertError :=
  b ← builder;
  mret (mkMSSQLInsertError (MSSQLBatchBuilder.batch_count b)
          (MSSQLBatchBuilder.current_row_offset b - MSSQLBatchBuilder.pending_row_count b)
          (MSSQLBatchBuilder.current_row_offset b) number message).

Definition record (rows sql_bytes us : Z) : E t unit :=
  x ← get; put (set_statistics (MSSQLInsertStatistics.RecordBatch rows sql_bytes us (statistics x)) x).

Definition ExecuteBatch (sql : bytes) : E t Z :=
  r ← on_server (run_sql sql);
  match r with
  | Answered rows_affected us => _ ← record rows_affected (zlen sql) us; mret rows_affected
  | Refused number message => e ← insert_error number message; throw (InsertException e)
  | NotSent message => e ← insert_error 0 message; throw (InsertException e)
  | Broken message => throw (Exception (IOError message))
  end.

Definition ExecuteBatchWithOutput (sql : bytes) (ids : list Z) : E t (option chunk) :=
  r ← on_server (run_output sql ids);
  match r with
  | Answered result us => _ ← record (match result with Some c => zlen c | None => 0 end) (zlen sql) us; mret result
  | Refused number message => e ← insert_error number message; throw (InsertException e)
  | NotSent message => e ← insert_error 0 message; throw (InsertException e)
  | Broken message => throw (Exception (IOError message))
  end.

(** Add a row; when the batch is full, flush it, do [execute] and add it again. *)
Definition add_row {A} (execute : bytes -> E t A) (none : A) (row : list Value) : E t A :=
  added ← on_builder (MSSQLBatchBuilder.AddRow row);
  if (added : bool) then mret none else
  batch ← on_builder MSSQLBatchBuilder.FlushBatch;
  a ← execute (MSSQLBatchBuilder.sql_statement batch);
  added ← on_builder (MSSQLBatchBuilder.AddRow row);
  if (added : bool) then mret a else throw (Exception (InternalError "Failed to add row to empty batch")).

Fixpoint execute_rows (rows : chunk) (total_inserted : Z) : E t Z :=
  match rows with
  | [] => mret total_inserted
  | row :: rows => n ← add_row ExecuteBatch 0 row; execute_rows rows (total_inserted + n)
  end.

Definition Execute (input_chunk : chunk) : E t Z :=
  x ← get;
  if finalized x then throw (Exception (InternalError "MSSQLInsertExecutor::Execute called after Finalize")) else
  _ ← EnsureBatchBuilder false; execute_rows input_chunk 0.

(** Each batch's rows take the place of those before. *)
Fixpoint returning_rows (ids : list Z) (rows : chunk) (accumulated : option chunk) : E t (option chunk) :=
  match rows with
  | [] => mret accumulated
  | row :: rows =>
      r ← add_row (fun sql => ExecuteBatchWithOutput sql ids) None row;
      returning_rows ids rows (match r with Some c => Some c | None => accumulated end)
  end.

Definition ExecuteWithReturning (input_chunk : chunk) (ids : list Z) : E t (option chunk) :=
  x ← get;
  if finalized x then throw (Exception (InternalError "MSSQLInsertExecutor::ExecuteWithReturning called after Finalize")) else
  _ ← EnsureBatchBuilder true; x ← get; _ ← put (set_returning ids x); returning_rows ids input_chunk None.

Definition has_pending (x : t) : bool :=
  match batch_builder x with Some b => MSSQLBatchBuilder.HasPendingRows b | None => false end.

Definition Finalize : E t unit :=
  x ← get;
  if finalized x then mret tt else
  _ ← put (set_finalized x);
  if has_pending x then
    batch ← on_builder MSSQLBatchBuilder.FlushBatch; _ ← ExecuteBatch (MSSQLBatchBuilder.sql_statement batch); mret tt
  else mret tt.

Definition FinalizeWithReturning : E t (option chunk) :=
  x ← get;
  if finalized x then mret None else
  _ ← put (set_finalized x);
  if has_pending x then
    batch ← on_builder MSSQLBatchBuilder.FlushBatch;
    ExecuteBatchWithOutput (MSSQLBatchBuilder.sql_statement batch) (returning_column_ids x)
  else mret None.
End Executor.
End MSSQLInsertExecutor.

(** ** INSERT: the operator *)

Module MSSQLPhysicalInsert.
Record t : Type := mk {
  executor : MSSQLInsertExecutor.t;
  total_rows_inserted : Z;
  returned : bool;
  return_chunk : bool;
  returning_ids : list Z;
  result_chunks : list chunk;
  result_chunk_index : Z
}.

Definition new (target : MSSQLInsertTarget) (config : MSSQLInsertConfig.t) (return_chunk : bool) (ids : list Z) : t :=
  mk (MSSQLInsertExecutor.new target config) 0 false return_chunk ids [] 0.

Section Operator.
Context `{DuckDB} `{Values_} {SV : Server}.

(** A call on the executor. *)
Definition on_executor {A} (m : E MSSQLInsertExecutor.t A) : E t A := fun s =>
  let '(r, (x, w)) := m (executor s.1, s.2) in
  let g := s.1 in
  (r, (mk x (total_rows_inserted g) (returned g) (return_chunk g) (returning_ids g) (result_chunks g) (result_chunk_index g), w)).

Definition add_count (n : Z) : E t unit :=
  g ← get; put (mk (executor g) (total_rows_inserted g + n) (returned g) (return_chunk g) (returning_ids g) (result_chunks g) (result_chunk_index g)).

Definition push_result (result : option chunk) : E t unit :=
  match result with
  | Some c =>
      if 0 <? zlen c then
        _ ← add_count (zlen c); g ← get;
        put (mk (executor g) (total_rows_inserted g) (returned g) (return_chunk g) (returning_ids g) (result_chunks g ++ [c]) (result_chunk_index g))
      else mret tt
  | None => mret tt
  end.

Definition Sink (c : chunk) : E t unit :=
  g ← get;
  if return_chunk g then r ← on_executor (MSSQLInsertExecutor.ExecuteWithReturning c (returning_ids g)); push_result r
  else n ← on_executor (MSSQLInsertExecutor.Execute c); add_count n.

Definition Finalize : E t unit :=
  g ← get;
  if return_chunk g then r ← on_executor MSSQLInsertExecutor.FinalizeWithReturning; push_result r
  else on_executor MSSQLInsertExecutor.Finalize.

(** [GetDataInternal]: a chunk of returned rows, or the row count; and whether
    there is more. *)
Inductive source : Type := Rows (c : chunk) (more : bool) | Count (n : Z) | Finished.

Definition GetData : E t source :=
  g ← get;
  if return_chunk g then
    if zlen (result_chunks g) <=? result_chunk_index g then mret Finished else
    c ← lift (at_ (result_chunks g) (result_chunk_index g));
    let i := result_chunk_index g + 1 in
    _ ← put (mk (executor g) (total_rows_inserted g) (returned g) (return_chunk g) (returning_ids g) (result_chunks g) i);
    mret (Rows c (i <? zlen (result_chunks g)))
  else if returned g then mret Finished else
    _ ← put (mk (executor g) (total_rows_inserted g) true (return_chunk g) (returning_ids g) (result_chunks g) (result_chunk_index g));
    mret (Count (total_rows_inserted g)).
End Operator.
End MSSQLPhysicalInsert.

(** ** UPDATE and DELETE: targets and rowids *)

Module PKColumnInfo.
Record t : Type := mk { name : bytes; duckdb_type : LogicalType }.
End PKColumnInfo.

Record PrimaryKeyInfo : Type := mkPrimaryKeyInfo { exists_ : bool; pk_columns : list PKColumnInfo.t }.

Definition IsScalar (pk : PrimaryKeyInfo) : bool := exists_ pk && (zlen (pk_columns pk) =? 1).
Definition IsComposite (pk : PrimaryKeyInfo) : bool := exists_ pk && (1 <? zlen (pk_columns pk)).

(** A field of an UPDATE or DELETE chunk; the rowid of a composite key is a
    [STRUCT], which no literal stands for. *)
Inductive field : Type := Plain (v : Value) | Struct (children : list Value).

Definition as_value (f : field) : Value :=
  match f with Plain v => v | Struct _ => mkValue (mkLogicalType OTHER_TYPE PhysicalType.OTHER 0 0) (Some (Word 0)) end.

Definition dml_chunk : Type := list (list field).

Definition ExtractSingleRowPK (rowid : field) (pk_info : PrimaryKeyInfo) : res (list Value) :=
  if negb (exists_ pk_info) || (zlen (pk_columns pk_info) =? 0) then
    Exn (InternalError "ExtractSingleRowPK called on table without primary key")
  else if IsScalar pk_info then Ok [as_value rowid]
  else match rowid with
  | Plain _ => Exn (InternalError "Expected STRUCT rowid for composite PK")
  | Struct children =>
      if zlen children <? zlen (pk_columns pk_info) then Exn (InternalError "STRUCT rowid has fewer fields than PK columns")
      else Ok (ztake (zlen (pk_columns pk_info)) children)
  end.

(** The last column of a row. *)
Definition rowid_of (row : list field) : res field := at_ row (zlen row - 1).

Definition ExtractPKFromRowid (rows : dml_chunk) (pk_info : PrimaryKeyInfo) : res (list (list Value)) :=
  mapM (fun row => rowid ← rowid_of row; ExtractSingleRowPK rowid pk_info) rows.

Module MSSQLUpdateColumn.
Record t : Type := mk { name : bytes; duckdb_type : LogicalType; mssql_type : bytes; chunk_index : Z }.
End MSSQLUpdateColumn.

Record MSSQLDeleteTarget : Type := mkMSSQLDeleteTarget {
  delete_schema : bytes; delete_table : bytes; delete_pk : PrimaryKeyInfo
}.

Record MSSQLUpdateTarget : Type := mkMSSQLUpdateTarget {
  update_schema : bytes; update_table : bytes; update_pk : PrimaryKeyInfo; update_columns : list MSSQLUpdateColumn.t
}.

(** ** UPDATE and DELETE: the statements *)

Record MSSQLDMLBatch : Type := mkMSSQLDMLBatch { batch_number : Z; row_count : Z; sql : bytes }.

Definition empty_batch : MSSQLDMLBatch := mkMSSQLDMLBatch 0 0 [].
Definition IsValid (b : MSSQLDMLBatch) : bool := (0 <? row_count b) && negb (bool_decide (sql b = [])).

Definition pk_names (pk : PrimaryKeyInfo) : list bytes := PKColumnInfo.name <$> pk_columns pk.

(** [t.[c] = v.[c]]. *)
Definition equation (escape : bytes -> bytes) (c : bytes) : bytes := tx "t." ++ escape c ++ tx " = v." ++ escape c.

Module MSSQLDeleteStatement.
Section Statement.
Context `{DuckDB} `{Values_}.

Definition new (target : MSSQLDeleteTarget) : res MSSQLDeleteTarget :=
  if exists_ (delete_pk target) then Ok target else Exn (InvalidInput "MSSQLDeleteStatement requires a table with primary key").

Definition GenerateDeleteClause (target : MSSQLDeleteTarget) : bytes :=
  tx "DELETE t FROM " ++ Delete_EscapeIdentifier (delete_schema target) ++ tx "." ++
  Delete_EscapeIdentifier (delete_table target) ++ tx " AS t".

Definition GenerateOnClause (target : MSSQLDeleteTarget) : bytes :=
  tx "ON " ++ join (tx " AND ") (equation Delete_EscapeIdentifier <$> pk_names (delete_pk target)).

Definition row_literals (pk_count : Z) (row_pk : list Value) : res (list bytes) :=
  if negb (zlen row_pk =? pk_count) then Exn (InvalidInput "PK value count mismatch") else mapM Serialize row_pk.

Definition Build (target : MSSQLDeleteTarget) (pk_values : list (list Value)) : res MSSQLDMLBatch :=
  if bool_decide (pk_values = []) then Ok empty_batch else
  rows ← mapM (row_literals (zlen (pk_columns (delete_pk target)))) pk_values;
  let values_clause := tx "VALUES " ++ join (tx ", ") (row_text <$> rows) in
  let alias_columns := tx " AS v(" ++ join (tx ", ") (Delete_EscapeIdentifier <$> pk_names (delete_pk target)) ++ tx ")" in
  Ok (mkMSSQLDMLBatch 0 (zlen pk_values)
        (GenerateDeleteClause target ++ tx " JOIN (" ++ values_clause ++ tx ")" ++ alias_columns ++ tx " " ++ GenerateOnClause target)).
End Statement.
End MSSQLDeleteStatement.

Module MSSQLUpdateStatement.
Section Statement.
Context `{DuckDB} `{Values_}.

Definition GenerateSetClause (target : MSSQLUpdateTarget) : bytes :=
  tx "SET " ++ join (tx ", ") (equation EscapeIdentifier <$> (MSSQLUpdateColumn.name <$> update_columns target)).

Definition GenerateValuesColumnList (target : MSSQLUpdateTarget) : bytes :=
  join (tx ", ") (EscapeIdentifier <$> pk_names (update_pk target)) ++
  mjoin ((fun c => tx ", " ++ EscapeIdentifier (MSSQLUpdateColumn.name c)) <$> update_columns target).

Definition GenerateOnClause (target : MSSQLUpdateTarget) : bytes :=
  tx "ON " ++ join (tx " AND ") (equation EscapeIdentifier <$> pk_names (update_pk target)).

(** Each value beside the column whose type the code looks up for it. *)
Definition pk_literal (target : MSSQLUpdateTarget) (i : Z) (v : Value) : res bytes :=
  _ ← at_ (pk_columns (update_pk target)) i; Serialize v.

Definition update_literal (target : MSSQLUpdateTarget) (i : Z) (v : Value) : res bytes :=
  col ← at_ (update_columns target) i; literal ← Serialize v;
  MSSQLBatchBuilder.check_xml (MSSQLUpdateColumn.mssql_type col) literal.

Fixpoint numbered {A B} (f : Z -> A -> res B) (i : Z) (l : list A) : res (list B) :=
  match l with [] => Ok [] | a :: l => b ← f i a; r ← numbered f (i + 1) l; Ok (b :: r) end.

Definition build_row (target : MSSQLUpdateTarget) (row : list Value * list Value) : res bytes :=
  pks ← numbered (pk_literal target) 0 row.1;
  updates ← numbered (update_literal target) 0 row.2;
  Ok (tx "  (" ++ join (tx ", ") pks ++ mjoin ((fun l => tx ", " ++ l) <$> updates) ++ tx ")").

Definition Build (target : MSSQLUpdateTarget) (rows : list (list Value * list Value)) (number : Z) : res MSSQLDMLBatch :=
  if bool_decide (rows = []) then Ok (mkMSSQLDMLBatch number 0 []) else
  texts ← mapM (build_row target) rows;
  Ok (mkMSSQLDMLBatch number (zlen rows)
        (tx "UPDATE t" ++ [z2b 10] ++ GenerateSetClause target ++ [z2b 10] ++ tx "FROM " ++
         bracketed_table (update_schema target) (update_table target) ++ tx " AS t" ++ [z2b 10] ++
         tx "JOIN (VALUES" ++ [z2b 10] ++ join (tx "," ++ [z2b 10]) texts ++
         [z2b 10] ++ tx ") AS v(" ++ GenerateValuesColumnList target ++ tx ")" ++ [z2b 10] ++ GenerateOnClause target)).
End Statement.
End MSSQLUpdateStatement.

(** ** UPDATE and DELETE: the executors

    The two executors differ in what a pending row is and in the statement a
    batch of rows becomes; [Operation] is what they share. *)

Record MSSQLDMLResult : Type := mkMSSQLDMLResult {
  success : bool; rows_affected : Z; error_message : bytes; result_batch : Z
}.

Definition Success (rows batch : Z) : MSSQLDMLResult := mkMSSQLDMLResult true rows [] batch.
Definition Failure (message : bytes) (batch : Z) : MSSQLDMLResult := mkMSSQLDMLResult false 0 message batch.

Definition FormatError (operation : bytes) (r : MSSQLDMLResult) : bytes :=
  tx "MSSQL " ++ operation ++ tx " failed" ++
  (if 0 <? result_batch r then tx ": batch " ++ std_to_string (result_batch r) else []) ++
  (match error_message r with [] => [] | m => tx ": " ++ m end).

Class Operation (Row : Type) : Type := {
  operation : bytes;
  build : list Row -> Z -> res MSSQLDMLBatch
}.

Module MSSQLDMLExecutor.
Section Executor.
Context {Row : Type} {Op : Operation Row} {SV : Server}.

Record t : Type := mk {
  effective_batch_size : Z;
  pending : list Row;
  total_rows : Z;
  batch_count : Z;
  finalized : bool;
  defer_execution : bool
}.

Definition new (config : MSSQLDMLConfig.t) (params_per_row : Z) (defer : bool) : t :=
  mk (MSSQLDMLConfig.EffectiveBatchSize config params_per_row) [] 0 0 false defer.

Definition set_pending (l : list Row) (x : t) : t := mk (effective_batch_size x) l (total_rows x) (batch_count x) (finalized x) (defer_execution x).
Definition set_total (n : Z) (x : t) : t := mk (effective_batch_size x) (pending x) n (batch_count x) (finalized x) (defer_execution x).
Definition set_batch_count (n : Z) (x : t) : t := mk (effective_batch_size x) (pending x) (total_rows x) n (finalized x) (defer_execution x).
Definition set_finalized (x : t) : t := mk (effective_batch_size x) (pending x) (total_rows x) (batch_count x) true (defer_execution x).

(** [ExecuteBatch]: what the server answered, as a result. *)
Definition ExecuteBatch (text : bytes) : E t MSSQLDMLResult :=
  r ← on_server (run_sql text);
  x ← get;
  match r with
  | Answered rows _ => _ ← put (set_total (total_rows x + rows) x); mret (Success rows (batch_count x))
  | Refused _ message => mret (Failure (operation ++ tx " failed: " ++ message) (batch_count x))
  | NotSent message => mret (Failure (operation ++ tx " execution failed: " ++ message) (batch_count x))
  | Broken message => mret (Failure (tx message) (batch_count x))
  end.

Definition FlushBatch : E t MSSQLDMLResult :=
  x ← get;
  if bool_decide (pending x = []) then mret (Success 0 (batch_count x)) else
  let number := batch_count x + 1 in
  let rows_to_process := Z.min (zlen (pending x)) (effective_batch_size x) in
  let rows := ztake rows_to_process (pending x) in
  _ ← put (set_batch_count number (set_pending (zdrop rows_to_process (pending x)) x));
  batch ← lift (build rows number);
  if negb (IsValid batch) then mret (Failure (tx "Failed to build " ++ operation ++ tx " batch") number)
  else ExecuteBatch (sql batch).

(** Add a row, and flush when a batch is full. *)
Definition push (row : Row) : E t unit :=
  x ← get; _ ← put (set_pending (pending x ++ [row]) x); x ← get;
  if negb (defer_execution x) && (effective_batch_size x <=? zlen (pending x)) then
    result ← FlushBatch;
    if success result then mret tt
    else throw (Exception (IOError (String.string_of_list_byte (FormatError operation result))))
  else mret tt.

Fixpoint push_all (rows : list Row) : E t unit :=
  match rows with [] => mret tt | row :: rows => _ ← push row; push_all rows end.

Fixpoint flush_all (fuel : nat) : E t (option MSSQLDMLResult) :=
  x ← get;
  if bool_decide (pending x = []) then mret None else
  match fuel with
  | O => undefined
  | Datatypes.S fuel => result ← FlushBatch; if success result then flush_all fuel else mret (Some result)
  end.

Definition Finalize : E t MSSQLDMLResult :=
  x ← get;
  if finalized x then mret (Success (total_rows x) (batch_count x)) else
  _ ← put (set_finalized x);
  r ← flush_all (Datatypes.S (length (pending x)));
  match r with Some result => mret result | None => x ← get; mret (Success (total_rows x) (batch_count x)) end.

Definition not_finalized {A} (m : E t A) : E t A :=
  x ← get; if finalized x then throw (Exception (InternalError "Execute called after Finalize")) else m.
End Executor.
Arguments t : clear implicits.
End MSSQLDMLExecutor.

Section Executors.
Context `{DuckDB} `{Values_} {SV : Server}.
Import MSSQLDMLExecutor.

(** *** MSSQLDeleteExecutor *)
#[local] Instance delete_operation (target : MSSQLDeleteTarget) : Operation (list Value) := {|
  operation := tx "DELETE";
  build rows _ := MSSQLDeleteStatement.Build target rows
|}.

Definition MSSQLDeleteExecutor_new (target : MSSQLDeleteTarget) (config : MSSQLDMLConfig.t) (defer : bool) : res (t (list Value)) :=
  target ← MSSQLDeleteStatement.new target; Ok (new config (zlen (pk_columns (delete_pk target))) defer).

(** The keys of the whole chunk first, then the rows one by one. *)
Definition MSSQLDeleteExecutor_Execute (target : MSSQLDeleteTarget) (c : dml_chunk) : E (t (list Value)) Z :=
  not_finalized (
    pk_values ← lift (ExtractPKFromRowid c (delete_pk target));
    _ ← push_all (Op := delete_operation target) pk_values;
    x ← get; mret (total_rows x)).

(** *** MSSQLUpdateExecutor *)
#[local] Instance update_operation (target : MSSQLUpdateTarget) : Operation (list Value * list Value) := {|
  operation := tx "UPDATE";
  build rows number := MSSQLUpdateStatement.Build target rows number
|}.

Definition MSSQLUpdateExecutor_new (target : MSSQLUpdateTarget) (config : MSSQLDMLConfig.t) (defer : bool) : t (list Value * list Value) :=
  new config (zlen (pk_columns (update_pk target)) + zlen (update_columns target)) defer.

(** [AccumulateRow]: the key, and the new values where the chunk has them. *)
Definition update_row (target : MSSQLUpdateTarget) (row : list field) : res (list Value * list Value) :=
  rowid ← rowid_of row; pk ← ExtractSingleRowPK rowid (update_pk target);
  values ← mapM (fun c => f ← at_ row (MSSQLUpdateColumn.chunk_index c); Ok (as_value f)) (update_columns target);
  Ok (pk, values).

Fixpoint update_rows (target : MSSQLUpdateTarget) (c : dml_chunk) : E (t (list Value * list Value)) unit :=
  match c with
  | [] => mret tt
  | row :: c => r ← lift (update_row target row); _ ← push (Op := update_operation target) r; update_rows target c
  end.

Definition MSSQLUpdateExecutor_Execute (target : MSSQLUpdateTarget) (c : dml_chunk) : E (t (list Value * list Value)) Z :=
  not_finalized (_ ← update_rows target c; x ← get; mret (total_rows x)).
End Executors.

(** ** UPDATE and DELETE: the operators *)

Module MSSQLPhysicalDML.
Section Operator.
Context {Row : Type} {Op : Operation Row} {SV : Server}.

Record t : Type := mk { executor : MSSQLDMLExecutor.t Row; total : Z; batch_count : Z; finalized : bool; returned : bool }.

Definition on_executor {A} (m : E (MSSQLDMLExecutor.t Row) A) : E t A := fun s =>
  let '(r, (x, w)) := m (executor s.1, s.2) in
  (r, (mk x (total s.1) (batch_count s.1) (finalized s.1) (returned s.1), w)).

Definition Sink (execute : E (MSSQLDMLExecutor.t Row) Z) : E t unit := _ ← on_executor execute; mret tt.

Definition Finalize : E t unit :=
  g ← get;
  if finalized g then mret tt else
  result ← on_executor MSSQLDMLExecutor.Finalize;
  if negb (success result) then throw (Exception (IOError (String.string_of_list_byte (FormatError operation result)))) else
  g ← get;
  put (mk (executor g) (MSSQLDMLExecutor.total_rows (executor g)) (MSSQLDMLExecutor.batch_count (executor g)) true (returned g)).

(** [GetDataInternal]: the row count, once. *)
Definition GetData : E t (option Z) :=
  g ← get;
  if returned g then mret None else
  _ ← put (mk (executor g) (total g) (batch_count g) (finalized g) true); mret (Some (total g)).
End Operator.
Arguments t : clear implicits.
End MSSQLPhysicalDML.
