(* ===== verification/DmlSpec.v ===== *)
(** * INSERT, UPDATE and DELETE, read back

    The statements of [Dml] read by the reference of [SqlRead]: an INSERT, UPDATE
    or DELETE is exactly the statement meant, on the tables and columns named,
    with the rows' values as constants, whatever the names and the data are. The
    executors send every row once and in order, in statements within the limits;
    what they report about it is at the end. *)

From S2P Require Import Prelude Sql SqlRead TdsTypes Values ColumnMetadata Codecs Literals FloatSpec LiteralsSpec Dml.

(** ** The readers *)

Definition several {A} (one : list item -> option (A * list item)) (sep : bytes) (l : list item) : option (list A * list item) :=
  separated one sep (S (length l)) l.

(** [[schema].[table]]. *)
Definition read_table (l : list item) : option ((bytes * bytes) * list item) :=
  '(s, l) ← read_name l; l ← eat (tx ".") l; '(t, l) ← read_name l; Some ((s, t), l).

Definition read_inserted (l : list item) : option (bytes * list item) := l ← eat (tx "INSERTED.") l; read_name l.

(** [t.[a] = v.[b]]. *)
Definition read_equation (l : list item) : option ((bytes * bytes) * list item) :=
  l ← eat (tx "t.") l; '(a, l) ← read_name l; l ← eat (tx " = v.") l; '(b, l) ← read_name l; Some ((a, b), l).

Definition newline : bytes := [z2b 10].

(** A row on a line of its own. *)
Definition read_line (start : bytes) (l : list item) : option (list constant * list item) := l ← eat start l; read_row l.

Record insert_statement : Type := mkInsert {
  into : bytes * bytes; insert_columns : list bytes; output_columns : list bytes; insert_rows : list (list constant)
}.

Definition read_output (l : list item) : option (list bytes * list item) :=
  match eat (newline ++ tx "OUTPUT ") l with Some l => several read_inserted (tx ", ") l | None => Some ([], l) end.

Definition parse_insert (s : bytes) : option insert_statement :=
  l ← lex s; l ← eat (tx "INSERT INTO ") l; '(t, l) ← read_table l;
  l ← eat (tx " (") l; '(cols, l) ← several read_name (tx ", ") l; l ← eat (tx ")") l;
  '(out, l) ← read_output l;
  l ← eat (newline ++ tx "VALUES") l; '(rows, l) ← several (read_line (newline ++ tx "  ")) (tx ",") l;
  if bool_decide (l = chars (tx ";")) then Some (mkInsert t cols out rows) else None.

(** [DELETE] and [UPDATE] join the table with the rows of values. *)
Record join_statement : Type := mkJoin {
  sets : list (bytes * bytes);
  table : bytes * bytes;
  rows : list (list constant);
  value_columns : list bytes;
  conditions : list (bytes * bytes)
}.

Definition parse_delete (s : bytes) : option join_statement :=
  l ← lex s; l ← eat (tx "DELETE t FROM ") l; '(t, l) ← read_table l; l ← eat (tx " AS t JOIN (VALUES ") l;
  '(rows, l) ← several read_row (tx ", ") l; l ← eat (tx ") AS v(") l;
  '(cols, l) ← several read_name (tx ", ") l; l ← eat (tx ") ON ") l;
  '(conds, l) ← several read_equation (tx " AND ") l;
  if bool_decide (l = []) then Some (mkJoin [] t rows cols conds) else None.

Definition parse_update (s : bytes) : option join_statement :=
  l ← lex s; l ← eat (tx "UPDATE t" ++ newline ++ tx "SET ") l; '(sets, l) ← several read_equation (tx ", ") l;
  l ← eat (newline ++ tx "FROM ") l; '(t, l) ← read_table l; l ← eat (tx " AS t" ++ newline ++ tx "JOIN (VALUES" ++ newline) l;
  '(rows, l) ← several (read_line (tx "  ")) (tx "," ++ newline) l; l ← eat (newline ++ tx ") AS v(") l;
  '(cols, l) ← several read_name (tx ", ") l; l ← eat (tx ")" ++ newline ++ tx "ON ") l;
  '(conds, l) ← several read_equation (tx " AND ") l;
  if bool_decide (l = []) then Some (mkJoin sets t rows cols conds) else None.

(** ** Fragments: text that a reader takes back *)

Definition fragment {A} (read : list item -> option (A * list item)) (good : list item -> Prop) (a : A) (s : bytes) : Prop :=
  exists ts, reads s ts /\ renders read good a ts.

Definition anything : list item -> Prop := fun _ => True.

Lemma fragment_name s : fragment read_name anything s (MSSQLValueSerializer.EscapeIdentifier s).
Proof. exists [Name s]. split; [apply reads_EscapeIdentifier|done]. Qed.

Lemma fragment_table s t : fragment read_table anything (s, t) (bracketed_table s t).
Proof.
  exists ([Name s] ++ chars (tx ".") ++ [Name t]). split; [|done]. unfold bracketed_table.
  apply reads_app; [apply reads_EscapeIdentifier|]. apply reads_app; [by apply reads_plainly|apply reads_EscapeIdentifier].
Qed.

Lemma fragment_inserted s : fragment read_inserted anything s (tx "INSERTED." ++ MSSQLValueSerializer.EscapeIdentifier s).
Proof.
  exists (chars (tx "INSERTED.") ++ [Name s]). split; [|done].
  apply reads_app; [by apply reads_plainly|apply reads_EscapeIdentifier].
Qed.

Lemma fragment_equation s : fragment read_equation anything (s, s) (equation MSSQLValueSerializer.EscapeIdentifier s).
Proof.
  exists (chars (tx "t.") ++ [Name s] ++ chars (tx " = v.") ++ [Name s]). split; [|done]. unfold equation.
  apply reads_app; [by apply reads_plainly|]. apply reads_app; [apply reads_EscapeIdentifier|].
  apply reads_app; [by apply reads_plainly|apply reads_EscapeIdentifier].
Qed.

(** The readings of a list of fragments. *)
Lemma fragments_readings {A} (read : list item -> option (A * list item)) good xs ss :
  Forall2 (fragment read good) xs ss -> exists tss, Forall2 reads ss tss /\ Forall2 (renders read good) xs tss.
Proof.
  induction 1 as [|x s xs ss (ts & H1 & H2) _ (tss & H3 & H4)]; [by exists []|].
  exists (ts :: tss). by split; constructor.
Qed.

Lemma fragment_join {A} (read : list item -> option (A * list item)) good good' sep xs ss :
  plainly sep = true -> (forall l, good (chars sep ++ l)) -> (forall l, good' l -> good l /\ eat sep l = None) ->
  xs <> [] -> Forall2 (fragment read good) xs ss -> fragment (several read sep) good' xs (join sep ss).
Proof.
  intros Hsep Hgood Hgood' Hne H. destruct (fragments_readings _ _ _ _ H) as (tss & Hr & Hx).
  exists (join (chars sep) tss). split; [by apply reads_join|]. intros l Hl. destruct (Hgood' l Hl) as [Hl1 Hl2].
  unfold several. apply separated_join with (good := good); try done. rewrite length_app, (Forall2_length _ _ _ Hx).
  assert (chars sep <> []) by (destruct sep; [done|by cbn]). pose proof (length_join (chars sep) tss ltac:(done)). lia.
Qed.

(** A start before each fragment. *)
Lemma fragment_start {A} (read : list item -> option (A * list item)) good start x s :
  plainly start = true -> fragment read good x s -> fragment (fun l => l ← eat start l; read l) good x (start ++ s).
Proof.
  intros Hs (ts & H1 & H2). exists (chars start ++ ts). split; [apply reads_app; [by apply reads_plainly|done]|].
  intros l Hl. rewrite <- app_assoc, eat_chars. by apply H2.
Qed.

(** *** Rows *)

Definition has_literal (s : bytes) (c : constant) : Prop := exists ts, literal s c ts.

Lemma literals_readings lits cs : Forall2 has_literal lits cs ->
  exists tss, Forall2 reads0 lits tss /\ Forall2 (renders read_value stops) cs tss.
Proof.
  induction 1 as [|s c lits cs (ts & H) _ (tss & H1 & H2)]; [by exists []|]. exists (ts :: tss). split; constructor; try done.
  - apply H.
  - by eapply renders_literal.
Qed.

Lemma fragment_row lits cs : cs <> [] -> Forall2 has_literal lits cs -> fragment read_row anything cs (row_text lits).
Proof.
  intros Hne H. destruct (literals_readings _ _ H) as (tss & Hr & Hx).
  exists (chars (tx "(") ++ join (chars (tx ", ")) tss ++ chars (tx ")")). split; [by apply row_reads|].
  intros l _. rewrite <- !app_assoc. by apply read_row_app.
Qed.

(** Plain text in a statement, then the rest. *)
Lemma reads_text p s ts : plainly p = true -> reads s ts -> reads (p ++ s) (chars p ++ ts).
Proof. intros Hp Hs. apply reads_app; [by apply reads_plainly|done]. Qed.

Lemma Forall2_fragment_fmap {A} (read : list item -> option (A * list item)) good (f : A -> bytes) xs :
  (forall x, fragment read good x (f x)) -> Forall2 (fragment read good) xs (f <$> xs).
Proof. intros Hf. apply Forall2_fmap_r, Forall_Forall2_diag, Forall_forall. intros x _. apply Hf. Qed.

(** What may follow a list separated by [sep]. *)
Definition ends (sep : bytes) (l : list item) : Prop := eat sep l = None.

Lemma fragment_names names : names <> [] ->
  fragment (several read_name (tx ", ")) (ends (tx ", ")) names (join (tx ", ") (MSSQLValueSerializer.EscapeIdentifier <$> names)).
Proof. intros Hne. apply fragment_join with anything; try done. apply Forall2_fragment_fmap, fragment_name. Qed.

Lemma fragment_equations sep names : plainly sep = true -> names <> [] ->
  fragment (several read_equation sep) (ends sep) ((fun n => (n, n)) <$> names)
    (join sep (equation MSSQLValueSerializer.EscapeIdentifier <$> names)).
Proof.
  intros Hsep Hne. apply fragment_join with anything; try done; [by destruct names|].
  apply Forall2_fmap_l, Forall2_fmap_r, Forall_Forall2_diag, Forall_forall. intros x _. apply fragment_equation.
Qed.

Definition output_text (out : list bytes) : bytes :=
  match out with
  | [] => []
  | _ => newline ++ tx "OUTPUT " ++ join (tx ", ") ((fun n => tx "INSERTED." ++ MSSQLValueSerializer.EscapeIdentifier n) <$> out)
  end.

Lemma fragment_output out :
  fragment read_output (fun l => ends (tx ", ") l /\ ends (newline ++ tx "OUTPUT ") l) out (output_text out).
Proof.
  destruct out as [|n out].
  - exists []. split; [apply reads_nil|]. intros l [_ Hl]. unfold read_output. cbn [app]. by rewrite Hl.
  - set (names := n :: out). assert (Hf : fragment (several read_inserted (tx ", ")) (ends (tx ", ")) names
      (join (tx ", ") ((fun n => tx "INSERTED." ++ MSSQLValueSerializer.EscapeIdentifier n) <$> names))).
    { apply fragment_join with anything; try done. apply Forall2_fragment_fmap, fragment_inserted. }
    destruct Hf as (ts & Hr & Hx). exists (chars (newline ++ tx "OUTPUT ") ++ ts). split.
    + unfold output_text. change (newline ++ tx "OUTPUT " ++ ?x) with ((newline ++ tx "OUTPUT ") ++ x). by apply reads_text.
    + intros l [Hl _]. unfold read_output. rewrite <- app_assoc, eat_chars. by apply Hx.
Qed.

Lemma fragment_rows start sep css lits :
  plainly start = true -> plainly sep = true -> css <> [] ->
  Forall2 (fun cs ls => cs <> [] /\ Forall2 has_literal ls cs) css lits ->
  fragment (several (read_line start) sep) (ends sep) css (join sep ((fun row => start ++ row_text row) <$> lits)).
Proof.
  intros Hst Hsep Hne H. apply fragment_join with anything; try done. apply Forall2_fmap_r.
  eapply Forall2_impl; [exact H|]. intros cs ls [Hcs Hls]. apply (fragment_start read_row); [done|by apply fragment_row].
Qed.

(** The reader past a text of the statement. *)
Ltac take_text := cbn [mbind option_bind]; rewrite eat_chars; cbn [mbind option_bind].

(** ** The INSERT statement *)
Lemma insert_read s t cols out lits css :
  cols <> [] -> css <> [] -> Forall2 (fun cs ls => cs <> [] /\ Forall2 has_literal ls cs) css lits ->
  parse_insert (tx "INSERT INTO " ++ bracketed_table s t ++ tx " (" ++
      join (tx ", ") (MSSQLValueSerializer.EscapeIdentifier <$> cols) ++ tx ")" ++ output_text out ++ (newline ++ tx "VALUES") ++
      join (tx ",") ((fun row => (newline ++ tx "  ") ++ row_text row) <$> lits) ++ tx ";")
  = Some (mkInsert (s, t) cols out css).
Proof.
  intros Hcols Hcss H. destruct (fragment_table s t) as (t1 & R1 & X1). destruct (fragment_names cols Hcols) as (t2 & R2 & X2).
  destruct (fragment_output out) as (t3 & R3 & X3).
  destruct (fragment_rows (newline ++ tx "  ") (tx ",") css lits ltac:(done) ltac:(done) Hcss H) as (t4 & R4 & X4).
  unfold parse_insert. erewrite reads0_lex.
  2: { apply reads_weaken, reads_text; [done|]. apply reads_app; [exact R1|]. apply reads_text; [done|].
       apply reads_app; [exact R2|]. apply reads_text; [done|]. apply reads_app; [exact R3|]. apply reads_text; [done|].
       apply reads_app; [exact R4|by apply reads_plainly]. }
  take_text. rewrite X1 by done. take_text.
  rewrite X2 by done. take_text. rewrite X3 by done. take_text.
  rewrite X4 by done. cbn [mbind option_bind]. by rewrite bool_decide_eq_true_2.
Qed.

(** ** DELETE and UPDATE statements *)
Lemma delete_read s t names lits css :
  names <> [] -> css <> [] -> Forall2 (fun cs ls => cs <> [] /\ Forall2 has_literal ls cs) css lits ->
  parse_delete (tx "DELETE t FROM " ++ bracketed_table s t ++ tx " AS t JOIN (VALUES " ++
      join (tx ", ") (row_text <$> lits) ++ tx ") AS v(" ++ join (tx ", ") (MSSQLValueSerializer.EscapeIdentifier <$> names) ++
      tx ") ON " ++ join (tx " AND ") (equation MSSQLValueSerializer.EscapeIdentifier <$> names))
  = Some (mkJoin [] (s, t) css names ((fun n => (n, n)) <$> names)).
Proof.
  intros Hn Hcss H. destruct (fragment_table s t) as (t1 & R1 & X1). destruct (fragment_names names Hn) as (t2 & R2 & X2).
  destruct (fragment_equations (tx " AND ") names ltac:(done) Hn) as (t3 & R3 & X3).
  assert (Hf : fragment (several read_row (tx ", ")) (ends (tx ", ")) css (join (tx ", ") (row_text <$> lits))).
  { apply fragment_join with anything; try done. apply Forall2_fmap_r. eapply Forall2_impl; [exact H|].
    intros cs ls [? ?]. by apply fragment_row. }
  destruct Hf as (t4 & R4 & X4). unfold parse_delete. erewrite reads0_lex.
  2: { apply reads_weaken, reads_text; [done|]. apply reads_app; [exact R1|]. apply reads_text; [done|].
       apply reads_app; [exact R4|]. apply reads_text; [done|]. apply reads_app; [exact R2|]. apply reads_text; [done|]. exact R3. }
  take_text. rewrite X1 by done. take_text.
  rewrite X4 by done. take_text. rewrite X2 by done. take_text.
  rewrite <- (app_nil_r t3), X3 by done. cbn [mbind option_bind]. by rewrite bool_decide_eq_true_2.
Qed.

Lemma update_read s t cols names lits css :
  cols <> [] -> names <> [] -> css <> [] -> Forall2 (fun cs ls => cs <> [] /\ Forall2 has_literal ls cs) css lits ->
  parse_update ((tx "UPDATE t" ++ newline ++ tx "SET ") ++ join (tx ", ") (equation MSSQLValueSerializer.EscapeIdentifier <$> cols) ++
      (newline ++ tx "FROM ") ++ bracketed_table s t ++ (tx " AS t" ++ newline ++ tx "JOIN (VALUES" ++ newline) ++
      join (tx "," ++ newline) ((fun row => tx "  " ++ row_text row) <$> lits) ++ (newline ++ tx ") AS v(") ++
      join (tx ", ") (MSSQLValueSerializer.EscapeIdentifier <$> names ++ cols) ++ (tx ")" ++ newline ++ tx "ON ") ++
      join (tx " AND ") (equation MSSQLValueSerializer.EscapeIdentifier <$> names))
  = Some (mkJoin ((fun n => (n, n)) <$> cols) (s, t) css (names ++ cols) ((fun n => (n, n)) <$> names)).
Proof.
  intros Hc Hn Hcss H. destruct (fragment_table s t) as (t1 & R1 & X1).
  destruct (fragment_names (names ++ cols)) as (t2 & R2 & X2); [by destruct names|].
  destruct (fragment_equations (tx " AND ") names ltac:(done) Hn) as (t3 & R3 & X3).
  destruct (fragment_equations (tx ", ") cols ltac:(done) Hc) as (t5 & R5 & X5).
  destruct (fragment_rows (tx "  ") (tx "," ++ newline) css lits ltac:(done) ltac:(done) Hcss H) as (t4 & R4 & X4).
  unfold parse_update. erewrite reads0_lex.
  2: { apply reads_weaken, reads_text; [done|]. apply reads_app; [exact R5|]. apply reads_text; [done|].
       apply reads_app; [exact R1|]. apply reads_text; [done|]. apply reads_app; [exact R4|]. apply reads_text; [done|].
       apply reads_app; [exact R2|]. apply reads_text; [done|]. exact R3. }
  take_text. rewrite X5 by done. take_text.
  rewrite X1 by done. take_text. rewrite X4 by done. take_text.
  rewrite X2 by done. take_text. rewrite <- (app_nil_r t3), X3 by done. cbn [mbind option_bind]. by rewrite bool_decide_eq_true_2.
Qed.

(** ** From values to literals *)

Lemma mapM_Ok {A B} (f : A -> res B) l k : mapM f l = Ok k <-> Forall2 (fun x y => f x = Ok y) l k.
Proof.
  split.
  - revert k. induction l as [|x l IH]; intros k; cbn; [intros [= <-]; constructor|].
    intros H. apply bind_Ok in H as (y & Hy & H). apply bind_Ok in H as (k' & Hk & [= <-]). constructor; [done|by apply IH].
  - induction 1 as [|x y l k Hx _ IH]; [done|]. cbn. rewrite Hx. cbn. by rewrite IH.
Qed.

(** The constants of a row denote its values. *)
Definition row_denotes `{DuckDB} `{Values_} (vs : list Value) (cs : list constant) : Prop := Forall2 denotes vs cs.

(** The values a row inserts. *)
Definition selected (target : MSSQLInsertTarget) (row : list Value) : res (list Value) :=
  mapM (at_ row) (insert_column_indices target).

Lemma at_elem {A} (l : list A) i a : at_ l i = Ok a -> a ∈ l.
Proof. unfold at_. destruct (i <? 0); [done|]. destruct (l !! _) eqn:E; [|done]. intros [= ->]. by eapply list_elem_of_lookup_2. Qed.

Section Rows.
Context `{DuckDB} `{Values_}.

Lemma Serialize_literal v s : good_value v -> Serialize v = Ok s -> exists c, has_literal s c /\ denotes v c.
Proof.
  intros Hv Hs. unfold Serialize in Hs. destruct (FormatSqlLiteral v (type v)) as [s'|[]|] eqn:E; try done. injection Hs as ->.
  destruct (FormatSqlLiteral_literal v s Hv E) as (c & ts & Hl & Hd). exists c. split; [by exists ts|done].
Qed.

Lemma Serialize_all vs ls : Forall good_value vs -> Forall2 (fun v s => Serialize v = Ok s) vs ls ->
  exists cs, Forall2 has_literal ls cs /\ row_denotes vs cs.
Proof.
  intros Hv H'. induction H' as [|v s vs ls Hs _ IH]; [by exists []; split; constructor|]. apply Forall_cons in Hv as [Hv Hvs].
  destruct (Serialize_literal v s Hv Hs) as (c & Hl & Hd). destruct (IH Hvs) as (cs & Hls & Hds).
  exists (c :: cs). by split; constructor.
Qed.

Lemma check_xml_Ok ty l l' : MSSQLBatchBuilder.check_xml ty l = Ok l' -> l' = l.
Proof. unfold MSSQLBatchBuilder.check_xml. destruct (_ && _); [done|]. by intros [= ->]. Qed.

Lemma SerializeRow_selected target row ls :
  MSSQLBatchBuilder.SerializeRow target row = Ok ls ->
  exists vs, selected target row = Ok vs /\ Forall2 (fun v s => Serialize v = Ok s) vs ls.
Proof.
  unfold MSSQLBatchBuilder.SerializeRow, selected. intros Hr%mapM_Ok.
  induction Hr as [|i s idx ls Hi _ (vs & Hs & Hvs)]; [by exists []|].
  apply bind_Ok in Hi as (col & _ & Hi). apply bind_Ok in Hi as (v & Hv & Hi). apply bind_Ok in Hi as (l & Hl & Hx).
  apply check_xml_Ok in Hx as ->. exists (v :: vs). split; [cbn; by rewrite Hv, Hs|by constructor].
Qed.

Lemma SerializeRow_literals target row ls : Forall good_value row ->
  MSSQLBatchBuilder.SerializeRow target row = Ok ls ->
  exists vs cs, selected target row = Ok vs /\ Forall2 has_literal ls cs /\ row_denotes vs cs.
Proof.
  intros Hg Hs. destruct (SerializeRow_selected target row ls Hs) as (vs & Hsel & Hvs). exists vs.
  destruct (Serialize_all vs ls) as (cs & Hl & Hd); [|done|by exists cs].
  apply Forall_forall. intros v Hv. unfold selected in Hsel. apply mapM_Ok in Hsel.
  apply list_elem_of_lookup in Hv as [k Hk]. destruct (Forall2_lookup_r _ _ _ _ _ Hsel Hk) as (i & _ & Hi).
  apply at_elem in Hi. by eapply Forall_forall in Hi.
Qed.

(** The rows of a statement. *)
Lemma rows_literals target values lits : insert_column_indices target <> [] -> Forall (Forall good_value) values ->
  Forall2 (fun row ls => MSSQLBatchBuilder.SerializeRow target row = Ok ls) values lits ->
  exists css, Forall2 (fun cs ls => cs <> [] /\ Forall2 has_literal ls cs) css lits /\
    Forall2 (fun row cs => exists vs, selected target row = Ok vs /\ row_denotes vs cs) values css.
Proof.
  intros Hi Hg H'. induction H' as [|row ls values lits Hr _ IH]; [by exists []|]. apply Forall_cons in Hg as [Hg Hgs].
  destruct (SerializeRow_literals target row ls Hg Hr) as (vs & cs & Hsel & Hl & Hd). destruct (IH Hgs) as (css & Hls & Hds).
  exists (cs :: css). split; constructor; try done; [|by exists vs]. split; [|done]. intros ->.
  apply Forall2_nil_inv_r in Hd as ->. unfold selected in Hsel. apply mapM_Ok in Hsel.
  apply Forall2_length in Hsel. by destruct (insert_column_indices target).
Qed.

(** *** The statement of a batch *)

Lemma Build_text target inc lits sql : MSSQLInsertStatement.Build target inc lits = Ok sql ->
  exists cols out, MSSQLInsertStatement.column_names target (insert_column_indices target) = Ok cols /\
    (if inc then MSSQLInsertStatement.column_names target (returning_column_indices target) = Ok out else out = []) /\
    sql = tx "INSERT INTO " ++ bracketed_table (schema_name target) (table_name target) ++ tx " (" ++
      join (tx ", ") (MSSQLValueSerializer.EscapeIdentifier <$> cols) ++ tx ")" ++ output_text out ++ (newline ++ tx "VALUES") ++
      join (tx ",") ((fun row => (newline ++ tx "  ") ++ row_text row) <$> lits) ++ tx ";".
Proof.
  unfold MSSQLInsertStatement.Build, MSSQLInsertStatement.GetColumnList. intros Hb.
  apply bind_Ok in Hb as (colt & Hc & Hb). apply bind_Ok in Hc as (cols & Hc & [= <-]). apply bind_Ok in Hb as (outt & Ho & [= <-]).
  assert (Hout : exists out, (if inc then MSSQLInsertStatement.column_names target (returning_column_indices target) = Ok out else out = []) /\
    (match outt with [] => [] | _ => [z2b 10] ++ outt end) = output_text out).
  { unfold MSSQLInsertStatement.GetOutputClause in Ho. destruct inc; cbn [andb] in Ho; [|injection Ho as <-; by exists []].
    destruct (bool_decide (returning_column_indices target = [])) eqn:Er; cbn [negb] in Ho.
    - injection Ho as <-. exists []. apply bool_decide_eq_true_1 in Er. by rewrite Er.
    - apply bind_Ok in Ho as (out & Ho & [= <-]). exists out. split; [done|]. apply bool_decide_eq_false_1 in Er.
      destruct out as [|o out]; [|done]. unfold MSSQLInsertStatement.column_names in Ho. apply mapM_Ok, Forall2_length in Ho.
      by destruct (returning_column_indices target). }
  destruct Hout as (out & Hout & Et). exists cols, out. split_and!; [done|done|]. unfold MSSQLInsertStatement.statement_text.
  rewrite Et. unfold newline. by rewrite <- !app_assoc.
Qed.

Lemma column_names_nonempty target idx cols : idx <> [] -> MSSQLInsertStatement.column_names target idx = Ok cols -> cols <> [].
Proof. intros Hi Hc ->. unfold MSSQLInsertStatement.column_names in Hc. apply mapM_Ok, Forall2_length in Hc. by destruct idx. Qed.

Lemma Build_read target inc values lits sql cols :
  insert_column_indices target <> [] -> values <> [] -> Forall (Forall good_value) values ->
  MSSQLInsertStatement.column_names target (insert_column_indices target) = Ok cols ->
  Forall2 (fun row ls => MSSQLBatchBuilder.SerializeRow target row = Ok ls) values lits ->
  MSSQLInsertStatement.Build target inc lits = Ok sql ->
  exists out css, (if inc then MSSQLInsertStatement.column_names target (returning_column_indices target) = Ok out else out = []) /\
    parse_insert sql = Some (mkInsert (schema_name target, table_name target) cols out css) /\
    Forall2 (fun row cs => exists vs, selected target row = Ok vs /\ row_denotes vs cs) values css.
Proof.
  intros Hi Hne Hg Hcols Hs Hb. destruct (rows_literals target values lits Hi Hg Hs) as (css & Hl & Hd).
  destruct (Build_text target inc lits sql Hb) as (cols' & out & Hc & Ho & ->). rewrite Hcols in Hc. injection Hc as <-.
  exists out, css. split_and!; [done| |done]. apply insert_read; [by eapply column_names_nonempty| |done].
  intros ->. apply Forall2_nil_inv_r in Hd. by subst.
Qed.
End Rows.

(** ** The batch builder *)

Import MSSQLBatchBuilder.

(** The names the target's indices stand for exist. *)
Definition target_ok (target : MSSQLInsertTarget) : Prop :=
  insert_column_indices target <> [] /\
  (exists cols, MSSQLInsertStatement.column_names target (insert_column_indices target) = Ok cols) /\
  (exists out, MSSQLInsertStatement.column_names target (returning_column_indices target) = Ok out).

Definition row_bytes (lits : list (list bytes)) : Z := foldr (fun row n => EstimateRowSize row + n) 0 lits.

Lemma row_bytes_snoc lits row : row_bytes (lits ++ [row]) = row_bytes lits + EstimateRowSize row.
Proof. unfold row_bytes. induction lits as [|r lits IH]; cbn [app foldr]; lia. Qed.

Lemma zlen_join_rows (f : list bytes -> bytes) lits :
  (forall row, zlen (f row) = EstimateRowSize row - 1) -> lits <> [] -> zlen (join (tx ",") (f <$> lits)) + 1 = row_bytes lits.
Proof.
  intros Hf. induction lits as [|row [|row' lits] IH]; intros Hne; [done| |].
  - unfold row_bytes. cbn. rewrite Hf. lia.
  - cbn [fmap list_fmap]. rewrite join_cons, !zlen_app, Hf. cbn [fmap list_fmap] in IH. specialize (IH ltac:(done)).
    unfold row_bytes in *. cbn [foldr] in *. change (zlen (tx ",")) with 1. lia.
Qed.

(** The size the builder counts is one more than the statement's. *)
Lemma Build_size target inc lits base sql : lits <> [] ->
  CalculateBaseSQLSize target inc = Ok base -> MSSQLInsertStatement.Build target inc lits = Ok sql ->
  zlen sql + 1 = base + row_bytes lits.
Proof.
  unfold CalculateBaseSQLSize, MSSQLInsertStatement.Build. intros Hne Hb Hs.
  apply bind_Ok in Hb as (cols & Hc & Hb). apply bind_Ok in Hb as (out & Ho & [= <-]).
  rewrite Hc, Ho in Hs. cbn [mbind res_bind] in Hs. injection Hs as <-. unfold MSSQLInsertStatement.statement_text.
  rewrite !zlen_app. pose proof (zlen_join_rows (fun row => [z2b 10] ++ tx "  " ++ row_text row) lits) as Hj. rewrite <- Hj; [|intros row|done].
  - change (zlen (tx "INSERT INTO ")) with 12. change (zlen (tx " (")) with 2. change (zlen (tx ")")) with 1. change (zlen [z2b 10]) with 1.
    change (zlen (tx "VALUES")) with 6. change (zlen (tx ";")) with 1.
    destruct out as [|o out]; [rewrite zlen_nil; lia|]. rewrite zlen_app. change (zlen [z2b 10]) with 1. lia.
  - unfold row_text, EstimateRowSize. rewrite !zlen_app. change (zlen [z2b 10]) with 1. change (zlen (tx "  ")) with 2.
    change (zlen (tx "(")) with 1. change (zlen (tx ")")) with 1. lia.
Qed.

Lemma Build_total target inc lits base : CalculateBaseSQLSize target inc = Ok base ->
  exists sql, MSSQLInsertStatement.Build target inc lits = Ok sql.
Proof.
  unfold CalculateBaseSQLSize, MSSQLInsertStatement.Build. intros Hb.
  apply bind_Ok in Hb as (cols & Hc & Hb). apply bind_Ok in Hb as (out & Ho & _). rewrite Hc, Ho. by eexists.
Qed.

Lemma CalculateBaseSQLSize_total target inc : target_ok target -> exists base, CalculateBaseSQLSize target inc = Ok base.
Proof.
  intros (_ & (cols & Hc) & (out & Ho)). unfold CalculateBaseSQLSize, MSSQLInsertStatement.GetColumnList, MSSQLInsertStatement.GetOutputClause.
  rewrite Hc. cbn [mbind res_bind]. destruct (inc && _); [rewrite Ho|]; by eexists.
Qed.

Section Builder.
Context `{DuckDB} `{Values_}.

(** A builder holding the literals of [values]. *)
Record builder_ok (target_ : MSSQLInsertTarget) (config_ : MSSQLInsertConfig.t) (inc : bool) (b : t) (values : list (list Value)) : Prop := {
  b_target : target b = target_;
  b_config : config b = config_;
  b_output : include_output_clause b = inc;
  b_base : CalculateBaseSQLSize target_ inc = Ok (base_sql_size b);
  b_rows : Forall2 (fun row ls => SerializeRow target_ row = Ok ls) values (row_literals b);
  b_count : pending_row_count b = zlen values;
  b_size : current_sql_bytes b = base_sql_size b + row_bytes (row_literals b);
  b_limit : zlen values <= MSSQLInsertConfig.EffectiveRowsPerStatement config_;
  b_bytes : current_sql_bytes b <= MSSQLInsertConfig.max_sql_bytes config_ \/ zlen values <= 1
}.

Lemma new_ok target_ config_ inc : target_ok target_ -> 1 <= MSSQLInsertConfig.EffectiveRowsPerStatement config_ ->
  exists b, new target_ config_ inc = Ok b /\ builder_ok target_ config_ inc b [].
Proof.
  intros Ht He. destruct (CalculateBaseSQLSize_total target_ inc Ht) as [base Hb]. unfold new. rewrite Hb.
  eexists. split; [reflexivity|]. split; cbn; try done; rewrite ?zlen_nil; try lia. 
Qed.

(** A row that fits in a statement of its own. *)
Definition row_fits (target_ : MSSQLInsertTarget) (config_ : MSSQLInsertConfig.t) (row : list Value) : Prop :=
  exists ls, SerializeRow target_ row = Ok ls /\ EstimateRowSize ls <= MSSQLInsertConfig.max_sql_bytes config_.

Lemma AddRow_spec target_ config_ inc b values row :
  builder_ok target_ config_ inc b values -> row_fits target_ config_ row ->
  (exists b', AddRow row b = Ok (true, b') /\ builder_ok target_ config_ inc b' (values ++ [row])) \/
  (AddRow row b = Ok (false, b) /\ (values <> [] \/ MSSQLInsertConfig.EffectiveRowsPerStatement config_ <= 0)).
Proof.
  intros [] (ls & Hls & Hfit). unfold AddRow. rewrite b_target0, Hls, b_config0. cbn [mbind res_bind].
  assert ((MSSQLInsertConfig.max_sql_bytes config_ <? EstimateRowSize ls) = false) as -> by lia.
  assert (Hne : 0 < zlen values -> values <> []) by by intros ? ->.
  destruct (Z.ltb_spec (MSSQLInsertConfig.max_sql_bytes config_) (current_sql_bytes b + EstimateRowSize ls)) as [Hbig|Hsmall];
    destruct (Z.ltb_spec 0 (pending_row_count b)) as [Hpos|Hzero]; cbn [andb].
  1: right; split; [done|left; apply Hne; lia].
  all: destruct (Z.leb_spec (MSSQLInsertConfig.EffectiveRowsPerStatement config_) (pending_row_count b)) as [Hfull|Hroom].
  1, 3, 5: right; split; [done|]; destruct (Z.le_gt_cases (MSSQLInsertConfig.EffectiveRowsPerStatement config_) 0); [by right|left; apply Hne; lia].
  all: left; eexists; split; [reflexivity|]; split; cbn; try done; rewrite ?zlen_app, ?zlen_cons, ?zlen_nil; try lia.
  all: try (by apply Forall2_app; [|constructor]). all: rewrite row_bytes_snoc; lia.
Qed.

(** A statement for some rows: within the limits, and read back as those rows. *)
Definition statement_for (target_ : MSSQLInsertTarget) (config_ : MSSQLInsertConfig.t) (inc : bool) (values : list (list Value)) (sql : bytes) : Prop :=
  1 <= zlen values <= MSSQLInsertConfig.EffectiveRowsPerStatement config_ /\
  (zlen sql < MSSQLInsertConfig.max_sql_bytes config_ \/ zlen values = 1) /\
  exists cols out css,
    MSSQLInsertStatement.column_names target_ (insert_column_indices target_) = Ok cols /\
    (if inc then MSSQLInsertStatement.column_names target_ (returning_column_indices target_) = Ok out else out = []) /\
    parse_insert sql = Some (mkInsert (schema_name target_, table_name target_) cols out css) /\
    Forall2 (fun row cs => exists vs, selected target_ row = Ok vs /\ row_denotes vs cs) values css.

Lemma FlushBatch_spec target_ config_ inc b values :
  builder_ok target_ config_ inc b values -> target_ok target_ -> Forall (Forall good_value) values -> values <> [] ->
  exists batch b', FlushBatch b = Ok (batch, b') /\ builder_ok target_ config_ inc b' [] /\
    statement_for target_ config_ inc values (sql_statement batch).
Proof.
  intros [] Ht Hg Hne. unfold FlushBatch. rewrite b_target0, b_output0.
  destruct (Build_total target_ inc (row_literals b) _ b_base0) as [sql Hsql]. rewrite Hsql. cbn [mbind res_bind].
  assert (Hl : row_literals b <> []) by (intros E; rewrite E in b_rows0; by apply Forall2_nil_inv_r in b_rows0).
  pose proof (Build_size _ _ _ _ _ Hl b_base0 Hsql) as Hsize.
  assert (Hpos : 1 <= zlen values) by (destruct values; [done|rewrite zlen_cons; pose proof (zlen_nonneg values); lia]).
  eexists _, _. split; [reflexivity|]. split.
  - split; cbn; try done; rewrite ?zlen_nil; lia.
  - destruct Ht as (Hi & (cols & Hcols) & _). cbn [sql_statement].
    destruct (Build_read target_ inc values (row_literals b) sql cols Hi Hne Hg Hcols b_rows0 Hsql) as (out & css & Ho & Hp & Hd).
    split_and!; [lia|lia|lia|]. by exists cols, out, css.
Qed.
End Builder.

(** ** The server accepts statements *)

Section Accepts.
Context {SV : Server}.

(** From [w] the statements [ss] are run in order, each accepted with its count,
    and [w'] is left. *)
Inductive accepts : world -> list bytes -> list Z -> world -> Prop :=
  | accepts_nil w : accepts w [] [] w
  | accepts_cons w s n us w1 ss ns w' : run_sql s w = (Answered n us, w1) -> accepts w1 ss ns w' -> accepts w (s :: ss) (n :: ns) w'.

Lemma accepts_app w ss ns w1 ss' ns' w2 : accepts w ss ns w1 -> accepts w1 ss' ns' w2 -> accepts w (ss ++ ss') (ns ++ ns') w2.
Proof. induction 1; [done|]. intros. cbn. econstructor; eauto. Qed.

Lemma accepts_one w s n us w' : run_sql s w = (Answered n us, w') -> accepts w [s] [n] w'.
Proof. intros H. econstructor; [done|constructor]. Qed.

(** It accepts whatever it is sent; and it may refuse some of it, at any time. *)
Definition accepting : Prop := forall s w, exists n us w', run_sql s w = (Answered n us, w').
Definition judging : Prop := forall s w,
  (exists n us w', run_sql s w = (Answered n us, w')) \/ (exists number message w', run_sql s w = (Refused number message, w')).

Lemma accepting_judging : accepting -> judging.
Proof. intros Ha s w. by left. Qed.
End Accepts.

Definition sum (l : list Z) : Z := foldr Z.add 0 l.

Lemma sum_app a b : sum (a ++ b) = sum a + sum b.
Proof. unfold sum. induction a as [|x a IH]; cbn; lia. Qed.

Lemma bind_run {SV : Server} {S A B} (m : E S A) (f : A -> E S B) s a s' : m s = (Returns a, s') -> (m ≫= f) s = f a s'.
Proof. intros Hm. unfold mbind, E_bind. by rewrite Hm. Qed.

(** ** The INSERT executor *)

Module Ins := MSSQLInsertExecutor.

Lemma bind_assoc_run {SV : Server} {S A B C} (m : E S A) (f : A -> E S B) (g : A -> B -> E S C) s :
  (a ← m; b ← f a; g a b) s = (p ← (a ← m; b ← f a; mret (a, b)); g p.1 p.2) s.
Proof.
  unfold mbind, E_bind. destruct (m s) as [[a|e|] s1]; [|done..]. by destruct (f a s1) as [[b|e|] s2].
Qed.

Lemma AddRow_counts `{DuckDB} `{Values_} row b b' : AddRow row b = Ok (true, b') ->
  current_row_offset b' = current_row_offset b + 1 /\ batch_count b' = batch_count b.
Proof.
  unfold AddRow. intros E. apply bind_Ok in E as (ls & _ & E). destruct (_ <? _); [done|]. destruct (_ && _); [done|]. destruct (_ <=? _); [done|].
  by injection E as <-.
Qed.

Lemma FlushBatch_counts b batch b' : FlushBatch b = Ok (batch, b') ->
  current_row_offset b' = current_row_offset b /\ pending_row_count b' = 0 /\ batch_count b' = batch_count b + 1.
Proof. unfold FlushBatch. intros E. apply bind_Ok in E as (sql & _ & E). by injection E as _ <-. Qed.

Section Insert.
Context `{DuckDB} `{Values_} {SV : Server}.
Context (target_ : MSSQLInsertTarget) (config_ : MSSQLInsertConfig.t).
Context (Hjudge : judging) (Htarget : target_ok target_) (Hconfig : 1 <= MSSQLInsertConfig.EffectiveRowsPerStatement config_).

(** The executor's builder holds the rows [values]; [base] rows were flushed
    before them, in [k] statements. *)
Definition pending (x : Ins.t) (values : list (list Value)) (base k : Z) : Prop :=
  Ins.target x = target_ /\ Ins.config x = config_ /\
  exists b, Ins.batch_builder x = Some b /\ builder_ok target_ config_ false b values /\
    current_row_offset b = base + zlen values /\ batch_count b = k.

Definition holds_rows (x : Ins.t) (values : list (list Value)) (base k : Z) : Prop := Ins.finalized x = false /\ pending x values base k.

Lemma on_builder_run {A} (f : t -> res (A * t)) x w b a b' :
  Ins.batch_builder x = Some b -> f b = Ok (a, b') ->
  Ins.on_builder f (x, w) = (Returns a, (Ins.set_builder b' x, w)).
Proof.
  intros Hb Hf. unfold Ins.on_builder, Ins.builder, mbind, E_bind, get. cbn [fst snd]. rewrite Hb. cbn. unfold lift. by rewrite Hf.
Qed.

(** *** One statement *)

Definition flushing : E Ins.t (MSSQLInsertBatch * Z) :=
  batch ← Ins.on_builder FlushBatch; n ← Ins.ExecuteBatch (sql_statement batch); mret (batch, n).

(** The error of the statement after [k], whose rows end at [off]: its range
    starts there too. *)
Definition error_at (k off number : Z) (message : bytes) : MSSQLInsertError := mkMSSQLInsertError (k + 1) off off number message.

Lemma flushing_run x w values base k : pending x values base k -> Forall (Forall good_value) values -> values <> [] ->
  exists sql, statement_for target_ config_ false values sql /\
    ((exists batch n us x' w', flushing (x, w) = (Returns (batch, n), (x', w')) /\ run_sql sql w = (Answered n us, w') /\
        Ins.finalized x' = Ins.finalized x /\ pending x' [] (base + zlen values) (k + 1)) \/
     (exists number message x' w', run_sql sql w = (Refused number message, w') /\
        flushing (x, w) = (Throws (InsertException (error_at k (base + zlen values) number message)), (x', w')))).
Proof.
  intros (Ht & Hc & b & Hb & Hok & Ho & Hk) Hg Hne.
  destruct (FlushBatch_spec _ _ _ _ _ Hok Htarget Hg Hne) as (batch & b' & Hfl & Hok' & Hst).
  destruct (FlushBatch_counts _ _ _ Hfl) as (Ho' & Hp' & Hk'). exists (sql_statement batch). split; [done|].
  unfold flushing. rewrite (bind_run _ _ _ _ _ (on_builder_run FlushBatch x w b batch b' Hb Hfl)). unfold Ins.ExecuteBatch.
  destruct (Hjudge (sql_statement batch) w) as [(n & us & w' & Hr)|(number & message & w' & Hr)]; [left|right].
  - exists batch, n, us, (Ins.set_statistics (MSSQLInsertStatistics.RecordBatch n (zlen (sql_statement batch)) us (Ins.statistics x)) (Ins.set_builder b' x)), w'.
    split_and!; [|done|done|].
    + unfold mbind, E_bind, on_server. cbn [fst snd]. by rewrite Hr.
    + split_and!; [done..|]. exists b'. split_and!; [done|done| |lia]. rewrite zlen_nil. lia.
  - exists number, message, (Ins.set_builder b' x), w'. split; [done|].
    unfold mbind, E_bind, on_server. cbn [fst snd]. rewrite Hr. unfold Ins.insert_error, Ins.builder, mbind, E_bind, get. cbn. unfold error_at.
    by rewrite Ho', Hp', Hk', Ho, Hk, Z.sub_0_r.
Qed.

(** *** Rows on the way *)

(** Whole batches are sent and accepted, the rest is pending. *)
Definition sends (values new values' : list (list Value)) (sent : list bytes) : Prop :=
  exists batches, concat batches ++ values' = values ++ new /\ Forall2 (statement_for target_ config_ false) batches sent.

(** From [values], with [base] and [k] before them, the rows [new] are taken, and
    one stays pending once there was one. *)
Definition advances (values : list (list Value)) (base k : Z) (new : list (list Value)) w (values' : list (list Value)) (base' k' : Z) sent ns w' : Prop :=
  accepts w sent ns w' /\ (values' = [] -> values ++ new = []) /\
  exists batches, concat batches ++ values' = values ++ new /\ Forall2 (statement_for target_ config_ false) batches sent /\
    base' = base + zlen (concat batches) /\ k' = k + zlen batches.

Lemma advances_none values base k new w : advances values base k new w (values ++ new) base k [] [] w.
Proof. split; [constructor|split; [done|]]. exists []. split_and!; [done|by apply Forall2_nil|cbn [concat]; rewrite zlen_nil; lia|rewrite zlen_nil; lia]. Qed.

Lemma advances_trans values base k new w values1 base1 k1 sent ns w1 new' values2 base2 k2 sent' ns' w2 :
  advances values base k new w values1 base1 k1 sent ns w1 -> advances values1 base1 k1 new' w1 values2 base2 k2 sent' ns' w2 ->
  advances values base k (new ++ new') w values2 base2 k2 (sent ++ sent') (ns ++ ns') w2.
Proof.
  intros (A1 & K1 & b1 & E1 & F1 & -> & ->) (A2 & K2 & b2 & E2 & F2 & -> & ->). split; [by eapply accepts_app|split].
  - intros E. destruct (app_eq_nil _ _ (K2 E)) as [E' ->]. rewrite app_nil_r. by apply K1.
  - exists (b1 ++ b2). rewrite concat_app, !zlen_app. split_and!; [|by apply Forall2_app|lia|lia].
    rewrite <- app_assoc, E2, !app_assoc. by rewrite <- E1.
Qed.

Lemma advances_sends values base k new w values' base' k' sent ns w' : advances values base k new w values' base' k' sent ns w' -> sends values new values' sent.
Proof. intros (_ & _ & bs & E & F & _). by exists bs. Qed.

(** A statement is refused: those before it were accepted, and it is the
    statement of the rows after theirs. *)
Definition stopped (values : list (list Value)) (base k : Z) (new : list (list Value)) w {S A} (r : outcome A * (S * world)) : Prop :=
  exists s sent ns w1 sql number message w' batches batch later,
    accepts w sent ns w1 /\ run_sql sql w1 = (Refused number message, w') /\
    concat batches ++ batch ++ later = values ++ new /\
    Forall2 (statement_for target_ config_ false) batches sent /\ statement_for target_ config_ false batch sql /\
    r = (Throws (InsertException (error_at (k + zlen batches) (base + zlen (concat batches ++ batch)) number message)), (s, w')).

Lemma stopped_bind values base k new w {S A B} (m : E S A) (f : A -> E S B) s :
  stopped values base k new w (m s) -> stopped values base k new w ((m ≫= f) s).
Proof.
  intros (s' & sent & ns & w1 & sql & number & message & w' & bs & b & l & ? & ? & ? & ? & ? & E).
  exists s', sent, ns, w1, sql, number, message, w', bs, b, l. split_and!; try done. unfold mbind, E_bind. by rewrite E.
Qed.

Lemma stopped_more values base k new new' w {S A} (r : outcome A * (S * world)) :
  stopped values base k new w r -> stopped values base k (new ++ new') w r.
Proof.
  intros (s' & sent & ns & w1 & sql & number & message & w' & bs & b & l & ? & ? & E & ? & ? & ?).
  exists s', sent, ns, w1, sql, number, message, w', bs, b, (l ++ new'). split_and!; try done. rewrite (app_assoc values), <- E. by rewrite <- !app_assoc.
Qed.

Lemma stopped_after values base k new w values1 base1 k1 sent ns w1 new' {S A} (r : outcome A * (S * world)) :
  advances values base k new w values1 base1 k1 sent ns w1 -> stopped values1 base1 k1 new' w1 r -> stopped values base k (new ++ new') w r.
Proof.
  intros (A1 & _ & b1 & E1 & F1 & -> & ->) (s' & sent' & ns' & w2 & sql & number & message & w' & bs & b & l & A2 & R & E2 & F2 & F & ->).
  exists s', (sent ++ sent'), (ns ++ ns'), w2, sql, number, message, w', (b1 ++ bs), b, l.
  split_and!; [by eapply accepts_app|done| |by apply Forall2_app|done|].
  - rewrite concat_app, <- app_assoc, E2, !app_assoc. by rewrite <- E1.
  - do 3 f_equal. unfold error_at. rewrite concat_app, !zlen_app. f_equal; lia.
Qed.

Definition rows_ok (values : list (list Value)) : Prop := Forall (fun row => Forall good_value row /\ row_fits target_ config_ row) values.

Lemma rows_ok_good values : rows_ok values -> Forall (Forall good_value) values.
Proof. intros Hr. eapply Forall_impl; [exact Hr|]. by intros row [? _]. Qed.

(** *** The operations *)

Lemma holds_pending x values base k : holds_rows x values base k -> pending x values base k.
Proof. by intros [_ ?]. Qed.

(** A row that is taken is pending with the others. *)
Lemma AddRow_pending x w values base k row b b' : Ins.batch_builder x = Some b -> holds_rows x values base k ->
  MSSQLBatchBuilder.AddRow row b = Ok (true, b') -> builder_ok target_ config_ false b' (values ++ [row]) ->
  Ins.on_builder (MSSQLBatchBuilder.AddRow row) (x, w) = (Returns true, (Ins.set_builder b' x, w)) /\ holds_rows (Ins.set_builder b' x) (values ++ [row]) base k.
Proof.
  intros Hb (Hf & Ht & Hc & b0 & Hb0 & _ & Ho & Hk) Ha Hok. rewrite Hb in Hb0. injection Hb0 as <-. destruct (AddRow_counts _ _ _ Ha) as [Ho' Hk'].
  split; [by eapply on_builder_run|]. split; [done|]. split_and!; [done..|]. exists b'. split_and!; [done|done|rewrite zlen_app, zlen_cons, zlen_nil; lia|lia].
Qed.

Lemma statement_rows values sql : statement_for target_ config_ false values sql -> values <> [].
Proof. intros [Hn _] ->. rewrite zlen_nil in Hn. lia. Qed.

(** Adding a row: nothing is sent, or the pending rows are. *)
Lemma add_row_run x w values base k row : holds_rows x values base k -> Forall (Forall good_value) values -> row_fits target_ config_ row ->
  (exists x' w' values' base' k' sent ns n,
    Ins.add_row Ins.ExecuteBatch 0 row (x, w) = (Returns n, (x', w')) /\ n = sum ns /\
    advances values base k [row] w values' base' k' sent ns w' /\ holds_rows x' values' base' k' /\ (values' = values ++ [row] \/ values' = [row])) \/
  stopped values base k [row] w (Ins.add_row Ins.ExecuteBatch 0 row (x, w)).
Proof.
  intros Hx Hg Hrow. pose proof Hx as (Hf & Ht & Hc & b & Hb & Hok & Ho & Hk). unfold Ins.add_row.
  destruct (AddRow_spec _ _ _ _ _ _ Hok Hrow) as [(b' & Ha & Hok')|(Ha & [Hne|?])]; [| |lia].
  - left. destruct (AddRow_pending x w values base k row b b' Hb Hx Ha Hok') as [Hrun Hx'].
    exists (Ins.set_builder b' x), w, (values ++ [row]), base, k, [], [], 0. split_and!; [|done|apply advances_none|done|by left].
    by rewrite (bind_run _ _ _ _ _ Hrun).
  - rewrite (bind_run _ _ _ _ _ (on_builder_run _ _ _ _ _ _ Hb Ha)), bind_assoc_run. fold flushing.
    assert (Hx1 : pending (Ins.set_builder b x) values base k) by (split_and!; [done..|by exists b]).
    destruct (flushing_run _ w values base k Hx1 Hg Hne) as (sql & Hst & [(batch & n & us & x2 & w2 & Hfl & Hr & Hf2 & Hp2)|(number & message & x2 & w2 & Hr & Hfl)]).
    + left. assert (Hx2 : holds_rows x2 [] (base + zlen values) (k + 1)) by (split; [by rewrite Hf2|done]).
      pose proof Hp2 as (_ & _ & b2 & Hb2 & Hok2 & _). destruct (AddRow_spec _ _ _ _ _ _ Hok2 Hrow) as [(b3 & Ha3 & Hok3)|(_ & [?|?])]; [|done|lia].
      destruct (AddRow_pending x2 w2 [] _ _ row b2 b3 Hb2 Hx2 Ha3 Hok3) as [Hrun Hx3].
      exists (Ins.set_builder b3 x2), w2, [row], (base + zlen values), (k + 1), [sql], [n], n. split_and!; [|cbn; lia| |done|by right].
      * rewrite (bind_run _ _ _ _ _ Hfl). cbn [fst snd]. by rewrite (bind_run _ _ _ _ _ Hrun).
      * split; [by eapply accepts_one|split; [done|]]. exists [values]. cbn [concat]. rewrite app_nil_r.
        split_and!; [done|by constructor|done|by cbn].
    + right. apply stopped_bind. exists x2, [], [], w, sql, number, message, w2, [], values, [row].
      split_and!; [constructor|done|done|constructor|done|]. cbn [concat app]. rewrite Hfl. unfold error_at. rewrite zlen_nil. do 3 f_equal. f_equal; lia.
Qed.

Lemma execute_rows_run x w values base k new total : holds_rows x values base k -> rows_ok values -> rows_ok new ->
  (exists x' w' values' base' k' sent ns,
    Ins.execute_rows new total (x, w) = (Returns (total + sum ns), (x', w')) /\
    advances values base k new w values' base' k' sent ns w' /\ holds_rows x' values' base' k' /\ rows_ok values') \/
  stopped values base k new w (Ins.execute_rows new total (x, w)).
Proof.
  revert x w values base k total. induction new as [|row new IH]; intros x w values base k total Hx Hv Hr.
  - left. exists x, w, values, base, k, [], []. split_and!; [cbn; by rewrite Z.add_0_r| |done|done].
    pose proof (advances_none values base k [] w) as Ha. by rewrite app_nil_r in Ha.
  - apply Forall_cons in Hr as [[Hg Hfit] Hr]. cbn [Ins.execute_rows]. change (row :: new) with ([row] ++ new).
    destruct (add_row_run x w values base k row Hx (rows_ok_good _ Hv) Hfit)
      as [(x1 & w1 & values1 & base1 & k1 & sent1 & ns1 & n & Ha & -> & Hadv & Hx1 & Hcase)|Hstop]; [|right; by apply stopped_more, stopped_bind].
    rewrite (bind_run _ _ _ _ _ Ha). assert (Hv1 : rows_ok values1).
    { destruct Hcase as [-> | ->]; [apply Forall_app; split; [done|]|]; by constructor. }
    destruct (IH x1 w1 values1 base1 k1 (total + sum ns1) Hx1 Hv1 Hr) as [(x2 & w2 & values2 & base2 & k2 & sent2 & ns2 & He & Hadv2 & Hx2 & Hv2)|Hstop].
    + left. exists x2, w2, values2, base2, k2, (sent1 ++ sent2), (ns1 ++ ns2). split_and!; [|by eapply advances_trans|done|done].
      rewrite He, sum_app. do 2 f_equal. lia.
    + right. by eapply stopped_after.
Qed.

(** Before the first chunk there is no builder. *)
Definition ready (x : Ins.t) (values : list (list Value)) (base k : Z) : Prop :=
  holds_rows x values base k \/
  (values = [] /\ base = 0 /\ k = 0 /\ Ins.batch_builder x = None /\ Ins.finalized x = false /\ Ins.target x = target_ /\ Ins.config x = config_).

Lemma ready_not_finalized x values base k : ready x values base k -> Ins.finalized x = false.
Proof. by intros [(? & _)|(_ & _ & _ & _ & ? & _)]. Qed.

Lemma new_counts b : new target_ config_ false = Ok b -> current_row_offset b = 0 /\ batch_count b = 0.
Proof. unfold new. intros E. apply bind_Ok in E as (base & _ & E). by injection E as <-. Qed.

Lemma EnsureBatchBuilder_run x w values base k : ready x values base k ->
  exists b x', Ins.EnsureBatchBuilder false (x, w) = (Returns b, (x', w)) /\ holds_rows x' values base k.
Proof.
  unfold Ins.EnsureBatchBuilder, mbind, E_bind, get. cbn [fst snd].
  intros [Hx|(-> & -> & -> & Hb & Hf & Ht & Hc)].
  - pose proof Hx as (_ & _ & _ & b & Hb & _). rewrite Hb. by exists b, x.
  - rewrite Hb, Ht, Hc. destruct (new_ok target_ config_ false Htarget Hconfig) as (b & Hn & Hok). unfold lift. rewrite Hn.
    destruct (new_counts b Hn) as [Ho Hk]. exists b, (Ins.set_builder b x). split; [done|]. split; [done|]. split_and!; [done..|]. exists b. by split_and!.
Qed.

Lemma Execute_run x w values base k new : ready x values base k -> rows_ok values -> rows_ok new ->
  (exists x' w' values' base' k' sent ns,
    Ins.Execute new (x, w) = (Returns (sum ns), (x', w')) /\ advances values base k new w values' base' k' sent ns w' /\
    ready x' values' base' k' /\ rows_ok values') \/
  stopped values base k new w (Ins.Execute new (x, w)).
Proof.
  intros Hx Hv Hr. destruct (EnsureBatchBuilder_run x w values base k Hx) as (b & x1 & Hen & Hx1). unfold Ins.Execute.
  rewrite (bind_run get _ (x, w) x (x, w) eq_refl), (ready_not_finalized _ _ _ _ Hx), (bind_run _ _ _ _ _ Hen).
  destruct (execute_rows_run x1 w values base k new 0 Hx1 Hv Hr) as [(x2 & w2 & values2 & base2 & k2 & sent & ns & He & Hadv & Hx2 & Hv2)|Hstop]; [left|by right].
  exists x2, w2, values2, base2, k2, sent, ns. split_and!; [done|done|by left|done].
Qed.

Lemma Finalize_run x w values base k : ready x values base k -> rows_ok values ->
  (exists x' w' sent ns,
    Ins.Finalize (x, w) = (Returns tt, (x', w')) /\ accepts w sent ns w' /\ sends values [] [] sent /\
    length sent = (if bool_decide (values = []) then 0 else 1)%nat) \/
  (values <> [] /\ stopped values base k [] w (Ins.Finalize (x, w))).
Proof.
  intros Hx Hv. unfold Ins.Finalize. rewrite (bind_run get _ (x, w) x (x, w) eq_refl), (ready_not_finalized _ _ _ _ Hx).
  rewrite (bind_run (put (Ins.set_finalized x)) _ (x, w) tt (Ins.set_finalized x, w) eq_refl).
  destruct Hx as [Hx|(-> & _ & _ & Hb & Hf & Ht & Hc)].
  - pose proof Hx as (_ & Ht & Hc & b & Hb & Hok & Ho & Hk). unfold Ins.has_pending. rewrite Hb. unfold HasPendingRows. rewrite (b_count _ _ _ _ _ Hok).
    destruct (decide (values = [])) as [->|Hne].
    + left. exists (Ins.set_finalized x), w, [], []. split_and!; [done|constructor| |done]. by exists [].
    + assert ((0 <? zlen values) = true) as -> by (destruct values; [done|rewrite zlen_cons; pose proof (zlen_nonneg values); lia]).
      rewrite bind_assoc_run. fold flushing. assert (Hx1 : pending (Ins.set_finalized x) values base k) by (split_and!; [done..|by exists b]).
      destruct (flushing_run _ w values base k Hx1 (rows_ok_good _ Hv) Hne) as (sql & Hst & [(batch & n & us & x2 & w2 & Hfl & Hr & _)|(number & message & x2 & w2 & Hr & Hfl)]).
      * left. rewrite (bind_run _ _ _ _ _ Hfl). exists x2, w2, [sql], [n]. rewrite bool_decide_eq_false_2 by done.
        split_and!; [done|by eapply accepts_one| |done]. exists [values]. cbn. rewrite !app_nil_r. by split; [|constructor].
      * right. split; [done|]. apply stopped_bind. exists x2, [], [], w, sql, number, message, w2, [], values, [].
        split_and!; [constructor|done|by rewrite !app_nil_r|constructor|done|]. cbn [concat app]. rewrite Hfl. unfold error_at. rewrite zlen_nil. do 3 f_equal. f_equal; lia.
  - left. exists (Ins.set_finalized x), w, [], []. unfold Ins.has_pending. rewrite Hb. split_and!; [done|constructor| |done]. by exists [].
Qed.

(** *** The operator, over all its chunks *)

Fixpoint sink_all (chunks : list chunk) : E MSSQLPhysicalInsert.t unit :=
  match chunks with [] => mret tt | c :: chunks => _ ← MSSQLPhysicalInsert.Sink c; sink_all chunks end.

Definition insert_all (chunks : list chunk) : E MSSQLPhysicalInsert.t MSSQLPhysicalInsert.source :=
  _ ← sink_all chunks; _ ← MSSQLPhysicalInsert.Finalize; MSSQLPhysicalInsert.GetData.

Lemma on_executor_stopped values base k new w {A} (m : E Ins.t A) g :
  stopped values base k new w (m (MSSQLPhysicalInsert.executor g, w)) -> stopped values base k new w (MSSQLPhysicalInsert.on_executor m (g, w)).
Proof.
  intros (x & sent & ns & w1 & sql & number & message & w' & bs & b & l & ? & ? & ? & ? & ? & E). unfold MSSQLPhysicalInsert.on_executor. cbn [fst snd]. rewrite E.
  eexists _, sent, ns, w1, sql, number, message, w', bs, b, l. by split_and!.
Qed.

Lemma Sink_run g w values base k c : ready (MSSQLPhysicalInsert.executor g) values base k -> rows_ok values -> rows_ok c ->
  MSSQLPhysicalInsert.return_chunk g = false ->
  (exists g' w' values' base' k' sent ns,
    MSSQLPhysicalInsert.Sink c (g, w) = (Returns tt, (g', w')) /\ advances values base k c w values' base' k' sent ns w' /\
    ready (MSSQLPhysicalInsert.executor g') values' base' k' /\ rows_ok values' /\
    MSSQLPhysicalInsert.total_rows_inserted g' = MSSQLPhysicalInsert.total_rows_inserted g + sum ns /\
    MSSQLPhysicalInsert.return_chunk g' = false /\ MSSQLPhysicalInsert.returned g' = MSSQLPhysicalInsert.returned g) \/
  stopped values base k c w (MSSQLPhysicalInsert.Sink c (g, w)).
Proof.
  intros Hx Hv Hc Hret. unfold MSSQLPhysicalInsert.Sink. rewrite (bind_run get _ (g, w) g (g, w) eq_refl), Hret.
  destruct (Execute_run _ w values base k c Hx Hv Hc) as [(x1 & w1 & values1 & base1 & k1 & sent & ns & He & Hadv & Hx1 & Hv1)|Hstop].
  - left. unfold MSSQLPhysicalInsert.on_executor, mbind, E_bind. cbn [fst snd]. rewrite He. eexists _, w1, values1, base1, k1, sent, ns. by split_and!.
  - right. by apply stopped_bind, on_executor_stopped.
Qed.

Lemma sink_all_run g w values base k chunks :
  ready (MSSQLPhysicalInsert.executor g) values base k -> rows_ok values -> Forall rows_ok chunks ->
  MSSQLPhysicalInsert.return_chunk g = false -> MSSQLPhysicalInsert.returned g = false ->
  (exists g' w' values' base' k' sent ns,
    sink_all chunks (g, w) = (Returns tt, (g', w')) /\ advances values base k (concat chunks) w values' base' k' sent ns w' /\
    ready (MSSQLPhysicalInsert.executor g') values' base' k' /\ rows_ok values' /\
    MSSQLPhysicalInsert.total_rows_inserted g' = MSSQLPhysicalInsert.total_rows_inserted g + sum ns /\
    MSSQLPhysicalInsert.return_chunk g' = false /\ MSSQLPhysicalInsert.returned g' = false) \/
  stopped values base k (concat chunks) w (sink_all chunks (g, w)).
Proof.
  revert g w values base k. induction chunks as [|c chunks IH]; intros g w values base k Hx Hv Hr Hret Hrd.
  - left. exists g, w, values, base, k, [], []. split_and!; try done; [|cbn; lia].
    pose proof (advances_none values base k [] w) as Ha. by rewrite app_nil_r in Ha.
  - apply Forall_cons in Hr as [Hc Hr]. cbn [sink_all concat].
    destruct (Sink_run g w values base k c Hx Hv Hc Hret) as [(g1 & w1 & values1 & base1 & k1 & sent1 & ns1 & Hs & Hadv & Hx1 & Hv1 & Ht1 & Hret1 & Hrd1)|Hstop];
      [|right; by apply stopped_more, stopped_bind].
    rewrite (bind_run _ _ _ _ _ Hs). rewrite Hrd in Hrd1.
    destruct (IH g1 w1 values1 base1 k1 Hx1 Hv1 Hr Hret1 Hrd1) as [(g2 & w2 & values2 & base2 & k2 & sent2 & ns2 & Hs2 & Hadv2 & Hx2 & Hv2 & Ht2 & Hret2 & Hrd2)|Hstop].
    + left. exists g2, w2, values2, base2, k2, (sent1 ++ sent2), (ns1 ++ ns2). split_and!; try done; [by eapply advances_trans|]. rewrite Ht2, Ht1, sum_app. lia.
    + right. by eapply stopped_after.
Qed.

(** A new operator, all its chunks, its end, and the count it answers with. *)
Lemma insert_all_judged ids chunks w : Forall rows_ok chunks ->
  let r := insert_all chunks (MSSQLPhysicalInsert.new target_ config_ false ids, w) in
  (exists g w' sent ns n,
    r = (Returns (MSSQLPhysicalInsert.Count n), (g, w')) /\ accepts w sent ns w' /\ sends [] (concat chunks) [] sent /\
    ((concat chunks = [] /\ ns = [] /\ n = 0) \/ (exists ns0 last, ns = ns0 ++ [last] /\ n = sum ns0))) \/
  stopped [] 0 0 (concat chunks) w r.
Proof.
  intros Hr. cbv zeta. set (g := MSSQLPhysicalInsert.new target_ config_ false ids). unfold insert_all.
  destruct (sink_all_run g w [] 0 0 chunks) as [(g1 & w1 & values & base & k & sent1 & ns1 & Hs & Hadv & Hx & Hv & Ht & Hret & Hrd)|Hstop];
    [by right|constructor|done|done|done| |right; by apply stopped_bind].
  rewrite (bind_run _ _ _ _ _ Hs). unfold MSSQLPhysicalInsert.Finalize at 1.
  destruct (Finalize_run _ w1 values base k Hx Hv) as [(x2 & w2 & sent2 & ns2 & Hf & Hacc2 & Hsend2 & Hlen)|[Hne Hstop]].
  2: { right. rewrite <- (app_nil_r (concat chunks)). eapply stopped_after; [exact Hadv|]. apply stopped_bind.
       unfold MSSQLPhysicalInsert.Finalize. rewrite (bind_run get _ (g1, w1) g1 (g1, w1) eq_refl), Hret. by apply on_executor_stopped. }
  left. set (g2 := MSSQLPhysicalInsert.mk x2 (MSSQLPhysicalInsert.total_rows_inserted g1) (MSSQLPhysicalInsert.returned g1)
    (MSSQLPhysicalInsert.return_chunk g1) (MSSQLPhysicalInsert.returning_ids g1) (MSSQLPhysicalInsert.result_chunks g1) (MSSQLPhysicalInsert.result_chunk_index g1)).
  assert (Hfin : MSSQLPhysicalInsert.Finalize (g1, w1) = (Returns tt, (g2, w2))).
  { unfold MSSQLPhysicalInsert.Finalize. rewrite (bind_run get _ (g1, w1) g1 (g1, w1) eq_refl), Hret.
    unfold MSSQLPhysicalInsert.on_executor. cbn [fst snd]. by rewrite Hf. }
  fold MSSQLPhysicalInsert.Finalize. rewrite (bind_run _ _ _ _ _ Hfin). unfold MSSQLPhysicalInsert.GetData.
  rewrite (bind_run get _ (g2, w2) g2 (g2, w2) eq_refl). cbn [MSSQLPhysicalInsert.return_chunk MSSQLPhysicalInsert.returned g2]. rewrite Hret, Hrd.
  pose proof Hadv as (Hacc & Hkeep & bs & Hcat & Hst & _).
  eexists _, w2, (sent1 ++ sent2), (ns1 ++ ns2), (sum ns1).
  split; [cbn; rewrite Ht; reflexivity|]. split; [by eapply accepts_app|]. split.
  { destruct Hsend2 as (bs2 & Hcat2 & Hst2). exists (bs ++ bs2). split; [|by apply Forall2_app]. by rewrite concat_app, <- app_assoc, Hcat2, app_nil_r, Hcat. }
  assert (Hns2 : length ns2 = length sent2) by (clear -Hacc2; induction Hacc2; cbn; congruence).
  destruct (decide (values = [])) as [->|Hne].
  - left. specialize (Hkeep eq_refl). rewrite bool_decide_eq_true_2 in Hlen by done. cbn [app] in Hkeep.
    assert (sent1 = []) as ->.
    { rewrite Hkeep, !app_nil_r in Hcat. destruct Hst as [|b s bs sent Hb _]; [done|]. apply app_eq_nil in Hcat as [-> _]. by apply statement_rows in Hb. }
    inversion Hacc; subst. destruct ns2; [done|]. by rewrite Hlen in Hns2.
  - right. rewrite bool_decide_eq_false_2 in Hlen by done. rewrite Hlen in Hns2.
    destruct ns2 as [|l [|? ?]]; try done. exists ns1, l. by split.
Qed.
End Insert.

(** A server that accepts does not stop it. *)
Lemma insert_all_run `{DuckDB} `{Values_} {SV : Server} target_ config_ ids chunks w : accepting -> target_ok target_ ->
  1 <= MSSQLInsertConfig.EffectiveRowsPerStatement config_ -> Forall (rows_ok target_ config_) chunks ->
  exists g w' sent ns n,
    insert_all chunks (MSSQLPhysicalInsert.new target_ config_ false ids, w) = (Returns (MSSQLPhysicalInsert.Count n), (g, w')) /\
    accepts w sent ns w' /\ sends target_ config_ [] (concat chunks) [] sent /\
    ((concat chunks = [] /\ ns = [] /\ n = 0) \/ (exists ns0 last, ns = ns0 ++ [last] /\ n = sum ns0)).
Proof.
  intros Ha Ht Hc Hr. destruct (insert_all_judged target_ config_ (accepting_judging Ha) Ht Hc ids chunks w Hr) as [Hrun|Hstop]; [exact Hrun|].
  destruct Hstop as (s & sent & ns & w1 & sql & number & message & w' & bs & b & l & _ & Hrefused & _). destruct (Ha sql w1) as (n & us & w2 & E). congruence.
Qed.

(** ** INSERT *)

(** A server that takes every statement and counts one row for each. *)
Module LogServer.
#[export] Instance server : Server := {|
  world := list bytes;
  run_sql s w := (Answered 1 0, w ++ [s]);
  run_output s ids w := (Answered (Some [[mkValue (mkLogicalType INTEGER PhysicalType.INT32 0 0) (Some (Word (zlen w)))]]) 0, w ++ [s])
|}.

Definition start : world := [] : list bytes.

Lemma server_accepting : accepting.
Proof. intros s w. by eexists _, _, _. Qed.
End LogServer.

(** A table of three columns, of which rows fill two. *)
Module SampleInsert.
Definition integer : LogicalType := mkLogicalType INTEGER PhysicalType.INT32 0 0.
Definition text : LogicalType := mkLogicalType VARCHAR PhysicalType.VARCHAR 0 0.
Definition int (z : Z) : Value := mkValue integer (Some (Word z)).
Definition str (s : bytes) : Value := mkValue text (Some (Str s)).

Definition target : MSSQLInsertTarget := mkMSSQLInsertTarget (tx "dbo") (tx "a]b")
  [mkMSSQLInsertColumn (tx "id") integer (tx "int") false false false;
   mkMSSQLInsertColumn (tx "x]y") text (tx "nvarchar") false true false] [0; 1] [0].

Definition config : MSSQLInsertConfig.t := MSSQLInsertConfig.mk 2 1000 8388608 true.

Definition row (z : Z) (s : bytes) : list Value := [int z; str s].
Definition chunks : list chunk := [[row 1 (tx "it's"); row 2 (tx "]"); row 3 []]; []; [row 4 (tx "'); DROP TABLE x; --")]].

Lemma target_is_ok : target_ok target.
Proof. split_and!; [done|by eexists|by eexists]. Qed.

Lemma rows_are_ok : Forall (rows_ok (H := Checked.duckdb) (H0 := SampleValues.values) target config) chunks.
Proof.
  repeat constructor; cbn; try lia; try done; try (by eexists; split; [vm_compute; reflexivity|vm_compute]).
Qed.
End SampleInsert.

(** C3. INSERT sends every row once and in order, whatever the chunks: the
    statements sent are those of batches that together are exactly the rows of
    all chunks; each is an INSERT into the target's table and columns that reads
    back as its rows' values, has at most the configured number of rows, and
    stays below the configured size unless it has a single row. The server accepts,
    and the values are those a literal can say ([good_value]). *)
Theorem Insert_sends_rows `{DuckDB} `{Values_} {SV : Server} target_ config_ ids chunks w :
  accepting -> target_ok target_ -> 1 <= MSSQLInsertConfig.EffectiveRowsPerStatement config_ ->
  Forall (rows_ok target_ config_) chunks ->
  exists r s' sent ns batches,
    insert_all chunks (MSSQLPhysicalInsert.new target_ config_ false ids, w) = (Returns r, s') /\
    accepts w sent ns s'.2 /\ concat batches = concat chunks /\
    Forall2 (statement_for target_ config_ false) batches sent.
Proof.
  intros Ha Ht Hc Hr. destruct (insert_all_run target_ config_ ids chunks w Ha Ht Hc Hr) as (g & w' & sent & ns & n & He & Hacc & (bs & Hb & Hf) & _).
  exists (MSSQLPhysicalInsert.Count n), (g, w'), sent, ns, bs. split_and!; try done. by rewrite app_nil_r in Hb.
Qed.

Lemma Insert_sends_rows_witness :
  exists r s' sent ns batches,
    insert_all (H := Checked.duckdb) (H0 := SampleValues.values) (SV := LogServer.server) SampleInsert.chunks
      (MSSQLPhysicalInsert.new SampleInsert.target SampleInsert.config false [], LogServer.start) = (Returns r, s') /\
    accepts LogServer.start sent ns s'.2 /\ concat batches = concat SampleInsert.chunks /\
    Forall2 (statement_for (H := Checked.duckdb) (H0 := SampleValues.values) SampleInsert.target SampleInsert.config false) batches sent.
Proof.
  apply (Insert_sends_rows (H := Checked.duckdb) (H0 := SampleValues.values) (SV := LogServer.server)).
  - exact LogServer.server_accepting.
  - exact SampleInsert.target_is_ok.
  - by vm_compute.
  - exact SampleInsert.rows_are_ok.
Defined.

(** C39. The row count INSERT answers with is the sum of the counts of all its
    statements but the last: what [Finalize] sends is not counted. *)
Theorem Insert_count `{DuckDB} `{Values_} {SV : Server} target_ config_ ids chunks w :
  accepting -> target_ok target_ -> 1 <= MSSQLInsertConfig.EffectiveRowsPerStatement config_ ->
  Forall (rows_ok target_ config_) chunks -> concat chunks <> [] ->
  exists s' sent counts last,
    insert_all chunks (MSSQLPhysicalInsert.new target_ config_ false ids, w) = (Returns (MSSQLPhysicalInsert.Count (sum counts)), s') /\
    accepts w sent (counts ++ [last]) s'.2.
Proof.
  intros Ha Ht Hc Hr Hne. destruct (insert_all_run target_ config_ ids chunks w Ha Ht Hc Hr) as (g & w' & sent & ns & n & He & Hacc & _ & [(? & _)|(ns0 & l & -> & ->)]);
    [done|]. by exists (g, w'), sent, ns0, l.
Qed.

Lemma Insert_count_witness :
  exists s' sent counts last,
    insert_all (H := Checked.duckdb) (H0 := SampleValues.values) (SV := LogServer.server) SampleInsert.chunks
      (MSSQLPhysicalInsert.new SampleInsert.target SampleInsert.config false [], LogServer.start) = (Returns (MSSQLPhysicalInsert.Count (sum counts)), s') /\
    accepts LogServer.start sent (counts ++ [last]) s'.2.
Proof.
  apply (Insert_count (H := Checked.duckdb) (H0 := SampleValues.values) (SV := LogServer.server)).
  - exact LogServer.server_accepting.
  - exact SampleInsert.target_is_ok.
  - by vm_compute.
  - exact SampleInsert.rows_are_ok.
  - done.
Defined.

(** *** A server that refuses *)

(** C40. When the server refuses a statement, the first or a later one, INSERT
    throws its number and message; every statement before it was accepted, and it
    is the statement of the rows after theirs. But the error's range is empty and
    lies behind the rows of the refused statement, because they are no longer
    pending by then; and the statement's index counts from 1. Otherwise INSERT
    has sent every row. *)
Theorem Insert_error_range `{DuckDB} `{Values_} {SV : Server} target_ config_ ids chunks w :
  judging -> target_ok target_ -> 1 <= MSSQLInsertConfig.EffectiveRowsPerStatement config_ -> Forall (rows_ok target_ config_) chunks ->
  let r := insert_all chunks (MSSQLPhysicalInsert.new target_ config_ false ids, w) in
  (exists n s' sent ns batches,
    r = (Returns (MSSQLPhysicalInsert.Count n), s') /\ accepts w sent ns s'.2 /\ concat batches = concat chunks /\
    Forall2 (statement_for target_ config_ false) batches sent) \/
  (exists e s' sent ns w1 sql batches refused later,
    r = (Throws (InsertException e), s') /\ accepts w sent ns w1 /\
    run_sql sql w1 = (Refused (sql_error_number e) (sql_error_message e), s'.2) /\
    concat batches ++ refused ++ later = concat chunks /\
    Forall2 (statement_for target_ config_ false) batches sent /\ statement_for target_ config_ false refused sql /\
    statement_index e = zlen batches + 1 /\
    error_offset_start e = zlen (concat batches ++ refused) /\ error_offset_end e = zlen (concat batches ++ refused)).
Proof.
  intros Hj Ht Hc Hr. cbv zeta. destruct (insert_all_judged target_ config_ Hj Ht Hc ids chunks w Hr) as [Hrun|Hstop]; [left|right].
  - destruct Hrun as (g & w' & sent & ns & n & E & Hacc & (bs & Hcat & Hst) & _). exists n, (g, w'), sent, ns, bs.
    rewrite app_nil_r in Hcat. by split_and!.
  - destruct Hstop as (s & sent & ns & w1 & sql & number & message & w' & bs & b & l & Hacc & Hrun & Hcat & Hst & Hb & E).
    eexists _, (s, w'), sent, ns, w1, sql, bs, b, l. split_and!; [exact E|done|exact Hrun|done|done|done|done|done|done].
Qed.

(** A server that accepts a statement and refuses the next. *)
Module RefusingServer.
#[export] Instance server : Server := {|
  world := nat;
  run_sql _ w := (match w with O => Answered 2 0 | S _ => Refused 547 (tx "conflict") end, S w);
  run_output _ _ w := (Refused 547 (tx "conflict"), w)
|}.

Lemma server_judging : judging.
Proof. intros s [|w]; [left|right]; by eexists _, _, _. Qed.
End RefusingServer.

(** Four rows in batches of two: the rows 2 and 3 are refused, the range is from 4 to 4. *)
Lemma Insert_error_range_witness :
  exists e s' sql, insert_all (H := Checked.duckdb) (H0 := SampleValues.values) (SV := RefusingServer.server) SampleInsert.chunks
      (MSSQLPhysicalInsert.new SampleInsert.target SampleInsert.config false [], 0%nat) = (Throws (InsertException e), s') /\
    @run_sql RefusingServer.server sql 1%nat = (Refused (sql_error_number e) (sql_error_message e), s'.2) /\
    statement_index e = 2 /\ error_offset_start e = 4 /\ error_offset_end e = 4.
Proof.
  destruct (Insert_error_range (H := Checked.duckdb) (H0 := SampleValues.values) (SV := RefusingServer.server) SampleInsert.target SampleInsert.config []
    SampleInsert.chunks 0%nat RefusingServer.server_judging SampleInsert.target_is_ok ltac:(by vm_compute) SampleInsert.rows_are_ok)
    as [(n & s' & sent & ns & bs & E & _)|(e & s' & sent & ns & w1 & sql & bs & b & l & E & _)].
  - by vm_compute in E.
  - exists e, s', sql. split; [exact E|]. vm_compute in E. injection E as <- <-. by vm_compute.
Defined.

(** With [RETURNING], of the batches a chunk fills only the last one's rows
    are returned: three rows in batches of one, all inserted, give back two. *)
Theorem Insert_returning_loses_rows :
  exists w' r, insert_all (H := Checked.duckdb) (H0 := SampleValues.values) (SV := LogServer.server)
    [[SampleInsert.row 1 []; SampleInsert.row 2 []; SampleInsert.row 3 []]]
    (MSSQLPhysicalInsert.new SampleInsert.target (MSSQLInsertConfig.mk 1 1000 8388608 true) true [0], LogServer.start) = (r, w') /\
  length w'.2 = 3%nat /\ MSSQLPhysicalInsert.result_chunks w'.1 = [[[SampleInsert.int 1]]; [[SampleInsert.int 2]]].
Proof. eexists _, _. split; [vm_compute; reflexivity|]. by split. Qed.
