(* ===== verification/DmlRun.v ===== *)
(** * UPDATE and DELETE, run

    The executors of UPDATE and DELETE against a server that accepts: the rows of
    all chunks reach it once and in order, in statements of at most the effective
    batch size that read back as those rows, and the count reported is the sum of
    the counts answered. *)

From S2P Require Import Prelude Sql SqlRead TdsTypes Values ColumnMetadata Codecs Literals FloatSpec LiteralsSpec Dml DmlSpec.

Import MSSQLDMLExecutor.

(** ** The executor, whatever the operation *)

Section Run.
Context {Row : Type} {Op : Operation Row} {SV : Server}.
Context (good : Row -> Prop) (means : list Row -> bytes -> Prop) (limit : Z).
Context (Haccept : accepting) (Hlimit : 1 <= limit).

(** Good rows have a statement, which means them. *)
Definition builds : Prop := forall rows number, rows <> [] -> Forall good rows ->
  exists batch, build rows number = Ok batch /\ IsValid batch = true /\ means rows (sql batch).

Context (Hbuild : builds).

Definition batch_for (rows : list Row) (s : bytes) : Prop := 1 <= zlen rows <= limit /\ means rows s.

(** What runs did to an executor: the batches sent, and the counts. *)
Record ran (x : t Row) (w : world) (rows : list Row) (x' : t Row) (w' : world) : Prop := {
  r_limit : effective_batch_size x' = effective_batch_size x;
  r_defer : defer_execution x' = defer_execution x;
  r_batches : exists batches sent ns,
    accepts w sent ns w' /\ Forall2 batch_for batches sent /\ concat batches ++ pending x' = pending x ++ rows /\
    total_rows x' = total_rows x + sum ns /\ batch_count x' = batch_count x + zlen sent
}.

Lemma ran_refl x w : ran x w [] x w.
Proof. split; try done. exists [], [], []. split_and!; [constructor|done|by rewrite app_nil_r|cbn; lia|rewrite zlen_nil; lia]. Qed.

Lemma ran_trans x w rows x1 w1 rows' x2 w2 : ran x w rows x1 w1 -> ran x1 w1 rows' x2 w2 -> ran x w (rows ++ rows') x2 w2.
Proof.
  intros [L1 D1 (b1 & s1 & n1 & A1 & F1 & E1 & T1 & C1)] [L2 D2 (b2 & s2 & n2 & A2 & F2 & E2 & T2 & C2)]. split; [congruence..|].
  exists (b1 ++ b2), (s1 ++ s2), (n1 ++ n2). split_and!; [by eapply accepts_app|by apply Forall2_app| |rewrite sum_app; lia|rewrite zlen_app; lia].
  by rewrite concat_app, <- app_assoc, E2, !app_assoc, <- E1.
Qed.

(** A flush sends the first pending rows. *)
Lemma FlushBatch_run x w : effective_batch_size x = limit -> pending x <> [] -> Forall good (pending x) ->
  exists r x' w', FlushBatch (x, w) = (Returns r, (x', w')) /\ success r = true /\ ran x w [] x' w' /\
    pending x' = zdrop (Z.min (zlen (pending x)) limit) (pending x) /\ finalized x' = finalized x.
Proof.
  intros Hl Hne Hg. set (k := Z.min (zlen (pending x)) limit).
  assert (Hpos : 1 <= zlen (pending x)) by (destruct (pending x); [done|rewrite zlen_cons; pose proof (zlen_nonneg l); lia]).
  assert (Hk : zlen (ztake k (pending x)) = k) by (apply zlen_ztake; unfold k; lia).
  assert (Hsplit : ztake k (pending x) ++ zdrop k (pending x) = pending x) by apply take_drop.
  destruct (Hbuild (ztake k (pending x)) (batch_count x + 1)) as (batch & Hb & Hv & Hm).
  { intros E. rewrite E, zlen_nil in Hk. unfold k in Hk. lia. }
  { rewrite <- Hsplit in Hg. by apply Forall_app in Hg as [? _]. }
  unfold FlushBatch. rewrite (bind_run get _ (x, w) x (x, w) eq_refl), bool_decide_eq_false_2 by done. rewrite Hl. fold k.
  set (x1 := set_batch_count (batch_count x + 1) (set_pending (zdrop k (pending x)) x)).
  rewrite (bind_run (put x1) _ (x, w) tt (x1, w) eq_refl).
  rewrite (bind_run (lift (build (ztake k (pending x)) (batch_count x + 1))) _ (x1, w) batch (x1, w)) by (unfold lift; by rewrite Hb).
  rewrite Hv. cbn [negb]. destruct (Haccept (sql batch) w) as (n & us & w' & Hr). unfold ExecuteBatch.
  rewrite (bind_run (on_server (run_sql (sql batch))) _ (x1, w) (Answered n us) (x1, w')) by (unfold on_server; cbn [fst snd]; by rewrite Hr).
  rewrite (bind_run get _ (x1, w') x1 (x1, w') eq_refl).
  eexists _, (set_total (total_rows x1 + n) x1), w'. split; [reflexivity|]. split_and!; try done.
  split; try done. exists [ztake k (pending x)], [sql batch], [n]. split_and!.
  - by eapply accepts_one.
  - repeat constructor; [lia| |done]. rewrite Hk. unfold k. lia.
  - cbn. by rewrite !app_nil_r.
  - cbn. lia.
  - done.
Qed.

(** Fewer rows than a batch are pending, unless all is left to the end. *)
Definition below (x : t Row) : Prop := defer_execution x = true \/ zlen (pending x) < limit.

Lemma push_run x w row : effective_batch_size x = limit -> below x -> Forall good (pending x) -> good row ->
  exists x' w', push row (x, w) = (Returns tt, (x', w')) /\ ran x w [row] x' w' /\ below x' /\ Forall good (pending x') /\
    finalized x' = finalized x.
Proof.
  intros Hl Hbel Hg Hrow. set (x1 := set_pending (pending x ++ [row]) x).
  assert (Hg1 : Forall good (pending x1)) by (apply Forall_app; split; [done|by constructor]).
  assert (Hran1 : ran x w [row] x1 w).
  { split; try done. exists [], [], []. split_and!; [constructor|done|done|cbn; lia|rewrite zlen_nil; cbn; lia]. }
  unfold push. rewrite (bind_run get _ (x, w) x (x, w) eq_refl), (bind_run (put x1) _ (x, w) tt (x1, w) eq_refl).
  rewrite (bind_run get _ (x1, w) x1 (x1, w) eq_refl).
  destruct (negb (defer_execution x1) && (effective_batch_size x1 <=? zlen (pending x1))) eqn:Ef.
  - apply andb_true_iff in Ef as [Hd Hfull]. apply negb_true_iff in Hd.
    destruct (FlushBatch_run x1 w) as (r & x2 & w2 & Hf & Hsucc & Hran2 & Hp & Hfin); [done| |done|].
    { cbn. by destruct (pending x). }
    rewrite (bind_run _ _ _ _ _ Hf), Hsucc. exists x2, w2. split; [done|]. split_and!; [by apply (ran_trans _ _ [row] x1 w [])| | |done].
    + right. rewrite Hp. destruct Hbel as [Hb|Hb]; [by cbn in Hd; rewrite Hb in Hd|].
      assert (Hz : zlen (pending x1) = zlen (pending x) + 1) by apply zlen_app.
      assert (Hl1 : effective_batch_size x1 = limit) by done. rewrite Hl1 in Hfull.
      pose proof (zlen_nonneg (pending x)). rewrite zlen_zdrop; lia.
    + rewrite Hp. unfold zdrop. by apply Forall_drop.
  - exists x1, w. split; [done|]. split_and!; try done. apply andb_false_iff in Ef as [Hd|Hs].
    + left. by apply negb_false_iff in Hd.
    + right. cbn [effective_batch_size x1 set_pending] in Hs. rewrite Hl in Hs. lia.
Qed.

Lemma push_all_run x w rows : effective_batch_size x = limit -> below x -> Forall good (pending x) -> Forall good rows ->
  exists x' w', push_all rows (x, w) = (Returns tt, (x', w')) /\ ran x w rows x' w' /\ below x' /\ Forall good (pending x') /\
    finalized x' = finalized x.
Proof.
  revert x w. induction rows as [|row rows IH]; intros x w Hl Hb Hg Hr.
  - exists x, w. split_and!; try done. apply ran_refl.
  - apply Forall_cons in Hr as [Hrow Hr]. destruct (push_run x w row Hl Hb Hg Hrow) as (x1 & w1 & Hp & Hran & Hb1 & Hg1 & Hf1).
    destruct (IH x1 w1) as (x2 & w2 & Hp2 & Hran2 & Hb2 & Hg2 & Hf2); [by rewrite (r_limit _ _ _ _ _ Hran)|done..|].
    exists x2, w2. cbn [push_all]. rewrite (bind_run _ _ _ _ _ Hp). split_and!; try done; [by apply (ran_trans _ _ [row] x1 w1)|congruence].
Qed.

Lemma flush_all_run fuel x w : effective_batch_size x = limit -> Forall good (pending x) -> (length (pending x) <= fuel)%nat ->
  exists x' w', flush_all fuel (x, w) = (Returns None, (x', w')) /\ ran x w [] x' w' /\ pending x' = [] /\ finalized x' = finalized x.
Proof.
  revert x w. induction fuel as [|fuel IH]; intros x w Hl Hg Hfuel; cbn [flush_all]; rewrite (bind_run get _ (x, w) x (x, w) eq_refl).
  - destruct (pending x) eqn:Ep; [|cbn in Hfuel; lia]. exists x, w. split_and!; try done. apply ran_refl.
  - destruct (decide (pending x = [])) as [E|Hne].
    { rewrite bool_decide_eq_true_2 by done. exists x, w. split_and!; try done. apply ran_refl. }
    rewrite bool_decide_eq_false_2 by done.
    destruct (FlushBatch_run x w Hl Hne Hg) as (r & x1 & w1 & Hf & Hsucc & Hran & Hp & Hfin).
    rewrite (bind_run _ _ _ _ _ Hf), Hsucc.
    destruct (IH x1 w1) as (x2 & w2 & Hfl & Hran2 & Hp2 & Hf2).
    + by rewrite (r_limit _ _ _ _ _ Hran).
    + rewrite Hp. by apply Forall_drop.
    + rewrite Hp. unfold zdrop. rewrite length_drop. destruct (pending x); [done|]. rewrite zlen_cons. cbn [length] in *.
      pose proof (zlen_nonneg l). lia.
    + exists x2, w2. split_and!; try done; [by apply (ran_trans _ _ [] x1 w1 [])|congruence].
Qed.

Lemma DML_Finalize_run x w : effective_batch_size x = limit -> Forall good (pending x) -> finalized x = false ->
  exists x' w', Finalize (x, w) = (Returns (Success (total_rows x') (batch_count x')), (x', w')) /\ ran x w [] x' w' /\ pending x' = [].
Proof.
  intros Hl Hg Hf. unfold Finalize. rewrite (bind_run get _ (x, w) x (x, w) eq_refl), Hf.
  rewrite (bind_run (put (set_finalized x)) _ (x, w) tt (set_finalized x, w) eq_refl).
  destruct (flush_all_run (Datatypes.S (length (pending x))) (set_finalized x) w) as (x1 & w1 & Hfl & Hran & Hp & Hfin); [done|done|cbn; lia|].
  rewrite (bind_run _ _ _ _ _ Hfl). exists x1, w1. split_and!; try done. destruct Hran. by split.
Qed.
End Run.

(** ** The operator, over all its chunks *)

Module Phy := MSSQLPhysicalDML.

Section Operator.
Context {Row : Type} {Op : Operation Row} {SV : Server}.
Context (good : Row -> Prop) (means : list Row -> bytes -> Prop) (limit : Z).
Context (Haccept : accepting) (Hlimit : 1 <= limit) (Hbuild : builds good means).

Fixpoint sink_all (chunks : list dml_chunk) (execute : dml_chunk -> E (t Row) Z) : E (Phy.t Row) unit :=
  match chunks with [] => mret tt | c :: chunks => _ ← Phy.Sink (execute c); sink_all chunks execute end.

(** Every chunk, the end, and the answer. *)
Definition dml_all (chunks : list dml_chunk) (execute : dml_chunk -> E (t Row) Z) : E (Phy.t Row) (option Z) :=
  _ ← sink_all chunks execute; _ ← Phy.Finalize; Phy.GetData.

Definition start (x : t Row) : Phy.t Row := Phy.mk x 0 0 false false.

(** [execute] adds the rows [rows_of] reads in a chunk. *)
Definition adds (rows_of : dml_chunk -> res (list Row)) (execute : dml_chunk -> E (t Row) Z) : Prop :=
  forall c rows x w x' w', rows_of c = Ok rows -> finalized x = false -> push_all rows (x, w) = (Returns tt, (x', w')) ->
    execute c (x, w) = (Returns (total_rows x'), (x', w')).

Context (rows_of : dml_chunk -> res (list Row)) (execute : dml_chunk -> E (t Row) Z) (Hadds : adds rows_of execute).

Lemma dml_sink_all_run g w chunks rowss :
  effective_batch_size (Phy.executor g) = limit -> below limit (Phy.executor g) -> Forall good (pending (Phy.executor g)) ->
  finalized (Phy.executor g) = false -> Forall2 (fun c rows => rows_of c = Ok rows) chunks rowss -> Forall (Forall good) rowss ->
  exists x' w', sink_all chunks execute (g, w) = (Returns tt, (Phy.mk x' (Phy.total g) (Phy.batch_count g) (Phy.finalized g) (Phy.returned g), w')) /\
    ran means limit (Phy.executor g) w (concat rowss) x' w' /\ Forall good (pending x') /\ finalized x' = false.
Proof.
  intros Hl Hb Hg Hf Hr. revert g w Hl Hb Hg Hf. induction Hr as [|c rows chunks rowss Hc _ IH]; intros g w Hl Hb Hg Hf Hgood.
  - exists (Phy.executor g), w. destruct g. split_and!; try done. apply ran_refl.
  - apply Forall_cons in Hgood as [Hgr Hgood].
    destruct (push_all_run good means limit Haccept Hlimit Hbuild (Phy.executor g) w rows Hl Hb Hg Hgr) as (x1 & w1 & Hp & Hran & Hb1 & Hg1 & Hf1).
    set (g1 := Phy.mk x1 (Phy.total g) (Phy.batch_count g) (Phy.finalized g) (Phy.returned g)).
    assert (Hs : Phy.Sink (execute c) (g, w) = (Returns tt, (g1, w1))).
    { unfold Phy.Sink, Phy.on_executor, mbind, E_bind. cbn [fst snd]. by rewrite (Hadds c rows _ _ _ _ Hc Hf Hp). }
    cbn [sink_all]. rewrite (bind_run _ _ _ _ _ Hs).
    destruct (IH g1 w1) as (x2 & w2 & Hs2 & Hran2 & Hg2 & Hf2); try done; [by rewrite <- Hl, <- (r_limit _ _ _ _ _ _ _ Hran)|by cbn; congruence|].
    exists x2, w2. split_and!; try done. by eapply ran_trans.
Qed.

Lemma dml_all_run x w chunks rowss :
  effective_batch_size x = limit -> pending x = [] -> total_rows x = 0 -> finalized x = false ->
  Forall2 (fun c rows => rows_of c = Ok rows) chunks rowss -> Forall (Forall good) rowss ->
  exists s' batches sent ns, dml_all chunks execute (start x, w) = (Returns (Some (sum ns)), s') /\
    accepts w sent ns s'.2 /\ concat batches = concat rowss /\ Forall2 (batch_for means limit) batches sent.
Proof.
  intros Hl Hp Ht Hf Hr Hgood.
  destruct (dml_sink_all_run (start x) w chunks rowss) as (x1 & w1 & Hs & Hran & Hg1 & Hf1); try done.
  { right. cbn. rewrite Hp, zlen_nil. lia. } { cbn. by rewrite Hp. }
  unfold dml_all. rewrite (bind_run _ _ _ _ _ Hs). set (g1 := Phy.mk x1 _ _ _ _).
  destruct (DML_Finalize_run good means limit Haccept Hlimit Hbuild x1 w1) as (x2 & w2 & Hfin & Hran2 & Hp2); [by rewrite (r_limit _ _ _ _ _ _ _ Hran)|done|done|].
  set (g2 := Phy.mk x2 (total_rows x2) (batch_count x2) true false).
  assert (Hfinal : Phy.Finalize (g1, w1) = (Returns tt, (g2, w2))).
  { unfold Phy.Finalize. rewrite (bind_run get _ (g1, w1) g1 (g1, w1) eq_refl).
    unfold Phy.on_executor, mbind, E_bind. cbn [fst snd g1 Phy.executor Phy.finalized start]. by rewrite Hfin. }
  rewrite (bind_run _ _ _ _ _ Hfinal).
  destruct (ran_trans means limit _ _ _ _ _ _ _ _ Hran Hran2) as [_ _ (bs & sent & ns & Ha & Hfb & Hc & Htot & _)].
  rewrite app_nil_r, Hp2, app_nil_r in Hc. cbn [start Phy.executor] in Hc, Htot. rewrite Hp in Hc.
  exists (Phy.mk x2 (total_rows x2) (batch_count x2) true true, w2), bs, sent, ns. split_and!; try done.
  unfold Phy.GetData. rewrite (bind_run get _ (g2, w2) g2 (g2, w2) eq_refl). cbn. rewrite Htot, Ht. done.
Qed.
End Operator.

(** ** DELETE *)

Section Rows.
Context `{DuckDB} `{Values_}.

Lemma Delete_names (l : list bytes) : Delete_EscapeIdentifier <$> l = MSSQLValueSerializer.EscapeIdentifier <$> l.
Proof. apply list_fmap_ext. intros i x _. apply Delete_EscapeIdentifier_eq. Qed.

Lemma Delete_equations (l : list bytes) : equation Delete_EscapeIdentifier <$> l = equation MSSQLValueSerializer.EscapeIdentifier <$> l.
Proof. apply list_fmap_ext. intros i x _. unfold equation. by rewrite Delete_EscapeIdentifier_eq. Qed.

(** A key whose values have literals. *)
Definition key_ok (keys : list Value) : Prop := Forall good_value keys /\ exists ls, mapM Serialize keys = Ok ls.

Lemma key_literals keys ls : Forall good_value keys -> mapM Serialize keys = Ok ls ->
  exists cs, Forall2 has_literal ls cs /\ row_denotes keys cs.
Proof. intros Hg Hs. apply Serialize_all; [done|]. by apply mapM_Ok. Qed.

Lemma key_rows n rows lits : 0 < n -> Forall (fun keys => Forall good_value keys /\ zlen keys = n) rows ->
  Forall2 (fun keys ls => mapM Serialize keys = Ok ls) rows lits ->
  exists css, Forall2 (fun cs ls => cs <> [] /\ Forall2 has_literal ls cs) css lits /\ Forall2 row_denotes rows css.
Proof.
  intros Hn Hg Hl. induction Hl as [|keys ls rows lits Hls _ IH]; [by exists []|]. apply Forall_cons in Hg as [[Hg Hk] Hgs].
  destruct (key_literals keys ls Hg Hls) as (cs & Hlit & Hd). destruct (IH Hgs) as (css & Hlits & Hds).
  exists (cs :: css). split; constructor; try done. split; [|done]. intros ->. apply Forall2_nil_inv_r in Hd. rewrite Hd, zlen_nil in Hk. lia.
Qed.

(** The statement deletes, from the table, the rows whose key columns equal those
    of one of [rows]. *)
Definition deletes (target : MSSQLDeleteTarget) (rows : list (list Value)) (s : bytes) : Prop :=
  let names := pk_names (delete_pk target) in
  exists css, Forall2 row_denotes rows css /\
    parse_delete s = Some (mkJoin [] (delete_schema target, delete_table target) css names ((fun n => (n, n)) <$> names)).

Lemma pk_names_nonempty pk : pk_columns pk <> [] -> pk_names pk <> [].
Proof. unfold pk_names. by destruct (pk_columns pk). Qed.

Lemma delete_builds target : pk_columns (delete_pk target) <> [] ->
  builds (Op := delete_operation target) (fun keys => key_ok keys /\ zlen keys = zlen (pk_columns (delete_pk target))) (deletes target).
Proof.
  intros Hpk rows number Hne Hg. set (n := zlen (pk_columns (delete_pk target))) in *.
  assert (Hn : 0 < n) by (unfold n; destruct (pk_columns (delete_pk target)); [done|rewrite zlen_cons; pose proof (zlen_nonneg l); lia]).
  assert (Hlits : exists lits, mapM (MSSQLDeleteStatement.row_literals n) rows = Ok lits /\
    Forall2 (fun keys ls => mapM Serialize keys = Ok ls) rows lits).
  { clear Hne. induction Hg as [|keys rows [[_ (ls & Hls)] Hk] _ (lits & Hm & Hf)]; [by exists []|].
    assert (Hr : MSSQLDeleteStatement.row_literals n keys = Ok ls).
    { unfold MSSQLDeleteStatement.row_literals. by rewrite Hk, Z.eqb_refl. }
    exists (ls :: lits). split; [|by constructor]. cbn -[MSSQLDeleteStatement.row_literals]. rewrite Hr.
    cbn -[MSSQLDeleteStatement.row_literals]. by rewrite Hm. }
  destruct Hlits as (lits & Hm & Hf).
  destruct (key_rows n rows lits Hn) as (css & Hcss & Hd).
  { eapply Forall_impl; [exact Hg|]. intros keys [[? _] ?]. done. }
  { done. }
  cbn [build delete_operation]. unfold MSSQLDeleteStatement.Build. rewrite bool_decide_eq_false_2 by done. fold n. rewrite Hm. cbn [mbind res_bind].
  eexists. split; [reflexivity|]. split.
  - unfold IsValid. cbn [row_count sql]. rewrite bool_decide_eq_false_2 by done. apply andb_true_iff. split; [|done].
    destruct rows; [done|]. rewrite zlen_cons. pose proof (zlen_nonneg rows). lia.
  - cbn [sql]. exists css. split; [done|].
    rewrite <- (delete_read (delete_schema target) (delete_table target) (pk_names (delete_pk target)) lits css);
      [|by apply pk_names_nonempty|by intros ->; apply Forall2_nil_inv_r in Hd|done].
    f_equal. unfold MSSQLDeleteStatement.GenerateDeleteClause, MSSQLDeleteStatement.GenerateOnClause, bracketed_table.
    rewrite Delete_names, Delete_equations, !Delete_EscapeIdentifier_eq. rewrite <- !app_assoc. done.
Qed.

Lemma ExtractSingleRowPK_length rowid pk keys : ExtractSingleRowPK rowid pk = Ok keys -> zlen keys = zlen (pk_columns pk).
Proof.
  unfold ExtractSingleRowPK, IsScalar. destruct (exists_ pk); [|done]. cbn [negb andb orb].
  destruct (Z.eqb_spec (zlen (pk_columns pk)) 0); [done|]. destruct (Z.eqb_spec (zlen (pk_columns pk)) 1) as [E|?].
  - intros [= <-]. by rewrite E.
  - destruct rowid as [|children]; [done|]. destruct (Z.ltb_spec (zlen children) (zlen (pk_columns pk))); [done|].
    intros [= <-]. apply zlen_ztake. pose proof (zlen_nonneg (pk_columns pk)). lia.
Qed.

Lemma ExtractPKFromRowid_lengths c pk rows : ExtractPKFromRowid c pk = Ok rows -> Forall (fun keys => zlen keys = zlen (pk_columns pk)) rows.
Proof.
  unfold ExtractPKFromRowid. intros Hm%mapM_Ok. induction Hm as [|row keys c rows Hk _ IH]; constructor; [|done].
  apply bind_Ok in Hk as (rowid & _ & Hk). by eapply ExtractSingleRowPK_length.
Qed.

Lemma delete_adds {SV : Server} target :
  adds (Op := delete_operation target) (fun c => ExtractPKFromRowid c (delete_pk target)) (MSSQLDeleteExecutor_Execute target).
Proof.
  intros c rows x w x' w' Hrows Hf Hp. unfold MSSQLDeleteExecutor_Execute, not_finalized.
  rewrite (bind_run get _ (x, w) x (x, w) eq_refl), Hf.
  rewrite (bind_run (lift (ExtractPKFromRowid c (delete_pk target))) _ (x, w) rows (x, w)) by (unfold lift; by rewrite Hrows).
  by rewrite (bind_run _ _ _ _ _ Hp).
Qed.

(** ** UPDATE *)

(** A row: the key, and the new values. *)
Definition update_ok (target : MSSQLUpdateTarget) (row : list Value * list Value) : Prop :=
  Forall good_value row.1 /\ Forall good_value row.2 /\ zlen row.1 = zlen (pk_columns (update_pk target)) /\
  exists text, MSSQLUpdateStatement.build_row target row = Ok text.

Definition updates (target : MSSQLUpdateTarget) (rows : list (list Value * list Value)) (s : bytes) : Prop :=
  let names := pk_names (update_pk target) in
  let cols := MSSQLUpdateColumn.name <$> update_columns target in
  exists css, Forall2 (fun row cs => row_denotes (row.1 ++ row.2) cs) rows css /\
    parse_update s = Some (mkJoin ((fun n => (n, n)) <$> cols) (update_schema target, update_table target) css (names ++ cols) ((fun n => (n, n)) <$> names)).

Lemma numbered_literals {B} (f : Z -> Value -> res B) (g : Value -> res B) i vs ls :
  (forall i v l, f i v = Ok l -> g v = Ok l) -> MSSQLUpdateStatement.numbered f i vs = Ok ls -> Forall2 (fun v l => g v = Ok l) vs ls.
Proof.
  intros Hfg. revert i ls. induction vs as [|v vs IH]; intros i ls; cbn; [by intros [= <-]; constructor|].
  intros Hn. apply bind_Ok in Hn as (l & Hl & Hn). apply bind_Ok in Hn as (ls' & Hls & [= <-]). constructor; [by eapply Hfg|by eapply IH].
Qed.

(** A row's text is that of its literals. *)
Lemma join_mjoin sep (a b : list bytes) : a <> [] -> join sep a ++ mjoin ((fun l => sep ++ l) <$> b) = join sep (a ++ b).
Proof.
  induction a as [|x a IH]; [done|]. intros _. destruct a as [|y a].
  - cbn [app]. induction b as [|z b IHb] in x |- *; [cbn; by rewrite app_nil_r|]. cbn [fmap list_fmap mjoin list_join concat].
    rewrite join_cons. f_equal. rewrite <- app_assoc. f_equal. specialize (IHb z). by cbn in IHb.
  - cbn [app]. rewrite !join_cons. specialize (IH ltac:(done)). rewrite <- !app_assoc. do 2 f_equal. exact IH.
Qed.

Lemma build_row_literals target row text : 0 < zlen row.1 -> Forall good_value row.1 -> Forall good_value row.2 ->
  MSSQLUpdateStatement.build_row target row = Ok text ->
  exists ls cs, text = tx "  " ++ row_text ls /\ cs <> [] /\ Forall2 has_literal ls cs /\ row_denotes (row.1 ++ row.2) cs.
Proof.
  intros Hpos Hg1 Hg2 Hb. unfold MSSQLUpdateStatement.build_row in Hb.
  apply bind_Ok in Hb as (pks & Hp & Hb). apply bind_Ok in Hb as (ups & Hu & [= <-]).
  assert (Hps : Forall2 (fun v s => Serialize v = Ok s) row.1 pks).
  { apply (numbered_literals _ Serialize) in Hp; [done|]. intros i v l Hl. by apply bind_Ok in Hl as (? & _ & ?). }
  assert (Hus : Forall2 (fun v s => Serialize v = Ok s) row.2 ups).
  { apply (numbered_literals _ Serialize) in Hu; [done|]. intros i v l Hl. apply bind_Ok in Hl as (? & _ & Hl).
    apply bind_Ok in Hl as (l' & Hl' & Hx). by apply check_xml_Ok in Hx as ->. }
  destruct (Serialize_all (row.1 ++ row.2) (pks ++ ups)) as (cs & Hlit & Hd); [by apply Forall_app|by apply Forall2_app|].
  assert (Hne : pks <> []) by (intros ->; apply Forall2_nil_inv_r in Hps; destruct row.1; [by cbn in Hpos|done]).
  exists (pks ++ ups), cs. split_and!; [|..|done|done].
  - unfold row_text. rewrite <- join_mjoin by done. rewrite <- !app_assoc. done.
  - intros ->. apply Forall2_nil_inv_r in Hlit. by apply app_eq_nil in Hlit as [? _].
Qed.

Lemma update_rows_literals target rows texts : 0 < zlen (pk_columns (update_pk target)) -> Forall (update_ok target) rows ->
  Forall2 (fun row text => MSSQLUpdateStatement.build_row target row = Ok text) rows texts ->
  exists lits css, texts = (fun row => tx "  " ++ row_text row) <$> lits /\
    Forall2 (fun cs ls => cs <> [] /\ Forall2 has_literal ls cs) css lits /\ Forall2 (fun row cs => row_denotes (row.1 ++ row.2) cs) rows css.
Proof.
  intros Hpk Hok Ht. induction Ht as [|row text rows texts Hb _ IH]; [by exists [], []|].
  apply Forall_cons in Hok as [(Hg1 & Hg2 & Hl & _) Hok]. destruct (IH Hok) as (lits & css & -> & Hc & Hd).
  destruct (build_row_literals target row text ltac:(lia) Hg1 Hg2 Hb) as (ls & cs & -> & Hne & Hlit & Hden).
  exists (ls :: lits), (cs :: css). split_and!; [done|by constructor|by constructor].
Qed.

Lemma update_builds target : pk_columns (update_pk target) <> [] -> update_columns target <> [] ->
  builds (Op := update_operation target) (update_ok target) (updates target).
Proof.
  intros Hpk Hcols rows number Hne Hg.
  assert (Hn : 0 < zlen (pk_columns (update_pk target))) by (destruct (pk_columns (update_pk target)); [done|rewrite zlen_cons; pose proof (zlen_nonneg l); lia]).
  assert (Htexts : exists texts, mapM (MSSQLUpdateStatement.build_row target) rows = Ok texts).
  { clear Hne. induction Hg as [|row rows (_ & _ & _ & (t & Ht)) _ (ts & Hts)]; [by exists []|]. exists (t :: ts). cbn. rewrite Ht. cbn. by rewrite Hts. }
  destruct Htexts as (texts & Hm). pose proof Hm as Hm'. apply mapM_Ok in Hm'.
  destruct (update_rows_literals target rows texts Hn Hg Hm') as (lits & css & -> & Hc & Hd).
  cbn [build update_operation]. unfold MSSQLUpdateStatement.Build. rewrite bool_decide_eq_false_2 by done. rewrite Hm. cbn [mbind res_bind].
  eexists. split; [reflexivity|]. split.
  - unfold IsValid. cbn [row_count sql]. rewrite bool_decide_eq_false_2 by done. apply andb_true_iff. split; [|done].
    destruct rows; [done|]. rewrite zlen_cons. pose proof (zlen_nonneg rows). lia.
  - cbn [sql]. exists css. split; [done|]. set (names := pk_names (update_pk target)). set (cols := MSSQLUpdateColumn.name <$> update_columns target).
    rewrite <- (update_read (update_schema target) (update_table target) cols names lits css);
      [|unfold cols; by destruct (update_columns target)|by apply pk_names_nonempty|by intros ->; apply Forall2_nil_inv_r in Hd|done].
    f_equal. unfold MSSQLUpdateStatement.GenerateSetClause, MSSQLUpdateStatement.GenerateOnClause, MSSQLUpdateStatement.GenerateValuesColumnList.
    fold names cols. rewrite fmap_app, <- join_mjoin by (unfold names, pk_names; by destruct (pk_columns (update_pk target))).
    unfold cols at 3. rewrite <- !list_fmap_compose. unfold newline, compose. rewrite <- !app_assoc. done.
Qed.

Lemma update_rows_push {SV : Server} target c rows s :
  mapM (update_row target) c = Ok rows -> update_rows target c s = push_all (Op := update_operation target) rows s.
Proof.
  revert rows s. induction c as [|row c IH]; intros rows s Hm; [by injection Hm as <-|]. cbn in Hm.
  apply bind_Ok in Hm as (r & Hr & Hm). apply bind_Ok in Hm as (rs & Hrs & [= <-]). cbn [update_rows push_all].
  rewrite (bind_run (lift (update_row target row)) _ s r s) by (unfold lift; rewrite Hr; by destruct s).
  unfold mbind, E_bind. destruct (push r s) as [[[]| |] s1]; [|done|done]. by apply IH.
Qed.

Lemma update_adds {SV : Server} target :
  adds (Op := update_operation target) (mapM (update_row target)) (MSSQLUpdateExecutor_Execute target).
Proof.
  intros c rows x w x' w' Hrows Hf Hp. unfold MSSQLUpdateExecutor_Execute, not_finalized.
  rewrite (bind_run get _ (x, w) x (x, w) eq_refl), Hf.
  rewrite <- (update_rows_push target c rows (x, w) Hrows) in Hp. by rewrite (bind_run _ _ _ _ _ Hp).
Qed.
End Rows.

(** ** UPDATE and DELETE, from the chunks to the statements *)

(** C14. DELETE sends the key of every row once and in order: the statements are
    those of batches that together are the keys of all chunks, in one batch at
    the end or as they fill; each deletes from the target, by a join on its key
    columns, exactly the keys of its batch, and has at most the effective number
    of rows. The count is the sum of the counts answered. The server accepts, and
    the keys are values a literal can say ([good_value]). *)
Theorem Delete_sends_keys `{DuckDB} `{Values_} {SV : Server} target config defer chunks keyss w :
  accepting -> pk_columns (delete_pk target) <> [] ->
  1 <= MSSQLDMLConfig.EffectiveBatchSize config (zlen (pk_columns (delete_pk target))) ->
  Forall2 (fun c keys => ExtractPKFromRowid c (delete_pk target) = Ok keys) chunks keyss -> Forall (Forall key_ok) keyss ->
  exists_ (delete_pk target) = true ->
  exists x s' batches sent ns, MSSQLDeleteExecutor_new target config defer = Ok x /\
    dml_all (Op := delete_operation target) chunks (MSSQLDeleteExecutor_Execute target) (start x, w) = (Returns (Some (sum ns)), s') /\
    accepts w sent ns s'.2 /\ concat batches = concat keyss /\
    Forall2 (fun keys s => 1 <= zlen keys <= MSSQLDMLConfig.EffectiveBatchSize config (zlen (pk_columns (delete_pk target))) /\
      deletes target keys s) batches sent.
Proof.
  intros Ha Hpk Hl Hc Hk Hex. unfold MSSQLDeleteExecutor_new, MSSQLDeleteStatement.new. rewrite Hex. cbn [mbind res_bind].
  assert (Hg : Forall (Forall (fun keys => key_ok keys /\ zlen keys = zlen (pk_columns (delete_pk target)))) keyss).
  { clear -Hc Hk. induction Hc as [|c keys chunks keyss Hx _ IH]; constructor; apply Forall_cons in Hk as [Hk Hks]; [|by apply IH].
    apply Forall_and. split; [done|by eapply ExtractPKFromRowid_lengths]. }
  destruct (dml_all_run (Op := delete_operation target) _ (deletes target) _ Ha Hl (delete_builds target Hpk) _ _ (delete_adds target)
    (new config (zlen (pk_columns (delete_pk target))) defer) w chunks keyss) as (s' & bs & sent & ns & Hd & Hacc & Hcc & Hf); try done.
  by eexists _, s', bs, sent, ns.
Qed.

(** A table with a key of two columns. *)
Module SampleDelete.
Import SampleInsert.

Definition pk : PrimaryKeyInfo := mkPrimaryKeyInfo true [PKColumnInfo.mk (tx "id") integer; PKColumnInfo.mk (tx "na]me") text].
Definition target : MSSQLDeleteTarget := mkMSSQLDeleteTarget (tx "dbo") (tx "t") pk.
Definition config : MSSQLDMLConfig.t := MSSQLDMLConfig.mk 2 2000 true.

Definition keys (z : Z) (s : bytes) : list Value := [int z; str s].
Definition chunks : list dml_chunk := [[[Struct (keys 1 (tx "o'clock"))]; [Struct (keys 2 [])]; [Struct (keys (-3) (tx "'; --"))]]; []].
Definition all_keys : list (list (list Value)) := [[keys 1 (tx "o'clock"); keys 2 []; keys (-3) (tx "'; --")]; []].

Lemma keys_are_ok : Forall (Forall (key_ok (H := Checked.duckdb) (H0 := SampleValues.values))) all_keys.
Proof. repeat constructor; cbn; try lia; try done; by eexists; vm_compute. Qed.
End SampleDelete.

Lemma Delete_sends_keys_witness :
  exists x s' batches sent ns, MSSQLDeleteExecutor_new SampleDelete.target SampleDelete.config false = Ok x /\
    dml_all (Op := delete_operation (H := Checked.duckdb) (H0 := SampleValues.values) SampleDelete.target) (SV := LogServer.server) SampleDelete.chunks
      (MSSQLDeleteExecutor_Execute (H := Checked.duckdb) (H0 := SampleValues.values) SampleDelete.target) (start x, LogServer.start) = (Returns (Some (sum ns)), s') /\
    accepts LogServer.start sent ns s'.2 /\ concat batches = concat SampleDelete.all_keys /\
    Forall2 (fun keys s => 1 <= zlen keys <= 2 /\
      deletes (H := Checked.duckdb) (H0 := SampleValues.values) SampleDelete.target keys s) batches sent.
Proof.
  apply (Delete_sends_keys (H := Checked.duckdb) (H0 := SampleValues.values) (SV := LogServer.server)); try done.
  - exact LogServer.server_accepting.
  - by repeat constructor.
  - exact SampleDelete.keys_are_ok.
Defined.

(** C15. UPDATE sends the key and the new values of every row once and in order,
    in statements of at most the effective number of rows; each sets the target's
    updated columns, in the rows whose key columns match, to the values its batch
    has for them. The count is the sum of the counts answered. The server accepts,
    and the values are those a literal can say ([good_value]). *)
Theorem Update_sends_rows `{DuckDB} `{Values_} {SV : Server} target config defer chunks rowss w :
  accepting -> pk_columns (update_pk target) <> [] -> update_columns target <> [] ->
  1 <= MSSQLDMLConfig.EffectiveBatchSize config (zlen (pk_columns (update_pk target)) + zlen (update_columns target)) ->
  Forall2 (fun c rows => mapM (update_row target) c = Ok rows) chunks rowss -> Forall (Forall (update_ok target)) rowss ->
  exists s' batches sent ns,
    dml_all (Op := update_operation target) chunks (MSSQLUpdateExecutor_Execute target)
      (start (MSSQLUpdateExecutor_new target config defer), w) = (Returns (Some (sum ns)), s') /\
    accepts w sent ns s'.2 /\ concat batches = concat rowss /\
    Forall2 (fun rows s => 1 <= zlen rows <= MSSQLDMLConfig.EffectiveBatchSize config
        (zlen (pk_columns (update_pk target)) + zlen (update_columns target)) /\ updates target rows s) batches sent.
Proof.
  intros Ha Hpk Hcols Hl Hc Hg.
  exact (dml_all_run (Op := update_operation target) _ (updates target) _ Ha Hl (update_builds target Hpk Hcols) _ _ (update_adds target)
    (MSSQLUpdateExecutor_new target config defer) w chunks rowss eq_refl eq_refl eq_refl eq_refl Hc Hg).
Qed.

Module SampleUpdate.
Import SampleInsert.

Definition target : MSSQLUpdateTarget := mkMSSQLUpdateTarget (tx "dbo") (tx "t") SampleDelete.pk
  [MSSQLUpdateColumn.mk (tx "v") text (tx "xml") 0].
Definition chunks : list dml_chunk :=
  [[[Plain (str (tx "<a/>")); Struct (SampleDelete.keys 1 (tx "x"))]]; [[Plain (str (tx "it's")); Struct (SampleDelete.keys 2 (tx "y"))]]].
Definition all_rows : list (list (list Value * list Value)) :=
  [[(SampleDelete.keys 1 (tx "x"), [str (tx "<a/>")])]; [(SampleDelete.keys 2 (tx "y"), [str (tx "it's")])]].

Lemma updates_are_ok : Forall (Forall (update_ok (H := Checked.duckdb) (H0 := SampleValues.values) target)) all_rows.
Proof. repeat constructor; cbn; try lia; try done; by eexists; vm_compute. Qed.
End SampleUpdate.

Lemma Update_sends_rows_witness :
  exists s' batches sent ns,
    dml_all (Op := update_operation (H := Checked.duckdb) (H0 := SampleValues.values) SampleUpdate.target) (SV := LogServer.server) SampleUpdate.chunks
      (MSSQLUpdateExecutor_Execute (H := Checked.duckdb) (H0 := SampleValues.values) SampleUpdate.target)
      (start (MSSQLUpdateExecutor_new SampleUpdate.target SampleDelete.config true), LogServer.start) = (Returns (Some (sum ns)), s') /\
    accepts LogServer.start sent ns s'.2 /\ concat batches = concat SampleUpdate.all_rows /\
    Forall2 (fun rows s => 1 <= zlen rows <= 2 /\
      updates (H := Checked.duckdb) (H0 := SampleValues.values) SampleUpdate.target rows s) batches sent.
Proof.
  apply (Update_sends_rows (H := Checked.duckdb) (H0 := SampleValues.values) (SV := LogServer.server) SampleUpdate.target SampleDelete.config true); try done.
  - exact LogServer.server_accepting.
  - by repeat constructor.
  - exact SampleUpdate.updates_are_ok.
Defined.

(** With an effective batch size of zero a flush builds a batch of no rows. *)
Lemma FlushBatch_empty {Row} {Op : Operation Row} {SV : Server} x w batch :
  effective_batch_size x = 0 -> pending x <> [] -> build [] (batch_count x + 1) = Ok batch -> IsValid batch = false ->
  FlushBatch (x, w) = (Returns (Failure (tx "Failed to build " ++ operation ++ tx " batch") (batch_count x + 1)),
                       (set_batch_count (batch_count x + 1) (set_pending (pending x) x), w)).
Proof.
  intros Hz Hne Hb Hv. unfold FlushBatch. rewrite (bind_run get _ (x, w) x (x, w) eq_refl), bool_decide_eq_false_2 by done.
  rewrite Hz. replace (Z.min (zlen (pending x)) 0) with 0 by (pose proof (zlen_nonneg (pending x)); lia).
  change (zdrop 0 (pending x)) with (pending x). change (ztake 0 (pending x)) with (@nil Row).
  set (x1 := set_batch_count _ _). rewrite (bind_run (put x1) _ (x, w) tt (x1, w) eq_refl).
  rewrite (bind_run (lift (build [] (batch_count x + 1))) _ (x1, w) batch (x1, w)) by (unfold lift; by rewrite Hb). by rewrite Hv.
Qed.

(** When one row has more parameters than the configured maximum, the
    effective batch size is zero, and the first row makes DELETE throw without
    sending anything: the batch it builds is empty. *)
Theorem Delete_batch_size_zero `{DuckDB} `{Values_} {SV : Server} target config x w row rows :
  0 <= MSSQLDMLConfig.max_parameters config < zlen (pk_columns (delete_pk target)) -> 0 <= MSSQLDMLConfig.batch_size config ->
  MSSQLDeleteExecutor_new target config false = Ok x ->
  exists s, push_all (Op := delete_operation target) (row :: rows) (x, w) =
    (Throws (Exception (IOError (String.string_of_list_byte (tx "MSSQL DELETE failed: batch 1: Failed to build DELETE batch")))), s) /\ s.2 = w.
Proof.
  intros Hm Hb Hx. unfold MSSQLDeleteExecutor_new in Hx. apply bind_Ok in Hx as (t' & Ht & [= <-]).
  unfold MSSQLDeleteStatement.new in Ht. destruct (exists_ _); [|done]. injection Ht as <-.
  set (n := zlen (pk_columns (delete_pk target))) in *.
  assert (Hz : MSSQLDMLConfig.EffectiveBatchSize config n = 0).
  { unfold MSSQLDMLConfig.EffectiveBatchSize. destruct (Z.eqb_spec n 0); [lia|]. rewrite Z.div_small by lia. lia. }
  unfold new. rewrite Hz. set (x := mk 0 [] 0 0 false false). set (x1 := set_pending [row] x).
  pose proof (FlushBatch_empty (Op := delete_operation target) x1 w empty_batch eq_refl ltac:(done) eq_refl eq_refl) as Hf.
  exists (set_batch_count 1 (set_pending [row] x1), w). split; [|done]. cbn [push_all]. unfold mbind at 1, E_bind at 1. unfold push.
  rewrite (bind_run get _ (x, w) x (x, w) eq_refl). change (pending x ++ [row]) with [row]. fold x1.
  rewrite (bind_run (put x1) _ (x, w) tt (x1, w) eq_refl), (bind_run get _ (x1, w) x1 (x1, w) eq_refl).
  change (negb (defer_execution x1) && (effective_batch_size x1 <=? zlen (pending x1))) with true. cbv iota.
  by rewrite (bind_run _ _ _ _ _ Hf).
Qed.

Lemma Delete_batch_size_zero_witness :
  exists s, push_all (Op := delete_operation (H := Checked.duckdb) (H0 := SampleValues.values) SampleDelete.target) (SV := LogServer.server)
      [SampleDelete.keys 1 []] (MSSQLDMLExecutor.mk 0 [] 0 0 false false, LogServer.start) =
    (Throws (Exception (IOError (String.string_of_list_byte (tx "MSSQL DELETE failed: batch 1: Failed to build DELETE batch")))), s) /\ s.2 = LogServer.start.
Proof.
  apply (Delete_batch_size_zero (H := Checked.duckdb) (H0 := SampleValues.values) (SV := LogServer.server) SampleDelete.target (MSSQLDMLConfig.mk 2 1 true)).
  - by vm_compute.
  - by vm_compute.
  - reflexivity.
Defined.
