(* ===== verification/TokenEvents.v ===== *)
(** * The tokens of a message (about [TokenParser])

    The tokens a parser gives until it asks for more data are a list of events
    ([emits]). Every parser that does not throw emits exactly one list; feeding a
    message whole or in pieces gives the same events ([emits_feed]). *)

From S2P Require Import Prelude TdsTypes Utf16 ColumnMetadata RowReader TokenParser.

(** ** Events *)

Inductive event : Type :=
  | EColumns (cs : list ColumnMetadata) | ERow (row : RowData) | EDone (d : DoneToken) | EError (e : TdsError)
  | EInfo (i : TdsInfo) | EOther.

Definition event_of (t : ParsedTokenType.t) (p : TokenParser) : event :=
  match t with
  | ParsedTokenType.ColMetadata => EColumns (columns_ p)
  | ParsedTokenType.Row => ERow (current_row_ p)
  | ParsedTokenType.Done => EDone (current_done_ p)
  | ParsedTokenType.Error => EError (current_error_ p)
  | ParsedTokenType.Info => EInfo (current_info_ p)
  | _ => EOther
  end.

Lemma event_of_rest t p q : rest p = rest q -> event_of t p = event_of t q.
Proof. unfold rest. intros [=]. destruct t; cbn; congruence. Qed.

(** *** What a call of the parser keeps *)

Definition modes (p : TokenParser) : bool * bool := (skip_rows_ p, raw_row_mode_ p).

Lemma modes_rest p q : rest p = rest q -> modes p = modes q.
Proof. unfold rest, modes. intros [=]. congruence. Qed.

Lemma modes_Consume n p : modes (ConsumeBytes n p) = modes p.
Proof. apply modes_rest, rest_ConsumeBytes. Qed.

Lemma state_Consume n p : state_ (ConsumeBytes n p) = state_ p.
Proof. pose proof (rest_ConsumeBytes n p) as E. unfold rest in E. congruence. Qed.

Lemma done_Consume n p : current_done_ (ConsumeBytes n p) = current_done_ p.
Proof. pose proof (rest_ConsumeBytes n p) as E. unfold rest in E. congruence. Qed.

Section Tokens.
Context {Si : Simdutf}.

(** A token function keeps the modes. *)
Definition keeps_modes (m : res (bool * TokenParser)) (p : TokenParser) : Prop := forall b p', m = Ok (b, p') -> modes p' = modes p.

Lemma ParseColMetadata_modes p : keeps_modes (ParseColMetadata p) p.
Proof.
  intros b p'. unfold ParseColMetadata. destruct (_ <? _); [by intros [= _ <-]|].
  destruct (Parse _) as [cs [[n|]|e|]]; intros [= <- <-]; try done. exact (modes_Consume (1 + n) (set_columns cs (ResolveSkipForm <$> cs) p)).
Qed.

Lemma parse_row_modes nbc p : keeps_modes (parse_row nbc p) p.
Proof.
  intros b p'. unfold parse_row. case_bool_decide; [by intros [= _ <-]|]. destruct (_ <? 1); [by intros [= _ <-]|]. cbv zeta.
  destruct (skip_rows_ p) eqn:Es; [|destruct (raw_row_mode_ p) eqn:Er].
  - intros ([n|] & _ & Hr)%bind_Ok; simplify_eq; [apply modes_Consume|done].
  - intros ([n|] & _ & Hr)%bind_Ok; by simplify_eq.
  - match goal with |- match ?m with _ => _ end = _ -> _ => destruct m as [[[n row]|]| |] end; intros [= <- <-]; try done.
    exact (modes_Consume _ _).
Qed.

Lemma ParseDone_modes p : keeps_modes (ParseDone p) p.
Proof.
  intros b p'. unfold ParseDone. destruct (_ <? _); [by intros [= _ <-]|].
  intros (st & _ & E)%bind_Ok. apply bind_Ok in E as (cmd & _ & E). apply bind_Ok in E as (rc & _ & E).
  injection E as _ <-. destruct (IsFinal _); exact (modes_Consume _ _).
Qed.

Lemma short_modes p f : (forall n, keeps_modes (f n) p) ->
  keeps_modes (if Available p <? 3 then Ok (false, p) else
         token_length ← get16le (Current p) 1;
         if Available p <? 3 + token_length then Ok (false, p) else f token_length) p.
Proof.
  intros Hf b p'. destruct (_ <? 3); [by intros [= _ <-]|]. intros (n & _ & E)%bind_Ok.
  destruct (_ <? _); [by injection E as _ <-|by apply (Hf n b)].
Qed.

Lemma ParseError_modes p : keeps_modes (ParseError p) p.
Proof.
  apply short_modes. intros n b p'. destruct (n <? 6); [by intros [= _ <-]|]. intros ([ok e] & _ & E)%bind_Ok. destruct ok; injection E as _ <-; [exact (modes_Consume _ _)|done].
Qed.

Lemma ParseInfo_modes p : keeps_modes (ParseInfo p) p.
Proof.
  apply short_modes. intros n b p'. destruct (n <? 6); [by intros [= _ <-]|]. intros ([ok e] & _ & E)%bind_Ok. destruct ok; injection E as _ <-; [exact (modes_Consume _ _)|done].
Qed.

Lemma ParseEnvChange_modes p : keeps_modes (ParseEnvChange p) p.
Proof. apply short_modes. intros n b p' [= _ <-]. exact (modes_Consume _ _). Qed.

Lemma ParseDone_final p p' : ParseDone p = Ok (true, p') -> IsFinal (current_done_ p') = true -> state_ p' = ParserState.Complete.
Proof.
  unfold ParseDone. destruct (_ <? _); [done|]. intros (st & _ & E)%bind_Ok. apply bind_Ok in E as (cmd & _ & E). apply bind_Ok in E as (rc & _ & E).
  injection E as <-. destruct (IsFinal (mkDoneToken st cmd rc)) eqn:Ef; [done|]. rewrite done_Consume. cbn. by rewrite Ef.
Qed.

(** A returning turn. *)
Definition answer_ok (p : TokenParser) (t : ParsedTokenType.t) (p' : TokenParser) : Prop :=
  modes p' = modes p /\
  (t = ParsedTokenType.None -> state_ p' = ParserState.Error) /\
  (t = ParsedTokenType.Done -> IsFinal (current_done_ p') = true -> state_ p' = ParserState.Complete).

Lemma answer_ok_token p t m t' p' :
  t <> ParsedTokenType.None -> keeps_modes m p ->
  (t = ParsedTokenType.Done -> forall q, m = Ok (true, q) -> IsFinal (current_done_ q) = true -> state_ q = ParserState.Complete) ->
  returns (token m t) = Ok (Return t' p') -> answer_ok p t' p'.
Proof.
  intros Hn Hk Hd E. destruct m as [[[] q]| |]; try done; injection E as <- <-; (split; [by eapply Hk|]); split; try done.
  intros ->. by apply Hd.
Qed.

Lemma parse_turn_answer p t p' : parse_turn p = Ok (Return t p') -> answer_ok p t p'.
Proof.
  unfold parse_turn. case_bool_decide; [by intros [= <- <-]|]. destruct (_ <? 1); [by intros [= <- <-]|].
  intros (ty & _ & E)%bind_Ok.
  destruct (ty =? _); [apply (answer_ok_token p ParsedTokenType.ColMetadata (ParseColMetadata p)); [done|apply ParseColMetadata_modes|done|exact E]|].
  destruct (ty =? _); [apply (answer_ok_token p ParsedTokenType.Row (ParseRow p)); [done|apply parse_row_modes|done|exact E]|].
  destruct (ty =? _); [apply (answer_ok_token p ParsedTokenType.Row (ParseNBCRow p)); [done|apply parse_row_modes|done|exact E]|].
  destruct (is_one_of ty _); [apply (answer_ok_token p ParsedTokenType.Done (ParseDone p)); [done|apply ParseDone_modes|intros _; apply ParseDone_final|exact E]|].
  destruct (ty =? _); [apply (answer_ok_token p ParsedTokenType.Error (ParseError p)); [done|apply ParseError_modes|done|exact E]|].
  destruct (ty =? _); [apply (answer_ok_token p ParsedTokenType.Info (ParseInfo p)); [done|apply ParseInfo_modes|done|exact E]|].
  destruct (ty =? _); [apply (answer_ok_token p ParsedTokenType.EnvChange (ParseEnvChange p)); [done|apply ParseEnvChange_modes|done|exact E]|].
  destruct (is_one_of ty _); [|destruct (ty =? _)].
  - destruct (_ <? 3); [by injection E as <- <-|]. apply bind_Ok in E as (n & _ & E). cbv zeta in E. by destruct (_ <? _); simplify_eq.
  - destruct (_ <? 5); [by injection E as <- <-|]. apply bind_Ok in E as (n & _ & E). cbv zeta in E. by destruct (_ <? _); simplify_eq.
  - by injection E as <- <-.
Qed.

Lemma parse_loop_answer f p t p' : parse_loop f p = Ok (t, p') -> answer_ok p t p'.
Proof.
  revert p. induction f as [|f IH]; intros p; [done|]. cbn [parse_loop]. intros (r & Er & E)%bind_Ok. destruct r as [t1 q|q].
  - injection E as -> ->. by apply parse_turn_answer.
  - destruct (IH q E) as [Hm Ht]. split; [|done]. rewrite Hm. by apply modes_rest, Continue_rest.
Qed.

Lemma TryParseNext_answer p t p' : TryParseNext p = Ok (t, p') -> answer_ok p t p'.
Proof.
  rewrite TryParseNext_settle. intros [Hm Ht]%parse_loop_answer. split; [|done]. rewrite Hm. apply modes_rest, rest_settle.
Qed.
End Tokens.

(** ** The tokens of a parser *)

Section Emits.
Context {Si : Simdutf}.

Inductive emits : TokenParser -> list event -> TokenParser -> Prop :=
  | emits_end p p' : TryParseNext p = Ok (ParsedTokenType.NeedMoreData, p') -> emits p [] p'
  | emits_token p t p1 es p' : t <> ParsedTokenType.NeedMoreData -> TryParseNext p = Ok (t, p1) -> emits p1 es p' ->
      emits p (event_of t p1 :: es) p'.

Lemma emits_inv p es p' : emits p es p' ->
  (es = [] /\ TryParseNext p = Ok (ParsedTokenType.NeedMoreData, p')) \/
  (exists t p1 es1, es = event_of t p1 :: es1 /\ t <> ParsedTokenType.NeedMoreData /\ TryParseNext p = Ok (t, p1) /\ emits p1 es1 p').
Proof. intros [q q' E|q t q1 es1 q' Ht E H]; [by left|right]. by exists t, q1, es1. Qed.

(** A parser that reads rows: it never throws. *)
Definition reading_rows (p : TokenParser) : Prop := parser_ok p /\ modes p = (false, false).

Definition measure (p : TokenParser) : nat := if decide (final_state p) then O else Datatypes.S (length (unread p)).

Lemma TryParseNext_at_end p : final_state p -> TryParseNext p = Ok (ParsedTokenType.NeedMoreData, settle p).
Proof.
  intros Hf. rewrite TryParseNext_settle. cbn [parse_loop]. unfold parse_turn.
  rewrite bool_decide_eq_true_2; [done|]. pose proof (rest_settle p) as E. unfold rest in E. injection E as -> _. exact Hf.
Qed.

Lemma reading_rows_next p : reading_rows p -> exists t p', TryParseNext p = Ok (t, p') /\ reading_rows p' /\
  (t <> ParsedTokenType.NeedMoreData -> (measure p' < measure p)%nat) /\ (t = ParsedTokenType.NeedMoreData -> pending_consume_ p' = 0).
Proof.
  intros [Hok Hm]. pose proof (TryParseNext_post p Hok) as Hpost. pose proof (TryParseNext_throws p Hok) as Hth.
  destruct (TryParseNext p) as [[t p']|e|] eqn:E; [|exfalso|done].
  2: { destruct Hth as [_ Hs]. unfold modes in Hm. injection Hm as Hs1 Hs2. by rewrite Hs1, Hs2 in Hs. }
  destruct Hpost as (Hok' & n & Hn & Hu & Hret & Hpend). destruct (TryParseNext_answer p t p' E) as (Hm' & Hnone & _).
  exists t, p'. split; [done|]. split; [split; [done|by rewrite Hm']|]. split.
  - intros Ht. assert (Hf : ~ final_state p) by (intros Hf; rewrite (TryParseNext_at_end p Hf) in E; congruence).
    unfold measure. rewrite (decide_False (P := final_state p)) by done. destruct (decide (final_state p')); [lia|].
    destruct (decide (t = ParsedTokenType.None)) as [Et|Ht']; [exfalso; apply n0; right; by apply Hnone|].
    assert (Hpos : 0 < n) by (apply Hret; by destruct t). apply (f_equal zlen) in Hu. rewrite zlen_zdrop in Hu by lia. unfold zlen in *. lia.
  - intros ->. by apply Hpend.
Qed.

Lemma emits_total p : reading_rows p -> exists es p', emits p es p' /\ reading_rows p' /\ pending_consume_ p' = 0.
Proof.
  remember (measure p) as n eqn:En. revert p En. induction (lt_wf n) as [n _ IH]. intros p -> Hp.
  destruct (reading_rows_next p Hp) as (t & p1 & E & Hp1 & Hm & Hpend).
  destruct (decide (t = ParsedTokenType.NeedMoreData)) as [Et|Ht].
  - subst t. exists [], p1. split; [by constructor|]. split; [done|by apply Hpend].
  - destruct (IH _ (Hm Ht) p1 eq_refl Hp1) as (es & p' & He & Hp'). exists (event_of t p1 :: es), p'. split; [by eapply emits_token|done].
Qed.

Lemma emits_det p es p' es' q : emits p es p' -> emits p es' q -> es = es' /\ p' = q.
Proof.
  intros H. revert es' q. induction H as [p p' E|p t p1 es p' Ht E H IH]; intros es' q H'.
  - inversion H' as [? ? E'|? t' ? ? ? Ht' E' ?]; subst; rewrite E in E'; by simplify_eq.
  - inversion H' as [? ? E'|? t' ? ? ? Ht' E' H1]; subst; rewrite E in E'; simplify_eq. by destruct (IH _ _ H1) as [-> ->].
Qed.

Lemma emits_final p : final_state p -> emits p [] (settle p).
Proof. intros Hf. constructor. by apply TryParseNext_at_end. Qed.

Lemma same_sym p q : same p q -> same q p.
Proof.
  intros [? ? Hc Hr Hp Hw]. constructor; try done; [by rewrite app_nil_r in Hc |- *|]. intros H. symmetry. apply Hw. by rewrite Hp.
Qed.

Lemma same_modes p q : same p q -> modes p = modes q.
Proof. intros Hs. apply modes_rest, Hs. Qed.

Lemma same_reading p q : same p q -> reading_rows p -> reading_rows q.
Proof. intros Hs [Hok Hm]. split; [by eapply grow_ok|by rewrite <- (same_modes p q)]. Qed.

Lemma emits_same p es p' q : emits p es p' -> same p q -> parser_ok p -> exists q', emits q es q' /\ same p' q'.
Proof.
  intros H. revert q. induction H as [p p' E|p t p1 es p' Ht E H IH]; intros q Hs Hok;
    pose proof (TryParseNext_stable [] p q Hs Hok) as Hst; rewrite E in Hst; destruct (Hst ltac:(by right)) as (q1 & E1 & Hs1).
  - exists q1. split; [by constructor|done].
  - pose proof (TryParseNext_post p Hok) as Hpost. rewrite E in Hpost. destruct Hpost as [Hok1 _].
    destruct (IH q1 Hs1 Hok1) as (q' & He & Hq). exists q'. split; [|done].
    rewrite (event_of_rest t p1 q1) by apply Hs1. by eapply emits_token.
Qed.

Lemma emits_reading p es p' : emits p es p' -> reading_rows p -> reading_rows p' /\ pending_consume_ p' = 0.
Proof.
  intros He Hp. destruct (emits_total p Hp) as (es2 & p2 & He2 & Hp2). by destruct (emits_det _ _ _ _ _ He He2) as [_ ->].
Qed.

Lemma Feed_nil p : Feed [] p = p.
Proof. destruct p. unfold Feed. cbn. by rewrite app_nil_r. Qed.

Lemma reading_Feed d p : reading_rows p -> reading_rows (Feed d p).
Proof. intros [Hok Hm]. split; [by apply ok_Feed|done]. Qed.

Lemma settle_none p : pending_consume_ p = 0 -> settle p = p.
Proof. intros E. unfold settle. by rewrite E. Qed.

(** The tokens of the whole are those of the pieces. *)
Lemma emits_feed d p es p1 es' p2 : reading_rows p -> emits p es p1 -> emits (Feed d p1) es' p2 ->
  exists q, emits (Feed d p) (es ++ es') q /\ same p2 q.
Proof.
  intros Hp H. revert es' p2. induction H as [p p1 E|p t p0 es p1 Ht E H IH]; intros es' p2 H2; pose proof Hp as [Hok Hm];
    pose proof (TryParseNext_post p Hok) as Hpost; rewrite E in Hpost; destruct Hpost as (Hok' & n & _ & _ & _ & Hpend);
    pose proof (TryParseNext_stable d p (Feed d p) (grow_Feed d p (ok_pos p Hok)) Hok) as Hst; rewrite E in Hst.
  - cbn [app]. specialize (Hpend eq_refl).
    assert (Hsame : forall q, grow d p1 q -> same (Feed d p1) q).
    { intros q Hq. eapply grow_same; [by apply grow_Feed, Hok'|done]. }
    destruct (decide (final_state p1)) as [Hf|Hf].
    + destruct (Hst) as (q & Eq & Hq); [left; by intros [_ ?]|].
      assert (Hff : final_state (Feed d p1)) by done.
      pose proof (emits_final _ Hff) as He. rewrite settle_none in He by done.
      destruct (emits_det _ _ _ _ _ H2 He) as [-> ->]. exists q. split; [by constructor|by apply Hsame].
    + pose proof (TryParseNext_retry d p p1 _ _ E Hf Hok (grow_Feed d p (ok_pos p Hok)) (grow_Feed d p1 (ok_pos p1 Hok'))) as Hr.
      destruct (reading_rows_next (Feed d p)) as (t & a & Ea & Ha & _); [by apply reading_Feed|].
      rewrite Ea in Hr. destruct Hr as (b & Eb & Hb); [by right|]. apply same_sym in Hb as Hba.
      destruct (emits_inv _ _ _ H2) as [[-> E']|(t' & p3 & es3 & -> & Ht' & E' & H3)]; rewrite Eb in E'; simplify_eq.
      * exists a. split; [by constructor|done].
      * assert (Hb2 : parser_ok p3) by (eapply grow_ok; [exact Hb|apply Ha]).
        destruct (emits_same _ _ _ a H3 Hba Hb2) as (q' & Hq' & Hsq).
        exists q'. split; [|done]. rewrite (event_of_rest _ p3 a) by (symmetry; apply Hb). by eapply emits_token.
  - destruct (Hst) as (q & Eq & Hq); [left; by intros [? _]|].
    assert (Hs : same (Feed d p0) q) by (eapply grow_same; [by apply grow_Feed, Hok'|done]).
    assert (Hp0 : reading_rows p0).
    { split; [done|]. exact (eq_trans (proj1 (TryParseNext_answer p _ p0 E)) Hm). }
    destruct (IH Hp0 es' p2 H2) as (q0 & Hq0 & Hsame0).
    destruct (emits_same _ _ _ q Hq0 Hs) as (q1 & Hq1 & Hsame1); [by apply ok_Feed|].
    exists q1. split; [|by eapply same_trans]. cbn [app].
    rewrite (event_of_rest t p0 q) by apply Hq. by eapply emits_token.
Qed.

(** A final DONE ends the tokens. *)
Definition is_final (e : event) : bool := match e with EDone d => IsFinal d | _ => false end.

Lemma emits_is_final p es p' : emits p es p' -> existsb is_final es = true -> final_state p' /\ exists es0 e, es = es0 ++ [e] /\ is_final e = true.
Proof.
  induction 1 as [p p' E|p t p1 es p' Ht E H IH]; [done|]. cbn [existsb]. intros Hf.
  destruct (is_final (event_of t p1)) eqn:Ef; cbn [orb] in Hf.
  - destruct (TryParseNext_answer p t p1 E) as (_ & _ & Hd).
    assert (Hs : final_state p1) by (left; destruct t; try done; by apply Hd).
    destruct (emits_det _ _ _ _ _ H (emits_final p1 Hs)) as [-> ->]. split; [|by exists [], (event_of t p1)].
    pose proof (rest_settle p1) as E2. unfold rest in E2. injection E2 as E2 _. unfold final_state. by rewrite E2.
  - destruct (IH Hf) as (? & es0 & e & -> & ?). split; [done|]. by exists (event_of t p1 :: es0), e.
Qed.
End Emits.

(** The bytes a token can start with. *)
Definition token_types : list Z :=
  [TokenType.COLMETADATA; TokenType.ROW; TokenType.NBCROW; TokenType.DONE; TokenType.DONEPROC; TokenType.DONEINPROC;
   TokenType.ERROR_TOKEN; TokenType.INFO; TokenType.ENVCHANGE; TokenType.FEDAUTHINFO; TokenType.SSPI] ++ skipped_types.

Lemma emits_unknown {Si : Simdutf} b m : b2z b ∉ token_types -> exists p', emits (Feed (b :: m) TokenParser_new) [EOther] p'.
Proof.
  intros Hb. set (p := Feed (b :: m) TokenParser_new).
  assert (E : TryParseNext p = Ok (ParsedTokenType.None, set_state ParserState.Error (set_parse_error (UnknownTokenType (b2z b)) p))).
  { rewrite TryParseNext_settle. change (settle p) with p. cbn [parse_loop]. unfold parse_turn.
    rewrite bool_decide_eq_false_2 by by intros [?|?]. change (Available p) with (zlen (b :: m)).
    rewrite zlen_cons. pose proof (zlen_nonneg m). replace (1 + zlen m <? 1) with false by lia.
    change (Current p) with (b :: m). change (get8 (b :: m) 0) with (Ok (b2z b)). cbn [mbind res_bind].
    assert (Hne : forall t, t ∈ token_types -> (b2z b =? t) = false) by (intros t Ht; apply Z.eqb_neq; intros E; rewrite E in Hb; done).
    assert (Hnl : forall l, l ⊆ token_types -> is_one_of (b2z b) l = false).
    { intros l Hl. unfold is_one_of. apply not_true_is_false. intros (t & Ht & E)%existsb_exists.
      apply Hb. apply Z.eqb_eq in E. rewrite E. apply Hl. by apply list_elem_of_In. }
    repeat match goal with
    | |- context [b2z b =? ?t] => rewrite (Hne t) by (unfold token_types, skipped_types; set_solver)
    | |- context [is_one_of (b2z b) ?l] => rewrite (Hnl l) by (unfold token_types, skipped_types; set_solver)
    end. done. }
  eexists. eapply (emits_token p ParsedTokenType.None); [done|exact E|]. apply emits_final. by right.
Qed.
