(* ===== verification/Query.v ===== *)
(** * Statements and their responses (src/src/query/mssql_simple_query.cpp and
    the [ExecuteBatch] of the INSERT, UPDATE and DELETE executors)

    A statement is sent on a connection and its response read packet by packet;
    each packet's payload is fed to a token parser, whose tokens are handled as
    they come. [token_loop] and [packet_loop] are the two loops, on a state [St]
    and with what the callers do at a token, at the deadline and when no packet
    comes. [MSSQLSimpleQuery] collects rows as text; [Statement] reads the row
    count or the error of a DML statement, and is the [Server] of one connection.

    Error texts that quote the connection's or the socket's last error keep the
    error; [conn_text] and [sock_text] are its wording. The rows of a result are
    returned beside it. The text of a NaN is [nan] whatever its sign. *)

From S2P Require Import Prelude Sql Literals Dml Values TdsTypes Utf16 Packet Socket ColumnMetadata RowReader TokenParser Protocol LoginResponse Connection.

(** ** The row count or the error of a statement *)

Module Statement.
Record t : Type := mk { rows_affected : Z; error_number : Z; error_message : bytes; done : bool }.

Definition start : t := mk 0 0 [] false.

Definition on_done (d : DoneToken) (x : t) : t :=
  mk (if HasRowCount d then row_count d else rows_affected x) (error_number x) (error_message x) (IsFinal d || done x).

Definition on_error (e : TdsError) (x : t) : t := mk (rows_affected x) (number e) (message e) (done x).

Definition answered (x : t) : answer Z :=
  match error_message x with [] => Answered (rows_affected x) 0 | m => Refused (error_number x) m end.
End Statement.

(** ** Text of a value *)

Module Simple.
Section Text.
Context {Si : Simdutf}.

(** [std::to_string] of a floating-point number: [%f]. *)
Definition fixed6 (n : Float.number) : bytes :=
  match n with
  | Float.NaN => tx "nan"
  | Float.Infinity negative => if negative then tx "-inf" else tx "inf"
  | Float.Finite negative m e =>
      let units := Float.scaled m e (-6) in
      (if negative then [DASH] else []) ++ numeral (units / 1000000) ++ tx "." ++ padded 6 (numeral (units mod 1000000))
  end.

(** [memcpy] into an integer: little endian. *)
Fixpoint little (value : bytes) : Z := match value with [] => 0 | b :: value => b2z b + 256 * little value end.

Definition ConvertValueToString (value : bytes) (column : ColumnMetadata) : bytes :=
  match value with
  | [] => []
  | _ =>
      let t := type_id column in
      let n := zlen value in
      if is_one_of t [TDS_TYPE_NVARCHAR; TDS_TYPE_NCHAR; TDS_TYPE_NTEXT] then Utf16LEDecode value
      else if is_one_of t [TDS_TYPE_BIGVARCHAR; TDS_TYPE_BIGCHAR; TDS_TYPE_TEXT] then value
      else if is_one_of t [TDS_TYPE_INTN; TDS_TYPE_TINYINT; TDS_TYPE_SMALLINT; TDS_TYPE_INT; TDS_TYPE_BIGINT] then
        if n =? 1 then std_to_string (little value)
        else if is_one_of n [2; 4; 8] then std_to_string (sx (8 * n) (little value))
        else []
      else if is_one_of t [TDS_TYPE_BIT; TDS_TYPE_BITN] then
        (match value with b :: _ => if b2z b =? 0 then tx "0" else tx "1" | [] => tx "0" end)
      else if is_one_of t [TDS_TYPE_FLOATN; TDS_TYPE_REAL; TDS_TYPE_FLOAT] then
        if n =? 4 then fixed6 (Float.binary32 (little value))
        else if n =? 8 then fixed6 (Float.binary64 (little value))
        else []
      else []
  end.

(** [null_mask[i]] first, then the value in the column's type. *)
Fixpoint row_values (vs : list bytes) (nulls : list bool) (columns : list ColumnMetadata) : list bytes :=
  match vs with
  | [] => []
  | v :: vs =>
      (match nulls, columns with
       | true :: _, _ => []
       | _, c :: _ => ConvertValueToString v c
       | _, [] => []
       end) :: row_values vs (tail nulls) (tail columns)
  end.
End Text.
End Simple.

Section Query.
Context {T : Transport} {Si : Simdutf} {Au : Authenticator}.
Context (fuel : nat) (now : net -> Z) (conn_text : conn_error -> bytes) (sock_text : sock_error -> bytes).

Definition never {A} : M A := fun c => (Undefined, c).

(** [socket->ReceivePacket(packet, timeout)]. *)
Definition ReceivePacket (timeout_ms : Z) : M (option TdsPacket) := fun c =>
  match Socket.ReceivePacket TdsPacket_default timeout_ms (socket_ c) with
  | Ok (APacket p, s) => (Returns (Some p), set_socket s c)
  | Ok (NoPacket, s) => (Returns None, set_socket s c)
  | Ok (PacketThrows e, s) => (Throws e, set_socket s c)
  | Exn e => (Throws e, c)
  | Oob => (Undefined, c)
  end.

Definition ClearReceiveBuffer : M unit := modify (fun c => set_socket (Socket.ClearReceiveBuffer (socket_ c)) c).

Definition clock : M Z := c ← get; mret (now (net_ (socket_ c))).

(** Give the statement up. *)
Definition cancel : M unit := _ ← SendAttention fuel; _ ← WaitForAttentionAck fuel now 5000; mret tt.

Definition leave_executing (to : ConnectionState) : M unit := _ ← TransitionState Executing to; mret tt.

(** ** The loops *)

Section Loops.
Context {St R : Type}.
(** What a token does; [true] to stop reading. *)
Context (on_token : ParsedTokenType.t -> TokenParser -> St -> M (bool * St)).
(** Before a packet: the time to wait for it, or the result. *)
Context (before : St -> M (Z + R)).
(** No packet came; a token stopped the reading. *)
Context (no_packet : St -> M R) (finish : St -> R) (is_done : St -> bool).

Fixpoint token_loop (turns : nat) (p : TokenParser) (st : St) : M (bool * TokenParser * St) :=
  match turns with
  | O => never
  | S turns =>
      '(t, p) ← lift (TryParseNext p);
      if decide (t = ParsedTokenType.NeedMoreData) then mret (false, p, st) else
      '(stop, st) ← on_token t p st;
      if (stop : bool) then mret (true, p, st) else token_loop turns p st
  end.

(** Each token takes a byte, or ends the parsing. *)
Definition token_turns (p : TokenParser) : nat := S (S (length (buffer_ p))).

Definition feed (payload : bytes) (p : TokenParser) : TokenParser :=
  match payload with [] => p | _ => Feed payload p end.

Fixpoint packet_loop (turns : nat) (p : TokenParser) (st : St) : M R :=
  match turns with
  | O => fun c => (Running, c)
  | S turns =>
      b ← before st;
      match b with
      | inr r => mret r
      | inl recv_timeout =>
          packet ← ReceivePacket recv_timeout;
          match packet with
          | None => no_packet st
          | Some packet =>
              let p := feed (payload_ packet) p in
              '(stop, p, st) ← token_loop (token_turns p) p st;
              if (stop : bool) then mret (finish st)
              else if is_done st then mret (finish st)
              else if IsEndOfMessage packet then _ ← leave_executing Idle; mret (finish st)
              else packet_loop turns p st
          end
      end
  end.
End Loops.

(** ** A DML statement (ExecuteBatch of the three executors) *)

Definition statement_token (t : ParsedTokenType.t) (p : TokenParser) (x : Statement.t) : M (bool * Statement.t) :=
  match t with
  | ParsedTokenType.Done =>
      _ ← (if IsFinal (current_done_ p) then leave_executing Idle else mret tt);
      mret (false, Statement.on_done (current_done_ p) x)
  | ParsedTokenType.Error => mret (false, Statement.on_error (current_error_ p) x)
  | _ => mret (false, x)
  end.

Definition STATEMENT_TIMEOUT_MS : Z := 30000.

Definition statement_before (deadline : Z) (_ : Statement.t) : M (Z + answer Z) :=
  n ← clock;
  if deadline <=? n then _ ← cancel; mret (inr (Broken "execution timeout"))
  else mret (inl (Z.min (deadline - n) STATEMENT_TIMEOUT_MS)).

Definition statement_no_packet (_ : Statement.t) : M (answer Z) :=
  mret (Broken "Failed to receive TDS packet").

(** [catch (const std::exception &)]. *)
Definition caught (m : M (answer Z)) : M (answer Z) := fun c =>
  match m c with
  | (Throws e, c) => (Returns (Broken "execution failed"), c)
  | r => r
  end.

(** From the connection's acquisition to its release. *)
Definition statement (sql : bytes) : M (answer Z) :=
  caught (
    _ ← ClearReceiveBuffer;
    sent ← ExecuteBatch fuel sql;
    if negb sent then c ← get; mret (NotSent (conn_text (last_error_ c))) else
    n ← clock;
    packet_loop statement_token (statement_before (n + STATEMENT_TIMEOUT_MS)) statement_no_packet
      Statement.answered Statement.done fuel TokenParser_new Statement.start).

(** ** MSSQLSimpleQuery *)

Inductive query_error : Type :=
  | NoQueryError
  | ServerSaid (message : bytes)
  | NotIdle
  | NotSentError (e : conn_error)
  | QueryTimeout
  | NotReceived (e : sock_error).

Record SimpleQueryResult : Type := mkSimpleQueryResult {
  success : bool;
  error_message : query_error;
  error_number : Z;
  column_names : list bytes;
  rows_affected : Z
}.

Definition new_result : SimpleQueryResult := mkSimpleQueryResult true NoQueryError 0 [] 0.

Definition failed (e : query_error) (r : SimpleQueryResult) : SimpleQueryResult :=
  mkSimpleQueryResult false e (error_number r) (column_names r) (rows_affected r).

Section Callback.
(** The callback and what it keeps; [false] stops. *)
Context {Cb : Type} (callback : list bytes -> Cb -> bool * Cb).

Record reading : Type := mkReading { result : SimpleQueryResult; columns : list ColumnMetadata; kept : Cb; done : bool }.

Definition query_columns (cs : list ColumnMetadata) (x : reading) : reading :=
  let r := result x in
  mkReading (mkSimpleQueryResult (success r) (error_message r) (error_number r) (ColumnMetadata.name <$> cs) (rows_affected r))
    cs (kept x) (done x).

Definition query_done (d : DoneToken) (x : reading) : reading :=
  let r := result x in
  mkReading (mkSimpleQueryResult (success r) (error_message r) (error_number r) (column_names r)
               (if HasRowCount d then sx 64 (row_count d) else rows_affected r))
    (columns x) (kept x) (IsFinal d || done x).

Definition query_failed (e : TdsError) (x : reading) : reading :=
  let r := result x in
  mkReading (mkSimpleQueryResult false (ServerSaid (message e)) (number e) (column_names r) (rows_affected r))
    (columns x) (kept x) (done x).

Definition query_row (row : RowData) (x : reading) : bool * reading :=
  let '(go_on, k) := callback (Simple.row_values (values row) (null_mask row) (columns x)) (kept x) in
  (go_on, mkReading (result x) (columns x) k (done x)).

(** After a cancellation. *)
Definition not_executing : M unit :=
  c ← get; if decide (state_ c = Executing) then leave_executing Disconnected else mret tt.

Definition query_token (t : ParsedTokenType.t) (p : TokenParser) (x : reading) : M (bool * reading) :=
  match t with
  | ParsedTokenType.ColMetadata => mret (false, query_columns (columns_ p) x)
  | ParsedTokenType.Row =>
      let '(go_on, x) := query_row (current_row_ p) x in
      if go_on then mret (false, x) else _ ← cancel; _ ← not_executing; mret (true, x)
  | ParsedTokenType.Done =>
      _ ← (if IsFinal (current_done_ p) then leave_executing Idle else mret tt);
      mret (false, query_done (current_done_ p) x)
  | ParsedTokenType.Error => mret (false, query_failed (current_error_ p) x)
  | _ => mret (false, x)
  end.

Definition query_timeout (x : reading) : M (SimpleQueryResult * Cb) :=
  _ ← cancel; _ ← not_executing; mret (failed QueryTimeout (result x), kept x).

Definition INT_MAX : Z := 2147483647.

Definition query_before (timeout_ms deadline : Z) (x : reading) : M (Z + (SimpleQueryResult * Cb)) :=
  if negb (0 <? timeout_ms) then mret (inl INT_MAX) else
  n ← clock;
  if deadline <=? n then r ← query_timeout x; mret (inr r) else mret (inl (Z.min (deadline - n) timeout_ms)).

Definition query_no_packet (has_timeout : bool) (x : reading) : M (SimpleQueryResult * Cb) :=
  c ← get;
  if has_timeout && IsConnected (socket_ c) then query_timeout x else
  _ ← leave_executing Disconnected;
  mret (failed (NotReceived (Socket.last_error_ (socket_ c))) (result x), kept x).

Definition ExecuteWithCallback (sql : bytes) (timeout_ms : Z) (k : Cb) : M (SimpleQueryResult * Cb) :=
  c ← get;
  if negb (bool_decide (state_ c = Idle)) then mret (failed NotIdle new_result, k) else
  _ ← ClearReceiveBuffer;
  sent ← ExecuteBatch fuel sql;
  if negb sent then c ← get; mret (failed (NotSentError (last_error_ c)) new_result, k) else
  n ← clock;
  packet_loop query_token (query_before timeout_ms (n + Z.max timeout_ms 0)) (query_no_packet (0 <? timeout_ms))
    (fun x => (result x, kept x)) done fuel TokenParser_new (mkReading new_result [] k false).
End Callback.

(** The callback of [Execute] keeps the rows. *)
Definition collect (row : list bytes) (rows : list (list bytes)) : bool * list (list bytes) := (true, rows ++ [row]).

Definition Execute (sql : bytes) (timeout_ms : Z) : M (SimpleQueryResult * list (list bytes)) :=
  ExecuteWithCallback collect sql timeout_ms [].

Definition ExecuteScalar (sql : bytes) (timeout_ms : Z) : M bytes :=
  '(r, rows) ← Execute sql timeout_ms;
  mret (if negb (success r) then [] else match rows with (v :: _) :: _ => v | _ => [] end).
End Query.
