(* ===== verification/QuerySpec.v ===== *)
(** * What a response comes to (about [Query])

    A response is read as one list of events, those of its whole message,
    whatever the packets and the pieces they arrive in ([packet_loop_run]): a
    statement's answer is the last count or the last error, a query's rows are
    those of the row events, each under the columns before it. *)

From S2P Require Import Prelude Sql Literals Dml Values TdsTypes Utf16 Packet Socket ColumnMetadata RowReader TokenParser TokenEvents Protocol LoginResponse Connection ConnectionSpec Query.

Lemma M_run {T : Transport} {Si : Simdutf} {Au : Authenticator} {A B} (m : M A) (f : A -> M B) c a c' :
  m c = (Returns a, c') -> (m ≫= f) c = f a c'.
Proof. intros Hm. unfold mbind, M_bind. by rewrite Hm. Qed.

Section Loops.
Context {T : Transport} {Si : Simdutf} {Au : Authenticator}.
Context (fuel : nat) (now : net -> Z).

(** [Executing] to [Idle], once. *)
Definition leave (c : TdsConnection) : TdsConnection := if decide (Connection.state_ c = Executing) then Connection.set_state Idle c else c.

Lemma leave_executing_run c : leave_executing Idle c = (Returns tt, leave c).
Proof.
  unfold leave_executing, TransitionState, compare_exchange, leave, mbind, M_bind. by destruct (decide _).
Qed.

Lemma leave_leave c : leave (leave c) = leave c.
Proof. unfold leave. destruct (decide (Connection.state_ c = Executing)) as [E|E]; [done|by rewrite decide_False]. Qed.

Lemma leave_ok c : conn_ok c -> conn_ok (leave c).
Proof. intros Hc. unfold leave. destruct (decide _); [by apply ConnectionSpec.state_ok|done]. Qed.

Lemma leave_idle c : Connection.state_ c = Executing -> Connection.state_ (leave c) = Idle.
Proof. intros E. unfold leave. by rewrite decide_True. Qed.

Section Loop.
Context {St R : Type} (on_token : ParsedTokenType.t -> TokenParser -> St -> M (bool * St)).
Context (before : St -> M (Z + R)) (no_packet : St -> M R) (finish : St -> R) (is_done : St -> bool).
Context (next : event -> St -> St).

(** A token changes the state as its event says, and the connection when it is
    the final one. *)
Definition handled : Prop := forall t p st c, t <> ParsedTokenType.NeedMoreData ->
  on_token t p st c = (Returns (false, next (event_of t p) st), if is_final (event_of t p) then leave c else c) /\
  is_done (next (event_of t p) st) = is_final (event_of t p) || is_done st.

Context (Hhandled : handled).

Definition after (es : list event) (st : St) : St := fold_left (fun st e => next e st) es st.

Lemma token_loop_run p es p' : emits p es p' -> forall turns st c, reading_rows p -> (measure p < turns)%nat ->
  token_loop on_token turns p st c = (Returns (false, p', after es st), if existsb is_final es then leave c else c) /\
  is_done (after es st) = existsb is_final es || is_done st.
Proof.
  induction 1 as [p p' E|p t p1 es p' Ht E He IH]; intros turns st c Hp Hturns; (destruct turns as [|turns]; [lia|]); cbn [token_loop].
  - rewrite (M_run (lift (TryParseNext p)) _ c (ParsedTokenType.NeedMoreData, p') c) by (unfold lift; by rewrite E).
    by rewrite decide_True.
  - destruct (reading_rows_next p Hp) as (t' & p1' & E' & Hp1 & Hm & _). rewrite E in E'. injection E' as <- <-.
    rewrite (M_run (lift (TryParseNext p)) _ c (t, p1) c) by (unfold lift; by rewrite E).
    rewrite decide_False by done. destruct (Hhandled t p1 st c Ht) as [Ho Hd]. rewrite (M_run _ _ _ _ _ Ho).
    specialize (Hm Ht). destruct (IH turns (next (event_of t p1) st) (if is_final (event_of t p1) then leave c else c) Hp1) as [-> Hd2]; [lia|].
    cbn [existsb after fold_left]. fold (after es (next (event_of t p1) st)). rewrite Hd2, Hd. split; [|by destruct (is_final _), (existsb _ _)].
    f_equal. destruct (is_final _), (existsb _ _); cbn [orb]; by rewrite ?leave_leave.
Qed.

Lemma measure_turns p : reading_rows p -> (measure p < token_turns p)%nat.
Proof.
  intros [Hok _]. unfold measure, token_turns. destruct (decide _); [lia|].
  unfold TokenParser.unread, Current, zdrop. rewrite !length_drop. lia.
Qed.

Lemma feed_Feed d p : feed d p = Feed d p.
Proof. destruct d; [by rewrite Feed_nil|done]. Qed.

Lemma Feed_app a b p : Feed b (Feed a p) = Feed (a ++ b) p.
Proof. destruct p. unfold Feed. cbn. by rewrite app_assoc. Qed.

(** A packet that is on its way is received. *)
Lemma ReceivePacket_run k t c d w b : conn_ok c -> IsConnected (socket_ c) = true ->
  supplies k (tls_context_ (socket_ c)) (net_ (socket_ c)) d ->
  scan_frame (Socket.unread (socket_ c) ++ d) = Frame w b -> zlen w <= TDS_MAX_PACKET_SIZE ->
  exists packet s' k' d', ReceivePacket t c = (Returns (Some packet), set_socket s' c) /\
    payload_ packet = zdrop TDS_HEADER_SIZE w /\ IsEndOfMessage packet = frame_eom w /\
    conn_ok (set_socket s' c) /\ IsConnected s' = true /\ supplies k' (tls_context_ s') (net_ s') d' /\ Socket.unread s' ++ d' = b.
Proof.
  intros Hok Hc Hd Hs Hw. destruct Hok as [Hso ? ? ? ?] eqn:Ek. clear Ek.
  destruct (next_loop_supplied next_fuel k t (socket_ c) d w b Hso Hc Hd Hs) as (s1 & k1 & d1 & E1 & Hs1 & Hc1 & Hd1 & U1);
    [pose proof next_fuel_eq; pose proof (zlen_nonneg (Socket.unread (socket_ c))); lia|pose proof next_fuel_eq; lia|].
  destruct (frame_Parse _ _ _ TdsPacket_default Hs Hw) as (p & EP & Epay & Eeom & Hpos).
  exists p, s1, k1, d1. split; [|split_and!; try done; by apply set_socket_ok].
  unfold ReceivePacket, Socket.ReceivePacket, NextPacket. rewrite E1. cbn [mbind res_bind]. rewrite EP.
  by replace (0 <? zlen w) with true by lia.
Qed.

(** While time is left. *)
Context (Htime : forall st c, exists t, before st c = (Returns (inl t), c)).

Lemma packet_loop_run b m r : stream_message b m r -> forall turns k d p st c es p',
  b = Socket.unread (socket_ c) ++ d -> conn_ok c -> IsConnected (socket_ c) = true ->
  supplies k (tls_context_ (socket_ c)) (net_ (socket_ c)) d -> zlen b < Z.of_nat turns ->
  reading_rows p -> emits (Feed m p) es p' -> is_done st = false -> Connection.state_ c = Executing ->
  exists c', packet_loop on_token before no_packet finish is_done turns p st c = (Returns (finish (after es st)), c') /\
    conn_ok c' /\ Connection.state_ c' = Idle.
Proof.
  induction 1 as [b w r E Hw He|b w b' m r E Hw He H IH]; intros turns k d p st c es p' -> Hok Hc Hd Hf Hp Hes Hst Hex;
    (destruct turns as [|turns]; [pose proof (zlen_nonneg (Socket.unread (socket_ c) ++ d)); lia|]); cbn [packet_loop];
    destruct (Htime st c) as [t Ht]; rewrite (M_run _ _ _ _ _ Ht); cbv beta iota;
    destruct (ReceivePacket_run k t c d w _ Hok Hc Hd E Hw) as (packet & s1 & k1 & d1 & Er & Epay & Eeom & Hok1 & Hc1 & Hd1 & U1);
    rewrite (M_run _ _ _ _ _ Er); cbv beta iota zeta; rewrite feed_Feed, Epay; set (c1 := set_socket s1 c) in *;
    set (q := Feed (zdrop TDS_HEADER_SIZE w) p) in *; assert (Hq : reading_rows q) by (by apply reading_Feed).
  - destruct (token_loop_run q es p' Hes (token_turns q) st c1 Hq (measure_turns q Hq)) as [Hl Hdone].
    rewrite (M_run _ _ _ _ _ Hl). cbv beta iota. rewrite Hdone, Hst, orb_false_r.
    destruct (existsb is_final es).
    + exists (leave c1). split_and!; [done|by apply leave_ok|by apply leave_idle].
    + rewrite Eeom, He, (M_run _ _ _ _ _ (leave_executing_run c1)).
      exists (leave c1). split_and!; [done|by apply leave_ok|by apply leave_idle].
  - destruct (emits_total q Hq) as (es1 & p1 & Hes1 & Hp1 & Hpend).
    destruct (token_loop_run q es1 p1 Hes1 (token_turns q) st c1 Hq (measure_turns q Hq)) as [Hl Hdone].
    rewrite (M_run _ _ _ _ _ Hl). cbv beta iota. rewrite Hdone, Hst, orb_false_r. rewrite <- Feed_app in Hes. fold q in Hes.
    destruct (existsb is_final es1) eqn:Efin.
    + destruct (emits_is_final q es1 p1 Hes1 Efin) as [Hfin _].
      destruct (emits_feed m q es1 p1 [] _ Hq Hes1 (emits_final (Feed m p1) Hfin)) as (q2 & Hq2 & _). rewrite app_nil_r in Hq2.
      destruct (emits_det _ _ _ _ _ Hes Hq2) as [-> _].
      exists (leave c1). split_and!; [done|by apply leave_ok|by apply leave_idle].
    + rewrite Eeom, He. destruct (emits_total (Feed m p1)) as (es2 & p2 & Hes2 & _); [by apply reading_Feed|].
      destruct (emits_feed m q es1 p1 es2 p2 Hq Hes1 Hes2) as (q2 & Hq2 & _).
      destruct (emits_det _ _ _ _ _ Hes Hq2) as [-> _].
      destruct (IH turns k1 d1 p1 (after es1 st) c1 es2 p2) as (c2 & Hrun & Hrest); try done.
      * pose proof (scan_Frame_inv _ _ _ E) as (Eb & Hl8 & _). rewrite Eb, zlen_app in Hf. lia.
      * by rewrite Hdone, Hst, orb_false_r.
      * exists c2. split; [|done]. rewrite Hrun. unfold after. by rewrite fold_left_app.
Qed.
End Loop.
End Loops.

(** ** A DML statement *)

Section Statements.
Context {T : Transport} {Si : Simdutf} {Au : Authenticator}.
Context (fuel : nat) (now : net -> Z) (conn_text : conn_error -> bytes).

Definition statement_next (e : event) (x : Statement.t) : Statement.t :=
  match e with EDone d => Statement.on_done d x | EError e => Statement.on_error e x | _ => x end.

Lemma statement_handled : handled statement_token Statement.done statement_next.
Proof.
  intros t p st c Ht. destruct t; try done. cbn [statement_token event_of is_final statement_next].
  split; [|done]. destruct (IsFinal _); [by rewrite (M_run _ _ _ _ _ (leave_executing_run c))|done].
Qed.

(** The last error, and the last count. *)
Definition errors (es : list event) : list TdsError := omap (fun e => match e with EError e => Some e | _ => None end) es.
Definition counts (es : list event) : list Z :=
  omap (fun e => match e with EDone d => if HasRowCount d then Some (row_count d) else None | _ => None end) es.

Definition answer_of (es : list event) : answer Z :=
  match last (errors es) with
  | Some e => match message e with [] => Answered (default 0 (last (counts es))) 0 | m => Refused (number e) m end
  | None => Answered (default 0 (last (counts es))) 0
  end.

Lemma omap_snoc {A B} (f : A -> option B) l x : omap f (l ++ [x]) = omap f l ++ match f x with Some b => [b] | None => [] end.
Proof. rewrite omap_app. cbn. by destruct (f x). Qed.

Lemma answered_after es : Statement.answered (after statement_next es Statement.start) = answer_of es.
Proof.
  set (x := after statement_next es Statement.start).
  assert (Hx : Statement.rows_affected x = default 0 (last (counts es)) /\
    Statement.error_number x = default 0 (number <$> last (errors es)) /\
    Statement.error_message x = default [] (message <$> last (errors es))).
  { unfold x. induction es as [|e es IH] using rev_ind; [done|]. unfold after in *. rewrite fold_left_app. cbn [fold_left].
    unfold counts, errors in *. rewrite !omap_snoc. destruct IH as (I1 & I2 & I3).
    destruct e; cbn [statement_next]; rewrite ?app_nil_r; try done; [|by rewrite last_snoc].
    unfold Statement.on_done. cbn. split_and!; [|done..]. destruct (HasRowCount d); [by rewrite last_snoc|by rewrite app_nil_r]. }
  destruct Hx as (E1 & E2 & E3). unfold Statement.answered, answer_of. rewrite E1, E2, E3. by destruct (last (errors es)).
Qed.

(** A connection that has sent a statement, and the message the server sends. *)
Record replies (c : TdsConnection) (m : bytes) : Prop := {
  rep_connected : IsConnected (socket_ c) = true;
  rep_stream : exists k d r, supplies k (tls_context_ (socket_ c)) (net_ (socket_ c)) d /\
    stream_message (Socket.unread (socket_ c) ++ d) m r /\ zlen (Socket.unread (socket_ c) ++ d) < Z.of_nat fuel
}.

Definition cleared (c : TdsConnection) : TdsConnection := set_socket (Socket.ClearReceiveBuffer (socket_ c)) c.

Lemma cleared_ok c : conn_ok c -> conn_ok (cleared c).
Proof. intros Hc. apply set_socket_ok; [done|]. destruct (ok_socket c Hc). pose proof (zlen_nonneg (staged_ (socket_ c))). constructor; simpl; [done|change (0 <= capacity_ (socket_ c)); lia|done]. Qed.

Lemma ExecuteBatch_ok sql c c' : conn_ok c -> Connection.state_ c = Idle -> ExecuteBatch fuel sql c = (Returns true, c') ->
  conn_ok c' /\ Connection.state_ c' = Executing.
Proof.
  intros Hok Hs E. pose proof (wp_ExecuteBatch fuel sql c Hok Hs) as Hw. unfold wp in Hw. rewrite E in Hw. by destruct Hw as (? & ? & _).
Qed.

Lemma statement_run sql c c1 m : conn_ok c -> Connection.state_ c = Idle ->
  ExecuteBatch fuel sql (cleared c) = (Returns true, c1) -> replies c1 m ->
  (forall n, now n < now (net_ (socket_ c1)) + STATEMENT_TIMEOUT_MS) ->
  exists es p' c', emits (Feed m TokenParser_new) es p' /\
    statement fuel now conn_text sql c = (Returns (answer_of es), c') /\ conn_ok c' /\ Connection.state_ c' = Idle.
Proof.
  intros Hok Hs Hx [Hcon (k & d & r & Hsup & Hm & Hf)] Htime.
  destruct (ExecuteBatch_ok sql (cleared c) c1 (cleared_ok c Hok) Hs Hx) as [Hok1 Hs1].
  destruct (emits_total (Feed m TokenParser_new)) as (es & p' & Hes & _); [apply reading_Feed; split; [apply reachable_ok; constructor|done]|].
  set (n := now (net_ (socket_ c1))) in *.
  destruct (packet_loop_run statement_token (statement_before fuel now (n + STATEMENT_TIMEOUT_MS)) statement_no_packet
    Statement.answered Statement.done statement_next statement_handled) with (b := Socket.unread (socket_ c1) ++ d) (m := m) (r := r)
    (turns := fuel) (k := k) (d := d) (p := TokenParser_new) (st := Statement.start) (c := c1) (es := es) (p' := p')
    as (c2 & Hrun & Hok2 & Hs2); try done.
  - intros st c0. unfold statement_before, clock. specialize (Htime (net_ (socket_ c0))).
    eexists. unfold mbind, M_bind, get, mret, M_ret. replace (n + STATEMENT_TIMEOUT_MS <=? now (net_ (socket_ c0))) with false by lia. reflexivity.
  - split; [apply reachable_ok; constructor|done].
  - exists es, p', c2. split_and!; try done. rewrite <- answered_after. unfold statement, caught.
    rewrite (M_run ClearReceiveBuffer _ c tt (cleared c) eq_refl), (M_run _ _ _ _ _ Hx). cbn [negb].
    rewrite (M_run (clock now) _ c1 n c1 eq_refl), Hrun. done.
Qed.
End Statements.

(** ** A simple query *)

Section Queries.
Context {T : Transport} {Si : Simdutf} {Au : Authenticator}.
Context (fuel : nat) (now : net -> Z).

Definition query_next (e : event) (x : reading (Cb := list (list bytes))) : reading :=
  match e with
  | EColumns cs => query_columns cs x
  | ERow row => (query_row collect row x).2
  | EDone d => query_done d x
  | EError e => query_failed e x
  | _ => x
  end.

Lemma query_handled : handled (query_token fuel now collect) done query_next.
Proof.
  intros t p st c Ht. destruct t; try done. cbn [query_token event_of is_final query_next].
  split; [|done]. destruct (IsFinal _); [by rewrite (M_run _ _ _ _ _ (leave_executing_run c))|done].
Qed.

(** Each row under the columns before it. *)
Fixpoint rows_of (cs : list ColumnMetadata) (es : list event) : list (list bytes) :=
  match es with
  | [] => []
  | EColumns cs :: es => rows_of cs es
  | ERow row :: es => Simple.row_values (values row) (null_mask row) cs :: rows_of cs es
  | _ :: es => rows_of cs es
  end.

Definition columns_of (es : list event) : list ColumnMetadata :=
  default [] (last (omap (fun e => match e with EColumns cs => Some cs | _ => None end) es)).

Lemma rows_of_snoc cs es e : rows_of cs (es ++ [e]) = rows_of cs es ++
  match e with ERow row => [Simple.row_values (values row) (null_mask row) (default cs (last (omap (fun e => match e with EColumns cs => Some cs | _ => None end) es)))] | _ => [] end.
Proof.
  revert cs. induction es as [|e' es IH]; intros cs; [by destruct e|]. cbn [app rows_of omap list_omap]. destruct e'; rewrite ?IH; try done.
  rewrite last_cons. by destruct (last _).
Qed.

(** What the events come to. *)
Definition result_of (es : list event) : SimpleQueryResult :=
  mkSimpleQueryResult (bool_decide (errors es = []))
    (match last (errors es) with Some e => ServerSaid (message e) | None => NoQueryError end)
    (default 0 (number <$> last (errors es)))
    (ColumnMetadata.name <$> columns_of es)
    (default 0 (sx 64 <$> last (counts es))).

Lemma query_after es : after query_next es (mkReading new_result [] [] false) =
  mkReading (result_of es) (columns_of es) (rows_of [] es) (existsb is_final es).
Proof.
  induction es as [|e es IH] using rev_ind; [done|]. unfold after in *. rewrite fold_left_app. cbn [fold_left]. rewrite IH.
  rewrite existsb_app, rows_of_snoc. unfold result_of, columns_of, errors, counts. rewrite !omap_snoc.
  destruct e; cbn [query_next is_final existsb orb]; rewrite ?app_nil_r, ?orb_false_r, ?last_snoc; try done.
  - unfold query_done. cbn. rewrite orb_comm. destruct (HasRowCount d); rewrite ?app_nil_r, ?last_snoc; done.
  - unfold query_failed. cbn. f_equal. f_equal. rewrite bool_decide_eq_false_2; [done|]. by intros [_ ?]%app_eq_nil.
Qed.

Lemma Query_Execute_run sql timeout_ms c c1 m : conn_ok c -> Connection.state_ c = Idle ->
  ExecuteBatch fuel sql (cleared c) = (Returns true, c1) -> replies fuel c1 m ->
  (0 < timeout_ms -> forall n, now n < now (net_ (socket_ c1)) + timeout_ms) ->
  exists es p' c', emits (Feed m TokenParser_new) es p' /\
    Execute fuel now sql timeout_ms c = (Returns (result_of es, rows_of [] es), c') /\ conn_ok c' /\ Connection.state_ c' = Idle.
Proof.
  intros Hok Hs Hx [Hcon (k & d & r & Hsup & Hm & Hf)] Htime.
  destruct (ExecuteBatch_ok fuel sql (cleared c) c1 (cleared_ok c Hok) Hs Hx) as [Hok1 Hs1].
  assert (Hnew : reading_rows TokenParser_new) by (split; [apply reachable_ok; constructor|done]).
  destruct (emits_total (Feed m TokenParser_new)) as (es & p' & Hes & _); [by apply reading_Feed|].
  set (n := now (net_ (socket_ c1))) in *.
  destruct (packet_loop_run (query_token fuel now collect) (query_before fuel now timeout_ms (n + Z.max timeout_ms 0)) (query_no_packet fuel now (0 <? timeout_ms))
    (fun x => (result x, kept x)) done query_next query_handled) with (b := Socket.unread (socket_ c1) ++ d) (m := m) (r := r)
    (turns := fuel) (k := k) (d := d) (p := TokenParser_new) (st := mkReading new_result [] ([] : list (list bytes)) false) (c := c1) (es := es) (p' := p')
    as (c2 & Hrun & Hok2 & Hs2); try done.
  - intros st c0. unfold query_before. destruct (Z.ltb_spec 0 timeout_ms) as [Hpos|?]; cbn [negb]; [|by eexists].
    specialize (Htime Hpos (net_ (socket_ c0))). unfold clock, mbind, M_bind, get, mret, M_ret.
    replace (n + Z.max timeout_ms 0 <=? now (net_ (socket_ c0))) with false by lia. by eexists.
  - exists es, p', c2. split_and!; try done. unfold Execute, ExecuteWithCallback.
    rewrite (M_run get _ c c c eq_refl), bool_decide_eq_true_2 by done. cbn [negb].
    rewrite (M_run ClearReceiveBuffer _ c tt (cleared c) eq_refl), (M_run _ _ _ _ _ Hx). cbn [negb].
    rewrite (M_run (clock now) _ c1 n c1 eq_refl), Hrun, query_after. done.
Qed.
End Queries.

(** ** The answers *)

(** C11. A DML statement's answer depends only on the bytes of the whole response,
    not on how the server cut them into packets or the network into pieces: the
    number and text of the last error, if there is one and its text is not empty,
    or else the last row count a DONE had. The connection is idle again. *)
Theorem Statement_answer `{Transport} `{Simdutf} `{Authenticator} (fuel : nat) (now : net -> Z) (conn_text : conn_error -> bytes)
    (sql m : bytes) (c c1 : TdsConnection) :
  conn_ok c -> Connection.state_ c = Idle ->
  ExecuteBatch fuel sql (cleared c) = (Returns true, c1) -> replies fuel c1 m ->
  (forall n, now n < now (net_ (socket_ c1)) + STATEMENT_TIMEOUT_MS) ->
  exists es p' c', emits (Feed m TokenParser_new) es p' /\
    statement fuel now conn_text sql c = (Returns (answer_of es), c') /\ conn_ok c' /\ Connection.state_ c' = Idle.
Proof. apply statement_run. Qed.

(** C9. [MSSQLSimpleQuery::Execute] gives, whatever the packets, the rows of all
    result sets in order, each value as text under the columns of its result set,
    the names of the last columns, the last row count, and success exactly if no
    error came, with the last error otherwise; the connection is idle again. *)
Theorem Execute_result `{Transport} `{Simdutf} `{Authenticator} (fuel : nat) (now : net -> Z)
    (sql m : bytes) (timeout_ms : Z) (c c1 : TdsConnection) :
  conn_ok c -> Connection.state_ c = Idle ->
  ExecuteBatch fuel sql (cleared c) = (Returns true, c1) -> replies fuel c1 m ->
  (0 < timeout_ms -> forall n, now n < now (net_ (socket_ c1)) + timeout_ms) ->
  exists es p' c', emits (Feed m TokenParser_new) es p' /\
    Execute fuel now sql timeout_ms c = (Returns (result_of es, rows_of [] es), c') /\ conn_ok c' /\ Connection.state_ c' = Idle.
Proof. apply Query_Execute_run. Qed.

(** A response the token parser cannot read counts as success: when the first
    byte is no token's, the statement is answered with no rows and no error, and
    the connection is idle. *)
Theorem Statement_unreadable `{Transport} `{Simdutf} `{Authenticator} (fuel : nat) (now : net -> Z) (conn_text : conn_error -> bytes)
    (sql : bytes) (b : byte) (m : bytes) (c c1 : TdsConnection) :
  conn_ok c -> Connection.state_ c = Idle ->
  ExecuteBatch fuel sql (cleared c) = (Returns true, c1) -> replies fuel c1 (b :: m) -> b2z b ∉ token_types ->
  (forall n, now n < now (net_ (socket_ c1)) + STATEMENT_TIMEOUT_MS) ->
  exists c', statement fuel now conn_text sql c = (Returns (Answered 0 0), c') /\ Connection.state_ c' = Idle.
Proof.
  intros Hok Hs Hx Hr Hb Htime.
  destruct (statement_run fuel now conn_text sql c c1 (b :: m) Hok Hs Hx Hr Htime) as (es & p' & c' & Hes & Hrun & _ & Hidle).
  destruct (emits_unknown b m Hb) as (q & Hq). destruct (emits_det _ _ _ _ _ Hes Hq) as [-> _]. by exists c'.
Qed.

(** *** Concrete inputs *)

Section Samples.
#[local] Existing Instance RefSimdutf.simdutf.
#[local] Existing Instance script_transport.
#[local] Instance sample_authenticator : Authenticator := {|
  auth := unit; InitialBytes a := (inr (bs [0x60]), a); NextBytes _ a := (inr [], a)
|}.

Definition sample_conn (inbox : list bytes) : TdsConnection :=
  Connection.set_state Idle (TdsConnection_new (mkScript inbox [] []) 0).

Definition sample_idle (inbox : list bytes) : TdsConnection :=
  set_socket (Socket.set_conn true true (socket_ (sample_conn inbox))) (sample_conn inbox).

(** Two DONE tokens in two packets, in three pieces. *)
Definition counts_inbox : list bytes :=
  [bs [4; 0; 0; 25; 0; 0; 1; 0; 0xFD; 0x11; 0; 0xC1; 0; 2; 0; 0; 0; 0; 0; 0; 0; 0xFD];
   bs [0x10; 0; 0xC1]; bs [4; 1; 0; 17; 0; 0; 2; 0; 0; 3; 0; 0; 0; 0; 0; 0; 0]].
Definition counts_message : bytes :=
  bs [0xFD; 0x11; 0; 0xC1; 0; 2; 0; 0; 0; 0; 0; 0; 0] ++ bs [0xFD; 0x10; 0; 0xC1; 0; 3; 0; 0; 0; 0; 0; 0; 0].

Definition sample_text : bytes := bs [83].
Definition sample_sent (inbox : list bytes) : TdsConnection := (ExecuteBatch 400 sample_text (cleared (sample_idle inbox))).2.

Lemma sample_idle_ok inbox : conn_ok (sample_idle inbox).
Proof. constructor; [constructor|..]; vm_compute; repeat split; discriminate. Qed.

Lemma counts_replies : replies 400 (sample_sent counts_inbox) counts_message.
Proof.
  split; [by vm_compute|]. exists 42%nat, (concat counts_inbox), []. split; [|split].
  - change (net_ (socket_ (sample_sent counts_inbox))) with (net_ (socket_ (sample_sent counts_inbox))).
    assert (Hn : inbox (net_ (socket_ (sample_sent counts_inbox)) : script) = counts_inbox) by (vm_compute; reflexivity).
    rewrite <- Hn. apply script_supplies; rewrite Hn; [repeat constructor; discriminate|vm_compute; lia].
  - assert (Hu : Socket.unread (socket_ (sample_sent counts_inbox)) = []) by (vm_compute; reflexivity). rewrite Hu. cbn [app].
    assert (Hm : counts_message = zdrop TDS_HEADER_SIZE (ztake 25 (concat counts_inbox)) ++ zdrop TDS_HEADER_SIZE (zdrop 25 (concat counts_inbox)))
      by (vm_compute; reflexivity).
    rewrite Hm. apply (sm_more (concat counts_inbox) (ztake 25 (concat counts_inbox)) (zdrop 25 (concat counts_inbox)));
      [by vm_compute|by vm_compute|by vm_compute|]. apply sm_last; by vm_compute.
  - vm_compute. reflexivity.
Qed.

Lemma sample_sends inbox : (ExecuteBatch 400 sample_text (cleared (sample_idle inbox))).1 = Returns true ->
  ExecuteBatch 400 sample_text (cleared (sample_idle inbox)) = (Returns true, sample_sent inbox).
Proof. intros E. rewrite <- E. apply surjective_pairing. Qed.

Lemma Statement_answer_witness :
  exists es p' c', emits (Feed counts_message TokenParser_new) es p' /\
    statement 400 (fun _ => 0) (fun _ => []) sample_text (sample_idle counts_inbox) = (Returns (answer_of es), c') /\
    conn_ok c' /\ Connection.state_ c' = Idle.
Proof.
  apply (Statement_answer 400 (fun _ => 0) (fun _ => []) sample_text counts_message (sample_idle counts_inbox) (sample_sent counts_inbox)).
  - apply sample_idle_ok.
  - reflexivity.
  - apply sample_sends. vm_compute. reflexivity.
  - apply counts_replies.
  - intros n. vm_compute. reflexivity.
Defined.

Lemma Execute_result_witness :
  exists es p' c', emits (Feed counts_message TokenParser_new) es p' /\
    Execute 400 (fun _ => 0) sample_text 1000 (sample_idle counts_inbox) = (Returns (result_of es, rows_of [] es), c') /\
    conn_ok c' /\ Connection.state_ c' = Idle.
Proof.
  apply (Execute_result 400 (fun _ => 0) sample_text counts_message 1000 (sample_idle counts_inbox) (sample_sent counts_inbox)).
  - apply sample_idle_ok.
  - reflexivity.
  - apply sample_sends. vm_compute. reflexivity.
  - apply counts_replies.
  - intros _ n. vm_compute. reflexivity.
Defined.

(** A zero byte is no token. *)
Definition unreadable_inbox : list bytes := [bs [4; 1; 0; 10; 0; 0; 1; 0; 0; 1]].

Lemma unreadable_replies : replies 400 (sample_sent unreadable_inbox) (z2b 0 :: [z2b 1]).
Proof.
  split; [by vm_compute|]. exists 10%nat, (concat unreadable_inbox), []. split; [|split].
  - assert (Hn : inbox (net_ (socket_ (sample_sent unreadable_inbox)) : script) = unreadable_inbox) by (vm_compute; reflexivity).
    rewrite <- Hn. apply script_supplies; rewrite Hn; [repeat constructor; discriminate|vm_compute; lia].
  - assert (Hu : Socket.unread (socket_ (sample_sent unreadable_inbox)) = []) by (vm_compute; reflexivity). rewrite Hu. cbn [app].
    apply (sm_last (concat unreadable_inbox) (concat unreadable_inbox) []); by vm_compute.
  - vm_compute. reflexivity.
Qed.

Lemma Statement_unreadable_witness :
  exists c', statement 400 (fun _ => 0) (fun _ => []) sample_text (sample_idle unreadable_inbox) = (Returns (Answered 0 0), c') /\
    Connection.state_ c' = Idle.
Proof.
  apply (Statement_unreadable 400 (fun _ => 0) (fun _ => []) sample_text (z2b 0) [z2b 1] (sample_idle unreadable_inbox) (sample_sent unreadable_inbox)).
  - apply sample_idle_ok.
  - reflexivity.
  - apply sample_sends. vm_compute. reflexivity.
  - apply unreadable_replies.
  - intros Hin. apply list_elem_of_In in Hin. vm_compute in Hin. repeat destruct Hin as [Hin|Hin]; done.
  - intros n. vm_compute. reflexivity.
Defined.
End Samples.
