(* ===== verification/Filter.v ===== *)
(** * The filter encoder (src/src/table_scan/filter_encoder.cpp,
    src/src/table_scan/function_mapping.cpp)

    DuckDB's filters and expressions are turned into the text of a T-SQL search
    condition. [Expression] and [TableFilter] are DuckDB's trees, as far as the
    encoder looks at them: a class of the tree is a constructor, and the
    functions DuckDB has for casts, comparisons and BETWEEN are constructors of
    their own, since the encoder tells them apart first. A constant's value is a
    [field]: a plain value or the struct a composite rowid is compared with.

    Every function that calls [EncodeExpression] back takes it as an argument,
    and [EncodeExpression] ties the knot. The encoder's texts are functions of
    the trees; debug output is left out. *)

From S2P Require Import Prelude Sql SqlRead TdsTypes Values Codecs Literals Dml.

(** ** DuckDB's trees *)

(** [COMPARE_*] of a comparison. *)
Inductive ComparisonType : Type := Equal | NotEqual | LessThan | GreaterThan | LessThanOrEqualTo | GreaterThanOrEqualTo | DistinctFrom | NotDistinctFrom.

(** The types of a [BoundOperatorExpression]. *)
Inductive OperatorType : Type := OPERATOR_NOT | OPERATOR_IS_NULL | OPERATOR_IS_NOT_NULL | COMPARE_IN | COMPARE_NOT_IN | OTHER_OPERATOR.

Inductive Expression : Type :=
  | BoundColumnRef (type : LogicalType) (column_index : Z)
  | BoundReference (type : LogicalType) (index : Z)
  | BoundConstant (type : LogicalType) (value : field)
  | BoundCast (type : LogicalType) (child : Expression)
  | BoundComparison (op : ComparisonType) (left right : Expression)
  | BoundBetween (lower_inclusive upper_inclusive : bool) (input lower upper : Expression)
  | BoundFunction (type : LogicalType) (name : bytes) (children : list Expression)
  | BoundConjunction (is_and : bool) (children : list Expression)
  | BoundOperator (type : LogicalType) (op : OperatorType) (children : list Expression)
  | BoundCase (type : LogicalType) (case_checks : list (Expression * Expression)) (else_expr : Expression)
  | OtherExpression (type : LogicalType).

Inductive TableFilter : Type :=
  | ConstantFilter (op : ComparisonType) (constant : field)
  | IsNullFilter
  | IsNotNullFilter
  | InFilter (values : list field)
  | ConjunctionOrFilter (child_filters : list TableFilter)
  | ConjunctionAndFilter (child_filters : list TableFilter)
  | ExpressionFilter (expr : Expression)
  | OtherFilter.

Definition BOOLEAN_TYPE : LogicalType := mkLogicalType BOOLEAN PhysicalType.BOOL 0 0.

Definition GetReturnType (e : Expression) : LogicalType :=
  match e with
  | BoundColumnRef t _ | BoundReference t _ | BoundConstant t _ | BoundCast t _ | BoundFunction t _ _ | BoundOperator t _ _
  | BoundCase t _ _ | OtherExpression t => t
  | BoundComparison _ _ _ | BoundBetween _ _ _ _ _ | BoundConjunction _ _ => BOOLEAN_TYPE
  end.

(** DuckDB's identifier of the rowid column; the identifiers of virtual columns
    start at 2^63. *)
Definition VIRTUAL_COL_START : Z := 9223372036854775808.

Class VirtualColumns : Type := {
  COLUMN_IDENTIFIER_ROW_ID : Z;
  ROW_ID_virtual : VIRTUAL_COL_START <= COLUMN_IDENTIFIER_ROW_ID
}.

(** ** The function mapping *)

Definition ToLower (s : bytes) : bytes :=
  (fun b => if (65 <=? b2z b) && (b2z b <=? 90) then z2b (b2z b + 32) else b) <$> s.

Record FunctionMapping : Type := mkFunctionMapping { duckdb_name : bytes; sql_template : bytes; expected_args : Z }.

Definition mappings : list FunctionMapping :=
  [mkFunctionMapping (tx "lower") (tx "LOWER({0})") 1; mkFunctionMapping (tx "upper") (tx "UPPER({0})") 1;
   mkFunctionMapping (tx "trim") (tx "LTRIM(RTRIM({0}))") 1; mkFunctionMapping (tx "ltrim") (tx "LTRIM({0})") 1;
   mkFunctionMapping (tx "rtrim") (tx "RTRIM({0})") 1;
   mkFunctionMapping (tx "year") (tx "YEAR({0})") 1; mkFunctionMapping (tx "month") (tx "MONTH({0})") 1;
   mkFunctionMapping (tx "day") (tx "DAY({0})") 1; mkFunctionMapping (tx "hour") (tx "DATEPART(HOUR, {0})") 1;
   mkFunctionMapping (tx "minute") (tx "DATEPART(MINUTE, {0})") 1; mkFunctionMapping (tx "second") (tx "DATEPART(SECOND, {0})") 1;
   mkFunctionMapping (tx "+") (tx "({0} + {1})") 2; mkFunctionMapping (tx "-") (tx "({0} - {1})") 2;
   mkFunctionMapping (tx "*") (tx "({0} * {1})") 2; mkFunctionMapping (tx "%") (tx "({0} % {1})") 2;
   mkFunctionMapping (tx "negate") (tx "(-{0})") 1].

Definition GetFunctionMapping (function_name : bytes) : option FunctionMapping :=
  snd <$> list_find (fun m => duckdb_name m = ToLower function_name) mappings.

Definition IsLikePatternFunction (function_name : bytes) : bool :=
  bool_decide (ToLower function_name ∈ [tx "prefix"; tx "suffix"; tx "contains"; tx "iprefix"; tx "isuffix"; tx "icontains"]).

Definition IsCaseInsensitiveLikeFunction (function_name : bytes) : bool :=
  bool_decide (ToLower function_name ∈ [tx "iprefix"; tx "isuffix"; tx "icontains"]).

(** ** Small helpers *)

Definition IsNaiveTimestampType (i : LogicalTypeId) : bool :=
  match i with TIMESTAMP_SEC | TIMESTAMP_MS | TIMESTAMP | TIMESTAMP_NS => true | _ => false end.

Definition IsDatePartFunction (name : bytes) : bool :=
  bool_decide (name ∈ [tx "year"; tx "month"; tx "day"; tx "hour"; tx "minute"; tx "second"]).

Definition IsApproximateNumeric (i : LogicalTypeId) : bool := match i with FLOAT | DOUBLE => true | _ => false end.

(** Does the expression encode to a condition rather than a value? *)
Definition EncodesAsSearchCondition (e : Expression) : bool :=
  match e with
  | BoundComparison _ _ _ | BoundBetween _ _ _ _ _ | BoundConjunction _ _ => true
  | BoundOperator _ op _ => match op with OTHER_OPERATOR => false | _ => true end
  | BoundFunction _ name _ => IsLikePatternFunction name
  | _ => false
  end.

Definition EscapeLikePattern (pattern : bytes) : bytes :=
  mjoin ((fun c => if bool_decide (c ∈ tx "%_[") then tx "[" ++ [c] ++ tx "]" else [c]) <$> pattern).

Definition GetComparisonOperator (type : ComparisonType) : option bytes :=
  match type with
  | Equal => Some (tx " = ")
  | NotEqual => Some (tx " <> ")
  | LessThan => Some (tx " < ")
  | GreaterThan => Some (tx " > ")
  | LessThanOrEqualTo => Some (tx " <= ")
  | GreaterThanOrEqualTo => Some (tx " >= ")
  | DistinctFrom | NotDistinctFrom => None
  end.

Definition bracketed (name : bytes) : bytes := tx "[" ++ EscapeBracketIdentifier name ++ tx "]".

(** [while ((pos = sql.find(placeholder, pos)) != npos)]: every placeholder from
    the left, not looking into what was put in. *)
Fixpoint replaced (fuel : nat) (placeholder arg s : bytes) : bytes :=
  match fuel with
  | O => s
  | S fuel =>
      match eat_bytes placeholder s with
      | Some rest => arg ++ replaced fuel placeholder arg rest
      | None => match s with [] => [] | b :: s => b :: replaced fuel placeholder arg s end
      end
  end.

Definition replace_all (placeholder arg s : bytes) : bytes := replaced (S (length s)) placeholder arg s.

Fixpoint apply_template (i : Z) (args : list bytes) (sql : bytes) : bytes :=
  match args with
  | [] => sql
  | arg :: args => apply_template (i + 1) args (replace_all (tx "{" ++ std_to_string i ++ tx "}") arg sql)
  end.

(** ** Context and results *)

Record ExpressionEncodeContext : Type := mkContext {
  column_ids : list Z;
  column_names : list bytes;
  column_types : list LogicalType;
  depth : Z;
  pk_column_names : list bytes;
  pk_column_types : list LogicalType;
  pk_is_composite : bool;
  filter_column : option bytes
}.

Definition MAX_DEPTH : Z := 100.

(** The constructor; [pk_column_names == nullptr] and an empty vector are treated
    alike. *)
Definition new_context (ids : list Z) (names : list bytes) (types : list LogicalType) : ExpressionEncodeContext :=
  mkContext ids names types 0 [] [] false None.

Definition SetPKInfo (names : list bytes) (types : list LogicalType) (composite : bool) (c : ExpressionEncodeContext) : ExpressionEncodeContext :=
  mkContext (column_ids c) (column_names c) (column_types c) (depth c) names types composite (filter_column c).

Definition HasPKInfo (c : ExpressionEncodeContext) : bool := negb (bool_decide (pk_column_names c = [])).

Definition child (c : ExpressionEncodeContext) : ExpressionEncodeContext :=
  mkContext (column_ids c) (column_names c) (column_types c) (depth c + 1) (pk_column_names c) (pk_column_types c) (pk_is_composite c)
    (filter_column c).

Definition with_filter_column (name : bytes) (c : ExpressionEncodeContext) : ExpressionEncodeContext :=
  mkContext (column_ids c) (column_names c) (column_types c) (depth c) (pk_column_names c) (pk_column_types c) (pk_is_composite c) (Some name).

Definition at_max_depth (c : ExpressionEncodeContext) : bool := MAX_DEPTH <=? depth c.

Record ExpressionEncodeResult : Type := mkResult { sql : bytes; supported : bool }.

Definition unsupported : ExpressionEncodeResult := mkResult [] false.
Definition encoded (s : bytes) : ExpressionEncodeResult := mkResult s true.

(** Go on with the text, if the expression is supported. *)
Definition and_then (r : res ExpressionEncodeResult) (k : bytes -> res ExpressionEncodeResult) : res ExpressionEncodeResult :=
  r ← r; if supported r then k (sql r) else Ok unsupported.

(** One condition as it is, several in parentheses. *)
Definition conjoined (op : bytes) (conditions : list bytes) (all_supported : bool) : ExpressionEncodeResult :=
  match conditions with
  | [] => unsupported
  | [c] => mkResult c all_supported
  | _ => mkResult (tx "(" ++ join op conditions ++ tx ")") all_supported
  end.

Section Encoder.
Context `{DuckDB} `{Values_} `{VirtualColumns}.

(** ** Columns and constants *)

(** The projected column's index in the table. *)
Definition table_column (ids : list Z) (projected_idx : Z) : option Z :=
  match ids with
  | [] => Some projected_idx
  | _ => if zlen ids <=? projected_idx then None else ids !! Z.to_nat projected_idx
  end.

Definition EncodeColumnRef (column_index : Z) (ctx : ExpressionEncodeContext) : ExpressionEncodeResult :=
  match table_column (column_ids ctx) column_index with
  | None => unsupported
  | Some table_col_idx =>
      if table_col_idx =? COLUMN_IDENTIFIER_ROW_ID then
        match pk_column_names ctx with
        | name :: _ => if negb (pk_is_composite ctx) then encoded (bracketed name) else unsupported
        | [] => unsupported
        end
      else if VIRTUAL_COL_START <=? table_col_idx then unsupported
      else match column_names ctx !! Z.to_nat table_col_idx with
      | Some col_name => encoded (bracketed col_name)
      | None => unsupported
      end
  end.

Definition EncodeConstant (type : LogicalType) (value : field) : res ExpressionEncodeResult :=
  s ← ValueToSQLLiteral (as_value value) type; Ok (encoded s).

Definition IsRowidColumn (e : Expression) (ctx : ExpressionEncodeContext) : bool :=
  match e with
  | BoundColumnRef _ i => bool_decide (table_column (column_ids ctx) i = Some COLUMN_IDENTIFIER_ROW_ID)
  | _ => false
  end.

Definition pk_equal (name : bytes) (literal : bytes) : bytes := bracketed name ++ tx " = " ++ literal.

Fixpoint pk_equalities (names : list bytes) (types : list LogicalType) (children : list Value) {struct children} : res (list bytes) :=
  match children with
  | [] => Ok []
  | v :: children =>
      match names, types with
      | name :: names, type :: types =>
          s ← ValueToSQLLiteral v type; r ← pk_equalities names types children; Ok (pk_equal name s :: r)
      | _, _ => Oob
      end
  end.

Definition EncodeRowidEquality (value_expr : Expression) (ctx : ExpressionEncodeContext) : res ExpressionEncodeResult :=
  if negb (HasPKInfo ctx) then Ok unsupported else
  match value_expr with
  | BoundConstant _ value =>
      if pk_is_composite ctx then
        match value with
        | Struct children =>
            if negb (zlen children =? zlen (pk_column_names ctx)) then Ok unsupported else
            parts ← pk_equalities (pk_column_names ctx) (pk_column_types ctx) children;
            Ok (encoded (tx "(" ++ join (tx " AND ") parts ++ tx ")"))
        | Plain _ => Ok unsupported
        end
      else match pk_column_names ctx, pk_column_types ctx with
      | name :: _, type :: _ => s ← ValueToSQLLiteral (as_value value) type; Ok (encoded (pk_equal name s))
      | _, _ => Oob
      end
  | _ => Ok unsupported
  end.

(** ** Expressions *)

Section Handlers.
Context (EncodeExpression : Expression -> ExpressionEncodeContext -> res ExpressionEncodeResult).

Definition EncodeSearchCondition (e : Expression) (ctx : ExpressionEncodeContext) : res ExpressionEncodeResult :=
  result ← EncodeExpression e ctx;
  Ok (if supported result && negb (bool_decide (sql result = [])) && bool_decide (id (GetReturnType e) = BOOLEAN) &&
         negb (EncodesAsSearchCondition e)
      then mkResult (tx "(" ++ sql result ++ tx " = 1)") (supported result) else result).

Definition like_pattern (lower_func escaped : bytes) : option bytes :=
  if bool_decide (lower_func ∈ [tx "prefix"; tx "iprefix"]) then Some (tx "N'" ++ EscapeSqlSingleQuotes escaped ++ tx "%'")
  else if bool_decide (lower_func ∈ [tx "suffix"; tx "isuffix"]) then Some (tx "N'%" ++ EscapeSqlSingleQuotes escaped ++ tx "'")
  else if bool_decide (lower_func ∈ [tx "contains"; tx "icontains"]) then Some (tx "N'%" ++ EscapeSqlSingleQuotes escaped ++ tx "%'")
  else None.

Definition EncodeLikePattern (function_name : bytes) (column_expr pattern_expr : Expression) (ctx : ExpressionEncodeContext) : res ExpressionEncodeResult :=
  and_then (EncodeExpression column_expr (child ctx)) (fun column =>
    match pattern_expr with
    | BoundConstant _ value =>
        if IsNull (as_value value) then Ok unsupported else
        match like_pattern (ToLower function_name) (EscapeLikePattern (ToString (as_value value))) with
        | None => Ok unsupported
        | Some pattern =>
            Ok (encoded (if IsCaseInsensitiveLikeFunction function_name
                         then tx "(LOWER(" ++ column ++ tx ") LIKE LOWER(" ++ pattern ++ tx "))"
                         else tx "(" ++ column ++ tx " LIKE " ++ pattern ++ tx ")"))
        end
    | _ => Ok unsupported
    end).

(** An argument, without the precision cast over a date part's argument. *)
Definition encode_argument (datepart : bool) (ctx : ExpressionEncodeContext) (arg : Expression) : res ExpressionEncodeResult :=
  match arg with
  | BoundCast target cast_child =>
      if datepart && IsNaiveTimestampType (id target) && IsNaiveTimestampType (id (GetReturnType cast_child))
      then EncodeExpression cast_child ctx else EncodeExpression arg ctx
  | _ => EncodeExpression arg ctx
  end.

Fixpoint encode_arguments (datepart : bool) (ctx : ExpressionEncodeContext) (args : list Expression) : res (option (list bytes)) :=
  match args with
  | [] => Ok (Some [])
  | arg :: args =>
      result ← encode_argument datepart ctx arg;
      if supported result then
        rest ← encode_arguments datepart ctx args; Ok (option_map (cons (sql result)) rest)
      else Ok None
  end.

Definition EncodeFunctionExpression (func_name : bytes) (children : list Expression) (ctx : ExpressionEncodeContext) : res ExpressionEncodeResult :=
  if IsLikePatternFunction func_name then
    match children with
    | column :: pattern :: _ => EncodeLikePattern func_name column pattern ctx
    | _ => Ok unsupported
    end
  else match GetFunctionMapping func_name with
  | None => Ok unsupported
  | Some mapping =>
      if bool_decide (func_name = tx "%") && existsb (fun e => IsApproximateNumeric (id (GetReturnType e))) children then Ok unsupported else
      if negb (expected_args mapping =? zlen children) then Ok unsupported else
      args ← encode_arguments (IsDatePartFunction func_name) (child ctx) children;
      Ok (match args with Some args => encoded (apply_template 0 args (sql_template mapping)) | None => unsupported end)
  end.

Definition EncodeComparisonExpression (op : ComparisonType) (left right : Expression) (ctx : ExpressionEncodeContext) : res ExpressionEncodeResult :=
  let rowid := match op with Equal => HasPKInfo ctx | _ => false end in
  if rowid && IsRowidColumn left ctx then EncodeRowidEquality right ctx
  else if rowid && IsRowidColumn right ctx then EncodeRowidEquality left ctx
  else match GetComparisonOperator op with
  | None => Ok unsupported
  | Some op =>
      and_then (EncodeExpression left (child ctx)) (fun l =>
      and_then (EncodeExpression right (child ctx)) (fun r => Ok (encoded (tx "(" ++ l ++ op ++ r ++ tx ")"))))
  end.

Definition EncodeOperatorExpression (op : OperatorType) (children : list Expression) (ctx : ExpressionEncodeContext) : res ExpressionEncodeResult :=
  match op, children with
  | OPERATOR_NOT, [e] => and_then (EncodeSearchCondition e (child ctx)) (fun s => Ok (encoded (tx "(NOT " ++ s ++ tx ")")))
  | OPERATOR_IS_NULL, [e] => and_then (EncodeExpression e (child ctx)) (fun s => Ok (encoded (tx "(" ++ s ++ tx " IS NULL)")))
  | OPERATOR_IS_NOT_NULL, [e] => and_then (EncodeExpression e (child ctx)) (fun s => Ok (encoded (tx "(" ++ s ++ tx " IS NOT NULL)")))
  | _, _ => Ok unsupported
  end.

(** The WHEN clauses. *)
Fixpoint encode_checks (ctx : ExpressionEncodeContext) (checks : list (Expression * Expression)) : res (option bytes) :=
  match checks with
  | [] => Ok (Some [])
  | (when_expr, then_expr) :: checks =>
      w ← EncodeSearchCondition when_expr ctx;
      if negb (supported w) then Ok None else
      t ← EncodeExpression then_expr ctx;
      if negb (supported t) then Ok None else
      rest ← encode_checks ctx checks;
      Ok (option_map (app (tx " WHEN " ++ sql w ++ tx " THEN " ++ sql t)) rest)
  end.

Definition EncodeCaseExpression (checks : list (Expression * Expression)) (else_expr : Expression) (ctx : ExpressionEncodeContext) : res ExpressionEncodeResult :=
  whens ← encode_checks (child ctx) checks;
  match whens with
  | None => Ok unsupported
  | Some whens =>
      and_then (EncodeExpression else_expr (child ctx)) (fun e => Ok (encoded (tx "CASE" ++ whens ++ tx " ELSE " ++ e ++ tx " END")))
  end.

Definition EncodeBetweenExpression (lower_inclusive upper_inclusive : bool) (input lower upper : Expression) (ctx : ExpressionEncodeContext) : res ExpressionEncodeResult :=
  and_then (EncodeExpression input (child ctx)) (fun i =>
  and_then (EncodeExpression lower (child ctx)) (fun l =>
  and_then (EncodeExpression upper (child ctx)) (fun u =>
    Ok (encoded (if lower_inclusive && upper_inclusive then tx "(" ++ i ++ tx " BETWEEN " ++ l ++ tx " AND " ++ u ++ tx ")"
      else tx "((" ++ i ++ (if lower_inclusive then tx " >= " else tx " > ") ++ l ++ tx ") AND (" ++
           i ++ (if upper_inclusive then tx " <= " else tx " < ") ++ u ++ tx "))"))))).

(** The encoded children of a conjunction, with whether all are supported; [None]
    when one child refuses an OR. *)
Fixpoint encode_conditions (is_and : bool) (ctx : ExpressionEncodeContext) (children : list Expression) : res (option (list bytes * bool)) :=
  match children with
  | [] => Ok (Some ([], true))
  | e :: children =>
      result ← EncodeSearchCondition e ctx;
      let text := supported result && negb (bool_decide (sql result = [])) in
      if negb is_and && negb text then Ok None else
      rest ← encode_conditions is_and ctx children;
      Ok (option_map (fun r => (if text then sql result :: r.1 else r.1, supported result && r.2)) rest)
  end.

Definition EncodeConjunctionExpression (is_and : bool) (children : list Expression) (ctx : ExpressionEncodeContext) : res ExpressionEncodeResult :=
  r ← encode_conditions is_and (child ctx) children;
  Ok (match r with
      | None => unsupported
      | Some (conditions, all_supported) => conjoined (if is_and then tx " AND " else tx " OR ") conditions all_supported
      end).
End Handlers.

Fixpoint EncodeExpression (e : Expression) (ctx : ExpressionEncodeContext) {struct e} : res ExpressionEncodeResult :=
  if at_max_depth ctx then Ok unsupported else
  match e with
  | BoundColumnRef _ i => Ok (EncodeColumnRef i ctx)
  | BoundReference _ i =>
      Ok (match filter_column ctx with Some name => if i =? 0 then encoded name else unsupported | None => unsupported end)
  | BoundConstant type value => EncodeConstant type value
  | BoundCast target cast_child =>
      if bool_decide (id target = VARCHAR) && bool_decide (id (GetReturnType cast_child) = VARCHAR)
      then EncodeExpression cast_child ctx else Ok unsupported
  | BoundComparison op l r => EncodeComparisonExpression EncodeExpression op l r ctx
  | BoundBetween li ui i l u => EncodeBetweenExpression EncodeExpression li ui i l u ctx
  | BoundFunction _ name children => EncodeFunctionExpression EncodeExpression name children ctx
  | BoundConjunction is_and children => EncodeConjunctionExpression EncodeExpression is_and children ctx
  | BoundOperator _ op children => EncodeOperatorExpression EncodeExpression op children ctx
  | BoundCase _ checks else_expr => EncodeCaseExpression EncodeExpression checks else_expr ctx
  | OtherExpression _ => Ok unsupported
  end.

(** ** Table filters *)

Definition EncodeConstantComparison (op : ComparisonType) (constant : field) (column_name : bytes) (column_type : LogicalType) : res ExpressionEncodeResult :=
  match GetComparisonOperator op with
  | None => Ok unsupported
  | Some op => s ← ValueToSQLLiteral (as_value constant) column_type; Ok (encoded (column_name ++ op ++ s))
  end.

Definition EncodeIsNull (column_name : bytes) : ExpressionEncodeResult := encoded (column_name ++ tx " IS NULL").
Definition EncodeIsNotNull (column_name : bytes) : ExpressionEncodeResult := encoded (column_name ++ tx " IS NOT NULL").

Definition EncodeInFilter (values : list field) (column_name : bytes) (column_type : LogicalType) : res ExpressionEncodeResult :=
  literals ← mapM (fun v => ValueToSQLLiteral (as_value v) column_type) values;
  Ok (encoded (column_name ++ tx " IN (" ++ join (tx ", ") literals ++ tx ")")).

Section FilterHandlers.
Context (EncodeFilter : TableFilter -> res ExpressionEncodeResult).

Fixpoint encode_child_filters (is_and : bool) (filters : list TableFilter) : res (option (list bytes * bool)) :=
  match filters with
  | [] => Ok (Some ([], true))
  | f :: filters =>
      result ← EncodeFilter f;
      let text := supported result && negb (bool_decide (sql result = [])) in
      if negb is_and && negb text then Ok None else
      rest ← encode_child_filters is_and filters;
      Ok (option_map (fun r => (if text then sql result :: r.1 else r.1, supported result && r.2)) rest)
  end.

Definition EncodeConjunctionAnd (filters : list TableFilter) : res ExpressionEncodeResult :=
  r ← encode_child_filters true filters;
  Ok (match r with None => unsupported | Some (conditions, all) => conjoined (tx " AND ") conditions all end).

Definition EncodeConjunctionOr (filters : list TableFilter) : res ExpressionEncodeResult :=
  r ← encode_child_filters false filters;
  Ok (match r with None => unsupported | Some (conditions, all) => conjoined (tx " OR ") conditions all end).
End FilterHandlers.

Fixpoint EncodeFilter (column_name : bytes) (column_type : LogicalType) (ctx : ExpressionEncodeContext) (filter : TableFilter) : res ExpressionEncodeResult :=
  match filter with
  | ConstantFilter op constant => EncodeConstantComparison op constant column_name column_type
  | IsNullFilter => Ok (EncodeIsNull column_name)
  | IsNotNullFilter => Ok (EncodeIsNotNull column_name)
  | InFilter values => EncodeInFilter values column_name column_type
  | ConjunctionOrFilter filters => EncodeConjunctionOr (EncodeFilter column_name column_type ctx) filters
  | ConjunctionAndFilter filters => EncodeConjunctionAnd (EncodeFilter column_name column_type ctx) filters
  | ExpressionFilter expr => EncodeSearchCondition EncodeExpression expr (with_filter_column column_name ctx)
  | OtherFilter => Ok unsupported
  end.

(** ** A set of filters *)

Record FilterEncoderResult : Type := mkFilterEncoderResult {
  where_clause : bytes;
  needs_duckdb_filter : bool;
  unhandled : list (Z * TableFilter)
}.

(** The conditions and the filters not pushed, of filters keyed by projected
    column. *)
Fixpoint encode_entries (ctx : ExpressionEncodeContext) (filters : list (Z * TableFilter)) : res (list bytes * list (Z * TableFilter)) :=
  match filters with
  | [] => Ok ([], [])
  | (projected_col_idx, filter) :: filters =>
      match table_column (column_ids ctx) projected_col_idx with
      | None => Exn (InternalError "MSSQL scan: filter column outside projection")
      | Some table_col_idx =>
          if VIRTUAL_COL_START <=? table_col_idx then
            '(conditions, rest) ← encode_entries ctx filters; Ok (conditions, (projected_col_idx, filter) :: rest)
          else match column_names ctx !! Z.to_nat table_col_idx, column_types ctx !! Z.to_nat table_col_idx with
          | None, _ => Exn (InternalError "MSSQL scan: filter maps to table column outside the table")
          | Some _, None => Oob
          | Some col_name, Some col_type =>
              result ← EncodeFilter (bracketed col_name) col_type ctx filter;
              '(conditions, rest) ← encode_entries ctx filters;
              Ok (if supported result && negb (bool_decide (sql result = [])) then sql result :: conditions else conditions,
                  if supported result then rest else (projected_col_idx, filter) :: rest)
          end
      end
  end.

Definition Encode (filters : list (Z * TableFilter)) (ids : list Z) (names : list bytes) (types : list LogicalType) : res FilterEncoderResult :=
  '(conditions, rest) ← encode_entries (new_context ids names types) filters;
  Ok (mkFilterEncoderResult (join (tx " AND ") conditions) (negb (bool_decide (rest = []))) rest).
End Encoder.
