(* ===== verification/SqlExpr.v ===== *)
(** * Reading T-SQL conditions

    The reference a WHERE clause is read with: an operator-precedence reader of
    the expressions T-SQL shares with what the encoder writes (columns in
    brackets, constants, the function calls of the mapping, CASE, and the
    operators with one blank on either side), on the items of the lexer, into
    [tsql]. Below it, how a text is shown to read as an expression: [spells]. *)

From S2P Require Import Prelude Sql SqlRead.

Inductive binary : Type := Or | And | Eq | Ne | Lt | Gt | Le | Ge | Like | Add | Sub | Mul | Mod.

(** Conditions and values alike; [TCall f e] is a call, of which [f] is the text
    up to the argument. *)
Inductive tsql : Type :=
  | TColumn (name : bytes)
  | TConst (c : constant)
  | TNot (e : tsql)
  | TNeg (e : tsql)
  | TBinary (op : binary) (l r : tsql)
  | TIsNull (positive : bool) (e : tsql)
  | TBetween (e lower upper : tsql)
  | TIn (e : tsql) (es : list tsql)
  | TCall (f : bytes) (e : tsql)
  | TCase (whens : list (tsql * tsql)) (else_ : tsql).

Inductive infix_op : Type := Binary (op : binary) | IsNullOp (positive : bool) | BetweenOp | InOp.

(** The operators after an expression, with their binding strength. *)
Definition infixes : list (bytes * (nat * infix_op)) :=
  [(tx " OR ", (1%nat, Binary Or)); (tx " AND ", (2%nat, Binary And)); (tx " = ", (4%nat, Binary Eq)); (tx " <> ", (4%nat, Binary Ne));
   (tx " < ", (4%nat, Binary Lt)); (tx " > ", (4%nat, Binary Gt)); (tx " <= ", (4%nat, Binary Le)); (tx " >= ", (4%nat, Binary Ge));
   (tx " LIKE ", (4%nat, Binary Like)); (tx " IS NULL", (4%nat, IsNullOp true)); (tx " IS NOT NULL", (4%nat, IsNullOp false));
   (tx " BETWEEN ", (4%nat, BetweenOp)); (tx " IN (", (4%nat, InOp)); (tx " + ", (5%nat, Binary Add)); (tx " - ", (5%nat, Binary Sub));
   (tx " * ", (6%nat, Binary Mul)); (tx " % ", (6%nat, Binary Mod))].

(** The first of some texts that the items begin with. *)
Fixpoint first_of {A} (table : list (bytes * A)) (l : list item) : option (A * list item) :=
  match table with
  | [] => None
  | (p, a) :: table => match eat p l with Some r => Some (a, r) | None => first_of table l end
  end.

Definition infix : list item -> option (nat * infix_op * list item) := first_of infixes.

Definition calls : list (bytes * bytes) :=
  (fun f => (f, f)) <$> [tx "LOWER("; tx "UPPER("; tx "LTRIM("; tx "RTRIM("; tx "YEAR("; tx "MONTH("; tx "DAY(";
    tx "DATEPART(HOUR, "; tx "DATEPART(MINUTE, "; tx "DATEPART(SECOND, "].

(** What an operand begins with. *)
Inductive prefix : Type := Paren | NotOp | NegOp | CaseOp | Call (f : bytes) | Column (name : bytes) | Literal.

Definition head (l : list item) : option (prefix * list item) :=
  if starts_literal l then Some (Literal, l) else
  match l with
  | Name s :: l => Some (Column s, l)
  | _ =>
      match first_of calls l with
      | Some (f, l) => Some (Call f, l)
      | None => first_of [(tx "(", Paren); (tx "NOT ", NotOp); (tx "-", NegOp); (tx "CASE", CaseOp)] l
      end
  end.

(** The WHEN clauses, for a reader of expressions. *)
Section Whens.
Context (one : list item -> option (tsql * list item)).

Fixpoint read_whens (fuel : nat) (l : list item) : option (list (tsql * tsql) * list item) :=
  match fuel with
  | O => None
  | S fuel =>
      match eat (tx " WHEN ") l with
      | None => Some ([], l)
      | Some l =>
          '(w, l) ← one l; l ← eat (tx " THEN ") l; '(t, l) ← one l;
          '(r, l) ← read_whens fuel l; Some ((w, t) :: r, l)
      end
  end.
End Whens.

(** An expression of operators of strength at least [minp]: [operand], and the
    operators that follow. *)
Fixpoint parse (fuel minp : nat) (l : list item) : option (tsql * list item) :=
  match fuel with
  | O => None
  | S fuel => '(e, l) ← operand fuel l; climb fuel minp e l
  end
with operand (fuel : nat) (l : list item) : option (tsql * list item) :=
  match fuel with
  | O => None
  | S fuel =>
      '(h, l) ← head l;
      match h with
      | Literal => '(w, l) ← take_until true 0 l; c ← read_constant w; Some (TConst c, l)
      | Column name => Some (TColumn name, l)
      | Call f => '(e, l) ← parse fuel 0 l; l ← eat (tx ")") l; Some (TCall f e, l)
      | Paren => '(e, l) ← parse fuel 0 l; l ← eat (tx ")") l; Some (e, l)
      | NotOp => '(e, l) ← parse fuel 3 l; Some (TNot e, l)
      | NegOp => '(e, l) ← parse fuel 7 l; Some (TNeg e, l)
      | CaseOp =>
          '(ws, l) ← read_whens (parse fuel 0) fuel l;
          l ← eat (tx " ELSE ") l; '(e, l) ← parse fuel 0 l; l ← eat (tx " END") l; Some (TCase ws e, l)
      end
  end
with climb (fuel minp : nat) (e : tsql) (l : list item) : option (tsql * list item) :=
  match fuel with
  | O => None
  | S fuel =>
      match infix l with
      | None => Some (e, l)
      | Some (p, op, r) =>
          if (p <? minp)%nat then Some (e, l) else
          match op with
          | Binary b => '(x, l) ← parse fuel (S p) r; climb fuel minp (TBinary b e x) l
          | IsNullOp positive => climb fuel minp (TIsNull positive e) r
          | BetweenOp =>
              '(x, l) ← parse fuel 5 r; l ← eat (tx " AND ") l; '(y, l) ← parse fuel 5 l; climb fuel minp (TBetween e x y) l
          | InOp => '(xs, l) ← separated (parse fuel 0) (tx ", ") fuel r; l ← eat (tx ")") l; climb fuel minp (TIn e xs) l
          end
      end
  end.

(** A whole text. *)
Definition parse_condition (s : bytes) : option tsql :=
  l ← lex s;
  match parse (8 * S (length l)) 0 l with Some (e, []) => Some e | _ => None end.

(** ** Texts that read as expressions *)

(** The strength of the next operator is at most [p]. *)
Definition weak (p : nat) (l : list item) : Prop :=
  match infix l with Some (q, _, _) => (q <= p)%nat | None => True end.

Lemma weak_mono p q l : weak p l -> (p <= q)%nat -> weak q l.
Proof. unfold weak. destruct (infix l) as [[[? ?] ?]|]; [lia|done]. Qed.

(** [ts] spells [e] with operators of strength at least [p]: wherever it stands
    the reader takes it off and goes on with what follows; [n] is the fuel. *)
Definition spells_in (n p : nat) (e : tsql) (ts : list item) : Prop :=
  forall fuel minp l, (n <= fuel)%nat -> (minp <= p)%nat -> follows l -> weak p l ->
    exists fuel', (fuel <= fuel' + n)%nat /\ parse fuel minp (ts ++ l) = climb fuel' minp e l.

Lemma climb_stop fuel minp e l : (1 <= fuel)%nat -> (forall p, minp = S p -> weak p l) -> (minp = O -> infix l = None) -> climb fuel minp e l = Some (e, l).
Proof.
  intros Hf Hw Hn. destruct fuel as [|fuel]; [lia|]. cbn [climb]. destruct (infix l) as [[[q op] r]|] eqn:Ei; [|done].
  destruct minp as [|p]; [by discriminate Hn|]. specialize (Hw p eq_refl). unfold weak in Hw. rewrite Ei in Hw.
  by destruct (Nat.ltb_spec q (S p)); [|lia].
Qed.

Lemma spells_in_le n m p e ts : spells_in n p e ts -> (n <= m)%nat -> spells_in m p e ts.
Proof. intros H Hm fuel minp l Hf Hp Hl Hw. destruct (H fuel minp l) as (f & Hff & E); [lia|done..|]. exists f. split; [lia|done]. Qed.

Definition spells (p : nat) (e : tsql) (ts : list item) : Prop := spells_in (4 * length ts) p e ts.

Lemma follows_chars p l : (exists c r, p = c :: r /\ c ∈ [PARR; COMMA; BLANK]) -> follows (chars p ++ l).
Proof. intros (c & r & -> & Hc). right. exists c, (chars r ++ l). by split. Qed.

#[local] Ltac decided := match goal with |- ?P => exact (bool_decide_eq_true_1 P (eq_refl true)) end.
#[local] Ltac follow := apply follows_chars; eexists _, _; (split; [reflexivity|]); decided.

(** What an expression is followed by inside parentheses, calls and CASE. *)
Lemma closed_parse n e ts p l : spells_in n 0 e ts -> (exists c r, p = c :: r /\ c ∈ [PARR; COMMA; BLANK]) ->
  infix (chars p ++ l) = None -> forall fuel, (n < fuel)%nat -> parse fuel 0 (ts ++ chars p ++ l) = Some (e, chars p ++ l).
Proof.
  intros H Hp Hi fuel Hf. destruct (H fuel 0%nat (chars p ++ l)) as (f & Hff & ->); [lia|lia|by apply follows_chars|by unfold weak; rewrite Hi|].
  apply climb_stop; [lia|done|done].
Qed.

(** What a right operand is followed by. *)
Lemma operand_parse n q e ts p l : spells_in n q e ts -> (p < q)%nat -> follows l -> weak p l ->
  forall fuel, (n < fuel)%nat -> parse fuel (S p) (ts ++ l) = Some (e, l).
Proof.
  intros H Hp Hl Hw fuel Hf. destruct (H fuel (S p) l) as (f & Hff & ->); [lia|lia|done|by eapply weak_mono; [|apply Nat.lt_le_incl]|].
  apply climb_stop; [lia| |done]. by intros ? [= <-].
Qed.

Lemma spells_weaken p q e ts : spells q e ts -> (p <= q)%nat -> spells p e ts.
Proof. intros H Hp fuel minp l Hf Hm Hl Hw. apply H; [done|lia|done|by eapply weak_mono]. Qed.

(** An operand on its own. *)
Lemma spells_operand n p e ts :
  (forall fuel l, (n <= fuel)%nat -> follows l -> operand fuel (ts ++ l) = Some (e, l)) -> (S n <= 4 * length ts)%nat -> spells p e ts.
Proof.
  intros H Hn fuel minp l Hf Hp Hl Hw. destruct fuel as [|fuel]; [lia|]. cbn [parse]. rewrite H by (done || lia). cbn [mbind option_bind].
  exists fuel. split; [lia|done].
Qed.

Lemma spells_column name : spells 7 (TColumn name) [Name name].
Proof. apply (spells_operand 1); [|cbn; lia]. intros [|fuel] l Hf _; [lia|]. done. Qed.

Lemma spells_literal s c ts : literal s c ts -> ts <> [] -> spells 7 (TConst c) ts.
Proof.
  intros [Hr Hw Hc Hh] Hne. apply (spells_operand 1); [|destruct ts; [done|cbn [length]; lia]].
  intros [|fuel] l Hf Hl; [lia|]. cbn [operand]. unfold head. rewrite Hh by done. cbn [mbind option_bind]. rewrite Hw, take_word_stop by done.
  cbn [prepend mbind option_bind]. by rewrite app_nil_r, Hc.
Qed.

Lemma length_chars p : length (chars p) = length p.
Proof. apply length_fmap. Qed.

(** [(] and [-] before anything but a digit. *)
Lemma head_paren l : head (chars (tx "(") ++ l) = Some (Paren, l).
Proof.
  unfold head. change (chars (tx "(") ++ l) with (Ch PARL :: l). by destruct l as [|[b|n|t] l].
Qed.

Definition after_minus (l : list item) : Prop := match l with Ch b :: _ => is_digit b = false /\ b <> DASH | _ => True end.

Lemma head_minus l : after_minus l -> head (chars (tx "-") ++ l) = Some (NegOp, l).
Proof.
  unfold head. change (chars (tx "-") ++ l) with (Ch DASH :: l). destruct l as [|[b|n|t] l]; [done| |done..]. cbn. intros [Hd Hb].
  by rewrite Hd.
Qed.

(** Something closed: parentheses, or a call. *)
Lemma spells_closed h (wrap : tsql -> tsql) pre e ts :
  (forall l, head (chars pre ++ l) = Some (h, l)) -> (1 <= length pre)%nat ->
  (forall fuel l, operand (S fuel) (chars pre ++ l) = ('(e, l) ← parse fuel 0 l; l ← eat (tx ")") l; Some (wrap e, l))) ->
  spells 0 e ts -> spells 7 (wrap e) (chars pre ++ ts ++ chars (tx ")")).
Proof.
  intros Hh Hpre Ho H. apply (spells_operand (4 * length ts + 3)); [|rewrite !length_app, !length_chars; cbn; lia].
  intros [|fuel] l Hf Hl; [lia|]. rewrite <- !app_assoc, Ho.
  rewrite (closed_parse _ _ _ _ _ H) by (reflexivity || lia || (eexists _, _; split; [reflexivity|decided])).
  cbn [mbind option_bind]. by rewrite eat_chars.
Qed.

Lemma spells_paren e ts : spells 0 e ts -> spells 7 e (chars (tx "(") ++ ts ++ chars (tx ")")).
Proof.
  apply (spells_closed Paren (fun e => e)); [apply head_paren|done|]. intros fuel l. cbn [operand]. by rewrite head_paren.
Qed.

Lemma spells_call f e ts : f ∈ calls.*1 -> spells 0 e ts -> spells 7 (TCall f e) (chars f ++ ts ++ chars (tx ")")).
Proof.
  intros Hf. assert (Hh : forall l, head (chars f ++ l) = Some (Call f, l)).
  { intros l. repeat (apply elem_of_cons in Hf as [->|Hf]; [reflexivity|]). by apply elem_of_nil in Hf. }
  apply (spells_closed (Call f) (TCall f)); [done| |].
  - repeat (apply elem_of_cons in Hf as [->|Hf]; [cbn; lia|]). by apply elem_of_nil in Hf.
  - intros fuel l. cbn [operand]. by rewrite Hh.
Qed.

(** Signs and negations. *)
Lemma spells_prefix (wrap : tsql -> tsql) p pre e ts :
  (forall fuel l, operand (S fuel) (chars pre ++ ts ++ l) = ('(e, l) ← parse fuel (S p) (ts ++ l); Some (wrap e, l))) ->
  (1 <= length pre)%nat -> spells (S p) e ts -> spells p (wrap e) (chars pre ++ ts).
Proof.
  intros Ho Hpre H fuel minp l Hf Hp Hl Hw. rewrite length_app, length_chars in *. destruct fuel as [|[|fuel]]; [lia|lia|].
  cbn [parse]. rewrite <- app_assoc, Ho.
  rewrite (operand_parse _ _ _ _ _ _ H) by (done || lia). cbn [mbind option_bind]. exists (S fuel). split; [lia|done].
Qed.

Lemma spells_not e ts : spells 3 e ts -> spells 2 (TNot e) (chars (tx "NOT ") ++ ts).
Proof. apply (spells_prefix TNot 2 (tx "NOT ")); [|by cbn; lia]. done. Qed.

Lemma spells_neg e ts : ts <> [] -> after_minus ts -> spells 7 e ts -> spells 6 (TNeg e) (chars (tx "-") ++ ts).
Proof.
  intros Hne Hm. apply (spells_prefix TNeg 6 (tx "-")); [|by cbn; lia]. intros fuel l. cbn [operand]. rewrite head_minus; [done|].
  by destruct ts as [|[] ts].
Qed.

(** Operators. *)
Lemma spells_infix n p q op pre (wrap : tsql -> tsql) e ts rest :
  spells q e ts -> (p <= q)%nat -> (forall l, infix (chars pre ++ l) = Some (p, op, l)) -> (exists c r, pre = c :: r /\ c ∈ [PARR; COMMA; BLANK]) ->
  (forall fuel minp l, (n <= fuel)%nat -> (minp <= p)%nat -> follows l -> weak p l ->
     climb (S fuel) minp e (chars pre ++ rest ++ l) = climb fuel minp (wrap e) l) ->
  (n + 2 <= 4 * (length pre + length rest))%nat ->
  spells p (wrap e) (ts ++ chars pre ++ rest).
Proof.
  intros H Hpq Hi Hpre Hc Hn fuel minp l Hf Hp Hl Hw. rewrite !length_app, length_chars in *. rewrite <- !app_assoc.
  destruct (H fuel minp (chars pre ++ rest ++ l)) as (f & Hff & ->); [lia|lia|by apply follows_chars|unfold weak; rewrite Hi; lia|].
  destruct f as [|f]; [lia|]. rewrite Hc by (done || lia). exists f. split; [lia|done].
Qed.

Lemma spells_binary p q1 q2 op pre l r tl tr :
  spells q1 l tl -> spells q2 r tr -> (p <= q1)%nat -> (p < q2)%nat ->
  (forall x, infix (chars pre ++ x) = Some (p, Binary op, x)) -> (exists c r, pre = c :: r /\ c ∈ [PARR; COMMA; BLANK]) ->
  spells p (TBinary op l r) (tl ++ chars pre ++ tr).
Proof.
  intros Hl Hr Hp1 Hp2 Hi Hpre. assert (1 <= length pre)%nat by (destruct Hpre as (c & r' & -> & _); cbn; lia).
  apply (spells_infix (4 * length tr + 1) p q1 (Binary op) pre (fun e => TBinary op e r)); [done..| |lia].
  intros fuel minp x Hf Hm Hx Hw. cbn [climb]. rewrite Hi. destruct (Nat.ltb_spec p minp); [lia|].
  rewrite (operand_parse _ _ _ _ _ _ Hr) by (done || lia). done.
Qed.

Lemma spells_is_null positive e ts : spells 4 e ts -> 
  spells 4 (TIsNull positive e) (ts ++ chars (if positive then tx " IS NULL" else tx " IS NOT NULL")).
Proof.
  intros H. rewrite <- (app_nil_r (chars _)). 
  apply (spells_infix 0 4 4 (IsNullOp positive) _ (TIsNull positive)); [done|done|by destruct positive| | |by destruct positive; cbn; lia].
  - destruct positive; eexists _, _; (split; [reflexivity|decided]).
  - intros fuel minp l _ Hm _ _. cbn [climb app]. assert (infix (chars (if positive then tx " IS NULL" else tx " IS NOT NULL") ++ l) = Some (4%nat, IsNullOp positive, l)) as -> by by destruct positive.
    by destruct (Nat.ltb_spec 4 minp); [lia|].
Qed.

Lemma spells_between e lo hi te tlo thi : spells 7 e te -> spells 7 lo tlo -> spells 7 hi thi ->
  spells 4 (TBetween e lo hi) (te ++ chars (tx " BETWEEN ") ++ tlo ++ chars (tx " AND ") ++ thi).
Proof.
  intros He Hlo Hhi. apply (spells_infix (4 * (length tlo + length thi) + 2) 4 7 BetweenOp _ (fun e => TBetween e lo hi)); [done|lia|done| | |].
  - eexists _, _; (split; [reflexivity|decided]).
  - intros fuel minp l Hf Hm Hl Hw. cbn [climb]. rewrite <- !app_assoc.
    change (infix (chars (tx " BETWEEN ") ++ tlo ++ chars (tx " AND ") ++ thi ++ l)) with (Some (4%nat, BetweenOp, tlo ++ chars (tx " AND ") ++ thi ++ l)).
    cbv iota beta. destruct (Nat.ltb_spec 4 minp); [lia|].
    rewrite (operand_parse _ _ _ _ 4 _ Hlo) by (lia || follow || (change (2 <= 4)%nat; lia)). cbn [mbind option_bind]. rewrite eat_chars. cbn [mbind option_bind].
    by rewrite (operand_parse _ _ _ _ 4 _ Hhi) by (done || lia).
  - rewrite !length_app, !length_chars. cbn. lia.
Qed.

(** A list in parentheses after [IN]. *)
Lemma separated_spells fuel es tss l : es <> [] -> Forall2 (spells 0) es tss ->
  (4 * length (join (chars (tx ", ")) tss) + 1 <= fuel)%nat ->
  forall k, (length es <= k)%nat ->
  separated (parse fuel 0) (tx ", ") k (join (chars (tx ", ")) tss ++ chars (tx ")") ++ l) = Some (es, chars (tx ")") ++ l).
Proof.
  intros Hne H. revert Hne. induction H as [|e ts es tss He H IH]; intros Hne Hf k Hk; [done|]. destruct k as [|k]; [cbn in Hk; lia|].
  cbn [separated]. destruct H as [|e' ts' es tss He' H].
  - cbn [join] in *. by rewrite (closed_parse _ _ _ _ _ He) by (reflexivity || lia || (eexists _, _; split; [reflexivity|decided])).
  - rewrite join_cons, <- !app_assoc. rewrite join_cons, !length_app in Hf.
    rewrite (closed_parse _ _ _ (tx ", ") _ He) by (reflexivity || lia || (eexists _, _; split; [reflexivity|decided])).
    cbn [mbind option_bind]. rewrite eat_chars, IH by (done || lia || (cbn [length] in *; lia)). done.
Qed.

Lemma spells_in_list e es te tss : es <> [] -> spells 7 e te -> Forall2 (spells 0) es tss ->
  spells 4 (TIn e es) (te ++ chars (tx " IN (") ++ join (chars (tx ", ")) tss ++ chars (tx ")")).
Proof.
  intros Hne He Hes. apply (spells_infix (4 * length (join (chars (tx ", ")) tss) + 2) 4 7 InOp _ (fun e => TIn e es)); [done|lia|done| | |].
  - eexists _, _; (split; [reflexivity|decided]).
  - intros fuel minp l Hf Hm Hl Hw. cbn [climb]. rewrite <- !app_assoc.
    change (infix (chars (tx " IN (") ++ join (chars (tx ", ")) tss ++ chars (tx ")") ++ l))
      with (Some (4%nat, InOp, join (chars (tx ", ")) tss ++ chars (tx ")") ++ l)).
    cbv iota beta. destruct (Nat.ltb_spec 4 minp); [lia|].
    rewrite (separated_spells fuel es tss l Hne Hes); [|lia|]; [cbn [mbind option_bind]; by rewrite eat_chars|].
    rewrite (Forall2_length _ _ _ Hes). pose proof (length_join (chars (tx ", ")) tss ltac:(done)). lia.
  - rewrite !length_app, !length_chars. cbn. lia.
Qed.

(** CASE. *)
Fixpoint when_items (ws : list (list item * list item)) : list item :=
  match ws with
  | [] => []
  | (w, t) :: ws => chars (tx " WHEN ") ++ w ++ chars (tx " THEN ") ++ t ++ when_items ws
  end.

Lemma read_whens_spells fuel ws ts l : Forall2 (fun w t => spells 0 w.1 t.1 /\ spells 0 w.2 t.2) ws ts ->
  (4 * length (when_items ts) + 1 <= fuel)%nat -> forall k, (length ws < k)%nat ->
  read_whens (parse fuel 0) k (when_items ts ++ chars (tx " ELSE ") ++ l) = Some (ws, chars (tx " ELSE ") ++ l).
Proof.
  intros H. induction H as [|[w t] [tw tt] ws ts [Hw Ht] H IH]; intros Hf k Hk; (destruct k as [|k]; [lia|]).
  - done.
  - cbn [when_items fst snd] in *. rewrite !length_app, !length_chars in Hf. rewrite <- !app_assoc. cbn [read_whens]. rewrite eat_chars.
    rewrite (closed_parse _ _ _ (tx " THEN ") _ Hw) by (reflexivity || lia || (eexists _, _; split; [reflexivity|decided])).
    cbn [mbind option_bind]. rewrite eat_chars. cbn [mbind option_bind].
    assert (E : forall r, parse fuel 0 (tt ++ when_items ts ++ chars (tx " ELSE ") ++ l) = r ->
      r = Some (t, when_items ts ++ chars (tx " ELSE ") ++ l)).
    { intros r <-. destruct ts as [|[tw' tt'] ts]; [|cbn [when_items]; rewrite <- !app_assoc]; apply (closed_parse _ _ _ _ _ Ht); first [reflexivity|lia|eexists _, _; split; [reflexivity|decided]]. }
    rewrite (E _ eq_refl). cbn [mbind option_bind]. rewrite IH by (lia || (cbn [length] in Hk; lia)). done.
Qed.

Lemma spells_case ws e ts te : Forall2 (fun w t => spells 0 w.1 t.1 /\ spells 0 w.2 t.2) ws ts -> spells 0 e te ->
  spells 7 (TCase ws e) (chars (tx "CASE") ++ when_items ts ++ chars (tx " ELSE ") ++ te ++ chars (tx " END")).
Proof.
  intros Hws He. apply (spells_operand (4 * (length (when_items ts) + length te) + 3)); [|rewrite !length_app, !length_chars; cbn; lia].
  intros [|fuel] l Hf Hl; [lia|]. cbn [operand]. rewrite <- !app_assoc.
  change (head (chars (tx "CASE") ++ when_items ts ++ chars (tx " ELSE ") ++ te ++ chars (tx " END") ++ l))
    with (Some (CaseOp, when_items ts ++ chars (tx " ELSE ") ++ te ++ chars (tx " END") ++ l)).
  cbn [mbind option_bind]. rewrite (read_whens_spells _ _ _ _ Hws) by
    (lia || (enough (length ws <= length (when_items ts))%nat by lia; clear -Hws; induction Hws as [|w [tw tt] ws ts _ _ IH]; cbn [when_items length]; [lia|];
       rewrite !length_app, !length_chars; cbn; lia)).
  cbn [mbind option_bind]. rewrite eat_chars. cbn [mbind option_bind].
  rewrite (closed_parse _ _ _ (tx " END") _ He) by (reflexivity || lia || (eexists _, _; split; [reflexivity|decided])).
  cbn [mbind option_bind]. by rewrite eat_chars.
Qed.

(** Chains of one operator. *)
Definition chain (op : binary) (e : tsql) (es : list tsql) : tsql := foldl (TBinary op) e es.

Lemma spells_chain p q op pre e es t ts :
  (forall x, infix (chars pre ++ x) = Some (p, Binary op, x)) -> (exists c r, pre = c :: r /\ c ∈ [PARR; COMMA; BLANK]) -> (p < q)%nat ->
  spells q e t -> Forall2 (spells q) es ts -> spells p (chain op e es) (join (chars pre) (t :: ts)).
Proof.
  intros Hi Hpre Hpq He Hes. apply (spells_weaken p) in He; [|lia]. revert e t He.
  induction Hes as [|e' t' es ts He' Hes IH]; intros e t He; [done|].
  rewrite join_cons. cbn [chain foldl].
  assert (E : t ++ chars pre ++ join (chars pre) (t' :: ts) = join (chars pre) ((t ++ chars pre ++ t') :: ts)).
  { destruct ts as [|t2 ts]; [done|]. by rewrite !join_cons, <- !app_assoc. }
  rewrite E. apply IH. by eapply spells_binary.
Qed.

(** A whole text. *)
Lemma spells_parse s e ts : reads0 s ts -> spells 0 e ts -> parse_condition s = Some e.
Proof.
  intros Hs He. unfold parse_condition. rewrite (reads0_lex _ _ Hs). cbn [mbind option_bind].
  destruct (He (8 * S (length ts))%nat 0%nat []) as (f & Hf & E); [lia|lia|by left|done|]. rewrite app_nil_r in E. rewrite E.
  destruct f as [|f]; [lia|]. done.
Qed.
