(* ===== verification/FilterSem.v ===== *)
(** * What filters and conditions mean

    Values, NULL among them, are an abstract type that both systems share; a
    truth value is an [option bool], [None] being unknown. [duck] evaluates
    DuckDB's expressions and filters, [eval] the T-SQL the reader of [SqlExpr]
    finds. The class [Engines] has the primitives of both systems, and [Agree]
    says in what they have to agree for pushdown to be right: the comparisons,
    the functions of the mapping table, casts that change nothing, constants.
    These are what the source's comments claim of the two systems; they hold for
    SQL Server under a binary collation. Floating-point constants, whose text is
    near the value and not equal to it, are left out. *)

From S2P Require Import Prelude Sql SqlRead SqlExpr TdsTypes Values Codecs Literals LiteralsSpec Dml Filter.

(** ** Truth values *)

Definition not3 (t : option bool) : option bool := negb <$> t.

Definition and3 (a b : option bool) : option bool :=
  match a, b with
  | Some false, _ | _, Some false => Some false
  | Some true, Some true => Some true
  | _, _ => None
  end.

Definition or3 (a b : option bool) : option bool :=
  match a, b with
  | Some true, _ | _, Some true => Some true
  | Some false, Some false => Some false
  | _, _ => None
  end.

Definition all3 (l : list (option bool)) : option bool := foldr and3 (Some true) l.
Definition any3 (l : list (option bool)) : option bool := foldr or3 (Some false) l.

(** ** LIKE

    A pattern's items: any text, any one character, a character of a set, that
    character. Ranges and complements, which are never written, are left out. *)

Inductive pattern_item : Type := AnyText | AnyOne | OneOf (set : bytes) | This (b : byte).

Fixpoint pattern_items (fuel : nat) (p : bytes) : list pattern_item :=
  match fuel, p with
  | O, _ | _, [] => []
  | S fuel, b :: p =>
      if bool_decide (b = z2b 0x25) then AnyText :: pattern_items fuel p
      else if bool_decide (b = z2b 0x5F) then AnyOne :: pattern_items fuel p
      else if bool_decide (b = z2b 0x5B) then
        match cut (z2b 0x5D) p with
        | Some (set, p) => OneOf set :: pattern_items fuel p
        | None => This b :: pattern_items fuel p
        end
      else This b :: pattern_items fuel p
  end.

Fixpoint matches (p : list pattern_item) (s : bytes) : bool :=
  match p with
  | [] => bool_decide (s = [])
  | AnyText :: p => (fix skip s := matches p s || match s with [] => false | _ :: s => skip s end) s
  | AnyOne :: p => match s with [] => false | _ :: s => matches p s end
  | OneOf set :: p => match s with [] => false | b :: s => bool_decide (b ∈ set) && matches p s end
  | This c :: p => match s with [] => false | b :: s => bool_decide (b = c) && matches p s end
  end.

Definition like (pattern s : bytes) : bool := matches (pattern_items (S (length pattern)) pattern) s.

(** ** The two systems *)

Definition comparisons : list binary := [Eq; Ne; Lt; Gt; Le; Ge].

Class Engines : Type := {
  V : Type;
  is_null : V -> bool;
  (** A truth value as a value (BOOLEAN, bit), and back. *)
  bit : option bool -> V;
  truth : V -> option bool;
  (** The text of a string. *)
  text : V -> option bytes;
  compare : binary -> V -> V -> option bool;
  (** T-SQL. *)
  constant_value : constant -> V;
  arith : binary -> V -> V -> V;
  negative : V -> V;
  call : bytes -> V -> V;
  (** DuckDB: [cast from to]. *)
  value_of : field -> V;
  struct_value : list V -> V;
  cast : LogicalType -> LogicalType -> V -> V;
  function : bytes -> list V -> V;
  lower : bytes -> bytes
}.

(** DuckDB's functions of the mapping and the calls they stand for. *)
Definition unary_calls : list (bytes * bytes) :=
  [(tx "lower", tx "LOWER("); (tx "upper", tx "UPPER("); (tx "ltrim", tx "LTRIM("); (tx "rtrim", tx "RTRIM(");
   (tx "year", tx "YEAR("); (tx "month", tx "MONTH("); (tx "day", tx "DAY(");
   (tx "hour", tx "DATEPART(HOUR, "); (tx "minute", tx "DATEPART(MINUTE, "); (tx "second", tx "DATEPART(SECOND, ")].
Definition binary_functions : list (bytes * binary) := [(tx "+", Add); (tx "-", Sub); (tx "*", Mul); (tx "%", Mod)].

Definition is_prefix (p s : bytes) : bool := bool_decide (p `prefix_of` s).
Definition is_suffix (p s : bytes) : bool := bool_decide (p `suffix_of` s).
Fixpoint is_infix (p s : bytes) : bool := is_prefix p s || match s with [] => false | _ :: s => is_infix p s end.

(** The functions that become LIKE, on texts; [true] for the ones that ignore
    case. *)
Definition like_functions : list (bytes * (bool * (bytes -> bytes -> bool))) :=
  [(tx "prefix", (false, is_prefix)); (tx "suffix", (false, is_suffix)); (tx "contains", (false, is_infix));
   (tx "iprefix", (true, is_prefix)); (tx "isuffix", (true, is_suffix)); (tx "icontains", (true, is_infix))].

Class Agree `{DuckDB} `{Values_} {En : Engines} : Prop := {
  truth_bit t : truth (bit t) = t;
  is_null_bit t : is_null (bit t) = bool_decide (t = None);
  compare_bit t : compare Eq (bit t) (constant_value (CInt 1)) = t;
  compare_sym v w : compare Eq v w = compare Eq w v;
  constant_agrees v c : good_value v -> denoted v = Ok c -> constant_value c = value_of (Plain v);
  constant_text s : text (constant_value (CString true s)) = Some s;
  (** A composite rowid is compared key by key. *)
  struct_agrees vs cs : length vs = length cs -> Forall (fun c => IsNull c = false) cs ->
    compare Eq (struct_value vs) (value_of (Struct cs)) = all3 (zip_with (fun v c => compare Eq v (value_of (Plain c))) vs cs);
  cast_text t u v : id t = VARCHAR -> id u = VARCHAR -> cast t u v = v;
  cast_precision name t u v : IsDatePartFunction name = true -> IsNaiveTimestampType (id t) = true -> IsNaiveTimestampType (id u) = true ->
    function name [cast t u v] = function name [v];
  unary_agrees name f v : (name, f) ∈ unary_calls -> function name [v] = call f v;
  trim_agrees v : function (tx "trim") [v] = call (tx "LTRIM(") (call (tx "RTRIM(") v);
  negate_agrees v : function (tx "negate") [v] = negative v;
  binary_agrees name op v w : (name, op) ∈ binary_functions -> function name [v; w] = arith op v w;
  function_case name vs : function name vs = function (ToLower name) vs;
  (** Text functions, and LOWER on texts. *)
  like_agrees name fold holds v w : (name, (fold, holds)) ∈ like_functions ->
    function name [v; w] = bit (match text v, text w with
                                | Some s, Some p => Some (if (fold : bool) then holds (lower p) (lower s) else holds p s)
                                | _, _ => None end);
  lower_text v : text (call (tx "LOWER(") v) = lower <$> text v;
  lower_prefix p : lower (EscapeLikePattern p ++ tx "%") = EscapeLikePattern (lower p) ++ tx "%";
  lower_suffix p : lower (tx "%" ++ EscapeLikePattern p) = tx "%" ++ EscapeLikePattern (lower p);
  lower_infix p : lower (tx "%" ++ EscapeLikePattern p ++ tx "%") = tx "%" ++ EscapeLikePattern (lower p) ++ tx "%"
}.

Section Meaning.
Context {En : Engines}.

(** ** T-SQL *)

(** A value or a truth value; anything else is no expression. *)
Inductive meaning : Type := Val (v : V) | Truth (t : option bool) | Ill.

Definition tsql_binary (op : binary) (a b : meaning) : meaning :=
  match op, a, b with
  | And, Truth a, Truth b => Truth (and3 a b)
  | Or, Truth a, Truth b => Truth (or3 a b)
  | Like, Val a, Val b => Truth (match text a, text b with Some s, Some p => Some (like p s) | _, _ => None end)
  | (Add | Sub | Mul | Mod) as op, Val a, Val b => Val (arith op a b)
  | (Eq | Ne | Lt | Gt | Le | Ge) as op, Val a, Val b => Truth (compare op a b)
  | _, _, _ => Ill
  end.

Definition case_of (w t rest : meaning) : meaning :=
  match w, t, rest with
  | Truth w, Val t, Val r => Val (if bool_decide (w = Some true) then t else r)
  | _, _, _ => Ill
  end.

Fixpoint eval (row : bytes -> V) (e : tsql) : meaning :=
  match e with
  | TColumn name => Val (row name)
  | TConst c => Val (constant_value c)
  | TNot e => match eval row e with Truth t => Truth (not3 t) | _ => Ill end
  | TNeg e => match eval row e with Val v => Val (negative v) | _ => Ill end
  | TBinary op l r => tsql_binary op (eval row l) (eval row r)
  | TIsNull positive e => match eval row e with Val v => Truth (Some (Bool.eqb (is_null v) positive)) | _ => Ill end
  | TBetween e lo hi =>
      tsql_binary And (tsql_binary Ge (eval row e) (eval row lo)) (tsql_binary Le (eval row e) (eval row hi))
  | TIn e es => foldr (fun x r => tsql_binary Or (tsql_binary Eq (eval row e) (eval row x)) r) (Truth (Some false)) es
  | TCall f e => match eval row e with Val v => Val (call f v) | _ => Ill end
  | TCase ws e => foldr (fun w r => case_of (eval row w.1) (eval row w.2) r) (eval row e) ws
  end.

(** A row passes a WHERE clause. *)
Definition passes (row : bytes -> V) (e : tsql) : bool :=
  match eval row e with Truth t => bool_decide (t = Some true) | _ => false end.

(** ** DuckDB *)

Definition duck_compare (op : ComparisonType) (a b : V) : option bool :=
  match op with
  | Equal => compare Eq a b
  | NotEqual => compare Ne a b
  | LessThan => compare Lt a b
  | GreaterThan => compare Gt a b
  | LessThanOrEqualTo => compare Le a b
  | GreaterThanOrEqualTo => compare Ge a b
  | DistinctFrom => if is_null a || is_null b then Some (negb (Bool.eqb (is_null a) (is_null b))) else compare Ne a b
  | NotDistinctFrom => if is_null a || is_null b then Some (Bool.eqb (is_null a) (is_null b)) else compare Eq a b
  end.

(** What an expression refers to: the projected columns, the column of a filter,
    and what the encoder does not look into. *)
Record env : Type := mkEnv { column : Z -> V; self : V; opaque : Expression -> V }.

Fixpoint duck (r : env) (e : Expression) : V :=
  match e with
  | BoundColumnRef _ i => column r i
  | BoundReference _ i => if i =? 0 then self r else opaque r e
  | BoundConstant _ value => value_of value
  | BoundCast t c => cast (GetReturnType c) t (duck r c)
  | BoundComparison op a b => bit (duck_compare op (duck r a) (duck r b))
  | BoundBetween li ui i l u =>
      bit (and3 (duck_compare (if li then GreaterThanOrEqualTo else GreaterThan) (duck r i) (duck r l))
                (duck_compare (if ui then LessThanOrEqualTo else LessThan) (duck r i) (duck r u)))
  | BoundFunction _ name args => function name (duck r <$> args)
  | BoundConjunction is_and es => bit ((if is_and then all3 else any3) ((fun e => truth (duck r e)) <$> es))
  | BoundOperator _ op es =>
      match op, es with
      | OPERATOR_NOT, [e] => bit (not3 (truth (duck r e)))
      | OPERATOR_IS_NULL, [e] => bit (Some (is_null (duck r e)))
      | OPERATOR_IS_NOT_NULL, [e] => bit (Some (negb (is_null (duck r e))))
      | _, _ => opaque r e
      end
  | BoundCase _ checks else_expr =>
      foldr (fun c x => if bool_decide (truth (duck r c.1) = Some true) then duck r c.2 else x) (duck r else_expr) checks
  | OtherExpression _ => opaque r e
  end.

(** A filter on a column; [other] is the meaning of filters of other kinds. *)
Section Filters.
Context (r : env) (other : V -> TableFilter -> option bool).

Fixpoint duck_filter (v : V) (f : TableFilter) : option bool :=
  match f with
  | ConstantFilter op c => duck_compare op v (value_of c)
  | IsNullFilter => Some (is_null v)
  | IsNotNullFilter => Some (negb (is_null v))
  | InFilter vs => any3 ((fun c => compare Eq v (value_of c)) <$> vs)
  | ConjunctionOrFilter fs => any3 (duck_filter v <$> fs)
  | ConjunctionAndFilter fs => all3 (duck_filter v <$> fs)
  | ExpressionFilter e => truth (duck (mkEnv (column r) v (opaque r)) e)
  | OtherFilter => other v f
  end.
End Filters.
End Meaning.
