(* ===== verification/FilterSpec.v ===== *)
(** * What the filter encoder promises

    The text of a supported filter is read, by the reader of [SqlExpr], as a
    T-SQL condition with the meaning of DuckDB's filter; so the WHERE clause and
    the filters left to DuckDB together are all the filters. [value_ok] and
    [condition_ok] say of which expressions: constants of a type with an exact
    literal, conditions where conditions are expected and values where values
    are. *)

From S2P Require Import Prelude Sql SqlRead SqlExpr TdsTypes Values Codecs Literals LiteralsSpec Dml Filter FilterSem.

(** ** LIKE patterns *)

Definition escaped_item (c : byte) : pattern_item := if bool_decide (c ∈ tx "%_[") then OneOf [c] else This c.

Lemma EscapeLikePattern_cons c p :
  EscapeLikePattern (c :: p) = (if bool_decide (c ∈ tx "%_[") then tx "[" ++ [c] ++ tx "]" else [c]) ++ EscapeLikePattern p.
Proof. done. Qed.

(** A pattern with its wildcards has the line continuations of the text. *)
Lemma line_ends_percent s : line_ends (s ++ tx "%") = line_ends s.
Proof. by destruct s as [|c [|d s]]. Qed.

Lemma continued_percent s : continued (s ++ tx "%") = continued s.
Proof. induction s as [|b s IH]; [done|]. cbn [app continued]. by rewrite line_ends_percent, IH. Qed.

Lemma percent_continued s : continued (tx "%" ++ s) = continued s.
Proof. done. Qed.

Lemma line_ends_EscapeLikePattern s : line_ends (EscapeLikePattern s) = line_ends s.
Proof.
  destruct s as [|c s]; [done|]. rewrite EscapeLikePattern_cons. case_bool_decide as Hc.
  - do 3 (apply elem_of_cons in Hc as [->|Hc]; [done|]). by apply elem_of_nil in Hc.
  - cbn [app line_ends]. do 2 f_equal. destruct s as [|d s]; [done|]. rewrite EscapeLikePattern_cons. case_bool_decide as Hd; [|done].
    do 3 (apply elem_of_cons in Hd as [->|Hd]; [done|]). by apply elem_of_nil in Hd.
Qed.

Lemma continued_EscapeLikePattern s : continued (EscapeLikePattern s) = continued s.
Proof.
  induction s as [|c s IH]; [done|]. rewrite EscapeLikePattern_cons. case_bool_decide as Hc.
  - cbn [continued]. rewrite <- IH. do 3 (apply elem_of_cons in Hc as [->|Hc]; [done|]). by apply elem_of_nil in Hc.
  - cbn [app continued]. by rewrite line_ends_EscapeLikePattern, IH.
Qed.

Lemma pattern_items_escaped p q fuel : (length (EscapeLikePattern p ++ q) <= fuel)%nat ->
  exists fuel', (length q <= fuel')%nat /\ pattern_items fuel (EscapeLikePattern p ++ q) = (escaped_item <$> p) ++ pattern_items fuel' q.
Proof.
  revert fuel. induction p as [|c p IH]; intros fuel Hf; [by exists fuel|].
  rewrite EscapeLikePattern_cons in *. cbn [fmap list_fmap]. unfold escaped_item at 1.
  destruct (bool_decide_reflect (c ∈ tx "%_[")) as [Hc|Hc].
  - destruct fuel as [|fuel]; [cbn in Hf; lia|]. destruct (IH fuel) as (f' & Hf' & E).
    { rewrite !length_app in Hf. cbn in Hf. rewrite length_app. lia. }
    exists f'. split; [done|].
    rewrite <- !app_assoc. cbn [app tx String.list_byte_of_string].
    change (pattern_items (S fuel) (z2b 0x5B :: c :: z2b 0x5D :: EscapeLikePattern p ++ q) = OneOf [c] :: (escaped_item <$> p) ++ pattern_items f' q).
    cbn [pattern_items]. rewrite !(bool_decide_eq_false_2 (z2b 0x5B = _)) by done. rewrite (bool_decide_eq_true_2 (z2b 0x5B = z2b 0x5B)) by done.
    assert (Hne : c <> z2b 0x5D) by (intros ->; exact (bool_decide_eq_false_1 (z2b 0x5D ∈ tx "%_[") eq_refl Hc)).
    cbn [cut]. rewrite (bool_decide_eq_false_2 (c = z2b 0x5D)), (bool_decide_eq_true_2 (z2b 0x5D = z2b 0x5D)) by done. by rewrite E.
  - cbn [app length] in Hf |- *. destruct fuel as [|fuel]; [lia|]. destruct (IH fuel) as (f' & Hf' & E); [lia|]. exists f'. split; [done|].
    assert (Hne : c <> z2b 0x25 /\ c <> z2b 0x5F /\ c <> z2b 0x5B).
    { split_and!; intros ->; apply Hc; match goal with |- ?P => exact (bool_decide_eq_true_1 P eq_refl) end. }
    cbn [pattern_items]. rewrite !bool_decide_eq_false_2 by apply Hne. by rewrite E.
Qed.

Lemma matches_escaped p r s :
  matches ((escaped_item <$> p) ++ r) s = true <-> exists s', s = p ++ s' /\ matches r s' = true.
Proof.
  revert s. induction p as [|c p IH]; intros s; cbn [fmap list_fmap app].
  - split; [by exists s|by intros (? & -> & ?)].
  - transitivity (exists s1, s = c :: s1 /\ matches ((escaped_item <$> p) ++ r) s1 = true).
    + unfold escaped_item at 1. destruct s as [|b s]; [destruct (bool_decide _); cbn; split; [done|by intros (? & ? & _)|done|by intros (? & ? & _)]|].
      destruct (bool_decide _); cbn [matches]; rewrite andb_true_iff, bool_decide_eq_true, ?list_elem_of_singleton;
        (split; [intros [-> H]; by exists s|by intros (? & [= -> ->] & ?)]).
    + split; [intros (s1 & -> & (s' & -> & H)%IH); by exists s'|intros (s' & -> & H); exists (p ++ s'); split; [done|apply IH; by exists s']].
Qed.

Lemma matches_any s : matches [AnyText] s = true.
Proof. induction s as [|b s IH]; [done|]. cbn in *. done. Qed.

Lemma matches_AnyText p s : matches (AnyText :: p) s = true <-> exists a b, s = a ++ b /\ matches p b = true.
Proof.
  induction s as [|c s IH].
  - cbn [matches]. rewrite orb_false_r. split; [by exists [], []|]. by intros ([|] & [|] & ? & ?).
  - change (matches (AnyText :: p) (c :: s)) with (matches p (c :: s) || matches (AnyText :: p) s). rewrite orb_true_iff, IH. split.
    + intros [H|(a & b & -> & H)]; [by exists [], (c :: s)|by exists (c :: a), b].
    + intros ([|c' a] & b & E & H); cbn in E; [left; by subst b|right; injection E as -> ->; by exists a, b].
Qed.

(** The three patterns. *)
Lemma like_prefix p s : like (EscapeLikePattern p ++ tx "%") s = is_prefix p s.
Proof.
  apply eq_bool_prop_intro. unfold like, is_prefix. rewrite !Is_true_true, bool_decide_eq_true.
  destruct (pattern_items_escaped p (tx "%") (S (length (EscapeLikePattern p ++ tx "%"))) ltac:(lia)) as (f & Hf & ->).
  destruct f as [|f]; [cbn in Hf; lia|]. change (pattern_items (S f) (tx "%")) with (AnyText :: pattern_items f []).
  replace (pattern_items f []) with (@nil pattern_item) by by destruct f. rewrite matches_escaped.
  split; [intros (s' & -> & _); by apply prefix_app_r|intros [s' ->]; exists s'; split; [done|apply matches_any]].
Qed.

Lemma pattern_items_percent fuel q : pattern_items (S fuel) (tx "%" ++ q) = AnyText :: pattern_items fuel q.
Proof. done. Qed.

Lemma like_suffix p s : like (tx "%" ++ EscapeLikePattern p) s = is_suffix p s.
Proof.
  apply eq_bool_prop_intro. unfold like, is_suffix. rewrite !Is_true_true, bool_decide_eq_true, pattern_items_percent.
  destruct (pattern_items_escaped p [] (length (tx "%" ++ EscapeLikePattern p))) as (f & _ & E); [rewrite app_nil_r; cbn; lia|].
  rewrite app_nil_r in E. rewrite E. replace (pattern_items f []) with (@nil pattern_item) by by destruct f.
  rewrite matches_AnyText. setoid_rewrite matches_escaped. cbn [matches]. split.
  - intros (a & b & -> & s' & -> & Hs). apply bool_decide_eq_true_1 in Hs. subst s'. exists a. by rewrite app_nil_r.
  - intros [a ->]. exists a, p. split; [done|]. exists []. by rewrite app_nil_r.
Qed.

Lemma is_infix_spec p s : is_infix p s = true <-> exists a b, s = a ++ p ++ b.
Proof.
  unfold is_prefix. induction s as [|c s IH]; cbn [is_infix]; unfold is_prefix; rewrite orb_true_iff, bool_decide_eq_true.
  - split; [intros [[b E]|?]; [exists [], b; exact E|done]|]. intros ([|x a] & b0 & E); [|done]. left. by exists b0.
  - rewrite IH. split.
    + intros [[b E]|(a & b & ->)]; [by exists [], b|by exists (c :: a), b].
    + intros ([|c' a] & b & E); [left; by exists b|right]. injection E as -> ->. by exists a, b.
Qed.

Lemma like_infix p s : like (tx "%" ++ EscapeLikePattern p ++ tx "%") s = is_infix p s.
Proof.
  apply eq_bool_prop_intro. unfold like. rewrite !Is_true_true, is_infix_spec, pattern_items_percent.
  destruct (pattern_items_escaped p (tx "%") (length (tx "%" ++ EscapeLikePattern p ++ tx "%"))) as (f & Hf & ->); [cbn; lia|].
  destruct f as [|f]; [cbn in Hf; lia|]. change (pattern_items (S f) (tx "%")) with (AnyText :: pattern_items f []).
  replace (pattern_items f []) with (@nil pattern_item) by by destruct f.
  rewrite matches_AnyText. setoid_rewrite matches_escaped. split.
  - intros (a & b & -> & s' & -> & _). by exists a, s'.
  - intros (a & b & ->). exists a, (p ++ b). split; [done|]. exists b. split; [done|apply matches_any].
Qed.

(** ** Texts that spell an expression *)

(** Every member of a list of constants. *)
Ltac each_of H := repeat (apply elem_of_cons in H as [H|H]; [by (discriminate H || (rewrite H; reflexivity) || subst)|]); by apply elem_of_nil in H.

(** The text does not begin like a number. *)
Definition unsigned (s : bytes) (ts : list item) : Prop := (exists b r, s = b :: r /\ b <> DASH) /\ after_minus ts.

Definition spelled (signed : bool) (p : nat) (s : bytes) (t : tsql) : Prop :=
  exists ts, ts <> [] /\ reads0 s ts /\ spells p t ts /\ (signed = false -> unsigned s ts).

Lemma spelled_weaken b p q s t : spelled b q s t -> (p <= q)%nat -> spelled true p s t.
Proof. intros (ts & ? & ? & H & _) Hp. exists ts. split_and!; [done|done| |done]. by eapply spells_weaken. Qed.

Lemma spelled_0 b p s t : spelled b p s t -> spelled true 0 s t.
Proof. intros Ht. by apply (spelled_weaken b 0 p); [|lia]. Qed.

Lemma spelled_4 b s t : spelled b 7 s t -> spelled true 4 s t.
Proof. intros Ht. by apply (spelled_weaken b 4 7); [|lia]. Qed.

Lemma spelled_nonempty b p s t : spelled b p s t -> s <> [].
Proof. intros (ts & Hne & Hr & _) ->. apply reads0_lex in Hr. injection Hr as <-. done. Qed.

Lemma spelled_parse b p s t : spelled b p s t -> parse_condition s = Some t.
Proof. intros (ts & _ & Hr & H & _). apply (spells_parse _ _ _ Hr). by apply (spells_weaken 0 p); [|lia]. Qed.

Lemma app_not_nil_l {A} (a b : list A) : a <> [] -> a ++ b <> [].
Proof. by destruct a. Qed.

Lemma chars_nonempty p : p <> [] -> chars p <> [].
Proof. by destruct p. Qed.

Lemma spelled_column name : spelled false 7 (bracketed name) (TColumn name).
Proof.
  exists [Name name]. split_and!; [done|exact (reads_weaken _ _ (reads_bracketed name))|apply spells_column|].
  intros _. split; [by eexists _, _|done].
Qed.

Lemma spelled_literal s c ts : literal s c ts -> spelled true 7 s (TConst c).
Proof.
  intros Hl. assert (ts <> []).
  { intros ->. pose proof (literal_constant _ _ _ Hl) as Hc. by vm_compute in Hc. }
  exists ts. split_and!; [done|by apply (literal_reads _ _ _ Hl)|by eapply spells_literal|done].
Qed.

(** Plain text before and after. *)
Lemma reads0_wrap pre post s ts : plainly pre = true -> plainly post = true -> reads0 s ts ->
  reads0 (pre ++ s ++ post) (chars pre ++ ts ++ chars post).
Proof.
  intros Hpre Hpost Hs. apply reads_weaken. rewrite !app_assoc. apply reads_app; [by apply reads_sep|by apply reads_plainly].
Qed.

Lemma unsigned_plain pre s ts : match pre with b :: _ => is_digit b = false /\ b <> DASH | [] => False end -> unsigned (pre ++ s) (chars pre ++ ts).
Proof. destruct pre as [|b pre]; [done|]. intros [Hd Hb]. split; [by eexists _, _|done]. Qed.

Lemma spelled_paren b s t : spelled b 0 s t -> spelled false 7 (tx "(" ++ s ++ tx ")") t.
Proof.
  intros (ts & Hne & Hr & H & _). eexists. split_and!; [|by apply reads0_wrap|by apply spells_paren|].
  - by apply app_not_nil_l, chars_nonempty.
  - intros _. by apply unsigned_plain.
Qed.

Lemma spelled_call b f s t : f ∈ calls.*1 -> spelled b 0 s t -> spelled false 7 (f ++ s ++ tx ")") (TCall f t).
Proof.
  intros Hf (ts & Hne & Hr & H & _). eexists. split_and!; [| |by apply spells_call|].
  - apply app_not_nil_l, chars_nonempty. intros ->. each_of Hf.
  - apply reads0_wrap; [|done|done]. each_of Hf.
  - intros _. apply unsigned_plain. each_of Hf.
Qed.

Lemma spelled_not b s t : spelled b 3 s t -> spelled true 2 (tx "NOT " ++ s) (TNot t).
Proof.
  intros (ts & Hne & Hr & H & _). eexists. split_and!; [|by apply reads_weaken, reads_sep|by apply spells_not|done].
  by apply app_not_nil_l, chars_nonempty.
Qed.

Lemma reads0_minus s ts : (exists b r, s = b :: r /\ b <> DASH) -> reads0 s ts -> reads0 (tx "-" ++ s) (chars (tx "-") ++ ts).
Proof.
  intros (b & r & -> & Hb) (t1 & s1 & H1 & Hc & <-). exists (Ch DASH :: t1), s1. split_and!; [|done|done].
  change (tx "-" ++ b :: r) with (DASH :: b :: r). cbn [run step] in *. change (fresh DASH) with (@nil item, Dash). cbn [step].
  rewrite bool_decide_eq_false_2 by done. destruct (fresh b) as [t st]. unfold emit. cbn [fst snd]. destruct (run st r) as [[]|]; [|done].
  by injection H1 as <- <-.
Qed.

Lemma spelled_neg s t : spelled false 7 s t -> spelled true 6 (tx "-" ++ s) (TNeg t).
Proof.
  intros (ts & Hne & Hr & H & Hu). destruct (Hu eq_refl) as [Hb Ha]. eexists. split_and!; [|by apply reads0_minus|by apply spells_neg|done].
  by apply app_not_nil_l, chars_nonempty.
Qed.

(** An operator's text, and its strength. *)
Definition operator (p : nat) (op : binary) (pre : bytes) : Prop := (pre, (p, SqlExpr.Binary op)) ∈ infixes.

Lemma operator_facts p op pre : operator p op pre ->
  (forall x, infix (chars pre ++ x) = Some (p, SqlExpr.Binary op, x)) /\ (exists c r, pre = c :: r /\ c ∈ [PARR; COMMA; BLANK]) /\ plainly pre = true.
Proof.
  unfold operator. intros H. repeat (apply elem_of_cons in H as [H|H]; [first [discriminate H|injection H as -> -> ->;
    split_and!; [reflexivity|eexists _, _; split; [reflexivity|]; match goal with |- ?P => exact (bool_decide_eq_true_1 P eq_refl) end|reflexivity]]|]).
  by apply elem_of_nil in H.
Qed.

Lemma spelled_binary p q1 q2 op pre b1 b2 l r tl tr :
  operator p op pre -> spelled b1 q1 l tl -> spelled b2 q2 r tr -> (p <= q1)%nat -> (p < q2)%nat ->
  spelled true p (l ++ pre ++ r) (TBinary op tl tr).
Proof.
  intros Ho (t1 & Hn1 & Hr1 & H1 & _) (t2 & Hn2 & Hr2 & H2 & _) Hp1 Hp2. destruct (operator_facts _ _ _ Ho) as (Hi & Hpre & Hpl).
  exists (t1 ++ chars pre ++ t2). split_and!; [by apply app_not_nil_l| |by eapply spells_binary|done].
  apply reads0_app; [done|by apply reads_sep].
Qed.

Lemma spelled_is_null b (positive : bool) s t : spelled b 7 s t ->
  spelled true 4 (s ++ (if positive then tx " IS NULL" else tx " IS NOT NULL")) (TIsNull positive t).
Proof.
  intros (ts & Hne & Hr & H & _). eexists. split_and!; [|apply reads0_app; [done|apply reads_plainly; by destruct positive]| |done].
  - by apply app_not_nil_l.
  - apply spells_is_null. by apply (spells_weaken 4 7); [|lia].
Qed.

Lemma spelled_between b1 b2 b3 e lo hi te tlo thi : spelled b1 7 e te -> spelled b2 7 lo tlo -> spelled b3 7 hi thi ->
  spelled true 4 (e ++ tx " BETWEEN " ++ lo ++ tx " AND " ++ hi) (TBetween te tlo thi).
Proof.
  intros (t1 & Hn1 & Hr1 & H1 & _) (t2 & Hn2 & Hr2 & H2 & _) (t3 & Hn3 & Hr3 & H3 & _).
  eexists. split_and!; [| |by apply spells_between|done]; [by apply app_not_nil_l|].
  apply reads0_app; [done|]. rewrite (app_assoc (tx " BETWEEN ")), (app_assoc (chars (tx " BETWEEN "))).
  apply reads_app; by apply reads_sep.
Qed.

(** The texts of several things. *)
Lemma spelled_all b p ss es : Forall2 (spelled b p) ss es -> exists tss, Forall2 reads0 ss tss /\ Forall2 (spells p) es tss.
Proof.
  induction 1 as [|s e ss es (ts & _ & Hr & H & _) _ (tss & IH1 & IH2)]; [by exists []|]. exists (ts :: tss). by split; constructor.
Qed.

Lemma spelled_in b e te ss es : spelled b 7 e te -> es <> [] -> Forall2 (spelled true 0) ss es ->
  spelled true 4 (e ++ tx " IN (" ++ join (tx ", ") ss ++ tx ")") (TIn te es).
Proof.
  intros (t1 & Hn1 & Hr1 & H1 & _) Hne H. destruct (spelled_all _ _ _ _ H) as (tss & Hrs & Hss).
  eexists. split_and!; [| |by apply spells_in_list|done]; [by apply app_not_nil_l|].
  apply reads0_app; [done|]. rewrite !app_assoc. apply reads_app; [by apply reads_sep_join|by apply reads_plainly].
Qed.

Lemma spelled_chain p q op pre s e ss es : operator p op pre -> (p < q)%nat -> spelled true q s e -> Forall2 (spelled true q) ss es ->
  spelled true p (join pre (s :: ss)) (chain op e es).
Proof.
  intros Ho Hpq (ts & Hne & Hr & H & _) Hs. destruct (operator_facts _ _ _ Ho) as (Hi & Hpre & Hpl).
  destruct (spelled_all _ _ _ _ Hs) as (tss & Hrs & Hss). exists (join (chars pre) (ts :: tss)).
  split_and!; [destruct tss; [done|rewrite join_cons; by apply app_not_nil_l]| |by eapply spells_chain|done].
  destruct Hrs as [|s' ts' ss tss Hs' Hrs]; [done|]. rewrite !join_cons. apply reads0_app; [done|].
  apply reads_sep_join; [done|done|by constructor].
Qed.

(** CASE: the texts of the WHEN clauses. *)
Definition when_text (w : bytes * bytes) : bytes := tx " WHEN " ++ w.1 ++ tx " THEN " ++ w.2.

Lemma spelled_case ws (es : list (tsql * tsql)) b s e :
  Forall2 (fun w t => spelled true 0 w.1 t.1 /\ spelled true 0 w.2 t.2) ws es -> spelled b 0 s e ->
  spelled false 7 (tx "CASE" ++ mjoin (when_text <$> ws) ++ tx " ELSE " ++ s ++ tx " END") (TCase es e).
Proof.
  intros Hws (te & Hne & Hre & He & _).
  assert (exists ts, reads (mjoin (when_text <$> ws)) (when_items ts) /\ Forall2 (fun w t => spells 0 w.1 t.1 /\ spells 0 w.2 t.2) es ts) as (ts & Hr & Hs).
  { induction Hws as [|[w t] [ew et] ws es [(tw & _ & Hrw & Hsw & _) (tt & _ & Hrt & Hst & _)] _ (ts & IHr & IHs)].
    - exists []. split; [apply reads_nil|constructor].
    - exists ((tw, tt) :: ts). split; [|by constructor]. cbn [fmap list_fmap mjoin list_join when_items]. unfold when_text at 1.
      cbn [fst snd] in *. replace (chars (tx " WHEN ") ++ tw ++ chars (tx " THEN ") ++ tt ++ when_items ts)
        with ((chars (tx " WHEN ") ++ tw ++ chars (tx " THEN ") ++ tt) ++ when_items ts) by by rewrite <- !app_assoc.
      apply reads_app; [|done]. rewrite (app_assoc (tx " WHEN ")), (app_assoc (chars (tx " WHEN "))). apply reads_app; by apply reads_sep. }
  eexists. split_and!; [| |by apply (spells_case es e ts te)|].
  - by apply app_not_nil_l, chars_nonempty.
  - apply reads_weaken. apply reads_app; [by apply reads_plainly|]. apply reads_app; [done|].
    rewrite !app_assoc. apply reads_app; [by apply reads_sep|by apply reads_plainly].
  - intros _. by apply unsigned_plain.
Qed.

(** ** Templates *)

(** Does [p] occur in [s]? *)
Fixpoint occurs (p s : bytes) : bool :=
  bool_decide (is_Some (eat_bytes p s)) || match s with [] => false | _ :: s => occurs p s end.

Lemma eat_bytes_apart p c s l : Forall (fun b => b <> c) p -> eat_bytes p s = None -> eat_bytes p (s ++ c :: l) = None.
Proof.
  intros Hp. revert s. induction Hp as [|a p Ha _ IH]; intros s; [done|]. destruct s as [|b s]; cbn [app eat_bytes].
  - by rewrite bool_decide_eq_false_2.
  - destruct (bool_decide (a = b)); [apply IH|done].
Qed.

Lemma eat_bytes_length p s l : eat_bytes p s = Some l -> length s = (length p + length l)%nat.
Proof.
  revert s. induction p as [|a p IH]; intros s; cbn [eat_bytes]; [by intros [= ->]|]. destruct s as [|b s]; [done|].
  destruct (bool_decide (a = b)); [|done]. intros E. cbn [length]. by rewrite (IH _ E).
Qed.

Lemma replaced_fuel p a s f1 f2 : p <> [] -> (length s < f1)%nat -> (length s < f2)%nat -> replaced f1 p a s = replaced f2 p a s.
Proof.
  intros Hp. revert f2 s. induction f1 as [|f1 IH]; intros [|f2] s H1 H2; try lia. cbn [replaced]. destruct (eat_bytes p s) as [l|] eqn:E.
  - apply eat_bytes_length in E. f_equal. destruct p; [done|cbn [length] in E]. apply IH; lia.
  - destruct s as [|b s]; [done|]. cbn [length] in *. f_equal. apply IH; lia.
Qed.

Lemma replaced_apart p a s c l fuel : p <> [] -> Forall (fun b => b <> c) p -> occurs p s = false -> (length (s ++ c :: l) < fuel)%nat ->
  replaced fuel p a (s ++ c :: l) = s ++ replaced (S (S (length l))) p a (c :: l).
Proof.
  intros Hp Hc. revert fuel. induction s as [|b s IH]; intros fuel Ho Hf; [by apply replaced_fuel; [|cbn in *; lia|cbn; lia]|].
  cbn [occurs] in Ho. apply orb_false_iff in Ho as [Hb Ho]. apply bool_decide_eq_false_1 in Hb. destruct fuel as [|fuel]; [lia|].
  assert (E : eat_bytes p ((b :: s) ++ c :: l) = None).
  { apply eat_bytes_apart; [done|]. by apply eq_None_not_Some. }
  cbn [replaced]. rewrite E. cbn [app]. f_equal. apply IH; [done|cbn [app length] in Hf; lia].
Qed.

(** The template of an arithmetic operator. *)
Lemma template_binary op a b : occurs (tx "{1}") a = false -> op ∈ [tx " + "; tx " - "; tx " * "; tx " % "] ->
  apply_template 0 [a; b] (tx "({0}" ++ op ++ tx "{1})") = tx "(" ++ (a ++ op ++ b) ++ tx ")".
Proof.
  intros Ha Hop. change (apply_template 0 [a; b] (tx "({0}" ++ op ++ tx "{1})"))
    with (replace_all (tx "{1}") b (replace_all (tx "{0}") a (tx "({0}" ++ op ++ tx "{1})"))).
  assert (exists o, op = z2b 0x20 :: o) as [o Eo] by (repeat (apply elem_of_cons in Hop as [->|Hop]; [by eexists|]); by apply elem_of_nil in Hop).
  assert (E : replace_all (tx "{0}") a (tx "({0}" ++ op ++ tx "{1})") = tx "(" ++ a ++ op ++ tx "{1})").
  { clear Eo. repeat (apply elem_of_cons in Hop as [->|Hop]; [reflexivity|]). by apply elem_of_nil in Hop. }
  rewrite E. unfold replace_all. change (tx "(" ++ a ++ op ++ tx "{1})") with ((z2b 0x28 :: a) ++ op ++ tx "{1})"). rewrite Eo. cbn [app].
  change (z2b 0x28 :: a ++ z2b 0x20 :: o ++ tx "{1})") with ((z2b 0x28 :: a) ++ z2b 0x20 :: (o ++ tx "{1})")).
  rewrite replaced_apart; [|done|by repeat constructor|cbn [occurs]; rewrite Ha; apply orb_false_r|lia].
  assert (E2 : replaced (S (S (length (o ++ tx "{1})")))) (tx "{1}") b (z2b 0x20 :: o ++ tx "{1})") = op ++ b ++ tx ")").
  { rewrite Eo. clear E. subst op. repeat (apply elem_of_cons in Hop as [[= ->]|Hop]; [reflexivity|]). by apply elem_of_nil in Hop. }
  rewrite E2, Eo. change (tx "(") with [z2b 0x28]. cbn [app]. rewrite <- !app_assoc. cbn [app]. by rewrite <- app_assoc.
Qed.

(** A function of the mapping, by what its template becomes. *)
Inductive mapped (name : bytes) : FunctionMapping -> Prop :=
  | mapped_call f m : (ToLower name, f) ∈ unary_calls -> expected_args m = 1 -> (forall a, apply_template 0 [a] (sql_template m) = f ++ a ++ tx ")") -> mapped name m
  | mapped_trim m : ToLower name = tx "trim" -> expected_args m = 1 ->
      (forall a, apply_template 0 [a] (sql_template m) = tx "LTRIM(" ++ (tx "RTRIM(" ++ a ++ tx ")") ++ tx ")") -> mapped name m
  | mapped_negate m : ToLower name = tx "negate" -> expected_args m = 1 ->
      (forall a, apply_template 0 [a] (sql_template m) = tx "(" ++ (tx "-" ++ a) ++ tx ")") -> mapped name m
  | mapped_binary p op pre m : (ToLower name, op) ∈ binary_functions -> operator p op pre -> (0 < p)%nat -> (p < 7)%nat -> expected_args m = 2 ->
      (forall a b, occurs (tx "{1}") a = false -> apply_template 0 [a; b] (sql_template m) = tx "(" ++ (a ++ pre ++ b) ++ tx ")") -> mapped name m.

Ltac member := solve [repeat (first [apply list_elem_of_here|apply list_elem_of_further])].

Lemma GetFunctionMapping_mapped name m : GetFunctionMapping name = Some m -> mapped name m.
Proof.
  unfold GetFunctionMapping. destruct (list_find _ mappings) as [[i m']|] eqn:E; [|done]. cbn. intros [= ->].
  apply list_find_Some in E as (Hi & Hn & _). apply list_elem_of_lookup_2 in Hi. cbv beta in Hn.
  assert (Hin : (duckdb_name m, m) ∈ (fun m => (duckdb_name m, m)) <$> mappings) by by apply (list_elem_of_fmap_2 (fun m => (duckdb_name m, m))).
  rewrite Hn in Hin. clear Hi Hn i.
  repeat (apply elem_of_cons in Hin as [Hin|Hin]; [injection Hin as Hname ->; first
    [ solve [eapply mapped_call; [rewrite Hname; unfold unary_calls; member|reflexivity|reflexivity]]
    | solve [apply mapped_trim; [done|reflexivity|intros a; rewrite <- !app_assoc; reflexivity]]
    | solve [apply mapped_negate; [done|reflexivity|intros a; reflexivity]]
    | solve [eapply mapped_binary; [rewrite Hname; unfold binary_functions; member|unfold operator, infixes; member|lia|lia|reflexivity|
        intros a b Ha; match goal with |- _ = _ ++ (_ ++ ?pre ++ _) ++ _ => refine (template_binary pre a b Ha _) end;
          match goal with |- ?P => exact (bool_decide_eq_true_1 P eq_refl) end]]]|]).
  by apply elem_of_nil in Hin.
Qed.

(** ** Induction on expressions *)

Section Induction.
Context (P : Expression -> Prop).
Context (Hcol : forall t i, P (BoundColumnRef t i)) (Href : forall t i, P (BoundReference t i)) (Hconst : forall t v, P (BoundConstant t v)).
Context (Hcast : forall t e, P e -> P (BoundCast t e)) (Hcmp : forall op l r, P l -> P r -> P (BoundComparison op l r)).
Context (Hbetween : forall li ui i l u, P i -> P l -> P u -> P (BoundBetween li ui i l u)).
Context (Hfun : forall t name es, Forall P es -> P (BoundFunction t name es)).
Context (Hconj : forall b es, Forall P es -> P (BoundConjunction b es)) (Hop : forall t op es, Forall P es -> P (BoundOperator t op es)).
Context (Hcase : forall t cs e, Forall (fun c => P c.1 /\ P c.2) cs -> P e -> P (BoundCase t cs e)) (Hother : forall t, P (OtherExpression t)).

Fixpoint Expression_nested (e : Expression) : P e :=
  let all := fix all (es : list Expression) : Forall P es :=
    match es with [] => Forall_nil_2 _ | e :: es => Forall_cons_2 _ _ _ (Expression_nested e) (all es) end in
  match e with
  | BoundColumnRef t i => Hcol t i
  | BoundReference t i => Href t i
  | BoundConstant t v => Hconst t v
  | BoundCast t e => Hcast t e (Expression_nested e)
  | BoundComparison op l r => Hcmp op l r (Expression_nested l) (Expression_nested r)
  | BoundBetween li ui i l u => Hbetween li ui i l u (Expression_nested i) (Expression_nested l) (Expression_nested u)
  | BoundFunction t name es => Hfun t name es (all es)
  | BoundConjunction b es => Hconj b es (all es)
  | BoundOperator t op es => Hop t op es (all es)
  | BoundCase t cs e => Hcase t cs e
      ((fix checks (cs : list (Expression * Expression)) : Forall (fun c => P c.1 /\ P c.2) cs :=
          match cs with
          | [] => Forall_nil_2 _
          | (w, x) :: cs => Forall_cons_2 _ (w, x) _ (conj (Expression_nested w) (Expression_nested x)) (checks cs)
          end) cs) (Expression_nested e)
  | OtherExpression t => Hother t
  end.
End Induction.
