(* ===== verification/FilterSound.v ===== *)
(** * The encoded filters mean what the filters do

    The text of a supported expression or filter is read, by the reader of
    [SqlExpr], as T-SQL with DuckDB's meaning; so the WHERE clause and the filters
    left to DuckDB together are all the filters. [value_ok], [condition_ok] and
    [filter_ok] say of which expressions: constants of a type with an exact
    literal, conditions where conditions are expected and values where values
    are. At the end, a small pair of engines that agree. *)

From S2P Require Import Prelude Sql SqlRead SqlExpr TdsTypes Values Codecs Literals LiteralsSpec Dml Filter FilterSem FilterSpec.

(** ** Expressions *)

Section Sound.
Context `{DuckDB} `{Values_} `{VirtualColumns} {En : Engines} {Ag : Agree}.
(** The context the encoder starts with, a row of the table, and what the
    encoder does not look into. *)
Context (c0 : ExpressionEncodeContext) (row : bytes -> V) (self_ nowhere : V) (opaque_ : Expression -> V).

(** The value of a projected column; a rowid is the key. *)
Definition projected (i : Z) : V :=
  match table_column (column_ids c0) i with
  | Some t =>
      if t =? COLUMN_IDENTIFIER_ROW_ID then
        if pk_is_composite c0 then struct_value (row <$> pk_column_names c0)
        else match pk_column_names c0 with name :: _ => row name | [] => nowhere end
      else match column_names c0 !! Z.to_nat t with Some name => row name | None => nowhere end
  | None => nowhere
  end.

Definition meaning_of : env := mkEnv projected self_ opaque_.

(** A constant of a type with an exact literal. *)
Definition constant_ok (t : LogicalType) (v : Value) : Prop := good_value v /\ type v = t /\ exists c, denoted v = Ok c.

(** A constant compared with the rowid has the types of the key. *)
Definition key_ok (e : Expression) : Prop :=
  match e with
  | BoundConstant _ (Plain v) =>
      pk_is_composite c0 = false -> exists t, pk_column_types c0 !! 0%nat = Some t /\ constant_ok t v
  | BoundConstant _ (Struct cs) =>
      pk_is_composite c0 = true /\ Forall2 (fun v t => constant_ok t v /\ IsNull v = false) cs (pk_column_types c0)
  | _ => True
  end.

(** No number after a minus sign. *)
Fixpoint number_constant (e : Expression) : bool :=
  match e with BoundConstant _ _ => true | BoundCast _ e => number_constant e | _ => false end.

Definition at_depth (d : Z) : ExpressionEncodeContext :=
  mkContext (column_ids c0) (column_names c0) (column_types c0) d (pk_column_names c0) (pk_column_types c0) (pk_is_composite c0) (filter_column c0).

(** Expressions that make sense to both systems, as values, as conditions, and
    where a condition is expected. *)
Inductive value_ok : Expression -> Prop :=
  | ok_column t i : value_ok (BoundColumnRef t i)
  | ok_reference t i : value_ok (BoundReference t i)
  | ok_constant t v : constant_ok t v -> value_ok (BoundConstant t (Plain v))
  | ok_cast t e : value_ok e -> value_ok (BoundCast t e)
  | ok_function t name args : IsLikePatternFunction name = false -> Forall value_ok args ->
      (ToLower name = tx "negate" -> Forall (fun e => number_constant e = false) args) ->
      (forall a b, args = [a; b] -> forall d s, EncodeExpression a (at_depth d) = Ok (encoded s) -> occurs (tx "{1}") s = false) ->
      value_ok (BoundFunction t name args)
  | ok_case t checks e : Forall (fun c => predicate_ok c.1 /\ value_ok c.2) checks -> value_ok e -> value_ok (BoundCase t checks e)
  | ok_other t : value_ok (OtherExpression t)
with condition_ok : Expression -> Prop :=
  | ok_comparison op l r :
      (op = Equal -> HasPKInfo c0 = true -> IsRowidColumn l c0 = false /\ IsRowidColumn r c0 = false) ->
      value_ok l -> value_ok r -> condition_ok (BoundComparison op l r)
  | ok_rowid_left t i r : HasPKInfo c0 = true -> IsRowidColumn (BoundColumnRef t i) c0 = true -> key_ok r ->
      condition_ok (BoundComparison Equal (BoundColumnRef t i) r)
  | ok_rowid_right t i l : HasPKInfo c0 = true -> IsRowidColumn l c0 = false -> IsRowidColumn (BoundColumnRef t i) c0 = true -> key_ok l ->
      condition_ok (BoundComparison Equal l (BoundColumnRef t i))
  | ok_between li ui i l u : value_ok i -> value_ok l -> value_ok u -> condition_ok (BoundBetween li ui i l u)
  | ok_conjunction b es : Forall predicate_ok es -> condition_ok (BoundConjunction b es)
  | ok_not t es : Forall predicate_ok es -> condition_ok (BoundOperator t OPERATOR_NOT es)
  | ok_operator t op es : op <> OPERATOR_NOT -> Forall value_ok es -> condition_ok (BoundOperator t op es)
  | ok_like t name col t' v : IsLikePatternFunction name = true -> value_ok col -> good_value v -> id (type v) = VARCHAR ->
      condition_ok (BoundFunction t name [col; BoundConstant t' (Plain v)])
with predicate_ok : Expression -> Prop :=
  | predicate_condition e : EncodesAsSearchCondition e = true -> condition_ok e -> predicate_ok e
  | predicate_value e t : EncodesAsSearchCondition e = false -> value_ok e -> id (GetReturnType e) = BOOLEAN ->
      duck meaning_of e = bit t -> predicate_ok e.

Definition means_value (signed : bool) (s : bytes) (v : V) : Prop := exists t, spelled signed 7 s t /\ eval row t = Val v.
Definition means_condition (s : bytes) (b : option bool) : Prop := exists t, spelled true 4 s t /\ eval row t = Truth b.

Definition sound (e : Expression) : Prop :=
  forall d s, EncodeExpression e (at_depth d) = Ok (encoded s) ->
    (value_ok e -> means_value (number_constant e) s (duck meaning_of e)) /\
    (condition_ok e -> means_condition s (truth (duck meaning_of e))).

Context (Hself : forall s, filter_column c0 = Some s -> exists name, s = bracketed name /\ row name = self_).

Lemma child_depth d : child (at_depth d) = at_depth (d + 1).
Proof. done. Qed.

Lemma value_signed b s v : means_value b s v -> means_value true s v.
Proof. intros (t & Ht & E). exists t. split; [by apply (spelled_weaken b 7 7); [|lia]|done]. Qed.

(** *** Columns and constants *)

Lemma ValueToSQLLiteral_sound t v s : constant_ok t v -> ValueToSQLLiteral v t = Ok s -> means_value true s (value_of (Plain v)).
Proof.
  intros (Hg & <- & c & Hc) Hs. destruct (FormatSqlLiteral_denoted v c Hg Hc) as (s' & ts & Hf & Hlit).
  unfold ValueToSQLLiteral in Hs. rewrite Hf in Hs. injection Hs as <-. exists (TConst c). split; [by eapply spelled_literal|].
  cbn [eval]. by rewrite (constant_agrees v c).
Qed.

Lemma column_sound d i s : EncodeColumnRef i (at_depth d) = encoded s -> means_value false s (projected i).
Proof.
  unfold EncodeColumnRef, projected. cbn [column_ids column_names pk_column_names pk_is_composite at_depth].
  destruct (table_column _ i) as [t|]; [|done]. destruct (t =? COLUMN_IDENTIFIER_ROW_ID).
  - destruct (pk_column_names c0) as [|name names]; [done|]. destruct (pk_is_composite c0); [done|]. cbn. intros [= <-].
    exists (TColumn name). split; [apply spelled_column|done].
  - destruct (VIRTUAL_COL_START <=? t); [done|]. destruct (column_names c0 !! _) as [name|]; [|done]. intros [= <-].
    exists (TColumn name). split; [apply spelled_column|done].
Qed.

Lemma and_then_Ok r k s : and_then r k = Ok (encoded s) -> exists x, r = Ok (encoded x) /\ k x = Ok (encoded s).
Proof.
  unfold and_then. intros E. apply bind_Ok in E as ([x b] & -> & E). cbn [supported sql] in E. destruct b; [by exists x|done].
Qed.

(** *** Building conditions from values *)

Lemma means_operator p op pre l r v w : operator p op pre -> (4 <= p)%nat -> (p < 7)%nat ->
  means_value true l v -> means_value true r w -> forall m, tsql_binary op (Val v) (Val w) = m ->
  exists t, spelled true p (l ++ pre ++ r) t /\ eval row t = m.
Proof.
  intros Ho Hp Hp7 (tl & Hl & El) (tr & Hr & Er) m Hm. exists (TBinary op tl tr). split; [by eapply spelled_binary; [done|done|done|lia|lia]|].
  cbn [eval]. by rewrite El, Er.
Qed.

Lemma means_paren s b : means_condition s b -> means_condition (tx "(" ++ s ++ tx ")") b.
Proof.
  intros (t & Ht & E). exists t. split; [|done]. eapply spelled_4, spelled_paren, spelled_0. exact Ht.
Qed.

Lemma value_paren p s t v : spelled true p s t -> eval row t = Val v -> means_value false (tx "(" ++ s ++ tx ")") v.
Proof. intros Ht E. exists t. split; [|done]. eapply spelled_paren, spelled_0. eassumption. Qed.

Lemma comparison_means op pre l r v w : GetComparisonOperator op = Some pre -> means_value true l v -> means_value true r w ->
  means_condition (l ++ pre ++ r) (duck_compare op v w).
Proof.
  intros Ho Hl Hr. assert (exists b, operator 4 b pre /\ tsql_binary b (Val v) (Val w) = Truth (duck_compare op v w)) as (b & Hb & Eb).
  { destruct op; try done; injection Ho as <-; (eexists; split; [unfold operator, infixes; member|reflexivity]). }
  destruct (means_operator 4 b pre l r v w Hb) with (m := Truth (duck_compare op v w)) as (t & Ht & E); [lia|lia|done..|]. by exists t.
Qed.

(** *** The rowid *)

Lemma spelled_conditions op pre s ss b bs : operator 2 op pre \/ operator 1 op pre ->
  (forall x y, tsql_binary op (Truth x) (Truth y) = Truth ((match op with And => and3 | _ => or3 end) x y)) ->
  means_condition s b -> Forall2 means_condition ss bs ->
  exists t, spelled true 0 (join pre (s :: ss)) t /\ eval row t = Truth (foldl (match op with And => and3 | _ => or3 end) b bs).
Proof.
  intros Ho Hop (t & Ht & E) Hs.
  assert (exists ts, Forall2 (spelled true 4) ss ts /\ Forall2 (fun t b => eval row t = Truth b) ts bs) as (ts & Hts & Ets).
  { clear -Hs. induction Hs as [|s b ss bs (t & Ht & E) _ (ts & IH1 & IH2)]; [by exists []|]. exists (t :: ts). by split; constructor. }
  exists (chain op t ts). split.
  - destruct Ho as [Ho|Ho]; (eapply spelled_0, spelled_chain; [exact Ho| |exact Ht|exact Hts]; lia).
  - clear -E Ets Hop. revert t b E. induction Ets as [|t' b' ts bs E' _ IH]; intros t b E; [done|]. cbn [chain foldl]. apply IH.
    cbn [eval]. by rewrite E, E', Hop.
Qed.

Lemma and3_assoc a b c : and3 (and3 a b) c = and3 a (and3 b c).
Proof. by destruct a as [[]|], b as [[]|], c as [[]|]. Qed.

Lemma and3_true a : and3 a (Some true) = a.
Proof. by destruct a as [[]|]. Qed.

Lemma or3_assoc a b c : or3 (or3 a b) c = or3 a (or3 b c).
Proof. by destruct a as [[]|], b as [[]|], c as [[]|]. Qed.

Lemma foldl_all3 b bs : foldl and3 b bs = all3 (b :: bs).
Proof.
  revert b. induction bs as [|c bs IH]; intros b; [by destruct b as [[]|]|]. cbn [foldl]. rewrite IH. cbn. by rewrite and3_assoc.
Qed.

Lemma foldl_any3 b bs : foldl or3 b bs = any3 (b :: bs).
Proof.
  revert b. induction bs as [|c bs IH]; intros b; [by destruct b as [[]|]|]. cbn [foldl]. rewrite IH. cbn. by rewrite or3_assoc.
Qed.

(** Conditions joined by AND or OR. *)
Lemma means_joined (is_and : bool) s ss b bs : means_condition s b -> Forall2 means_condition ss bs ->
  exists t, spelled true 0 (join (if is_and then tx " AND " else tx " OR ") (s :: ss)) t /\
    eval row t = Truth ((if is_and then all3 else any3) (b :: bs)).
Proof.
  intros Hs Hss. destruct is_and.
  - rewrite <- foldl_all3. apply (spelled_conditions And); [left|done..]. unfold operator, infixes. member.
  - rewrite <- foldl_any3. apply (spelled_conditions Or); [right|done..]. unfold operator, infixes. member.
Qed.

Lemma means_conjoined (is_and : bool) ss bs s : Forall2 means_condition ss bs ->
  conjoined (if is_and then tx " AND " else tx " OR ") ss true = encoded s -> means_condition s ((if is_and then all3 else any3) bs).
Proof.
  intros H'. destruct H' as [|s1 b1 ss bs Hfst H']; [done|]. destruct H' as [|s2 b2 ss bs Hsnd H']; cbn [conjoined].
  - intros [= ->]. assert ((if is_and then all3 else any3) [b1] = b1) as -> by by destruct is_and, b1 as [[]|]. done.
  - intros [= <-]. destruct (means_joined is_and s1 (s2 :: ss) b1 (b2 :: bs)) as (t & Ht & E); [done|by constructor|].
    exists t. split; [|done]. eapply spelled_4, spelled_paren. eassumption.
Qed.

Lemma rowid_projected t i : IsRowidColumn (BoundColumnRef t i) c0 = true ->
  projected i = if pk_is_composite c0 then struct_value (row <$> pk_column_names c0)
                else match pk_column_names c0 with name :: _ => row name | [] => nowhere end.
Proof.
  unfold IsRowidColumn, projected. intros Hr%bool_decide_eq_true_1. rewrite Hr. by rewrite Z.eqb_refl.
Qed.

Lemma pk_equal_means name v t s : constant_ok t v -> ValueToSQLLiteral v t = Ok s ->
  means_condition (pk_equal name s) (compare Eq (row name) (value_of (Plain v))).
Proof.
  intros Hv Hs. apply (comparison_means Equal (tx " = ")); [done| |by eapply ValueToSQLLiteral_sound].
  apply (value_signed false). exists (TColumn name). split; [apply spelled_column|done].
Qed.

Lemma pk_equalities_means names types cs ss : Forall2 (fun v t => constant_ok t v /\ IsNull v = false) cs types ->
  pk_equalities names types cs = Ok ss -> 
  Forall2 means_condition ss (zip_with (fun v c => compare Eq v (value_of (Plain c))) (row <$> names) cs).
Proof.
  intros Hc. revert names ss. induction Hc as [|v t cs types [Hv _] _ IH]; intros names ss E; cbn [pk_equalities] in E.
  - injection E as <-. by destruct names.
  - destruct names as [|name names]; [done|]. apply bind_Ok in E as (s & Hs & E). apply bind_Ok in E as (r & Hr & [= <-]).
    cbn. constructor; [by eapply pk_equal_means|by apply IH].
Qed.

Lemma rowid_sound d t i e s : IsRowidColumn (BoundColumnRef t i) c0 = true -> key_ok e ->
  EncodeRowidEquality e (at_depth d) = Ok (encoded s) -> means_condition s (compare Eq (projected i) (duck meaning_of e)).
Proof.
  intros Hr Hk. unfold EncodeRowidEquality. change (HasPKInfo (at_depth d)) with (HasPKInfo c0). destruct (HasPKInfo c0) eqn:Hpk; [|done]. cbn [negb].
  destruct e as [| |t' v| | | | | | | |]; try done. cbn [pk_is_composite pk_column_names pk_column_types at_depth duck]. rewrite (rowid_projected t i Hr).
  destruct v as [v|cs]; cbn [key_ok] in Hk.
  - destruct (pk_is_composite c0); [done|]. destruct (Hk eq_refl) as (t0 & Ht & Hv).
    destruct (pk_column_names c0) as [|name names]; [done|]. destruct (pk_column_types c0) as [|t1 types]; [done|]. injection Ht as ->.
    intros E. apply bind_Ok in E as (x & Hx & [= <-]). by eapply pk_equal_means.
  - destruct Hk as [-> Hk]. destruct (Z.eqb_spec (zlen cs) (zlen (pk_column_names c0))) as [Hl|]; [|done]. cbn [negb].
    intros E. apply bind_Ok in E as (ss & Hss & [= <-]). pose proof (pk_equalities_means _ _ _ _ Hk Hss) as Hm.
    rewrite struct_agrees; [|rewrite length_fmap; unfold zlen in Hl; lia|]. 
    2: { clear -Hk. induction Hk as [|v t cs ts [_ ?] _ IH]; by constructor. }
    assert (Hne : cs <> []).
    { intros ->. unfold HasPKInfo in Hpk. destruct (pk_column_names c0); [done|]. unfold zlen in Hl. cbn in Hl. lia. }
    destruct Hm as [|s1 b1 ss bs Hfst Hm]; [exfalso|].
    + destruct cs as [|c cs]; [done|]. destruct (pk_column_names c0); [unfold zlen in Hl; cbn in Hl; lia|].
      destruct (pk_column_types c0); [by apply Forall2_cons_nil_inv in Hk|]. cbn [pk_equalities] in Hss. apply bind_Ok in Hss as (? & _ & Hss).
      by apply bind_Ok in Hss as (? & _ & ?).
    + destruct (means_joined true s1 ss b1 bs Hfst Hm) as (tr & Htr & E). exists tr. split; [|done].
      eapply spelled_4, spelled_paren. eassumption.
Qed.

Lemma encoded_inj a b : Ok (encoded a) = Ok (encoded b) -> a = b.
Proof. by intros [= ->]. Qed.

(** *** Handlers *)

Lemma search_condition_sound e d s : sound e -> predicate_ok e ->
  EncodeSearchCondition EncodeExpression e (at_depth d) = Ok (encoded s) -> means_condition s (truth (duck meaning_of e)).
Proof.
  intros He Hp E. unfold EncodeSearchCondition in E. apply bind_Ok in E as ([x b] & Hx & E). cbn [supported sql] in E. injection E as E.
  destruct Hp as [e Hc Hok|e t Hc Hok Ht Hb].
  - rewrite Hc in E. rewrite !andb_false_r in E. injection E as <- ->. by apply (He d x).
  - rewrite Hc, Ht in E. rewrite (bool_decide_eq_true_2 (BOOLEAN = BOOLEAN)) in E by done.
    destruct b; [|done]. destruct (He d x Hx) as [Hv _]. specialize (Hv Hok).
    assert (x <> []) by (destruct Hv as (? & Hsp & _); by eapply spelled_nonempty).
    rewrite bool_decide_eq_false_2 in E by done. cbn in E. injection E as <-. apply value_signed in Hv. rewrite Hb, truth_bit in *.
    destruct (means_operator 4 Eq (tx " = ") x (tx "1") (bit t) (constant_value (CInt 1))) with (m := Truth t) as (tr & Htr & Er); try done; [|lia| | |].
    + unfold operator, infixes. member.
    + exists (TConst (CInt 1)). split; [|done]. exact (spelled_literal _ _ _ (literal_int 1)).
    + cbn. by rewrite compare_bit.
    + exists tr. split; [|done]. assert (E : tx "(" ++ x ++ tx " = 1)" = tx "(" ++ (x ++ tx " = " ++ tx "1") ++ tx ")") by by rewrite <- !app_assoc.
      cbn [sql]. change (Byte.x28 :: x ++ _) with (tx "(" ++ x ++ tx " = 1)"). rewrite E. eapply spelled_4, spelled_paren, spelled_0. exact Htr.
Qed.

Lemma argument_sound datepart name d e s : sound e -> (forall u c, e = BoundCast u c -> sound c) -> value_ok e ->
  datepart = IsDatePartFunction name -> encode_argument EncodeExpression datepart (at_depth d) e = Ok (encoded s) ->
  exists v, means_value (number_constant e) s v /\ (v = duck meaning_of e \/ datepart = true /\ function name [v] = function name [duck meaning_of e]).
Proof.
  intros He Hc Hok Hdp E. unfold encode_argument in E.
  assert (Hplain : EncodeExpression e (at_depth d) = Ok (encoded s) ->
    exists v, means_value (number_constant e) s v /\ (v = duck meaning_of e \/ datepart = true /\ function name [v] = function name [duck meaning_of e])).
  { intros E'. exists (duck meaning_of e). split; [|by left]. by apply (He d s). }
  destruct e as [| | |t c| | | | | | |]; try by apply Hplain.
  destruct (datepart && _ && _) eqn:Eb; [|by apply Hplain]. apply andb_true_iff in Eb as [[Hd Ht]%andb_true_iff Hu].
  inversion Hok; subst. exists (duck meaning_of c). split.
  - cbn [number_constant]. by apply (Hc _ _ eq_refl d s).
  - right. split; [done|]. cbn [duck]. by rewrite (cast_precision name).
Qed.

Lemma arguments_sound name d es ss : Forall sound es -> Forall (fun e => forall u c, e = BoundCast u c -> sound c) es -> Forall value_ok es ->
  encode_arguments EncodeExpression (IsDatePartFunction name) (at_depth d) es = Ok (Some ss) ->
  Forall2 (fun e s => exists v, means_value (number_constant e) s v /\
    (v = duck meaning_of e \/ IsDatePartFunction name = true /\ function name [v] = function name [duck meaning_of e])) es ss.
Proof.
  intros He Hc Hok. revert ss. induction es as [|e es IH]; intros ss E; cbn [encode_arguments] in E; [by injection E as <-|].
  apply Forall_cons in He as [He Hes]. apply Forall_cons in Hc as [Hc Hcs]. apply Forall_cons in Hok as [Hok Hoks].
  apply bind_Ok in E as ([x b] & Hx & E). cbn [supported sql] in E. destruct b; [|done]. apply bind_Ok in E as (r & Hr & E).
  destruct r as [r|]; [|done]. injection E as <-. constructor; [by eapply argument_sound|by apply IH].
Qed.

Lemma function_sound t name es : Forall sound es -> Forall (fun e => forall u c, e = BoundCast u c -> sound c) es -> 
  value_ok (BoundFunction t name es) -> forall d s, EncodeFunctionExpression EncodeExpression name es (at_depth d) = Ok (encoded s) ->
  means_value false s (duck meaning_of (BoundFunction t name es)).
Proof.
  intros He Hc Hok d s E. inversion Hok as [| | | |? ? ? Hlike Hargs Hneg Habs| |]; subst. unfold EncodeFunctionExpression in E. rewrite Hlike in E.
  destruct (GetFunctionMapping name) as [m|] eqn:Em; [|done]. apply GetFunctionMapping_mapped in Em.
  destruct (_ && _); [done|]. destruct (Z.eqb_spec (expected_args m) (zlen es)) as [Hn|]; [|done]. cbn [negb] in E.
  rewrite child_depth in E. apply bind_Ok in E as (r & Hr & E). destruct r as [ss|]; [|done]. injection E as <-.
  pose proof (arguments_sound name (d + 1) es ss He Hc Hargs Hr) as Hss. cbn [duck]. unfold zlen in Hn.
  destruct Em as [f m Hf Hm Ht|m Hname Hm Ht|m Hname Hm Ht|p op pre m Hop Hpre Hp Hp7 Hm Ht]; rewrite Hm in Hn.
  1-3: (destruct es as [|e [|]]; cbn in Hn; try lia; inversion Hss as [|? s1 ? ss' (v & Hv & Hd) Hnil]; subst; inversion Hnil; subst; rewrite Ht; cbn [fmap list_fmap];
    (assert (Hfun : function name [duck meaning_of e] = function name [v]) by (destruct Hd as [-> |[_ <-]]; done)); rewrite Hfun, function_case).
  - rewrite (unary_agrees _ f v) by done. destruct Hv as (tr & Htr & Ev). exists (TCall f tr). split; [|cbn; by rewrite Ev].
    eapply spelled_call; [|eapply spelled_0; exact Htr].
    clear -Hf. unfold unary_calls in Hf. repeat (apply elem_of_cons in Hf as [Hf|Hf]; [injection Hf as _ ->; match goal with |- ?P => exact (bool_decide_eq_true_1 P eq_refl) end|]).
    by apply elem_of_nil in Hf.
  - rewrite Hname, trim_agrees. destruct Hv as (tr & Htr & Ev). exists (TCall (tx "LTRIM(") (TCall (tx "RTRIM(") tr)). split; [|cbn; by rewrite Ev].
    eapply spelled_call; [match goal with |- ?P => exact (bool_decide_eq_true_1 P eq_refl) end|]. eapply spelled_0.
    eapply spelled_call; [match goal with |- ?P => exact (bool_decide_eq_true_1 P eq_refl) end|eapply spelled_0; exact Htr].
  - rewrite Hname, negate_agrees. specialize (Hneg Hname). apply Forall_cons in Hneg as [Hneg _]. rewrite Hneg in Hv.
    destruct Hv as (tr & Htr & Ev). apply (value_paren 6 _ (TNeg tr)); [by apply spelled_neg|cbn; by rewrite Ev].
  - destruct es as [|e1 [|e2 [|]]]; cbn in Hn; try lia. inversion Hss as [|? s1 ? ss' (v1 & Hv1 & Hd1) Hsnd]; subst.
    inversion Hsnd as [|? s2 ? ss'' (v2 & Hv2 & Hd2) Hnil]; subst. inversion Hnil; subst. cbn [fmap list_fmap].
    assert (Hdp : IsDatePartFunction name = false).
    { apply bool_decide_eq_false_2. intros Hin. clear -Hin Hop. unfold binary_functions in Hop. 
      repeat (apply elem_of_cons in Hin as [->|Hin]; [by apply (bool_decide_eq_false_1 _ eq_refl) in Hop || (repeat (apply elem_of_cons in Hop as [Hop|Hop]; [by vm_compute in Hop|]); by apply elem_of_nil in Hop)|]).
      by apply elem_of_nil in Hin. }
    rewrite Hdp in *. destruct Hd1 as [-> |[? _]]; [|done]. destruct Hd2 as [-> |[? _]]; [|done].
    rewrite function_case, (binary_agrees _ op) by done. rewrite Ht.
    2: { apply (Habs e1 e2 eq_refl (d + 1)). cbn [encode_arguments] in Hr. apply bind_Ok in Hr as ([x b] & Hx & Hr). cbn [supported sql] in Hr.
         destruct b; [|done]. apply bind_Ok in Hr as (r & _ & Hr). destruct r; [|done]. injection Hr as <- _.
         unfold encode_argument in Hx. by destruct e1. }
    destruct Hv1 as (t1 & Ht1 & E1), Hv2 as (t2 & Ht2 & E2). apply (value_paren p _ (TBinary op t1 t2)).
    + by eapply spelled_binary; [done|done|done|lia|lia].
    + cbn [eval]. rewrite E1, E2. clear -Hop. unfold binary_functions in Hop.
      repeat (apply elem_of_cons in Hop as [Hop|Hop]; [by injection Hop as _ ->|]). by apply elem_of_nil in Hop.
Qed.

Lemma comparison_sound op l r d s : sound l -> sound r -> condition_ok (BoundComparison op l r) ->
  EncodeComparisonExpression EncodeExpression op l r (at_depth d) = Ok (encoded s) ->
  means_condition s (duck_compare op (duck meaning_of l) (duck meaning_of r)).
Proof.
  intros Hl Hr Hok E. unfold EncodeComparisonExpression in E. change (HasPKInfo (at_depth d)) with (HasPKInfo c0) in E.
  change (IsRowidColumn l (at_depth d)) with (IsRowidColumn l c0) in E. change (IsRowidColumn r (at_depth d)) with (IsRowidColumn r c0) in E.
  inversion Hok as [? ? ? Hrow Hvl Hvr|t i ? Hpk Hrow Hk|t i ? Hpk Hnl Hrow Hk| | | | |]; subst.
  - assert (Hno : forall x, (match op with Equal => HasPKInfo c0 | _ => false end) && x = true -> x <> IsRowidColumn l c0 /\ x <> IsRowidColumn r c0).
    { intros x [Hp ->]%andb_true_iff. destruct op; try done. destruct (Hrow eq_refl Hp) as [-> ->]. done. }
    destruct (_ && IsRowidColumn l c0) eqn:El; [by apply Hno in El as [? _]|]. destruct (_ && IsRowidColumn r c0) eqn:Er; [by apply Hno in Er as [_ ?]|].
    destruct (GetComparisonOperator op) as [pre|] eqn:Eo; [|done].
    apply and_then_Ok in E as (x & Hx & E). apply and_then_Ok in E as (y & Hy & <-%encoded_inj).
    replace (tx "(" ++ x ++ pre ++ y ++ tx ")") with (tx "(" ++ (x ++ pre ++ y) ++ tx ")") by by rewrite <- !app_assoc.
    apply means_paren. apply comparison_means; [done| |].
    + apply (value_signed (number_constant l)). by apply (Hl (d + 1) x).
    + apply (value_signed (number_constant r)). by apply (Hr (d + 1) y).
  - rewrite Hpk, Hrow in E. cbn [andb] in E. by apply (rowid_sound d t i).
  - rewrite Hpk, Hnl, Hrow in E. cbn [andb] in E. pose proof (rowid_sound d t i l s Hrow Hk E) as Hm.
    cbn [duck_compare duck]. by rewrite compare_sym.
Qed.

Lemma between_sound li ui i l u d s : sound i -> sound l -> sound u -> value_ok i -> value_ok l -> value_ok u ->
  EncodeBetweenExpression EncodeExpression li ui i l u (at_depth d) = Ok (encoded s) ->
  means_condition s (truth (duck meaning_of (BoundBetween li ui i l u))).
Proof.
  intros Hi Hl Hu Hvi Hvl Hvu E. unfold EncodeBetweenExpression in E.
  apply and_then_Ok in E as (x & Hx & E). apply and_then_Ok in E as (y & Hy & E). apply and_then_Ok in E as (z & Hz & <-%encoded_inj).
  destruct (Hi _ _ Hx) as [Mi _], (Hl _ _ Hy) as [Ml _], (Hu _ _ Hz) as [Mu _].
  specialize (Mi Hvi). specialize (Ml Hvl). specialize (Mu Hvu). apply value_signed in Mi, Ml, Mu. cbn [duck]. rewrite truth_bit.
  destruct (li && ui) eqn:Eb.
  - apply andb_true_iff in Eb as [-> ->]. destruct Mi as (ti & Hti & Ei), Ml as (tl & Htl & El), Mu as (tu & Htu & Eu).
    exists (TBetween ti tl tu). split; [|cbn [eval]; rewrite Ei, El, Eu; done].
    replace (tx "(" ++ x ++ tx " BETWEEN " ++ y ++ tx " AND " ++ z ++ tx ")") with (tx "(" ++ (x ++ tx " BETWEEN " ++ y ++ tx " AND " ++ z) ++ tx ")") by by rewrite <- !app_assoc.
    eapply spelled_4, spelled_paren, spelled_0, spelled_between; eassumption.
  - assert (Hlo : means_condition (x ++ (if li then tx " >= " else tx " > ") ++ y) (duck_compare (if li then GreaterThanOrEqualTo else GreaterThan) (duck meaning_of i) (duck meaning_of l)))
      by (destruct li; by apply comparison_means).
    assert (Hup : means_condition (x ++ (if ui then tx " <= " else tx " < ") ++ z) (duck_compare (if ui then LessThanOrEqualTo else LessThan) (duck meaning_of i) (duck meaning_of u)))
      by (destruct ui; by apply comparison_means).
    apply means_paren in Hlo, Hup. eassert (Hups : Forall2 means_condition [_] [_]) by (constructor; [exact Hup|constructor]).
    destruct (means_joined true _ _ _ _ Hlo Hups) as (t & Ht & Et).
    exists t. split.
    + replace (tx "((" ++ x ++ (if li then tx " >= " else tx " > ") ++ y ++ tx ") AND (" ++ x ++ (if ui then tx " <= " else tx " < ") ++ z ++ tx "))")
        with (tx "(" ++ join (tx " AND ") [tx "(" ++ (x ++ (if li then tx " >= " else tx " > ") ++ y) ++ tx ")"; tx "(" ++ (x ++ (if ui then tx " <= " else tx " < ") ++ z) ++ tx ")"] ++ tx ")").
      * eapply spelled_4, spelled_paren. exact Ht.
      * rewrite join_cons. cbn [join]. change (tx "((") with (tx "(" ++ tx "("). change (tx ") AND (") with (tx ")" ++ tx " AND " ++ tx "("). change (tx "))") with (tx ")" ++ tx ")").
        by rewrite <- !app_assoc.
    + rewrite Et. cbn [all3 foldr]. by rewrite and3_true.
Qed.

Lemma not_sound e d s : sound e -> predicate_ok e ->
  and_then (EncodeSearchCondition EncodeExpression e (at_depth d)) (fun s => Ok (encoded (tx "(NOT " ++ s ++ tx ")"))) = Ok (encoded s) ->
  means_condition s (not3 (truth (duck meaning_of e))).
Proof.
  intros He Hp E. apply and_then_Ok in E as (x & Hx & <-%encoded_inj). destruct (search_condition_sound e d x He Hp Hx) as (t & Ht & Et).
  exists (TNot t). split; [|cbn [eval]; by rewrite Et]. change (tx "(NOT ") with (tx "(" ++ tx "NOT ").
  replace ((tx "(" ++ tx "NOT ") ++ x ++ tx ")") with (tx "(" ++ (tx "NOT " ++ x) ++ tx ")") by by rewrite <- !app_assoc.
  eapply spelled_4, spelled_paren, spelled_0, spelled_not. by apply (spelled_weaken true 3 4); [|lia].
Qed.

Lemma is_null_sound (positive : bool) e d s : sound e -> value_ok e ->
  and_then (EncodeExpression e (at_depth d)) (fun s => Ok (encoded (tx "(" ++ s ++ (if positive then tx " IS NULL)" else tx " IS NOT NULL)")))) = Ok (encoded s) ->
  means_condition s (Some (Bool.eqb (is_null (duck meaning_of e)) positive)).
Proof.
  intros He Hv E. apply and_then_Ok in E as (x & Hx & <-%encoded_inj). destruct (He d x Hx) as [Hm _]. destruct (Hm Hv) as (t & Ht & Et).
  exists (TIsNull positive t). split; [|cbn [eval]; by rewrite Et].
  replace (tx "(" ++ x ++ (if positive then tx " IS NULL)" else tx " IS NOT NULL)"))
    with (tx "(" ++ (x ++ (if positive then tx " IS NULL" else tx " IS NOT NULL")) ++ tx ")") by (rewrite <- !app_assoc; by destruct positive).
  eapply spelled_4, spelled_paren, spelled_0, spelled_is_null. exact Ht.
Qed.

Lemma conditions_sound (is_and : bool) es d ss all : Forall sound es -> Forall predicate_ok es ->
  encode_conditions EncodeExpression is_and (at_depth d) es = Ok (Some (ss, all)) -> all = true ->
  Forall2 means_condition ss ((fun e => truth (duck meaning_of e)) <$> es).
Proof.
  intros He Hp. revert ss all. induction es as [|e es IH]; intros ss all E Ha; cbn [encode_conditions] in E; [injection E as <- <-; constructor|].
  apply Forall_cons in He as [He Hes]. apply Forall_cons in Hp as [Hp Hps]. apply bind_Ok in E as ([x b] & Hx & E). cbn [supported sql] in E.
  destruct (negb is_and && _); [done|]. apply bind_Ok in E as (rest & Hrest & E). destruct rest as [[ss' all']|]; [|done].
  injection E as <- <-. apply andb_true_iff in Ha as [-> ->]. pose proof (search_condition_sound e d x He Hp Hx) as Hm.
  assert (x <> []) by (destruct Hm as (t & Ht & _); by eapply spelled_nonempty). rewrite bool_decide_eq_false_2 by done. constructor; [done|].
  by apply (IH Hes Hps ss' true).
Qed.

Lemma conjunction_sound is_and es d s : Forall sound es -> Forall predicate_ok es ->
  EncodeConjunctionExpression EncodeExpression is_and es (at_depth d) = Ok (encoded s) ->
  means_condition s ((if is_and then all3 else any3) ((fun e => truth (duck meaning_of e)) <$> es)).
Proof.
  intros He Hp E. unfold EncodeConjunctionExpression in E. apply bind_Ok in E as (r & Hr & E). rewrite child_depth in Hr.
  destruct r as [[ss all]|]; [|done]. injection E as E.
  assert (all = true) as -> by by destruct ss as [|? [|]], all.
  apply (means_conjoined is_and ss); [by eapply conditions_sound|done].
Qed.
(** LIKE, with the literal that the pattern is. *)
Lemma like_pattern_means name fold holds s : (name, (fold, holds)) ∈ like_functions ->
  exists q, like_pattern name (EscapeLikePattern s) = Some (tx "N'" ++ EscapeSqlSingleQuotes q ++ tx "'") /\
    (forall x, like q x = holds s x) /\ (forall x, like (lower q) x = holds (lower s) x) /\ continued q = continued s.
Proof.
  assert (Epre : EscapeSqlSingleQuotes (EscapeLikePattern s ++ tx "%") = EscapeSqlSingleQuotes (EscapeLikePattern s) ++ tx "%") by apply doubled_app.
  assert (Esuf : forall s, EscapeSqlSingleQuotes (tx "%" ++ s) = tx "%" ++ EscapeSqlSingleQuotes s) by (intros r; exact (doubled_app QUOTE (tx "%") r)).
  intros Hin. unfold like_functions in Hin.
  repeat (apply elem_of_cons in Hin as [[= -> -> ->]|Hin]; [first
    [exists (EscapeLikePattern s ++ tx "%"); rewrite lower_prefix, Epre, <- app_assoc; split_and!; [reflexivity|intros x; apply like_prefix..|by rewrite ?percent_continued, ?continued_percent, continued_EscapeLikePattern]
    |exists (tx "%" ++ EscapeLikePattern s); rewrite lower_suffix, Esuf, <- app_assoc; split_and!; [reflexivity|intros x; apply like_suffix..|by rewrite ?percent_continued, ?continued_percent, continued_EscapeLikePattern]
    |exists (tx "%" ++ EscapeLikePattern s ++ tx "%"); rewrite lower_infix, Esuf, Epre, <- !app_assoc; split_and!; [reflexivity|intros x; apply like_infix..|by rewrite ?percent_continued, ?continued_percent, continued_EscapeLikePattern]]|]).
  by apply elem_of_nil in Hin.
Qed.

Lemma like_function name : IsLikePatternFunction name = true ->
  exists holds, (ToLower name, (IsCaseInsensitiveLikeFunction name, holds)) ∈ like_functions.
Proof.
  unfold IsLikePatternFunction, IsCaseInsensitiveLikeFunction. intros Hin%bool_decide_eq_true_1.
  repeat (apply elem_of_cons in Hin as [->|Hin]; [eexists; unfold like_functions; member|]). by apply elem_of_nil in Hin.
Qed.

Lemma string_text v : good_value v -> id (type v) = VARCHAR -> IsNull v = false -> text (value_of (Plain v)) = Some (ToString v).
Proof.
  intros Hg Ht Hn. unfold IsNull in Hn. apply bool_decide_eq_false_1 in Hn. destruct (cell_of v) as [c|] eqn:Ec; [|done].
  assert (Hd : denoted v = Ok (CString true (str c))).
  { destruct Hg as (_ & _ & Hex). unfold expressible in Hex. rewrite Ec, Ht in Hex. apply negb_true_iff in Hex. unfold denoted, string_constant. by rewrite Ec, Ht, Hex. }
  rewrite <- (constant_agrees v _ Hg Hd), constant_text. f_equal. symmetry.
  destruct Hg as ([Hst _] & Hok & _). rewrite Ec, Hst, Ht in Hok. destruct c as [z|b]; [done|]. by apply ToString_VARCHAR.
Qed.

Lemma string_one_line v : good_value v -> id (type v) = VARCHAR -> IsNull v = false -> continued (ToString v) = false.
Proof.
  intros ([Hst _] & Hok & Hex) Ht Hn. unfold IsNull in Hn. apply bool_decide_eq_false_1 in Hn. unfold expressible in Hex.
  destruct (cell_of v) as [c|] eqn:Ec; [|done]. rewrite Ht in Hex. apply negb_true_iff in Hex. rewrite Hst, Ht in Hok.
  destruct c as [z|b]; [done|]. by rewrite (ToString_VARCHAR v b).
Qed.

Lemma like_sound name col t' v d s : sound col -> IsLikePatternFunction name = true -> value_ok col -> good_value v -> id (type v) = VARCHAR ->
  EncodeLikePattern EncodeExpression name col (BoundConstant t' (Plain v)) (at_depth d) = Ok (encoded s) ->
  means_condition s (truth (function name [duck meaning_of col; value_of (Plain v)])).
Proof.
  intros Hcol Hname Hok Hg Ht E. apply and_then_Ok in E as (x & Hx & E). cbn [as_value] in E. destruct (IsNull v) eqn:Hn; [done|].
  destruct (like_function name Hname) as (holds & Hin). destruct (like_pattern_means _ _ _ (ToString v) Hin) as (q & Hq & Hlike & Hlower & Hcont).
  rewrite Hq in E. apply encoded_inj in E as <-. destruct (Hcol _ _ Hx) as [Hm _]. destruct (value_signed _ _ _ (Hm Hok)) as (tc & Htc & Ec).
  pose proof (spelled_literal _ _ _ (literal_string q ltac:(by rewrite Hcont; apply string_one_line))) as Hlit.
  rewrite function_case, (like_agrees _ _ _ _ _ Hin), truth_bit, (string_text v Hg Ht Hn). destruct (IsCaseInsensitiveLikeFunction name).
  - assert (Hlow : tx "LOWER(" ∈ calls.*1) by match goal with |- ?P => exact (bool_decide_eq_true_1 P eq_refl) end.
    assert (Hmeans : means_condition ((tx "LOWER(" ++ x ++ tx ")") ++ tx " LIKE " ++ (tx "LOWER(" ++ (tx "N'" ++ EscapeSqlSingleQuotes q ++ tx "'") ++ tx ")"))
      (match text (duck meaning_of col) with Some s => Some (holds (lower (ToString v)) (lower s)) | None => None end)).
    { exists (TBinary Like (TCall (tx "LOWER(") tc) (TCall (tx "LOWER(") (TConst (CString true q)))). split.
      - eapply spelled_binary; [|by eapply spelled_call, spelled_0|by eapply spelled_call, spelled_0|lia|lia]. unfold operator, infixes. member.
      - cbn [eval]. rewrite Ec. cbn [tsql_binary]. rewrite !lower_text, constant_text. destruct (text (duck meaning_of col)) as [b|]; [|done]. exact (f_equal (fun h => Truth (Some h)) (Hlower (lower b))). }
    apply means_paren in Hmeans. revert Hmeans. change (tx "(LOWER(") with (tx "(" ++ tx "LOWER("). change (tx ") LIKE LOWER(") with (tx ")" ++ tx " LIKE " ++ tx "LOWER(").
    change (tx "))") with (tx ")" ++ tx ")"). by rewrite <- !app_assoc.
  - assert (Hmeans : means_condition (x ++ tx " LIKE " ++ (tx "N'" ++ EscapeSqlSingleQuotes q ++ tx "'"))
      (match text (duck meaning_of col) with Some s => Some (holds (ToString v) s) | None => None end)).
    { exists (TBinary Like tc (TConst (CString true q))). split.
      - eapply spelled_binary; [|exact Htc|exact Hlit|lia|lia]. unfold operator, infixes. member.
      - cbn [eval]. rewrite Ec. cbn [tsql_binary]. rewrite constant_text. destruct (text (duck meaning_of col)); [|done]. by rewrite Hlike. }
    apply means_paren in Hmeans. revert Hmeans. by rewrite <- !app_assoc.
Qed.

(** CASE. *)
Lemma Ok_Some_inj (a b : bytes) : Ok (Some a) = Ok (Some b) -> a = b.
Proof. by intros [= ->]. Qed.

Lemma checks_sound d checks s : Forall (fun c => sound c.1 /\ sound c.2) checks -> Forall (fun c => predicate_ok c.1 /\ value_ok c.2) checks ->
  encode_checks EncodeExpression (at_depth d) checks = Ok (Some s) ->
  exists ws ts, s = mjoin (when_text <$> ws) /\ Forall2 (fun w t => spelled true 0 w.1 t.1 /\ spelled true 0 w.2 t.2) ws ts /\
    Forall2 (fun t c => eval row t.1 = Truth (truth (duck meaning_of c.1)) /\ eval row t.2 = Val (duck meaning_of c.2)) ts checks.
Proof.
  intros Hs Hok. revert s. induction checks as [|[w x] checks IH]; intros s E; cbn [encode_checks] in E.
  - injection E as <-. by exists [], [].
  - apply Forall_cons in Hs as [[Hw Hx] Hs]. apply Forall_cons in Hok as [[Hpw Hvx] Hok]. cbn [fst snd] in *.
    apply bind_Ok in E as ([sw bw] & Ew & E). cbn [supported sql] in E. destruct bw; [|done]. cbn [negb] in E.
    apply bind_Ok in E as ([sx bx] & Ex & E). cbn [supported sql] in E. destruct bx; [|done]. cbn [negb] in E.
    apply bind_Ok in E as (r & Er & E). destruct r as [r|]; [|done]. 
    destruct (IH Hs Hok r Er) as (ws & ts & -> & Hsp & Hev).
    destruct (search_condition_sound w d sw Hw Hpw Ew) as (tw & Htw & Etw). destruct (Hx d sx Ex) as [Hv _]. destruct (Hv Hvx) as (tt & Htt & Ett).
    exists ((sw, sx) :: ws), ((tw, tt) :: ts). split_and!.
    + apply Ok_Some_inj in E as <-. change (mjoin (when_text <$> (sw, sx) :: ws)) with ((tx " WHEN " ++ sw ++ tx " THEN " ++ sx) ++ mjoin (when_text <$> ws)).
      done.
    + constructor; [|done]. split; by eapply spelled_0.
    + by constructor.
Qed.

Lemma case_sound t checks e d s : Forall (fun c => sound c.1 /\ sound c.2) checks -> sound e -> value_ok (BoundCase t checks e) ->
  EncodeCaseExpression EncodeExpression checks e (at_depth d) = Ok (encoded s) -> means_value false s (duck meaning_of (BoundCase t checks e)).
Proof.
  intros Hs He Hok E. inversion Hok as [| | | | |? ? ? Hchecks Hvalue|]; subst. unfold EncodeCaseExpression in E. rewrite child_depth in E.
  apply bind_Ok in E as (r & Hr & E). destruct r as [whens|]; [|done]. apply and_then_Ok in E as (x & Hx & <-%encoded_inj).
  destruct (checks_sound _ _ _ Hs Hchecks Hr) as (ws & ts & -> & Hsp & Hev). destruct (He _ _ Hx) as [Hm _]. destruct (Hm Hvalue) as (te & Hte & Ete).
  exists (TCase ts te). split; [by eapply spelled_case; [|eapply spelled_0]|]. cbn [eval duck]. rewrite Ete. clear -Hev.
  induction Hev as [|t c ts checks [E1 E2] _ IH]; [done|]. cbn [foldr]. by rewrite IH, E1, E2.
Qed.

(** Operators. *)
Lemma operator_sound t op es d s : Forall sound es -> condition_ok (BoundOperator t op es) ->
  EncodeOperatorExpression EncodeExpression op es (at_depth d) = Ok (encoded s) ->
  means_condition s (truth (duck meaning_of (BoundOperator t op es))).
Proof.
  intros Hs Hok E. destruct op; try done; (destruct es as [|e [|]]; try done); apply Forall_cons in Hs as [Hs _];
    inversion Hok as [| | | | |? ? Hes|? ? ? Hne Hes|]; subst; try done; apply Forall_cons in Hes as [He _]; cbn [duck]; rewrite truth_bit.
  - by apply (not_sound e (d + 1)).
  - pose proof (is_null_sound true e (d + 1) s Hs He E) as Hm. revert Hm. by destruct (is_null _).
  - pose proof (is_null_sound false e (d + 1) s Hs He E) as Hm. revert Hm. by destruct (is_null _).
Qed.

(** *** Every expression *)

Lemma sound_cases e :
  (forall d s, value_ok e -> EncodeExpression e (at_depth d) = Ok (encoded s) -> at_max_depth (at_depth d) = false ->
     means_value (number_constant e) s (duck meaning_of e)) ->
  (forall d s, condition_ok e -> EncodeExpression e (at_depth d) = Ok (encoded s) -> at_max_depth (at_depth d) = false ->
     means_condition s (truth (duck meaning_of e))) -> sound e.
Proof.
  intros Hv Hc d s E. assert (Hd : at_max_depth (at_depth d) = false).
  { destruct (at_max_depth (at_depth d)) eqn:Hd; [|done]. destruct e; cbn [EncodeExpression] in E; by rewrite Hd in E. }
  split; intros Hok; [by eapply Hv|by eapply Hc].
Qed.

Lemma sound_condition e :
  (forall d s, condition_ok e -> EncodeExpression e (at_depth d) = Ok (encoded s) -> at_max_depth (at_depth d) = false ->
     means_condition s (truth (duck meaning_of e))) -> (value_ok e -> False) -> sound e.
Proof. intros Hc Hv. apply sound_cases; [by intros ? ? ?%Hv|done]. Qed.

Lemma sound_value e :
  (forall d s, value_ok e -> EncodeExpression e (at_depth d) = Ok (encoded s) -> at_max_depth (at_depth d) = false ->
     means_value (number_constant e) s (duck meaning_of e)) -> (condition_ok e -> False) -> sound e.
Proof. intros Hv Hc. apply sound_cases; [done|by intros ? ? ?%Hc]. Qed.

Lemma reference_sound t i : sound (BoundReference t i).
Proof.
  apply sound_value; [|by inversion 1]. intros d s _ E Hd. cbn [EncodeExpression] in E. rewrite Hd in E. cbn [filter_column at_depth] in E.
  destruct (filter_column c0) as [name|] eqn:Ef; [|done]. cbn [duck meaning_of self]. destruct (i =? 0); [|done]. apply encoded_inj in E as <-.
  destruct (Hself _ eq_refl) as (col & -> & <-). exists (TColumn col). split; [apply spelled_column|done].
Qed.

Lemma cast_sound t e : sound e -> sound (BoundCast t e).
Proof.
  intros He. apply sound_value; [|by inversion 1]. intros d s Hok E Hd. inversion Hok as [| | |? ? Hv| | |]; subst.
  cbn [EncodeExpression] in E. rewrite Hd in E. destruct (_ && _) eqn:Et; [|done].
  apply andb_true_iff in Et as [Ht%bool_decide_eq_true_1 Hu%bool_decide_eq_true_1]. cbn [duck number_constant].
  rewrite cast_text by done. by apply (He d s).
Qed.

Lemma function_case_sound t name es : Forall sound es -> Forall (fun e => forall u c, e = BoundCast u c -> sound c) es -> sound (BoundFunction t name es).
Proof.
  intros Hs Hc. apply sound_cases; intros d s Hok E Hd; cbn [EncodeExpression] in E; rewrite Hd in E.
  - by apply (function_sound t name es Hs Hc Hok d).
  - inversion Hok as [| | | | | | |? ? col t' v Hname Hcol Hg Ht]; subst. unfold EncodeFunctionExpression in E. rewrite Hname in E.
    apply Forall_cons in Hs as [Hs _]. by apply (like_sound name col t' v d).
Qed.

(** The text of a supported expression means what the expression does. *)
Lemma EncodeExpression_sound e : sound e.
Proof.
  enough (sound e /\ (forall u c, e = BoundCast u c -> sound c)) by easy.
  induction e as [t i|t i|t v|t e [He _]|op l r [Hl _] [Hr _]|li ui i l u [Hi _] [Hl _] [Hu _]|t name es Hes|b es Hes|t op es Hes|t cs e Hcs [He _]|t]
    using Expression_nested;
    try (assert (Hs : Forall sound es) by (eapply Forall_impl; [exact Hes|by intros ? [? _]])); (split; [|try done]).
  - apply sound_value; [|by inversion 1]. intros d s _ E Hd. cbn [EncodeExpression] in E. rewrite Hd in E.
    by apply (column_sound d); injection E.
  - apply reference_sound.
  - apply sound_value; [|by inversion 1]. intros d s Hok E Hd. inversion Hok; subst. cbn [EncodeExpression] in E. rewrite Hd in E.
    unfold EncodeConstant in E. apply bind_Ok in E as (x & Hx & <-%encoded_inj). by eapply ValueToSQLLiteral_sound.
  - by apply cast_sound.
  - by intros ? ? [= -> ->].
  - apply sound_condition; [|by inversion 1]. intros d s Hok E Hd. cbn [EncodeExpression] in E. rewrite Hd in E. cbn [duck]. rewrite truth_bit.
    by apply (comparison_sound op l r d s).
  - apply sound_condition; [|by inversion 1]. intros d s Hok E Hd. cbn [EncodeExpression] in E. rewrite Hd in E. inversion Hok; subst.
    by apply (between_sound li ui i l u d s).
  - apply function_case_sound; [done|]. eapply Forall_impl; [exact Hes|by intros ? [_ ?]].
  - apply sound_condition; [|by inversion 1]. intros d s Hok E Hd. cbn [EncodeExpression] in E. rewrite Hd in E. inversion Hok; subst. cbn [duck].
    rewrite truth_bit. by apply (conjunction_sound b es d s).
  - apply sound_condition; [|by inversion 1]. intros d s Hok E Hd. cbn [EncodeExpression] in E. rewrite Hd in E. by apply (operator_sound t op es d s).
  - apply sound_value; [|by inversion 1]. intros d s Hok E Hd. cbn [EncodeExpression] in E. rewrite Hd in E.
    apply (case_sound t cs e d s); [|done..]. eapply Forall_impl; [exact Hcs|by intros ? [[? _] [? _]]].
  - apply sound_value; [|by inversion 1]. intros d s Hok E Hd. cbn [EncodeExpression] in E. by rewrite Hd in E.
Qed.
End Sound.

(** ** Table filters *)

Section TableFilterInduction.
Context (P : TableFilter -> Prop).
Context (Hconst : forall op c, P (ConstantFilter op c)) (Hnull : P IsNullFilter) (Hnotnull : P IsNotNullFilter) (Hin : forall vs, P (InFilter vs)).
Context (Hor : forall fs, Forall P fs -> P (ConjunctionOrFilter fs)) (Hand : forall fs, Forall P fs -> P (ConjunctionAndFilter fs)).
Context (Hexpr : forall e, P (ExpressionFilter e)) (Hother : P OtherFilter).

Fixpoint TableFilter_nested (f : TableFilter) : P f :=
  let all := fix all (fs : list TableFilter) : Forall P fs :=
    match fs with [] => Forall_nil_2 _ | f :: fs => Forall_cons_2 _ _ _ (TableFilter_nested f) (all fs) end in
  match f with
  | ConstantFilter op c => Hconst op c
  | IsNullFilter => Hnull
  | IsNotNullFilter => Hnotnull
  | InFilter vs => Hin vs
  | ConjunctionOrFilter fs => Hor fs (all fs)
  | ConjunctionAndFilter fs => Hand fs (all fs)
  | ExpressionFilter e => Hexpr e
  | OtherFilter => Hother
  end.
End TableFilterInduction.

Section Filters.
Context `{DuckDB} `{Values_} `{VirtualColumns} {En : Engines} {Ag : Agree}.
Context (ids : list Z) (names : list bytes) (types : list LogicalType).
Context (row : bytes -> V) (nowhere : V) (opaque_ : Expression -> V) (other : V -> TableFilter -> option bool).

Definition scan_context : ExpressionEncodeContext := new_context ids names types.

(** What the filters refer to. *)
Definition scan_env : env := meaning_of scan_context row nowhere nowhere opaque_.

(** A filter on the column [name]. *)
Section Column.
Context (name : bytes) (column_type : LogicalType).

Definition column_context : ExpressionEncodeContext := with_filter_column (bracketed name) scan_context.

Inductive filter_ok : TableFilter -> Prop :=
  | ok_constant_filter op v : constant_ok column_type v -> filter_ok (ConstantFilter op (Plain v))
  | ok_null_filter : filter_ok IsNullFilter
  | ok_not_null_filter : filter_ok IsNotNullFilter
  | ok_in_filter vs : vs <> [] -> Forall (constant_ok column_type) vs -> filter_ok (InFilter (Plain <$> vs))
  | ok_or_filter fs : Forall filter_ok fs -> filter_ok (ConjunctionOrFilter fs)
  | ok_and_filter fs : Forall filter_ok fs -> filter_ok (ConjunctionAndFilter fs)
  | ok_expression_filter e : predicate_ok column_context row (row name) nowhere opaque_ e -> filter_ok (ExpressionFilter e)
  | ok_other_filter : filter_ok OtherFilter.

Definition filter_sound (f : TableFilter) : Prop := forall s,
  EncodeFilter (bracketed name) column_type scan_context f = Ok (encoded s) -> filter_ok f ->
  means_condition row s (duck_filter scan_env other (row name) f).

Lemma column_value : means_value row true (bracketed name) (row name).
Proof. apply (value_signed row false). exists (TColumn name). split; [apply spelled_column|done]. Qed.

Lemma null_filter_sound (positive : bool) :
  means_condition row (bracketed name ++ (if positive then tx " IS NULL" else tx " IS NOT NULL")) (Some (Bool.eqb (is_null (row name)) positive)).
Proof. exists (TIsNull positive (TColumn name)). split; [eapply spelled_is_null, spelled_column|done]. Qed.

Lemma literals_mean vs ss : Forall (constant_ok column_type) vs -> mapM (fun v => ValueToSQLLiteral (as_value v) column_type) (Plain <$> vs) = Ok ss ->
  exists ts, Forall2 (spelled true 0) ss ts /\ Forall2 (fun t v => eval row t = Val (value_of (Plain v))) ts vs.
Proof.
  intros Hvs. revert ss. induction Hvs as [|v vs Hv _ IH]; intros ss E; cbn [fmap list_fmap mapM as_value] in E.
  - injection E as <-. by exists [].
  - apply bind_Ok in E as (s & Hs & E). apply bind_Ok in E as (r & Hr & E). injection E as <-. destruct (IH r Hr) as (ts & Hts & Ets).
    destruct (ValueToSQLLiteral_sound row column_type v s Hv Hs) as (t & Ht & Et). exists (t :: ts). split; constructor; [by eapply spelled_0|done..].
Qed.

Lemma in_filter_sound vs s : vs <> [] -> Forall (constant_ok column_type) vs ->
  EncodeInFilter (Plain <$> vs) (bracketed name) column_type = Ok (encoded s) ->
  means_condition row s (any3 ((fun c => compare Eq (row name) (value_of c)) <$> (Plain <$> vs))).
Proof.
  intros Hne Hvs E. apply bind_Ok in E as (ss & Hss & <-%encoded_inj). destruct (literals_mean vs ss Hvs Hss) as (ts & Hts & Ets).
  exists (TIn (TColumn name) ts). split.
  - eapply spelled_in; [apply spelled_column| |done]. intros ->. by destruct vs; [|apply Forall2_nil_cons_inv in Ets].
  - cbn [eval]. clear -Ets. induction Ets as [|t v ts vs Et _ IH]; [done|]. cbn [foldr fmap list_fmap]. by rewrite IH, Et.
Qed.

Lemma child_filters_sound (is_and : bool) fs ss all : Forall filter_sound fs -> Forall filter_ok fs ->
  encode_child_filters (EncodeFilter (bracketed name) column_type scan_context) is_and fs = Ok (Some (ss, all)) -> all = true ->
  Forall2 (means_condition row) ss (duck_filter scan_env other (row name) <$> fs).
Proof.
  intros Hf Hok. revert ss all. induction fs as [|f fs IH]; intros ss all E Ha; cbn [encode_child_filters] in E; [injection E as <- <-; constructor|].
  apply Forall_cons in Hf as [Hf Hfs]. apply Forall_cons in Hok as [Hp Hps]. apply bind_Ok in E as ([x b] & Hx & E). cbn [supported sql] in E.
  destruct (negb is_and && _); [done|]. apply bind_Ok in E as (rest & Hrest & E). destruct rest as [[ss' all']|]; [|done].
  injection E as <- <-. apply andb_true_iff in Ha as [-> ->]. pose proof (Hf x Hx Hp) as Hm.
  assert (x <> []) by (destruct Hm as (t & Ht & _); by eapply spelled_nonempty). rewrite bool_decide_eq_false_2 by done. constructor; [done|].
  by apply (IH Hfs Hps ss' true).
Qed.

Lemma conjoined_filters_sound (is_and : bool) fs s : Forall filter_sound fs -> Forall filter_ok fs ->
  (r ← encode_child_filters (EncodeFilter (bracketed name) column_type scan_context) is_and fs;
   Ok (match r with
       | None => unsupported
       | Some (conditions, all) => conjoined (if is_and then tx " AND " else tx " OR ") conditions all
       end)) = Ok (encoded s) ->
  means_condition row s ((if is_and then all3 else any3) (duck_filter scan_env other (row name) <$> fs)).
Proof.
  intros Hf Hok E. apply bind_Ok in E as (r & Hr & E). destruct r as [[ss all]|]; [|done]. injection E as E.
  assert (all = true) as -> by by destruct ss as [|? [|]], all.
  apply (means_conjoined row is_and ss); [by eapply child_filters_sound|done].
Qed.

Lemma EncodeFilter_sound f : filter_sound f.
Proof.
  induction f as [op c| | |vs|fs Hfs|fs Hfs|e|] using TableFilter_nested; intros s E Hok; cbn [EncodeFilter duck_filter] in *.
  - inversion Hok as [? v Hv| | | | | | |]; subst. unfold EncodeConstantComparison in E. destruct (GetComparisonOperator op) as [pre|] eqn:Eo; [|done].
    apply bind_Ok in E as (x & Hx & <-%encoded_inj). apply comparison_means; [done|apply column_value|]. by eapply ValueToSQLLiteral_sound.
  - apply encoded_inj in E as <-. pose proof (null_filter_sound true) as Hm. revert Hm. by destruct (is_null _).
  - apply encoded_inj in E as <-. pose proof (null_filter_sound false) as Hm. revert Hm. by destruct (is_null _).
  - inversion Hok; subst. by apply in_filter_sound.
  - inversion Hok; subst. by apply (conjoined_filters_sound false).
  - inversion Hok; subst. by apply (conjoined_filters_sound true).
  - inversion Hok as [| | | | | |? Hp|]; subst.
    apply (search_condition_sound column_context row (row name) nowhere opaque_ e 0 s); [|done|done].
    apply EncodeExpression_sound. intros ? [= <-]. by exists name.
  - done.
Qed.
End Column.

(** *** The WHERE clause *)

(** The filters of a scan that can be pushed. *)
Definition entry_ok (f : Z * TableFilter) : Prop :=
  forall t name type, table_column ids f.1 = Some t -> t < VIRTUAL_COL_START -> names !! Z.to_nat t = Some name -> types !! Z.to_nat t = Some type ->
  filter_ok name type f.2.

Definition entry_passes (f : Z * TableFilter) : bool := bool_decide (duck_filter scan_env other (column scan_env f.1) f.2 = Some true).

(** The rows a WHERE clause, perhaps an empty one, lets through. *)
Definition where_passes (w : bytes) : bool :=
  match w with [] => true | _ => match parse_condition w with Some t => passes row t | None => false end end.

Lemma encode_entries_sound filters ss rest : Forall entry_ok filters -> encode_entries scan_context filters = Ok (ss, rest) ->
  exists bs, Forall2 (means_condition row) ss bs /\
    forallb entry_passes filters = forallb (fun b => bool_decide (b = Some true)) bs && forallb entry_passes rest.
Proof.
  intros Hok. revert ss rest. induction Hok as [|[i f] filters Hf _ IH]; intros ss rest E; cbn [encode_entries] in E.
  - injection E as <- <-. by exists [].
  - cbn [column_ids column_names column_types scan_context new_context] in E. destruct (table_column ids i) as [t|] eqn:Et; [|done].
    destruct (Z.leb_spec VIRTUAL_COL_START t) as [|Hlt].
    + apply bind_Ok in E as ([ss' rest'] & Hr & E). injection E as <- <-. destruct (IH _ _ Hr) as (bs & Hbs & Eb). exists bs. split; [done|].
      cbn [forallb]. rewrite Eb. by destruct (entry_passes _), (forallb _ bs).
    + destruct (names !! Z.to_nat t) as [name|] eqn:Ename; [|done]. destruct (types !! Z.to_nat t) as [type|] eqn:Ety; [|done].
      apply bind_Ok in E as ([x b] & Hx & E). apply bind_Ok in E as ([ss' rest'] & Hr & E). cbn [supported sql] in E. injection E as <- <-.
      destruct (IH _ _ Hr) as (bs & Hbs & Eb). cbn [forallb]. rewrite Eb. destruct b.
      * pose proof (EncodeFilter_sound name type f x Hx (Hf t name type Et Hlt Ename Ety)) as Hm.
        assert (x <> []) by (destruct Hm as (? & Ht & _); by eapply spelled_nonempty). rewrite bool_decide_eq_false_2 by done.
        eexists (_ :: bs). split; [by constructor|]. cbn [forallb]. rewrite <- andb_assoc. f_equal. unfold entry_passes. cbn [fst snd].
        assert (Ev : column scan_env i = row name); [|by rewrite Ev].
        cbn [scan_env meaning_of column]. unfold projected. cbn [column_ids column_names scan_context new_context]. rewrite Et.
        pose proof ROW_ID_virtual. destruct (Z.eqb_spec t COLUMN_IDENTIFIER_ROW_ID); [lia|]. by rewrite Ename.
      * exists bs. split; [done|]. cbn [forallb andb]. by destruct (entry_passes _), (forallb _ bs).
Qed.

Lemma all3_true bs : bool_decide (all3 bs = Some true) = forallb (fun b => bool_decide (b = Some true)) bs.
Proof.
  induction bs as [|b bs IH]; [done|]. cbn [forallb]. rewrite <- IH. change (all3 (b :: bs)) with (and3 b (all3 bs)).
  by destruct b as [[]|], (all3 bs) as [[]|].
Qed.

(** C4. Pushdown loses and adds no rows: a row passes all filters exactly if it
    passes the WHERE clause that [Encode] writes, as a T-SQL reader reads it, and
    the filters [Encode] leaves to DuckDB. This is for filters that are [entry_ok]:
    - the text of a function's first argument of two does not contain "{1}": the
      second argument is put wherever it stands ([placeholder_in_column_name]);
    - a condition stands only where a condition is expected, not as a value: the
      code pushes [(a = b) = flag], which is no T-SQL; and a value that stands for
      a condition is BOOLEAN;
    - constants are of their type, with an exact literal (no FLOAT, DOUBLE or
      UHUGEINT), dates and times of the server and strings without T-SQL's line
      continuation ([LiteralsSpec.good_value]);
    - "negate" is not applied to a constant, the pattern of a text function is a
      VARCHAR constant, an equality with the rowid has a constant of the key on
      its other side, and an IN list is not empty. *)
Theorem Encode_refines filters r : Forall entry_ok filters -> Encode filters ids names types = Ok r ->
  forallb entry_passes filters = where_passes (where_clause r) && forallb entry_passes (unhandled r).
Proof.
  intros Hok E. apply bind_Ok in E as ([ss rest] & He & E). injection E as <-. cbn [where_clause unhandled].
  destruct (encode_entries_sound _ _ _ Hok He) as (bs & Hbs & ->). f_equal. rewrite <- all3_true. destruct Hbs as [|s b ss bs Hs Hss]; [done|].
  destruct (means_joined row true s ss b bs Hs Hss) as (t & Ht & Et). unfold where_passes. pose proof (spelled_nonempty _ _ _ _ Ht).
  destruct (join _ _) as [|c w] eqn:Ew; [done|]. rewrite <- Ew in *. rewrite (spelled_parse _ _ _ _ Ht). unfold passes. by rewrite Et.
Qed.
End Filters.

(** ** Two small engines

    Values are constants and tuples of constants; integers and strings compare,
    other constants are equal or not; an arithmetic operation is kept as text. *)

Module Small.
Definition value : Type := constant + list constant.

Definition atom (v : value) : constant := match v with inl c => c | inr _ => CNull end.

#[global] Instance constant_eq_dec : EqDecision constant.
Proof. intros c. induction c; intros []; try (right; congruence); solve_decision. Defined.

Definition eq_constant (c d : constant) : option bool :=
  match c, d with CNull, _ | _, CNull => None | _, _ => Some (bool_decide (c = d)) end.

Definition compare (op : binary) (a b : value) : option bool :=
  match op, a, b with
  | Eq, inr cs, inr ds => all3 (zip_with eq_constant cs ds)
  | Eq, _, _ => eq_constant (atom a) (atom b)
  | Ne, _, _ => negb <$> eq_constant (atom a) (atom b)
  | _, inl (CInt x), inl (CInt y) =>
      match op with Lt => Some (x <? y) | Gt => Some (y <? x) | Le => Some (x <=? y) | Ge => Some (y <=? x) | _ => None end
  | _, _, _ => None
  end.

Definition string_of (v : value) : option bytes := match v with inl (CString _ s) => Some s | _ => None end.
Definition bit (t : option bool) : value := inl (match t with None => CNull | Some true => CInt 1 | Some false => CInt 0 end).
Definition truth (v : value) : option bool :=
  match v with inl CNull => None | inl (CInt z) => Some (negb (z =? 0)) | _ => Some true end.

Definition on_text (f : bytes -> bytes) (v : value) : value :=
  match v with inl (CString n s) => inl (CString n (f s)) | _ => inl CNull end.

Definition call (f : bytes) (v : value) : value :=
  if bool_decide (f = tx "LOWER(") then on_text ToLower v else if bool_decide (f = tx "YEAR(") then inl CNull else v.

Definition arith (op : binary) (v w : value) : value :=
  match op, v, w with
  | Add, inl (CInt x), inl (CInt y) => inl (CInt (x + y))
  | Sub, inl (CInt x), inl (CInt y) => inl (CInt (x - y))
  | Mul, inl (CInt x), inl (CInt y) => inl (CInt (x * y))
  | _, _, _ => inl CNull
  end.

Definition negative (v : value) : value := match v with inl (CInt x) => inl (CInt (- x)) | _ => inl CNull end.

Definition find {A} (name : bytes) (table : list (bytes * A)) : option A :=
  snd <$> (snd <$> list_find (fun e => e.1 = ToLower name) table).

Definition function (name : bytes) (args : list value) : value :=
  match args with
  | [v] =>
      match find name unary_calls with
      | Some f => call f v
      | None => if bool_decide (ToLower name = tx "negate") then negative v else call (tx "LTRIM(") (call (tx "RTRIM(") v)
      end
  | [v; w] =>
      match find name binary_functions with
      | Some op => arith op v w
      | None =>
          match find name like_functions with
          | Some (fold, holds) =>
              bit (match string_of v, string_of w with
                   | Some s, Some p => Some (if (fold : bool) then holds (ToLower p) (ToLower s) else holds p s)
                   | _, _ => None end)
          | None => inl CNull
          end
      end
  | _ => inl CNull
  end.

Section Engines.
Context `{DuckDB} `{Values_}.

Definition value_of (v : Value) : constant := match denoted v with Ok c => c | _ => CNull end.

#[export] Instance engines : Engines := {|
  V := value;
  FilterSem.is_null v := match v with inl CNull => true | _ => false end;
  FilterSem.bit := bit;
  FilterSem.truth := truth;
  FilterSem.text := string_of;
  FilterSem.compare := compare;
  FilterSem.constant_value := inl;
  FilterSem.arith := arith;
  FilterSem.negative := negative;
  FilterSem.call := call;
  FilterSem.value_of f := match f with Plain v => inl (value_of v) | Struct vs => inr (value_of <$> vs) end;
  FilterSem.struct_value vs := inr (atom <$> vs);
  FilterSem.cast t u v := v;
  FilterSem.function := function;
  FilterSem.lower := ToLower
|}.

Lemma ToLower_twice s : ToLower (ToLower s) = ToLower s.
Proof. unfold ToLower. rewrite <- list_fmap_compose. apply list_fmap_ext. intros _ b _. by destruct b. Qed.

Lemma lower_app a b : ToLower (a ++ b) = ToLower a ++ ToLower b.
Proof. apply fmap_app. Qed.

Lemma lower_escaped p : ToLower (EscapeLikePattern p) = EscapeLikePattern (ToLower p).
Proof.
  induction p as [|b p IH]; [done|]. rewrite EscapeLikePattern_cons. unfold ToLower in *. rewrite fmap_app, IH. cbn [fmap list_fmap].
  rewrite EscapeLikePattern_cons. f_equal. by destruct b.
Qed.

Lemma eq_constant_sym c d : eq_constant c d = eq_constant d c.
Proof. destruct c, d; try done; cbn; f_equal; by apply bool_decide_ext. Qed.

Lemma compare_sym v w : compare Eq v w = compare Eq w v.
Proof.
  destruct v as [c|cs], w as [d|ds]; cbn; [apply eq_constant_sym|by destruct c|by destruct d|]. f_equal. revert ds.
  induction cs as [|c cs IH]; intros [|d ds]; [done..|]. cbn. by rewrite IH, eq_constant_sym.
Qed.

Lemma function_case name vs : function name vs = function (ToLower name) vs.
Proof. unfold function, find. by rewrite ToLower_twice. Qed.

#[local] Ltac cases_of H := repeat (apply elem_of_cons in H as [H|H]; [injection H as ? ?; subst; reflexivity|]); by apply elem_of_nil in H.

Lemma call_found name f v : (name, f) ∈ unary_calls -> function name [v] = call f v.
Proof. intros Hin. cases_of Hin. Qed.

#[export, refine] Instance agree : Agree (En := engines) := {|
  FilterSem.compare_sym := compare_sym;
  FilterSem.unary_agrees := call_found;
  FilterSem.function_case := function_case;
|}.
Proof.
  - by intros [[]|].
  - by intros [[]|].
  - by intros [[]|].
  - intros v c Hv Hc. cbn. unfold value_of. by rewrite Hc.
  - done.
  - intros vs cs _ _. cbn. f_equal. revert cs. induction vs as [|v vs IH]; intros [|c cs]; [done..|]. cbn. rewrite IH. by destruct v, (value_of c).
  - done.
  - done.
  - done.
  - done.
  - intros name op v w Hin. cases_of Hin.
  - intros name fold holds v w Hin. cases_of Hin.
  - intros v. cbn. by destruct v as [[]|].
  - intros p. exact (eq_trans (lower_app _ (tx "%")) (f_equal (fun s => s ++ tx "%") (lower_escaped p))).
  - intros p. exact (eq_trans (lower_app (tx "%") _) (f_equal (app (tx "%")) (lower_escaped p))).
  - intros p. refine (eq_trans (lower_app (tx "%") _) (f_equal (app (tx "%")) (eq_trans (lower_app _ (tx "%")) (f_equal (fun s => s ++ tx "%") (lower_escaped p))))).
Defined.
End Engines.
End Small.

(** *** Examples *)

#[local] Existing Instance Checked.duckdb.
#[local] Existing Instance SampleValues.values.

#[local] Instance sample_columns : VirtualColumns.
Proof. refine {| COLUMN_IDENTIFIER_ROW_ID := 18446744073709551615 |}. done. Defined.

Module FilterSample.
Definition INTEGER_TYPE : LogicalType := mkLogicalType INTEGER PhysicalType.INT32 0 0.
Definition VARCHAR_TYPE : LogicalType := mkLogicalType VARCHAR PhysicalType.VARCHAR 0 0.

Definition int (z : Z) : field := Plain (mkValue INTEGER_TYPE (Some (Word z))).
Definition str (s : string) : field := Plain (mkValue VARCHAR_TYPE (Some (Str (tx s)))).

Definition names : list bytes := [tx "id"; tx "full]name"].
Definition types : list LogicalType := [INTEGER_TYPE; VARCHAR_TYPE].

(** [id > 3 AND id <> 7] and [name LIKE 'a\_%'], and a filter of another kind. *)
Definition starts_with : Expression :=
  BoundFunction BOOLEAN_TYPE (tx "prefix") [BoundReference VARCHAR_TYPE 0; BoundConstant VARCHAR_TYPE (str "a_")].

Definition filters : list (Z * TableFilter) :=
  [(0, ConjunctionAndFilter [ConstantFilter GreaterThan (int 3); ConstantFilter NotEqual (int 7)]);
   (1, ExpressionFilter starts_with); (1, OtherFilter)].

Definition result : FilterEncoderResult :=
  mkFilterEncoderResult (tx "([id] > 3 AND [id] <> 7) AND ([full]]name] LIKE N'a[_]%')") true [(1, OtherFilter)].

Definition row (name : bytes) : Small.value :=
  if bool_decide (name = tx "id") then inl (CInt 5) else inl (CString true (tx "a_b")).

Lemma int_ok z : -2147483648 <= z < 2147483648 -> constant_ok INTEGER_TYPE (mkValue INTEGER_TYPE (Some (Word z))).
Proof. intros Hz. split_and!; [split_and!; [split; [done|by intros [=]]|done|done]|done|by eexists]. Qed.

Lemma str_ok s : zlen (tx s) < 4294967296 -> continued (tx s) = false -> constant_ok VARCHAR_TYPE (mkValue VARCHAR_TYPE (Some (Str (tx s)))).
Proof.
  intros Hs Hc. split_and!; [split_and!; [split; [done|by intros [=]]|done|unfold expressible; cbn; by rewrite Hc]|done|].
  eexists. unfold denoted, string_constant. cbn. by rewrite Hc.
Qed.

Lemma filters_ok : Forall (entry_ok (En := Small.engines) [0; 1] names types row (inl CNull) (fun _ => inl CNull)) filters.
Proof.
  repeat apply Forall_cons_2; [intros t name type [= <-] _ [= <-] [= <-]..|done].
  - apply ok_and_filter. repeat apply Forall_cons_2; [apply ok_constant_filter, int_ok; lia..|done].
  - apply ok_expression_filter, predicate_condition; [done|]. apply ok_like; [done|constructor|by apply str_ok; vm_compute|done].
  - constructor.
Qed.
End FilterSample.

Lemma Encode_refines_witness :
  Encode FilterSample.filters [0; 1] FilterSample.names FilterSample.types = Ok FilterSample.result /\
  forallb (entry_passes (En := Small.engines) [0; 1] FilterSample.names FilterSample.types FilterSample.row (inl CNull) (fun _ => inl CNull) (fun _ _ => Some true))
    FilterSample.filters =
  where_passes (En := Small.engines) FilterSample.row (where_clause FilterSample.result) &&
  forallb (entry_passes (En := Small.engines) [0; 1] FilterSample.names FilterSample.types FilterSample.row (inl CNull) (fun _ => inl CNull) (fun _ _ => Some true))
    (unhandled FilterSample.result).
Proof.
  split; [by vm_compute|].
  apply (Encode_refines (En := Small.engines) (Ag := Small.agree)); [exact FilterSample.filters_ok|by vm_compute].
Defined.

(** The placeholder of the second argument is looked for in the first one's text:
    a column of that name becomes another. *)
Lemma placeholder_in_column_name :
  EncodeExpression (BoundFunction FilterSample.INTEGER_TYPE (tx "+") [BoundColumnRef FilterSample.INTEGER_TYPE 0; BoundConstant FilterSample.INTEGER_TYPE (FilterSample.int 2)])
    (new_context [0] [tx "a{1}"] [FilterSample.INTEGER_TYPE]) = Ok (encoded (tx "([a2] + 2)")).
Proof. by vm_compute. Qed.
