(* ===== verification/Text.v ===== *)
(** * Text

    The operations on [std::string] that the parsers of settings share: searching
    for a character and cutting there, lower case, trimming, splitting,
    [std::stoi]. *)

From S2P Require Import Prelude Sql.

#[export] Instance byte_countable : Countable byte := inj_countable Byte.to_N Byte.of_N Byte.of_to_N.

(** [StringUtil::Lower]: ASCII letters. *)
Definition Lower (s : bytes) : bytes :=
  (fun b => if (65 <=? b2z b) && (b2z b <=? 90) then z2b (b2z b + 32) else b) <$> s.

(** [s.substr(0, pos)] and [s.substr(pos + 1)] for [pos = s.find(c)]. *)
Fixpoint split_first (c : byte) (s : bytes) : option (bytes * bytes) :=
  match s with
  | [] => None
  | b :: s => if bool_decide (b = c) then Some ([], s) else prod_map (cons b) id <$> split_first c s
  end.

(** The same for [s.rfind(c)]. *)
Fixpoint split_last (c : byte) (s : bytes) : option (bytes * bytes) :=
  match s with
  | [] => None
  | b :: s =>
      match split_last c s with
      | Some (l, r) => Some (b :: l, r)
      | None => if bool_decide (b = c) then Some ([], s) else None
      end
  end.

(** [StringUtil::Split] at a character. *)
Fixpoint Split (c : byte) (s : bytes) : list bytes :=
  match s with
  | [] => []
  | b :: s =>
      if bool_decide (b = c) then [] :: Split c s
      else match Split c s with [] => [[b]] | w :: ws => (b :: w) :: ws end
  end.

(** [std::isspace] in the C locale. *)
Definition is_space (b : byte) : bool := (b2z b =? 0x20) || (9 <=? b2z b) && (b2z b <=? 13).

Fixpoint drop_while (p : byte -> bool) (s : bytes) : bytes :=
  match s with b :: r => if p b then drop_while p r else s | [] => [] end.

(** Drop the characters at the end. *)
Definition drop_last (p : byte -> bool) (s : bytes) : bytes := reverse (drop_while p (reverse s)).

(** [StringUtil::Trim]. *)
Definition Trim (s : bytes) : bytes := drop_last is_space (drop_while is_space s).

Fixpoint take_while (p : byte -> bool) (s : bytes) : bytes :=
  match s with b :: r => if p b then b :: take_while p r else [] | [] => [] end.

(** [std::stoi]: white space, a sign, digits up to what is not one; it throws
    without digits, and outside [int]. *)
Definition stoi (s : bytes) : option Z :=
  let s := drop_while is_space s in
  let '(negative, s) :=
    match s with
    | b :: r => if bool_decide (b = DASH) then (true, r) else if bool_decide (b = z2b 0x2B) then (false, r) else (false, s)
    | [] => (false, s)
    end in
  z ← read_numeral (take_while is_digit s);
  let z := if negative : bool then - z else z in
  if (-2147483648 <=? z) && (z <=? 2147483647) then Some z else None.

(** Does [s] contain [p]? [s.find(p) != npos]. *)
Fixpoint contains (p s : bytes) : bool :=
  bool_decide (p `prefix_of` s) || match s with [] => false | _ :: s => contains p s end.

Definition StartsWith (s p : bytes) : bool := bool_decide (p `prefix_of` s).

(** ** Lemmas *)

Lemma split_first_app c a r : c ∉ a -> split_first c (a ++ c :: r) = Some (a, r).
Proof.
  induction a as [|b a IH]; intros Ha; cbn [app split_first]; [by rewrite bool_decide_eq_true_2|].
  apply not_elem_of_cons in Ha as [Hb Ha]. rewrite bool_decide_eq_false_2 by done. by rewrite IH.
Qed.

Lemma split_first_none c a : c ∉ a -> split_first c a = None.
Proof.
  induction a as [|b a IH]; intros Ha; cbn [split_first]; [done|]. apply not_elem_of_cons in Ha as [Hb Ha].
  rewrite bool_decide_eq_false_2 by done. by rewrite IH.
Qed.

Lemma split_last_none c a : c ∉ a -> split_last c a = None.
Proof.
  induction a as [|b a IH]; intros Ha; cbn [split_last]; [done|]. apply not_elem_of_cons in Ha as [Hb Ha].
  rewrite IH by done. by rewrite bool_decide_eq_false_2.
Qed.

Lemma split_last_app c a r : c ∉ r -> split_last c (a ++ c :: r) = Some (a, r).
Proof.
  intros Hr. induction a as [|b a IH]; cbn [app split_last]; [|by rewrite IH].
  rewrite split_last_none by done. by rewrite bool_decide_eq_true_2.
Qed.

Lemma Split_app c w r : c ∉ w -> w <> [] -> Split c (w ++ c :: r) = w :: Split c r.
Proof.
  induction w as [|b w IH]; [done|]. intros Hw _. apply not_elem_of_cons in Hw as [Hb Hw]. cbn [app Split].
  rewrite bool_decide_eq_false_2 by done. destruct w as [|b' w]; [|by rewrite IH].
  cbn [app Split]. by rewrite bool_decide_eq_true_2.
Qed.

Lemma Split_one c w : c ∉ w -> w <> [] -> Split c w = [w].
Proof.
  induction w as [|b w IH]; [done|]. intros Hw _. apply not_elem_of_cons in Hw as [Hb Hw]. cbn [Split].
  rewrite bool_decide_eq_false_2 by done. destruct w as [|b' w]; [done|]. by rewrite IH.
Qed.

Lemma drop_while_head p s : match s with b :: _ => p b = false | [] => True end -> drop_while p s = s.
Proof. destruct s as [|b s]; [done|]. intros Hb. cbn [drop_while]. by rewrite Hb. Qed.

Lemma drop_while_app p a s : Forall (fun b => p b = true) a -> drop_while p (a ++ s) = drop_while p s.
Proof. induction 1 as [|b a Hb _ IH]; [done|]. cbn [app drop_while]. by rewrite Hb. Qed.

Lemma drop_last_app p s a : Forall (fun b => p b = true) a -> drop_last p (s ++ a) = drop_last p s.
Proof.
  intros Ha. unfold drop_last. rewrite reverse_app, drop_while_app; [done|]. by apply Forall_reverse.
Qed.

Lemma drop_last_id p s : match last s with Some b => p b = false | None => True end -> drop_last p s = s.
Proof.
  intros Hs. unfold drop_last. rewrite drop_while_head, reverse_involutive; [done|].
  rewrite <- head_reverse in Hs. by destruct (reverse s).
Qed.

(** A text without white space at either end. *)
Definition trimmed (s : bytes) : Prop :=
  match s with b :: _ => is_space b = false | [] => True end /\ match last s with Some b => is_space b = false | None => True end.

Lemma Trim_spaces a s z : trimmed s -> Forall (fun b => is_space b = true) a -> Forall (fun b => is_space b = true) z ->
  Trim (a ++ s ++ z) = s.
Proof.
  intros [Hh Hl] Ha Hz. unfold Trim. rewrite drop_while_app by done. destruct s as [|b s].
  - cbn [app]. rewrite <- (app_nil_r z), drop_while_app by done. done.
  - rewrite drop_while_head by done. rewrite drop_last_app by done. by apply drop_last_id.
Qed.

Lemma Trim_right s z : trimmed s -> Forall (fun b => is_space b = true) z -> Trim (s ++ z) = s.
Proof. intros Hs Hz. by apply (Trim_spaces [] s z). Qed.

Lemma take_while_app p a s : Forall (fun b => p b = true) a -> take_while p (a ++ s) = a ++ take_while p s.
Proof. induction 1 as [|b a Hb _ IH]; [done|]. cbn [app take_while]. by rewrite Hb, IH. Qed.

Lemma take_while_all p a : Forall (fun b => p b = true) a -> take_while p a = a.
Proof. intros Ha. rewrite <- (app_nil_r a) at 1. by rewrite take_while_app, app_nil_r. Qed.

Lemma is_digit_not_space b : is_digit b = true -> is_space b = false.
Proof. unfold is_digit, is_space. lia. Qed.

Lemma stoi_numeral z : 0 <= z <= 2147483647 -> stoi (numeral z) = Some z.
Proof.
  intros Hz. destruct (numeral_spec z ltac:(lia)) as (Hne & Hd & Hr). destruct (numeral z) as [|b r] eqn:E; [done|].
  pose proof (Forall_inv Hd) as Hb. cbn beta in Hb. unfold stoi. rewrite drop_while_head by (by apply is_digit_not_space).
  rewrite (bool_decide_eq_false_2 (b = DASH)) by (intros ->; done). rewrite (bool_decide_eq_false_2 (b = z2b 0x2B)) by (intros ->; done).
  rewrite take_while_all by done. unfold read_numeral. rewrite Hr. cbn [mbind option_bind]. cbv beta iota.
  replace (0 * 10 ^ zlen (b :: r) + z) with z by lia. by rewrite (proj2 (Z.leb_le (-2147483648) z)), (proj2 (Z.leb_le z 2147483647)) by lia.
Qed.

Lemma stoi_range s z : stoi s = Some z -> -2147483648 <= z <= 2147483647.
Proof.
  unfold stoi. destruct (match drop_while is_space s with [] => _ | _ => _ end) as [n t].
  destruct (read_numeral _) as [v|]; [|done]. cbn [mbind option_bind].
  destruct ((_ <=? _) && (_ <=? _)) eqn:E; [|done]. intros [= <-]. lia.
Qed.
