(* ===== verification/ConnectionInfo.v ===== *)
(** * Connection settings (src/src/mssql_storage.cpp, mssql_secret.cpp)

    What an ATTACH connects to: [MSSQLConnectionInfo], the ADO.NET and URI forms
    of a connection string, the secret, the name the application logs in with.
    An error is the exception with its whole text.

    A [case_insensitive_map_t] is a [gmap] whose keys are put in lower case; the
    code looks up nothing but constants in it. [windows] is [_WIN32]. A DuckDB
    secret is the map of its values, the settings of a [ClientContext] a partial
    function. *)

From S2P Require Import Prelude Sql Text TdsTypes Values Literals.

(** ** The settings (include/mssql_storage.hpp) *)

Inductive AuthMethod : Type := SQL | AZURE_AD | MANUAL_TOKEN | KRB5 | WINSSPI.
#[export] Instance AuthMethod_eq_dec : EqDecision AuthMethod.
Proof. solve_decision. Defined.

Record MSSQLConnectionInfo : Type := mkInfo {
  host : bytes; port : Z;
  instance_name : bytes; port_specified : bool;
  database : bytes; user : bytes; password : bytes;
  use_encrypt : bool; connected : bool; catalog_enabled : bool;
  application_name : bytes;
  auth_method : AuthMethod;
  use_azure_auth : bool; azure_secret_name : bytes; azure_tenant_id : bytes; access_token : bytes;
  krb5_configfile : bytes; krb5_keytabfile : bytes; krb5_credcachefile : bytes; krb5_realm : bytes;
  service_principal_name : bytes;
  login7_max_packet : Z; tds_packet_size : Z; utf8_support : bool;
  schema_filter : bytes; table_filter : bytes;
  order_pushdown : Z;
  is_fabric_endpoint : bool;
  utf8_support_acked : Z
}.

Definition string_of (m : bytes) : string := String.string_of_list_byte m.
Definition invalid {A} (m : bytes) : res A := Exn (InvalidInput (string_of m)).
Definition binder_error {A} (m : bytes) : res A := Exn (BinderError (string_of m)).

Definition DEFAULT_APP_NAME : bytes := tx "DuckDB MSSQL Extension".

(** ** The application's name *)

Definition utf8_step (c : byte) : nat * nat :=
  let c := b2z c in
  if c <? 0x80 then (1, 1)%nat
  else if Z.land c 0xE0 =? 0xC0 then (2, 1)%nat
  else if Z.land c 0xF0 =? 0xE0 then (3, 1)%nat
  else if Z.land c 0xF8 =? 0xF0 then (4, 2)%nat
  else (1, 1)%nat.

(** The bytes the clamp keeps of [s], of which [utf16_units] units are there. *)
Fixpoint clamp_loop (fuel : nat) (s : bytes) (utf16_units : nat) : bytes :=
  match fuel, s with
  | S fuel, c :: _ =>
      if Nat.ltb utf16_units 128 then
        let '(advance, units) := utf8_step c in
        if Nat.ltb 128 (utf16_units + units) || Nat.ltb (length s) advance then []
        else take advance s ++ clamp_loop fuel (drop advance s) (utf16_units + units)
      else []
  | _, _ => []
  end.

Definition printable (c : byte) : bool := (0x20 <=? b2z c) && negb (b2z c =? 0x7F).

Definition ResolveAppName (application_name : bytes) : bytes :=
  match application_name with
  | [] => DEFAULT_APP_NAME
  | _ =>
      match filter (fun c => printable c = true) application_name with
      | [] => DEFAULT_APP_NAME
      | sanitized => clamp_loop (length sanitized) sanitized 0
      end
  end.

(** ** host\instance *)

Definition is_alnum (c : byte) : bool :=
  let z := b2z c in (48 <=? z) && (z <=? 57) || (65 <=? z) && (z <=? 90) || (97 <=? z) && (z <=? 122).

Definition instance_char (c : byte) : bool := is_alnum c || bool_decide (c ∈ tx "_$#").

Definition SplitHostInstance (host : bytes) : res (bytes * bytes) :=
  match split_first BACKSLASH host with
  | None => Ok (host, [])
  | Some (host, instance) =>
      match instance with
      | [] => invalid (tx "MSSQL Error: empty instance name after backslash in Server")
      | _ =>
          if 16 <? zlen instance then invalid (tx "MSSQL Error: instance name '" ++ instance ++ tx "' exceeds 16 characters") else
          if forallb instance_char instance then Ok (host, instance)
          else invalid (tx "MSSQL Error: invalid character in instance name '" ++ instance ++ tx "' (allowed: letters, digits, _ $ #)")
      end
  end.

(** ** Connection strings *)

Abbreviation params := (gmap bytes bytes).

Definition IsUriFormat (str : bytes) : bool := StartsWith (Lower str) (tx "mssql://").
Definition IsConnectionString (str : bytes) : bool := bool_decide (z2b 0x3D ∈ str).

Definition EQUALS : byte := z2b 0x3D.
Definition SEMICOLON : byte := z2b 0x3B.
Definition COLON : byte := z2b 0x3A.
Definition AT : byte := z2b 0x40.
Definition QUESTION : byte := z2b 0x3F.
Definition AMPERSAND : byte := z2b 0x26.
Definition PERCENT : byte := z2b 0x25.
Definition COMMA : byte := z2b 0x2C.
Definition OPEN_BRACE : byte := z2b 0x7B.
Definition CLOSE_BRACE : byte := z2b 0x7D.

Definition IsHexDigit (c : byte) : bool :=
  let z := b2z c in (48 <=? z) && (z <=? 57) || (65 <=? z) && (z <=? 70) || (97 <=? z) && (z <=? 102).

Definition HexVal (c : byte) : Z :=
  let z := b2z c in
  if (48 <=? z) && (z <=? 57) then z - 48 else if (65 <=? z) && (z <=? 70) then 10 + (z - 65) else 10 + (z - 97).

Fixpoint UrlDecode (str : bytes) : bytes :=
  match str with
  | [] => []
  | c :: s =>
      match s with
      | x :: y :: r =>
          if bool_decide (c = PERCENT) && IsHexDigit x && IsHexDigit y
          then z2b (Z.lor (Z.shiftl (HexVal x) 4) (HexVal y)) :: UrlDecode r
          else c :: UrlDecode s
      | _ => c :: UrlDecode s
      end
  end.

(** The names a key has, and the name it is stored under. *)
Definition alias (table : list (list bytes * bytes)) (lower_key : bytes) : option bytes :=
  snd <$> (snd <$> list_find (fun e => lower_key ∈ e.1) table).

Definition uri_aliases : list (list bytes * bytes) :=
  [([tx "encrypt"; tx "ssl"; tx "use_ssl"], tx "encrypt");
   ([tx "trustservercertificate"], tx "trustservercertificate");
   ([tx "schema_filter"; tx "schemafilter"], tx "schema_filter");
   ([tx "table_filter"; tx "tablefilter"], tx "table_filter");
   ([tx "authenticator"], tx "authenticator");
   ([tx "krb5-configfile"; tx "krb5_configfile"], tx "krb5_configfile");
   ([tx "krb5-keytabfile"; tx "krb5_keytabfile"], tx "krb5_keytabfile");
   ([tx "krb5-credcachefile"; tx "krb5_credcachefile"], tx "krb5_credcachefile");
   ([tx "krb5-realm"; tx "krb5_realm"], tx "krb5_realm");
   ([tx "service_principal_name"; tx "service-principal-name"; tx "serviceprincipalname"], tx "service_principal_name");
   ([tx "trusted_connection"; tx "trustedconnection"; tx "trusted-connection"], tx "trusted_connection");
   ([tx "integrated_security"; tx "integratedsecurity"; tx "integrated-security"], tx "integrated_security");
   ([tx "applicationname"; tx "application_name"], tx "application_name")].

Definition ado_aliases : list (list bytes * bytes) :=
  [([tx "server"; tx "data source"], tx "server");
   ([tx "database"; tx "initial catalog"], tx "database");
   ([tx "user id"; tx "uid"; tx "user"], tx "user");
   ([tx "password"; tx "pwd"], tx "password");
   ([tx "encrypt"; tx "use encryption for data"], tx "encrypt");
   ([tx "trustservercertificate"], tx "trustservercertificate");
   ([tx "schemafilter"; tx "schema_filter"], tx "schema_filter");
   ([tx "tablefilter"; tx "table_filter"], tx "table_filter");
   ([tx "authenticator"], tx "authenticator");
   ([tx "krb5-configfile"; tx "krb5_configfile"], tx "krb5_configfile");
   ([tx "krb5-keytabfile"; tx "krb5_keytabfile"], tx "krb5_keytabfile");
   ([tx "krb5-credcachefile"; tx "krb5_credcachefile"], tx "krb5_credcachefile");
   ([tx "krb5-realm"; tx "krb5_realm"], tx "krb5_realm");
   ([tx "service_principal_name"; tx "service-principal-name"; tx "serviceprincipalname"; tx "service principal name"],
    tx "service_principal_name");
   ([tx "trusted_connection"; tx "trustedconnection"; tx "trusted connection"; tx "trusted-connection"], tx "trusted_connection");
   ([tx "integrated_security"; tx "integratedsecurity"; tx "integrated security"; tx "integrated-security"], tx "integrated_security");
   ([tx "application name"; tx "applicationname"; tx "app name"; tx "application_name"], tx "application_name")].

(** The chain of [else if]s: an authenticator is put in lower case, an unknown
    key is kept. *)
Definition store (aliases : list (list bytes * bytes)) (key value : bytes) (m : params) : params :=
  match alias aliases (Lower key) with
  | Some name => <[name := if bool_decide (name = tx "authenticator") then Lower value else value]> m
  | None => <[Lower key := value]> m
  end.

Definition store_param (param : bytes) (m : params) : params :=
  match split_first EQUALS param with
  | Some (key, value) => store uri_aliases (UrlDecode key) (UrlDecode value) m
  | None => m
  end.

Definition uri_credentials (user_pass : bytes) : params :=
  match split_first COLON user_pass with
  | Some (user, password) => <[tx "password" := UrlDecode password]> (<[tx "user" := UrlDecode user]> ∅)
  | None => <[tx "user" := UrlDecode user_pass]> ∅
  end.

Definition uri_server (host_port : bytes) : bytes :=
  match split_last COLON host_port with
  | Some (host, port) => UrlDecode host ++ [COMMA] ++ port
  | None => UrlDecode host_port
  end.

Definition ParseUri (uri : bytes) : params :=
  let rest := zdrop 8 uri in
  let '(rest, query_string) := match split_first QUESTION rest with Some p => p | None => (rest, []) end in
  let '(result, rest) := match split_last AT rest with Some (user_pass, rest) => (uri_credentials user_pass, rest) | None => (∅, rest) end in
  let '(result, host_port) :=
    match split_first SLASH rest with
    | Some (host_port, db) => (<[tx "database" := UrlDecode db]> result, host_port)
    | None => (result, rest)
    end in
  let result := <[tx "server" := uri_server host_port]> result in
  foldl (fun m param => store_param param m) result (Split AMPERSAND query_string).

(** *** ADO.NET strings *)

Definition is_blank (c : byte) : bool := bool_decide (c ∈ [z2b 0x20; z2b 0x09]).
Definition is_not (c : byte) (b : byte) : bool := negb (bool_decide (b = c)).

(** A value in braces, after the opening one: the value and what follows the
    closing one. *)
Fixpoint read_braced (s : bytes) : bytes * bytes :=
  match s with
  | [] => ([], [])
  | c :: s =>
      if bool_decide (c = CLOSE_BRACE) then
        match s with
        | d :: r => if bool_decide (d = CLOSE_BRACE) then let '(v, rest) := read_braced r in (CLOSE_BRACE :: v, rest) else ([], s)
        | [] => ([], [])
        end
      else let '(v, rest) := read_braced s in (c :: v, rest)
  end.

Definition skip_separator (s : bytes) : bytes :=
  match s with c :: r => if bool_decide (c = SEMICOLON) then r else s | [] => [] end.

(** The value after the '=' and the text after its ';'. *)
Definition read_value (s : bytes) : bytes * bytes :=
  match s with
  | c :: r =>
      if bool_decide (c = OPEN_BRACE) then
        let '(value, rest) := read_braced r in (value, skip_separator (drop_while is_blank rest))
      else (Trim (take_while (is_not SEMICOLON) s), skip_separator (drop_while (is_not SEMICOLON) s))
  | [] => ([], [])
  end.

Definition key_char (c : byte) : bool := is_not EQUALS c && is_not SEMICOLON c.

Fixpoint tokenize_loop (fuel : nat) (cs : bytes) : list (bytes * bytes) :=
  match fuel with
  | O => []
  | S fuel =>
      let cs := drop_while (fun c => bool_decide (c = SEMICOLON) || is_blank c) cs in
      match cs with
      | [] => []
      | _ =>
          let key := take_while key_char cs in
          match drop_while key_char cs with
          | c :: r =>
              if bool_decide (c = EQUALS) then
                let key := Trim key in
                let '(value, rest) := read_value (drop_while is_blank r) in
                match key with [] => tokenize_loop fuel rest | _ => (key, value) :: tokenize_loop fuel rest end
              else tokenize_loop fuel (c :: r)
          | [] => []
          end
      end
  end.

Definition TokenizeConnectionString (cs : bytes) : list (bytes * bytes) := tokenize_loop (S (length cs)) cs.

Definition ParseConnectionString (connection_string : bytes) : params :=
  foldl (fun m p => store ado_aliases p.1 p.2 m) ∅ (TokenizeConnectionString connection_string).

(** ** Integrated authentication *)

Class Platform : Type := windows : bool.

Definition IsTrustedConnectionEnabled (raw_value : bytes) : bool :=
  bool_decide (Lower raw_value ∈ [tx "yes"; tx "true"; tx "1"; tx "sspi"]).

(** The parameter is there and enables. *)
Definition trusts (ps : params) (name : bytes) : bool :=
  match ps !! name with Some v => IsTrustedConnectionEnabled v | None => false end.

Definition nonempty (v : option bytes) : bool := match v with Some (_ :: _) => true | _ => false end.

Section Integrated.
Context {P : Platform}.

Definition ResolveIntegratedAuth (ps : params) : bytes :=
  if nonempty (ps !! tx "authenticator") then default [] (ps !! tx "authenticator")
  else if trusts ps (tx "trusted_connection") then (if windows then tx "winsspi" else tx "krb5")
  else if trusts ps (tx "integrated_security") then (if windows then tx "winsspi" else tx "krb5")
  else [].

Definition AuthenticatorToMethod (name : bytes) : res AuthMethod :=
  if bool_decide (name = []) then Ok SQL
  else if bool_decide (name = tx "krb5") then Ok KRB5
  else if bool_decide (name = tx "winsspi") then Ok WINSSPI
  else invalid (tx "MSSQL Error: Unsupported authenticator '" ++ name ++
    tx "'. Supported values: krb5 (POSIX), winsspi (Windows). For Azure AD use an MSSQL secret with azure_secret or access_token.").

Definition ValidateAuthConflicts (ps : params) (azure_auth_option : bool) : bytes :=
  let authenticator := ResolveIntegratedAuth ps in
  let integrated := negb (bool_decide (authenticator = [])) in
  let has_user := nonempty (ps !! tx "user") in
  let has_password := nonempty (ps !! tx "password") in
  let requested_via_alias := trusts ps (tx "trusted_connection") || trusts ps (tx "integrated_security") in
  if integrated && has_password then
    tx "'Password' cannot be combined with 'Trusted_Connection' / 'authenticator=krb5'. Use a Kerberos credential cache (kinit), a keytab via 'krb5-keytabfile', or place raw credentials in an MSSQL secret."
  else if integrated && (has_user && requested_via_alias) then
    tx "'User Id' cannot be combined with 'Trusted_Connection' / 'Integrated Security'. If you need to supply a principal for keytab or raw-credentials mode, use the explicit form: authenticator=krb5;User Id=<principal>."
  else if integrated && azure_auth_option then
    tx "'Trusted_Connection' / 'authenticator=krb5' cannot be combined with Azure AD authentication (access_token or azure_secret). Choose one auth method."
  else if integrated && windows && bool_decide (authenticator = tx "krb5") then
    tx "'authenticator=krb5' is only supported on POSIX. Use 'authenticator=winsspi' or 'Trusted_Connection=yes' on Windows."
  else if integrated && negb windows && bool_decide (authenticator = tx "winsspi") then
    tx "'authenticator=winsspi' is only supported on Windows. Use 'authenticator=krb5' or 'Trusted_Connection=yes' on POSIX."
  else
    match ps !! tx "trusted_connection", ps !! tx "integrated_security" with
    | Some t, Some i =>
        if eqb (IsTrustedConnectionEnabled t) (IsTrustedConnectionEnabled i) then []
        else tx "'Trusted_Connection' and 'Integrated Security' specify conflicting values."
    | _, _ => []
    end.

(** ** Validation, and the settings of a connection string *)

Definition parse_params (connection_string : bytes) : params :=
  if IsUriFormat connection_string then ParseUri connection_string else ParseConnectionString connection_string.

Definition check_port (server : bytes) : bytes :=
  match split_first COMMA server with
  | None => []
  | Some (_, port_str) =>
      match stoi port_str with
      | Some port =>
          if (port <? 1) || (65535 <? port) then tx "Port must be between 1 and 65535. Got: " ++ std_to_string port else []
      | None => tx "Invalid port in Server parameter: '" ++ port_str ++ tx "'"
      end
  end.

Definition ValidateConnectionString (connection_string : bytes) (azure_auth : bool) : bytes :=
  if bool_decide (connection_string = []) then tx "Connection string cannot be empty." else
  let ps := parse_params connection_string in
  match ps !! tx "server" with
  | None => tx "Missing 'Server' in connection string. Format: Server=host,port;Database=...;User Id=...;Password=..."
  | Some server =>
      if bool_decide (ps !! tx "database" = None) then tx "Missing 'Database' in connection string." else
      let integrated_auth := negb (bool_decide (ResolveIntegratedAuth ps = [])) in
      match ValidateAuthConflicts ps azure_auth with
      | [] =>
          let sql_auth := negb azure_auth && negb integrated_auth in
          if sql_auth && bool_decide (ps !! tx "user" = None) then tx "Missing 'User Id' in connection string."
          else if sql_auth && bool_decide (ps !! tx "password" = None) then tx "Missing 'Password' in connection string."
          else check_port server
      | conflict => conflict
      end
  end.

(** "no" or "false" disables TLS; anything else enables it. *)
Definition enables (value : bytes) : bool := negb (bool_decide (Lower value ∈ [tx "no"; tx "false"; tx "0"])).

Definition bool_text (b : bool) : bytes := if b then tx "true" else tx "false".

Definition encryption (ps : params) : res bool :=
  let encrypt_value := enables <$> ps !! tx "encrypt" in
  let trust_cert_value := enables <$> ps !! tx "trustservercertificate" in
  match encrypt_value, trust_cert_value with
  | Some e, Some t =>
      if eqb e t then Ok e
      else invalid (tx "MSSQL Error: Conflicting values for Encrypt (" ++ bool_text e ++ tx ") and TrustServerCertificate (" ++ bool_text t ++
             tx "). These parameters must have the same value or only one should be specified.")
  | Some e, None => Ok e
  | None, Some t => Ok t
  | None, None => Ok true
  end.

Definition endpoint (server : bytes) : bytes * Z * bool :=
  match split_first COMMA server with
  | Some (host, port_str) => (host, default 0 (stoi port_str) mod 65536, true)
  | None => (server, 1433, false)
  end.

Definition FromConnectionString (connection_string : bytes) (azure_auth : bool) : res MSSQLConnectionInfo :=
  match ValidateConnectionString connection_string azure_auth with
  | [] =>
      let ps := parse_params connection_string in
      let get k := default [] (ps !! k) in
      let '(server_host, port, port_specified) := endpoint (get (tx "server")) in
      '(host, instance_name) ← SplitHostInstance server_host;
      use_encrypt ← encryption ps;
      let catalog_enabled :=
        match ps !! tx "catalog" with Some v => bool_decide (Lower v ∈ [tx "yes"; tx "true"; tx "1"]) | None => true end in
      auth_method ← AuthenticatorToMethod (ResolveIntegratedAuth ps);
      Ok (mkInfo host port instance_name port_specified (get (tx "database")) (get (tx "user")) (get (tx "password"))
            use_encrypt false catalog_enabled (get (tx "application_name")) auth_method false [] [] []
            (get (tx "krb5_configfile")) (get (tx "krb5_keytabfile")) (get (tx "krb5_credcachefile")) (get (tx "krb5_realm"))
            (get (tx "service_principal_name")) 0 0 true (get (tx "schema_filter")) (get (tx "table_filter")) (-1) false (-1))
  | error => invalid (tx "MSSQL Error: " ++ error)
  end.
End Integrated.

(** ** Secrets *)

Section Secrets.
Context `{Values_} (NULL : Value).

(** A [KeyValueSecret]: its type and its values. *)
Record Secret : Type := mkSecret { secret_type : bytes; secret_map : gmap bytes Value }.

(** [TryGetValue]: NULL for a key that is not there. *)
Definition TryGetValue (s : Secret) (key : bytes) : Value := default NULL (secret_map s !! key).

Definition get_str (s : Secret) (key : bytes) : bytes := let v := TryGetValue s key in if IsNull v then [] else ToString v.

Definition secret_authenticator (secret_name : bytes) (s : Secret) (m : AuthMethod) : res AuthMethod :=
  let auth_str := Lower (get_str s (tx "authenticator")) in
  if bool_decide (auth_str = []) then Ok m
  else if bool_decide (auth_str = tx "krb5") then Ok KRB5
  else if bool_decide (auth_str = tx "winsspi") then Ok WINSSPI
  else invalid (tx "MSSQL Error: Secret '" ++ secret_name ++ tx "' has unsupported 'authenticator' value '" ++ auth_str ++
         tx "'. Supported: krb5 (POSIX), winsspi (Windows).").

(** The optional boolean of a key. *)
Definition get_bool (s : Secret) (key : bytes) (otherwise : bool) : res bool :=
  let v := TryGetValue s key in
  if IsNull v then Ok otherwise else b ← GetWord PhysicalType.BOOL v; Ok (negb (b =? 0)).

Definition FromSecret (secrets : bytes -> option Secret) (secret_name : bytes) : res MSSQLConnectionInfo :=
  match secrets secret_name with
  | None =>
      binder_error (tx "MSSQL Error: Secret '" ++ secret_name ++ tx "' not found. Create it first with: CREATE SECRET " ++ secret_name ++
        tx " (TYPE mssql, host '...', port ..., database '...', user '...', password '...')")
  | Some s =>
      if negb (bool_decide (secret_type s = tx "mssql")) then
        binder_error (tx "MSSQL Error: Secret '" ++ secret_name ++ tx "' is not of type 'mssql'. Got type: '" ++ secret_type s ++ tx "'") else
      let port_val := TryGetValue s (tx "port") in
      port ← (if IsNull port_val then Ok 1433 else p ← GetWord PhysicalType.INT32 port_val; Ok (ux 16 p));
      '(host, instance_name) ← SplitHostInstance (ToString (TryGetValue s (tx "host")));
      use_encrypt ← get_bool s (tx "use_encrypt") true;
      catalog_enabled ← get_bool s (tx "catalog") true;
      let access_token := get_str s (tx "access_token") in
      let has_token := negb (bool_decide (access_token = [])) in
      let azure_secret_name := if has_token then [] else get_str s (tx "azure_secret") in
      let has_azure := negb (bool_decide (azure_secret_name = [])) in
      let azure_tenant_id := if has_token then [] else get_str s (tx "azure_tenant_id") in
      auth_method ← secret_authenticator secret_name s (if has_token then MANUAL_TOKEN else if has_azure then AZURE_AD else SQL);
      let application_name :=
        match get_str s (tx "application_name") with [] => get_str s (tx "applicationname") | name => name end in
      Ok (mkInfo host port instance_name (negb (IsNull port_val))
            (ToString (TryGetValue s (tx "database"))) (ToString (TryGetValue s (tx "user"))) (ToString (TryGetValue s (tx "password")))
            use_encrypt false catalog_enabled application_name auth_method (has_token || has_azure) azure_secret_name azure_tenant_id access_token
            (get_str s (tx "krb5_configfile")) (get_str s (tx "krb5_keytabfile")) (get_str s (tx "krb5_credcachefile")) (get_str s (tx "krb5_realm"))
            (get_str s (tx "service_principal_name")) 0 0 true (get_str s (tx "schema_filter")) (get_str s (tx "table_filter")) (-1) false (-1))
  end.
End Secrets.
