(* ===== verification/InstanceResolver.v ===== *)
(** * Named instances (src/src/connection/instance_resolver.cpp)

    The SQL Server Browser's answer, a datagram, is parsed into the instances it
    names; [Resolve] asks for one, once more when the first query is lost. The
    network is the class [Udp]. A [TokenScanner] is the text it has left. *)

From S2P Require Import Prelude Sql Text ConnectionInfo.

(** ** The answer of the Browser *)

Record BrowserInstance : Type := mkBrowserInstance {
  server_name : bytes; instance_name_of : bytes; version : bytes; tcp_port : Z; tcp_enabled : bool; is_clustered : bool
}.

(** An upper-case hexadecimal digit, [%X]. *)
Definition hex_digit (n : Z) : byte := z2b (if n <? 10 then 48 + n else 55 + n).
Definition hex2 (b : byte) : bytes := [hex_digit (b2z b / 16); hex_digit (b2z b mod 16)].

Fixpoint joined (sep : bytes) (l : list bytes) : bytes :=
  match l with [] => [] | [x] => x | x :: l => x ++ sep ++ joined sep l end.

Definition HexDump (data : bytes) : bytes :=
  joined (tx " ") (hex2 <$> ztake 32 data) ++
  (if 32 <? zlen data then tx " ... (" ++ std_to_string (zlen data) ++ tx " bytes total)" else []).

(** [std::hex << v] for a byte's value. *)
Definition hex_number (v : Z) : bytes := Lower (if v <? 16 then [hex_digit v] else [hex_digit (v / 16); hex_digit (v mod 16)]).

Definition scanner_Next (s : bytes) : option (bytes * bytes) :=
  match s with
  | [] => None
  | _ => match split_first SEMICOLON s with Some p => Some p | None => Some (s, []) end
  end.

Definition AtRecordEnd (s : bytes) : bool := match s with c :: _ => bool_decide (c = SEMICOLON) | [] => false end.
Definition ConsumeRecordEnd (s : bytes) : bytes := if AtRecordEnd s then drop 1 s else s.

Definition set_tcp (value : bytes) (i : BrowserInstance) : BrowserInstance :=
  match stoi value with
  | Some port =>
      if (0 <? port) && (port <=? 65535)
      then mkBrowserInstance (server_name i) (instance_name_of i) (version i) port true (is_clustered i) else i
  | None => i
  end.

Definition set_field (key value : bytes) (i : BrowserInstance) : BrowserInstance :=
  if bool_decide (key = tx "ServerName") then
    mkBrowserInstance value (instance_name_of i) (version i) (tcp_port i) (tcp_enabled i) (is_clustered i)
  else if bool_decide (key = tx "InstanceName") then
    mkBrowserInstance (server_name i) value (version i) (tcp_port i) (tcp_enabled i) (is_clustered i)
  else if bool_decide (key = tx "Version") then
    mkBrowserInstance (server_name i) (instance_name_of i) value (tcp_port i) (tcp_enabled i) (is_clustered i)
  else if bool_decide (key = tx "IsClustered") then
    mkBrowserInstance (server_name i) (instance_name_of i) (version i) (tcp_port i) (tcp_enabled i)
      (bool_decide (value ∈ [tx "Yes"; tx "yes"; tx "YES"]))
  else if bool_decide (key = tx "tcp") then match value with [] => i | _ => set_tcp value i end
  else i.

Definition empty_instance : BrowserInstance := mkBrowserInstance [] [] [] 0 false false.

(** The record read from [s], and what is left. *)
Fixpoint record_loop (fuel : nat) (s : bytes) (inst : BrowserInstance) : BrowserInstance * bytes :=
  match fuel with
  | O => (inst, s)
  | S fuel =>
      match scanner_Next s with
      | None => (inst, s)
      | Some (key, s) =>
          if AtRecordEnd s then (inst, ConsumeRecordEnd s) else
          match scanner_Next s with
          | None => (inst, s)
          | Some (value, s) =>
              let inst := set_field key value inst in
              if AtRecordEnd s then (inst, ConsumeRecordEnd s) else record_loop fuel s inst
          end
      end
  end.

Definition ParseRecord (s : bytes) : BrowserInstance * bytes := record_loop (S (length s)) s empty_instance.

Fixpoint records_loop (fuel : nat) (s : bytes) : list BrowserInstance :=
  match fuel, s with
  | S fuel, _ :: _ =>
      let '(inst, s) := ParseRecord s in
      match instance_name_of inst with [] => [] | _ => inst :: records_loop fuel s end
  | _, _ => []
  end.

Definition malformed {A} (what data : bytes) : bytes + A := inl (tx "malformed SQL Browser response: " ++ what ++ tx "; hex: " ++ HexDump data).

(** [inl] is the text of the [std::runtime_error]. *)
Definition ParseBrowserResponse (data : bytes) : bytes + list BrowserInstance :=
  match data with
  | opcode :: lo :: hi :: payload =>
      if negb (b2z opcode =? 0x05) then
        malformed (tx "unexpected opcode 0x" ++ hex_number (b2z opcode) ++ tx " (expected 0x05)") data else
      let advertised := Z.lor (b2z lo) (Z.shiftl (b2z hi) 8) in
      let available := zlen payload in
      if available <? advertised then
        malformed (tx "advertised size " ++ std_to_string advertised ++ tx " exceeds payload " ++ std_to_string available) data else
      let body := ztake advertised payload in
      let body := match last body with Some c => if b2z c =? 0 then ztake (zlen body - 1) body else body | None => body end in
      inr (records_loop (S (length body)) body)
  | _ => malformed (tx "too short (" ++ std_to_string (zlen data) ++ tx " bytes; need at least 3)") data
  end.

(** ** The query *)

Inductive ResolveErrorKind : Type := Unreachable | InstanceNotFound | TcpDisabled | Malformed.

(** [Success host port], or [Failure kind message]. *)
Inductive ResolveResult : Type := Success (host : bytes) (port : Z) | Failure (kind : ResolveErrorKind) (message : bytes).

Definition NormaliseHost (host : bytes) : bytes :=
  if bool_decide (host ∈ [tx "(local)"; tx "."]) then tx "localhost" else host.

Definition IEquals (a b : bytes) : bool := bool_decide (length a = length b) && bool_decide (Lower a = Lower b).

Definition BuildUcastInstRequest (instance : bytes) : bytes := z2b 0x04 :: instance ++ [z2b 0x00].

(** What a query comes to: a datagram, silence, or an error of the socket. *)
Inductive answer : Type := Datagram (d : bytes) | Silence | SocketError (what : bytes).

(** The system's resolver, and the network: the answer to the [n]-th query sent
    to an address within some seconds. *)
Class Udp : Type := {
  Addr : Type;
  getaddrinfo : bytes -> Z -> bytes + list Addr;
  query : Addr -> bytes -> Z -> nat -> answer
}.

Definition BROWSER_PORT : Z := 1434.
Definition DATAGRAM_SIZE : Z := 1472.

(** [recv] into 1472 bytes keeps as many of the datagram. *)
Definition SendAndRecvOnce `{Udp} (addr : Addr) (req : bytes) (timeout_seconds : Z) (n : nat) : answer :=
  match query addr req timeout_seconds n with Datagram d => Datagram (ztake DATAGRAM_SIZE d) | a => a end.

Definition ask `{Udp} (addr : Addr) (req : bytes) (timeout_seconds : Z) : answer :=
  match SendAndRecvOnce addr req timeout_seconds 0 with Silence => SendAndRecvOnce addr req timeout_seconds 1 | a => a end.

Definition choose (host instance : bytes) (records : list BrowserInstance) : ResolveResult :=
  match list_find (fun r => IEquals (instance_name_of r) instance = true) records with
  | Some (_, r) =>
      if tcp_enabled r then Success (match server_name r with [] => host | name => name end) (tcp_port r)
      else Failure TcpDisabled (tx "instance '" ++ instance ++ tx "' exists on " ++ host ++ tx " but TCP transport is disabled")
  | None =>
      Failure InstanceNotFound (tx "instance '" ++ instance ++ tx "' not found on host '" ++ host ++ tx "'" ++
        match records with
        | [] => tx " (browser returned no instances)"
        | _ => tx "; available: " ++ joined (tx ", ") (instance_name_of <$> records)
        end)
  end.

Definition ResolveCore `{Udp} (raw_host : bytes) (browser_port : Z) (instance : bytes) (timeout_seconds : Z) : ResolveResult :=
  let host := NormaliseHost raw_host in
  let at_host := host ++ tx ":" ++ std_to_string browser_port ++ tx "/udp" in
  match getaddrinfo host browser_port with
  | inl err => Failure Unreachable err
  | inr [] => Failure Unreachable []
  | inr (addr :: _) =>
      match ask addr (BuildUcastInstRequest instance) timeout_seconds with
      | Silence =>
          Failure Unreachable (tx "SQL Browser unreachable at " ++ at_host ++ tx " after " ++ std_to_string (timeout_seconds * 2) ++ tx "s (1 send + 1 retry)")
      | SocketError [] => Failure Unreachable (tx "SQL Browser unreachable at " ++ at_host)
      | SocketError what => Failure Unreachable (tx "SQL Browser unreachable at " ++ at_host ++ tx ": " ++ what)
      | Datagram resp =>
          match ParseBrowserResponse resp with
          | inl what => Failure Malformed (tx "SQL Browser at " ++ at_host ++ tx " returned " ++ what)
          | inr records => choose host instance records
          end
      end
  end.

Definition Resolve `{Udp} (host instance : bytes) (timeout_seconds : Z) : ResolveResult := ResolveCore host BROWSER_PORT instance timeout_seconds.

(** ** The settings of a named instance *)

(** What the settings of the session say. *)
Record BrowserSettings : Type := mkBrowserSettings { named_instance_resolution : option bool; browser_timeout_seconds : option Z }.

Definition set_endpoint (h : bytes) (p : Z) (i : MSSQLConnectionInfo) : MSSQLConnectionInfo :=
  mkInfo h p (instance_name i) (port_specified i) (database i) (user i) (password i) (use_encrypt i) (connected i) (catalog_enabled i)
    (application_name i) (auth_method i) (use_azure_auth i) (azure_secret_name i) (azure_tenant_id i) (access_token i)
    (krb5_configfile i) (krb5_keytabfile i) (krb5_credcachefile i) (krb5_realm i) (service_principal_name i)
    (login7_max_packet i) (tds_packet_size i) (utf8_support i) (schema_filter i) (table_filter i) (order_pushdown i)
    (is_fabric_endpoint i) (utf8_support_acked i).

Definition ResolveNamedInstance `{Udp} (settings : BrowserSettings) (i : MSSQLConnectionInfo) : res MSSQLConnectionInfo :=
  if bool_decide (instance_name i = []) || port_specified i then Ok i else
  if negb (default true (named_instance_resolution settings)) then
    invalid (tx "MSSQL Error: named-instance resolution is disabled; set mssql_named_instance_resolution=true or connect with an explicit port (Server=host,port). Instance requested: '"
      ++ host i ++ [BACKSLASH] ++ instance_name i ++ tx "'") else
  let timeout_seconds := default 3 (Values.sx 32 <$> browser_timeout_seconds settings) in
  match Resolve (host i) (instance_name i) timeout_seconds with
  | Failure _ message => Exn (IOError (string_of (tx "MSSQL Error: " ++ message)))
  | Success h port => Ok (set_endpoint (match h with [] => host i | _ => h end) port i)
  end.
