(* ===== verification/ConnectionInfoSpec.v ===== *)
(** * What a connection string says

    The two forms of a connection string, written out as relations between
    settings and texts: [ado_text] ([key=value;...], values in braces or plain,
    white space and stray separators anywhere) and [uri_text] (percent-encoded
    parts). Both are read back as the settings. The name the application logs in
    with is cut at 128 UTF-16 units. *)

From S2P Require Import Prelude Utf16 Protocol Sql Text TdsTypes Values Literals ConnectionInfo.

(** ** key=value; *)

















(** ** Percent-encoding *)







(** ** Settings *)















(** *** The parsers *)

















(** *** The settings of the parameters *)








Section Forms.
Context {P : Platform}.








End Forms.

(** ** The application's name *)

(** The characters that stay: no control characters. *)
Definition shown (cp : Z) : Prop := 0x20 <= cp /\ cp <> 0x7F.

(** The longest prefix of at most [room] UTF-16 units, and the rest. *)
Fixpoint fitting (room : Z) (cps : list Z) : list Z * list Z :=
  match cps with
  | [] => ([], [])
  | cp :: r => if zlen (utf16_enc cp) <=? room then let '(a, b) := fitting (room - zlen (utf16_enc cp)) r in (cp :: a, b) else ([], cps)
  end.

Lemma fitting_spec room cps : 0 <= room ->
  cps = (fitting room cps).1 ++ (fitting room cps).2 /\ zlen (utf16_encode (fitting room cps).1) <= room /\
  (forall cp r, (fitting room cps).2 = cp :: r -> room < zlen (utf16_encode ((fitting room cps).1 ++ [cp]))).
Proof.
  revert room. induction cps as [|c cps IH]; intros room Hr; cbn [fitting]; [split_and!; [done|exact Hr|done]|].
  destruct (Z.leb_spec (zlen (utf16_enc c)) room) as [Hc|Hc].
  - destruct (IH (room - zlen (utf16_enc c)) ltac:(lia)) as (E & Hl & Hm). destruct (fitting _ cps) as [a b]. cbn [fst snd] in *.
    split_and!; [by rewrite E|..].
    + change (utf16_encode (c :: a)) with (utf16_enc c ++ utf16_encode a). rewrite zlen_app. lia.
    + intros cp r Hb. specialize (Hm cp r Hb). cbn [app]. change (utf16_encode (c :: a ++ [cp])) with (utf16_enc c ++ utf16_encode (a ++ [cp])).
      rewrite zlen_app. lia.
  - cbn [fst snd app]. split_and!; [done|exact Hr|]. intros cp r [= -> ->]. unfold utf16_encode. cbn [app fmap list_fmap concat]. rewrite app_nil_r. lia.
Qed.

Lemma z2b_land v m : 0 <= v < 256 -> Z.land (b2z (z2b v)) m = Z.land v m.
Proof. intros Hv. by rewrite b2z_z2b_small. Qed.

Lemma utf8_step_enc cp : scalar cp -> exists c r, utf8_enc cp = c :: r /\ utf8_step c = (length (utf8_enc cp), length (utf16_enc cp)).
Proof.
  intros [Hr _]. unfold utf8_enc, utf16_enc, utf8_step, bs. destruct (Z.ltb_spec cp 0x80) as [H1|H1].
  - eexists _, _. split; [done|]. rewrite b2z_z2b_small by lia. destruct (Z.ltb_spec cp 0x80); [|lia]. destruct (Z.ltb_spec cp 0x10000); [done|lia].
  - destruct (Z.ltb_spec cp 0x800) as [H2|H2]; [|destruct (Z.ltb_spec cp 0x10000) as [H3|H3]].
    + eexists _, _. split; [done|]. assert (Hv : 0xC0 <= 0xC0 + cp / 64 < 0xE0) by zlia. rewrite b2z_z2b_small by lia.
      destruct (lead2 _ Hv) as (_ & Ha & _). rewrite Ha. destruct (Z.ltb_spec (0xC0 + cp / 64) 0x80); [lia|].
      destruct (Z.ltb_spec cp 0x10000); [done|lia].
    + eexists _, _. split; [done|]. assert (Hv : 0xE0 <= 0xE0 + cp / 4096 < 0xF0) by zlia. rewrite b2z_z2b_small by lia.
      destruct (lead3 _ Hv) as (_ & Ha & Hb & _). rewrite Ha, Hb. destruct (Z.ltb_spec (0xE0 + cp / 4096) 0x80); [lia|]. done.
    + eexists _, _. split; [done|]. assert (Hv : 0xF0 <= 0xF0 + cp / 262144 < 0xF8) by zlia. rewrite b2z_z2b_small by lia.
      destruct (lead4 _ Hv) as (_ & Ha & Hb & Hc & _). rewrite Ha, Hb, Hc. destruct (Z.ltb_spec (0xF0 + cp / 262144) 0x80); [lia|]. done.
Qed.

Lemma clamp_fitting cps fuel u : Forall scalar cps -> (length (utf8_encode cps) <= fuel)%nat -> (u <= 128)%nat ->
  clamp_loop fuel (utf8_encode cps) u = utf8_encode (fitting (128 - Z.of_nat u) cps).1.
Proof.
  intros Hs. revert fuel u. induction Hs as [|cp cps Hcp Hs IH]; intros fuel u Hf Hu; [by destruct fuel|].
  destruct (utf8_step_enc cp Hcp) as (c & r & Ec & Estep). change (utf8_encode (cp :: cps)) with (utf8_enc cp ++ utf8_encode cps) in *.
  assert (Hn : (1 <= length (utf16_enc cp))%nat) by (pose proof (zlen_utf16_enc cp); unfold zlen in *; lia).
  rewrite length_app in Hf. rewrite Ec in Hf at 1. cbn [length] in Hf. destruct fuel as [|fuel]; [lia|].
  rewrite Ec at 1. cbn [app clamp_loop]. rewrite Estep. change (c :: r ++ utf8_encode cps) with ((c :: r) ++ utf8_encode cps). rewrite <- Ec.
  cbn [fitting]. unfold zlen.
  destruct (Nat.ltb_spec u 128) as [Hlt|Hge].
  - destruct (Nat.ltb_spec 128 (u + length (utf16_enc cp))) as [Hbig|Hfit]; cbn [orb].
    + destruct (Z.leb_spec (Z.of_nat (length (utf16_enc cp))) (128 - Z.of_nat u)); [lia|]. done.
    + destruct (Nat.ltb_spec (length (utf8_enc cp ++ utf8_encode cps)) (length (utf8_enc cp))); [rewrite length_app in *; lia|].
      destruct (Z.leb_spec (Z.of_nat (length (utf16_enc cp))) (128 - Z.of_nat u)); [|lia].
      rewrite take_app_length, drop_app_length. rewrite IH by (rewrite ?length_app in *; lia).
      replace (128 - Z.of_nat (u + length (utf16_enc cp))) with (128 - Z.of_nat u - Z.of_nat (length (utf16_enc cp))) by lia.
      by destruct (fitting _ cps).
  - destruct (Z.leb_spec (Z.of_nat (length (utf16_enc cp))) (128 - Z.of_nat u)); [lia|]. done.
Qed.

#[export] Instance shown_dec cp : Decision (shown cp).
Proof. unfold shown. apply _. Defined.

Lemma printable_high v : 0x80 <= v < 256 -> printable (z2b v) = true.
Proof. intros Hv. unfold printable. rewrite b2z_z2b_small by lia. lia. Qed.

Lemma filter_utf8_enc cp : scalar cp -> filter (fun c => printable c = true) (utf8_enc cp) = if bool_decide (shown cp) then utf8_enc cp else [].
Proof.
  intros [Hr _]. unfold utf8_enc, bs. destruct (Z.ltb_spec cp 0x80) as [H1|H1].
  - assert (Hp : printable (z2b cp) = bool_decide (shown cp)).
    { unfold printable, shown. rewrite (b2z_z2b_small cp) by lia. case_bool_decide; lia. }
    cbn [fmap list_fmap]. rewrite filter_cons, Hp. case_bool_decide; case_decide; done.
  - rewrite bool_decide_eq_true_2 by (unfold shown; lia).
    destruct (Z.ltb_spec cp 0x800); [|destruct (Z.ltb_spec cp 0x10000)]; cbn [fmap list_fmap];
      repeat (rewrite filter_cons_True by (apply printable_high; zlia)); done.
Qed.

Lemma filter_utf8_encode cps : Forall scalar cps ->
  filter (fun c => printable c = true) (utf8_encode cps) = utf8_encode (filter shown cps).
Proof.
  induction 1 as [|cp cps Hcp _ IH]; [done|]. change (utf8_encode (cp :: cps)) with (utf8_enc cp ++ utf8_encode cps).
  rewrite filter_app, IH, filter_utf8_enc, filter_cons by done. case_bool_decide; case_decide; done.
Qed.

(** The name is cut between two characters, at the last place where
    LOGIN7 still takes it. *)
Lemma ResolveAppName_utf8 cps : Forall scalar cps ->
  ResolveAppName (utf8_encode cps) =
  match filter shown cps with [] => DEFAULT_APP_NAME | kept => utf8_encode (fitting 128 kept).1 end.
Proof.
  intros Hs. unfold ResolveAppName. destruct cps as [|c0 cps0]; [done|]. remember (c0 :: cps0) as cps eqn:Ecps.
  assert (Hk : Forall scalar (filter shown cps)) by (rewrite Forall_forall in Hs |- *; intros x [_ Hx]%list_elem_of_filter; by apply Hs).
  destruct (utf8_encode cps) as [|b0 r0] eqn:Eb; [apply utf8_encode_nil in Eb; by subst|]. rewrite <- Eb, filter_utf8_encode by done.
  destruct (filter shown cps) as [|k ks] eqn:Ek; [done|]. rewrite <- Ek in *.
  destruct (utf8_encode (filter shown cps)) as [|b r] eqn:Ef; [apply utf8_encode_nil in Ef; congruence|]. rewrite <- Ef.
  rewrite clamp_fitting by (done || lia). done.
Qed.

(** The LOGIN7 field of the application's name is never too long: the name
    without its control characters, cut between two characters at the last place
    that fits 128 UTF-16 units; the default name when nothing is left. *)
Theorem ResolveAppName_clamps `{SimdutfSpec} cps offset : Forall scalar cps -> 0 <= offset < 60000 ->
  exists kept rest, filter shown cps = kept ++ rest /\
    ResolveAppName (utf8_encode cps) = match kept with [] => DEFAULT_APP_NAME | _ => utf8_encode kept end /\
    (forall cp r, rest = cp :: r -> 256 < zlen (Utf16LEEncode (utf8_encode (kept ++ [cp])))) /\
    exists field, EncodeLogin7VarField "AppName" (ResolveAppName (utf8_encode cps)) offset false = Ok field.
Proof.
  intros Hs Ho. assert (Hk : Forall scalar (filter shown cps)).
  { rewrite Forall_forall in Hs |- *. intros x [_ Hx]%list_elem_of_filter. by apply Hs. }
  assert (Hname : ResolveAppName (utf8_encode cps) = match (fitting 128 (filter shown cps)).1 with [] => DEFAULT_APP_NAME | kept => utf8_encode kept end).
  { rewrite ResolveAppName_utf8 by done. destruct (filter shown cps) as [|k ks]; [done|]. cbn [fitting].
    destruct (Z.leb_spec (zlen (utf16_enc k)) 128) as [_|Hbig]; [by destruct (fitting _ ks)|]. unfold utf16_enc in Hbig. by destruct (k <? 0x10000). }
  destruct (fitting_spec 128 (filter shown cps) ltac:(lia)) as (E & Hl & Hm). rewrite Hname.
  destruct (fitting 128 (filter shown cps)) as [kept rest]. cbn [fst snd] in *. rewrite E in Hk. apply Forall_app in Hk as [Hkept Hrest].
  exists kept, rest. split_and!; [done|by destruct kept|..].
  - intros cp r ->. apply Forall_cons in Hrest as [Hcp _]. rewrite Utf16LEEncode_encode by (apply Forall_app; auto).
    rewrite zlen_units_bytes. specialize (Hm cp r eq_refl). lia.
  - set (name := match kept with [] => DEFAULT_APP_NAME | _ => utf8_encode kept end).
    assert (ResolveAppName (utf8_encode cps) = name) as Hn by (rewrite Hname; by destruct kept).
    rewrite <- Hname, Hn.
    assert (Hlen : zlen (Utf16LEEncode name) <= 256).
    { unfold name. destruct kept as [|k ks].
      - assert (DEFAULT_APP_NAME = utf8_encode (b2z <$> DEFAULT_APP_NAME)) as -> by (by vm_compute).
        rewrite Utf16LEEncode_encode, zlen_units_bytes; [by vm_compute|].
        assert (Hall : forallb (fun cp => bool_decide (scalar cp)) (b2z <$> DEFAULT_APP_NAME) = true) by (by vm_compute).
        apply Forall_forall. intros x Hx. rewrite forallb_forall in Hall. apply list_elem_of_In in Hx. by apply Hall, bool_decide_eq_true in Hx.
      - rewrite Utf16LEEncode_encode, zlen_units_bytes by done. lia. }
    rewrite EncodeLogin7VarField_eq by done. destruct (Z.ltb_spec 128 (zlen (Utf16LEEncode name) / 2)) as [Hbig|_]; [|by eexists]. zlia.
Qed.

(** ** At work *)

Module SettingsSample.
#[local] Instance posix : Platform := false.






End SettingsSample.


(** A name with a line feed, an accent and a clef: one byte each of the first two
    kinds goes or stays, the clef takes two units. *)
Lemma ResolveAppName_clamps_witness :
  ResolveAppName (utf8_encode [10; 0xE9; 0x1D11E]) = utf8_encode [0xE9; 0x1D11E] /\
  exists kept rest, filter shown [10; 0xE9; 0x1D11E] = kept ++ rest /\
    ResolveAppName (utf8_encode [10; 0xE9; 0x1D11E]) = match kept with [] => DEFAULT_APP_NAME | _ => utf8_encode kept end /\
    (forall cp r, rest = cp :: r -> 256 < zlen (@Utf16LEEncode RefSimdutf.simdutf (utf8_encode (kept ++ [cp])))) /\
    exists field, @EncodeLogin7VarField RefSimdutf.simdutf "AppName" (ResolveAppName (utf8_encode [10; 0xE9; 0x1D11E])) 94 false = Ok field.
Proof.
  split; [by vm_compute|]. apply (@ResolveAppName_clamps RefSimdutf.simdutf ref_simdutf_spec); [|lia].
  repeat (apply Forall_cons; split; [by unfold scalar; lia|]). constructor.
Defined.

(** ** What goes wrong *)

(** An IPv6 address in brackets, without a port, becomes a host and a port. *)
Lemma uri_ipv6_taken_apart : exists i,
  FromConnectionString (P := SettingsSample.posix) (tx "mssql://sa:pw@[::1]/db") false = Ok i /\ host i = tx "[:" /\ port i = 1.
Proof. by eexists. Qed.

(** A secret of integrated authentication need not hold a user: its user and its
    password are then the text of a NULL. *)
Lemma secret_user_null `{Values_} (NULL : Value) s name i : ToString NULL = tx "NULL" ->
  secret_map s !! tx "user" = None -> secret_map s !! tx "password" = None ->
  FromSecret NULL (fun _ => Some s) name = Ok i -> user i = tx "NULL" /\ password i = tx "NULL".
Proof.
  intros Hn Hu Hp. unfold FromSecret. destruct (negb _); [done|]. 
  assert (TryGetValue NULL s (tx "user") = NULL) as -> by (unfold TryGetValue; by rewrite Hu).
  assert (TryGetValue NULL s (tx "password") = NULL) as -> by (unfold TryGetValue; by rewrite Hp).
  intros E. apply bind_Ok in E as (p & _ & E). apply bind_Ok in E as ([h inst] & _ & E). apply bind_Ok in E as (e & _ & E).
  apply bind_Ok in E as (c & _ & E). apply bind_Ok in E as (m & _ & E). injection E as <-. by rewrite <- Hn.
Qed.
