(* ===== verification/InstanceResolverSpec.v ===== *)
(** * What the Browser's answer means

    The datagram of a server that lists its instances is read back as those
    instances; a named instance is connected to where its record says. *)

From S2P Require Import Prelude Sql Text ConnectionInfo InstanceResolver.

(** ** The server's side *)

Definition field_ok (f : bytes * bytes) : Prop := f.1 <> [] /\ SEMICOLON ∉ f.1 /\ f.2 <> [] /\ SEMICOLON ∉ f.2.

(** The record of an instance: its fields, and others a client need not know. *)
Definition fields_of (i : BrowserInstance) (others : list (bytes * bytes)) : list (bytes * bytes) :=
  [(tx "ServerName", server_name i); (tx "InstanceName", instance_name_of i);
   (tx "IsClustered", if is_clustered i then tx "Yes" else tx "No"); (tx "Version", version i)] ++
  (if tcp_enabled i then [(tx "tcp", numeral (tcp_port i))] else []) ++ others.

Definition known_keys : list bytes := [tx "ServerName"; tx "InstanceName"; tx "Version"; tx "IsClustered"; tx "tcp"].

Definition instance_ok (p : BrowserInstance * list (bytes * bytes)) : Prop :=
  let i := p.1 in
  (server_name i <> [] /\ SEMICOLON ∉ server_name i) /\ (instance_name_of i <> [] /\ SEMICOLON ∉ instance_name_of i) /\
  (version i <> [] /\ SEMICOLON ∉ version i) /\
  (if tcp_enabled i then 1 <= tcp_port i <= 65535 else tcp_port i = 0) /\
  Forall (fun f => field_ok f /\ f.1 ∉ known_keys) p.2.

Definition fields_text (fs : list (bytes * bytes)) : bytes := mjoin ((fun f => f.1 ++ SEMICOLON :: f.2 ++ [SEMICOLON]) <$> fs).
Definition record_text (p : BrowserInstance * list (bytes * bytes)) : bytes := fields_text (fields_of p.1 p.2) ++ [SEMICOLON].
Definition body_text (ps : list (BrowserInstance * list (bytes * bytes))) : bytes := mjoin (record_text <$> ps).

(** SVR_RESP: the opcode, the size of the text with its NUL, the text. *)
Definition response (ps : list (BrowserInstance * list (bytes * bytes))) : bytes :=
  let n := zlen (body_text ps) + 1 in
  z2b 0x05 :: z2b n :: z2b (n / 256) :: body_text ps ++ [z2b 0x00].

(** ** Fields and records *)

Lemma scanner_token t s : t <> [] -> SEMICOLON ∉ t -> scanner_Next (t ++ SEMICOLON :: s) = Some (t, s).
Proof. intros Hne Ht. unfold scanner_Next. destruct t as [|c t]; [done|]. cbn [app]. change (c :: t ++ SEMICOLON :: s) with ((c :: t) ++ SEMICOLON :: s). by rewrite split_first_app. Qed.

Lemma not_record_end t s : t <> [] -> SEMICOLON ∉ t -> AtRecordEnd (t ++ s) = false.
Proof. destruct t as [|c t]; [done|]. intros _ Ht. apply bool_decide_eq_false. intros ->. apply Ht. by left. Qed.

Lemma fields_text_cons f fs : fields_text (f :: fs) = f.1 ++ SEMICOLON :: f.2 ++ SEMICOLON :: fields_text fs.
Proof. unfold fields_text. cbn [fmap list_fmap mjoin list_join]. by rewrite <- app_assoc, <- app_comm_cons, <- app_assoc. Qed.

Lemma fields_text_head fs s : Forall field_ok fs -> fs <> [] -> AtRecordEnd (fields_text fs ++ s) = false.
Proof.
  destruct fs as [|f fs]; [done|]. intros Hf _. apply Forall_inv in Hf as (Hne & Hk & _). rewrite fields_text_cons, <- app_assoc. by apply not_record_end.
Qed.

Lemma record_loop_fields fs fuel s inst : fs <> [] -> Forall field_ok fs -> (length fs <= fuel)%nat ->
  record_loop fuel (fields_text fs ++ SEMICOLON :: s) inst = (foldl (fun i f => set_field f.1 f.2 i) inst fs, s).
Proof.
  intros Hne Hf. revert fuel inst Hne. induction Hf as [|f fs (Hk & Hks & Hv & Hvs) Hf IH]; intros fuel inst Hne Hl; [done|].
  cbn [length] in Hl. destruct fuel as [|fuel]; [lia|]. cbn [record_loop foldl].
  rewrite fields_text_cons. rewrite <- app_assoc, <- app_comm_cons, scanner_token by done. rewrite <- app_assoc, not_record_end by done.
  rewrite <- app_comm_cons, scanner_token by done. destruct fs as [|f' fs].
  - unfold fields_text. cbn [fmap list_fmap mjoin list_join app AtRecordEnd foldl]. unfold ConsumeRecordEnd. cbn [AtRecordEnd].
    rewrite bool_decide_eq_true_2 by done. done.
  - rewrite fields_text_head by done. apply IH; [done|lia].
Qed.

Lemma set_other i f : f.1 ∉ known_keys -> set_field f.1 f.2 i = i.
Proof.
  unfold known_keys. rewrite !not_elem_of_cons. intros (H1 & H2 & H3 & H4 & H5 & _). unfold set_field. by rewrite !bool_decide_eq_false_2.
Qed.

Lemma set_others fs i : Forall (fun f => f.1 ∉ known_keys) fs -> foldl (fun i f => set_field f.1 f.2 i) i fs = i.
Proof. intros Hf. revert i. induction Hf as [|f fs Hf _ IH]; intros i; cbn [foldl]; [done|]. by rewrite set_other. Qed.

Lemma set_tcp_numeral i p : 1 <= p <= 65535 ->
  set_field (tx "tcp") (numeral p) i = mkBrowserInstance (server_name i) (instance_name_of i) (version i) p true (is_clustered i).
Proof.
  intros Hp. unfold set_field. rewrite !(bool_decide_eq_false_2 (tx "tcp" = _)) by done. rewrite bool_decide_eq_true_2 by done.
  destruct (numeral_spec p ltac:(lia)) as (Hne & _). destruct (numeral p) as [|c r] eqn:E; [done|]. unfold set_tcp. rewrite <- E, stoi_numeral by lia.
  destruct (Z.ltb_spec 0 p); [|lia]. destruct (Z.leb_spec p 65535); [|lia]. done.
Qed.

Lemma fields_read p : instance_ok p -> foldl (fun i f => set_field f.1 f.2 i) empty_instance (fields_of p.1 p.2) = p.1.
Proof.
  destruct p as [[sn iname v port tcp clustered] others]. intros (_ & _ & _ & Hport & Ho). unfold fields_of. cbn [fst snd server_name instance_name_of version tcp_port tcp_enabled is_clustered] in *.
  rewrite foldl_app. cbn [foldl fst snd].
  assert (Hall : Forall (fun f : bytes * bytes => f.1 ∉ known_keys) others) by (eapply Forall_impl; [exact Ho|]; by intros f []).
  destruct tcp; cbn [app foldl fst snd].
  - rewrite set_tcp_numeral by done. rewrite set_others by done. by destruct clustered.
  - rewrite set_others by done. subst port. by destruct clustered.
Qed.

Lemma fields_ok p : instance_ok p -> Forall field_ok (fields_of p.1 p.2).
Proof.
  destruct p as [i others]. intros ((? & ?) & (? & ?) & (? & ?) & Hport & Ho). unfold fields_of. cbn [fst snd] in *.
  assert (Hno : SEMICOLON ∉ (if is_clustered i then tx "Yes" else tx "No")) by (destruct (is_clustered i); by apply (bool_decide_unpack _); vm_compute).
  apply Forall_app. split; [|apply Forall_app; split].
  - repeat (apply Forall_cons_2; [split_and!; try done; try (by apply (bool_decide_unpack _); vm_compute); try (by destruct (is_clustered i))|]). constructor.
  - destruct (tcp_enabled i); [|constructor]. apply Forall_cons_2; [|constructor]. destruct (numeral_spec (tcp_port i) ltac:(lia)) as (Hne & Hd & _).
    split_and!; cbn [fst snd]; [done|by apply (bool_decide_unpack _); vm_compute|done|]. intros Hin. rewrite Forall_forall in Hd. by specialize (Hd _ Hin).
  - eapply Forall_impl; [exact Ho|]. by intros f [].
Qed.

Lemma fields_length fs s : (length fs <= length (fields_text fs ++ s))%nat.
Proof. induction fs as [|f fs IH]; [cbn; lia|]. rewrite fields_text_cons. rewrite !length_app in *. cbn [length] in *. rewrite !length_app. cbn [length]. lia. Qed.

Lemma ParseRecord_text p s : instance_ok p -> ParseRecord (record_text p ++ s) = (p.1, s).
Proof.
  intros Hp. unfold ParseRecord, record_text. rewrite <- app_assoc. cbn [app]. rewrite record_loop_fields.
  - by rewrite fields_read.
  - done.
  - by apply fields_ok.
  - pose proof (fields_length (fields_of p.1 p.2) (SEMICOLON :: s)). lia.
Qed.

Lemma records_loop_text ps fuel : Forall instance_ok ps -> (length (body_text ps) < fuel)%nat -> records_loop fuel (body_text ps) = ps.*1.
Proof.
  intros Hps. revert fuel. induction Hps as [|p ps Hp Hps IH]; intros fuel Hf; [by destruct fuel|].
  destruct fuel as [|fuel]; [lia|]. change (body_text (p :: ps)) with (record_text p ++ body_text ps) in *. cbn [records_loop].
  assert (Hne : exists c r, record_text p ++ body_text ps = c :: r) by (by eexists _, _). destruct Hne as (c & r & E). rewrite E, <- E.
  rewrite ParseRecord_text by done. destruct Hp as (_ & [Hn _] & _). destruct (instance_name_of p.1) eqn:En; [done|]. cbn [fmap list_fmap]. f_equal.
  apply IH. rewrite length_app in Hf. assert (1 <= length (record_text p))%nat; [|lia]. unfold record_text. rewrite length_app. cbn. lia.
Qed.

Lemma ParseBrowserResponse_response ps : Forall instance_ok ps -> zlen (body_text ps) < 65535 -> ParseBrowserResponse (response ps) = inr ps.*1.
Proof.
  intros Hps Hl. unfold ParseBrowserResponse, response. pose proof (zlen_nonneg (body_text ps)) as H0.
  change (b2z (z2b 5) =? 5) with true. cbn [negb]. set (n := zlen (body_text ps) + 1).
  assert (Hn : Z.lor (b2z (z2b n)) (Z.shiftl (b2z (z2b (n / 256))) 8) = n).
  { rewrite !b2z_z2b. rewrite lor_shiftl_add by zlia. change (2 ^ 8) with 256. unfold n in *. zlia. }
  rewrite Hn. rewrite zlen_app. change (zlen [z2b 0]) with 1. destruct (Z.ltb_spec (zlen (body_text ps) + 1) n); [lia|].
  assert (ztake n (body_text ps ++ [z2b 0]) = body_text ps ++ [z2b 0]) as ->.
  { rewrite <- (app_nil_r (body_text ps ++ [z2b 0])) at 1. apply ztake_app_length. rewrite zlen_app. done. }
  rewrite last_snoc. change (b2z (z2b 0) =? 0) with true. cbv iota. rewrite zlen_app. change (zlen [z2b 0]) with 1.
  rewrite ztake_app_length by lia. f_equal. apply records_loop_text; [done|lia].
Qed.

(** ** The named instance *)

Definition named (instance : bytes) (r : BrowserInstance) : Prop := Lower (instance_name_of r) = Lower instance.

(** [r] is the first of [rs] of that name. *)
Definition first_named (instance : bytes) (rs : list BrowserInstance) (r : BrowserInstance) : Prop :=
  exists before after, rs = before ++ r :: after /\ named instance r /\ Forall (fun x => ~ named instance x) before.

Lemma IEquals_named a b : IEquals a b = true <-> Lower a = Lower b.
Proof.
  unfold IEquals. rewrite andb_true_iff, !bool_decide_eq_true. split; [by intros []|]. intros E. split; [|done].
  by rewrite <- (length_fmap (fun b => if (65 <=? b2z b) && (b2z b <=? 90) then z2b (b2z b + 32) else b) a), <- (length_fmap (fun b => if (65 <=? b2z b) && (b2z b <=? 90) then z2b (b2z b + 32) else b) b); f_equal.
Qed.

Lemma choose_first host instance rs r : first_named instance rs r ->
  choose host instance rs =
    if tcp_enabled r then Success (match server_name r with [] => host | name => name end) (tcp_port r)
    else Failure TcpDisabled (tx "instance '" ++ instance ++ tx "' exists on " ++ host ++ tx " but TCP transport is disabled").
Proof.
  intros (before & after & -> & Hr & Hb). unfold choose.
  assert (list_find (fun r => IEquals (instance_name_of r) instance = true) (before ++ r :: after) = Some (length before, r)) as ->; [|done].
  apply list_find_Some. split_and!.
  - by apply list_lookup_middle.
  - by apply IEquals_named.
  - intros j y Hj Hlt Hy. rewrite lookup_app_l in Hj by lia. apply list_elem_of_lookup_2 in Hj. rewrite Forall_forall in Hb.
    apply (Hb y Hj). by apply IEquals_named in Hy.
Qed.

Lemma choose_none host instance rs : Forall (fun x => ~ named instance x) rs -> exists message, choose host instance rs = Failure InstanceNotFound message.
Proof.
  intros Hb. unfold choose.
  assert (list_find (fun r => IEquals (instance_name_of r) instance = true) rs = None) as ->; [|by eexists].
  apply list_find_None. eapply Forall_impl; [exact Hb|]. intros x Hx Hy. by apply Hx, IEquals_named.
Qed.

Section Named.
Context `{Udp} (settings : BrowserSettings) (i : MSSQLConnectionInfo).

(** The Browser of the host answers the first query for the instance, or the
    second when the first gets no answer. *)
Definition browser_answers (d : bytes) : Prop :=
  exists addr others, getaddrinfo (NormaliseHost (host i)) BROWSER_PORT = inr (addr :: others) /\
  let asked := query addr (BuildUcastInstRequest (instance_name i)) (default 3 (Values.sx 32 <$> browser_timeout_seconds settings)) in
  asked O = Datagram d \/ (asked O = Silence /\ asked 1%nat = Datagram d).

Lemma Resolve_answered d : browser_answers d -> zlen d <= DATAGRAM_SIZE ->
  Resolve (host i) (instance_name i) (default 3 (Values.sx 32 <$> browser_timeout_seconds settings)) =
  match ParseBrowserResponse d with
  | inl what => Failure Malformed (tx "SQL Browser at " ++ (NormaliseHost (host i) ++ tx ":" ++ std_to_string BROWSER_PORT ++ tx "/udp") ++ tx " returned " ++ what)
  | inr records => choose (NormaliseHost (host i)) (instance_name i) records
  end.
Proof.
  intros (addr & others & Ha & Hq) Hd. unfold Resolve, ResolveCore. rewrite Ha. unfold ask, SendAndRecvOnce.
  assert (Ht : ztake DATAGRAM_SIZE d = d) by (apply take_ge; unfold zlen in Hd; lia).
  destruct Hq as [Hq|[Hq Hq']]; rewrite Hq; [by rewrite Ht|]. by rewrite Hq', Ht.
Qed.

(** C27. A named instance is connected to where the SQL Server Browser says it
    listens: the first record with the instance's name, in any case of its
    letters, gives host and port; an instance that is not listed, or listed
    without TCP, is an error. *)
Theorem ResolveNamedInstance_answered ps :
  instance_name i <> [] -> port_specified i = false -> named_instance_resolution settings <> Some false ->
  Forall instance_ok ps -> zlen (response ps) <= DATAGRAM_SIZE -> browser_answers (response ps) ->
  (forall r, first_named (instance_name i) ps.*1 r ->
     if tcp_enabled r then ResolveNamedInstance settings i = Ok (set_endpoint (server_name r) (tcp_port r) i)
     else exists message, ResolveNamedInstance settings i = Exn (IOError message)) /\
  (Forall (fun r => ~ named (instance_name i) r) ps.*1 -> exists message, ResolveNamedInstance settings i = Exn (IOError message)).
Proof.
  intros Hi Hport Hset Hps Hl Ha.
  assert (Hbody : zlen (body_text ps) < 65535).
  { unfold response, DATAGRAM_SIZE in Hl. autorewrite with zlen in Hl. lia. }
  assert (Hresolve : ResolveNamedInstance settings i =
    match choose (NormaliseHost (host i)) (instance_name i) ps.*1 with
    | Failure _ message => Exn (IOError (string_of (tx "MSSQL Error: " ++ message)))
    | Success h port => Ok (set_endpoint (match h with [] => host i | _ => h end) port i)
    end).
  { unfold ResolveNamedInstance. rewrite Hport, bool_decide_eq_false_2 by done. cbn [orb].
    assert (default true (named_instance_resolution settings) = true) as -> by (by destruct (named_instance_resolution settings) as [[]|]).
    cbn [negb]. rewrite (Resolve_answered (response ps)) by done. by rewrite ParseBrowserResponse_response. }
  rewrite Hresolve. split.
  - intros r Hr. rewrite (choose_first _ _ _ r) by done. destruct Hr as (before & after & E & _).
    assert (Hn : server_name r <> []).
    { assert (Hin : r ∈ ps.*1) by (rewrite E; set_solver). apply list_elem_of_fmap_1 in Hin as (p & -> & Hp). rewrite Forall_forall in Hps.
      by destruct (Hps p Hp) as [[Hn _] _]. }
    destruct (tcp_enabled r); [|by eexists]. by destruct (server_name r).
  - intros Hr. destruct (choose_none (NormaliseHost (host i)) (instance_name i) ps.*1 Hr) as [m ->]. by eexists.
Qed.
End Named.

(** ** At work *)

Module BrowserSample.
(** Two instances; the second moved to another host. *)
Definition instances : list (BrowserInstance * list (bytes * bytes)) :=
  [(mkBrowserInstance (tx "DB1") (tx "OLD") (tx "15.0.1") 0 false false, []);
   (mkBrowserInstance (tx "DB2") (tx "Sales") (tx "16.0.1") 50123 true true, [(tx "np", tx "\\DB2\pipe\sql\query")])].

(** The first query is lost. *)
#[export] Instance network : Udp := {|
  Addr := unit;
  getaddrinfo _ _ := inr [tt];
  query _ _ _ n := if Nat.eqb n 0 then Silence else Datagram (response instances)
|}.

Definition info : MSSQLConnectionInfo :=
  mkInfo (tx "db1") 1433 (tx "SALES") false (tx "d") (tx "u") (tx "p") true false true [] SQL false [] [] [] [] [] [] [] [] 0 0 true [] [] (-1) false (-1).

Definition defaults : BrowserSettings := mkBrowserSettings None None.

Lemma text_ok (s : bytes) (c : byte) : bool_decide (s <> []) && negb (bool_decide (c ∈ s)) = true -> s <> [] /\ c ∉ s.
Proof. intros [H1%bool_decide_eq_true H2%negb_true_iff%bool_decide_eq_false]%andb_prop. done. Qed.

Lemma instances_ok : Forall instance_ok instances.
Proof.
  repeat apply Forall_cons_2; [split_and!; cbn [fst snd]; try (by apply text_ok; vm_compute); try (cbn; lia); try done; constructor..|constructor].
  - split; [|by apply (bool_decide_unpack _); vm_compute]. assert (Hf := text_ok (tx "np") SEMICOLON eq_refl).
    assert (Hv := text_ok (tx "\\DB2\pipe\sql\query") SEMICOLON eq_refl). unfold field_ok. cbn [fst snd]. tauto.
  - constructor.
Qed.
End BrowserSample.
#[local] Existing Instance BrowserSample.network.

Lemma ResolveNamedInstance_answered_witness :
  ResolveNamedInstance BrowserSample.defaults BrowserSample.info = Ok (set_endpoint (tx "DB2") 50123 BrowserSample.info).
Proof.
  destruct (ResolveNamedInstance_answered BrowserSample.defaults BrowserSample.info BrowserSample.instances) as [Hfound _].
  - done.
  - done.
  - done.
  - exact BrowserSample.instances_ok.
  - by vm_compute.
  - exists tt, []. split; [done|right; done].
  - apply (Hfound (mkBrowserInstance (tx "DB2") (tx "Sales") (tx "16.0.1") 50123 true true)).
    exists [mkBrowserInstance (tx "DB1") (tx "OLD") (tx "15.0.1") 0 false false], []. split_and!; [done|by vm_compute|].
    apply Forall_cons. split; [by vm_compute|constructor].
Defined.

(** A record whose server name is empty is not read: ";;" is taken for the end of
    the record. *)
Lemma empty_server_name : ParseBrowserResponse (bs [5; 41; 0] ++ tx "ServerName;;InstanceName;SALES;tcp;1433;;" ++ bs [0]) = inr [].
Proof. by vm_compute. Qed.
