(* ===== verification/CatalogFilter.v ===== *)
(** * The catalog filter (src/src/catalog/mssql_catalog_filter.cpp)

    Which schemas and tables of a catalog are shown: a regular expression each,
    and, when it has one, its SQL condition for the server, so that it lists less.
    [std::regex] is the class [Regex]: [regex_error] is the message of a pattern
    that does not compile, and [regex_search] searches a name, without regard to
    case, for a pattern that does.

    An empty text is "not convertible", as in the source. *)

From S2P Require Import Prelude Sql Text ConnectionInfo.

Class Regex : Type := {
  regex_error : bytes -> option bytes;
  regex_search : bytes -> bytes -> bool
}.

(** ** The filter's state *)

(** [schema_pattern_], [table_pattern_]; a filter is set when its pattern is not
    empty. *)
Record MSSQLCatalogFilter : Type := mkFilter {
  schema_pattern_ : bytes; has_schema_filter_ : bool; table_pattern_ : bytes; has_table_filter_ : bool
}.

Section Filter.
Context `{Regex}.

Definition ValidatePattern (pattern : bytes) : bytes :=
  match pattern with
  | [] => []
  | _ => match regex_error pattern with
         | None => []
         | Some what => tx "Invalid regex pattern '" ++ pattern ++ tx "': " ++ what
         end
  end.

Definition SetSchemaFilter (pattern : bytes) (f : MSSQLCatalogFilter) : res MSSQLCatalogFilter :=
  match pattern with
  | [] => Ok (mkFilter [] false (table_pattern_ f) (has_table_filter_ f))
  | _ => match ValidatePattern pattern with
         | [] => Ok (mkFilter pattern true (table_pattern_ f) (has_table_filter_ f))
         | error => invalid (tx "MSSQL schema_filter error: " ++ error)
         end
  end.

Definition SetTableFilter (pattern : bytes) (f : MSSQLCatalogFilter) : res MSSQLCatalogFilter :=
  match pattern with
  | [] => Ok (mkFilter (schema_pattern_ f) (has_schema_filter_ f) [] false)
  | _ => match ValidatePattern pattern with
         | [] => Ok (mkFilter (schema_pattern_ f) (has_schema_filter_ f) pattern true)
         | error => invalid (tx "MSSQL table_filter error: " ++ error)
         end
  end.

Definition MatchesSchema (name : bytes) (f : MSSQLCatalogFilter) : bool := negb (has_schema_filter_ f) || regex_search (schema_pattern_ f) name.
Definition MatchesTable (name : bytes) (f : MSSQLCatalogFilter) : bool := negb (has_table_filter_ f) || regex_search (table_pattern_ f) name.
Definition HasFilters (f : MSSQLCatalogFilter) : bool := has_schema_filter_ f || has_table_filter_ f.
End Filter.

(** ** The pattern as LIKE *)

Definition CARET : byte := z2b 0x5E.
Definition DOLLAR : byte := z2b 0x24.
Definition DOT : byte := z2b 0x2E.
Definition PIPE : byte := z2b 0x7C.
Definition PLUS : byte := z2b 0x2B.
Definition PARL_ : byte := z2b 0x28.
Definition PARR_ : byte := z2b 0x29.

(** After the '^': the LIKE pattern, and whether a '$' ends it. [None]: not
    convertible. *)
Fixpoint like_loop (pattern : bytes) : option (bytes * bool) :=
  match pattern with
  | [] => Some ([], false)
  | c :: r =>
      if bool_decide (c = DOLLAR) && bool_decide (r = []) then Some ([], true)
      else if bool_decide (c = DOT) then
        match r with
        | d :: r' =>
            if bool_decide (d = STAR) then '(l, e) ← like_loop r'; Some (tx "%" ++ l, e)
            else if bool_decide (d = PLUS) then '(l, e) ← like_loop r'; Some (tx "_%" ++ l, e)
            else '(l, e) ← like_loop r; Some (tx "_" ++ l, e)
        | [] => Some (tx "_", false)
        end
      else
        match bool_decide (c = BACKSLASH), r with
        | true, next :: r' =>
            if bool_decide (next ∈ tx ".*+?[](){}|^$\") then
              '(l, e) ← like_loop r';
              Some ((if bool_decide (next ∈ tx "%_[") then tx "[" ++ [next] ++ tx "]" else [next]) ++ l, e)
            else None
        | _, _ =>
            if bool_decide (c ∈ tx "[({|?+*") then None
            else '(l, e) ← like_loop r; Some ((if bool_decide (c ∈ tx "%_") then tx "[" ++ [c] ++ tx "]" else [c]) ++ l, e)
        end
  end.

Definition PERCENT_SIGN : bytes := tx "%".

Definition ConvertSinglePatternToLike (pattern column_expr : bytes) : bytes :=
  match pattern with
  | [] => []
  | c :: r =>
      let anchored_start := bool_decide (c = CARET) in
      match like_loop (if anchored_start then r else pattern) with
      | None => []
      | Some (like_pattern, anchored_end) =>
          let full_like := if negb anchored_start && negb (bool_decide (head like_pattern = Some PERCENT)) then PERCENT_SIGN ++ like_pattern else like_pattern in
          let full_like := if negb anchored_end && negb (bool_decide (last full_like = Some PERCENT)) then full_like ++ PERCENT_SIGN else full_like in
          column_expr ++ tx " LIKE '" ++ EscapeSqlSingleQuotes full_like ++ tx "'"
      end
  end.

(** The alternatives found, and whether all was well and there are two. *)
Fixpoint split_loop (s : bytes) (current : bytes) (depth : Z) : list bytes * bool :=
  match s with
  | [] => if bool_decide (current = []) || negb (depth =? 0) then ([], false) else ([current], true)
  | c :: r =>
      match bool_decide (c = BACKSLASH), r with
      | true, d :: r' => split_loop r' (current ++ [c; d]) depth
      | _, _ =>
          if bool_decide (c = PARL_) then split_loop r (current ++ [c]) (depth + 1)
          else if bool_decide (c = PARR_) then split_loop r (current ++ [c]) (depth - 1)
          else if bool_decide (c = PIPE) && (depth =? 0) then
            if bool_decide (current = []) then ([], false)
            else let '(out, ok) := split_loop r [] depth in (current :: out, ok)
          else split_loop r (current ++ [c]) depth
      end
  end.

(** [out]; that a split failed shows in it only by its length. *)
Definition SplitAlternatives (s : bytes) : list bytes := (split_loop s [] 0).1.

Definition IsPlainLiteral (s : bytes) : bool := forallb (fun c => negb (bool_decide (c ∈ tx ".*+?[](){}|\"))) s.

Definition group_text (pattern : bytes) : bool * bool * bytes :=
  let group_start := bool_decide (head pattern = Some CARET) in
  let rest := if group_start then drop 1 pattern else pattern in
  let group_end := bool_decide (last rest = Some DOLLAR) in
  (group_start, group_end, if group_end then take (length rest - 1) rest else rest).

(** [substr(start + 1, end - start - 2)] of a text in parentheses. *)
Definition inside (s : bytes) : option bytes :=
  if Nat.leb 2 (length s) && bool_decide (head s = Some PARL_) && bool_decide (last s = Some PARR_)
  then Some (take (length s - 2) (drop 1 s)) else None.

(** The anchors of the group, and the alternatives. *)
Definition alternatives_of (pattern : bytes) : bool * bool * list bytes :=
  let '(group_start, group_end, body) := group_text pattern in
  match match inside body with Some inner => SplitAlternatives inner | None => [] end with
  | [] => (false, false, SplitAlternatives pattern)
  | alternatives => (group_start, group_end, alternatives)
  end.

(** [^literal$]. *)
Definition exact_literal (alt : bytes) : option bytes :=
  if Nat.leb 3 (length alt) && bool_decide (head alt = Some CARET) && bool_decide (last alt = Some DOLLAR)
  then let inner := take (length alt - 2) (drop 1 alt) in if IsPlainLiteral inner then Some inner else None
  else None.

Definition literal_values (group_start group_end : bool) (alternatives : list bytes) : option (list bytes) :=
  if group_start && group_end then mapM (fun alt => if IsPlainLiteral alt then Some alt else None) alternatives
  else if negb group_start && negb group_end then mapM exact_literal alternatives
  else None.

Definition anchored (group_start group_end : bool) (alt : bytes) : bytes :=
  let alt := if group_start && negb (bool_decide (head alt = Some CARET)) then CARET :: alt else alt in
  if group_end && negb (bool_decide (last alt = Some DOLLAR)) then alt ++ [DOLLAR] else alt.

Fixpoint separated_by (sep : bytes) (l : list bytes) : bytes :=
  match l with [] => [] | [x] => x | x :: l => x ++ sep ++ separated_by sep l end.

Definition TryRegexToSQLLike (pattern column_expr : bytes) : bytes :=
  match pattern with
  | [] => []
  | _ =>
      let '(group_start, group_end, alternatives) := alternatives_of pattern in
      if Nat.leb 2 (length alternatives) then
        match literal_values group_start group_end alternatives with
        | Some values =>
            column_expr ++ tx " IN (" ++ separated_by (tx ", ") ((fun v => tx "'" ++ EscapeSqlSingleQuotes v ++ tx "'") <$> values) ++ tx ")"
        | None =>
            let sql_parts := (fun alt => ConvertSinglePatternToLike (anchored group_start group_end alt) column_expr) <$> alternatives in
            if existsb (fun part => bool_decide (part = [])) sql_parts then []
            else tx "(" ++ separated_by (tx " OR ") sql_parts ++ tx ")"
        end
      else ConvertSinglePatternToLike pattern column_expr
  end.
