(* ===== verification/CatalogFilterSpec.v ===== *)
(** * What a catalog filter lets through

    The server's condition is a superset: a name the regular expression finds is
    one the condition admits. Stated for the expressions the converter knows: a
    sequence of literals, [.], [.*] and [.+], perhaps anchored; alternatives of
    these; a group of alternatives, perhaps anchored. LIKE and IN compare without
    regard to case here, as the expression does, and a character is a byte, not a
    line feed (T-SQL would join the lines after a backslash). *)

From S2P Require Import Prelude Sql SqlRead Filter FilterSem FilterSpec Text ConnectionInfo CatalogFilter.

(** ** Regular expressions *)










(** ** Conditions on a column *)

Section Column.
Context (col : bytes).





End Column.

(** ** The atoms as LIKE *)















(** ** A single expression *)

















(** ** Alternatives *)






(** ** Reading the condition *)

Section Conditions.
Context (col : bytes) (Hcol : plainly col = true) (Hparen : head col <> Some PARL_).

















End Conditions.

(** ** The whole pattern *)











Section Whole.
Context (col : bytes) (Hcol : plainly col = true) (Hparen : head col <> Some PARL_).
















End Whole.



(** ** What goes wrong *)

(** An empty last alternative finds every name; the condition forgets it. *)
Lemma empty_alternative_lost : TryRegexToSQLLike (tx "a|b|") (tx "o.name") = tx "(o.name LIKE '%a%' OR o.name LIKE '%b%')".
Proof. by vm_compute. Qed.

(** An anchor in an alternative of an anchored group becomes a character. *)
Lemma anchor_in_group : TryRegexToSQLLike (tx "^(a$|b)$") (tx "o.name") = tx "o.name IN ('a$', 'b')".
Proof. by vm_compute. Qed.
