(* ===== verification/Attach.v ===== *)
(** * ATTACH (src/src/mssql_storage.cpp, mssql_secret.cpp,
    connection/mssql_settings.cpp, azure/azure_fedauth.cpp)

    Secrets are checked and made, session settings loaded, the options of an
    ATTACH read, and put together into the settings every connection of the
    catalog is made with; the texts of failed logins.

    [Azure] is what the extension asks DuckDB's secret manager about secrets of
    type azure, [Patterns] the regular expressions of the catalog filters. *)

From S2P Require Import Prelude Sql Text TdsTypes Values Literals ConnectionInfo InstanceResolver CatalogFilter.

(** ** Failed connections *)

Definition on_endpoint (host : bytes) (port : Z) : bytes := host ++ tx ":" ++ std_to_string port.
Definition for_user (user : bytes) : bytes := match user with [] => [] | _ => tx " for user '" ++ user ++ tx "'" end.

Definition mentions (lower_error : bytes) (words : list bytes) : bool := existsb (fun w => contains w lower_error) words.

Definition MSSQLTranslateConnectionError (error host : bytes) (port : Z) (user database : bytes) (server_error server_state : Z) : bytes :=
  let lower_error := Lower error in
  if 0 <? server_error then
    if is_one_of server_error [40613; 40197; 40501; 49918] then
      tx "Database '" ++ database ++ tx "' on " ++ on_endpoint host port ++ tx " is not available yet (server error " ++ std_to_string server_error ++
      tx ") - a serverless database may be resuming, or the service is being reconfigured; retry shortly. Server said: " ++ error
    else if server_error =? 18456 then
      tx "Authentication failed" ++ for_user user ++ tx " (server error 18456, state " ++ std_to_string server_state ++
      tx ") - state 8 is a wrong password, state 38/40 an inaccessible initial database, state 1 an unspecified cause the server logs but does not disclose. Server said: " ++ error
    else if server_error =? 4060 then
      tx "Cannot access database '" ++ database ++ tx "' - check database name and permissions (server error 4060). Server said: " ++ error
    else
      tx "Login to " ++ on_endpoint host port ++ tx " failed with server error " ++ std_to_string server_error ++ tx " (state " ++ std_to_string server_state ++ tx "): " ++ error
  else if mentions lower_error [tx "login failed"] then
    tx "Authentication failed" ++ for_user user ++ tx " - check username and password. Server said: " ++ error
  else if mentions lower_error [tx "cannot open database"] then
    tx "Cannot access database '" ++ database ++ tx "' - check database name and permissions. Details: " ++ error
  else if mentions lower_error [tx "tls"; tx "ssl"; tx "handshake"] then
    tx "TLS negotiation failed to " ++ on_endpoint host port ++ tx " - check TLS configuration. Details: " ++ error
  else if mentions lower_error [tx "encrypt_req"] || (mentions lower_error [tx "encryption"] && mentions lower_error [tx "require"]) then
    tx "Server " ++ on_endpoint host port ++ tx " requires encryption (ENCRYPT_REQ) but use_encrypt=false. Set use_encrypt=true or Encrypt=yes in connection string. Details: " ++ error
  else if mentions lower_error [tx "certificate"; tx "cert"] then
    tx "TLS certificate validation failed to " ++ on_endpoint host port ++ tx " - server certificate not trusted. Details: " ++ error
  else if mentions lower_error [tx "connection refused"; tx "econnrefused"] then
    tx "Connection refused to " ++ on_endpoint host port ++ tx " - check if SQL Server is running and accepting connections. Details: " ++ error
  else if mentions lower_error [tx "resolve"; tx "host"; tx "enoent"; tx "name or service not known"] then
    tx "Cannot resolve hostname '" ++ host ++ tx "' - check server name. Details: " ++ error
  else if mentions lower_error [tx "timeout"; tx "timed out"] then
    tx "Connection timed out to " ++ on_endpoint host port ++ tx " - check network connectivity and firewall settings. Details: " ++ error
  else match error with
  | [] => tx "Connection failed to " ++ on_endpoint host port
  | _ => tx "Connection failed to " ++ on_endpoint host port ++ tx ": " ++ error
  end.

(** ** Endpoints *)

Inductive EndpointType : Type := OnPremises | AzureSQL | Fabric | Synapse.

Definition ContainsIgnoreCase (haystack needle : bytes) : bool :=
  match needle with [] => false | _ => negb (Nat.ltb (length haystack) (length needle)) && contains (Lower needle) (Lower haystack) end.

Definition IsFabricEndpoint (host : bytes) : bool :=
  ContainsIgnoreCase host (tx ".datawarehouse.fabric.microsoft.com") || ContainsIgnoreCase host (tx ".pbidedicated.windows.net").
Definition IsSynapseEndpoint (host : bytes) : bool := ContainsIgnoreCase host (tx ".sql.azuresynapse.net").
Definition IsAzureEndpoint (host : bytes) : bool :=
  ContainsIgnoreCase host (tx ".database.windows.net") || IsFabricEndpoint host || IsSynapseEndpoint host.

Definition GetEndpointType (host : bytes) : EndpointType :=
  if IsFabricEndpoint host then Fabric else if IsSynapseEndpoint host then Synapse else if IsAzureEndpoint host then AzureSQL else OnPremises.

Definition RequiresHostnameVerification (type : EndpointType) : bool :=
  match type with AzureSQL | Fabric | Synapse => true | OnPremises => false end.

(** ** Secrets *)

Section CreateSecret.
Context `{Values_} (TRUE : Value).
(** [ValidateAzureSecretExists], [GetAzureSecretType]. *)
Context (azure_secret_exists : bytes -> bool) (azure_secret_type : bytes -> bytes).

Abbreviation options := (gmap bytes Value).

(** The option is there with a text. *)
Definition has_option (o : options) (name : bytes) : bool :=
  match o !! name with Some v => negb (bool_decide (ToString v = [])) | None => false end.

Definition missing_field (field : bytes) : bytes :=
  tx "Missing required field '" ++ field ++ tx "'. Provide " ++ field ++ tx " parameter when creating secret.".

Fixpoint require_fields (o : options) (fields : list bytes) : bytes :=
  match fields with
  | [] => []
  | field :: fields =>
      match o !! field with
      | None => missing_field field
      | Some v => if bool_decide (ToString v = []) then tx "Field '" ++ field ++ tx "' cannot be empty." else require_fields o fields
      end
  end.

Fixpoint require_plain (o : options) (fields : list bytes) : bytes :=
  match fields with
  | [] => []
  | field :: fields => if has_option o field then require_plain o fields else tx "Missing required field '" ++ field ++ tx "'."
  end.

Definition validate_port (o : options) : bytes :=
  match o !! tx "port" with
  | None => []
  | Some v =>
      match GetWord PhysicalType.INT64 v with
      | Ok port_value =>
          if (port_value <? 1) || (65535 <? port_value) then tx "Port must be between 1 and 65535. Got: " ++ std_to_string port_value else []
      | _ => tx "Port must be a valid integer. Got: " ++ ToString v
      end
  end.

Definition or_port (error : bytes) (o : options) : bytes := match error with [] => validate_port o | _ => error end.

Definition ValidateMSSQLSecretFields (o : options) : bytes :=
  let has_access_token := has_option o (tx "access_token") in
  let has_azure_secret := has_option o (tx "azure_secret") in
  let auth := match o !! tx "authenticator" with Some v => ToString v | None => [] end in
  if negb (bool_decide (auth = [])) then
    if negb (bool_decide (Lower auth ∈ [tx "krb5"; tx "winsspi"])) then
      tx "Unsupported 'authenticator' value '" ++ auth ++ tx "'. Supported: krb5 (POSIX), winsspi (Windows)."
    else if has_access_token || has_azure_secret then
      tx "'authenticator' cannot be combined with access_token / azure_secret. Choose one auth method."
    else or_port (require_plain o [tx "host"; tx "database"]) o
  else if has_access_token then or_port (require_fields o [tx "host"; tx "database"]) o
  else if has_azure_secret then
    let azure_name := match o !! tx "azure_secret" with Some v => ToString v | None => [] end in
    if azure_secret_exists azure_name then or_port (require_fields o [tx "host"; tx "database"]) o
    else match azure_secret_type azure_name with
      | [] => tx "Error: Azure secret '" ++ azure_name ++ tx "' not found"
      | actual => tx "Error: Secret '" ++ azure_name ++ tx "' is not an Azure secret (type: " ++ actual ++ tx ")"
      end
  else if negb (has_option o (tx "user")) && negb (has_option o (tx "password")) then tx "Either user/password or azure_secret required"
  else or_port (require_fields o [tx "host"; tx "database"; tx "user"; tx "password"]) o.

(** [TrySetValue]. *)
Definition TrySetValue (o : options) (name : bytes) (m : gmap bytes Value) : gmap bytes Value :=
  match o !! name with Some v => <[name := v]> m | None => m end.

Definition set_or_true (o : options) (name : bytes) (m : gmap bytes Value) : gmap bytes Value :=
  <[name := default TRUE (o !! name)]> m.

(** The values of the credentials. *)
Definition login_values (o : options) (m : gmap bytes Value) : gmap bytes Value :=
  let m :=
    if has_option o (tx "access_token") then TrySetValue o (tx "access_token") m
    else if has_option o (tx "azure_secret") then TrySetValue o (tx "azure_tenant_id") (TrySetValue o (tx "azure_secret") m)
    else m in
  let m := if has_option o (tx "user") then TrySetValue o (tx "user") m else m in
  if has_option o (tx "password") then TrySetValue o (tx "password") m else m.

Definition optional_fields : list bytes :=
  [tx "schema_filter"; tx "table_filter"; tx "authenticator"; tx "krb5_configfile"; tx "krb5_keytabfile"; tx "krb5_credcachefile";
   tx "krb5_realm"; tx "service_principal_name"; tx "application_name"; tx "applicationname"].

Definition secret_values (o : options) : gmap bytes Value :=
  let m := login_values o (foldr (TrySetValue o) ∅ [tx "host"; tx "port"; tx "database"]) in
  foldr (TrySetValue o) (set_or_true o (tx "catalog") (set_or_true o (tx "use_encrypt") m)) optional_fields.

Definition CreateMSSQLSecretFromConfig (o : options) : res Secret :=
  match ValidateMSSQLSecretFields o with
  | [] => Ok (mkSecret (tx "mssql") (secret_values o))
  | error => invalid (tx "MSSQL Error: " ++ error)
  end.
End CreateSecret.

(** ** Session settings *)

Section Settings.
Context `{Values_}.

(** [TryGetCurrentSetting]. *)
Abbreviation ClientContext := (bytes -> option Value).

Definition setting_int (context : ClientContext) (name : bytes) (otherwise : Z) (cast : Z -> Z) : res Z :=
  match context name with None => Ok otherwise | Some v => z ← GetWord PhysicalType.INT64 v; Ok (cast z) end.
Definition setting_bool (context : ClientContext) (name : bytes) (otherwise : bool) : res bool :=
  match context name with None => Ok otherwise | Some v => b ← GetWord PhysicalType.BOOL v; Ok (negb (b =? 0)) end.

Definition to_int (z : Z) : Z := sx 32 z.
Definition to_size (z : Z) : Z := ux 64 z.
Definition as_is (z : Z) : Z := z.

Record MSSQLPoolConfig : Type := mkPoolConfig {
  connection_limit : Z; connection_cache : bool; connection_timeout : Z; idle_timeout : Z; min_connections : Z; acquire_timeout : Z;
  query_timeout : Z; metadata_timeout : Z; max_login7_packet : Z; requested_packet_size : Z; ask_utf8 : bool
}.

Definition LoadPoolConfig (context : ClientContext) : res MSSQLPoolConfig :=
  limit ← setting_int context (tx "mssql_connection_limit") DEFAULT_CONNECTION_LIMIT to_size;
  cache ← setting_bool context (tx "mssql_connection_cache") DEFAULT_CONNECTION_CACHE;
  timeout ← setting_int context (tx "mssql_connection_timeout") DEFAULT_CONNECTION_TIMEOUT to_int;
  idle ← setting_int context (tx "mssql_idle_timeout") DEFAULT_IDLE_TIMEOUT to_int;
  minimum ← setting_int context (tx "mssql_min_connections") DEFAULT_MIN_CONNECTIONS to_size;
  acquire ← setting_int context (tx "mssql_acquire_timeout") DEFAULT_ACQUIRE_TIMEOUT to_int;
  query ← setting_int context (tx "mssql_query_timeout") DEFAULT_QUERY_TIMEOUT to_int;
  metadata ← setting_int context (tx "mssql_metadata_timeout") DEFAULT_METADATA_TIMEOUT to_int;
  login7 ← setting_int context (tx "mssql_login7_max_packet") 0 as_is;
  packet ← setting_int context (tx "mssql_tds_packet_size") 0 as_is;
  utf8 ← setting_bool context (tx "mssql_utf8_support") true;
  Ok (mkPoolConfig limit cache timeout idle minimum acquire query metadata login7 packet utf8).

Definition LoadCatalogCacheTTL (context : ClientContext) : res Z := setting_int context (tx "mssql_catalog_cache_ttl") 0 as_is.
Definition LoadQueryTimeout (context : ClientContext) : res Z := setting_int context (tx "mssql_query_timeout") DEFAULT_QUERY_TIMEOUT to_int.
Definition LoadMetadataTimeout (context : ClientContext) : res Z := setting_int context (tx "mssql_metadata_timeout") DEFAULT_METADATA_TIMEOUT to_int.

Definition LoadAttachValidationTimeout (context : ClientContext) : res Z :=
  seconds ← setting_int context (tx "mssql_attach_validation_timeout") 0 to_int;
  if 0 <? seconds then Ok seconds else setting_int context (tx "mssql_connection_timeout") DEFAULT_CONNECTION_TIMEOUT to_int.

Record MSSQLStatisticsConfig : Type := mkStatisticsConfig { enabled : bool; level : Z; use_dbcc : bool; cache_ttl_seconds : Z }.

Definition LoadStatisticsConfig (context : ClientContext) : res MSSQLStatisticsConfig :=
  enabled ← setting_bool context (tx "mssql_enable_statistics") true;
  level ← setting_int context (tx "mssql_statistics_level") 0 as_is;
  use_dbcc ← setting_bool context (tx "mssql_statistics_use_dbcc") false;
  ttl ← setting_int context (tx "mssql_statistics_cache_ttl_seconds") 300 as_is;
  Ok (mkStatisticsConfig enabled level use_dbcc ttl).

Definition LoadConvertVarcharMax (context : ClientContext) : res bool := setting_bool context (tx "mssql_convert_varchar_max") true.
Definition LoadCTASUseBCP (context : ClientContext) : res bool := setting_bool context (tx "mssql_ctas_use_bcp") true.
Definition LoadExecInvalidateCache (context : ClientContext) : res bool := setting_bool context (tx "mssql_exec_invalidate_cache") false.

(** The validators of the settings. *)
Definition ValidatePositive (val : Z) : res unit := if val <? 1 then invalid (tx "Value must be >= 1, got: " ++ std_to_string val) else Ok tt.
Definition ValidateNonNegative (val : Z) : res unit := if val <? 0 then invalid (tx "Value must be >= 0, got: " ++ std_to_string val) else Ok tt.

Definition collation_char (c : byte) : bool := is_alnum c || bool_decide (c = z2b 0x5F).

Definition ValidateCollationName (parameter : Value) : res unit :=
  if IsNull parameter then Ok tt else
  if forallb collation_char (ToString parameter) then Ok tt
  else invalid (tx "Invalid collation name '" ++ ToString parameter ++ tx "': expected letters, digits and underscores").
End Settings.

(** ** ATTACH *)

Record AttachOptions : Type := mkAttachOptions {
  secret_name : bytes; azure_secret_option : bytes; azure_tenant_option : bytes; access_token_option : bytes;
  catalog_option : option bool; schema_filter_option : option bytes; table_filter_option : option bytes;
  order_pushdown_option : Z; lazy_validation : bool; application_name_option : bytes;
  unrecognized : list (bytes * Value)
}.

Definition no_options : AttachOptions := mkAttachOptions [] [] [] [] None None None (-1) false [] [].

Section Attach.
Context `{Values_} {P : Platform} `{Regex} `{Udp}.

(** One option, erased from those DuckDB sees when it is the extension's. *)
Definition read_option (o : AttachOptions) (name : bytes) (v : Value) : res AttachOptions :=
  let 'mkAttachOptions secret azure tenant token catalog schema table order lazy app rest := o in
  let lower_name := Lower name in
  let text := ToString v in
  let flag := b ← GetWord PhysicalType.BOOL v; Ok (negb (b =? 0)) in
  if bool_decide (lower_name = tx "secret") then Ok (mkAttachOptions text azure tenant token catalog schema table order lazy app rest)
  else if bool_decide (lower_name = tx "azure_secret") then Ok (mkAttachOptions secret text tenant token catalog schema table order lazy app rest)
  else if bool_decide (lower_name ∈ [tx "azure_tenant_id"; tx "azure_tenant"]) then
    Ok (mkAttachOptions secret azure text token catalog schema table order lazy app rest)
  else if bool_decide (lower_name = tx "access_token") then Ok (mkAttachOptions secret azure tenant text catalog schema table order lazy app rest)
  else if bool_decide (lower_name = tx "catalog") then b ← flag; Ok (mkAttachOptions secret azure tenant token (Some b) schema table order lazy app rest)
  else if bool_decide (lower_name = tx "schema_filter") then Ok (mkAttachOptions secret azure tenant token catalog (Some text) table order lazy app rest)
  else if bool_decide (lower_name = tx "table_filter") then Ok (mkAttachOptions secret azure tenant token catalog schema (Some text) order lazy app rest)
  else if bool_decide (lower_name = tx "order_pushdown") then
    b ← flag; Ok (mkAttachOptions secret azure tenant token catalog schema table (if b : bool then 1 else 0) lazy app rest)
  else if bool_decide (lower_name ∈ [tx "lazy_validation"; tx "lazyvalidation"]) then
    b ← flag; Ok (mkAttachOptions secret azure tenant token catalog schema table order b app rest)
  else if bool_decide (lower_name ∈ [tx "application_name"; tx "applicationname"; tx "application name"; tx "app name"]) then
    Ok (mkAttachOptions secret azure tenant token catalog schema table order lazy text rest)
  else Ok (mkAttachOptions secret azure tenant token catalog schema table order lazy app (rest ++ [(name, v)])).

Fixpoint read_options (o : AttachOptions) (options : list (bytes * Value)) : res AttachOptions :=
  match options with [] => Ok o | (name, v) :: options => o ← read_option o name v; read_options o options end.

Definition set_auth (azure_secret token : bytes) (m : AuthMethod) (i : MSSQLConnectionInfo) : MSSQLConnectionInfo :=
  mkInfo (host i) (port i) (instance_name i) (port_specified i) (database i) (user i) (password i) (use_encrypt i) (connected i) (catalog_enabled i)
    (application_name i) m true azure_secret (azure_tenant_id i) token (krb5_configfile i) (krb5_keytabfile i) (krb5_credcachefile i) (krb5_realm i)
    (service_principal_name i) (login7_max_packet i) (tds_packet_size i) (utf8_support i) (schema_filter i) (table_filter i) (order_pushdown i)
    (is_fabric_endpoint i) (utf8_support_acked i).

(** What ATTACH says over what the secret or the connection string says. *)
Definition override (o : AttachOptions) (i : MSSQLConnectionInfo) : MSSQLConnectionInfo :=
  mkInfo (host i) (port i) (instance_name i) (port_specified i) (database i) (user i) (password i) (use_encrypt i) (connected i)
    (default (catalog_enabled i) (catalog_option o))
    (match application_name_option o with [] => application_name i | name => name end) (auth_method i) (use_azure_auth i) (azure_secret_name i)
    (match azure_tenant_option o with [] => azure_tenant_id i | tenant => tenant end) (access_token i)
    (krb5_configfile i) (krb5_keytabfile i) (krb5_credcachefile i) (krb5_realm i)
    (service_principal_name i) (login7_max_packet i) (tds_packet_size i) (utf8_support i)
    (default (schema_filter i) (schema_filter_option o)) (default (table_filter i) (table_filter_option o))
    (if 0 <=? order_pushdown_option o then order_pushdown_option o else order_pushdown i) (is_fabric_endpoint i) (utf8_support_acked i).

Definition check_pattern (pattern : option bytes) : res unit :=
  match pattern with
  | None => Ok tt
  | Some p => match ValidatePattern p with [] => Ok tt | error => invalid (tx "MSSQL ATTACH error: " ++ error) end
  end.

(** Settings of the session every connection takes along. *)
Definition set_session (fabric : bool) (c : MSSQLPoolConfig) (i : MSSQLConnectionInfo) : MSSQLConnectionInfo :=
  mkInfo (host i) (port i) (instance_name i) (port_specified i) (database i) (user i) (password i) (use_encrypt i) (connected i) (catalog_enabled i)
    (application_name i) (auth_method i) (use_azure_auth i) (azure_secret_name i) (azure_tenant_id i) (access_token i)
    (krb5_configfile i) (krb5_keytabfile i) (krb5_credcachefile i) (krb5_realm i) (service_principal_name i)
    (if 0 <? max_login7_packet c then max_login7_packet c else 0) (if 0 <? requested_packet_size c then requested_packet_size c else 0) (ask_utf8 c)
    (schema_filter i) (table_filter i) (order_pushdown i) fabric (utf8_support_acked i).

Definition connection_info_of (NULL : Value) (secrets : bytes -> option Secret) (name path : bytes) (o : AttachOptions) : res MSSQLConnectionInfo :=
  match secret_name o, path with
  | _ :: _, _ => FromSecret NULL secrets (secret_name o)
  | [], _ :: _ =>
      let token := access_token_option o in
      let azure := azure_secret_option o in
      i ← FromConnectionString path (negb (bool_decide (token = [])) || negb (bool_decide (azure = [])));
      match token, azure with
      | _ :: _, _ => Ok (set_auth (azure_secret_name i) token MANUAL_TOKEN i)
      | [], _ :: _ => Ok (set_auth azure (access_token i) AZURE_AD i)
      | [], [] => Ok i
      end
  | [], [] =>
      invalid (tx "MSSQL Error: Either SECRET or connection string is required for ATTACH." ++ [z2b 10] ++ tx "With secret: ATTACH '' AS " ++ name ++
        tx " (TYPE mssql, SECRET <secret_name>)" ++ [z2b 10] ++
        tx "With connection string: ATTACH 'Server=host;Database=db;User Id=user;Password=pass' AS " ++ name ++ tx " (TYPE mssql)")
  end.

(** How the login is tried before the catalog is made. *)
Inductive validation : Type := ManualToken | Fedauth | IntegratedAuth | SqlAuth.

Definition validation_of (i : MSSQLConnectionInfo) : validation :=
  if negb (bool_decide (access_token i = [])) then ManualToken
  else if use_azure_auth i then Fedauth
  else if bool_decide (auth_method i ∈ [KRB5; WINSSPI]) then IntegratedAuth
  else SqlAuth.

(** ATTACH up to the login: the settings of the catalog's connections, its
    pool's, the login to try and its timeout unless validation is lazy. *)
Definition MSSQLAttach (NULL : Value) (secrets : bytes -> option Secret) (context : bytes -> option Value) (browser : BrowserSettings)
    (name path : bytes) (options : list (bytes * Value)) : res (MSSQLConnectionInfo * MSSQLPoolConfig * option (validation * Z) * list (bytes * Value)) :=
  o ← read_options no_options options;
  i ← connection_info_of NULL secrets name path o;
  _ ← check_pattern (schema_filter_option o);
  _ ← check_pattern (table_filter_option o);
  i ← ResolveNamedInstance browser (override o i);
  let fabric := IsFabricEndpoint (host i) in
  pool_config ← LoadPoolConfig context;
  let i := set_session fabric pool_config i in
  timeout ← LoadAttachValidationTimeout context;
  Ok (i, pool_config, if lazy_validation o then None else Some (validation_of i, timeout), unrecognized o).
End Attach.
