(* ===== verification/AttachSpec.v ===== *)
(** * What ATTACH makes sure of

    The way a connection logs in is said twice in its settings, by [auth_method]
    and by the older [access_token] and [use_azure_auth]; every ATTACH that is
    accepted has them agree. A failed login's message holds the server's. *)

From S2P Require Import Prelude Sql Text TdsTypes Values Literals LiteralsSpec ConnectionInfo InstanceResolver InstanceResolverSpec CatalogFilter Attach.

(** ** Messages *)

(** Nothing the server or the network said is lost. *)
Lemma MSSQLTranslateConnectionError_keeps (error : bytes) host port user database server_error server_state :
  error `suffix_of` MSSQLTranslateConnectionError error host port user database server_error server_state.
Proof.
  unfold MSSQLTranslateConnectionError.
  repeat match goal with |- context [if ?b then _ else _] => destruct b end;
    try (rewrite ?app_assoc; by eexists).
  apply suffix_nil.
Qed.

(** ** Ports *)

Definition port_ok (i : BrowserInstance) : Prop := tcp_enabled i = true -> 1 <= tcp_port i <= 65535.

Lemma set_field_port k v i : port_ok i -> port_ok (set_field k v i).
Proof.
  intros Hi. unfold set_field, set_tcp. repeat case_bool_decide; try done. destruct v; [done|]. destruct (stoi _) as [p|]; [|done].
  destruct ((0 <? p) && (p <=? 65535)) eqn:E; [|done]. intros _. cbn. lia.
Qed.

Lemma record_loop_port fuel s i : port_ok i -> port_ok (record_loop fuel s i).1.
Proof.
  revert s i. induction fuel as [|fuel IH]; intros s i Hi; [done|]. cbn [record_loop]. destruct (scanner_Next s) as [[k r]|]; [|done].
  destruct (AtRecordEnd r); [done|]. destruct (scanner_Next r) as [[v r']|]; [|done].
  destruct (AtRecordEnd r'); [by apply set_field_port|]. by apply IH, set_field_port.
Qed.

Lemma records_loop_ports fuel s : Forall port_ok (records_loop fuel s).
Proof.
  revert s. induction fuel as [|fuel IH]; intros s; [constructor|]. cbn [records_loop]. destruct s as [|c s]; [constructor|].
  destruct (ParseRecord (c :: s)) as [inst r] eqn:E. assert (Hi : port_ok inst).
  { change inst with ((inst, r).1). rewrite <- E. by apply record_loop_port. }
  destruct (instance_name_of inst); [constructor|]. by constructor.
Qed.

Lemma ParseBrowserResponse_ports d rs : ParseBrowserResponse d = inr rs -> Forall port_ok rs.
Proof.
  unfold ParseBrowserResponse. destruct d as [|a [|b [|c d]]]; try done. destruct (negb _); [done|]. destruct (_ <? _); [done|].
  match goal with |- inr ?x = inr rs -> _ => intros E; assert (x = rs) as <- by congruence end. apply records_loop_ports.
Qed.

Lemma ResolveCore_port `{Udp} h p inst t h' p' : ResolveCore h p inst t = Success h' p' -> 1 <= p' <= 65535.
Proof.
  unfold ResolveCore. destruct (getaddrinfo _ p) as [e|[|addr r]]; try done. destruct (ask _ _ _) as [d| |[|]]; try done.
  destruct (ParseBrowserResponse d) as [e|rs] eqn:E; [done|]. unfold choose. destruct (list_find _ rs) as [[j x]|] eqn:Ef; [|done].
  apply list_find_Some in Ef as (Hx & _ & _). apply list_elem_of_lookup_2 in Hx. pose proof (ParseBrowserResponse_ports _ _ E) as Hp.
  rewrite Forall_forall in Hp. specialize (Hp x Hx). destruct (tcp_enabled x) eqn:Et; [|done]. intros [= _ <-]. by apply Hp.
Qed.

(** ** Connection strings *)

Definition login_of (m : AuthMethod) : validation :=
  match m with SQL => SqlAuth | AZURE_AD => Fedauth | MANUAL_TOKEN => ManualToken | KRB5 | WINSSPI => IntegratedAuth end.

(** What the session and the options do not change. *)
Definition same_login (i j : MSSQLConnectionInfo) : Prop :=
  auth_method i = auth_method j /\ access_token i = access_token j /\ use_azure_auth i = use_azure_auth j /\ password i = password j.

Lemma validation_same i j : same_login i j -> validation_of i = validation_of j.
Proof. intros (Hm & Ht & Hu & _). unfold validation_of. by rewrite Hm, Ht, Hu. Qed.

Section Login.
Context {P : Platform}.

(** The integrated login of the platform. *)
Definition native (m : AuthMethod) : Prop := m = if windows then WINSSPI else KRB5.

Lemma AuthenticatorToMethod_Ok name m : AuthenticatorToMethod name = Ok m ->
  (name = [] /\ m = SQL) \/ (name = tx "krb5" /\ m = KRB5) \/ (name = tx "winsspi" /\ m = WINSSPI).
Proof. unfold AuthenticatorToMethod. repeat case_bool_decide; try done; intros [= <-]; auto. Qed.

Lemma no_conflict_integrated ps azure : ValidateAuthConflicts ps azure = [] -> ResolveIntegratedAuth ps <> [] ->
  default [] (ps !! tx "password") = [] /\ azure = false /\
  (ResolveIntegratedAuth ps = tx "krb5" -> windows = false) /\ (ResolveIntegratedAuth ps = tx "winsspi" -> windows = true).
Proof.
  intros Hv Hi. unfold ValidateAuthConflicts in Hv. rewrite (bool_decide_eq_false_2 (ResolveIntegratedAuth ps = [])) in Hv by done. cbn [negb andb] in Hv.
  destruct (nonempty (ps !! tx "password")) eqn:Hp; [done|]. destruct (_ && (_ || _)); [done|]. destruct azure; [done|].
  split_and!; [|done|..].
  - destruct (ps !! tx "password") as [[|c r]|]; done.
  - intros E. destruct windows; [|done]. rewrite E in Hv. by rewrite bool_decide_eq_true_2 in Hv.
  - intros E. destruct windows; [done|]. rewrite E in Hv. rewrite bool_decide_eq_false_2 in Hv by done. cbn [andb negb] in Hv. by rewrite bool_decide_eq_true_2 in Hv.
Qed.

Lemma check_port_range server : check_port server = [] -> let '(_, p, _) := endpoint server in 1 <= p <= 65535.
Proof.
  unfold check_port, endpoint. destruct (split_first COMMA server) as [[h t]|]; [|by cbn; lia]. destruct (stoi t) as [p|]; [|done].
  destruct ((p <? 1) || (65535 <? p)) eqn:E; [done|]. intros _. change (default 0 (Some p)) with p. rewrite Z.mod_small; lia.
Qed.

Lemma FromConnectionString_login cs azure i : FromConnectionString cs azure = Ok i ->
  access_token i = [] /\ use_azure_auth i = false /\ azure_secret_name i = [] /\ 1 <= port i <= 65535 /\
  (auth_method i = SQL \/ (native (auth_method i) /\ password i = [] /\ azure = false)).
Proof.
  unfold FromConnectionString. destruct (ValidateConnectionString cs azure) eqn:Ev; [|done]. intros E.
  unfold ValidateConnectionString in Ev. case_bool_decide; [done|]. destruct (parse_params cs !! tx "server") as [server|] eqn:Es; [|done].
  case_bool_decide; [done|]. destruct (ValidateAuthConflicts _ azure) eqn:Ec; [|done]. destruct (_ && bool_decide _); [done|]. destruct (_ && bool_decide _); [done|].
  pose proof (check_port_range server Ev) as Hp. change (default [] (Some server)) with server in E. destruct (endpoint server) as [[h p] sp].
  apply bind_Ok in E as ([h' inst] & _ & E). apply bind_Ok in E as (enc & _ & E). apply bind_Ok in E as (m & Hm & E). injection E as <-.
  cbn [access_token use_azure_auth azure_secret_name port auth_method password]. split_and!; try done; try lia.
  apply AuthenticatorToMethod_Ok in Hm as [[_ ->]|[[Hn ->]|[Hn ->]]]; [by left|right..].
  all: destruct (no_conflict_integrated _ _ Ec) as (Hpw & Haz & Hk & Hw); [by rewrite Hn|]; split_and!; [|done|done]; unfold native.
  - by rewrite Hk.
  - by rewrite Hw.
Qed.
End Login.

(** ** Secrets *)

Section SecretLogin.
Context `{Values_} (TRUE NULL : Value) (HNULL : IsNull NULL = true).
Context (azure_secret_exists : bytes -> bool) (azure_secret_type : bytes -> bytes).

Lemma TrySet_lookup o names m k : foldr (TrySetValue o) m names !! k = if bool_decide (k ∈ names) then match o !! k with Some v => Some v | None => m !! k end else m !! k.
Proof.
  induction names as [|n names IH]; [done|]. cbn [foldr]. unfold TrySetValue at 1.
  destruct (decide (k = n)) as [->|Hne].
  - rewrite (bool_decide_eq_true_2 (n ∈ n :: names)) by (by left). destruct (o !! n) as [v|] eqn:E; [by rewrite lookup_insert_eq|]. rewrite IH. by case_bool_decide.
  - assert (bool_decide (k ∈ n :: names) = bool_decide (k ∈ names)) as -> by (apply bool_decide_ext; rewrite elem_of_cons; naive_solver).
    destruct (o !! n) as [v|]; [rewrite lookup_insert_ne by done|]; exact IH.
Qed.

Lemma TrySetValue_other o n m k : k <> n -> TrySetValue o n m !! k = m !! k.
Proof. intros Hk. unfold TrySetValue. destruct (o !! n); [by rewrite lookup_insert_ne|done]. Qed.

Lemma login_values_other o m k :
  (has_option o (tx "access_token") = false \/ k <> tx "access_token") ->
  (has_option o (tx "azure_secret") = false \/ (k <> tx "azure_secret" /\ k <> tx "azure_tenant_id")) -> k <> tx "user" -> k <> tx "password" ->
  login_values o m !! k = m !! k.
Proof.
  intros Ht Ha Hu Hp. unfold login_values.
  destruct (has_option o (tx "password")); try rewrite (TrySetValue_other _ (tx "password")) by exact Hp; (destruct (has_option o (tx "user")); try rewrite (TrySetValue_other _ (tx "user")) by exact Hu);
    (destruct (has_option o (tx "access_token")) eqn:Et; [destruct Ht as [|Ht]; [congruence|]; by rewrite TrySetValue_other|];
     destruct (has_option o (tx "azure_secret")) eqn:Ea; [destruct Ha as [|[Ha1 Ha2]]; [congruence|]; by rewrite !TrySetValue_other|done]).
Qed.

Lemma get_str_None s k : secret_map s !! k = None -> get_str NULL s k = [].
Proof. intros Hk. unfold get_str, TryGetValue. rewrite Hk. change (default NULL None) with NULL. by rewrite HNULL. Qed.

(** A field no credential is called. *)
Lemma secret_values_field o k : k <> tx "catalog" -> k <> tx "use_encrypt" ->
  (has_option o (tx "access_token") = false \/ k <> tx "access_token") ->
  (has_option o (tx "azure_secret") = false \/ (k <> tx "azure_secret" /\ k <> tx "azure_tenant_id")) -> k <> tx "user" -> k <> tx "password" ->
  bool_decide (k ∈ [tx "host"; tx "port"; tx "database"]) = false ->
  secret_values TRUE o !! k = if bool_decide (k ∈ optional_fields) then o !! k else None.
Proof.
  intros Hc He Ht Ha Hu Hp Hb. unfold secret_values. rewrite TrySet_lookup. unfold set_or_true. rewrite !lookup_insert_ne by done.
  rewrite login_values_other by done. rewrite TrySet_lookup, Hb, lookup_empty. destruct (bool_decide (k ∈ optional_fields)); [|done]. by destruct (o !! k).
Qed.

(** A made secret holds a token or an azure secret only if the options have it,
    and never next to an authenticator. *)
Lemma created_secret o s : CreateMSSQLSecretFromConfig TRUE azure_secret_exists azure_secret_type o = Ok s ->
  get_str NULL s (tx "authenticator") <> [] -> get_str NULL s (tx "access_token") = [] /\ get_str NULL s (tx "azure_secret") = [].
Proof.
  unfold CreateMSSQLSecretFromConfig. destruct (ValidateMSSQLSecretFields _ _ o) eqn:Ev; [|done]. intros E Hauth.
  assert (s = mkSecret (tx "mssql") (secret_values TRUE o)) as -> by congruence.
  assert (Hfield : secret_values TRUE o !! tx "authenticator" = o !! tx "authenticator").
  { rewrite secret_values_field; [done|done|done|by right|by right|done|done|done]. }
  destruct (o !! tx "authenticator") as [v|] eqn:Eo; [|by destruct Hauth; apply get_str_None].
  assert (Ht : ToString v <> []).
  { intros Ht. apply Hauth. unfold get_str, TryGetValue. cbn [secret_map]. rewrite Hfield. change (default NULL (Some v)) with v. by destruct (IsNull v). }
  unfold ValidateMSSQLSecretFields in Ev. rewrite Eo in Ev. rewrite (bool_decide_eq_false_2 (ToString v = [])) in Ev by done. cbn [negb] in Ev.
  destruct (negb _); [done|]. destruct (has_option o (tx "access_token")) eqn:H1; [done|]. destruct (has_option o (tx "azure_secret")) eqn:H2; [done|].
  split; apply get_str_None; cbn [secret_map]; rewrite secret_values_field; try done; by left.
Qed.
End SecretLogin.

(** ** ATTACH *)

Section AttachLogin.
Context `{Values_} {P : Platform} `{Regex} `{Udp}.

Lemma override_same o i : same_login (override o i) i /\ port (override o i) = port i.
Proof. done. Qed.

Lemma ResolveNamedInstance_same settings i j : ResolveNamedInstance settings i = Ok j ->
  same_login j i /\ (port j = port i \/ 1 <= port j <= 65535).
Proof.
  unfold ResolveNamedInstance. destruct (_ || _); [intros E; assert (j = i) as -> by congruence; by split; [|left]|].
  destruct (negb _); [done|]. destruct (Resolve _ _ _) as [h p|e m] eqn:Er; [|done]. intros E.
  assert (j = set_endpoint (match h with [] => host i | _ => h end) p i) as -> by congruence.
  split; [done|right]. by eapply ResolveCore_port.
Qed.

(** Whose settings the connections have, up to the endpoint. *)
Definition consistent (i : MSSQLConnectionInfo) : Prop := validation_of i = login_of (auth_method i).

Lemma consistent_same i j : same_login i j -> consistent j -> consistent i.
Proof. intros Hs Hj. unfold consistent. rewrite (validation_same i j Hs), Hj. by destruct Hs as [-> _]. Qed.

Lemma consistent_plain i : access_token i = [] -> use_azure_auth i = false -> auth_method i ∈ [SQL; KRB5; WINSSPI] -> consistent i.
Proof.
  intros Ht Hu Hm. unfold consistent, validation_of. rewrite Ht, Hu, bool_decide_eq_true_2 by done. cbn [negb].
  rewrite !elem_of_cons, elem_of_nil in Hm. by destruct Hm as [->|[->|[->|[]]]].
Qed.

Lemma secret_authenticator_Ok NULL name s m m' : secret_authenticator NULL name s m = Ok m' ->
  m' = m \/ (get_str NULL s (tx "authenticator") <> [] /\ m' ∈ [KRB5; WINSSPI]).
Proof.
  unfold secret_authenticator. case_bool_decide as E; [intros E'; left; congruence|].
  assert (Hne : get_str NULL s (tx "authenticator") <> []) by (intros E'; apply E; by rewrite E').
  case_bool_decide; [intros [= <-]; right; split; [done|left]|]. case_bool_decide; [intros [= <-]; right; split; [done|right; left]|done].
Qed.

Lemma FromSecret_consistent NULL secrets name i :
  (forall s, secrets name = Some s -> get_str NULL s (tx "authenticator") <> [] ->
    get_str NULL s (tx "access_token") = [] /\ get_str NULL s (tx "azure_secret") = []) ->
  FromSecret NULL secrets name = Ok i -> consistent i.
Proof.
  intros Hs. unfold FromSecret. destruct (secrets name) as [s|]; [|done]. specialize (Hs s eq_refl). destruct (negb _); [done|].
  intros E. apply bind_Ok in E as (p & _ & E). apply bind_Ok in E as ([h inst] & _ & E). apply bind_Ok in E as (e & _ & E).
  apply bind_Ok in E as (c & _ & E). apply bind_Ok in E as (m & Hm & E). injection E as <-.
  destruct (secret_authenticator_Ok _ _ _ _ _ Hm) as [->|[Ha Hi]].
  - unfold consistent, validation_of. cbn [auth_method access_token use_azure_auth].
    destruct (get_str NULL s (tx "access_token")) as [|c0 t0]; [|done]. cbn [bool_decide negb orb]. rewrite bool_decide_eq_true_2 by done. cbn [negb orb].
    by destruct (get_str NULL s (tx "azure_secret")).
  - destruct (Hs Ha) as [Ht Hz]. apply consistent_plain; cbn [auth_method access_token use_azure_auth]; rewrite ?Ht, ?Hz; [done|by rewrite bool_decide_eq_true_2|by right].
Qed.

(** What holds of the settings a connection string gives. *)
Definition string_login (i : MSSQLConnectionInfo) : Prop :=
  1 <= port i <= 65535 /\ (auth_method i ∈ [KRB5; WINSSPI] -> native (auth_method i) /\ password i = []).

Lemma connection_string_login NULL secrets name path o i : secret_name o = [] -> connection_info_of NULL secrets name path o = Ok i ->
  consistent i /\ string_login i.
Proof.
  unfold connection_info_of. intros ->. destruct path as [|c0 path]; [done|]. intros E. apply bind_Ok in E as (j & Hj & E).
  destruct (FromConnectionString_login _ _ _ Hj) as (Ht & Hu & _ & Hp & Hm).
  destruct (access_token_option o) as [|t0 t] eqn:Eto; [destruct (azure_secret_option o) as [|a0 a] eqn:Eao|].
  - assert (i = j) as -> by congruence. split.
    + apply consistent_plain; [done..|]. destruct Hm as [->|[-> _]]; [by left|]. destruct windows; [right; right|right]; by left.
    + split; [done|]. intros Hi. by destruct Hm as [E'|(? & ? & _)]; [rewrite E' in Hi; rewrite !elem_of_cons, elem_of_nil in Hi; naive_solver|].
  - assert (i = set_auth (a0 :: a) (access_token j) AZURE_AD j) as -> by congruence. split.
    + unfold consistent, validation_of, set_auth. cbn. by rewrite Ht.
    + split; [done|]. cbn. rewrite !elem_of_cons, elem_of_nil. naive_solver.
  - assert (i = set_auth (azure_secret_name j) (t0 :: t) MANUAL_TOKEN j) as -> by congruence. split; [done|].
    split; [done|]. cbn. rewrite !elem_of_cons, elem_of_nil. naive_solver.
Qed.

(** C22. An accepted ATTACH knows one way to log in: when every secret was made by
    [CREATE SECRET], the way the settings' token and Azure flag choose at
    validation and in the pool is the one [auth_method] names. Without a secret
    the port is one, and an integrated login is the platform's own and carries no
    password. *)
Theorem MSSQLAttach_in_sync TRUE NULL azure_secret_exists azure_secret_type secrets context browser name path options i pool login rest :
  IsNull NULL = true ->
  (forall n s, secrets n = Some s -> exists o, CreateMSSQLSecretFromConfig TRUE azure_secret_exists azure_secret_type o = Ok s) ->
  MSSQLAttach NULL secrets context browser name path options = Ok (i, pool, login, rest) ->
  validation_of i = login_of (auth_method i) /\
  (forall how seconds, login = Some (how, seconds) -> how = login_of (auth_method i)) /\
  (forall o, read_options no_options options = Ok o -> secret_name o = [] ->
    1 <= port i <= 65535 /\ (auth_method i ∈ [KRB5; WINSSPI] -> native (auth_method i) /\ password i = [])).
Proof.
  intros HNULL Hsecrets E. unfold MSSQLAttach in E. apply bind_Ok in E as (o & Ho & E). apply bind_Ok in E as (j & Hj & E).
  apply bind_Ok in E as ([] & _ & E). apply bind_Ok in E as ([] & _ & E). apply bind_Ok in E as (k & Hk & E).
  apply bind_Ok in E as (conf & _ & E). apply bind_Ok in E as (t & _ & E).
  destruct (ResolveNamedInstance_same _ _ _ Hk) as [Hsame Hport].
  remember (set_session (IsFabricEndpoint (host k)) conf k) as i' eqn:Ei. assert (i' = i) as <- by congruence.
  assert (Hi : same_login i' j) by (rewrite Ei; exact Hsame).
  assert (Hp : port i' = port k) by (by rewrite Ei).
  assert (Hc : consistent i').
  { apply (consistent_same _ _ Hi). destruct (secret_name o) as [|c s] eqn:Es; [by eapply connection_string_login|].
    unfold connection_info_of in Hj. rewrite Es in Hj. eapply FromSecret_consistent; [|exact Hj].
    intros s' Hs'. destruct (Hsecrets _ _ Hs') as [o' Ho']. by eapply created_secret. }
  split; [exact Hc|split].
  - intros how seconds ->. destruct (lazy_validation o); [congruence|]. assert (how = validation_of i') as -> by congruence. exact Hc.
  - intros o' Ho' Hn. assert (o' = o) as -> by congruence. destruct (connection_string_login _ _ _ _ _ _ Hn Hj) as [_ [Hr Hl]].
    destruct Hi as (Hm & _ & _ & Hpw). rewrite Hp, Hm, Hpw. split; [|done].
    change (port (override o j)) with (port j) in Hport. destruct Hport as [-> |]; [exact Hr|done].
Qed.
End AttachLogin.

(** ** At work *)

Module AttachSample.
Import SampleValues BrowserSample.
#[export] Instance posix : Platform := false.
#[export] Instance every_pattern : Regex := {| regex_error _ := None; regex_search _ _ := true |}.

Definition text (s : string) : Value := mkValue (mkLogicalType VARCHAR PhysicalType.VARCHAR 0 0) (Some (Str (tx s))).
Definition NULL : Value := mkValue (mkLogicalType VARCHAR PhysicalType.VARCHAR 0 0) None.
Definition TRUE : Value := mkValue (mkLogicalType BOOLEAN PhysicalType.BOOL 0 0) (Some (Word 1)).

(** A secret of Kerberos, for a named instance. *)
Definition written : gmap bytes Value :=
  list_to_map [(tx "host", text "db1\SALES"); (tx "database", text "d"); (tx "authenticator", text "krb5"); (tx "krb5_realm", text "EXAMPLE.COM")].
Definition secrets (name : bytes) : option Secret :=
  if bool_decide (name = tx "krb") then Some (mkSecret (tx "mssql") (secret_values TRUE written)) else None.

Definition attached : res (MSSQLConnectionInfo * MSSQLPoolConfig * option (validation * Z) * list (bytes * Value)) :=
  MSSQLAttach NULL secrets (fun _ => None) defaults (tx "db") [] [(tx "Secret", text "krb"); (tx "App Name", text "report"); (tx "read_only", TRUE)].
End AttachSample.
#[local] Existing Instance AttachSample.posix.
#[local] Existing Instance AttachSample.every_pattern.
#[local] Existing Instance SampleValues.values.
#[local] Existing Instance BrowserSample.network.

Lemma MSSQLAttach_in_sync_witness :
  match AttachSample.attached with
  | Ok (i, _, login, rest) => auth_method i = KRB5 /\ port i = 50123 /\ application_name i = tx "report" /\ rest.*1 = [tx "read_only"] /\
      validation_of i = login_of (auth_method i) /\ forall how seconds, login = Some (how, seconds) -> how = login_of (auth_method i)
  | _ => False
  end.
Proof.
  destruct AttachSample.attached as [[[[i pool] login] rest]|x|d] eqn:E; [|by vm_compute in E..].
  destruct (MSSQLAttach_in_sync AttachSample.TRUE AttachSample.NULL (fun _ => false) (fun _ => []) AttachSample.secrets (fun _ => None)
    BrowserSample.defaults (tx "db") [] [(tx "Secret", AttachSample.text "krb"); (tx "App Name", AttachSample.text "report"); (tx "read_only", AttachSample.TRUE)]
    i pool login rest) as (Hv & Hl & _); [reflexivity| |exact E|].
  - intros n s Hs. unfold AttachSample.secrets in Hs. case_bool_decide; [|done]. exists AttachSample.written. injection Hs as <-. by vm_compute.
  - repeat split; try done; clear Hv Hl; vm_compute in E; injection E as <- _ _ <-; done.
Defined.
